(* ===== verification/_CoqProject ===== *)
-Q . S2P
Prelude.v
Monad.v
Iomem.v
CpuState.v
Csr.v
Trap.v
Mmu.v
Arith.v
Insn.v
InsnC.v
InsnI.v
SoftFp.v
SoftFpOps.v
InsnF.v
Interp.v
Machine.v
ArithFacts.v
FpWide.v
FpInv.v
CpuInv.v
CsrInv.v
IomemFacts.v
MmuInv.v
InsnInv.v
FpInsnInv.v
InterpInv.v
MachineInv.v
PlicFacts.v
TrapFacts.v
IsoFacts.v
Cutils.v
Sha256.v
Sha256Facts.v
Aes.v
AesFacts.v
CStr.v
Fdt.v
FdtFacts.v
FdtRun.v
FdtTree.v
Bios.v
Virtio.v
VirtioDev.v
VirtioFacts.v
VirtioReply.v
VirtioBlkFacts.v
VirtioInv.v
Virtio9p.v
Virtio9pMsg.v
Virtio9pServe.v
Virtio9pFacts.v
BlockFile.v
BlockFileFacts.v
DiskBoardFacts.v
FsMem.v
FsMemInv.v
FsMemFacts.v
FsMemRun.v
FsMemDemo.v
Virtio9pDemo.v
Ps2.v
Ps2Facts.v
PckbdFacts.v
FsUtils.v
FsUtilsFacts.v
Json.v
JsonFacts.v
JsonInv.v
MachineCfg.v
MachineCfgFacts.v
ConfigFacts.v
SimpleFb.v
Boot.v
Pci.v
PciFacts.v
PciIrqFacts.v
VirtioPci.v
Pic.v
PcDevices.v
