(* ===== verification/Prelude.v ===== *)
(** * TinyEMU (the RISC-V emulator embedded in LinuxPDF), verified

    The program under src/tinyemu/ is an emulator of a RISC-V PC: a CPU
    (riscv_cpu.c and its templates), a physical memory map with RAM and device
    ranges (iomem.c), the devices of the board (riscv_machine.c, virtio.c, simplefb.c), a file
    system in memory behind the 9P device (fs_net.c), PC devices (ps2.c, pckbd.c, pci.c, x86_machine.c), disk images (block_device in
    temu.c), the configuration of a machine (machine.c, json.c, fs_utils.c), and
    libraries (softfp, sha256, aes).  The main loop calls
    riscv_machine_interp; the CPU fetches and executes instructions, which read and
    write guest RAM through host pointers cached in TLBs, and device registers
    through the callbacks of the memory map; devices raise interrupt lines, which the
    PLIC turns into bits of the CPU's mip register; the CPU takes them as traps.

    ** Conventions

    A C function is a function of the same name.  A w-bit integer is a Z in its
    range; [wrap] and [swrap] are the conversions to unsigned and signed types, with
    the notations u32, i32 and so on.  A function with effects is in the state and
    error monad [M] of Monad.v: it returns a value and a state, or stops in abort(),
    a failed assert(), exit(), an access outside every host object ([StopFault]), a
    count that passes its signed type ([StopOverflow]), or by running out of the
    recursion bound of the model ([StopFuel]).  Undefined
    behaviour of C that a run could reach is a [StopFault], or an arbitrary value
    that is a parameter (an uninitialised local).

    ** The files

    - Prelude (this file): C integers, their bit-level lemmas, the configuration
      ([Config]: the widths of the build, 32, 64 or 128 bits, with or without a
      double-width integer type, and the host's pointers).  Monad: effects and
      weakest preconditions, and the bytes of host memory.
    - Iomem (iomem.c): ranges, registration, lookup, dirty bits.
    - CpuState, Csr, Trap (riscv_cpu.c, riscv_cpu_priv.h): registers, TLBs, reset;
      control and status registers; traps, returns, interrupt selection.
    - Mmu (riscv_cpu.c): page walk, loads and stores through the TLBs, devices.
      The devices are the class [Platform], which Machine implements.
    - Arith, Insn, InsnC, InsnI, InsnF, Interp (riscv_cpu_template.h and
      riscv_cpu_fp_template.h): the cases of the big switch, the loop around it.
    - SoftFp, SoftFpOps (softfp_template.h, softfp_template_icvt.h, softfp.c).
    - Machine (riscv_machine.c): RTC, HTIF, CLINT, PLIC, main loop calls; the devices
      of other files are the class [OtherDevices].  Boot: the memory map of
      riscv_machine_init, with the ranges of the virtio devices and the frame buffer.
    - Fdt, Bios (riscv_machine.c): the device tree, the boot images.
    - Cutils (cutils.h), CStr (C strings); Sha256 (sha256.c); Aes (aes.c).
    - Virtio (virtio.c): queues, descriptor chains, configuration space and registers of
      both transports.  VirtioDev: the block, network, console and input devices; the
      back ends are classes.  BlockFile (temu.c): disk images, one of the back ends.
    - Virtio9p (virtio.c): the 9P device; the operations of a file system are the class
      [P9Board].  Virtio9pMsg: messages as lists of values, marshall and unmarshall.
      Virtio9pServe: the server that the device is, on messages.
    - FsMem (fs_net.c): the file system in memory, with its inodes and open files on a heap.
      The clock, realloc, the network and the command file are the class [FsHost].
    - SimpleFb (simplefb.c): the display; the calls of redraw_func are the result.
    - Ps2 (ps2.c), Pckbd (pckbd.c): keyboard, mouse and their controller.
    - Pci (pci.c): devices, regions, configuration space, interrupts, capabilities, the
      host bridge.  The functions bar_set are a parameter; PciFacts states as the class
      [BarClient] what they promise.  VirtioPci (virtio.c): a device on that bus.
    - Pic (x86_machine.c): the two 8259 interrupt controllers.  PcDevices (x86_machine.c):
      the serial port, the interval timer, the clock; what the host gives is an argument.
    - FsUtils (fs_utils.c): quoted names, hexadecimal strings, file ids.
    - Json (json.c): values, the parser, accessors.  MachineCfg (machine.c): reading a
      configuration, file names, loading of the files it names.

    The other files hold theorems: ArithFacts, FpWide, FpInv (arithmetic and
    softfp); CpuInv, CsrInv, MmuInv, InsnInv, FpInsnInv, InterpInv, MachineInv (the
    invariant of every layer, by weakest preconditions); Boot (their composition);
    IomemFacts, TrapFacts, IsoFacts, PlicFacts; FdtFacts, FdtRun, FdtTree; Sha256Facts,
    AesFacts; VirtioFacts (chains), VirtioReply (what every device has in common: the
    notification of a queue, replies, the class [VirtioLaws]), VirtioBlkFacts, VirtioInv,
    Virtio9pFacts; BlockFileFacts; FsMemInv (the invariant of the heap and what each
    step does to it), FsMemFacts (the operations), FsMemRun (all runs, listings);
    Ps2Facts, PckbdFacts; PciFacts, PciIrqFacts; FsUtilsFacts, JsonFacts, JsonInv,
    MachineCfgFacts, ConfigFacts.  DiskBoardFacts (a board with a block device on a disk
    image), FsMemDemo (a host for the file system in memory) and Virtio9pDemo (a board with
    a 9P device on that file system, which keeps the laws of one) hold the witnesses of their
    groups.  SimpleFb, VirtioPci, Pic and PcDevices hold
    their theorems behind their definitions.

    ** What the theorems show

    - Safety of the whole: riscv_machine_init registers the expected ranges for any
      configuration; from reset, with any guest memory, any sequence of main-loop calls
      and any behaviour of the virtio devices (the values of their registers, what they
      write to the guest, their interrupts), the CPU, the memory map and the devices of
      riscv_machine.c never leave the host memory and every call ends
      ([Boot.machine_boot_safe], by [InterpInv.riscv_cpu_interp_safe] and the invariants
      of the layers).  The virtio devices have theorems of their own; their requests that
      the code does not survive are not in them.
    - Isolation: an instruction below M-mode changes no M-mode state
      ([IsoFacts.mode_isolation]); traps and returns are inverse up to documented
      fields; interrupts are taken in priority order ([TrapFacts]).
    - Refinement and liveness of the interrupt controller ([PlicFacts]).
    - Arithmetic: division, high products, wide multiplication, division and square
      root are the mathematical ones, with the operands for which they are not
      ([ArithFacts], [FpWide]); every softfp operation and conversion returns for every
      operand ([FpInv.softfp_returns]).
    - The memory map and dirty bits ([IomemFacts]).
    - The device tree that riscv_build_fdt writes is the one a reader of the format
      finds, and copy_bios puts the images and the boot program at the addresses that
      the tree names ([FdtTree], [Bios]).
    - SHA-256 and AES are FIPS 180-4 and FIPS 197 ([Sha256Facts], [AesFacts]).
    - VIRTIO: one notification serves a read or a write request of the block device
      ([VirtioBlkFacts]); the interrupt line follows the status, registers are read
      without effects, entries go to the rings at the index modulo the size ([VirtioInv]); a disk image is an
      array of sectors in every mode ([BlockFileFacts]).
    - 9P: messages are read back as they were written ([Virtio9pMsg]); one notification
      serves a message as the server on messages does, or stops where the file system
      does, and an open that is pending is answered when it completes ([Virtio9pFacts],
      against the laws of a file system, [FileSystemLaws], which Virtio9pDemo proves of
      the one in memory).  The counts of a message are below 2^31 - 64.
    - The file system in memory: counts of references and sizes of directories are exact
      within their int32_t and int, nothing freed is used and no buffer is left, in every
      run of the requests that [op_ok] admits; files are byte lists, directories are maps,
      with the cases in which a request stops, listings are complete, the end frees all
      ([FsMemRun]; FsMemDemo shows the requests that the code does not survive).
    - The display: a refresh draws every row on a dirty page ([SimpleFb]).
    - Keyboard and mouse: the ring is a bounded queue, a movement is exactly the packets of
      the protocol, as far as they fit, status and lines follow the queues ([Ps2Facts], [PckbdFacts]).
    - PCI: mappings follow the configuration in every reachable state of the bus, lines
      are a wired or, capabilities are a list that leads a driver to the registers
      ([PciFacts], [PciIrqFacts], [VirtioPci]).
    - An edge on an input of the 8259 pair is delivered once ([Pic]); the timer raises one
      interrupt per period, the serial port sends what was written, the clock reads the time
      of day ([PcDevices]).
    - Texts: names, hexadecimal strings and JSON values are read back as written, the
      parser is total and typed, a configuration loads to what it describes, with its
      files in the int sizes of load_file, and never leaves its arrays ([FsUtilsFacts], [JsonFacts], [JsonInv], [MachineCfgFacts],
      [ConfigFacts]).

    ** Bounds of recursion

    Loops of the code are recursions on a bound that the theorems show to be enough:
    [interp_fuel n] = n + 2051 steps for a block of n cycles (each step uses a cycle
    but the at most 2048 of a power-down or a block end); n + 1 rounds of the outer
    loop; [sqrt_fuel F] = F + 3 rounds of Newton's iteration; 2 levels of
    target_read_slow (an unaligned access reads two aligned ones); the input length for
    the SHA-256 update; 10 and 16 digits in the printing of numbers; the table's
    length in the search of a string table; 65536 requests of a notification; the
    distance and one more for the packets of a mouse movement; the length of the text in
    the loops of the parsers and for the nesting of JSON values; 6 rounds for the tables
    of a configuration; 65 steps for the bits of a word of dirty pages; 8 ranks in the
    search of an interrupt; 32 slots of the PCI bus; the length of a path and one more for
    its components.  A chain of descriptors can be
    cyclic, so its bound is a parameter and the theorems name the length they need.

    ** Not modelled

    Host input and output (terminals, SDL, the JavaScript bindings, sockets); the
    network stack of slirp (third-party code); of the file systems behind the 9P device,
    fs_disk.c (calls of the host's file system) and the part of fs_net.c that loads files
    over HTTP; the block device over HTTP (block_net.c); the VGA display; the x86 CPU, a
    front end of KVM, the setup of its machine, and the disk controller of ide.c, which the
    RISC-V machine does not have; generated tables of file
    lists; the debugging printouts.  malloc and realloc are taken to return, but for
    FsMem, where realloc may fail.  Strings and byte arrays that no caller aliases are lists. *)
From stdpp Require Export base gmap list numbers.
From Stdlib Require Export ZArith Lia Btauto.
From coqutil Require Export Z.bitblast.
#[global] Open Scope Z_scope.

(** ** C integers

    A C object of a [w]-bit unsigned type is a [Z] in [[0, 2^w)], one of a
    [w]-bit signed type a [Z] in [[-2^(w-1), 2^(w-1))].  A conversion to such a
    type is [wrap w] or [swrap w]. *)
Definition wrap (w x : Z) : Z := x mod 2 ^ w.
Definition swrap (w x : Z) : Z := (x + 2 ^ (w - 1)) mod 2 ^ w - 2 ^ (w - 1).
Definition fits (w x : Z) : Prop := 0 <= x < 2 ^ w.

Declare Scope c_scope.
Delimit Scope c_scope with C.
Notation "'u8' x" := (wrap 8 x) (at level 10, x at level 9) : c_scope.
Notation "'u16' x" := (wrap 16 x) (at level 10, x at level 9) : c_scope.
Notation "'u32' x" := (wrap 32 x) (at level 10, x at level 9) : c_scope.
Notation "'u64' x" := (wrap 64 x) (at level 10, x at level 9) : c_scope.
Notation "'i8' x" := (swrap 8 x) (at level 10, x at level 9) : c_scope.
Notation "'i16' x" := (swrap 16 x) (at level 10, x at level 9) : c_scope.
Notation "'i32' x" := (swrap 32 x) (at level 10, x at level 9) : c_scope.
Notation "'i64' x" := (swrap 64 x) (at level 10, x at level 9) : c_scope.
Infix ".&" := Z.land (at level 40, left associativity) : c_scope.
Infix ".^" := Z.lxor (at level 45, left associativity) : c_scope.
Infix ".|" := Z.lor (at level 50, left associativity) : c_scope.
#[global] Open Scope c_scope.

#[export] Instance fits_dec w x : Decision (fits w x).
Proof. unfold fits. apply _. Defined.

Create HintDb cint.

Lemma pow2_pos w : 0 <= w -> 0 < 2 ^ w.
Proof. intros. apply Z.pow_pos_nonneg; lia. Qed.
Lemma pow2_nz w : 0 <= w -> 2 ^ w <> 0.
Proof. intros H. pose proof (pow2_pos w H). lia. Qed.

Lemma fits_wrap w x : 0 <= w -> fits w (wrap w x).
Proof. intros. apply Z.mod_pos_bound, pow2_pos; lia. Qed.
Lemma wrap_fits w x : fits w x -> wrap w x = x.
Proof. intros. apply Z.mod_small. assumption. Qed.
Lemma fits_mono w w' x : fits w x -> 0 <= w <= w' -> fits w' x.
Proof.
  intros [? ?] ?. split; [lia|].
  enough (2 ^ w <= 2 ^ w') by lia. apply Z.pow_le_mono_r; lia.
Qed.
Lemma fits_wrap_le w w' x : 0 <= w' <= w -> fits w (wrap w' x).
Proof. intros. eapply fits_mono; [apply fits_wrap; lia|lia]. Qed.
Lemma fits_bit w x : 0 <= w -> 0 <= x ->
  (forall i, w <= i -> Z.testbit x i = false) -> fits w x.
Proof.
  intros Hw Hx Hb. split; [done|].
  destruct (Z.eq_dec x 0) as [->|]; [by apply pow2_pos|].
  apply Z.log2_lt_pow2; [lia|].
  destruct (Z_lt_le_dec (Z.log2 x) w) as [|Hge]; [done|].
  specialize (Hb (Z.log2 x) Hge). rewrite Z.bit_log2 in Hb by lia. done.
Qed.
Lemma fits_testbit w x i : fits w x -> w <= i -> Z.testbit x i = false.
Proof.
  intros [Hx Hlt] Hi. destruct (Z.eq_dec x 0) as [->|]; [apply Z.testbit_0_l|].
  apply Z.bits_above_log2; [lia|].
  destruct (Z_lt_le_dec w 0) as [Hn|].
  - rewrite Z.pow_neg_r in Hlt by lia. lia.
  - apply Z.log2_lt_pow2 in Hlt; lia.
Qed.

Lemma fits_land_l w x y : fits w x -> fits w (x .& y).
Proof.
  intros H. destruct (Z_lt_le_dec w 0) as [Hn|Hw].
  { destruct H as [? H]. rewrite Z.pow_neg_r in H by lia. lia. }
  apply fits_bit; [done| |].
  - apply Z.land_nonneg. left. apply H.
  - intros i Hi. by rewrite Z.land_spec, (fits_testbit w x i).
Qed.
Lemma fits_land_r w x y : fits w y -> fits w (x .& y).
Proof. rewrite Z.land_comm. apply fits_land_l. Qed.
Lemma fits_lor w x y : fits w x -> fits w y -> fits w (x .| y).
Proof.
  intros H H'. destruct (Z_lt_le_dec w 0) as [Hn|Hw].
  { destruct H as [? H]. rewrite Z.pow_neg_r in H by lia. lia. }
  apply fits_bit; [done| |].
  - apply Z.lor_nonneg. split; [apply H|apply H'].
  - intros i Hi. by rewrite Z.lor_spec, (fits_testbit w x i), (fits_testbit w y i).
Qed.
Lemma fits_lxor w x y : fits w x -> fits w y -> fits w (x .^ y).
Proof.
  intros H H'. destruct (Z_lt_le_dec w 0) as [Hn|Hw].
  { destruct H as [? H]. rewrite Z.pow_neg_r in H by lia. lia. }
  apply fits_bit; [done| |].
  - apply Z.lxor_nonneg. split; intros _; [apply H'|apply H].
  - intros i Hi. by rewrite Z.lxor_spec, (fits_testbit w x i), (fits_testbit w y i).
Qed.
Lemma fits_shiftr w x n : 0 <= n -> fits w x -> fits w (x ≫ n).
Proof.
  intros Hn [H1 H2]. rewrite Z.shiftr_div_pow2 by done.
  pose proof (pow2_pos n Hn). split; [apply Z.div_pos; lia|].
  apply Z.div_lt_upper_bound; nia.
Qed.
Lemma land_range x m : 0 <= m -> 0 <= x .& m <= m.
Proof.
  intros Hm. split; [apply Z.land_nonneg; by right|].
  rewrite <- (Z.land_diag m) at 2. pose proof (Z.add_lor_land (x .& m) (Z.ldiff m x)) as E.
  assert (Z.lor (x .& m) (Z.ldiff m x) = m) as E1.
  { apply Z.bits_inj'. intros i _. rewrite Z.lor_spec, Z.land_spec, Z.ldiff_spec. btauto. }
  assert ((x .& m) .& Z.ldiff m x = 0) as E2.
  { apply Z.bits_inj'. intros i _. rewrite !Z.land_spec, Z.ldiff_spec, Z.bits_0. btauto. }
  rewrite E1, E2 in E. rewrite Z.land_diag.
  assert (0 <= Z.ldiff m x) by (apply Z.ldiff_nonneg; by left). lia.
Qed.
Lemma land_3 x : 0 <= x .& 3 <= 3.
Proof. apply land_range. lia. Qed.
Lemma land_1 x : x .& 1 = 0 \/ x .& 1 = 1.
Proof. pose proof (land_range x 1). lia. Qed.
Lemma land_1_testbit x : negb (x .& 1 =? 0) = Z.testbit x 0.
Proof.
  change 1 with (Z.ones 1) at 1. rewrite Z.land_ones, Z.pow_1_r, <- Z.bit0_mod by lia.
  by destruct (Z.testbit x 0).
Qed.
Lemma fits_0 w : 0 <= w -> fits w 0.
Proof. intros. split; [lia|]. by apply pow2_pos. Qed.

(** *** Conversions *)
Lemma wrap_wrap w w' x : 0 <= w <= w' -> wrap w (wrap w' x) = wrap w x.
Proof.
  intros. unfold wrap. replace w' with (w + (w' - w)) by lia.
  rewrite Z.pow_add_r by lia. pose proof (pow2_pos w). pose proof (pow2_pos (w' - w)).
  rewrite Z.rem_mul_r by lia. rewrite Z.mul_comm, Z.mod_add by lia.
  apply Z.mod_mod. lia.
Qed.
Lemma wrap_eq w x y k : 0 <= w -> x = y + k * 2 ^ w -> wrap w x = wrap w y.
Proof. intros ? ->. unfold wrap. apply Z.mod_add. by apply pow2_nz. Qed.
Lemma wrap_decomp w x : 0 <= w -> exists k, wrap w x = x + k * 2 ^ w.
Proof.
  intros H. exists (- (x / 2 ^ w)). unfold wrap.
  pose proof (Z.div_mod x (2 ^ w) (pow2_nz w H)). lia.
Qed.
Lemma swrap_decomp w x : 0 <= w -> exists k, swrap w x = x + k * 2 ^ w.
Proof.
  intros H. exists (- ((x + 2 ^ (w - 1)) / 2 ^ w)). unfold swrap.
  pose proof (Z.div_mod (x + 2 ^ (w - 1)) (2 ^ w) (pow2_nz w H)). lia.
Qed.
Lemma wrap_swrap w w' x : 0 <= w <= w' -> wrap w (swrap w' x) = wrap w x.
Proof.
  intros. destruct (swrap_decomp w' x) as [k ->]; [lia|].
  apply (wrap_eq w _ _ (k * 2 ^ (w' - w))); [lia|].
  rewrite <- Z.mul_assoc, <- Z.pow_add_r by lia. repeat f_equal. lia.
Qed.
Lemma swrap_wrap_eq w x y : 0 < w -> wrap w x = wrap w y -> swrap w x = swrap w y.
Proof.
  intros Hw H. unfold swrap. f_equal. unfold wrap in H.
  rewrite Z.add_mod, H, <- Z.add_mod by (apply pow2_nz; lia). done.
Qed.
Lemma swrap_wrap w w' x : 0 < w <= w' -> swrap w (wrap w' x) = swrap w x.
Proof. intros. apply swrap_wrap_eq; [lia|]. apply wrap_wrap; lia. Qed.
Lemma swrap_swrap w w' x : 0 < w <= w' -> swrap w (swrap w' x) = swrap w x.
Proof. intros. apply swrap_wrap_eq; [lia|]. apply wrap_swrap; lia. Qed.
Lemma swrap_range w x : 0 < w -> - 2 ^ (w - 1) <= swrap w x < 2 ^ (w - 1).
Proof.
  intros. unfold swrap.
  pose proof (Z.mod_pos_bound (x + 2 ^ (w - 1)) (2 ^ w) (pow2_pos w ltac:(lia))).
  assert (2 ^ w = 2 * 2 ^ (w - 1)) by (rewrite <- Z.pow_succ_r by lia; f_equal; lia). lia.
Qed.
Lemma swrap_id w x : 0 < w -> - 2 ^ (w - 1) <= x < 2 ^ (w - 1) -> swrap w x = x.
Proof.
  intros. unfold swrap.
  assert (2 ^ w = 2 * 2 ^ (w - 1)) by (rewrite <- Z.pow_succ_r by lia; f_equal; lia).
  rewrite Z.mod_small by lia. lia.
Qed.
Lemma swrap_of_wrap w x : 0 < w ->
  swrap w x = if wrap w x <? 2 ^ (w - 1) then wrap w x else wrap w x - 2 ^ w.
Proof.
  intros Hw. rewrite <- (swrap_wrap w w x) by lia.
  pose proof (fits_wrap w x ltac:(lia)) as [? ?].
  assert (2 ^ w = 2 * 2 ^ (w - 1)) by (rewrite <- Z.pow_succ_r by lia; f_equal; lia).
  destruct (Z.ltb_spec (wrap w x) (2 ^ (w - 1))); [apply swrap_id; lia|].
  unfold swrap at 1.
  rewrite (Z.mod_eq _ _ (pow2_nz w ltac:(lia))).
  replace ((wrap w x + 2 ^ (w - 1)) / 2 ^ w) with 1; [lia|].
  apply (Z.div_unique _ _ _ (wrap w x + 2 ^ (w - 1) - 2 ^ w)); lia.
Qed.
#[export] Hint Resolve fits_wrap fits_land_l fits_lor fits_lxor fits_0 : cint.
#[export] Hint Extern 1 (_ <= _ <= _) => lia : cint.
#[export] Hint Extern 1 (_ <= _) => lia : cint.

(** The bits of a converted value. *)
Lemma wrap_testbit w x i : 0 <= w ->
  Z.testbit (wrap w x) i = (i <? w) && Z.testbit x i.
Proof. intros. unfold wrap. by apply Z.testbit_mod_pow2. Qed.
(** The test of one bit. *)
Lemma land_pow2_test v k : 0 <= k -> negb (v .& 2 ^ k =? 0) = Z.testbit v k.
Proof.
  intros Hk. destruct (Z.testbit v k) eqn:E.
  - apply negb_true_iff, Z.eqb_neq. intros H. assert (Z.testbit (v .& 2 ^ k) k = true) as Ht; [|by rewrite H, Z.bits_0 in Ht].
    by rewrite Z.land_spec, E, Z.pow2_bits_true.
  - apply negb_false_iff, Z.eqb_eq. apply Z.bits_inj'. intros i Hi. rewrite Z.land_spec, Z.bits_0, Z.pow2_bits_eqb by lia.
    destruct (Z.eqb_spec k i) as [->|]; [by rewrite E|apply andb_false_r].
Qed.
Lemma wrap_land_ones w x : 0 <= w -> wrap w x = x .& Z.ones w.
Proof. intros. symmetry. by apply Z.land_ones. Qed.

(** Decides the integer comparisons of the goal and closes it. *)
Ltac zcases :=
  repeat match goal with
  | |- context [?a <? ?b] => destruct (Z.ltb_spec a b)
  | |- context [?a <=? ?b] => destruct (Z.leb_spec a b)
  | |- context [?a =? ?b] => destruct (Z.eqb_spec a b)
  end; try lia; try done.

Ltac Zbits := unfold wrap; Z.bitblast.

(** Case analysis on the tests of the code, and closing of range goals. *)
Ltac case_if :=
  match goal with
  | |- context [if ?b then _ else _] => let E := fresh "E" in destruct b eqn:E
  end.
Ltac case_if_in H :=
  match type of H with
  | context [if ?b then _ else _] => let E := fresh "E" in destruct b eqn:E
  end.
Ltac fits_tac := eauto 8 with cint.

(** ** Build configuration

    [MAX_XLEN] is the macro the file riscv_cpu.c is compiled with (32, 64 or
    128), [UINTPTR_W] the width of [uintptr_t] on the host (32 under
    emscripten, 64 on a native host), [HAVE_INT128] whether the compiler has a
    128-bit integer type (cutils.h). *)
Class Config := {
  MAX_XLEN : Z;
  UINTPTR_W : Z;
  HAVE_INT128 : bool;
  MAX_XLEN_ok : MAX_XLEN = 32 \/ MAX_XLEN = 64 \/ MAX_XLEN = 128;
  UINTPTR_W_ok : UINTPTR_W = 32 \/ UINTPTR_W = 64;
}.

(** Conversions to [target_ulong], [target_long] and [uintptr_t]. *)
Definition ulong `{Config} (x : Z) : Z := wrap MAX_XLEN x.
Definition slong `{Config} (x : Z) : Z := swrap MAX_XLEN x.
Definition uptr `{Config} (x : Z) : Z := wrap UINTPTR_W x.

(** riscv_cpu_priv.h: [FLEN] and [MLEN] as the preprocessor derives them. *)
Definition FLEN `{Config} : Z := if MAX_XLEN =? 128 then 128 else 64.
Definition MLEN `{Config} : Z :=
  if (MAX_XLEN <=? 32) && (FLEN <=? 32) then 32
  else if (MAX_XLEN <=? 64) && (FLEN <=? 64) then 64 else 128.

(** The builds used by LinuxPDF (emscripten, 32 and 64 bit guests) and the
    native 64-bit build. *)
Definition cfg_rv32_js : Config :=
  {| MAX_XLEN := 32; UINTPTR_W := 32; HAVE_INT128 := false;
     MAX_XLEN_ok := or_introl eq_refl; UINTPTR_W_ok := or_introl eq_refl |}.
Definition cfg_rv64_js : Config :=
  {| MAX_XLEN := 64; UINTPTR_W := 32; HAVE_INT128 := false;
     MAX_XLEN_ok := or_intror (or_introl eq_refl); UINTPTR_W_ok := or_introl eq_refl |}.
Definition cfg_rv64 : Config :=
  {| MAX_XLEN := 64; UINTPTR_W := 64; HAVE_INT128 := true;
     MAX_XLEN_ok := or_intror (or_introl eq_refl); UINTPTR_W_ok := or_intror eq_refl |}.

Section ConfigFacts.
Context `{cfg : Config}.
Lemma MAX_XLEN_pos : 32 <= MAX_XLEN <= 128.
Proof. destruct MAX_XLEN_ok as [H|[H|H]]; rewrite H; lia. Qed.
Lemma UINTPTR_W_pos : 32 <= UINTPTR_W <= 64.
Proof. destruct UINTPTR_W_ok as [H|H]; rewrite H; lia. Qed.
Lemma fits_ulong x : fits MAX_XLEN (ulong x).
Proof. apply fits_wrap. pose proof MAX_XLEN_pos. lia. Qed.
Lemma fits_uptr x : fits UINTPTR_W (uptr x).
Proof. apply fits_wrap. pose proof UINTPTR_W_pos. lia. Qed.
Lemma ulong_fits x : fits MAX_XLEN x -> ulong x = x.
Proof. apply wrap_fits. Qed.
Lemma uptr_fits x : fits UINTPTR_W x -> uptr x = x.
Proof. apply wrap_fits. Qed.
Lemma fits_ulong_of w x : fits w x -> 0 <= w <= 32 -> fits MAX_XLEN x.
Proof. intros. eapply fits_mono; [done|]. pose proof MAX_XLEN_pos. lia. Qed.
End ConfigFacts.
#[export] Hint Resolve fits_ulong fits_uptr : cint.

(** [x ←? m ; k]: call [m]; when it reports an error ([None], a nonzero return
    value in the source) return the error, otherwise go on with its value. *)
Notation "x ←? m ; k" :=
  (mbind (fun r => match r with None => mret None | Some x => k end) m)
  (at level 20, m at level 100, k at level 200, only parsing) : c_scope.
