(* ===== verification/Monad.v ===== *)
(** * Effects: state, and the ways a C run can stop

    A C function that reads and writes the emulator's state is a function from
    the state to a result.  A run that does not come back to its caller stops
    for one of the reasons of [stop]. *)
From S2P Require Export Prelude.

Inductive stop :=
| StopAbort            (* abort() *)
| StopAssert           (* a failed assert() *)
| StopExit (code : Z)  (* exit(code) *)
| StopFault            (* an access outside every allocated host object *)
| StopOverflow         (* a signed count or size passes the range of its type *)
| StopFuel.            (* the model's recursion bound; never reached, see the theorems *)

#[export] Instance stop_eq_dec : EqDecision stop.
Proof. solve_decision. Defined.

Inductive res (S A : Type) :=
| Ok (a : A) (s : S)
| Stop (r : stop).
Arguments Ok {S A} a s.
Arguments Stop {S A} r.

Definition M (S A : Type) : Type := S -> res S A.

#[export] Instance M_ret S : MRet (M S) := fun A a s => Ok a s.
#[export] Instance M_bind S : MBind (M S) := fun A B k m s =>
  match m s with Ok a s' => k a s' | Stop r => Stop r end.

Section Ops.
Context {S A : Type}.
Definition gets (f : S -> A) : M S A := fun s => Ok (f s) s.
Definition modify (f : S -> S) : M S unit := fun s => Ok tt (f s).
Definition stop_with (r : stop) : M S A := fun _ => Stop r.
End Ops.
Definition assert {S} (b : bool) : M S unit :=
  if b then mret tt else stop_with StopAssert.

(** ** Weakest preconditions

    [wp m E Q s]: run from [s], [m] either returns with [Q] or stops for a reason
    allowed by [E]. *)
Definition wp {S A} (m : M S A) (E : stop -> Prop) (Q : A -> S -> Prop) (s : S) : Prop :=
  match m s with Ok a s' => Q a s' | Stop r => E r end.

Section Wp.
Context {S : Type} (E : stop -> Prop).
Lemma wp_ret {A} (a : A) (Q : A -> S -> Prop) s : Q a s -> wp (mret a) E Q s.
Proof. done. Qed.
Lemma wp_bind {A B} (m : M S A) (k : A -> M S B) Q s :
  wp m E (fun a => wp (k a) E Q) s -> wp (m ≫= k) E Q s.
Proof. unfold wp, mbind, M_bind. by destruct (m s). Qed.
Lemma wp_bind_inv {A B} (m : M S A) (k : A -> M S B) Q s :
  wp (m ≫= k) E Q s -> wp m E (fun a => wp (k a) E Q) s.
Proof. unfold wp, mbind, M_bind. by destruct (m s). Qed.
Lemma wp_gets {A} (f : S -> A) Q s : Q (f s) s -> wp (gets f) E Q s.
Proof. done. Qed.
Lemma wp_modify (f : S -> S) Q s : Q tt (f s) -> wp (modify f) E Q s.
Proof. done. Qed.
Lemma wp_stop {A} r (Q : A -> S -> Prop) s : E r -> wp (stop_with r) E Q s.
Proof. done. Qed.
Lemma wp_mono {A} (m : M S A) (Q Q' : A -> S -> Prop) s :
  wp m E Q s -> (forall a s', Q a s' -> Q' a s') -> wp m E Q' s.
Proof. unfold wp. destruct (m s); eauto. Qed.
Lemma wp_and {A} (m : M S A) (Q Q' : A -> S -> Prop) s :
  wp m E Q s -> wp m E Q' s -> wp m E (fun a s' => Q a s' /\ Q' a s') s.
Proof. unfold wp. destruct (m s); eauto. Qed.
Lemma wp_if {A} (b : bool) (m1 m2 : M S A) Q s :
  (b = true -> wp m1 E Q s) -> (b = false -> wp m2 E Q s) ->
  wp (if b then m1 else m2) E Q s.
Proof. destruct b; eauto. Qed.
Lemma wp_ok {A} (m : M S A) Q s a s' : wp m E Q s -> m s = Ok a s' -> Q a s'.
Proof. unfold wp. intros H Heq. by rewrite Heq in H. Qed.
Lemma wp_stopped {A} (m : M S A) Q s r : wp m E Q s -> m s = Stop r -> E r.
Proof. unfold wp. intros H Heq. by rewrite Heq in H. Qed.
End Wp.

(** The runs that never leave the host objects of the emulator. *)
Definition safe_stop (r : stop) : Prop := r <> StopFault /\ r <> StopFuel.

Ltac wp_step :=
  match goal with
  | |- wp (mbind _ _) _ _ _ => apply wp_bind
  | |- wp (mret _) _ _ _ => apply wp_ret
  | |- wp (gets _) _ _ _ => apply wp_gets
  | |- wp (modify _) _ _ _ => apply wp_modify
  | |- wp (if _ then _ else _) _ _ _ => apply wp_if; intros ?
  end; cbv beta.
Ltac wp_steps := repeat wp_step.

(** * Host memory

    The guest RAM lives in host objects that the C code reads and writes through
    pointers computed with [uintptr_t] arithmetic.  Host memory is a map from
    addresses to bytes (a byte that was never written is 0, since the RAM comes
    from mallocz); multi-byte accesses are little endian, as on every host the
    emulator is built for.  Which addresses may be accessed is decided by the
    table of live objects, a list of (base, size). *)
Abbreviation hmem := (gmap Z Z).

Definition host_byte (m : hmem) (p : Z) : Z := u8 (default 0 (m !! p)).

Fixpoint host_load (m : hmem) (p : Z) (n : nat) : Z :=
  match n with
  | O => 0
  | S n' => host_byte m p .| (host_load m (p + 1) n' ≪ 8)
  end.

Fixpoint host_store (m : hmem) (p : Z) (n : nat) (v : Z) : hmem :=
  match n with
  | O => m
  | S n' => <[p := u8 v]> (host_store m (p + 1) n' (v ≫ 8))
  end.

(** [p, p + n) lies inside one live object. *)
Definition host_ok (objs : list (Z * Z)) (p n : Z) : bool :=
  existsb (fun o => (o.1 <=? p) && (p + n <=? o.1 + o.2)) objs.

Section Facts.
Implicit Types (m : hmem) (p v : Z) (n : nat).

Lemma host_byte_fits m p : fits 8 (host_byte m p).
Proof. by apply fits_wrap. Qed.

Lemma fits_byte_or a b k : 0 <= k -> fits 8 a -> fits k b -> fits (8 + k) (a .| (b ≪ 8)).
Proof.
  intros Hk Ha Hb. apply fits_lor; [eapply fits_mono; [done|lia]|].
  rewrite Z.shiftl_mul_pow2 by lia. destruct Hb. split; [lia|].
  rewrite Z.pow_add_r by lia. nia.
Qed.

Lemma host_load_fits m p n : fits (8 * Z.of_nat n) (host_load m p n).
Proof.
  revert p. induction n as [|n IH]; intros p; [done|].
  replace (8 * Z.of_nat (S n)) with (8 + 8 * Z.of_nat n) by lia.
  apply fits_byte_or; [lia|apply host_byte_fits|apply IH].
Qed.

Lemma host_byte_insert_eq m p v : host_byte (<[p := u8 v]> m) p = u8 v.
Proof. unfold host_byte. rewrite lookup_insert_eq. simpl. by apply wrap_wrap. Qed.
Lemma host_byte_insert_ne m p q v : p <> q -> host_byte (<[p := v]> m) q = host_byte m q.
Proof. intros. unfold host_byte. by rewrite lookup_insert_ne. Qed.

Lemma host_byte_store m p n v q :
  host_byte (host_store m p n v) q =
  if decide (p <= q < p + Z.of_nat n) then u8 (v ≫ (8 * (q - p))) else host_byte m q.
Proof.
  revert p v. induction n as [|n IH]; intros p v; simpl.
  - rewrite decide_False by lia. done.
  - destruct (decide (p = q)) as [->|Hne].
    + rewrite host_byte_insert_eq, decide_True by lia. by rewrite Z.sub_diag, Z.shiftr_0_r.
    + rewrite host_byte_insert_ne, IH by done.
      repeat case_decide; try lia.
      rewrite Z.shiftr_shiftr by lia. do 2 f_equal. lia.
Qed.

Lemma host_load_ext m m' p n :
  (forall q, p <= q < p + Z.of_nat n -> host_byte m q = host_byte m' q) ->
  host_load m p n = host_load m' p n.
Proof.
  revert p. induction n as [|n IH]; intros p H; simpl; [done|].
  rewrite (H p) by lia. by rewrite (IH (p + 1)) by (intros; apply H; lia).
Qed.

(** Reading back what was stored. *)
Lemma host_load_store_eq m p n v :
  host_load (host_store m p n v) p n = wrap (8 * Z.of_nat n) v.
Proof.
  enough (forall k m' q, (forall i, 0 <= i < Z.of_nat k -> host_byte m' (q + i) = u8 (v ≫ (8 * (q + i - p)))) ->
            p <= q -> host_load m' q k = wrap (8 * Z.of_nat k) (v ≫ (8 * (q - p)))) as H.
  { rewrite (H n) by (try (intros; rewrite host_byte_store, decide_True by lia; done); lia).
    by rewrite Z.sub_diag, Z.shiftr_0_r. }
  induction k as [|k IH]; intros m' q Hb Hq.
  { simpl. unfold wrap. by rewrite Z.mod_1_r. }
  cbn [host_load]. rewrite (IH m' (q + 1)); [|intros i Hi; rewrite <- Z.add_assoc; apply Hb; lia|lia].
  rewrite <- (Z.add_0_r q) at 1. rewrite Hb, Z.add_0_r by lia.
  replace (v ≫ (8 * (q + 1 - p))) with ((v ≫ (8 * (q - p))) ≫ 8)
    by (rewrite Z.shiftr_shiftr by lia; f_equal; lia).
  set (x := v ≫ (8 * (q - p))).
  replace (8 * Z.of_nat (S k)) with (8 + 8 * Z.of_nat k) by lia.
  apply Z.bits_inj'. intros i Hi.
  rewrite Z.lor_spec, Z.shiftl_spec, !wrap_testbit by lia.
  destruct (Z_lt_le_dec i 8).
  - rewrite (Z.testbit_neg_r _ (i - 8)) by lia.
    rewrite andb_false_r, orb_false_r.
    by zcases.
  - rewrite Z.shiftr_spec by lia. replace (i - 8 + 8) with i by lia.
    by zcases.
Qed.

(** A store leaves every disjoint load unchanged. *)
Lemma host_load_store_disj m p n v q k :
  q + Z.of_nat k <= p \/ p + Z.of_nat n <= q ->
  host_load (host_store m p n v) q k = host_load m q k.
Proof.
  intros. apply host_load_ext. intros r ?.
  rewrite host_byte_store, decide_False by lia. done.
Qed.

(** A load is the concatenation of its two parts. *)
Lemma host_load_app m p a b :
  host_load m p (a + b) =
  host_load m p a .| (host_load m (p + Z.of_nat a) b ≪ (8 * Z.of_nat a)).
Proof.
  revert p. induction a as [|a IH]; intros p.
  - cbn [Nat.add host_load]. rewrite Z.add_0_r, Z.mul_0_r, Z.shiftl_0_r. done.
  - cbn [Nat.add host_load]. rewrite IH.
    rewrite Z.shiftl_lor, Z.shiftl_shiftl, Z.lor_assoc by lia.
    replace (p + 1 + Z.of_nat a) with (p + Z.of_nat (S a)) by lia.
    by replace (8 * Z.of_nat a + 8) with (8 * Z.of_nat (S a)) by lia.
Qed.

Lemma host_ok_sub objs p (len q k : Z) :
  host_ok objs p len = true -> p <= q -> q + k <= p + len -> host_ok objs q k = true.
Proof.
  unfold host_ok. rewrite !existsb_exists. intros (o & Hin & Ho) ??.
  exists o. split; [done|]. lia.
Qed.
End Facts.
