(* ===== verification/Iomem.v ===== *)
(** * Physical memory map (iomem.c, iomem.h)

    The map is an array of at most 32 ranges, each a RAM block (a host object
    plus an optional double-buffered dirty bitmap) or a device (an opaque handle
    with its callbacks).  A [PhysMemoryRange *] is an index into the array; the
    callbacks themselves live with their devices (see Mmu.v), a range only holds
    the handle. *)
From S2P Require Export Prelude Monad.

Definition DEVIO_SIZE8 : Z := 1 ≪ 0.
Definition DEVIO_SIZE16 : Z := 1 ≪ 1.
Definition DEVIO_SIZE32 : Z := 1 ≪ 2.
Definition DEVIO_DISABLED : Z := 1 ≪ 4.

Definition DEVRAM_FLAG_ROM : Z := 1 ≪ 0.
Definition DEVRAM_FLAG_DIRTY_BITS : Z := 1 ≪ 1.
Definition DEVRAM_FLAG_DISABLED : Z := 1 ≪ 2.
Definition DEVRAM_PAGE_SIZE_LOG2 : Z := 12.
Definition DEVRAM_PAGE_SIZE : Z := 1 ≪ DEVRAM_PAGE_SIZE_LOG2.

Definition PHYS_MEM_RANGE_MAX : nat := 32.

Record PhysMemoryRange := {
  pr_addr : Z;
  pr_org_size : Z;
  pr_size : Z;
  pr_is_ram : bool;
  devram_flags : Z;
  pr_phys_mem : Z;
  dirty_bits_size : Z;
  dirty_bits : option nat; (* None: NULL; Some i: dirty_bits_tab[i] *)
  dirty_bits_tab : list (list Z);
  dirty_bits_index : nat;
  pr_opaque : nat;
  devio_flags : Z;
}.

(** [n_phys_mem_range] is the length of the list. *)
Record PhysMemoryMap := { phys_mem_range : list PhysMemoryRange }.

Definition phys_mem_map_init : PhysMemoryMap := {| phys_mem_range := [] |}.

(** Updates of a range in place. *)
Definition set_mapping (a sz : Z) (pr : PhysMemoryRange) : PhysMemoryRange :=
  {| pr_addr := a; pr_org_size := pr_org_size pr; pr_size := sz; pr_is_ram := pr_is_ram pr;
     devram_flags := devram_flags pr; pr_phys_mem := pr_phys_mem pr;
     dirty_bits_size := dirty_bits_size pr; dirty_bits := dirty_bits pr;
     dirty_bits_tab := dirty_bits_tab pr; dirty_bits_index := dirty_bits_index pr;
     pr_opaque := pr_opaque pr; devio_flags := devio_flags pr |}.
Definition set_dirty (sz : Z) (p : option nat) (tab : list (list Z)) (idx : nat)
    (pr : PhysMemoryRange) : PhysMemoryRange :=
  {| pr_addr := pr_addr pr; pr_org_size := pr_org_size pr; pr_size := pr_size pr; pr_is_ram := pr_is_ram pr;
     devram_flags := devram_flags pr; pr_phys_mem := pr_phys_mem pr;
     dirty_bits_size := sz; dirty_bits := p; dirty_bits_tab := tab; dirty_bits_index := idx;
     pr_opaque := pr_opaque pr; devio_flags := devio_flags pr |}.
Definition set_phys_mem (p : Z) (pr : PhysMemoryRange) : PhysMemoryRange :=
  {| pr_addr := pr_addr pr; pr_org_size := pr_org_size pr; pr_size := pr_size pr; pr_is_ram := pr_is_ram pr;
     devram_flags := devram_flags pr; pr_phys_mem := p;
     dirty_bits_size := dirty_bits_size pr; dirty_bits := dirty_bits pr;
     dirty_bits_tab := dirty_bits_tab pr; dirty_bits_index := dirty_bits_index pr;
     pr_opaque := pr_opaque pr; devio_flags := devio_flags pr |}.

Definition alter_range (i : nat) (f : PhysMemoryRange -> PhysMemoryRange)
    (map : PhysMemoryMap) : PhysMemoryMap :=
  {| phys_mem_range := alter f i (phys_mem_range map) |}.

(** ** Lookup: the first range that contains the address *)
Definition in_range (paddr : Z) (pr : PhysMemoryRange) : bool :=
  (pr_addr pr <=? paddr) && (paddr <? u64 (pr_addr pr + pr_size pr)).

Fixpoint get_phys_mem_range_from (i : nat) (l : list PhysMemoryRange) (paddr : Z)
    : option nat :=
  match l with
  | [] => None
  | pr :: l' =>
      if in_range paddr pr then Some i else get_phys_mem_range_from (S i) l' paddr
  end.
Definition get_phys_mem_range (s : PhysMemoryMap) (paddr : Z) : option nat :=
  get_phys_mem_range_from 0 (phys_mem_range s) paddr.

(** ** Registration

    The C functions return the new range, here its index.  [mem] is what
    mallocz returned for the RAM block, [None] for NULL. *)
Definition register_ram_entry (s : PhysMemoryMap) (a sz flags : Z)
    : res PhysMemoryMap nat :=
  if negb (length (phys_mem_range s) <? PHYS_MEM_RANGE_MAX)%nat then Stop StopAssert
  else if negb ((sz .& (DEVRAM_PAGE_SIZE - 1) =? 0) && negb (sz =? 0)) then Stop StopAssert
  else
    let pr := {| pr_addr := a; pr_org_size := sz;
                 pr_size := if negb (flags .& DEVRAM_FLAG_DISABLED =? 0) then 0 else sz;
                 pr_is_ram := true; devram_flags := flags .& Z.lnot DEVRAM_FLAG_DISABLED;
                 pr_phys_mem := 0; dirty_bits_size := 0; dirty_bits := None;
                 dirty_bits_tab := [[]; []]; dirty_bits_index := 0;
                 pr_opaque := 0; devio_flags := 0 |} in
    Ok (length (phys_mem_range s))
       {| phys_mem_range := phys_mem_range s ++ [pr] |}.

Definition default_register_ram (mem : option Z) (s : PhysMemoryMap) (a sz flags : Z)
    : res PhysMemoryMap nat :=
  match register_ram_entry s a sz flags with
  | Stop r => Stop r
  | Ok i s =>
      match mem with
      | None => Stop (StopExit 1)
      | Some p =>
          let s := alter_range i (set_phys_mem p) s in
          if negb (flags .& DEVRAM_FLAG_DIRTY_BITS =? 0) then
            let nb_pages := sz ≫ DEVRAM_PAGE_SIZE_LOG2 in
            let n := ((nb_pages + 31) / 32) * 4 in
            let zeros := replicate (Z.to_nat (n / 4)) 0 in
            Ok i (alter_range i (set_dirty n (Some 0%nat) [zeros; zeros] 0) s)
          else Ok i s
      end
  end.

Definition cpu_register_device (s : PhysMemoryMap) (a sz : Z) (op : nat) (flags : Z)
    : res PhysMemoryMap nat :=
  if negb (length (phys_mem_range s) <? PHYS_MEM_RANGE_MAX)%nat then Stop StopAssert
  else if negb (sz <=? 0xffffffff) then Stop StopAssert
  else
    let pr := {| pr_addr := a; pr_org_size := sz;
                 pr_size := if negb (flags .& DEVIO_DISABLED =? 0) then 0 else sz;
                 pr_is_ram := false; devram_flags := 0; pr_phys_mem := 0;
                 dirty_bits_size := 0; dirty_bits := None;
                 dirty_bits_tab := [[]; []]; dirty_bits_index := 0;
                 pr_opaque := op; devio_flags := flags |} in
    Ok (length (phys_mem_range s))
       {| phys_mem_range := phys_mem_range s ++ [pr] |}.

(** ** Dirty bits

    [None] is an access past the end of the bitmap. *)
Definition dirty_word (pr : PhysMemoryRange) (t : nat) (page_index : Z) : option Z :=
  tab ← dirty_bits_tab pr !! t; tab !! Z.to_nat (page_index ≫ 5).

Definition put_dirty_word (t : nat) (page_index v : Z) (pr : PhysMemoryRange)
    : PhysMemoryRange :=
  set_dirty (dirty_bits_size pr) (dirty_bits pr)
    (alter (fun tab => <[Z.to_nat (page_index ≫ 5) := v]> tab) t (dirty_bits_tab pr))
    (dirty_bits_index pr) pr.

Definition page_index (offset : Z) : Z := offset ≫ DEVRAM_PAGE_SIZE_LOG2.
Definition page_mask (offset : Z) : Z := u32 (1 ≪ (page_index offset .& 0x1f)).

#[global] Arguments page_index : simpl never.
#[global] Arguments page_mask : simpl never.

Definition phys_mem_set_dirty_bit (pr : PhysMemoryRange) (offset : Z)
    : option PhysMemoryRange :=
  match dirty_bits pr with
  | None => Some pr
  | Some t =>
      w ← dirty_word pr t (page_index offset);
      Some (put_dirty_word t (page_index offset) (w .| page_mask offset) pr)
  end.

Definition phys_mem_is_dirty_bit (pr : PhysMemoryRange) (offset : Z) : option bool :=
  match dirty_bits pr with
  | None => Some true
  | Some t =>
      w ← dirty_word pr t (page_index offset);
      Some (negb ((w ≫ (page_index offset .& 0x1f)) .& 1 =? 0))
  end.

(** ** Operations that invalidate the CPU's write TLB

    [flush ram_addr ram_size] is the callback map->flush_tlb_write_range with its
    pr_opaque argument, acting on the client's state [C]. *)
Section Flush.
Context {C : Type} (flush : Z -> Z -> C -> C).
Implicit Types (map : PhysMemoryMap) (c : C).

(** Returns the bitmap that was current, then switches to the other one and
    clears it. *)
Definition default_get_dirty_bits map (i : nat) c
    : option (option nat * PhysMemoryMap * C) :=
  pr ← phys_mem_range map !! i;
  let old := dirty_bits pr in
  let cur := match old with
             | Some t => default [] (dirty_bits_tab pr !! t) | None => [] end in
  let n := Z.to_nat (dirty_bits_size pr / 4) in
  let has_dirty_bits := existsb (fun w => negb (w =? 0)) (take n cur) in
  let c := if has_dirty_bits && negb (pr_size pr =? 0)
           then flush (pr_phys_mem pr) (pr_org_size pr) c else c in
  let idx := (1 - dirty_bits_index pr)%nat in
  let tab := match old with
             | Some _ => alter (fun l => replicate n 0 ++ drop n l) idx (dirty_bits_tab pr)
             | None => dirty_bits_tab pr
             end in
  let ptr := match old with Some _ => Some idx | None => None end in
  Some (old, alter_range i (set_dirty (dirty_bits_size pr) ptr tab idx) map, c).

Definition phys_mem_reset_dirty_bit map (i : nat) (offset : Z) c
    : option (PhysMemoryMap * C) :=
  pr ← phys_mem_range map !! i;
  match dirty_bits pr with
  | None => Some (map, c)
  | Some t =>
      w ← dirty_word pr t (page_index offset);
      if negb (w .& page_mask offset =? 0) then
        Some (alter_range i
                (put_dirty_word t (page_index offset) (w .& Z.lnot (page_mask offset))) map,
              flush (pr_phys_mem pr + (offset .& Z.lnot (DEVRAM_PAGE_SIZE - 1)))
                DEVRAM_PAGE_SIZE c)
      else Some (map, c)
  end.

Definition default_set_addr map (i : nat) (a : Z) (enabled : bool) c
    : option (PhysMemoryMap * C) :=
  pr ← phys_mem_range map !! i;
  let flushed := if pr_is_ram pr then flush (pr_phys_mem pr) (pr_org_size pr) c else c in
  if enabled then
    if (pr_size pr =? 0) || negb (pr_addr pr =? a) then
      Some (alter_range i (set_mapping a (pr_org_size pr)) map, flushed)
    else Some (map, c)
  else
    if negb (pr_size pr =? 0) then Some (alter_range i (set_mapping 0 0) map, flushed)
    else Some (map, c).

(** set_ram_addr is default_set_addr in every map phys_mem_map_init builds. *)
Definition phys_mem_set_addr map (i : nat) (a : Z) (enabled : bool) c
    : option (PhysMemoryMap * C) :=
  pr ← phys_mem_range map !! i;
  if negb (pr_is_ram pr) then default_set_addr map i a enabled c
  else default_set_addr map i a enabled c.
End Flush.

(** [None]: the bitmap access of phys_mem_set_dirty_bit leaves the bitmap; the
    inner [None] is the NULL pointer. *)
Definition phys_mem_get_ram_ptr `{Config} (map : PhysMemoryMap) (paddr : Z) (is_rw : bool)
    : option (option Z * PhysMemoryMap) :=
  match get_phys_mem_range map paddr with
  | None => Some (None, map)
  | Some i =>
      pr ← phys_mem_range map !! i;
      if negb (pr_is_ram pr) then Some (None, map)
      else
        let offset := uptr (paddr - pr_addr pr) in
        if is_rw then
          pr' ← phys_mem_set_dirty_bit pr offset;
          Some (Some (pr_phys_mem pr + offset), alter_range i (fun _ => pr') map)
        else Some (Some (pr_phys_mem pr + offset), map)
  end.

(** ** Well-formed maps

    RAM is allocated in whole pages, at page-aligned guest addresses, in host
    objects that stay out of the last page of the host address space; a bitmap has
    one bit per page. *)
Definition page_aligned (x : Z) : Prop := x .& (DEVRAM_PAGE_SIZE - 1) = 0.

Record dirty_wf (pr : PhysMemoryRange) : Prop := {
  dw_ptr : forall t, dirty_bits pr = Some t -> t = dirty_bits_index pr;
  dw_idx : (dirty_bits_index pr <= 1)%nat;
  dw_tabs : forall t, dirty_bits pr = Some t -> exists l0 l1,
      dirty_bits_tab pr = [l0; l1] /\
      Z.of_nat (length l0) * 4 = dirty_bits_size pr /\
      Z.of_nat (length l1) * 4 = dirty_bits_size pr /\
      (pr_org_size pr ≫ 12) <= 32 * Z.of_nat (length l0);
}.

Record range_wf `{Config} (pr : PhysMemoryRange) : Prop := {
  rw_addr : 0 <= pr_addr pr;
  rw_size : pr_size pr = 0 \/ pr_size pr = pr_org_size pr;
  rw_org : 0 <= pr_org_size pr;
  rw_end : pr_addr pr + pr_org_size pr < 2 ^ 64;
  rw_ram : pr_is_ram pr = true ->
    page_aligned (pr_addr pr) /\ page_aligned (pr_org_size pr) /\
    0 < pr_phys_mem pr /\ pr_phys_mem pr + pr_org_size pr <= 2 ^ UINTPTR_W - DEVRAM_PAGE_SIZE /\
    dirty_wf pr;
  rw_dev : pr_is_ram pr = false -> pr_org_size pr <= 0xffffffff;
}.

Definition map_wf `{Config} (map : PhysMemoryMap) : Prop :=
  (length (phys_mem_range map) <= PHYS_MEM_RANGE_MAX)%nat /\
  Forall range_wf (phys_mem_range map).

(** The host objects behind the RAM ranges. *)
Definition ram_objs (map : PhysMemoryMap) : list (Z * Z) :=
  (fun pr => (pr_phys_mem pr, pr_org_size pr)) <$> filter (fun pr => pr_is_ram pr = true) (phys_mem_range map).
