(* ===== verification/CpuState.v ===== *)
(** * CPU state (riscv_cpu_priv.h, riscv_cpu.h)

    The struct RISCVCPUState with the C types of its fields, the constants of the
    two headers, the TLB operations and the reset state. *)
From S2P Require Export Prelude Monad Iomem.

(** ** Constants *)
Definition TLB_SIZE : Z := 256.

Definition CAUSE_FAULT_FETCH : Z := 0x1.
Definition CAUSE_ILLEGAL_INSTRUCTION : Z := 0x2.
Definition CAUSE_BREAKPOINT : Z := 0x3.
Definition CAUSE_USER_ECALL : Z := 0x8.
Definition CAUSE_FETCH_PAGE_FAULT : Z := 0xc.
Definition CAUSE_LOAD_PAGE_FAULT : Z := 0xd.
Definition CAUSE_STORE_PAGE_FAULT : Z := 0xf.
Definition CAUSE_INTERRUPT : Z := 1 ≪ 31.

Definition PRV_U : Z := 0.
Definition PRV_S : Z := 1.
Definition PRV_H : Z := 2.
Definition PRV_M : Z := 3.

(** [1 << ('X' - 'A')]. *)
Definition MCPUID_SUPER : Z := 1 ≪ 18.
Definition MCPUID_USER : Z := 1 ≪ 20.
Definition MCPUID_I : Z := 1 ≪ 8.
Definition MCPUID_M : Z := 1 ≪ 12.
Definition MCPUID_A : Z := 1 ≪ 0.
Definition MCPUID_F : Z := 1 ≪ 5.
Definition MCPUID_D : Z := 1 ≪ 3.
Definition MCPUID_Q : Z := 1 ≪ 16.
Definition MCPUID_C : Z := 1 ≪ 2.

Definition MSTATUS_SPIE_SHIFT : Z := 5.
Definition MSTATUS_MPIE_SHIFT : Z := 7.
Definition MSTATUS_SPP_SHIFT : Z := 8.
Definition MSTATUS_MPP_SHIFT : Z := 11.
Definition MSTATUS_FS_SHIFT : Z := 13.
Definition MSTATUS_UXL_SHIFT : Z := 32.
Definition MSTATUS_SXL_SHIFT : Z := 34.

Definition MSTATUS_UIE : Z := 1 ≪ 0.
Definition MSTATUS_SIE : Z := 1 ≪ 1.
Definition MSTATUS_MIE : Z := 1 ≪ 3.
Definition MSTATUS_UPIE : Z := 1 ≪ 4.
Definition MSTATUS_SPIE : Z := 1 ≪ MSTATUS_SPIE_SHIFT.
Definition MSTATUS_MPIE : Z := 1 ≪ MSTATUS_MPIE_SHIFT.
Definition MSTATUS_SPP : Z := 1 ≪ MSTATUS_SPP_SHIFT.
Definition MSTATUS_MPP : Z := 3 ≪ MSTATUS_MPP_SHIFT.
Definition MSTATUS_FS : Z := 3 ≪ MSTATUS_FS_SHIFT.
Definition MSTATUS_XS : Z := 3 ≪ 15.
Definition MSTATUS_MPRV : Z := 1 ≪ 17.
Definition MSTATUS_SUM : Z := 1 ≪ 18.
Definition MSTATUS_MXR : Z := 1 ≪ 19.
Definition MSTATUS_UXL_MASK : Z := 3 ≪ MSTATUS_UXL_SHIFT.
Definition MSTATUS_SXL_MASK : Z := 3 ≪ MSTATUS_SXL_SHIFT.

Definition PG_SHIFT : Z := 12.
Definition PG_MASK : Z := (1 ≪ PG_SHIFT) - 1.

(** riscv_cpu.h: interrupt-pending bits. *)
Definition MIP_SSIP : Z := 1 ≪ 1.
Definition MIP_MSIP : Z := 1 ≪ 3.
Definition MIP_STIP : Z := 1 ≪ 5.
Definition MIP_MTIP : Z := 1 ≪ 7.
Definition MIP_SEIP : Z := 1 ≪ 9.
Definition MIP_MEIP : Z := 1 ≪ 11.

(** ** The struct *)
Record TLBEntry := { vaddr : Z; mem_addend : Z }.

Set Primitive Projections.
Record RISCVCPUState := {
  pc : Z;
  reg : list Z;
  fp_reg : list Z;
  fflags : Z;
  frm : Z;
  cur_xlen : Z;
  priv : Z;
  fs : Z;
  mxl : Z;
  n_cycles : Z;
  insn_counter : Z;
  power_down_flag : bool;
  pending_exception : Z;
  pending_tval : Z;
  mstatus : Z;
  mtvec : Z;
  mscratch : Z;
  mepc : Z;
  mcause : Z;
  mtval : Z;
  mhartid : Z;
  misa : Z;
  mie : Z;
  mip : Z;
  medeleg : Z;
  mideleg : Z;
  mcounteren : Z;
  stvec : Z;
  sscratch : Z;
  sepc : Z;
  scause : Z;
  stval : Z;
  satp : Z;
  scounteren : Z;
  load_res : Z;
  tlb_read : list TLBEntry;
  tlb_write : list TLBEntry;
  tlb_code : list TLBEntry;
}.
Unset Primitive Projections.
Implicit Types s : RISCVCPUState.

(** [set_field f v s]: the struct after the assignment [s->f = v]. *)
Ltac eta_expand s :=
  let e := constr:(ltac:(intro; unshelve eexists;
      [ constructor; match goal with x : RISCVCPUState |- _ => destruct x end
      | match goal with x : RISCVCPUState |- _ => destruct x end; reflexivity ])
      : forall x, { x' : RISCVCPUState | x' = x }) in
  lazymatch e with fun x => exist _ (@?w x) _ => let r := eval cbv beta in (w s) in r end.
Ltac set_field f v s :=
  let b := eta_expand s in
  lazymatch b with context C [f s] => let b' := context C [v] in exact b' end.

Definition with_pc (v : Z) s : RISCVCPUState := ltac:(set_field pc v s).
Definition with_reg (v : list Z) s : RISCVCPUState := ltac:(set_field reg v s).
Definition with_fp_reg (v : list Z) s : RISCVCPUState := ltac:(set_field fp_reg v s).
Definition with_fflags (v : Z) s : RISCVCPUState := ltac:(set_field fflags v s).
Definition with_frm (v : Z) s : RISCVCPUState := ltac:(set_field frm v s).
Definition with_cur_xlen (v : Z) s : RISCVCPUState := ltac:(set_field cur_xlen v s).
Definition with_priv (v : Z) s : RISCVCPUState := ltac:(set_field priv v s).
Definition with_fs (v : Z) s : RISCVCPUState := ltac:(set_field fs v s).
Definition with_mxl (v : Z) s : RISCVCPUState := ltac:(set_field mxl v s).
Definition with_n_cycles (v : Z) s : RISCVCPUState := ltac:(set_field n_cycles v s).
Definition with_insn_counter (v : Z) s : RISCVCPUState := ltac:(set_field insn_counter v s).
Definition with_power_down_flag (v : bool) s : RISCVCPUState := ltac:(set_field power_down_flag v s).
Definition with_pending_exception (v : Z) s : RISCVCPUState := ltac:(set_field pending_exception v s).
Definition with_pending_tval (v : Z) s : RISCVCPUState := ltac:(set_field pending_tval v s).
Definition with_mstatus (v : Z) s : RISCVCPUState := ltac:(set_field mstatus v s).
Definition with_mtvec (v : Z) s : RISCVCPUState := ltac:(set_field mtvec v s).
Definition with_mscratch (v : Z) s : RISCVCPUState := ltac:(set_field mscratch v s).
Definition with_mepc (v : Z) s : RISCVCPUState := ltac:(set_field mepc v s).
Definition with_mcause (v : Z) s : RISCVCPUState := ltac:(set_field mcause v s).
Definition with_mtval (v : Z) s : RISCVCPUState := ltac:(set_field mtval v s).
Definition with_mhartid (v : Z) s : RISCVCPUState := ltac:(set_field mhartid v s).
Definition with_misa (v : Z) s : RISCVCPUState := ltac:(set_field misa v s).
Definition with_mie (v : Z) s : RISCVCPUState := ltac:(set_field mie v s).
Definition with_mip (v : Z) s : RISCVCPUState := ltac:(set_field mip v s).
Definition with_medeleg (v : Z) s : RISCVCPUState := ltac:(set_field medeleg v s).
Definition with_mideleg (v : Z) s : RISCVCPUState := ltac:(set_field mideleg v s).
Definition with_mcounteren (v : Z) s : RISCVCPUState := ltac:(set_field mcounteren v s).
Definition with_stvec (v : Z) s : RISCVCPUState := ltac:(set_field stvec v s).
Definition with_sscratch (v : Z) s : RISCVCPUState := ltac:(set_field sscratch v s).
Definition with_sepc (v : Z) s : RISCVCPUState := ltac:(set_field sepc v s).
Definition with_scause (v : Z) s : RISCVCPUState := ltac:(set_field scause v s).
Definition with_stval (v : Z) s : RISCVCPUState := ltac:(set_field stval v s).
Definition with_satp (v : Z) s : RISCVCPUState := ltac:(set_field satp v s).
Definition with_scounteren (v : Z) s : RISCVCPUState := ltac:(set_field scounteren v s).
Definition with_load_res (v : Z) s : RISCVCPUState := ltac:(set_field load_res v s).
Definition with_tlb_read (v : list TLBEntry) s : RISCVCPUState := ltac:(set_field tlb_read v s).
Definition with_tlb_write (v : list TLBEntry) s : RISCVCPUState := ltac:(set_field tlb_write v s).
Definition with_tlb_code (v : list TLBEntry) s : RISCVCPUState := ltac:(set_field tlb_code v s).

(** Reads of a field after assignments. *)
Ltac cpu_simpl :=
  cbn [pc reg fp_reg fflags frm cur_xlen priv fs mxl n_cycles insn_counter
       power_down_flag pending_exception pending_tval mstatus mtvec mscratch mepc
       mcause mtval mhartid misa mie mip medeleg mideleg mcounteren stvec sscratch sepc
       scause stval satp scounteren load_res tlb_read tlb_write tlb_code with_pc
       with_reg with_fp_reg with_fflags with_frm with_cur_xlen with_priv with_fs
       with_mxl with_n_cycles with_insn_counter with_power_down_flag
       with_pending_exception with_pending_tval with_mstatus with_mtvec with_mscratch
       with_mepc with_mcause with_mtval with_mie with_mip with_medeleg with_mideleg
       with_mcounteren with_stvec with_sscratch with_sepc with_scause with_stval
       with_satp with_scounteren with_load_res with_tlb_read with_tlb_write
       with_tlb_code with_mhartid with_misa].

(** ** Access to arrays: [s->reg[i]], [s->tlb_x[i]] *)
Definition reg_get s (i : Z) : Z := nth (Z.to_nat i) (reg s) 0.
Definition reg_set (i v : Z) s : RISCVCPUState := with_reg (<[Z.to_nat i := v]> (reg s)) s.
Definition fp_get s (i : Z) : Z := nth (Z.to_nat i) (fp_reg s) 0.
Definition fp_set (i v : Z) s : RISCVCPUState := with_fp_reg (<[Z.to_nat i := v]> (fp_reg s)) s.
Definition tlb_entry0 : TLBEntry := {| vaddr := 0; mem_addend := 0 |}.
Definition tlb_get (t : list TLBEntry) (i : Z) : TLBEntry := nth (Z.to_nat i) t tlb_entry0.
Definition tlb_put (i : Z) (e : TLBEntry) (t : list TLBEntry) : list TLBEntry :=
  <[Z.to_nat i := e]> t.

Section Tlb.
Context `{cfg : Config}.

Definition tlb_idx (addr : Z) : Z := (addr ≫ PG_SHIFT) .& (TLB_SIZE - 1).

(** [vaddr = -1], the loop body of tlb_init; the other field is kept. *)
Definition tlb_invalidate (e : TLBEntry) : TLBEntry :=
  {| vaddr := ulong (-1); mem_addend := mem_addend e |}.

Definition tlb_init s : RISCVCPUState :=
  with_tlb_code (tlb_invalidate <$> tlb_code s)
    (with_tlb_write (tlb_invalidate <$> tlb_write s)
      (with_tlb_read (tlb_invalidate <$> tlb_read s) s)).
Definition tlb_flush_all s : RISCVCPUState := tlb_init s.
Definition tlb_flush_vaddr s (va : Z) : RISCVCPUState := tlb_flush_all s.

Definition riscv_cpu_flush_tlb_write_range_ram (ram_ptr ram_size : Z) s : RISCVCPUState :=
  let ram_end := ram_ptr + ram_size in
  with_tlb_write
    ((fun e =>
        if negb (vaddr e =? ulong (-1)) then
          let ptr := uptr (mem_addend e + uptr (vaddr e)) in
          if (ram_ptr <=? ptr) && (ptr <? ram_end) then tlb_invalidate e else e
        else e) <$> tlb_write s) s.

(** get_base_from_xlen: the MXL encoding of a register width. *)
Definition get_base_from_xlen (xlen : Z) : Z :=
  if xlen =? 32 then 1 else if xlen =? 64 then 2 else 3.

(** ** Reset: the struct mallocz returns, then riscv_cpu_init *)
Definition zeroed : RISCVCPUState :=
  let tlb0 := replicate (Z.to_nat TLB_SIZE) tlb_entry0 in
  {| pc := 0; reg := replicate 32 0; fp_reg := replicate 32 0; fflags := 0; frm := 0;
     cur_xlen := 0; priv := 0; fs := 0; mxl := 0; n_cycles := 0; insn_counter := 0;
     power_down_flag := false; pending_exception := 0; pending_tval := 0;
     mstatus := 0; mtvec := 0; mscratch := 0; mepc := 0; mcause := 0; mtval := 0;
     mhartid := 0; misa := 0; mie := 0; mip := 0; medeleg := 0; mideleg := 0;
     mcounteren := 0; stvec := 0; sscratch := 0; sepc := 0; scause := 0; stval := 0;
     satp := 0; scounteren := 0; load_res := 0;
     tlb_read := tlb0; tlb_write := tlb0; tlb_code := tlb0 |}.

Definition riscv_cpu_init : RISCVCPUState :=
  let s := with_pc 0x1000 zeroed in
  let s := with_priv PRV_M s in
  let s := with_cur_xlen MAX_XLEN s in
  let s := with_mxl (get_base_from_xlen MAX_XLEN) s in
  let s := with_mstatus (ulong ((mxl s ≪ MSTATUS_UXL_SHIFT) .| (mxl s ≪ MSTATUS_SXL_SHIFT))) s in
  let s := with_misa (misa s .| (MCPUID_SUPER .| MCPUID_USER .| MCPUID_I .| MCPUID_M .| MCPUID_A)) s in
  let s := if 32 <=? FLEN then with_misa (misa s .| MCPUID_F) s else s in
  let s := if 64 <=? FLEN then with_misa (misa s .| MCPUID_D) s else s in
  let s := if 128 <=? FLEN then with_misa (misa s .| MCPUID_Q) s else s in
  let s := with_misa (misa s .| MCPUID_C) s in
  tlb_init s.

(** ** External interrupt lines and queries (the RISCVCPUClass methods) *)
Definition riscv_cpu_get_cycles s : Z := insn_counter s.
Definition riscv_cpu_set_mip (mask : Z) s : RISCVCPUState :=
  let s := with_mip (mip s .| mask) s in
  if power_down_flag s && negb (mip s .& mie s =? 0) then with_power_down_flag false s else s.
Definition riscv_cpu_reset_mip (mask : Z) s : RISCVCPUState :=
  with_mip (mip s .& Z.lnot mask) s.
Definition riscv_cpu_get_mip s : Z := mip s.
Definition riscv_cpu_get_power_down s : bool := power_down_flag s.
Definition riscv_cpu_get_misa s : Z := misa s.
End Tlb.
