(* ===== verification/Csr.v ===== *)
(** * Control and status registers (riscv_cpu.c: get_mstatus .. csr_write) *)
From S2P Require Export CpuState.

Definition SSTATUS_MASK0 : Z :=
  MSTATUS_UIE .| MSTATUS_SIE .| MSTATUS_UPIE .| MSTATUS_SPIE .| MSTATUS_SPP .|
  MSTATUS_FS .| MSTATUS_XS .| MSTATUS_SUM .| MSTATUS_MXR.
Definition MSTATUS_MASK : Z :=
  MSTATUS_UIE .| MSTATUS_SIE .| MSTATUS_MIE .| MSTATUS_UPIE .| MSTATUS_SPIE .|
  MSTATUS_MPIE .| MSTATUS_SPP .| MSTATUS_MPP .| MSTATUS_FS .|
  MSTATUS_MPRV .| MSTATUS_SUM .| MSTATUS_MXR.
Definition COUNTEREN_MASK : Z := (1 ≪ 0) .| (1 ≪ 2).

Definition nz (x : Z) : bool := negb (x =? 0).

Section Csr.
Context `{cfg : Config}.
Implicit Types s : RISCVCPUState.

Definition SSTATUS_MASK : Z :=
  if 64 <=? MAX_XLEN then SSTATUS_MASK0 .| MSTATUS_UXL_MASK else SSTATUS_MASK0.

(** The complete mstatus with the SD bit. *)
Definition get_mstatus s (mask : Z) : Z :=
  let val := mstatus s .| (fs s ≪ MSTATUS_FS_SHIFT) in
  let val := val .& mask in
  let sd := (val .& MSTATUS_FS =? MSTATUS_FS) || (val .& MSTATUS_XS =? MSTATUS_XS) in
  if sd then val .| ulong (1 ≪ (cur_xlen s - 1)) else val.

Definition set_mstatus s (val : Z) : RISCVCPUState :=
  let modif := mstatus s .^ val in
  let s := if nz (modif .& (MSTATUS_MPRV .| MSTATUS_SUM .| MSTATUS_MXR)) ||
              (nz (mstatus s .& MSTATUS_MPRV) && nz (modif .& MSTATUS_MPP))
           then tlb_flush_all s else s in
  let s := with_fs ((val ≫ MSTATUS_FS_SHIFT) .& 3) s in
  let mask := MSTATUS_MASK .& Z.lnot MSTATUS_FS in
  let mask :=
    if 64 <=? MAX_XLEN then
      let uxl := (val ≫ MSTATUS_UXL_SHIFT) .& 3 in
      let mask := if (1 <=? uxl) && (uxl <=? get_base_from_xlen MAX_XLEN)
                  then mask .| MSTATUS_UXL_MASK else mask in
      (* the source shifts by MSTATUS_UXL_SHIFT here too *)
      let sxl := (val ≫ MSTATUS_UXL_SHIFT) .& 3 in
      if (1 <=? sxl) && (sxl <=? get_base_from_xlen MAX_XLEN)
      then mask .| MSTATUS_SXL_MASK else mask
    else mask in
  with_mstatus ((mstatus s .& Z.lnot mask) .| (val .& mask)) s.

(** The counter-enable check of the user counters: may the current privilege
    read counter [csr]? *)
Definition counter_enabled s (csr : Z) : bool :=
  if priv s <? PRV_M then
    let counteren := if priv s <? PRV_S then scounteren s else mcounteren s in
    negb ((counteren ≫ (csr .& 0x1f)) .& 1 =? 0)
  else true.

(** csr_read: [None] for the return value -1, otherwise the value stored through
    [pval] with the return value 0. *)
Definition csr_read s (csr : Z) (will_write : bool) : option Z :=
  if (csr .& 0xc00 =? 0xc00) && will_write then None
  else if priv s <? ((csr ≫ 8) .& 3) then None
  else match csr with
  | 0x001 => if fs s =? 0 then None else Some (fflags s)
  | 0x002 => if fs s =? 0 then None else Some (frm s)
  | 0x003 => if fs s =? 0 then None else Some (fflags s .| (frm s ≪ 5))
  | 0xc00 | 0xc02 =>
      if counter_enabled s csr then Some (ulong (i64 (insn_counter s))) else None
  | 0xc80 | 0xc82 =>
      if negb (cur_xlen s =? 32) then None
      else if counter_enabled s csr then Some (ulong (insn_counter s ≫ 32)) else None
  | 0x100 => Some (get_mstatus s SSTATUS_MASK)
  | 0x104 => Some (mie s .& mideleg s)
  | 0x105 => Some (stvec s)
  | 0x106 => Some (scounteren s)
  | 0x140 => Some (sscratch s)
  | 0x141 => Some (sepc s)
  | 0x142 => Some (scause s)
  | 0x143 => Some (stval s)
  | 0x144 => Some (mip s .& mideleg s)
  | 0x180 => Some (satp s)
  | 0x300 => Some (get_mstatus s (ulong (-1)))
  | 0x301 => Some (misa s .| ulong (mxl s ≪ (cur_xlen s - 2)))
  | 0x302 => Some (medeleg s)
  | 0x303 => Some (mideleg s)
  | 0x304 => Some (mie s)
  | 0x305 => Some (mtvec s)
  | 0x306 => Some (mcounteren s)
  | 0x340 => Some (mscratch s)
  | 0x341 => Some (mepc s)
  | 0x342 => Some (mcause s)
  | 0x343 => Some (mtval s)
  | 0x344 => Some (mip s)
  | 0xb00 | 0xb02 => Some (ulong (i64 (insn_counter s)))
  | 0xb80 | 0xb82 =>
      if negb (cur_xlen s =? 32) then None else Some (ulong (insn_counter s ≫ 32))
  | 0xf14 => Some (mhartid s)
  | _ => None
  end.

Definition set_frm s (val : Z) : RISCVCPUState :=
  with_frm (if 5 <=? val then 0 else val) s.

(** [None] for the return value -1. *)
Definition get_insn_rm s (rm : Z) : option Z :=
  if rm =? 7 then Some (frm s) else if 5 <=? rm then None else Some rm.

(** csr_write: the return value (-1: no such CSR; 0; 1: the interpreter must be
    left, XLEN changed; 2: the TLBs were flushed) and the state. *)
Definition csr_write s (csr val : Z) : Z * RISCVCPUState :=
  match csr with
  | 0x001 => (0, with_fs 3 (with_fflags (val .& 0x1f) s))
  | 0x002 => (0, with_fs 3 (set_frm s (val .& 7)))
  | 0x003 =>
      let s := set_frm s ((val ≫ 5) .& 7) in
      (0, with_fs 3 (with_fflags (val .& 0x1f) s))
  | 0x100 =>
      (0, set_mstatus s ((mstatus s .& Z.lnot SSTATUS_MASK) .| (val .& SSTATUS_MASK)))
  | 0x104 =>
      let mask := mideleg s in
      (0, with_mie (u32 ((mie s .& Z.lnot mask) .| (val .& mask))) s)
  | 0x105 => (0, with_stvec (val .& Z.lnot 3) s)
  | 0x106 => (0, with_scounteren (u32 (val .& COUNTEREN_MASK)) s)
  | 0x140 => (0, with_sscratch val s)
  | 0x141 => (0, with_sepc (val .& Z.lnot 1) s)
  | 0x142 => (0, with_scause val s)
  | 0x143 => (0, with_stval val s)
  | 0x144 =>
      let mask := mideleg s in
      (0, with_mip (u32 ((mip s .& Z.lnot mask) .| (val .& mask))) s)
  | 0x180 =>
      let satp' :=
        if MAX_XLEN =? 32 then
          let new_mode := (val ≫ 31) .& 1 in
          u32 ((val .& ((1 ≪ 22) - 1)) .| (new_mode ≪ 31))
        else
          let mode := satp s ≫ 60 in
          let new_mode := (val ≫ 60) .& 0xf in
          let mode := if (new_mode =? 0) || ((8 <=? new_mode) && (new_mode <=? 9))
                      then new_mode else mode in
          u64 ((val .& ((1 ≪ 44) - 1)) .| (mode ≪ 60)) in
      (2, tlb_flush_all (with_satp satp' s))
  | 0x300 => (0, set_mstatus s val)
  | 0x301 =>
      if 64 <=? MAX_XLEN then
        let new_mxl := (val ≫ (cur_xlen s - 2)) .& 3 in
        if (1 <=? new_mxl) && (new_mxl <=? get_base_from_xlen MAX_XLEN) &&
           negb (mxl s =? new_mxl)
        then (1, with_cur_xlen (1 ≪ (new_mxl + 4)) (with_mxl new_mxl s))
        else (0, s)
      else (0, s)
  | 0x302 =>
      let mask := (1 ≪ (CAUSE_STORE_PAGE_FAULT + 1)) - 1 in
      (0, with_medeleg (u32 ((medeleg s .& Z.lnot mask) .| (val .& mask))) s)
  | 0x303 =>
      let mask := MIP_SSIP .| MIP_STIP .| MIP_SEIP in
      (0, with_mideleg (u32 ((mideleg s .& Z.lnot mask) .| (val .& mask))) s)
  | 0x304 =>
      let mask := MIP_MSIP .| MIP_MTIP .| MIP_SSIP .| MIP_STIP .| MIP_SEIP in
      (0, with_mie (u32 ((mie s .& Z.lnot mask) .| (val .& mask))) s)
  | 0x305 => (0, with_mtvec (val .& Z.lnot 3) s)
  | 0x306 => (0, with_mcounteren (u32 (val .& COUNTEREN_MASK)) s)
  | 0x340 => (0, with_mscratch val s)
  | 0x341 => (0, with_mepc (val .& Z.lnot 1) s)
  | 0x342 => (0, with_mcause val s)
  | 0x343 => (0, with_mtval val s)
  | 0x344 =>
      let mask := MIP_SSIP .| MIP_STIP in
      (0, with_mip (u32 ((mip s .& Z.lnot mask) .| (val .& mask))) s)
  | _ => (-1, s)
  end.
End Csr.
