(* ===== verification/Trap.v ===== *)
(** * Privilege changes, exceptions and interrupts
    (riscv_cpu.c: set_priv .. raise_interrupt; cutils.h: ctz32) *)
From S2P Require Export CpuState Csr.

(** cutils.h *)
Fixpoint ctz32_loop (fuel : nat) (i a : Z) : Z :=
  match fuel with
  | O => 32
  | S f => if negb ((a ≫ i) .& 1 =? 0) then i else ctz32_loop f (i + 1) a
  end.
Definition ctz32 (a : Z) : Z := if a =? 0 then 32 else ctz32_loop 32 0 a.

Section Trap.
Context `{cfg : Config}.
Implicit Types s : RISCVCPUState.

Definition set_priv s (p : Z) : RISCVCPUState :=
  if negb (priv s =? p) then
    let s := tlb_flush_all s in
    let s :=
      if 64 <=? MAX_XLEN then
        let l := if p =? PRV_S then (mstatus s ≫ MSTATUS_SXL_SHIFT) .& 3
                 else if p =? PRV_U then (mstatus s ≫ MSTATUS_UXL_SHIFT) .& 3
                 else mxl s in
        with_cur_xlen (1 ≪ (4 + l)) s
      else s in
    with_priv p s
  else s.

Definition raise_exception2 s (cause tval : Z) : RISCVCPUState :=
  let deleg :=
    if priv s <=? PRV_S then
      if nz (cause .& CAUSE_INTERRUPT)
      then (mideleg s ≫ (cause .& (MAX_XLEN - 1))) .& 1
      else (medeleg s ≫ cause) .& 1
    else 0 in
  let causel := cause .& 0x7fffffff in
  let causel := if nz (cause .& CAUSE_INTERRUPT)
                then causel .| ulong (1 ≪ (cur_xlen s - 1)) else causel in
  if nz deleg then
    let s := with_scause causel s in
    let s := with_sepc (pc s) s in
    let s := with_stval tval s in
    let s := with_mstatus ((mstatus s .& Z.lnot MSTATUS_SPIE) .|
               (((mstatus s ≫ priv s) .& 1) ≪ MSTATUS_SPIE_SHIFT)) s in
    let s := with_mstatus ((mstatus s .& Z.lnot MSTATUS_SPP) .|
               (priv s ≪ MSTATUS_SPP_SHIFT)) s in
    let s := with_mstatus (mstatus s .& Z.lnot MSTATUS_SIE) s in
    let s := set_priv s PRV_S in
    with_pc (stvec s) s
  else
    let s := with_mcause causel s in
    let s := with_mepc (pc s) s in
    let s := with_mtval tval s in
    let s := with_mstatus ((mstatus s .& Z.lnot MSTATUS_MPIE) .|
               (((mstatus s ≫ priv s) .& 1) ≪ MSTATUS_MPIE_SHIFT)) s in
    let s := with_mstatus ((mstatus s .& Z.lnot MSTATUS_MPP) .|
               (priv s ≪ MSTATUS_MPP_SHIFT)) s in
    let s := with_mstatus (mstatus s .& Z.lnot MSTATUS_MIE) s in
    let s := set_priv s PRV_M in
    with_pc (mtvec s) s.

Definition raise_exception s (cause : Z) : RISCVCPUState := raise_exception2 s cause 0.

Definition handle_sret s : RISCVCPUState :=
  let spp := (mstatus s ≫ MSTATUS_SPP_SHIFT) .& 1 in
  let spie := (mstatus s ≫ MSTATUS_SPIE_SHIFT) .& 1 in
  let s := with_mstatus ((mstatus s .& Z.lnot (1 ≪ spp)) .| (spie ≪ spp)) s in
  let s := with_mstatus (mstatus s .| MSTATUS_SPIE) s in
  let s := with_mstatus (mstatus s .& Z.lnot MSTATUS_SPP) s in
  let s := set_priv s spp in
  with_pc (sepc s) s.

Definition handle_mret s : RISCVCPUState :=
  let mpp := (mstatus s ≫ MSTATUS_MPP_SHIFT) .& 3 in
  let mpie := (mstatus s ≫ MSTATUS_MPIE_SHIFT) .& 1 in
  let s := with_mstatus ((mstatus s .& Z.lnot (1 ≪ mpp)) .| (mpie ≪ mpp)) s in
  let s := with_mstatus (mstatus s .| MSTATUS_MPIE) s in
  let s := with_mstatus (mstatus s .& Z.lnot MSTATUS_MPP) s in
  let s := set_priv s mpp in
  with_pc (mepc s) s.

Definition get_pending_irq_mask s : Z :=
  let pending_ints := mip s .& mie s in
  if pending_ints =? 0 then 0
  else
    let enabled_ints :=
      if priv s =? PRV_M then
        if nz (mstatus s .& MSTATUS_MIE) then u32 (Z.lnot (mideleg s)) else 0
      else if priv s =? PRV_S then
        let e := u32 (Z.lnot (mideleg s)) in
        if nz (mstatus s .& MSTATUS_SIE) then e .| mideleg s else e
      else u32 (-1) in
    pending_ints .& enabled_ints.

(** The return value ([true] for -1) and the state. *)
Definition raise_interrupt s : bool * RISCVCPUState :=
  let mask := get_pending_irq_mask s in
  if mask =? 0 then (false, s)
  else (true, raise_exception s (ctz32 mask .| CAUSE_INTERRUPT)).
End Trap.
