(* ===== verification/Mmu.v ===== *)
(** * Memory accesses and address translation
    (riscv_cpu.c: phys_read_u32 .. target_read_insn_u16; riscv_cpu_priv.h:
    target_read_u8 .. target_write_u128)

    The state of a run: the CPU, the physical memory map it shares with the
    devices, host memory, and the state [W] of the devices. *)
From S2P Require Export CpuState Csr Trap.

Record Sys (W : Type) := mkSys {
  cpu : RISCVCPUState;
  mem_map : PhysMemoryMap;
  host : hmem;
  world : W;
}.
Arguments mkSys {W} cpu mem_map host world.
Arguments cpu {W} s.
Arguments mem_map {W} s.
Arguments host {W} s.
Arguments world {W} s.

Definition upd_cpu {W} (f : RISCVCPUState -> RISCVCPUState) (σ : Sys W) : Sys W :=
  mkSys (f (cpu σ)) (mem_map σ) (host σ) (world σ).
Definition upd_map {W} (f : PhysMemoryMap -> PhysMemoryMap) (σ : Sys W) : Sys W :=
  mkSys (cpu σ) (f (mem_map σ)) (host σ) (world σ).
Definition upd_host {W} (f : hmem -> hmem) (σ : Sys W) : Sys W :=
  mkSys (cpu σ) (mem_map σ) (f (host σ)) (world σ).
Definition upd_world {W} (f : W -> W) (σ : Sys W) : Sys W :=
  mkSys (cpu σ) (mem_map σ) (host σ) (f (world σ)).

(** What the CPU calls through pointers: the callbacks of a device range, by its
    handle, with the 32-bit offset and the size_log2 argument; and the value an
    uninitialised automatic variable holds when it is read. *)
Class Platform (W : Type) := {
  read_func : nat -> Z -> Z -> M (Sys W) Z;
  write_func : nat -> Z -> Z -> Z -> M (Sys W) unit;
  uninit : Sys W -> Z;
}.

Definition PTE_V_MASK : Z := 1 ≪ 0.
Definition PTE_U_MASK : Z := 1 ≪ 4.
Definition PTE_A_MASK : Z := 1 ≪ 6.
Definition PTE_D_MASK : Z := 1 ≪ 7.

Inductive access_type := ACCESS_READ | ACCESS_WRITE | ACCESS_CODE.
#[export] Instance access_eq_dec : EqDecision access_type.
Proof. solve_decision. Defined.
Definition access_num (a : access_type) : Z :=
  match a with ACCESS_READ => 0 | ACCESS_WRITE => 1 | ACCESS_CODE => 2 end.

Section Mmu.
Context `{cfg : Config} {W : Type} `{plat : Platform W}.
Local Abbreviation MS := (M (Sys W)).

Definition getc : MS RISCVCPUState := gets cpu.
Definition updc (f : RISCVCPUState -> RISCVCPUState) : MS unit := modify (upd_cpu f).
(** Call of a function that updates the CPU and returns a value. *)
Definition callc {A} (f : RISCVCPUState -> A * RISCVCPUState) : MS A := fun σ =>
  let (a, s) := f (cpu σ) in Ok a (upd_cpu (fun _ => s) σ).

(** ** Dereferencing a host pointer, within the bounds of the live objects *)
Definition host_read (n : nat) (p : Z) : MS Z := fun σ =>
  if host_ok (ram_objs (mem_map σ)) p (Z.of_nat n)
  then Ok (host_load (host σ) p n) σ else Stop StopFault.
Definition host_write (n : nat) (p v : Z) : MS unit := fun σ =>
  if host_ok (ram_objs (mem_map σ)) p (Z.of_nat n)
  then Ok tt (upd_host (fun m => host_store m p n v) σ) else Stop StopFault.

(** The range that holds a physical address, if there is one. *)
Definition find_range (paddr : Z) : MS (option (nat * PhysMemoryRange)) := fun σ =>
  Ok (i ← get_phys_mem_range (mem_map σ) (u64 paddr);
      pr ← phys_mem_range (mem_map σ) !! i; Some (i, pr)) σ.

Definition ram_ptr (pr : PhysMemoryRange) (paddr : Z) : Z :=
  pr_phys_mem pr + uptr (paddr - pr_addr pr).

(** ** phys_read_u8/32/64, phys_write_u8/32/64: RAM only *)
Definition phys_write (n : nat) (a v : Z) : MS unit :=
  r ← find_range a;
  match r with
  | Some (_, pr) => if pr_is_ram pr then host_write n (ram_ptr pr a) v else mret tt
  | None => mret tt
  end.
Definition phys_read (n : nat) (a : Z) : MS Z :=
  r ← find_range a;
  match r with
  | Some (_, pr) => if pr_is_ram pr then host_read n (ram_ptr pr a) else mret 0
  | None => mret 0
  end.

(** ** get_phys_addr

    [None] for the return value -1.  [walk] is the loop over the levels, [n] of
    them left, the current one being [levels - n]. *)
Definition leaf_ok (s : RISCVCPUState) (p pte xwr : Z) (access : access_type) : bool :=
  if (xwr =? 2) || (xwr =? 6) then false
  else if (if p =? PRV_S then nz (pte .& PTE_U_MASK) && negb (nz (mstatus s .& MSTATUS_SUM))
           else negb (nz (pte .& PTE_U_MASK))) then false
  else
    let xwr := if nz (mstatus s .& MSTATUS_MXR) then xwr .| (xwr ≫ 2) else xwr in
    negb ((xwr ≫ access_num access) .& 1 =? 0).

Fixpoint walk (n : nat) (levels pte_size_log2 p : Z) (va : Z) (access : access_type)
    (pte_addr : Z) : MS (option Z) :=
  match n with
  | O => mret None
  | S n' =>
      let pte_bits := 12 - pte_size_log2 in
      let pte_mask := (1 ≪ pte_bits) - 1 in
      let i := levels - Z.of_nat n in
      let vaddr_shift := PG_SHIFT + pte_bits * (levels - 1 - i) in
      let pte_idx := (va ≫ vaddr_shift) .& pte_mask in
      let pte_addr := ulong (pte_addr + (pte_idx ≪ pte_size_log2)) in
      pte ← (if pte_size_log2 =? 2 then phys_read 4 pte_addr else phys_read 8 pte_addr);
      if pte .& PTE_V_MASK =? 0 then mret None
      else
        let paddr := ulong ((pte ≫ 10) ≪ PG_SHIFT) in
        let xwr := (pte ≫ 1) .& 7 in
        if negb (xwr =? 0) then
          s ← getc;
          if negb (leaf_ok s p pte xwr access) then mret None
          else
            let need_write := negb (nz (pte .& PTE_A_MASK)) ||
              (negb (nz (pte .& PTE_D_MASK)) && bool_decide (access = ACCESS_WRITE)) in
            let pte := pte .| PTE_A_MASK in
            let pte := if bool_decide (access = ACCESS_WRITE) then pte .| PTE_D_MASK else pte in
            _ ← (if need_write then
                   if pte_size_log2 =? 2 then phys_write 4 pte_addr pte
                   else phys_write 8 pte_addr pte
                 else mret tt);
            let vaddr_mask := ulong (ulong (1 ≪ vaddr_shift) - 1) in
            mret (Some ((va .& vaddr_mask) .| (paddr .& Z.lnot vaddr_mask)))
        else walk n' levels pte_size_log2 p va access paddr
  end.

(** The privilege an access is checked against. *)
Definition access_priv (s : RISCVCPUState) (access : access_type) : Z :=
  if nz (mstatus s .& MSTATUS_MPRV) && negb (bool_decide (access = ACCESS_CODE))
  then (mstatus s ≫ MSTATUS_MPP_SHIFT) .& 3 else priv s.

Definition get_phys_addr (va : Z) (access : access_type) : MS (option Z) :=
  s ← getc;
  let p := access_priv s access in
  if p =? PRV_M then
    if cur_xlen s <? MAX_XLEN then mret (Some (va .& (ulong (1 ≪ cur_xlen s) - 1)))
    else mret (Some va)
  else if MAX_XLEN =? 32 then
    let mode := satp s ≫ 31 in
    if mode =? 0 then mret (Some va)
    else
      let pte_addr := ulong ((satp s .& (ulong (1 ≪ 22) - 1)) ≪ PG_SHIFT) in
      walk 2 2 2 p va access pte_addr
  else
    let mode := (satp s ≫ 60) .& 0xf in
    if mode =? 0 then mret (Some va)
    else
      let levels := mode - 8 + 3 in
      let vaddr_shift := MAX_XLEN - (PG_SHIFT + levels * 9) in
      if negb (ulong ((slong (slong va ≪ vaddr_shift)) ≫ vaddr_shift) =? va) then mret None
      else
        let pte_addr := ulong ((satp s .& (ulong (1 ≪ 44) - 1)) ≪ PG_SHIFT) in
        walk (Z.to_nat levels) levels 3 p va access pte_addr.

(** ** Loads

    target_read_u8 .. target_read_u128 (macro TARGET_READ_WRITE), given the slow
    path; the access is [2^size_log2] bytes wide. *)
Definition tlb_tag (size_log2 addr : Z) : Z :=
  addr .& Z.lnot (PG_MASK .& Z.lnot ((1 ≪ size_log2) - 1)).
Definition nbytes (size_log2 : Z) : nat := Z.to_nat (1 ≪ size_log2).
Definition tlb_ptr (e : TLBEntry) (addr : Z) : Z := uptr (mem_addend e + uptr addr).

Definition target_read_with (slow : Z -> Z -> MS (option Z)) (size_log2 addr : Z)
    : MS (option Z) :=
  s ← getc;
  let e := tlb_get (tlb_read s) (tlb_idx addr) in
  if vaddr e =? tlb_tag size_log2 addr then
    v ← host_read (nbytes size_log2) (tlb_ptr e addr);
    mret (Some v)
  else
    val ←? slow size_log2 addr;
    mret (Some (wrap (8 * (1 ≪ size_log2)) val)).

(** Is there a case for this access size in the switches of the slow paths? *)
Definition size_supported (size_log2 : Z) : bool :=
  (0 <=? size_log2) &&
  (if 128 <=? MLEN then size_log2 <=? 4 else if 64 <=? MLEN then size_log2 <=? 3 else size_log2 <=? 2).

Definition tlb_fill (addr ptr : Z) : TLBEntry :=
  {| vaddr := addr .& Z.lnot PG_MASK; mem_addend := uptr (ptr - addr) |}.

(** The unaligned branch of target_read_slow. *)
Definition read_slow_unaligned (read : Z -> Z -> MS (option Z)) (size_log2 addr al : Z)
    : MS (option Z) :=
  if size_log2 =? 1 then
    v0 ←? read 0 addr;
    v1 ←? read 0 (ulong (addr + 1));
    mret (Some (v0 .| (v1 ≪ 8)))
  else if (2 <=? size_log2) && size_supported size_log2 then
    let w := 8 * (1 ≪ size_log2) in
    let addr := ulong (addr - al) in
    v0 ←? read size_log2 addr;
    v1 ←? read size_log2 (ulong (addr + (1 ≪ size_log2)));
    mret (Some ((v0 ≫ (al * 8)) .| wrap w (v1 ≪ (w - al * 8))))
  else stop_with StopAbort.

(** The device branch: a range that is not RAM. *)
Definition dev_read (pr : PhysMemoryRange) (offset size_log2 : Z) : MS Z :=
  if negb ((devio_flags pr ≫ size_log2) .& 1 =? 0) then
    read_func (pr_opaque pr) (u32 offset) size_log2
  else if (64 <=? MLEN) && nz (devio_flags pr .& DEVIO_SIZE32) && (size_log2 =? 3) then
    lo ← read_func (pr_opaque pr) (u32 offset) 2;
    hi ← read_func (pr_opaque pr) (u32 (ulong (offset + 4))) 2;
    mret (lo .| u64 (hi ≪ 32))
  else mret 0.

(** The aligned branch of target_read_slow. *)
Definition read_slow_aligned (size_log2 addr : Z) : MS (option Z) :=
  pa ← get_phys_addr addr ACCESS_READ;
  match pa with
  | None =>
      _ ← updc (with_pending_tval addr);
      _ ← updc (with_pending_exception CAUSE_LOAD_PAGE_FAULT);
      mret None
  | Some paddr =>
      r ← find_range paddr;
      match r with
      | None => v ← gets uninit; mret (Some (wrap MLEN v))
      | Some (_, pr) =>
          if pr_is_ram pr then
            let ptr := ram_ptr pr paddr in
            _ ← updc (fun s => with_tlb_read (tlb_put (tlb_idx addr) (tlb_fill addr ptr) (tlb_read s)) s);
            if size_supported size_log2 then
              v ← host_read (nbytes size_log2) ptr; mret (Some v)
            else stop_with StopAbort
          else
            v ← dev_read pr (ulong (paddr - pr_addr pr)) size_log2;
            mret (Some v)
      end
  end.

(** target_read_slow calls target_read_uN, which calls target_read_slow: [fuel]
    bounds the nesting.  Two levels are enough, since the nested accesses are
    aligned ([good_target_read] in MmuInv.v). *)
Fixpoint target_read_slow (fuel : nat) (size_log2 addr : Z) : MS (option Z) :=
  match fuel with
  | O => stop_with StopFuel
  | S f =>
      let al := addr .& ((1 ≪ size_log2) - 1) in
      if nz al
      then read_slow_unaligned (target_read_with (target_read_slow f)) size_log2 addr al
      else read_slow_aligned size_log2 addr
  end.
Definition target_read (size_log2 addr : Z) : MS (option Z) :=
  target_read_with (target_read_slow 2) size_log2 addr.

(** ** Stores: [Some tt] for the return value 0 *)
Definition target_write_with (slow : Z -> Z -> Z -> MS (option unit))
    (size_log2 addr val : Z) : MS (option unit) :=
  let val := wrap (8 * (1 ≪ size_log2)) val in (* the parameter's type *)
  s ← getc;
  let e := tlb_get (tlb_write s) (tlb_idx addr) in
  if vaddr e =? tlb_tag size_log2 addr then
    _ ← host_write (nbytes size_log2) (tlb_ptr e addr) val;
    mret (Some tt)
  else slow size_log2 addr val.

(** for(i = 0; i < size; i++) target_write_u8(s, addr + i, (val >> (8 * i)) & 0xff) *)
Fixpoint write_slow_bytes (write8 : Z -> Z -> MS (option unit)) (n : nat) (i addr val : Z)
    : MS (option unit) :=
  match n with
  | O => mret (Some tt)
  | S n' =>
      _ ←? write8 (ulong (addr + i)) ((val ≫ (8 * i)) .& 0xff);
      write_slow_bytes write8 n' (i + 1) addr val
  end.

Definition dev_write (pr : PhysMemoryRange) (offset size_log2 val : Z) : MS unit :=
  if negb ((devio_flags pr ≫ size_log2) .& 1 =? 0) then
    write_func (pr_opaque pr) (u32 offset) (u32 val) size_log2
  else if (64 <=? MLEN) && nz (devio_flags pr .& DEVIO_SIZE32) && (size_log2 =? 3) then
    _ ← write_func (pr_opaque pr) (u32 offset) (val .& 0xffffffff) 2;
    write_func (pr_opaque pr) (u32 (ulong (offset + 4))) ((val ≫ 32) .& 0xffffffff) 2
  else mret tt.

(** phys_mem_set_dirty_bit on the range with index [i]. *)
Definition set_dirty_bit (i : nat) (pr : PhysMemoryRange) (offset : Z) : MS unit :=
  match phys_mem_set_dirty_bit pr offset with
  | Some pr' => modify (upd_map (alter_range i (fun _ => pr')))
  | None => stop_with StopFault
  end.

Definition write_slow_aligned (size_log2 addr val : Z) : MS (option unit) :=
  pa ← get_phys_addr addr ACCESS_WRITE;
  match pa with
  | None =>
      _ ← updc (with_pending_tval addr);
      _ ← updc (with_pending_exception CAUSE_STORE_PAGE_FAULT);
      mret None
  | Some paddr =>
      r ← find_range paddr;
      match r with
      | None => mret (Some tt)
      | Some (i, pr) =>
          if pr_is_ram pr then
            _ ← set_dirty_bit i pr (uptr (paddr - pr_addr pr));
            let ptr := ram_ptr pr paddr in
            _ ← updc (fun s => with_tlb_write (tlb_put (tlb_idx addr) (tlb_fill addr ptr) (tlb_write s)) s);
            if size_supported size_log2 then
              _ ← host_write (nbytes size_log2) ptr val; mret (Some tt)
            else stop_with StopAbort
          else
            _ ← dev_write pr (ulong (paddr - pr_addr pr)) size_log2 val;
            mret (Some tt)
      end
  end.

Fixpoint target_write_slow (fuel : nat) (size_log2 addr val : Z) : MS (option unit) :=
  match fuel with
  | O => stop_with StopFuel
  | S f =>
      if nz (addr .& ((1 ≪ size_log2) - 1))
      then write_slow_bytes (target_write_with (target_write_slow f) 0)
             (nbytes size_log2) 0 addr val
      else write_slow_aligned size_log2 addr val
  end.
Definition target_write (size_log2 addr val : Z) : MS (option unit) :=
  target_write_with (target_write_slow 2) size_log2 addr val.

(** ** Instruction fetch *)
Definition get_insn32 (p : Z) : MS Z := host_read 4 p.

Definition target_read_insn_slow (addr : Z) : MS (option Z) :=
  pa ← get_phys_addr addr ACCESS_CODE;
  match pa with
  | None =>
      _ ← updc (with_pending_tval addr);
      _ ← updc (with_pending_exception CAUSE_FETCH_PAGE_FAULT);
      mret None
  | Some paddr =>
      r ← find_range paddr;
      match r with
      | Some (_, pr) =>
          if pr_is_ram pr then
            let ptr := ram_ptr pr paddr in
            _ ← updc (fun s => with_tlb_code (tlb_put (tlb_idx addr) (tlb_fill addr ptr) (tlb_code s)) s);
            mret (Some ptr)
          else
            _ ← updc (with_pending_tval addr);
            _ ← updc (with_pending_exception CAUSE_FAULT_FETCH);
            mret None
      | None =>
          _ ← updc (with_pending_tval addr);
          _ ← updc (with_pending_exception CAUSE_FAULT_FETCH);
          mret None
      end
  end.

(** The pointer to the instruction at [addr]: TLB hit or slow path. *)
Definition insn_ptr (addr : Z) : MS (option Z) :=
  s ← getc;
  let e := tlb_get (tlb_code s) (tlb_idx addr) in
  if vaddr e =? addr .& Z.lnot PG_MASK then mret (Some (tlb_ptr e addr))
  else target_read_insn_slow addr.

Definition target_read_insn_u16 (addr : Z) : MS (option Z) :=
  ptr ←? insn_ptr addr;
  v ← host_read 2 ptr;
  mret (Some v).
End Mmu.
