(* ===== verification/Arith.v ===== *)
(** * Division and high multiplication (riscv_cpu_template.h, lines 37-170)

    [XLEN] is the template's parameter.  Arguments and results of an [intx_t] are
    signed, those of a [uintx_t] are in [[0, 2^XLEN)]. *)
From S2P Require Export Prelude.

Definition div (XLEN a b : Z) : Z :=
  if b =? 0 then -1
  else if (a =? swrap XLEN (1 ≪ (XLEN - 1))) && (b =? -1) then a
  else Z.quot a b.

Definition divu (XLEN a b : Z) : Z :=
  if b =? 0 then wrap XLEN (-1) else Z.quot a b.

Definition rem (XLEN a b : Z) : Z :=
  if b =? 0 then a
  else if (a =? swrap XLEN (1 ≪ (XLEN - 1))) && (b =? -1) then 0
  else Z.rem a b.

Definition remu (XLEN a b : Z) : Z :=
  if b =? 0 then a else Z.rem a b.

(** XLEN = 32 *)
Definition mulh32 (a b : Z) : Z := u32 (i64 (a * b) ≫ 32).
Definition mulhsu32 (a b : Z) : Z := u32 (i64 (a * b) ≫ 32).
Definition mulhu32 (a b : Z) : Z := u32 (i64 (a * b) ≫ 32).

(** XLEN = 64 with a 128-bit integer type *)
Definition mulh64 (a b : Z) : Z := u64 (swrap 128 (a * b) ≫ 64).
Definition mulhsu64 (a b : Z) : Z := u64 (swrap 128 (a * b) ≫ 64).
Definition mulhu64 (a b : Z) : Z := u64 (swrap 128 (a * b) ≫ 64).

(** The other cases: four half-width products. *)
Definition mulhu_gen (XLEN a b : Z) : Z :=
  let h := XLEN / 2 in
  let uhalf := wrap h in
  let uintx := wrap XLEN in
  let a0 := uhalf a in
  let a1 := uhalf (a ≫ h) in
  let b0 := uhalf b in
  let b1 := uhalf (b ≫ h) in
  let r00 := uintx (a0 * b0) in
  let r01 := uintx (a0 * b1) in
  let r10 := uintx (a1 * b0) in
  let r11 := uintx (a1 * b1) in
  let c := uintx ((r00 ≫ h) + uhalf r01 + uhalf r10) in
  let c := uintx ((c ≫ h) + (r01 ≫ h) + (r10 ≫ h) + uhalf r11) in
  let r2 := uhalf c in
  let r3 := uhalf ((c ≫ h) + (r11 ≫ h)) in
  uintx (r3 ≪ h) .| r2.

Definition mulh_gen (XLEN a b : Z) : Z :=
  let uintx := wrap XLEN in
  let r1 := mulhu_gen XLEN (uintx a) (uintx b) in
  let r1 := if a <? 0 then uintx (r1 - a) else r1 in
  if b <? 0 then uintx (r1 - b) else r1.

Definition mulhsu_gen (XLEN a b : Z) : Z :=
  let uintx := wrap XLEN in
  let r1 := mulhu_gen XLEN (uintx a) b in
  if a <? 0 then uintx (r1 - a) else r1.

(** The function the template's instance for [XLEN] defines. *)
Definition mulh `{Config} (XLEN a b : Z) : Z :=
  if XLEN =? 32 then mulh32 a b
  else if (XLEN =? 64) && HAVE_INT128 then mulh64 a b else mulh_gen XLEN a b.
Definition mulhsu `{Config} (XLEN a b : Z) : Z :=
  if XLEN =? 32 then mulhsu32 a b
  else if (XLEN =? 64) && HAVE_INT128 then mulhsu64 a b else mulhsu_gen XLEN a b.
Definition mulhu `{Config} (XLEN a b : Z) : Z :=
  if XLEN =? 32 then mulhu32 a b
  else if (XLEN =? 64) && HAVE_INT128 then mulhu64 a b else mulhu_gen XLEN a b.

(** riscv_cpu.c *)
Definition sext (val n : Z) : Z := i32 (val ≪ (32 - n)) ≫ (32 - n).

Definition get_field1 (val src_pos dst_pos dst_pos_max : Z) : Z :=
  let mask := ((1 ≪ (dst_pos_max - dst_pos + 1)) - 1) ≪ dst_pos in
  if src_pos <=? dst_pos then u32 (val ≪ (dst_pos - src_pos)) .& mask
  else (val ≫ (src_pos - dst_pos)) .& mask.
