(* ===== verification/Insn.v ===== *)
(** * Instructions: common part (riscv_cpu_template.h)

    The body of the interpreter's switch is split into one definition per group
    of cases.  Each ends with the jump the source takes: [L_next n] for
    C_NEXT_INSN and NEXT_INSN (2 and 4), [L_jump] for JUMP_INSN after [s->pc] is
    set, and the labels of the function. *)
From S2P Require Export Mmu Arith.

Inductive label :=
| L_next (n : Z)
| L_jump
| L_illegal_insn
| L_mmu_exception
| L_exception
| L_done_interp.

#[export] Instance label_eq_dec : EqDecision label.
Proof. solve_decision. Defined.

(** [x ←! m ; k]: call [m]; goto mmu_exception when it fails. *)
Notation "x ←! m ; k" :=
  (mbind (fun r => match r with None => mret L_mmu_exception | Some x => k end) m)
  (at level 20, m at level 100, k at level 200, only parsing) : c_scope.

Section Insn.
Context `{cfg : Config} {W : Type} `{plat : Platform W}.
Local Abbreviation MS := (M (Sys W)).

(** riscv_cpu_priv.h *)
Definition F32_HIGH : Z := wrap FLEN ((2 ^ FLEN - 1) ≪ 32).
Definition F64_HIGH : Z := if FLEN =? 64 then 0 else wrap FLEN ((2 ^ FLEN - 1) ≪ 64).

(** [s->reg[i]] and [s->reg[i] = v]. *)
Definition rd_reg (i : Z) : MS Z := gets (fun σ => reg_get (cpu σ) i).
Definition wr_reg (i v : Z) : MS unit := updc (reg_set i v).
Definition rd_fp (i : Z) : MS Z := gets (fun σ => fp_get (cpu σ) i).
(** [s->fp_reg[i] = v; s->fs = 3]. *)
Definition wr_fp (i v : Z) : MS unit := updc (fun s => with_fs 3 (fp_set i v s)).
Definition set_pc (v : Z) : MS unit := updc (with_pc v).

(** [if (rd != 0) s->reg[rd] = v]. *)
Definition wr_rd (rd v : Z) : MS unit := if nz rd then wr_reg rd v else mret tt.

Definition illegal : MS label := mret L_illegal_insn.
(** [if (s->fs == 0) goto illegal_insn]. *)
Definition if_fs (k : MS label) : MS label :=
  s ← getc; if fs s =? 0 then illegal else k.

Definition insn_rd (insn : Z) : Z := (insn ≫ 7) .& 0x1f.
Definition insn_rs1 (insn : Z) : Z := (insn ≫ 15) .& 0x1f.
Definition insn_rs2 (insn : Z) : Z := (insn ≫ 20) .& 0x1f.
End Insn.
