(* ===== verification/InsnC.v ===== *)
(** * Compressed instructions (riscv_cpu_template.h, lines 307-775)

    [gpc] is GET_PC() at the instruction. *)
From S2P Require Export Insn.

Section InsnC.
Context `{cfg : Config} {W : Type} `{plat : Platform W}.
Local Abbreviation MS := (M (Sys W)).
Context (XLEN : Z).
Local Abbreviation intx := (swrap XLEN).
Local Abbreviation uintx := (wrap XLEN).

(** Immediates shared by several cases. *)
Definition c_imm6 (insn : Z) : Z :=
  sext (get_field1 insn 12 5 5 .| get_field1 insn 2 0 4) 6.
Definition c_shamt (insn : Z) : Z := get_field1 insn 12 5 5 .| get_field1 insn 2 0 4.
Definition c_imm_j (insn : Z) : Z :=
  sext (get_field1 insn 12 11 11 .| get_field1 insn 11 4 4 .| get_field1 insn 9 8 9 .|
        get_field1 insn 8 10 10 .| get_field1 insn 7 6 6 .| get_field1 insn 6 7 7 .|
        get_field1 insn 3 1 3 .| get_field1 insn 2 5 5) 12.
Definition c_imm_b (insn : Z) : Z :=
  sext (get_field1 insn 12 8 8 .| get_field1 insn 10 3 4 .| get_field1 insn 5 6 7 .|
        get_field1 insn 3 1 2 .| get_field1 insn 2 5 5) 9.
Definition c_imm_w (insn : Z) : Z :=
  get_field1 insn 10 3 5 .| get_field1 insn 6 2 2 .| get_field1 insn 5 6 6.
Definition c_imm_d (insn : Z) : Z := get_field1 insn 10 3 5 .| get_field1 insn 5 6 7.
Definition c_imm_q (insn : Z) : Z :=
  get_field1 insn 11 4 5 .| get_field1 insn 10 8 8 .| get_field1 insn 5 6 7.
Definition c_imm_addi4spn (insn : Z) : Z :=
  get_field1 insn 11 4 5 .| get_field1 insn 7 6 9 .| get_field1 insn 6 2 2 .|
  get_field1 insn 5 3 3.
Definition c_imm_addi16sp (insn : Z) : Z :=
  sext (get_field1 insn 12 9 9 .| get_field1 insn 6 4 4 .| get_field1 insn 5 6 6 .|
        get_field1 insn 3 7 8 .| get_field1 insn 2 5 5) 10.
Definition c_imm_lui (insn : Z) : Z :=
  sext (get_field1 insn 12 17 17 .| get_field1 insn 2 12 16) 18.

(** addr = (intx_t)(s->reg[rs1] + imm) *)
Definition c_addr (rs1 imm : Z) : MS Z :=
  r ← rd_reg rs1; mret (ulong (intx (ulong (r + imm)))).

(** Quadrant 0 *)
Definition exec_c0 (insn : Z) : MS label :=
  let funct3 := (insn ≫ 13) .& 7 in
  let rd := ((insn ≫ 2) .& 7) .| 8 in
  let rs1 := ((insn ≫ 7) .& 7) .| 8 in
  match funct3 with
  | 0 => (* c.addi4spn *)
      let imm := c_imm_addi4spn insn in
      if imm =? 0 then illegal
      else
        sp ← rd_reg 2;
        _ ← wr_reg rd (ulong (intx (ulong (sp + imm))));
        mret (L_next 2)
  | 1 =>
      if 128 <=? XLEN then (* c.lq *)
        addr ← c_addr rs1 (c_imm_q insn);
        val ←! target_read 4 addr;
        _ ← wr_reg rd val;
        mret (L_next 2)
      else if 64 <=? FLEN then (* c.fld *)
        if_fs (
          addr ← c_addr rs1 (c_imm_d insn);
          rval ←! target_read 3 addr;
          _ ← wr_fp rd (rval .| F64_HIGH);
          mret (L_next 2))
      else illegal
  | 2 => (* c.lw *)
      addr ← c_addr rs1 (c_imm_w insn);
      rval ←! target_read 2 addr;
      _ ← wr_reg rd (ulong (i32 rval));
      mret (L_next 2)
  | 3 =>
      if 64 <=? XLEN then (* c.ld *)
        addr ← c_addr rs1 (c_imm_d insn);
        rval ←! target_read 3 addr;
        _ ← wr_reg rd (ulong (i64 rval));
        mret (L_next 2)
      else if 32 <=? FLEN then (* c.flw *)
        if_fs (
          addr ← c_addr rs1 (c_imm_w insn);
          rval ←! target_read 2 addr;
          _ ← wr_fp rd (rval .| F32_HIGH);
          mret (L_next 2))
      else illegal
  | 5 =>
      if 128 <=? XLEN then (* c.sq *)
        addr ← c_addr rs1 (c_imm_q insn);
        val ← rd_reg rd;
        _ ←! target_write 4 addr val;
        mret (L_next 2)
      else if 64 <=? FLEN then (* c.fsd *)
        if_fs (
          addr ← c_addr rs1 (c_imm_d insn);
          val ← rd_fp rd;
          _ ←! target_write 3 addr val;
          mret (L_next 2))
      else illegal
  | 6 => (* c.sw *)
      addr ← c_addr rs1 (c_imm_w insn);
      val ← rd_reg rd;
      _ ←! target_write 2 addr val;
      mret (L_next 2)
  | 7 =>
      if 64 <=? XLEN then (* c.sd *)
        addr ← c_addr rs1 (c_imm_d insn);
        val ← rd_reg rd;
        _ ←! target_write 3 addr val;
        mret (L_next 2)
      else if 32 <=? FLEN then (* c.fsw *)
        if_fs (
          addr ← c_addr rs1 (c_imm_w insn);
          val ← rd_fp rd;
          _ ←! target_write 2 addr val;
          mret (L_next 2))
      else illegal
  | _ => illegal
  end.

(** Quadrant 1, funct3 = 4: shifts, c.andi and the register operations *)
Definition exec_c1_alu (insn : Z) : MS label :=
  let funct3 := (insn ≫ 10) .& 3 in
  let rd := ((insn ≫ 7) .& 7) .| 8 in
  let rs2 := ((insn ≫ 2) .& 7) .| 8 in
  match funct3 with
  | 0 | 1 => (* c.srli, c.srai *)
      let imm := c_shamt insn in
      if (XLEN =? 32) && nz (imm .& 0x20) then illegal
      else
        let imm := if XLEN =? 128 then
                     (if imm =? 0 then 64 else if 32 <=? imm then 128 - imm else imm)
                   else imm in
        r ← rd_reg rd;
        _ ← wr_reg rd (if funct3 =? 0 then ulong (intx (uintx r ≫ imm))
                       else ulong (intx r ≫ imm));
        mret (L_next 2)
  | 2 => (* c.andi *)
      r ← rd_reg rd;
      _ ← wr_reg rd (r .& ulong (c_imm6 insn));
      mret (L_next 2)
  | _ =>
      r ← rd_reg rd;
      r2 ← rd_reg rs2;
      let set v := _ ← wr_reg rd v; mret (L_next 2) in
      match ((insn ≫ 5) .& 3) .| ((insn ≫ (12 - 2)) .& 4) with
      | 0 => set (ulong (intx (ulong (r - r2))))   (* c.sub *)
      | 1 => set (r .^ r2)                         (* c.xor *)
      | 2 => set (r .| r2)                         (* c.or *)
      | 3 => set (r .& r2)                         (* c.and *)
      | 4 => if 64 <=? XLEN then set (ulong (i32 (ulong (r - r2)))) else illegal (* c.subw *)
      | 5 => if 64 <=? XLEN then set (ulong (i32 (ulong (r + r2)))) else illegal (* c.addw *)
      | _ => illegal
      end
  end.

(** Quadrant 1 *)
Definition exec_c1 (gpc insn : Z) : MS label :=
  let funct3 := (insn ≫ 13) .& 7 in
  let rd := insn_rd insn in
  let rs1 := ((insn ≫ 7) .& 7) .| 8 in
  match funct3 with
  | 0 => (* c.addi, c.nop *)
      r ← rd_reg rd;
      _ ← wr_rd rd (ulong (intx (ulong (r + c_imm6 insn))));
      mret (L_next 2)
  | 1 =>
      if XLEN =? 32 then (* c.jal *)
        _ ← wr_reg 1 (ulong (gpc + 2));
        _ ← set_pc (ulong (intx (ulong (gpc + c_imm_j insn))));
        mret L_jump
      else (* c.addiw *)
        r ← rd_reg rd;
        _ ← wr_rd rd (ulong (i32 (ulong (r + c_imm6 insn))));
        mret (L_next 2)
  | 2 => (* c.li *)
      _ ← wr_rd rd (ulong (c_imm6 insn));
      mret (L_next 2)
  | 3 =>
      if rd =? 2 then (* c.addi16sp *)
        let imm := c_imm_addi16sp insn in
        if imm =? 0 then illegal
        else
          sp ← rd_reg 2;
          _ ← wr_reg 2 (ulong (intx (ulong (sp + imm))));
          mret (L_next 2)
      else (* c.lui *)
        _ ← wr_rd rd (ulong (c_imm_lui insn));
        mret (L_next 2)
  | 4 => exec_c1_alu insn
  | 5 => (* c.j *)
      _ ← set_pc (ulong (intx (ulong (gpc + c_imm_j insn))));
      mret L_jump
  | 6 => (* c.beqz *)
      r ← rd_reg rs1;
      if r =? 0 then
        _ ← set_pc (ulong (intx (ulong (gpc + c_imm_b insn)))); mret L_jump
      else mret (L_next 2)
  | _ => (* c.bnez *)
      r ← rd_reg rs1;
      if negb (r =? 0) then
        _ ← set_pc (ulong (intx (ulong (gpc + c_imm_b insn)))); mret L_jump
      else mret (L_next 2)
  end.

(** Quadrant 2, funct3 = 4: c.jr, c.mv, c.ebreak, c.jalr, c.add *)
Definition exec_c2_jump (gpc insn : Z) : MS label :=
  let rd := insn_rd insn in
  let rs2 := (insn ≫ 2) .& 0x1f in
  if (insn ≫ 12) .& 1 =? 0 then
    if rs2 =? 0 then
      if rd =? 0 then illegal
      else
        r ← rd_reg rd;
        _ ← set_pc (r .& Z.lnot 1);
        mret L_jump
    else
      r2 ← rd_reg rs2;
      _ ← wr_rd rd r2;
      mret (L_next 2)
  else
    if rs2 =? 0 then
      if rd =? 0 then
        _ ← updc (with_pending_exception CAUSE_BREAKPOINT);
        mret L_exception
      else
        let val := ulong (gpc + 2) in
        r ← rd_reg rd;
        _ ← set_pc (r .& Z.lnot 1);
        _ ← wr_reg 1 val;
        mret L_jump
    else
      r ← rd_reg rd;
      r2 ← rd_reg rs2;
      _ ← wr_rd rd (ulong (intx (ulong (r + r2))));
      mret (L_next 2).

(** Quadrant 2 *)
Definition exec_c2 (gpc insn : Z) : MS label :=
  let funct3 := (insn ≫ 13) .& 7 in
  let rd := insn_rd insn in
  let rs2 := (insn ≫ 2) .& 0x1f in
  let imm_lwsp := get_field1 insn 12 5 5 .| (rs2 .& (7 ≪ 2)) .| get_field1 insn 2 6 7 in
  let imm_ldsp := get_field1 insn 12 5 5 .| (rs2 .& (3 ≪ 3)) .| get_field1 insn 2 6 8 in
  let imm_lqsp := get_field1 insn 12 5 5 .| (rs2 .& (1 ≪ 4)) .| get_field1 insn 2 6 9 in
  let imm_swsp := get_field1 insn 9 2 5 .| get_field1 insn 7 6 7 in
  let imm_sdsp := get_field1 insn 10 3 5 .| get_field1 insn 7 6 8 in
  match funct3 with
  | 0 => (* c.slli *)
      let imm := get_field1 insn 12 5 5 .| rs2 in
      if (XLEN =? 32) && nz (imm .& 0x20) then illegal
      else
        let imm := if (XLEN =? 128) && (imm =? 0) then 64 else imm in
        r ← rd_reg rd;
        _ ← wr_rd rd (ulong (intx (ulong (r ≪ imm))));
        mret (L_next 2)
  | 1 =>
      if XLEN =? 128 then (* c.lqsp *)
        addr ← c_addr 2 imm_lqsp;
        val ←! target_read 4 addr;
        _ ← wr_rd rd val;
        mret (L_next 2)
      else if 64 <=? FLEN then (* c.fldsp *)
        if_fs (
          addr ← c_addr 2 imm_ldsp;
          rval ←! target_read 3 addr;
          _ ← wr_fp rd (rval .| F64_HIGH);
          mret (L_next 2))
      else illegal
  | 2 => (* c.lwsp *)
      addr ← c_addr 2 imm_lwsp;
      rval ←! target_read 2 addr;
      _ ← wr_rd rd (ulong (i32 rval));
      mret (L_next 2)
  | 3 =>
      if 64 <=? XLEN then (* c.ldsp *)
        addr ← c_addr 2 imm_ldsp;
        rval ←! target_read 3 addr;
        _ ← wr_rd rd (ulong (i64 rval));
        mret (L_next 2)
      else if 32 <=? FLEN then (* c.flwsp *)
        if_fs (
          addr ← c_addr 2 imm_lwsp;
          rval ←! target_read 2 addr;
          _ ← wr_fp rd (rval .| F32_HIGH);
          mret (L_next 2))
      else illegal
  | 4 => exec_c2_jump gpc insn
  | 5 =>
      if XLEN =? 128 then (* c.sqsp *)
        addr ← c_addr 2 imm_sdsp;
        val ← rd_reg rs2;
        _ ←! target_write 4 addr val;
        mret (L_next 2)
      else if 64 <=? FLEN then (* c.fsdsp *)
        if_fs (
          addr ← c_addr 2 imm_sdsp;
          val ← rd_fp rs2;
          _ ←! target_write 3 addr val;
          mret (L_next 2))
      else illegal
  | 6 => (* c.swsp *)
      addr ← c_addr 2 imm_swsp;
      val ← rd_reg rs2;
      _ ←! target_write 2 addr val;
      mret (L_next 2)
  | _ =>
      if 64 <=? XLEN then (* c.sdsp *)
        addr ← c_addr 2 imm_sdsp;
        val ← rd_reg rs2;
        _ ←! target_write 3 addr val;
        mret (L_next 2)
      else if 32 <=? FLEN then (* c.fswsp *)
        if_fs (
          addr ← c_addr 2 imm_swsp;
          val ← rd_fp rs2;
          _ ←! target_write 2 addr val;
          mret (L_next 2))
      else illegal
  end.
End InsnC.
