(* ===== verification/InsnI.v ===== *)
(** * Base integer, multiplication, CSR, system and atomic instructions
    (riscv_cpu_template.h, lines 778-1476) *)
From S2P Require Export Insn.

Section InsnI.
Context `{cfg : Config} {W : Type} `{plat : Platform W}.
Local Abbreviation MS := (M (Sys W)).
Context (XLEN : Z).
Local Abbreviation intx := (swrap XLEN).
Local Abbreviation uintx := (wrap XLEN).

Definition b2z (b : bool) : Z := if b then 1 else 0.

(** ** Immediates *)
Definition imm_u (insn : Z) : Z := i32 (insn .& 0xfffff000).
Definition imm_i (insn : Z) : Z := i32 insn ≫ 20.
Definition imm_s (insn : Z) : Z :=
  i32 (i32 (insn_rd insn .| ((insn ≫ (25 - 5)) .& 0xfe0)) ≪ 20) ≫ 20.
Definition imm_j (insn : Z) : Z :=
  let imm := ((insn ≫ (31 - 20)) .& (1 ≪ 20)) .| ((insn ≫ (21 - 1)) .& 0x7fe) .|
             ((insn ≫ (20 - 11)) .& (1 ≪ 11)) .| (insn .& 0xff000) in
  i32 (i32 imm ≪ 11) ≫ 11.
Definition imm_b (insn : Z) : Z :=
  let imm := ((insn ≫ (31 - 12)) .& (1 ≪ 12)) .| ((insn ≫ (25 - 5)) .& 0x7e0) .|
             ((insn ≫ (8 - 1)) .& 0x1e) .| (u32 (insn ≪ (11 - 7)) .& (1 ≪ 11)) in
  i32 (i32 imm ≪ 19) ≫ 19.
Definition funct3_of (insn : Z) : Z := (insn ≫ 12) .& 7.

(** ** lui, auipc, jal, jalr *)
Definition exec_lui (insn : Z) : MS label :=
  _ ← wr_rd (insn_rd insn) (ulong (imm_u insn));
  mret (L_next 4).
Definition exec_auipc (gpc insn : Z) : MS label :=
  _ ← wr_rd (insn_rd insn) (ulong (intx (ulong (gpc + imm_u insn))));
  mret (L_next 4).
Definition exec_jal (gpc insn : Z) : MS label :=
  _ ← wr_rd (insn_rd insn) (ulong (gpc + 4));
  _ ← set_pc (ulong (intx (ulong (gpc + imm_j insn))));
  mret L_jump.
Definition exec_jalr (gpc insn : Z) : MS label :=
  let val := ulong (gpc + 4) in
  r1 ← rd_reg (insn_rs1 insn);
  _ ← set_pc (ulong (intx (ulong (r1 + imm_i insn)) .& Z.lnot 1));
  _ ← wr_rd (insn_rd insn) val;
  mret L_jump.

(** ** Conditional branches *)
Definition branch_cond (funct3 r1 r2 : Z) : option bool :=
  let c := match funct3 ≫ 1 with
           | 0 => Some (r1 =? r2)
           | 2 => Some (slong r1 <? slong r2)
           | 3 => Some (r1 <? r2)
           | _ => None
           end in
  (fun c => xorb c (nz (funct3 .& 1))) <$> c.
Definition exec_branch (gpc insn : Z) : MS label :=
  r1 ← rd_reg (insn_rs1 insn);
  r2 ← rd_reg (insn_rs2 insn);
  match branch_cond (funct3_of insn) r1 r2 with
  | None => illegal
  | Some true =>
      _ ← set_pc (ulong (intx (ulong (gpc + imm_b insn))));
      mret L_jump
  | Some false => mret (L_next 4)
  end.

(** ** Loads and stores *)
Definition load_kind (funct3 : Z) : option (Z * (Z -> Z)) :=
  match funct3 with
  | 0 => Some (0, swrap 8)                                   (* lb *)
  | 1 => Some (1, swrap 16)                                  (* lh *)
  | 2 => Some (2, swrap 32)                                  (* lw *)
  | 4 => Some (0, fun v => v)                                (* lbu *)
  | 5 => Some (1, fun v => v)                                (* lhu *)
  | 3 => if 64 <=? XLEN then Some (3, swrap 64) else None    (* ld *)
  | 6 => if 64 <=? XLEN then Some (2, fun v => v) else None  (* lwu *)
  | 7 => if 128 <=? XLEN then Some (3, fun v => v) else None (* ldu *)
  | _ => None
  end.
Definition exec_load (insn : Z) : MS label :=
  r1 ← rd_reg (insn_rs1 insn);
  let addr := ulong (r1 + imm_i insn) in
  match load_kind (funct3_of insn) with
  | None => illegal
  | Some (size_log2, conv) =>
      rval ←! target_read size_log2 addr;
      _ ← wr_rd (insn_rd insn) (ulong (conv rval));
      mret (L_next 4)
  end.

Definition store_size (funct3 : Z) : option Z :=
  match funct3 with
  | 0 => Some 0 | 1 => Some 1 | 2 => Some 2
  | 3 => if 64 <=? XLEN then Some 3 else None
  | 4 => if 128 <=? XLEN then Some 4 else None
  | _ => None
  end.
Definition exec_store (insn : Z) : MS label :=
  r1 ← rd_reg (insn_rs1 insn);
  let addr := ulong (r1 + imm_s insn) in
  val ← rd_reg (insn_rs2 insn);
  match store_size (funct3_of insn) with
  | None => illegal
  | Some size_log2 => _ ←! target_write size_log2 addr val; mret (L_next 4)
  end.

(** ** OP-IMM: [None] is illegal_insn *)
Definition op_imm (funct3 imm r1 : Z) : option Z :=
  match funct3 with
  | 0 => Some (ulong (intx (ulong (r1 + imm))))                       (* addi *)
  | 1 => if nz (imm .& Z.lnot (XLEN - 1)) then None                   (* slli *)
         else Some (ulong (intx (ulong (r1 ≪ (imm .& (XLEN - 1))))))
  | 2 => Some (b2z (slong r1 <? imm))                                 (* slti *)
  | 3 => Some (b2z (r1 <? ulong imm))                                 (* sltiu *)
  | 4 => Some (r1 .^ ulong imm)                                       (* xori *)
  | 5 => if nz (imm .& Z.lnot ((XLEN - 1) .| 0x400)) then None        (* srli, srai *)
         else if nz (imm .& 0x400) then Some (ulong (intx r1 ≫ (imm .& (XLEN - 1))))
         else Some (ulong (intx (uintx r1 ≫ (imm .& (XLEN - 1)))))
  | 6 => Some (r1 .| ulong imm)                                       (* ori *)
  | _ => Some (r1 .& ulong imm)                                       (* andi *)
  end.

(** OP-IMM-32 (XLEN >= 64) and OP-IMM-64 (XLEN = 128): the same cases at the
    width [w] of the operands. *)
Definition op_imm_w (w funct3 imm r1 : Z) : option Z :=
  match funct3 with
  | 0 => Some (ulong (swrap w (ulong (r1 + imm))))
  | 1 => if nz (imm .& Z.lnot (w - 1)) then None
         else Some (ulong (swrap w (ulong (r1 ≪ (imm .& (w - 1))))))
  | 5 => if nz (imm .& Z.lnot ((w - 1) .| 0x400)) then None
         else if nz (imm .& 0x400) then Some (ulong (swrap w r1 ≫ (imm .& (w - 1))))
         else Some (ulong (swrap w (wrap w r1 ≫ (imm .& (w - 1)))))
  | _ => None
  end.

Definition wr_result (insn : Z) (v : option Z) : MS label :=
  match v with
  | None => illegal
  | Some val => _ ← wr_rd (insn_rd insn) val; mret (L_next 4)
  end.
Definition exec_op_imm (insn : Z) : MS label :=
  r1 ← rd_reg (insn_rs1 insn);
  wr_result insn (op_imm (funct3_of insn) (imm_i insn) r1).
Definition exec_op_imm_w (w insn : Z) : MS label :=
  r1 ← rd_reg (insn_rs1 insn);
  wr_result insn (op_imm_w w (funct3_of insn) (imm_i insn) r1).

(** ** OP *)
Definition op_m (funct3 val val2 : Z) : Z :=
  let res :=
    match funct3 with
    | 0 => intx (intx val * intx val2)
    | 1 => intx (mulh XLEN (intx val) (intx val2))
    | 2 => intx (mulhsu XLEN (intx val) (uintx val2))
    | 3 => intx (mulhu XLEN (uintx val) (uintx val2))
    | 4 => div XLEN (intx val) (intx val2)
    | 5 => intx (divu XLEN (uintx val) (uintx val2))
    | 6 => rem XLEN (intx val) (intx val2)
    | _ => intx (remu XLEN (uintx val) (uintx val2))
    end in
  ulong res.
Definition funct4_of (insn : Z) : Z := funct3_of insn .| ((insn ≫ (30 - 3)) .& (1 ≪ 3)).
Definition op_r (funct4 val val2 : Z) : option Z :=
  match funct4 with
  | 0 => Some (ulong (intx (ulong (val + val2))))                            (* add *)
  | 8 => Some (ulong (intx (ulong (val - val2))))                            (* sub *)
  | 1 => Some (ulong (intx (ulong (val ≪ (val2 .& (XLEN - 1))))))            (* sll *)
  | 2 => Some (b2z (slong val <? slong val2))                                (* slt *)
  | 3 => Some (b2z (val <? val2))                                            (* sltu *)
  | 4 => Some (val .^ val2)                                                  (* xor *)
  | 5 => Some (ulong (intx (uintx val ≫ (val2 .& (XLEN - 1)))))              (* srl *)
  | 13 => Some (ulong (intx val ≫ (val2 .& (XLEN - 1))))                     (* sra *)
  | 6 => Some (val .| val2)                                                  (* or *)
  | 7 => Some (val .& val2)                                                  (* and *)
  | _ => None
  end.
Definition exec_op (insn : Z) : MS label :=
  let imm := insn ≫ 25 in
  val ← rd_reg (insn_rs1 insn);
  val2 ← rd_reg (insn_rs2 insn);
  if imm =? 1 then wr_result insn (Some (op_m (funct3_of insn) val val2))
  else if nz (imm .& Z.lnot 0x20) then illegal
  else wr_result insn (op_r (funct4_of insn) val val2).

(** OP-32 (XLEN >= 64) and OP-64 (XLEN = 128) at the width [w]. *)
Definition op_m_w (w funct3 val val2 : Z) : option Z :=
  let a := swrap w val in let b := swrap w val2 in
  let ua := wrap w val in let ub := wrap w val2 in
  match funct3 with
  | 0 => Some (ulong (swrap w (a * b)))
  | 4 => Some (ulong (div w a b))
  | 5 => Some (ulong (swrap w (divu w ua ub)))
  | 6 => Some (ulong (rem w a b))
  | 7 => Some (ulong (swrap w (remu w ua ub)))
  | _ => None
  end.
Definition op_r_w (w funct4 val val2 : Z) : option Z :=
  match funct4 with
  | 0 => Some (ulong (swrap w (ulong (val + val2))))
  | 8 => Some (ulong (swrap w (ulong (val - val2))))
  | 1 => Some (ulong (swrap w (wrap w (wrap w val ≪ (val2 .& (w - 1))))))
  | 5 => Some (ulong (swrap w (wrap w val ≫ (val2 .& (w - 1)))))
  | 13 => Some (ulong (swrap w val ≫ (val2 .& (w - 1))))
  | _ => None
  end.
Definition exec_op_w (w insn : Z) : MS label :=
  let imm := insn ≫ 25 in
  val ← rd_reg (insn_rs1 insn);
  val2 ← rd_reg (insn_rs2 insn);
  if imm =? 1 then wr_result insn (op_m_w w (funct3_of insn) val val2)
  else if nz (imm .& Z.lnot 0x20) then illegal
  else wr_result insn (op_r_w w (funct4_of insn) val val2).

(** ** Control and status registers: csrrw, csrrs, csrrc *)
Definition after_csr_write (gpc err : Z) : MS label :=
  if 0 <? err then
    _ ← set_pc (ulong (gpc + 4));
    if err =? 2 then mret L_jump else mret L_done_interp
  else mret (L_next 4).

(** [ic] is GET_INSN_COUNTER(). *)
Definition exec_csrrw (gpc ic insn val : Z) : MS label :=
  let imm := insn ≫ 20 in
  _ ← updc (with_insn_counter ic);
  s ← getc;
  match csr_read s imm true with
  | None => illegal
  | Some val2 =>
      let val2 := ulong (intx val2) in
      err ← callc (fun s => csr_write s imm val);
      if err <? 0 then illegal
      else
        _ ← wr_rd (insn_rd insn) val2;
        after_csr_write gpc err
  end.

Definition exec_csrrsc (set : bool) (gpc ic insn val : Z) : MS label :=
  let imm := insn ≫ 20 in
  let rs1 := insn_rs1 insn in
  _ ← updc (with_insn_counter ic);
  s ← getc;
  match csr_read s imm (nz rs1) with
  | None => illegal
  | Some val2 =>
      let val2 := ulong (intx val2) in
      if nz rs1 then
        let val := if set then val2 .| val else val2 .& Z.lnot val in
        err ← callc (fun s => csr_write s imm val);
        if err <? 0 then illegal
        else
          _ ← wr_rd (insn_rd insn) val2;
          after_csr_write gpc err
      else
        _ ← wr_rd (insn_rd insn) val2;
        mret (L_next 4)
  end.

(** ** ecall, ebreak, sret, mret, wfi, sfence.vma *)
Definition exec_priv (gpc insn : Z) : MS label :=
  let imm := insn ≫ 20 in
  s ← getc;
  match imm with
  | 0x000 => (* ecall *)
      if nz (insn .& 0x000fff80) then illegal
      else
        _ ← updc (with_pending_exception (CAUSE_USER_ECALL + priv s));
        mret L_exception
  | 0x001 => (* ebreak *)
      if nz (insn .& 0x000fff80) then illegal
      else
        _ ← updc (with_pending_exception CAUSE_BREAKPOINT);
        mret L_exception
  | 0x102 => (* sret *)
      if nz (insn .& 0x000fff80) then illegal
      else if priv s <? PRV_S then illegal
      else
        _ ← set_pc gpc;
        _ ← updc handle_sret;
        mret L_done_interp
  | 0x302 => (* mret *)
      if nz (insn .& 0x000fff80) then illegal
      else if priv s <? PRV_M then illegal
      else
        _ ← set_pc gpc;
        _ ← updc handle_mret;
        mret L_done_interp
  | 0x105 => (* wfi *)
      if nz (insn .& 0x00007f80) then illegal
      else if priv s =? PRV_U then illegal
      else if mip s .& mie s =? 0 then
        _ ← updc (with_power_down_flag true);
        _ ← set_pc (ulong (gpc + 4));
        mret L_done_interp
      else mret (L_next 4)
  | _ =>
      if imm ≫ 5 =? 0x09 then (* sfence.vma *)
        if nz (insn .& 0x00007f80) then illegal
        else if priv s =? PRV_U then illegal
        else
          _ ← (if insn_rs1 insn =? 0 then updc tlb_flush_all
               else va ← rd_reg (insn_rs1 insn); updc (fun s => tlb_flush_vaddr s va));
          _ ← set_pc (ulong (gpc + 4));
          mret L_jump
      else illegal
  end.

Definition exec_system (gpc ic insn : Z) : MS label :=
  let funct3 := funct3_of insn in
  val ← (if nz (funct3 .& 4) then mret (insn_rs1 insn) else rd_reg (insn_rs1 insn));
  match funct3 .& 3 with
  | 1 => exec_csrrw gpc ic insn val
  | 2 => exec_csrrsc true gpc ic insn val
  | 3 => exec_csrrsc false gpc ic insn val
  | _ => exec_priv gpc insn
  end.

(** ** fence, fence.i, lq *)
Definition exec_misc_mem (insn : Z) : MS label :=
  match funct3_of insn with
  | 0 => if nz (insn .& 0xf00fff80) then illegal else mret (L_next 4)
  | 1 => if negb (insn =? 0x0000100f) then illegal else mret (L_next 4)
  | 2 =>
      if 128 <=? XLEN then
        r1 ← rd_reg (insn_rs1 insn);
        val ←! target_read 4 (ulong (r1 + imm_i insn));
        _ ← wr_rd (insn_rd insn) val;
        mret (L_next 4)
      else illegal
  | _ => illegal
  end.

(** ** Atomics: the macro OP_A(w), w = 8 * 2^size_log2 *)
Definition amo_op (w funct5 val val2 : Z) : option Z :=
  match funct5 with
  | 1 => Some val2                                              (* amoswap *)
  | 0 => Some (ulong (swrap w (ulong (val + val2))))            (* amoadd *)
  | 4 => Some (ulong (swrap w (val .^ val2)))                   (* amoxor *)
  | 0xc => Some (ulong (swrap w (val .& val2)))                 (* amoand *)
  | 0x8 => Some (ulong (swrap w (val .| val2)))                 (* amoor *)
  | 0x10 => Some (if swrap w val <? swrap w val2 then ulong (swrap w val) else val2)
  | 0x14 => Some (if swrap w val2 <? swrap w val then ulong (swrap w val) else val2)
  | 0x18 => Some (if wrap w val <? wrap w val2 then ulong (swrap w val) else val2)
  | 0x1c => Some (if wrap w val2 <? wrap w val then ulong (swrap w val) else val2)
  | _ => None
  end.

(** lr.w, lr.d, lr.q *)
Definition op_lr (size_log2 addr insn : Z) : MS label :=
  if nz (insn_rs2 insn) then illegal
  else
    rval ←! target_read size_log2 addr;
    _ ← updc (with_load_res addr);
    _ ← wr_rd (insn_rd insn) (ulong (swrap (8 * (1 ≪ size_log2)) rval));
    mret (L_next 4).
(** sc.w, sc.d, sc.q *)
Definition op_sc (size_log2 addr insn : Z) : MS label :=
  s ← getc;
  if load_res s =? addr then
    val2 ← rd_reg (insn_rs2 insn);
    _ ←! target_write size_log2 addr val2;
    _ ← wr_rd (insn_rd insn) 0;
    mret (L_next 4)
  else
    _ ← wr_rd (insn_rd insn) 1;
    mret (L_next 4).
(** The read-modify-write operations; an unknown funct5 is rejected first. *)
Definition op_amo (size_log2 addr insn : Z) : MS label :=
  let w := 8 * (1 ≪ size_log2) in
  let funct5 := insn ≫ 27 in
  match amo_op w funct5 0 0 with
  | None => illegal
  | Some _ =>
      rval ←! target_read size_log2 addr;
      let val := ulong (swrap w rval) in
      val2 ← rd_reg (insn_rs2 insn);
      match amo_op w funct5 val val2 with
      | None => illegal
      | Some val2 =>
          _ ←! target_write size_log2 addr val2;
          _ ← wr_rd (insn_rd insn) val;
          mret (L_next 4)
      end
  end.
Definition op_a (size_log2 insn : Z) : MS label :=
  let funct5 := insn ≫ 27 in
  addr ← rd_reg (insn_rs1 insn);
  if funct5 =? 2 then op_lr size_log2 addr insn
  else if funct5 =? 3 then op_sc size_log2 addr insn
  else op_amo size_log2 addr insn.

Definition exec_amo (insn : Z) : MS label :=
  match funct3_of insn with
  | 2 => op_a 2 insn
  | 3 => if 64 <=? XLEN then op_a 3 insn else illegal
  | 4 => if 128 <=? XLEN then op_a 4 insn else illegal
  | _ => illegal
  end.
End InsnI.
