(* ===== verification/SoftFp.v ===== *)
(** * Software floating point (softfp_template.h, softfp_template_icvt.h, softfp.h)

    The template is instantiated for [F_SIZE] = 32, 64 and 128.  The state of the
    computations is the flag word that [pfflags] points to. *)
From S2P Require Export Prelude Monad.

(** RoundingModeEnum *)
Definition RM_RNE : Z := 0.
Definition RM_RTZ : Z := 1.
Definition RM_RDN : Z := 2.
Definition RM_RUP : Z := 3.
Definition RM_RMM : Z := 4.

Definition FFLAG_INVALID_OP : Z := 1 ≪ 4.
Definition FFLAG_DIVIDE_ZERO : Z := 1 ≪ 3.
Definition FFLAG_OVERFLOW : Z := 1 ≪ 2.
Definition FFLAG_UNDERFLOW : Z := 1 ≪ 1.
Definition FFLAG_INEXACT : Z := 1 ≪ 0.

Inductive SoftFPMinMaxType := FMINMAX_PROP | FMINMAX_IEEE754_2008 | FMINMAX_IEEE754_201X.
#[export] Instance minmax_eq_dec : EqDecision SoftFPMinMaxType.
Proof. solve_decision. Defined.

Definition nonzero (x : Z) : bool := negb (x =? 0).
Definition bit (b : bool) : Z := if b then 1 else 0.

(** softfp.c: clz32, clz64, clz128 *)
Definition clz (w a : Z) : Z := if a =? 0 then w else w - 1 - Z.log2 a.

(** [*pfflags |= f] *)
Definition raise_flag (f : Z) : M Z unit := modify (fun fl => fl .| f).
Definition raise_flag_if (b : bool) (f : Z) : M Z unit :=
  if b then raise_flag f else mret tt.

Section SoftFp.
Context (F_SIZE : Z).

Definition MANT_SIZE : Z :=
  if F_SIZE =? 32 then 23 else if F_SIZE =? 64 then 52 else 112.
Definition EXP_SIZE : Z :=
  if F_SIZE =? 32 then 8 else if F_SIZE =? 64 then 11 else 15.
Definition EXP_MASK : Z := (1 ≪ EXP_SIZE) - 1.
Definition MANT_MASK : Z := (1 ≪ MANT_SIZE) - 1.
Definition SIGN_MASK : Z := 1 ≪ (F_SIZE - 1).
Definition IMANT_SIZE : Z := F_SIZE - 2.
Definition RND_SIZE : Z := IMANT_SIZE - MANT_SIZE.
Definition QNAN_MASK : Z := 1 ≪ (MANT_SIZE - 1).
Definition F_QNAN : Z := (EXP_MASK ≪ MANT_SIZE) .| (1 ≪ (MANT_SIZE - 1)).
(** Conversion to [F_UINT]. *)
Definition fu (x : Z) : Z := wrap F_SIZE x.

Definition pack_sf (a_sign a_exp a_mant : Z) : Z :=
  fu (a_sign ≪ (F_SIZE - 1)) .| fu (a_exp ≪ MANT_SIZE) .| (a_mant .& MANT_MASK).
Definition sf_sign (a : Z) : Z := a ≫ (F_SIZE - 1).
Definition sf_exp (a : Z) : Z := (a ≫ MANT_SIZE) .& EXP_MASK.
Definition sf_mant (a : Z) : Z := a .& MANT_MASK.
(** The sign, the exponent and the mantissa. *)
Definition unpack_sf (a : Z) : Z * Z * Z := (sf_sign a, sf_exp a, sf_mant a).

Definition rshift_rnd (a d : Z) : Z :=
  if negb (d =? 0) then
    if F_SIZE <=? d then bit (nonzero a)
    else
      let mask := fu (1 ≪ d) - 1 in
      (a ≫ d) .| bit (nonzero (a .& mask))
  else a.

Definition round_addend (a_sign rm : Z) : Z :=
  match rm with
  | 0 | 4 => 1 ≪ (RND_SIZE - 1)
  | 1 => 0
  | _ => if nonzero (a_sign .^ (rm .& 1)) then (1 ≪ RND_SIZE) - 1 else 0
  end.

Definition round_pack_sf (a_sign a_exp a_mant rm : Z) : M Z Z :=
  let addend := round_addend a_sign rm in
  let subnormal := a_exp <=? 0 in
  let is_subnormal := (a_exp <? 0) || (fu (a_mant + addend) <? 1 ≪ (F_SIZE - 1)) in
  let a_mant := if subnormal then rshift_rnd a_mant (1 - a_exp) else a_mant in
  let rnd_bits := a_mant .& ((1 ≪ RND_SIZE) - 1) in
  _ ← raise_flag_if (subnormal && is_subnormal && nonzero rnd_bits) FFLAG_UNDERFLOW;
  let a_exp := if subnormal then 1 else a_exp in
  _ ← raise_flag_if (nonzero rnd_bits) FFLAG_INEXACT;
  let a_mant := fu (a_mant + addend) ≫ RND_SIZE in
  let a_mant := if (rm =? RM_RNE) && (rnd_bits =? 1 ≪ (RND_SIZE - 1))
                then a_mant .& Z.lnot 1 else a_mant in
  let a_exp := a_exp + (a_mant ≫ (MANT_SIZE + 1)) in
  if a_mant <=? MANT_MASK then mret (pack_sf a_sign 0 a_mant)
  else if EXP_MASK <=? a_exp then
    _ ← raise_flag (FFLAG_OVERFLOW .| FFLAG_INEXACT);
    if addend =? 0 then mret (pack_sf a_sign (EXP_MASK - 1) MANT_MASK)
    else mret (pack_sf a_sign EXP_MASK 0)
  else mret (pack_sf a_sign a_exp a_mant).

Definition normalize_sf (a_sign a_exp a_mant rm : Z) : M Z Z :=
  let shift := clz F_SIZE a_mant - (F_SIZE - 1 - IMANT_SIZE) in
  _ ← assert (0 <=? shift);
  round_pack_sf a_sign (a_exp - shift) (fu (a_mant ≪ shift)) rm.

Definition normalize2_sf (a_sign a_exp a_mant1 a_mant0 rm : Z) : M Z Z :=
  let l := if a_mant1 =? 0 then F_SIZE + clz F_SIZE a_mant0 else clz F_SIZE a_mant1 in
  let shift := l - (F_SIZE - 1 - IMANT_SIZE) in
  _ ← assert (0 <=? shift);
  let m :=
    if shift =? 0 then a_mant1 .| bit (nonzero a_mant0)
    else if shift <? F_SIZE then
      fu (a_mant1 ≪ shift) .| (a_mant0 ≫ (F_SIZE - shift)) .|
      bit (nonzero (fu (a_mant0 ≪ shift)))
    else fu (a_mant0 ≪ (shift - F_SIZE)) in
  round_pack_sf a_sign (a_exp - shift) m rm.

Definition issignan_sf (a : Z) : bool :=
  let a_exp1 := (a ≫ (MANT_SIZE - 1)) .& ((1 ≪ (EXP_SIZE + 1)) - 1) in
  (a_exp1 =? 2 * EXP_MASK) && nonzero (a .& MANT_MASK).
Definition isnan_sf (a : Z) : bool :=
  (sf_exp a =? EXP_MASK) && nonzero (sf_mant a).

(** ** Addition *)
Definition add_sf (a b rm : Z) : M Z Z :=
  let swap := (a .& Z.lnot SIGN_MASK) <? (b .& Z.lnot SIGN_MASK) in
  let x := if swap then b else a in
  let y := if swap then a else b in
  let a := x in
  let b := y in
  let a_sign := sf_sign a in
  let b_sign := sf_sign b in
  let a_exp := sf_exp a in
  let b_exp := sf_exp b in
  let a_mant := fu (sf_mant a ≪ 3) in
  let b_mant := fu (sf_mant b ≪ 3) in
  if a_exp =? EXP_MASK then
    if nonzero a_mant then
      _ ← raise_flag_if (negb (nonzero (a_mant .& fu (QNAN_MASK ≪ 3))) || issignan_sf b)
            FFLAG_INVALID_OP;
      mret F_QNAN
    else if (b_exp =? EXP_MASK) && negb (a_sign =? b_sign) then
      _ ← raise_flag FFLAG_INVALID_OP; mret F_QNAN
    else mret a
  else
    let hidden := 1 ≪ (MANT_SIZE + 3) in
    let a_mant := if a_exp =? 0 then a_mant else a_mant .| hidden in
    let a_exp := if a_exp =? 0 then 1 else a_exp in
    let b_mant := if b_exp =? 0 then b_mant else b_mant .| hidden in
    let b_exp := if b_exp =? 0 then 1 else b_exp in
    let b_mant := rshift_rnd b_mant (a_exp - b_exp) in
    let r_mant := if a_sign =? b_sign then fu (a_mant + b_mant) else fu (a_mant - b_mant) in
    let r_sign := if negb (a_sign =? b_sign) && (r_mant =? 0)
                  then bit (rm =? RM_RDN) else a_sign in
    normalize_sf r_sign (a_exp + (RND_SIZE - 3)) r_mant rm.

Definition sub_sf (a b rm : Z) : M Z Z := add_sf a (b .^ SIGN_MASK) rm.

(** The normalized mantissa and the exponent. *)
Definition normalize_subnormal_sf (a_mant : Z) : Z * Z :=
  let shift := MANT_SIZE - (F_SIZE - 1 - clz F_SIZE a_mant) in
  (fu (a_mant ≪ shift), 1 - shift).

(** The mantissa with its hidden bit and the exponent, for a nonzero finite number. *)
Definition mant_exp (a_exp a_mant : Z) : Z * Z :=
  if a_exp =? 0 then normalize_subnormal_sf a_mant
  else (a_mant .| (1 ≪ MANT_SIZE), a_exp).
End SoftFp.

(** ** Double-width multiplication, division and square root

    [has_ulong]: a type of twice the width exists (F_ULONG is defined). *)
Section Wide.
Context (F_SIZE : Z).
Local Abbreviation fu := (wrap F_SIZE).

(** The high and the low word of the product. *)
Definition mul_u_ulong (a b : Z) : Z * Z :=
  let r := wrap (2 * F_SIZE) (a * b) in (fu (r ≫ F_SIZE), fu r).

Definition mul_u_half (a b : Z) : Z * Z :=
  let h := F_SIZE / 2 in
  let uhalf := wrap h in
  let a0 := uhalf a in
  let a1 := uhalf (a ≫ h) in
  let b0 := uhalf b in
  let b1 := uhalf (b ≫ h) in
  let r00 := fu (a0 * b0) in
  let r01 := fu (a0 * b1) in
  let r10 := fu (a1 * b0) in
  let r11 := fu (a1 * b1) in
  let r0 := uhalf r00 in
  let c := fu ((r00 ≫ h) + uhalf r01 + uhalf r10) in
  let r1 := uhalf c in
  let c := fu ((c ≫ h) + (r01 ≫ h) + (r10 ≫ h) + uhalf r11) in
  let r2 := uhalf c in
  let r3 := uhalf ((c ≫ h) + (r11 ≫ h)) in
  (fu (r3 ≪ h) .| r2, fu (r1 ≪ h) .| r0).

(** The quotient and the remainder of [a1 * 2^F_SIZE + a0] by [b]. *)
Definition divrem_u_ulong (ah al b : Z) : M Z (Z * Z) :=
  let a := wrap (2 * F_SIZE) (ah ≪ F_SIZE) .| al in
  mret (fu (a / b), fu (a mod b)).

Fixpoint divrem_u_loop (n : nat) (a1 a0 b : Z) : Z * Z :=
  match n with
  | O => (a0, a1)
  | S n' =>
      let ab := a1 ≫ (F_SIZE - 1) in
      let a1 := fu (a1 ≪ 1) .| (a0 ≫ (F_SIZE - 1)) in
      let q := nonzero ab || (b <=? a1) in
      divrem_u_loop n' (if q then fu (a1 - b) else a1) (fu (a0 ≪ 1) .| bit q) b
  end.
Definition divrem_u_half (a1 a0 b : Z) : M Z (Z * Z) :=
  _ ← assert (a1 <? b);
  mret (divrem_u_loop (Z.to_nat F_SIZE) a1 a0 b).

(** Newton's iteration; [fuel] bounds the loop. *)
Fixpoint sqrt_loop (fuel : nat) (a u : Z) : M Z Z :=
  match fuel with
  | O => stop_with StopFuel
  | S f =>
      let s := u in
      let u := wrap (2 * F_SIZE) (a / s + s) / 2 in
      if s <=? u then mret s else sqrt_loop f a u
  end.
Definition sqrt_fuel : nat := Z.to_nat (F_SIZE + 3).

Definition sqrt_start (ah al : Z) : Z :=
  let l := if nonzero ah then 2 * F_SIZE - clz F_SIZE (ah - 1)
           else F_SIZE - clz F_SIZE (al - 1) in
  (l + 1) / 2.

(** The root and whether it is inexact. *)
Definition sqrtrem_u_ulong (ah al : Z) : M Z (Z * bool) :=
  if negb (nonzero ah) && (al =? 0) then mret (0, false)
  else
    let a := wrap (2 * F_SIZE) (ah ≪ F_SIZE) .| al in
    s ← sqrt_loop sqrt_fuel a (wrap (2 * F_SIZE) (1 ≪ sqrt_start ah al));
    mret (fu s, nonzero (wrap (2 * F_SIZE) (a - wrap (2 * F_SIZE) (s * s)))).

Fixpoint sqrt_loop_half (fuel : nat) (a1 a0 u : Z) : M Z Z :=
  match fuel with
  | O => stop_with StopFuel
  | S f =>
      let s := u in
      '(q, _) ← divrem_u_half a1 a0 s;
      let u := fu (q + s) / 2 in
      if s <=? u then mret s else sqrt_loop_half f a1 a0 u
  end.
Definition sqrtrem_u_half (a1 a0 : Z) : M Z (Z * bool) :=
  if negb (nonzero a1) && (a0 =? 0) then mret (0, false)
  else
    s ← sqrt_loop_half sqrt_fuel a1 a0 (fu (1 ≪ sqrt_start a1 a0));
    let (sq1, sq0) := mul_u_half s s in
    mret (s, negb (sq0 =? a0) || negb (sq1 =? a1)).

Context `{Config}.
(** #ifdef F_ULONG *)
Definition has_ulong : bool :=
  if F_SIZE =? 32 then true else if F_SIZE =? 64 then HAVE_INT128 else false.
Definition mul_u (a b : Z) : Z * Z :=
  if has_ulong then mul_u_ulong a b else mul_u_half a b.
Definition divrem_u (a1 a0 b : Z) : M Z (Z * Z) :=
  if has_ulong then divrem_u_ulong a1 a0 b else divrem_u_half a1 a0 b.
Definition sqrtrem_u (a1 a0 : Z) : M Z (Z * bool) :=
  if has_ulong then sqrtrem_u_ulong a1 a0 else sqrtrem_u_half a1 a0.
End Wide.
