(* ===== verification/SoftFpOps.v ===== *)
(** * Floating point operations (softfp_template.h: mul_sf .. cvt,
    softfp_template_icvt.h) *)
From S2P Require Export SoftFp.

Section Ops.
Context `{cfg : Config} (F_SIZE : Z).
Local Abbreviation MANT_SIZE := (MANT_SIZE F_SIZE).
Local Abbreviation EXP_SIZE := (EXP_SIZE F_SIZE).
Local Abbreviation EXP_MASK := (EXP_MASK F_SIZE).
Local Abbreviation RND_SIZE := (RND_SIZE F_SIZE).
Local Abbreviation F_QNAN := (F_QNAN F_SIZE).
Local Abbreviation QNAN_MASK := (QNAN_MASK F_SIZE).
Local Abbreviation fu := (fu F_SIZE).
Local Abbreviation pack_sf := (pack_sf F_SIZE).
Local Abbreviation isnan_sf := (isnan_sf F_SIZE).
Local Abbreviation issignan_sf := (issignan_sf F_SIZE).
Local Abbreviation sf_sign := (sf_sign F_SIZE).
Local Abbreviation sf_exp := (sf_exp F_SIZE).
Local Abbreviation sf_mant := (sf_mant F_SIZE).

Definition is_inf_exp (e : Z) : bool := e =? EXP_MASK.
Definition is_zero (e m : Z) : bool := (e =? 0) && (m =? 0).

Definition mul_sf (a b rm : Z) : M Z Z :=
  let r_sign := sf_sign a .^ sf_sign b in
  let a_exp := sf_exp a in
  let b_exp := sf_exp b in
  let a_mant := sf_mant a in
  let b_mant := sf_mant b in
  if is_inf_exp a_exp || is_inf_exp b_exp then
    if isnan_sf a || isnan_sf b then
      _ ← raise_flag_if (issignan_sf a || issignan_sf b) FFLAG_INVALID_OP;
      mret F_QNAN
    else if (is_inf_exp a_exp && is_zero b_exp b_mant) ||
            (is_inf_exp b_exp && is_zero a_exp a_mant) then
      _ ← raise_flag FFLAG_INVALID_OP; mret F_QNAN
    else mret (pack_sf r_sign EXP_MASK 0)
  else if is_zero a_exp a_mant then mret (pack_sf r_sign 0 0)
  else
    let (a_mant, a_exp) := mant_exp F_SIZE a_exp a_mant in
    if is_zero b_exp b_mant then mret (pack_sf r_sign 0 0)
    else
      let (b_mant, b_exp) := mant_exp F_SIZE b_exp b_mant in
      let r_exp := a_exp + b_exp - (1 ≪ (EXP_SIZE - 1)) + 2 in
      let (r_mant, r_mant_low) :=
        mul_u F_SIZE (fu (a_mant ≪ RND_SIZE)) (fu (b_mant ≪ (RND_SIZE + 1))) in
      normalize_sf F_SIZE r_sign r_exp (r_mant .| bit (nonzero r_mant_low)) rm.

(** *** Fused multiply and add *)

(** The product or the addend is zero: the label mul_zero. *)
Definition fma_mul_zero (r_sign c_sign c_exp c_mant c rm : Z) : M Z Z :=
  if is_zero c_exp c_mant then
    mret (pack_sf (if negb (c_sign =? r_sign) then bit (rm =? RM_RDN) else r_sign) 0 0)
  else mret c.

(** The right shift of the two-word mantissa of the smaller operand. *)
Definition fma_align (shift c1 c0 : Z) : Z * Z :=
  if 2 * F_SIZE <=? shift then (0, bit (nonzero (c0 .| c1)))
  else if F_SIZE + 1 <=? shift then (0, rshift_rnd F_SIZE c1 (shift - F_SIZE))
  else if shift =? F_SIZE then (0, c1 .| bit (nonzero c0))
  else if negb (shift =? 0) then
    let mask := fu (1 ≪ shift) - 1 in
    (c1 ≫ shift,
     fu (c1 ≪ (F_SIZE - shift)) .| (c0 ≫ shift) .| bit (nonzero (c0 .& mask)))
  else (c1, c0).

Definition fma_add (r_sign r_exp r1 r0 c_sign c_exp c1 rm : Z) : M Z Z :=
  let c0 := 0 in
  (* ensure that abs(r) >= abs(c) *)
  let keep := (c_exp <? r_exp) || ((r_exp =? c_exp) && (c1 <=? r1)) in
  let '(r_sign, r_exp, r1, r0, c_sign, c_exp, c1, c0) :=
    if keep then (r_sign, r_exp, r1, r0, c_sign, c_exp, c1, c0)
    else (c_sign, c_exp, c1, c0, r_sign, r_exp, r1, r0) in
  let (c1, c0) := fma_align (r_exp - c_exp) c1 c0 in
  if r_sign =? c_sign then
    let r0 := fu (r0 + c0) in
    let r1 := fu (r1 + (c1 + bit (r0 <? c0))) in
    normalize2_sf F_SIZE r_sign r_exp r1 r0 rm
  else
    let tmp := r0 in
    let r0 := fu (r0 - c0) in
    let r1 := fu (r1 - c1 - bit (tmp <? r0)) in
    let r_sign := if r0 .| r1 =? 0 then bit (rm =? RM_RDN) else r_sign in
    normalize2_sf F_SIZE r_sign r_exp r1 r0 rm.

Definition fma_sf (a b c rm : Z) : M Z Z :=
  let c_sign := sf_sign c in
  let r_sign := sf_sign a .^ sf_sign b in
  let a_exp := sf_exp a in
  let b_exp := sf_exp b in
  let c_exp := sf_exp c in
  let a_mant := sf_mant a in
  let b_mant := sf_mant b in
  let c_mant := sf_mant c in
  if is_inf_exp a_exp || is_inf_exp b_exp || is_inf_exp c_exp then
    if isnan_sf a || isnan_sf b || isnan_sf c then
      _ ← raise_flag_if (issignan_sf a || issignan_sf b || issignan_sf c) FFLAG_INVALID_OP;
      mret F_QNAN
    else if (is_inf_exp a_exp && is_zero b_exp b_mant) ||
            (is_inf_exp b_exp && is_zero a_exp a_mant) ||
            ((is_inf_exp a_exp || is_inf_exp b_exp) &&
             (is_inf_exp c_exp && negb (r_sign =? c_sign))) then
      _ ← raise_flag FFLAG_INVALID_OP; mret F_QNAN
    else if is_inf_exp c_exp then mret (pack_sf c_sign EXP_MASK 0)
    else mret (pack_sf r_sign EXP_MASK 0)
  else if is_zero a_exp a_mant then fma_mul_zero r_sign c_sign c_exp c_mant c rm
  else
    let (a_mant, a_exp) := mant_exp F_SIZE a_exp a_mant in
    if is_zero b_exp b_mant then fma_mul_zero r_sign c_sign c_exp c_mant c rm
    else
      let (b_mant, b_exp) := mant_exp F_SIZE b_exp b_mant in
      let r_exp := a_exp + b_exp - (1 ≪ (EXP_SIZE - 1)) + 3 in
      let (r1, r0) := mul_u F_SIZE (fu (a_mant ≪ RND_SIZE)) (fu (b_mant ≪ RND_SIZE)) in
      let small := r1 <? 1 ≪ (F_SIZE - 3) in
      let r1' := if small then fu (r1 ≪ 1) .| (r0 ≫ (F_SIZE - 1)) else r1 in
      let r0' := if small then fu (r0 ≪ 1) else r0 in
      let r_exp := if small then r_exp - 1 else r_exp in
      if is_zero c_exp c_mant then
        normalize_sf F_SIZE r_sign r_exp (r1' .| bit (nonzero r0')) rm
      else
        let (c_mant, c_exp) := mant_exp F_SIZE c_exp c_mant in
        fma_add r_sign r_exp r1' r0' c_sign (c_exp + 1) (fu (c_mant ≪ (RND_SIZE - 1))) rm.

(** *** Division and square root *)
Definition div_sf (a b rm : Z) : M Z Z :=
  let r_sign := sf_sign a .^ sf_sign b in
  let a_exp := sf_exp a in
  let b_exp := sf_exp b in
  let a_mant := sf_mant a in
  let b_mant := sf_mant b in
  let qnan := _ ← raise_flag_if (issignan_sf a || issignan_sf b) FFLAG_INVALID_OP; mret F_QNAN in
  let invalid := _ ← raise_flag FFLAG_INVALID_OP; mret F_QNAN in
  if is_inf_exp a_exp then
    if nonzero a_mant || isnan_sf b then qnan
    else if is_inf_exp b_exp then invalid
    else mret (pack_sf r_sign EXP_MASK 0)
  else if is_inf_exp b_exp then
    if nonzero b_mant then qnan else mret (pack_sf r_sign 0 0)
  else if is_zero b_exp b_mant then
    if is_zero a_exp a_mant then invalid
    else _ ← raise_flag FFLAG_DIVIDE_ZERO; mret (pack_sf r_sign EXP_MASK 0)
  else
    let (b_mant, b_exp) := mant_exp F_SIZE b_exp b_mant in
    if is_zero a_exp a_mant then mret (pack_sf r_sign 0 0)
    else
      let (a_mant, a_exp) := mant_exp F_SIZE a_exp a_mant in
      let r_exp := a_exp - b_exp + (1 ≪ (EXP_SIZE - 1)) - 1 in
      '(q, r) ← divrem_u F_SIZE a_mant 0 (fu (b_mant ≪ 2));
      normalize_sf F_SIZE r_sign r_exp (if nonzero r then q .| 1 else q) rm.

Definition sqrt_sf (a rm : Z) : M Z Z :=
  let a_sign := sf_sign a in
  let a_exp := sf_exp a in
  let a_mant := sf_mant a in
  let neg_error := _ ← raise_flag FFLAG_INVALID_OP; mret F_QNAN in
  if is_inf_exp a_exp then
    if nonzero a_mant then
      _ ← raise_flag_if (issignan_sf a) FFLAG_INVALID_OP; mret F_QNAN
    else if nonzero a_sign then neg_error
    else mret a
  else if nonzero a_sign then
    if is_zero a_exp a_mant then mret a else neg_error
  else if is_zero a_exp a_mant then mret (pack_sf 0 0 0)
  else
    let (a_mant, a_exp) := mant_exp F_SIZE a_exp a_mant in
    let a_exp := a_exp - Z.quot EXP_MASK 2 in
    let odd := nonzero (a_exp .& 1) in
    let a_mant := if odd then fu (a_mant ≪ 1) else a_mant in
    let a_exp := if odd then a_exp - 1 else a_exp in
    let a_exp := (a_exp ≫ 1) + Z.quot EXP_MASK 2 in
    let a_mant := fu (a_mant ≪ (F_SIZE - 4 - MANT_SIZE)) in
    '(r, inexact) ← sqrtrem_u F_SIZE a_mant 0;
    normalize_sf F_SIZE a_sign a_exp (if (inexact : bool) then r .| 1 else r) rm.

(** *** Comparisons *)
Definition min_max_nan_sf (a b : Z) (t : SoftFPMinMaxType) : M Z Z :=
  let snan := issignan_sf a || issignan_sf b in
  _ ← raise_flag_if snan FFLAG_INVALID_OP;
  if snan && bool_decide (t = FMINMAX_IEEE754_2008) then mret F_QNAN
  else if bool_decide (t = FMINMAX_PROP) then mret F_QNAN
  else if isnan_sf a then (if isnan_sf b then mret F_QNAN else mret b) else mret a.

Definition min_sf (a b : Z) (t : SoftFPMinMaxType) : M Z Z :=
  if isnan_sf a || isnan_sf b then min_max_nan_sf a b t
  else if negb (sf_sign a =? sf_sign b) then
    mret (if nonzero (sf_sign a) then a else b)
  else mret (if xorb (a <? b) (nonzero (sf_sign a)) then a else b).

Definition max_sf (a b : Z) (t : SoftFPMinMaxType) : M Z Z :=
  if isnan_sf a || isnan_sf b then min_max_nan_sf a b t
  else if negb (sf_sign a =? sf_sign b) then
    mret (if nonzero (sf_sign a) then b else a)
  else mret (if xorb (a <? b) (nonzero (sf_sign a)) then b else a).

Definition both_zero (a b : Z) : bool := fu ((a .| b) ≪ 1) =? 0.

Definition eq_quiet_sf (a b : Z) : M Z Z :=
  if isnan_sf a || isnan_sf b then
    _ ← raise_flag_if (issignan_sf a || issignan_sf b) FFLAG_INVALID_OP; mret 0
  else mret (if both_zero a b then 1 else bit (a =? b)).

Definition le_sf (a b : Z) : M Z Z :=
  if isnan_sf a || isnan_sf b then _ ← raise_flag FFLAG_INVALID_OP; mret 0
  else if negb (sf_sign a =? sf_sign b) then
    mret (bit (nonzero (sf_sign a) || both_zero a b))
  else mret (bit (if nonzero (sf_sign a) then b <=? a else a <=? b)).

Definition lt_sf (a b : Z) : M Z Z :=
  if isnan_sf a || isnan_sf b then _ ← raise_flag FFLAG_INVALID_OP; mret 0
  else if negb (sf_sign a =? sf_sign b) then
    mret (bit (nonzero (sf_sign a) && negb (both_zero a b)))
  else mret (bit (if nonzero (sf_sign a) then b <? a else a <? b)).

(** FCLASS_* is [1 ≪ n] with n = 0 (-inf) .. 9 (quiet NaN). *)
Definition fclass_sf (a : Z) : Z :=
  let a_sign := nonzero (sf_sign a) in
  let a_exp := sf_exp a in
  let a_mant := sf_mant a in
  if is_inf_exp a_exp then
    if nonzero a_mant then (if nonzero (a_mant .& QNAN_MASK) then 1 ≪ 9 else 1 ≪ 8)
    else (if a_sign then 1 ≪ 0 else 1 ≪ 7)
  else if a_exp =? 0 then
    if a_mant =? 0 then (if a_sign then 1 ≪ 3 else 1 ≪ 4)
    else (if a_sign then 1 ≪ 2 else 1 ≪ 5)
  else (if a_sign then 1 ≪ 1 else 1 ≪ 6).

(** *** Conversions to an integer of [n] bits ([ICVT_SIZE]) *)
Definition internal_cvt_sf_i (n a rm : Z) (is_unsigned : bool) : M Z Z :=
  let a_exp := sf_exp a in
  let a_mant := sf_mant a in
  let a_sign := if is_inf_exp a_exp && nonzero a_mant then 0 else sf_sign a in
  let a_mant := if a_exp =? 0 then a_mant else a_mant .| (1 ≪ MANT_SIZE) in
  let a_exp := if a_exp =? 0 then 1 else a_exp in
  let a_mant := fu (a_mant ≪ RND_SIZE) in
  let a_exp := a_exp - Z.quot EXP_MASK 2 - MANT_SIZE in
  let r_max := if is_unsigned then wrap n (a_sign - 1)
               else wrap n ((1 ≪ (n - 1)) - (a_sign .^ 1)) in
  let overflow := _ ← raise_flag FFLAG_INVALID_OP; mret (swrap n r_max) in
  let finish r := mret (swrap n (if nonzero a_sign then - r else r)) in
  if 0 <=? a_exp then
    if a_exp <=? n - 1 - MANT_SIZE then
      let r := wrap n (wrap n (a_mant ≫ RND_SIZE) ≪ a_exp) in
      if r_max <? r then overflow else finish r
    else overflow
  else
    let a_mant := rshift_rnd F_SIZE a_mant (- a_exp) in
    let addend := round_addend F_SIZE a_sign rm in
    let rnd_bits := a_mant .& ((1 ≪ RND_SIZE) - 1) in
    let a_mant := fu (a_mant + addend) ≫ RND_SIZE in
    let a_mant := if (rm =? RM_RNE) && (rnd_bits =? 1 ≪ (RND_SIZE - 1))
                  then a_mant .& Z.lnot 1 else a_mant in
    if r_max <? a_mant then overflow
    else
      _ ← raise_flag_if (nonzero rnd_bits) FFLAG_INEXACT;
      finish (wrap n a_mant).
(** cvt_sf_i32 .. cvt_sf_u128: the signed and the unsigned result. *)
Definition cvt_sf_i (n a rm : Z) : M Z Z := internal_cvt_sf_i n a rm false.
Definition cvt_sf_u (n a rm : Z) : M Z Z :=
  r ← internal_cvt_sf_i n a rm true; mret (wrap n r).

(** *** Conversions from an integer *)
Definition internal_cvt_i_sf (n a rm : Z) (is_unsigned : bool) : M Z Z :=
  let neg := negb is_unsigned && (a <? 0) in
  let a_sign := bit neg in
  let r := if neg then wrap n (- wrap n a) else wrap n a in
  let a_exp := Z.quot EXP_MASK 2 + F_SIZE - 2 in
  let l := n - clz n r - (F_SIZE - 1) in
  let mask := r .& (wrap n (1 ≪ l) - 1) in
  let a_mant := if 0 <? l then (r ≫ l) .| bit (nonzero (r .& mask)) else r in
  let a_exp := if 0 <? l then a_exp + l else a_exp in
  normalize_sf F_SIZE a_sign a_exp (fu a_mant) rm.
Definition cvt_i_sf (n a rm : Z) : M Z Z := internal_cvt_i_sf n a rm false.
Definition cvt_u_sf (n a rm : Z) : M Z Z := internal_cvt_i_sf n (swrap n a) rm true.
End Ops.

(** *** Conversions between formats *)

(** cvt_sf32_sf64, cvt_sf32_sf128, cvt_sf64_sf128: from format [G] to a wider [F]. *)
Definition cvt_widen (G F a : Z) : M Z Z :=
  let '(a_sign, a_exp, a_mant) := unpack_sf G a in
  if a_exp =? EXP_MASK G then
    if nonzero a_mant then
      _ ← raise_flag_if (issignan_sf G a) FFLAG_INVALID_OP; mret (F_QNAN F)
    else mret (pack_sf F a_sign (EXP_MASK F) 0)
  else if (a_exp =? 0) && (a_mant =? 0) then mret (pack_sf F a_sign 0 0)
  else
    let (a_mant, a_exp) :=
      if a_exp =? 0 then normalize_subnormal_sf G a_mant else (a_mant, a_exp) in
    let a_exp := a_exp - Z.quot (EXP_MASK G) 2 + Z.quot (EXP_MASK F) 2 in
    mret (pack_sf F a_sign a_exp (fu F (a_mant ≪ (MANT_SIZE F - MANT_SIZE G)))).

(** cvt_sf64_sf32, cvt_sf128_sf32, cvt_sf128_sf64: from format [F] to a narrower
    [G].  The source drops the mantissa that normalize_subnormal_sf returns. *)
Definition cvt_narrow (F G a rm : Z) : M Z Z :=
  let '(a_sign, a_exp, a_mant) := unpack_sf F a in
  if a_exp =? EXP_MASK F then
    if nonzero a_mant then
      _ ← raise_flag_if (issignan_sf F a) FFLAG_INVALID_OP; mret (F_QNAN G)
    else mret (pack_sf G a_sign (EXP_MASK G) 0)
  else if (a_exp =? 0) && (a_mant =? 0) then mret (pack_sf G a_sign 0 0)
  else
    let (a_mant, a_exp) :=
      if a_exp =? 0 then (a_mant, snd (normalize_subnormal_sf F a_mant))
      else (a_mant .| (1 ≪ MANT_SIZE F), a_exp) in
    let a_exp := a_exp - Z.quot (EXP_MASK F) 2 + Z.quot (EXP_MASK G) 2 in
    let a_mant := rshift_rnd F a_mant (MANT_SIZE F - (G - 2)) in
    normalize_sf G a_sign a_exp (fu G a_mant) rm.
