(* ===== verification/InsnF.v ===== *)
(** * Floating-point instructions (riscv_cpu_template.h, lines 1478-1709;
    riscv_cpu_fp_template.h)

    The registers are FLEN bits wide; an argument of a softfp function is
    truncated to the parameter's type, F_SIZE bits. *)
From S2P Require Export Insn SoftFpOps.

Section InsnF.
Context `{cfg : Config} {W : Type} `{plat : Platform W}.
Local Abbreviation MS := (M (Sys W)).
Context (XLEN : Z).

(** A softfp call with [&s->fflags] as its last argument. *)
Definition with_flags {A} (m : M Z A) : MS A := fun σ =>
  match m (fflags (cpu σ)) with
  | Ok a fl => Ok a (upd_cpu (with_fflags fl) σ)
  | Stop r => Stop r
  end.

(** The format selected by a two-bit field, if it is compiled in. *)
Definition fmt_size (fmt : Z) : option Z :=
  match fmt with
  | 0 => Some 32
  | 1 => if 64 <=? FLEN then Some 64 else None
  | 3 => if 128 <=? FLEN then Some 128 else None
  | _ => None
  end.
Definition F_HIGH (F : Z) : Z := if F =? 32 then F32_HIGH else if F =? 64 then F64_HIGH else 0.
(** FSIGN_MASK32 is the int [1 << 31], sign-extended by the conversion to
    fp_uint; FSIGN_MASK64 and FSIGN_MASK128 are unsigned.  [~FSIGN_MASK] is
    computed before the conversion. *)
Definition FSIGN_MASK (F : Z) : Z :=
  if F =? 32 then wrap FLEN (- 2 ^ 31) else 2 ^ (F - 1).
Definition FSIGN_MASK_not (F : Z) : Z := 2 ^ (F - 1) - 1.

(** [s->fp_reg[rd] = call(..., &s->fflags) | F_HIGH; s->fs = 3]. *)
Definition fp_result (F rd : Z) (m : M Z Z) : MS label :=
  v ← with_flags m;
  _ ← wr_fp rd (v .| F_HIGH F);
  mret (L_next 4).
(** [if (rd != 0) s->reg[rd] = call(...)]. *)
Definition int_result (rd : Z) (m : M Z Z) : MS label :=
  v ← with_flags m;
  _ ← wr_rd rd (ulong v);
  mret (L_next 4).

(** ** flw, fld, flq, fsw, fsd, fsq *)
Definition exec_fp_load (insn : Z) : MS label :=
  if_fs (
    r1 ← rd_reg (insn_rs1 insn);
    let addr := ulong (r1 + (i32 insn ≫ 20)) in
    let rd := insn_rd insn in
    match (insn ≫ 12) .& 7 with
    | 2 => rval ←! target_read 2 addr; _ ← wr_fp rd (rval .| F32_HIGH); mret (L_next 4)
    | 3 => if 64 <=? FLEN then
             rval ←! target_read 3 addr; _ ← wr_fp rd (rval .| F64_HIGH); mret (L_next 4)
           else illegal
    | 4 => if 128 <=? FLEN then
             rval ←! target_read 4 addr; _ ← wr_fp rd rval; mret (L_next 4)
           else illegal
    | _ => illegal
    end).

Definition exec_fp_store (insn : Z) : MS label :=
  if_fs (
    r1 ← rd_reg (insn_rs1 insn);
    let imm := i32 (i32 (insn_rd insn .| ((insn ≫ (25 - 5)) .& 0xfe0)) ≪ 20) ≫ 20 in
    let addr := ulong (r1 + imm) in
    val ← rd_fp (insn_rs2 insn);
    match (insn ≫ 12) .& 7 with
    | 2 => _ ←! target_write 2 addr val; mret (L_next 4)
    | 3 => if 64 <=? FLEN then _ ←! target_write 3 addr val; mret (L_next 4) else illegal
    | 4 => if 128 <=? FLEN then _ ←! target_write 4 addr val; mret (L_next 4) else illegal
    | _ => illegal
    end).

(** ** fmadd (0x43), fmsub (0x47), fnmsub (0x4b), fnmadd (0x4f): [neg_a] and
    [neg_c] say which operands the case flips the sign of. *)
Definition exec_fma (neg_a neg_c : bool) (insn : Z) : MS label :=
  if_fs (
    s ← getc;
    match get_insn_rm s ((insn ≫ 12) .& 7) with
    | None => illegal
    | Some rm =>
        match fmt_size ((insn ≫ 25) .& 3) with
        | None => illegal
        | Some F =>
            a ← rd_fp (insn_rs1 insn);
            b ← rd_fp (insn_rs2 insn);
            c ← rd_fp (insn ≫ 27);
            let a := if neg_a then a .^ FSIGN_MASK F else a in
            let c := if neg_c then c .^ FSIGN_MASK F else c in
            fp_result F (insn_rd insn) (fma_sf F (wrap F a) (wrap F b) (wrap F c) rm)
        end
    end).

(** ** Opcode 0x53, one case of riscv_cpu_fp_template.h each *)
Definition with_rm (rm : Z) (k : Z -> MS label) : MS label :=
  s ← getc;
  match get_insn_rm s rm with None => illegal | Some rm => k rm end.

(** fadd, fsub, fmul, fdiv *)
Definition exec_fbin (F : Z) (f : Z -> Z -> Z -> M Z Z) (insn rm : Z) : MS label :=
  with_rm rm (fun rm =>
    a ← rd_fp (insn_rs1 insn);
    b ← rd_fp (insn_rs2 insn);
    fp_result F (insn_rd insn) (f (wrap F a) (wrap F b) rm)).
Definition exec_fsqrt (F insn rm : Z) : MS label :=
  with_rm rm (fun rm =>
    if nz (insn_rs2 insn) then illegal
    else
      a ← rd_fp (insn_rs1 insn);
      fp_result F (insn_rd insn) (sqrt_sf F (wrap F a) rm)).

Definition fsgnj_op (F rm a b : Z) : option Z :=
  match rm with
  | 0 => Some ((a .& FSIGN_MASK_not F) .| (b .& FSIGN_MASK F))
  | 1 => Some ((a .& FSIGN_MASK_not F) .| ((b .& FSIGN_MASK F) .^ FSIGN_MASK F))
  | 2 => Some (a .^ (b .& FSIGN_MASK F))
  | _ => None
  end.
Definition exec_fsgnj (F insn rm : Z) : MS label :=
  a ← rd_fp (insn_rs1 insn);
  b ← rd_fp (insn_rs2 insn);
  match fsgnj_op F rm a b with
  | None => illegal
  | Some v => _ ← wr_fp (insn_rd insn) v; mret (L_next 4)
  end.

Definition exec_fminmax (F insn rm : Z) : MS label :=
  a ← rd_fp (insn_rs1 insn);
  b ← rd_fp (insn_rs2 insn);
  match rm with
  | 0 => fp_result F (insn_rd insn) (min_sf F (wrap F a) (wrap F b) FMINMAX_IEEE754_201X)
  | 1 => fp_result F (insn_rd insn) (max_sf F (wrap F a) (wrap F b) FMINMAX_IEEE754_201X)
  | _ => illegal
  end.

(** fcvt.{w,wu,l,lu,t,tu}.[sdq] *)
Definition exec_fcvt_int (F insn rm : Z) : MS label :=
  with_rm rm (fun rm =>
    a ← rd_fp (insn_rs1 insn);
    let a := wrap F a in
    let conv (n : Z) (m : M Z Z) := v ← m; mret (swrap n v) in
    let rd := insn_rd insn in
    match insn_rs2 insn with
    | 0 => int_result rd (conv 32 (cvt_sf_i F 32 a rm))
    | 1 => int_result rd (conv 32 (cvt_sf_u F 32 a rm))
    | 2 => if 64 <=? XLEN then int_result rd (conv 64 (cvt_sf_i F 64 a rm)) else illegal
    | 3 => if 64 <=? XLEN then int_result rd (conv 64 (cvt_sf_u F 64 a rm)) else illegal
    | 4 => if 128 <=? XLEN then int_result rd (cvt_sf_i F 128 a rm) else illegal
    | 5 => if 128 <=? XLEN then int_result rd (cvt_sf_u F 128 a rm) else illegal
    | _ => illegal
    end).

Definition exec_fcmp (F insn rm : Z) : MS label :=
  a ← rd_fp (insn_rs1 insn);
  b ← rd_fp (insn_rs2 insn);
  let a := wrap F a in
  let b := wrap F b in
  match rm with
  | 0 => int_result (insn_rd insn) (le_sf F a b)
  | 1 => int_result (insn_rd insn) (lt_sf F a b)
  | 2 => int_result (insn_rd insn) (eq_quiet_sf F a b)
  | _ => illegal
  end.

(** fcvt.[sdq].{w,wu,l,lu,t,tu} *)
Definition exec_fcvt_from_int (F insn rm : Z) : MS label :=
  with_rm rm (fun rm =>
    r1 ← rd_reg (insn_rs1 insn);
    let rd := insn_rd insn in
    let s n := fp_result F rd (cvt_i_sf F n (swrap n r1) rm) in
    let u n := fp_result F rd (cvt_u_sf F n (wrap n r1) rm) in
    match insn_rs2 insn with
    | 0 => s 32
    | 1 => u 32
    | 2 => if 64 <=? XLEN then s 64 else illegal
    | 3 => if 64 <=? XLEN then u 64 else illegal
    | 4 => if 128 <=? XLEN then s 128 else illegal
    | 5 => if 128 <=? XLEN then u 128 else illegal
    | _ => illegal
    end).

(** fcvt between the formats: the format that rs2 selects as the operand of a
    conversion to [F].  The case of cvt.d.q is 1. *)
Definition cvt_source (F rs2 : Z) : option Z :=
  if F =? 32 then
    match rs2 with
    | 1 => if 64 <=? FLEN then Some 64 else None
    | 3 => if 128 <=? FLEN then Some 128 else None
    | _ => None
    end
  else if F =? 64 then
    match rs2 with
    | 0 => Some 32
    | 1 => if 128 <=? FLEN then Some 128 else None
    | _ => None
    end
  else match rs2 with 0 => Some 32 | 1 => Some 64 | _ => None end.
Definition exec_fcvt_fmt (F insn rm : Z) : MS label :=
  with_rm rm (fun rm =>
    match cvt_source F (insn_rs2 insn) with
    | None => illegal
    | Some G =>
        a ← rd_fp (insn_rs1 insn);
        if G <? F then fp_result F (insn_rd insn) (cvt_widen G F (wrap G a))
        else fp_result F (insn_rd insn) (cvt_narrow G F (wrap G a) rm)
    end).

(** fmv.x.[sdq], fclass *)
Definition exec_fmv_x (F insn rm : Z) : MS label :=
  if nz (insn_rs2 insn) then illegal
  else
    a ← rd_fp (insn_rs1 insn);
    match rm with
    | 0 => if F <=? XLEN then int_result (insn_rd insn) (mret (swrap F a)) else illegal
    | 1 => int_result (insn_rd insn) (mret (fclass_sf F (wrap F a)))
    | _ => illegal
    end.
(** fmv.[sdq].x: the value is sign-extended from F_SIZE bits. *)
Definition exec_fmv_f (F insn rm : Z) : MS label :=
  if F <=? XLEN then
    if nz (insn_rs2 insn) || nz rm then illegal
    else
      r1 ← rd_reg (insn_rs1 insn);
      _ ← wr_fp (insn_rd insn) (wrap FLEN (swrap F r1));
      mret (L_next 4)
  else illegal.

Definition exec_fp_op (insn : Z) : MS label :=
  if_fs (
    let imm := insn ≫ 25 in
    let rm := (insn ≫ 12) .& 7 in
    match fmt_size (imm .& 3) with
    | None => illegal
    | Some F =>
        match imm ≫ 2 with
        | 0x00 => exec_fbin F (add_sf F) insn rm
        | 0x01 => exec_fbin F (sub_sf F) insn rm
        | 0x02 => exec_fbin F (mul_sf F) insn rm
        | 0x03 => exec_fbin F (div_sf F) insn rm
        | 0x0b => exec_fsqrt F insn rm
        | 0x04 => exec_fsgnj F insn rm
        | 0x05 => exec_fminmax F insn rm
        | 0x18 => exec_fcvt_int F insn rm
        | 0x14 => exec_fcmp F insn rm
        | 0x1a => exec_fcvt_from_int F insn rm
        | 0x08 => exec_fcvt_fmt F insn rm
        | 0x1c => exec_fmv_x F insn rm
        | 0x1e => exec_fmv_f F insn rm
        | _ => illegal
        end
    end).
End InsnF.
