(* ===== verification/Interp.v ===== *)
(** * The interpreter loop (riscv_cpu_template.h: riscv_cpu_interp_x32/64/128;
    riscv_cpu.c: riscv_cpu_interp)

    [step] is one iteration of the [for(;;)] loop: fetch, then the switch on the
    opcode.  The local variables that live across iterations are in [Locals]. *)
From S2P Require Export InsnC InsnI InsnF.

Record Locals := mkLocals {
  code_ptr : Z;
  code_end : Z;
  code_to_pc_addend : Z;
}.

(** Where an iteration goes: back to the head of the loop, or to a label with the
    value GET_PC() and [insn] have there. *)
Inductive next :=
| Loop (l : Locals)
| Goto (lab : label) (gpc insn : Z).

(** The result of a fetch. *)
Inductive fetched :=
| Fetched (l : Locals) (insn : Z)
| FetchGoto (lab : label) (gpc : Z).

Section Interp.
Context `{cfg : Config} {W : Type} `{plat : Platform W}.
Local Abbreviation MS := (M (Sys W)).

Definition GET_PC (l : Locals) : Z := ulong (code_ptr l + code_to_pc_addend l).
Definition GET_INSN_COUNTER (addend : Z) (s : RISCVCPUState) : Z :=
  u64 (addend - n_cycles s).
Definition dec_n_cycles (s : RISCVCPUState) : RISCVCPUState :=
  with_n_cycles (i32 (n_cycles s - 1)) s.

(** if (unlikely((s->mip & s->mie) != 0)) { if (raise_interrupt(s)) { s->n_cycles--; .. } }:
    [true] when the interrupt is taken. *)
Definition check_interrupts : MS bool :=
  s ← getc;
  if nz (mip s .& mie s) then
    taken ← callc raise_interrupt;
    if (taken : bool) then _ ← updc dec_n_cycles; mret true
    else mret false
  else mret false.

(** The start of a block: [code_ptr >= code_end]. *)
Definition fetch_block (l : Locals) : MS fetched :=
  let gpc := GET_PC l in
  _ ← set_pc gpc;
  s ← getc;
  if n_cycles s <=? 0 then mret (FetchGoto L_done_interp gpc)
  else
    taken ← check_interrupts;
    if (taken : bool) then mret (FetchGoto L_done_interp gpc)
    else
      s ← getc;
      let addr := pc s in
      p ← insn_ptr addr;
      match p with
      | None => mret (FetchGoto L_mmu_exception gpc)
      | Some ptr =>
          let l := {| code_ptr := ptr;
                      code_end := uptr (ptr + ulong (PG_MASK - 1 - (addr .& PG_MASK)));
                      code_to_pc_addend := ulong (addr - ptr) |} in
          if code_end l <=? code_ptr l then
            insn ← host_read 2 ptr;
            if insn .& 3 =? 3 then
              hi ← target_read_insn_u16 (ulong (addr + 2));
              match hi with
              | None => mret (FetchGoto L_mmu_exception (GET_PC l))
              | Some insn_high => mret (Fetched l (u32 (insn .| (insn_high ≪ 16))))
              end
            else mret (Fetched l insn)
          else
            insn ← get_insn32 ptr;
            mret (Fetched l insn)
      end.

Definition fetch (l : Locals) : MS fetched :=
  if code_end l <=? code_ptr l then fetch_block l
  else insn ← get_insn32 (code_ptr l); mret (Fetched l insn).

(** switch(opcode) *)
Definition exec_insn (XLEN gpc ic insn : Z) : MS label :=
  match insn .& 3 with
  | 0 => exec_c0 XLEN insn
  | 1 => exec_c1 XLEN gpc insn
  | 2 => exec_c2 XLEN gpc insn
  | _ =>
      match insn .& 0x7f with
      | 0x37 => exec_lui insn
      | 0x17 => exec_auipc XLEN gpc insn
      | 0x6f => exec_jal XLEN gpc insn
      | 0x67 => exec_jalr XLEN gpc insn
      | 0x63 => exec_branch XLEN gpc insn
      | 0x03 => exec_load XLEN insn
      | 0x23 => exec_store XLEN insn
      | 0x13 => exec_op_imm XLEN insn
      | 0x1b => if 64 <=? XLEN then exec_op_imm_w 32 insn else illegal
      | 0x5b => if 128 <=? XLEN then exec_op_imm_w 64 insn else illegal
      | 0x33 => exec_op XLEN insn
      | 0x3b => if 64 <=? XLEN then exec_op_w 32 insn else illegal
      | 0x7b => if 128 <=? XLEN then exec_op_w 64 insn else illegal
      | 0x73 => exec_system XLEN gpc ic insn
      | 0x0f => exec_misc_mem XLEN insn
      | 0x2f => exec_amo XLEN insn
      | 0x07 => exec_fp_load insn
      | 0x27 => exec_fp_store insn
      | 0x43 => exec_fma false false insn
      | 0x47 => exec_fma false true insn
      | 0x4b => exec_fma true false insn
      | 0x4f => exec_fma true true insn
      | 0x53 => exec_fp_op XLEN insn
      | _ => illegal
      end
  end.

(** One iteration; [addend] is insn_counter_addend. *)
Definition step (XLEN addend : Z) (l : Locals) : MS next :=
  f ← fetch l;
  match f with
  | FetchGoto lab gpc => mret (Goto lab gpc 0)
  | Fetched l insn =>
      _ ← updc dec_n_cycles;
      s ← getc;
      let gpc := GET_PC l in
      lab ← exec_insn XLEN gpc (GET_INSN_COUNTER addend s) insn;
      match lab with
      | L_next n =>
          mret (Loop {| code_ptr := uptr (code_ptr l + n); code_end := code_end l;
                        code_to_pc_addend := code_to_pc_addend l |})
      | L_jump =>
          s ← getc;
          mret (Loop {| code_ptr := 0; code_end := 0; code_to_pc_addend := pc s |})
      | _ => mret (Goto lab gpc insn)
      end
  end.

(** The code after the loop, from the label on. *)
Definition finish (addend : Z) (lab : label) (gpc insn : Z) : MS unit :=
  _ ← (match lab with
       | L_illegal_insn =>
           _ ← updc (with_pending_exception CAUSE_ILLEGAL_INSTRUCTION);
           updc (with_pending_tval (ulong insn))
       | _ => mret tt
       end);
  _ ← (match lab with
       | L_done_interp => mret tt
       | _ =>
           _ ← set_pc gpc;
           s ← getc;
           if 0 <=? pending_exception s then
             updc (fun s => raise_exception2 (dec_n_cycles s) (pending_exception s) (pending_tval s))
           else mret tt
       end);
  updc (fun s => with_insn_counter (GET_INSN_COUNTER addend s) s).

(** The loop.  [fuel] bounds the number of iterations; [interp_fuel] is enough:
    see [run_loop_wp] and [riscv_cpu_interp_safe] in InterpInv.v. *)
Fixpoint run_loop (fuel : nat) (XLEN addend : Z) (l : Locals) : MS unit :=
  match fuel with
  | O => stop_with StopFuel
  | S f =>
      n ← step XLEN addend l;
      match n with
      | Loop l => run_loop f XLEN addend l
      | Goto lab gpc insn => finish addend lab gpc insn
      end
  end.

Definition interp_fuel (n_cycles1 : Z) : nat := Z.to_nat (n_cycles1 + 2051).

(** riscv_cpu_interp_x32, riscv_cpu_interp_x64, riscv_cpu_interp_x128 *)
Definition riscv_cpu_interp_x (XLEN n_cycles1 : Z) : MS unit :=
  if n_cycles1 =? 0 then mret tt
  else
    s ← getc;
    let addend := u64 (insn_counter s + n_cycles1) in
    _ ← updc (with_n_cycles n_cycles1);
    taken ← check_interrupts;
    if (taken : bool) then finish addend L_done_interp 0 0
    else
      _ ← updc (with_pending_exception (-1));
      s ← getc;
      run_loop (interp_fuel n_cycles1) XLEN addend
        {| code_ptr := 0; code_end := 0; code_to_pc_addend := pc s |}.

(** riscv_cpu_interp.  Each turn of the loop calls riscv_cpu_interp_x once;
    [fuel] bounds the number of turns. *)
Fixpoint interp_loop (fuel : nat) (timeout : Z) : MS unit :=
  match fuel with
  | O => stop_with StopFuel
  | S f =>
      s ← getc;
      let left := i32 (u64 (timeout - insn_counter s)) in
      if negb (power_down_flag s) && (0 <? left) then
        _ ← (if cur_xlen s =? 32 then riscv_cpu_interp_x 32 left
             else if (64 <=? MAX_XLEN) && (cur_xlen s =? 64) then riscv_cpu_interp_x 64 left
             else if (128 <=? MAX_XLEN) && (cur_xlen s =? 128) then riscv_cpu_interp_x 128 left
             else stop_with StopAbort);
        interp_loop f timeout
      else mret tt
  end.
Definition riscv_cpu_interp (n_cycles : Z) : MS unit :=
  s ← getc;
  interp_loop (S (Z.to_nat n_cycles)) (u64 (insn_counter s + n_cycles)).
End Interp.
