(* ===== verification/Machine.v ===== *)
(** * The RISC-V machine (riscv_machine.c): RTC, HTIF, CLINT, PLIC and the main
    loop's entry points

    The machine's devices run as callbacks of the memory map; they change the
    machine and the interrupt lines of the CPU. *)
From S2P Require Export Interp.

Definition LOW_RAM_SIZE : Z := 0x00010000.
Definition RAM_BASE_ADDR : Z := 0x80000000.
Definition CLINT_BASE_ADDR : Z := 0x02000000.
Definition CLINT_SIZE : Z := 0x000c0000.
Definition HTIF_BASE_ADDR : Z := 0x40008000.
Definition PLIC_BASE_ADDR : Z := 0x40100000.
Definition PLIC_SIZE : Z := 0x00400000.
Definition VIRTIO_BASE_ADDR : Z := 0x40010000.
Definition VIRTIO_SIZE : Z := 0x1000.
Definition VIRTIO_IRQ : Z := 1.
Definition FRAMEBUFFER_BASE_ADDR : Z := 0x41000000.
Definition PLIC_HART_BASE : Z := 0x200000.
Definition RTC_FREQ : Z := 10000000.
Definition RTC_FREQ_DIV : Z := 16.

(** The fields of the struct that the code of this file uses.  [console_out] is
    what was given to the console's write_data, oldest byte first.  [monotonic n]
    is what call number [n] of clock_gettime stores (tv_sec, tv_nsec), and
    [clock_reads] the number of calls so far.  [devices] is the state of the
    devices of other files (virtio, IDE, framebuffer). *)
Record RISCVMachine (D : Type) := mkMachine {
  rtc_real_time : bool;
  rtc_start_time : Z;
  timecmp : Z;
  plic_pending_irq : Z;
  plic_served_irq : Z;
  htif_tohost : Z;
  htif_fromhost : Z;
  console_out : list Z;
  monotonic : nat -> Z * Z;
  clock_reads : nat;
  devices : D;
}.
Arguments mkMachine {D}.
Arguments rtc_real_time {D} r.
Arguments rtc_start_time {D} r.
Arguments timecmp {D} r.
Arguments plic_pending_irq {D} r.
Arguments plic_served_irq {D} r.
Arguments htif_tohost {D} r.
Arguments htif_fromhost {D} r.
Arguments console_out {D} r.
Arguments monotonic {D} r.
Arguments clock_reads {D} r.
Arguments devices {D} r.

Definition with_timecmp {D} v (m : RISCVMachine D) : RISCVMachine D :=
  mkMachine (rtc_real_time m) (rtc_start_time m) v (plic_pending_irq m) (plic_served_irq m)
    (htif_tohost m) (htif_fromhost m) (console_out m) (monotonic m) (clock_reads m) (devices m).
Definition with_plic {D} pending served (m : RISCVMachine D) : RISCVMachine D :=
  mkMachine (rtc_real_time m) (rtc_start_time m) (timecmp m) pending served
    (htif_tohost m) (htif_fromhost m) (console_out m) (monotonic m) (clock_reads m) (devices m).
Definition with_htif {D} tohost fromhost (m : RISCVMachine D) : RISCVMachine D :=
  mkMachine (rtc_real_time m) (rtc_start_time m) (timecmp m) (plic_pending_irq m)
    (plic_served_irq m) tohost fromhost (console_out m) (monotonic m) (clock_reads m) (devices m).
Definition put_console {D} (buf : list Z) (m : RISCVMachine D) : RISCVMachine D :=
  mkMachine (rtc_real_time m) (rtc_start_time m) (timecmp m) (plic_pending_irq m)
    (plic_served_irq m) (htif_tohost m) (htif_fromhost m) (console_out m ++ buf)
    (monotonic m) (clock_reads m) (devices m).
Definition tick_clock {D} (m : RISCVMachine D) : RISCVMachine D :=
  mkMachine (rtc_real_time m) (rtc_start_time m) (timecmp m) (plic_pending_irq m)
    (plic_served_irq m) (htif_tohost m) (htif_fromhost m) (console_out m)
    (monotonic m) (S (clock_reads m)) (devices m).

(** The callbacks of the other files' devices, by handle. *)
Class OtherDevices `{Config} (D : Type) := {
  other_read : nat -> Z -> Z -> M (Sys (RISCVMachine D)) Z;
  other_write : nat -> Z -> Z -> Z -> M (Sys (RISCVMachine D)) unit;
  stack_garbage : Sys (RISCVMachine D) -> Z;
}.

Section Machine.
Context `{cfg : Config} {D : Type}.
Local Abbreviation MM := (M (Sys (RISCVMachine D))).
Implicit Types m : RISCVMachine D.

Definition getm : MM (RISCVMachine D) := gets world.
Definition updm (f : RISCVMachine D -> RISCVMachine D) : MM unit := modify (upd_world f).

(** ** The real-time clock *)
Definition rtc_get_real_time : MM Z :=
  m ← getm;
  let (tv_sec, tv_nsec) := monotonic m (clock_reads m) in
  _ ← updm tick_clock;
  mret (u64 (u64 tv_sec * RTC_FREQ + Z.quot tv_nsec (Z.quot 1000000000 RTC_FREQ))).
Definition rtc_get_time : MM Z :=
  m ← getm;
  if rtc_real_time m then
    val ← rtc_get_real_time;
    mret (u64 (val - rtc_start_time m))
  else
    s ← gets cpu;
    mret (riscv_cpu_get_cycles s / RTC_FREQ_DIV).

(** ** HTIF *)
Definition htif_read (offset size_log2 : Z) : MM Z :=
  _ ← assert (size_log2 =? 2);
  s ← getm;
  mret (match offset with
        | 0 => u32 (htif_tohost s)
        | 4 => u32 (htif_tohost s ≫ 32)
        | 8 => u32 (htif_fromhost s)
        | 12 => u32 (htif_fromhost s ≫ 32)
        | _ => 0
        end).

Definition htif_handle_cmd : MM unit :=
  s ← getm;
  let device := u32 (htif_tohost s ≫ 56) in
  let cmd := (htif_tohost s ≫ 48) .& 0xff in
  if htif_tohost s =? 1 then stop_with (StopExit 0)
  else if (device =? 1) && (cmd =? 1) then
    updm (fun s => with_htif 0 (u64 (device ≪ 56) .| u64 (cmd ≪ 48))
                     (put_console [htif_tohost s .& 0xff] s))
  else if (device =? 1) && (cmd =? 0) then
    updm (fun s => with_htif 0 (htif_fromhost s) s)
  else mret tt. (* the command is reported on the standard output *)

(** [~0xffffffff] is computed on unsigned int: it is 0. *)
Definition NOT_LOW_MASK : Z := u32 (Z.lnot 0xffffffff).

Definition htif_write (offset val size_log2 : Z) : MM unit :=
  _ ← assert (size_log2 =? 2);
  match offset with
  | 0 => updm (fun s => with_htif ((htif_tohost s .& NOT_LOW_MASK) .| val) (htif_fromhost s) s)
  | 4 =>
      _ ← updm (fun s => with_htif ((htif_tohost s .& 0xffffffff) .| (val ≪ 32))
                           (htif_fromhost s) s);
      htif_handle_cmd
  | 8 => updm (fun s => with_htif (htif_tohost s) ((htif_fromhost s .& NOT_LOW_MASK) .| val) s)
  | 12 => updm (fun s => with_htif (htif_tohost s)
                           ((htif_fromhost s .& 0xffffffff) .| (val ≪ 32)) s)
  | _ => mret tt
  end.

(** ** CLINT: the timer *)
Definition clint_read (offset size_log2 : Z) : MM Z :=
  _ ← assert (size_log2 =? 2);
  m ← getm;
  match offset with
  | 0xbff8 => t ← rtc_get_time; mret (u32 t)
  | 0xbffc => t ← rtc_get_time; mret (u32 (t ≫ 32))
  | 0x4000 => mret (u32 (timecmp m))
  | 0x4004 => mret (u32 (timecmp m ≫ 32))
  | _ => mret 0
  end.
Definition clint_write (offset val size_log2 : Z) : MM unit :=
  _ ← assert (size_log2 =? 2);
  match offset with
  | 0x4000 =>
      _ ← updm (fun m => with_timecmp ((timecmp m .& NOT_LOW_MASK) .| val) m);
      updc (riscv_cpu_reset_mip MIP_MTIP)
  | 0x4004 =>
      _ ← updm (fun m => with_timecmp ((timecmp m .& 0xffffffff) .| (val ≪ 32)) m);
      updc (riscv_cpu_reset_mip MIP_MTIP)
  | _ => mret tt
  end.

(** ** PLIC: the platform interrupt controller *)
Definition plic_mask m : Z := plic_pending_irq m .& u32 (Z.lnot (plic_served_irq m)).
Definition plic_update_mip : MM unit :=
  s ← getm;
  if nz (plic_mask s) then updc (riscv_cpu_set_mip (MIP_MEIP .| MIP_SEIP))
  else updc (riscv_cpu_reset_mip (MIP_MEIP .| MIP_SEIP)).

Definition plic_read (offset size_log2 : Z) : MM Z :=
  _ ← assert (size_log2 =? 2);
  s ← getm;
  if offset =? PLIC_HART_BASE then mret 0
  else if offset =? PLIC_HART_BASE + 4 then
    let mask := plic_mask s in
    if nz mask then
      let i := ctz32 mask in
      _ ← updm (fun s => with_plic (plic_pending_irq s)
                           (plic_served_irq s .| u32 (1 ≪ i)) s);
      _ ← plic_update_mip;
      mret (i + 1)
    else mret 0
  else mret 0.

Definition plic_write (offset val size_log2 : Z) : MM unit :=
  _ ← assert (size_log2 =? 2);
  if offset =? PLIC_HART_BASE + 4 then
    let val := u32 (val - 1) in
    if val <? 32 then
      _ ← updm (fun s => with_plic (plic_pending_irq s)
                           (plic_served_irq s .& u32 (Z.lnot (1 ≪ val))) s);
      plic_update_mip
    else mret tt
  else mret tt.

(** The interrupt lines: [irq_num] is between 1 and 31. *)
Definition plic_set_irq (irq_num state : Z) : MM unit :=
  let mask := u32 (1 ≪ (irq_num - 1)) in
  _ ← updm (fun s =>
        with_plic (if nz state then plic_pending_irq s .| mask
                   else plic_pending_irq s .& u32 (Z.lnot mask))
          (plic_served_irq s) s);
  plic_update_mip.

(** ** The callbacks: the handle of a range is its [opaque] *)
Definition OP_CLINT : nat := 0.
Definition OP_PLIC : nat := 1.
Definition OP_HTIF : nat := 2.

#[export] Instance riscv_platform `{dev : !OtherDevices D} : Platform (RISCVMachine D) := {
  read_func := fun op offset size_log2 =>
    match op with
    | 0%nat => clint_read offset size_log2
    | 1%nat => plic_read offset size_log2
    | 2%nat => htif_read offset size_log2
    | _ => other_read op offset size_log2
    end;
  write_func := fun op offset val size_log2 =>
    match op with
    | 0%nat => clint_write offset val size_log2
    | 1%nat => plic_write offset val size_log2
    | 2%nat => htif_write offset val size_log2
    | _ => other_write op offset val size_log2
    end;
  uninit := stack_garbage;
}.

(** ** The calls of the main loop *)

(** riscv_flush_tlb_write_range: the callback of the map. *)
Definition riscv_flush_tlb_write_range (ram_addr ram_size : Z) (s : RISCVCPUState)
    : RISCVCPUState :=
  riscv_cpu_flush_tlb_write_range_ram ram_addr ram_size s.

(** In milliseconds. *)
Definition riscv_machine_get_sleep_duration (delay : Z) : MM Z :=
  s ← gets cpu;
  delay ←
    (if nz (riscv_cpu_get_mip s .& MIP_MTIP) then mret delay
     else
       m ← getm;
       t ← rtc_get_time;
       let delay1 := i64 (timecmp m - t) in
       if delay1 <=? 0 then
         _ ← updc (riscv_cpu_set_mip MIP_MTIP); mret 0
       else
         let delay1 := Z.quot delay1 (RTC_FREQ / 1000) in
         mret (if delay1 <? delay then delay1 else delay));
  s ← gets cpu;
  mret (if riscv_cpu_get_power_down s then delay else 0).

Definition riscv_machine_interp `{dev : !OtherDevices D} (max_exec_cycle : Z) : MM unit :=
  riscv_cpu_interp max_exec_cycle.
End Machine.
