(* ===== verification/ArithFacts.v ===== *)
(** * Division and multiplication: the RISC-V M extension is implemented

    The reference definitions are the mathematical ones: Euclid's equation with
    truncation towards zero, and the high half of the exact product. *)
From S2P Require Export Arith.

(** The signed values of a [w]-bit type. *)
Definition sfits (w x : Z) : Prop := - 2 ^ (w - 1) <= x < 2 ^ (w - 1).

Lemma pow2_half w : 0 < w -> 2 ^ w = 2 * 2 ^ (w - 1).
Proof. intros. rewrite <- Z.pow_succ_r by lia. f_equal; lia. Qed.

Lemma swrap_min w : 0 < w -> swrap w (1 ≪ (w - 1)) = - 2 ^ (w - 1).
Proof.
  intros Hw. pose proof (pow2_half w Hw). pose proof (pow2_pos (w - 1) ltac:(lia)).
  rewrite swrap_of_wrap by done. rewrite Z.shiftl_mul_pow2, Z.mul_1_l by lia.
  rewrite wrap_fits by (split; lia). rewrite Z.ltb_irrefl. lia.
Qed.

(** The products computed at twice the width. *)
Lemma high_of_wide n p : 0 < n ->
  wrap n (swrap (2 * n) p ≫ n) = wrap n (p ≫ n).
Proof.
  intros Hn. destruct (swrap_decomp (2 * n) p) as [k ->]; [lia|].
  rewrite !Z.shiftr_div_pow2 by lia.
  apply (wrap_eq n _ _ k); [lia|].
  replace (2 * n) with (n + n) by lia. rewrite Z.pow_add_r, Z.mul_assoc by lia.
  apply Z.div_add. apply pow2_nz. lia.
Qed.

Lemma high_fits w a b : 0 <= w -> fits w a -> fits w b -> fits w ((a * b) ≫ w).
Proof.
  intros Hw [??] [??]. rewrite Z.shiftr_div_pow2 by done. pose proof (pow2_pos w Hw).
  split; [apply Z.div_pos; nia|]. apply Z.div_lt_upper_bound; nia.
Qed.

(** The half-width products and carries, with [B = 2^h]. *)
Lemma half_products B a0 a1 b0 b1 : 0 < B ->
  let c1 := a0 * b0 / B + (a0 * b1) mod B + (a1 * b0) mod B in
  let c2 := c1 / B + a0 * b1 / B + a1 * b0 / B + (a1 * b1) mod B in
  (a0 + B * a1) * (b0 + B * b1) / (B * B) =
  B * (c2 / B + a1 * b1 / B) + c2 mod B.
Proof.
  intros HB c1 c2.
  pose proof (Z.div_mod (a0 * b0) B ltac:(lia)).
  pose proof (Z.div_mod (a0 * b1) B ltac:(lia)).
  pose proof (Z.div_mod (a1 * b0) B ltac:(lia)).
  pose proof (Z.div_mod (a1 * b1) B ltac:(lia)).
  pose proof (Z.div_mod c1 B ltac:(lia)). pose proof (Z.div_mod c2 B ltac:(lia)).
  pose proof (Z.mod_pos_bound (a0 * b0) B HB). pose proof (Z.mod_pos_bound c1 B HB).
  symmetry.
  apply (Z.div_unique_pos _ _ _ (B * (c1 mod B) + (a0 * b0) mod B)); [nia|].
  subst c1 c2. nia.
Qed.

Lemma half_product_fits h x y : 0 < h -> fits h x -> fits h y -> wrap (2 * h) (x * y) = x * y.
Proof.
  intros Hh [??] [??]. apply wrap_fits. replace (2 * h) with (h + h) by lia.
  split; [nia|]. rewrite Z.pow_add_r by lia. nia.
Qed.

Lemma half_prod_bound B x y : 0 <= x < B -> 0 <= y < B -> 0 <= x * y <= (B - 1) * (B - 1).
Proof. nia. Qed.

Lemma quot_bound B r m : 0 <= B * r + m < B * B -> 0 <= m < B -> r < B.
Proof. nia. Qed.

Lemma mulhu_gen_high h a b : 0 < h -> fits (2 * h) a -> fits (2 * h) b ->
  mulhu_gen (2 * h) a b = (a * b) ≫ (2 * h).
Proof.
  intros Hh Ha Hb. set (B := 2 ^ h).
  assert (HB : 0 < B) by (apply pow2_pos; lia).
  assert (HB2 : 2 ^ (2 * h) = B * B).
  { replace (2 * h) with (h + h) by lia. rewrite Z.pow_add_r by lia. done. }
  assert (HBB : 2 <= B).
  { subst B. change 2 with (2 ^ 1) at 1. apply Z.pow_le_mono_r; lia. }
  unfold mulhu_gen. replace (2 * h / 2) with h by (rewrite Z.mul_comm, Z.div_mul; lia).
  set (a0 := wrap h a). set (a1 := wrap h (a ≫ h)).
  set (b0 := wrap h b). set (b1 := wrap h (b ≫ h)).
  assert (forall x, fits (2 * h) x -> x = wrap h x + B * wrap h (x ≫ h) /\
            fits h (wrap h x) /\ fits h (wrap h (x ≫ h))) as Hsplit.
  { intros x [??]. split; [|split; apply fits_wrap; lia].
    rewrite Z.shiftr_div_pow2 by lia. unfold wrap. fold B.
    rewrite (Z.mod_small (x / B)) by
      (split; [apply Z.div_pos; lia|apply Z.div_lt_upper_bound; [lia|]; rewrite <- HB2; lia]).
    pose proof (Z.div_mod x B ltac:(lia)). lia. }
  destruct (Hsplit a Ha) as (Ea & Fa0 & Fa1). destruct (Hsplit b Hb) as (Eb & Fb0 & Fb1).
  fold a0 a1 in Ea, Fa0, Fa1. fold b0 b1 in Eb, Fb0, Fb1. clear Hsplit.
  rewrite !(half_product_fits h) by done.
  clearbody a0 a1 b0 b1. unfold fits in Fa0, Fa1, Fb0, Fb1. fold B in Fa0, Fa1, Fb0, Fb1.
  pose proof (half_prod_bound B _ _ Fa0 Fb0). pose proof (half_prod_bound B _ _ Fa0 Fb1).
  pose proof (half_prod_bound B _ _ Fa1 Fb0). pose proof (half_prod_bound B _ _ Fa1 Fb1).
  pose proof (half_products B a0 a1 b0 b1 HB) as E. cbn zeta in E. rewrite <- Ea, <- Eb in E.
  pose proof (high_fits (2 * h) a b ltac:(lia) Ha Hb) as Fr.
  rewrite Z.shiftr_div_pow2, HB2, E in Fr by lia. unfold fits in Fr. rewrite HB2 in Fr.
  rewrite (Z.shiftr_div_pow2 (a * b)), HB2, E by lia. clear E.
  rewrite !(fun x => Z.shiftr_div_pow2 x h) by lia. fold B.
  unfold wrap. rewrite HB2. fold B.
  assert (Hd : forall x, 0 <= x <= (B - 1) * (B - 1) -> 0 <= x / B <= B - 2).
  { intros x ?. split; [apply Z.div_pos; lia|].
    enough (x / B < B - 1) by lia. apply Z.div_lt_upper_bound; nia. }
  pose proof (Hd _ H). pose proof (Hd _ H0). pose proof (Hd _ H1). pose proof (Hd _ H2).
  pose proof (Z.mod_pos_bound (a0 * b1) B HB). pose proof (Z.mod_pos_bound (a1 * b0) B HB).
  pose proof (Z.mod_pos_bound (a1 * b1) B HB).
  rewrite (Z.mod_small (a0 * b0 / B + _ + _)) by nia.
  set (c1 := a0 * b0 / B + (a0 * b1) mod B + (a1 * b0) mod B) in *.
  assert (0 <= c1 / B <= 2).
  { split; [apply Z.div_pos; lia|]. enough (c1 / B < 3) by lia. apply Z.div_lt_upper_bound; lia. }
  rewrite (Z.mod_small (c1 / B + _ + _ + _)) by nia.
  set (c2 := c1 / B + a0 * b1 / B + a1 * b0 / B + (a1 * b1) mod B) in *.
  assert (0 <= c2) by lia.
  pose proof (Z.mod_pos_bound c2 B HB). pose proof (Z.div_pos c2 B ltac:(lia) HB).
  set (r3 := c2 / B + a1 * b1 / B) in *.
  assert (0 <= r3 < B) by (split; [lia|]; exact (quot_bound _ _ _ Fr H12)).
  clearbody r3 c2.
  rewrite (Z.mod_small r3) by lia.
  rewrite Z.shiftl_mul_pow2 by lia. fold B.
  rewrite (Z.mod_small (r3 * B)) by (rewrite (Z.mul_comm r3); lia).
  rewrite <- Z.add_lor_land, (Z.mul_comm B).
  replace ((r3 * B) .& (c2 mod B)) with 0; [lia|].
  symmetry. apply Z.bits_inj'. intros i Hi. rewrite Z.land_spec, Z.bits_0.
  destruct (Z_lt_le_dec i h).
  - subst B. rewrite Z.mul_pow2_bits_low by lia. done.
  - rewrite (fits_testbit h (c2 mod B)); [apply andb_false_r|split; [lia|subst B; lia]|lia].
Qed.

(** A signed argument of the generic routines, as the unsigned one plus a carry. *)
Lemma wrap_signed w a : 0 < w -> sfits w a ->
  wrap w a = a + (if a <? 0 then 2 ^ w else 0).
Proof.
  intros Hw [??]. pose proof (pow2_half w Hw).
  destruct (Z.ltb_spec a 0).
  - rewrite <- (wrap_fits w (a + 2 ^ w)); [|split; lia].
    apply (wrap_eq w _ _ (-1)); lia.
  - rewrite wrap_fits; [lia|split; lia].
Qed.

Lemma shiftr_add_pow w x k : 0 <= w -> (x + k * 2 ^ w) ≫ w = (x ≫ w) + k.
Proof.
  intros. rewrite !Z.shiftr_div_pow2 by done. apply Z.div_add. by apply pow2_nz.
Qed.

(** What the generic high multiplication computes for a signed operand. *)
Lemma mulhu_gen_signed h a b : 0 < h -> sfits (2 * h) a -> fits (2 * h) b ->
  mulhu_gen (2 * h) (wrap (2 * h) a) b = ((a * b) ≫ (2 * h)) + (if a <? 0 then b else 0).
Proof.
  intros Hh Ha Hb. rewrite mulhu_gen_high by (try apply fits_wrap; lia || done).
  rewrite wrap_signed by (lia || done).
  rewrite <- (shiftr_add_pow (2 * h)) by lia. f_equal. case_if; lia.
Qed.

(** Division: truncated, with the results the ISA gives to a zero divisor and to
    the overflow. *)
Record div_spec (w a b q r : Z) : Prop := {
  ds_zero : b = 0 -> q = -1 /\ r = a;
  ds_euclid : b <> 0 -> swrap w (q * b + r) = a;
  ds_exact : b <> 0 -> ~ (a = - 2 ^ (w - 1) /\ b = -1) -> q * b + r = a;
  ds_bound : b <> 0 -> Z.abs r < Z.abs b;
  ds_sign : r <> 0 -> Z.sgn r = Z.sgn a;
  ds_range : sfits w q /\ sfits w r;
}.

Lemma quot_sfits w a b : 0 < w -> sfits w a -> b <> 0 ->
  ~ (a = - 2 ^ (w - 1) /\ b = -1) -> sfits w (Z.quot a b).
Proof.
  intros Hw [??] Hb Hov. pose proof (Z.quot_rem' a b) as E.
  pose proof (Z.rem_bound_abs a b Hb). pose proof (Z.rem_sign_mul a b Hb).
  destruct (Z.eq_dec (Z.abs b) 1) as [Hb1|].
  - assert (b = 1 \/ b = -1) as [->| ->] by lia; rewrite ?Z.quot_1_r; [split; lia|].
    change (-1) with (- (1)) in *. rewrite Z.quot_opp_r, Z.quot_1_r by lia. split; lia.
  - unfold sfits. enough (Z.abs (Z.quot a b) < 2 ^ (w - 1)) by lia.
    pose proof (pow2_pos (w - 1) ltac:(lia)).
    destruct (Z.eq_dec a 0) as [->|]; [rewrite Z.quot_0_l by done; lia|].
    rewrite <- Z.quot_abs by done.
    enough (Z.quot (Z.abs a) (Z.abs b) < Z.abs a) by lia.
    apply Z.quot_lt; lia.
Qed.

(** C5: signed division and remainder agree with the ISA for all operands of the
    width, a zero divisor and the overflow of the most negative value included. *)
Theorem div_rem_correct w a b : 1 < w -> sfits w a -> sfits w b ->
  div_spec w a b (div w a b) (rem w a b).
Proof.
  intros Hw Ha Hb. unfold div, rem. rewrite swrap_min by lia.
  pose proof (pow2_half w ltac:(lia)).
  assert (2 <= 2 ^ (w - 1)) by (change 2 with (2 ^ 1) at 1; apply Z.pow_le_mono_r; lia).
  destruct (Z.eqb_spec b 0) as [->|Hb0].
  { split; try done; unfold sfits in *; intros; lia. }
  destruct (Z.eqb_spec a (- 2 ^ (w - 1))) as [Ea|]; destruct (Z.eqb_spec b (-1)) as [Eb|];
    cbn [andb].
  1: { subst. split; unfold sfits in *; intros; try lia.
       rewrite swrap_of_wrap by lia.
       replace (- 2 ^ (w - 1) * -1 + 0) with (2 ^ (w - 1)) by lia.
       rewrite wrap_fits by (split; lia). rewrite Z.ltb_irrefl. lia. }
  all: pose proof (Z.quot_rem' a b) as E; rewrite Z.mul_comm in E.
  all: pose proof (Z.rem_bound_abs a b Hb0) as Hr.
  all: pose proof (quot_sfits w a b ltac:(lia) Ha Hb0) as Hq.
  all: split; intros; try tauto; rewrite <- ?E; try done.
  all: try (apply swrap_id; [lia|exact Ha]).
  all: try (apply Z.rem_sign_nz; done).
  all: split; [apply Hq; tauto|].
  all: pose proof (Z.rem_sign_mul a b Hb0); unfold sfits in *.
  all: assert (Z.abs (Z.rem a b) <= Z.abs a) by (rewrite <- Z.rem_abs by done; apply Z.rem_le; lia).
  all: nia.
Qed.

Lemma div_rem_correct_witness :
  div_spec 32 (-7) 2 (div 32 (-7) 2) (rem 32 (-7) 2) /\ div 32 (-7) 2 = -3 /\ rem 32 (-7) 2 = -1.
Proof. split; [|done]. apply (div_rem_correct 32 (-7) 2); [lia|split; lia|split; lia]. Defined.

Section Mul.
Context `{cfg : Config}.

(** The register widths a build compiles the template for. *)
Definition xlen_ok (XLEN : Z) : Prop := XLEN = 32 \/ XLEN = 64 \/ XLEN = 128.

(** The reference: the high half of the exact product. *)
Definition mul_high (w a b : Z) : Z := wrap w ((a * b) ≫ w).

(** The unsigned high product of every build (the 64-bit product, the
    128-bit product, or the four half-width products with their carries) is the
    high half of the exact product. *)
Lemma mulhu_correct XLEN a b : xlen_ok XLEN -> fits XLEN a -> fits XLEN b ->
  mulhu XLEN a b = mul_high XLEN a b.
Proof.
  intros HX Ha Hb. unfold mul_high. rewrite wrap_fits by (apply high_fits; try done; destruct HX as [->|[->| ->]]; lia).
  destruct HX as [->|[->| ->]]; unfold mulhu; cbn [Z.eqb Pos.eqb andb];
    [|destruct HAVE_INT128|].
  - unfold mulhu32. rewrite (high_of_wide 32) by lia. by apply wrap_fits, high_fits.
  - unfold mulhu64. rewrite (high_of_wide 64) by lia. by apply wrap_fits, high_fits.
  - by apply (mulhu_gen_high 32).
  - by apply (mulhu_gen_high 64).
Qed.

(** With a double-width integer type, mulh and mulhsu are the high half of
    the exact signed product. *)
Lemma mulh_correct XLEN a b :
  XLEN = 32 \/ (XLEN = 64 /\ HAVE_INT128 = true) ->
  mulh XLEN a b = mul_high XLEN a b /\ mulhsu XLEN a b = mul_high XLEN a b.
Proof.
  unfold mul_high.
  intros [->|[-> Hi]]; unfold mulh, mulhsu; cbn [Z.eqb Pos.eqb andb]; [|rewrite Hi; cbn [andb]].
  - unfold mulh32, mulhsu32. by rewrite !(high_of_wide 32).
  - unfold mulh64, mulhsu64. by rewrite !(high_of_wide 64).
Qed.
(** What the generic routines return for signed operands.  The correction of
    the unsigned product subtracts the negative operand itself instead of the
    other one, so mulh and mulhsu are right only when that makes no difference. *)
Lemma mulhu_gen_wrapped h a b : 0 < h -> h = 32 \/ h = 64 -> sfits (2 * h) a -> sfits (2 * h) b ->
  mulhu_gen (2 * h) (wrap (2 * h) a) (wrap (2 * h) b) =
  wrap (2 * h) (((a * b) ≫ (2 * h)) + (if b <? 0 then a else 0) + (if a <? 0 then b else 0)).
Proof.
  intros Hh HX Ha Hb. rewrite mulhu_gen_high by (try apply fits_wrap; lia).
  rewrite <- (wrap_fits (2 * h) ((wrap (2 * h) a * wrap (2 * h) b) ≫ (2 * h))) by
    (apply high_fits; try apply fits_wrap; lia).
  rewrite (wrap_signed (2 * h) a), (wrap_signed (2 * h) b) by (lia || done).
  set (B := 2 ^ (2 * h)).
  replace ((a + _) * _) with
    (a * b + ((if b <? 0 then a else 0) + (if a <? 0 then b else 0) +
              (if (a <? 0) && (b <? 0) then B else 0)) * B) by (zcases; simpl; lia).
  subst B. rewrite shiftr_add_pow by lia.
  apply (wrap_eq (2 * h) _ _ (if (a <? 0) && (b <? 0) then 1 else 0)); [lia|].
  zcases; simpl; lia.
Qed.
Lemma mulhu_gen_half_wrapped h a b : 0 < h -> h = 32 \/ h = 64 -> sfits (2 * h) a -> fits (2 * h) b ->
  mulhu_gen (2 * h) (wrap (2 * h) a) b =
  wrap (2 * h) (((a * b) ≫ (2 * h)) + (if a <? 0 then b else 0)).
Proof.
  intros Hh HX Ha Hb. rewrite mulhu_gen_high by (try apply fits_wrap; lia || done).
  rewrite <- (wrap_fits (2 * h) ((wrap (2 * h) a * b) ≫ (2 * h))) by
    (apply high_fits; try apply fits_wrap; lia || done).
  rewrite (wrap_signed (2 * h) a) by (lia || done). set (B := 2 ^ (2 * h)).
  replace ((a + _) * _) with (a * b + (if a <? 0 then b else 0) * B) by (zcases; simpl; lia).
  subst B. by rewrite shiftr_add_pow by lia.
Qed.
(** The builds and widths without a type of twice the width *)
Definition no_double (XLEN : Z) : Prop := (XLEN = 64 /\ HAVE_INT128 = false) \/ XLEN = 128.
Lemma mulh_gen_deviation XLEN a b :
  no_double XLEN -> sfits XLEN a -> sfits XLEN b ->
  mulh XLEN a b =
  wrap XLEN (((a * b) ≫ XLEN) + (if a <? 0 then b - a else 0) + (if b <? 0 then a - b else 0)).
Proof.
  intros HX Ha Hb.
  assert (exists h, XLEN = 2 * h /\ 0 < h /\ (h = 32 \/ h = 64)) as (h & E & Hh & Hh') by
    (destruct HX as [[-> _]| ->]; [exists 32|exists 64]; lia).
  replace (mulh XLEN a b) with (mulh_gen XLEN a b) by (unfold mulh; by destruct HX as [[-> ->]| ->]).
  rewrite E in *. unfold mulh_gen. cbv zeta. rewrite mulhu_gen_wrapped by done. unfold wrap.
  destruct (a <? 0), (b <? 0); rewrite ?Zminus_mod_idemp_l, <- ?Z.sub_add_distr, ?Zminus_mod_idemp_l;
    apply (f_equal (fun z => z mod _)); lia.
Qed.
Lemma mulhsu_gen_deviation XLEN a b :
  no_double XLEN -> sfits XLEN a -> fits XLEN b ->
  mulhsu XLEN a b = wrap XLEN (((a * b) ≫ XLEN) + (if a <? 0 then b - a else 0)).
Proof.
  intros HX Ha Hb.
  assert (exists h, XLEN = 2 * h /\ 0 < h /\ (h = 32 \/ h = 64)) as (h & E & Hh & Hh') by
    (destruct HX as [[-> _]| ->]; [exists 32|exists 64]; lia).
  replace (mulhsu XLEN a b) with (mulhsu_gen XLEN a b) by (unfold mulhsu; destruct HX as [[-> HX]| ->]; [rewrite HX|]; cbn [Z.eqb Pos.eqb andb]; reflexivity).
  rewrite E in *. unfold mulhsu_gen. cbv zeta. rewrite mulhu_gen_half_wrapped by done. unfold wrap.
  destruct (a <? 0); [match goal with |- ((_ mod _) - _) mod _ = _ => rewrite Zminus_mod_idemp_l end|]; f_equal; ring.
Qed.

(** C6: the high products are those of the ISA: the unsigned one in every build, the signed
    ones in the builds with a double-width integer type.  In the others mulh is off by the difference
    of the operands for each negative operand, and mulhsu by that difference for a negative first one. *)
Theorem high_products XLEN a b :
  (xlen_ok XLEN -> fits XLEN a -> fits XLEN b -> mulhu XLEN a b = mul_high XLEN a b) /\
  (XLEN = 32 \/ (XLEN = 64 /\ HAVE_INT128 = true) -> mulh XLEN a b = mul_high XLEN a b /\ mulhsu XLEN a b = mul_high XLEN a b) /\
  (no_double XLEN -> sfits XLEN a -> sfits XLEN b ->
   mulh XLEN a b = wrap XLEN (((a * b) ≫ XLEN) + (if a <? 0 then b - a else 0) + (if b <? 0 then a - b else 0))) /\
  (no_double XLEN -> sfits XLEN a -> fits XLEN b ->
   mulhsu XLEN a b = wrap XLEN (((a * b) ≫ XLEN) + (if a <? 0 then b - a else 0))).
Proof.
  split; [apply mulhu_correct|split; [apply mulh_correct|split; [apply mulh_gen_deviation|apply mulhsu_gen_deviation]]].
Qed.
End Mul.

Lemma high_products_witness :
  @mulhu cfg_rv64_js 64 0xffffffffffffffff 0xffffffffffffffff = 0xfffffffffffffffe /\
  @mulh cfg_rv64 64 (-1) 1 = 0xffffffffffffffff /\
  @mulh cfg_rv64_js 64 (-1) 1 = 1 /\ wrap 64 ((-1 * 1) ≫ 64) = 0xffffffffffffffff /\
  @mulhsu cfg_rv64_js 64 (-2) 3 = 4.
Proof.
  split; [rewrite (proj1 (@high_products cfg_rv64_js 64 _ _)); [reflexivity|by right; left|split; lia|split; lia]|].
  split; [apply (proj1 (proj2 (@high_products cfg_rv64 64 (-1) 1))); right; split; reflexivity|].
  split; [rewrite (proj1 (proj2 (proj2 (@high_products cfg_rv64_js 64 (-1) 1)))); [reflexivity|by left|split; lia|split; lia]|].
  split; [reflexivity|].
  rewrite (proj2 (proj2 (proj2 (@high_products cfg_rv64_js 64 (-2) 3)))); [reflexivity|by left|split; lia|split; lia].
Defined.
