(* ===== verification/FpWide.v ===== *)
(** * Double-width arithmetic of the floating-point code: mul_u, divrem_u and
    sqrtrem_u compute products, quotients and square roots

    Each has a version for compilers with a type of twice the width and one that
    works with single words; both are the mathematical operation. *)
From S2P Require Export SoftFp ArithFacts.

(** The value of a pair of words. *)
Definition pair_val (w hi lo : Z) : Z := hi * 2 ^ w + lo.

(** ** Words *)
Lemma lor_disjoint h x y : 0 <= h -> fits h y -> (x ≪ h) .| y = x * 2 ^ h + y.
Proof.
  intros Hh Hy. rewrite <- Z.add_lor_land, Z.shiftl_mul_pow2 by lia.
  replace ((x * 2 ^ h) .& y) with 0; [lia|]. symmetry.
  apply Z.bits_inj'. intros i Hi. rewrite Z.land_spec, Z.bits_0.
  destruct (Z_lt_le_dec i h).
  - by rewrite Z.mul_pow2_bits_low by lia.
  - rewrite (fits_testbit h y) by done. apply andb_false_r.
Qed.
Lemma pair_val_fits w hi lo : 0 <= w -> fits w hi -> fits w lo -> fits (2 * w) (pair_val w hi lo).
Proof.
  intros Hw [??] [??]. unfold pair_val. split; [nia|].
  replace (2 * w) with (w + w) by lia. rewrite Z.pow_add_r by lia. nia.
Qed.
Lemma wide_pair w hi lo : 0 <= w -> fits w hi -> fits w lo ->
  wrap (2 * w) (hi ≪ w) .| lo = pair_val w hi lo.
Proof.
  intros Hw Hh Hl. rewrite wrap_fits.
  - by apply lor_disjoint.
  - pose proof (pair_val_fits w hi 0 Hw Hh ltac:(by apply fits_0)) as H.
    unfold pair_val in H. rewrite Z.shiftl_mul_pow2 by lia. by rewrite Z.add_0_r in H.
Qed.
Lemma pair_val_split w v : 0 <= w -> fits (2 * w) v ->
  pair_val w (wrap w (v ≫ w)) (wrap w v) = v.
Proof.
  intros Hw [H0 H1]. unfold pair_val. rewrite Z.shiftr_div_pow2 by lia. pose proof (pow2_pos w Hw).
  rewrite (wrap_fits w (v / 2 ^ w)).
  - unfold wrap. pose proof (Z.div_mod v (2 ^ w) ltac:(lia)). lia.
  - split; [apply Z.div_pos; lia|]. apply Z.div_lt_upper_bound; [lia|].
    replace (2 * w) with (w + w) in H1 by lia. by rewrite Z.pow_add_r in H1 by lia.
Qed.

(** The position of the leading one. *)
Lemma clz_log2 w a : 0 < a -> clz w a = w - 1 - Z.log2 a.
Proof. intros. unfold clz. destruct (Z.eqb_spec a 0); lia. Qed.
Lemma clz_range w a : 0 <= w -> fits w a -> 0 <= clz w a <= w.
Proof.
  intros Hw Ha. unfold clz. destruct (Z.eqb_spec a 0); [lia|].
  pose proof (Z.log2_nonneg a). destruct Ha as [? Hlt].
  enough (Z.log2 a < w) by lia. apply Z.log2_lt_pow2; lia.
Qed.
Lemma clz_bound w a k : 0 <= w -> 0 <= k -> fits w a -> a < 2 ^ k -> w - k <= clz w a.
Proof.
  intros Hw Hk Ha Hlt. unfold clz. destruct (Z.eqb_spec a 0); [lia|].
  destruct Ha. enough (Z.log2 a < k) by lia. apply Z.log2_lt_pow2; lia.
Qed.

Section Wide.
Context (F : Z) (HF : F = 32 \/ F = 64 \/ F = 128).

Lemma F_pos : 32 <= F.
Proof. lia. Qed.
Lemma F_half : exists h, F = 2 * h /\ 0 < h.
Proof. destruct HF as [->|[->| ->]]; [exists 16|exists 32|exists 64]; lia. Qed.

(** ** Multiplication *)
Definition mul_ok (r : Z * Z) (a b : Z) : Prop :=
  fits F r.1 /\ fits F r.2 /\ pair_val F r.1 r.2 = a * b.

Lemma prod_fits a b : fits F a -> fits F b -> fits (2 * F) (a * b).
Proof.
  intros [??] [??]. split; [nia|]. replace (2 * F) with (F + F) by lia.
  rewrite Z.pow_add_r by lia. nia.
Qed.
Lemma mul_u_ulong_ok a b : fits F a -> fits F b -> mul_ok (mul_u_ulong F a b) a b.
Proof.
  intros Ha Hb. unfold mul_u_ulong, mul_ok. cbn [fst snd].
  rewrite (wrap_fits (2 * F)) by by apply prod_fits.
  repeat split; try (apply fits_wrap; lia). apply pair_val_split; [lia|]. by apply prod_fits.
Qed.

(** The low word of the product of halves. *)
Lemma half_low B a0 a1 b0 b1 : 0 < B ->
  let c1 := a0 * b0 / B + (a0 * b1) mod B + (a1 * b0) mod B in
  ((a0 + B * a1) * (b0 + B * b1)) mod (B * B) = B * (c1 mod B) + (a0 * b0) mod B.
Proof.
  intros HB c1. symmetry.
  pose proof (Z.div_mod (a0 * b0) B ltac:(lia)). pose proof (Z.div_mod (a0 * b1) B ltac:(lia)).
  pose proof (Z.div_mod (a1 * b0) B ltac:(lia)). pose proof (Z.div_mod c1 B ltac:(lia)).
  pose proof (Z.mod_pos_bound (a0 * b0) B HB). pose proof (Z.mod_pos_bound c1 B HB).
  apply (Z.mod_unique_pos _ _ (c1 / B + (a0 * b1) / B + (a1 * b0) / B + a1 * b1)); [nia|].
  subst c1. nia.
Qed.
Lemma split_half h x : 0 < h -> fits (2 * h) x ->
  x = wrap h x + 2 ^ h * wrap h (x ≫ h) /\ fits h (wrap h x) /\ fits h (wrap h (x ≫ h)).
Proof.
  intros Hh Hx. split; [|split; apply fits_wrap; lia].
  pose proof (pair_val_split h x ltac:(lia) Hx). unfold pair_val in *. lia.
Qed.
Lemma mul_u_half_low a b : fits F a -> fits F b -> snd (mul_u_half F a b) = wrap F (a * b).
Proof.
  destruct F_half as (h & -> & Hh). intros Ha Hb. unfold mul_u_half. cbn [snd].
  replace (2 * h / 2) with h by (rewrite Z.mul_comm, Z.div_mul; lia).
  destruct (split_half h a Hh Ha) as (Ea & Fa0 & Fa1).
  destruct (split_half h b Hh Hb) as (Eb & Fb0 & Fb1).
  set (a0 := wrap h a) in *. set (a1 := wrap h (a ≫ h)) in *.
  set (b0 := wrap h b) in *. set (b1 := wrap h (b ≫ h)) in *.
  rewrite !(half_product_fits h) by done. clearbody a0 a1 b0 b1.
  assert (HB : 0 < 2 ^ h) by (apply pow2_pos; lia).
  assert (HB2 : 2 ^ (2 * h) = 2 ^ h * 2 ^ h) by
    (replace (2 * h) with (h + h) by lia; by rewrite Z.pow_add_r by lia).
  rewrite (wrap_wrap h (2 * h)) by lia.
  rewrite (wrap_fits (2 * h) (wrap h _ ≪ h)).
  - rewrite lor_disjoint by (try apply fits_wrap; lia).
    rewrite Z.shiftr_div_pow2 by lia. rewrite Ea, Eb. unfold wrap at 5. rewrite HB2, half_low by lia.
    unfold wrap. lia.
  - rewrite Z.shiftl_mul_pow2 by lia. unfold fits. rewrite HB2.
    pose proof (fits_wrap h ((a0 * b0) ≫ h + wrap h (a0 * b1) + wrap h (a1 * b0)) ltac:(lia)) as [??].
    nia.
Qed.
Lemma mul_u_half_high a b : fst (mul_u_half F a b) = mulhu_gen F a b.
Proof. reflexivity. Qed.
Lemma mul_u_half_ok a b : fits F a -> fits F b -> mul_ok (mul_u_half F a b) a b.
Proof.
  intros Ha Hb. pose proof (mul_u_half_high a b) as E1. pose proof (mul_u_half_low a b Ha Hb) as E2.
  destruct (mul_u_half F a b) as [hi lo]. cbn [fst snd] in E1, E2. subst lo.
  destruct F_half as (h & EF & Hh). rewrite EF, mulhu_gen_high, <- EF in E1 by (rewrite <- ?EF; done).
  assert (hi = wrap F ((a * b) ≫ F)) as ->.
  { rewrite E1. symmetry. apply wrap_fits, high_fits; [lia|done|done]. }
  repeat split; try (apply fits_wrap; lia). cbn [fst snd].
  apply pair_val_split; [lia|]. by apply prod_fits.
Qed.

(** ** Division *)
Definition divrem_ok (r : Z * Z) (a1 a0 b : Z) : Prop :=
  r = (pair_val F a1 a0 / b, pair_val F a1 a0 mod b) /\ fits F r.1 /\ fits F r.2.
Lemma quot_fits a1 a0 b : fits F a1 -> fits F a0 -> fits F b -> a1 < b ->
  fits F (pair_val F a1 a0 / b) /\ fits F (pair_val F a1 a0 mod b).
Proof.
  intros [??] [??] [??] Hlt. unfold pair_val.
  pose proof (Z.mod_pos_bound (a1 * 2 ^ F + a0) b ltac:(lia)).
  split; (split; [|]); try lia; [apply Z.div_pos; nia|apply Z.div_lt_upper_bound; nia].
Qed.

(** One step of the restoring division: the remainder [a1] and the next bit [t]. *)
Lemma div_step a1 t b : 0 <= a1 < b -> fits F b -> 0 <= t <= 1 ->
  let ab := a1 ≫ (F - 1) in
  let x := wrap F (a1 ≪ 1) .| t in
  let q := nonzero ab || (b <=? x) in
  (if q then wrap F (x - b) else x) = (2 * a1 + t) mod b /\
  bit q = (2 * a1 + t) / b.
Proof.
  intros [Ha0 Hab] [Hb0 Hb] Ht ab x q.
  assert (HF1 : 2 ^ F = 2 * 2 ^ (F - 1)) by (apply pow2_half; lia).
  assert (Hx : x = wrap F (2 * a1) + t).
  { unfold x. rewrite Z.shiftl_mul_pow2, Z.pow_1_r, (Z.mul_comm a1) by lia.
    assert (exists y, wrap F (2 * a1) = y ≪ 1) as [y Hy].
    { exists (wrap (F - 1) a1). rewrite Z.shiftl_mul_pow2, Z.pow_1_r by lia.
      unfold wrap. rewrite HF1, Z.mul_mod_distr_l by lia. lia. }
    rewrite Hy, lor_disjoint by (unfold fits; lia). by rewrite Z.shiftl_mul_pow2 by lia. }
  assert (Hab' : nonzero ab = (2 ^ (F - 1) <=? a1)).
  { unfold ab, nonzero. rewrite Z.shiftr_div_pow2 by lia.
    destruct (Z.leb_spec (2 ^ (F - 1)) a1).
    - pose proof (Z.div_le_lower_bound a1 (2 ^ (F - 1)) 1). destruct (Z.eqb_spec (a1 / 2 ^ (F - 1)) 0); lia.
    - rewrite Z.div_small by lia. done. }
  unfold q. rewrite Hab', Hx. clear q ab x Hx Hab'. unfold bit.
  destruct (Z.leb_spec (2 ^ (F - 1)) a1); cbn [orb].
  - split.
    + rewrite (wrap_eq F _ (2 * a1 + t - b) (- (2 * a1 / 2 ^ F))).
      * rewrite wrap_fits by (split; lia).
        symmetry. replace (2 * a1 + t) with (2 * a1 + t - b + 1 * b) at 1 by lia.
        rewrite Z.mod_add by lia. apply Z.mod_small. lia.
      * lia.
      * unfold wrap. pose proof (Z.div_mod (2 * a1) (2 ^ F) ltac:(lia)). lia.
    + apply (Z.div_unique _ _ _ (2 * a1 + t - b)); lia.
  - rewrite (wrap_fits F (2 * a1)) by (split; lia).
    destruct (Z.leb_spec b (2 * a1 + t)).
    + rewrite wrap_fits by (split; lia). split.
      * replace (2 * a1 + t) with (2 * a1 + t - b + 1 * b) at 2 by lia.
        rewrite Z.mod_add by lia. symmetry. apply Z.mod_small. lia.
      * apply (Z.div_unique _ _ _ (2 * a1 + t - b)); lia.
    + rewrite Z.mod_small, Z.div_small by lia. done.
Qed.

(** [n] bits [x] of the dividend are left, [q] are the quotient bits so far. *)
Lemma divrem_loop_ok (n : nat) a1 x q b :
  Z.of_nat n <= F -> 0 <= a1 < b -> fits F b ->
  0 <= x < 2 ^ Z.of_nat n -> 0 <= q < 2 ^ (F - Z.of_nat n) ->
  divrem_u_loop F n a1 (x * 2 ^ (F - Z.of_nat n) + q) b =
  (q * 2 ^ Z.of_nat n + (a1 * 2 ^ Z.of_nat n + x) / b, (a1 * 2 ^ Z.of_nat n + x) mod b).
Proof.
  revert a1 x q. induction n as [|n IH]; intros a1 x q Hn Ha Hb Hx Hq.
  { cbn [divrem_u_loop]. change (Z.of_nat 0) with 0 in *. rewrite Z.pow_0_r in *.
    assert (x = 0) as -> by lia. rewrite Z.mul_0_l, !Z.mul_1_r, !Z.add_0_r, !Z.add_0_l.
    by rewrite Z.div_small, Z.mod_small, Z.add_0_r by lia. }
  replace (Z.of_nat (S n)) with (Z.of_nat n + 1) in * by lia. set (k := Z.of_nat n) in *.
  assert (0 <= k) by lia.
  set (P := 2 ^ k). assert (HP : 0 < P) by (apply pow2_pos; lia).
  assert (2 ^ (k + 1) = 2 * P) as EP by (unfold P; rewrite Z.pow_add_r by lia; lia).
  set (R := 2 ^ (F - (k + 1))) in *. assert (HR : 0 < R) by (apply pow2_pos; lia).
  assert (2 ^ (F - k) = 2 * R) as ER.
  { unfold R. replace (F - k) with (F - (k + 1) + 1) by lia. rewrite Z.pow_add_r by lia. lia. }
  assert (2 ^ (F - 1) = P * R) as EPR.
  { unfold P, R. rewrite <- Z.pow_add_r by lia. f_equal. lia. }
  assert (2 ^ F = 2 * P * R) as EF by (rewrite pow2_half by lia; rewrite EPR; lia).
  rewrite EP in *. assert (EPk : 2 ^ k = P) by reflexivity. clearbody P R.
  set (t := x / P). assert (0 <= t <= 1).
  { unfold t. split; [apply Z.div_pos; lia|]. enough (x / P < 2) by lia. apply Z.div_lt_upper_bound; lia. }
  pose proof (Z.div_mod x P ltac:(lia)) as Ex. fold t in Ex.
  set (x' := x mod P) in *. assert (0 <= x' < P) by (apply Z.mod_pos_bound; lia).
  assert ((x * R + q) ≫ (F - 1) = t) as Et.
  { rewrite Z.shiftr_div_pow2, EPR by lia. symmetry. apply (Z.div_unique_pos _ _ _ (x' * R + q)); nia. }
  destruct (div_step a1 t b Ha Hb ltac:(lia)) as [Er Eq]. cbv zeta in Er, Eq.
  cbn [divrem_u_loop]. cbv zeta. rewrite Et. rewrite Er.
  match goal with |- context [bit ?b0] => set (q0 := bit b0) in * end.
  assert (Hq0 : 0 <= q0 <= 1).
  { rewrite Eq. split; [apply Z.div_pos; lia|].
    enough ((2 * a1 + t) / b < 2) by lia. apply Z.div_lt_upper_bound; lia. }
  clearbody q0.
  assert (wrap F ((x * R + q) ≪ 1) .| q0 = x' * (2 * R) + (2 * q + q0)) as ->.
  { rewrite Z.shiftl_mul_pow2, Z.pow_1_r by lia.
    rewrite (wrap_eq F _ ((x' * R + q) * 2) t) by (try lia; rewrite EF; nia).
    rewrite wrap_fits by (split; [nia|rewrite EF; nia]).
    change 2 with (2 ^ 1) at 1. rewrite <- Z.shiftl_mul_pow2, lor_disjoint by (unfold fits; lia). lia. }
  pose proof (Z.mod_pos_bound (2 * a1 + t) b ltac:(lia)).
  specialize (IH ((2 * a1 + t) mod b) x' (2 * q + q0)). fold k in IH.
  rewrite ER, EPk in IH.
  rewrite IH by (exact Hb || lia). rewrite Eq.
  pose proof (Z.div_mod (2 * a1 + t) b ltac:(lia)) as Ed.
  set (d := (2 * a1 + t) / b) in *. set (m := (2 * a1 + t) mod b) in *.
  replace (a1 * (2 * P) + x) with (m * P + x' + (d * P) * b) by nia.
  rewrite Z.div_add, Z.mod_add by lia. f_equal. lia.
Qed.

Lemma divrem_u_half_ok a1 a0 b : fits F a1 -> fits F a0 -> fits F b -> a1 < b ->
  exists r, (forall fl : Z, divrem_u_half F a1 a0 b fl = Ok r fl) /\ divrem_ok r a1 a0 b.
Proof.
  intros H1 H0 Hb Hlt. unfold divrem_u_half. rewrite (proj2 (Z.ltb_lt _ _) Hlt).
  eexists. split; [reflexivity|].
  pose proof (divrem_loop_ok (Z.to_nat F) a1 a0 0 b) as E. rewrite Z2Nat.id in E by lia.
  rewrite Z.sub_diag, Z.pow_0_r, Z.mul_1_r, Z.add_0_r, Z.mul_0_l, Z.add_0_l in E.
  unfold divrem_ok. rewrite E by (unfold fits in *; lia). split; [done|]. by apply quot_fits.
Qed.
Lemma divrem_u_ulong_ok a1 a0 b : fits F a1 -> fits F a0 -> fits F b -> a1 < b ->
  exists r, (forall fl : Z, divrem_u_ulong F a1 a0 b fl = Ok r fl) /\ divrem_ok r a1 a0 b.
Proof.
  intros H1 H0 Hb Hlt. unfold divrem_u_ulong. cbv zeta. rewrite wide_pair by (done || lia).
  destruct (quot_fits a1 a0 b) as [Hq Hr]; [done..|].
  eexists. split; [reflexivity|]. unfold divrem_ok. by rewrite !wrap_fits.
Qed.
End Wide.

(** ** Square root: Newton's iteration

    From above, an iteration at least halves the distance to the root, and stays
    above it; it stops exactly at the root. *)
Lemma newton_step a u : 0 <= a -> 1 <= u -> Z.sqrt a <= u ->
  let u' := (a / u + u) / 2 in
  Z.sqrt a <= u' /\ (u <= u' <-> u = Z.sqrt a) /\
  (u <> Z.sqrt a -> 2 * (u' - Z.sqrt a) <= u - Z.sqrt a).
Proof.
  intros Ha Hu Hs u'. pose proof (Z.sqrt_spec a Ha) as [Hlo Hhi].
  set (s := Z.sqrt a) in *. clearbody s.
  assert (2 * s - u <= a / u) by (apply Z.div_le_lower_bound; nia).
  assert (s <= u') by (unfold u'; apply Z.div_le_lower_bound; lia).
  split; [done|]. destruct (Z.eq_dec u s) as [->|Hne]; [lia|].
  assert (a / u <= s) by (apply Z.lt_succ_r, Z.div_lt_upper_bound; nia).
  pose proof (Z.mul_div_le (a / u + u) 2 ltac:(lia)) as Hd. fold u' in Hd. lia.
Qed.

Section Sqrt.
Context (F : Z) (HF : F = 32 \/ F = 64 \/ F = 128).

Lemma quot_above a u : 0 <= a -> Z.sqrt a <= u -> 1 <= u -> 0 <= a / u <= u + 2.
Proof.
  intros Ha Hs Hu. pose proof (Z.sqrt_spec a Ha) as [_ Hhi]. pose proof (Z.sqrt_nonneg a).
  assert (Z.succ (Z.sqrt a) * Z.succ (Z.sqrt a) <= (u + 1) * (u + 1))
    by (apply Z.mul_le_mono_nonneg; lia).
  split; [apply Z.div_pos; lia|]. apply Z.lt_succ_r, Z.div_lt_upper_bound; lia.
Qed.
Lemma newton_sum_wide a u : fits (2 * F) a -> Z.sqrt a <= u <= 2 ^ F -> 1 <= u ->
  fits (2 * F) (a / u + u).
Proof.
  intros [Ha Hlt] [Hs Hu] Hu1. pose proof (quot_above a u Ha Hs Hu1).
  assert (2 ^ 5 <= 2 ^ F) by (apply Z.pow_le_mono_r; lia).
  split; [lia|]. replace (2 * F) with (F + F) by lia. rewrite Z.pow_add_r by lia. nia.
Qed.

(** [K] is 2^(F-1): the words that sqrt_sf passes are far enough from the bound. *)
Lemma newton_sum_half a u : 0 <= a <= 2 ^ (F - 1) * 2 ^ (F - 1) - 2 ->
  Z.sqrt a <= u <= 2 ^ (F - 1) -> 1 <= u -> fits F (a / u + u).
Proof.
  intros [Ha Hlt] [Hs Hu] Hu1. pose proof (quot_above a u Ha Hs Hu1).
  unfold fits. rewrite (pow2_half F) by lia. set (K := 2 ^ (F - 1)) in *. clearbody K.
  pose proof (Z.mul_div_le a u ltac:(lia)). split; [lia|].
  set (q := a / u) in *. clearbody q. destruct (Z_lt_le_dec (q + u) (2 * K)); [lia|].
  assert ((2 * K - u) * u <= q * u) by nia. assert (K - 1 <= u) by lia.
  assert (u = K \/ u = K - 1) as [->| ->] by lia; nia.
Qed.

Lemma sqrt_pos a : 0 < a -> 1 <= Z.sqrt a.
Proof. intros. pose proof (Z.sqrt_pos a). lia. Qed.

Lemma sqrt_loop_ok fuel a u (fl : Z) : fits (2 * F) a -> 0 < a ->
  Z.sqrt a <= u <= 2 ^ F -> u - Z.sqrt a < 2 ^ Z.of_nat fuel ->
  sqrt_loop F (S fuel) a u fl = Ok (Z.sqrt a) fl.
Proof.
  intros Ha Hpos. revert u. induction fuel as [|fuel IH]; intros u Hu Hd.
  all: pose proof (sqrt_pos a Hpos); destruct (newton_step a u) as (H1 & H2 & H3); [lia..|].
  all: pose proof (newton_sum_wide a u Ha Hu ltac:(lia)) as Hf.
  all: cbn [sqrt_loop]; cbv zeta; rewrite (wrap_fits (2 * F)) by done.
  all: destruct (Z.leb_spec u ((a / u + u) / 2)) as [Hle|Hgt].
  all: try (apply H2 in Hle as ->; reflexivity).
  - change (2 ^ Z.of_nat 0) with 1 in Hd. lia.
  - apply IH; [lia|]. replace (Z.of_nat (S fuel)) with (Z.of_nat fuel + 1) in Hd by lia.
    rewrite Z.pow_add_r in Hd by lia. lia.
Qed.

Lemma high_word_below a1 a0 u : 0 <= a1 -> 0 <= a0 -> 1 <= u <= 2 ^ (F - 1) ->
  Z.sqrt (pair_val F a1 a0) <= u -> a1 < u.
Proof.
  intros H1 H0 Hu Hs. unfold pair_val in Hs. rewrite (pow2_half F) in Hs by lia.
  pose proof (pow2_pos (F - 1) ltac:(lia)).
  assert (2 ^ 5 <= 2 ^ (F - 1)) by (apply Z.pow_le_mono_r; lia).
  pose proof (quot_above (a1 * (2 * 2 ^ (F - 1)) + a0) u ltac:(nia) Hs ltac:(lia)) as [_ Hq].
  set (K := 2 ^ (F - 1)) in *. clearbody K.
  destruct (Z_lt_le_dec a1 u) as [|Hge]; [done|].
  assert (2 * K <= (a1 * (2 * K) + a0) / u) by (apply Z.div_le_lower_bound; nia). lia.
Qed.

Lemma sqrt_loop_half_ok fuel a1 a0 u (fl : Z) : let a := pair_val F a1 a0 in
  fits F a1 -> fits F a0 -> 0 < a <= 2 ^ (F - 1) * 2 ^ (F - 1) - 2 ->
  Z.sqrt a <= u <= 2 ^ (F - 1) -> u - Z.sqrt a < 2 ^ Z.of_nat fuel ->
  sqrt_loop_half F (S fuel) a1 a0 u fl = Ok (Z.sqrt a) fl.
Proof.
  intros a F1 F0 Hpos. revert u. induction fuel as [|fuel IH]; intros u Hu Hd.
  all: pose proof (sqrt_pos a ltac:(lia)); destruct (newton_step a u) as (H1 & H2 & H3); [lia..|].
  all: pose proof (newton_sum_half a u ltac:(lia) Hu ltac:(lia)) as Hf.
  all: assert (fits F u) by (split; [|rewrite (pow2_half F)]; lia).
  all: pose proof (high_word_below a1 a0 u (proj1 F1) (proj1 F0) ltac:(lia) (proj1 Hu)).
  all: destruct (divrem_u_half_ok F HF a1 a0 u) as (r & Hr & -> & _); [done..|].
  all: cbn [sqrt_loop_half]; cbv zeta; unfold mbind at 1, M_bind at 1; rewrite Hr; fold a.
  all: rewrite (wrap_fits F) by done.
  all: destruct (Z.leb_spec u ((a / u + u) / 2)) as [Hle|Hgt].
  all: try (apply H2 in Hle as ->; reflexivity).
  - change (2 ^ Z.of_nat 0) with 1 in Hd. lia.
  - apply IH; [lia|]. replace (Z.of_nat (S fuel)) with (Z.of_nat fuel + 1) in Hd by lia.
    rewrite Z.pow_add_r in Hd by lia. lia.
Qed.

(** From a power of two below the root the iteration stops at once. *)
Lemma newton_below a u : 0 < u -> u * u <= a -> u <= (a / u + u) / 2.
Proof.
  intros Hu Ha. assert (u <= a / u) by (apply Z.div_le_lower_bound; lia). apply Z.div_le_lower_bound; lia.
Qed.
Lemma sqrt_loop_below fuel a u (fl : Z) : 0 < u -> u * u <= a -> fits (2 * F) (a / u + u) -> sqrt_loop F (S fuel) a u fl = Ok u fl.
Proof.
  intros Hu Ha Hf. cbn [sqrt_loop]. cbv zeta. rewrite wrap_fits by done.
  by rewrite (proj2 (Z.leb_le _ _)) by by apply newton_below.
Qed.
Lemma sqrt_loop_half_below fuel a1 a0 u (fl : Z) : let a := pair_val F a1 a0 in
  fits F a1 -> fits F a0 -> fits F u -> a1 < u -> 0 < u -> u * u <= a -> fits F (a / u + u) -> sqrt_loop_half F (S fuel) a1 a0 u fl = Ok u fl.
Proof.
  intros a F1 F0 Fu Hlt Hu Ha Hf. destruct (divrem_u_half_ok F HF a1 a0 u) as (r & Hr & -> & _); [done..|].
  cbn [sqrt_loop_half]. cbv zeta. unfold mbind at 1, M_bind at 1. rewrite Hr. fold a. rewrite wrap_fits by done.
  by rewrite (proj2 (Z.leb_le _ _)) by by apply newton_below.
Qed.

(** The start: a power of two that is above the root unless the high word is an even power of two
    and the low word is not zero. *)
Lemma clz_above w a : 0 <= w -> fits w a -> a < 2 ^ (w - clz w a).
Proof.
  intros Hw [??]. unfold clz. destruct (Z.eqb_spec a 0) as [->|]; [by apply pow2_pos; lia|].
  replace (w - (w - 1 - Z.log2 a)) with (Z.succ (Z.log2 a)) by lia. apply Z.log2_spec. lia.
Qed.
Definition even_power (ah : Z) : bool := (0 <? ah) && (ah =? 2 ^ Z.log2 ah) && Z.even (Z.log2 ah).
Lemma clz_pred_pow w j : 0 <= j -> clz w (2 ^ j - 1) = w - j.
Proof.
  intros Hj. unfold clz. destruct (Z.eq_dec j 0) as [->|]; [change (2 ^ 0 - 1) with 0; rewrite Z.eqb_refl; lia|].
  assert (2 ^ 1 <= 2 ^ j) by (apply Z.pow_le_mono_r; lia).
  rewrite (proj2 (Z.eqb_neq _ _)) by lia. replace (2 ^ j - 1) with (Z.pred (2 ^ j)) by lia. rewrite Z.log2_pred_pow2 by lia. lia.
Qed.
Lemma even_power_spec ah : even_power ah = true -> exists k, 0 <= k /\ Z.log2 ah = 2 * k /\ ah = 2 ^ (2 * k).
Proof.
  unfold even_power. intros [[H1 H2]%andb_true_iff [k Hk]%Z.even_spec]%andb_true_iff. apply Z.eqb_eq in H2.
  pose proof (Z.log2_nonneg ah). exists k. rewrite <- Hk. split; [lia|done].
Qed.
Lemma even_power_no ah l : even_power ah = false -> 0 < ah -> 0 <= l -> ah <= 2 ^ (2 * l) -> ah < 2 ^ (2 * l).
Proof.
  unfold even_power. intros H Hp Hl Hle. destruct (Z.eq_dec ah (2 ^ (2 * l))) as [->|]; [|lia].
  rewrite Z.log2_pow2, Z.eqb_refl, (proj2 (Z.ltb_lt _ _)) in H by lia. rewrite Z.even_even in H. done.
Qed.
Lemma sqrt_below_start a l : 0 <= a -> 0 <= l -> a <= 2 ^ l -> Z.sqrt a <= 2 ^ ((l + 1) / 2).
Proof.
  intros Ha Hl Hle. set (k := (l + 1) / 2).
  assert (0 <= k /\ l <= k + k) as [Hk Hlk].
  { unfold k. Z.to_euclidean_division_equations. lia. }
  assert (2 ^ l <= 2 ^ k * 2 ^ k) by (rewrite <- Z.pow_add_r by lia; apply Z.pow_le_mono_r; lia).
  rewrite <- (Z.sqrt_square (2 ^ k)) by (pose proof (pow2_pos k); lia).
  apply Z.sqrt_le_mono. lia.
Qed.

Definition sqrt_root (ah al : Z) : Z := if even_power ah then 2 ^ ((F + Z.log2 ah) / 2) else Z.sqrt (pair_val F ah al).
Lemma F_even : exists h, F = 2 * h /\ 16 <= h.
Proof. destruct HF as [->|[->| ->]]; [exists 16|exists 32|exists 64]; lia. Qed.
Lemma sqrt_start_ok ah al : fits F ah -> fits F al -> 0 < pair_val F ah al ->
  exists l, 0 <= l /\ sqrt_start F ah al = (l + 1) / 2 /\ (l <= F \/ (F <= l /\ l - F <= F - clz F (ah - 1))) /\
    (if even_power ah then (l + 1) / 2 = (F + Z.log2 ah) / 2 else Z.sqrt (pair_val F ah al) <= 2 ^ ((l + 1) / 2)).
Proof.
  intros Hh Hl Hpos. destruct F_even as (h & EF & Hh16). unfold sqrt_start. pose proof (pow2_pos F ltac:(lia)).
  destruct (Z.eq_dec ah 0) as [->|Hne]; cbn [nonzero negb].
  - change (nonzero 0) with false. change (even_power 0) with false. unfold pair_val in *.
    assert (fits F (al - 1)) as Hf by (unfold fits in *; lia).
    exists (F - clz F (al - 1)). pose proof (clz_range F _ ltac:(lia) Hf).
    pose proof (clz_above F _ ltac:(lia) Hf). split; [lia|]. split; [done|]. split; [lia|].
    apply sqrt_below_start; lia.
  - assert (fits F (ah - 1)) as Hf by (unfold fits in *; lia).
    assert (nonzero ah = true) as -> by (unfold nonzero; by destruct (Z.eqb_spec ah 0)).
    set (m := F - clz F (ah - 1)). pose proof (clz_range F _ ltac:(lia) Hf). pose proof (clz_above F _ ltac:(lia) Hf) as Hm. fold m in Hm.
    exists (F + m). split; [lia|]. split; [f_equal; lia|]. split; [lia|].
    destruct (even_power ah) eqn:E.
    + destruct (even_power_spec ah E) as (k & Hk & El & Ea). unfold m. rewrite El, Ea, clz_pred_pow by lia.
      replace (F + (F - (F - 2 * k)) + 1) with ((h + k) * 2 + 1) by lia. replace (F + 2 * k) with ((h + k) * 2) by lia.
      rewrite Z.div_mul, Z.div_add_l by lia. change (1 / 2) with 0. lia.
    + set (n := (F + m + 1) / 2). assert (exists k, 0 <= k /\ n = h + k /\ m <= 2 * k) as (k & Hk & En & Hmk).
      { exists (n - h). unfold n. Z.to_euclidean_division_equations. lia. }
      assert (ah < 2 ^ (2 * k)) as Hlt.
      { apply even_power_no; try done; [unfold fits in *; lia|]. assert (2 ^ m <= 2 ^ (2 * k)) by (apply Z.pow_le_mono_r; lia). lia. }
      assert (pair_val F ah al <= 2 ^ n * 2 ^ n) as Hle.
      { rewrite <- Z.pow_add_r, En by lia. replace (h + k + (h + k)) with (2 * k + F) by lia. rewrite Z.pow_add_r by lia.
        unfold pair_val, fits in *. nia. }
      rewrite <- (Z.sqrt_square (2 ^ n)) by (pose proof (pow2_pos n); lia). by apply Z.sqrt_le_mono.
Qed.

(** The values for a high word that is an even power of two *)
Lemma even_root ah al : fits F ah -> fits F al -> even_power ah = true -> exists m, (F + Z.log2 ah) / 2 = m /\ 16 <= m < F /\
  Z.log2 ah < m /\ ah = 2 ^ Z.log2 ah /\ 2 * m = F + Z.log2 ah /\ pair_val F ah al = 2 ^ m * 2 ^ m + al.
Proof.
  intros [_ Hh] Hl E. destruct (even_power_spec ah E) as (k & Hk & El & Ea). destruct F_even as (h & EF & Hh16).
  assert (2 * k < F). { rewrite Ea in Hh. apply Z.pow_lt_mono_r_iff in Hh; lia. }
  exists (h + k). rewrite El. replace (F + 2 * k) with ((h + k) * 2) by lia. rewrite Z.div_mul by lia. split; [done|].
  split; [lia|]. split; [lia|]. split; [done|]. split; [lia|]. unfold pair_val. rewrite <- Z.pow_add_r by lia.
  replace (h + k + (h + k)) with (2 * k + F) by lia. rewrite Z.pow_add_r, <- Ea by lia. done.
Qed.

Definition sqrt_ok (r : Z * bool) (ah al : Z) : Prop :=
  let root := sqrt_root ah al in r = (root, negb (root * root =? pair_val F ah al)) /\ fits F root.

Lemma sqrt_root_high ah : fits F ah -> sqrt_root ah 0 = Z.sqrt (pair_val F ah 0).
Proof.
  intros Hh. unfold sqrt_root. destruct (even_power ah) eqn:E; [|done].
  destruct (even_root ah 0 Hh ltac:(apply fits_0; lia) E) as (m & -> & ? & _ & _ & _ & ->).
  rewrite Z.add_0_r, Z.sqrt_square; [done|apply Z.pow_nonneg; lia].
Qed.
Lemma sqrt_fits a : fits (2 * F) a -> fits F (Z.sqrt a).
Proof.
  intros [Ha Hlt]. pose proof (Z.sqrt_spec a Ha) as [Hlo _]. pose proof (Z.sqrt_nonneg a).
  replace (2 * F) with (F + F) in Hlt by lia. rewrite Z.pow_add_r in Hlt by lia.
  pose proof (pow2_pos F). split; [done|]. nia.
Qed.
Lemma start_bound l k : 0 <= l <= 2 * k -> 2 ^ ((l + 1) / 2) <= 2 ^ k.
Proof. intros. apply Z.pow_le_mono_r; [lia|]. apply Z.lt_succ_r, Z.div_lt_upper_bound; lia. Qed.
Lemma root_square a : 0 <= a -> 0 <= Z.sqrt a * Z.sqrt a <= a.
Proof.
  intros Ha. pose proof (Z.sqrt_spec a Ha) as [? _]. pose proof (Z.sqrt_nonneg a).
  split; [by apply Z.mul_nonneg_nonneg|done].
Qed.

Lemma sqrt_fuel_eq : sqrt_fuel F = S (Z.to_nat (F + 2)).
Proof. unfold sqrt_fuel. lia. Qed.
Lemma fuel_enough u s : 0 <= s -> u <= 2 ^ F -> u - s < 2 ^ Z.of_nat (Z.to_nat (F + 2)).
Proof.
  intros. rewrite Z2Nat.id by lia. enough (2 ^ F < 2 ^ (F + 2)) by lia. apply Z.pow_lt_mono_r; lia.
Qed.

Lemma pair_pos ah al : fits F ah -> fits F al ->
  negb (nonzero ah) && (al =? 0) = false -> 0 < pair_val F ah al.
Proof.
  unfold pair_val, nonzero. intros [??] [??] E. pose proof (pow2_pos F ltac:(lia)).
  destruct (Z.eqb_spec ah 0) as [->|]; [cbn in E; lia|]. nia.
Qed.

Lemma sqrtrem_u_ulong_ok ah al : fits F ah -> fits F al ->
  exists r, (forall fl : Z, sqrtrem_u_ulong F ah al fl = Ok r fl) /\ sqrt_ok r ah al.
Proof.
  intros Hh Hl. pose proof (pair_val_fits F ah al ltac:(lia) Hh Hl) as Ha.
  unfold sqrtrem_u_ulong. destruct (_ && _) eqn:E0.
  { unfold nonzero in E0. assert (ah = 0 /\ al = 0) as [-> ->] by lia.
    eexists. split; [reflexivity|]. split; [reflexivity|]. apply fits_0. lia. }
  cbv zeta. rewrite wide_pair by (done || lia). pose proof (pair_pos ah al Hh Hl E0) as Hpos.
  destruct (sqrt_start_ok ah al Hh Hl Hpos) as (l & Hl0 & -> & Hlb & Hst).
  assert (2 ^ ((l + 1) / 2) <= 2 ^ F) as Hb.
  { apply start_bound. destruct Hlb as [|[? Hlb]]; [lia|]. destruct (Z.eq_dec ah 0) as [->|]; [change (clz F (0 - 1)) with (F - 1 - 0) in Hlb; lia|].
    pose proof (clz_range F (ah - 1) ltac:(lia) ltac:(unfold fits in *; lia)). lia. }
  pose proof (pow2_pos ((l + 1) / 2) ltac:(apply Z.div_pos; lia)).
  rewrite Z.shiftl_mul_pow2, Z.mul_1_l by (apply Z.div_pos; lia).
  rewrite (wrap_fits (2 * F) (2 ^ _)).
  2:{ split; [lia|]. apply (Z.le_lt_trans _ (2 ^ F)); [lia|]. apply Z.pow_lt_mono_r; lia. }
  enough (fits F (sqrt_root ah al) /\ 0 <= sqrt_root ah al * sqrt_root ah al <= pair_val F ah al /\
    forall fl : Z, sqrt_loop F (sqrt_fuel F) (pair_val F ah al) (2 ^ ((l + 1) / 2)) fl = Ok (sqrt_root ah al) fl) as (Hf & Hs & Hr).
  { eexists. split; [|by split]. intros fl. unfold mbind, M_bind. rewrite Hr. unfold mret, M_ret. unfold fits in Ha.
    rewrite (wrap_fits F), !(wrap_fits (2 * F)) by (done || (split; lia) || (rewrite wrap_fits; split; lia)).
    do 2 f_equal. unfold nonzero. zcases. }
  unfold sqrt_root. destruct (even_power ah) eqn:E.
  - destruct (even_root ah al Hh Hl E) as (m & Em & Hm & _ & _ & _ & ->). rewrite Em in *. rewrite Hst in *.
    assert (2 ^ m < 2 ^ F) by (apply Z.pow_lt_mono_r; lia). assert (2 ^ 16 <= 2 ^ m) by (apply Z.pow_le_mono_r; lia). unfold fits in *.
    split; [lia|]. split; [nia|]. intros fl. rewrite sqrt_fuel_eq. apply sqrt_loop_below; [lia|lia|].
    rewrite Z.div_add_l by lia. pose proof (Z.div_pos al (2 ^ m)). pose proof (Z.div_le_upper_bound al (2 ^ m) al). split; [lia|].
    replace (2 * F) with (F + F) by lia. rewrite Z.pow_add_r by lia. nia.
  - pose proof (sqrt_fits _ Ha). split; [done|]. split; [apply root_square; lia|]. intros fl. rewrite sqrt_fuel_eq.
    pose proof (Z.sqrt_nonneg (pair_val F ah al)). apply sqrt_loop_ok; try apply fuel_enough; lia || done.
Qed.

(** Without a double-width type the high word must leave two bits free. *)
Definition not_top (ah al : Z) : Prop := pair_val F ah al <> 2 ^ (2 * F - 2) - 1.
Lemma half_bounds ah al : fits F ah -> fits F al -> not_top ah al -> ah < 2 ^ (F - 2) ->
  pair_val F ah al <= 2 ^ (F - 1) * 2 ^ (F - 1) - 2.
Proof.
  unfold not_top. replace (2 * F - 2) with (F - 2 + F) by lia. rewrite Z.pow_add_r by lia.
  intros [??] [??] Hz Hlt. unfold pair_val in *. rewrite <- Z.pow_add_r by lia.
  replace (F - 1 + (F - 1)) with (F - 2 + F) by lia. rewrite Z.pow_add_r by lia. nia.
Qed.
Lemma mul_u_half_square s a1 a0 : fits F s -> fits F a1 -> fits F a0 ->
  (let (h, l) := mul_u_half F s s in negb (l =? a0) || negb (h =? a1)) =
  negb (s * s =? pair_val F a1 a0).
Proof.
  intros Hs H1 H0. destruct (mul_u_half_ok F HF s s Hs Hs) as (Fh & Fl & E).
  destruct (mul_u_half F s s) as [h l]. cbn [fst snd] in *. rewrite <- E. clear E Hs.
  unfold pair_val, fits in *. pose proof (pow2_pos F ltac:(lia)).
  destruct (Z.eqb_spec l a0) as [->|]; destruct (Z.eqb_spec h a1) as [->|]; cbn [negb orb];
    symmetry; zcases; nia.
Qed.
Lemma sqrtrem_u_half_ok ah al : fits F ah -> fits F al -> not_top ah al -> ah < 2 ^ (F - 2) ->
  exists r, (forall fl : Z, sqrtrem_u_half F ah al fl = Ok r fl) /\ sqrt_ok r ah al.
Proof.
  intros Hh Hl Hz Hlt. pose proof (pair_val_fits F ah al ltac:(lia) Hh Hl) as Ha.
  unfold sqrtrem_u_half. destruct (_ && _) eqn:E0.
  { unfold nonzero in E0. assert (ah = 0 /\ al = 0) as [-> ->] by lia.
    eexists. split; [reflexivity|]. split; [reflexivity|]. apply fits_0. lia. }
  pose proof (pair_pos ah al Hh Hl E0) as Hpos. pose proof (half_bounds ah al Hh Hl Hz Hlt) as Hb.
  destruct (sqrt_start_ok ah al Hh Hl Hpos) as (l & Hl0 & -> & Hlb & Hst).
  assert (2 ^ ((l + 1) / 2) <= 2 ^ (F - 1)) as Hs.
  { apply start_bound. destruct Hlb as [|[? Hlb]]; [lia|].
    destruct (Z.eq_dec ah 0) as [->|]; [change (clz F (0 - 1)) with (F - 1 - 0) in Hlb; lia|].
    pose proof (clz_bound F (ah - 1) (F - 2) ltac:(lia) ltac:(lia)) as Hc. unfold fits in *. lia. }
  pose proof (pow2_pos ((l + 1) / 2) ltac:(apply Z.div_pos; lia)).
  rewrite Z.shiftl_mul_pow2, Z.mul_1_l by (apply Z.div_pos; lia).
  assert (2 ^ (F - 1) < 2 ^ F) by (apply Z.pow_lt_mono_r; lia). rewrite (wrap_fits F (2 ^ _)) by (split; lia).
  enough (fits F (sqrt_root ah al) /\
    forall fl : Z, sqrt_loop_half F (sqrt_fuel F) ah al (2 ^ ((l + 1) / 2)) fl = Ok (sqrt_root ah al) fl) as (Hf & Hr).
  { eexists. split; [|split; [reflexivity|exact Hf]]. intros fl. unfold mbind, M_bind. rewrite Hr.
    rewrite <- mul_u_half_square by done. by destruct (mul_u_half F _ _). }
  unfold sqrt_root. destruct (even_power ah) eqn:E.
  - destruct (even_root ah al Hh Hl E) as (m & Em & Hm & Hjm & Eah & E2m & Epv). rewrite Em in *. rewrite Hst in *.
    assert (Z.log2 ah < F - 2). { rewrite Eah in Hlt. apply Z.pow_lt_mono_r_iff in Hlt; [done|lia|lia]. }
    assert (2 ^ m <= 2 ^ (F - 2)) by (apply Z.pow_le_mono_r; lia). assert (2 ^ 16 <= 2 ^ m) by (apply Z.pow_le_mono_r; lia).
    assert (2 ^ F = 4 * 2 ^ (F - 2)) as E4 by (replace F with (2 + (F - 2)) at 1 by lia; rewrite Z.pow_add_r by lia; done).
    assert (ah < 2 ^ m) by (rewrite Eah; apply Z.pow_lt_mono_r; lia). unfold fits in *.
    split; [lia|]. intros fl. rewrite sqrt_fuel_eq. apply sqrt_loop_half_below; try (unfold fits; lia).
    rewrite Epv, Z.div_add_l by lia. pose proof (Z.div_pos al (2 ^ m)).
    assert (al / 2 ^ m < 2 ^ (F - 2)) by (apply Z.div_lt_upper_bound; nia). unfold fits. lia.
  - pose proof (sqrt_fits _ Ha). split; [done|]. intros fl. rewrite sqrt_fuel_eq.
    pose proof (Z.sqrt_nonneg (pair_val F ah al)). apply sqrt_loop_half_ok; try apply fuel_enough; lia || done.
Qed.
End Sqrt.

(** ** The functions the builds use *)
Section Build.
Context `{cfg : Config}.

Lemma mul_u_ok F a b : F = 32 \/ F = 64 \/ F = 128 -> fits F a -> fits F b ->
  mul_ok F (mul_u F a b) a b.
Proof.
  intros HF Ha Hb. unfold mul_u. destruct (has_ulong F);
    [by apply mul_u_ulong_ok|by apply mul_u_half_ok].
Qed.
Lemma divrem_u_ok F a1 a0 b : F = 32 \/ F = 64 \/ F = 128 ->
  fits F a1 -> fits F a0 -> fits F b -> a1 < b ->
  exists r, (forall fl : Z, divrem_u F a1 a0 b fl = Ok r fl) /\ divrem_ok F r a1 a0 b.
Proof.
  intros. unfold divrem_u. destruct (has_ulong F);
    [by apply divrem_u_ulong_ok|by apply divrem_u_half_ok].
Qed.
Lemma sqrtrem_u_ok F ah al : F = 32 \/ F = 64 \/ F = 128 ->
  fits F ah -> fits F al -> has_ulong F = true \/ (ah < 2 ^ (F - 2) /\ not_top F ah al) ->
  exists r, (forall fl : Z, sqrtrem_u F ah al fl = Ok r fl) /\ sqrt_ok F r ah al.
Proof.
  intros HF Ha Hl H. unfold sqrtrem_u. destruct (has_ulong F) eqn:E; [by apply sqrtrem_u_ulong_ok|].
  destruct H as [|[??]]; [done|]. by apply sqrtrem_u_half_ok.
Qed.

(** C4: for all operands, mul_u returns the exact product; divrem_u the quotient and the remainder of a pair of
    words whose high word is below the divisor, and otherwise, with a type of twice the width, the low word of the quotient, without one the failure of
    its assertion; sqrtrem_u the integer square root of a pair of words and whether it is inexact, except that for a high word that
    is an even power of two (1, 4, 16, ...) it returns the root of the pair with the low word cleared, and compares the square of that
    with the whole pair.  Without a type of twice the width sqrtrem_u has this result for high words below 2^(F-2), save the
    largest pair of these.  Newton's iteration ends. *)
Theorem wide_arithmetic_correct F a1 a0 b fl :
  F = 32 \/ F = 64 \/ F = 128 -> fits F a1 -> fits F a0 -> fits F b ->
  let a := a1 * 2 ^ F + a0 in
  (let (hi, lo) := mul_u F a0 b in fits F hi /\ fits F lo /\ hi * 2 ^ F + lo = a0 * b) /\
  (a1 < b -> divrem_u F a1 a0 b fl = Ok (a / b, a mod b) fl) /\
  (0 < b <= a1 -> divrem_u F a1 a0 b fl = if has_ulong F then Ok (wrap F (a / b), a mod b) fl else Stop StopAssert) /\
  (has_ulong F = true \/ (a1 < 2 ^ (F - 2) /\ a <> 2 ^ (2 * F - 2) - 1) ->
   let root := if (0 <? a1) && (a1 =? 2 ^ Z.log2 a1) && Z.even (Z.log2 a1) then Z.sqrt (a1 * 2 ^ F) else Z.sqrt a in
   sqrtrem_u F a1 a0 fl = Ok (root, negb (root * root =? a)) fl).
Proof.
  intros HF H1 H0 Hb a. split; [|split; [|split]].
  - destruct (mul_u_ok F a0 b HF H0 Hb) as (P1 & P2 & P3). by destruct (mul_u F a0 b).
  - intros Hlt. destruct (divrem_u_ok F a1 a0 b HF H1 H0 Hb Hlt) as (r & Hr & -> & _). apply Hr.
  - intros Hlt. unfold divrem_u. destruct (has_ulong F).
    + unfold divrem_u_ulong. cbv zeta. rewrite wide_pair by (done || lia). unfold pair_val. fold a.
      rewrite (wrap_fits F (a mod b)); [done|]. pose proof (Z.mod_pos_bound a b). unfold fits in *. lia.
    + unfold divrem_u_half. by rewrite (proj2 (Z.ltb_ge _ _)) by lia.
  - intros Hc. destruct (sqrtrem_u_ok F a1 a0 HF H1 H0 Hc) as (r & Hr & -> & _). rewrite Hr.
    unfold sqrt_root. change (pair_val F a1 a0) with a. fold (even_power a1). destruct (even_power a1) eqn:E; [|done].
    destruct (even_root F HF a1 a0 H1 H0 E) as (m & -> & Hm & _ & Ea & E2 & _).
    replace (a1 * 2 ^ F) with (2 ^ m * 2 ^ m); [by rewrite Z.sqrt_square by (apply Z.pow_nonneg; lia)|].
    rewrite Ea, <- !Z.pow_add_r by (lia || apply Z.log2_nonneg). f_equal. lia.
Qed.
End Build.

Lemma wide_arithmetic_correct_witness :
  @sqrtrem_u 64 cfg_rv64_js (2 ^ 61) 5 0 = Ok (6521908912666391106, true) 0 /\
  @sqrtrem_u 32 cfg_rv64_js 1 0xffffffff 0 = Ok (65536, true) 0 /\ Z.sqrt (pair_val 32 1 0xffffffff) = 92681 /\
  @divrem_u 64 cfg_rv64_js 1 7 3 0 = Ok (6148914691236517207, 2) 0.
Proof.
  destruct (@wide_arithmetic_correct cfg_rv64_js 64 (2 ^ 61) 5 3 0) as (_ & _ & _ & H);
    [auto|split; reflexivity || discriminate..|].
  destruct (@wide_arithmetic_correct cfg_rv64_js 32 1 0xffffffff 3 0) as (_ & _ & _ & H1);
    [auto|split; reflexivity || discriminate..|].
  destruct (@wide_arithmetic_correct cfg_rv64_js 64 1 7 3 0) as (_ & H' & _);
    [auto|split; reflexivity || discriminate..|].
  split; [rewrite H by (right; split; [reflexivity|vm_compute; discriminate]); vm_compute; reflexivity|].
  split; [rewrite H1 by (left; reflexivity); vm_compute; reflexivity|]. split; [vm_compute; reflexivity|].
  rewrite H' by reflexivity; vm_compute; reflexivity.
Defined.

(** The comment "2^l >= a" of sqrtrem_u does not hold when the high word is a power of two and the low word is not zero.
    Without a type of twice the width the largest pair below the bound runs into the assertion of divrem_u. *)
Lemma sqrtrem_u_top : sqrtrem_u_half 32 (2 ^ 30 - 1) (2 ^ 32 - 1) 0 = Stop StopAssert.
Proof. by vm_compute. Qed.
