(* ===== verification/FpInv.v ===== *)
(** * The floating-point operations return

    [returns R m]: from any flag word, the computation [m] returns a value in [R]
    and a flag word.  No assertion fails, and no iteration runs out of fuel. *)
From S2P Require Export SoftFpOps FpWide.

Section Returns.
Definition returns {A} (R : A -> Prop) (m : M Z A) : Prop :=
  forall fl, fits 32 fl -> wp m (fun _ => False) (fun v fl' => R v /\ fits 32 fl') fl.

Lemma returns_ret {A} (R : A -> Prop) v : R v -> returns R (mret v).
Proof. intros Hv fl Hfl. by apply wp_ret. Qed.
Lemma returns_bind {A B} (R : A -> Prop) (R' : B -> Prop) m k :
  returns R m -> (forall a, R a -> returns R' (k a)) -> returns R' (m ≫= k).
Proof.
  intros Hm Hk fl Hfl. apply wp_bind. eapply wp_mono; [by apply Hm|]. intros a fl' [??]. by apply Hk.
Qed.
Lemma returns_mono {A} (R R' : A -> Prop) m : (forall a, R a -> R' a) -> returns R m -> returns R' m.
Proof. intros HR Hm fl Hfl. eapply wp_mono; [by apply Hm|]. intros a fl' [??]. auto. Qed.
Lemma returns_if {A} (R : A -> Prop) (b : bool) m1 m2 :
  (b = true -> returns R m1) -> (b = false -> returns R m2) -> returns R (if b then m1 else m2).
Proof. destruct b; auto. Qed.
Lemma returns_flag f : fits 32 f -> returns (fun _ => True) (raise_flag f).
Proof. intros Hf fl Hfl. apply wp_modify. split; [done|]. by apply fits_lor. Qed.
Lemma returns_flag_if b f : fits 32 f -> returns (fun _ => True) (raise_flag_if b f).
Proof. intros. unfold raise_flag_if. destruct b; [by apply returns_flag|by apply returns_ret]. Qed.
Lemma returns_assert b : b = true -> returns (fun _ => True) (assert b).
Proof. intros ->. by apply returns_ret. Qed.
Lemma returns_pure {A} (R : A -> Prop) (m : M Z A) :
  (exists r, (forall fl, m fl = Ok r fl) /\ R r) -> returns R m.
Proof. intros (r & Hm & Hr) fl Hfl. unfold wp. by rewrite Hm. Qed.
End Returns.

Lemma fits_flags :
  fits 32 FFLAG_INVALID_OP /\ fits 32 FFLAG_DIVIDE_ZERO /\ fits 32 (FFLAG_OVERFLOW .| FFLAG_INEXACT) /\
  fits 32 FFLAG_UNDERFLOW /\ fits 32 FFLAG_INEXACT.
Proof. repeat split; vm_compute; congruence. Qed.

(** A walk over the tests of an operation; a returned value is left as a goal. *)
Ltac ret_step :=
  lazymatch goal with
  | |- returns _ (raise_flag_if _ _ ≫= _) =>
      eapply returns_bind; [apply returns_flag_if; apply fits_flags|intros _ _]
  | |- returns _ (raise_flag _ ≫= _) =>
      eapply returns_bind; [apply returns_flag; apply fits_flags|intros _ _]
  | |- returns _ (mret _) => apply returns_ret
  | |- returns _ (if _ then _ else _) => apply returns_if; intros ?
  end.
Ltac ret_steps := repeat ret_step.

Section Formats.
Context (F : Z) (HF : F = 32 \/ F = 64 \/ F = 128).

(** The sizes of the formats. *)
Lemma fmt_sizes :
  10 <= MANT_SIZE F /\ 5 <= EXP_SIZE F /\ 1 + EXP_SIZE F + MANT_SIZE F = F /\
  7 <= RND_SIZE F /\ RND_SIZE F + MANT_SIZE F + 2 = F.
Proof. by destruct HF as [->|[->| ->]]. Qed.
Lemma fu_fits x : fits F (fu F x).
Proof. apply fits_wrap. lia. Qed.
Lemma mask_range n : 0 <= n -> (1 ≪ n) - 1 = Z.ones n.
Proof. intros. rewrite Z.shiftl_mul_pow2, Z.ones_equiv by lia. lia. Qed.
Lemma fits_ones w n x : 0 <= n <= w -> fits w (x .& Z.ones n).
Proof. intros. rewrite Z.land_ones by lia. apply (fits_wrap_le w n). lia. Qed.
Lemma fits_mant_mask x : fits F (x .& MANT_MASK F).
Proof. pose proof fmt_sizes. unfold MANT_MASK. rewrite mask_range by lia. apply fits_ones. lia. Qed.
Lemma pack_fits s e m : fits F (pack_sf F s e m).
Proof. unfold pack_sf. repeat apply fits_lor; [apply fu_fits|apply fu_fits|apply fits_mant_mask]. Qed.
Lemma qnan_fits : fits F (F_QNAN F).
Proof. destruct HF as [->|[->| ->]]; split; vm_compute; congruence. Qed.

Lemma round_pack_returns s e m rm : returns (fits F) (round_pack_sf F s e m rm).
Proof. unfold round_pack_sf. cbv zeta. ret_steps; apply pack_fits. Qed.
Lemma normalize_returns s e m rm : fits (F - 1) m -> returns (fits F) (normalize_sf F s e m rm).
Proof.
  intros Hm. unfold normalize_sf. cbv zeta. unfold IMANT_SIZE.
  eapply returns_bind; [apply returns_assert|intros; apply round_pack_returns].
  pose proof (clz_bound F m (F - 1)). unfold fits in *.
  assert (2 ^ (F - 1) <= 2 ^ F) by (apply Z.pow_le_mono_r; lia). apply Z.leb_le. lia.
Qed.
Lemma normalize2_returns s e m1 m0 rm : fits (F - 1) m1 -> fits F m0 ->
  returns (fits F) (normalize2_sf F s e m1 m0 rm).
Proof.
  intros Hm Hm0. unfold normalize2_sf. cbv zeta. unfold IMANT_SIZE.
  eapply returns_bind; [apply returns_assert|intros; apply round_pack_returns].
  pose proof (clz_bound F m1 (F - 1)). pose proof (clz_range F m0 ltac:(lia) Hm0). unfold fits in *.
  assert (2 ^ (F - 1) <= 2 ^ F) by (apply Z.pow_le_mono_r; lia). apply Z.leb_le. case_if; lia.
Qed.

(** ** Operands *)
Lemma sf_mant_fits a : fits (MANT_SIZE F) (sf_mant F a).
Proof.
  pose proof fmt_sizes. unfold sf_mant, MANT_MASK. rewrite mask_range by lia. apply fits_ones. lia.
Qed.
Lemma shiftl_fits w k x : 0 <= w -> 0 <= k -> fits w x -> fits (w + k) (x ≪ k).
Proof.
  intros Hw Hk [??]. rewrite Z.shiftl_mul_pow2 by lia. pose proof (pow2_pos k Hk).
  split; [nia|]. rewrite Z.pow_add_r by lia. nia.
Qed.
Lemma fu_small w x : fits w x -> 0 <= w <= F -> fu F x = x.
Proof. intros. apply wrap_fits. eapply fits_mono; [eassumption|lia]. Qed.
Lemma fits_pow w k : 0 <= k < w -> fits w (1 ≪ k).
Proof.
  intros. rewrite Z.shiftl_mul_pow2, Z.mul_1_l by lia. pose proof (pow2_pos k).
  split; [lia|]. apply Z.pow_lt_mono_r; lia.
Qed.
Lemma bit_fits w b : 1 <= w -> fits w (bit b).
Proof. intros. apply (fits_mono 1); [destruct b; by split|lia]. Qed.
Lemma lor_ge x y : 0 <= x -> 0 <= y -> y <= x .| y.
Proof.
  intros Hx Hy. pose proof (Z.add_lor_land x y).
  enough (x .& y <= x) by lia. rewrite Z.land_comm. pose proof (land_range y x Hx). lia.
Qed.

(** A significand with its hidden bit. *)
Definition normal_mant (m : Z) : Prop := 2 ^ MANT_SIZE F <= m < 2 ^ (MANT_SIZE F + 1).
Lemma normal_mant_fits m : normal_mant m -> fits (MANT_SIZE F + 1) m.
Proof. intros [??]. pose proof fmt_sizes. pose proof (pow2_pos (MANT_SIZE F)). split; lia. Qed.

Lemma normalize_subnormal_ok m : fits (MANT_SIZE F) m -> m <> 0 ->
  normal_mant (fst (normalize_subnormal_sf F m)).
Proof.
  intros Hm Hne. pose proof fmt_sizes as (? & ? & ? & ? & ?). unfold normalize_subnormal_sf. cbn [fst].
  destruct Hm as [Hm0 Hm1]. rewrite clz_log2 by lia.
  replace (MANT_SIZE F - (F - 1 - (F - 1 - Z.log2 m))) with (MANT_SIZE F - Z.log2 m) by lia.
  pose proof (Z.log2_spec m ltac:(lia)) as [Hlo Hhi]. pose proof (Z.log2_nonneg m).
  assert (Z.log2 m < MANT_SIZE F) by (apply Z.log2_lt_pow2; lia).
  set (l := Z.log2 m) in *. set (M := MANT_SIZE F) in *.
  pose proof (pow2_pos (M - l) ltac:(lia)).
  assert (2 ^ M = 2 ^ l * 2 ^ (M - l)) as E by (rewrite <- Z.pow_add_r by lia; f_equal; lia).
  assert (2 ^ (M + 1) = 2 ^ Z.succ l * 2 ^ (M - l)) as E' by
    (rewrite <- Z.pow_add_r by lia; f_equal; lia).
  assert (2 ^ M <= m * 2 ^ (M - l) < 2 ^ (M + 1)) by nia.
  rewrite Z.shiftl_mul_pow2 by lia. unfold fu. rewrite wrap_fits.
  - done.
  - apply (fits_mono (M + 1)); [split; lia|lia].
Qed.
Lemma mant_exp_ok e m : fits (MANT_SIZE F) m -> is_zero e m = false ->
  normal_mant (fst (mant_exp F e m)).
Proof.
  intros Hm Hz. pose proof fmt_sizes as (? & ? & ? & ? & ?). unfold mant_exp, is_zero in *.
  destruct (Z.eqb_spec e 0).
  - apply normalize_subnormal_ok; [done|]. intros ->. done.
  - cbn [fst]. rewrite Z.lor_comm, lor_disjoint by (done || lia). unfold normal_mant.
    destruct Hm. rewrite Z.pow_add_r, Z.pow_1_r by lia. lia.
Qed.
(** The same with a significand that may be subnormal. *)
Lemma hidden_fits e m k : 0 <= k -> fits (MANT_SIZE F) m ->
  fits (MANT_SIZE F + k + 1) (if e =? 0 then m ≪ k else (m ≪ k) .| (1 ≪ (MANT_SIZE F + k))).
Proof.
  intros Hk Hm. pose proof fmt_sizes. pose proof (shiftl_fits (MANT_SIZE F) k m ltac:(lia) Hk Hm) as Hs.
  case_if; [|apply fits_lor; [|apply fits_pow; lia]];
    (eapply fits_mono; [exact Hs|lia]).
Qed.
Lemma rshift_rnd_fits w a d : 1 <= w -> 0 <= d -> fits w a -> fits w (rshift_rnd F a d).
Proof.
  intros Hw Hd Ha. unfold rshift_rnd. cbv zeta. repeat case_if; try done; [by apply bit_fits|].
  apply fits_lor; [by apply fits_shiftr|by apply bit_fits].
Qed.

(** Addition: the operands are sorted, so that the difference is not negative. *)
Lemma add_order a b : fits F a -> fits F b ->
  b .& Z.lnot (SIGN_MASK F) <= a .& Z.lnot (SIGN_MASK F) ->
  sf_exp F b < sf_exp F a \/ (sf_exp F b = sf_exp F a /\ sf_mant F b <= sf_mant F a).
Proof.
  pose proof fmt_sizes as (? & ? & ? & ? & ?).
  assert (forall x, fits F x -> x .& Z.lnot (SIGN_MASK F) = sf_exp F x * 2 ^ MANT_SIZE F + sf_mant F x) as Hx.
  { intros x Hx. rewrite <- lor_disjoint by (try apply sf_mant_fits; lia).
    apply Z.bits_inj'. intros i Hi.
    unfold SIGN_MASK, sf_exp, sf_mant, EXP_MASK, MANT_MASK. rewrite !mask_range by lia.
    rewrite Z.lor_spec, Z.shiftl_spec, !Z.land_spec, Z.lnot_spec by lia.
    rewrite (Z.testbit_ones_nonneg (MANT_SIZE F)), (Z.shiftl_mul_pow2 1), Z.mul_1_l, Z.pow2_bits_eqb by lia.
    destruct (Z_lt_le_dec i (MANT_SIZE F)).
    - rewrite (Z.testbit_neg_r _ (i - MANT_SIZE F)) by lia. zcases; btauto.
    - rewrite Z.shiftr_spec, Z.testbit_ones_nonneg by lia.
      replace (i - MANT_SIZE F + MANT_SIZE F) with i by lia.
      destruct (Z_lt_le_dec i F); [|rewrite (fits_testbit F x) by done; done].
      rewrite andb_comm. zcases; btauto. }
  intros Ha Hb. rewrite (Hx a Ha), (Hx b Hb). pose proof (sf_mant_fits a) as [??].
  pose proof (sf_mant_fits b) as [??]. nia.
Qed.

(** The significands that add_sf adds. *)
Lemma add_operand e m : fits (MANT_SIZE F) m ->
  let hidden := 1 ≪ (MANT_SIZE F + 3) in
  (if e =? 0 then fu F (m ≪ 3) else fu F (m ≪ 3) .| hidden) =
  m * 8 + (if e =? 0 then 0 else 2 ^ (MANT_SIZE F + 3)).
Proof.
  intros Hm hidden. pose proof fmt_sizes as (? & ? & ? & ? & ?).
  pose proof (shiftl_fits (MANT_SIZE F) 3 m ltac:(lia) ltac:(lia) Hm) as Hs.
  rewrite (fu_small (MANT_SIZE F + 3)) by (done || lia). case_if.
  - rewrite Z.shiftl_mul_pow2 by lia. lia.
  - unfold hidden. rewrite Z.lor_comm, lor_disjoint by (done || lia).
    rewrite Z.shiftl_mul_pow2 by lia. lia.
Qed.
Lemma rshift_rnd_less w a d : 1 <= w -> 0 < d -> fits (w + 1) a -> fits w (rshift_rnd F a d).
Proof.
  intros Hw Hd [Ha0 Ha1]. unfold rshift_rnd. cbv zeta. rewrite (proj2 (Z.eqb_neq d 0)) by lia. cbn [negb].
  case_if; [by apply bit_fits|]. apply fits_lor; [|by apply bit_fits].
  rewrite Z.shiftr_div_pow2 by lia.
  assert (2 ^ 1 <= 2 ^ d) by (apply Z.pow_le_mono_r; lia).
  split; [apply Z.div_pos; lia|]. apply Z.div_lt_upper_bound; [lia|].
  rewrite Z.pow_add_r in Ha1 by lia. nia.
Qed.

Lemma add_mant_returns ea eb ma mb sa sb rm e :
  fits (MANT_SIZE F) ma -> fits (MANT_SIZE F) mb -> 0 <= ea -> 0 <= eb ->
  eb < ea \/ (eb = ea /\ mb <= ma) ->
  let hidden := 1 ≪ (MANT_SIZE F + 3) in
  let xa := if ea =? 0 then fu F (ma ≪ 3) else fu F (ma ≪ 3) .| hidden in
  let ea' := if ea =? 0 then 1 else ea in
  let xb := if eb =? 0 then fu F (mb ≪ 3) else fu F (mb ≪ 3) .| hidden in
  let eb' := if eb =? 0 then 1 else eb in
  let xb := rshift_rnd F xb (ea' - eb') in
  let r := if sa =? sb then fu F (xa + xb) else fu F (xa - xb) in
  returns (fits F) (normalize_sf F (if negb (sa =? sb) && (r =? 0) then bit (rm =? RM_RDN) else sa)
    (ea' + e) r rm).
Proof.
  intros Fa Fb Ha Hb Hord hidden xa ea' xb0 eb' xb r. pose proof fmt_sizes as (? & ? & ? & ? & ?).
  apply normalize_returns. set (M := MANT_SIZE F) in *.
  assert (2 ^ M * 8 = 2 ^ (M + 3) /\ 2 ^ (M + 4) = 2 * 2 ^ (M + 3)) as [E3 E4] by
    (rewrite !Z.pow_add_r by lia; lia).
  assert (xa = ma * 8 + if ea =? 0 then 0 else 2 ^ (M + 3)) as Exa by apply (add_operand ea ma Fa).
  assert (xb0 = mb * 8 + if eb =? 0 then 0 else 2 ^ (M + 3)) as Exb by apply (add_operand eb mb Fb).
  clearbody xa xb0. unfold fits in Fa, Fb. fold M in Fa, Fb.
  assert (fits (M + 4) xa) by (subst; split; case_if; lia).
  assert (fits (M + 4) xb0) as Fxb by (subst xb0; split; case_if; lia).
  assert (0 <= xb <= xa) as Hle.
  { destruct (Z_lt_le_dec eb' ea') as [Hlt|Hge].
    - assert (fits (M + 3) xb) as [??] by
        (apply rshift_rnd_less; [lia|lia|by replace (M + 3 + 1) with (M + 4) by lia]).
      unfold ea', eb' in Hlt. revert Hlt Exa. zcases.
    - assert (xb = xb0) as ->.
      { unfold xb, rshift_rnd. replace (ea' - eb') with 0 by (unfold ea', eb' in *; revert Hge; zcases). done. }
      destruct Fxb. split; [done|]. subst xa xb0. unfold ea', eb' in *. revert Hge. zcases. }
  unfold r, fits. assert (2 ^ (M + 5) = 2 * 2 ^ (M + 4)) by (rewrite !Z.pow_add_r by lia; lia).
  assert (2 ^ (M + 5) <= 2 ^ (F - 1)) by (apply Z.pow_le_mono_r; lia).
  assert (2 ^ (F - 1) < 2 ^ F) by (apply Z.pow_lt_mono_r; lia). unfold fits in *.
  unfold fu. case_if; rewrite wrap_fits by (split; lia); lia.
Qed.

Lemma sf_exp_range a : 0 <= sf_exp F a.
Proof.
  pose proof fmt_sizes. apply land_range. unfold EXP_MASK. rewrite mask_range, Z.ones_equiv by lia.
  pose proof (pow2_pos (EXP_SIZE F)). lia.
Qed.

Lemma add_returns a b rm : fits F a -> fits F b -> returns (fits F) (add_sf F a b rm).
Proof.
  intros Fa Fb. unfold add_sf. cbv zeta.
  set (swap := _ <? _). set (x := if swap then b else a). set (y := if swap then a else b).
  assert (fits F x /\ fits F y) as [Fx Fy] by (unfold x, y; destruct swap; done).
  assert (y .& Z.lnot (SIGN_MASK F) <= x .& Z.lnot (SIGN_MASK F)) as Hord.
  { unfold x, y, swap. case_if; lia. }
  clearbody x y swap. pose proof (add_order x y Fx Fy Hord) as Hord'.
  ret_steps; try apply qnan_fits; try done.
  apply add_mant_returns; try apply sf_mant_fits; try apply sf_exp_range. done.
Qed.
Lemma sub_returns a b rm : fits F a -> fits F b -> returns (fits F) (sub_sf F a b rm).
Proof.
  intros Fa Fb. apply add_returns; [done|]. apply fits_lxor; [done|]. apply fits_pow. lia.
Qed.
End Formats.

Section Ops.
Context `{cfg : Config} (F : Z) (HF : F = 32 \/ F = 64 \/ F = 128).
Local Abbreviation normal_mant := (normal_mant F).

Lemma high_word_fits n hi lo v : 0 <= n -> fits F hi -> fits F lo -> pair_val F hi lo = v ->
  v < 2 ^ n * 2 ^ F -> fits n hi.
Proof.
  unfold pair_val, fits. intros Hn [??] [??] <- Hlt. pose proof (pow2_pos F ltac:(lia)).
  split; [lia|]. nia.
Qed.
Lemma shifted_mant m k : normal_mant m -> 0 <= k -> MANT_SIZE F + 1 + k <= F ->
  fu F (m ≪ k) = m * 2 ^ k /\ fits (MANT_SIZE F + 1 + k) (m * 2 ^ k).
Proof.
  intros Hm Hk Hle. pose proof (fmt_sizes F HF) as (? & ? & ? & ? & ?).
  pose proof (shiftl_fits (MANT_SIZE F + 1) k m ltac:(lia) Hk (normal_mant_fits F HF m Hm)) as Hs.
  rewrite (fu_small F (MANT_SIZE F + 1 + k)) by (done || lia).
  rewrite Z.shiftl_mul_pow2 in * by lia. done.
Qed.
Lemma prod_bound x y a b : 0 <= a -> 0 <= b -> fits a x -> fits b y -> x * y < 2 ^ a * 2 ^ b.
Proof. intros ? ? [??] [??]. nia. Qed.

Ltac sizes := pose proof (fmt_sizes F HF) as (? & ? & ? & ? & ?).
Ltac ret := ret_steps; try (by apply qnan_fits); try (by apply pack_fits); try done.

Lemma mul_returns a b rm : fits F a -> fits F b -> returns (fits F) (mul_sf F a b rm).
Proof.
  intros Fa Fb. unfold mul_sf. cbv zeta. ret. sizes.
  pose proof (mant_exp_ok F HF (sf_exp F a) (sf_mant F a) (sf_mant_fits F HF a) ltac:(done)) as Hma.
  destruct (mant_exp F (sf_exp F a) (sf_mant F a)) as [ma ea]. cbn [fst] in Hma. ret.
  pose proof (mant_exp_ok F HF (sf_exp F b) (sf_mant F b) (sf_mant_fits F HF b) ltac:(done)) as Hmb.
  destruct (mant_exp F (sf_exp F b) (sf_mant F b)) as [mb eb]. cbn [fst] in Hmb.
  destruct (shifted_mant ma (RND_SIZE F) Hma) as [-> Fx]; [lia..|].
  destruct (shifted_mant mb (RND_SIZE F + 1) Hmb) as [-> Fy]; [lia..|].
  replace (MANT_SIZE F + 1 + RND_SIZE F) with (F - 1) in Fx by lia.
  replace (MANT_SIZE F + 1 + (RND_SIZE F + 1)) with F in Fy by lia.
  pose proof (fits_mono _ F _ Fx ltac:(lia)) as Fx'.
  destruct (mul_u_ok F _ _ HF Fx' Fy) as (Fh & Fl & E).
  destruct (mul_u F _ _) as [hi lo]. cbn [fst snd] in *.
  apply normalize_returns; [done|]. apply fits_lor; [|apply bit_fits; lia].
  eapply high_word_fits; [lia|done|done|exact E|]. apply prod_bound; (lia || done).
Qed.

Lemma div_returns a b rm : fits F a -> fits F b -> returns (fits F) (div_sf F a b rm).
Proof.
  intros Fa Fb. unfold div_sf. cbv zeta. ret. sizes.
  pose proof (mant_exp_ok F HF (sf_exp F b) (sf_mant F b) (sf_mant_fits F HF b) ltac:(done)) as Hmb.
  destruct (mant_exp F (sf_exp F b) (sf_mant F b)) as [mb eb]. cbn [fst] in Hmb. ret.
  pose proof (mant_exp_ok F HF (sf_exp F a) (sf_mant F a) (sf_mant_fits F HF a) ltac:(done)) as Hma.
  destruct (mant_exp F (sf_exp F a) (sf_mant F a)) as [ma ea]. cbn [fst] in Hma.
  destruct (shifted_mant mb 2 Hmb) as [-> Fy]; [lia..|].
  pose proof (fits_mono _ F _ Fy ltac:(lia)) as Fy'.
  pose proof (fits_mono _ F _ (normal_mant_fits F HF ma Hma) ltac:(lia)) as Fa'.
  unfold FpInv.normal_mant in Hma, Hmb. rewrite Z.pow_add_r, Z.pow_1_r in Hma, Hmb by lia.
  change (2 ^ 2) with 4 in *.
  destruct (divrem_u_ok F ma 0 (mb * 4) HF) as (r & Hr & Er & _); [done|by apply fits_0; lia|done|lia|].
  eapply returns_bind; [apply (returns_pure (fun x => x = r)); by exists r|]. intros ? ->.
  rewrite Er. unfold pair_val. rewrite Z.add_0_r.
  pose proof (pow2_pos (MANT_SIZE F)). pose proof (pow2_pos (F - 1)).
  assert (fits (F - 1) (ma * 2 ^ F / (mb * 4))).
  { split; [apply Z.div_pos; unfold fits in *; nia|]. apply Z.div_lt_upper_bound; [lia|].
    rewrite (pow2_half F) by lia. nia. }
  apply normalize_returns; [done|]. case_if; [|done]. apply fits_lor; [done|]. apply (fits_mono 1); [done|lia].
Qed.

Lemma sqrt_returns a rm : fits F a -> returns (fits F) (sqrt_sf F a rm).
Proof.
  intros Fa. unfold sqrt_sf. cbv zeta. ret. sizes.
  pose proof (mant_exp_ok F HF (sf_exp F a) (sf_mant F a) (sf_mant_fits F HF a) ltac:(done)) as Hma.
  destruct (mant_exp F (sf_exp F a) (sf_mant F a)) as [ma ea]. cbn [fst] in Hma.
  set (odd := nonzero _). set (m := if odd then _ else ma).
  assert (fits (MANT_SIZE F + 2) m) as Fm.
  { subst m. destruct odd; [|eapply fits_mono; [by apply normal_mant_fits|lia]].
    destruct (shifted_mant ma 1 Hma) as [-> Fx]; [lia..|].
    by replace (MANT_SIZE F + 2) with (MANT_SIZE F + 1 + 1) by lia. }
  clearbody m. clear Hma.
  pose proof (shiftl_fits (MANT_SIZE F + 2) (F - 4 - MANT_SIZE F) m ltac:(lia) ltac:(lia) Fm) as Fs.
  replace (MANT_SIZE F + 2 + (F - 4 - MANT_SIZE F)) with (F - 2) in Fs by lia.
  rewrite (fu_small F (F - 2)) by (done || lia).
  pose proof (fits_mono _ F _ Fs ltac:(lia)) as Fs'.
  destruct (sqrtrem_u_ok F (m ≪ (F - 4 - MANT_SIZE F)) 0 HF) as (r & Hr & Er & _);
    [done|by apply fits_0; lia| |].
  { right. split; [apply Fs|]. unfold not_top. pose proof (pow2_pos (F - 2)).
    unfold pair_val, fits in *. replace (2 * F - 2) with (F - 2 + F) by lia. rewrite Z.pow_add_r by lia. pose proof (pow2_half F ltac:(lia)). nia. }
  eapply returns_bind; [apply (returns_pure (fun x => x = r)); by exists r|]. intros ? ->. rewrite Er, (sqrt_root_high F HF) by done.
  set (n := pair_val F _ 0) in *. assert (0 <= n) as Hn.
  { apply (pair_val_fits F); [lia|done|apply fits_0; lia]. }
  assert (fits (F - 1) (Z.sqrt n)).
  { split; [apply Z.sqrt_nonneg|]. pose proof (pow2_pos (F - 1)). apply Z.sqrt_lt_square; [done|lia|].
    unfold n, pair_val. rewrite Z.add_0_r. replace (F - 1) with (F - 2 + 1) by lia.
    rewrite (pow2_half F), (pow2_half (F - 1)) by lia. replace (F - 1 - 1) with (F - 2) by lia.
    rewrite Z.pow_add_r by lia. pose proof (pow2_pos (F - 2)). unfold fits in Fs. nia. }
  apply normalize_returns; [done|]. case_if; [|done]. apply fits_lor; [done|]. apply (fits_mono 1); [done|lia].
Qed.

(** *** Fused multiply and add *)
Definition leading (x : Z) : Prop := 2 ^ (F - 3) <= x < 2 ^ (F - 2).
Lemma pow_steps : 2 ^ (F - 2) = 2 * 2 ^ (F - 3) /\ 2 ^ (F - 1) = 4 * 2 ^ (F - 3) /\
  2 ^ F = 8 * 2 ^ (F - 3) /\ 0 < 2 ^ (F - 3).
Proof.
  pose proof (pow2_pos (F - 3) ltac:(lia)).
  rewrite (pow2_half F), (pow2_half (F - 1)) by lia. replace (F - 1 - 1) with (F - 2) by lia.
  rewrite (pow2_half (F - 2)) by lia. replace (F - 2 - 1) with (F - 3) by lia. lia.
Qed.

Lemma fma_align_ok shift c1 c0 : 0 <= shift -> fits (F - 2) c1 -> fits F c0 ->
  let r := fma_align F shift c1 c0 in
  fits (F - 2) r.1 /\ fits F r.2 /\ (0 < shift -> fits (F - 3) r.1) /\
  (shift = 0 -> r = (c1, c0)).
Proof.
  intros Hs F1 F0. sizes. pose proof (fits_mono _ F _ F1 ltac:(lia)) as F1'.
  assert (forall n b, 1 <= n -> fits n (bit b)) as Hbit by (intros; by apply bit_fits).
  unfold fma_align. cbv zeta.
  destruct (Z.leb_spec (2 * F) shift).
  { cbn [fst snd]. split; [apply fits_0; lia|]. split; [apply Hbit; lia|].
    split; [intros; apply fits_0; lia|lia]. }
  destruct (Z.leb_spec (F + 1) shift).
  { cbn [fst snd]. split; [apply fits_0; lia|]. split; [|split; [intros; apply fits_0; lia|lia]].
    apply rshift_rnd_fits; (done || lia). }
  destruct (Z.eqb_spec shift F).
  { cbn [fst snd]. split; [apply fits_0; lia|]. split; [|split; [intros; apply fits_0; lia|lia]].
    apply fits_lor; [done|apply Hbit; lia]. }
  destruct (Z.eqb_spec shift 0) as [->|]; cbn [negb fst snd]; [by split; [|split; [|split; [lia|]]]|].
  split; [by apply fits_shiftr|]. split.
  { repeat apply fits_lor; [by apply fu_fits|by apply fits_shiftr|apply Hbit; lia]. }
  split; [|lia]. intros _. destruct F1 as [??]. destruct pow_steps as (Hp & _ & _ & ?).
  rewrite Z.shiftr_div_pow2 by lia. split; [apply Z.div_pos; [lia|by apply pow2_pos]|].
  assert (2 ^ 1 <= 2 ^ shift) by (apply Z.pow_le_mono_r; lia). apply Z.div_lt_upper_bound; nia.
Qed.

(** The sum or the difference of the aligned significands. *)
Lemma fma_sum_returns (same : bool) s e r1 r0 c1 c0 rm :
  fits (F - 2) r1 -> fits F r0 -> fits (F - 2) c1 -> fits F c0 ->
  (same = false -> c1 + bit (r0 <? c0) <= r1) ->
  returns (fits F)
    (if same
     then normalize2_sf F s e (fu F (r1 + (c1 + bit (fu F (r0 + c0) <? c0)))) (fu F (r0 + c0)) rm
     else normalize2_sf F
            (if fu F (r0 - c0) .| fu F (r1 - c1 - bit (r0 <? fu F (r0 - c0))) =? 0
             then bit (rm =? RM_RDN) else s) e
            (fu F (r1 - c1 - bit (r0 <? fu F (r0 - c0)))) (fu F (r0 - c0)) rm).
Proof.
  intros [??] [??] [??] [??] Hle. destruct pow_steps as (E2 & E1 & E0 & Hp).
  assert (forall b, 0 <= bit b <= 1) as Hbit by (intros []; simpl; lia).
  destruct same; (apply normalize2_returns; [done| |by apply fu_fits]).
  - pose proof (Hbit (fu F (r0 + c0) <? c0)). unfold fu at 1. rewrite wrap_fits; split; lia.
  - assert (bit (r0 <? fu F (r0 - c0)) <= bit (r0 <? c0)) as Hb.
    { destruct (Z.ltb_spec r0 c0); [apply Hbit|].
      unfold fu. rewrite wrap_fits by (split; lia). destruct (Z.ltb_spec r0 (r0 - c0)); simpl; lia. }
    pose proof (Hbit (r0 <? fu F (r0 - c0))). specialize (Hle eq_refl).
    unfold fu at 1. rewrite wrap_fits; split; lia.
Qed.

Lemma fma_add_returns rs re r1 r0 cs ce c1 rm :
  leading r1 -> fits F r0 -> leading c1 -> returns (fits F) (fma_add F rs re r1 r0 cs ce c1 rm).
Proof.
  intros Hr Hr0 Hc. destruct pow_steps as (E2 & E1 & E0 & Hp). unfold leading in *.
  assert (forall b, 0 <= bit b <= 1) as Hbit by (intros []; simpl; lia).
  assert (fits (F - 2) r1 /\ fits (F - 2) c1 /\ fits F 0) as (Fr & Fc & F00) by
    (repeat split; try lia; apply pow2_pos; lia).
  unfold fma_add. cbv zeta.
  destruct ((ce <? re) || ((re =? ce) && (c1 <=? r1))) eqn:Hkeep.
  - destruct (fma_align_ok (re - ce) c1 0) as (A1 & A0 & Ap & Az); [lia|done|done|].
    destruct (fma_align F (re - ce) c1 0) as [d1 d0]. cbn [fst snd] in *.
    apply fma_sum_returns; try done. intros _. pose proof (Hbit (r0 <? d0)).
    destruct (Z_lt_le_dec 0 (re - ce)) as [Hlt|]; [destruct (Ap Hlt); lia|].
    assert (re = ce) as -> by lia. rewrite Z.sub_diag in Az. injection (Az eq_refl) as -> ->.
    destruct (Z.ltb_spec r0 0); unfold fits in *; simpl; lia.
  - destruct (fma_align_ok (ce - re) r1 r0) as (A1 & A0 & Ap & Az); [lia|done|done|].
    destruct (fma_align F (ce - re) r1 r0) as [d1 d0]. cbn [fst snd] in *.
    apply fma_sum_returns; try done. intros _. pose proof (Hbit (0 <? d0)).
    destruct (Z_lt_le_dec 0 (ce - re)) as [Hlt|]; [destruct (Ap Hlt); lia|].
    assert (ce = re) as -> by lia. rewrite Z.sub_diag in Az. injection (Az eq_refl) as -> ->. lia.
Qed.

(** The normalisation of the product. *)
Lemma fma_norm r1 r0 : 2 ^ (F - 3) <= 2 * r1 -> r1 < 2 ^ (F - 2) -> fits F r0 ->
  leading (if r1 <? 1 ≪ (F - 3) then fu F (r1 ≪ 1) .| (r0 ≫ (F - 1)) else r1) /\
  fits F (if r1 <? 1 ≪ (F - 3) then fu F (r0 ≪ 1) else r0).
Proof.
  intros Hlo Hhi Hr0. destruct pow_steps as (E2 & E1 & E0 & Hp).
  rewrite Z.shiftl_mul_pow2, Z.mul_1_l by lia. unfold leading.
  destruct (Z.ltb_spec r1 (2 ^ (F - 3))); [|split; [lia|done]]. split; [|by apply fu_fits].
  assert (fu F (r1 ≪ 1) = r1 ≪ 1) as ->.
  { apply wrap_fits. rewrite Z.shiftl_mul_pow2, Z.pow_1_r by lia. split; lia. }
  assert (fits 1 (r0 ≫ (F - 1))).
  { destruct Hr0. rewrite Z.shiftr_div_pow2 by lia. split; [apply Z.div_pos; lia|].
    apply Z.div_lt_upper_bound; lia. }
  rewrite lor_disjoint by (done || lia). rewrite Z.pow_1_r. unfold fits in *. lia.
Qed.

(** The high word of the product of two significands, with [Q = 2^(F-4)]. *)
Lemma product_words Q r1 r0 x y : 0 < Q -> r1 * (16 * Q) + r0 = x * y -> 0 <= r0 < 16 * Q ->
  4 * Q <= x < 8 * Q -> 4 * Q <= y < 8 * Q -> 2 * Q <= 2 * r1 /\ r1 < 4 * Q.
Proof.
  intros HQ E Hr Hx Hy. assert (16 * (Q * Q) <= x * y < 64 * (Q * Q)) as [Hlo Hhi] by nia.
  split; [|nia]. enough (Q - 1 < r1) by lia. nia.
Qed.
Lemma fma_returns a b c rm : fits F a -> fits F b -> fits F c ->
  returns (fits F) (fma_sf F a b c rm).
Proof.
  intros Fa Fb Fc. unfold fma_sf, fma_mul_zero. cbv zeta. ret. sizes.
  pose proof (mant_exp_ok F HF (sf_exp F a) (sf_mant F a) (sf_mant_fits F HF a) ltac:(done)) as Hma.
  destruct (mant_exp F (sf_exp F a) (sf_mant F a)) as [ma ea]. cbn [fst] in Hma. ret.
  pose proof (mant_exp_ok F HF (sf_exp F b) (sf_mant F b) (sf_mant_fits F HF b) ltac:(done)) as Hmb.
  destruct (mant_exp F (sf_exp F b) (sf_mant F b)) as [mb eb]. cbn [fst] in Hmb.
  destruct (shifted_mant ma (RND_SIZE F) Hma) as [-> Fx]; [lia..|].
  destruct (shifted_mant mb (RND_SIZE F) Hmb) as [-> Fy]; [lia..|].
  replace (MANT_SIZE F + 1 + RND_SIZE F) with (F - 1) in Fx, Fy by lia.
  pose proof (fits_mono _ F _ Fx ltac:(lia)) as Fx'. pose proof (fits_mono _ F _ Fy ltac:(lia)) as Fy'.
  destruct (mul_u_ok F _ _ HF Fx' Fy') as (Fh & Fl & E).
  destruct (mul_u F _ _) as [r1 r0]. cbn [fst snd] in *.
  destruct pow_steps as (E2 & E1 & E0 & Hp).
  assert (2 ^ (F - 2) <= ma * 2 ^ RND_SIZE F /\ 2 ^ (F - 2) <= mb * 2 ^ RND_SIZE F) as [Hla Hlb].
  { replace (F - 2) with (MANT_SIZE F + RND_SIZE F) by lia. rewrite Z.pow_add_r by lia.
    pose proof (pow2_pos (RND_SIZE F)). destruct Hma, Hmb. nia. }
  assert (2 ^ (F - 3) <= 2 * r1 /\ r1 < 2 ^ (F - 2)) as [Hlo Hhi].
  { assert (2 ^ (F - 3) = 2 * 2 ^ (F - 4)) as E3 by (rewrite <- Z.pow_succ_r by lia; f_equal; lia).
    enough (2 * 2 ^ (F - 4) <= 2 * r1 /\ r1 < 4 * 2 ^ (F - 4)) by lia. unfold fits in *.
    eapply product_words; [lia|rewrite <- E; unfold pair_val; replace (2 ^ F) with (16 * 2 ^ (F - 4)) by lia
      ; reflexivity|lia..]. }
  destruct (fma_norm r1 r0 Hlo Hhi Fl) as [Hl1 Hl0].
  set (r1' := if r1 <? _ then _ else r1) in *. set (r0' := if r1 <? _ then _ else r0) in *.
  assert (fits (F - 1) r1') by (unfold leading in Hl1; split; lia).
  ret; [apply normalize_returns; [done|]; apply fits_lor; [done|apply bit_fits; lia]|].
  pose proof (mant_exp_ok F HF (sf_exp F c) (sf_mant F c) (sf_mant_fits F HF c) ltac:(done)) as Hmc.
  destruct (mant_exp F (sf_exp F c) (sf_mant F c)) as [mc ec]. cbn [fst] in Hmc.
  destruct (shifted_mant mc (RND_SIZE F - 1) Hmc) as [-> Fc']; [lia..|].
  apply fma_add_returns; try done. destruct Fc' as [_ Fc'], Hmc as [Hmc _].
  replace (MANT_SIZE F + 1 + (RND_SIZE F - 1)) with (F - 2) in Fc' by lia.
  split; [|done]. replace (F - 3) with (MANT_SIZE F + (RND_SIZE F - 1)) by lia.
  rewrite Z.pow_add_r by lia. pose proof (pow2_pos (RND_SIZE F - 1)). nia.
Qed.

(** *** Comparisons *)
Lemma min_max_nan_returns a b t : fits F a -> fits F b -> returns (fits F) (min_max_nan_sf F a b t).
Proof. intros. unfold min_max_nan_sf. cbv zeta. ret. Qed.
Lemma min_returns a b t : fits F a -> fits F b -> returns (fits F) (min_sf F a b t).
Proof. intros. unfold min_sf. ret; [by apply min_max_nan_returns|by case_if..]. Qed.
Lemma max_returns a b t : fits F a -> fits F b -> returns (fits F) (max_sf F a b t).
Proof. intros. unfold max_sf. ret; [by apply min_max_nan_returns|by case_if..]. Qed.
Definition is_bool (v : Z) : Prop := v = 0 \/ v = 1.
Lemma bit_bool b : is_bool (bit b).
Proof. destruct b; [by right|by left]. Qed.
Lemma eq_returns a b : returns is_bool (eq_quiet_sf F a b).
Proof. unfold eq_quiet_sf. ret_steps; [by left|]. case_if; [by right|apply bit_bool]. Qed.
Lemma le_returns a b : returns is_bool (le_sf F a b).
Proof. unfold le_sf. ret_steps; [by left|apply bit_bool..]. Qed.
Lemma lt_returns a b : returns is_bool (lt_sf F a b).
Proof. unfold lt_sf. ret_steps; [by left|apply bit_bool..]. Qed.

(** *** Conversions *)
Lemma cvt_sf_i_gen n a rm u : 0 < n -> returns (sfits n) (internal_cvt_sf_i F n a rm u).
Proof. intros. unfold internal_cvt_sf_i. cbv zeta. ret_steps; by apply swrap_range. Qed.
Lemma cvt_sf_i_returns n a rm : 0 < n -> returns (sfits n) (cvt_sf_i F n a rm).
Proof. apply cvt_sf_i_gen. Qed.
Lemma cvt_sf_u_returns n a rm : 0 < n -> returns (fits n) (cvt_sf_u F n a rm).
Proof.
  intros. eapply returns_bind; [by apply cvt_sf_i_gen|]. intros. apply returns_ret, fits_wrap. lia.
Qed.

Lemma rshift_rnd_by w a d : 1 <= w -> 0 <= d < F -> fits (w + d) a -> fits w (rshift_rnd F a d).
Proof.
  intros Hw Hd [??]. unfold rshift_rnd. cbv zeta.
  destruct (Z.eqb_spec d 0) as [->|]; cbn [negb]; [split; [done|by rewrite Z.add_0_r in *]|].
  rewrite (proj2 (Z.leb_gt F d)) by lia. apply fits_lor; [|by apply bit_fits].
  pose proof (pow2_pos d). rewrite Z.shiftr_div_pow2 by lia. rewrite Z.pow_add_r in * by lia.
  split; [apply Z.div_pos; lia|]. apply Z.div_lt_upper_bound; lia.
Qed.

Lemma int_mant_fits n r b : 0 < n -> fits n r ->
  let l := n - clz n r - (F - 1) in
  fits (F - 1) (if 0 <? l then (r ≫ l) .| bit b else r).
Proof.
  intros Hn Hr l. pose proof (clz_above n r ltac:(lia) Hr) as Hc.
  pose proof (clz_range n r ltac:(lia) Hr). destruct Hr as [Hr0 _]. sizes.
  replace (n - clz n r) with (l + (F - 1)) in Hc by lia.
  destruct (Z.ltb_spec 0 l).
  - apply fits_lor; [|apply bit_fits; lia]. pose proof (pow2_pos l).
    rewrite Z.shiftr_div_pow2 by lia. rewrite Z.pow_add_r in Hc by lia.
    split; [apply Z.div_pos; lia|]. apply Z.div_lt_upper_bound; lia.
  - split; [done|]. assert (2 ^ (l + (F - 1)) <= 2 ^ (F - 1)) by (apply Z.pow_le_mono_r; lia). lia.
Qed.
Lemma cvt_int_gen n a rm u : 0 < n -> returns (fits F) (internal_cvt_i_sf F n a rm u).
Proof.
  intros Hn. unfold internal_cvt_i_sf. cbv zeta. apply normalize_returns; [done|].
  set (r := if negb u && (a <? 0) then _ else _).
  assert (fits n r) as Hr by (subst r; case_if; apply fits_wrap; lia). clearbody r.
  rewrite (fu_small F (F - 1)) by (try apply int_mant_fits; done || lia). by apply int_mant_fits.
Qed.
Lemma cvt_i_returns n a rm : 0 < n -> returns (fits F) (cvt_i_sf F n a rm).
Proof. apply cvt_int_gen. Qed.
Lemma cvt_u_returns n a rm : 0 < n -> returns (fits F) (cvt_u_sf F n a rm).
Proof. apply cvt_int_gen. Qed.
Lemma fclass_range a : fits 10 (fclass_sf F a).
Proof. unfold fclass_sf. cbv zeta. repeat case_if; split; vm_compute; congruence. Qed.
End Ops.

Section Formats2.
Context (F G : Z) (HF : F = 32 \/ F = 64 \/ F = 128) (HG : G = 32 \/ G = 64 \/ G = 128).

Lemma cvt_widen_returns a : returns (fits F) (cvt_widen G F a).
Proof.
  unfold cvt_widen, unpack_sf. ret_steps; try (by apply qnan_fits); try (by apply pack_fits).
  match goal with |- returns _ (let (x, y) := ?p in _) => destruct p as [m e] end.
  apply returns_ret. by apply pack_fits.
Qed.
Lemma cvt_narrow_returns a rm : G < F -> returns (fits G) (cvt_narrow F G a rm).
Proof.
  intros Hlt. unfold cvt_narrow, unpack_sf.
  ret_steps; try (by apply qnan_fits); try (by apply pack_fits).
  pose proof (fmt_sizes F HF) as (? & ? & ? & ? & ?).
  set (p := if sf_exp F a =? 0 then _ else _). assert (fits (MANT_SIZE F + 1) (fst p)) as Hm.
  { subst p. pose proof (fits_mono _ (MANT_SIZE F + 1) _ (sf_mant_fits F HF a) ltac:(lia)).
    case_if; cbn [fst]; [done|]. apply fits_lor; [done|]. apply fits_pow. lia. }
  destruct p as [m e]. cbn [fst] in Hm. cbv zeta. apply normalize_returns; [done|].
  assert (0 <= MANT_SIZE F - (G - 2) < F) as Hd.
  { clear -HF HG Hlt. destruct HF as [->|[->| ->]], HG as [->|[->| ->]];
      first [lia|by vm_compute]. }
  assert (fits (G - 1) (rshift_rnd F m (MANT_SIZE F - (G - 2)))).
  { apply rshift_rnd_by; [lia|lia|]. replace (G - 1 + _) with (MANT_SIZE F + 1) by lia. done. }
  rewrite (fu_small G (G - 1)) by (done || lia). done.
Qed.
End Formats2.

Lemma returns_ok {A} (R : A -> Prop) m fl : returns R m -> fits 32 fl ->
  exists v fl', m fl = Ok v fl' /\ R v /\ fits 32 fl'.
Proof.
  intros Hm Hfl. specialize (Hm fl Hfl). unfold wp in Hm.
  destruct (m fl) as [v fl'|]; [|done]. by exists v, fl'.
Qed.

Section Total.
Context `{cfg : Config}.

(** The arithmetic operations of the format [F], applied to three operands. *)
Definition arithmetic (F a b c rm : Z) : list (M Z Z) :=
  [ add_sf F a b rm; sub_sf F a b rm; mul_sf F a b rm; div_sf F a b rm; sqrt_sf F a rm;
    fma_sf F a b c rm; min_sf F a b FMINMAX_IEEE754_201X; max_sf F a b FMINMAX_IEEE754_201X ].
(** The conversions from an integer of [n] bits, the signed [i] and the unsigned [u] *)
Definition from_integer (F n i u rm : Z) : list (M Z Z) := [cvt_i_sf F n i rm; cvt_u_sf F n u rm].
Definition comparisons (F a b : Z) : list (M Z Z) := [eq_quiet_sf F a b; le_sf F a b; lt_sf F a b].
Definition format (F : Z) : Prop := F = 32 \/ F = 64 \/ F = 128.
Definition yields (R : Z -> Prop) (fl : Z) (m : M Z Z) : Prop := exists v fl', m fl = Ok v fl' /\ R v /\ fits 32 fl'.

(** C3: for every format, all operands, rounding modes and flags, the arithmetic
    operations, the conversions from signed and unsigned integers of every width, and the conversions to the other formats
    return a word of the format of the result: none of their assertions fails and the
    iterations of division and square root end; comparisons return 0 or 1, the class is a
    word of 10 bits, and conversions to an integer return a value of the integer type. *)
Theorem softfp_returns F G n a b c i u rm fl :
  format F -> format G -> 0 < n -> fits F a -> fits F b -> fits F c -> sfits n i -> fits n u -> fits 32 fl ->
  Forall (yields (fits F) fl) (arithmetic F a b c rm ++ from_integer F n i u rm) /\
  (F < G -> yields (fits G) fl (cvt_widen F G a)) /\ (G < F -> yields (fits G) fl (cvt_narrow F G a rm)) /\
  Forall (yields is_bool fl) (comparisons F a b) /\ fits 10 (fclass_sf F a) /\
  yields (sfits n) fl (cvt_sf_i F n a rm) /\ yields (fits n) fl (cvt_sf_u F n a rm).
Proof.
  intros HF HG Hn Ha Hb Hc _ _ Hfl. split_and!.
  - repeat constructor; (apply returns_ok; [|done]).
    + by apply add_returns. + by apply sub_returns. + by apply mul_returns.
    + by apply div_returns. + by apply sqrt_returns. + by apply fma_returns.
    + by apply min_returns. + by apply max_returns.
    + by apply cvt_i_returns. + by apply cvt_u_returns.
  - intros _. apply returns_ok; [by apply cvt_widen_returns|done].
  - intros Hlt. apply returns_ok; [by apply cvt_narrow_returns|done].
  - repeat constructor; (apply returns_ok; [|done]); [by apply eq_returns|by apply le_returns|by apply lt_returns].
  - apply fclass_range.
  - apply returns_ok; [by apply cvt_sf_i_returns|done].
  - apply returns_ok; [by apply cvt_sf_u_returns|done].
Qed.
End Total.

(** 1.0 / 3.0, sqrt(2.0), -1 as an integer, and 1.0 in double precision, from single precision *)
Lemma softfp_returns_witness :
  Forall (yields (fits 32) 0) (@arithmetic cfg_rv32_js 32 0x3f800000 0x40400000 0 0 ++ from_integer 32 32 (-1) 7 0) /\
  @div_sf cfg_rv32_js 32 0x3f800000 0x40400000 0 0 = Ok 0x3eaaaaab 1 /\
  @sqrt_sf cfg_rv32_js 32 0x40000000 0 0 = Ok 0x3fb504f3 1 /\ cvt_i_sf 32 32 (-1) 0 0 = Ok 0xbf800000 0 /\
  yields (fits 64) 0 (cvt_widen 32 64 0x3f800000) /\ cvt_widen 32 64 0x3f800000 0 = Ok 0x3ff0000000000000 0.
Proof.
  destruct (@softfp_returns cfg_rv32_js 32 64 32 0x3f800000 0x40400000 0 (-1) 7 0 0) as (H & H1 & _);
    [by left|by right; left|done|split; (reflexivity || discriminate)..|].
  split; [exact H|]. split; [by vm_compute|]. split; [by vm_compute|]. split; [by vm_compute|].
  split; [by apply H1|by vm_compute].
Defined.
