(* ===== verification/CpuInv.v ===== *)
(** * The invariant of the CPU state

    [cpu_inv objs nc s]: every field holds a value of its C type, the architectural
    constraints hold (x0 is 0, the program counters are even, a writable field of
    a control register holds a legal value), each TLB entry that can hit maps its
    page to a page inside one of the host objects [objs], and the instruction
    budget n_cycles is [nc].  One lemma per assignment says what must hold of the
    assigned value. *)
From S2P Require Export Trap.

Section Inv.
Context `{cfg : Config}.
Implicit Types (s : RISCVCPUState) (objs : list (Z * Z)) (nc : Z).

Definition even_word (v : Z) : Prop := fits MAX_XLEN v /\ Z.testbit v 0 = false.

Definition xlen_code (x : Z) : Prop := x = 16 \/ x = 32 \/ x = 64 \/ x = 128.

Definition SATP_W : Z := if MAX_XLEN =? 32 then 32 else 64.
(** Bare, Sv39 or Sv48. *)
Definition satp_ok (v : Z) : Prop :=
  fits SATP_W v /\
  (MAX_XLEN <> 32 -> let mode := (v ≫ 60) .& 0xf in mode = 0 \/ mode = 8 \/ mode = 9).

(** A TLB entry: invalid, or a guest page and a host page of a live object. *)
Definition entry_ok objs (e : TLBEntry) : Prop :=
  fits MAX_XLEN (vaddr e) /\
  (vaddr e = ulong (-1) \/
   (vaddr e .& PG_MASK = 0 /\
    host_ok objs (uptr (mem_addend e + uptr (vaddr e))) 4096 = true)).
Definition tlb_ok objs (t : list TLBEntry) : Prop :=
  length t = Z.to_nat TLB_SIZE /\ Forall (entry_ok objs) t.

Definition regs_ok (w : Z) (l : list Z) : Prop := length l = 32%nat /\ Forall (fits w) l.

Record cpu_inv objs nc s : Prop := {
  ci_pc : even_word (pc s);
  ci_reg : regs_ok MAX_XLEN (reg s);
  ci_x0 : nth 0 (reg s) 0 = 0;
  ci_fp_reg : regs_ok FLEN (fp_reg s);
  ci_fflags : fits 32 (fflags s);
  ci_frm : 0 <= frm s <= 4;
  ci_cur_xlen : xlen_code (cur_xlen s);
  ci_priv : 0 <= priv s <= 3;
  ci_fs : 0 <= fs s <= 3;
  ci_mxl : 1 <= mxl s <= 3;
  ci_n_cycles : n_cycles s = nc;
  ci_insn_counter : fits 64 (insn_counter s);
  ci_pending_tval : fits MAX_XLEN (pending_tval s);
  ci_mstatus : fits MAX_XLEN (mstatus s);
  ci_mtvec : even_word (mtvec s);
  ci_mscratch : fits MAX_XLEN (mscratch s);
  ci_mepc : even_word (mepc s);
  ci_mcause : fits MAX_XLEN (mcause s);
  ci_mtval : fits MAX_XLEN (mtval s);
  ci_mhartid : fits MAX_XLEN (mhartid s);
  ci_misa : fits 32 (misa s);
  ci_mie : fits 32 (mie s);
  ci_mip : fits 32 (mip s);
  ci_medeleg : fits 32 (medeleg s);
  ci_mideleg : fits 32 (mideleg s);
  ci_mcounteren : fits 32 (mcounteren s);
  ci_stvec : even_word (stvec s);
  ci_sscratch : fits MAX_XLEN (sscratch s);
  ci_sepc : even_word (sepc s);
  ci_scause : fits MAX_XLEN (scause s);
  ci_stval : fits MAX_XLEN (stval s);
  ci_satp : satp_ok (satp s);
  ci_scounteren : fits 32 (scounteren s);
  ci_load_res : fits MAX_XLEN (load_res s);
  ci_tlb_read : tlb_ok objs (tlb_read s);
  ci_tlb_write : tlb_ok objs (tlb_write s);
  ci_tlb_code : tlb_ok objs (tlb_code s);
}.

(** The typing of assignments. *)
Ltac setter := let H := fresh in intros H ?; destruct H; by constructor.
Lemma inv_pc objs nc s v : cpu_inv objs nc s -> even_word v -> cpu_inv objs nc (with_pc v s).
Proof. setter. Qed.
Lemma inv_fflags objs nc s v : cpu_inv objs nc s -> fits 32 v -> cpu_inv objs nc (with_fflags v s).
Proof. setter. Qed.
Lemma inv_frm objs nc s v : cpu_inv objs nc s -> 0 <= v <= 4 -> cpu_inv objs nc (with_frm v s).
Proof. setter. Qed.
Lemma inv_cur_xlen objs nc s v : cpu_inv objs nc s -> xlen_code v -> cpu_inv objs nc (with_cur_xlen v s).
Proof. setter. Qed.
Lemma inv_priv objs nc s v : cpu_inv objs nc s -> 0 <= v <= 3 -> cpu_inv objs nc (with_priv v s).
Proof. setter. Qed.
Lemma inv_fs objs nc s v : cpu_inv objs nc s -> 0 <= v <= 3 -> cpu_inv objs nc (with_fs v s).
Proof. setter. Qed.
Lemma inv_mxl objs nc s v : cpu_inv objs nc s -> 1 <= v <= 3 -> cpu_inv objs nc (with_mxl v s).
Proof. setter. Qed.
Lemma inv_n_cycles objs nc s v : cpu_inv objs nc s -> cpu_inv objs v (with_n_cycles v s).
Proof. let H := fresh in intros H; destruct H; by constructor. Qed.
Lemma inv_insn_counter objs nc s v : cpu_inv objs nc s -> fits 64 v -> cpu_inv objs nc (with_insn_counter v s).
Proof. setter. Qed.
Lemma inv_power_down objs nc s v : cpu_inv objs nc s -> cpu_inv objs nc (with_power_down_flag v s).
Proof. let H := fresh in intros H; destruct H; by constructor. Qed.
Lemma inv_pending_exception objs nc s v : cpu_inv objs nc s -> cpu_inv objs nc (with_pending_exception v s).
Proof. let H := fresh in intros H; destruct H; by constructor. Qed.
Lemma inv_pending_tval objs nc s v : cpu_inv objs nc s -> fits MAX_XLEN v -> cpu_inv objs nc (with_pending_tval v s).
Proof. setter. Qed.
Lemma inv_mstatus objs nc s v : cpu_inv objs nc s -> fits MAX_XLEN v -> cpu_inv objs nc (with_mstatus v s).
Proof. setter. Qed.
Lemma inv_mtvec objs nc s v : cpu_inv objs nc s -> even_word v -> cpu_inv objs nc (with_mtvec v s).
Proof. setter. Qed.
Lemma inv_mscratch objs nc s v : cpu_inv objs nc s -> fits MAX_XLEN v -> cpu_inv objs nc (with_mscratch v s).
Proof. setter. Qed.
Lemma inv_mepc objs nc s v : cpu_inv objs nc s -> even_word v -> cpu_inv objs nc (with_mepc v s).
Proof. setter. Qed.
Lemma inv_mcause objs nc s v : cpu_inv objs nc s -> fits MAX_XLEN v -> cpu_inv objs nc (with_mcause v s).
Proof. setter. Qed.
Lemma inv_mtval objs nc s v : cpu_inv objs nc s -> fits MAX_XLEN v -> cpu_inv objs nc (with_mtval v s).
Proof. setter. Qed.
Lemma inv_mie objs nc s v : cpu_inv objs nc s -> fits 32 v -> cpu_inv objs nc (with_mie v s).
Proof. setter. Qed.
Lemma inv_mip objs nc s v : cpu_inv objs nc s -> fits 32 v -> cpu_inv objs nc (with_mip v s).
Proof. setter. Qed.
Lemma inv_medeleg objs nc s v : cpu_inv objs nc s -> fits 32 v -> cpu_inv objs nc (with_medeleg v s).
Proof. setter. Qed.
Lemma inv_mideleg objs nc s v : cpu_inv objs nc s -> fits 32 v -> cpu_inv objs nc (with_mideleg v s).
Proof. setter. Qed.
Lemma inv_mcounteren objs nc s v : cpu_inv objs nc s -> fits 32 v -> cpu_inv objs nc (with_mcounteren v s).
Proof. setter. Qed.
Lemma inv_stvec objs nc s v : cpu_inv objs nc s -> even_word v -> cpu_inv objs nc (with_stvec v s).
Proof. setter. Qed.
Lemma inv_sscratch objs nc s v : cpu_inv objs nc s -> fits MAX_XLEN v -> cpu_inv objs nc (with_sscratch v s).
Proof. setter. Qed.
Lemma inv_sepc objs nc s v : cpu_inv objs nc s -> even_word v -> cpu_inv objs nc (with_sepc v s).
Proof. setter. Qed.
Lemma inv_scause objs nc s v : cpu_inv objs nc s -> fits MAX_XLEN v -> cpu_inv objs nc (with_scause v s).
Proof. setter. Qed.
Lemma inv_stval objs nc s v : cpu_inv objs nc s -> fits MAX_XLEN v -> cpu_inv objs nc (with_stval v s).
Proof. setter. Qed.
Lemma inv_satp objs nc s v : cpu_inv objs nc s -> satp_ok v -> cpu_inv objs nc (with_satp v s).
Proof. setter. Qed.
Lemma inv_scounteren objs nc s v : cpu_inv objs nc s -> fits 32 v -> cpu_inv objs nc (with_scounteren v s).
Proof. setter. Qed.
Lemma inv_load_res objs nc s v : cpu_inv objs nc s -> fits MAX_XLEN v -> cpu_inv objs nc (with_load_res v s).
Proof. setter. Qed.
Lemma inv_tlb_read objs nc s v : cpu_inv objs nc s -> tlb_ok objs v -> cpu_inv objs nc (with_tlb_read v s).
Proof. setter. Qed.
Lemma inv_tlb_write objs nc s v : cpu_inv objs nc s -> tlb_ok objs v -> cpu_inv objs nc (with_tlb_write v s).
Proof. setter. Qed.
Lemma inv_tlb_code objs nc s v : cpu_inv objs nc s -> tlb_ok objs v -> cpu_inv objs nc (with_tlb_code v s).
Proof. setter. Qed.

(** Registers. *)
Lemma regs_ok_nth w l i : 0 <= w -> regs_ok w l -> fits w (nth i l 0).
Proof.
  intros Hw [_ H]. destruct (nth_in_or_default i l 0) as [Hin| ->]; [|by apply fits_0].
  rewrite List.Forall_forall in H. apply H, Hin.
Qed.
Lemma regs_ok_insert w l i v : regs_ok w l -> fits w v -> regs_ok w (<[i := v]> l).
Proof.
  intros [Hl H] Hv. split; [by rewrite length_insert|].
  by apply Forall_insert.
Qed.
Lemma FLEN_pos : 0 <= FLEN.
Proof. unfold FLEN. case_if; lia. Qed.

Lemma inv_reg_get objs nc s i : cpu_inv objs nc s -> fits MAX_XLEN (reg_get s i).
Proof. intros H. apply regs_ok_nth; [pose proof MAX_XLEN_pos; lia|apply (ci_reg _ _ _ H)]. Qed.
Lemma inv_fp_get objs nc s i : cpu_inv objs nc s -> fits FLEN (fp_get s i).
Proof. intros H. apply regs_ok_nth; [apply FLEN_pos|apply (ci_fp_reg _ _ _ H)]. Qed.
Lemma inv_reg_set objs nc s i v :
  cpu_inv objs nc s -> 0 < i -> fits MAX_XLEN v -> cpu_inv objs nc (reg_set i v s).
Proof.
  intros H Hi Hv. pose proof (ci_reg _ _ _ H) as Hr. pose proof (ci_x0 _ _ _ H) as H0.
  assert (nth 0 (<[Z.to_nat i:=v]> (reg s)) 0 = 0) as H0'.
  { rewrite <- H0. destruct (Z.to_nat i) as [|n] eqn:E; [lia|]. by destruct (reg s). }
  pose proof (regs_ok_insert _ _ (Z.to_nat i) v Hr Hv).
  destruct H. by constructor.
Qed.
Lemma inv_fp_set objs nc s i v :
  cpu_inv objs nc s -> fits FLEN v -> cpu_inv objs nc (fp_set i v s).
Proof.
  intros H Hv. pose proof (regs_ok_insert _ _ (Z.to_nat i) v (ci_fp_reg _ _ _ H) Hv).
  destruct H. by constructor.
Qed.
Lemma inv_x0 objs nc s : cpu_inv objs nc s -> reg_get s 0 = 0.
Proof. apply ci_x0. Qed.

(** TLBs. *)
Lemma tlb_ok_put objs t i e : tlb_ok objs t -> entry_ok objs e -> tlb_ok objs (tlb_put i e t).
Proof.
  intros [Hl H] He. split; [by unfold tlb_put; rewrite length_insert|]. by apply Forall_insert.
Qed.
Lemma entry_ok_invalid objs e : entry_ok objs (tlb_invalidate e).
Proof. split; [apply fits_ulong|by left]. Qed.
Lemma tlb_ok_map objs t f :
  tlb_ok objs t -> (forall e, entry_ok objs e -> entry_ok objs (f e)) -> tlb_ok objs (f <$> t).
Proof.
  intros [Hl H] Hf. split; [by rewrite length_fmap|].
  apply Forall_fmap. eapply List.Forall_impl; [|exact H]. intros e. apply Hf.
Qed.
Lemma tlb_ok_get objs t i e : tlb_ok objs t -> tlb_get t i = e -> e = tlb_entry0 \/ entry_ok objs e.
Proof.
  intros [_ H] <-. unfold tlb_get.
  destruct (nth_in_or_default (Z.to_nat i) t tlb_entry0) as [Hin| ->]; [right|by left].
  rewrite List.Forall_forall in H. apply H, Hin.
Qed.
Lemma tlb_idx_range addr : 0 <= tlb_idx addr < TLB_SIZE.
Proof. apply (fits_land_r 8). split; vm_compute; [discriminate|reflexivity]. Qed.
Lemma tlb_ok_get_idx objs t addr : tlb_ok objs t -> entry_ok objs (tlb_get t (tlb_idx addr)).
Proof.
  intros [Hl H]. unfold tlb_get. pose proof (tlb_idx_range addr).
  rewrite List.Forall_forall in H. apply H, nth_In. rewrite Hl.
  apply Z2Nat.inj_lt; lia.
Qed.

Lemma tlb_ok_invalidate objs t : tlb_ok objs t -> tlb_ok objs (tlb_invalidate <$> t).
Proof. intros H. apply tlb_ok_map; [done|]. intros e _. apply entry_ok_invalid. Qed.
Lemma inv_tlb_init objs nc s : cpu_inv objs nc s -> cpu_inv objs nc (tlb_init s).
Proof.
  intros H. apply inv_tlb_code; [apply inv_tlb_write; [apply inv_tlb_read; [exact H|]|]|];
    apply tlb_ok_invalidate; [apply (ci_tlb_read _ _ _ H)|apply (ci_tlb_write _ _ _ H)|
                              apply (ci_tlb_code _ _ _ H)].
Qed.
Lemma inv_flush_write objs nc s p n :
  cpu_inv objs nc s -> cpu_inv objs nc (riscv_cpu_flush_tlb_write_range_ram p n s).
Proof.
  intros H. apply inv_tlb_write; [exact H|].
  apply tlb_ok_map; [apply (ci_tlb_write _ _ _ H)|].
  intros e He. cbv zeta. repeat case_if; try exact He; apply entry_ok_invalid.
Qed.
End Inv.

(** The typing of a chain of assignments: [inv_steps] leaves one goal per value. *)
Ltac inv_step :=
  lazymatch goal with
  | |- cpu_inv _ _ (with_pc _ _) => apply inv_pc
  | |- cpu_inv _ _ (with_fflags _ _) => apply inv_fflags
  | |- cpu_inv _ _ (with_frm _ _) => apply inv_frm
  | |- cpu_inv _ _ (with_cur_xlen _ _) => apply inv_cur_xlen
  | |- cpu_inv _ _ (with_priv _ _) => apply inv_priv
  | |- cpu_inv _ _ (with_fs _ _) => apply inv_fs
  | |- cpu_inv _ _ (with_mxl _ _) => apply inv_mxl
  | |- cpu_inv _ _ (with_insn_counter _ _) => apply inv_insn_counter
  | |- cpu_inv _ _ (with_power_down_flag _ _) => apply inv_power_down
  | |- cpu_inv _ _ (with_pending_exception _ _) => apply inv_pending_exception
  | |- cpu_inv _ _ (with_pending_tval _ _) => apply inv_pending_tval
  | |- cpu_inv _ _ (with_mstatus _ _) => apply inv_mstatus
  | |- cpu_inv _ _ (with_mtvec _ _) => apply inv_mtvec
  | |- cpu_inv _ _ (with_mscratch _ _) => apply inv_mscratch
  | |- cpu_inv _ _ (with_mepc _ _) => apply inv_mepc
  | |- cpu_inv _ _ (with_mcause _ _) => apply inv_mcause
  | |- cpu_inv _ _ (with_mtval _ _) => apply inv_mtval
  | |- cpu_inv _ _ (with_mie _ _) => apply inv_mie
  | |- cpu_inv _ _ (with_mip _ _) => apply inv_mip
  | |- cpu_inv _ _ (with_medeleg _ _) => apply inv_medeleg
  | |- cpu_inv _ _ (with_mideleg _ _) => apply inv_mideleg
  | |- cpu_inv _ _ (with_mcounteren _ _) => apply inv_mcounteren
  | |- cpu_inv _ _ (with_stvec _ _) => apply inv_stvec
  | |- cpu_inv _ _ (with_sscratch _ _) => apply inv_sscratch
  | |- cpu_inv _ _ (with_sepc _ _) => apply inv_sepc
  | |- cpu_inv _ _ (with_scause _ _) => apply inv_scause
  | |- cpu_inv _ _ (with_stval _ _) => apply inv_stval
  | |- cpu_inv _ _ (with_satp _ _) => apply inv_satp
  | |- cpu_inv _ _ (with_scounteren _ _) => apply inv_scounteren
  | |- cpu_inv _ _ (with_load_res _ _) => apply inv_load_res
  | |- cpu_inv _ _ (with_tlb_read _ _) => apply inv_tlb_read
  | |- cpu_inv _ _ (with_tlb_write _ _) => apply inv_tlb_write
  | |- cpu_inv _ _ (with_tlb_code _ _) => apply inv_tlb_code
  | |- cpu_inv _ _ (reg_set _ _ _) => apply inv_reg_set
  | |- cpu_inv _ _ (fp_set _ _ _) => apply inv_fp_set
  | |- cpu_inv _ _ (tlb_init _) => apply inv_tlb_init
  | |- cpu_inv _ _ (tlb_flush_all _) => apply inv_tlb_init
  | |- cpu_inv _ _ (tlb_flush_vaddr _ _) => apply inv_tlb_init
  | |- cpu_inv _ _ (if ?b then _ else _) => destruct b
  end.
Ltac inv_steps := repeat (inv_step || assumption).
