(* ===== verification/CsrInv.v ===== *)
(** * CSR accesses, exceptions and interrupts keep the invariant of the CPU state *)
From S2P Require Export CpuInv.

Section CsrInv.
Context `{cfg : Config}.
Implicit Types (s : RISCVCPUState) (objs : list (Z * Z)) (nc : Z).

Lemma fits_32_xlen x : fits 32 x -> fits MAX_XLEN x.
Proof. intros. eapply fits_ulong_of; [eassumption|lia]. Qed.
Lemma fits_small w x : 0 <= x < 2 ^ 32 -> 32 <= w -> fits w x.
Proof. intros H ?. apply (fits_mono 32); [exact H|lia]. Qed.
Lemma fits_wrap32 x : fits 32 (u32 x).
Proof. apply fits_wrap. lia. Qed.
Lemma fits_wrap64 x : fits 64 (u64 x).
Proof. apply fits_wrap. lia. Qed.
Lemma even_word_fits v : even_word v -> fits MAX_XLEN v.
Proof. by intros [? _]. Qed.
Lemma even_word_mask v m : fits MAX_XLEN v -> Z.testbit m 0 = true -> even_word (v .& Z.lnot m).
Proof.
  intros H Hm. split; [by apply fits_land_l|].
  rewrite Z.land_spec, Z.lnot_spec, Hm by lia. apply andb_false_r.
Qed.
Lemma satp_fits v : satp_ok v -> fits MAX_XLEN v.
Proof.
  intros [H _]. eapply fits_mono; [exact H|]. unfold SATP_W.
  destruct MAX_XLEN_ok as [->|[->| ->]]; simpl; lia.
Qed.
Hint Resolve fits_32_xlen fits_wrap32 fits_wrap64 even_word_fits satp_fits : cint.
Hint Resolve ci_pc ci_fflags ci_frm ci_priv ci_fs ci_mxl ci_insn_counter ci_pending_tval
  ci_mstatus ci_mtvec ci_mscratch ci_mepc ci_mcause ci_mtval ci_mhartid ci_misa ci_mie ci_mip
  ci_medeleg ci_mideleg ci_mcounteren ci_stvec ci_sscratch ci_sepc ci_scause ci_stval ci_satp
  ci_scounteren ci_load_res : cint.
Hint Extern 1 (0 <= _ .& 3 <= 3) => apply land_3 : cint.
Ltac vals := eauto 8 with cint.

Lemma get_base_range x : 1 <= get_base_from_xlen x <= 3.
Proof. unfold get_base_from_xlen. repeat case_if; lia. Qed.
Lemma xlen_code_of n : 0 <= n <= 3 -> xlen_code (1 ≪ (4 + n)).
Proof.
  intros. assert (n = 0 \/ n = 1 \/ n = 2 \/ n = 3) as [->|[->|[->| ->]]] by lia;
    unfold xlen_code; simpl; auto.
Qed.

Lemma set_mstatus_inv objs nc s v :
  cpu_inv objs nc s -> fits MAX_XLEN v -> cpu_inv objs nc (set_mstatus s v).
Proof.
  intros H Hv. unfold set_mstatus. cbv zeta.
  set (s1 := if nz _ || _ then tlb_flush_all s else s).
  assert (cpu_inv objs nc s1) as H1 by (subst s1; inv_steps).
  clearbody s1. apply inv_mstatus; [apply inv_fs; [exact H1|apply land_3]|].
  apply fits_lor; apply fits_land_l; [apply (ci_mstatus _ _ _ H1)|exact Hv].
Qed.

Lemma get_mstatus_fits objs nc s mask :
  cpu_inv objs nc s -> fits MAX_XLEN (get_mstatus s mask).
Proof.
  intros H. pose proof (ci_fs _ _ _ H). pose proof MAX_XLEN_pos.
  assert (fits MAX_XLEN (mstatus s .| (fs s ≪ MSTATUS_FS_SHIFT))).
  { apply fits_lor; [vals|]. apply fits_small; [|lia].
    rewrite Z.shiftl_mul_pow2 by (vm_compute; discriminate).
    change (2 ^ MSTATUS_FS_SHIFT) with 8192. lia. }
  unfold get_mstatus. cbv zeta. case_if; vals.
Qed.

Lemma csr_read_fits objs nc s csr w v :
  cpu_inv objs nc s -> csr_read s csr w = Some v -> fits MAX_XLEN v.
Proof.
  intros H. unfold csr_read.
  pose proof (ci_frm _ _ _ H). pose proof MAX_XLEN_pos.
  assert (fits MAX_XLEN (frm s)) by (apply fits_small; lia).
  assert (fits MAX_XLEN (fflags s .| (frm s ≪ 5))).
  { apply fits_lor; [vals|]. apply fits_small; [|lia].
    rewrite Z.shiftl_mul_pow2 by lia. lia. }
  assert (forall m, fits MAX_XLEN (get_mstatus s m)) by (intros; by eapply get_mstatus_fits).
  repeat match goal with
  | |- context [if ?b then _ else _] => destruct b
  | |- context [match ?x with _ => _ end] => is_var x; destruct x
  end; intros [= <-]; try assumption; try apply fits_ulong; vals.
Qed.

Lemma set_frm_inv objs nc s v :
  cpu_inv objs nc s -> 0 <= v -> cpu_inv objs nc (set_frm s v).
Proof. intros H ?. apply inv_frm; [exact H|]. case_if; lia. Qed.

(** The mode field of the value that a write to satp stores. *)
Lemma satp_mode v mode : 0 <= mode <= 15 ->
  ((u64 ((v .& ((1 ≪ 44) - 1)) .| (mode ≪ 60)) ≫ 60) .& 0xf) = mode.
Proof.
  intros Hm. apply Z.bits_inj'. intros i Hi.
  rewrite Z.land_spec, Z.shiftr_spec, wrap_testbit, Z.lor_spec, Z.land_spec by lia.
  change ((1 ≪ 44) - 1) with (Z.ones 44). change 0xf with (Z.ones 4).
  rewrite !Z.testbit_ones_nonneg, Z.shiftl_spec by lia.
  replace (i + 60 - 60) with i by lia.
  destruct (Z.ltb_spec i 4).
  - destruct (Z.ltb_spec (i + 60) 64), (Z.ltb_spec (i + 60) 44); try lia. btauto.
  - rewrite andb_false_r. symmetry. apply (fits_testbit 4); [split; simpl; lia|lia].
Qed.
Lemma satp_write_ok s v :
  satp_ok (satp s) ->
  satp_ok (if MAX_XLEN =? 32
           then u32 ((v .& ((1 ≪ 22) - 1)) .| (((v ≫ 31) .& 1) ≪ 31))
           else let mode := satp s ≫ 60 in
                let new_mode := (v ≫ 60) .& 0xf in
                let mode := if (new_mode =? 0) || ((8 <=? new_mode) && (new_mode <=? 9))
                            then new_mode else mode in
                u64 ((v .& ((1 ≪ 44) - 1)) .| (mode ≪ 60))).
Proof.
  intros [Hs Hmode]. unfold satp_ok, SATP_W in *. cbv zeta. revert Hs.
  destruct (Z.eqb_spec MAX_XLEN 32) as [|Hn]; intros Hs; [split; [vals|done]|].
  split; [vals|]. intros _. specialize (Hmode Hn).
  pose proof (land_range (v ≫ 60) 0xf ltac:(lia)).
  assert (satp s ≫ 60 = (satp s ≫ 60) .& 0xf) as Heq.
  { assert (0 <= satp s ≫ 60 < 2 ^ 4).
    { rewrite Z.shiftr_div_pow2 by lia. destruct Hs.
      split; [apply Z.div_pos; lia|apply Z.div_lt_upper_bound; lia]. }
    change 0xf with (Z.ones 4). rewrite Z.land_ones by lia. symmetry. by apply Z.mod_small. }
  rewrite Heq.
  destruct (Z.eqb_spec ((v ≫ 60) .& 0xf) 0), (Z.leb_spec 8 ((v ≫ 60) .& 0xf)),
    (Z.leb_spec ((v ≫ 60) .& 0xf) 9); cbn [orb andb]; rewrite satp_mode by lia; lia.
Qed.

Lemma csr_write_inv objs nc s csr v :
  cpu_inv objs nc s -> fits MAX_XLEN v -> cpu_inv objs nc (snd (csr_write s csr v)).
Proof.
  intros H Hv. unfold csr_write.
  pose proof (satp_write_ok s v (ci_satp _ _ _ H)) as Hsatp.
  pose proof (land_3 (v ≫ (cur_xlen s - 2))) as Hmxl.
  assert (fits 32 (v .& 0x1f)) by (apply fits_land_r; split; simpl; lia).
  assert (forall objs nc s v, cpu_inv objs nc s -> cpu_inv objs nc (set_frm s (v .& 7))).
  { intros. apply set_frm_inv; [done|]. apply land_range. lia. }
  assert (even_word (v .& Z.lnot 3) /\ even_word (v .& Z.lnot 1)) as [? ?]
    by (split; by apply even_word_mask).
  cbv zeta in *.
  repeat match goal with
  | |- context [match ?x with _ => _ end] => is_var x; destruct x
  end; cbn [snd]; try assumption; inv_steps; try (by auto); vals.
  - destruct (64 <=? MAX_XLEN); [|exact H].
    destruct (Z.leb_spec 1 ((v ≫ (cur_xlen s - 2)) .& 3)); [|exact H]. cbn [andb].
    repeat case_if; cbn [snd]; try exact H.
    inv_steps; [lia|]. rewrite Z.add_comm. apply xlen_code_of. lia.
  - by apply set_mstatus_inv.
  - apply set_mstatus_inv; vals.
Qed.

(** ** Exceptions and interrupts *)
Lemma set_priv_inv objs nc s p :
  cpu_inv objs nc s -> 0 <= p <= 3 -> cpu_inv objs nc (set_priv s p).
Proof.
  intros H Hp. unfold set_priv. cbv zeta. pose proof (ci_mxl _ _ _ H).
  case_if; [|exact H]. apply inv_priv; [|exact Hp].
  case_if; [|by apply inv_tlb_init].
  apply inv_cur_xlen; [by apply inv_tlb_init|]. apply xlen_code_of.
  change (mxl (tlb_flush_all s)) with (mxl s).
  pose proof (land_3 (mstatus (tlb_flush_all s) ≫ MSTATUS_SXL_SHIFT)).
  pose proof (land_3 (mstatus (tlb_flush_all s) ≫ MSTATUS_UXL_SHIFT)).
  repeat case_if; lia.
Qed.

(** A bit moved to a position below 32. *)
Lemma fits_bit_at x k : 0 <= k < 32 -> fits MAX_XLEN ((x .& 1) ≪ k).
Proof.
  intros Hk. pose proof (land_range x 1 ltac:(lia)). pose proof MAX_XLEN_pos.
  apply fits_small; [|lia]. rewrite Z.shiftl_mul_pow2 by lia.
  assert (0 < 2 ^ k < 2 ^ 32).
  { split; [apply pow2_pos; lia|apply Z.pow_lt_mono_r; lia]. }
  nia.
Qed.
Lemma fits_priv_at p k : 0 <= p <= 3 -> 0 <= k <= 29 -> fits MAX_XLEN (p ≪ k).
Proof.
  intros Hp Hk. pose proof MAX_XLEN_pos. apply fits_small; [|lia].
  rewrite Z.shiftl_mul_pow2 by lia.
  assert (0 < 2 ^ k <= 2 ^ 29).
  { split; [apply pow2_pos; lia|apply Z.pow_le_mono_r; lia]. }
  change (2 ^ 32) with (8 * 2 ^ 29). nia.
Qed.

Ltac mstatus_fits :=
  first [ apply fits_lor | apply fits_land_l
        | apply fits_bit_at; vm_compute; split; congruence
        | apply fits_priv_at; [vals|vm_compute; split; congruence] ].

Lemma raise_exception2_inv objs nc s cause tval :
  cpu_inv objs nc s -> fits MAX_XLEN tval -> cpu_inv objs nc (raise_exception2 s cause tval).
Proof.
  intros H Hv. unfold raise_exception2. cbv zeta.
  set (deleg := if priv s <=? PRV_S then _ else 0).
  set (causel := if nz (cause .& CAUSE_INTERRUPT) then _ else _).
  assert (fits MAX_XLEN causel) as Hc.
  { assert (fits MAX_XLEN (cause .& 0x7fffffff)).
    { apply fits_32_xlen, fits_land_r. split; simpl; lia. }
    subst causel. case_if; vals. }
  clearbody causel. pose proof (ci_priv _ _ _ H) as Hp.
  destruct (nz deleg).
  - match goal with |- cpu_inv _ _ (with_pc _ (set_priv ?s1 _)) =>
      assert (cpu_inv objs nc s1) as H1 by
        (inv_steps; cpu_simpl; repeat mstatus_fits; vals) end.
    pose proof (set_priv_inv _ _ _ PRV_S H1 ltac:(done)) as H2.
    apply inv_pc; [exact H2|apply (ci_stvec _ _ _ H2)].
  - match goal with |- cpu_inv _ _ (with_pc _ (set_priv ?s1 _)) =>
      assert (cpu_inv objs nc s1) as H1 by
        (inv_steps; cpu_simpl; repeat mstatus_fits; vals) end.
    pose proof (set_priv_inv _ _ _ PRV_M H1 ltac:(done)) as H2.
    apply inv_pc; [exact H2|apply (ci_mtvec _ _ _ H2)].
Qed.

Lemma handle_sret_inv objs nc s : cpu_inv objs nc s -> cpu_inv objs nc (handle_sret s).
Proof.
  intros H. unfold handle_sret. cbv zeta.
  pose proof (land_range (mstatus s ≫ MSTATUS_SPP_SHIFT) 1 ltac:(lia)) as Hp.
  match goal with |- cpu_inv _ _ (with_pc _ (set_priv ?s1 ?p)) =>
    assert (cpu_inv objs nc s1) as H1; [|pose proof (set_priv_inv _ _ _ p H1 ltac:(lia)) as H2]
  end.
  { inv_steps; cpu_simpl; repeat first [apply fits_bit_at; lia | mstatus_fits]; vals. }
  apply inv_pc; [exact H2|apply (ci_sepc _ _ _ H2)].
Qed.
Lemma handle_mret_inv objs nc s : cpu_inv objs nc s -> cpu_inv objs nc (handle_mret s).
Proof.
  intros H. unfold handle_mret. cbv zeta.
  pose proof (land_3 (mstatus s ≫ MSTATUS_MPP_SHIFT)) as Hp.
  match goal with |- cpu_inv _ _ (with_pc _ (set_priv ?s1 ?p)) =>
    assert (cpu_inv objs nc s1) as H1; [|pose proof (set_priv_inv _ _ _ p H1 ltac:(lia)) as H2]
  end.
  { inv_steps; cpu_simpl; repeat first [apply fits_bit_at; lia | mstatus_fits]; vals. }
  apply inv_pc; [exact H2|apply (ci_mepc _ _ _ H2)].
Qed.

Lemma raise_interrupt_inv objs nc s :
  cpu_inv objs nc s -> cpu_inv objs nc (snd (raise_interrupt s)).
Proof.
  intros H. unfold raise_interrupt. cbv zeta. case_if; [exact H|].
  apply raise_exception2_inv; [exact H|]. apply fits_0. pose proof MAX_XLEN_pos. lia.
Qed.

Lemma set_mip_inv objs nc s mask :
  cpu_inv objs nc s -> fits 32 mask -> cpu_inv objs nc (riscv_cpu_set_mip mask s).
Proof.
  intros H Hm. unfold riscv_cpu_set_mip. cbv zeta.
  assert (cpu_inv objs nc (with_mip (mip s .| mask) s)) by (inv_steps; vals).
  case_if; [|assumption]. by apply inv_power_down.
Qed.
Lemma reset_mip_inv objs nc s mask :
  cpu_inv objs nc s -> cpu_inv objs nc (riscv_cpu_reset_mip mask s).
Proof. intros H. unfold riscv_cpu_reset_mip. inv_steps. vals. Qed.

(** The state of a new CPU. *)
Lemma regs_ok_zero w : 0 <= w -> regs_ok w (replicate 32 0).
Proof. intros. split; [done|]. apply Forall_replicate. by apply fits_0. Qed.
Lemma tlb_ok_init objs :
  tlb_ok objs (tlb_invalidate <$> replicate (Z.to_nat TLB_SIZE) tlb_entry0).
Proof.
  split; [by rewrite length_fmap, length_replicate|].
  apply Forall_fmap, Forall_replicate. apply entry_ok_invalid.
Qed.

(** The state riscv_cpu_init returns satisfies the invariant, whatever the host
    objects are. *)
Theorem riscv_cpu_init_inv objs : cpu_inv objs 0 riscv_cpu_init.
Proof.
  pose proof MAX_XLEN_pos as Hx. pose proof FLEN_pos as Hf.
  pose proof (get_base_range MAX_XLEN) as Hb.
  assert (forall x, 0 <= x < 2 ^ 32 -> fits MAX_XLEN x) as Hsm by (intros; apply fits_small; lia).
  assert (fits MAX_XLEN 0 /\ even_word 0 /\ even_word 0x1000) as (? & ? & ?).
  { split; [apply Hsm; cbv; split; congruence|]. split; (split; [apply Hsm; cbv; split; congruence|reflexivity]). }
  assert (satp_ok 0).
  { split; [apply fits_0; unfold SATP_W; case_if; lia|]. intros _. by left. }
  assert (xlen_code MAX_XLEN) by (destruct MAX_XLEN_ok as [->|[->| ->]]; unfold xlen_code; auto).
  assert (regs_ok MAX_XLEN (replicate 32 0)) by (apply regs_ok_zero; lia). pose proof (regs_ok_zero FLEN Hf).
  pose proof (tlb_ok_init objs).
  assert (forall x, fits 32 x -> forall b c d : bool,
            fits 32 (misa (let s := with_misa x zeroed in
              let s := if b then with_misa (misa s .| MCPUID_F) s else s in
              let s := if c then with_misa (misa s .| MCPUID_D) s else s in
              let s := if d then with_misa (misa s .| MCPUID_Q) s else s in
              with_misa (misa s .| MCPUID_C) s))) as Hmisa.
  { intros x Hx' [] [] []; cbn; repeat apply fits_lor; try exact Hx';
      split; vm_compute; congruence. }
  specialize (Hmisa (0 .| (MCPUID_SUPER .| MCPUID_USER .| MCPUID_I .| MCPUID_M .| MCPUID_A))
                ltac:(split; vm_compute; congruence)
                (32 <=? FLEN) (64 <=? FLEN) (128 <=? FLEN)).
  unfold riscv_cpu_init. cbv zeta in *.
  destruct (32 <=? FLEN), (64 <=? FLEN), (128 <=? FLEN);
    (constructor; try assumption; try reflexivity; try (vm_compute; split; congruence);
     try apply fits_ulong; try (cbn; lia)).
Qed.
End CsrInv.
