(* ===== verification/IomemFacts.v ===== *)
(** * The physical memory map: lookup, registration, dirty bitmaps *)
From S2P Require Export Iomem.

(** Evaluation of the accesses to a range. *)
Ltac range_simpl :=
  cbn [mbind option_bind fmap option_fmap option_map dirty_bits dirty_bits_tab set_dirty put_dirty_word].

(** ** Pages *)
Lemma land_page x : x .& (DEVRAM_PAGE_SIZE - 1) = x mod 4096.
Proof. change (DEVRAM_PAGE_SIZE - 1) with (Z.ones 12). by rewrite Z.land_ones. Qed.
Lemma ldiff_page x : x .& Z.lnot (DEVRAM_PAGE_SIZE - 1) = x - x mod 4096.
Proof.
  rewrite <- land_page. apply Z.add_cancel_r with (x .& (DEVRAM_PAGE_SIZE - 1)).
  rewrite <- Z.add_lor_land.
  replace ((_ .& _) .& (_ .& _)) with 0.
  - replace (_ .| _) with x; [lia|].
    apply Z.bits_inj'. intros i Hi. rewrite Z.lor_spec, !Z.land_spec, Z.lnot_spec by lia. btauto.
  - apply Z.bits_inj'. intros i Hi.
    rewrite !Z.land_spec, Z.lnot_spec, Z.bits_0 by lia. btauto.
Qed.

Section Lookup.
Context `{cfg : Config}.
Implicit Types (map : PhysMemoryMap) (pr : PhysMemoryRange).

Lemma lookup_from_spec l i paddr :
  match get_phys_mem_range_from i l paddr with
  | Some j => exists k pr, j = (i + k)%nat /\ l !! k = Some pr /\ in_range paddr pr = true /\
                forall k' pr', (k' < k)%nat -> l !! k' = Some pr' -> in_range paddr pr' = false
  | None => forall pr, pr ∈ l -> in_range paddr pr = false
  end.
Proof.
  revert i. induction l as [|pr l IH]; intros i; simpl; [by intros ? ?%elem_of_nil|].
  destruct (in_range paddr pr) eqn:E.
  { exists 0%nat, pr. repeat split; [lia|done|]. intros. lia. }
  specialize (IH (S i)). destruct (get_phys_mem_range_from (S i) l paddr) as [j|].
  - destruct IH as (k & pr' & -> & Hk & Hin & Hfirst). exists (S k), pr'.
    repeat split; [lia|done|done|]. intros [|k'] pr'' Hlt; simpl; [congruence|].
    apply Hfirst. lia.
  - intros pr' [->|?]%elem_of_cons; auto.
Qed.

(** In a well-formed map the upper bound of a range does not wrap. *)
Lemma in_range_wf pr paddr : range_wf pr ->
  in_range paddr pr = true <-> pr_addr pr <= paddr < pr_addr pr + pr_size pr.
Proof.
  intros [Ha Hs Ho He _ _]. unfold in_range.
  assert (wrap 64 (pr_addr pr + pr_size pr) = pr_addr pr + pr_size pr) as ->.
  { apply wrap_fits. split; destruct Hs as [-> | ->]; lia. }
  lia.
Qed.

(** In a well-formed map get_phys_mem_range returns the first enabled range
    that contains the address, and NULL when no range contains it. *)
Theorem get_phys_mem_range_spec map paddr : map_wf map ->
  match get_phys_mem_range map paddr with
  | Some i => exists pr, phys_mem_range map !! i = Some pr /\
      pr_addr pr <= paddr < pr_addr pr + pr_size pr /\
      forall j pr', (j < i)%nat -> phys_mem_range map !! j = Some pr' ->
        ~ pr_addr pr' <= paddr < pr_addr pr' + pr_size pr'
  | None => forall pr, pr ∈ phys_mem_range map -> ~ pr_addr pr <= paddr < pr_addr pr + pr_size pr
  end.
Proof.
  intros [_ Hwf]. rewrite list.Forall_forall in Hwf.
  pose proof (lookup_from_spec (phys_mem_range map) 0 paddr) as H.
  unfold get_phys_mem_range. destruct (get_phys_mem_range_from _ _ _) as [i|].
  - destruct H as (k & pr & -> & Hk & Hin & Hfirst). exists pr.
    assert (forall j pr', phys_mem_range map !! j = Some pr' -> range_wf pr') as Hwf'.
    { intros j pr' Hj. apply Hwf. by eapply list_elem_of_lookup_2. }
    split; [done|]. split; [apply in_range_wf; eauto|].
    intros j pr' Hlt Hj Hin'. apply in_range_wf in Hin'; [|eauto].
    rewrite (Hfirst j pr') in Hin'; done.
  - intros pr Hin Hr. apply in_range_wf in Hr; [|auto]. by rewrite (H pr Hin) in Hr.
Qed.
End Lookup.

(** ** Dirty bitmaps *)
Section Dirty.
Context `{cfg : Config}.
Implicit Types (pr : PhysMemoryRange) (o : Z).

(** The page of an offset is recorded in the bitmap. *)
Definition in_bitmap pr o : Prop := 0 <= o < pr_org_size pr /\ page_aligned (pr_org_size pr).

Lemma page_word pr o t : dirty_wf pr -> dirty_bits pr = Some t -> in_bitmap pr o ->
  exists l, dirty_bits_tab pr !! t = Some l /\ (Z.to_nat (page_index o ≫ 5) < length l)%nat.
Proof.
  intros Hwf Ht [[H0 H1] Hal]. destruct (dw_tabs _ Hwf t Ht) as (l0 & l1 & Htab & Hl0 & Hl1 & Hpages).
  pose proof (dw_ptr _ Hwf t Ht) as ->. pose proof (dw_idx _ Hwf).
  assert (Hlt : page_index o ≫ 5 < Z.of_nat (length l0)).
  { unfold page_index. change DEVRAM_PAGE_SIZE_LOG2 with 12.
    unfold page_aligned in Hal. rewrite land_page in Hal.
    rewrite Z.shiftr_div_pow2 in Hpages by lia. rewrite !Z.shiftr_div_pow2 by lia.
    change (2 ^ 12) with 4096 in *. change (2 ^ 5) with 32.
    apply Z.div_lt_upper_bound; [lia|]. enough (o / 4096 < pr_org_size pr / 4096) by lia.
    Z.to_euclidean_division_equations. lia. }
  assert (0 <= page_index o ≫ 5) by (unfold page_index; rewrite !Z.shiftr_nonneg; lia).
  assert (length l1 = length l0) by lia. rewrite Htab.
  destruct (dirty_bits_index pr) as [|[|]]; [exists l0|exists l1|lia]; split; try done; simpl; lia.
Qed.

Lemma dirty_word_put pr t o o' v : 0 <= o -> 0 <= o' ->
  is_Some (dirty_word pr t (page_index o)) ->
  dirty_word (put_dirty_word t (page_index o) v pr) t (page_index o') =
  if decide (page_index o ≫ 5 = page_index o' ≫ 5) then Some v
  else dirty_word pr t (page_index o').
Proof.
  intros Ho Ho' [w Hw]. unfold dirty_word, put_dirty_word in *; range_simpl.
  destruct (dirty_bits_tab pr !! t) as [l|] eqn:Ht; [|done]; cbn in Hw.
  rewrite list_lookup_alter_eq, Ht; range_simpl.
  assert (0 <= page_index o ≫ 5 /\ 0 <= page_index o' ≫ 5) as [??].
  { unfold page_index. rewrite !Z.shiftr_nonneg. lia. }
  case_decide as E.
  - rewrite <- E. apply list_lookup_insert_eq. by eapply lookup_lt_Some.
  - apply list_lookup_insert_ne. lia.
Qed.

(** One bit of a word that has a bit set. *)
Lemma mask_bit w p p' : 0 <= p -> 0 <= p' ->
  negb (((w .| u32 (1 ≪ (p .& 0x1f))) ≫ (p' .& 0x1f)) .& 1 =? 0) =
  bool_decide (p .& 0x1f = p' .& 0x1f) || negb ((w ≫ (p' .& 0x1f)) .& 1 =? 0).
Proof.
  intros Hp Hp'. assert (forall x, negb (x .& 1 =? 0) = Z.testbit x 0) as Hbit.
  { intros x. apply land_1_testbit. }
  rewrite !Hbit, !Z.shiftr_spec, Z.lor_spec, wrap_testbit by lia.
  pose proof (land_range p 0x1f). pose proof (land_range p' 0x1f).
  rewrite Z.shiftl_spec by lia. rewrite orb_comm, Z.add_0_l. f_equal.
  case_bool_decide as E.
  - rewrite E, Z.sub_diag. destruct (Z.ltb_spec (p' .& 0x1f) 32); [done|lia].
  - destruct (Z.ltb_spec (p' .& 0x1f) 32); [|done]. cbn [andb].
    destruct (Z_lt_le_dec (p' .& 0x1f - p .& 0x1f) 0); [by apply Z.testbit_neg_r|].
    change 1 with (2 ^ 0). rewrite Z.pow2_bits_eqb by lia. lia.
Qed.

Lemma page_split p p' : 0 <= p -> 0 <= p' ->
  p = p' <-> p ≫ 5 = p' ≫ 5 /\ p .& 0x1f = p' .& 0x1f.
Proof.
  intros. change 0x1f with (Z.ones 5). rewrite !Z.land_ones, !Z.shiftr_div_pow2 by lia.
  change (2 ^ 5) with 32. Z.to_euclidean_division_equations. lia.
Qed.

(** Setting the dirty bit of an offset of the range always succeeds (the bitmap
    access is in bounds), makes exactly the pages equal to the offset's page dirty,
    and leaves every other page's bit alone. *)
Theorem set_dirty_bit_spec pr o o' :
  range_wf pr -> pr_is_ram pr = true -> 0 <= o < pr_org_size pr -> 0 <= o' < pr_org_size pr ->
  exists pr', phys_mem_set_dirty_bit pr o = Some pr' /\
    phys_mem_is_dirty_bit pr' o' =
      (fun b => bool_decide (page_index o = page_index o') || b) <$> phys_mem_is_dirty_bit pr o'.
Proof.
  intros Hr Hram Ho0 Ho0'. destruct (rw_ram _ Hr Hram) as (_ & Hal & _ & _ & Hwf).
  assert (in_bitmap pr o /\ in_bitmap pr o') as [Ho Ho'] by (split; split; assumption).
  unfold phys_mem_set_dirty_bit, phys_mem_is_dirty_bit.
  destruct (dirty_bits pr) as [t|] eqn:Ht.
  2:{ exists pr. rewrite Ht. split; [done|]. range_simpl. by rewrite orb_true_r. }
  destruct (page_word pr o t) as (l & Hl & Hlt); [done..|].
  destruct (page_word pr o' t) as (l' & Hl' & Hlt'); [done..|].
  assert (is_Some (dirty_word pr t (page_index o))) as [w Hw].
  { unfold dirty_word. rewrite Hl. by apply lookup_lt_is_Some_2. }
  assert (is_Some (dirty_word pr t (page_index o'))) as [w' Hw'].
  { unfold dirty_word. rewrite Hl'. by apply lookup_lt_is_Some_2. }
  rewrite Hw. range_simpl. eexists. split; [done|]. unfold put_dirty_word at 1. range_simpl. rewrite Ht.
  assert (0 <= page_index o /\ 0 <= page_index o') as [??].
  { unfold page_index. rewrite !Z.shiftr_nonneg. lia. }
  rewrite dirty_word_put; [|lia|lia|by rewrite Hw; eauto]. rewrite Hw'. range_simpl.
  pose proof (page_split (page_index o) (page_index o')) as Hsplit.
  case_decide as E; range_simpl; f_equal.
  - assert (w = w') as -> by (unfold dirty_word in *; rewrite E in Hw; congruence).
    unfold page_mask. rewrite mask_bit by done. f_equal. apply bool_decide_ext. tauto.
  - rewrite bool_decide_false by tauto. done.
Qed.

Lemma put_dirty_word_wf pr t o v : dirty_wf pr -> dirty_wf (put_dirty_word t o v pr).
Proof.
  intros [Hp Hi Ht]. split; simpl; [exact Hp|exact Hi|].
  intros t' Ht'. destruct (Ht t' Ht') as (l0 & l1 & Htab & Hl0 & Hl1 & Hn). rewrite Htab.
  destruct t as [|[|t]]; simpl; eexists _, _; (split; [reflexivity|]);
    rewrite ?length_insert; auto.
Qed.
Lemma put_dirty_word_range_wf pr t o v : range_wf pr -> range_wf (put_dirty_word t o v pr).
Proof.
  intros [? ? ? ? Hram ?]. split; try assumption. intros Hr.
  destruct (Hram Hr) as (?&?&?&?&?). repeat split; try assumption.
  1-3: by apply put_dirty_word_wf.
Qed.
Lemma set_dirty_bit_ok pr o : range_wf pr -> pr_is_ram pr = true -> 0 <= o < pr_org_size pr ->
  exists pr', phys_mem_set_dirty_bit pr o = Some pr' /\ range_wf pr' /\
    pr_phys_mem pr' = pr_phys_mem pr /\ pr_org_size pr' = pr_org_size pr /\
    pr_is_ram pr' = pr_is_ram pr.
Proof.
  intros Hwf Hram Ho. destruct (rw_ram _ Hwf Hram) as (_ & Hal & _ & _ & Hd).
  unfold phys_mem_set_dirty_bit. destruct (dirty_bits pr) as [t|] eqn:Ht; [|by exists pr].
  destruct (page_word pr o t Hd Ht) as (l & Hl & Hlt); [by split|].
  unfold dirty_word. rewrite Hl. simpl.
  destruct (lookup_lt_is_Some_2 _ _ Hlt) as [w Hw]. rewrite Hw. simpl.
  eexists. split; [done|]. split; [by apply put_dirty_word_range_wf|done].
Qed.
End Dirty.

(** Two ranges: RAM with a bitmap at 0, a device above it. *)
Definition example_ram : PhysMemoryRange :=
  {| pr_addr := 0; pr_org_size := 0x2000; pr_size := 0x2000; pr_is_ram := true; devram_flags := 0;
     pr_phys_mem := 0x10000; dirty_bits_size := 4; dirty_bits := Some 0%nat;
     dirty_bits_tab := [[0]; [0]]; dirty_bits_index := 0; pr_opaque := 0; devio_flags := 0 |}.
Definition example_dev : PhysMemoryRange :=
  {| pr_addr := 0x1000; pr_org_size := 0x3000; pr_size := 0x3000; pr_is_ram := false; devram_flags := 0;
     pr_phys_mem := 0; dirty_bits_size := 0; dirty_bits := None;
     dirty_bits_tab := [[]; []]; dirty_bits_index := 0; pr_opaque := 1; devio_flags := DEVIO_SIZE32 |}.
Lemma example_ram_wf : @range_wf cfg_rv32_js example_ram.
Proof.
  split; cbn; try lia. intros _.
  split; [done|]. split; [done|]. split; [done|]. split; [vm_compute; congruence|].
  split; cbn; [by intros t [= <-]|lia|]. intros t _. exists [0], [0]. split; [done|]. vm_compute. repeat split; congruence.
Qed.
Lemma example_dev_wf : @range_wf cfg_rv32_js example_dev.
Proof. split; cbn; lia. Qed.

Lemma get_phys_mem_range_spec_witness :
  get_phys_mem_range {| phys_mem_range := [example_ram; example_dev] |} 0x2004 = Some 1%nat /\
  get_phys_mem_range {| phys_mem_range := [example_ram; example_dev] |} 0x1004 = Some 0%nat /\
  forall pr', [example_ram; example_dev] !! 0%nat = Some pr' ->
    ~ pr_addr pr' <= 0x2004 < pr_addr pr' + pr_size pr'.
Proof.
  pose proof (@get_phys_mem_range_spec cfg_rv32_js {| phys_mem_range := [example_ram; example_dev] |} 0x2004)
    as H.
  split; [reflexivity|]. split; [reflexivity|]. intros pr' Hpr'.
  destruct H as (pr & _ & _ & Hfirst).
  - split; [cbn; unfold PHYS_MEM_RANGE_MAX; lia|].
    repeat apply List.Forall_cons; [apply example_ram_wf|apply example_dev_wf|apply List.Forall_nil].
  - by apply (Hfirst 0%nat); [lia|].
Defined.

Lemma set_dirty_bit_spec_witness :
  exists pr', phys_mem_set_dirty_bit example_ram 0x1ffc = Some pr' /\
    phys_mem_is_dirty_bit pr' 0x1000 = Some true /\ phys_mem_is_dirty_bit pr' 0 = Some false.
Proof.
  destruct (@set_dirty_bit_spec cfg_rv32_js example_ram 0x1ffc 0x1000) as (pr' & Hset & Hd);
    [apply example_ram_wf|reflexivity|cbn; lia|cbn; lia|].
  exists pr'. split; [exact Hset|]. split; [rewrite Hd; reflexivity|].
  vm_compute in Hset. injection Hset as <-. reflexivity.
Defined.
