(* ===== verification/MmuInv.v ===== *)
(** * The invariant of a run, and the memory accesses that keep it

    [good m R]: from any state that satisfies [sys_inv], [m] either returns with a
    result in [R] and a state that satisfies [sys_inv] again, or stops for one of
    the reasons the emulator itself gives (abort, assert, exit): it never leaves
    the host objects and the model's recursion bounds are never reached. *)
From S2P Require Export Mmu CpuInv CsrInv IomemFacts.

Section Good.
Context `{cfg : Config} {W : Type} (winv : W -> Prop) (objs : list (Z * Z)).

Record sys_inv (nc : Z) (σ : Sys W) : Prop := {
  si_map : map_wf (mem_map σ);
  si_objs : ram_objs (mem_map σ) = objs;
  si_cpu : cpu_inv objs nc (cpu σ);
  si_world : winv (world σ);
}.

Definition good {A} (m : M (Sys W) A) (R : A -> Prop) : Prop :=
  forall nc σ, sys_inv nc σ -> wp m safe_stop (fun a σ' => R a /\ sys_inv nc σ') σ.

Lemma good_ret {A} (a : A) (R : A -> Prop) : R a -> good (mret a) R.
Proof. intros HR nc σ H. by apply wp_ret. Qed.
Lemma good_bind {A B} (m : M (Sys W) A) (k : A -> M (Sys W) B) R R' :
  good m R -> (forall a, R a -> good (k a) R') -> good (m ≫= k) R'.
Proof.
  intros Hm Hk nc σ H. apply wp_bind. eapply wp_mono; [by apply Hm|].
  intros a σ' [HR H']. by apply Hk.
Qed.
Lemma good_mono {A} (m : M (Sys W) A) (R R' : A -> Prop) :
  good m R -> (forall a, R a -> R' a) -> good m R'.
Proof.
  intros Hm HR nc σ H. eapply wp_mono; [by apply Hm|]. intros a σ' [??]. auto.
Qed.
Lemma good_stop {A} r (R : A -> Prop) : safe_stop r -> good (stop_with r) R.
Proof. intros Hr nc σ H. by apply wp_stop. Qed.
Lemma good_assert b : good (assert b) (fun _ => b = true).
Proof. destruct b; [by apply good_ret|by apply good_stop]. Qed.
Lemma good_getc : good getc (fun s => exists nc, cpu_inv objs nc s).
Proof. intros nc σ H. apply wp_gets. split; [exists nc; apply (si_cpu _ _ H)|exact H]. Qed.
Lemma good_gets {A} (f : Sys W -> A) : good (gets f) (fun _ => True).
Proof. intros nc σ H. by apply wp_gets. Qed.
Lemma sys_inv_cpu nc nc' σ s : sys_inv nc σ -> cpu_inv objs nc' s ->
  sys_inv nc' (upd_cpu (fun _ => s) σ).
Proof. intros [] ?. by constructor. Qed.
Lemma good_updc f :
  (forall nc s, cpu_inv objs nc s -> cpu_inv objs nc (f s)) -> good (updc f) (fun _ => True).
Proof.
  intros Hf nc σ H. apply wp_modify. split; [done|].
  apply (sys_inv_cpu nc nc σ (f (cpu σ)) H), Hf, (si_cpu _ _ H).
Qed.
Lemma good_callc {A} (f : RISCVCPUState -> A * RISCVCPUState) (R : A -> Prop) :
  (forall nc s, cpu_inv objs nc s -> R (fst (f s)) /\ cpu_inv objs nc (snd (f s))) ->
  good (callc f) R.
Proof.
  intros Hf nc σ H. unfold wp, callc. destruct (Hf _ _ (si_cpu _ _ H)) as [HR Hs].
  destruct (f (cpu σ)) as [a s]. split; [exact HR|]. by apply (sys_inv_cpu nc nc σ s).
Qed.
Lemma good_if {A} (b : bool) (m1 m2 : M (Sys W) A) R :
  (b = true -> good m1 R) -> (b = false -> good m2 R) -> good (if b then m1 else m2) R.
Proof. destruct b; auto. Qed.

(** ** Host memory *)
Lemma good_host_read n p :
  host_ok objs p (Z.of_nat n) = true -> good (host_read n p) (fits (8 * Z.of_nat n)).
Proof.
  intros Hp nc σ H. unfold wp, host_read. rewrite (si_objs _ _ H), Hp.
  split; [apply host_load_fits|exact H].
Qed.
Lemma good_host_write n p v :
  host_ok objs p (Z.of_nat n) = true -> good (host_write n p v) (fun _ => True).
Proof.
  intros Hp nc σ H. unfold wp, host_write. rewrite (si_objs _ _ H), Hp.
  split; [done|]. destruct H. by constructor.
Qed.

(** ** RAM ranges *)
Definition ram_ok (pr : PhysMemoryRange) (paddr : Z) : Prop :=
  range_wf pr /\ pr_addr pr <= u64 paddr < pr_addr pr + pr_size pr /\
  (pr_is_ram pr = true -> In (pr_phys_mem pr, pr_org_size pr) objs).

(** The state in which find_range answered. *)
Lemma good_find_range {A} paddr (k : option (nat * PhysMemoryRange) -> M (Sys W) A) R :
  good (k None) R ->
  (forall i pr, ram_ok pr paddr ->
     forall nc σ, sys_inv nc σ -> phys_mem_range (mem_map σ) !! i = Some pr ->
     wp (k (Some (i, pr))) safe_stop (fun a σ' => R a /\ sys_inv nc σ') σ) ->
  good (find_range paddr ≫= k) R.
Proof.
  intros Hnone Hsome nc σ H. apply wp_bind. unfold wp at 1, find_range.
  pose proof (get_phys_mem_range_spec (mem_map σ) (u64 paddr) (si_map _ _ H)) as Hspec.
  destruct (get_phys_mem_range _ _) as [i|]; simpl; [|by apply Hnone].
  destruct Hspec as (pr & Hi & Hr & _). rewrite Hi. simpl. apply Hsome; [|exact H|exact Hi].
  destruct (si_map _ _ H) as [_ Hwf]. rewrite list.Forall_forall in Hwf.
  pose proof (list_elem_of_lookup_2 _ _ _ Hi) as Hin.
  split; [by apply Hwf|]. split; [exact Hr|]. intros Hram.
  rewrite <- (si_objs _ _ H). unfold ram_objs. apply list_elem_of_In, list_elem_of_fmap.
  exists pr. split; [done|]. by apply list_elem_of_filter.
Qed.
End Good.

(** ** Addresses within pages *)
Section Pages.
Context `{cfg : Config}.

Definition page_off (x : Z) : Z := x mod 4096.
Lemma page_off_range x : 0 <= page_off x < 4096.
Proof. apply Z.mod_pos_bound. lia. Qed.
Lemma PG_MASK_off x : x .& PG_MASK = page_off x.
Proof. apply land_page. Qed.
Lemma PG_MASK_base x : x .& Z.lnot PG_MASK = x - page_off x.
Proof. apply ldiff_page. Qed.
Lemma page_off_wrap w x : 12 <= w -> page_off (wrap w x) = page_off x.
Proof. intros. unfold page_off. change 4096 with (2 ^ 12). apply (wrap_wrap 12). lia. Qed.
Lemma page_off_ulong x : page_off (ulong x) = page_off x.
Proof. apply page_off_wrap. pose proof MAX_XLEN_pos. lia. Qed.
Lemma page_off_u64 x : page_off (u64 x) = page_off x.
Proof. apply page_off_wrap. lia. Qed.
Lemma page_off_add x y : page_off x + y < 4096 -> 0 <= y -> page_off (x + y) = page_off x + y.
Proof.
  unfold page_off. intros. rewrite Z.add_mod by lia.
  pose proof (Z.mod_pos_bound x 4096 ltac:(lia)). rewrite (Z.mod_small y) by lia.
  apply Z.mod_small. lia.
Qed.

(** Access sizes: [k] is size_log2. *)
Definition aligned (k x : Z) : Prop := x mod 2 ^ k = 0.
Lemma aligned_off k x : 0 <= k <= 4 -> aligned k x <-> aligned k (page_off x).
Proof.
  intros Hk. unfold aligned, page_off.
  replace 4096 with (2 ^ k * 2 ^ (12 - k)) by 
    (rewrite <- Z.pow_add_r by lia; replace (k + (12 - k)) with 12 by lia; reflexivity).
  pose proof (pow2_pos k ltac:(lia)). pose proof (pow2_pos (12 - k) ltac:(lia)).
  rewrite Z.rem_mul_r by lia. rewrite Z.mul_comm, Z.mod_add by (apply pow2_nz; lia).
  rewrite Z.mod_mod by (apply pow2_nz; lia). done.
Qed.
Lemma aligned_bound k x : 0 <= k <= 4 -> aligned k x -> page_off x + 2 ^ k <= 4096.
Proof.
  intros Hk Ha. apply (aligned_off k x Hk) in Ha. unfold aligned in Ha.
  pose proof (page_off_range x). set (o := page_off x) in *. clearbody o.
  assert (k = 0 \/ k = 1 \/ k = 2 \/ k = 3 \/ k = 4) as [->|[->|[->|[->| ->]]]] by lia;
    simpl in *; Z.to_euclidean_division_equations; lia.
Qed.
Lemma aligned_mask k x : 0 <= k -> x .& ((1 ≪ k) - 1) = x mod 2 ^ k.
Proof.
  intros. rewrite Z.shiftl_mul_pow2, Z.mul_1_l by lia.
  rewrite <- Z.land_ones, Z.ones_equiv by lia. done.
Qed.
Lemma nbytes_pow k : 0 <= k -> Z.of_nat (nbytes k) = 2 ^ k.
Proof.
  intros. unfold nbytes. rewrite Z.shiftl_mul_pow2, Z.mul_1_l by lia.
  apply Z2Nat.id. pose proof (pow2_pos k). lia.
Qed.

(** The tag of an access: its page, or no page at all when it is unaligned. *)
Lemma tlb_tag_hit k addr v : 0 <= k <= 4 -> v .& PG_MASK = 0 -> v = tlb_tag k addr ->
  v = addr - page_off addr /\ aligned k addr.
Proof.
  intros Hk Hv ->. unfold tlb_tag in *.
  assert (addr mod 2 ^ k = 0) as Ha.
  { rewrite <- aligned_mask by lia. apply Z.bits_inj'. intros i Hi.
    assert (Z.testbit ((addr .& Z.lnot (PG_MASK .& Z.lnot ((1 ≪ k) - 1))) .& PG_MASK) i = false)
      as Hb by (rewrite Hv; apply Z.bits_0).
    rewrite Z.bits_0. revert Hb.
    replace ((1 ≪ k) - 1) with (Z.ones k) by
      (rewrite Z.shiftl_mul_pow2, Z.ones_equiv by lia; lia).
    change PG_MASK with (Z.ones 12).
    rewrite !Z.land_spec, Z.lnot_spec, !Z.land_spec, Z.lnot_spec, !Z.testbit_ones_nonneg by lia.
    destruct (Z.ltb_spec i k); [|by rewrite !andb_false_r].
    destruct (Z.ltb_spec i 12); [|lia]. cbn. by rewrite !andb_true_r. }
  split; [|exact Ha]. rewrite <- PG_MASK_base. revert Hv.
  replace (Z.lnot (PG_MASK .& Z.lnot ((1 ≪ k) - 1)))
    with (Z.lnot PG_MASK .| ((1 ≪ k) - 1)).
  2:{ apply Z.bits_inj'. intros i Hi.
      rewrite Z.lor_spec, !Z.lnot_spec, Z.land_spec, Z.lnot_spec by lia. btauto. }
  intros _. apply Z.bits_inj'. intros i Hi.
  assert (Z.testbit (addr .& ((1 ≪ k) - 1)) i = false) as Hb.
  { rewrite aligned_mask, Ha by lia. apply Z.bits_0. }
  rewrite Z.land_spec in Hb. rewrite !Z.land_spec, Z.lor_spec.
  destruct (Z.testbit addr i); [|done]. cbn in *. rewrite Hb. by rewrite orb_false_r.
Qed.
Lemma tlb_tag_valid k addr : 0 <= k <= 4 -> tlb_tag k addr <> ulong (-1).
Proof.
  intros Hk E. assert (Z.testbit (tlb_tag k addr) 11 = Z.testbit (ulong (-1)) 11) as Hb by (by rewrite E).
  unfold tlb_tag, ulong in Hb. pose proof MAX_XLEN_pos.
  replace ((1 ≪ k) - 1) with (Z.ones k) in Hb by
    (rewrite Z.shiftl_mul_pow2, Z.ones_equiv by lia; lia).
  change PG_MASK with (Z.ones 12) in Hb.
  rewrite wrap_testbit, Z.land_spec, Z.lnot_spec, Z.land_spec, Z.lnot_spec,
    !Z.testbit_ones_nonneg in Hb by lia.
  destruct (Z.ltb_spec 11 MAX_XLEN), (Z.ltb_spec 11 k); try lia.
  simpl in Hb. by rewrite andb_false_r in Hb.
Qed.

(** The tag of an aligned access is its page. *)
Lemma tlb_tag_aligned k addr : 0 <= k <= 4 -> aligned k addr ->
  tlb_tag k addr = addr - page_off addr.
Proof.
  intros Hk Ha. rewrite <- PG_MASK_base. unfold tlb_tag. apply Z.bits_inj'. intros i Hi.
  assert (Z.testbit (addr .& ((1 ≪ k) - 1)) i = false) as Hb.
  { rewrite aligned_mask by lia. rewrite Ha. apply Z.bits_0. }
  rewrite Z.land_spec in Hb.
  rewrite !Z.land_spec, !Z.lnot_spec, Z.land_spec, Z.lnot_spec by lia.
  destruct (Z.testbit addr i); [|done]. cbn in *. rewrite Hb. btauto.
Qed.
End Pages.

(** ** Pages of host objects *)
Section Hosts.
Context `{cfg : Config} {W : Type} (winv : W -> Prop) (objs : list (Z * Z)).

(** No object reaches the last page of the host address space. *)
Definition objs_wf : Prop :=
  Forall (fun o => 0 < o.1 /\ 0 <= o.2 /\ o.1 + o.2 <= 2 ^ UINTPTR_W - 4096) objs.
(** A whole page of host memory. *)
Definition host_page (p : Z) : Prop := host_ok objs p 4096 = true.

Lemma sys_inv_objs nc (σ : Sys W) : sys_inv winv objs nc σ -> objs_wf.
Proof.
  intros [[_ Hwf] Ho _ _]. unfold objs_wf. rewrite <- Ho. unfold ram_objs.
  apply list.Forall_forall. intros o (pr & -> & [Hram Hin]%list_elem_of_filter)%list_elem_of_fmap.
  rewrite list.Forall_forall in Hwf. specialize (Hwf pr Hin).
  destruct (rw_ram _ Hwf Hram) as (_ & _ & ? & ? & _). pose proof (rw_org _ Hwf). simpl.
  change DEVRAM_PAGE_SIZE with 4096 in *. lia.
Qed.
Lemma good_objs {A} (m : M (Sys W) A) R :
  (objs_wf -> good winv objs m R) -> good winv objs m R.
Proof. intros H nc σ Hs. apply H; [by eapply sys_inv_objs|exact Hs]. Qed.

Lemma host_page_range p : objs_wf -> host_page p -> 0 < p /\ p + 4096 <= 2 ^ UINTPTR_W - 4096.
Proof.
  unfold objs_wf, host_page, host_ok. rewrite list.Forall_forall.
  intros Hwf (o & Hin & Ho)%existsb_exists.
  apply list_elem_of_In in Hin. specialize (Hwf o Hin). lia.
Qed.
Lemma host_page_access p k o : 0 <= k <= 4 -> host_page p -> 0 <= o -> o + 2 ^ k <= 4096 ->
  host_ok objs (p + o) (Z.of_nat (nbytes k)) = true.
Proof. intros. rewrite nbytes_pow by lia. eapply host_ok_sub; [eassumption|lia|lia]. Qed.

(** The offset of an address in its range. *)
Lemma range_offset pr paddr : range_wf pr -> pr_is_ram pr = true ->
  pr_addr pr <= u64 paddr < pr_addr pr + pr_size pr ->
  uptr (paddr - pr_addr pr) = u64 paddr - pr_addr pr /\
  0 <= u64 paddr - pr_addr pr < pr_org_size pr.
Proof.
  intros Hwf Hram Hr. destruct (rw_ram _ Hwf Hram) as (_ & _ & ? & ? & _).
  pose proof (rw_org _ Hwf). pose proof UINTPTR_W_pos.
  assert (pr_size pr <= pr_org_size pr) by (destruct (rw_size _ Hwf) as [-> | ->]; lia).
  change DEVRAM_PAGE_SIZE with 4096 in *. split; [|lia].
  rewrite <- (uptr_fits (u64 paddr - pr_addr pr)) by (split; lia).
  unfold uptr. destruct (wrap_decomp 64 paddr) as [q Hq]; [lia|]. rewrite Hq.
  symmetry. apply (wrap_eq UINTPTR_W _ _ (q * 2 ^ (64 - UINTPTR_W))); [lia|].
  rewrite <- Z.mul_assoc, <- Z.pow_add_r by lia.
  replace (64 - UINTPTR_W + UINTPTR_W) with 64 by lia. lia.
Qed.

(** The host page of a RAM address. *)
Lemma ram_page pr paddr : ram_ok objs pr paddr -> pr_is_ram pr = true ->
  host_page (ram_ptr pr paddr - page_off paddr).
Proof.
  intros (Hwf & Hr & Hin) Hram. specialize (Hin Hram).
  destruct (rw_ram _ Hwf Hram) as (Ha & Hs & _). unfold page_aligned in *.
  rewrite land_page in Ha, Hs.
  destruct (range_offset _ _ Hwf Hram Hr) as [Hoff Hlt]. unfold ram_ptr. rewrite Hoff.
  unfold host_page, host_ok. apply existsb_exists.
  exists (pr_phys_mem pr, pr_org_size pr). split; [exact Hin|]. simpl.
  rewrite <- page_off_u64. unfold page_off.
  set (u := u64 paddr) in *. clearbody u. clear -Ha Hs Hlt.
  apply andb_true_intro. rewrite !Z.leb_le. Z.to_euclidean_division_equations. lia.
Qed.
Lemma ram_access pr paddr k : 0 <= k <= 4 -> ram_ok objs pr paddr -> pr_is_ram pr = true ->
  aligned k paddr -> host_ok objs (ram_ptr pr paddr) (Z.of_nat (nbytes k)) = true.
Proof.
  intros Hk Hok Hram Ha. pose proof (ram_page _ _ Hok Hram) as Hp.
  replace (ram_ptr pr paddr) with (ram_ptr pr paddr - page_off paddr + page_off paddr) by lia.
  apply host_page_access; [done|done|apply page_off_range|by apply aligned_bound].
Qed.

(** The entry that a slow path installs is valid. *)
Lemma uptr_page m a : uptr (uptr (m - a) + uptr (a - page_off a)) = uptr (m - page_off a).
Proof.
  unfold uptr, wrap. rewrite <- Z.add_mod by (apply pow2_nz; pose proof UINTPTR_W_pos; lia).
  f_equal. lia.
Qed.
Lemma tlb_fill_ok addr ptr : objs_wf -> fits MAX_XLEN addr ->
  host_page (ptr - page_off addr) -> entry_ok objs (tlb_fill addr ptr).
Proof.
  intros Hwf Hf Hp. split; simpl; [by apply fits_land_l|]. right.
  rewrite PG_MASK_base, PG_MASK_off, uptr_page.
  destruct (host_page_range _ Hwf Hp). rewrite uptr_fits by (split; lia).
  split; [|exact Hp]. unfold page_off. rewrite Zminus_mod_idemp_r, Z.sub_diag. done.
Qed.

(** A TLB hit designates host memory of the access. *)
Lemma tlb_hit_page e k addr : objs_wf -> 0 <= k <= 4 -> entry_ok objs e ->
  vaddr e = tlb_tag k addr ->
  aligned k addr /\ host_page (tlb_ptr e addr - page_off addr).
Proof.
  intros Hwf Hk [_ He] Htag. destruct He as [He|[Hv Hp]].
  { rewrite He in Htag. by destruct (tlb_tag_valid k addr Hk). }
  destruct (tlb_tag_hit k addr _ Hk Hv Htag) as [Hva Ha]. split; [exact Ha|].
  rewrite Hva in Hp. destruct (host_page_range _ Hwf Hp) as [Hp0 Hp1].
  enough (tlb_ptr e addr = uptr (mem_addend e + uptr (addr - page_off addr)) + page_off addr) as ->.
  { rewrite Z.add_simpl_r. exact Hp. }
  unfold tlb_ptr. pose proof (page_off_range addr). pose proof UINTPTR_W_pos.
  rewrite <- (uptr_fits (uptr (mem_addend e + uptr (addr - page_off addr)) + page_off addr))
    by (split; lia).
  unfold uptr, wrap. assert (2 ^ UINTPTR_W <> 0) by (apply pow2_nz; lia).
  rewrite !Z.add_mod_idemp_r, Z.add_mod_idemp_l by done. f_equal. lia.
Qed.
Lemma tlb_hit_access e k addr : objs_wf -> 0 <= k <= 4 -> entry_ok objs e ->
  vaddr e = tlb_tag k addr -> host_ok objs (tlb_ptr e addr) (Z.of_nat (nbytes k)) = true.
Proof.
  intros Hwf Hk He Htag. destruct (tlb_hit_page e k addr Hwf Hk He Htag) as [Ha Hp].
  replace (tlb_ptr e addr) with (tlb_ptr e addr - page_off addr + page_off addr) by lia.
  apply host_page_access; [done|done|apply page_off_range|by apply aligned_bound].
Qed.
End Hosts.

(** ** What the CPU needs of the device callbacks *)
Class PlatformSafe `{cfg : Config} {W : Type} {plat : Platform W} (winv : W -> Prop)
    (objs : list (Z * Z)) : Prop := {
  ps_read : forall op off k, fits 32 off -> good winv objs (read_func op off k) (fits 32);
  ps_write : forall op off v k, fits 32 off -> fits 32 v ->
    good winv objs (write_func op off v k) (fun _ => True);
}.

(** Case analysis of a [good] goal along the code. *)
Ltac good_step :=
  match goal with
  | |- good _ _ (mret _) _ => apply good_ret
  | |- good _ _ (stop_with _) _ => apply good_stop; split; discriminate
  | |- good _ _ (if ?b then _ else _) _ => apply good_if; intros ?
  | |- good _ _ (getc ≫= _) _ => eapply good_bind; [apply good_getc|intros ? [? ?]]
  | |- good _ _ (gets _ ≫= _) _ => eapply good_bind; [apply good_gets|intros ? _]
  | |- good _ _ (updc _ ≫= _) _ => eapply good_bind; [apply good_updc; intros|intros ? _]
  | |- good _ _ (updc _) _ => eapply good_mono; [apply good_updc; intros|intros ? _]
  end.

Section Access.
Context `{cfg : Config} {W : Type} `{plat : Platform W}
  (winv : W -> Prop) (objs : list (Z * Z)) `{!PlatformSafe winv objs}.
Local Abbreviation good := (good winv objs).

Definition opt {A} (R : A -> Prop) (r : option A) : Prop :=
  match r with None => True | Some a => R a end.

Lemma good_opt_bind {A B} (m : M (Sys W) (option A)) (k : A -> M (Sys W) (option B)) R R' :
  good m (opt R) -> (forall a, R a -> good (k a) (opt R')) ->
  good (m ≫= fun r => match r with None => mret None | Some x => k x end) (opt R').
Proof.
  intros Hm Hk. eapply good_bind; [exact Hm|]. intros [a|] HR; [by apply Hk|by apply good_ret].
Qed.

Lemma good_find_range' {A} paddr (k : option (nat * PhysMemoryRange) -> M (Sys W) A) R :
  good (k None) R ->
  (forall i pr, ram_ok objs pr paddr -> good (k (Some (i, pr))) R) ->
  good (find_range paddr ≫= k) R.
Proof.
  intros Hnone Hsome. apply good_find_range; [exact Hnone|].
  intros i pr Hok nc σ Hs _. by apply Hsome.
Qed.

(** ** Page-table accesses *)
Lemma good_phys_read k a : 0 <= k <= 4 -> aligned k a ->
  good (phys_read (nbytes k) a) (fits (8 * 2 ^ k)).
Proof.
  intros Hk Ha. assert (fits (8 * 2 ^ k) 0) by (apply fits_0; pose proof (pow2_pos k); lia).
  apply good_find_range'; [by apply good_ret|]. intros i pr Hok. good_step; [|by apply good_ret].
  rewrite <- nbytes_pow by lia. apply good_host_read. by apply ram_access.
Qed.
Lemma good_phys_write k a v : 0 <= k <= 4 -> aligned k a ->
  good (phys_write (nbytes k) a v) (fun _ => True).
Proof.
  intros Hk Ha. apply good_find_range'; [by apply good_ret|].
  intros i pr Hok. good_step; [|by apply good_ret].
  apply good_host_write. by apply ram_access.
Qed.

(** ** Translation *)
Lemma page_off_bits x y :
  (forall i, 0 <= i < 12 -> Z.testbit x i = Z.testbit y i) -> page_off x = page_off y.
Proof.
  intros H. rewrite <- !PG_MASK_off. change PG_MASK with (Z.ones 12).
  apply Z.bits_inj'. intros i Hi. rewrite !Z.land_spec, !Z.testbit_ones_nonneg by lia.
  destruct (Z.ltb_spec i 12); [|by rewrite !andb_false_r]. by rewrite H by lia.
Qed.
Lemma ulong_ones n : 0 <= n < MAX_XLEN -> ulong (1 ≪ n) - 1 = Z.ones n.
Proof.
  intros Hn. rewrite Z.shiftl_mul_pow2, Z.mul_1_l, Z.ones_equiv by lia.
  assert (0 < 2 ^ n < 2 ^ MAX_XLEN) by (split; [apply pow2_pos; lia|apply Z.pow_lt_mono_r; lia]).
  rewrite ulong_fits by (split; lia). lia.
Qed.
Lemma vaddr_mask_ones vs : 0 <= vs < MAX_XLEN -> ulong (ulong (1 ≪ vs) - 1) = Z.ones vs.
Proof.
  intros Hvs. rewrite ulong_ones by lia. apply ulong_fits.
  rewrite Z.ones_equiv. assert (2 ^ vs < 2 ^ MAX_XLEN) by (apply Z.pow_lt_mono_r; lia).
  assert (0 < 2 ^ vs) by (apply pow2_pos; lia). split; lia.
Qed.
Definition pa_ok (va pa : Z) : Prop := fits MAX_XLEN pa /\ page_off pa = page_off va.
Lemma leaf_pa_ok va paddr vs : 12 <= vs < MAX_XLEN -> fits MAX_XLEN va -> fits MAX_XLEN paddr ->
  pa_ok va ((va .& Z.ones vs) .| (paddr .& Z.lnot (Z.ones vs))).
Proof.
  intros Hvs Hva Hpa. split; [apply fits_lor; by apply fits_land_l|].
  apply page_off_bits. intros i Hi.
  rewrite Z.lor_spec, !Z.land_spec, Z.lnot_spec, Z.testbit_ones_nonneg by lia.
  destruct (Z.ltb_spec i vs); [|lia]. btauto.
Qed.

(** The tables of a level are pages: the address of an entry is aligned. *)
Lemma pte_addr_aligned k base idx : 2 <= k <= 3 -> page_off base = 0 ->
  aligned k (ulong (base + (idx ≪ k))).
Proof.
  intros Hk Hb. rewrite aligned_off, page_off_ulong, <- aligned_off by lia.
  unfold aligned, page_off in *. rewrite Z.shiftl_mul_pow2 by lia.
  rewrite Z.mod_add by (apply pow2_nz; lia).
  assert (k = 2 \/ k = 3) as [-> | ->] by lia; simpl;
    Z.to_euclidean_division_equations; lia.
Qed.
Lemma page_off_table x : page_off (ulong (x ≪ PG_SHIFT)) = 0.
Proof.
  rewrite page_off_ulong. unfold page_off, PG_SHIFT.
  rewrite Z.shiftl_mul_pow2 by lia. apply Z.mod_mul. lia.
Qed.

(** The shapes of the page tables: Sv32, Sv39, Sv48. *)
Definition walk_shape (levels psz : Z) : Prop :=
  (MAX_XLEN = 32 /\ psz = 2 /\ levels = 2) \/
  (64 <= MAX_XLEN /\ psz = 3 /\ (levels = 3 \/ levels = 4)).

Lemma good_walk n levels psz p va access pte_addr :
  walk_shape levels psz -> Z.of_nat n <= levels -> fits MAX_XLEN va -> page_off pte_addr = 0 ->
  good (walk n levels psz p va access pte_addr) (opt (pa_ok va)).
Proof.
  intros Hsh Hn Hva. revert pte_addr Hn.
  assert (2 <= psz <= 3) as Hpsz by (unfold walk_shape in Hsh; lia).
  induction n as [|n IH]; intros pte_addr Hn Hbase; [by apply good_ret|].
  cbn [walk]. cbv zeta.
  set (vs := PG_SHIFT + _). set (idx := (va ≫ vs) .& _).
  assert (12 <= vs < MAX_XLEN) as Hvs.
  { subst vs. unfold PG_SHIFT. 
    destruct Hsh as [(-> & -> & ->)|(? & -> & [-> | ->])]; lia. }
  pose proof (pte_addr_aligned psz pte_addr idx Hpsz Hbase) as Ha.
  set (pa := ulong (pte_addr + _)) in *.
  eapply good_bind with (R := fun _ => True).
  { eapply good_mono with (R := fits (8 * 2 ^ psz)); [|done].
    destruct (Z.eqb_spec psz 2) as [-> |]; [by apply (good_phys_read 2)|].
    assert (psz = 3) as -> by lia. by apply (good_phys_read 3). }
  intros pte _. good_step; [by apply good_ret|]. good_step.
  - good_step. good_step; [by apply good_ret|].
    eapply good_bind with (R := fun _ => True).
    { good_step; [|by apply good_ret].
      destruct (Z.eqb_spec psz 2) as [-> |]; [by apply (good_phys_write 2)|].
      assert (psz = 3) as -> by lia. by apply (good_phys_write 3). }
    intros _ _. apply good_ret. rewrite vaddr_mask_ones by lia.
    apply leaf_pa_ok; [lia|exact Hva|apply fits_ulong].
  - apply IH; [lia|]. apply page_off_table.
Qed.

Lemma good_get_phys_addr va access : fits MAX_XLEN va ->
  good (get_phys_addr va access) (opt (pa_ok va)).
Proof.
  intros Hva. pose proof MAX_XLEN_pos.
  assert (opt (pa_ok va) (Some va)) as Hid by (split; [exact Hva|done]).
  unfold get_phys_addr. cbv zeta. good_step.
  match goal with H : cpu_inv _ _ ?s' |- _ => rename H into Hs; set (s := s') in * end.
  good_step.
  { good_step; [|by apply good_ret]. apply good_ret. split; [by apply fits_land_l|].
    assert (16 <= cur_xlen s) by (destruct (ci_cur_xlen _ _ _ Hs) as [-> | [-> | [-> | ->]]]; lia).
    apply page_off_bits. intros i Hi.
    rewrite ulong_ones by lia.
    rewrite Z.land_spec, Z.testbit_ones_nonneg by lia.
    destruct (Z.ltb_spec i (cur_xlen s)); [btauto|lia]. }
  destruct (Z.eqb_spec MAX_XLEN 32) as [Hx|Hx].
  { good_step; [by apply good_ret|].
    apply good_walk; [left; lia|lia|exact Hva|apply page_off_table]. }
  good_step; [by apply good_ret|].
  destruct (ci_satp _ _ _ Hs) as [_ Hmode]. specialize (Hmode Hx). cbv zeta in Hmode.
  good_step; [by apply good_ret|].
  assert (walk_shape ((satp s ≫ 60) .& 15 - 8 + 3) 3).
  { right. destruct MAX_XLEN_ok as [?|[?|?]]; lia. }
  apply good_walk; [done|unfold walk_shape in *; lia|exact Hva|apply page_off_table].
Qed.

(** ** Loads *)
Lemma good_dev_read pr off k : good (dev_read pr off k) (fits 64).
Proof.
  assert (forall x, fits 32 x -> fits 64 x) by (intros; eapply fits_mono; [done|lia]).
  unfold dev_read. good_step.
  { eapply good_mono; [apply ps_read, fits_wrap; lia|auto]. }
  good_step; [|apply good_ret, fits_0; lia].
  eapply good_bind; [apply ps_read, fits_wrap; lia|]. intros lo Hlo.
  eapply good_bind; [apply ps_read, fits_wrap; lia|]. intros hi Hhi.
  apply good_ret, fits_lor; [auto|apply fits_wrap; lia].
Qed.

Lemma MLEN_pos : 64 <= MLEN.
Proof.
  unfold MLEN, FLEN. destruct MAX_XLEN_ok as [->|[->| ->]]; simpl; lia.
Qed.
Lemma size_supported_range k : size_supported k = true -> 0 <= k <= 4 /\ 8 * 2 ^ k <= MLEN.
Proof.
  intros H. assert (k = 0 \/ k = 1 \/ k = 2 \/ k = 3 \/ k = 4 /\ 128 <= MLEN) as Hk.
  { unfold size_supported in H. pose proof MLEN_pos.
    destruct (Z.leb_spec 128 MLEN), (Z.leb_spec 64 MLEN); lia. }
  pose proof MLEN_pos.
  destruct Hk as [->|[->|[->|[->|[-> ?]]]]]; simpl; lia.
Qed.

Lemma good_read_slow_aligned k addr : 0 <= k <= 4 -> fits MAX_XLEN addr -> aligned k addr ->
  good (read_slow_aligned k addr) (opt (fits MLEN)).
Proof.
  intros Hk Hf Ha. pose proof MLEN_pos. apply good_objs. intros Hwf. unfold read_slow_aligned.
  eapply good_bind; [by apply good_get_phys_addr|]. intros [pa|] Hpa; cbn [opt] in Hpa.
  - destruct Hpa as [Hpf Hpo]. apply good_find_range'.
    { good_step. apply good_ret. cbn. apply fits_wrap. lia. }
    intros i pr Hok. good_step.
    + assert (host_page objs (ram_ptr pr pa - page_off addr)) as Hp.
      { rewrite <- Hpo. by apply ram_page. }
      good_step.
      { inv_steps. apply tlb_ok_put; [by eapply ci_tlb_read|]. by apply tlb_fill_ok. }
      good_step; [|good_step].
      eapply good_bind; [apply good_host_read, ram_access; try done|].
      { rewrite aligned_off, Hpo, <- aligned_off by done. exact Ha. }
      intros v Hv. apply good_ret. cbn.
      rewrite nbytes_pow in Hv by lia. eapply fits_mono; [exact Hv|].
      assert (0 < 2 ^ k) by (apply pow2_pos; lia).
      match goal with H : size_supported k = true |- _ => apply size_supported_range in H end. lia.
    + eapply good_bind; [apply good_dev_read|]. intros v Hv. apply good_ret. cbn.
      eapply fits_mono; [exact Hv|lia].
  - good_step. { inv_steps. }
    good_step. { inv_steps. }
    by apply good_ret.
Qed.

(** A typed access function. *)
Definition read_ty (k : Z) (m : M (Sys W) (option Z)) : Prop := good m (opt (fits (8 * 2 ^ k))).

Lemma good_target_read_with slow k addr : 0 <= k <= 4 -> fits MAX_XLEN addr ->
  good (slow k addr) (fun _ => True) -> read_ty k (target_read_with slow k addr).
Proof.
  intros Hk Hf Hslow. apply good_objs. intros Hwf. unfold read_ty, target_read_with.
  good_step. good_step.
  - match goal with H : (_ =? _) = true |- _ => apply Z.eqb_eq in H end.
    eapply good_bind.
    { apply good_host_read. eapply tlb_hit_access; try done.
      eapply tlb_ok_get_idx, ci_tlb_read; eassumption. }
    intros v Hv. apply good_ret. cbn. by rewrite nbytes_pow in Hv by lia.
  - eapply good_opt_bind with (R := fun _ => True).
    { eapply good_mono; [exact Hslow|]. by intros []. }
    intros v _. apply good_ret. cbn. rewrite Z.shiftl_mul_pow2, Z.mul_1_l by lia.
    apply fits_wrap. assert (0 < 2 ^ k) by (apply pow2_pos; lia). lia.
Qed.

Lemma aligned_0 x : aligned 0 x.
Proof. apply Z.mod_1_r. Qed.
Lemma aligned_sub k x : 0 <= k -> aligned k (x - x mod 2 ^ k).
Proof.
  intros. unfold aligned. rewrite Zminus_mod_idemp_r, Z.sub_diag. apply Z.mod_0_l, pow2_nz. lia.
Qed.
Lemma aligned_ulong k x : 0 <= k <= 4 -> aligned k x -> aligned k (ulong x).
Proof. intros Hk H. by rewrite aligned_off, page_off_ulong, <- aligned_off by lia. Qed.
Lemma aligned_add k x : 0 <= k -> aligned k x -> aligned k (x + 2 ^ k).
Proof.
  intros Hk H. unfold aligned in *. rewrite <- H, Z.add_mod, Z.mod_same, Z.add_0_r by
    (apply pow2_nz; lia). apply Z.mod_mod, pow2_nz. lia.
Qed.
Lemma aligned_test k x : 0 <= k -> nz (x .& ((1 ≪ k) - 1)) = false -> aligned k x.
Proof.
  intros Hk H. unfold nz in H. apply negb_false_iff, Z.eqb_eq in H. by rewrite aligned_mask in H.
Qed.

Lemma good_read_slow_1 k addr : 0 <= k <= 4 -> fits MAX_XLEN addr -> aligned k addr ->
  good (target_read_slow 1 k addr) (fun _ => True).
Proof.
  intros Hk Hf Ha. cbn [target_read_slow]. cbv zeta. rewrite aligned_mask by lia.
  unfold aligned in Ha. rewrite Ha. cbn.
  eapply good_mono; [by apply good_read_slow_aligned|done].
Qed.
Lemma good_target_read_1 k addr : 0 <= k <= 4 -> fits MAX_XLEN addr -> aligned k addr ->
  read_ty k (target_read_with (target_read_slow 1) k addr).
Proof. intros. apply good_target_read_with; try done. by apply good_read_slow_1. Qed.

Lemma good_read_slow_unaligned k addr al : 0 <= k <= 4 -> fits MAX_XLEN addr ->
  al = addr mod 2 ^ k ->
  good (read_slow_unaligned (target_read_with (target_read_slow 1)) k addr al) (fun _ => True).
Proof.
  intros Hk Hf ->. unfold read_slow_unaligned. good_step.
  - match goal with |- good ?m _ => assert (good m (opt (fun _ => True))) as Hm end;
      [|eapply good_mono; [exact Hm|done]].
    eapply good_opt_bind; [apply good_target_read_1; [lia|done|apply aligned_0]|]. intros v0 _.
    eapply good_opt_bind;
      [apply good_target_read_1; [lia|apply fits_ulong|apply aligned_0]|]. intros v1 _.
    by apply good_ret.
  - good_step; [|good_step].
    match goal with |- good ?m _ => assert (good m (opt (fun _ => True))) as Hm end;
      [|eapply good_mono; [exact Hm|done]]. cbv zeta.
    assert (aligned k (ulong (addr - addr mod 2 ^ k))) by (apply aligned_ulong, aligned_sub; lia).
    eapply good_opt_bind; [apply good_target_read_1; [lia|apply fits_ulong|done]|]. intros v0 _.
    eapply good_opt_bind.
    { apply good_target_read_1; [lia|apply fits_ulong|].
      apply aligned_ulong; [lia|]. rewrite Z.shiftl_mul_pow2, Z.mul_1_l by lia.
      by apply aligned_add; [lia|]. }
    intros v1 _. by apply good_ret.
Qed.

Lemma good_target_read k addr : 0 <= k <= 4 -> fits MAX_XLEN addr ->
  good (target_read k addr) (opt (fits (8 * 2 ^ k))).
Proof.
  intros Hk Hf. apply good_target_read_with; try done. cbn [target_read_slow]. cbv zeta.
  good_step.
  - apply good_read_slow_unaligned; [lia|done|]. apply aligned_mask. lia.
  - eapply good_mono; [apply good_read_slow_aligned; try done|done]. apply aligned_test; [lia|done].
Qed.

(** ** Stores *)
Lemma good_dev_write pr off k v : good (dev_write pr off k v) (fun _ => True).
Proof.
  assert (forall x, fits 32 (x .& 0xffffffff)) by (intros; apply fits_land_r; split; simpl; lia).
  unfold dev_write. good_step; [apply ps_write; apply fits_wrap; lia|].
  good_step; [|by apply good_ret].
  eapply good_bind; [apply ps_write; [apply fits_wrap; lia|done]|]. intros _ _.
  apply ps_write; [apply fits_wrap; lia|done].
Qed.

Lemma alter_range_inv nc σ i pr pr' :
  sys_inv winv objs nc σ -> phys_mem_range (mem_map σ) !! i = Some pr ->
  range_wf pr' -> pr_phys_mem pr' = pr_phys_mem pr -> pr_org_size pr' = pr_org_size pr ->
  pr_is_ram pr' = pr_is_ram pr ->
  sys_inv winv objs nc (upd_map (alter_range i (fun _ => pr')) σ).
Proof.
  intros [[Hlen Hwf] Ho Hc Hw] Hi Hwf' Hp Hs Hr. constructor; try done.
  - split; simpl; [by rewrite length_alter|].
    apply list.Forall_forall. intros x [j Hj]%list_elem_of_lookup_1.
    rewrite list.Forall_forall in Hwf. destruct (decide (i = j)) as [<- |Hne].
    + rewrite list_lookup_alter_eq, Hi in Hj. simpl in Hj. congruence.
    + rewrite list_lookup_alter_ne in Hj by done. apply Hwf. by eapply list_elem_of_lookup_2.
  - rewrite <- Ho. unfold ram_objs, upd_map, alter_range; simpl.
    clear -Hi Hp Hs Hr. revert i Hi. induction (phys_mem_range (mem_map σ)) as [|x l IH];
      intros [|i] Hi; simpl in *; try done.
    + injection Hi as ->. rewrite !filter_cons, Hr.
      case_decide; simpl; [by rewrite Hp, Hs|done].
    + rewrite !filter_cons. case_decide; simpl; [f_equal|]; by apply IH.
Qed.

Lemma good_write_slow_aligned k addr v : 0 <= k <= 4 -> fits MAX_XLEN addr -> aligned k addr ->
  good (write_slow_aligned k addr v) (fun _ => True).
Proof.
  intros Hk Hf Ha. apply good_objs. intros Hwf. unfold write_slow_aligned.
  eapply good_bind; [by apply good_get_phys_addr|]. intros [pa|] Hpa; cbn [opt] in Hpa.
  - destruct Hpa as [Hpf Hpo]. apply good_find_range; [by apply good_ret|].
    intros i pr Hok nc σ Hs Hi. destruct (pr_is_ram pr) eqn:Hram.
    + assert (host_page objs (ram_ptr pr pa - page_off addr)) as Hp.
      { rewrite <- Hpo. by apply ram_page. }
      destruct (range_offset pr pa) as [Hoff Hrange]; try apply Hok; [done|].
      apply wp_bind. unfold set_dirty_bit. rewrite Hoff.
      destruct (set_dirty_bit_ok pr _ (proj1 Hok) Hram Hrange) as (pr' & -> & ? & ? & ? & ?).
      apply wp_modify. revert nc σ Hs Hi.
      enough (good (_ ← updc (fun s => with_tlb_write
                      (tlb_put (tlb_idx addr) (tlb_fill addr (ram_ptr pr pa)) (tlb_write s)) s);
                    if size_supported k
                    then _ ← host_write (nbytes k) (ram_ptr pr pa) v; mret (Some tt)
                    else stop_with StopAbort) (fun _ => True)) as Hg.
      { intros nc σ Hs Hi. apply Hg. by eapply alter_range_inv. }
      good_step.
      { inv_steps. apply tlb_ok_put; [by eapply ci_tlb_write|]. by apply tlb_fill_ok. }
      good_step; [|good_step].
      eapply good_bind; [apply good_host_write, ram_access; try done|].
      { rewrite aligned_off, Hpo, <- aligned_off by done. exact Ha. }
      intros _ _. by apply good_ret.
    + clear Hi. revert nc σ Hs. change (good (_ ← dev_write pr (ulong (pa - pr_addr pr)) k v;
        mret (Some tt)) (fun _ => True)).
      eapply good_bind; [apply good_dev_write|]. intros _ _. by apply good_ret.
  - good_step. { inv_steps. }
    good_step. { inv_steps. }
    by apply good_ret.
Qed.

Lemma good_target_write_with slow k addr v : 0 <= k <= 4 -> fits MAX_XLEN addr ->
  (forall v', good (slow k addr v') (fun _ => True)) ->
  good (target_write_with slow k addr v) (fun _ => True).
Proof.
  intros Hk Hf Hslow. apply good_objs. intros Hwf. unfold target_write_with. cbv zeta.
  good_step. good_step; [|apply Hslow].
  match goal with H : (_ =? _) = true |- _ => apply Z.eqb_eq in H end.
  eapply good_bind; [apply good_host_write|intros; by apply good_ret].
  eapply tlb_hit_access; try done. eapply tlb_ok_get_idx, ci_tlb_write; eassumption.
Qed.

Lemma good_write_slow_bytes n i addr v :
  good (write_slow_bytes (target_write_with (target_write_slow 1) 0) n i addr v) (fun _ => True).
Proof.
  revert i. induction n as [|n IH]; intros i; [by apply good_ret|]. cbn [write_slow_bytes].
  eapply good_bind with (R := fun _ => True).
  { apply good_target_write_with; [lia|apply fits_ulong|]. intros v'.
    cbn [target_write_slow]. rewrite aligned_mask, Z.mod_1_r by lia. cbn.
    apply good_write_slow_aligned; [lia|apply fits_ulong|apply aligned_0]. }
  intros [[]|] _; [apply IH|by apply good_ret].
Qed.

Lemma good_target_write k addr v : 0 <= k <= 4 -> fits MAX_XLEN addr ->
  good (target_write k addr v) (fun _ => True).
Proof.
  intros Hk Hf. apply good_target_write_with; try done. intros v'.
  cbn [target_write_slow]. good_step; [apply good_write_slow_bytes|].
  apply good_write_slow_aligned; try done. apply aligned_test; [lia|done].
Qed.

(** ** Instruction fetch *)
Definition code_ptr_ok (addr ptr : Z) : Prop := host_page objs (ptr - page_off addr).

Lemma tlb_tag_0 addr : tlb_tag 0 addr = addr .& Z.lnot PG_MASK.
Proof. reflexivity. Qed.

Lemma good_read_insn_slow addr : fits MAX_XLEN addr ->
  good (target_read_insn_slow addr) (opt (code_ptr_ok addr)).
Proof.
  intros Hf. apply good_objs. intros Hwf. unfold target_read_insn_slow.
  assert (forall c, good (_ ← updc (with_pending_tval addr);
            _ ← updc (with_pending_exception c); mret None) (opt (code_ptr_ok addr))) as Hfault.
  { intros c. good_step; [inv_steps|]. good_step; [inv_steps|]. by apply good_ret. }
  eapply good_bind; [by apply good_get_phys_addr|]. intros [pa|] Hpa; cbn [opt] in Hpa.
  - destruct Hpa as [Hpf Hpo]. apply good_find_range'; [apply Hfault|].
    intros i pr Hok. good_step; [|apply Hfault].
    assert (host_page objs (ram_ptr pr pa - page_off addr)) as Hp.
    { rewrite <- Hpo. by apply ram_page. }
    good_step.
    { inv_steps. apply tlb_ok_put; [by eapply ci_tlb_code|]. by apply tlb_fill_ok. }
    by apply good_ret.
  - apply Hfault.
Qed.
Lemma good_insn_ptr addr : fits MAX_XLEN addr -> good (insn_ptr addr) (opt (code_ptr_ok addr)).
Proof.
  intros Hf. apply good_objs. intros Hwf. unfold insn_ptr. good_step. good_step.
  - match goal with H : (_ =? _) = true |- _ => apply Z.eqb_eq in H; rename H into Htag end.
    apply good_ret. apply (tlb_hit_page objs _ 0); try done.
    eapply tlb_ok_get_idx, ci_tlb_code; eassumption.
  - by apply good_read_insn_slow.
Qed.
Lemma good_read_insn_u16 addr : fits MAX_XLEN addr -> aligned 1 addr ->
  good (target_read_insn_u16 addr) (opt (fits 16)).
Proof.
  intros Hf Ha. eapply good_opt_bind; [by apply good_insn_ptr|]. intros ptr Hp.
  eapply good_bind; [apply good_host_read|intros v Hv; by apply good_ret].
  replace ptr with (ptr - page_off addr + page_off addr) by lia.
  apply (host_page_access objs _ 1); [lia|exact Hp|apply page_off_range|by apply aligned_bound].
Qed.

(** A failed fetch leaves a pending exception. *)
Lemma insn_ptr_fault addr (σ : Sys W) :
  wp (insn_ptr addr) (fun _ => True)
    (fun r (σ' : Sys W) => r = None -> 0 <= pending_exception (cpu σ')) σ.
Proof.
  unfold insn_ptr. apply wp_bind, wp_gets. apply wp_if; [intros _; by apply wp_ret|]. intros _.
  unfold target_read_insn_slow. apply wp_bind. unfold wp at 1.
  destruct (get_phys_addr addr ACCESS_CODE σ) as [[pa|] σ1|r]; [|vm_compute; congruence|done].
  apply wp_bind. unfold wp at 1, find_range.
  destruct (get_phys_mem_range _ _ ≫= _) as [[i pr]|]; [|vm_compute; congruence].
  apply wp_if; [|intros _; vm_compute; congruence]. intros _.
  apply wp_bind, wp_modify. by apply wp_ret.
Qed.
End Access.
