(* ===== verification/InsnInv.v ===== *)
(** * Every instruction keeps the invariant of the run

    Integer, system, atomic and compressed instructions; the floating-point ones
    are in FpInsnInv.v. *)
From S2P Require Export MmuInv InsnC InsnI.

(** A jump advances the code pointer by the size of an instruction. *)
Definition label_ok (l : label) : Prop :=
  match l with L_next n => n = 2 \/ n = 4 | _ => True end.

(** ** Even addresses *)
Section Even.
Context `{cfg : Config}.

Definition even (x : Z) : Prop := Z.testbit x 0 = false.
Lemma even_add x y : even x -> even y -> even (x + y).
Proof. unfold even. intros. rewrite Z.add_bit0. by rewrite H, H0. Qed.
Lemma even_mul x y : even y -> even (x * y).
Proof.
  unfold even. rewrite !Z.bit0_odd, Z.odd_mul. intros ->. apply andb_false_r.
Qed.
Lemma even_pow w : 0 < w -> even (2 ^ w).
Proof. intros. unfold even. by rewrite Z.pow2_bits_false by lia. Qed.
Lemma even_wrap w x : 0 < w -> even x -> even (wrap w x).
Proof. intros Hw H. unfold even. rewrite wrap_testbit by lia. rewrite H. apply andb_false_r. Qed.
Lemma even_swrap w x : 0 < w -> even x -> even (swrap w x).
Proof.
  intros Hw H. destruct (swrap_decomp w x) as [k ->]; [lia|].
  apply even_add; [exact H|]. apply even_mul, even_pow. lia.
Qed.
Lemma even_ulong x : even x -> even (ulong x).
Proof. apply even_wrap. pose proof MAX_XLEN_pos. lia. Qed.
Lemma even_lor x y : even x -> even y -> even (x .| y).
Proof. unfold even. intros H H'. by rewrite Z.lor_spec, H, H'. Qed.
Lemma even_land_r x y : even y -> even (x .& y).
Proof. unfold even. intros H. by rewrite Z.land_spec, H, andb_false_r. Qed.
(** [(x << n) >> n] in a 32-bit type. *)
Lemma even_sext x n : 0 <= n < 31 -> even x -> even (i32 (x ≪ n) ≫ n).
Proof.
  intros Hn H. unfold even. rewrite Z.shiftr_spec, Z.add_0_l by lia.
  destruct (swrap_decomp 32 (x ≪ n)) as [k ->]; [lia|].
  replace (x ≪ n + k * 2 ^ 32) with ((x + k * 2 ^ (32 - n)) ≪ n).
  - rewrite Z.shiftl_spec, Z.sub_diag by lia.
    apply even_add; [exact H|]. apply even_mul, even_pow. lia.
  - rewrite !Z.shiftl_mul_pow2, Z.mul_add_distr_r, <- Z.mul_assoc, <- Z.pow_add_r by lia.
    repeat f_equal. lia.
Qed.
Lemma even_word_ulong x : even x -> even_word (ulong x).
Proof. intros. split; [apply fits_ulong|by apply even_ulong]. Qed.

Lemma even_field src dst m insn : 0 <= src -> 0 < dst -> even (get_field1 insn src dst m).
Proof.
  intros. assert (forall x, even (x ≪ dst)) as Hs.
  { intros x. unfold even. by rewrite Z.shiftl_spec_low by lia. }
  unfold get_field1. cbv zeta. case_if; apply even_land_r, Hs.
Qed.

(** The branch offsets are even. *)
Ltac even_imm :=
  repeat first [apply even_lor | apply even_field; lia | apply even_land_r; reflexivity].
Lemma even_imm_j insn : even (imm_j insn).
Proof. apply even_sext; [lia|]. apply even_swrap; [lia|]. even_imm. Qed.
Lemma even_imm_b insn : even (imm_b insn).
Proof. apply even_sext; [lia|]. apply even_swrap; [lia|]. even_imm. Qed.
Lemma even_c_imm_j insn : even (c_imm_j insn).
Proof. apply even_sext; [lia|]. even_imm. Qed.
Lemma even_c_imm_b insn : even (c_imm_b insn).
Proof. apply even_sext; [lia|]. even_imm. Qed.
End Even.
#[export] Hint Resolve even_imm_j even_imm_b even_c_imm_j even_c_imm_b : cint.

Section Insn.
Context `{cfg : Config} {W : Type} `{plat : Platform W}
  (winv : W -> Prop) (objs : list (Z * Z)) `{!PlatformSafe winv objs}.
Local Abbreviation good := (good winv objs).
Context (XLEN : Z).

Lemma good_rd_reg i : good (rd_reg i) (fits MAX_XLEN).
Proof.
  intros nc σ H. apply wp_gets. split; [eapply inv_reg_get, (si_cpu _ _ _ _ H)|exact H].
Qed.
Lemma good_rd_fp i : good (rd_fp i) (fits FLEN).
Proof.
  intros nc σ H. apply wp_gets. split; [eapply inv_fp_get, (si_cpu _ _ _ _ H)|exact H].
Qed.
Lemma good_wr_reg i v : 0 < i -> fits MAX_XLEN v -> good (wr_reg i v) (fun _ => True).
Proof. intros. apply good_updc. intros. by apply inv_reg_set. Qed.
Lemma good_wr_rd i v : 0 <= i -> fits MAX_XLEN v -> good (wr_rd i v) (fun _ => True).
Proof.
  intros. unfold wr_rd, nz. destruct (Z.eqb_spec i 0); [by apply good_ret|].
  apply good_wr_reg; [lia|done].
Qed.
Lemma good_wr_fp i v : fits FLEN v -> good (wr_fp i v) (fun _ => True).
Proof. intros. apply good_updc. intros. inv_steps. lia. Qed.
Lemma good_set_pc v : even_word v -> good (set_pc v) (fun _ => True).
Proof. intros. apply good_updc. intros. by inv_steps. Qed.
Lemma good_illegal : good illegal label_ok.
Proof. by apply good_ret. Qed.
Lemma good_if_fs k : good k label_ok -> good (if_fs k) label_ok.
Proof. intros. unfold if_fs. good_step. good_step; [apply good_illegal|done]. Qed.
Lemma good_lab_bind {A} (m : M (Sys W) (option A)) (k : A -> M (Sys W) label) R :
  good m (opt R) -> (forall a, R a -> good (k a) label_ok) ->
  good (m ≫= fun r => match r with None => mret L_mmu_exception | Some x => k x end) label_ok.
Proof.
  intros Hm Hk. eapply good_bind; [exact Hm|]. intros [a|] HR; [by apply Hk|by apply good_ret].
Qed.
Lemma good_write_lab k addr v (f : unit -> M (Sys W) label) : 0 <= k <= 4 -> fits MAX_XLEN addr ->
  good (f tt) label_ok ->
  good (target_write k addr v ≫= fun r => match r with None => mret L_mmu_exception | Some x => f x end)
    label_ok.
Proof.
  intros. eapply good_bind; [by apply good_target_write|]. intros [[]|] _; [done|by apply good_ret].
Qed.

Lemma rd_range insn : 0 <= insn_rd insn.
Proof. apply land_range. lia. Qed.
Lemma rd8_range x : 0 < (x .& 7) .| 8.
Proof.
  pose proof (land_range x 7 ltac:(lia)).
  assert (0 <= (x .& 7) .| 8) by (apply Z.lor_nonneg; lia).
  destruct (Z.eq_dec ((x .& 7) .| 8) 0) as [E|]; [|lia].
  apply Z.lor_eq_0_iff in E. lia.
Qed.
Lemma good_c_addr r i : good (c_addr XLEN r i) (fits MAX_XLEN).
Proof. eapply good_bind; [apply good_rd_reg|]. intros. apply good_ret, fits_ulong. Qed.

(** Values an instruction writes. *)
Lemma fits_F32_HIGH : fits FLEN F32_HIGH.
Proof. apply fits_wrap, FLEN_pos. Qed.
Lemma fits_F64_HIGH : fits FLEN F64_HIGH.
Proof.
  unfold F64_HIGH. case_if; [apply fits_0|apply fits_wrap]; apply FLEN_pos.
Qed.
Lemma FLEN_ge : 64 <= FLEN.
Proof. unfold FLEN. case_if; lia. Qed.
Lemma fits_flen k v : fits (8 * 2 ^ k) v -> 0 <= k <= 3 -> fits FLEN v.
Proof.
  intros H Hk. pose proof FLEN_ge. eapply fits_mono; [exact H|].
  assert (k = 0 \/ k = 1 \/ k = 2 \/ k = 3) as [->|[->|[->| ->]]] by lia; simpl; lia.
Qed.
Lemma fits_flen4 v : fits (8 * 2 ^ 4) v -> 128 <= FLEN -> fits FLEN v.
Proof. intros H Hk. eapply fits_mono; [exact H|simpl; lia]. Qed.
Lemma fits_b2z b : fits MAX_XLEN (b2z b).
Proof. pose proof MAX_XLEN_pos. apply fits_small; [destruct b; simpl; lia|lia]. Qed.
End Insn.
#[export] Hint Resolve good_illegal fits_F32_HIGH fits_F64_HIGH fits_flen fits_flen4 fits_b2z
  rd_range rd8_range : cint.

(** Steps through the body of an instruction. *)
Ltac side :=
  first [ assumption | apply rd_range | apply rd8_range | apply fits_ulong | lia
        | solve [eauto 6 with cint] ].
Ltac ins_step :=
  match goal with
  | |- good _ _ (rd_reg _ ≫= _) _ => eapply good_bind; [apply good_rd_reg|intros ? ?]
  | |- good _ _ (rd_fp _ ≫= _) _ => eapply good_bind; [apply good_rd_fp|intros ? ?]
  | |- good _ _ (c_addr _ _ _ ≫= _) _ => eapply good_bind; [apply good_c_addr|intros ? ?]
  | |- good _ _ (wr_rd _ _ ≫= _) _ =>
      eapply good_bind; [apply good_wr_rd; [side|try side]|intros ? _]
  | |- good _ _ (wr_reg _ _ ≫= _) _ =>
      eapply good_bind; [apply good_wr_reg; [side|try side]|intros ? _]
  | |- good _ _ (wr_fp _ _ ≫= _) _ =>
      eapply good_bind; [apply good_wr_fp; try side|intros ? _]
  | |- good _ _ (set_pc _ ≫= _) _ => eapply good_bind; [apply good_set_pc|intros ? _]
  | |- good _ _ (target_read _ _ ≫= _) _ =>
      eapply good_lab_bind; [apply good_target_read; [assumption|lia|side]|intros ? ?]
  | |- good _ _ (target_write _ _ _ ≫= _) _ => apply good_write_lab; [assumption|lia|try side|]
  | |- good _ _ (if_fs _) _ => apply good_if_fs
  | |- good _ _ illegal _ => apply good_illegal
  | |- good _ _ (mret (L_next _)) _ => apply good_ret; simpl; lia
  | |- good _ _ (mret _) _ => apply good_ret; exact I
  | |- good _ _ (match ?x with _ => _ end) _ => first [is_var x; destruct x | destruct x eqn:?]
  | _ => good_step
  end.

Section Bodies.
Context `{cfg : Config} {W : Type} `{plat : Platform W}
  (winv : W -> Prop) (objs : list (Z * Z)) `{!PlatformSafe winv objs}.
Local Abbreviation good := (good winv objs).
Context (XLEN : Z) (HXLEN : XLEN = 32 \/ XLEN = 64 \/ XLEN = 128) (HMAX : XLEN <= MAX_XLEN).

Lemma leb_reg4 v : fits (8 * 2 ^ 4) v -> (128 <=? XLEN) = true -> fits MAX_XLEN v.
Proof. intros H Hx. apply Z.leb_le in Hx. eapply fits_mono; [exact H|simpl; lia]. Qed.
Lemma eqb_reg4 v : fits (8 * 2 ^ 4) v -> (XLEN =? 128) = true -> fits MAX_XLEN v.
Proof. intros H Hx. apply Z.eqb_eq in Hx. eapply fits_mono; [exact H|simpl; lia]. Qed.
Hint Resolve leb_reg4 eqb_reg4 : cint.

(** The target of a relative jump. *)
Lemma jump_target gpc imm : even_word gpc -> even imm ->
  even_word (ulong (swrap XLEN (ulong (gpc + imm)))).
Proof.
  intros [_ Hg] Hi. apply even_word_ulong, even_swrap; [lia|].
  apply even_ulong. by apply even_add.
Qed.
Lemma next_target gpc n : even_word gpc -> n = 2 \/ n = 4 -> even_word (ulong (gpc + n)).
Proof.
  intros [_ Hg] Hn. apply even_word_ulong, even_add; [exact Hg|].
  by destruct Hn as [-> | ->].
Qed.

Lemma good_exec_c0 insn : good (exec_c0 XLEN insn) label_ok.
Proof. unfold exec_c0. cbv zeta. repeat ins_step; side. Qed.
Lemma good_exec_c1_alu insn : good (exec_c1_alu XLEN insn) label_ok.
Proof. unfold exec_c1_alu. cbv zeta. repeat ins_step; side. Qed.
Lemma good_exec_c1 gpc insn : even_word gpc -> good (exec_c1 XLEN gpc insn) label_ok.
Proof.
  intros Hg. unfold exec_c1. cbv zeta.
  repeat (apply good_exec_c1_alu || ins_step); try side.
  all: apply jump_target; [exact Hg|auto with cint].
Qed.

Lemma good_exec_c2_jump gpc insn : even_word gpc -> good (exec_c2_jump XLEN gpc insn) label_ok.
Proof.
  intros Hg. unfold exec_c2_jump. cbv zeta. repeat ins_step; try side.
  all: try (apply even_word_mask; [assumption|reflexivity]).
  all: inv_steps.
Qed.
Lemma good_exec_c2 gpc insn : even_word gpc -> good (exec_c2 XLEN gpc insn) label_ok.
Proof.
  intros Hg. unfold exec_c2. cbv zeta.
  repeat ((by apply good_exec_c2_jump) || ins_step); side.
Qed.

(** ** lui .. store *)
Lemma good_exec_lui insn : good (exec_lui insn) label_ok.
Proof. unfold exec_lui. repeat ins_step. Qed.
Lemma good_exec_auipc gpc insn : good (exec_auipc XLEN gpc insn) label_ok.
Proof. unfold exec_auipc. repeat ins_step. Qed.
Lemma good_exec_jal gpc insn : even_word gpc -> good (exec_jal XLEN gpc insn) label_ok.
Proof.
  intros Hg. unfold exec_jal. repeat ins_step. apply jump_target; [exact Hg|auto with cint].
Qed.
Lemma good_exec_jalr gpc insn : good (exec_jalr XLEN gpc insn) label_ok.
Proof.
  unfold exec_jalr. cbv zeta. repeat ins_step.
  apply even_word_ulong, even_land_r. reflexivity.
Qed.
Lemma good_exec_branch gpc insn : even_word gpc -> good (exec_branch XLEN gpc insn) label_ok.
Proof.
  intros Hg. unfold exec_branch. repeat ins_step. apply jump_target; [exact Hg|auto with cint].
Qed.
Lemma load_kind_range f k c : load_kind XLEN f = Some (k, c) -> 0 <= k <= 4.
Proof.
  unfold load_kind. intros H.
  repeat match goal with
  | _ => case_match; try done
  end; simplify_eq; lia.
Qed.
Lemma store_size_range f k : store_size XLEN f = Some k -> 0 <= k <= 4.
Proof. unfold store_size. intros H. repeat (case_match; try done); simplify_eq; lia. Qed.
Lemma good_exec_load insn : good (exec_load XLEN insn) label_ok.
Proof.
  unfold exec_load. ins_step. cbv zeta.
  destruct (load_kind _ _) as [[k c]|] eqn:E; [|apply good_illegal].
  apply load_kind_range in E. repeat ins_step; side.
Qed.
Lemma good_exec_store insn : good (exec_store XLEN insn) label_ok.
Proof.
  unfold exec_store. ins_step. cbv zeta. ins_step.
  destruct (store_size _ _) as [k|] eqn:E; [|apply good_illegal].
  apply store_size_range in E. repeat ins_step; side.
Qed.

(** ** OP-IMM, OP: the result fits a register *)
Lemma good_wr_result insn v : opt (fits MAX_XLEN) v -> good (wr_result insn v) label_ok.
Proof. intros Hv. unfold wr_result. destruct v; cbn in Hv; repeat ins_step. Qed.
Lemma op_imm_fits f imm r1 : fits MAX_XLEN r1 -> opt (fits MAX_XLEN) (op_imm XLEN f imm r1).
Proof. intros Hr. unfold op_imm. repeat (case_match; try exact I); cbn; side. Qed.
Lemma op_imm_w_fits w f imm r1 : opt (fits MAX_XLEN) (op_imm_w w f imm r1).
Proof. unfold op_imm_w. repeat (case_match; try exact I); cbn; side. Qed.
Lemma op_r_fits f v v2 : fits MAX_XLEN v -> fits MAX_XLEN v2 ->
  opt (fits MAX_XLEN) (op_r XLEN f v v2).
Proof. intros. unfold op_r. repeat (case_match; try exact I); cbn; side. Qed.
Lemma op_m_w_fits w f v v2 : opt (fits MAX_XLEN) (op_m_w w f v v2).
Proof. unfold op_m_w. cbv zeta. repeat (case_match; try exact I); cbn; side. Qed.
Lemma op_r_w_fits w f v v2 : opt (fits MAX_XLEN) (op_r_w w f v v2).
Proof. unfold op_r_w. repeat (case_match; try exact I); cbn; side. Qed.
Lemma good_exec_op_imm insn : good (exec_op_imm XLEN insn) label_ok.
Proof. unfold exec_op_imm. ins_step. by apply good_wr_result, op_imm_fits. Qed.
Lemma good_exec_op_imm_w w insn : good (exec_op_imm_w w insn) label_ok.
Proof. unfold exec_op_imm_w. ins_step. apply good_wr_result, op_imm_w_fits. Qed.
Lemma good_exec_op insn : good (exec_op XLEN insn) label_ok.
Proof.
  unfold exec_op. cbv zeta. do 2 ins_step. good_step.
  { apply good_wr_result. cbn. apply fits_ulong. }
  good_step; [apply good_illegal|]. by apply good_wr_result, op_r_fits.
Qed.
Lemma good_exec_op_w w insn : good (exec_op_w w insn) label_ok.
Proof.
  unfold exec_op_w. cbv zeta. do 2 ins_step. good_step.
  { apply good_wr_result, op_m_w_fits. }
  good_step; [apply good_illegal|]. apply good_wr_result, op_r_w_fits.
Qed.
End Bodies.

(** * System, fence and atomic instructions keep the invariant of the run *)
Section Sys.
Context `{cfg : Config} {W : Type} `{plat : Platform W}
  (winv : W -> Prop) (objs : list (Z * Z)) `{!PlatformSafe winv objs}.
Local Abbreviation good := (good winv objs).
Context (XLEN : Z) (HXLEN : XLEN = 32 \/ XLEN = 64 \/ XLEN = 128) (HMAX : XLEN <= MAX_XLEN).

Lemma good_csr_write csr v : fits MAX_XLEN v ->
  good (callc (fun s => csr_write s csr v)) (fun _ => True).
Proof. intros. apply good_callc. intros. split; [done|by apply csr_write_inv]. Qed.

Lemma good_after_csr_write gpc err : even_word gpc -> good (after_csr_write gpc err) label_ok.
Proof. intros Hg. unfold after_csr_write. repeat ins_step. apply next_target; auto. Qed.

Lemma good_exec_csrrw gpc ic insn v : even_word gpc -> fits 64 ic -> fits MAX_XLEN v ->
  good (exec_csrrw XLEN gpc ic insn v) label_ok.
Proof.
  intros Hg Hic Hv. unfold exec_csrrw. cbv zeta. ins_step; [by inv_steps|]. ins_step.
  ins_step; [|apply good_illegal].
  eapply good_bind; [by apply good_csr_write|]. intros err _. cbn beta.
  ins_step; [apply good_illegal|]. ins_step. by apply good_after_csr_write.
Qed.

Lemma good_exec_csrrsc set gpc ic insn v : even_word gpc -> fits 64 ic -> fits MAX_XLEN v ->
  good (exec_csrrsc XLEN set gpc ic insn v) label_ok.
Proof.
  intros Hg Hic Hv. unfold exec_csrrsc. cbv zeta. ins_step; [by inv_steps|]. ins_step.
  ins_step; [|apply good_illegal]. ins_step; [|repeat ins_step].
  eapply good_bind.
  { apply good_csr_write. case_if; [apply fits_lor; side|apply fits_land_l; side]. }
  intros err _. cbn beta. ins_step; [apply good_illegal|]. ins_step. by apply good_after_csr_write.
Qed.

Lemma good_exec_priv gpc insn : even_word gpc -> good (exec_priv gpc insn) label_ok.
Proof.
  intros Hg. unfold exec_priv. cbv zeta.
  repeat first
    [ ins_step
    | match goal with |- good ((if _ then _ else _) ≫= _) _ =>
        eapply good_bind with (R := fun _ => True); [|intros ? _] end ].
  all: try (apply even_word_ulong; apply even_add; [apply Hg|reflexivity]).
  all: try exact Hg.
  all: try match goal with
       | |- cpu_inv _ _ (handle_sret _) => by apply handle_sret_inv
       | |- cpu_inv _ _ (handle_mret _) => by apply handle_mret_inv
       end.
  all: by inv_steps.
Qed.

Lemma good_exec_system gpc ic insn : even_word gpc -> fits 64 ic ->
  good (exec_system XLEN gpc ic insn) label_ok.
Proof.
  intros Hg Hic. unfold exec_system. cbv zeta.
  assert (fits MAX_XLEN (insn_rs1 insn)).
  { pose proof MAX_XLEN_pos. apply fits_small; [|lia].
    pose proof (land_range (insn ≫ 15) 0x1f ltac:(lia)). unfold insn_rs1. lia. }
  eapply good_bind with (R := fits MAX_XLEN).
  { good_step; [by apply good_ret|apply good_rd_reg]. }
  intros v Hv. repeat lazymatch goal with
    | |- good (match ?x with _ => _ end) _ => first [is_var x; destruct x | destruct x eqn:?]
    | |- good (exec_csrrw _ _ _ _ _) _ => by apply good_exec_csrrw
    | |- good (exec_csrrsc _ _ _ _ _ _) _ => by apply good_exec_csrrsc
    | |- good (exec_priv _ _) _ => by apply good_exec_priv
    end.
Qed.

Lemma good_exec_misc_mem insn : good (exec_misc_mem XLEN insn) label_ok.
Proof. unfold exec_misc_mem. repeat ins_step; try side. by apply (leb_reg4 XLEN). Qed.

(** ** Atomics *)
Lemma amo_op_fits w f v v2 : fits MAX_XLEN v2 -> opt (fits MAX_XLEN) (amo_op w f v v2).
Proof. intros. unfold amo_op. repeat (case_match; try exact I); cbn; side. Qed.

Lemma good_op_lr k a insn : 0 <= k <= 4 -> fits MAX_XLEN a -> good (op_lr k a insn) label_ok.
Proof. intros. unfold op_lr. repeat ins_step; try side. by inv_steps. Qed.
Lemma good_op_sc k a insn : 0 <= k <= 4 -> fits MAX_XLEN a -> good (op_sc k a insn) label_ok.
Proof.
  intros. pose proof MAX_XLEN_pos. unfold op_sc. repeat ins_step; try side; apply fits_small; lia.
Qed.
Lemma good_op_amo k a insn : 0 <= k <= 4 -> fits MAX_XLEN a -> good (op_amo k a insn) label_ok.
Proof. intros. unfold op_amo. cbv zeta. repeat ins_step; side. Qed.
Lemma good_op_a k insn : 0 <= k <= 4 -> good (op_a k insn) label_ok.
Proof.
  intros Hk. unfold op_a. cbv zeta. ins_step. good_step; [by apply good_op_lr|].
  good_step; [by apply good_op_sc|by apply good_op_amo].
Qed.
Lemma good_exec_amo insn : good (exec_amo XLEN insn) label_ok.
Proof.
  unfold exec_amo. repeat lazymatch goal with
    | |- good (match ?x with _ => _ end) _ => first [is_var x; destruct x | destruct x eqn:?]
    | |- good illegal _ => apply good_illegal
    | |- good (op_a _ _) _ => apply good_op_a; lia
    end.
Qed.
End Sys.
