(* ===== verification/FpInsnInv.v ===== *)
(** * Floating-point instructions keep the invariant of the run *)
From S2P Require Export InsnInv FpInv InsnF.

Section FpInsn.
Context `{cfg : Config} {W : Type} `{plat : Platform W}
  (winv : W -> Prop) (objs : list (Z * Z)) `{!PlatformSafe winv objs}.
Local Abbreviation good := (good winv objs).
Context (XLEN : Z).

Lemma good_with_flags {A} (R : A -> Prop) m : returns R m -> good (with_flags m) R.
Proof.
  intros Hm nc σ H. unfold wp, with_flags.
  destruct (returns_ok R m (fflags (cpu σ)) Hm) as (v & fl & -> & Hv & Hfl).
  { apply (ci_fflags _ _ _ (si_cpu _ _ _ _ H)). }
  split; [exact Hv|]. eapply sys_inv_cpu; [exact H|]. apply inv_fflags; [apply (si_cpu _ _ _ _ H)|done].
Qed.

(** The formats of the build. *)
Definition fmt_ok (F : Z) : Prop := (F = 32 \/ F = 64 \/ F = 128) /\ F <= FLEN.
Lemma fmt_size_ok x F : fmt_size x = Some F -> fmt_ok F.
Proof.
  pose proof FLEN_ge. unfold fmt_size, fmt_ok. intros H0.
  repeat (case_match; try done); simplify_eq; lia.
Qed.
Lemma cvt_source_ok F x G : cvt_source F x = Some G -> F <= FLEN ->
  (F = 32 \/ F = 64 \/ F = 128) -> (G = 32 \/ G = 64 \/ G = 128) /\ ((G <? F) = false -> F < G).
Proof.
  unfold cvt_source. intros H0 Hle HF.
  repeat (case_match; try done); simplify_eq; lia.
Qed.
Lemma fits_fmt F v : fmt_ok F -> fits F v -> fits FLEN v.
Proof. intros [? ?] Hv. eapply fits_mono; [exact Hv|lia]. Qed.
Lemma fits_F_HIGH F : fits FLEN (F_HIGH F).
Proof.
  unfold F_HIGH. repeat case_if; [apply fits_F32_HIGH|apply fits_F64_HIGH|apply fits_0, FLEN_pos].
Qed.
Lemma fits_FSIGN_MASK F : fmt_ok F -> fits FLEN (FSIGN_MASK F).
Proof.
  intros [HF ?]. unfold FSIGN_MASK. case_if; [apply fits_wrap, FLEN_pos|].
  pose proof (pow2_pos (F - 1) ltac:(lia)). split; [lia|]. apply Z.pow_lt_mono_r; lia.
Qed.

Lemma good_fp_result F rd m : fmt_ok F -> returns (fits F) m -> good (fp_result F rd m) label_ok.
Proof.
  intros HF Hm. unfold fp_result. eapply good_bind; [by apply good_with_flags|]. intros v Hv. cbn beta.
  eapply good_bind; [apply good_wr_fp|intros; apply good_ret; simpl; lia].
  apply fits_lor; [by eapply fits_fmt|apply fits_F_HIGH].
Qed.
Lemma good_int_result rd (R : Z -> Prop) m : 0 <= rd -> returns R m ->
  good (int_result rd m) label_ok.
Proof.
  intros Hrd Hm. unfold int_result. eapply good_bind; [by apply good_with_flags|]. intros v _. cbn beta.
  eapply good_bind; [apply good_wr_rd; [done|apply fits_ulong]|intros; apply good_ret; simpl; lia].
Qed.
Lemma good_with_rm rm k : (forall r, good (k r) label_ok) -> good (with_rm rm k) label_ok.
Proof.
  intros Hk. unfold with_rm. good_step. destruct (get_insn_rm _ rm); [apply Hk|apply good_illegal].
Qed.

Lemma good_exec_fp_load insn : good (exec_fp_load insn) label_ok.
Proof. unfold exec_fp_load. cbv zeta. repeat ins_step; side. Qed.
Lemma good_exec_fp_store insn : good (exec_fp_store insn) label_ok.
Proof. unfold exec_fp_store. cbv zeta. repeat ins_step; side. Qed.

Lemma good_exec_fma neg_a neg_c insn : good (exec_fma neg_a neg_c insn) label_ok.
Proof.
  unfold exec_fma. apply good_if_fs. good_step.
  destruct (get_insn_rm _ _) as [rm|]; [|apply good_illegal].
  destruct (fmt_size _) as [F|] eqn:HF; [|apply good_illegal]. apply fmt_size_ok in HF.
  do 3 ins_step. cbv zeta. apply good_fp_result; [done|].
  destruct HF. apply fma_returns; [done|apply fits_wrap; lia..].
Qed.

Lemma good_exec_fbin F f insn rm : fmt_ok F ->
  (forall a b r, fits F a -> fits F b -> returns (fits F) (f a b r)) ->
  good (exec_fbin F f insn rm) label_ok.
Proof.
  intros HF Hf. apply good_with_rm. intros r. do 2 ins_step. apply good_fp_result; [done|].
  destruct HF. apply Hf; apply fits_wrap; lia.
Qed.
Lemma good_exec_fsqrt F insn rm : fmt_ok F -> good (exec_fsqrt F insn rm) label_ok.
Proof.
  intros HF. apply good_with_rm. intros r. ins_step; [apply good_illegal|]. ins_step.
  apply good_fp_result; [done|]. destruct HF. apply sqrt_returns; [done|apply fits_wrap; lia].
Qed.
Lemma fsgnj_fits F rm a b : fmt_ok F -> fits FLEN a -> fits FLEN b -> opt (fits FLEN) (fsgnj_op F rm a b).
Proof.
  intros HF Ha Hb. pose proof (fits_FSIGN_MASK F HF). unfold fsgnj_op.
  repeat (case_match; try exact I); cbn; fits_tac.
Qed.
Lemma good_exec_fsgnj F insn rm : fmt_ok F -> good (exec_fsgnj F insn rm) label_ok.
Proof.
  intros HF. unfold exec_fsgnj. do 2 ins_step.
  pose proof (fsgnj_fits F rm a a0 HF ltac:(done) ltac:(done)) as Hv.
  destruct (fsgnj_op _ _ _ _); [|apply good_illegal]. repeat ins_step.
Qed.
Lemma good_exec_fminmax F insn rm : fmt_ok F -> good (exec_fminmax F insn rm) label_ok.
Proof.
  intros HF. unfold exec_fminmax. do 2 ins_step. pose proof HF as [HF' _].
  assert (forall x, fits F (wrap F x)) by (intros; apply fits_wrap; lia).
  repeat (case_match; try apply good_illegal); (apply good_fp_result; [done|]);
    [by apply min_returns|by apply max_returns].
Qed.
Lemma returns_conv {A} (R : A -> Prop) m n : returns R m ->
  returns (fun _ => True) (m ≫= fun v : A => mret (n v : Z)).
Proof. intros Hm. eapply returns_bind; [exact Hm|]. intros. by apply returns_ret. Qed.
Lemma good_exec_fcvt_int F insn rm : good (exec_fcvt_int XLEN F insn rm) label_ok.
Proof.
  apply good_with_rm. intros r. ins_step. cbv zeta. pose proof (rd_range insn) as Hrd.
  repeat (case_match; try apply good_illegal);
    (eapply good_int_result; [done|]);
    first [apply cvt_sf_i_returns; lia | apply cvt_sf_u_returns; lia |
           eapply returns_conv; first [apply cvt_sf_i_returns; lia | apply cvt_sf_u_returns; lia]].
Qed.
Lemma good_exec_fcmp F insn rm : good (exec_fcmp F insn rm) label_ok.
Proof.
  unfold exec_fcmp. do 2 ins_step. cbv zeta. pose proof (rd_range insn) as Hrd.
  repeat (case_match; try apply good_illegal); (eapply good_int_result; [done|]);
    [apply le_returns|apply eq_returns|apply lt_returns].
Qed.
Lemma good_exec_fcvt_from_int F insn rm : fmt_ok F -> good (exec_fcvt_from_int XLEN F insn rm) label_ok.
Proof.
  intros HF. apply good_with_rm. intros r. ins_step. cbv zeta. pose proof HF as [HF' _].
  repeat (case_match; try apply good_illegal); (apply good_fp_result; [done|]);
    first [apply cvt_i_returns; (done || lia) | apply cvt_u_returns; (done || lia)].
Qed.
Lemma good_exec_fcvt_fmt F insn rm : fmt_ok F -> good (exec_fcvt_fmt F insn rm) label_ok.
Proof.
  intros HF. apply good_with_rm. intros r. pose proof HF as [HF' Hle].
  destruct (cvt_source _ _) as [G|] eqn:HG; [|apply good_illegal].
  destruct (cvt_source_ok _ _ _ HG Hle HF') as [HG' Hlt]. ins_step.
  destruct (G <? F) eqn:E; (apply good_fp_result; [done|]);
    [by apply cvt_widen_returns|by apply cvt_narrow_returns; auto].
Qed.
Lemma good_exec_fmv_x F insn rm : good (exec_fmv_x XLEN F insn rm) label_ok.
Proof.
  unfold exec_fmv_x. ins_step; [apply good_illegal|]. ins_step. pose proof (rd_range insn) as Hrd.
  repeat (case_match; try apply good_illegal);
    (eapply (good_int_result _ (fun _ => True)); [done|by apply returns_ret]).
Qed.
Lemma good_exec_fmv_f F insn rm : good (exec_fmv_f XLEN F insn rm) label_ok.
Proof.
  unfold exec_fmv_f. repeat ins_step; apply fits_wrap, FLEN_pos.
Qed.

Lemma good_exec_fp_op insn : good (exec_fp_op XLEN insn) label_ok.
Proof.
  unfold exec_fp_op. apply good_if_fs. cbv zeta.
  destruct (fmt_size _) as [F|] eqn:HF; [|apply good_illegal]. apply fmt_size_ok in HF.
  pose proof HF as [HF' _].
  repeat lazymatch goal with
    | |- good (match ?x with _ => _ end) _ => first [is_var x; destruct x | destruct x eqn:?]
    | |- good illegal _ => apply good_illegal
    | |- good (exec_fbin _ (add_sf _) _ _) _ => apply good_exec_fbin; [done|intros; by apply add_returns]
    | |- good (exec_fbin _ (sub_sf _) _ _) _ => apply good_exec_fbin; [done|intros; by apply sub_returns]
    | |- good (exec_fbin _ (mul_sf _) _ _) _ => apply good_exec_fbin; [done|intros; by apply mul_returns]
    | |- good (exec_fbin _ (div_sf _) _ _) _ => apply good_exec_fbin; [done|intros; by apply div_returns]
    | |- good (exec_fsqrt _ _ _) _ => by apply good_exec_fsqrt
    | |- good (exec_fsgnj _ _ _) _ => by apply good_exec_fsgnj
    | |- good (exec_fminmax _ _ _) _ => by apply good_exec_fminmax
    | |- good (exec_fcvt_int _ _ _ _) _ => apply good_exec_fcvt_int
    | |- good (exec_fcmp _ _ _) _ => apply good_exec_fcmp
    | |- good (exec_fcvt_from_int _ _ _ _) _ => by apply good_exec_fcvt_from_int
    | |- good (exec_fcvt_fmt _ _ _) _ => by apply good_exec_fcvt_fmt
    | |- good (exec_fmv_x _ _ _ _) _ => apply good_exec_fmv_x
    | |- good (exec_fmv_f _ _ _ _) _ => apply good_exec_fmv_f
    end.
Qed.
End FpInsn.
