(* ===== verification/InterpInv.v ===== *)
(** * The interpreter loop keeps the invariant and ends

    The local variables of the loop either ask for a new block or point into a
    page of host memory; every turn uses up a cycle or an instruction of the
    block, so the loop ends after at most [interp_fuel] turns, and every call of
    riscv_cpu_interp_x advances the instruction counter. *)
From S2P Require Export FpInsnInv Interp.

Section InterpInv.
Context `{cfg : Config} {W : Type} `{plat : Platform W}
  (winv : W -> Prop) (objs : list (Z * Z)) `{!PlatformSafe winv objs}.
Local Abbreviation good := (good winv objs).
Local Abbreviation sys_inv := (sys_inv winv objs).

(** A bind whose first part is typed. *)
Lemma good_wp_bind {A B} (m : M (Sys W) A) (k : A -> M (Sys W) B) R Q nc σ :
  good m R -> sys_inv nc σ ->
  (forall a σ', R a -> sys_inv nc σ' -> wp (k a) safe_stop Q σ') -> wp (m ≫= k) safe_stop Q σ.
Proof.
  intros Hm Hs Hk. apply wp_bind. eapply wp_mono; [by apply Hm|]. intros a σ' [??]. by apply Hk.
Qed.
Lemma wp_also {A} (m : M (Sys W) A) Q Q' σ :
  wp m safe_stop Q σ -> wp m (fun _ => True) Q' σ -> wp m safe_stop (fun a σ' => Q a σ' /\ Q' a σ') σ.
Proof. unfold wp. by destruct (m σ). Qed.

Section Width.
Context (XLEN : Z) (HXLEN : XLEN = 32 \/ XLEN = 64 \/ XLEN = 128) (HMAX : XLEN <= MAX_XLEN).

Lemma good_exec_insn gpc ic insn : even_word gpc -> fits 64 ic ->
  good (exec_insn XLEN gpc ic insn) label_ok.
Proof.
  intros Hg Hic. unfold exec_insn.
  repeat lazymatch goal with
    | |- good (match ?x with _ => _ end) _ => first [is_var x; destruct x | destruct x eqn:?]
    | |- good illegal _ => apply good_illegal
    | |- good (exec_c0 _ _) _ => by apply good_exec_c0
    | |- good (exec_c1 _ _ _) _ => by apply good_exec_c1
    | |- good (exec_c2 _ _ _) _ => by apply good_exec_c2
    | |- good (exec_lui _) _ => by apply good_exec_lui
    | |- good (exec_auipc _ _ _) _ => by apply good_exec_auipc
    | |- good (exec_jal _ _ _) _ => by apply good_exec_jal
    | |- good (exec_jalr _ _ _) _ => by apply good_exec_jalr
    | |- good (exec_branch _ _ _) _ => by apply good_exec_branch
    | |- good (exec_load _ _) _ => by apply good_exec_load
    | |- good (exec_store _ _) _ => by apply good_exec_store
    | |- good (exec_op_imm _ _) _ => by apply good_exec_op_imm
    | |- good (exec_op_imm_w _ _) _ => by apply good_exec_op_imm_w
    | |- good (exec_op _ _) _ => by apply good_exec_op
    | |- good (exec_op_w _ _) _ => by apply good_exec_op_w
    | |- good (exec_system _ _ _ _) _ => by apply good_exec_system
    | |- good (exec_misc_mem _ _) _ => by apply good_exec_misc_mem
    | |- good (exec_amo _ _) _ => by apply good_exec_amo
    | |- good (exec_fp_load _) _ => by apply good_exec_fp_load
    | |- good (exec_fp_store _) _ => by apply good_exec_fp_store
    | |- good (exec_fma _ _ _) _ => by apply good_exec_fma
    | |- good (exec_fp_op _ _) _ => by apply good_exec_fp_op
    end.
Qed.

(** ** The local variables *)

(** The code pointer is in the page [P]; the last halfword of a page is fetched
    on its own. *)
Definition in_page (l : Locals) : Prop := exists P,
  host_page objs P /\ P <= code_ptr l <= P + 4094 /\ code_end l = P + 4094 /\
  even (code_ptr l - P).
Definition cur_ok (l : Locals) : Prop := even_word (GET_PC l) /\ in_page l.
Definition loc_ok (l : Locals) : Prop :=
  even_word (GET_PC l) /\ (code_ptr l < code_end l -> in_page l).
(** The number of instructions that are left in the block, at most. *)
Definition block_left (l : Locals) : Z := Z.max 0 ((code_end l - code_ptr l) / 2).

Lemma even_2 x : even x <-> x mod 2 = 0.
Proof.
  unfold even. rewrite Z.bit0_odd. rewrite Zmod_odd. destruct (Z.odd x); split; congruence.
Qed.
Lemma block_left_bound l : in_page l -> block_left l <= 2047.
Proof.
  intros (P & _ & ? & He & _). unfold block_left. rewrite He. Z.to_euclidean_division_equations. lia.
Qed.

Lemma even_page_off addr : even_word addr -> even (page_off addr).
Proof.
  intros [_ He]. unfold page_off. change 4096 with (2 ^ 12).
  by apply (even_wrap 12).
Qed.
(** The variables that a fetch sets up. *)
Lemma new_block addr ptr : objs_wf objs -> even_word addr -> code_ptr_ok objs addr ptr ->
  cur_ok {| code_ptr := ptr;
            code_end := uptr (ptr + ulong (PG_MASK - 1 - (addr .& PG_MASK)));
            code_to_pc_addend := ulong (addr - ptr) |}.
Proof.
  intros Hwf Ha Hp. unfold code_ptr_ok in Hp. destruct (host_page_range objs _ Hwf Hp) as [Hp0 Hp1].
  pose proof (page_off_range addr) as Ho. pose proof (even_page_off addr Ha) as He.
  pose proof MAX_XLEN_pos. pose proof UINTPTR_W_pos.
  assert (page_off addr <= 4094).
  { apply even_2 in He. destruct (Z.eq_dec (page_off addr) 4095) as [E|]; [rewrite E in He; done|lia]. }
  assert (uptr (ptr + ulong (PG_MASK - 1 - (addr .& PG_MASK))) = ptr - page_off addr + 4094) as Ee.
  { rewrite PG_MASK_off. change (PG_MASK - 1) with 4094.
    rewrite ulong_fits by (apply fits_small; lia). rewrite uptr_fits; [lia|split; lia]. }
  split.
  - unfold GET_PC. cbn [code_ptr code_to_pc_addend]. unfold ulong, wrap.
    rewrite Z.add_mod_idemp_r by (apply pow2_nz; lia). replace (ptr + (addr - ptr)) with addr by lia.
    rewrite Z.mod_small; [exact Ha|apply Ha].
  - exists (ptr - page_off addr). cbn [code_ptr code_end].
    replace (ptr - (ptr - page_off addr)) with (page_off addr) by lia. split; [done|]. split; [lia|].
    by split; [rewrite Ee; lia|].
Qed.
(** The next instruction. *)
Lemma next_insn l n : objs_wf objs -> cur_ok l -> n = 2 \/ n = 4 ->
  let l' := {| code_ptr := uptr (code_ptr l + n); code_end := code_end l;
               code_to_pc_addend := code_to_pc_addend l |} in
  loc_ok l' /\ block_left l' <= Z.max 0 (block_left l - 1).
Proof.
  intros Hwf [Hg (P & HP & Hr & He & Hev)] Hn l'. destruct (host_page_range objs _ Hwf HP) as [Hp0 Hp1].
  pose proof UINTPTR_W_pos. pose proof MAX_XLEN_pos.
  assert (uptr (code_ptr l + n) = code_ptr l + n) as En by (apply uptr_fits; split; lia).
  assert (even n) as Hen by (by destruct Hn as [-> | ->]).
  subst l'. rewrite En. split.
  - split.
    + unfold GET_PC in *. cbn [code_ptr code_to_pc_addend]. destruct Hg as [_ Hg].
      replace (code_ptr l + n + code_to_pc_addend l) with (code_ptr l + code_to_pc_addend l + n) by lia.
      apply even_word_ulong, even_add; [|exact Hen]. unfold even, ulong in *.
      rewrite wrap_testbit in Hg by lia. destruct (Z.ltb_spec 0 MAX_XLEN); [exact Hg|lia].
    + cbn [code_ptr code_end]. intros Hlt. exists P. cbn [code_ptr code_end].
      split; [done|]. split; [lia|]. split; [done|].
      replace (code_ptr l + n - P) with (code_ptr l - P + n) by lia. by apply even_add.
  - unfold block_left. cbn [code_ptr code_end]. Z.to_euclidean_division_equations. lia.
Qed.

Lemma host_in_page l (n : nat) : in_page l -> code_ptr l + Z.of_nat n <= code_end l + 2 ->
  host_ok objs (code_ptr l) (Z.of_nat n) = true.
Proof. intros (P & HP & Hr & He & _) Hn. eapply host_ok_sub; [exact HP|lia|lia]. Qed.
Lemma in_page_4 l : in_page l -> code_ptr l < code_end l -> code_ptr l + 4 <= code_end l + 2.
Proof.
  intros (P & _ & Hr & He & Hev) Hlt. apply even_2 in Hev.
  revert Hev. Z.to_euclidean_division_equations. lia.
Qed.

(** ** Instruction budget *)
Definition cycles_ok (nc : Z) : Prop := - 4096 <= nc < 2 ^ 31.
Lemma i32_pred nc : cycles_ok nc -> i32 (nc - 1) = nc - 1.
Proof. intros []. apply swrap_id; lia. Qed.
Lemma dec_n_cycles_inv nc s : cycles_ok nc -> cpu_inv objs nc s -> cpu_inv objs (nc - 1) (dec_n_cycles s).
Proof.
  intros Hc H. unfold dec_n_cycles. rewrite (ci_n_cycles _ _ _ H), i32_pred by done.
  by eapply inv_n_cycles.
Qed.
Lemma sys_inv_upd nc nc' f σ : sys_inv nc σ -> (cpu_inv objs nc (cpu σ) -> cpu_inv objs nc' (f (cpu σ))) ->
  sys_inv nc' (upd_cpu f σ).
Proof. intros [] Hf. constructor; auto. Qed.

Lemma raise_interrupt_good : good (callc raise_interrupt) (fun _ => True).
Proof. apply good_callc. intros nc s H. split; [done|]. by apply raise_interrupt_inv. Qed.

(** An interrupt that is taken uses up a cycle. *)
Lemma check_interrupts_wp nc σ : cycles_ok nc -> sys_inv nc σ ->
  wp check_interrupts safe_stop
    (fun taken σ' => sys_inv (if (taken : bool) then nc - 1 else nc) σ') σ.
Proof.
  intros Hc Hs. unfold check_interrupts. wp_step. apply wp_gets. apply wp_if; intros _; [|by apply wp_ret].
  eapply good_wp_bind; [apply raise_interrupt_good|exact Hs|]. intros [] σ' _ Hs'; [|by apply wp_ret].
  apply wp_bind, wp_modify, wp_ret. eapply sys_inv_upd; [exact Hs'|]. by apply dec_n_cycles_inv.
Qed.

(** Where a fetch leaves the loop. *)
Definition fetch_exit (nc : Z) (lab : label) (gpc : Z) (σ : Sys W) : Prop :=
  even_word gpc /\
  ((lab = L_done_interp /\ ((nc <= 0 /\ sys_inv nc σ) \/ sys_inv (nc - 1) σ)) \/
   (lab = L_mmu_exception /\ sys_inv nc σ /\ 0 <= pending_exception (cpu σ))).
Definition fetch_post (nc : Z) (l : Locals) (f : fetched) (σ : Sys W) : Prop :=
  match f with
  | Fetched l' insn => sys_inv nc σ /\ cur_ok l' /\ (0 < nc \/ (l' = l /\ code_ptr l < code_end l))
  | FetchGoto lab gpc => fetch_exit nc lab gpc σ
  end.

Lemma read_insn_u16_fault addr (σ : Sys W) :
  wp (target_read_insn_u16 addr) (fun _ => True)
    (fun r (σ' : Sys W) => r = None -> 0 <= pending_exception (cpu σ')) σ.
Proof.
  unfold target_read_insn_u16. apply wp_bind. eapply wp_mono; [apply insn_ptr_fault|].
  intros [p|] σ' H; [|by apply wp_ret; intros; apply H].
  apply wp_bind. unfold wp, host_read. by case_if.
Qed.
Lemma aligned_even addr : even_word addr -> aligned 1 (ulong (addr + 2)).
Proof.
  intros [_ He]. apply aligned_ulong; [lia|]. apply even_2, even_add; [exact He|done].
Qed.

Lemma fetch_insn_wp nc l gpc addr ptr σ :
  0 < nc -> sys_inv nc σ -> even_word addr -> cur_ok l -> code_ptr l = ptr ->
  let l0 := gpc in
  wp (if code_end l <=? code_ptr l then
        insn ← host_read 2 ptr;
        if insn .& 3 =? 3 then
          hi ← target_read_insn_u16 (ulong (addr + 2));
          match hi with
          | None => mret (FetchGoto L_mmu_exception (GET_PC l))
          | Some insn_high => mret (Fetched l (u32 (insn .| (insn_high ≪ 16))))
          end
        else mret (Fetched l insn)
      else insn ← get_insn32 ptr; mret (Fetched l insn))
    safe_stop (fetch_post nc l0) σ.
Proof.
  intros Hnc Hs Ha Hl <- l0. apply wp_if; intros Hend.
  - eapply good_wp_bind; [apply good_host_read, host_in_page; [apply Hl|]|exact Hs|].
    { destruct Hl as [_ (P & _ & ? & ? & _)]. lia. }
    intros insn σ1 _ Hs1. apply wp_if; intros _; [|by apply wp_ret; split; [|split; [|left]]].
    pose proof (good_read_insn_u16 winv objs _ (fits_ulong _) (aligned_even _ Ha) nc σ1 Hs1) as Hw.
    apply wp_bind. eapply wp_mono; [apply (wp_also _ _ _ _ Hw (read_insn_u16_fault _ σ1))|].
    intros [hi|] σ2 [[_ Hs2] Hp]; apply wp_ret; [by split; [|split; [|left]]|].
      split; [apply Hl|]. right. split; [done|]. split; [exact Hs2|by apply Hp].
  - unfold get_insn32. eapply good_wp_bind; [apply good_host_read, host_in_page; [apply Hl|]|exact Hs|].
    { apply in_page_4; [apply Hl|lia]. }
    intros insn σ1 _ Hs1. apply wp_ret. by split; [|split; [|left]].
Qed.

Lemma fetch_block_wp nc l σ : cycles_ok nc -> sys_inv nc σ -> even_word (GET_PC l) ->
  wp (fetch_block l) safe_stop (fetch_post nc l) σ.
Proof.
  intros Hc Hs Hg. unfold fetch_block. cbv zeta.
  eapply good_wp_bind; [by apply good_set_pc|exact Hs|]. intros _ σ1 _ Hs1.
  apply wp_bind, wp_gets. rewrite (ci_n_cycles _ _ _ (si_cpu _ _ _ _ Hs1)).
  apply wp_if; intros Hnc; [apply wp_ret; split; [exact Hg|]; left; split; [done|]; left; split; [lia|done]|].
  apply wp_bind. eapply wp_mono; [by apply check_interrupts_wp|]. intros [] σ2 Hs2; cbv beta in Hs2 |- *.
  { apply wp_ret. split; [exact Hg|]. left. split; [done|by right]. }
  apply wp_bind, wp_gets. pose proof (ci_pc _ _ _ (si_cpu _ _ _ _ Hs2)) as Hpc.
  pose proof (good_insn_ptr winv objs _ (proj1 Hpc) nc σ2 Hs2) as Hw.
  apply wp_bind. eapply wp_mono; [apply (wp_also _ _ _ _ Hw (insn_ptr_fault _ σ2))|].
  intros [ptr|] σ3 [[Hp Hs3] Hf]; cbn [opt] in Hp.
  - apply fetch_insn_wp; try done; [lia|].
    apply new_block; [by eapply sys_inv_objs|done|done].
  - apply wp_ret. split; [exact Hg|]. right. split; [done|]. split; [exact Hs3|by apply Hf].
Qed.

Lemma fetch_wp nc l σ : cycles_ok nc -> sys_inv nc σ -> loc_ok l ->
  wp (fetch l) safe_stop (fetch_post nc l) σ.
Proof.
  intros Hc Hs [Hg Hl]. unfold fetch. apply wp_if; intros Hend; [by apply fetch_block_wp|].
  assert (code_ptr l < code_end l) as Hlt by lia. specialize (Hl Hlt).
  unfold get_insn32. eapply good_wp_bind; [apply good_host_read, host_in_page; [done|]|exact Hs|].
  { by apply in_page_4. }
  intros insn σ1 _ Hs1. apply wp_ret. split; [exact Hs1|]. split; [by split|by right].
Qed.

(** ** One iteration *)
Definition goto_ok (nc : Z) (lab : label) (gpc : Z) (σ : Sys W) : Prop :=
  even_word gpc /\
  (sys_inv (nc - 1) σ \/
   (sys_inv nc σ /\ ((lab = L_done_interp /\ nc <= 0) \/
                     (lab = L_mmu_exception /\ 0 <= pending_exception (cpu σ))))).
Definition step_post (nc : Z) (l : Locals) (n : next) (σ : Sys W) : Prop :=
  match n with
  | Loop l' => sys_inv (nc - 1) σ /\ loc_ok l' /\
      (if 0 <? nc then block_left l' <= 2046 else block_left l' + 1 <= block_left l)
  | Goto lab gpc insn => goto_ok nc lab gpc σ
  end.

Lemma block_left_pos l : in_page l -> code_ptr l < code_end l -> 1 <= block_left l.
Proof.
  intros Hp Hlt. pose proof (in_page_4 l Hp Hlt). unfold block_left.
  Z.to_euclidean_division_equations. lia.
Qed.
Lemma jump_ok σ nc : sys_inv nc σ ->
  loc_ok {| code_ptr := 0; code_end := 0; code_to_pc_addend := pc (cpu σ) |}.
Proof.
  intros Hs. pose proof (ci_pc _ _ _ (si_cpu _ _ _ _ Hs)) as Hpc. split; [|simpl; lia].
  unfold GET_PC. cbn [code_ptr code_to_pc_addend]. rewrite Z.add_0_l, ulong_fits; apply Hpc.
Qed.

Lemma block_left_0 a : block_left {| code_ptr := 0; code_end := 0; code_to_pc_addend := a |} = 0.
Proof. done. Qed.

Lemma step_wp addend nc l σ : cycles_ok nc -> sys_inv nc σ -> loc_ok l ->
  wp (step XLEN addend l) safe_stop (step_post nc l) σ.
Proof.
  intros Hc Hs Hl. unfold step. apply wp_bind. eapply wp_mono; [by apply fetch_wp|].
  intros [l' insn|lab gpc] σ1 Hf; cbn [fetch_post] in Hf; cbv beta iota.
  2:{ apply wp_ret. destruct Hf as [Hg Hf]. split; [exact Hg|].
      destruct Hf as [(-> & [[? ?]|?])|(-> & ? & ?)]; auto. }
  destruct Hf as (Hs1 & Hl' & Hcase).
  apply wp_bind, wp_modify. pose proof (sys_inv_upd _ _ _ _ Hs1 (dec_n_cycles_inv nc _ Hc)) as Hs2.
  set (σ2 := upd_cpu dec_n_cycles σ1) in *. clearbody σ2. apply wp_bind, wp_gets. cbv zeta.
  eapply good_wp_bind; [apply good_exec_insn; [apply Hl'|by apply fits_wrap]|exact Hs2|].
  intros lab σ3 Hlab Hs3.
  assert (if 0 <? nc then 1 <= 2047 else 1 <= block_left l) as Hpos.
  { destruct (Z.ltb_spec 0 nc); [lia|]. destruct Hcase as [|[<- Hlt]]; [lia|].
    apply block_left_pos; [apply Hl'|done]. }
  destruct lab; try (apply wp_ret; split; [apply Hl'|by left]).
  - apply wp_ret. destruct (next_insn l' n (sys_inv_objs winv objs _ _ Hs3) Hl' Hlab) as [Hok Hleft].
    cbv zeta in Hok, Hleft. split; [exact Hs3|]. split; [exact Hok|].
    pose proof (block_left_bound l' (proj2 Hl')).
    destruct (Z.ltb_spec 0 nc); [lia|]. destruct Hcase as [|[-> Hlt]]; lia.
  - apply wp_bind, wp_gets, wp_ret. split; [exact Hs3|]. split; [by eapply jump_ok|].
    rewrite block_left_0.
    revert Hpos. destruct (0 <? nc); lia.
Qed.

(** ** The end of a call *)
Definition call_post (n1 addend : Z) (σ : Sys W) : Prop := exists nc,
  sys_inv nc σ /\ -4096 <= nc < n1 /\ insn_counter (cpu σ) = u64 (addend - nc).

(** The state a call ends in, from a budget of [nc]; [trap] says that an exception
    has been raised. *)
Definition finish_post (addend nc : Z) (trap : Prop) (σ : Sys W) : Prop := exists nc',
  sys_inv nc' σ /\ nc - 1 <= nc' <= nc /\ insn_counter (cpu σ) = u64 (addend - nc') /\
  (trap -> nc' = nc - 1).

Lemma save_counter_wp addend nc nc' (trap : Prop) σ : sys_inv nc' σ -> nc - 1 <= nc' <= nc ->
  (trap -> nc' = nc - 1) ->
  wp (updc (fun s => with_insn_counter (GET_INSN_COUNTER addend s) s)) safe_stop
    (fun _ σ' => finish_post addend nc trap σ') σ.
Proof.
  intros Hs Hnc Ht. apply wp_modify. exists nc'. split; [|split; [done|split; [|done]]].
  - eapply sys_inv_upd; [exact Hs|]. intros Hi. by apply inv_insn_counter; [|apply fits_wrap].
  - cbn. unfold GET_INSN_COUNTER. by rewrite (ci_n_cycles _ _ _ (si_cpu _ _ _ _ Hs)).
Qed.
Lemma raise_pending_inv nc s : cycles_ok nc -> cpu_inv objs nc s ->
  cpu_inv objs (nc - 1) (raise_exception2 (dec_n_cycles s) (pending_exception s) (pending_tval s)).
Proof.
  intros Hc H. apply raise_exception2_inv; [by apply dec_n_cycles_inv|apply (ci_pending_tval _ _ _ H)].
Qed.
Lemma finish_trap_wp addend nc gpc σ : cycles_ok nc -> sys_inv nc σ -> even_word gpc ->
  wp (_ ← (_ ← set_pc gpc;
           s ← getc;
           if 0 <=? pending_exception s then
             updc (fun s => raise_exception2 (dec_n_cycles s) (pending_exception s) (pending_tval s))
           else mret tt);
      updc (fun s => with_insn_counter (GET_INSN_COUNTER addend s) s)) safe_stop
    (fun _ σ' => finish_post addend nc (0 <= pending_exception (cpu σ)) σ') σ.
Proof.
  intros Hc Hs Hg. apply wp_bind, wp_bind, wp_modify.
  assert (sys_inv nc (upd_cpu (with_pc gpc) σ)) as Hs1.
  { eapply sys_inv_upd; [exact Hs|]. intros Hi. by apply inv_pc. }
  apply wp_bind, wp_gets. apply wp_if; intros Hp.
  - apply wp_modify. apply (save_counter_wp addend nc (nc - 1)); [|lia|done].
    eapply sys_inv_upd; [exact Hs1|]. by apply raise_pending_inv.
  - apply wp_ret. apply (save_counter_wp addend nc nc); [done|lia|].
    intros Hp'. change (pending_exception (cpu (upd_cpu _ σ))) with (pending_exception (cpu σ)) in Hp. lia.
Qed.
Lemma finish_post_mono addend nc (t t' : Prop) σ : (t' -> t) ->
  finish_post addend nc t σ -> finish_post addend nc t' σ.
Proof. intros Ht (nc' & ? & ? & ? & Hnc). exists nc'. tauto. Qed.

Lemma finish_wp addend nc lab gpc insn σ : cycles_ok nc -> sys_inv nc σ -> even_word gpc ->
  wp (finish addend lab gpc insn) safe_stop
    (fun _ σ' => finish_post addend nc
       (lab = L_mmu_exception /\ 0 <= pending_exception (cpu σ)) σ') σ.
Proof.
  intros Hc Hs Hg. unfold finish.
  assert (forall trap, (trap -> False) -> forall σ', sys_inv nc σ' ->
    wp (_ ← (_ ← set_pc gpc; s ← getc;
             if 0 <=? pending_exception s then
               updc (fun s => raise_exception2 (dec_n_cycles s) (pending_exception s) (pending_tval s))
             else mret tt);
        updc (fun s => with_insn_counter (GET_INSN_COUNTER addend s) s)) safe_stop
      (fun _ σ'' => finish_post addend nc trap σ'') σ') as Hother.
  { intros trap Ht σ' Hs'. eapply wp_mono; [by apply finish_trap_wp|]. intros ? σ''.
    apply finish_post_mono. tauto. }
  destruct lab; try (apply wp_bind, wp_ret, Hother; [by intros [Hx _]|done]).
  - eapply good_wp_bind with (R := fun _ => True); [|exact Hs|].
    { good_step; [inv_steps|]. apply good_updc. intros. inv_steps. apply fits_ulong. }
    intros _ σ' _ Hs'. apply Hother; [by intros [Hx _]|done].
  - apply wp_bind, wp_ret. eapply wp_mono; [by apply finish_trap_wp|]. intros ? σ'.
    apply finish_post_mono. tauto.
  - apply wp_bind, wp_ret, wp_bind, wp_ret.
    apply (save_counter_wp addend nc nc); [done|lia|by intros [Hx _]].
Qed.

(** ** The loop *)
Definition fuel_needed (nc : Z) (l : Locals) : Z := if 0 <? nc then nc + 2048 else block_left l + 1.

Lemma run_loop_wp fuel n1 addend nc l σ :
  fuel_needed nc l <= Z.of_nat fuel -> block_left l - 2048 < nc <= n1 -> 0 < n1 < 2 ^ 31 ->
  sys_inv nc σ -> loc_ok l ->
  wp (run_loop fuel XLEN addend l) safe_stop (fun _ => call_post n1 addend) σ.
Proof.
  revert nc l σ. induction fuel as [|fuel IH]; intros nc l σ Hfuel Hnc Hn1 Hs Hl.
  { unfold fuel_needed, block_left in Hfuel. revert Hfuel. zcases. }
  assert (0 <= block_left l) by apply Z.le_max_l.
  assert (cycles_ok nc) as Hc by (split; lia).
  cbn [run_loop]. apply wp_bind. eapply wp_mono; [by apply step_wp|].
  intros [l'|lab gpc insn] σ' Hp; cbn [step_post] in Hp; cbv beta iota.
  - destruct Hp as (Hs' & Hl' & Hleft). assert (0 <= block_left l') by apply Z.le_max_l.
    unfold fuel_needed in Hfuel.
    destruct (Z.ltb_spec 0 nc); (eapply (IH (nc - 1)); [|lia|done|done|done]);
      unfold fuel_needed; zcases.
  - destruct Hp as [Hg Hp].
    assert (exists m, sys_inv m σ' /\ nc - 1 <= m <= nc /\
      (m = nc -> nc <= 0 \/ (lab = L_mmu_exception /\ 0 <= pending_exception (cpu σ')))) as (m & Hs' & Hm & Hcase).
    { destruct Hp as [?|[? Hc']]; [exists (nc - 1)|exists nc]; (split; [done|split; [lia|]]).
      - lia.
      - intros _. destruct Hc' as [[_ ?]|?]; auto. }
    assert (cycles_ok m) as Hcm by (split; lia).
    eapply wp_mono; [by apply (finish_wp addend m)|].
    intros _ σ2 (nc2 & Hs2 & Hr & Hic & Ht). exists nc2. split; [done|]. split; [|done].
    destruct (Z.eq_dec m nc) as [->|]; [|lia].
    destruct (Hcase eq_refl) as [|Htrap]; [lia|]. specialize (Ht Htrap). lia.
Qed.

Lemma interp_x_wp n1 σ nc : 0 < n1 < 2 ^ 31 -> sys_inv nc σ ->
  wp (riscv_cpu_interp_x XLEN n1) safe_stop
    (fun _ => call_post n1 (u64 (insn_counter (cpu σ) + n1))) σ.
Proof.
  intros Hn Hs. unfold riscv_cpu_interp_x. apply wp_if; intros Hz; [lia|].
  apply wp_bind, wp_gets. cbv zeta. set (addend := u64 _).
  apply wp_bind, wp_modify.
  assert (sys_inv n1 (upd_cpu (with_n_cycles n1) σ)) as Hs1.
  { eapply sys_inv_upd; [exact Hs|]. intros Hi. by eapply inv_n_cycles. }
  assert (cycles_ok n1) as Hc by (split; lia).
  apply wp_bind. eapply wp_mono; [by apply check_interrupts_wp|]. intros [] σ2 Hs2; cbv beta iota in *.
  - assert (cycles_ok (n1 - 1)) as Hc' by (split; lia).
    eapply wp_mono; [apply (finish_wp addend (n1 - 1)); [done|done|]|].
    { pose proof MAX_XLEN_pos. split; [apply fits_0; lia|done]. }
    intros _ σ3 (nc3 & Hs3 & Hr & Hic & _). exists nc3. split; [done|]. split; [lia|done].
  - apply wp_bind, wp_modify.
    assert (sys_inv n1 (upd_cpu (with_pending_exception (-1)) σ2)) as Hs3.
    { eapply sys_inv_upd; [exact Hs2|]. intros Hi. by apply inv_pending_exception. }
    apply wp_bind, wp_gets. apply (run_loop_wp _ n1 addend n1); try done.
    + unfold fuel_needed, interp_fuel. rewrite Z2Nat.id by lia. zcases.
    + rewrite block_left_0. lia.
    + by eapply jump_ok.
Qed.
End Width.

(** ** riscv_cpu_interp *)

(** The cycles left, from the 64-bit counter. *)
Lemma counter_left timeout left : - 2 ^ 31 <= left < 2 ^ 31 ->
  i32 (u64 (timeout - u64 (timeout - left))) = left.
Proof.
  intros Hl. rewrite swrap_wrap by lia. rewrite <- (swrap_id 32 left) at 2 by lia.
  apply swrap_wrap_eq; [lia|]. destruct (wrap_decomp 64 (timeout - left)) as [k ->]; [lia|].
  apply (wrap_eq 32 _ _ (- k * 2 ^ 32)); lia.
Qed.
Lemma counter_next timeout left nc : u64 (u64 (u64 (timeout - left) + left) - nc) = u64 (timeout - nc).
Proof.
  destruct (wrap_decomp 64 (timeout - left)) as [k ->]; [lia|].
  destruct (wrap_decomp 64 (timeout - left + k * 2 ^ 64 + left)) as [k2 ->]; [lia|].
  apply (wrap_eq 64 _ _ (k + k2)); lia.
Qed.

(** The state riscv_cpu_interp returns in: out of cycles or powered down. *)
Definition interp_post (timeout left : Z) (σ : Sys W) : Prop := exists nc left',
  sys_inv nc σ /\ insn_counter (cpu σ) = u64 (timeout - left') /\
  Z.min left (-4096) <= left' <= left /\ (power_down_flag (cpu σ) = true \/ left' <= 0).

Lemma interp_loop_wp fuel timeout left nc σ :
  Z.max left 0 < Z.of_nat fuel -> - 2 ^ 31 <= left < 2 ^ 31 -> sys_inv nc σ ->
  insn_counter (cpu σ) = u64 (timeout - left) ->
  wp (interp_loop fuel timeout) safe_stop (fun _ => interp_post timeout left) σ.
Proof.
  revert left nc σ. induction fuel as [|fuel IH]; intros left nc σ Hfuel Hleft Hs Hic; [lia|].
  cbn [interp_loop]. apply wp_bind, wp_gets. cbv zeta. rewrite Hic, counter_left by done.
  apply wp_if; intros Hrun.
  2:{ apply wp_ret. exists nc, left. split; [done|]. split; [done|]. split; [lia|].
      destruct (power_down_flag (cpu σ)); [by left|right]. cbn in Hrun. lia. }
  assert (0 < left) as Hpos by lia. pose proof MAX_XLEN_pos.
  assert (forall XLEN, XLEN = 32 \/ XLEN = 64 \/ XLEN = 128 -> XLEN <= MAX_XLEN ->
    wp (riscv_cpu_interp_x XLEN left) safe_stop
      (fun _ => wp (interp_loop fuel timeout) safe_stop (fun _ => interp_post timeout left)) σ) as Hx.
  { intros XLEN HX HM. eapply wp_mono; [eapply (interp_x_wp XLEN HX HM); [lia|exact Hs]|].
    intros _ σ' (nc' & Hs' & Hnc' & Hic'). rewrite Hic, counter_next in Hic'.
    eapply wp_mono; [eapply (IH nc'); [lia|lia|exact Hs'|exact Hic']|].
    intros _ σ2 (nc2 & l2 & Hs2 & Hi2 & Hl2 & Hd). exists nc2, l2. split; [done|]. split; [done|].
    split; [lia|done]. }
  apply wp_bind. destruct (Z.eqb_spec (cur_xlen (cpu σ)) 32); [apply Hx; lia|].
  destruct ((64 <=? MAX_XLEN) && _) eqn:E64; [apply Hx; lia|].
  destruct ((128 <=? MAX_XLEN) && _) eqn:E128; [apply Hx; lia|]. by apply wp_stop.
Qed.

Lemma riscv_cpu_interp_wp n nc σ : - 2 ^ 31 <= n < 2 ^ 31 -> sys_inv nc σ ->
  wp (riscv_cpu_interp n) safe_stop (fun _ => interp_post (u64 (insn_counter (cpu σ) + n)) n) σ.
Proof.
  intros Hn Hs. pose proof (ci_insn_counter _ _ _ (si_cpu _ _ _ _ Hs)) as Hic.
  apply wp_bind, wp_gets. apply (interp_loop_wp _ _ n nc); [lia|lia|done|].
  unfold wrap. rewrite Zminus_mod_idemp_l. replace (_ + n - n) with (insn_counter (cpu σ)) by lia.
  symmetry. by apply Z.mod_small.
Qed.

(** C2: riscv_cpu_interp is safe and ends.  From any state that satisfies the
    invariant (registers in range, TLB entries inside live host objects, a
    well-formed memory map) and for any argument of type int, with devices that
    keep it, the interpreter never accesses memory outside the host objects and
    never exceeds the model's recursion bounds.  It either stops in abort, assert
    or exit, or returns in a state that satisfies the invariant again, powered down
    or with all its cycles used and at most 4096 more. *)
Theorem riscv_cpu_interp_safe n nc σ : - 2 ^ 31 <= n < 2 ^ 31 -> sys_inv nc σ ->
  (exists σ' nc' left, riscv_cpu_interp n σ = Ok tt σ' /\ sys_inv nc' σ' /\
     insn_counter (cpu σ') = u64 (insn_counter (cpu σ) + n - left) /\
     Z.min n (-4096) <= left <= n /\ (power_down_flag (cpu σ') = true \/ left <= 0)) \/
  (exists r, riscv_cpu_interp n σ = Stop r /\ r <> StopFault /\ r <> StopFuel).
Proof.
  intros Hn Hs. pose proof (riscv_cpu_interp_wp n nc σ Hn Hs) as Hwp.
  unfold wp in Hwp. destruct (riscv_cpu_interp n σ) as [[] σ'|r]; [left|right].
  - destruct Hwp as (nc' & left & Hs' & Hic' & Hl & Hd). exists σ', nc', left.
    split; [done|]. split; [done|]. split; [|done].
    rewrite Hic'. unfold wrap. by rewrite Zminus_mod_idemp_l.
  - exists r. split; [done|]. exact Hwp.
Qed.
End InterpInv.

(** A CPU on an empty bus: the first fetch faults, again and again. *)
#[local] Instance empty_bus : Platform unit :=
  {| read_func := fun _ _ _ => mret 0; write_func := fun _ _ _ _ => mret tt; uninit := fun _ => 0 |}.
#[local] Instance empty_bus_safe : @PlatformSafe cfg_rv64 unit empty_bus (fun _ => True) [].
Proof. split; intros; apply good_ret; [apply fits_0; lia|done]. Qed.

Lemma riscv_cpu_interp_safe_witness :
  exists σ', riscv_cpu_interp (cfg := cfg_rv64) 10
      (mkSys (@riscv_cpu_init cfg_rv64) phys_mem_map_init ∅ tt) = Ok tt σ' /\
    (exists nc, @sys_inv cfg_rv64 unit (fun _ => True) [] nc σ') /\ mcause (cpu σ') = CAUSE_FAULT_FETCH.
Proof.
  destruct (riscv_cpu_interp_safe (cfg := cfg_rv64) (fun _ : unit => True) [] 10 0
              (mkSys (@riscv_cpu_init cfg_rv64) phys_mem_map_init ∅ tt))
    as [(σ' & nc & left & E & Hs & _)|(r & E & _)].
  - lia.
  - constructor; cbn [cpu mem_map host world]; [|done|apply riscv_cpu_init_inv|done].
    split; [cbn; unfold PHYS_MEM_RANGE_MAX; lia|apply List.Forall_nil].
  - exists σ'. split; [exact E|]. split; [by exists nc|].
    vm_compute in E. injection E as <-. reflexivity.
  - vm_compute in E. discriminate.
Defined.
