(* ===== verification/MachineInv.v ===== *)
(** * The machine: its devices keep the invariant, and every run from the reset
    state is safe *)
From S2P Require Export InterpInv Machine.

(** ** Lowest set bit *)
Lemma ctz32_loop_spec fuel i a : 0 <= i -> fits 32 a ->
  Z.of_nat fuel + i = 32 -> (forall j, 0 <= j < i -> Z.testbit a j = false) ->
  let r := ctz32_loop fuel i a in
  0 <= r <= 32 /\ (forall j, 0 <= j < r -> Z.testbit a j = false) /\ (r < 32 -> Z.testbit a r = true).
Proof.
  revert i. induction fuel as [|fuel IH]; intros i Hi Ha Hf Hlow; cbn [ctz32_loop]; cbv zeta.
  { split; [lia|]. split; [|lia]. intros j Hj. apply Hlow. lia. }
  assert (negb ((a ≫ i) .& 1 =? 0) = Z.testbit a i) as ->.
  { rewrite land_1_testbit, Z.shiftr_spec by lia. f_equal. }
  destruct (Z.testbit a i) eqn:E.
  - split; [lia|]. split; [exact Hlow|done].
  - apply IH; [lia|done|lia|]. intros j Hj. destruct (Z.eq_dec j i) as [->|]; [done|].
    apply Hlow. lia.
Qed.
Lemma ctz32_spec a : fits 32 a -> a <> 0 ->
  0 <= ctz32 a < 32 /\ Z.testbit a (ctz32 a) = true /\
  forall j, 0 <= j < ctz32 a -> Z.testbit a j = false.
Proof.
  intros Ha Hne. unfold ctz32. rewrite (proj2 (Z.eqb_neq a 0) Hne).
  pose proof (ctz32_loop_spec 32 0 a ltac:(lia) Ha eq_refl ltac:(lia)) as (Hr & Hlow & Hbit).
  cbv zeta in *. set (r := ctz32_loop 32 0 a) in *. clearbody r.
  destruct (Z.eq_dec r 32) as [->|]; [|split; [lia|split; [apply Hbit; lia|done]]].
  exfalso. apply Hne. apply Z.bits_inj'. intros i Hi. rewrite Z.bits_0.
  destruct (Z_lt_le_dec i 32); [apply Hlow; lia|]. by eapply fits_testbit.
Qed.
Lemma ctz32_range a : fits 32 a -> 0 <= ctz32 a <= 32.
Proof.
  intros Ha. destruct (Z.eq_dec a 0) as [->|Hne]; [vm_compute; split; congruence|].
  destruct (ctz32_spec a Ha Hne). lia.
Qed.

Section MachineInv.
Context `{cfg : Config} {D : Type} (dinv : D -> Prop) (objs : list (Z * Z)).

Record machine_inv (m : RISCVMachine D) : Prop := {
  mi_timecmp : fits 64 (timecmp m);
  mi_pending : fits 32 (plic_pending_irq m);
  mi_served : fits 32 (plic_served_irq m);
  mi_tohost : fits 64 (htif_tohost m);
  mi_fromhost : fits 64 (htif_fromhost m);
  mi_devices : dinv (devices m);
}.
Local Abbreviation good := (good machine_inv objs).

Lemma good_getm : good getm machine_inv.
Proof. intros nc σ H. apply wp_gets. split; [apply (si_world _ _ _ _ H)|exact H]. Qed.
Lemma good_updm f : (forall m, machine_inv m -> machine_inv (f m)) -> good (updm f) (fun _ => True).
Proof.
  intros Hf nc σ [Hm Ho Hc Hw]. apply wp_modify. split; [done|]. constructor; [done..|]. by apply Hf.
Qed.

(** ** Updates of the fields *)
Lemma inv_timecmp m v : machine_inv m -> fits 64 v -> machine_inv (with_timecmp v m).
Proof. by intros [] ?. Qed.
Lemma inv_plic m p q : machine_inv m -> fits 32 p -> fits 32 q -> machine_inv (with_plic p q m).
Proof. by intros [] ??. Qed.
Lemma inv_htif m p q : machine_inv m -> fits 64 p -> fits 64 q -> machine_inv (with_htif p q m).
Proof. by intros [] ??. Qed.
Lemma inv_console m b : machine_inv m -> machine_inv (put_console b m).
Proof. by intros []. Qed.
Lemma inv_clock m : machine_inv m -> machine_inv (tick_clock m).
Proof. by intros []. Qed.

Lemma fits_low_word x v : fits 32 v -> fits 64 ((x .& NOT_LOW_MASK) .| v).
Proof.
  intros Hv. change NOT_LOW_MASK with 0. rewrite Z.land_0_r, Z.lor_0_l. eapply fits_mono; [done|lia].
Qed.
Lemma fits_high_word x v : fits 32 v -> fits 64 ((x .& 0xffffffff) .| (v ≪ 32)).
Proof.
  intros [??]. apply fits_lor.
  - apply fits_land_r. split; vm_compute; congruence.
  - rewrite Z.shiftl_mul_pow2 by lia. split; lia.
Qed.

(** ** The devices of riscv_machine.c *)
Ltac field := match goal with H : machine_inv ?m |- fits _ (_ ?m) => apply H end.
Ltac mach_step :=
  match goal with
  | |- good (getm ≫= _) _ => eapply good_bind; [apply good_getm|intros ? ?]
  | |- good (updm _ ≫= _) _ => eapply good_bind; [apply good_updm; intros|intros ? _]
  | |- good (updm _) _ => apply good_updm; intros
  | |- good (assert _ ≫= _) _ => eapply good_bind; [apply good_assert|intros ? ?]
  | _ => good_step
  end.

Lemma good_rtc_get_time : good rtc_get_time (fun _ => True).
Proof.
  unfold rtc_get_time. mach_step. mach_step.
  - eapply good_bind with (R := fun _ => True); [|intros; by apply good_ret].
    unfold rtc_get_real_time. mach_step. destruct (monotonic _ _).
    mach_step; [by apply inv_clock|]. by apply good_ret.
  - mach_step. by apply good_ret.
Qed.
Lemma good_htif_read off k : good (htif_read off k) (fits 32).
Proof.
  unfold htif_read. mach_step. mach_step. apply good_ret.
  repeat (case_match; try (apply fits_wrap; lia)); split; vm_compute; congruence.
Qed.
Lemma good_htif_write off v k : fits 32 v -> good (htif_write off v k) (fun _ => True).
Proof.
  intros Hv. unfold htif_write, htif_handle_cmd. mach_step.
  assert (forall m, machine_inv m -> machine_inv (with_htif ((htif_tohost m .& 0xffffffff) .| (v ≪ 32))
            (htif_fromhost m) m)) by (intros m Hm; apply inv_htif; [done|by apply fits_high_word|apply Hm]).
  repeat first [case_match; try by apply good_ret | mach_step].
  all: try (by auto).
  all: try (apply inv_htif; [done| |]; try apply fits_low_word; try apply fits_high_word;
            try done; try match goal with H : machine_inv _ |- _ => apply H end).
  apply inv_htif; [by apply inv_console|apply fits_0; lia|apply fits_lor; apply fits_wrap; lia].
Qed.
Lemma good_clint_read off k : good (clint_read off k) (fits 32).
Proof.
  unfold clint_read. mach_step. mach_step.
  repeat (case_match; try (apply good_ret; first [apply fits_wrap; lia | apply fits_0; lia]));
    (eapply good_bind; [apply good_rtc_get_time|intros; apply good_ret, fits_wrap; lia]).
Qed.
Lemma good_reset_mip mask : good (updc (riscv_cpu_reset_mip mask)) (fun _ => True).
Proof. apply good_updc. intros. by apply reset_mip_inv. Qed.
Lemma good_set_mip mask : fits 32 mask -> good (updc (riscv_cpu_set_mip mask)) (fun _ => True).
Proof. intros. apply good_updc. intros. by apply set_mip_inv. Qed.
Lemma good_clint_write off v k : fits 32 v -> good (clint_write off v k) (fun _ => True).
Proof.
  intros Hv. unfold clint_write. mach_step.
  repeat (case_match; try by apply good_ret); (mach_step; [|apply good_reset_mip]);
    (apply inv_timecmp; [done|]); first [by apply fits_low_word|by apply fits_high_word].
Qed.

Lemma plic_mask_fits m : machine_inv m -> fits 32 (plic_mask m).
Proof. intros Hm. apply fits_land_l, Hm. Qed.
Lemma good_plic_update_mip : good plic_update_mip (fun _ => True).
Proof.
  unfold plic_update_mip. mach_step. mach_step; [apply good_set_mip|apply good_reset_mip].
  split; vm_compute; congruence.
Qed.
Lemma good_plic_read off k : good (plic_read off k) (fits 32).
Proof.
  unfold plic_read. mach_step. mach_step.
  assert (fits 32 0) by (apply fits_0; lia).
  mach_step; [by apply good_ret|]. mach_step; [|by apply good_ret]. cbv zeta.
  mach_step; [|by apply good_ret]. mach_step.
  { apply inv_plic; [done|field|apply fits_lor; [field|apply fits_wrap; lia]]. }
  eapply good_bind; [apply good_plic_update_mip|]. intros _ _. apply good_ret.
  pose proof (ctz32_range _ (plic_mask_fits _ H0)). split; lia.
Qed.
Lemma good_plic_write off v k : good (plic_write off v k) (fun _ => True).
Proof.
  unfold plic_write. mach_step. mach_step; [|by apply good_ret]. cbv zeta.
  mach_step; [|by apply good_ret]. mach_step; [|apply good_plic_update_mip].
  apply inv_plic; [done|field|apply fits_land_l; field].
Qed.
Lemma good_plic_set_irq n st : good (plic_set_irq n st) (fun _ => True).
Proof.
  unfold plic_set_irq. cbv zeta. mach_step; [|apply good_plic_update_mip].
  apply inv_plic; [done| |field].
  case_if; [apply fits_lor; [field|apply fits_wrap; lia]|apply fits_land_l; field].
Qed.
Lemma good_sleep d : good (riscv_machine_get_sleep_duration d) (fun _ => True).
Proof.
  unfold riscv_machine_get_sleep_duration. mach_step.
  eapply good_bind with (R := fun _ => True); [|intros d' _; mach_step; by apply good_ret].
  mach_step; [by apply good_ret|]. mach_step.
  eapply good_bind; [apply good_rtc_get_time|]. intros t _. cbv zeta. mach_step; [|by apply good_ret].
  eapply good_bind; [apply good_set_mip|intros; by apply good_ret]. split; vm_compute; congruence.
Qed.
End MachineInv.

(** ** The platform *)

(** What the devices of the other files must keep. *)
Class OtherSafe `{cfg : Config} {D : Type} {dev : OtherDevices D} (dinv : D -> Prop)
    (objs : list (Z * Z)) : Prop := {
  os_read : forall op off k, fits 32 off -> good (machine_inv dinv) objs (other_read op off k) (fits 32);
  os_write : forall op off v k, fits 32 off -> fits 32 v ->
    good (machine_inv dinv) objs (other_write op off v k) (fun _ => True);
}.

#[export] Instance machine_platform_safe `{cfg : Config} {D : Type} `{dev : !OtherDevices D}
  (dinv : D -> Prop) objs `{!OtherSafe dinv objs} : PlatformSafe (machine_inv dinv) objs.
Proof.
  split.
  - intros [|[|[|op]]] off k Hoff; cbn [read_func riscv_platform];
      [apply good_clint_read|apply good_plic_read|apply good_htif_read|by apply os_read].
  - intros [|[|[|op]]] off v k Hoff Hv; cbn [write_func riscv_platform];
      [by apply good_clint_write|apply good_plic_write|by apply good_htif_write|by apply os_write].
Qed.
