(* ===== verification/PlicFacts.v ===== *)
(** * The interrupt controller implements claim and complete

    The abstract controller keeps two sets of interrupt numbers: the lines that are
    raised and the interrupts that were claimed and not completed yet.  The masks of
    riscv_machine.c represent these sets, and the external interrupt bits of mip say
    whether a raised line waits to be claimed. *)
From S2P Require Export MachineInv.
From stdpp Require Import sets.
#[local] Open Scope Z_scope.

(** ** The abstract controller *)
Inductive plic_op :=
| OpLine (irq level : Z)     (* a device sets its line *)
| OpClaim                    (* the guest reads the claim register *)
| OpComplete (irq : Z).      (* the guest writes the claim register *)
Record Controller := mkController { raised : gset Z; claimed : gset Z }.
Definition waiting (c : Controller) : gset Z := raised c ∖ claimed c.

Inductive ctl_step : Controller -> plic_op -> Z -> Controller -> Prop :=
| ctl_raise c i v : v <> 0 -> ctl_step c (OpLine i v) 0 (mkController ({[i]} ∪ raised c) (claimed c))
| ctl_lower c i : ctl_step c (OpLine i 0) 0 (mkController (raised c ∖ {[i]}) (claimed c))
| ctl_claim c i : i ∈ waiting c -> (forall j, j ∈ waiting c -> i <= j) ->
    ctl_step c OpClaim i (mkController (raised c) ({[i]} ∪ claimed c))
| ctl_claim_none c : waiting c = ∅ -> ctl_step c OpClaim 0 c
| ctl_complete c i : ctl_step c (OpComplete i) 0 (mkController (raised c) (claimed c ∖ {[i]})).
Inductive ctl_steps : Controller -> list plic_op -> list Z -> Controller -> Prop :=
| ctl_nil c : ctl_steps c [] [] c
| ctl_cons c1 op r c2 ops rs c3 : ctl_step c1 op r c2 -> ctl_steps c2 ops rs c3 ->
    ctl_steps c1 (op :: ops) (r :: rs) c3.

(** ** Masks as sets: interrupt [i] is bit [i - 1]. *)
Definition lines (m : Z) : gset Z := list_to_set (filter (fun i => Z.testbit m (i - 1) = true) (seqZ 1 32)).
Lemma elem_of_lines m i : i ∈ lines m <-> 1 <= i <= 32 /\ Z.testbit m (i - 1) = true.
Proof. unfold lines. rewrite elem_of_list_to_set, list_elem_of_filter, elem_of_seqZ. intuition lia. Qed.
Lemma fits_bit32 i : 1 <= i <= 32 -> u32 (1 ≪ (i - 1)) = 1 ≪ (i - 1).
Proof.
  intros H. apply wrap_fits. rewrite Z.shiftl_1_l. split; [apply Z.pow_nonneg; lia|].
  apply Z.pow_lt_mono_r; lia.
Qed.
Lemma testbit_one k j : 0 <= k -> 0 <= j -> Z.testbit (1 ≪ k) j = (j =? k).
Proof. intros. rewrite Z.shiftl_1_l, Z.pow2_bits_eqb by done. apply Z.eqb_sym. Qed.
Lemma lines_or m i : 1 <= i <= 32 -> lines (m .| u32 (1 ≪ (i - 1))) = {[i]} ∪ lines m.
Proof.
  intros Hi. apply set_eq. intros j. rewrite elem_of_union, elem_of_singleton, !elem_of_lines.
  rewrite fits_bit32, Z.lor_spec by done. split.
  - intros [Hj H]. rewrite testbit_one in H by lia. destruct (Z.eqb_spec (j - 1) (i - 1)); [left; lia|].
    right. by rewrite orb_false_r in H.
  - intros [->|[Hj H]]; (split; [done|]); [|by rewrite H].
    rewrite testbit_one, Z.eqb_refl by lia. apply orb_true_r.
Qed.
Lemma lines_andnot m i : 1 <= i <= 32 -> lines (m .& u32 (Z.lnot (1 ≪ (i - 1)))) = lines m ∖ {[i]}.
Proof.
  intros Hi. apply set_eq. intros j. rewrite elem_of_difference, elem_of_singleton, !elem_of_lines, Z.land_spec.
  split.
  - intros [Hj H]. apply andb_prop in H as [H1 H2]. rewrite wrap_testbit, Z.lnot_spec, testbit_one in H2 by lia.
    destruct (Z.eqb_spec (j - 1) (i - 1)); [by rewrite andb_false_r in H2|]. split; [done|lia].
  - intros [[Hj H] Hne]. split; [done|]. rewrite H, wrap_testbit, Z.lnot_spec, testbit_one by lia.
    rewrite (proj2 (Z.eqb_neq _ _)) by lia. by rewrite (proj2 (Z.ltb_lt _ _)) by lia.
Qed.
Lemma lines_mask p q : lines (p .& u32 (Z.lnot q)) = lines p ∖ lines q.
Proof.
  apply set_eq. intros j. rewrite elem_of_difference, !elem_of_lines, Z.land_spec. split.
  - intros [Hj H]. apply andb_prop in H as [H1 H2]. rewrite wrap_testbit, Z.lnot_spec in H2 by lia.
    split; [done|]. intros [_ Hq]. rewrite Hq in H2. by rewrite andb_false_r in H2.
  - intros [[Hj H] Hne]. split; [done|]. rewrite H, wrap_testbit, Z.lnot_spec by lia.
    destruct (Z.testbit q (j - 1)) eqn:E; [by destruct Hne|]. by rewrite (proj2 (Z.ltb_lt _ _)) by lia.
Qed.
Lemma lines_empty m : fits 32 m -> (m = 0 <-> lines m = ∅).
Proof.
  intros Hm. split.
  - intros ->. apply set_eq. intros j. rewrite elem_of_lines, Z.bits_0. split; [by intros [_ H1]|by intros H1%elem_of_empty].
  - intros He. apply Z.bits_inj'. intros k Hk. rewrite Z.bits_0. destruct (Z.testbit m k) eqn:E; [|done].
    assert (k < 32) by (destruct (Z.lt_ge_cases k 32); [done|]; by rewrite (fits_testbit 32) in E).
    assert (k + 1 ∈ lines m) as H1 by (apply elem_of_lines; split; [lia|by rewrite Z.add_simpl_r]).
    rewrite He in H1. set_solver.
Qed.
Lemma lines_least m : fits 32 m -> m <> 0 ->
  ctz32 m + 1 ∈ lines m /\ forall j, j ∈ lines m -> ctz32 m + 1 <= j.
Proof.
  intros Hm Hne. destruct (ctz32_spec m Hm Hne) as (Hr & Hbit & Hlow). split.
  - apply elem_of_lines. split; [lia|]. by rewrite Z.add_simpl_r.
  - intros j [Hj H]%elem_of_lines. destruct (Z.lt_ge_cases (j - 1) (ctz32 m)); [|lia].
    by rewrite Hlow in H by lia.
Qed.

(** ** The simulation *)
Section Refinement.
Context `{cfg : Config} {D : Type}.
Local Abbreviation MM := (M (Sys (RISCVMachine D))).
Local Abbreviation SysM := (Sys (RISCVMachine D)).

(** The operations as the guest and the devices perform them. *)
Definition plic_op_run (op : plic_op) : MM Z :=
  match op with
  | OpLine irq level => _ ← plic_set_irq irq level; mret 0
  | OpClaim => plic_read (PLIC_HART_BASE + 4) 2
  | OpComplete irq => _ ← plic_write (PLIC_HART_BASE + 4) irq 2; mret 0
  end.
Fixpoint plic_ops_run (ops : list plic_op) : MM (list Z) :=
  match ops with
  | [] => mret []
  | op :: ops' => r ← plic_op_run op; rs ← plic_ops_run ops'; mret (r :: rs)
  end.
Definition plic_op_ok (op : plic_op) : Prop :=
  match op with
  | OpLine irq _ => 1 <= irq <= 32
  | OpClaim => True
  | OpComplete irq => fits 32 irq
  end.

Definition EXT_IRQ : Z := MIP_MEIP .| MIP_SEIP.
Record plic_rel (σ : SysM) (c : Controller) : Prop := {
  pr_pending : fits 32 (plic_pending_irq (world σ));
  pr_served : fits 32 (plic_served_irq (world σ));
  pr_raised : lines (plic_pending_irq (world σ)) = raised c;
  pr_claimed : lines (plic_served_irq (world σ)) = claimed c;
  pr_line : mip (cpu σ) .& EXT_IRQ = if decide (waiting c = ∅) then 0 else EXT_IRQ;
}.
(** What the controller leaves alone. *)
Record plic_frame (σ σ' : SysM) : Prop := {
  pf_map : mem_map σ' = mem_map σ;
  pf_host : host σ' = host σ;
  pf_world : exists p q, world σ' = with_plic p q (world σ);
  pf_mip : mip (cpu σ') .& Z.lnot EXT_IRQ = mip (cpu σ) .& Z.lnot EXT_IRQ;
}.
Lemma with_plic_id (m : RISCVMachine D) : with_plic (plic_pending_irq m) (plic_served_irq m) m = m.
Proof. by destruct m. Qed.
Lemma plic_frame_refl σ : plic_frame σ σ.
Proof. split; [done..| |done]. eexists _, _. symmetry. apply with_plic_id. Qed.
Lemma plic_frame_trans σ1 σ2 σ3 : plic_frame σ1 σ2 -> plic_frame σ2 σ3 -> plic_frame σ1 σ3.
Proof.
  intros [H1 H2 (p & q & H3) H4] [I1 I2 (p' & q' & I3) I4]. split; try congruence.
  exists p', q'. rewrite I3, H3. done.
Qed.

Lemma EXT_land_lnot x : (x .| EXT_IRQ) .& EXT_IRQ = EXT_IRQ /\ (x .& Z.lnot EXT_IRQ) .& EXT_IRQ = 0 /\
  (x .| EXT_IRQ) .& Z.lnot EXT_IRQ = x .& Z.lnot EXT_IRQ /\
  (x .& Z.lnot EXT_IRQ) .& Z.lnot EXT_IRQ = x .& Z.lnot EXT_IRQ.
Proof.
  repeat split; apply Z.bits_inj'; intros i Hi;
    rewrite ?Z.land_spec, ?Z.lor_spec, ?Z.land_spec, ?Z.lnot_spec, ?Z.bits_0 by lia;
    by destruct (Z.testbit x i), (Z.testbit EXT_IRQ i).
Qed.
Lemma mip_set mask (s : RISCVCPUState) : mip (riscv_cpu_set_mip mask s) = mip s .| mask.
Proof. unfold riscv_cpu_set_mip. cbv zeta. by destruct (_ && _). Qed.

(** plic_update_mip sets the line from the masks. *)
Lemma plic_update_rel σ c :
  fits 32 (plic_pending_irq (world σ)) -> fits 32 (plic_served_irq (world σ)) ->
  lines (plic_pending_irq (world σ)) = raised c -> lines (plic_served_irq (world σ)) = claimed c ->
  exists σ', plic_update_mip σ = Ok tt σ' /\ plic_rel σ' c /\ plic_frame σ σ' /\ world σ' = world σ.
Proof.
  intros Hp Hs Er Ec. unfold plic_update_mip, getm, mbind, M_bind, gets.
  pose proof (EXT_land_lnot (mip (cpu σ))) as (E1 & E2 & E3 & E4).
  assert (lines (plic_mask (world σ)) = waiting c) as Hw by (unfold plic_mask, waiting; by rewrite lines_mask, Er, Ec).
  pose proof (lines_empty (plic_mask (world σ)) (fits_land_l _ _ _ Hp)) as Hz. rewrite Hw in Hz.
  unfold nz. destruct (Z.eqb_spec (plic_mask (world σ)) 0) as [Hm|Hm]; cbn [negb];
    (eexists; split; [reflexivity|]; split; [|split; [|done]]); split; cbn [upd_cpu cpu mem_map host world]; try done;
    rewrite ?mip_set; try (eexists _, _; symmetry; apply with_plic_id).
  all: first [exact E3 | exact E4 | rewrite decide_True by (by apply Hz); exact E2 |
    rewrite decide_False by (intros H; by apply Hm, Hz); exact E1].
Qed.

(** One operation. *)
Lemma updm_plic σ f c :
  let p := plic_pending_irq (f (world σ)) in let q := plic_served_irq (f (world σ)) in
  (exists p q, f (world σ) = with_plic p q (world σ)) -> fits 32 p -> fits 32 q -> lines p = raised c -> lines q = claimed c ->
  exists σ', (_ ← updm f; plic_update_mip) σ = Ok tt σ' /\ plic_rel σ' c /\ plic_frame σ σ'.
Proof.
  intros p q Hf Hp Hq Er Ec.
  destruct (plic_update_rel (upd_world f σ) c Hp Hq Er Ec) as (σ' & E & R & [F1 F2 (a & b & F3) F4] & Ew).
  exists σ'. split; [exact E|]. split; [done|]. destruct Hf as (a' & b' & Hf). split; try done.
  exists a', b'. rewrite Ew. exact Hf.
Qed.
Lemma fits_or_bit m i : 1 <= i <= 32 -> fits 32 m -> fits 32 (m .| u32 (1 ≪ (i - 1))).
Proof. intros. apply fits_lor; [done|by apply fits_wrap]. Qed.
(** [op] is simulated from [σ], related to [c]. *)
Definition simulated (op : plic_op) (σ : SysM) (c : Controller) : Prop :=
  exists r c' σ', plic_op_run op σ = Ok r σ' /\ ctl_step c op r c' /\ plic_rel σ' c' /\ plic_frame σ σ'.
Lemma plic_line_refines i v σ c : 1 <= i <= 32 -> plic_rel σ c -> simulated (OpLine i v) σ c.
Proof.
  intros Hop [Hp Hs Er Ec Hline]. unfold simulated. cbn [plic_op_run].
  set (c' := if nz v then mkController ({[i]} ∪ raised c) (claimed c) else mkController (raised c ∖ {[i]}) (claimed c)).
  destruct (updm_plic σ (fun s => with_plic (if nz v then plic_pending_irq s .| u32 (1 ≪ (i - 1))
    else plic_pending_irq s .& u32 (Z.lnot (u32 (1 ≪ (i - 1))))) (plic_served_irq s) s) c') as (σ' & E & R & F).
  - by eexists _, _.
  - cbn. destruct (nz v); [by apply fits_or_bit|by apply fits_land_l].
  - done.
  - cbn. unfold c'. destruct (nz v); cbn; rewrite ?lines_or, ?fits_bit32, ?lines_andnot by done; by rewrite Er.
  - cbn. unfold c'. by destruct (nz v).
  - exists 0, c', σ'. assert (plic_set_irq i v σ = Ok tt σ') as E1 by exact E.
    split; [unfold mbind, M_bind; by rewrite E1|].
    split; [|done]. unfold c', nz. destruct (Z.eqb_spec v 0) as [->|Hv]; cbn [negb]; by constructor.
Qed.
Lemma plic_claim_refines σ c : plic_rel σ c -> simulated OpClaim σ c.
Proof.
  intros [Hp Hs Er Ec Hline]. unfold simulated. cbn [plic_op_run].
  assert (lines (plic_mask (world σ)) = waiting c) as Hw by (unfold plic_mask, waiting; by rewrite lines_mask, Er, Ec).
  assert (fits 32 (plic_mask (world σ))) as Hm by (by apply fits_land_l).
  unfold plic_read, getm, gets, assert, mbind, M_bind, mret, M_ret. cbn [Z.eqb Pos.eqb].
  replace (PLIC_HART_BASE + 4 =? PLIC_HART_BASE) with false by reflexivity. rewrite Z.eqb_refl. cbv zeta.
  unfold nz. destruct (Z.eqb_spec (plic_mask (world σ)) 0) as [Hz|Hz]; cbn [negb].
  - exists 0, c, σ. split; [done|]. split; [apply ctl_claim_none; rewrite <- Hw; by apply lines_empty|].
    split; [by split|apply plic_frame_refl].
  - destruct (lines_least _ Hm Hz) as [Hin Hleast]. rewrite Hw in Hin, Hleast.
    set (k := ctz32 (plic_mask (world σ))) in *. destruct (ctz32_spec _ Hm Hz) as (Hk & _ & _). fold k in Hk.
    destruct (updm_plic σ (fun s => with_plic (plic_pending_irq s) (plic_served_irq s .| u32 (1 ≪ k)) s)
      (mkController (raised c) ({[k + 1]} ∪ claimed c))) as (σ' & E & R & F).
    + by eexists _, _.
    + done.
    + cbn. apply fits_lor; [done|by apply fits_wrap].
    + done.
    + cbn. replace k with ((k + 1) - 1) at 1 by lia. rewrite lines_or by lia. by rewrite Ec.
    + exists (k + 1), (mkController (raised c) ({[k + 1]} ∪ claimed c)), σ'.
      unfold mbind, M_bind in E. split.
      { unfold updm, modify in *. by rewrite E. }
      split; [by apply ctl_claim|done].
Qed.
Lemma plic_complete_refines i σ c : fits 32 i -> plic_rel σ c -> simulated (OpComplete i) σ c.
Proof.
  intros Hop [Hp Hs Er Ec Hline]. unfold simulated. cbn [plic_op_run].
  set (c' := mkController (raised c) (claimed c ∖ {[i]})).
  unfold plic_write, assert, mbind, M_bind, mret, M_ret. cbn [Z.eqb Pos.eqb]. rewrite Z.eqb_refl. cbv zeta.
  assert ((u32 (i - 1) <? 32) = bool_decide (1 <= i <= 32)) as ->.
  { destruct Hop as [H0 H1]. unfold wrap. destruct (Z.eqb_spec i 0) as [->|]; [done|].
    rewrite Z.mod_small by lia. case_bool_decide; zcases. }
  case_bool_decide as Hi.
  - rewrite (wrap_fits 32 (i - 1)) by (split; lia).
    destruct (updm_plic σ (fun s => with_plic (plic_pending_irq s) (plic_served_irq s .& u32 (Z.lnot (1 ≪ (i - 1)))) s) c')
      as (σ' & E & R & F).
    + by eexists _, _.
    + done.
    + cbn. by apply fits_land_l.
    + done.
    + cbn. rewrite lines_andnot by done. by rewrite Ec.
    + exists 0, c', σ'. unfold mbind, M_bind in E. split; [by rewrite E|]. split; [constructor|done].
  - exists 0, c', σ. split; [done|]. split; [constructor|].
    assert (claimed c ∖ {[i]} = claimed c) as E.
    { rewrite <- Ec. apply set_eq. intros j. rewrite elem_of_difference, elem_of_singleton, elem_of_lines.
      split; [tauto|]. intros [Hj Hb]. split; [done|]. intros ->. tauto. }
    split; [|apply plic_frame_refl]. unfold c'. rewrite E. destruct c. by split.
Qed.
Lemma plic_op_refines op σ c : plic_op_ok op -> plic_rel σ c -> simulated op σ c.
Proof.
  destruct op; cbn [plic_op_ok]; intros; [by apply plic_line_refines|by apply plic_claim_refines|by apply plic_complete_refines].
Qed.

Lemma plic_rel_reset σ : plic_pending_irq (world σ) = 0 -> plic_served_irq (world σ) = 0 ->
  mip (cpu σ) .& EXT_IRQ = 0 -> plic_rel σ (mkController ∅ ∅).
Proof.
  intros Hp Hs Hm. split; rewrite ?Hp, ?Hs; [by apply fits_0|by apply fits_0| | |].
  - symmetry. apply (lines_empty 0); [by apply fits_0|done].
  - symmetry. apply (lines_empty 0); [by apply fits_0|done].
  - by rewrite Hm, decide_True by set_solver.
Qed.
Lemma plic_ops_refine ops σ c : Forall plic_op_ok ops -> plic_rel σ c ->
  exists rs c' σ', plic_ops_run ops σ = Ok rs σ' /\ ctl_steps c ops rs c' /\ plic_rel σ' c' /\ plic_frame σ σ'.
Proof.
  revert σ c. induction ops as [|op ops IH]; intros σ c Hok Hr; cbn [plic_ops_run].
  { exists [], c, σ. split; [done|]. split; [constructor|]. split; [done|apply plic_frame_refl]. }
  apply Forall_cons_1 in Hok as [H1 Hok]. destruct (plic_op_refines op σ c H1 Hr) as (r & c1 & σ1 & E & S & R & F).
  destruct (IH σ1 c1 Hok R) as (rs & c2 & σ2 & E2 & S2 & R2 & F2). exists (r :: rs), c2, σ2.
  split; [unfold mbind, M_bind; by rewrite E, E2|]. split; [by econstructor|].
  split; [done|by eapply plic_frame_trans].
Qed.

(** C10: the PLIC refines the abstract controller: every sequence of line changes,
    claims and completions returns, with the results that the sets of raised and
    claimed interrupts give (the lowest waiting one, 0 when none waits); afterwards
    the masks represent the sets, MEIP and SEIP are set exactly when an interrupt
    waits, and the rest of the machine is as it was. *)
Theorem plic_refines ops σ c : Forall plic_op_ok ops -> plic_rel σ c ->
  exists rs c' σ', plic_ops_run ops σ = Ok rs σ' /\ ctl_steps c ops rs c' /\ plic_rel σ' c' /\ plic_frame σ σ'.
Proof. apply plic_ops_refine. Qed.

Lemma claims_reach i n k c rs c' : ctl_steps c (replicate n OpClaim) rs c' -> i ∈ waiting c ->
  (forall j, j ∈ waiting c -> k <= j) -> i < k + Z.of_nat n -> i ∈ rs.
Proof.
  revert k c rs. induction n as [|n IH]; intros k c rs Hs Hi Hk Hn; [specialize (Hk i Hi); lia|].
  cbn [replicate] in Hs. inversion Hs as [|? ? r c2 ? rs' ? Hstep Hrest]; subst; clear Hs.
  inversion Hstep as [| |? j Hj Hleast| He|]; subst; clear Hstep; [|set_solver].
  destruct (decide (i = r)) as [->|Hne]; [left|]. right.
  apply (IH (r + 1) _ _ Hrest).
  - unfold waiting in *. cbn. set_solver.
  - intros x Hx. assert (x ∈ waiting c /\ x <> r) as [Hx1 Hx2] by (unfold waiting in *; cbn in Hx; set_solver).
    specialize (Hleast x Hx1). lia.
  - specialize (Hk r Hj). lia.
Qed.
(** C11: a raised line is served: whatever other lines are raised and whatever was
    claimed before, [n >= i] reads of the claim register return interrupt [i]. *)
Theorem plic_claim_live i n σ c : plic_rel σ c -> i ∈ waiting c -> i <= Z.of_nat n ->
  exists rs σ', plic_ops_run (replicate n OpClaim) σ = Ok rs σ' /\ i ∈ rs.
Proof.
  intros Hr Hi Hn. destruct (plic_ops_refine (replicate n OpClaim) σ c) as (rs & c' & σ' & E & S & _ & _).
  - by apply Forall_replicate.
  - done.
  - exists rs, σ'. split; [done|]. apply (claims_reach i n 1 c rs c' S Hi); [|lia].
    intros j Hj. unfold waiting in Hj. rewrite <- (pr_raised _ _ Hr) in Hj.
    apply elem_of_difference in Hj as [Hj _]. apply elem_of_lines in Hj. lia.
Qed.
End Refinement.

(** Two lines are raised, the lower one is served first; the other one is still
    waiting, so the external interrupt stays pending. *)
Definition plic_example : Sys (RISCVMachine unit) :=
  mkSys (@riscv_cpu_init cfg_rv64) phys_mem_map_init ∅
    {| rtc_real_time := false; rtc_start_time := 0; timecmp := 0; plic_pending_irq := 0;
       plic_served_irq := 0; htif_tohost := 0; htif_fromhost := 0; console_out := [];
       monotonic := fun _ => (0, 0); clock_reads := 0%nat; devices := tt |}.
Lemma plic_example_rel : plic_rel plic_example (mkController ∅ ∅).
Proof. by apply plic_rel_reset. Qed.
Lemma plic_refines_witness : exists σ,
  plic_ops_run [OpLine 5 1; OpLine 3 1; OpClaim; OpLine 3 0; OpComplete 3] plic_example =
    Ok [0; 0; 3; 0; 0] σ /\ mip (cpu σ) = EXT_IRQ.
Proof.
  destruct (plic_refines [OpLine 5 1; OpLine 3 1; OpClaim; OpLine 3 0; OpComplete 3]
    plic_example (mkController ∅ ∅)) as (rs & c' & σ' & E & _).
  - repeat constructor; vm_compute; congruence.
  - exact plic_example_rel.
  - pose proof (f_equal (fun r => match r with Ok l σ => (l, mip (cpu σ)) | Stop _ => ([], 0) end) E) as E1.
    vm_compute in E1. injection E1 as <- E2. exists σ'. split; [exact E|]. symmetry. exact E2.
Defined.
Lemma plic_claim_live_witness : exists σ rs σ',
  plic_ops_run [OpLine 5 1; OpLine 3 1] plic_example = Ok [0; 0] σ /\
  plic_ops_run (replicate 5 OpClaim) σ = Ok rs σ' /\ 5 ∈ rs.
Proof.
  destruct (plic_ops_refine [OpLine 5 1; OpLine 3 1] plic_example (mkController ∅ ∅))
    as (rs & c' & σ & E & S & R & _).
  - repeat constructor; vm_compute; congruence.
  - exact plic_example_rel.
  - pose proof (f_equal (fun r => match r with Ok l σ => (l, plic_pending_irq (world σ), plic_served_irq (world σ))
      | Stop _ => ([], 0, 0) end) E) as E1. vm_compute in E1. injection E1 as <- Ep Eq.
    change (20 = plic_pending_irq (world σ)) in Ep. change (0 = plic_served_irq (world σ)) in Eq.
    assert (5 ∈ waiting c') as H5.
    { unfold waiting. rewrite <- (pr_raised _ _ R), <- (pr_claimed _ _ R), <- Ep, <- Eq.
      apply elem_of_difference. rewrite !elem_of_lines. split; [done|]. intros [_ H]. discriminate H. }
    destruct (plic_claim_live 5 5 σ c' R H5) as (rs' & σ' & E' & Hin); [done|].
    exists σ, rs', σ'. split; [exact E|]. split; [exact E'|exact Hin].
Defined.
