(* ===== verification/TrapFacts.v ===== *)
(** * Exceptions, returns and interrupts *)
From S2P Require Export InterpInv MachineInv.

(** ** Fields of a status word *)
Lemma flag_bit k i : 0 <= k -> 0 <= i -> Z.testbit (1 ≪ k) i = (i =? k).
Proof. intros. rewrite Z.shiftl_mul_pow2, Z.mul_1_l, Z.pow2_bits_eqb by lia. lia. Qed.
Lemma clear_flag m k i : 0 <= k -> 0 <= i ->
  Z.testbit (m .& Z.lnot (1 ≪ k)) i = negb (i =? k) && Z.testbit m i.
Proof. intros. rewrite Z.land_spec, Z.lnot_spec, flag_bit by lia. apply andb_comm. Qed.
Lemma set_flag m k b i : 0 <= k -> 0 <= i -> b = 0 \/ b = 1 ->
  Z.testbit ((m .& Z.lnot (1 ≪ k)) .| (b ≪ k)) i = if i =? k then b =? 1 else Z.testbit m i.
Proof.
  intros Hk Hi Hb. rewrite Z.lor_spec, clear_flag by done.
  destruct Hb as [-> | ->]; [rewrite Z.shiftl_0_l, Z.bits_0|rewrite flag_bit by done];
    destruct (i =? k), (Z.testbit m i); done.
Qed.
Lemma set_pair m k p i : 0 <= k -> 0 <= i -> 0 <= p <= 3 ->
  Z.testbit ((m .& Z.lnot (3 ≪ k)) .| (p ≪ k)) i =
  if i =? k then Z.testbit p 0 else if i =? k + 1 then Z.testbit p 1 else Z.testbit m i.
Proof.
  intros Hk Hi Hp. rewrite Z.lor_spec, Z.land_spec, Z.lnot_spec, !Z.shiftl_spec by lia.
  change 3 with (Z.ones 2).
  destruct (Z.eqb_spec i k) as [->|]; [|destruct (Z.eqb_spec i (k + 1)) as [->|]].
  - rewrite Z.sub_diag. cbn. by rewrite andb_false_r.
  - replace (k + 1 - k) with 1 by lia. cbn. by rewrite andb_false_r.
  - destruct (Z_lt_le_dec i k).
    + rewrite !(Z.testbit_neg_r _ (i - k)) by lia. cbn. by rewrite andb_true_r, orb_false_r.
    + rewrite Z.testbit_ones_nonneg by lia. rewrite (fits_testbit 2 p) by first [lia | split; lia].
      zcases. cbn. by rewrite andb_true_r, orb_false_r.
Qed.
Lemma get_flag m k : 0 <= k -> (m ≫ k) .& 1 = if Z.testbit m k then 1 else 0.
Proof.
  intros Hk. change 1 with (Z.ones 1) at 1. rewrite Z.land_ones by lia. change (2 ^ 1) with 2.
  rewrite <- Z.bit0_mod, Z.shiftr_spec, Z.add_0_l by lia. by destruct (Z.testbit m k).
Qed.
Lemma get_pair m k p : 0 <= k -> 0 <= p <= 3 -> Z.testbit m k = Z.testbit p 0 ->
  Z.testbit m (k + 1) = Z.testbit p 1 -> (m ≫ k) .& 3 = p.
Proof.
  intros Hk Hp H0 H1. change 3 with (Z.ones 2). apply Z.bits_inj'. intros i Hi.
  rewrite Z.land_spec, Z.shiftr_spec, Z.testbit_ones_nonneg by lia.
  destruct (Z_lt_le_dec i 2).
  - assert (i = 0 \/ i = 1) as [->| ->] by lia.
    + rewrite Z.add_0_l, H0. apply andb_true_r.
    + rewrite Z.add_comm, H1. apply andb_true_r.
  - rewrite (fits_testbit 2 p) by first [lia | split; lia]. zcases; apply andb_false_r.
Qed.

Lemma bool_01 (b : bool) : ((if b then 1 else 0) =? 1) = b.
Proof. by destruct b. Qed.

Section Trap.
Context `{cfg : Config}.
Implicit Types s : RISCVCPUState.

Lemma set_priv_fields s p :
  priv (set_priv s p) = p /\ mstatus (set_priv s p) = mstatus s /\ pc (set_priv s p) = pc s /\
  mepc (set_priv s p) = mepc s /\ sepc (set_priv s p) = sepc s /\ mtvec (set_priv s p) = mtvec s /\
  stvec (set_priv s p) = stvec s /\ mcause (set_priv s p) = mcause s /\
  scause (set_priv s p) = scause s /\ mtval (set_priv s p) = mtval s /\
  stval (set_priv s p) = stval s /\ reg (set_priv s p) = reg s.
Proof.
  unfold set_priv. destruct (Z.eqb_spec (priv s) p) as [<-|]; cbn [negb]; [done|].
  cbv zeta. destruct (64 <=? MAX_XLEN); done.
Qed.

(** Is the exception or interrupt [cause] delegated to S-mode? *)
Definition delegated s (cause : Z) : bool :=
  (priv s <=? PRV_S) &&
  (if Z.testbit cause 31 then Z.testbit (mideleg s) (cause .& (MAX_XLEN - 1))
   else Z.testbit (medeleg s) cause).

(** The value of the cause register. *)
Definition trap_code s (cause : Z) : Z :=
  if Z.testbit cause 31 then (cause .& 0x7fffffff) .| ulong (1 ≪ (cur_xlen s - 1))
  else cause .& 0x7fffffff.

(** The part of the state a trap to the mode with these fields leaves: [ie], [pie]
    and [pp] are the positions of its interrupt-enable, previous-enable and
    previous-privilege fields. *)
Definition trap_mstatus (ie pie : Z) (pp : Z -> option bool) s (i : Z) : bool :=
  if i =? ie then false else
  match pp i with Some b => b | None =>
    if i =? pie then Z.testbit (mstatus s) (priv s) else Z.testbit (mstatus s) i end.
Definition mpp_bits (p i : Z) : option bool :=
  if i =? 11 then Some (Z.testbit p 0) else if i =? 12 then Some (Z.testbit p 1) else None.
Definition spp_bits (p i : Z) : option bool := if i =? 8 then Some (p =? 1) else None.

Lemma nz_interrupt cause : 0 <= cause -> nz (cause .& CAUSE_INTERRUPT) = Z.testbit cause 31.
Proof.
  intros. unfold nz, CAUSE_INTERRUPT. destruct (Z.testbit cause 31) eqn:E.
  - destruct (Z.eqb_spec (cause .& (1 ≪ 31)) 0) as [H0|]; [|done].
    assert (Z.testbit (cause .& (1 ≪ 31)) 31 = false) as Hb by (rewrite H0; apply Z.bits_0).
    rewrite Z.land_spec, E in Hb. done.
  - replace (cause .& (1 ≪ 31)) with 0; [done|]. symmetry. apply Z.bits_inj'. intros i Hi.
    rewrite Z.land_spec, flag_bit, Z.bits_0 by lia. destruct (Z.eqb_spec i 31) as [->|]; [by rewrite E|].
    apply andb_false_r.
Qed.
Lemma nz_flag m k : 0 <= k -> nz ((m ≫ k) .& 1) = Z.testbit m k.
Proof. intros. rewrite get_flag by done. by destruct (Z.testbit m k). Qed.
Lemma MAX_XLEN_mask : MAX_XLEN - 1 = Z.ones (Z.log2 MAX_XLEN).
Proof. by destruct MAX_XLEN_ok as [->|[->| ->]]. Qed.
Lemma mask_nonneg cause : 0 <= cause .& (MAX_XLEN - 1).
Proof. apply Z.land_nonneg. right. pose proof MAX_XLEN_pos. lia. Qed.

Lemma raise_deleg s cause tval : 0 <= cause -> delegated s cause = true -> 0 <= priv s ->
  let s' := raise_exception2 s cause tval in
  priv s' = PRV_S /\ pc s' = stvec s /\ sepc s' = pc s /\ stval s' = tval /\
  scause s' = trap_code s cause /\ reg s' = reg s /\
  mepc s' = mepc s /\ mcause s' = mcause s /\
  forall i, 0 <= i -> Z.testbit (mstatus s') i = trap_mstatus 1 5 (spp_bits (priv s)) s i.
Proof.
  intros Hc Hd Hp s'. unfold delegated in Hd. apply andb_prop in Hd as [Hpr Hd]. apply Z.leb_le in Hpr.
  subst s'. unfold raise_exception2. cbv zeta.
  rewrite (proj2 (Z.leb_le (priv s) PRV_S) Hpr), nz_interrupt by done.
  assert (nz (if Z.testbit cause 31 then (mideleg s ≫ (cause .& (MAX_XLEN - 1))) .& 1
              else (medeleg s ≫ cause) .& 1) = true) as ->.
  { destruct (Z.testbit cause 31); rewrite nz_flag; [done|apply mask_nonneg|done|done]. }
  cbv iota. match goal with |- context [set_priv ?s1 PRV_S] => remember s1 as s1' eqn:Es1;
    destruct (set_priv_fields s1' PRV_S) as (E1&E2&E3&E4&E5&E6&E7&E8&E9&E10&E11&E12) end.
  split; [exact E1|]. repeat (split; [
    etrans; [first [exact E7|exact E5|exact E11|exact E9|exact E12|exact E4|exact E8]|by subst s1']|]).
  intros i Hi. etrans; [exact (f_equal (fun m => Z.testbit m i) E2)|]. subst s1'. cpu_simpl.
  assert (priv s = 0 \/ priv s = 1) as Hb by (unfold PRV_S in Hpr; lia).
  change MSTATUS_SIE with (1 ≪ 1). change MSTATUS_SPP with (1 ≪ 8). change MSTATUS_SPIE with (1 ≪ 5).
  change MSTATUS_SPP_SHIFT with 8. change MSTATUS_SPIE_SHIFT with 5.
  rewrite clear_flag, set_flag, set_flag by first [lia|exact Hb|rewrite get_flag by exact Hp; case_if; auto].
  rewrite get_flag by exact Hp. unfold trap_mstatus, spp_bits.
  destruct (i =? 1), (i =? 8), (i =? 5); rewrite ?bool_01; done.
Qed.

Lemma raise_direct s cause tval : 0 <= cause -> delegated s cause = false -> 0 <= priv s <= 3 ->
  let s' := raise_exception2 s cause tval in
  priv s' = PRV_M /\ pc s' = mtvec s /\ mepc s' = pc s /\ mtval s' = tval /\
  mcause s' = trap_code s cause /\ reg s' = reg s /\
  sepc s' = sepc s /\ scause s' = scause s /\
  forall i, 0 <= i -> Z.testbit (mstatus s') i = trap_mstatus 3 7 (mpp_bits (priv s)) s i.
Proof.
  intros Hc Hd Hp s'. unfold delegated in Hd.
  subst s'. unfold raise_exception2. cbv zeta. rewrite nz_interrupt by done.
  assert (nz (if priv s <=? PRV_S
              then if Z.testbit cause 31 then (mideleg s ≫ (cause .& (MAX_XLEN - 1))) .& 1
                   else (medeleg s ≫ cause) .& 1
              else 0) = false) as ->.
  { destruct (priv s <=? PRV_S); [|done].
    destruct (Z.testbit cause 31); rewrite nz_flag; [done|apply mask_nonneg|done|done]. }
  cbv iota. match goal with |- context [set_priv ?s1 PRV_M] => remember s1 as s1' eqn:Es1;
    destruct (set_priv_fields s1' PRV_M) as (E1&E2&E3&E4&E5&E6&E7&E8&E9&E10&E11&E12) end.
  split; [exact E1|]. repeat (split; [
    etrans; [first [exact E6|exact E4|exact E10|exact E8|exact E12|exact E5|exact E9]|by subst s1']|]).
  intros i Hi. etrans; [exact (f_equal (fun m => Z.testbit m i) E2)|]. subst s1'. cpu_simpl.
  change MSTATUS_MIE with (1 ≪ 3). change MSTATUS_MPP with (3 ≪ 11). change MSTATUS_MPIE with (1 ≪ 7).
  change MSTATUS_MPP_SHIFT with 11. change MSTATUS_MPIE_SHIFT with 7.
  rewrite clear_flag, set_pair, set_flag by first [lia|exact Hp|rewrite get_flag by apply Hp; case_if; auto].
  rewrite get_flag by apply Hp. unfold trap_mstatus, mpp_bits. change (11 + 1) with 12.
  destruct (i =? 3), (i =? 11), (i =? 12), (i =? 7); rewrite ?bool_01; done.
Qed.

(** ** Returns *)
Lemma clear_pair m k i : 0 <= k -> 0 <= i ->
  Z.testbit (m .& Z.lnot (3 ≪ k)) i = negb ((i =? k) || (i =? k + 1)) && Z.testbit m i.
Proof.
  intros Hk Hi. pose proof (set_pair m k 0 i Hk Hi ltac:(lia)) as H.
  rewrite Z.shiftl_0_l, Z.lor_0_r in H. rewrite H. change (Z.testbit 0 0) with false.
  change (Z.testbit 0 1) with false. destruct (i =? k), (i =? k + 1); done.
Qed.
Lemma mret_spec s : let mpp := (mstatus s ≫ 11) .& 3 in let s' := handle_mret s in
  priv s' = mpp /\ pc s' = mepc s /\ reg s' = reg s /\
  forall i, 0 <= i -> Z.testbit (mstatus s') i =
    if (i =? 11) || (i =? 12) then false else if i =? 7 then true
    else if i =? mpp then Z.testbit (mstatus s) 7 else Z.testbit (mstatus s) i.
Proof.
  intros mpp s'. pose proof (land_3 (mstatus s ≫ 11)) as Hp. fold mpp in Hp.
  unfold s', handle_mret. cbv zeta.
  match goal with |- context [set_priv ?s1 ?p] => remember s1 as s1' eqn:Es1;
    destruct (set_priv_fields s1' p) as (E1&E2&E3&E4&E5&E6&E7&E8&E9&E10&E11&E12) end.
  split; [exact E1|]. repeat (split; [etrans; [first [exact E4|exact E12]|by subst s1']|]).
  intros i Hi. etrans; [exact (f_equal (fun m => Z.testbit m i) E2)|]. subst s1'. cpu_simpl.
  change MSTATUS_MPP with (3 ≪ 11). change MSTATUS_MPIE with (1 ≪ 7).
  change MSTATUS_MPP_SHIFT with 11. change MSTATUS_MPIE_SHIFT with 7. fold mpp.
  rewrite clear_pair, Z.lor_spec, flag_bit, set_flag by (lia || (rewrite get_flag by lia; case_if; auto)).
  rewrite get_flag, bool_01 by lia. change (11 + 1) with 12.
  destruct ((i =? 11) || (i =? 12)); [done|]. cbn [negb andb].
  destruct (Z.eqb_spec i 7) as [->|]; [by rewrite orb_true_r|]. by rewrite orb_false_r.
Qed.
Lemma sret_spec s : let spp := (mstatus s ≫ 8) .& 1 in let s' := handle_sret s in
  priv s' = spp /\ pc s' = sepc s /\ reg s' = reg s /\
  forall i, 0 <= i -> Z.testbit (mstatus s') i =
    if i =? 8 then false else if i =? 5 then true
    else if i =? spp then Z.testbit (mstatus s) 5 else Z.testbit (mstatus s) i.
Proof.
  intros spp s'. assert (0 <= spp <= 1) as Hp by apply (land_range _ 1 ltac:(lia)).
  unfold s', handle_sret. cbv zeta.
  match goal with |- context [set_priv ?s1 ?p] => remember s1 as s1' eqn:Es1;
    destruct (set_priv_fields s1' p) as (E1&E2&E3&E4&E5&E6&E7&E8&E9&E10&E11&E12) end.
  split; [exact E1|]. repeat (split; [etrans; [first [exact E5|exact E12]|by subst s1']|]).
  intros i Hi. etrans; [exact (f_equal (fun m => Z.testbit m i) E2)|]. subst s1'. cpu_simpl.
  change MSTATUS_SPP with (1 ≪ 8). change MSTATUS_SPIE with (1 ≪ 5).
  change MSTATUS_SPP_SHIFT with 8. change MSTATUS_SPIE_SHIFT with 5. fold spp.
  rewrite clear_flag, Z.lor_spec, flag_bit, set_flag by (lia || (rewrite get_flag by lia; case_if; auto)).
  rewrite get_flag, bool_01 by lia.
  destruct (i =? 8); [done|]. cbn [negb andb].
  destruct (Z.eqb_spec i 5) as [->|]; [by rewrite orb_true_r|]. by rewrite orb_false_r.
Qed.

(** C7: returning from a trap undoes it.  mret after an exception or interrupt that
    went to M-mode, and sret after one that was delegated to S-mode, restore the
    program counter, the privilege, the registers and every bit of mstatus, except
    the fields that the return itself resets: MPIE/SPIE is set, MPP/SPP is the least
    privilege, and the interrupt enable of the handler's mode stays cleared when the
    trap came from a less privileged mode (its value is not saved). *)
Theorem trap_return s cause tval : 0 <= cause -> priv s = PRV_U \/ priv s = PRV_S \/ priv s = PRV_M ->
  let s1 := raise_exception2 s cause tval in
  let s2 := if delegated s cause then handle_sret s1 else handle_mret s1 in
  let ie := if delegated s cause then 1 else 3 in
  pc s2 = pc s /\ priv s2 = priv s /\ reg s2 = reg s /\
  forall i, 0 <= i -> Z.testbit (mstatus s2) i =
    if i =? ie + 4 then true
    else if (if delegated s cause then i =? 8 else (i =? 11) || (i =? 12)) then false
    else if (i =? ie) && negb (priv s =? ie) then false
    else Z.testbit (mstatus s) i.
Proof.
  intros Hc Hp s1 s2 ie. unfold PRV_U, PRV_S, PRV_M in Hp.
  subst s2 ie. destruct (delegated s cause) eqn:Hd.
  - destruct (raise_deleg s cause tval Hc Hd ltac:(lia)) as (_ & _ & Hpc & _ & _ & Hreg & _ & _ & Hbits).
    fold s1 in Hpc, Hreg, Hbits. clearbody s1.
    assert (priv s <= 1) as Hle by (unfold delegated, PRV_S in Hd; lia).
    destruct (sret_spec s1) as (E1 & E2 & E3 & E4).
    assert ((mstatus s1 ≫ 8) .& 1 = priv s) as Epp.
    { rewrite get_flag, Hbits by lia. change (trap_mstatus _ _ _ s 8) with (priv s =? 1).
      destruct (Z.eqb_spec (priv s) 1); lia. }
    rewrite Epp in E1, E4. rewrite E1, E2, E3. split; [done|]. split; [done|]. split; [done|].
    intros i Hi. rewrite E4, !Hbits by lia. unfold trap_mstatus, spp_bits. change (1 + 4) with 5.
    destruct Hp as [Ep|[Ep|Ep]]; rewrite Ep; [| |lia];
      zcases; subst; try done; by rewrite ?Ep.
  - destruct (raise_direct s cause tval Hc Hd ltac:(lia)) as (_ & _ & Hpc & _ & _ & Hreg & _ & _ & Hbits).
    fold s1 in Hpc, Hreg, Hbits. clearbody s1.
    destruct (mret_spec s1) as (E1 & E2 & E3 & E4).
    assert ((mstatus s1 ≫ 11) .& 3 = priv s) as Epp.
    { apply get_pair; [lia|lia| |]; rewrite Hbits by lia; done. }
    rewrite Epp in E1, E4. rewrite E1, E2, E3. split; [done|]. split; [done|]. split; [done|].
    intros i Hi. rewrite E4, !Hbits by lia. unfold trap_mstatus, mpp_bits. change (3 + 4) with 7.
    destruct Hp as [Ep|[Ep|Ep]]; rewrite Ep; zcases; subst; try done; by rewrite ?Ep.
Qed.

(** ** Interrupts

    Interrupt [i] is pending, enabled in mie, and not masked in the current mode:
    M-mode masks the delegated ones, and the others when MIE is clear; S-mode masks
    the delegated ones when SIE is clear; U-mode masks none. *)
Definition irq_enabled s (i : Z) : bool :=
  Z.testbit (mip s) i && Z.testbit (mie s) i &&
  (if priv s =? PRV_M then Z.testbit (mstatus s) 3 && negb (Z.testbit (mideleg s) i)
   else if priv s =? PRV_S then negb (Z.testbit (mideleg s) i) || Z.testbit (mstatus s) 1
   else true).

Lemma not32 x i : 0 <= i < 32 -> Z.testbit (u32 (Z.lnot x)) i = negb (Z.testbit x i).
Proof. intros. rewrite wrap_testbit, Z.lnot_spec by lia. zcases. Qed.
Lemma irq_mask_spec s i : fits 32 (mip s) -> 0 <= i ->
  Z.testbit (get_pending_irq_mask s) i = (i <? 32) && irq_enabled s i.
Proof.
  intros Hm Hi. unfold get_pending_irq_mask, irq_enabled. cbv zeta.
  destruct (Z.ltb_spec i 32) as [Hlt|Hge].
  2:{ case_if; [apply Z.bits_0|]. rewrite !Z.land_spec, (fits_testbit 32 (mip s)) by done. done. }
  cbn [andb]. destruct (Z.eqb_spec (mip s .& mie s) 0) as [E|E].
  { rewrite <- Z.land_spec, E, Z.bits_0. done. }
  rewrite !Z.land_spec. f_equal.
  assert (forall k, 0 <= k -> nz (mstatus s .& (1 ≪ k)) = Z.testbit (mstatus s) k) as Hnz.
  { intros k Hk. unfold nz. destruct (Z.testbit (mstatus s) k) eqn:Eb.
    - destruct (Z.eqb_spec (mstatus s .& (1 ≪ k)) 0) as [H0|]; [|done].
      assert (Z.testbit (mstatus s .& (1 ≪ k)) k = false) as Hb by (rewrite H0; apply Z.bits_0).
      rewrite Z.land_spec, flag_bit, Z.eqb_refl, Eb in Hb by lia. done.
    - replace (mstatus s .& (1 ≪ k)) with 0; [done|]. symmetry. apply Z.bits_inj'. intros j Hj.
      rewrite Z.land_spec, flag_bit, Z.bits_0 by lia.
      destruct (Z.eqb_spec j k) as [->|]; [by rewrite Eb|apply andb_false_r]. }
  change MSTATUS_MIE with (1 ≪ 3). change MSTATUS_SIE with (1 ≪ 1).
  rewrite !Hnz by lia. destruct (priv s =? PRV_M), (priv s =? PRV_S).
  1-2: destruct (Z.testbit (mstatus s) 3); [by apply not32|apply Z.bits_0].
  - destruct (Z.testbit (mstatus s) 1); [rewrite Z.lor_spec|]; rewrite not32 by done;
      destruct (Z.testbit (mideleg s) i); done.
  - change (u32 (-1)) with (Z.ones 32). rewrite Z.testbit_ones_nonneg by lia. zcases.
Qed.
Lemma irq_mask_fits s : fits 32 (mip s) -> fits 32 (get_pending_irq_mask s).
Proof.
  intros Hm. unfold get_pending_irq_mask. cbv zeta. case_if; [apply fits_0; lia|].
  by apply fits_land_l, fits_land_l.
Qed.

(** C8: interrupts.  raise_interrupt takes an interrupt exactly when one is pending,
    enabled and not masked in the current mode, and changes nothing otherwise.  It
    takes the one with the lowest number, in S-mode if it is delegated and the CPU
    is not in M-mode, in M-mode otherwise; the interrupted pc is saved, and the cause
    register holds the number with its most significant bit set. *)
Theorem raise_interrupt_spec s : fits 32 (mip s) -> 0 <= priv s <= 3 ->
  let s' := snd (raise_interrupt s) in
  if fst (raise_interrupt s) then
    exists i, 0 <= i < 32 /\ irq_enabled s i = true /\
      (forall j, 0 <= j < i -> irq_enabled s j = false) /\
      if (priv s <=? PRV_S) && Z.testbit (mideleg s) i
      then priv s' = PRV_S /\ pc s' = stvec s /\ sepc s' = pc s /\
           scause s' = i .| ulong (1 ≪ (cur_xlen s - 1))
      else priv s' = PRV_M /\ pc s' = mtvec s /\ mepc s' = pc s /\
           mcause s' = i .| ulong (1 ≪ (cur_xlen s - 1))
  else s' = s /\ forall i, 0 <= i < 32 -> irq_enabled s i = false.
Proof.
  intros Hm Hp s'. pose proof (irq_mask_fits s Hm) as Hf. unfold s', raise_interrupt. cbv zeta.
  destruct (Z.eqb_spec (get_pending_irq_mask s) 0) as [E|E]; cbn [fst snd].
  { split; [done|]. intros i Hi. pose proof (irq_mask_spec s i Hm ltac:(lia)) as H.
    rewrite E, Z.bits_0 in H. destruct (Z.ltb_spec i 32); [done|lia]. }
  destruct (ctz32_spec _ Hf E) as (Hr & Hbit & Hlow). set (i := ctz32 _) in *. clearbody i.
  exists i. split; [done|].
  assert (forall j, 0 <= j < 32 -> irq_enabled s j = Z.testbit (get_pending_irq_mask s) j) as He.
  { intros j Hj. rewrite irq_mask_spec by (done || lia). destruct (Z.ltb_spec j 32); [done|lia]. }
  split; [by rewrite He|]. split; [intros j Hj; rewrite He by lia; by apply Hlow|].
  assert (Z.testbit (i .| CAUSE_INTERRUPT) 31 = true) as H31 by
    (rewrite Z.lor_spec; apply orb_true_r).
  assert (forall n, 5 <= n <= 31 -> (i .| CAUSE_INTERRUPT) .& Z.ones n = i) as Hmask.
  { intros n Hn. apply Z.bits_inj'. intros j Hj.
    unfold CAUSE_INTERRUPT. rewrite Z.land_spec, Z.lor_spec, flag_bit, Z.testbit_ones_nonneg by lia.
    destruct (Z_lt_le_dec j n); [zcases; by rewrite ?orb_false_r, ?andb_true_r|].
    rewrite (fits_testbit 5 i) by (lia || (split; lia)). zcases; apply andb_false_r. }
  assert (delegated s (i .| CAUSE_INTERRUPT) = (priv s <=? PRV_S) && Z.testbit (mideleg s) i) as Hd.
  { unfold delegated. rewrite H31, MAX_XLEN_mask, Hmask; [done|].
    destruct MAX_XLEN_ok as [->|[->| ->]]; cbn; lia. }
  assert (trap_code s (i .| CAUSE_INTERRUPT) = i .| ulong (1 ≪ (cur_xlen s - 1))) as Hcode.
  { unfold trap_code. rewrite H31. change 0x7fffffff with (Z.ones 31). by rewrite Hmask by lia. }
  assert (0 <= i .| CAUSE_INTERRUPT) as Hnn by (apply Z.lor_nonneg; split; [lia|by vm_compute]).
  unfold raise_exception. rewrite <- Hd. destruct (delegated s _) eqn:Hdel.
  - destruct (raise_deleg s _ 0 Hnn Hdel ltac:(lia)) as (? & ? & ? & _ & Hc & _).
    rewrite Hcode in Hc. done.
  - destruct (raise_direct s _ 0 Hnn Hdel ltac:(lia)) as (? & ? & ? & _ & Hc & _).
    rewrite Hcode in Hc. done.
Qed.
End Trap.

(** ** The register width of S-mode *)
Section Sxl.
Context `{cfg : Config}.
Implicit Types s : RISCVCPUState.

Lemma mstatus_field m mask val k : 0 <= k -> (forall i, k <= i < k + 2 -> Z.testbit mask i = true) ->
  (((m .& Z.lnot mask) .| (val .& mask)) ≫ k) .& 3 = (val ≫ k) .& 3.
Proof.
  intros Hk Hmask. change 3 with (Z.ones 2). apply Z.bits_inj'. intros i Hi.
  rewrite !Z.land_spec, !Z.shiftr_spec, Z.lor_spec, !Z.land_spec, Z.lnot_spec,
    Z.testbit_ones_nonneg by lia.
  destruct (Z_lt_le_dec i 2); [|zcases; by rewrite !andb_false_r].
  rewrite Hmask by lia. destruct (Z.testbit val (i + k)), (Z.testbit m (i + k)); done.
Qed.

(** set_mstatus tests the SXL field at the position of UXL, so a guest that
    writes a valid UXL together with SXL = 0 gets SXL = 0; when it then enters S-mode
    the register width becomes 16, and the next call of riscv_cpu_interp ends the
    emulator in abort(). *)
Theorem invalid_sxl_aborts {W} `{plat : Platform W} s val n (σ : Sys W) :
  MAX_XLEN = 64 -> priv s <> PRV_S ->
  1 <= (val ≫ MSTATUS_UXL_SHIFT) .& 3 <= 2 -> (val ≫ MSTATUS_SXL_SHIFT) .& 3 = 0 ->
  cpu σ = set_priv (set_mstatus s val) PRV_S ->
  fits 64 (insn_counter s) -> power_down_flag s = false -> 0 < n < 2 ^ 31 ->
  cur_xlen (cpu σ) = 16 /\ riscv_cpu_interp n σ = Stop StopAbort.
Proof.
  intros HX Hp Hu Hsx Hcpu Hic Hpd Hn.
  set (s1 := set_mstatus s val) in *.
  assert ((mstatus s1 ≫ MSTATUS_SXL_SHIFT) .& 3 = 0) as E1.
  { subst s1. unfold set_mstatus. rewrite HX. cbv zeta. cbn [Z.leb Z.compare Pos.compare Pos.compare_cont].
    change (get_base_from_xlen 64) with 2.
    assert (forall s' m, mstatus (with_mstatus m s') = m) as Em by reflexivity. rewrite Em.
    rewrite (proj2 (Z.leb_le 1 _)), (proj2 (Z.leb_le _ 2)) by lia. cbn [andb].
    rewrite mstatus_field; [exact Hsx|done|].
    intros i Hi. change MSTATUS_SXL_SHIFT with 34 in Hi. assert (i = 34 \/ i = 35) as [->| ->] by lia; done. }
  assert (priv s1 = priv s /\ insn_counter s1 = insn_counter s /\ power_down_flag s1 = false)
    as (E2 & E3 & E4).
  { subst s1. rewrite <- Hpd. unfold set_mstatus. cbv zeta. repeat case_if; done. }
  clearbody s1.
  assert (cur_xlen (cpu σ) = 16 /\ insn_counter (cpu σ) = insn_counter s /\
          power_down_flag (cpu σ) = false) as (Ex & Ei & Epd).
  { rewrite Hcpu. unfold set_priv. rewrite E2, (proj2 (Z.eqb_neq _ _) Hp). cbn [negb]. cbv zeta.
    rewrite HX. cbn [Z.leb Z.compare Pos.compare Pos.compare_cont].
    change (PRV_S =? PRV_S) with true. cbv iota.
    change (mstatus (tlb_flush_all s1)) with (mstatus s1). rewrite E1. done. }
  split; [exact Ex|]. unfold riscv_cpu_interp, mbind, M_bind, getc, gets. rewrite Ei.
  cbn [interp_loop]. unfold mbind, M_bind, getc, gets. rewrite Epd, Ex, Ei.
  assert (i32 (u64 (u64 (insn_counter s + n) - insn_counter s)) = n) as ->.
  { rewrite swrap_wrap by lia. rewrite <- (swrap_id 32 n) at 2 by lia. apply swrap_wrap_eq; [lia|].
    destruct (wrap_decomp 64 (insn_counter s + n)) as [k ->]; [lia|].
    apply (wrap_eq 32 _ _ (k * 2 ^ 32)); lia. }
  rewrite (proj2 (Z.ltb_lt 0 n)) by lia. cbn [negb andb].
  change (16 =? 32) with false. change (16 =? 64) with false. change (16 =? 128) with false.
  rewrite !andb_false_r. done.
Qed.
End Sxl.

(** ** Examples *)

(** A CPU in U-mode at 0x2000, with interrupts enabled and the S-mode timer delegated. *)
Definition user_cpu : RISCVCPUState :=
  with_mideleg MIP_STIP (with_mie (MIP_STIP .| MIP_MTIP) (with_stvec 0x400 (with_mtvec 0x800
    (with_mstatus (mstatus (@riscv_cpu_init cfg_rv64) .| MSTATUS_UIE) (with_pc 0x2000
      (with_priv PRV_U (@riscv_cpu_init cfg_rv64))))))).

Lemma trap_return_witness :
  let s1 := @raise_exception2 cfg_rv64 user_cpu CAUSE_USER_ECALL 0 in
  pc s1 = 0x800 /\ priv s1 = PRV_M /\
  pc (@handle_mret cfg_rv64 s1) = 0x2000 /\ priv (@handle_mret cfg_rv64 s1) = PRV_U.
Proof.
  destruct (@trap_return cfg_rv64 user_cpu CAUSE_USER_ECALL 0) as (Hpc & Hp & _);
    [by vm_compute|by left|].
  split; [vm_compute; reflexivity|]. split; [vm_compute; reflexivity|]. split; [exact Hpc|exact Hp].
Defined.

Lemma raise_interrupt_spec_witness :
  let s' := snd (@raise_interrupt cfg_rv64 (@riscv_cpu_set_mip (MIP_STIP .| MIP_MTIP) user_cpu)) in
  priv s' = PRV_S /\ pc s' = 0x400 /\ sepc s' = 0x2000 /\ scause s' = 5 .| 2 ^ 63.
Proof.
  pose proof (@raise_interrupt_spec cfg_rv64 (riscv_cpu_set_mip (MIP_STIP .| MIP_MTIP) user_cpu)) as H.
  destruct (fst (@raise_interrupt cfg_rv64 (riscv_cpu_set_mip (MIP_STIP .| MIP_MTIP) user_cpu))) eqn:E;
    [|vm_compute in E; discriminate].
  destruct H as (i & Hi & He & Hlow & Ht); [split; vm_compute; congruence|split; vm_compute; congruence|].
  assert (i = 5) as ->.
  { destruct (Z_lt_le_dec i 5) as [Hlt|Hge].
    - assert (i = 0 \/ i = 1 \/ i = 2 \/ i = 3 \/ i = 4) as Hc by lia.
      destruct Hc as [->|[->|[->|[->| ->]]]]; vm_compute in He; discriminate.
    - destruct (Z.eq_dec i 5) as [|Hne]; [done|]. specialize (Hlow 5 ltac:(lia)).
      vm_compute in Hlow. discriminate. }
  vm_compute in Ht. exact Ht.
Defined.

Lemma invalid_sxl_aborts_witness :
  @riscv_cpu_interp cfg_rv64 unit empty_bus 1
    (mkSys (@set_priv cfg_rv64 (@set_mstatus cfg_rv64 (@riscv_cpu_init cfg_rv64) (2 ≪ 32)) PRV_S)
       phys_mem_map_init ∅ tt) = Stop StopAbort.
Proof.
  apply (@invalid_sxl_aborts cfg_rv64 unit empty_bus (@riscv_cpu_init cfg_rv64) (2 ≪ 32) 1);
    try reflexivity; try (vm_compute; congruence); split; vm_compute; congruence.
Defined.
