(* ===== verification/IsoFacts.v ===== *)
(** * Isolation: an instruction of a less privileged mode does not touch the state
    of machine mode

    A property [P] of the CPU that the assignments of ordinary instructions keep is
    kept by every instruction; only CSR accesses and trap returns need an argument of
    their own. *)
From S2P Require Export InterpInv TrapFacts.

Section Keeps.
Context `{cfg : Config} {W : Type} `{plat : Platform W} (P : RISCVCPUState -> Prop).

Definition keeps {A} (m : M (Sys W) A) : Prop :=
  forall σ, P (cpu σ) -> wp m (fun _ => True) (fun _ σ' => P (cpu σ')) σ.

(** The assignments of ordinary instructions. *)
Record ordinary : Prop := {
  or_pc : forall s v, P s -> P (with_pc v s);
  or_reg : forall s v, P s -> P (with_reg v s);
  or_fp_reg : forall s v, P s -> P (with_fp_reg v s);
  or_fs : forall s v, P s -> P (with_fs v s);
  or_fflags : forall s v, P s -> P (with_fflags v s);
  or_insn_counter : forall s v, P s -> P (with_insn_counter v s);
  or_power_down : forall s v, P s -> P (with_power_down_flag v s);
  or_pending_exception : forall s v, P s -> P (with_pending_exception v s);
  or_pending_tval : forall s v, P s -> P (with_pending_tval v s);
  or_load_res : forall s v, P s -> P (with_load_res v s);
  or_tlb_read : forall s v, P s -> P (with_tlb_read v s);
  or_tlb_write : forall s v, P s -> P (with_tlb_write v s);
  or_tlb_code : forall s v, P s -> P (with_tlb_code v s);
}.
Context (HP : ordinary)
  (Hread : forall op off k, keeps (read_func op off k))
  (Hwrite : forall op off v k, keeps (write_func op off v k)).

Lemma keeps_ret {A} (a : A) : keeps (mret a).
Proof. by intros σ H. Qed.
Lemma keeps_bind {A B} (m : M (Sys W) A) (k : A -> M (Sys W) B) :
  keeps m -> (forall a, keeps (k a)) -> keeps (m ≫= k).
Proof. intros Hm Hk σ H. apply wp_bind. eapply wp_mono; [by apply Hm|]. intros a σ' ?. by apply Hk. Qed.
Lemma keeps_stop {A} r : keeps (A := A) (stop_with r).
Proof. by intros σ H. Qed.
Lemma keeps_assert b : keeps (assert b).
Proof. destruct b; [apply keeps_ret|apply keeps_stop]. Qed.
Lemma keeps_gets {A} (f : Sys W -> A) : keeps (gets f).
Proof. by intros σ H. Qed.
Lemma keeps_updc f : (forall s, P s -> P (f s)) -> keeps (updc f).
Proof. intros Hf σ H. by apply Hf. Qed.
Lemma keeps_if {A} (b : bool) (m1 m2 : M (Sys W) A) :
  (b = true -> keeps m1) -> (b = false -> keeps m2) -> keeps (if b then m1 else m2).
Proof. destruct b; auto. Qed.
Lemma keeps_host_read n p : keeps (host_read n p).
Proof. intros σ H. unfold wp, host_read. by case_if. Qed.
Lemma keeps_host_write n p v : keeps (host_write n p v).
Proof. intros σ H. unfold wp, host_write. by case_if. Qed.
Lemma keeps_find_range a : keeps (find_range a).
Proof. by intros σ H. Qed.
Lemma keeps_set_dirty_bit i pr o : keeps (set_dirty_bit i pr o).
Proof. unfold set_dirty_bit. destruct (phys_mem_set_dirty_bit pr o); [by intros σ H|apply keeps_stop]. Qed.
Lemma keeps_with_flags {A} (m : M Z A) : keeps (with_flags m).
Proof.
  intros σ H. unfold wp, with_flags. destruct (m (fflags (cpu σ))) as [a fl|]; [|done].
  by apply (or_fflags HP).
Qed.

(** Chains of ordinary assignments. *)
Ltac assign := repeat first [assumption | apply (or_pc HP) | apply (or_reg HP) | apply (or_fp_reg HP)
  | apply (or_fs HP) | apply (or_fflags HP) | apply (or_insn_counter HP) | apply (or_power_down HP)
  | apply (or_pending_exception HP) | apply (or_pending_tval HP) | apply (or_load_res HP)
  | apply (or_tlb_read HP) | apply (or_tlb_write HP) | apply (or_tlb_code HP)].
Lemma keeps_wr_reg i v : keeps (wr_reg i v).
Proof. apply keeps_updc. intros. unfold reg_set. assign. Qed.
Lemma keeps_wr_rd i v : keeps (wr_rd i v).
Proof. apply keeps_if; intros _; [apply keeps_wr_reg|apply keeps_ret]. Qed.
Lemma keeps_wr_fp i v : keeps (wr_fp i v).
Proof. apply keeps_updc. intros. unfold fp_set. assign. Qed.
Lemma keeps_set_pc v : keeps (set_pc v).
Proof. apply keeps_updc. intros. assign. Qed.

(** One step along the code. *)
Ltac keep_step :=
  lazymatch goal with
  | |- keeps (_ ≫= _) => apply keeps_bind; [|intros ?]
  | |- keeps (mret _) => apply keeps_ret
  | |- keeps (stop_with _) => apply keeps_stop
  | |- keeps (assert _) => apply keeps_assert
  | |- keeps (gets _) => apply keeps_gets
  | |- keeps getc => apply keeps_gets
  | |- keeps (updc _) => apply keeps_updc; intros; assign
  | |- keeps (host_read _ _) => apply keeps_host_read
  | |- keeps (get_insn32 _) => apply keeps_host_read
  | |- keeps (host_write _ _ _) => apply keeps_host_write
  | |- keeps (find_range _) => apply keeps_find_range
  | |- keeps (set_dirty_bit _ _ _) => apply keeps_set_dirty_bit
  | |- keeps (read_func _ _ _) => apply Hread
  | |- keeps (write_func _ _ _ _) => apply Hwrite
  | |- keeps (with_flags _) => apply keeps_with_flags
  | |- keeps (rd_reg _) => apply keeps_gets
  | |- keeps (rd_fp _) => apply keeps_gets
  | |- keeps (wr_reg _ _) => apply keeps_wr_reg
  | |- keeps (wr_rd _ _) => apply keeps_wr_rd
  | |- keeps (wr_fp _ _) => apply keeps_wr_fp
  | |- keeps (set_pc _) => apply keeps_set_pc
  | |- keeps illegal => apply keeps_ret
  | |- keeps (if_fs _) => unfold if_fs
  | |- keeps (match ?x with _ => _ end) => first [is_var x; destruct x | destruct x eqn:?]
  end.
Ltac keep_all := cbv zeta; repeat (keep_step; cbv zeta).

(** ** Memory accesses *)
Lemma keeps_phys_read n a : keeps (phys_read n a).
Proof. unfold phys_read. keep_all. Qed.
Lemma keeps_phys_write n a v : keeps (phys_write n a v).
Proof. unfold phys_write. keep_all. Qed.
Lemma keeps_walk n levels psz p va access a : keeps (walk n levels psz p va access a).
Proof.
  revert a. induction n as [|n IH]; intros a; cbn [walk]; [apply keeps_ret|]. cbv zeta.
  apply keeps_bind; [case_if; apply keeps_phys_read|intros pte].
  case_if; [apply keeps_ret|]. case_if; [|apply IH]. keep_step; [keep_step|].
  case_if; [apply keeps_ret|]. keep_step; [|apply keeps_ret].
  repeat case_if; first [apply keeps_phys_write | apply keeps_ret].
Qed.
Lemma keeps_get_phys_addr va access : keeps (get_phys_addr va access).
Proof. unfold get_phys_addr. keep_all; apply keeps_walk. Qed.
Lemma keeps_dev_read pr off k : keeps (dev_read pr off k).
Proof. unfold dev_read. keep_all. Qed.
Lemma keeps_dev_write pr off k v : keeps (dev_write pr off k v).
Proof. unfold dev_write. keep_all. Qed.
Lemma keeps_read_with slow k a : (forall k a, keeps (slow k a)) -> keeps (target_read_with slow k a).
Proof. intros. unfold target_read_with. keep_all; auto. Qed.
Lemma keeps_read_slow fuel k a : keeps (target_read_slow fuel k a).
Proof.
  revert k a. induction fuel as [|f IH]; intros k a; cbn [target_read_slow]; [apply keeps_stop|].
  cbv zeta. case_if.
  - unfold read_slow_unaligned. keep_all; by apply keeps_read_with.
  - unfold read_slow_aligned. keep_all; first [apply keeps_get_phys_addr | apply keeps_dev_read].
Qed.
Lemma keeps_target_read k a : keeps (target_read k a).
Proof. apply keeps_read_with. apply keeps_read_slow. Qed.
Lemma keeps_write_with slow k a v : (forall k a v, keeps (slow k a v)) -> keeps (target_write_with slow k a v).
Proof. intros. unfold target_write_with. keep_all; auto. Qed.
Lemma keeps_write_bytes w n i a v : (forall a v, keeps (w a v)) -> keeps (write_slow_bytes w n i a v).
Proof.
  intros Hw. revert i. induction n as [|n IH]; intros i; cbn [write_slow_bytes]; [apply keeps_ret|].
  apply keeps_bind; [apply Hw|]. intros [[]|]; [apply IH|apply keeps_ret].
Qed.
Lemma keeps_write_slow fuel k a v : keeps (target_write_slow fuel k a v).
Proof.
  revert k a v. induction fuel as [|f IH]; intros k a v; cbn [target_write_slow]; [apply keeps_stop|].
  case_if.
  - apply keeps_write_bytes. intros. by apply keeps_write_with.
  - unfold write_slow_aligned. keep_all; first [apply keeps_get_phys_addr | apply keeps_dev_write].
Qed.
Lemma keeps_target_write k a v : keeps (target_write k a v).
Proof. apply keeps_write_with. apply keeps_write_slow. Qed.

(** ** Instructions *)
Lemma keeps_c_addr XLEN r i : keeps (c_addr XLEN r i).
Proof. unfold c_addr. keep_all. Qed.
Ltac keep_call :=
  lazymatch goal with
  | |- keeps (target_read _ _) => apply keeps_target_read
  | |- keeps (target_write _ _ _) => apply keeps_target_write
  | |- keeps (c_addr _ _ _) => apply keeps_c_addr
  | _ => keep_step
  end.
Ltac keep_ins := cbv zeta; repeat (keep_call; cbv zeta).
Lemma keeps_exec_c0 XLEN insn : keeps (exec_c0 XLEN insn).
Proof. unfold exec_c0. keep_ins. Qed.
Lemma keeps_exec_c1 XLEN gpc insn : keeps (exec_c1 XLEN gpc insn).
Proof. unfold exec_c1, exec_c1_alu. keep_ins. Qed.
Lemma keeps_exec_c2 XLEN gpc insn : keeps (exec_c2 XLEN gpc insn).
Proof. unfold exec_c2, exec_c2_jump. keep_ins. Qed.
Lemma keeps_fp_result F rd m : keeps (fp_result F rd m).
Proof. unfold fp_result. keep_ins. Qed.
Lemma keeps_int_result rd m : keeps (int_result rd m).
Proof. unfold int_result. keep_ins. Qed.
Lemma keeps_wr_result insn v : keeps (wr_result insn v).
Proof. unfold wr_result. keep_ins. Qed.
Lemma keeps_with_rm rm k : (forall r, keeps (k r)) -> keeps (with_rm rm k).
Proof. intros Hk. unfold with_rm. keep_step; [keep_step|]. destruct (get_insn_rm _ _); [apply Hk|keep_step]. Qed.
Ltac keep_fin := cbv zeta; repeat (
  lazymatch goal with
  | |- keeps (with_rm _ _) => apply keeps_with_rm; intros ?
  | |- keeps (fp_result _ _ _) => apply keeps_fp_result
  | |- keeps (int_result _ _) => apply keeps_int_result
  | |- keeps (wr_result _ _) => apply keeps_wr_result
  | _ => keep_call
  end; cbv zeta).

Lemma keeps_int_insn XLEN gpc insn :
  keeps (exec_lui insn) /\ keeps (exec_auipc XLEN gpc insn) /\ keeps (exec_jal XLEN gpc insn) /\
  keeps (exec_jalr XLEN gpc insn) /\ keeps (exec_branch XLEN gpc insn) /\ keeps (exec_load XLEN insn) /\
  keeps (exec_store XLEN insn) /\ keeps (exec_op_imm XLEN insn) /\ keeps (exec_op XLEN insn) /\
  (forall w, keeps (exec_op_imm_w w insn) /\ keeps (exec_op_w w insn)) /\
  keeps (exec_misc_mem XLEN insn).
Proof.
  repeat lazymatch goal with |- _ /\ _ => split | |- forall w : Z, _ => intros w end;
    unfold exec_lui, exec_auipc, exec_jal, exec_jalr, exec_branch, exec_load, exec_store,
    exec_op_imm, exec_op, exec_op_imm_w, exec_op_w, exec_misc_mem; keep_fin.
Qed.
Lemma keeps_exec_amo XLEN insn : keeps (exec_amo XLEN insn).
Proof.
  assert (forall k, keeps (op_a k insn)) as Hop.
  { intros k. unfold op_a, op_lr, op_sc, op_amo. keep_fin. }
  unfold exec_amo. keep_fin; apply Hop.
Qed.
Lemma keeps_fp_insn XLEN insn :
  keeps (exec_fp_load insn) /\ keeps (exec_fp_store insn) /\
  (forall x y, keeps (exec_fma x y insn)) /\ keeps (exec_fp_op XLEN insn).
Proof.
  split; [|split; [|split]].
  - unfold exec_fp_load. keep_fin.
  - unfold exec_fp_store. keep_fin.
  - intros x y. unfold exec_fma. keep_fin.
  - unfold exec_fp_op, exec_fbin, exec_fsqrt, exec_fsgnj, exec_fminmax, exec_fcvt_int, exec_fcmp,
      exec_fcvt_from_int, exec_fcvt_fmt, exec_fmv_x, exec_fmv_f.
    keep_fin.
Qed.

(** ** System instructions *)
Context (Hcsr : forall s csr val, P s -> (csr ≫ 8) .& 3 <= priv s -> P (snd (csr_write s csr val)))
  (Hsret : forall s, P s -> PRV_S <= priv s -> P (handle_sret s))
  (Hmret : forall s, P s -> PRV_M <= priv s -> P (handle_mret s)).

(** A CSR that can be read belongs to the current mode or a lower one. *)
Lemma csr_read_level s csr w v : csr_read s csr w = Some v -> (csr ≫ 8) .& 3 <= priv s.
Proof.
  unfold csr_read. case_if; [done|]. case_if; [done|]. intros _.
  match goal with H : (priv s <? _) = false |- _ => by apply Z.ltb_ge in H end.
Qed.
Lemma keeps_after_csr_write gpc err : keeps (after_csr_write gpc err).
Proof. unfold after_csr_write. keep_fin. Qed.

(** The CSR write of an instruction whose CSR read succeeded. *)
Lemma wp_csr_write csr v (k : Z -> M (Sys W) label) σ :
  P (cpu σ) -> (csr ≫ 8) .& 3 <= priv (cpu σ) -> (forall err, keeps (k err)) ->
  wp (callc (fun s => csr_write s csr v) ≫= k) (fun _ => True) (fun _ σ' => P (cpu σ')) σ.
Proof.
  intros H Hl Hk. apply wp_bind. unfold wp at 1, callc. pose proof (Hcsr (cpu σ) csr v H Hl) as H'.
  destruct (csr_write (cpu σ) csr v) as [err s']. by apply Hk.
Qed.
Ltac keep_csr ic :=
  intros σ H; cbv zeta; apply wp_bind; unfold updc; apply wp_modify, wp_bind, wp_gets;
  assert (P (cpu (upd_cpu (with_insn_counter ic) σ))) as H' by (by apply (or_insn_counter HP));
  lazymatch goal with |- context [csr_read ?s ?c ?w] =>
    destruct (csr_read s c w) as [x|] eqn:E; [apply csr_read_level in E|by apply wp_ret] end.
Lemma keeps_exec_csrrw XLEN gpc ic insn v : keeps (exec_csrrw XLEN gpc ic insn v).
Proof.
  unfold exec_csrrw. keep_csr ic. apply wp_csr_write; [done..|intros err].
  keep_fin; apply keeps_after_csr_write.
Qed.
Lemma keeps_exec_csrrsc XLEN set gpc ic insn v : keeps (exec_csrrsc XLEN set gpc ic insn v).
Proof.
  unfold exec_csrrsc. keep_csr ic. destruct (nz _).
  - apply wp_csr_write; [done..|intros err]. keep_fin; apply keeps_after_csr_write.
  - revert H'. generalize (upd_cpu (with_insn_counter ic) σ).
    change (keeps (_ ← wr_rd (insn_rd insn) (ulong (swrap XLEN x)); mret (L_next 4))). keep_fin.
Qed.
Lemma keeps_flush_all s : P s -> P (tlb_flush_all s).
Proof. intros. unfold tlb_flush_all, tlb_init. assign. Qed.
Lemma keeps_flush_vaddr s va : P s -> P (tlb_flush_vaddr s va).
Proof. apply keeps_flush_all. Qed.
Lemma wp_return gpc f (σ : Sys W) :
  P (f (with_pc gpc (cpu σ))) ->
  wp (_ ← set_pc gpc; _ ← updc f; mret L_done_interp) (fun _ => True)
     (fun (_ : label) σ' => P (cpu σ')) σ.
Proof.
  intros Hf. apply wp_bind. unfold set_pc, updc. by apply wp_modify, wp_bind, wp_modify, wp_ret.
Qed.
Lemma keeps_exec_priv gpc insn : keeps (exec_priv gpc insn).
Proof.
  intros σ H. unfold exec_priv. cbv zeta. apply wp_bind, wp_gets.
  assert (P (with_pc gpc (cpu σ))) as Hpc by by apply (or_pc HP).
  repeat lazymatch goal with
  | |- wp (if ?b then _ else _) _ _ _ => destruct b eqn:?
  | |- wp (match ?x with _ => _ end) _ _ _ => destruct x
  end;
  lazymatch goal with
  | |- wp (_ ← set_pc gpc; _ ← updc handle_sret; _) _ _ _ =>
      apply wp_return, Hsret; [done|by apply Z.ltb_ge]
  | |- wp (_ ← set_pc gpc; _ ← updc handle_mret; _) _ _ _ =>
      apply wp_return, Hmret; [done|by apply Z.ltb_ge]
  | |- wp ?m _ _ _ => cut (keeps m); [by intros Hm; apply Hm|keep_fin]
  end;
  apply keeps_updc; intros; first [by apply keeps_flush_all | by apply keeps_flush_vaddr].
Qed.
Lemma keeps_exec_system XLEN gpc ic insn : keeps (exec_system XLEN gpc ic insn).
Proof.
  unfold exec_system. cbv zeta. apply keeps_bind; [keep_fin|intros v].
  repeat lazymatch goal with
    | |- keeps (match ?x with _ => _ end) => destruct x
    | |- keeps (exec_csrrw _ _ _ _ _) => apply keeps_exec_csrrw
    | |- keeps (exec_csrrsc _ _ _ _ _ _) => apply keeps_exec_csrrsc
    | |- keeps (exec_priv _ _) => apply keeps_exec_priv
    end.
Qed.
Lemma keeps_exec_insn XLEN gpc ic insn : keeps (exec_insn XLEN gpc ic insn).
Proof.
  destruct (keeps_int_insn XLEN gpc insn)
    as (Hlui & Hauipc & Hjal & Hjalr & Hbr & Hld & Hst & Hopi & Hop & Hw & Hmisc).
  destruct (keeps_fp_insn XLEN insn) as (Hfl & Hfs & Hfma & Hfop).
  unfold exec_insn.
  repeat lazymatch goal with
    | |- keeps (match ?x with _ => _ end) => first [is_var x; destruct x | destruct x eqn:?]
    | |- keeps illegal => apply keeps_ret
    | |- keeps (exec_c0 _ _) => apply keeps_exec_c0
    | |- keeps (exec_c1 _ _ _) => apply keeps_exec_c1
    | |- keeps (exec_c2 _ _ _) => apply keeps_exec_c2
    | |- keeps (exec_lui _) => exact Hlui
    | |- keeps (exec_auipc _ _ _) => exact Hauipc
    | |- keeps (exec_jal _ _ _) => exact Hjal
    | |- keeps (exec_jalr _ _ _) => exact Hjalr
    | |- keeps (exec_branch _ _ _) => exact Hbr
    | |- keeps (exec_load _ _) => exact Hld
    | |- keeps (exec_store _ _) => exact Hst
    | |- keeps (exec_op_imm _ _) => exact Hopi
    | |- keeps (exec_op _ _) => exact Hop
    | |- keeps (exec_op_imm_w ?w _) => exact (proj1 (Hw w))
    | |- keeps (exec_op_w ?w _) => exact (proj2 (Hw w))
    | |- keeps (exec_system _ _ _ _) => apply keeps_exec_system
    | |- keeps (exec_misc_mem _ _) => exact Hmisc
    | |- keeps (exec_amo _ _) => apply keeps_exec_amo
    | |- keeps (exec_fp_load _) => exact Hfl
    | |- keeps (exec_fp_store _) => exact Hfs
    | |- keeps (exec_fma _ _ _) => apply Hfma
    | |- keeps (exec_fp_op _ _) => exact Hfop
    end.
Qed.
End Keeps.

(** ** Devices *)

(** A callback that changes nothing of the CPU but the interrupt lines and the
    power-down flag, which cpu_set_mip clears. *)
Definition lines_only (s s' : RISCVCPUState) : Prop :=
  s' = with_mip (mip s') (with_power_down_flag (power_down_flag s') s).
Definition quiet {W A} (m : M (Sys W) A) : Prop :=
  forall σ, wp m (fun _ => True) (fun _ σ' => lines_only (cpu σ) (cpu σ')) σ.
Class QuietPlatform `{cfg : Config} {W} (plat : Platform W) : Prop := {
  quiet_read : forall op off k, quiet (read_func op off k);
  quiet_write : forall op off v k, quiet (write_func op off v k);
}.

Section Quiet.
Context `{cfg : Config} {W : Type}.
Lemma quiet_ret {A} (a : A) : quiet (W := W) (mret a).
Proof. intros σ. reflexivity. Qed.
Lemma quiet_bind {A B} (m : M (Sys W) A) (k : A -> M (Sys W) B) :
  quiet m -> (forall a, quiet (k a)) -> quiet (m ≫= k).
Proof.
  intros Hm Hk σ. apply wp_bind. eapply wp_mono; [apply Hm|]. intros a σ1 E1.
  eapply wp_mono; [apply Hk|]. intros b σ2 E2. unfold lines_only in *. rewrite E2, E1. reflexivity.
Qed.
Lemma quiet_stop {A} r : quiet (W := W) (A := A) (stop_with r).
Proof. by intros σ. Qed.
Lemma quiet_assert b : quiet (W := W) (assert b).
Proof. destruct b; [apply quiet_ret|apply quiet_stop]. Qed.
Lemma quiet_gets {A} (f : Sys W -> A) : quiet (gets f).
Proof. intros σ. reflexivity. Qed.
Lemma quiet_set_mip m : quiet (W := W) (updc (riscv_cpu_set_mip m)).
Proof. intros σ. unfold wp, updc, modify, upd_cpu, riscv_cpu_set_mip, lines_only. cbn. by case_if. Qed.
Lemma quiet_reset_mip m : quiet (W := W) (updc (riscv_cpu_reset_mip m)).
Proof. intros σ. reflexivity. Qed.
End Quiet.

Ltac quiet_step := cbv zeta;
  lazymatch goal with
  | |- quiet (_ ≫= _) => apply quiet_bind; [|intros ?]
  | |- quiet (mret _) => apply quiet_ret
  | |- quiet (stop_with _) => apply quiet_stop
  | |- quiet (assert _) => apply quiet_assert
  | |- quiet (gets _) => apply quiet_gets
  | |- quiet (updc (riscv_cpu_set_mip _)) => apply quiet_set_mip
  | |- quiet (updc (riscv_cpu_reset_mip _)) => apply quiet_reset_mip
  | |- quiet (match ?x with _ => _ end) => first [is_var x; destruct x | destruct x eqn:?]
  end.

(** The devices of riscv_machine.c are quiet if the others are. *)
Class OtherQuiet `{cfg : Config} {D : Type} (dev : OtherDevices D) : Prop := {
  other_quiet_read : forall op off k, quiet (other_read op off k);
  other_quiet_write : forall op off v k, quiet (other_write op off v k);
}.
#[export] Instance machine_quiet `{cfg : Config} {D : Type} `{dev : !OtherDevices D}
  `{!OtherQuiet dev} : QuietPlatform (riscv_platform (D := D)).
Proof.
  assert (forall f : RISCVMachine D -> RISCVMachine D, quiet (updm f)) as Hu by (intros f σ; reflexivity).
  split.
  - intros [|[|[|op]]] *; cbn [read_func riscv_platform]; [| | |apply other_quiet_read];
      unfold clint_read, plic_read, htif_read, plic_update_mip, rtc_get_time, rtc_get_real_time, getm;
      repeat first [apply Hu | quiet_step].
  - intros [|[|[|op]]] *; cbn [write_func riscv_platform]; [| | |apply other_quiet_write];
      unfold clint_write, plic_write, htif_write, htif_handle_cmd, plic_update_mip, getm;
      repeat first [apply Hu | quiet_step].
Qed.

(** ** What belongs to the privileged modes *)
Section Isolation.
Context `{cfg : Config}.
Implicit Types s : RISCVCPUState.

(** The registers of M-mode, with the bits of mie and mstatus that are not visible
    from S-mode. *)
Definition machine_view s : list Z :=
  [mtvec s; mscratch s; mepc s; mcause s; mtval s; medeleg s; mideleg s; mcounteren s;
   mhartid s; misa s; mxl s; u32 (mie s .& Z.lnot (mideleg s)); mstatus s .& Z.lnot SSTATUS_MASK].
(** The registers of S-mode, and all of mie and mstatus. *)
Definition supervisor_view s : list Z :=
  [stvec s; sscratch s; sepc s; scause s; stval s; satp s; scounteren s; mie s; mstatus s].

(** A mode below M: the state it must not change is [v]. *)
Definition below_M (v : list Z) s : Prop := machine_view s = v /\ 0 <= priv s <= PRV_S.
Definition in_U (v w : list Z) s : Prop :=
  machine_view s = v /\ supervisor_view s = w /\ priv s = PRV_U.

Lemma below_M_ordinary v : ordinary (below_M v).
Proof. constructor; intros s ? H; exact H. Qed.
Lemma in_U_ordinary v w : ordinary (in_U v w).
Proof. constructor; intros s ? H; exact H. Qed.

Lemma quiet_keeps {W A} (P : RISCVCPUState -> Prop) (m : M (Sys W) A) :
  ordinary P -> (forall s x, P s -> P (with_mip x s)) -> quiet m -> keeps P m.
Proof.
  intros HP Hmip Hq σ H. eapply wp_mono; [apply Hq|]. intros a σ' ->.
  by apply Hmip, (or_power_down P HP).
Qed.

(** A write to the bits of [mask] keeps the others, whatever part of it happens. *)
Lemma outside m S v mask : ((m .& Z.lnot mask) .| (((m .& Z.lnot S) .| (v .& S)) .& mask)) .& Z.lnot S =
  m .& Z.lnot S.
Proof.
  apply Z.bits_inj'. intros i Hi. rewrite !Z.land_spec, !Z.lor_spec, !Z.land_spec, !Z.lor_spec, !Z.land_spec,
    !Z.lnot_spec by done.
  by destruct (Z.testbit m i), (Z.testbit S i), (Z.testbit v i), (Z.testbit mask i).
Qed.
Lemma set_mstatus_fields s v : exists mask,
  mstatus (set_mstatus s v) = (mstatus s .& Z.lnot mask) .| (v .& mask) /\
  forall P : RISCVCPUState -> Prop,
    (forall s x, P s -> P (with_fs x s)) -> (forall s x, P s -> P (with_mstatus x s)) ->
    (forall s, P s -> P (tlb_flush_all s)) -> P s -> P (set_mstatus s v).
Proof.
  unfold set_mstatus. cbv zeta.
  match goal with |- context [with_mstatus ((_ .& Z.lnot ?mask) .| _) _] => exists mask end.
  split; [by case_if|]. intros P Hf Hm Ht H. case_if; auto.
Qed.
Lemma sstatus_write s val :
  machine_view (set_mstatus s ((mstatus s .& Z.lnot SSTATUS_MASK) .| (val .& SSTATUS_MASK))) = machine_view s /\
  priv (set_mstatus s ((mstatus s .& Z.lnot SSTATUS_MASK) .| (val .& SSTATUS_MASK))) = priv s.
Proof.
  destruct (set_mstatus_fields s ((mstatus s .& Z.lnot SSTATUS_MASK) .| (val .& SSTATUS_MASK)))
    as (mask & Em & Hrest).
  set (s' := set_mstatus _ _) in *. split; [|by apply (Hrest (fun s' => priv s' = priv s))].
  apply (f_equal (fun m => m .& Z.lnot SSTATUS_MASK)) in Em. rewrite outside in Em.
  assert (take 12 (machine_view s') = take 12 (machine_view s)) as Et.
  { by apply (Hrest (fun s' => take 12 (machine_view s') = take 12 (machine_view s))). }
  rewrite <- (take_drop 12 (machine_view s')), <- (take_drop 12 (machine_view s)), Et. f_equal.
  exact (f_equal (fun x => [x]) Em).
Qed.

Lemma sie_write m d v :
  u32 (u32 ((m .& Z.lnot d) .| (v .& d)) .& Z.lnot d) = u32 (m .& Z.lnot d).
Proof.
  apply Z.bits_inj'. intros i Hi. rewrite !wrap_testbit, !Z.land_spec, !Z.lnot_spec by lia.
  rewrite wrap_testbit, !Z.lor_spec, !Z.land_spec, !Z.lnot_spec by lia.
  by destruct (i <? 32), (Z.testbit m i), (Z.testbit d i), (Z.testbit v i).
Qed.

(** CSRs of level 0 and 1 leave the M-mode registers alone. *)
Lemma below_M_csr v s csr val : below_M v s -> (csr ≫ 8) .& 3 <= priv s -> below_M v (snd (csr_write s csr val)).
Proof.
  intros [Hv Hp] Hl. unfold csr_write. cbv zeta.
  destruct (sstatus_write s val) as [E1 E2].
  repeat match goal with
  | |- context [match ?x with _ => _ end] => is_var x; destruct x
  end; cbn [snd];
  first [ exact (conj Hv Hp)
        | assert (3 <= priv s) by exact Hl; unfold PRV_S in Hp; lia
        | idtac ].
  - split; [|exact Hp]. rewrite <- Hv. unfold machine_view. cpu_simpl. by rewrite sie_write.
  - split; [by rewrite E1|by rewrite E2].
Qed.
(** CSRs of level 0 leave the S-mode registers alone too. *)
Lemma in_U_csr v w s csr val : in_U v w s -> (csr ≫ 8) .& 3 <= priv s -> in_U v w (snd (csr_write s csr val)).
Proof.
  intros (Hv & Hw & Hp) Hl. unfold csr_write. cbv zeta.
  repeat match goal with
  | |- context [match ?x with _ => _ end] => is_var x; destruct x
  end; cbn [snd];
  first [ exact (conj Hv (conj Hw Hp))
        | assert (1 <= priv s) by exact Hl; unfold PRV_U in Hp; lia
        | assert (3 <= priv s) by exact Hl; unfold PRV_U in Hp; lia ].
Qed.
Lemma set_priv_view s p : machine_view (set_priv s p) = machine_view s.
Proof. unfold set_priv. cbv zeta. by repeat case_if. Qed.
Lemma sret_view s : machine_view (handle_sret s) = machine_view s.
Proof.
  assert (mstatus (handle_sret s) .& Z.lnot SSTATUS_MASK = mstatus s .& Z.lnot SSTATUS_MASK) as Em.
  { apply Z.bits_inj'. intros i Hi. rewrite !Z.land_spec, Z.lnot_spec by done.
    destruct (sret_spec s) as (_ & _ & _ & Hb). rewrite Hb by done.
    destruct (Z.testbit SSTATUS_MASK i) eqn:Es; [by rewrite !andb_false_r|].
    assert (forall k, Z.testbit SSTATUS_MASK k = true -> i <> k) as Hne by congruence.
    assert (forall k, Z.testbit SSTATUS_MASK0 k = true -> Z.testbit SSTATUS_MASK k = true) as H0.
    { intros k Hk. unfold SSTATUS_MASK. case_if; [|done]. by rewrite Z.lor_spec, Hk. }
    assert ((mstatus s ≫ 8) .& 1 = 0 \/ (mstatus s ≫ 8) .& 1 = 1) as Hspp.
    { rewrite get_flag by lia. case_if; auto. }
    rewrite (proj2 (Z.eqb_neq i 8)), (proj2 (Z.eqb_neq i 5)) by (by apply Hne, H0).
    destruct Hspp as [-> | ->]; (rewrite (proj2 (Z.eqb_neq i _)) by (by apply Hne, H0)); done. }
  assert (take 12 (machine_view (handle_sret s)) = take 12 (machine_view s)) as Et.
  { unfold handle_sret. cbv zeta. etrans; [exact (f_equal (take 12) (set_priv_view _ _))|done]. }
  rewrite <- (take_drop 12 (machine_view (handle_sret s))), <- (take_drop 12 (machine_view s)), Et.
  f_equal. exact (f_equal (fun x => [x]) Em).
Qed.

Section Platform.
Context {W : Type} `{plat : Platform W} {Hq : QuietPlatform plat}.

(** C9: an instruction of a mode below M changes no register of M-mode: the trap
    vector, the saved state of an exception, the delegation, the interrupt enables
    that are not delegated, the bits of mstatus that sstatus does not show, misa and
    MXL; the mode stays below M.  An instruction of U-mode changes no register of
    S-mode either (the trap vector, satp, all of mie and mstatus), and stays in
    U-mode.  The devices it reaches may change the interrupt lines only. *)
Theorem mode_isolation XLEN gpc ic insn (σ σ' : Sys W) lab :
  0 <= priv (cpu σ) <= PRV_S -> exec_insn XLEN gpc ic insn σ = Ok lab σ' ->
  machine_view (cpu σ') = machine_view (cpu σ) /\ 0 <= priv (cpu σ') <= PRV_S /\
  (priv (cpu σ) = PRV_U ->
   supervisor_view (cpu σ') = supervisor_view (cpu σ) /\ priv (cpu σ') = PRV_U).
Proof.
  intros Hp E.
  assert (forall P : RISCVCPUState -> Prop, keeps P (exec_insn XLEN gpc ic insn) -> P (cpu σ) -> P (cpu σ'))
    as Hkeep.
  { intros P Hk H. pose proof (Hk σ H) as H'. unfold wp in H'. by rewrite E in H'. }
  set (v := machine_view (cpu σ)). set (w := supervisor_view (cpu σ)).
  assert (below_M v (cpu σ')) as [Hv Hp'].
  { apply Hkeep; [|done]. pose proof (below_M_ordinary v) as Ho. apply keeps_exec_insn; [exact Ho| | | | |].
    - intros. apply quiet_keeps; [exact Ho|by intros ?? []|apply quiet_read].
    - intros. apply quiet_keeps; [exact Ho|by intros ?? []|apply quiet_write].
    - apply below_M_csr.
    - intros s [H _] _. split; [by rewrite sret_view|].
      destruct (sret_spec s) as (-> & _). apply (land_range _ 1). lia.
    - intros s [_ H] ?. unfold PRV_S, PRV_M in *. lia. }
  split; [exact Hv|]. split; [exact Hp'|]. intros HU.
  assert (in_U v w (cpu σ')) as (_ & ? & ?); [|done].
  apply Hkeep; [|done]. pose proof (in_U_ordinary v w) as Ho. apply keeps_exec_insn; [exact Ho| | | | |].
  - intros. apply quiet_keeps; [exact Ho|by intros ?? (? & ? & ?)|apply quiet_read].
  - intros. apply quiet_keeps; [exact Ho|by intros ?? (? & ? & ?)|apply quiet_write].
  - apply in_U_csr.
  - intros s (_ & _ & H) ?. unfold PRV_S, PRV_U in *. lia.
  - intros s (_ & _ & H) ?. unfold PRV_U, PRV_M in *. lia.
Qed.
End Platform.
End Isolation.

(** addi a0, a0, 1 in U-mode. *)
#[local] Instance empty_bus_quiet : @QuietPlatform cfg_rv64 unit empty_bus.
Proof. split; intros; apply quiet_ret. Qed.
Definition user_sys : Sys unit := mkSys user_cpu phys_mem_map_init ∅ tt.
Lemma mode_isolation_witness :
  exists σ', @exec_insn cfg_rv64 unit empty_bus 64 0x2000 0 0x00150513 user_sys = Ok (L_next 4) σ' /\
    reg_get (cpu σ') 10 = 1 /\ @machine_view cfg_rv64 (cpu σ') = @machine_view cfg_rv64 user_cpu.
Proof.
  destruct (@exec_insn cfg_rv64 unit empty_bus 64 0x2000 0 0x00150513 user_sys) as [lab σ'|] eqn:E;
    [|by vm_compute in E].
  exists σ'.
  destruct (@mode_isolation cfg_rv64 unit empty_bus empty_bus_quiet 64 0x2000 0 0x00150513 user_sys σ' lab)
    as (Hv & _); [by vm_compute|exact E|].
  vm_compute in E. injection E as <- <-. split; [done|]. split; [by vm_compute|exact Hv].
Defined.
