(* ===== verification/Cutils.v ===== *)
(** * Byte buffers (cutils.h: get_be32 .. put_be64, get_le16 .. put_le64)

    A [uint8_t] array is the list of its bytes.  A pointer into one is the array
    and an offset. *)
From S2P Require Export Prelude Monad.

Definition byte (d : list Z) (i : nat) : Z := nth i d 0.
(** memcpy(d + o, src, n), inside [d]. *)
Definition splice (o : nat) (src d : list Z) : list Z :=
  take o d ++ src ++ drop (o + length src) d.

(** ** Integers in memory.  The bytes are promoted to int. *)
Definition get_le16 (d : list Z) (o : nat) : Z := u16 (byte d o .| (byte d (o + 1) ≪ 8)).
Definition get_le32 (d : list Z) (o : nat) : Z :=
  u32 (byte d o .| (byte d (o + 1) ≪ 8) .| (byte d (o + 2) ≪ 16) .| i32 (byte d (o + 3) ≪ 24)).
Definition get_le64 (d : list Z) (o : nat) : Z :=
  get_le32 d o .| (get_le32 d (o + 4) ≪ 32).
Definition put_le16 (d : list Z) (o : nat) (v : Z) : list Z :=
  splice o [u8 v; u8 (v ≫ 8)] d.
Definition put_le32 (d : list Z) (o : nat) (v : Z) : list Z :=
  splice o [u8 v; u8 (v ≫ 8); u8 (v ≫ 16); u8 (v ≫ 24)] d.
Definition put_le64 (d : list Z) (o : nat) (v : Z) : list Z :=
  put_le32 (put_le32 d o (u32 v)) (o + 4) (u32 (v ≫ 32)).
Definition get_be32 (d : list Z) (o : nat) : Z :=
  u32 (i32 (byte d o ≪ 24) .| (byte d (o + 1) ≪ 16) .| (byte d (o + 2) ≪ 8) .| byte d (o + 3)).
Definition put_be32 (d : list Z) (o : nat) (v : Z) : list Z :=
  splice o [u8 (v ≫ 24); u8 (v ≫ 16); u8 (v ≫ 8); u8 (v ≫ 0)] d.
Definition put_be64 (d : list Z) (o : nat) (v : Z) : list Z :=
  put_be32 (put_be32 d o (u32 (v ≫ 32))) (o + 4) (u32 v).

(** cpu_to_be32 on a little-endian host: the value whose bytes in memory are the
    big-endian ones of [v]. *)
Definition bswap_32 (v : Z) : Z :=
  ((v .& 0xff000000) ≫ 24) .| ((v .& 0x00ff0000) ≫ 8) .|
  u32 ((v .& 0x0000ff00) ≪ 8) .| u32 ((v .& 0x000000ff) ≪ 24).
Definition cpu_to_be32 (v : Z) : Z := bswap_32 v.

Definition max_int (a b : Z) : Z := if b <? a then a else b.
Definition min_int (a b : Z) : Z := if a <? b then a else b.

(** ** Facts *)
Definition is_byte (x : Z) : Prop := fits 8 x.
Definition bytes (d : list Z) : Prop := Forall is_byte d.

(** Big-endian and little-endian values of byte strings. *)
Definition be_val (l : list Z) : Z := foldl (fun a b => a * 256 + b) 0 l.
Definition le_val (l : list Z) : Z := foldr (fun b a => b + 256 * a) 0 l.
(** The [n] bytes of [v], most significant first. *)
Fixpoint be_bytes (n : nat) (v : Z) : list Z :=
  match n with O => [] | S n' => u8 (v ≫ (8 * Z.of_nat n')) :: be_bytes n' v end.

Lemma length_splice o src d : (o + length src <= length d)%nat -> length (splice o src d) = length d.
Proof. intros. unfold splice. rewrite !length_app, length_take, length_drop. lia. Qed.
Lemma take_splice o src d : (o <= length d)%nat -> take (o + length src) (splice o src d) = take o d ++ src.
Proof.
  intros. unfold splice. rewrite app_assoc, take_app_length'; [done|].
  rewrite length_app, length_take. lia.
Qed.
Lemma take_splice_in k p d (l : list Z) : (p + length d <= k)%nat -> (k <= length l)%nat ->
  take k (splice p d l) = splice p d (take k l).
Proof.
  intros H Hk. unfold splice. rewrite take_app_ge, length_take, take_take by (rewrite length_take; lia).
  rewrite (Nat.min_l p k), (Nat.min_l p (length l)) by lia. f_equal. rewrite take_app_ge by lia. f_equal.
  rewrite skipn_firstn_comm. f_equal. lia.
Qed.
Lemma splice_all src d : length src = length d -> splice 0 src d = src.
Proof. intros E. unfold splice. rewrite take_0, drop_ge by lia. apply app_nil_r. Qed.
Lemma bytes_splice o src d : bytes src -> bytes d -> bytes (splice o src d).
Proof. intros. unfold splice, bytes. rewrite !Forall_app. auto using Forall_take, Forall_drop. Qed.
Lemma byte_fits d i : bytes d -> fits 8 (byte d i).
Proof.
  intros H. unfold byte. destruct (nth_in_or_default i d 0) as [Hin| ->]; [|by apply fits_0].
  by apply (proj1 (Forall_forall _ _) H).
Qed.
Lemma byte_app_l d1 d2 i : (i < length d1)%nat -> byte (d1 ++ d2) i = byte d1 i.
Proof. apply app_nth1. Qed.

(** The two forms of combining bytes. *)
Lemma lor_shift_add a b k : 0 <= k -> 0 <= a -> fits k b -> (a ≪ k) .| b = a * 2 ^ k + b.
Proof.
  intros Hk Ha Hb. pose proof (Z.add_lor_land (a ≪ k) b) as E. revert E.
  assert ((a ≪ k) .& b = 0) as ->.
  { apply Z.bits_inj'. intros i Hi. rewrite Z.land_spec, Z.shiftl_spec, Z.bits_0 by done.
    destruct (Z_lt_le_dec i k); [by rewrite Z.testbit_neg_r by lia|].
    by rewrite (fits_testbit k b i), andb_false_r. }
  rewrite Z.shiftl_mul_pow2 by done. intros E. lia.
Qed.
Lemma be32_val a b c d : fits 8 a -> fits 8 b -> fits 8 c -> fits 8 d ->
  u32 (i32 (a ≪ 24) .| (b ≪ 16) .| (c ≪ 8) .| d) = be_val [a; b; c; d].
Proof.
  intros Ha Hb Hc Hd. cbn.
  assert (u32 (i32 (a ≪ 24) .| (b ≪ 16) .| (c ≪ 8) .| d) = (a ≪ 24) .| ((b ≪ 16) .| ((c ≪ 8) .| d))) as ->.
  { rewrite <- !Z.lor_assoc. set (r := (b ≪ 16) .| ((c ≪ 8) .| d)).
    assert (fits 24 r) as Hr.
    { unfold r. rewrite (lor_shift_add c d 8), (lor_shift_add b) by
        (unfold fits in *; try lia). unfold fits in *; lia. }
    transitivity (u32 ((a ≪ 24) .| r)).
    - apply Z.bits_inj'. intros i Hi. rewrite !wrap_testbit, !Z.lor_spec by lia.
      destruct (Z.ltb_spec i 32); [|done]. cbn. f_equal.
      enough (u32 (i32 (a ≪ 24)) = u32 (a ≪ 24)) as E.
      { apply (f_equal (fun x => Z.testbit x i)) in E. rewrite !wrap_testbit in E by lia.
        destruct (Z.ltb_spec i 32); [exact E|lia]. }
      by apply wrap_swrap.
    - apply wrap_fits. rewrite lor_shift_add by (unfold fits in *; lia). unfold fits in *; lia. }
  rewrite (lor_shift_add c d 8), (lor_shift_add b _ 16), (lor_shift_add a _ 24) by
    (unfold fits in *; lia). unfold fits in *; lia.
Qed.
Lemma get_be32_val d o : bytes d -> get_be32 d o = be_val [byte d o; byte d (o + 1); byte d (o + 2); byte d (o + 3)].
Proof. intros. apply be32_val; by apply byte_fits. Qed.

Lemma length_be_bytes n v : length (be_bytes n v) = n.
Proof. induction n; simpl; congruence. Qed.
Lemma bytes_be_bytes n v : bytes (be_bytes n v).
Proof. induction n; simpl; constructor; [by apply fits_wrap|done]. Qed.
Lemma be_bytes_mod n m v : 8 * Z.of_nat n <= m -> be_bytes n (wrap m v) = be_bytes n v.
Proof.
  intros. induction n as [|n IH]; simpl; [done|]. rewrite IH by lia. f_equal.
  apply Z.bits_inj'. intros i Hi. rewrite !wrap_testbit, !Z.shiftr_spec, wrap_testbit by lia. zcases.
Qed.
Lemma be_bytes_app n m v : be_bytes (n + m) v = be_bytes n (v ≫ (8 * Z.of_nat m)) ++ be_bytes m v.
Proof.
  induction n as [|n IH]; simpl; [done|]. rewrite IH. f_equal.
  rewrite Z.shiftr_shiftr by lia. do 3 f_equal. lia.
Qed.
Lemma put_be32_bytes d o v : put_be32 d o v = splice o (be_bytes 4 v) d.
Proof. reflexivity. Qed.
Lemma splice_splice o a b d : (o + length a + length b <= length d)%nat ->
  splice (o + length a) b (splice o a d) = splice o (a ++ b) d.
Proof.
  intros. unfold splice at 1. rewrite take_splice by lia. unfold splice.
  rewrite <- !app_assoc. do 3 f_equal.
  rewrite (app_assoc (take o d)), drop_app, drop_ge, app_nil_l by
    (rewrite length_app, length_take; lia).
  rewrite drop_drop, length_app, length_app, length_take. f_equal. lia.
Qed.
Lemma put_be64_bytes d o v : (o + 8 <= length d)%nat -> put_be64 d o v = splice o (be_bytes 8 v) d.
Proof.
  intros. unfold put_be64. rewrite !put_be32_bytes.
  rewrite <- (length_be_bytes 4 (u32 (v ≫ 32))), splice_splice by (rewrite !length_be_bytes; lia).
  rewrite !length_be_bytes, !be_bytes_mod by lia. by rewrite (be_bytes_app 4 4).
Qed.

Lemma splice_nil o (d : list Z) : splice o [] d = d.
Proof. unfold splice. cbn [length app]. by rewrite Nat.add_0_r, take_drop. Qed.
(** Reading what was copied. *)
Lemma sub_splice o src (d : list Z) : (o + length src <= length d)%nat ->
  take (length src) (drop o (splice o src d)) = src.
Proof.
  intros H. unfold splice. rewrite drop_app_length' by (rewrite length_take; lia). apply take_app_length.
Qed.
Lemma sub_splice_other o src (d : list Z) i n : (o + length src <= length d)%nat ->
  (i + n <= o \/ o + length src <= i)%nat -> take n (drop i (splice o src d)) = take n (drop i d).
Proof.
  intros H Hd. apply list_eq. intros j. destruct (Nat.ltb_spec j n).
  2: { rewrite !lookup_ge_None_2; [done|rewrite length_take; lia..]. }
  rewrite !lookup_take_lt, !lookup_drop by done. unfold splice.
  destruct Hd.
  - rewrite lookup_app_l, lookup_take_lt by (rewrite ?length_take; lia). done.
  - rewrite app_assoc, lookup_app_r by (rewrite length_app, length_take; lia).
    rewrite lookup_drop, length_app, length_take. f_equal. lia.
Qed.

(** One byte of what was written. *)
Lemma byte_insert l i j v : (i < length l)%nat -> byte (<[i := v]> l) j = if decide (i = j) then v else byte l j.
Proof.
  intros H. unfold byte. rewrite !nth_lookup. case_decide as E.
  - subst. by rewrite list_lookup_insert_eq.
  - by rewrite list_lookup_insert_ne.
Qed.
Lemma byte_splice o src l j : (o + length src <= length l)%nat ->
  byte (splice o src l) j = if decide (o <= j < o + length src)%nat then byte src (j - o) else byte l j.
Proof.
  intros H. unfold byte, splice. rewrite !nth_lookup. destruct (decide (o <= j < o + length src)%nat) as [Hj|Hj].
  - rewrite lookup_app_r, lookup_app_l by (rewrite length_take; lia). rewrite length_take. do 2 f_equal. lia.
  - destruct (Nat.lt_ge_cases j o).
    + by rewrite lookup_app_l, lookup_take_lt by (rewrite ?length_take; lia).
    + rewrite app_assoc, lookup_app_r by (rewrite length_app, length_take; lia).
      rewrite lookup_drop, length_app, length_take. do 2 f_equal. lia.
Qed.

(** ** Reading what was stored *)
Lemma or_i32 x y : u32 (x .| i32 y) = u32 (x .| y).
Proof.
  apply Z.bits_inj'. intros i Hi. rewrite !wrap_testbit, !Z.lor_spec by lia. destruct (Z.ltb_spec i 32); [|done]. f_equal.
  assert (u32 (i32 y) = u32 y) as E by (apply wrap_swrap; lia). apply (f_equal (fun z => Z.testbit z i)) in E.
  rewrite !wrap_testbit in E by lia. destruct (Z.ltb_spec i 32); [cbn [andb] in E; by rewrite E|lia].
Qed.
(** A byte of a value, at its place. *)
Lemma byte_testbit v k i : 0 <= k -> 0 <= i -> Z.testbit (u8 (v ≫ k)) (i - k) = (k <=? i) && (i <? k + 8) && Z.testbit v i.
Proof.
  intros Hk Hi. destruct (Z.leb_spec k i); [|by rewrite Z.testbit_neg_r by lia]. rewrite wrap_testbit, Z.shiftr_spec by lia.
  replace (i - k + k) with i by lia. cbn [andb]. f_equal. zcases.
Qed.
Lemma byte_testbit_0 v i : 0 <= i -> Z.testbit (u8 v) i = (i <? 8) && Z.testbit v i.
Proof. intros Hi. by rewrite wrap_testbit by lia. Qed.
Lemma get_le16_bytes v r : get_le16 ([u8 v; u8 (v ≫ 8)] ++ r) 0 = u16 v.
Proof.
  unfold get_le16. unfold byte. cbn [app nth Nat.add]. apply Z.bits_inj'. intros i Hi.
  rewrite !wrap_testbit, Z.lor_spec, Z.shiftl_spec, byte_testbit_0, byte_testbit by lia.
  destruct (Z.testbit v i); rewrite ?andb_true_r, ?andb_false_r; [|done]. zcases.
Qed.
Lemma get_le32_bytes v r : get_le32 ([u8 v; u8 (v ≫ 8); u8 (v ≫ 16); u8 (v ≫ 24)] ++ r) 0 = u32 v.
Proof.
  unfold get_le32. unfold byte. cbn [app nth Nat.add]. rewrite or_i32. apply Z.bits_inj'. intros i Hi.
  rewrite !wrap_testbit, !Z.lor_spec, !Z.shiftl_spec, byte_testbit_0, !byte_testbit by lia.
  destruct (Z.testbit v i); rewrite ?andb_true_r, ?andb_false_r; [|done]. zcases.
Qed.
Lemma get_le16_at l o : get_le16 l o = get_le16 (drop o l) 0.
Proof. unfold get_le16, byte. by rewrite !nth_lookup, !lookup_drop, Nat.add_0_r. Qed.
Lemma get_le32_at l o k : get_le32 l (o + k) = get_le32 (drop o l) k.
Proof. unfold get_le32, byte. by rewrite !nth_lookup, !lookup_drop, !Nat.add_assoc. Qed.
Lemma le32_put l o v : (o + 4 <= length l)%nat -> fits 32 v -> get_le32 (put_le32 l o v) o = v.
Proof.
  intros Hl Hv. rewrite <- (Nat.add_0_r o) at 2. rewrite get_le32_at. unfold put_le32, splice.
  rewrite drop_app_length' by (rewrite length_take; lia). rewrite get_le32_bytes. by apply wrap_fits.
Qed.
Lemma le32_frame l l' o : (forall j, (o <= j < o + 4)%nat -> byte l j = byte l' j) -> get_le32 l o = get_le32 l' o.
Proof. intros H. unfold get_le32. by rewrite !H by lia. Qed.
Lemma le32_fits l o : fits 32 (get_le32 l o).
Proof. by apply fits_wrap. Qed.
Lemma get_le64_words v w r : w = v ≫ 32 ->
  get_le64 ([u8 v; u8 (v ≫ 8); u8 (v ≫ 16); u8 (v ≫ 24)] ++ [u8 w; u8 (w ≫ 8); u8 (w ≫ 16); u8 (w ≫ 24)] ++ r) 0 = u64 v.
Proof.
  intros ->. unfold get_le64. rewrite (get_le32_at _ 4 0), get_le32_bytes.
  rewrite (drop_app_length' [u8 v; _; _; _]) by done. rewrite get_le32_bytes.
  apply Z.bits_inj'. intros i Hi. rewrite Z.lor_spec, Z.shiftl_spec, !wrap_testbit by lia.
  destruct (Z.ltb_spec i 32) as [H|H].
  - rewrite (Z.testbit_neg_r _ (i - 32)), andb_false_r, orb_false_r by lia. by rewrite (proj2 (Z.ltb_lt i 64)) by lia.
  - rewrite Z.shiftr_spec by lia. replace (i - 32 + 32) with i by lia. cbn [andb orb]. f_equal. zcases.
Qed.
