(* ===== verification/Sha256.v ===== *)
(** * SHA-256 (sha256.c)

    The context is a record; a message is a list of bytes.  Both bodies of the
    compression are modelled: the loop of LTC_SMALL_CODE and the unrolled one. *)
From S2P Require Export Cutils.

Definition RORc (x y : Z) : Z := ((x ≫ (y .& 31)) .| u32 (x ≪ (32 - (y .& 31)))) .& 0xffffffff.
Definition Ch (x y z : Z) : Z := z .^ (x .& (y .^ z)).
Definition Maj (x y z : Z) : Z := ((x .| y) .& z) .| (x .& y).
Definition SHR (x n : Z) : Z := (x .& 0xffffffff) ≫ n.
Definition Sigma0 (x : Z) : Z := RORc x 2 .^ RORc x 13 .^ RORc x 22.
Definition Sigma1 (x : Z) : Z := RORc x 6 .^ RORc x 11 .^ RORc x 25.
Definition Gamma0 (x : Z) : Z := RORc x 7 .^ RORc x 18 .^ SHR x 3.
Definition Gamma1 (x : Z) : Z := RORc x 17 .^ RORc x 19 .^ SHR x 10.

Definition K : list Z :=
  [0x428a_2f98; 0x7137_4491; 0xb5c0_fbcf; 0xe9b5_dba5; 0x3956_c25b; 0x59f1_11f1;
   0x923f_82a4; 0xab1c_5ed5; 0xd807_aa98; 0x1283_5b01; 0x2431_85be; 0x550c_7dc3;
   0x72be_5d74; 0x80de_b1fe; 0x9bdc_06a7; 0xc19b_f174; 0xe49b_69c1; 0xefbe_4786;
   0x0fc1_9dc6; 0x240c_a1cc; 0x2de9_2c6f; 0x4a74_84aa; 0x5cb0_a9dc; 0x76f9_88da;
   0x983e_5152; 0xa831_c66d; 0xb003_27c8; 0xbf59_7fc7; 0xc6e0_0bf3; 0xd5a7_9147;
   0x06ca_6351; 0x1429_2967; 0x27b7_0a85; 0x2e1b_2138; 0x4d2c_6dfc; 0x5338_0d13;
   0x650a_7354; 0x766a_0abb; 0x81c2_c92e; 0x9272_2c85; 0xa2bf_e8a1; 0xa81a_664b;
   0xc24b_8b70; 0xc76c_51a3; 0xd192_e819; 0xd699_0624; 0xf40e_3585; 0x106a_a070;
   0x19a4_c116; 0x1e37_6c08; 0x2748_774c; 0x34b0_bcb5; 0x391c_0cb3; 0x4ed8_aa4a;
   0x5b9c_ca4f; 0x682e_6ff3; 0x748f_82ee; 0x78a5_636f; 0x84c8_7814; 0x8cc7_0208;
   0x90be_fffa; 0xa450_6ceb; 0xbef9_a3f7; 0xc671_78f2].

(** ** sha256_compress *)

(** W[0..15], then the loop that fills W[16..63]. *)
Definition load_W (buf : list Z) : list Z := map (fun i => get_be32 buf (4 * i)) (seq 0 16).
Definition fill_W (W : list Z) (i : nat) : list Z :=
  W ++ [u32 (Gamma1 (nth (i - 2) W 0) + nth (i - 7) W 0 + Gamma0 (nth (i - 15) W 0) + nth (i - 16) W 0)].
Definition schedule (buf : list Z) : list Z := foldl fill_W (load_W buf) (seq 16 48).

(** RND: [a .. h] are indices into S. *)
Definition RND (a b c d e f g h : nat) (W : list Z) (i : nat) (ki : Z) (S : list Z) : list Z :=
  let r j := nth j S 0 in
  let t0 := u32 (r h + Sigma1 (r e) + Ch (r e) (r f) (r g) + ki + nth i W 0) in
  let t1 := u32 (Sigma0 (r a) + Maj (r a) (r b) (r c)) in
  <[h := u32 (t0 + t1)]> (<[d := u32 (r d + t0)]> S).

(** LTC_SMALL_CODE: one round and the rotation of S. *)
Definition small_round (W S : list Z) (i : nat) : list Z :=
  let S := RND 0 1 2 3 4 5 6 7 W i (nth i K 0) S in
  let r j := nth j S 0 in
  [r 7; r 0; r 1; r 2; r 3; r 4; r 5; r 6]%nat.
Definition small_rounds (W S : list Z) : list Z := foldl (small_round W) S (seq 0 64).

(** Otherwise: the arguments of the 64 uses of RND. *)
Definition RND_calls : list (list nat * nat * Z) :=
  [
   ([0; 1; 2; 3; 4; 5; 6; 7]%nat, 0%nat, 0x428a2f98);
   ([7; 0; 1; 2; 3; 4; 5; 6]%nat, 1%nat, 0x71374491);
   ([6; 7; 0; 1; 2; 3; 4; 5]%nat, 2%nat, 0xb5c0fbcf);
   ([5; 6; 7; 0; 1; 2; 3; 4]%nat, 3%nat, 0xe9b5dba5);
   ([4; 5; 6; 7; 0; 1; 2; 3]%nat, 4%nat, 0x3956c25b);
   ([3; 4; 5; 6; 7; 0; 1; 2]%nat, 5%nat, 0x59f111f1);
   ([2; 3; 4; 5; 6; 7; 0; 1]%nat, 6%nat, 0x923f82a4);
   ([1; 2; 3; 4; 5; 6; 7; 0]%nat, 7%nat, 0xab1c5ed5);
   ([0; 1; 2; 3; 4; 5; 6; 7]%nat, 8%nat, 0xd807aa98);
   ([7; 0; 1; 2; 3; 4; 5; 6]%nat, 9%nat, 0x12835b01);
   ([6; 7; 0; 1; 2; 3; 4; 5]%nat, 10%nat, 0x243185be);
   ([5; 6; 7; 0; 1; 2; 3; 4]%nat, 11%nat, 0x550c7dc3);
   ([4; 5; 6; 7; 0; 1; 2; 3]%nat, 12%nat, 0x72be5d74);
   ([3; 4; 5; 6; 7; 0; 1; 2]%nat, 13%nat, 0x80deb1fe);
   ([2; 3; 4; 5; 6; 7; 0; 1]%nat, 14%nat, 0x9bdc06a7);
   ([1; 2; 3; 4; 5; 6; 7; 0]%nat, 15%nat, 0xc19bf174);
   ([0; 1; 2; 3; 4; 5; 6; 7]%nat, 16%nat, 0xe49b69c1);
   ([7; 0; 1; 2; 3; 4; 5; 6]%nat, 17%nat, 0xefbe4786);
   ([6; 7; 0; 1; 2; 3; 4; 5]%nat, 18%nat, 0x0fc19dc6);
   ([5; 6; 7; 0; 1; 2; 3; 4]%nat, 19%nat, 0x240ca1cc);
   ([4; 5; 6; 7; 0; 1; 2; 3]%nat, 20%nat, 0x2de92c6f);
   ([3; 4; 5; 6; 7; 0; 1; 2]%nat, 21%nat, 0x4a7484aa);
   ([2; 3; 4; 5; 6; 7; 0; 1]%nat, 22%nat, 0x5cb0a9dc);
   ([1; 2; 3; 4; 5; 6; 7; 0]%nat, 23%nat, 0x76f988da);
   ([0; 1; 2; 3; 4; 5; 6; 7]%nat, 24%nat, 0x983e5152);
   ([7; 0; 1; 2; 3; 4; 5; 6]%nat, 25%nat, 0xa831c66d);
   ([6; 7; 0; 1; 2; 3; 4; 5]%nat, 26%nat, 0xb00327c8);
   ([5; 6; 7; 0; 1; 2; 3; 4]%nat, 27%nat, 0xbf597fc7);
   ([4; 5; 6; 7; 0; 1; 2; 3]%nat, 28%nat, 0xc6e00bf3);
   ([3; 4; 5; 6; 7; 0; 1; 2]%nat, 29%nat, 0xd5a79147);
   ([2; 3; 4; 5; 6; 7; 0; 1]%nat, 30%nat, 0x06ca6351);
   ([1; 2; 3; 4; 5; 6; 7; 0]%nat, 31%nat, 0x14292967);
   ([0; 1; 2; 3; 4; 5; 6; 7]%nat, 32%nat, 0x27b70a85);
   ([7; 0; 1; 2; 3; 4; 5; 6]%nat, 33%nat, 0x2e1b2138);
   ([6; 7; 0; 1; 2; 3; 4; 5]%nat, 34%nat, 0x4d2c6dfc);
   ([5; 6; 7; 0; 1; 2; 3; 4]%nat, 35%nat, 0x53380d13);
   ([4; 5; 6; 7; 0; 1; 2; 3]%nat, 36%nat, 0x650a7354);
   ([3; 4; 5; 6; 7; 0; 1; 2]%nat, 37%nat, 0x766a0abb);
   ([2; 3; 4; 5; 6; 7; 0; 1]%nat, 38%nat, 0x81c2c92e);
   ([1; 2; 3; 4; 5; 6; 7; 0]%nat, 39%nat, 0x92722c85);
   ([0; 1; 2; 3; 4; 5; 6; 7]%nat, 40%nat, 0xa2bfe8a1);
   ([7; 0; 1; 2; 3; 4; 5; 6]%nat, 41%nat, 0xa81a664b);
   ([6; 7; 0; 1; 2; 3; 4; 5]%nat, 42%nat, 0xc24b8b70);
   ([5; 6; 7; 0; 1; 2; 3; 4]%nat, 43%nat, 0xc76c51a3);
   ([4; 5; 6; 7; 0; 1; 2; 3]%nat, 44%nat, 0xd192e819);
   ([3; 4; 5; 6; 7; 0; 1; 2]%nat, 45%nat, 0xd6990624);
   ([2; 3; 4; 5; 6; 7; 0; 1]%nat, 46%nat, 0xf40e3585);
   ([1; 2; 3; 4; 5; 6; 7; 0]%nat, 47%nat, 0x106aa070);
   ([0; 1; 2; 3; 4; 5; 6; 7]%nat, 48%nat, 0x19a4c116);
   ([7; 0; 1; 2; 3; 4; 5; 6]%nat, 49%nat, 0x1e376c08);
   ([6; 7; 0; 1; 2; 3; 4; 5]%nat, 50%nat, 0x2748774c);
   ([5; 6; 7; 0; 1; 2; 3; 4]%nat, 51%nat, 0x34b0bcb5);
   ([4; 5; 6; 7; 0; 1; 2; 3]%nat, 52%nat, 0x391c0cb3);
   ([3; 4; 5; 6; 7; 0; 1; 2]%nat, 53%nat, 0x4ed8aa4a);
   ([2; 3; 4; 5; 6; 7; 0; 1]%nat, 54%nat, 0x5b9cca4f);
   ([1; 2; 3; 4; 5; 6; 7; 0]%nat, 55%nat, 0x682e6ff3);
   ([0; 1; 2; 3; 4; 5; 6; 7]%nat, 56%nat, 0x748f82ee);
   ([7; 0; 1; 2; 3; 4; 5; 6]%nat, 57%nat, 0x78a5636f);
   ([6; 7; 0; 1; 2; 3; 4; 5]%nat, 58%nat, 0x84c87814);
   ([5; 6; 7; 0; 1; 2; 3; 4]%nat, 59%nat, 0x8cc70208);
   ([4; 5; 6; 7; 0; 1; 2; 3]%nat, 60%nat, 0x90befffa);
   ([3; 4; 5; 6; 7; 0; 1; 2]%nat, 61%nat, 0xa4506ceb);
   ([2; 3; 4; 5; 6; 7; 0; 1]%nat, 62%nat, 0xbef9a3f7);
   ([1; 2; 3; 4; 5; 6; 7; 0]%nat, 63%nat, 0xc67178f2)
  ].
Definition unrolled_round (W S : list Z) (call : list nat * nat * Z) : list Z :=
  let '(idx, i, ki) := call in
  let n j := nth j idx 0%nat in
  (RND (n 0) (n 1) (n 2) (n 3) (n 4) (n 5) (n 6) (n 7))%nat W i ki S.
Definition unrolled_rounds (W S : list Z) : list Z := foldl (unrolled_round W) S RND_calls.

(** The new state. *)
Definition sha256_compress (LTC_SMALL_CODE : bool) (state buf : list Z) : list Z :=
  let W := schedule buf in
  let S := (if LTC_SMALL_CODE then small_rounds else unrolled_rounds) W state in
  map (fun i => u32 (nth i state 0 + nth i S 0)) (seq 0 8).

(** ** The context *)
Record SHA256_CTX := mkCtx { sha_length : Z; state : list Z; curlen : nat; sha_buf : list Z }.

Section Sha256.
Context (LTC_SMALL_CODE : bool).
Local Abbreviation compress := (sha256_compress LTC_SMALL_CODE).
Implicit Types s : SHA256_CTX.

(** The buffer is not initialized: [buf0] is what it holds. *)
Definition SHA256_Init (buf0 : list Z) : SHA256_CTX :=
  mkCtx 0 [0x6A09E667; 0xBB67AE85; 0x3C6EF372; 0xA54FF53A;
           0x510E527F; 0x9B05688C; 0x1F83D9AB; 0x5BE0CD19] 0 buf0.

(** The loop.  [unsigned long] has at least 32 bits; min_int takes ints, and its
    result is converted back.  A negative result is a length beyond the buffer. *)
Fixpoint update_loop (fuel : nat) s (input : list Z) : res SHA256_CTX unit :=
  match input with
  | [] => Ok tt s
  | _ =>
    match fuel with
    | O => Stop StopFuel
    | S f =>
        let inlen := Z.of_nat (length input) in
        if (curlen s =? 0)%nat && (64 <=? inlen) then
          update_loop f (mkCtx (u64 (sha_length s + 64 * 8)) (compress (state s) input) (curlen s) (sha_buf s))
            (drop 64 input)
        else
          let n := min_int (i32 inlen) (i32 (64 - Z.of_nat (curlen s))) in
          if (n <? 0) || (64 <? Z.of_nat (curlen s) + n) then Stop StopFault
          else
            let n := Z.to_nat n in
            let buf := splice (curlen s) (take n input) (sha_buf s) in
            let cur := (curlen s + n)%nat in
            update_loop f
              (if (cur =? 64)%nat then mkCtx (u64 (sha_length s + 8 * 64)) (compress (state s) buf) 0 buf
               else mkCtx (sha_length s) (state s) cur buf)
              (drop n input)
    end
  end.
Definition SHA256_Update (input : list Z) : M SHA256_CTX unit := fun s =>
  if (64 <? curlen s)%nat then Stop StopAbort
  else if u64 (sha_length s + Z.of_nat (length input)) <? sha_length s then Stop StopAbort
  else update_loop (length input) s input.

(** [while (curlen < lim) buf[curlen++] = 0]; [n] is the number of iterations. *)
Fixpoint pad_zeros (n : nat) (o : nat) (buf : list Z) : list Z :=
  match n with O => buf | S n' => pad_zeros n' (o + 1) (splice o [0] buf) end.

Definition SHA256_Final : M SHA256_CTX (list Z) := fun s =>
  if (64 <=? curlen s)%nat then Stop StopAbort
  else
    let len := u64 (sha_length s + u32 (Z.of_nat (curlen s) * 8)) in
    let buf := splice (curlen s) [0x80] (sha_buf s) in
    let cur := (curlen s + 1)%nat in
    let '(st, cur, buf) :=
      if (56 <? cur)%nat then
        let buf := pad_zeros (64 - cur) cur buf in
        (compress (state s) buf, 0%nat, buf)
      else (state s, cur, buf) in
    let buf := pad_zeros (56 - cur) cur buf in
    let buf := put_be64 buf 56 len in
    let st := compress st buf in
    Ok (foldl (fun out i => put_be32 out (4 * i) (nth i st 0)) (replicate 32 0) (seq 0 8))
       (mkCtx len st 56 buf).

Definition SHA256 (buf0 : list Z) (buf : list Z) : res SHA256_CTX (list Z) :=
  (_ ← SHA256_Update buf; SHA256_Final) (SHA256_Init buf0).
End Sha256.
