(* ===== verification/Sha256Facts.v ===== *)
(** * The hash of sha256.c is SHA-256

    The reference is FIPS 180-4: arithmetic modulo 2^32, the functions of its
    section 4.1.2, the padding of section 5.1.1 and the computation of section 6.2. *)
From S2P Require Export Sha256.

(** ** The reference *)
Module Fips.
Definition add (x y : Z) : Z := (x + y) mod 2 ^ 32.
Definition rotr (n x : Z) : Z := x / 2 ^ n + (x mod 2 ^ n) * 2 ^ (32 - n).
Definition not (x : Z) : Z := 2 ^ 32 - 1 - x.
Definition ch (x y z : Z) : Z := (x .& y) .^ (not x .& z).
Definition maj (x y z : Z) : Z := (x .& y) .^ (x .& z) .^ (y .& z).
Definition S0 (x : Z) : Z := rotr 2 x .^ rotr 13 x .^ rotr 22 x.
Definition S1 (x : Z) : Z := rotr 6 x .^ rotr 11 x .^ rotr 25 x.
Definition s0 (x : Z) : Z := rotr 7 x .^ rotr 18 x .^ (x / 2 ^ 3).
Definition s1 (x : Z) : Z := rotr 17 x .^ rotr 19 x .^ (x / 2 ^ 10).

(** The schedule: the words of the block, then the recurrence. *)
Fixpoint words (n : nat) (block : list Z) : list Z :=
  match n with O => [] | S n' => be_val (take 4 block) :: words n' (drop 4 block) end.
Definition next_word (W : list Z) : Z :=
  let w k := nth (length W - k) W 0 in
  add (add (add (s1 (w 2%nat)) (w 7%nat)) (s0 (w 15%nat))) (w 16%nat).
Definition message_schedule (block : list Z) : list Z :=
  Nat.iter 48 (fun W => W ++ [next_word W]) (words 16 block).

(** The eight working variables. *)
Record vars := V { a : Z; b : Z; c : Z; d : Z; e : Z; f : Z; g : Z; h : Z }.
Definition round (v : vars) (kw : Z * Z) : vars :=
  let T1 := add (add (add (add (h v) (S1 (e v))) (ch (e v) (f v) (g v))) kw.1) kw.2 in
  let T2 := add (S0 (a v)) (maj (a v) (b v) (c v)) in
  V (add T1 T2) (a v) (b v) (c v) (add (d v) T1) (e v) (f v) (g v).
Definition block_hash (H : vars) (block : list Z) : vars :=
  let v := foldl round H (zip K (message_schedule block)) in
  V (add (a H) (a v)) (add (b H) (b v)) (add (c H) (c v)) (add (d H) (d v))
    (add (e H) (e v)) (add (f H) (f v)) (add (g H) (g v)) (add (h H) (h v)).
Definition H0 : vars :=
  V 0x6A09E667 0xBB67AE85 0x3C6EF372 0xA54FF53A 0x510E527F 0x9B05688C 0x1F83D9AB 0x5BE0CD19.

(** A one bit, zeros up to 8 bytes short of a whole block, the length in bits. *)
Definition pad (m : list Z) : list Z :=
  m ++ [0x80] ++ replicate (Z.to_nat ((55 - Z.of_nat (length m)) mod 64)) 0 ++
  be_bytes 8 (8 * Z.of_nat (length m)).
Fixpoint blocks (n : nat) (m : list Z) : list (list Z) :=
  match n with O => [] | S n' => take 64 m :: blocks n' (drop 64 m) end.
Definition hash_blocks (m : list Z) : vars :=
  foldl block_hash H0 (blocks (length m / 64) m).
Definition out (v : vars) : list Z :=
  concat (map (be_bytes 4) [a v; b v; c v; d v; e v; f v; g v; h v]).
Definition sha256 (m : list Z) : list Z := out (hash_blocks (pad m)).
Definition words_of (v : vars) : list Z := [a v; b v; c v; d v; e v; f v; g v; h v].
Definition ok (v : vars) : Prop := Forall (fits 32) (words_of v).
End Fips.

(** ** The logical functions *)
Lemma add_fits x y : fits 32 (Fips.add x y).
Proof. by apply fits_wrap. Qed.
Lemma add_u32 x y : Fips.add x y = u32 (x + y).
Proof. done. Qed.
Lemma u32_add_l x y : u32 (u32 x + y) = u32 (x + y).
Proof. unfold wrap. by rewrite Zplus_mod_idemp_l. Qed.
Lemma u32_add_r x y : u32 (x + u32 y) = u32 (x + y).
Proof. unfold wrap. by rewrite Zplus_mod_idemp_r. Qed.
Lemma u32_add_m x y z : u32 (x + (u32 y + z)) = u32 (x + (y + z)).
Proof. by rewrite <- u32_add_r, u32_add_l, u32_add_r. Qed.

(** Sums modulo 2^32, with the inner conversions removed. *)
Ltac sum32 := rewrite ?add_u32; repeat first
  [rewrite u32_add_l | rewrite u32_add_r | rewrite u32_add_m | rewrite <- Z.add_assoc ].

Lemma RORc_rotr x n : fits 32 x -> 0 < n < 32 -> RORc x n = Fips.rotr n x.
Proof.
  intros Hx Hn. unfold RORc, Fips.rotr. change 31 with (Z.ones 5). change 0xffffffff with (Z.ones 32).
  rewrite (Z.land_ones n 5), (Z.mod_small n) by lia.
  assert (fits 32 ((x ≫ n) .| u32 (x ≪ (32 - n)))) as Hf.
  { apply fits_lor; [apply fits_shiftr; [lia|done]|by apply fits_wrap]. }
  rewrite Z.land_ones, Z.mod_small by (lia || apply Hf).
  assert (u32 (x ≪ (32 - n)) = (x mod 2 ^ n) ≪ (32 - n)) as ->.
  { apply Z.bits_inj'. intros i Hi. rewrite wrap_testbit, !Z.shiftl_spec, Z.testbit_mod_pow2 by lia. zcases. }
  rewrite Z.lor_comm, lor_shift_add.
  - rewrite Z.shiftr_div_pow2 by lia. lia.
  - lia.
  - apply Z.mod_pos_bound. lia.
  - rewrite Z.shiftr_div_pow2 by lia. destruct Hx as [? Hx]. split; [apply Z.div_pos; lia|].
    apply Z.div_lt_upper_bound; [lia|]. rewrite <- Z.pow_add_r by lia.
    by replace (n + (32 - n)) with 32 by lia.
Qed.
Lemma rotr_fits x n : fits 32 x -> 0 < n < 32 -> fits 32 (Fips.rotr n x).
Proof.
  intros. rewrite <- RORc_rotr by done. unfold RORc. apply fits_land_r. split; vm_compute; congruence.
Qed.
Lemma SHR_div x n : fits 32 x -> 0 <= n -> SHR x n = x / 2 ^ n.
Proof.
  intros Hx Hn. unfold SHR. change 0xffffffff with (Z.ones 32).
  rewrite Z.land_ones, Z.mod_small by (lia || apply Hx). by apply Z.shiftr_div_pow2.
Qed.
Lemma not_lnot x : fits 32 x -> Fips.not x = u32 (Z.lnot x).
Proof.
  intros [??]. unfold Fips.not, wrap, Z.lnot. apply (Z.mod_unique_pos _ _ (-1)); lia.
Qed.
Lemma Ch_ch x y z : fits 32 x -> fits 32 z -> Ch x y z = Fips.ch x y z.
Proof.
  intros Hx Hz. unfold Ch, Fips.ch. rewrite not_lnot by done. apply Z.bits_inj'. intros i Hi.
  rewrite !Z.lxor_spec, !Z.land_spec, Z.lxor_spec, wrap_testbit, Z.lnot_spec by lia.
  destruct (Z.ltb_spec i 32); [|rewrite (fits_testbit 32 x), (fits_testbit 32 z) by (done || lia)];
    by destruct (Z.testbit x i), (Z.testbit y i), (Z.testbit z i).
Qed.
Lemma Maj_maj x y z : Maj x y z = Fips.maj x y z.
Proof.
  unfold Maj, Fips.maj. apply Z.bits_inj'. intros i Hi.
  rewrite Z.lor_spec, !Z.land_spec, Z.lor_spec, !Z.lxor_spec, !Z.land_spec.
  by destruct (Z.testbit x i), (Z.testbit y i), (Z.testbit z i).
Qed.
Lemma Sigmas x : fits 32 x ->
  Sigma0 x = Fips.S0 x /\ Sigma1 x = Fips.S1 x /\ Gamma0 x = Fips.s0 x /\ Gamma1 x = Fips.s1 x.
Proof.
  intros Hx. unfold Sigma0, Sigma1, Gamma0, Gamma1, Fips.S0, Fips.S1, Fips.s0, Fips.s1.
  rewrite !RORc_rotr, !SHR_div by (done || lia). done.
Qed.

(** ** The schedule *)
Lemma words_load buf : bytes buf -> (64 <= length buf)%nat -> load_W buf = Fips.words 16 buf.
Proof.
  intros Hb Hl. unfold load_W.
  enough (forall n k, (4 * (k + n) <= length buf)%nat ->
    map (fun i => get_be32 buf (4 * i)) (seq k n) = Fips.words n (drop (4 * k) buf)) as H.
  { apply (H 16%nat 0%nat). lia. }
  induction n as [|n IH]; intros k Hk; [done|]. cbn [seq map Fips.words]. f_equal.
  - rewrite get_be32_val by done. unfold byte.
    do 4 (rewrite (nth_lookup buf)).
    assert (forall i, (i < length buf)%nat -> exists x, buf !! i = Some x) as Hx by (intros; by apply lookup_lt_is_Some_2).
    destruct (Hx (4 * k)%nat ltac:(lia)) as [x0 E0], (Hx (4 * k + 1)%nat ltac:(lia)) as [x1 E1],
      (Hx (4 * k + 2)%nat ltac:(lia)) as [x2 E2], (Hx (4 * k + 3)%nat ltac:(lia)) as [x3 E3].
    rewrite E0, E1, E2, E3. cbn [default]. f_equal.
    rewrite (drop_S _ _ _ E0). replace (S (4 * k)) with (4 * k + 1)%nat by lia. rewrite (drop_S _ _ _ E1).
    replace (S (4 * k + 1)) with (4 * k + 2)%nat by lia. rewrite (drop_S _ _ _ E2).
    replace (S (4 * k + 2)) with (4 * k + 3)%nat by lia. by rewrite (drop_S _ _ _ E3).
  - rewrite IH by lia. f_equal. rewrite drop_drop. f_equal. lia.
Qed.

Lemma words_fits n block : bytes block -> Forall (fits 32) (Fips.words n block).
Proof.
  revert block. induction n as [|n IH]; intros block Hb; cbn [Fips.words]; constructor;
    [|apply IH; by apply Forall_drop].
  assert (bytes (take 4 block)) as H4 by (by apply Forall_take).
  assert (length (take 4 block) <= 4)%nat as Hl by (rewrite length_take; lia).
  revert H4 Hl. generalize (take 4 block). clear. intros l Hb Hl.
  destruct l as [|a [|b [|c [|d [|]]]]]; cbn in Hl; try lia;
    unfold bytes in Hb; repeat match goal with H : Forall _ (_ :: _) |- _ => apply Forall_cons_1 in H as [[??] H] end;
    unfold be_val; cbn [foldl]; split; lia.
Qed.
Lemma length_words n block : length (Fips.words n block) = n.
Proof. revert block. induction n; intros; simpl; congruence. Qed.

Lemma nth_fits l i : Forall (fits 32) l -> fits 32 (nth i l 0).
Proof.
  intros H. destruct (nth_in_or_default i l 0) as [Hin| ->]; [|by apply fits_0].
  by apply (proj1 (Forall_forall _ _) H).
Qed.
Lemma next_word_fill W : Forall (fits 32) W -> (16 <= length W)%nat ->
  fill_W W (length W) = W ++ [Fips.next_word W].
Proof.
  intros HW Hl. unfold fill_W, Fips.next_word. do 2 f_equal.
  destruct (Sigmas (nth (length W - 2) W 0)) as (_ & _ & _ & ->); [by apply nth_fits|].
  destruct (Sigmas (nth (length W - 15) W 0)) as (_ & _ & -> & _); [by apply nth_fits|].
  by sum32.
Qed.
Lemma schedule_correct buf : bytes buf -> (64 <= length buf)%nat ->
  schedule buf = Fips.message_schedule buf /\ Forall (fits 32) (schedule buf) /\ length (schedule buf) = 64%nat.
Proof.
  intros Hb Hl. unfold schedule, Fips.message_schedule. rewrite words_load by done.
  pose proof (words_fits 16 buf Hb) as Hw. pose proof (length_words 16 buf) as Hlw. revert Hw Hlw.
  generalize (Fips.words 16 buf). intros W HW HlW.
  enough (forall n, let W' := foldl fill_W W (seq 16 n) in
    W' = Nat.iter n (fun W => W ++ [Fips.next_word W]) W /\ Forall (fits 32) W' /\ length W' = (16 + n)%nat) as H
    by apply (H 48%nat).
  induction n as [|n IH]; intros W'; [done|]. subst W'.
  rewrite seq_S, foldl_app. cbn [foldl]. destruct IH as (E & Hf & Hn). rewrite Nat.iter_succ, <- E.
  rewrite <- Hn, next_word_fill by (done || lia).
  rewrite length_app, Hn. cbn [length]. split; [done|]. split; [|lia].
  apply Forall_app. split; [done|]. constructor; [apply add_fits|constructor].
Qed.

(** ** The rounds *)

(** The variables as the list that the compression keeps, after [r] rounds of the
    unrolled body: the variable [a] is then S[-r mod 8]. *)
Definition rotated (r : nat) (v : Fips.vars) : list Z :=
  let l := Fips.words_of v in drop r l ++ take r l.

Lemma round_ok v kw : Fips.ok v -> fits 32 kw.2 -> Fips.ok (Fips.round v kw).
Proof.
  intros H Hw. destruct v. unfold Fips.ok, Fips.words_of in *. cbn in *.
  repeat match goal with H : Forall _ (_ :: _) |- _ => apply Forall_cons_1 in H as [? H] end.
  repeat (apply Forall_cons_2; [first [assumption | apply add_fits]|]). constructor.
Qed.

(** One RND on the variables, for any place [idx] of the eight variables. *)
Lemma RND_values v k i W x t : Fips.ok v -> Forall (fits 32) W ->
  x = nth i W 0 ->
  t = Fips.round v (k, x) ->
  u32 (u32 (Fips.h v + Sigma1 (Fips.e v) + Ch (Fips.e v) (Fips.f v) (Fips.g v) + k + nth i W 0) +
       u32 (Sigma0 (Fips.a v) + Maj (Fips.a v) (Fips.b v) (Fips.c v))) = Fips.a t /\
  u32 (Fips.d v + u32 (Fips.h v + Sigma1 (Fips.e v) + Ch (Fips.e v) (Fips.f v) (Fips.g v) + k + nth i W 0)) = Fips.e t.
Proof.
  intros Hv HW -> ->. destruct v as [a b c d e f g h]. unfold Fips.ok, Fips.words_of in Hv. cbn in *.
  repeat match goal with H : Forall _ (_ :: _) |- _ => apply Forall_cons_1 in H as [? H] end.
  destruct (Sigmas a) as (-> & _); [done|]. destruct (Sigmas e) as (_ & -> & _); [done|].
  rewrite Ch_ch, Maj_maj by done. split; by sum32.
Qed.

Lemma small_round_ok v i W : Fips.ok v -> Forall (fits 32) W ->
  small_round W (Fips.words_of v) i = Fips.words_of (Fips.round v (nth i K 0, nth i W 0)).
Proof.
  intros Hv HW. destruct (RND_values v (nth i K 0) i W _ _ Hv HW eq_refl eq_refl) as [Ea Ee].
  set (t := Fips.round v _) in *. unfold small_round, RND, Fips.words_of.
  cbn [nth insert list_insert]. rewrite Ea, Ee. done.
Qed.
Definition places (r : nat) : list nat := map (fun j => (j + 8 - r) mod 8)%nat (seq 0 8).
Lemma unrolled_round_ok v i W r : Fips.ok v -> Forall (fits 32) W -> (r < 8)%nat ->
  unrolled_round W (rotated r v) (places r, i, nth i K 0) =
  rotated ((r + 1) mod 8) (Fips.round v (nth i K 0, nth i W 0)).
Proof.
  intros Hv HW Hr. destruct (RND_values v (nth i K 0) i W _ _ Hv HW eq_refl eq_refl) as [Ea Ee].
  set (t := Fips.round v _) in *. unfold unrolled_round, RND.
  assert (Fips.b t = Fips.a v /\ Fips.c t = Fips.b v /\ Fips.d t = Fips.c v /\
          Fips.f t = Fips.e v /\ Fips.g t = Fips.f v /\ Fips.h t = Fips.g v) as (Eb & Ec & Ed & Ef & Eg & Eh) by done.
  unfold rotated, Fips.words_of. rewrite Eb, Ec, Ed, Ef, Eg, Eh, <- Ea, <- Ee.
  do 8 (destruct r as [|r]; [reflexivity|]). lia.
Qed.
Lemma RND_calls_places : RND_calls = map (fun i => (places (i mod 8), i, nth i K 0)) (seq 0 64).
Proof. vm_compute. reflexivity. Qed.

Lemma zip_nth (l k : list Z) n : length l = n -> length k = n ->
  zip l k = map (fun i => (nth i l 0, nth i k 0)) (seq 0 n).
Proof.
  revert l k. induction n as [|n IH]; intros [|x l] [|y k]; try done. cbn. intros [= Hl] [= Hk].
  f_equal. rewrite <- seq_shift, map_map. by apply IH.
Qed.

Lemma rounds_ok small v W : Fips.ok v -> Forall (fits 32) W -> length W = 64%nat ->
  let t := foldl Fips.round v (zip K W) in
  (if small : bool then small_rounds else unrolled_rounds) W (Fips.words_of v) = Fips.words_of t /\ Fips.ok t.
Proof.
  intros Hv HW Hl t. unfold t. rewrite (zip_nth K W 64) by done.
  set (kw := fun i => (nth i K 0, nth i W 0)).
  assert (forall n, Fips.ok (foldl Fips.round v (map kw (seq 0 n)))) as Hok.
  { induction n as [|n IH]; [done|]. rewrite seq_S, map_app, foldl_app. cbn [map foldl].
    apply round_ok; [done|]. by apply nth_fits. }
  split; [|apply Hok]. destruct small.
  - unfold small_rounds. generalize 64%nat. induction n as [|n IH]; [done|].
    rewrite seq_S, map_app, !foldl_app, IH. cbn [map foldl]. by apply small_round_ok.
  - unfold unrolled_rounds. rewrite RND_calls_places.
    enough (forall n, foldl (unrolled_round W) (Fips.words_of v)
        (map (fun i => (places (i mod 8), i, nth i K 0)) (seq 0 n)) =
      rotated (n mod 8) (foldl Fips.round v (map kw (seq 0 n)))) as H.
    { rewrite H. change (64 mod 8)%nat with 0%nat. unfold rotated. apply app_nil_r. }
    induction n as [|n IH]; [symmetry; apply app_nil_r|].
    rewrite seq_S, !map_app, !foldl_app, IH. cbn [map foldl].
    rewrite unrolled_round_ok by (done || by apply Nat.mod_upper_bound).
    f_equal. change 8%nat with (2 * 4)%nat.
    replace (0 + n + 1)%nat with (S n) by lia. rewrite Nat.Div0.add_mod_idemp_l. f_equal; lia.
Qed.

Lemma ok_adds v t : Fips.ok (Fips.V (Fips.add (Fips.a v) (Fips.a t)) (Fips.add (Fips.b v) (Fips.b t))
  (Fips.add (Fips.c v) (Fips.c t)) (Fips.add (Fips.d v) (Fips.d t)) (Fips.add (Fips.e v) (Fips.e t))
  (Fips.add (Fips.f v) (Fips.f t)) (Fips.add (Fips.g v) (Fips.g t)) (Fips.add (Fips.h v) (Fips.h t))).
Proof. repeat (apply Forall_cons_2; [apply add_fits|]). constructor. Qed.
Lemma compress_correct small v buf : Fips.ok v -> bytes buf -> (64 <= length buf)%nat ->
  sha256_compress small (Fips.words_of v) buf = Fips.words_of (Fips.block_hash v buf) /\
  Fips.ok (Fips.block_hash v buf).
Proof.
  intros Hv Hb Hl. destruct (schedule_correct buf Hb Hl) as (Es & Hf & Hn).
  unfold sha256_compress.
  destruct (rounds_ok small v (schedule buf) Hv Hf Hn) as [-> _].
  unfold Fips.block_hash. rewrite <- Es. split; [reflexivity|]. apply ok_adds.
Qed.

(** ** Blocks *)
Lemma words_take n block k : (4 * n <= k)%nat -> Fips.words n (take k block) = Fips.words n block.
Proof.
  revert block k. induction n as [|n IH]; intros block k Hk; [done|]. cbn [Fips.words].
  rewrite take_take, Nat.min_l by lia. f_equal. rewrite skipn_firstn_comm. apply IH. lia.
Qed.
Lemma block_hash_take v buf : Fips.block_hash v (take 64 buf) = Fips.block_hash v buf.
Proof. unfold Fips.block_hash, Fips.message_schedule. by rewrite words_take by lia. Qed.
Lemma blocks_app n m k : (64 * n <= length m)%nat -> Fips.blocks n (m ++ k) = Fips.blocks n m.
Proof.
  revert m. induction n as [|n IH]; intros m Hm; [done|]. cbn [Fips.blocks].
  rewrite take_app_le, drop_app_le by lia. f_equal. apply IH. rewrite length_drop. lia.
Qed.
Lemma blocks_snoc n m : Fips.blocks (S n) m = Fips.blocks n m ++ [take 64 (drop (64 * n) m)].
Proof.
  revert m. induction n as [|n IH]; intros m; [by rewrite Nat.mul_0_r, drop_0|].
  cbn [Fips.blocks app]. f_equal. change (take 64 (drop 64 m) :: Fips.blocks n (drop 64 (drop 64 m)))
    with (Fips.blocks (S n) (drop 64 m)). rewrite IH, drop_drop. cbn [Fips.blocks]. do 4 f_equal. lia.
Qed.
Lemma hash_blocks_app m k : (length m mod 64 = 0)%nat -> length k = 64%nat ->
  Fips.hash_blocks (m ++ k) = Fips.block_hash (Fips.hash_blocks m) k.
Proof.
  intros Hm Hk. apply Nat.Div0.mod_divides in Hm as [n Hn]. unfold Fips.hash_blocks.
  rewrite length_app, Hk. replace (length m / 64)%nat with n by (rewrite Hn, Nat.mul_comm, Nat.div_mul; lia).
  replace ((length m + 64) / 64)%nat with (S n) by
    (replace (length m + 64)%nat with (S n * 64)%nat by lia; rewrite Nat.div_mul; lia).
  rewrite blocks_snoc, blocks_app, foldl_app by lia. cbn [foldl].
  rewrite drop_app_ge, Hn by lia. replace (64 * n - 64 * n)%nat with 0%nat by lia.
  rewrite drop_0, take_ge by lia. done.
Qed.
Lemma block_hash_ok v k : Fips.ok (Fips.block_hash v k).
Proof. apply ok_adds. Qed.
Lemma hash_blocks_ok m : Fips.ok (Fips.hash_blocks m).
Proof.
  unfold Fips.hash_blocks. generalize (Fips.blocks (length m / 64) m). intros l. induction l as [|k l _] using rev_ind.
  - repeat (apply Forall_cons_2; [split; vm_compute; congruence|]). constructor.
  - rewrite foldl_app. apply block_hash_ok.
Qed.

(** ** The context of a message *)
Definition rep (s : SHA256_CTX) (m : list Z) : Prop := exists whole tail,
  m = whole ++ tail /\ (length whole mod 64 = 0)%nat /\ (length tail < 64)%nat /\
  curlen s = length tail /\ take (curlen s) (sha_buf s) = tail /\
  length (sha_buf s) = 64%nat /\ bytes (sha_buf s) /\
  state s = Fips.words_of (Fips.hash_blocks whole) /\
  sha_length s = 8 * Z.of_nat (length whole).

Lemma rep_init buf0 : length buf0 = 64%nat -> bytes buf0 -> rep (SHA256_Init buf0) [].
Proof. intros. exists [], []. split; [done|]. do 4 (split; [by cbn; try lia|]). done. Qed.

Lemma length_whole_app (whole k : list Z) : (length whole mod 64 = 0)%nat -> length k = 64%nat ->
  (length (whole ++ k) mod 64 = 0)%nat.
Proof.
  intros H Hk. rewrite length_app, Hk. apply Nat.Div0.mod_divides in H as [c Hc]. rewrite Hc.
  replace (64 * c + 64)%nat with ((c + 1) * 64)%nat by lia. apply Nat.Div0.mod_mul.
Qed.

(** A whole block of the input. *)
Lemma rep_block small s m input : rep s m -> curlen s = 0%nat -> bytes input -> (64 <= length input)%nat ->
  8 * Z.of_nat (length m + 64) < 2 ^ 64 ->
  rep (mkCtx (u64 (sha_length s + 64 * 8)) (sha256_compress small (state s) input) (curlen s) (sha_buf s))
    (m ++ take 64 input).
Proof.
  intros (whole & tail & -> & Hwh & Htl & Hcur & Htake & Hbl & Hbb & Hst & Hsl) H0 Hb Hl Htot.
  assert (tail = []) as -> by (destruct tail; [done|simpl in Hcur; lia]).
  rewrite app_nil_r in *. set (blk := take 64 input).
  assert (length blk = 64%nat) as Hblk by (unfold blk; rewrite length_take; lia).
  exists (whole ++ blk), []. cbn [curlen sha_buf state sha_length].
  split; [by rewrite app_nil_r|]. split; [by apply length_whole_app|]. do 5 (split; [done|]). split.
  - rewrite Hst, hash_blocks_app by done. unfold blk. rewrite block_hash_take.
    apply compress_correct; [apply hash_blocks_ok|done|lia].
  - rewrite Hsl, length_app, Hblk, wrap_fits; [lia|]. unfold fits. lia.
Qed.
(** Bytes that go through the buffer. *)
Lemma rep_part small s m part : rep s m -> bytes part -> (curlen s + length part <= 64)%nat ->
  8 * Z.of_nat (length m + length part) < 2 ^ 64 ->
  let buf := splice (curlen s) part (sha_buf s) in
  let cur := (curlen s + length part)%nat in
  rep (if (cur =? 64)%nat
       then mkCtx (u64 (sha_length s + 8 * 64)) (sha256_compress small (state s) buf) 0 buf
       else mkCtx (sha_length s) (state s) cur buf) (m ++ part).
Proof.
  intros (whole & tail & -> & Hwh & Htl & Hcur & Htake & Hbl & Hbb & Hst & Hsl) Hb Hl Htot buf cur.
  rewrite length_app in Htot.
  assert (length buf = 64%nat) as Hbuf by (unfold buf; rewrite length_splice; lia).
  assert (bytes buf) as Hbbuf by by apply bytes_splice.
  assert (take cur buf = tail ++ part) as Htk by (unfold buf, cur; rewrite take_splice, Htake by lia; done).
  destruct (Nat.eqb_spec cur 64) as [E64|N64].
  - assert (buf = tail ++ part) as Ebuf by (rewrite <- Htk, E64, take_ge; [done|lia]).
    exists (whole ++ buf), []. cbn [curlen sha_buf state sha_length].
    split; [by rewrite app_nil_r, Ebuf, app_assoc|]. split; [by apply length_whole_app|].
    do 5 (split; [by cbn; try lia|]). split.
    + rewrite Hst, hash_blocks_app by done. apply compress_correct; [apply hash_blocks_ok|done|lia].
    + rewrite Hsl, length_app, Hbuf, wrap_fits; [lia|]. unfold fits. lia.
  - exists whole, (tail ++ part). cbn [curlen sha_buf state sha_length].
    split; [by rewrite app_assoc|]. split; [done|]. rewrite length_app. split; [lia|].
    split; [lia|]. do 3 (split; [done|]). done.
Qed.
Lemma rep_curlen s m : rep s m -> (curlen s < 64)%nat /\ length (sha_buf s) = 64%nat /\
  0 <= sha_length s <= 8 * Z.of_nat (length m).
Proof.
  intros (whole & tail & -> & ? & ? & ? & ? & ? & ? & ? & ->). rewrite length_app. lia.
Qed.

Lemma update_loop_rep small fuel s m input :
  rep s m -> bytes input -> (length input <= fuel)%nat -> Z.of_nat (length input) < 2 ^ 31 ->
  8 * Z.of_nat (length (m ++ input)) < 2 ^ 64 ->
  exists s', update_loop small fuel s input = Ok tt s' /\ rep s' (m ++ input).
Proof.
  revert s m input. induction fuel as [|fuel IH]; intros s m input Hrep Hb Hfuel Hlen Htot.
  { destruct input; [|simpl in Hfuel; lia]. exists s. rewrite app_nil_r. done. }
  destruct input as [|x input0] eqn:Ein; [exists s; rewrite app_nil_r; done|]. rewrite <- Ein in *.
  assert (0 < length input)%nat as Hpos by (subst; simpl; lia).
  cbn [update_loop]. rewrite Ein. rewrite <- Ein. clear x input0 Ein.
  destruct (rep_curlen _ _ Hrep) as (Hcur & Hbl & _). rewrite length_app in Htot.
  assert (forall k s1, (1 <= k <= length input)%nat -> rep s1 (m ++ take k input) ->
    exists s', update_loop small fuel s1 (drop k input) = Ok tt s' /\ rep s' (m ++ input)) as Hgo.
  { intros k s1 Hk Hr1. destruct (IH s1 _ (drop k input) Hr1) as (s' & E & Hr).
    - by apply Forall_drop.
    - rewrite length_drop. lia.
    - rewrite length_drop. lia.
    - rewrite !length_app, length_drop, length_take. lia.
    - exists s'. split; [exact E|]. by rewrite <- app_assoc, take_drop in Hr. }
  destruct ((curlen s =? 0)%nat && (64 <=? Z.of_nat (length input))) eqn:Eblk.
  - apply andb_prop in Eblk as [E0%Nat.eqb_eq E64%Z.leb_le].
    apply Hgo; [lia|]. apply rep_block; [done..|lia|lia].
  - set (n := min_int (i32 (Z.of_nat (length input))) (i32 (64 - Z.of_nat (curlen s)))).
    assert (n = Z.min (Z.of_nat (length input)) (64 - Z.of_nat (curlen s))) as En.
    { unfold n, min_int. rewrite !swrap_id by lia. zcases. }
    rewrite (proj2 (Z.ltb_ge n 0)), (proj2 (Z.ltb_ge 64 _)) by lia. cbn [orb].
    assert (length (take (Z.to_nat n) input) = Z.to_nat n) as Hk by (rewrite length_take; lia).
    apply Hgo; [lia|]. pose proof (rep_part small s m (take (Z.to_nat n) input)) as Hp.
    cbv zeta in Hp. rewrite Hk in Hp. apply Hp; [done|by apply Forall_take|lia|lia].
Qed.
Lemma update_rep small s m input :
  rep s m -> bytes input -> Z.of_nat (length input) < 2 ^ 31 ->
  8 * Z.of_nat (length (m ++ input)) < 2 ^ 64 ->
  exists s', SHA256_Update small input s = Ok tt s' /\ rep s' (m ++ input).
Proof.
  intros Hr Hb Hl Htot. destruct (rep_curlen _ _ Hr) as (? & ? & ?). rewrite length_app in Htot.
  unfold SHA256_Update. rewrite (proj2 (Nat.ltb_ge 64 _)) by lia.
  rewrite wrap_fits by (unfold fits; lia). rewrite (proj2 (Z.ltb_ge _ _)) by lia.
  apply update_loop_rep; try done. rewrite length_app. lia.
Qed.

(** ** The end of the message *)
Lemma pad_zeros_splice n o buf : (o + n <= length buf)%nat ->
  pad_zeros n o buf = splice o (replicate n 0) buf.
Proof.
  revert o buf. induction n as [|n IH]; intros o buf Hl; cbn [pad_zeros replicate].
  - unfold splice. cbn. by rewrite Nat.add_0_r, take_drop.
  - rewrite IH by (rewrite length_splice; simpl; lia).
    change (0 :: replicate n 0) with ([0] ++ replicate n 0). rewrite <- (splice_splice o [0]) by (cbn [length]; rewrite ?length_replicate; lia). done.
Qed.
Lemma bytes_zeros n : bytes (replicate n 0).
Proof. apply Forall_replicate. by apply fits_0. Qed.
Lemma store_out v : foldl (fun out i => put_be32 out (4 * i) (nth i (Fips.words_of v) 0)) (replicate 32 0) (seq 0 8) =
  Fips.out v.
Proof. reflexivity. Qed.

(** The one bit and the zeros after the first [o] bytes of the buffer. *)
Lemma pad_buffer o n buf : (o + 1 + n <= length buf)%nat ->
  pad_zeros n (o + 1) (splice o [0x80] buf) =
  take o buf ++ [0x80] ++ replicate n 0 ++ drop (o + 1 + n) buf.
Proof.
  intros Hl. rewrite pad_zeros_splice by (rewrite length_splice; cbn [length]; lia).
  change 1%nat with (length [0x80]).
  rewrite splice_splice by (rewrite length_replicate; cbn [length] in *; lia).
  unfold splice. rewrite length_app, length_replicate, <- app_assoc. by rewrite Nat.add_assoc.
Qed.
Lemma splice_end A B C : length B = length C -> splice (length A) C (A ++ B) = A ++ C.
Proof.
  intros E. unfold splice. rewrite take_app_length, drop_ge by (rewrite length_app; lia). by rewrite app_nil_r.
Qed.
Lemma store_length A B v : length A = 56%nat -> length B = 8%nat ->
  put_be64 (A ++ B) 56 v = A ++ be_bytes 8 v.
Proof.
  intros HA HB. rewrite put_be64_bytes by (rewrite length_app; lia). rewrite <- HA.
  apply splice_end. by rewrite length_be_bytes.
Qed.

(** The padding of a message with its whole blocks and its tail. *)
Lemma pad_small whole tail : (length whole mod 64 = 0)%nat -> (length tail <= 55)%nat ->
  Fips.pad (whole ++ tail) = whole ++ (tail ++ [0x80] ++ replicate (55 - length tail) 0 ++
    be_bytes 8 (8 * Z.of_nat (length (whole ++ tail)))).
Proof.
  intros [c Hc]%Nat.Div0.mod_divides Ht. unfold Fips.pad. rewrite <- !app_assoc.
  do 5 f_equal. rewrite length_app, Hc.
  replace (55 - Z.of_nat (64 * c + length tail)) with (55 - Z.of_nat (length tail) + (- Z.of_nat c) * 64) by lia.
  rewrite Z.mod_add, Z.mod_small by lia. lia.
Qed.
Lemma pad_big whole tail : (length whole mod 64 = 0)%nat -> (55 < length tail < 64)%nat ->
  Fips.pad (whole ++ tail) = (whole ++ (tail ++ [0x80] ++ replicate (63 - length tail) 0)) ++
    (replicate 56 0 ++ be_bytes 8 (8 * Z.of_nat (length (whole ++ tail)))).
Proof.
  intros [c Hc]%Nat.Div0.mod_divides Ht. unfold Fips.pad. rewrite <- !app_assoc.
  do 3 f_equal. rewrite (app_assoc (replicate _ 0)), <- replicate_add. do 2 f_equal.
  rewrite length_app, Hc.
  replace (55 - Z.of_nat (64 * c + length tail))
    with (119 - Z.of_nat (length tail) + (- 1 - Z.of_nat c) * 64) by lia.
  rewrite Z.mod_add, Z.mod_small by lia. lia.
Qed.

Lemma compress_snoc small whole blk st : st = Fips.words_of (Fips.hash_blocks whole) ->
  (length whole mod 64 = 0)%nat -> bytes blk -> length blk = 64%nat ->
  sha256_compress small st blk = Fips.words_of (Fips.hash_blocks (whole ++ blk)).
Proof.
  intros -> ? ? Hl. rewrite hash_blocks_app by done.
  apply compress_correct; [apply hash_blocks_ok|done|lia].
Qed.

(** The last block, and the last two. *)
Lemma final_small small whole tail buf len : (length whole mod 64 = 0)%nat -> (length tail <= 55)%nat ->
  length buf = 64%nat -> bytes buf -> take (length tail) buf = tail ->
  len = 8 * Z.of_nat (length (whole ++ tail)) ->
  sha256_compress small (Fips.words_of (Fips.hash_blocks whole))
    (put_be64 (pad_zeros (56 - (length tail + 1)) (length tail + 1) (splice (length tail) [0x80] buf)) 56 len) =
  Fips.words_of (Fips.hash_blocks (Fips.pad (whole ++ tail))).
Proof.
  intros Hw Ht Hl Hb Htake ->. rewrite pad_buffer, Htake by lia.
  replace (56 - (length tail + 1))%nat with (55 - length tail)%nat by lia.
  rewrite !app_assoc, store_length by (rewrite ?length_app, ?length_drop, ?length_replicate; cbn [length]; lia).
  rewrite pad_small, <- !app_assoc by done. apply compress_snoc; [done|done| |].
  - assert (bytes tail) by (rewrite <- Htake; by apply Forall_take).
    unfold bytes. rewrite !Forall_app. split; [done|]. split; [by repeat constructor; vm_compute|].
    split; [apply bytes_zeros|apply bytes_be_bytes].
  - rewrite !length_app, length_replicate, length_be_bytes. cbn [length]. lia.
Qed.
Lemma final_big small whole tail buf len : (length whole mod 64 = 0)%nat -> (55 < length tail < 64)%nat ->
  length buf = 64%nat -> bytes buf -> take (length tail) buf = tail ->
  len = 8 * Z.of_nat (length (whole ++ tail)) ->
  let b1 := pad_zeros (64 - (length tail + 1)) (length tail + 1) (splice (length tail) [0x80] buf) in
  sha256_compress small (sha256_compress small (Fips.words_of (Fips.hash_blocks whole)) b1)
    (put_be64 (pad_zeros (56 - 0) 0 b1) 56 len) =
  Fips.words_of (Fips.hash_blocks (Fips.pad (whole ++ tail))).
Proof.
  intros Hw Ht Hl Hb Htake -> b1.
  assert (b1 = tail ++ [0x80] ++ replicate (63 - length tail) 0) as ->.
  { unfold b1. rewrite pad_buffer, Htake, drop_ge, app_nil_r by lia. do 3 f_equal. lia. }
  set (b1 := tail ++ _ ++ _).
  assert (length b1 = 64%nat) as Hb1 by (unfold b1; rewrite !length_app, length_replicate; cbn [length]; lia).
  assert (bytes b1) as Hbb1.
  { assert (bytes tail) by (rewrite <- Htake; by apply Forall_take).
    unfold b1, bytes. rewrite !Forall_app. split; [done|]. split; [by repeat constructor; vm_compute|].
    apply bytes_zeros. }
  rewrite pad_zeros_splice by lia. unfold splice. rewrite take_0, length_replicate. cbn [app].
  rewrite store_length by (rewrite ?length_drop, ?length_replicate; lia).
  rewrite pad_big by done. fold b1. apply compress_snoc.
  - by apply compress_snoc.
  - by apply length_whole_app.
  - unfold bytes. rewrite Forall_app. split; [apply bytes_zeros|apply bytes_be_bytes].
  - rewrite length_app, length_replicate, length_be_bytes. lia.
Qed.

Lemma final_rep small s m : rep s m -> 8 * Z.of_nat (length m) < 2 ^ 64 ->
  exists s', SHA256_Final small s = Ok (Fips.sha256 m) s'.
Proof.
  intros (whole & tail & -> & Hwh & Htl & Hcur & Htake & Hbl & Hbb & Hst & Hsl) Htot.
  rewrite length_app in Htot. unfold SHA256_Final. rewrite (proj2 (Nat.leb_gt 64 _)) by lia.
  assert (u64 (sha_length s + u32 (Z.of_nat (curlen s) * 8)) = 8 * Z.of_nat (length (whole ++ tail))) as ->.
  { rewrite Hsl, Hcur, length_app, (wrap_fits 32), wrap_fits by (unfold fits; lia). lia. }
  rewrite Hcur in Htake |- *. rewrite Hst.
  destruct (Nat.ltb_spec 56 (length tail + 1)) as [Hbig|Hsmall]; eexists.
  - rewrite final_big by (done || lia). by rewrite store_out.
  - rewrite final_small by (done || lia). by rewrite store_out.
Qed.

(** A message given to SHA256_Update in pieces. *)
Definition hash_pieces (small : bool) (pieces : list (list Z)) : M SHA256_CTX (list Z) :=
  foldr (fun c k => _ ← SHA256_Update small c; k) (SHA256_Final small) pieces.

(** C14: for a message in any number of pieces, SHA256_Init, a SHA256_Update for each
    piece and SHA256_Final deliver the SHA-256 of the whole message, with either body
    of the compression and whatever the uninitialized buffer holds; no run aborts or
    leaves the buffers.  The pieces are shorter than 2^31 bytes and the message
    shorter than 2^64 bits. *)
Theorem sha256_correct small buf0 pieces :
  length buf0 = 64%nat -> bytes buf0 -> Forall bytes pieces ->
  Forall (fun p => Z.of_nat (length p) < 2 ^ 31) pieces ->
  8 * Z.of_nat (length (concat pieces)) < 2 ^ 64 ->
  exists s, hash_pieces small pieces (SHA256_Init buf0) = Ok (Fips.sha256 (concat pieces)) s.
Proof.
  intros Hl Hb Hp Hlen Htot. pose proof (rep_init buf0 Hl Hb) as Hr.
  change (concat pieces) with ([] ++ concat pieces) in *. revert Hr Htot.
  generalize (SHA256_Init buf0) as s, (@nil Z) as m.
  induction pieces as [|c pieces IH]; intros s m Hr Htot; cbn [concat hash_pieces foldr] in *.
  { rewrite app_nil_r in *. by apply final_rep. }
  apply Forall_cons_1 in Hp as [Hc Hp]. apply Forall_cons_1 in Hlen as [Hlc Hlen].
  rewrite app_assoc in *.
  destruct (update_rep small s m c Hr Hc Hlc) as (s' & E & Hr').
  { rewrite length_app in Htot. lia. }
  unfold mbind, M_bind. rewrite E. by apply IH.
Qed.

(** The two test messages of the source's self test. *)
Lemma sha256_correct_witness :
  let m := [0x61; 0x62; 0x63] in
  Fips.sha256 m = [0xba; 0x78; 0x16; 0xbf; 0x8f; 0x01; 0xcf; 0xea; 0x41; 0x41; 0x40; 0xde; 0x5d; 0xae; 0x22; 0x23;
    0xb0; 0x03; 0x61; 0xa3; 0x96; 0x17; 0x7a; 0x9c; 0xb4; 0x10; 0xff; 0x61; 0xf2; 0x00; 0x15; 0xad] /\
  exists s, hash_pieces false [[0x61]; [0x62; 0x63]] (SHA256_Init (replicate 64 7)) = Ok (Fips.sha256 m) s.
Proof.
  split; [vm_compute; reflexivity|].
  apply (sha256_correct false (replicate 64 7) [[0x61]; [0x62; 0x63]]).
  - reflexivity.
  - apply Forall_replicate. split; vm_compute; congruence.
  - repeat constructor; vm_compute; congruence.
  - repeat constructor.
  - reflexivity.
Defined.
