(* ===== verification/AesFacts.v ===== *)
(** * aes.c computes AES, and decryption inverts encryption

    The reference is FIPS 197: the field GF(2^8), the S-box as inversion followed by
    the affine map, the cipher on columns of bytes, the key expansion. *)
From S2P Require Export Aes.

(** ** The reference *)
Module Fips197.
(** Multiplication by x, and by a polynomial, modulo x^8 + x^4 + x^3 + x + 1. *)
Definition xtime (b : Z) : Z := u8 (b ≪ 1) .^ (if Z.testbit b 7 then 0x1b else 0).
Definition gmul (a b : Z) : Z :=
  foldr Z.lxor 0 (map (fun i => if Z.testbit a (Z.of_nat i) then Nat.iter i xtime b else 0) (seq 0 8)).
(** The inverse is the power 254; 0 goes to 0. *)
Definition ginv (x : Z) : Z := Nat.iter 253 (gmul x) x.
Definition affine (b : Z) : Z :=
  let bit i := Z.testbit b (Z.of_nat (i mod 8)) in
  foldr Z.add 0 (map (fun i =>
    if xorb (bit i) (xorb (bit (i + 4)%nat) (xorb (bit (i + 5)%nat) (xorb (bit (i + 6)%nat)
         (xorb (bit (i + 7)%nat) (Z.testbit 0x63 (Z.of_nat i))))))
    then 2 ^ Z.of_nat i else 0) (seq 0 8)).
Definition sbox (x : Z) : Z := affine (ginv x).

(** A column of the state, from row 0. *)
Record col := Col { r0 : Z; r1 : Z; r2 : Z; r3 : Z }.
Definition map_col (f : Z -> Z) (c : col) : col := Col (f (r0 c)) (f (r1 c)) (f (r2 c)) (f (r3 c)).
Definition xor_col (c d : col) : col :=
  Col (r0 c .^ r0 d) (r1 c .^ r1 d) (r2 c .^ r2 d) (r3 c .^ r3 d).
Definition mix_col (c : col) : col :=
  let '(Col a b c d) := c in
  Col (gmul 2 a .^ gmul 3 b .^ c .^ d) (a .^ gmul 2 b .^ gmul 3 c .^ d)
      (a .^ b .^ gmul 2 c .^ gmul 3 d) (gmul 3 a .^ b .^ c .^ gmul 2 d).

(** The state: four columns. *)
Record st := St { s0 : col; s1 : col; s2 : col; s3 : col }.
Definition map_st (f : col -> col) (s : st) : st := St (f (s0 s)) (f (s1 s)) (f (s2 s)) (f (s3 s)).
Definition sub_bytes (s : st) : st := map_st (map_col sbox) s.
Definition shift_rows (s : st) : st :=
  let '(St a b c d) := s in
  St (Col (r0 a) (r1 b) (r2 c) (r3 d)) (Col (r0 b) (r1 c) (r2 d) (r3 a))
     (Col (r0 c) (r1 d) (r2 a) (r3 b)) (Col (r0 d) (r1 a) (r2 b) (r3 c)).
Definition mix_columns (s : st) : st := map_st mix_col s.
Definition col0 : col := Col 0 0 0 0.
Definition add_round_key (w : list col) (round : nat) (s : st) : st :=
  let k j := nth (4 * round + j) w col0 in
  St (xor_col (s0 s) (k 0%nat)) (xor_col (s1 s) (k 1%nat)) (xor_col (s2 s) (k 2%nat)) (xor_col (s3 s) (k 3%nat)).
Definition cipher_round (w : list col) (s : st) (i : nat) : st :=
  add_round_key w i (mix_columns (shift_rows (sub_bytes s))).
Definition cipher (w : list col) (nr : nat) (input : st) : st :=
  let s := foldl (cipher_round w) (add_round_key w 0 input) (seq 1 (nr - 1)) in
  add_round_key w nr (shift_rows (sub_bytes s)).

(** Key expansion: [key] is the cipher key, nk columns. *)
Definition rot_word (c : col) : col := Col (r1 c) (r2 c) (r3 c) (r0 c).
Definition rcon_col (i : nat) : col := Col (Nat.iter (i - 1) xtime 1) 0 0 0.
Definition next_key (nk : nat) (w : list col) : col :=
  let i := length w in
  let temp := nth (i - 1) w col0 in
  let temp :=
    if (i mod nk =? 0)%nat then xor_col (map_col sbox (rot_word temp)) (rcon_col (i / nk))
    else if (6 <? nk)%nat && (i mod nk =? 4)%nat then map_col sbox temp
    else temp in
  xor_col (nth (i - nk) w col0) temp.
Definition key_expansion (key : list col) (nr : nat) : list col :=
  Nat.iter (4 * (nr + 1) - length key) (fun w => w ++ [next_key (length key) w]) key.

(** Bytes to columns and back. *)
Fixpoint columns (n : nat) (l : list Z) : list col :=
  match n with
  | O => []
  | S n' => Col (byte l 0) (byte l 1) (byte l 2) (byte l 3) :: columns n' (drop 4 l)
  end.
Definition to_state (l : list Z) : st :=
  let c j := nth j (columns 4 l) col0 in St (c 0%nat) (c 1%nat) (c 2%nat) (c 3%nat).
Definition col_bytes (c : col) : list Z := [r0 c; r1 c; r2 c; r3 c].
Definition of_state (s : st) : list Z :=
  col_bytes (s0 s) ++ col_bytes (s1 s) ++ col_bytes (s2 s) ++ col_bytes (s3 s).
(** AES on 16 bytes, with a key of 16, 24 or 32 bytes. *)
Definition aes (key input : list Z) : list Z :=
  let nk := (length key / 4)%nat in
  let nr := (nk + 6)%nat in
  of_state (cipher (key_expansion (columns nk key) nr) nr (to_state input)).
End Fips197.
Import Fips197.

(** ** The field *)
Lemma xtime_fits x : fits 8 (xtime x).
Proof. apply fits_lxor; [by apply fits_wrap|]. case_if; split; vm_compute; congruence. Qed.
Lemma xtime_lxor x y : xtime (x .^ y) = xtime x .^ xtime y.
Proof.
  unfold xtime. rewrite Z.lxor_spec.
  assert (u8 ((x .^ y) ≪ 1) = u8 (x ≪ 1) .^ u8 (y ≪ 1)) as ->.
  { rewrite Z.shiftl_lxor. apply Z.bits_inj'. intros i Hi.
    rewrite !Z.lxor_spec, !wrap_testbit, Z.lxor_spec by lia. by destruct (i <? 8). }
  apply Z.bits_inj'. intros i Hi. rewrite !Z.lxor_spec.
  destruct (Z.testbit x 7), (Z.testbit y 7); cbn [xorb]; rewrite ?Z.bits_0; btauto.
Qed.
Lemma xtime_0 : xtime 0 = 0.
Proof. reflexivity. Qed.
Lemma iter_xtime_lxor n x y : Nat.iter n xtime (x .^ y) = Nat.iter n xtime x .^ Nat.iter n xtime y.
Proof. induction n as [|n IH]; [done|]. by rewrite !Nat.iter_succ, IH, xtime_lxor. Qed.
Lemma gmul_lxor a x y : gmul a (x .^ y) = gmul a x .^ gmul a y.
Proof.
  unfold gmul. induction (seq 0 8) as [|i l IH]; [done|]. cbn [map foldr]. rewrite IH, iter_xtime_lxor.
  apply Z.bits_inj'. intros j Hj. rewrite !Z.lxor_spec.
  destruct (Z.testbit a (Z.of_nat i)); rewrite ?Z.lxor_spec, ?Z.bits_0; btauto.
Qed.

(** ** Facts about all bytes, by evaluation *)
Definition all_bytes (p : Z -> bool) : bool := forallb p (map Z.of_nat (seq 0 256)).
Lemma all_bytes_spec p x : all_bytes p = true -> fits 8 x -> p x = true.
Proof.
  intros H [??]. apply (proj1 (forallb_forall p _) H). rewrite <- (Z2Nat.id x) by lia.
  apply in_map, in_seq. lia.
Qed.
Definition val (c : col) : Z := be_val (col_bytes c).
Definition SBOX : list Z := Eval vm_compute in map (fun i => sbox (Z.of_nat i)) (seq 0 256).
(** The inverse of the S-box: the position of a value in it. *)
Fixpoint position (y : Z) (l : list Z) : Z :=
  match l with [] => 0 | x :: l' => if x =? y then 0 else 1 + position y l' end.
Definition inv_sbox (y : Z) : Z := position y SBOX.
Definition inv_mix_col (c : col) : col :=
  let '(Col a b c d) := c in
  Col (gmul 14 a .^ gmul 11 b .^ gmul 13 c .^ gmul 9 d) (gmul 9 a .^ gmul 14 b .^ gmul 11 c .^ gmul 13 d)
      (gmul 13 a .^ gmul 9 b .^ gmul 14 c .^ gmul 11 d) (gmul 11 a .^ gmul 13 b .^ gmul 9 c .^ gmul 14 d).

Definition is8 (x : Z) : bool := (0 <=? x) && (x <? 256).
(** S x from the table, which is the reference S-box. *)
Lemma sbox_table : all_bytes (fun x => (sbox x =? tab SBOX x) && is8 (tab SBOX x) &&
  (inv_sbox (tab SBOX x) =? x) && (tab SBOX (inv_sbox x) =? x) && is8 (inv_sbox x)) = true.
Proof. vm_compute. reflexivity. Qed.
(** The tables of the source. *)
Lemma enc_tables : all_bytes (fun x => let s := tab SBOX x in
  (tab Te0 x =? val (Col (gmul 2 s) s s (gmul 3 s))) && (tab Te1 x =? val (Col (gmul 3 s) (gmul 2 s) s s)) &&
  (tab Te2 x =? val (Col s (gmul 3 s) (gmul 2 s) s)) && (tab Te3 x =? val (Col s s (gmul 3 s) (gmul 2 s))) &&
  (tab Te4 x .& 0xff000000 =? val (Col s 0 0 0)) && (tab Te4 x .& 0x00ff0000 =? val (Col 0 s 0 0)) &&
  (tab Te4 x .& 0x0000ff00 =? val (Col 0 0 s 0)) && (tab Te4 x .& 0x000000ff =? val (Col 0 0 0 s))) = true.
Proof. vm_compute. reflexivity. Qed.
Lemma dec_tables : all_bytes (fun x => let s := inv_sbox x in
  (tab Td0 x =? val (Col (gmul 14 s) (gmul 9 s) (gmul 13 s) (gmul 11 s))) &&
  (tab Td1 x =? val (Col (gmul 11 s) (gmul 14 s) (gmul 9 s) (gmul 13 s))) &&
  (tab Td2 x =? val (Col (gmul 13 s) (gmul 11 s) (gmul 14 s) (gmul 9 s))) &&
  (tab Td3 x =? val (Col (gmul 9 s) (gmul 13 s) (gmul 11 s) (gmul 14 s))) &&
  (tab Td4 x .& 0xff000000 =? val (Col s 0 0 0)) && (tab Td4 x .& 0x00ff0000 =? val (Col 0 s 0 0)) &&
  (tab Td4 x .& 0x0000ff00 =? val (Col 0 0 s 0)) && (tab Td4 x .& 0x000000ff =? val (Col 0 0 0 s))) = true.
Proof. vm_compute. reflexivity. Qed.
(** The product of the two matrices is the identity; multiples are bytes. *)
Lemma mix_inverse_table : all_bytes (fun x =>
  let m a b c d e f g h := gmul a (gmul e x) .^ gmul b (gmul f x) .^ gmul c (gmul g x) .^ gmul d (gmul h x) in
  (m 14 11 13 9 2 1 1 3 =? x) && (m 14 11 13 9 3 2 1 1 =? 0) && (m 14 11 13 9 1 3 2 1 =? 0) && (m 14 11 13 9 1 1 3 2 =? 0) &&
  (m 9 14 11 13 2 1 1 3 =? 0) && (m 9 14 11 13 3 2 1 1 =? x) && (m 9 14 11 13 1 3 2 1 =? 0) && (m 9 14 11 13 1 1 3 2 =? 0) &&
  (m 13 9 14 11 2 1 1 3 =? 0) && (m 13 9 14 11 3 2 1 1 =? 0) && (m 13 9 14 11 1 3 2 1 =? x) && (m 13 9 14 11 1 1 3 2 =? 0) &&
  (m 11 13 9 14 2 1 1 3 =? 0) && (m 11 13 9 14 3 2 1 1 =? 0) && (m 11 13 9 14 1 3 2 1 =? 0) && (m 11 13 9 14 1 1 3 2 =? x))
  = true.
Proof. vm_compute. reflexivity. Qed.
Lemma gmul_table : all_bytes (fun x => (gmul 1 x =? x) && is8 (gmul 2 x) && is8 (gmul 3 x) && is8 (gmul 9 x) &&
  is8 (gmul 11 x) && is8 (gmul 13 x) && is8 (gmul 14 x)) = true.
Proof. vm_compute. reflexivity. Qed.

Lemma is8_fits x : is8 x = true -> fits 8 x.
Proof. unfold is8. intros H. split; [lia|]. change (2 ^ 8) with 256. lia. Qed.
Ltac by_table H x Hx := let E := fresh in pose proof (all_bytes_spec _ x H Hx) as E; cbv beta zeta in E;
  repeat (apply andb_prop in E as [E ?]).
Lemma sbox_fits x : fits 8 x -> fits 8 (sbox x).
Proof. intros Hx. by_table sbox_table x Hx. assert (sbox x = tab SBOX x) as -> by lia. by apply is8_fits. Qed.
Lemma sbox_tab x : fits 8 x -> tab SBOX x = sbox x.
Proof. intros Hx. by_table sbox_table x Hx. lia. Qed.
Lemma inv_sbox_fits x : fits 8 x -> fits 8 (inv_sbox x).
Proof. intros Hx. by_table sbox_table x Hx. by apply is8_fits. Qed.
Lemma inv_sbox_sbox x : fits 8 x -> inv_sbox (sbox x) = x.
Proof. intros Hx. rewrite <- sbox_tab by done. by_table sbox_table x Hx. lia. Qed.

(** ** Words and columns *)
Definition col_ok (c : col) : Prop := fits 8 (r0 c) /\ fits 8 (r1 c) /\ fits 8 (r2 c) /\ fits 8 (r3 c).
Lemma val_shift c : col_ok c -> val c = ((r0 c ≪ 24) .| ((r1 c ≪ 16) .| ((r2 c ≪ 8) .| r3 c))).
Proof.
  intros (H0 & H1 & H2 & H3). unfold fits in *. unfold val, be_val, col_bytes. cbn [foldl].
  rewrite (lor_shift_add (r2 c)), (lor_shift_add (r1 c)), (lor_shift_add (r0 c)) by (unfold fits; lia). lia.
Qed.
(** Bit [i] of a column's word. *)
Lemma val_bit c i : col_ok c -> 0 <= i -> Z.testbit (val c) i =
  if i <? 8 then Z.testbit (r3 c) i else if i <? 16 then Z.testbit (r2 c) (i - 8)
  else if i <? 24 then Z.testbit (r1 c) (i - 16) else Z.testbit (r0 c) (i - 24).
Proof.
  intros Hc Hi. rewrite val_shift by done. destruct Hc as (H0 & H1 & H2 & H3).
  rewrite !Z.lor_spec, !Z.shiftl_spec by done.
  repeat match goal with |- context [?a <? ?b] => destruct (Z.ltb_spec a b) end;
    rewrite ?(Z.testbit_neg_r _ (i - 8)), ?(Z.testbit_neg_r _ (i - 16)), ?(Z.testbit_neg_r _ (i - 24)) by lia;
    rewrite ?(fits_testbit 8 (r3 c) i), ?(fits_testbit 8 (r2 c) (i - 8)), ?(fits_testbit 8 (r1 c) (i - 16)) by (done || lia);
    rewrite ?orb_false_r; done.
Qed.
Lemma col_ok_xor c d : col_ok c -> col_ok d -> col_ok (xor_col c d).
Proof. intros (?&?&?&?) (?&?&?&?). split; [|split; [|split]]; by apply fits_lxor. Qed.
Lemma val_xor c d : col_ok c -> col_ok d -> val c .^ val d = val (xor_col c d).
Proof.
  intros Hc Hd. apply Z.bits_inj'. intros i Hi. rewrite Z.lxor_spec, !val_bit by (done || by apply col_ok_xor).
  cbn [xor_col r0 r1 r2 r3]. rewrite !Z.lxor_spec. by repeat case_if.
Qed.
Lemma val_bytes c : col_ok c -> b3 (val c) = r0 c /\ b2 (val c) = r1 c /\ b1 (val c) = r2 c /\ b0 (val c) = r3 c.
Proof.
  intros Hc. pose proof Hc as (H0 & H1 & H2 & H3). unfold b3, b2, b1, b0.
  change 0xff with (Z.ones 8). rewrite !Z.land_ones by lia.
  assert (forall x k, 0 <= k -> fits 8 x -> (forall i, 0 <= i < 8 -> Z.testbit (val c) (i + k) = Z.testbit x i) ->
    (val c ≫ k) mod 2 ^ 8 = x) as H.
  { intros x k Hk Hx Hb. apply Z.bits_inj'. intros i Hi. rewrite Z.testbit_mod_pow2, Z.shiftr_spec by lia.
    destruct (Z.ltb_spec i 8); [by apply Hb|]. by rewrite (fits_testbit 8 x). }
  split; [|split; [|split]].
  - apply Z.bits_inj'. intros i Hi. rewrite Z.shiftr_spec, val_bit by (done || lia). zcases.
    f_equal. lia.
  - apply H; [lia|done|]. intros i Hi. rewrite val_bit by (done || lia). zcases. f_equal. lia.
  - apply H; [lia|done|]. intros i Hi. rewrite val_bit by (done || lia). zcases. f_equal. lia.
  - rewrite <- (Z.shiftr_0_r (val c)). apply H; [lia|done|]. intros i Hi. rewrite Z.add_0_r, val_bit by (done || lia). zcases.
Qed.
Lemma col_ok_map f c : (forall x, fits 8 x -> fits 8 (f x)) -> col_ok c -> col_ok (map_col f c).
Proof. intros Hf (?&?&?&?). split; [|split; [|split]]; by apply Hf. Qed.
Lemma PUTU32_val c : col_ok c -> PUTU32 (val c) = col_bytes c.
Proof.
  intros Hc. destruct (val_bytes c Hc) as (E3 & E2 & E1 & E0). pose proof Hc as (H0 & H1 & H2 & H3).
  unfold PUTU32, col_bytes. unfold b3 in E3. rewrite E3, (wrap_fits 8) by done.
  unfold b2, b1, b0 in *. change 0xff with (Z.ones 8) in *. rewrite !Z.land_ones in * by lia.
  unfold wrap. by rewrite E2, E1, E0.
Qed.
Lemma GETU32_val pt o : bytes pt ->
  GETU32 pt o = val (Col (byte pt o) (byte pt (o + 1)) (byte pt (o + 2)) (byte pt (o + 3))).
Proof.
  intros Hb. set (c := Col _ _ _ _).
  assert (col_ok c) as Hc by (split; [|split; [|split]]; by apply byte_fits).
  pose proof Hc as (H0 & H1 & H2 & H3). unfold GETU32. apply Z.bits_inj'. intros i Hi.
  rewrite val_bit, !Z.lxor_spec, !wrap_testbit, !Z.shiftl_spec by (done || lia). unfold c in *. cbn [r0 r1 r2 r3] in *.
  repeat match goal with |- context [?a <? ?b] => destruct (Z.ltb_spec a b) end; try lia; cbn [andb];
    rewrite ?(Z.testbit_neg_r _ (i - 8)), ?(Z.testbit_neg_r _ (i - 16)), ?(Z.testbit_neg_r _ (i - 24)) by lia;
    rewrite ?(fits_testbit 8 (byte pt (o + 3)) i), ?(fits_testbit 8 (byte pt (o + 2)) (i - 8)),
      ?(fits_testbit 8 (byte pt (o + 1)) (i - 16)), ?(fits_testbit 8 (byte pt o) (i - 24)) by (done || lia);
    cbn [xorb]; rewrite ?xorb_false_r, ?xorb_false_l; done.
Qed.

(** ** The tables on words *)
Lemma gmul_fits k x : k = 2 \/ k = 3 \/ k = 9 \/ k = 11 \/ k = 13 \/ k = 14 -> fits 8 x -> fits 8 (gmul k x).
Proof.
  intros Hk Hx. by_table gmul_table x Hx.
  destruct Hk as [->|[->|[->|[->|[->| ->]]]]]; by apply is8_fits.
Qed.
Ltac ok_col := repeat match goal with
  | |- col_ok (xor_col _ _) => apply col_ok_xor
  | |- col_ok (Col _ _ _ _) => split; [|split; [|split]]; cbn [r0 r1 r2 r3]
  | |- fits 8 (gmul _ _) => apply gmul_fits; [lia|]
  | |- fits 8 (sbox _) => apply sbox_fits
  | |- fits 8 (inv_sbox _) => apply inv_sbox_fits
  | |- fits 8 (_ .^ _) => apply fits_lxor
  | |- fits 8 0 => by apply fits_0
  | H : col_ok ?c |- fits 8 (_ ?c) => apply H
  | _ => assumption
  end.
(** Sums of words of columns. *)
Ltac sum_cols := repeat (rewrite val_xor by ok_col); cbv beta iota delta [xor_col mix_col inv_mix_col r0 r1 r2 r3];
  rewrite ?Z.lxor_0_l, ?Z.lxor_0_r, ?Z.lxor_assoc.

(** The tables as rewrite rules. *)
#[local] Opaque gmul sbox inv_sbox tab Te0 Te1 Te2 Te3 Te4 Td0 Td1 Td2 Td3 Td4.
Lemma Te_rules x : fits 8 x -> let s := sbox x in
  (tab Te0 x = val (Col (gmul 2 s) s s (gmul 3 s)) /\ tab Te1 x = val (Col (gmul 3 s) (gmul 2 s) s s) /\
   tab Te2 x = val (Col s (gmul 3 s) (gmul 2 s) s) /\ tab Te3 x = val (Col s s (gmul 3 s) (gmul 2 s))) /\
  (tab Te4 x .& 0xff000000 = val (Col s 0 0 0) /\ tab Te4 x .& 0x00ff0000 = val (Col 0 s 0 0) /\
   tab Te4 x .& 0x0000ff00 = val (Col 0 0 s 0) /\ tab Te4 x .& 0x000000ff = val (Col 0 0 0 s)).
Proof.
  intros Hx s. by_table enc_tables x Hx. rewrite !sbox_tab in * by done.
  subst s. repeat match goal with H : (_ =? _) = true |- _ => apply Z.eqb_eq in H end.
  split; (split; [|split; [|split]]); match goal with H : ?l = _ |- ?l = _ => exact H end.
Qed.
Lemma Td_rules x : fits 8 x -> let s := inv_sbox x in
  (tab Td0 x = val (Col (gmul 14 s) (gmul 9 s) (gmul 13 s) (gmul 11 s)) /\
   tab Td1 x = val (Col (gmul 11 s) (gmul 14 s) (gmul 9 s) (gmul 13 s)) /\
   tab Td2 x = val (Col (gmul 13 s) (gmul 11 s) (gmul 14 s) (gmul 9 s)) /\
   tab Td3 x = val (Col (gmul 9 s) (gmul 13 s) (gmul 11 s) (gmul 14 s))) /\
  (tab Td4 x .& 0xff000000 = val (Col s 0 0 0) /\ tab Td4 x .& 0x00ff0000 = val (Col 0 s 0 0) /\
   tab Td4 x .& 0x0000ff00 = val (Col 0 0 s 0) /\ tab Td4 x .& 0x000000ff = val (Col 0 0 0 s)).
Proof.
  intros Hx s. by_table dec_tables x Hx.
  subst s. repeat match goal with H : (_ =? _) = true |- _ => apply Z.eqb_eq in H end.
  split; (split; [|split; [|split]]); match goal with H : ?l = _ |- ?l = _ => exact H end.
Qed.
(** The byte of the table Te4 in the low position is the S-box. *)
Lemma Te4_low x : fits 8 x -> tab Te4 x .& 0xff = sbox x.
Proof.
  intros Hx. destruct (Te_rules x Hx) as (_ & _ & _ & _ & ->). unfold val, be_val, col_bytes. cbn [foldl r0 r1 r2 r3]. lia.
Qed.

Section Words.
Variables a b c d k : col.
Context (Ha : col_ok a) (Hb : col_ok b) (Hc : col_ok c) (Hd : col_ok d) (Hk : col_ok k).
Ltac take_bytes :=
  rewrite (proj1 (val_bytes a Ha)), (proj1 (proj2 (val_bytes b Hb))), (proj1 (proj2 (proj2 (val_bytes c Hc)))),
    (proj2 (proj2 (proj2 (val_bytes d Hd)))).

Lemma enc_word_val : enc_word (val a) (val b) (val c) (val d) (val k) =
  val (xor_col (mix_col (Col (sbox (r0 a)) (sbox (r1 b)) (sbox (r2 c)) (sbox (r3 d)))) k).
Proof.
  unfold enc_word. take_bytes.
  destruct (Te_rules (r0 a)) as [(-> & _) _]; [apply Ha|]. destruct (Te_rules (r1 b)) as [(_ & -> & _) _]; [apply Hb|].
  destruct (Te_rules (r2 c)) as [(_ & _ & -> & _) _]; [apply Hc|]. destruct (Te_rules (r3 d)) as [(_ & _ & _ & ->) _]; [apply Hd|].
  by sum_cols.
Qed.
Lemma dec_word_val : dec_word (val a) (val b) (val c) (val d) (val k) =
  val (xor_col (inv_mix_col (Col (inv_sbox (r0 a)) (inv_sbox (r1 b)) (inv_sbox (r2 c)) (inv_sbox (r3 d)))) k).
Proof.
  unfold dec_word. take_bytes.
  destruct (Td_rules (r0 a)) as [(-> & _) _]; [apply Ha|]. destruct (Td_rules (r1 b)) as [(_ & -> & _) _]; [apply Hb|].
  destruct (Td_rules (r2 c)) as [(_ & _ & -> & _) _]; [apply Hc|]. destruct (Td_rules (r3 d)) as [(_ & _ & _ & ->) _]; [apply Hd|].
  by sum_cols.
Qed.
Lemma last_enc_val : last_word Te4 (val a) (val b) (val c) (val d) (val k) =
  val (xor_col (Col (sbox (r0 a)) (sbox (r1 b)) (sbox (r2 c)) (sbox (r3 d))) k).
Proof.
  unfold last_word. take_bytes.
  destruct (Te_rules (r0 a)) as [_ (-> & _)]; [apply Ha|]. destruct (Te_rules (r1 b)) as [_ (_ & -> & _)]; [apply Hb|].
  destruct (Te_rules (r2 c)) as [_ (_ & _ & -> & _)]; [apply Hc|]. destruct (Te_rules (r3 d)) as [_ (_ & _ & _ & ->)]; [apply Hd|].
  by sum_cols.
Qed.
Lemma last_dec_val : last_word Td4 (val a) (val b) (val c) (val d) (val k) =
  val (xor_col (Col (inv_sbox (r0 a)) (inv_sbox (r1 b)) (inv_sbox (r2 c)) (inv_sbox (r3 d))) k).
Proof.
  unfold last_word. take_bytes.
  destruct (Td_rules (r0 a)) as [_ (-> & _)]; [apply Ha|]. destruct (Td_rules (r1 b)) as [_ (_ & -> & _)]; [apply Hb|].
  destruct (Td_rules (r2 c)) as [_ (_ & _ & -> & _)]; [apply Hc|]. destruct (Td_rules (r3 d)) as [_ (_ & _ & _ & ->)]; [apply Hd|].
  by sum_cols.
Qed.
Lemma inv_mix_word_val : inv_mix_word (val a) = val (inv_mix_col a).
Proof.
  unfold inv_mix_word. destruct (val_bytes a Ha) as (-> & -> & -> & ->).
  destruct Ha as (H0 & H1 & H2 & H3). rewrite !Te4_low by done.
  destruct (Td_rules (sbox (r0 a))) as [(-> & _) _]; [by apply sbox_fits|].
  destruct (Td_rules (sbox (r1 a))) as [(_ & -> & _) _]; [by apply sbox_fits|].
  destruct (Td_rules (sbox (r2 a))) as [(_ & _ & -> & _) _]; [by apply sbox_fits|].
  destruct (Td_rules (sbox (r3 a))) as [(_ & _ & _ & ->) _]; [by apply sbox_fits|].
  rewrite !inv_sbox_sbox by done. destruct a. cbn [r0 r1 r2 r3] in *. by sum_cols.
Qed.
Lemma key_mix4_val : key_mix4 (val a) = val (map_col sbox a).
Proof.
  unfold key_mix4. destruct (val_bytes a Ha) as (-> & -> & -> & ->). destruct Ha as (H0 & H1 & H2 & H3).
  destruct (Te_rules (r0 a)) as [_ (-> & _)]; [done|]. destruct (Te_rules (r1 a)) as [_ (_ & -> & _)]; [done|].
  destruct (Te_rules (r2 a)) as [_ (_ & _ & -> & _)]; [done|]. destruct (Te_rules (r3 a)) as [_ (_ & _ & _ & ->)]; [done|].
  unfold map_col. by sum_cols.
Qed.
Lemma rcon_val i : (i < 10)%nat -> nth i rcon 0 = val (rcon_col (i + 1)) /\ col_ok (rcon_col (i + 1)).
Proof.
  intros Hi. split; [do 10 (destruct i as [|i]; [reflexivity|]); lia|].
  split; [|split; [|split]]; cbn [rcon_col r0 r1 r2 r3]; try by apply fits_0.
  destruct i as [|i]; [split; vm_compute; congruence|]. replace (S i + 1 - 1)%nat with (S i) by lia.
  rewrite Nat.iter_succ. apply xtime_fits.
Qed.
Lemma key_mix_val i : (i < 10)%nat ->
  key_mix (val a) i = val (xor_col (map_col sbox (rot_word a)) (rcon_col (i + 1))).
Proof.
  intros Hi. destruct (rcon_val i Hi) as [E Hr]. unfold key_mix. rewrite E.
  destruct (val_bytes a Ha) as (-> & -> & -> & ->). destruct Ha as (H0 & H1 & H2 & H3).
  destruct (Te_rules (r1 a)) as [_ (-> & _)]; [done|]. destruct (Te_rules (r2 a)) as [_ (_ & -> & _)]; [done|].
  destruct (Te_rules (r3 a)) as [_ (_ & _ & -> & _)]; [done|]. destruct (Te_rules (r0 a)) as [_ (_ & _ & _ & ->)]; [done|].
  unfold map_col, rot_word. by sum_cols.
Qed.
End Words.

(** ** The inverse of the column mixing *)
Lemma mix_inverse x : fits 8 x ->
  let m a b c d e f g h := gmul a (gmul e x) .^ gmul b (gmul f x) .^ gmul c (gmul g x) .^ gmul d (gmul h x) in
  (m 14 11 13 9 2 1 1 3 = x /\ m 14 11 13 9 3 2 1 1 = 0 /\ m 14 11 13 9 1 3 2 1 = 0 /\ m 14 11 13 9 1 1 3 2 = 0) /\
  (m 9 14 11 13 2 1 1 3 = 0 /\ m 9 14 11 13 3 2 1 1 = x /\ m 9 14 11 13 1 3 2 1 = 0 /\ m 9 14 11 13 1 1 3 2 = 0) /\
  (m 13 9 14 11 2 1 1 3 = 0 /\ m 13 9 14 11 3 2 1 1 = 0 /\ m 13 9 14 11 1 3 2 1 = x /\ m 13 9 14 11 1 1 3 2 = 0) /\
  (m 11 13 9 14 2 1 1 3 = 0 /\ m 11 13 9 14 3 2 1 1 = 0 /\ m 11 13 9 14 1 3 2 1 = 0 /\ m 11 13 9 14 1 1 3 2 = x).
Proof.
  intros Hx m. by_table mix_inverse_table x Hx. subst m. cbv beta.
  repeat match goal with H : (_ =? _) = true |- _ => apply Z.eqb_eq in H end. 
  split; [|split; [|split]]; split_and!; assumption.
Qed.
Lemma gmul_1 x : fits 8 x -> gmul 1 x = x.
Proof. intros Hx. by_table gmul_table x Hx. lia. Qed.
(** A sum of sums in the other order. *)
Lemma xor_transpose a1 a2 a3 a4 b1 b2 b3 b4 c1 c2 c3 c4 d1 d2 d3 d4 :
  (a1 .^ a2 .^ a3 .^ a4) .^ (b1 .^ b2 .^ b3 .^ b4) .^ (c1 .^ c2 .^ c3 .^ c4) .^ (d1 .^ d2 .^ d3 .^ d4) =
  (a1 .^ b1 .^ c1 .^ d1) .^ (a2 .^ b2 .^ c2 .^ d2) .^ (a3 .^ b3 .^ c3 .^ d3) .^ (a4 .^ b4 .^ c4 .^ d4).
Proof. apply Z.bits_inj'. intros i Hi. rewrite !Z.lxor_spec. btauto. Qed.
Lemma inv_mix_mix c : col_ok c -> inv_mix_col (mix_col c) = c.
Proof.
  destruct c as [a b c d]. intros (Ha & Hb & Hc & Hd). cbn [r0 r1 r2 r3] in *.
  destruct (mix_inverse a Ha) as ((A1 & _) & (A2 & _) & (A3 & _) & (A4 & _)).
  destruct (mix_inverse b Hb) as ((_ & B1 & _) & (_ & B2 & _) & (_ & B3 & _) & (_ & B4 & _)).
  destruct (mix_inverse c Hc) as ((_ & _ & C1 & _) & (_ & _ & C2 & _) & (_ & _ & C3 & _) & (_ & _ & C4 & _)).
  destruct (mix_inverse d Hd) as ((_ & _ & _ & D1) & (_ & _ & _ & D2) & (_ & _ & _ & D3) & (_ & _ & _ & D4)).
  rewrite !(gmul_1 a) in * by done. rewrite !(gmul_1 b) in * by done.
  rewrite !(gmul_1 c) in * by done. rewrite !(gmul_1 d) in * by done.
  cbv beta iota delta [mix_col inv_mix_col]. rewrite !gmul_lxor.
  f_equal; rewrite xor_transpose; [rewrite A1, B1, C1, D1|rewrite A2, B2, C2, D2|rewrite A3, B3, C3, D3|
    rewrite A4, B4, C4, D4]; by rewrite ?Z.lxor_0_l, ?Z.lxor_0_r.
Qed.
Lemma inv_mix_xor c d : inv_mix_col (xor_col c d) = xor_col (inv_mix_col c) (inv_mix_col d).
Proof.
  destruct c as [a b c e], d as [a' b' c' e']. cbv beta iota delta [xor_col inv_mix_col r0 r1 r2 r3].
  rewrite !gmul_lxor. f_equal; apply Z.bits_inj'; intros i Hi; rewrite !Z.lxor_spec; btauto.
Qed.
Lemma xor_col_twice c d : xor_col (xor_col c d) d = c.
Proof.
  destruct c, d. unfold xor_col. cbn [r0 r1 r2 r3]. by rewrite !Z.lxor_assoc, !Z.lxor_nilpotent, !Z.lxor_0_r.
Qed.

(** ** Rounds on the state *)
Definition st_ok (s : st) : Prop := col_ok (s0 s) /\ col_ok (s1 s) /\ col_ok (s2 s) /\ col_ok (s3 s).
Definition quad_of (s : st) : quad := Quad (val (s0 s)) (val (s1 s)) (val (s2 s)) (val (s3 s)).
(** The first [n] words of the array are the columns [w]. *)
Definition keys (rk : list Z) (w : list col) (n : nat) : Prop :=
  forall i, (i < n)%nat -> word rk i = val (nth i w col0).
Definition keys_ok (w : list col) : Prop := Forall col_ok w.
Lemma nth_col_ok w i : keys_ok w -> col_ok (nth i w col0).
Proof.
  intros H. destruct (nth_in_or_default i w col0) as [Hin| ->].
  - by apply (proj1 (Forall_forall _ _) H).
  - split; [|split; [|split]]; by apply fits_0.
Qed.

Lemma mix_col_ok c : col_ok c -> col_ok (mix_col c).
Proof. destruct c. intros (?&?&?&?). unfold mix_col. cbn [r0 r1 r2 r3] in *. ok_col. Qed.
Lemma inv_mix_col_ok c : col_ok c -> col_ok (inv_mix_col c).
Proof. destruct c. intros (?&?&?&?). unfold inv_mix_col. cbn [r0 r1 r2 r3] in *. ok_col. Qed.
Lemma map_st_ok f s : (forall c, col_ok c -> col_ok (f c)) -> st_ok s -> st_ok (map_st f s).
Proof. intros Hf (?&?&?&?). split; [|split; [|split]]; by apply Hf. Qed.
Lemma shift_rows_ok s : st_ok s -> st_ok (shift_rows s).
Proof.
  destruct s as [[] [] [] []]. intros ((?&?&?&?) & (?&?&?&?) & (?&?&?&?) & (?&?&?&?)).
  cbn [s0 s1 s2 s3 r0 r1 r2 r3] in *. split; [|split; [|split]]; (split; [|split; [|split]]); assumption.
Qed.
Lemma sub_bytes_ok s : st_ok s -> st_ok (sub_bytes s).
Proof. apply map_st_ok. intros. apply col_ok_map; [apply sbox_fits|done]. Qed.
Lemma add_round_key_ok w i s : keys_ok w -> st_ok s -> st_ok (add_round_key w i s).
Proof. intros Hw (?&?&?&?). split; [|split; [|split]]; apply col_ok_xor; by try apply nth_col_ok. Qed.
Lemma cipher_round_ok w s i : keys_ok w -> st_ok s -> st_ok (cipher_round w s i).
Proof. intros. apply add_round_key_ok, map_st_ok, shift_rows_ok, sub_bytes_ok; try done. apply mix_col_ok. Qed.

Lemma enc_round_correct rk w n s i : keys rk w n -> keys_ok w -> st_ok s -> (4 * i + 4 <= n)%nat ->
  enc_round rk (4 * i) (quad_of s) = quad_of (cipher_round w s i).
Proof.
  intros Hk Hw (H0 & H1 & H2 & H3) Hi. unfold enc_round, quad_of. cbn [q0 q1 q2 q3].
  replace (word rk (4 * i)) with (val (nth (4 * i + 0) w col0)) by (rewrite Nat.add_0_r; symmetry; apply Hk; lia).
  rewrite !(Hk (4 * i + _)%nat) by lia.
  rewrite !enc_word_val by (done || by apply nth_col_ok). destruct s as [[] [] [] []].
  cbv beta iota delta [cipher_round add_round_key mix_columns map_st shift_rows sub_bytes map_col
    s0 s1 s2 s3 r0 r1 r2 r3]. reflexivity.
Qed.

(** The loop is [2 * r - 1] rounds. *)
Lemma aes_loop_rounds round r rk k s : (0 < r)%nat ->
  aes_loop round r rk (4 * k) s =
  (foldl (fun s i => round rk (4 * i)%nat s) s (seq (k + 1) (2 * r - 1)), (4 * (k + 2 * r))%nat).
Proof.
  revert k s. induction r as [|r IH]; intros k s Hr; [lia|]. cbn [aes_loop].
  replace (4 * k + 4)%nat with (4 * (k + 1))%nat by lia. replace (4 * k + 8)%nat with (4 * (k + 2))%nat by lia.
  destruct r as [|r]; [cbn; f_equal; lia|]. rewrite IH by lia.
  replace (2 * S (S r) - 1)%nat with (S (S (2 * S r - 1))) by lia. cbn [seq foldl].
  f_equal; [|lia]. do 2 f_equal; [|f_equal; lia]. do 2 f_equal; lia.
Qed.
Lemma rounds_correct (impl : list Z -> nat -> quad -> quad) (ref : st -> nat -> st) rk n l s :
  (forall s i, st_ok s -> (4 * i + 4 <= n)%nat -> impl rk (4 * i)%nat (quad_of s) = quad_of (ref s i)) ->
  (forall s i, st_ok s -> st_ok (ref s i)) -> st_ok s -> Forall (fun i => (4 * i + 4 <= n)%nat) l ->
  foldl (fun q i => impl rk (4 * i)%nat q) (quad_of s) l = quad_of (foldl ref s l) /\ st_ok (foldl ref s l).
Proof.
  intros Himpl Hok. revert s. induction l as [|i l IH]; intros s Hs Hl; [done|].
  apply Forall_cons_1 in Hl as [Hi Hl]. cbn [foldl]. rewrite Himpl by done. apply IH; [by apply Hok|done].
Qed.

(** ** Loading and storing the state *)
Lemma columns_nth n l i : (i < n)%nat ->
  nth i (columns n l) col0 = Col (byte l (4 * i)) (byte l (4 * i + 1)) (byte l (4 * i + 2)) (byte l (4 * i + 3)).
Proof.
  revert l i. induction n as [|n IH]; intros l i Hi; [lia|]. cbn [columns].
  destruct i as [|i]; [done|]. cbn [nth]. rewrite IH by lia. unfold byte.
  rewrite !nth_skipn. do 2 f_equal; lia.
Qed.
Lemma to_state_eq l : to_state l =
  St (Col (byte l 0) (byte l 1) (byte l 2) (byte l 3)) (Col (byte l 4) (byte l 5) (byte l 6) (byte l 7))
     (Col (byte l 8) (byte l 9) (byte l 10) (byte l 11)) (Col (byte l 12) (byte l 13) (byte l 14) (byte l 15)).
Proof. unfold to_state. rewrite !columns_nth by lia. done. Qed.
Lemma to_state_ok l : bytes l -> st_ok (to_state l).
Proof.
  intros Hb. rewrite to_state_eq.
  split; [|split; [|split]]; (split; [|split; [|split]]); by apply byte_fits.
Qed.
Lemma of_to_state l : length l = 16%nat -> of_state (to_state l) = l.
Proof.
  intros Hl. rewrite to_state_eq. do 16 (destruct l as [|? l]; [done|]). by destruct l.
Qed.
Lemma to_of_state s : to_state (of_state s) = s.
Proof. rewrite to_state_eq. by destruct s as [[] [] [] []]. Qed.
Lemma load_state_correct input rk w n : bytes input -> keys rk w n -> keys_ok w -> (4 <= n)%nat ->
  load_state input rk = quad_of (add_round_key w 0 (to_state input)).
Proof.
  intros Hb Hk Hw Hn. unfold load_state. rewrite !(Hk _) by lia. rewrite !GETU32_val by done.
  rewrite !val_xor by (by apply nth_col_ok || (split; [|split; [|split]]; by apply byte_fits)).
  by rewrite to_state_eq.
Qed.
Lemma bytes_of_state s : st_ok s -> bytes (of_state s).
Proof.
  destruct s as [[] [] [] []]. intros ((?&?&?&?) & (?&?&?&?) & (?&?&?&?) & (?&?&?&?)).
  cbn [s0 s1 s2 s3 r0 r1 r2 r3] in *. unfold of_state, col_bytes. cbn [app s0 s1 s2 s3 r0 r1 r2 r3].
  repeat (apply Forall_cons_2; [assumption|]). constructor.
Qed.
Lemma store_state s : st_ok s ->
  PUTU32 (val (s0 s)) ++ PUTU32 (val (s1 s)) ++ PUTU32 (val (s2 s)) ++ PUTU32 (val (s3 s)) = of_state s.
Proof. intros (?&?&?&?). by rewrite !PUTU32_val. Qed.

Lemma half_rounds r : Z.to_nat (Z.of_nat (2 * r) ≫ 1) = r.
Proof.
  rewrite Z.shiftr_div_pow2, Nat2Z.inj_mul, Z.mul_comm by lia. change (2 ^ 1) with (Z.of_nat 2).
  rewrite Z.div_mul by lia. apply Nat2Z.id.
Qed.

(** The whole of AES_encrypt on a schedule of [nr] rounds. *)
Lemma encrypt_state input w rk r : bytes input -> keys rk w (4 * (2 * r + 1)) -> keys_ok w -> (0 < r)%nat ->
  AES_encrypt input (mkKey rk (Z.of_nat (2 * r))) = of_state (cipher w (2 * r) (to_state input)).
Proof.
  intros Hb Hk Hw Hr. unfold AES_encrypt. cbn [rd_key rounds].
  rewrite (load_state_correct input rk w (4 * (2 * r + 1))) by (done || lia).
  rewrite half_rounds.
  rewrite (aes_loop_rounds _ r rk 0) by done. cbn [Nat.add].
  destruct (rounds_correct enc_round (cipher_round w) rk (4 * (2 * r + 1)) (seq 1 (2 * r - 1))
    (add_round_key w 0 (to_state input))) as [-> Hu];
    [intros; by apply (enc_round_correct _ _ (4 * (2 * r + 1)))|intros; by apply cipher_round_ok
    |by apply add_round_key_ok, to_state_ok|by apply Forall_seq; intros; lia|].
  unfold cipher. set (u := foldl _ _ _) in *. pose proof Hu as (H0 & H1 & H2 & H3). cbn [quad_of q0 q1 q2 q3].
  rewrite <- (Nat.add_0_r (4 * (2 * r))) at 1. rewrite !(Hk (4 * (2 * r) + _)%nat) by lia.
  rewrite !last_enc_val by (done || by apply nth_col_ok).
  assert (forall s, st_ok s -> s = add_round_key w (2 * r) (shift_rows (sub_bytes u)) ->
    PUTU32 (val (s0 s)) ++ PUTU32 (val (s1 s)) ++ PUTU32 (val (s2 s)) ++ PUTU32 (val (s3 s)) =
    of_state (add_round_key w (2 * r) (shift_rows (sub_bytes u)))) as H by (intros s Hs <-; by apply store_state).
  pose proof (add_round_key_ok w (2 * r) _ Hw (shift_rows_ok _ (sub_bytes_ok _ Hu))) as Hs.
  specialize (H _ Hs eq_refl). rewrite <- H. clear. destruct u as [[] [] [] []].
  cbv beta iota delta [add_round_key map_st shift_rows sub_bytes map_col s0 s1 s2 s3 r0 r1 r2 r3]. reflexivity.
Qed.

(** ** Decryption *)
Definition inv_sub_shift (s : st) : st :=
  let '(St a b c d) := s in
  St (Col (inv_sbox (r0 a)) (inv_sbox (r1 d)) (inv_sbox (r2 c)) (inv_sbox (r3 b)))
     (Col (inv_sbox (r0 b)) (inv_sbox (r1 a)) (inv_sbox (r2 d)) (inv_sbox (r3 c)))
     (Col (inv_sbox (r0 c)) (inv_sbox (r1 b)) (inv_sbox (r2 a)) (inv_sbox (r3 d)))
     (Col (inv_sbox (r0 d)) (inv_sbox (r1 c)) (inv_sbox (r2 b)) (inv_sbox (r3 a))).
Definition inv_round (w : list col) (s : st) (i : nat) : st :=
  add_round_key w i (map_st inv_mix_col (inv_sub_shift s)).
Definition inv_cipher (w : list col) (nr : nat) (input : st) : st :=
  add_round_key w nr (inv_sub_shift (foldl (inv_round w) (add_round_key w 0 input) (seq 1 (nr - 1)))).

Lemma inv_sub_shift_sub s : st_ok s -> inv_sub_shift (shift_rows (sub_bytes s)) = s.
Proof.
  destruct s as [[] [] [] []]. intros ((?&?&?&?) & (?&?&?&?) & (?&?&?&?) & (?&?&?&?)).
  cbn [s0 s1 s2 s3 r0 r1 r2 r3] in *.
  cbv beta iota delta [inv_sub_shift map_st shift_rows sub_bytes map_col s0 s1 s2 s3 r0 r1 r2 r3].
  by rewrite !inv_sbox_sbox.
Qed.
Lemma inv_sub_shift_ok s : st_ok s -> st_ok (inv_sub_shift s).
Proof.
  destruct s as [[] [] [] []]. intros ((?&?&?&?) & (?&?&?&?) & (?&?&?&?) & (?&?&?&?)).
  cbn [s0 s1 s2 s3 r0 r1 r2 r3] in *. cbv beta iota delta [inv_sub_shift r0 r1 r2 r3].
  split; [|split; [|split]]; (split; [|split; [|split]]); by apply inv_sbox_fits.
Qed.
Lemma inv_round_ok w s i : keys_ok w -> st_ok s -> st_ok (inv_round w s i).
Proof. intros. apply add_round_key_ok, map_st_ok, inv_sub_shift_ok; try done. apply inv_mix_col_ok. Qed.

Lemma dec_round_correct rk w n s i : keys rk w n -> keys_ok w -> st_ok s -> (4 * i + 4 <= n)%nat ->
  dec_round rk (4 * i) (quad_of s) = quad_of (inv_round w s i).
Proof.
  intros Hk Hw (H0 & H1 & H2 & H3) Hi. unfold dec_round, quad_of. cbn [q0 q1 q2 q3].
  replace (word rk (4 * i)) with (val (nth (4 * i + 0) w col0)) by (rewrite Nat.add_0_r; symmetry; apply Hk; lia).
  rewrite !(Hk (4 * i + _)%nat) by lia.
  rewrite !dec_word_val by (done || by apply nth_col_ok). destruct s as [[] [] [] []].
  cbv beta iota delta [inv_round add_round_key map_st inv_sub_shift s0 s1 s2 s3 r0 r1 r2 r3]. reflexivity.
Qed.

Lemma decrypt_state input w rk r : bytes input -> keys rk w (4 * (2 * r + 1)) -> keys_ok w -> (0 < r)%nat ->
  AES_decrypt input (mkKey rk (Z.of_nat (2 * r))) = of_state (inv_cipher w (2 * r) (to_state input)).
Proof.
  intros Hb Hk Hw Hr. unfold AES_decrypt. cbn [rd_key rounds].
  rewrite (load_state_correct input rk w (4 * (2 * r + 1))), half_rounds by (done || lia).
  rewrite (aes_loop_rounds _ r rk 0) by done. cbn [Nat.add].
  destruct (rounds_correct dec_round (inv_round w) rk (4 * (2 * r + 1)) (seq 1 (2 * r - 1))
    (add_round_key w 0 (to_state input))) as [-> Hu];
    [intros; by apply (dec_round_correct _ _ (4 * (2 * r + 1)))|intros; by apply inv_round_ok
    |by apply add_round_key_ok, to_state_ok|by apply Forall_seq; intros; lia|].
  unfold inv_cipher. set (u := foldl _ _ _) in *. pose proof Hu as (H0 & H1 & H2 & H3). cbn [quad_of q0 q1 q2 q3].
  rewrite <- (Nat.add_0_r (4 * (2 * r))) at 1. rewrite !(Hk (4 * (2 * r) + _)%nat) by lia.
  rewrite !last_dec_val by (done || by apply nth_col_ok).
  pose proof (add_round_key_ok w (2 * r) _ Hw (inv_sub_shift_ok _ Hu)) as Hs.
  pose proof (store_state _ Hs) as H. rewrite <- H. clear. destruct u as [[] [] [] []].
  cbv beta iota delta [add_round_key map_st inv_sub_shift s0 s1 s2 s3 r0 r1 r2 r3]. reflexivity.
Qed.

(** The schedule of decryption: the blocks in the other order, the inner ones
    with the columns unmixed. *)
Definition dec_keys (w dw : list col) (nr : nat) : Prop := forall i j, (i <= nr)%nat -> (j < 4)%nat ->
  nth (4 * i + j) dw col0 =
  (if (i =? 0)%nat || (i =? nr)%nat then (fun c => c) else inv_mix_col) (nth (4 * (nr - i) + j) w col0).

Lemma inv_add_round_key w i s : add_round_key w i (add_round_key w i s) = s.
Proof. destruct s. unfold add_round_key. cbn [s0 s1 s2 s3]. by rewrite !xor_col_twice. Qed.
Lemma inv_round_round w dw nr i u : dec_keys w dw nr -> keys_ok w -> st_ok u -> (0 < i < nr)%nat ->
  inv_round dw (shift_rows (sub_bytes (cipher_round w u (nr - i)))) i = shift_rows (sub_bytes u).
Proof.
  intros Hd Hw Hu Hi. unfold inv_round. rewrite inv_sub_shift_sub by by apply cipher_round_ok.
  unfold cipher_round. set (x := shift_rows (sub_bytes u)).
  assert (st_ok x) as Hx by by apply shift_rows_ok, sub_bytes_ok.
  assert (forall s, add_round_key dw i (map_st inv_mix_col s) = map_st inv_mix_col (add_round_key w (nr - i) s)) as E.
  { intros [a b c d]. unfold add_round_key, map_st. cbn [s0 s1 s2 s3]. rewrite !Hd by lia.
    rewrite (proj2 (Nat.eqb_neq i 0)), (proj2 (Nat.eqb_neq i nr)) by lia. cbn [orb].
    by rewrite !inv_mix_xor. }
  rewrite E, inv_add_round_key. clearbody x. destruct x as [a b c d], Hx as (Hx0 & Hx1 & Hx2 & Hx3).
  unfold mix_columns, map_st. cbn [s0 s1 s2 s3] in *.
  by rewrite (inv_mix_mix a Hx0), (inv_mix_mix b Hx1), (inv_mix_mix c Hx2), (inv_mix_mix d Hx3).
Qed.
Lemma inv_cipher_cipher w dw nr input : dec_keys w dw nr -> keys_ok w -> st_ok input -> (0 < nr)%nat ->
  inv_cipher dw nr (cipher w nr input) = input.
Proof.
  intros Hd Hw Hs Hnr. unfold cipher, inv_cipher.
  assert (forall s, add_round_key dw 0 s = add_round_key w nr s) as E0.
  { intros []. unfold add_round_key. cbn [s0 s1 s2 s3]. rewrite !Hd by lia. cbn [Nat.eqb orb].
    by rewrite Nat.sub_0_r. }
  assert (forall s, add_round_key dw nr s = add_round_key w 0 s) as En.
  { intros []. unfold add_round_key. cbn [s0 s1 s2 s3]. rewrite !Hd by lia.
    rewrite Nat.eqb_refl, orb_true_r. by rewrite Nat.sub_diag. }
  rewrite E0, En, inv_add_round_key.
  set (u n := foldl (cipher_round w) (add_round_key w 0 input) (seq 1 n)).
  assert (forall n, st_ok (u n)) as Hu.
  { induction n as [|n IH]; [by apply add_round_key_ok|]. unfold u. rewrite seq_S, foldl_app.
    by apply cipher_round_ok. }
  assert (forall n, (n <= nr - 1)%nat ->
    foldl (inv_round dw) (shift_rows (sub_bytes (u (nr - 1)%nat))) (seq 1 n) = shift_rows (sub_bytes (u (nr - 1 - n)%nat))) as H.
  { induction n as [|n IH]; intros Hn; [by rewrite Nat.sub_0_r|]. rewrite seq_S, foldl_app, IH by lia. cbn [foldl].
    replace (nr - 1 - n)%nat with (S (nr - 1 - S n))%nat by lia. unfold u at 1. rewrite seq_S, foldl_app. cbn [foldl].
    fold (u (nr - 1 - S n)%nat). replace (1 + (nr - 1 - S n))%nat with (nr - (1 + n))%nat by lia.
    apply inv_round_round; try done. lia. }
  change (foldl (cipher_round w) (add_round_key w 0 input) (seq 1 (nr - 1))) with (u (nr - 1)%nat).
  rewrite H, Nat.sub_diag, inv_sub_shift_sub by (done || lia). apply inv_add_round_key.
Qed.

(** ** Key expansion *)
Section Grow.
Context {A : Type} (f : list A -> A) (d : A).
Definition grow (n : nat) (k : list A) : list A := Nat.iter n (fun w => w ++ [f w]) k.
Lemma length_grow n k : length (grow n k) = (length k + n)%nat.
Proof.
  induction n as [|n IH]; [cbn; lia|]. change (grow (S n) k) with (grow n k ++ [f (grow n k)]).
  rewrite length_app, IH. cbn [length]. lia.
Qed.
Lemma take_grow n m k : (m <= n)%nat -> take (length k + m) (grow n k) = grow m k.
Proof.
  induction n as [|n IH]; intros Hm.
  - replace m with 0%nat by lia. rewrite Nat.add_0_r. by apply take_ge.
  - destruct (Nat.eq_dec m (S n)) as [->|]; [apply take_ge; rewrite length_grow; lia|].
    change (grow (S n) k) with (grow n k ++ [f (grow n k)]).
    rewrite take_app_le by (rewrite length_grow; lia). apply IH. lia.
Qed.
Lemma nth_grow n k i : (length k <= i < length k + n)%nat -> nth i (grow n k) d = f (take i (grow n k)).
Proof.
  intros Hi. replace i with (length k + (i - length k))%nat at 2 by lia. rewrite take_grow by lia.
  set (m := (i - length k)%nat). rewrite <- (take_drop (length k + S m) (grow n k)), take_grow by lia.
  rewrite app_nth1 by (rewrite length_grow; lia).
  change (grow (S m) k) with (grow m k ++ [f (grow m k)]).
  rewrite app_nth2, length_grow by (rewrite length_grow; lia).
  by replace (i - (length k + m))%nat with 0%nat by lia.
Qed.
End Grow.

Lemma rcon_col_ok i : col_ok (rcon_col i).
Proof.
  split; [|split; [|split]]; cbn [rcon_col r0 r1 r2 r3]; try by apply fits_0.
  induction (i - 1)%nat; [split; vm_compute; congruence|]. rewrite Nat.iter_succ. apply xtime_fits.
Qed.
Definition key_temp (nk i : nat) (temp : col) : col :=
  if (i mod nk =? 0)%nat then xor_col (map_col sbox (rot_word temp)) (rcon_col (i / nk))
  else if (6 <? nk)%nat && (i mod nk =? 4)%nat then map_col sbox temp
  else temp.
Lemma key_temp_ok nk i c : col_ok c -> col_ok (key_temp nk i c).
Proof.
  intros Hc. unfold key_temp. repeat case_if; try done.
  - apply col_ok_xor; [|apply rcon_col_ok]. apply col_ok_map; [apply sbox_fits|].
    destruct Hc as (?&?&?&?). split; [|split; [|split]]; done.
  - apply col_ok_map; [apply sbox_fits|done].
Qed.
Lemma expansion_ok key nr : keys_ok key -> keys_ok (key_expansion key nr).
Proof.
  intros Hk. unfold key_expansion. generalize (4 * (nr + 1) - length key)%nat as n.
  induction n as [|n IH]; [done|]. rewrite Nat.iter_succ. apply Forall_app. split; [done|].
  apply Forall_cons_2; [|constructor]. unfold next_key. apply col_ok_xor; [by apply nth_col_ok|].
  apply key_temp_ok. by apply nth_col_ok.
Qed.
Lemma length_expansion key nr : (length key <= 4 * (nr + 1))%nat -> length (key_expansion key nr) = (4 * (nr + 1))%nat.
Proof. intros. unfold key_expansion. fold (grow (next_key (length key)) (4 * (nr + 1) - length key) key). rewrite length_grow. lia. Qed.
Lemma expansion_nth key nr i : (0 < length key <= i)%nat -> (i < 4 * (nr + 1))%nat ->
  nth i (key_expansion key nr) col0 =
  xor_col (nth (i - length key) (key_expansion key nr) col0)
    (key_temp (length key) i (nth (i - 1) (key_expansion key nr) col0)).
Proof.
  intros Hk Hi. pose proof (length_expansion key nr ltac:(lia)) as Hl. unfold key_expansion in *.
  set (n := (4 * (nr + 1) - length key)%nat) in *. change (Nat.iter n _ key) with (grow (next_key (length key)) n key) in *.
  rewrite nth_grow by lia. set (W := grow _ n key) in *. unfold next_key, key_temp.
  rewrite length_take, Nat.min_l by lia.
  assert (forall j, (j < i)%nat -> nth j (take i W) col0 = nth j W col0) as E.
  { intros j Hj. rewrite <- (take_drop i W) at 2. rewrite app_nth1; [done|]. rewrite length_take. lia. }
  by rewrite !E by lia.
Qed.

(** The array of AES_KEY has room for every schedule. *)
Definition rd_words : nat := 60.
Section Schedule.
Variables (key : list col) (nr nk : nat).
Context (Hkey : keys_ok key) (Hnk : length key = nk) (Hpos : (0 < nk <= 8)%nat) (Hroom : (4 * (nr + 1) <= rd_words)%nat).
Local Abbreviation W := (key_expansion key nr).
Definition sched (rk : list Z) (n : nat) : Prop := keys rk W n /\ length rk = rd_words.

Lemma sched_put rk n v : sched rk n -> (n < 4 * (nr + 1))%nat -> v = val (nth n W col0) ->
  sched (put_word rk n v) (S n).
Proof.
  clear Hkey Hnk Hpos. intros [Hk Hl] Hn ->. split; [|by unfold put_word; rewrite length_insert].
  intros i Hi. unfold word, put_word. destruct (Nat.eq_dec i n) as [->|Hne].
  - rewrite nth_lookup, list_lookup_insert_eq by lia. done.
  - rewrite nth_lookup, list_lookup_insert_ne, <- nth_lookup by lia. apply Hk. lia.
Qed.
(** The word [n = nk * q + c] from the two it depends on. *)
Lemma sched_word q c n temp rk : n = (nk * q + c)%nat -> (c < nk <= n)%nat -> (n < 4 * (nr + 1))%nat ->
  sched rk n -> (forall k, col_ok k -> word rk (n - 1) = val k -> temp = val (key_temp nk n k)) ->
  sched (put_word rk n (word rk (n - nk) .^ temp)) (S n).
Proof.
  intros -> Hc Hn Hs Ht. apply sched_put; [done..|]. destruct Hs as [Hk _].
  assert (col_ok (nth (nk * q + c - 1) W col0)) as Hok by by apply nth_col_ok, expansion_ok.
  rewrite (Ht _ Hok), Hk, val_xor by (first [lia | by apply nth_col_ok, expansion_ok | by apply key_temp_ok | apply Hk; lia]).
  rewrite (expansion_nth key nr (nk * q + c)), Hnk by (rewrite ?Hnk; lia). done.
Qed.
Lemma key_temp_plain q c k : (0 < c < nk)%nat -> (nk <= 6)%nat \/ c <> 4%nat -> key_temp nk (nk * q + c) k = k.
Proof.
  intros Hc Hor. unfold key_temp. rewrite Nat.mul_comm, Nat.add_comm, Nat.Div0.mod_add, Nat.mod_small by lia.
  rewrite (proj2 (Nat.eqb_neq c 0)) by lia. destruct (Nat.ltb_spec 6 nk), (Nat.eqb_spec c 4); try done; lia.
Qed.
Lemma sched_chain q c o d rk : (o + d = nk * q + c)%nat -> (0 < c < nk)%nat -> (0 < q)%nat ->
  (nk <= 6)%nat \/ c <> 4%nat -> (o + d < 4 * (nr + 1))%nat ->
  sched rk (o + d) -> sched (chain o rk d nk) (S (o + d)).
Proof.
  intros E Hc Hq Hor Hn Hs. unfold chain. apply (sched_word q c); try done; [split; [lia|nia]|].
  intros k Hk Hw. by rewrite E, key_temp_plain, <- E.
Qed.
Lemma sched_mix q n rk : n = (nk * q)%nat -> (0 < q <= 10)%nat -> (n < 4 * (nr + 1))%nat -> sched rk n ->
  sched (put_word rk n (word rk (n - nk) .^ key_mix (word rk (n - 1)) (q - 1))) (S n).
Proof.
  intros E Hq Hn Hs. apply (sched_word q 0); try done; [lia|split; [lia|nia]|].
  intros k Hk ->. unfold key_temp. rewrite E, Nat.mul_comm, Nat.Div0.mod_mul, Nat.div_mul by lia.
  rewrite Nat.eqb_refl. rewrite (key_mix_val k Hk) by lia. by replace (q - 1 + 1)%nat with q by lia.
Qed.
Lemma sched_mix4 q n rk : nk = 8%nat -> n = (nk * q + 4)%nat -> (0 < q)%nat -> (n < 4 * (nr + 1))%nat -> sched rk n ->
  sched (put_word rk n (word rk (n - nk) .^ key_mix4 (word rk (n - 1)))) (S n).
Proof.
  intros E8 E Hq Hn Hs. apply (sched_word q 4); try done; [lia|].
  intros k Hk ->. unfold key_temp. rewrite E, Nat.mul_comm, Nat.add_comm, Nat.Div0.mod_add, Nat.mod_small by lia.
  rewrite E8. cbn [Nat.eqb Nat.ltb Nat.leb andb]. by apply key_mix4_val.
Qed.
End Schedule.

Lemma expand128_correct key nr n i rk : keys_ok key -> length key = 4%nat -> nr = 10%nat -> (i + n = 10)%nat ->
  sched key nr rk (4 * (i + 1)) -> sched key nr (expand128 n i (4 * i) rk) 44.
Proof.
  intros Hk Hl -> . revert i rk. induction n as [|n IH]; intros i rk Hi Hs.
  { replace i with 10%nat in * by lia. exact Hs. }
  cbn [expand128]. cbv zeta.
  pose proof (sched_mix key 10 4 Hk Hl ltac:(lia) ltac:(unfold rd_words; lia) (i + 1) (4 * i + 4) rk) as H1.
  replace (4 * i + 4 - 4)%nat with (4 * i)%nat in H1 by lia.
  replace (4 * i + 4 - 1)%nat with (4 * i + 3)%nat in H1 by lia.
  replace (i + 1 - 1)%nat with i in H1 by lia.
  replace (4 * (i + 1))%nat with (4 * i + 4)%nat in Hs by lia.
  specialize (H1 ltac:(lia) ltac:(lia) ltac:(lia) Hs). clear Hs.
  replace (S (4 * i + 4)) with (4 * i + 5)%nat in H1 by lia.
  assert (forall d rk, (4 < d < 8)%nat -> sched key 10 rk (4 * i + d) ->
            sched key 10 (chain (4 * i) rk d 4) (4 * i + S d)) as Hc.
  { intros d rk' Hd Hs. replace (4 * i + S d)%nat with (S (4 * i + d)) by lia.
    apply (sched_chain key 10 4 Hk Hl ltac:(lia) ltac:(unfold rd_words; lia) (i + 1) (d - 4)); try done; lia. }
  replace (4 * i + 4)%nat with (4 * (i + 1))%nat by lia. apply IH; [lia|].
  replace (4 * (i + 1 + 1))%nat with (4 * i + 8)%nat by lia. replace (4 * (i + 1))%nat with (4 * i + 4)%nat by lia.
  do 3 (apply Hc; [lia|]). exact H1.
Qed.
Lemma expand192_correct key nr n i rk : keys_ok key -> length key = 6%nat -> nr = 12%nat -> (i + n = 8)%nat ->
  (0 < n)%nat -> sched key nr rk (6 * (i + 1)) -> sched key nr (expand192 n i (6 * i) rk) 52.
Proof.
  intros Hk Hl ->. revert i rk. induction n as [|n IH]; intros i rk Hi Hn Hs; [lia|].
  cbn [expand192]. cbv zeta.
  pose proof (sched_mix key 12 6 Hk Hl ltac:(lia) ltac:(unfold rd_words; lia) (i + 1) (6 * i + 6) rk) as H1.
  replace (6 * i + 6 - 6)%nat with (6 * i)%nat in H1 by lia.
  replace (6 * i + 6 - 1)%nat with (6 * i + 5)%nat in H1 by lia.
  replace (i + 1 - 1)%nat with i in H1 by lia.
  replace (6 * (i + 1))%nat with (6 * i + 6)%nat in Hs by lia.
  specialize (H1 ltac:(lia) ltac:(lia) ltac:(lia) Hs). clear Hs.
  replace (S (6 * i + 6)) with (6 * i + 7)%nat in H1 by lia.
  assert (forall d rk, (6 < d < 12)%nat -> (6 * i + d < 52)%nat -> sched key 12 rk (6 * i + d) ->
            sched key 12 (chain (6 * i) rk d 6) (6 * i + S d)) as Hc.
  { intros d rk' Hd Hlt Hs. replace (6 * i + S d)%nat with (S (6 * i + d)) by lia.
    apply (sched_chain key 12 6 Hk Hl ltac:(lia) ltac:(unfold rd_words; lia) (i + 1) (d - 6)); try done; lia. }
  do 3 (apply Hc in H1; [|lia|lia]). destruct n as [|n].
  { replace 52%nat with (6 * i + 10)%nat by lia. exact H1. }
  replace (6 * i + 6)%nat with (6 * (i + 1))%nat by lia. apply IH; [lia|lia|].
  replace (6 * (i + 1 + 1))%nat with (6 * i + 12)%nat by lia. replace (6 * (i + 1))%nat with (6 * i + 6)%nat by lia.
  do 2 (apply Hc; [lia|lia|]). exact H1.
Qed.
Lemma expand256_correct key nr n i rk : keys_ok key -> length key = 8%nat -> nr = 14%nat -> (i + n = 7)%nat ->
  (0 < n)%nat -> sched key nr rk (8 * (i + 1)) -> sched key nr (expand256 n i (8 * i) rk) 60.
Proof.
  intros Hk Hl ->. revert i rk. induction n as [|n IH]; intros i rk Hi Hn Hs; [lia|].
  cbn [expand256]. cbv zeta.
  pose proof (sched_mix key 14 8 Hk Hl ltac:(lia) ltac:(unfold rd_words; lia) (i + 1) (8 * i + 8) rk) as H1.
  replace (8 * i + 8 - 8)%nat with (8 * i)%nat in H1 by lia.
  replace (8 * i + 8 - 1)%nat with (8 * i + 7)%nat in H1 by lia.
  replace (i + 1 - 1)%nat with i in H1 by lia.
  replace (8 * (i + 1))%nat with (8 * i + 8)%nat in Hs by lia.
  specialize (H1 ltac:(lia) ltac:(lia) ltac:(lia) Hs). clear Hs.
  replace (S (8 * i + 8)) with (8 * i + 9)%nat in H1 by lia.
  assert (forall d rk, (8 < d < 16)%nat -> d <> 12%nat -> (8 * i + d < 60)%nat -> sched key 14 rk (8 * i + d) ->
            sched key 14 (chain (8 * i) rk d 8) (8 * i + S d)) as Hc.
  { intros d rk' Hd Hne Hlt Hs. replace (8 * i + S d)%nat with (S (8 * i + d)) by lia.
    apply (sched_chain key 14 8 Hk Hl ltac:(lia) ltac:(unfold rd_words; lia) (i + 1) (d - 8)); try done; lia. }
  do 3 (apply Hc in H1; [|lia|lia|lia]). destruct n as [|n].
  { replace 60%nat with (8 * i + 12)%nat by lia. exact H1. }
  set (rk1 := chain (8 * i) _ 11 8) in *.
  pose proof (sched_mix4 key 14 8 Hk Hl ltac:(lia) ltac:(unfold rd_words; lia) (i + 1) (8 * i + 12) rk1) as H2.
  replace (8 * i + 12 - 8)%nat with (8 * i + 4)%nat in H2 by lia.
  replace (8 * i + 12 - 1)%nat with (8 * i + 11)%nat in H2 by lia.
  specialize (H2 ltac:(lia) ltac:(lia) ltac:(lia) ltac:(lia) H1).
  replace (S (8 * i + 12)) with (8 * i + 13)%nat in H2 by lia.
  replace (8 * i + 8)%nat with (8 * (i + 1))%nat by lia. apply IH; [lia|lia|].
  replace (8 * (i + 1 + 1))%nat with (8 * i + 16)%nat by lia.
  do 3 (apply Hc; [lia|lia|lia|]). exact H2.
Qed.

Lemma columns_ok n l : bytes l -> keys_ok (columns n l).
Proof.
  revert l. induction n as [|n IH]; intros l Hb; constructor.
  - split; [|split; [|split]]; by apply byte_fits.
  - apply IH. by apply Forall_drop.
Qed.
Lemma length_columns n l : length (columns n l) = n.
Proof. revert l. induction n; intros; simpl; congruence. Qed.
Lemma nth_expansion_key key nr i : (i < length key)%nat -> nth i (key_expansion key nr) col0 = nth i key col0.
Proof.
  intros Hi. unfold key_expansion. set (n := (_ - _)%nat). clearbody n.
  change (Nat.iter n _ key) with (grow (next_key (length key)) n key).
  rewrite <- (take_drop (length key + 0) (grow (next_key (length key)) n key)), take_grow by lia.
  cbn [grow Nat.iter nat_rect]. by rewrite app_nth1.
Qed.
Lemma load_key_sched n userKey rk nr : bytes userKey -> (0 < n <= 8)%nat -> (n <= 4 * (nr + 1))%nat ->
  (4 * (nr + 1) <= rd_words)%nat -> length rk = rd_words ->
  sched (columns n userKey) nr (load_key n userKey rk) n.
Proof.
  intros Hb Hn Hle Hroom Hl. unfold load_key.
  enough (forall m, (m <= n)%nat -> sched (columns n userKey) nr
    (foldl (fun rk i => put_word rk i (GETU32 userKey (4 * i))) rk (seq 0 m)) m) as H by (by apply H).
  induction m as [|m IH]; intros Hm; [split; [intros i Hi; lia|done]|].
  rewrite seq_S, foldl_app. cbn [foldl Nat.add].
  apply sched_put; [done|apply IH; lia|lia|].
  rewrite GETU32_val, nth_expansion_key, columns_nth by (rewrite ?length_columns; done || lia). done.
Qed.
(** The schedule of AES_set_encrypt_key. *)
Lemma encrypt_key_sched userKey bits key : bytes userKey -> length (rd_key key) = rd_words ->
  bits = 128 \/ bits = 192 \/ bits = 256 ->
  let nk := Z.to_nat (bits / 32) in
  let '(status, key') := AES_set_encrypt_key userKey bits key in
  status = 0 /\ rounds key' = Z.of_nat (nk + 6) /\
  sched (columns nk userKey) (nk + 6) (rd_key key') (4 * (nk + 7)).
Proof.
  intros Hb Hl [->|[->| ->]]; unfold AES_set_encrypt_key.
  - change (Z.to_nat (128 / 32)) with 4%nat. cbn [Z.eqb Pos.eqb negb andb rd_key rounds Nat.add Nat.mul].
    do 2 (split; [done|]). apply (expand128_correct _ 10 10 0); try done; [by apply columns_ok|].
    apply load_key_sched; try done; unfold rd_words; lia.
  - change (Z.to_nat (192 / 32)) with 6%nat. cbn [Z.eqb Pos.eqb negb andb rd_key rounds Nat.add Nat.mul].
    do 2 (split; [done|]). apply (expand192_correct _ 12 8 0); try done; [by apply columns_ok|lia|].
    apply load_key_sched; try done; unfold rd_words; lia.
  - change (Z.to_nat (256 / 32)) with 8%nat. cbn [Z.eqb Pos.eqb negb andb rd_key rounds Nat.add Nat.mul].
    do 2 (split; [done|]). apply (expand256_correct _ 14 7 0); try done; [by apply columns_ok|lia|].
    apply load_key_sched; try done; unfold rd_words; lia.
Qed.

(** ** The schedule of decryption *)
Lemma word_put rk i v m : (i < length rk)%nat ->
  word (put_word rk i v) m = if (m =? i)%nat then v else word rk m.
Proof.
  intros Hi. unfold word, put_word. rewrite nth_lookup. destruct (Nat.eqb_spec m i) as [->|Hne].
  - by rewrite list_lookup_insert_eq.
  - by rewrite list_lookup_insert_ne, <- nth_lookup by done.
Qed.
Lemma length_put rk i v : length (put_word rk i v) = length rk.
Proof. apply length_insert. Qed.
Lemma length_swap rk i j : length (swap_words rk i j) = length rk.
Proof. unfold swap_words. by rewrite !length_put. Qed.
Lemma word_swap rk i j m : (i < length rk)%nat -> (j < length rk)%nat ->
  word (swap_words rk i j) m =
  if (m =? j)%nat then word rk i else if (m =? i)%nat then word rk j else word rk m.
Proof. intros. unfold swap_words. by rewrite !word_put by (rewrite ?length_put; done). Qed.
Definition swap4 (rk : list Z) (i j : nat) : list Z :=
  swap_words (swap_words (swap_words (swap_words rk i j) (i + 1) (j + 1)) (i + 2) (j + 2)) (i + 3) (j + 3).
Lemma word_swap4 rk i j m : (i + 4 <= j)%nat -> (j + 4 <= length rk)%nat ->
  word (swap4 rk i j) m =
  if (i <=? m)%nat && (m <? i + 4)%nat then word rk (m - i + j)
  else if (j <=? m)%nat && (m <? j + 4)%nat then word rk (m - j + i) else word rk m.
Proof.
  intros Hij Hj. unfold swap4. rewrite !word_swap by (rewrite ?length_swap; lia).
  repeat match goal with |- context [(?a =? ?b)%nat] => destruct (Nat.eqb_spec a b); try lia end;
  repeat match goal with |- context [(?a <=? ?b)%nat] => destruct (Nat.leb_spec a b); try lia end;
  repeat match goal with |- context [(?a <? ?b)%nat] => destruct (Nat.ltb_spec a b); try lia end;
  cbn [andb]; try done; f_equal; lia.
Qed.
Lemma invert_order_blocks n k nr rk : (4 * (nr + 1) <= length rk)%nat -> (k <= nr)%nat -> (nr <= 2 * (k + n))%nat ->
  length (invert_order n (4 * k) (4 * (nr - k)) rk) = length rk /\
  forall a b, (b < 4)%nat -> (a <= nr)%nat -> word (invert_order n (4 * k) (4 * (nr - k)) rk) (4 * a + b) =
    if (k <=? a)%nat && (a <=? nr - k)%nat then word rk (4 * (nr - a) + b) else word rk (4 * a + b).
Proof.
  revert k rk. induction n as [|n IH]; intros k rk Hl Hk Hn; cbn [invert_order].
  { split; [done|]. intros a b Hb Ha.
    destruct (Nat.leb_spec k a), (Nat.leb_spec a (nr - k)); try done. cbn [andb]. f_equal. lia. }
  destruct (Nat.ltb_spec (4 * k) (4 * (nr - k))) as [Hlt|Hge].
  2:{ split; [done|]. intros a b Hb Ha.
    destruct (Nat.leb_spec k a), (Nat.leb_spec a (nr - k)); try done. cbn [andb]. f_equal. lia. }
  cbv zeta. fold (swap4 rk (4 * k) (4 * (nr - k))).
  replace (4 * k + 4)%nat with (4 * (k + 1))%nat by lia.
  replace (4 * (nr - k) - 4)%nat with (4 * (nr - (k + 1)))%nat by lia.
  assert (length (swap4 rk (4 * k) (4 * (nr - k))) = length rk) as Hls by (unfold swap4; by rewrite !length_swap).
  destruct (IH (k + 1)%nat (swap4 rk (4 * k) (4 * (nr - k)))) as [El Ew]; [rewrite Hls; lia|lia|lia|].
  split; [by rewrite El|]. intros a b Hb Ha. rewrite Ew, !word_swap4 by lia.
  repeat match goal with |- context [(?a <=? ?b)%nat] => destruct (Nat.leb_spec a b); try lia end;
  repeat match goal with |- context [(?a <? ?b)%nat] => destruct (Nat.ltb_spec a b); try lia end;
  cbn [andb]; try done; f_equal; lia.
Qed.
Lemma inv_mix_keys_words nr rk : (4 * (nr + 1) <= length rk)%nat -> (0 < nr)%nat ->
  length (inv_mix_keys nr rk) = length rk /\
  forall m, word (inv_mix_keys nr rk) m =
    if (4 <=? m)%nat && (m <? 4 * nr)%nat then inv_mix_word (word rk m) else word rk m.
Proof.
  intros Hl Hnr. unfold inv_mix_keys.
  enough (forall n, (n <= 4 * (nr - 1))%nat ->
    let rk' := foldl (fun rk i => put_word rk i (inv_mix_word (word rk i))) rk (seq 4 n) in
    length rk' = length rk /\ forall m, word rk' m =
      if (4 <=? m)%nat && (m <? 4 + n)%nat then inv_mix_word (word rk m) else word rk m) as H.
  { destruct (H (4 * (nr - 1))%nat ltac:(lia)) as [E1 E2]. split; [done|]. intros m. rewrite E2.
    by replace (4 + 4 * (nr - 1))%nat with (4 * nr)%nat by lia. }
  induction n as [|n IH]; intros Hn rk'.
  { split; [done|]. intros m. destruct (Nat.leb_spec 4 m), (Nat.ltb_spec m (4 + 0)); try done; lia. }
  destruct (IH ltac:(lia)) as [E1 E2]. clear IH. unfold rk'. rewrite seq_S, foldl_app. cbn [foldl].
  rewrite length_put. split; [done|]. intros m. rewrite word_put, !E2 by (rewrite E1; lia).
  repeat match goal with |- context [(?a =? ?b)%nat] => destruct (Nat.eqb_spec a b); subst; try lia end;
  repeat match goal with |- context [(?a <=? ?b)%nat] => destruct (Nat.leb_spec a b); try lia end;
  repeat match goal with |- context [(?a <? ?b)%nat] => destruct (Nat.ltb_spec a b); try lia end; done.
Qed.

Definition dec_schedule (w : list col) (nr : nat) : list col :=
  map (fun m => (if (m / 4 =? 0)%nat || (m / 4 =? nr)%nat then (fun c => c) else inv_mix_col)
                  (nth (4 * (nr - m / 4) + m mod 4) w col0)) (seq 0 (4 * (nr + 1))).
Lemma block_index a b : (b < 4)%nat -> ((4 * a + b) / 4 = a)%nat /\ ((4 * a + b) mod 4 = b)%nat.
Proof.
  intros. split.
  - rewrite Nat.mul_comm, Nat.div_add_l, Nat.div_small by lia. lia.
  - rewrite Nat.add_comm, Nat.mul_comm, Nat.Div0.mod_add. by apply Nat.mod_small.
Qed.
Lemma dec_schedule_keys w nr : dec_keys w (dec_schedule w nr) nr.
Proof.
  intros i j Hi Hj. destruct (block_index i j Hj) as [E1 E2]. unfold dec_schedule.
  rewrite nth_lookup, list_lookup_fmap, lookup_seq_lt by lia. cbn [fmap option_fmap option_map default Nat.add].
  by rewrite E1, E2.
Qed.
Lemma dec_schedule_ok w nr : keys_ok w -> keys_ok (dec_schedule w nr).
Proof.
  intros Hw. unfold dec_schedule. apply Forall_map, Forall_true. intros m.
  case_if; [by apply nth_col_ok|]. by apply inv_mix_col_ok, nth_col_ok.
Qed.
Lemma decrypt_key_words key nr rk : keys_ok key -> sched key nr rk (4 * (nr + 1)) -> (0 < nr)%nat ->
  (4 * (nr + 1) <= rd_words)%nat ->
  keys (inv_mix_keys nr (invert_order nr 0 (4 * nr) rk)) (dec_schedule (key_expansion key nr) nr) (4 * (nr + 1)).
Proof.
  intros Hkey [Hk Hl] Hnr Hroom m Hm. pose proof (expansion_ok key nr Hkey) as HW.
  destruct (invert_order_blocks nr 0 nr rk) as [El Ew]; [lia..|].
  change (4 * 0)%nat with 0%nat in *. rewrite Nat.sub_0_r in *.
  destruct (inv_mix_keys_words nr (invert_order nr 0 (4 * nr) rk)) as [_ Em]; [lia..|].
  rewrite Em. rewrite (Nat.div_mod_eq m 4). set (a := (m / 4)%nat). set (b := (m mod 4)%nat).
  assert (b < 4)%nat as Hb by by apply Nat.mod_upper_bound.
  assert (a <= nr)%nat as Ha by (pose proof (Nat.div_mod_eq m 4); lia).
  rewrite (dec_schedule_keys _ _ a b), Ew by lia. change (0 <=? a)%nat with true. cbn [andb].
  rewrite (proj2 (Nat.leb_le a nr)) by lia. cbv iota. rewrite !Hk by lia.
  destruct (Nat.eqb_spec a 0) as [E0|N0], (Nat.eqb_spec a nr) as [En|Nn]; cbn [orb];
    repeat match goal with |- context [(?a <=? ?b)%nat] => destruct (Nat.leb_spec a b); try lia end;
    repeat match goal with |- context [(?a <? ?b)%nat] => destruct (Nat.ltb_spec a b); try lia end;
    cbn [andb]; try done.
  apply inv_mix_word_val. by apply nth_col_ok.
Qed.

Lemma cipher_ok w nr s : keys_ok w -> st_ok s -> st_ok (cipher w nr s).
Proof.
  intros Hw Hs. unfold cipher. apply add_round_key_ok; [done|]. apply shift_rows_ok, sub_bytes_ok.
  assert (st_ok (add_round_key w 0 s)) as H0 by by apply add_round_key_ok.
  revert H0. generalize (add_round_key w 0 s). induction (seq 1 (nr - 1)) as [|i l IH]; intros u Hu; [done|].
  apply IH. by apply cipher_round_ok.
Qed.

(** ** The theorems *)
Lemma key_rounds bits : bits = 128 \/ bits = 192 \/ bits = 256 ->
  exists r, (0 < r)%nat /\ (Z.to_nat (bits / 32) + 6 = 2 * r)%nat /\ (4 * (2 * r + 1) <= rd_words)%nat.
Proof. intros [->|[->| ->]]; [exists 5%nat|exists 6%nat|exists 7%nat]; unfold rd_words; repeat split; lia. Qed.
Lemma key_words (userKey : list Z) bits : bits = 128 \/ bits = 192 \/ bits = 256 ->
  Z.of_nat (length userKey) = bits / 8 -> (length userKey / 4 = Z.to_nat (bits / 32))%nat.
Proof.
  intros [->|[->| ->]] Hl; [change (128 / 8) with 16 in Hl; replace (length userKey) with 16%nat by lia
    |change (192 / 8) with 24 in Hl; replace (length userKey) with 24%nat by lia
    |change (256 / 8) with 32 in Hl; replace (length userKey) with 32%nat by lia]; reflexivity.
Qed.

(** C15: AES_encrypt with the schedule that AES_set_encrypt_key makes of a 128, 192 or
    256 bit key is the AES of FIPS 197: key expansion, then the rounds of byte
    substitution, row shifts, column mixing and key addition.  The tables of the
    source are the products of the S-box in GF(2^8), which is computed here from its
    definition.  Nothing depends on what the structures held before. *)
Theorem AES_encrypt_correct userKey bits key input :
  bytes userKey -> bits = 128 \/ bits = 192 \/ bits = 256 -> Z.of_nat (length userKey) = bits / 8 ->
  length (rd_key key) = rd_words -> bytes input ->
  let '(status, key') := AES_set_encrypt_key userKey bits key in
  status = 0 /\ AES_encrypt input key' = aes userKey input.
Proof.
  intros Hk Hb Hl Hrd Hi. pose proof (encrypt_key_sched userKey bits key Hk Hrd Hb) as H. cbv zeta in H.
  destruct (AES_set_encrypt_key userKey bits key) as [status [rk nr]]. destruct H as (-> & Hr & Hs).
  split; [done|]. cbn [rounds rd_key] in *. pose proof (key_words userKey bits Hb Hl) as E4.
  destruct (key_rounds bits Hb) as (r & Hr0 & E2 & Hroom).
  unfold aes. rewrite E4, E2. rewrite E2 in Hr, Hs. rewrite Hr. destruct Hs as [Hks _].
  apply encrypt_state; try done; [|by apply expansion_ok, columns_ok].
  replace (4 * (2 * r + 1))%nat with (4 * (Z.to_nat (bits / 32) + 7))%nat by lia. done.
Qed.

Lemma decrypt_encrypt userKey bits key key2 input :
  bytes userKey -> bits = 128 \/ bits = 192 \/ bits = 256 ->
  length (rd_key key) = rd_words -> length (rd_key key2) = rd_words -> bytes input -> length input = 16%nat ->
  AES_decrypt (AES_encrypt input (snd (AES_set_encrypt_key userKey bits key)))
    (snd (AES_set_decrypt_key userKey bits key2)) = input.
Proof.
  intros Hk Hb Hrd Hrd2 Hi Hl.
  pose proof (encrypt_key_sched userKey bits key Hk Hrd Hb) as H1.
  pose proof (encrypt_key_sched userKey bits key2 Hk Hrd2 Hb) as H2. cbv zeta in H1, H2.
  unfold AES_set_decrypt_key.
  destruct (AES_set_encrypt_key userKey bits key) as [st1 [rk1 nr1]].
  destruct (AES_set_encrypt_key userKey bits key2) as [st2 [rk2 nr2]]. cbn [snd rounds rd_key] in *.
  destruct H1 as (-> & E1 & Hs1), H2 as (-> & E2 & Hs2). cbn [Z.ltb Z.compare].
  destruct (key_rounds bits Hb) as (r & Hr0 & E & Hroom).
  replace (Z.to_nat (bits / 32) + 7)%nat with (2 * r + 1)%nat in * by lia. rewrite E in *. rewrite E1, E2.
  rewrite Nat2Z.id. cbn [snd].
  pose proof (columns_ok (Z.to_nat (bits / 32)) userKey Hk) as Hck. set (ck := columns _ userKey) in *.
  pose proof (expansion_ok ck (2 * r) Hck) as HW. destruct Hs1 as [Hk1 _].
  rewrite (encrypt_state input (key_expansion ck (2 * r))) by done.
  rewrite (decrypt_state _ (dec_schedule (key_expansion ck (2 * r)) (2 * r)));
    [|..|by apply dec_schedule_ok|done].
  - rewrite to_of_state, (inv_cipher_cipher (key_expansion ck (2 * r))); [by apply of_to_state| |done|by apply to_state_ok|lia].
    apply dec_schedule_keys.
  - apply bytes_of_state, cipher_ok; [done|by apply to_state_ok].
  - apply (decrypt_key_words ck); try done. lia.
Qed.

(** AES_decrypt with the schedule of AES_set_decrypt_key inverts AES_encrypt with
    the schedule of AES_set_encrypt_key, for every key of the three sizes and every
    block, and the other sizes are refused with -2. *)
Theorem AES_decrypt_encrypt userKey bits key key2 input :
  bytes userKey -> length (rd_key key) = rd_words -> length (rd_key key2) = rd_words ->
  bytes input -> length input = 16%nat ->
  if (bits =? 128) || (bits =? 192) || (bits =? 256) then
    AES_decrypt (AES_encrypt input (snd (AES_set_encrypt_key userKey bits key)))
      (snd (AES_set_decrypt_key userKey bits key2)) = input
  else AES_set_encrypt_key userKey bits key = (-2, key) /\ AES_set_decrypt_key userKey bits key2 = (-2, key2).
Proof.
  intros Hk Hrd Hrd2 Hi Hl. destruct ((bits =? 128) || (bits =? 192) || (bits =? 256)) eqn:Eb.
  2:{ apply orb_false_elim in Eb as [[E1 E2]%orb_false_elim E3].
      unfold AES_set_decrypt_key, AES_set_encrypt_key. rewrite E1, E2, E3. done. }
  apply decrypt_encrypt; try done. lia.
Qed.

(** ** Cipher block chaining *)
Lemma length_xor_bytes n a b : length (xor_bytes n a b) = n.
Proof. unfold xor_bytes. by rewrite length_map, length_seq. Qed.
Lemma byte_xor_bytes n a b i : (i < n)%nat -> byte (xor_bytes n a b) i = byte a i .^ byte b i.
Proof.
  intros Hi. unfold byte, xor_bytes. rewrite nth_lookup, list_lookup_fmap, lookup_seq_lt by done. done.
Qed.
Lemma bytes_xor_bytes n a b : bytes a -> bytes b -> bytes (xor_bytes n a b).
Proof. intros. unfold xor_bytes. apply Forall_map, Forall_true. intros. apply fits_lxor; by apply byte_fits. Qed.
Lemma xor_bytes_twice n a b : xor_bytes n (xor_bytes n a b) b = map (byte a) (seq 0 n).
Proof.
  unfold xor_bytes at 1. apply map_ext_in. intros i Hi%in_seq. rewrite byte_xor_bytes by lia.
  by rewrite Z.lxor_assoc, Z.lxor_nilpotent, Z.lxor_0_r.
Qed.
Lemma map_byte a n : (n <= length a)%nat -> map (byte a) (seq 0 n) = take n a.
Proof.
  intros Hn. apply list_eq. intros i. destruct (decide (i < n)%nat).
  - rewrite list_lookup_fmap, lookup_seq_lt, lookup_take_lt by done. cbn. unfold byte.
    destruct (lookup_lt_is_Some_2 a i) as [x E]; [lia|]. by rewrite nth_lookup, E.
  - rewrite !lookup_ge_None_2; [done| |]; rewrite ?length_take, ?length_map, ?length_seq; lia.
Qed.

(** The blocks of a ciphertext chain; [E] and [D] are the two keys of one cipher. *)
Section Chain.
Context (E D : AES_KEY)
  (HD : forall b, bytes b -> length b = 16%nat -> AES_decrypt (AES_encrypt b E) D = b)
  (HE : forall b, bytes b -> bytes (AES_encrypt b E)).
Lemma length_encrypt b : length (AES_encrypt b E) = 16%nat.
Proof. unfold AES_encrypt. by destruct (aes_loop _ _ _ _ _) as [t o]. Qed.
Lemma cbc_enc_length n input iv : (length input = 16 * n)%nat -> length (fst (cbc_enc (n + 1) input E iv)) = (16 * n)%nat.
Proof.
  revert input iv. induction n as [|n IH]; intros input iv Hl; cbn [cbc_enc Nat.add]; unfold AES_BLOCK_SIZE.
  - by destruct input.
  - rewrite (proj2 (Nat.leb_le 16 (length input))) by lia.
    pose proof (IH (drop 16 input) (AES_encrypt (xor_bytes 16 input iv) E)) as H. rewrite length_drop in H.
    destruct (cbc_enc (n + 1) _ E _) as [rest iv']. cbn [fst] in *. rewrite length_app, length_encrypt, H by lia. lia.
Qed.
Lemma cbc_inverse n input iv : bytes input -> bytes iv -> (length input = 16 * n)%nat ->
  let '(out, iv1) := cbc_enc (n + 1) input E iv in cbc_dec (n + 1) (16 * n) out D iv = (input, iv1).
Proof.
  revert input iv. induction n as [|n IH]; intros input iv Hb Hiv Hl.
  { destruct input; [|done]. done. }
  pose proof (cbc_enc_length (S n) input iv Hl) as Hlo. revert Hlo.
  cbn [cbc_enc Nat.add]. unfold AES_BLOCK_SIZE. rewrite (proj2 (Nat.leb_le 16 (length input))) by lia.
  set (c := AES_encrypt (xor_bytes 16 input iv) E).
  assert (bytes (xor_bytes 16 input iv)) as Hx by by apply bytes_xor_bytes.
  assert (length c = 16%nat) as Hc by apply length_encrypt. pose proof (HE _ Hx) as Hbc. fold c in Hbc.
  pose proof (IH (drop 16 input) c ltac:(by apply Forall_drop) Hbc ltac:(rewrite length_drop; lia)) as H.
  destruct (cbc_enc (n + 1) (drop 16 input) E c) as [rest iv1] eqn:Ee. intros Hlo. cbn [fst] in Hlo.
  cbn [cbc_dec]. unfold AES_BLOCK_SIZE. rewrite (proj2 (Nat.leb_le 16 (16 * S n))) by lia.
  assert (take 16 (c ++ rest) = c) as -> by (rewrite <- Hc; apply take_app_length).
  assert (drop 16 (c ++ rest) = rest) as -> by (rewrite <- Hc; apply drop_app_length).
  replace (16 * S n - 16)%nat with (16 * n)%nat by lia. rewrite H. f_equal.
  assert (AES_decrypt (c ++ rest) D = AES_decrypt c D) as ->.
  { unfold AES_decrypt, load_state, GETU32. by rewrite !byte_app_l by (rewrite Hc; lia). }
  unfold c. rewrite HD by (done || apply length_xor_bytes).
  rewrite xor_bytes_twice, map_byte by lia. apply take_drop.
Qed.
End Chain.
Lemma bytes_PUTU32 x : bytes (PUTU32 x).
Proof. unfold PUTU32. repeat (apply Forall_cons_2; [by apply fits_wrap|]). constructor. Qed.
Lemma bytes_encrypt b E : bytes (AES_encrypt b E).
Proof.
  unfold AES_encrypt. destruct (aes_loop _ _ _ _ _) as [t o]. unfold bytes. rewrite !Forall_app.
  split; [|split; [|split]]; apply bytes_PUTU32.
Qed.

(** Decryption in CBC mode inverts encryption in CBC mode on whole blocks, for
    every initialization vector, and leaves the same vector for the next call; so a
    message may be encrypted and decrypted in parts of whole blocks. *)
Theorem AES_cbc_roundtrip userKey bits key key2 n input ivec :
  bytes userKey -> bits = 128 \/ bits = 192 \/ bits = 256 ->
  length (rd_key key) = rd_words -> length (rd_key key2) = rd_words ->
  bytes input -> length input = (16 * n)%nat -> bytes ivec ->
  let ek := snd (AES_set_encrypt_key userKey bits key) in
  let dk := snd (AES_set_decrypt_key userKey bits key2) in
  let '(out, iv) := AES_cbc_encrypt input (16 * n) ek ivec true in
  AES_cbc_encrypt out (16 * n) dk ivec false = (input, iv).
Proof.
  intros Hk Hb H1 H2 Hi Hl Hiv ek dk. unfold AES_cbc_encrypt. rewrite take_ge by lia.
  replace (16 * n / 16)%nat with n by (rewrite Nat.mul_comm, Nat.div_mul; lia).
  apply cbc_inverse; try done.
  - intros b Hbb Hlb. by apply (decrypt_encrypt userKey bits).
  - intros. apply bytes_encrypt.
Qed.

(** The vectors of FIPS 197, appendix C, with structures that held other values. *)
Definition old_key : AES_KEY := mkKey (replicate 60 5) 99.
Definition test_key (n : nat) : list Z := map Z.of_nat (seq 0 n).
Definition test_block : list Z := map (fun i => 17 * Z.of_nat i) (seq 0 16).
Lemma test_bytes n : (n <= 256)%nat -> bytes (test_key n).
Proof.
  intros Hn. unfold test_key, bytes. apply Forall_map, Forall_seq. intros i Hi. split; [lia|].
  change (2 ^ 8) with 256. lia.
Qed.
Lemma test_block_bytes : bytes test_block.
Proof. unfold test_block, bytes. apply Forall_map, Forall_seq. intros i Hi. split; [lia|]. change (2 ^ 8) with 256. lia. Qed.
Lemma AES_encrypt_correct_witness :
  aes (test_key 32) test_block =
    [0x8e; 0xa2; 0xb7; 0xca; 0x51; 0x67; 0x45; 0xbf; 0xea; 0xfc; 0x49; 0x90; 0x4b; 0x49; 0x60; 0x89].
Proof.
  pose proof (AES_encrypt_correct (test_key 32) 256 old_key test_block (test_bytes 32 ltac:(lia))
    (or_intror (or_intror eq_refl)) eq_refl eq_refl test_block_bytes) as H.
  destruct (AES_set_encrypt_key (test_key 32) 256 old_key) as [st key] eqn:E. destruct H as [_ <-].
  vm_compute in E. injection E as <- <-. vm_compute. reflexivity.
Defined.
Lemma AES_decrypt_encrypt_witness :
  AES_decrypt (AES_encrypt test_block (snd (AES_set_encrypt_key (test_key 24) 192 old_key)))
    (snd (AES_set_decrypt_key (test_key 24) 192 old_key)) = test_block.
Proof.
  exact (AES_decrypt_encrypt (test_key 24) 192 old_key old_key test_block (test_bytes 24 ltac:(lia))
    eq_refl eq_refl test_block_bytes eq_refl).
Defined.
Lemma AES_cbc_roundtrip_witness :
  let ek := snd (AES_set_encrypt_key (test_key 16) 128 old_key) in
  let dk := snd (AES_set_decrypt_key (test_key 16) 128 old_key) in
  let '(out, iv) := AES_cbc_encrypt (test_block ++ test_block) 32 ek test_block true in
  take 16 out <> drop 16 out /\ AES_cbc_encrypt out 32 dk test_block false = (test_block ++ test_block, iv).
Proof.
  pose proof (AES_cbc_roundtrip (test_key 16) 128 old_key old_key 2 (test_block ++ test_block) test_block
    (test_bytes 16 ltac:(lia)) (or_introl eq_refl) eq_refl eq_refl (Forall_app_2 _ _ _ test_block_bytes test_block_bytes)
    eq_refl test_block_bytes) as H.
  cbv zeta in H |- *. change (16 * 2)%nat with 32%nat in H.
  destruct (AES_cbc_encrypt (test_block ++ test_block) 32 _ test_block true) as [out iv] eqn:E.
  split; [|exact H]. vm_compute in E. injection E as <- <-. vm_compute. congruence.
Defined.
