(* ===== verification/CStr.v ===== *)
(** * C strings: literals, the functions of the standard library that the parsers use, and the
    string helpers of cutils.c

    An object that holds text is the list of its bytes; a pointer that moves through it is the
    rest of that list, and reading behind its end is a fault. *)
From S2P Require Export Cutils.
From stdpp Require Import strings.
#[local] Open Scope Z_scope.

(** ** Strings *)

(** A string literal. *)
Fixpoint str (s : string) : list Z :=
  match s with
  | String.EmptyString => []
  | String.String c s' => Z.of_nat (Ascii.nat_of_ascii c) :: str s'
  end.
(** strlen; [None] when no byte of the object ends the string. *)
Fixpoint strlen (l : list Z) : option nat :=
  match l with
  | [] => None
  | c :: l' => if c =? 0 then Some 0%nat else option_map S (strlen l')
  end.
Definition c_string (s : list Z) : list Z := s ++ [0].

(** printf's %x *)
Definition hex_digit (d : Z) : Z := if d <? 10 then 48 + d else 87 + d.
Fixpoint hex_digits (fuel : nat) (n : Z) (acc : list Z) : list Z :=
  match fuel with
  | O => acc
  | S f =>
      let acc := hex_digit (n .& 15) :: acc in
      if n ≫ 4 =? 0 then acc else hex_digits f (n ≫ 4) acc
  end.
Definition to_hex (n : Z) : list Z := hex_digits 16 n [].
(** snprintf into [size] bytes: what of [s] is kept. *)
Definition snprintf (size : nat) (s : list Z) : list Z := take (size - 1) s.
(** printf's %d of a non-negative number. *)
Fixpoint dec_digits (fuel : nat) (n : Z) (acc : list Z) : list Z :=
  match fuel with
  | O => acc
  | S f => let acc := (48 + n mod 10) :: acc in if n / 10 =? 0 then acc else dec_digits f (n / 10) acc
  end.

(** What a string function sees of an object: the bytes before the first 0. *)
Fixpoint until_nul (l : list Z) : list Z :=
  match l with
  | [] => []
  | c :: l' => if c =? 0 then [] else c :: until_nul l'
  end.
(** A string that can be an argument: bytes other than 0. *)
Definition nonul (l : list Z) : Prop := Forall (fun c => c <> 0) l.
(** strchr *)
Fixpoint strchr (c : Z) (s : list Z) : option (list Z) :=
  match s with
  | [] => None
  | d :: s' => if d =? c then Some s else strchr c s'
  end.

(** ** Character classes in the C locale *)
Definition isspace (c : Z) : bool := (c =? 32) || ((9 <=? c) && (c <=? 13)).
Definition isdigit (c : Z) : bool := (48 <=? c) && (c <=? 57).

(** ** Moving through a text *)
Abbreviation MP := (M (list Z)).
(** [p[0]], [p[1]], [*p++] and [p += n] *)
Definition peek : MP Z := fun s => match s with [] => Stop StopFault | c :: _ => Ok c s end.
Definition peek1 : MP Z := fun s => match s with _ :: c :: _ => Ok c s | _ => Stop StopFault end.
Definition next_char : MP Z := fun s => match s with [] => Stop StopFault | c :: s' => Ok c s' end.
Definition skip_chars (n : nat) : MP unit := fun s =>
  if (n <=? length s)%nat then Ok tt (drop n s) else Stop StopFault.
(** [while (f(p)) p++], where every test reads the text. *)
Fixpoint skip_while (f : MP bool) (fuel : nat) : MP unit :=
  match fuel with
  | O => stop_with StopFuel
  | S n => b ← f; if b : bool then _ ← skip_chars 1; skip_while f n else mret tt
  end.
(** A loop over the text: it ends within its length. *)
Definition on_text {A} (loop : nat -> MP A) : MP A := fun s => loop (S (length s)) s.
(** A function that only moves its caller's pointer on success ([*pp = p] comes last). *)
Definition commit {A} (m : MP (option A)) : MP (option A) := fun s =>
  match m s with Ok None _ => Ok None s | r => r end.

(** ** strtol and strtoul *)
Definition digit_val (c : Z) : Z :=
  if isdigit c then c - 48
  else if (97 <=? c) && (c <=? 122) then c - 87
  else if (65 <=? c) && (c <=? 90) then c - 55
  else 36.
Fixpoint digits (base : Z) (s : list Z) (acc : Z) : Z * list Z :=
  match s with
  | c :: s' => if digit_val c <? base then digits base s' (acc * base + digit_val c) else (acc, s)
  | [] => (acc, [])
  end.
Fixpoint skip_ws (s : list Z) : list Z :=
  match s with c :: s' => if isspace c then skip_ws s' else s | [] => [] end.
(** The base and the digits of a number without its sign. *)
Definition int_base (base : Z) (s : list Z) : Z * list Z :=
  match s with
  | 48 :: c :: d :: s' =>
      if ((base =? 0) || (base =? 16)) && ((c =? 120) || (c =? 88)) && (digit_val d <? 16) then (16, d :: s')
      else (if base =? 0 then 8 else base, s)
  | 48 :: _ => (if base =? 0 then 8 else base, s)
  | _ => (if base =? 0 then 10 else base, s)
  end.
(** The sign, the magnitude and the rest; [None] when there is no number. *)
Definition int_prefix (base : Z) (s : list Z) : option (bool * Z * list Z) :=
  let s := skip_ws s in
  let '(neg, s) := match s with 45 :: s' => (true, s') | 43 :: s' => (false, s') | _ => (false, s) end in
  let '(b, s) := int_base base s in
  match s with
  | c :: _ => if digit_val c <? b then let '(v, rest) := digits b s 0 in Some (neg, v, rest) else None
  | [] => None
  end.
(** For [W]-bit results; a value out of range becomes the nearest one. *)
Definition strtol (W base : Z) (s : list Z) : option (Z * list Z) :=
  '(neg, v, rest) ← int_prefix base s;
  Some (if neg : bool then Z.max (- v) (- 2 ^ (W - 1)) else Z.min v (2 ^ (W - 1) - 1), rest).
Definition strtoul (W base : Z) (s : list Z) : option (Z * list Z) :=
  '(neg, v, rest) ← int_prefix base s;
  Some (if 2 ^ W <=? v then 2 ^ W - 1 else if neg : bool then wrap W (- v) else v, rest).

(** ** cutils.c *)

(** What the buffer of [buf_size] bytes holds afterwards; [None]: it is not touched. *)
Definition pstrcpy (buf_size : Z) (s : list Z) : option (list Z) :=
  if buf_size <=? 0 then None else Some (take (Z.to_nat (buf_size - 1)) s).
Definition pstrcat (buf_size : Z) (buf s : list Z) : list Z :=
  let len := Z.of_nat (length buf) in
  if len <? buf_size then buf ++ default [] (pstrcpy (buf_size - len) s) else buf.
(** The rest of [s] behind the prefix. *)
Fixpoint strstart (s val : list Z) : option (list Z) :=
  match val with
  | [] => Some s
  | q :: val' => match s with p :: s' => if p =? q then strstart s' val' else None | [] => None end
  end.

(** A growing buffer: the bytes written and the size of the allocation. *)
Record DynBuf := mkDynBuf { dbuf_data : list Z; allocated_size : Z }.
Definition dbuf_init : DynBuf := mkDynBuf [] 0.
(** Every caller writes at the end ([offset] is [s->size]).  realloc returns. *)
Definition dbuf_write (data : list Z) : M DynBuf unit := fun s =>
  let new_size := Z.of_nat (length (dbuf_data s ++ data)) in
  let alloc :=
    if allocated_size s <? new_size then max_int (i32 new_size) (i32 (allocated_size s * 3 / 2)) else allocated_size s in
  if alloc <? new_size then Stop StopFault else Ok tt (mkDynBuf (dbuf_data s ++ data) alloc).
Definition dbuf_putc (c : Z) : M DynBuf unit := dbuf_write [u8 c].
Definition dbuf_putstr (s : list Z) : M DynBuf unit := dbuf_write s.
Definition dbuf_free : DynBuf := dbuf_init.
