(* ===== verification/Fdt.v ===== *)
(** * The flattened device tree (riscv_machine.c: fdt_init .. riscv_build_fdt)

    A C string argument is the list of its bytes without the terminator. *)
From S2P Require Export CStr Machine.
From stdpp Require Import strings.
#[local] Open Scope Z_scope.

Definition FDT_MAGIC : Z := 0xd00dfeed.
Definition FDT_VERSION : Z := 17.
Definition FDT_BEGIN_NODE : Z := 1.
Definition FDT_END_NODE : Z := 2.
Definition FDT_PROP : Z := 3.
Definition FDT_NOP : Z := 4.
Definition FDT_END : Z := 9.

(** [tab] and [string_table] are the bytes written so far; the sizes are those of
    the allocations, in words and in bytes.  realloc returns. *)
Record FDTState := mkFDT {
  tab : list Z;
  tab_size : Z;
  open_node_count : Z;
  string_table : list Z;
  string_table_size : Z;
}.
Definition fdt_init : FDTState := mkFDT [] 0 0 [] 0.
Definition tab_len (s : FDTState) : Z := Z.of_nat (length (tab s)) / 4.

Local Abbreviation MF := (M FDTState).

(** The new size of an allocation that [len] does not fit in. *)
Definition grow_size (len size : Z) : Z :=
  if size <? len then max_int len (Z.quot (i32 (size * 3)) 2) else size.
Definition fdt_alloc_len (len : Z) : MF unit :=
  modify (fun s => mkFDT (tab s) (grow_size len (tab_size s)) (open_node_count s)
                     (string_table s) (string_table_size s)).
(** Bytes stored at [s->tab + s->tab_len], [s->tab_len] then behind them. *)
Definition tab_store (bs : list Z) : MF unit := fun s =>
  if 4 * tab_size s <? Z.of_nat (length (tab s ++ bs)) then Stop StopFault
  else Ok tt (mkFDT (tab s ++ bs) (tab_size s) (open_node_count s) (string_table s) (string_table_size s)).

(** The word stored is cpu_to_be32(v), in the byte order of the host. *)
Definition be_word (v : Z) : list Z := rev (be_bytes 4 (cpu_to_be32 (u32 v))).
Definition fdt_put32 (v : Z) : MF unit :=
  s ← gets (fun s => s);
  _ ← fdt_alloc_len (tab_len s + 1);
  tab_store (be_word v).
Definition fdt_put_data (data : list Z) : MF unit :=
  let len := Z.of_nat (length data) in
  let len1 := Z.quot (len + 3) 4 in
  s ← gets (fun s => s);
  _ ← fdt_alloc_len (tab_len s + len1);
  tab_store (data ++ replicate (Z.to_nat (- len .& 3)) 0).

Definition add_open (n : Z) : MF unit :=
  modify (fun s => mkFDT (tab s) (tab_size s) (open_node_count s + n) (string_table s) (string_table_size s)).
Definition fdt_begin_node (name : list Z) : MF unit :=
  _ ← fdt_put32 FDT_BEGIN_NODE;
  _ ← fdt_put_data (c_string name);
  add_open 1.

Definition fdt_begin_node_num (name : list Z) (n : Z) : MF unit :=
  fdt_begin_node (snprintf 256 (name ++ str "@" ++ to_hex (u64 n))).
Definition fdt_end_node : MF unit :=
  _ ← fdt_put32 FDT_END_NODE;
  add_open (-1).

(** The search of fdt_get_string_offset from [pos]: [Some (Some pos)] when found. *)
Fixpoint find_string (fuel : nat) (table : list Z) (pos : nat) (name : list Z) : option (option nat) :=
  if (pos <? length table)%nat then
    match fuel with
    | O => None
    | S f =>
        match strlen (drop pos table) with
        | None => None
        | Some n =>
            if decide (take n (drop pos table) = name) then Some (Some pos)
            else find_string f table (pos + n + 1) name
        end
    end
  else Some None.
Definition fdt_get_string_offset (name : list Z) : MF Z := fun s =>
  match find_string (length (string_table s)) (string_table s) 0 name with
  | None => Stop StopFault
  | Some (Some pos) => Ok (Z.of_nat pos) s
  | Some None =>
      let bytes := c_string name in
      let new_len := Z.of_nat (length (string_table s ++ bytes)) in
      let size := grow_size new_len (string_table_size s) in
      if size <? new_len then Stop StopFault
      else Ok (Z.of_nat (length (string_table s)))
             (mkFDT (tab s) (tab_size s) (open_node_count s) (string_table s ++ bytes) size)
  end.

Definition fdt_prop (prop_name data : list Z) : MF unit :=
  _ ← fdt_put32 FDT_PROP;
  _ ← fdt_put32 (Z.of_nat (length data));
  pos ← fdt_get_string_offset prop_name;
  _ ← fdt_put32 pos;
  fdt_put_data data.
Fixpoint put_words (t : list Z) : MF unit :=
  match t with [] => mret tt | v :: t' => _ ← fdt_put32 v; put_words t' end.
Definition fdt_prop_tab_u32 (prop_name t : list Z) : MF unit :=
  _ ← fdt_put32 FDT_PROP;
  _ ← fdt_put32 (Z.of_nat (length t) * 4);
  pos ← fdt_get_string_offset prop_name;
  _ ← fdt_put32 pos;
  put_words t.
Definition fdt_prop_u32 (prop_name : list Z) (val : Z) : MF unit := fdt_prop_tab_u32 prop_name [val].
Definition fdt_prop_tab_u64 (prop_name : list Z) (v0 : Z) : MF unit :=
  fdt_prop_tab_u32 prop_name [u32 (v0 ≫ 32); u32 v0].
Definition fdt_prop_tab_u64_2 (prop_name : list Z) (v0 v1 : Z) : MF unit :=
  fdt_prop_tab_u32 prop_name [u32 (v0 ≫ 32); u32 v0; u32 (v1 ≫ 32); u32 v1].
Definition fdt_prop_str (prop_name s : list Z) : MF unit := fdt_prop prop_name (c_string s).
Definition fdt_prop_tab_str (prop_name : list Z) (l : list (list Z)) : MF unit :=
  fdt_prop prop_name (concat (map c_string l)).

(** ** fdt_output *)

(** A store into the object [dst]. *)
Definition dst_store (o : nat) (bs dst : list Z) : option (list Z) :=
  if (o + length bs <=? length dst)%nat then Some (splice o bs dst) else None.
(** [while ((pos & 7) != 0) dst[pos++] = 0]: [n] bounds the iterations. *)
Fixpoint align8 (n : nat) (pos : nat) (dst : list Z) : option (nat * list Z) :=
  match n with
  | O => Some (pos, dst)
  | S n' =>
      if Z.of_nat pos .& 7 =? 0 then Some (pos, dst)
      else match dst_store pos [0] dst with
           | None => None
           | Some dst => align8 n' (pos + 1) dst
           end
  end.
Notation "'let?' x := m 'in' k" := (match m with Some x => k | None => None end)
  (at level 10, x pattern, m at level 200, k at level 200, only parsing).

(** The offsets of the fields of struct fdt_header. *)
Definition fdt_output_dst (s : FDTState) (dst : list Z) : option (nat * list Z) :=
  let dt_struct_size := length (tab s) in
  let dt_strings_size := length (string_table s) in
  let field o v d := dst_store o (be_word v) d in
  let? dst := field 0%nat FDT_MAGIC dst in
  let? dst := field 20%nat FDT_VERSION dst in
  let? dst := field 24%nat 16 dst in
  let? dst := field 28%nat 0 dst in
  let? dst := field 32%nat (Z.of_nat dt_strings_size) dst in
  let? dst := field 36%nat (Z.of_nat dt_struct_size) dst in
  let pos := 40%nat in
  let? dst := field 8%nat (Z.of_nat pos) dst in
  let? dst := dst_store pos (tab s) dst in
  let pos := (pos + dt_struct_size)%nat in
  let? (pos, dst) := align8 8 pos dst in
  let? dst := field 16%nat (Z.of_nat pos) dst in
  let? dst := dst_store pos (replicate 8 0) dst in
  let? dst := dst_store (pos + 8) (replicate 8 0) dst in
  let pos := (pos + 16)%nat in
  let? dst := field 12%nat (Z.of_nat pos) dst in
  let? dst := dst_store pos (string_table s) dst in
  let pos := (pos + dt_strings_size)%nat in
  let? (pos, dst) := align8 8 pos dst in
  let? dst := field 4%nat (Z.of_nat pos) dst in
  Some (pos, dst).
(** The size of the tree and the new contents of [dst]. *)
Definition fdt_output (dst : list Z) : MF (Z * list Z) :=
  s ← gets (fun s => s);
  _ ← assert (open_node_count s =? 0);
  _ ← fdt_put32 FDT_END;
  s ← gets (fun s => s);
  match fdt_output_dst s dst with
  | None => stop_with StopFault
  | Some (pos, dst) => mret (Z.of_nat pos, dst)
  end.

(** ** riscv_build_fdt *)

Definition isa_string (max_xlen misa : Z) : list Z :=
  str "rv" ++ dec_digits 10 max_xlen [] ++
  foldl (fun q i => if nz (misa .& (1 ≪ Z.of_nat i)) then q ++ [97 + Z.of_nat i] else q) [] (seq 0 26).

(** What the tree describes.  [fdt_fb] is (fb_size, width, height, stride). *)
Record FdtParams := {
  fdt_max_xlen : Z;
  fdt_misa : Z;
  fdt_ram_size : Z;
  fdt_virtio_count : nat;
  fdt_fb : option (Z * Z * Z * Z);
  kernel_start : Z;
  kernel_size : Z;
  initrd_start : Z;
  initrd_size : Z;
  cmd_line : list Z;
}.

Definition fdt_cpus (p : FdtParams) (intc_phandle : Z) : MF unit :=
  _ ← fdt_begin_node (str "cpus");
  _ ← fdt_prop_u32 (str "#address-cells") 1;
  _ ← fdt_prop_u32 (str "#size-cells") 0;
  _ ← fdt_prop_u32 (str "timebase-frequency") RTC_FREQ;
  _ ← fdt_begin_node_num (str "cpu") 0;
  _ ← fdt_prop_str (str "device_type") (str "cpu");
  _ ← fdt_prop_u32 (str "reg") 0;
  _ ← fdt_prop_str (str "status") (str "okay");
  _ ← fdt_prop_str (str "compatible") (str "riscv");
  _ ← fdt_prop_str (str "riscv,isa") (isa_string (fdt_max_xlen p) (fdt_misa p));
  _ ← fdt_prop_str (str "mmu-type") (str (if fdt_max_xlen p <=? 32 then "riscv,sv32" else "riscv,sv48"));
  _ ← fdt_prop_u32 (str "clock-frequency") 2000000000;
  _ ← fdt_begin_node (str "interrupt-controller");
  _ ← fdt_prop_u32 (str "#interrupt-cells") 1;
  _ ← fdt_prop (str "interrupt-controller") [];
  _ ← fdt_prop_str (str "compatible") (str "riscv,cpu-intc");
  _ ← fdt_prop_u32 (str "phandle") intc_phandle;
  _ ← fdt_end_node;
  _ ← fdt_end_node;
  fdt_end_node.

Definition fdt_memory (p : FdtParams) : MF unit :=
  _ ← fdt_begin_node_num (str "memory") RAM_BASE_ADDR;
  _ ← fdt_prop_str (str "device_type") (str "memory");
  _ ← fdt_prop_tab_u32 (str "reg")
        [u32 (RAM_BASE_ADDR ≫ 32); RAM_BASE_ADDR; u32 (fdt_ram_size p ≫ 32); u32 (fdt_ram_size p)];
  fdt_end_node.

Definition fdt_clint_plic (intc_phandle plic_phandle : Z) : MF unit :=
  _ ← fdt_begin_node_num (str "clint") CLINT_BASE_ADDR;
  _ ← fdt_prop_str (str "compatible") (str "riscv,clint0");
  _ ← fdt_prop_tab_u32 (str "interrupts-extended") [intc_phandle; 3; intc_phandle; 7];
  _ ← fdt_prop_tab_u64_2 (str "reg") CLINT_BASE_ADDR CLINT_SIZE;
  _ ← fdt_end_node;
  _ ← fdt_begin_node_num (str "plic") PLIC_BASE_ADDR;
  _ ← fdt_prop_u32 (str "#interrupt-cells") 1;
  _ ← fdt_prop (str "interrupt-controller") [];
  _ ← fdt_prop_str (str "compatible") (str "riscv,plic0");
  _ ← fdt_prop_u32 (str "riscv,ndev") 31;
  _ ← fdt_prop_tab_u64_2 (str "reg") PLIC_BASE_ADDR PLIC_SIZE;
  _ ← fdt_prop_tab_u32 (str "interrupts-extended") [intc_phandle; 9; intc_phandle; 11];
  _ ← fdt_prop_u32 (str "phandle") plic_phandle;
  fdt_end_node.

(** [for(i = 0; i < m->virtio_count; i++)] from [i] on, [n] left. *)
Fixpoint fdt_virtio (n : nat) (i plic_phandle : Z) : MF unit :=
  match n with
  | O => mret tt
  | S n' =>
      _ ← fdt_begin_node_num (str "virtio") (VIRTIO_BASE_ADDR + i * VIRTIO_SIZE);
      _ ← fdt_prop_str (str "compatible") (str "virtio,mmio");
      _ ← fdt_prop_tab_u64_2 (str "reg") (VIRTIO_BASE_ADDR + i * VIRTIO_SIZE) VIRTIO_SIZE;
      _ ← fdt_prop_tab_u32 (str "interrupts-extended") [plic_phandle; VIRTIO_IRQ + i];
      _ ← fdt_end_node;
      fdt_virtio n' (i + 1) plic_phandle
  end.

Definition fdt_framebuffer (fb : option (Z * Z * Z * Z)) : MF unit :=
  match fb with
  | None => mret tt
  | Some (fb_size, width, height, stride) =>
      _ ← fdt_begin_node_num (str "framebuffer") FRAMEBUFFER_BASE_ADDR;
      _ ← fdt_prop_str (str "compatible") (str "simple-framebuffer");
      _ ← fdt_prop_tab_u64_2 (str "reg") FRAMEBUFFER_BASE_ADDR fb_size;
      _ ← fdt_prop_u32 (str "width") width;
      _ ← fdt_prop_u32 (str "height") height;
      _ ← fdt_prop_u32 (str "stride") stride;
      _ ← fdt_prop_str (str "format") (str "a8r8g8b8");
      fdt_end_node
  end.

Definition fdt_chosen (p : FdtParams) : MF unit :=
  _ ← fdt_begin_node (str "chosen");
  _ ← fdt_prop_str (str "bootargs") (cmd_line p);
  _ ← (if 0 <? kernel_size p then
         _ ← fdt_prop_tab_u64 (str "riscv,kernel-start") (kernel_start p);
         fdt_prop_tab_u64 (str "riscv,kernel-end") (u64 (kernel_start p + kernel_size p))
       else mret tt);
  _ ← (if 0 <? initrd_size p then
         _ ← fdt_prop_tab_u64 (str "linux,initrd-start") (initrd_start p);
         fdt_prop_tab_u64 (str "linux,initrd-end") (u64 (initrd_start p + initrd_size p))
       else mret tt);
  fdt_end_node.

Definition build_nodes (p : FdtParams) : MF unit :=
  let cur_phandle := 1 in
  _ ← fdt_begin_node (str "");
  _ ← fdt_prop_u32 (str "#address-cells") 2;
  _ ← fdt_prop_u32 (str "#size-cells") 2;
  _ ← fdt_prop_str (str "compatible") (str "ucbbar,riscvemu-bar_dev");
  _ ← fdt_prop_str (str "model") (str "ucbbar,riscvemu-bare");
  let intc_phandle := cur_phandle in
  let cur_phandle := cur_phandle + 1 in
  _ ← fdt_cpus p intc_phandle;
  _ ← fdt_memory p;
  _ ← fdt_begin_node (str "htif");
  _ ← fdt_prop_str (str "compatible") (str "ucb,htif0");
  _ ← fdt_end_node;
  _ ← fdt_begin_node (str "soc");
  _ ← fdt_prop_u32 (str "#address-cells") 2;
  _ ← fdt_prop_u32 (str "#size-cells") 2;
  _ ← fdt_prop_tab_str (str "compatible") [str "ucbbar,riscvemu-bar-soc"; str "simple-bus"];
  _ ← fdt_prop (str "ranges") [];
  let plic_phandle := cur_phandle in
  _ ← fdt_clint_plic intc_phandle plic_phandle;
  _ ← fdt_virtio (fdt_virtio_count p) 0 plic_phandle;
  _ ← fdt_framebuffer (fdt_fb p);
  _ ← fdt_end_node;
  _ ← fdt_chosen p;
  fdt_end_node.

(** The size and the new contents of [dst]. *)
Definition riscv_build_fdt (p : FdtParams) (dst : list Z) : res FDTState (Z * list Z) :=
  (_ ← build_nodes p; fdt_output dst) fdt_init.
