(* ===== verification/FdtFacts.v ===== *)
(** * The device tree that is written is the one that is read back

    The reader follows the Devicetree Specification, chapter 5: the header, the
    structure block as tokens, the strings block. *)
From S2P Require Export Fdt.
From stdpp Require Import strings.
#[local] Open Scope Z_scope.

(** ** The reader *)
Inductive token :=
| TBegin (name : list Z)
| TProp (name data : list Z)
| TEnd.
#[warnings="-register-all"]
Inductive dt := Node (name : list Z) (props : list (list Z * list Z)) (children : list dt).

Definition align4 (n : nat) : nat := (n + Z.to_nat (- Z.of_nat n .& 3))%nat.
(** The string at an offset. *)
Definition string_at (l : list Z) : option (list Z) :=
  match strlen l with None => None | Some n => Some (take n l) end.
Definition be32 (l : list Z) : Z := be_val (take 4 l).

Fixpoint lex (fuel : nat) (strings l : list Z) : option (list token) :=
  match fuel with
  | O => None
  | S f =>
      let w := be32 l in
      if w =? FDT_BEGIN_NODE then
        match string_at (drop 4 l) with
        | None => None
        | Some name =>
            option_map (cons (TBegin name)) (lex f strings (drop (4 + align4 (length name + 1)) l))
        end
      else if w =? FDT_END_NODE then option_map (cons TEnd) (lex f strings (drop 4 l))
      else if w =? FDT_PROP then
        let len := Z.to_nat (be32 (drop 4 l)) in
        match string_at (drop (Z.to_nat (be32 (drop 8 l))) strings) with
        | None => None
        | Some name =>
            option_map (cons (TProp name (take len (drop 12 l)))) (lex f strings (drop (12 + align4 len) l))
        end
      else if w =? FDT_NOP then lex f strings (drop 4 l)
      else if w =? FDT_END then Some []
      else None
  end.
(** Tokens to a tree; the stack holds the open nodes, the innermost first. *)
Fixpoint build (toks : list token) (stack : list (list Z * list (list Z * list Z) * list dt)) : option dt :=
  match toks with
  | [] => None
  | TBegin n :: ts => build ts ((n, [], []) :: stack)
  | TProp n d :: ts =>
      match stack with
      | [] => None
      | (m, ps, cs) :: st => build ts ((m, ps ++ [(n, d)], cs) :: st)
      end
  | TEnd :: ts =>
      match stack with
      | [] => None
      | [(m, ps, cs)] => if decide (length ts = 0%nat) then Some (Node m ps cs) else None
      | (m, ps, cs) :: (m', ps', cs') :: st => build ts ((m', ps', cs' ++ [Node m ps cs]) :: st)
      end
  end.
(** A whole blob. *)
Definition read_fdt (blob : list Z) : option dt :=
  let field o := be32 (drop o blob) in
  if (field 0%nat =? FDT_MAGIC) && (field 20%nat =? FDT_VERSION) && (field 4%nat =? Z.of_nat (length blob)) then
    let struct := take (Z.to_nat (field 36%nat)) (drop (Z.to_nat (field 8%nat)) blob) in
    let strings := take (Z.to_nat (field 32%nat)) (drop (Z.to_nat (field 12%nat)) blob) in
    match lex (length struct) strings struct with
    | None => None
    | Some toks => build toks []
    end
  else None.

(** ** The writer, on tokens *)
Fixpoint flatten (t : dt) : list token :=
  match t with
  | Node n ps cs =>
      TBegin n :: map (fun p => TProp p.1 p.2) ps ++ concat (map flatten cs) ++ [TEnd]
  end.
Fixpoint dt_ind' (P : dt -> Prop) (H : forall n ps cs, Forall P cs -> P (Node n ps cs)) (t : dt) : P t :=
  match t with
  | Node n ps cs =>
      H n ps cs ((fix all (l : list dt) : Forall P l :=
        match l with [] => List.Forall_nil P | x :: l' => Forall_cons_2 P x l' (dt_ind' P H x) (all l') end) cs)
  end.
Lemma build_props n ps ps0 cs0 ts st :
  build (map (fun p => TProp p.1 p.2) ps ++ ts) ((n, ps0, cs0) :: st) = build ts ((n, ps0 ++ ps, cs0) :: st).
Proof.
  revert ps0. induction ps as [|[m d] ps IH]; intros ps0; cbn [map app build fst snd]; [by rewrite app_nil_r|].
  rewrite IH, <- app_assoc. done.
Qed.
Lemma build_node t : forall m ps0 cs0 st ts,
  build (flatten t ++ ts) ((m, ps0, cs0) :: st) = build ts ((m, ps0, cs0 ++ [t]) :: st).
Proof.
  induction t as [n ps cs IH] using dt_ind'. intros m ps0 cs0 st ts. cbn [flatten app build].
  rewrite <- app_assoc, build_props. cbn [app].
  assert (forall cs1, build (concat (map flatten cs) ++ TEnd :: ts) ((n, ps, cs1) :: (m, ps0, cs0) :: st) =
    build (TEnd :: ts) ((n, ps, cs1 ++ cs) :: (m, ps0, cs0) :: st)) as H.
  { clear -IH. induction cs as [|c cs IHcs]; intros cs1; cbn [map concat app]; [by rewrite app_nil_r|].
    apply Forall_cons_1 in IH as [Hc IH]. rewrite <- app_assoc, Hc, IHcs, <- app_assoc by done. done. }
  rewrite <- app_assoc. cbn [app]. rewrite H. done.
Qed.
Lemma build_flatten t : build (flatten t) [] = Some t.
Proof.
  destruct t as [n ps cs]. cbn [flatten build]. rewrite build_props. cbn [app].
  assert (forall cs1, build (concat (map flatten cs) ++ [TEnd]) [(n, ps, cs1)] = build [TEnd] [(n, ps, cs1 ++ cs)]) as H.
  { induction cs as [|c cs IH]; intros cs1; cbn [map concat app]; [by rewrite app_nil_r|].
    rewrite <- app_assoc, build_node, IH, <- app_assoc. done. }
  rewrite H. done.
Qed.

(** ** Strings *)
Lemma strlen_c_string s rest : nonul s -> strlen (c_string s ++ rest) = Some (length s).
Proof.
  unfold c_string. rewrite <- app_assoc. change ([0] ++ rest) with (0 :: rest).
  induction s as [|c s IH]; intros H; [done|].
  apply Forall_cons_1 in H as [Hc H]. cbn [app strlen length]. rewrite (proj2 (Z.eqb_neq c 0)) by done.
  by rewrite IH.
Qed.
Lemma string_at_c_string s rest : nonul s -> string_at (c_string s ++ rest) = Some s.
Proof.
  intros H. unfold string_at. rewrite strlen_c_string by done. f_equal.
  unfold c_string. rewrite <- app_assoc. apply take_app_length.
Qed.
(** A table of strings. *)
Definition table_of (names : list (list Z)) : list Z := concat (map c_string names).
Definition wf_table (t : list Z) : Prop := exists names, Forall nonul names /\ t = table_of names.
Lemma length_c_string s : length (c_string s) = S (length s).
Proof. unfold c_string. rewrite length_app. cbn [length]. lia. Qed.

(** What fdt_get_string_offset does to the table. *)
Definition intern (t name : list Z) : nat * list Z :=
  match find_string (length t) t 0 name with
  | Some (Some pos) => (pos, t)
  | _ => (length t, t ++ c_string name)
  end.
Lemma find_string_spec fuel done names name : Forall nonul names -> nonul name -> (length names <= fuel)%nat ->
  match find_string fuel (done ++ table_of names) (length done) name with
  | None => False
  | Some None => True
  | Some (Some pos) => exists rest, drop pos (done ++ table_of names) = c_string name ++ rest
  end.
Proof.
  revert done names. induction fuel as [|f IH]; intros done names Hn Hname Hf; cbn [find_string].
  { destruct names; [|simpl in Hf; lia]. cbn [table_of concat map]. rewrite app_nil_r, Nat.ltb_irrefl. done. }
  destruct names as [|s names]; [cbn [table_of concat map]; rewrite app_nil_r, Nat.ltb_irrefl; done|].
  apply Forall_cons_1 in Hn as [Hs Hn]. cbn [table_of concat map]. fold (table_of names).
  rewrite (proj2 (Nat.ltb_lt _ _)) by (rewrite !length_app, length_c_string; lia).
  rewrite drop_app_length, strlen_c_string by done.
  assert (take (length s) (c_string s ++ table_of names) = s) as ->.
  { unfold c_string. rewrite <- app_assoc. apply take_app_length. }
  destruct (decide (s = name)) as [->|Hne]; [exists (table_of names); apply drop_app_length|].
  pose proof (IH (done ++ c_string s) names Hn Hname ltac:(simpl in Hf; lia)) as H.
  rewrite <- app_assoc, length_app, length_c_string in H.
  by replace (length done + length s + 1)%nat with (length done + S (length s))%nat by lia.
Qed.
Lemma table_names_length names : (length names <= length (table_of names))%nat.
Proof.
  induction names as [|s names IH]; [done|]. cbn [table_of map concat length].
  fold (table_of names). rewrite length_app, length_c_string. lia.
Qed.
Lemma intern_spec t name : wf_table t -> nonul name -> let '(pos, t') := intern t name in
  wf_table t' /\ (exists more, t' = t ++ more) /\ (length t' <= length t + length name + 1)%nat /\
  (exists rest, drop pos t' = c_string name ++ rest) /\
  match find_string (length t) t 0 name with
  | Some (Some p) => t' = t /\ p = pos
  | Some None => t' = t ++ c_string name /\ pos = length t
  | None => False
  end.
Proof.
  intros (names & Hn & ->) Hname. unfold intern.
  pose proof (find_string_spec (length (table_of names)) [] names name Hn Hname (table_names_length names)) as H.
  cbn [app length] in H. destruct (find_string _ _ _ _) as [[pos|]|]; [| |done].
  - split; [by exists names|]. split; [exists []; by rewrite app_nil_r|]. split; [lia|]. done.
  - split.
    { exists (names ++ [name]). split; [apply Forall_app; split; [done|by repeat constructor]|].
      unfold table_of. rewrite map_app, concat_app. cbn [map concat]. by rewrite app_nil_r. }
    split; [by eexists|]. rewrite length_app, length_c_string. split; [lia|].
    split; [|done]. exists []. by rewrite drop_app_length, app_nil_r.
Qed.

(** ** The bytes of tokens *)
Definition padded (d : list Z) : list Z := d ++ replicate (Z.to_nat (- Z.of_nat (length d) .& 3)) 0.
Definition emit1 (t : list Z) (tok : token) : list Z * list Z :=
  match tok with
  | TBegin n => (be_bytes 4 FDT_BEGIN_NODE ++ padded (c_string n), t)
  | TEnd => (be_bytes 4 FDT_END_NODE, t)
  | TProp n d =>
      let '(pos, t') := intern t n in
      (be_bytes 4 FDT_PROP ++ be_bytes 4 (Z.of_nat (length d)) ++ be_bytes 4 (Z.of_nat pos) ++ padded d, t')
  end.
Fixpoint emit (t : list Z) (toks : list token) : list Z * list Z :=
  match toks with
  | [] => ([], t)
  | tok :: toks' => let r := emit1 t tok in let rs := emit r.2 toks' in (r.1 ++ rs.1, rs.2)
  end.
Definition tok_ok (tok : token) : Prop :=
  match tok with TBegin n => nonul n | TProp n d => nonul n | TEnd => True end.

Lemma be32_app v l : fits 32 v -> be32 (be_bytes 4 v ++ l) = v.
Proof.
  intros Hv. unfold be32. rewrite take_app_le, take_ge by (rewrite length_be_bytes; lia).
  unfold be_val. cbn [be_bytes foldl]. change (8 * Z.of_nat 3) with 24. change (8 * Z.of_nat 2) with 16.
  change (8 * Z.of_nat 1) with 8. change (8 * Z.of_nat 0) with 0.
  rewrite !Z.shiftr_div_pow2 by lia. unfold wrap. destruct Hv as [H1 H2].
  change (2 ^ 32) with 4294967296 in H2. change (2 ^ 24) with 16777216. change (2 ^ 16) with 65536.
  change (2 ^ 8) with 256. change (2 ^ 0) with 1. Z.to_euclidean_division_equations. lia.
Qed.
Lemma drop_be_bytes n v l : drop n (be_bytes n v ++ l) = l.
Proof. rewrite <- (length_be_bytes n v) at 1. apply drop_app_length. Qed.
Lemma land_neg_3 n : 0 <= n -> - n .& 3 = (- n) mod 4.
Proof. intros. change 3 with (Z.ones 2). by rewrite Z.land_ones. Qed.
Lemma length_padded d : length (padded d) = align4 (length d).
Proof. unfold padded, align4. by rewrite length_app, length_replicate. Qed.
Lemma align4_mod n : (align4 n mod 4 = 0)%nat.
Proof.
  unfold align4. rewrite land_neg_3 by lia. apply Nat2Z.inj. rewrite Nat2Z.inj_mod, Nat2Z.inj_add.
  rewrite Z2Nat.id by (apply Z.mod_pos_bound; lia). Z.to_euclidean_division_equations. lia.
Qed.
Lemma align4_range n : (n <= align4 n < n + 4)%nat.
Proof. unfold align4. rewrite land_neg_3 by lia. pose proof (Z.mod_pos_bound (- Z.of_nat n) 4). lia. Qed.
Lemma take_padded d l : take (length d) (padded d ++ l) = d.
Proof. unfold padded. rewrite <- app_assoc. apply take_app_length. Qed.
Lemma drop_padded d l : drop (align4 (length d)) (padded d ++ l) = l.
Proof. rewrite <- length_padded. apply drop_app_length. Qed.

(** The table grows, and its strings stay where they are. *)
Lemma emit1_table t tok : wf_table t -> tok_ok tok ->
  wf_table (emit1 t tok).2 /\ exists more, (emit1 t tok).2 = t ++ more.
Proof.
  intros Ht Hok. destruct tok as [n|n d|]; cbn [emit1 snd]; try (split; [done|exists []; by rewrite app_nil_r]).
  pose proof (intern_spec t n Ht Hok) as H. destruct (intern t n) as [pos t']. cbn [snd]. tauto.
Qed.
Lemma emit_table t toks : wf_table t -> Forall tok_ok toks ->
  wf_table (emit t toks).2 /\ exists more, (emit t toks).2 = t ++ more.
Proof.
  revert t. induction toks as [|tok toks IH]; intros t Ht Hok; cbn [emit snd].
  { split; [done|]. exists []. by rewrite app_nil_r. }
  apply Forall_cons_1 in Hok as [H1 Hok]. destruct (emit1_table t tok Ht H1) as [Ht1 [m1 E1]].
  destruct (IH _ Ht1 Hok) as [Ht2 [m2 E2]]. split; [done|]. exists (m1 ++ m2). by rewrite E2, E1, app_assoc.
Qed.

(** Reading one token. *)
Lemma lex_emit1 t tok final more f l : wf_table t -> tok_ok tok ->
  final = (emit1 t tok).2 ++ more -> Z.of_nat (length final) < 2 ^ 32 ->
  Z.of_nat (length (emit1 t tok).1) < 2 ^ 32 ->
  lex (S f) final ((emit1 t tok).1 ++ l) = option_map (cons tok) (lex f final l).
Proof.
  intros Ht Hok Hfin Hsz Hlen. destruct tok as [n|n d|]; cbn [emit1 fst snd] in *; cbn [lex].
  - rewrite <- app_assoc, be32_app, drop_be_bytes by (split; vm_compute; congruence).
    change (FDT_BEGIN_NODE =? FDT_BEGIN_NODE) with true. cbv iota.
    assert (string_at (padded (c_string n) ++ l) = Some n) as ->.
    { unfold padded. rewrite <- app_assoc. by apply string_at_c_string. }
    rewrite <- drop_drop, drop_be_bytes. replace (length n + 1)%nat with (length (c_string n)) by
      (rewrite length_c_string; lia). by rewrite drop_padded.
  - pose proof (intern_spec t n Ht Hok) as H. destruct (intern t n) as [pos t']. cbn [fst snd] in *.
    destruct H as (_ & _ & _ & (rest & Hrest) & _). subst final.
    rewrite !length_app, !length_be_bytes, length_padded in Hlen. pose proof (align4_range (length d)).
    assert (pos <= length t')%nat as Hpos.
    { destruct (Nat.leb_spec pos (length t')); [done|]. rewrite drop_ge in Hrest by lia.
      apply (f_equal length) in Hrest. rewrite length_app, length_c_string in Hrest. cbn [length] in Hrest. lia. }
    rewrite length_app in Hsz. rewrite <- !app_assoc, be32_app by (split; vm_compute; congruence).
    change (FDT_PROP =? FDT_BEGIN_NODE) with false. change (FDT_PROP =? FDT_END_NODE) with false.
    change (FDT_PROP =? FDT_PROP) with true. cbv iota.
    replace 12%nat with (4 + (4 + 4))%nat by lia. replace 8%nat with (4 + 4)%nat by lia.
    rewrite <- !drop_drop, !drop_be_bytes, !be32_app by (split; lia).
    rewrite !Nat2Z.id, take_padded, drop_padded.
    rewrite drop_app_le, Hrest, <- app_assoc, string_at_c_string by (done || lia). done.
  - rewrite be32_app, drop_be_bytes by (split; vm_compute; congruence). done.
Qed.
Lemma lex_emit t toks final more f l : wf_table t -> Forall tok_ok toks ->
  final = (emit t toks).2 ++ more -> Z.of_nat (length final) < 2 ^ 32 ->
  Z.of_nat (length (emit t toks).1) < 2 ^ 32 -> (length toks < f)%nat ->
  lex f final ((emit t toks).1 ++ be_bytes 4 FDT_END ++ l) = Some toks.
Proof.
  revert t f. induction toks as [|tok toks IH]; intros t f Ht Hok Hfin Hsz Hlen Hf.
  { destruct f as [|f]; [lia|]. cbn [emit fst app lex]. rewrite be32_app by (split; vm_compute; congruence). done. }
  apply Forall_cons_1 in Hok as [H1 Hok]. destruct f as [|f]; [simpl in Hf; lia|].
  destruct (emit1_table t tok Ht H1) as [Ht1 _]. destruct (emit_table _ toks Ht1 Hok) as [_ [m2 E2]].
  cbn [emit fst snd] in *. rewrite length_app in Hlen. rewrite <- app_assoc.
  rewrite (lex_emit1 t tok final (m2 ++ more)); [|done|done|by rewrite Hfin, E2, app_assoc|done|lia].
  rewrite IH; [done|done|done|done|done|lia|simpl in Hf; lia].
Qed.
