(* ===== verification/FdtRun.v ===== *)
(** * The builder of the device tree writes tokens

    [runs m toks]: from a well-formed state with room, the builder [m] returns and
    appends the bytes of [toks].  The rules below give [runs] for each fdt_*
    function and for sequences of them. *)
From S2P Require Export FdtFacts.
From stdpp Require Import strings.
#[local] Open Scope Z_scope.

(** The bound on both tables; below it no int of the builder overflows. *)
Definition FDT_ROOM : Z := 2 ^ 28.
Record wf_fdt (s : FDTState) : Prop := {
  wf_words : (length (tab s) mod 4 = 0)%nat;
  wf_tab : Z.of_nat (length (tab s)) <= 4 * tab_size s;
  wf_tab_size : 0 <= tab_size s <= 3 * 2 ^ 27;
  wf_strings : wf_table (string_table s);
  wf_string_len : Z.of_nat (length (string_table s)) <= string_table_size s;
  wf_string_size : 0 <= string_table_size s <= 3 * 2 ^ 27;
}.
Lemma wf_fdt_init : wf_fdt fdt_init.
Proof. split; cbn; try lia; try done. exists []. done. Qed.

(** [s'] is [s] with [bs] appended, the strings [t] and [n] more open nodes. *)
Record grown (s : FDTState) (bs t : list Z) (n : Z) (s' : FDTState) : Prop := {
  grown_wf : wf_fdt s';
  grown_tab : tab s' = tab s ++ bs;
  grown_strings : string_table s' = t;
  grown_open : open_node_count s' = open_node_count s + n;
}.
Lemma grown_trans s b1 t1 n1 s1 b2 t2 n2 s2 :
  grown s b1 t1 n1 s1 -> grown s1 b2 t2 n2 s2 -> grown s (b1 ++ b2) t2 (n1 + n2) s2.
Proof.
  intros [H1 H2 H3 H4] [I1 I2 I3 I4]. split; [done| |done|lia]. by rewrite I2, H2, app_assoc.
Qed.

(** ** Appending bytes *)
Lemma grow_size_spec len size : 0 <= len <= 2 ^ 28 -> 0 <= size <= 3 * 2 ^ 27 ->
  len <= grow_size len size <= 3 * 2 ^ 27.
Proof.
  intros Hl Hs. unfold grow_size. destruct (Z.ltb_spec size len); [|lia].
  assert (i32 (size * 3) = size * 3) as -> by (apply swrap_id; lia).
  rewrite Z.quot_div_nonneg by lia. unfold max_int. destruct (Z.ltb_spec ((size * 3) / 2) len); [lia|].
  Z.to_euclidean_division_equations. lia.
Qed.
(** The common shape of fdt_put32 and fdt_put_data. *)
Definition append_words (n : Z) (bs : list Z) : M FDTState unit :=
  s ← gets (fun s => s);
  _ ← fdt_alloc_len (tab_len s + n);
  tab_store bs.
Lemma append_words_grown n bs s : wf_fdt s -> Z.of_nat (length bs) = 4 * n -> 0 <= n ->
  Z.of_nat (length (tab s)) + 4 * n <= FDT_ROOM ->
  exists s', append_words n bs s = Ok tt s' /\ grown s bs (string_table s) 0 s'.
Proof.
  intros [Hw Ht Hts Hst Hsl Hss] Hn Hn0 Hroom. unfold FDT_ROOM in Hroom.
  unfold append_words, gets, fdt_alloc_len, modify, mbind, M_bind, tab_store, tab_len. cbn.
  set (size := grow_size _ _).
  assert (Z.of_nat (length (tab s)) = 4 * (Z.of_nat (length (tab s)) / 4)) as E.
  { apply (f_equal Z.of_nat) in Hw. rewrite Nat2Z.inj_mod in Hw. change (Z.of_nat 4) with 4 in Hw.
    Z.to_euclidean_division_equations. lia. }
  assert (Z.of_nat (length (tab s)) / 4 + n <= size <= 3 * 2 ^ 27) as Hsize.
  { apply grow_size_spec; [|done]. split; [|lia]. apply Z.add_nonneg_nonneg; [apply Z.div_pos; lia|done]. }
  rewrite length_app. destruct (Z.ltb_spec (4 * size) (Z.of_nat (length (tab s) + length bs))) as [Hc|_]; [lia|].
  eexists. split; [done|]. split; cbn; [|done|done|lia].
  split; cbn [tab tab_size string_table string_table_size]; rewrite ?length_app; try done; try lia.
  rewrite Nat.Div0.add_mod, Hw. replace (length bs) with (Z.to_nat n * 4)%nat by lia.
  by rewrite Nat.Div0.mod_mul.
Qed.

Lemma bswap_bytes v : rev (be_bytes 4 (bswap_32 v)) = be_bytes 4 v.
Proof.
  unfold be_bytes, bswap_32. cbn [rev app]. change 0xff000000 with (Z.ones 8 ≪ 24).
  change 0xff0000 with (Z.ones 8 ≪ 16). change 0xff00 with (Z.ones 8 ≪ 8). change 0xff with (Z.ones 8).
  change (8 * Z.of_nat 0) with 0. change (8 * Z.of_nat 1) with 8. change (8 * Z.of_nat 2) with 16.
  change (8 * Z.of_nat 3) with 24.
  apply (f_equal2 cons); [Zbits|]. apply (f_equal2 cons); [Zbits|].
  apply (f_equal2 cons); [Zbits|]. apply (f_equal2 cons); [Zbits|done].
Qed.
Lemma be_word_bytes v : be_word v = be_bytes 4 v.
Proof.
  unfold be_word, cpu_to_be32. rewrite bswap_bytes. apply be_bytes_mod. lia.
Qed.

(** ** Tokens *)
Definition net1 (tok : token) : Z := match tok with TBegin _ => 1 | TProp _ _ => 0 | TEnd => -1 end.
Definition net (toks : list token) : Z := foldr (fun tok n => net1 tok + n) 0 toks.
Lemma net_app a b : net (a ++ b) = net a + net b.
Proof. induction a as [|x a IH]; cbn [net app foldr] in *; [done|]. fold (net (a ++ b)) (net a). lia. Qed.
Lemma emit_app t a b :
  emit t (a ++ b) = ((emit t a).1 ++ (emit (emit t a).2 b).1, (emit (emit t a).2 b).2).
Proof.
  revert t. induction a as [|x a IH]; intros t; cbn [app emit fst snd].
  { by destruct (emit t b). }
  by rewrite IH, <- app_assoc.
Qed.
Definition fdt_room (s : FDTState) (toks : list token) : Prop :=
  Z.of_nat (length (tab s)) + Z.of_nat (length (emit (string_table s) toks).1) <= FDT_ROOM /\
  Z.of_nat (length (emit (string_table s) toks).2) <= FDT_ROOM.
Definition runs (m : M FDTState unit) (toks : list token) : Prop :=
  Forall tok_ok toks -> forall s, wf_fdt s -> fdt_room s toks ->
  exists s', m s = Ok tt s' /\
    grown s (emit (string_table s) toks).1 (emit (string_table s) toks).2 (net toks) s'.

Lemma runs_ret : runs (mret tt) [].
Proof. intros _ s Hs _. exists s. split; [done|]. split; cbn; [done|by rewrite app_nil_r|done|lia]. Qed.
Lemma runs_bind m1 m2 a b : runs m1 a -> runs m2 b -> runs (_ ← m1; m2) (a ++ b).
Proof.
  intros H1 H2 Hok s Hs [Hr1 Hr2]. apply Forall_app in Hok as [Ha Hb].
  rewrite emit_app in *. cbn [fst snd] in *. rewrite length_app in Hr1.
  destruct (emit_table _ a (wf_strings s Hs) Ha) as [Hwt _].
  destruct (emit_table _ b Hwt Hb) as [_ [more Em]].
  destruct (H1 Ha s Hs) as (s1 & E1 & G1).
  { split; [lia|]. rewrite Em, length_app in Hr2. lia. }
  pose proof G1 as [W1 T1 S1 O1]. destruct (H2 Hb s1 W1) as (s2 & E2 & G2).
  { unfold fdt_room. rewrite T1, S1, length_app. split; lia. }
  exists s2. split; [unfold mbind, M_bind; by rewrite E1|].
  rewrite net_app. rewrite S1 in G2. by eapply grown_trans.
Qed.

(** ** The functions of the builder *)
Lemma fdt_put32_grown v s : wf_fdt s -> Z.of_nat (length (tab s)) + 4 <= FDT_ROOM ->
  exists s', fdt_put32 v s = Ok tt s' /\ grown s (be_bytes 4 v) (string_table s) 0 s'.
Proof.
  intros Hs Hr. rewrite <- be_word_bytes. apply (append_words_grown 1); [done| |lia|lia].
  by rewrite be_word_bytes, length_be_bytes.
Qed.
Lemma align4_words n : Z.of_nat (align4 n) = 4 * Z.quot (Z.of_nat n + 3) 4.
Proof.
  unfold align4. rewrite land_neg_3, Z.quot_div_nonneg by lia. pose proof (Z.mod_pos_bound (- Z.of_nat n) 4).
  Z.to_euclidean_division_equations. lia.
Qed.
Lemma fdt_put_data_grown d s : wf_fdt s -> Z.of_nat (length (tab s)) + Z.of_nat (length (padded d)) <= FDT_ROOM ->
  exists s', fdt_put_data d s = Ok tt s' /\ grown s (padded d) (string_table s) 0 s'.
Proof.
  intros Hs Hr. rewrite length_padded, align4_words in Hr.
  apply (append_words_grown (Z.quot (Z.of_nat (length d) + 3) 4)); [done| | |done].
  - by rewrite length_padded, align4_words.
  - pose proof (align4_words (length d)). lia.
Qed.
Lemma add_open_grown n s : wf_fdt s ->
  exists s', add_open n s = Ok tt s' /\ grown s [] (string_table s) n s'.
Proof.
  intros [? ? ? ? ? ?]. eexists. split; [done|]. split; cbn; [by split|by rewrite app_nil_r|done|done].
Qed.
Lemma fdt_get_string_offset_grown name s : wf_fdt s -> nonul name ->
  Z.of_nat (length (intern (string_table s) name).2) <= FDT_ROOM ->
  exists s', fdt_get_string_offset name s = Ok (Z.of_nat (intern (string_table s) name).1) s' /\
    grown s [] (intern (string_table s) name).2 0 s'.
Proof.
  intros Hs Hn Hr. pose proof Hs as [Hw Ht Hts Hst Hsl Hss].
  pose proof (intern_spec _ _ Hst Hn) as H. destruct (intern (string_table s) name) as [pos t']. cbn [fst snd] in *.
  destruct H as (Hwt & _ & _ & _ & Hf). unfold fdt_get_string_offset.
  destruct (find_string _ _ _ _) as [[p|]|]; [| |done]; destruct Hf as [-> ->].
  - exists s. split; [done|]. split; [done|by rewrite app_nil_r|done|lia].
  - set (size := grow_size _ _). assert (Z.of_nat (length (string_table s ++ c_string name)) <= size <= 3 * 2 ^ 27) as Hsz
      by (apply grow_size_spec; unfold FDT_ROOM in *; lia).
    rewrite (proj2 (Z.ltb_ge _ _)) by lia. eexists. split; [done|].
    split; cbn [tab string_table open_node_count]; [|by rewrite app_nil_r|done|lia].
    split; cbn [tab string_table tab_size string_table_size]; try done; lia.
Qed.

Lemma runs_begin_node name : runs (fdt_begin_node name) [TBegin name].
Proof.
  intros _ s Hs [Hr _]. cbn [emit emit1 fst snd] in *. rewrite app_nil_r in *.
  rewrite length_app, length_be_bytes in Hr. unfold fdt_begin_node.
  destruct (fdt_put32_grown FDT_BEGIN_NODE s Hs ltac:(lia)) as (s1 & E1 & G1).
  destruct (fdt_put_data_grown (c_string name) s1 (grown_wf _ _ _ _ _ G1)) as (s2 & E2 & G2).
  { rewrite (grown_tab _ _ _ _ _ G1), length_app, length_be_bytes. lia. }
  destruct (add_open_grown 1 s2 (grown_wf _ _ _ _ _ G2)) as (s3 & E3 & G3).
  exists s3. split; [unfold mbind, M_bind; by rewrite E1, E2|].
  rewrite (grown_strings _ _ _ _ _ G2), (grown_strings _ _ _ _ _ G1) in G3.
  rewrite (grown_strings _ _ _ _ _ G1) in G2.
  pose proof (grown_trans _ _ _ _ _ _ _ _ _ G1 (grown_trans _ _ _ _ _ _ _ _ _ G2 G3)) as G.
  by rewrite app_nil_r in G.
Qed.

Lemma runs_end_node : runs fdt_end_node [TEnd].
Proof.
  intros _ s Hs [Hr _]. cbn [emit emit1 fst snd] in *. rewrite app_nil_r, length_be_bytes in *.
  unfold fdt_end_node. destruct (fdt_put32_grown FDT_END_NODE s Hs ltac:(lia)) as (s1 & E1 & G1).
  destruct (add_open_grown (-1) s1 (grown_wf _ _ _ _ _ G1)) as (s2 & E2 & G2).
  exists s2. split; [unfold mbind, M_bind; by rewrite E1, E2|].
  rewrite (grown_strings _ _ _ _ _ G1) in G2.
  pose proof (grown_trans _ _ _ _ _ _ _ _ _ G1 G2) as G. by rewrite app_nil_r in G.
Qed.
(** What both forms of a property start with. *)
Lemma prop_head_grown name len s (k : M FDTState unit) : wf_fdt s -> nonul name ->
  Z.of_nat (length (tab s)) + 12 <= FDT_ROOM -> Z.of_nat (length (intern (string_table s) name).2) <= FDT_ROOM ->
  exists s', (_ ← fdt_put32 FDT_PROP; _ ← fdt_put32 len; pos ← fdt_get_string_offset name; _ ← fdt_put32 pos; k) s =
    k s' /\ grown s (be_bytes 4 FDT_PROP ++ be_bytes 4 len ++ be_bytes 4 (Z.of_nat (intern (string_table s) name).1))
      (intern (string_table s) name).2 0 s'.
Proof.
  intros Hs Hn Hr Ht.
  destruct (fdt_put32_grown FDT_PROP s Hs ltac:(lia)) as (s1 & E1 & G1). pose proof G1 as [W1 T1 S1 _].
  destruct (fdt_put32_grown len s1 W1) as (s2 & E2 & G2); [rewrite T1, length_app, length_be_bytes; lia|].
  pose proof G2 as [W2 T2 S2 _]. rewrite S1 in S2. rewrite <- S2 in Ht |- *.
  destruct (fdt_get_string_offset_grown name s2 W2 Hn Ht) as (s3 & E3 & G3). pose proof G3 as [W3 T3 S3 _].
  rewrite app_nil_r in T3.
  destruct (fdt_put32_grown (Z.of_nat (intern (string_table s2) name).1) s3 W3) as (s4 & E4 & G4).
  { rewrite T3, T2, T1, !length_app, !length_be_bytes. lia. }
  exists s4. split; [unfold mbind, M_bind; by rewrite E1, E2, E3, E4|].
  rewrite S3 in G4.
  pose proof (grown_trans _ _ _ _ _ _ _ _ _ G1 (grown_trans _ _ _ _ _ _ _ _ _ G2
    (grown_trans _ _ _ _ _ _ _ _ _ G3 G4))) as G. exact G.
Qed.
(** A property whose data is written by [m]. *)
Lemma runs_prop_with name d (m : M FDTState unit) :
  (forall s, wf_fdt s -> Z.of_nat (length (tab s)) + Z.of_nat (length (padded d)) <= FDT_ROOM ->
     exists s', m s = Ok tt s' /\ grown s (padded d) (string_table s) 0 s') ->
  runs (_ ← fdt_put32 FDT_PROP; _ ← fdt_put32 (Z.of_nat (length d)); pos ← fdt_get_string_offset name;
        _ ← fdt_put32 pos; m) [TProp name d].
Proof.
  intros Hm Hok s Hs [Hr Ht]. apply Forall_cons_1 in Hok as [Hn _]. cbn [tok_ok] in Hn.
  pose proof (prop_head_grown name (Z.of_nat (length d)) s m Hs Hn) as H. cbn [emit emit1] in *.
  destruct (intern (string_table s) name) as [pos t']. cbn [fst snd] in *. rewrite app_nil_r in *.
  rewrite !length_app, !length_be_bytes in Hr. destruct H as (s1 & E1 & G1); [lia|done|].
  pose proof G1 as [W1 T1 S1 _]. destruct (Hm s1 W1) as (s2 & E2 & G2).
  { rewrite T1, !length_app, !length_be_bytes. lia. }
  exists s2. split; [by rewrite E1|]. rewrite S1 in G2.
  pose proof (grown_trans _ _ _ _ _ _ _ _ _ G1 G2) as G. by rewrite <- !app_assoc in G.
Qed.
Lemma runs_prop name d : runs (fdt_prop name d) [TProp name d].
Proof. apply runs_prop_with. intros s Hs Hr. by apply fdt_put_data_grown. Qed.

(** 32-bit cells. *)
Definition cells (l : list Z) : list Z := concat (map (be_bytes 4) l).
Lemma length_cells l : length (cells l) = (4 * length l)%nat.
Proof.
  induction l as [|v l IH]; [done|]. unfold cells in *. cbn [map concat length].
  rewrite length_app, length_be_bytes, IH. lia.
Qed.
Lemma padded_cells l : padded (cells l) = cells l.
Proof.
  unfold padded. rewrite length_cells, land_neg_3 by lia.
  replace (- Z.of_nat (4 * length l)) with (- Z.of_nat (length l) * 4) by lia.
  by rewrite Z.mod_mul, app_nil_r by lia.
Qed.
Lemma put_words_grown l s : wf_fdt s -> Z.of_nat (length (tab s)) + Z.of_nat (length (cells l)) <= FDT_ROOM ->
  exists s', put_words l s = Ok tt s' /\ grown s (cells l) (string_table s) 0 s'.
Proof.
  revert s. induction l as [|v l IH]; intros s Hs Hr; cbn [put_words].
  { exists s. split; [done|]. split; [done|by rewrite app_nil_r|done|lia]. }
  unfold cells in *. cbn [map concat] in *. rewrite length_app, length_be_bytes in Hr.
  destruct (fdt_put32_grown v s Hs ltac:(lia)) as (s1 & E1 & G1). pose proof G1 as [W1 T1 S1 _].
  destruct (IH s1 W1) as (s2 & E2 & G2); [rewrite T1, length_app, length_be_bytes; lia|].
  exists s2. split; [unfold mbind, M_bind; by rewrite E1|]. rewrite S1 in G2.
  apply (grown_trans _ _ _ _ _ _ _ _ _ G1 G2).
Qed.
Lemma runs_prop_tab_u32 name l : runs (fdt_prop_tab_u32 name l) [TProp name (cells l)].
Proof.
  unfold fdt_prop_tab_u32. replace (Z.of_nat (length l) * 4) with (Z.of_nat (length (cells l))) by
    (rewrite length_cells; lia).
  apply runs_prop_with. intros s Hs Hr. rewrite padded_cells in *. by apply put_words_grown.
Qed.
Lemma runs_prop_u32 name v : runs (fdt_prop_u32 name v) [TProp name (cells [v])].
Proof. apply runs_prop_tab_u32. Qed.
(** 64-bit cells. *)
Definition cells64 (l : list Z) : list Z := concat (map (be_bytes 8) l).
Lemma cells_hi_lo v : be_bytes 4 (u32 (v ≫ 32)) ++ be_bytes 4 (u32 v) = be_bytes 8 v.
Proof. rewrite !be_bytes_mod by done. by rewrite (be_bytes_app 4 4). Qed.
Lemma runs_prop_tab_u64 name v : runs (fdt_prop_tab_u64 name v) [TProp name (cells64 [v])].
Proof.
  unfold cells64. cbn [map concat]. rewrite <- cells_hi_lo, <- app_assoc. apply runs_prop_tab_u32.
Qed.
Lemma runs_prop_tab_u64_2 name v w : runs (fdt_prop_tab_u64_2 name v w) [TProp name (cells64 [v; w])].
Proof.
  unfold cells64. cbn [map concat]. rewrite <- !cells_hi_lo, <- !app_assoc. apply runs_prop_tab_u32.
Qed.
Lemma runs_prop_str name s : runs (fdt_prop_str name s) [TProp name (c_string s)].
Proof. apply runs_prop. Qed.
Lemma runs_prop_tab_str name l : runs (fdt_prop_tab_str name l) [TProp name (table_of l)].
Proof. apply runs_prop. Qed.
Lemma runs_begin_node_num name n : (length (name ++ str "@" ++ to_hex (u64 n)) < 256)%nat ->
  runs (fdt_begin_node_num name n) [TBegin (name ++ str "@" ++ to_hex (u64 n))].
Proof.
  intros H. unfold fdt_begin_node_num, snprintf. rewrite take_ge by lia. apply runs_begin_node.
Qed.

(** * The file that fdt_output writes, and reading it back

    [blob t] is the flattened form of the tree [t]: header, structure block, empty
    memory reservation block, strings block. *)
#[local] Open Scope Z_scope.

(** The padding to a multiple of 8. *)
Definition pad8 (n : nat) : nat := Z.to_nat ((- Z.of_nat n) mod 8).
(** The parts of a file with structure block [st] and strings [strs]. *)
Definition fdt_parts (st strs : list Z) : list (list Z) :=
  let n1 := (40 + length st)%nat in
  let rsv := (n1 + pad8 n1)%nat in
  let n2 := (rsv + 16 + length strs)%nat in
  [be_bytes 4 FDT_MAGIC; be_bytes 4 (Z.of_nat (n2 + pad8 n2)); be_bytes 4 40; be_bytes 4 (Z.of_nat (rsv + 16));
   be_bytes 4 (Z.of_nat rsv); be_bytes 4 FDT_VERSION; be_bytes 4 16; be_bytes 4 0;
   be_bytes 4 (Z.of_nat (length strs)); be_bytes 4 (Z.of_nat (length st));
   st; replicate (pad8 n1) 0; replicate 8 0; replicate 8 0; strs; replicate (pad8 n2) 0].
Definition blob (t : dt) : list Z :=
  concat (fdt_parts ((emit [] (flatten t)).1 ++ be_bytes 4 FDT_END) (emit [] (flatten t)).2).

(** ** An object cut in segments *)
Lemma cut_segments lens (d : list Z) : (foldr Nat.add 0 lens <= length d)%nat ->
  exists segs, d = concat (segs ++ [drop (foldr Nat.add 0%nat lens) d]) /\ map length segs = lens.
Proof.
  revert d. induction lens as [|n lens IH]; intros d H; cbn [foldr] in *.
  { exists []. split; [|done]. cbn [app concat]. by rewrite app_nil_r. }
  destruct (IH (drop n d)) as (segs & E & L); [rewrite length_drop; lia|].
  exists (take n d :: segs). cbn [app concat map]. rewrite drop_drop in E. rewrite <- E, take_drop.
  split; [done|]. by rewrite L, length_take_le by lia.
Qed.
Lemma dst_store_app pre old new post : length old = length new ->
  dst_store (length pre) new (pre ++ old ++ post) = Some (pre ++ new ++ post).
Proof.
  intros Hl. unfold dst_store. rewrite (proj2 (Nat.leb_le _ _)) by (rewrite !length_app; lia).
  unfold splice. rewrite take_app_length. do 3 f_equal.
  by rewrite <- drop_drop, drop_app_length, <- Hl, drop_app_length.
Qed.
Lemma pad8_zero pos : (Z.of_nat pos .& 7 =? 0) = (pad8 pos =? 0)%nat.
Proof.
  change 7 with (Z.ones 3). rewrite Z.land_ones by lia. change (2 ^ 3) with 8. unfold pad8.
  destruct (Z.eqb_spec (Z.of_nat pos mod 8) 0), (Nat.eqb_spec (Z.to_nat (- Z.of_nat pos mod 8)) 0); try done;
    Z.to_euclidean_division_equations; lia.
Qed.
Lemma pad8_lt pos : (pad8 pos < 8)%nat.
Proof. unfold pad8. pose proof (Z.mod_pos_bound (- Z.of_nat pos) 8). lia. Qed.
Lemma align8_app n pre old post : length old = pad8 (length pre) -> (length old <= n)%nat ->
  align8 n (length pre) (pre ++ old ++ post) =
  Some ((length pre + length old)%nat, pre ++ replicate (length old) 0 ++ post).
Proof.
  revert n pre. induction old as [|x old IH]; intros n pre Hp Hn; cbn [length] in *.
  { rewrite Nat.add_0_r. destruct n; [done|]. cbn [align8]. by rewrite pad8_zero, <- Hp. }
  destruct n as [|n]; [lia|]. cbn [align8]. rewrite pad8_zero, <- Hp. cbn [Nat.eqb].
  change ((x :: old) ++ post) with ([x] ++ old ++ post). rewrite (dst_store_app _ [x] [0]) by done.
  rewrite app_assoc. replace (length pre + 1)%nat with (length (pre ++ [0])) by (rewrite length_app; done).
  rewrite IH; [|rewrite length_app; cbn [length]; unfold pad8 in *; Z.to_euclidean_division_equations; lia|lia].
  rewrite length_app, <- app_assoc. cbn [length replicate app]. do 2 f_equal. lia.
Qed.
(** The same on segment [i] of [segs]. *)
Lemma concat_insert segs i (new : list Z) : (i < length segs)%nat ->
  concat (<[i := new]> segs) = concat (take i segs) ++ new ++ concat (drop (S i) segs).
Proof. intros H. rewrite insert_take_drop by done. rewrite concat_app. done. Qed.
Lemma concat_middle segs i (old : list Z) : segs !! i = Some old ->
  concat segs = concat (take i segs) ++ old ++ concat (drop (S i) segs).
Proof. intros H. rewrite <- (take_drop_middle _ _ _ H) at 1. by rewrite concat_app. Qed.
Lemma store_segment segs i o old new : segs !! i = Some old -> length old = length new ->
  o = length (concat (take i segs)) -> dst_store o new (concat segs) = Some (concat (<[i := new]> segs)).
Proof.
  intros Hi Hl ->. rewrite (concat_middle _ _ _ Hi), concat_insert by (by eapply lookup_lt_Some).
  by apply dst_store_app.
Qed.
Lemma align8_segment segs i pos old : segs !! i = Some old -> length old = pad8 pos ->
  pos = length (concat (take i segs)) ->
  align8 8 pos (concat segs) = Some ((pos + pad8 pos)%nat, concat (<[i := replicate (pad8 pos) 0]> segs)).
Proof.
  intros Hi Hl ->. rewrite (concat_middle _ _ _ Hi), concat_insert by (by eapply lookup_lt_Some).
  rewrite <- Hl. apply align8_app; [done|]. rewrite Hl. pose proof (pad8_lt (length (concat (take i segs)))). lia.
Qed.

(** ** The stores of fdt_output *)
Definition fdt_size (st strs : list Z) : nat := length (concat (fdt_parts st strs)).
Lemma fdt_size_eq st strs : fdt_size st strs =
  let n1 := (40 + length st)%nat in
  let n2 := (n1 + pad8 n1 + 16 + length strs)%nat in (n2 + pad8 n2)%nat.
Proof.
  unfold fdt_size, fdt_parts. cbn [concat]. rewrite !length_app, !length_be_bytes, !length_replicate.
  cbn [length]. cbv zeta. lia.
Qed.

(** The store, or the alignment, that comes next is of segment [i]. *)
Ltac segment_len :=
  rewrite ?be_word_bytes; cbn [take concat];
  rewrite ?length_app, ?be_word_bytes, ?length_be_bytes, ?length_replicate; cbn [length]; lia.
Ltac store_at i :=
  match goal with |- context [dst_store ?o ?new (concat ?segs)] =>
    match eval cbn in (segs !! i) with Some ?old =>
      rewrite (store_segment segs i o old new eq_refl) by segment_len; cbn [insert list_insert] end end.
Ltac align_at i :=
  match goal with |- context [align8 8 ?pos (concat ?segs)] =>
    match eval cbn in (segs !! i) with Some ?old =>
      rewrite (align8_segment segs i pos old eq_refl) by segment_len; cbn [insert list_insert] end end.
Lemma fdt_output_dst_ok s dst : (fdt_size (tab s) (string_table s) <= length dst)%nat ->
  fdt_output_dst s dst = Some (fdt_size (tab s) (string_table s),
    concat (fdt_parts (tab s) (string_table s)) ++ drop (fdt_size (tab s) (string_table s)) dst).
Proof.
  rewrite fdt_size_eq. intros Hd. unfold fdt_output_dst, fdt_parts. cbv zeta in *.
  set (st := tab s) in *. set (strs := string_table s) in *.
  set (n1 := (40 + length st)%nat) in *. set (n2 := (n1 + pad8 n1 + 16 + length strs)%nat) in *.
  destruct (cut_segments [4; 4; 4; 4; 4; 4; 4; 4; 4; 4; length st; pad8 n1; 8; 8; length strs; pad8 n2]%nat dst)
    as (segs & E & L); [cbn [foldr]; lia|].
  replace (foldr _ _ _) with (n2 + pad8 n2)%nat in E by (cbn [foldr]; lia).
  set (rest := drop (n2 + pad8 n2) dst) in *. rewrite E. clearbody rest. clear E Hd.
  do 16 (destruct segs as [|? segs]; [done|]; cbn [map] in L; injection L as ? L).
  destruct segs; [|done]. cbn [app].
  store_at 0%nat. store_at 5%nat. store_at 6%nat. store_at 7%nat. store_at 8%nat. store_at 9%nat. store_at 2%nat.
  store_at 10%nat. align_at 11%nat. store_at 4%nat. store_at 12%nat. store_at 13%nat. store_at 3%nat.
  store_at 14%nat. fold n2. align_at 15%nat. store_at 1%nat.
  rewrite !be_word_bytes. do 2 f_equal. cbn [concat]. rewrite <- !app_assoc. cbn [app]. by rewrite app_nil_r.
Qed.

(** A destination that is too short is overrun. *)
Lemma dst_store_Some o bs d d' : dst_store o bs d = Some d' -> (o + length bs <= length d)%nat /\ length d' = length d.
Proof.
  unfold dst_store. destruct (Nat.leb_spec (o + length bs) (length d)); [|done].
  intros [= <-]. by rewrite length_splice.
Qed.
Lemma align8_Some n pos d pos' d' : align8 n pos d = Some (pos', d') -> (pad8 pos <= n)%nat ->
  pos' = (pos + pad8 pos)%nat /\ length d' = length d /\ (pos <= length d -> pos' <= length d)%nat.
Proof.
  revert pos d. induction n as [|n IH]; intros pos d H Hn; cbn [align8] in H; [injection H as <- <-; lia|].
  rewrite pad8_zero in H. destruct (Nat.eqb_spec (pad8 pos) 0) as [Hz|Hz]; [injection H as <- <-; lia|].
  destruct (dst_store pos [0] d) as [d1|] eqn:E; [|done]. apply dst_store_Some in E as [Hl E]. cbn [length] in Hl.
  assert (pad8 pos = S (pad8 (pos + 1))) as Hp by (unfold pad8 in *; Z.to_euclidean_division_equations; lia).
  destruct (IH _ _ H) as (-> & -> & H3); lia.
Qed.
Lemma fdt_output_dst_short s dst r : fdt_output_dst s dst = Some r ->
  (fdt_size (tab s) (string_table s) <= length dst)%nat.
Proof.
  rewrite fdt_size_eq. unfold fdt_output_dst. intros H. cbv zeta in *.
  repeat match type of H with
  | match dst_store ?o ?b ?d with _ => _ end = _ =>
      let E := fresh "E" in destruct (dst_store o b d) eqn:E; [|discriminate H]; apply dst_store_Some in E
  | match align8 ?n ?p ?d with _ => _ end = _ =>
      let E := fresh "E" in destruct (align8 n p d) as [[? ?]|] eqn:E; [|discriminate H];
      apply align8_Some in E; [|pose proof (pad8_lt p); lia]; destruct E as (-> & ? & ?)
  end.
  repeat match goal with E : _ /\ _ |- _ => destruct E end.
  lia.
Qed.

(** ** Reading a blob back *)
Lemma emit_length t toks : (4 * length toks <= length (emit t toks).1)%nat.
Proof.
  revert t. induction toks as [|tok toks IH]; intros t; cbn [emit fst length]; [lia|].
  rewrite length_app. specialize (IH (emit1 t tok).2).
  enough (4 <= length (emit1 t tok).1)%nat by lia.
  destruct tok as [n|n d|]; cbn [emit1]; [|destruct (intern t n)|]; cbn [fst];
    rewrite ?length_app, !length_be_bytes; lia.
Qed.
Lemma drop_be4 k v l : drop (S (S (S (S k)))) (be_bytes 4 v ++ l) = drop k l.
Proof. change (S (S (S (S k)))) with (4 + k)%nat. by rewrite <- drop_drop, drop_be_bytes. Qed.
Lemma fdt_fields st strs :
  Z.of_nat (fdt_size st strs) < 2 ^ 32 ->
  let b := concat (fdt_parts st strs) in
  be32 (drop 0 b) = FDT_MAGIC /\ be32 (drop 20 b) = FDT_VERSION /\ be32 (drop 4 b) = Z.of_nat (fdt_size st strs) /\
  be32 (drop 36 b) = Z.of_nat (length st) /\ be32 (drop 8 b) = 40 /\ be32 (drop 32 b) = Z.of_nat (length strs) /\
  be32 (drop 12 b) = Z.of_nat (40 + length st + pad8 (40 + length st) + 16).
Proof.
  intros H b. assert (length b = fdt_size st strs) as Hb by done. rewrite fdt_size_eq in *. cbv zeta in *.
  unfold b, fdt_parts. cbn [concat].
  rewrite !drop_be4, !drop_0, !be32_app by (split; first [lia | vm_compute; congruence]).
  do 6 (split; [done|]). done.
Qed.

Lemma fdt_struct_part st strs : take (length st) (drop 40 (concat (fdt_parts st strs))) = st.
Proof. unfold fdt_parts. cbn [concat]. rewrite !drop_be4, drop_0. apply take_app_length. Qed.
Lemma fdt_strings_part st strs :
  take (length strs) (drop (40 + length st + pad8 (40 + length st) + 16) (concat (fdt_parts st strs))) = strs.
Proof.
  replace (_ + 16)%nat with (40 + (length st + (pad8 (40 + length st) + 16)))%nat by lia.
  rewrite <- (drop_drop _ _ 40). unfold fdt_parts. cbn [concat].
  rewrite !drop_be4, drop_0, <- !drop_drop, drop_app_length.
  rewrite <- (length_replicate (pad8 (40 + length st)) 0) at 1. rewrite drop_app_length. cbn [replicate app drop].
  apply take_app_length.
Qed.
(** The names of a tree are C strings. *)
Definition names_ok (t : dt) : Prop := Forall tok_ok (flatten t).
Lemma wf_table_nil : wf_table [].
Proof. exists []. by split; [constructor|]. Qed.
Lemma read_blob_eq t : names_ok t -> Z.of_nat (length (blob t)) < 2 ^ 32 -> read_fdt (blob t) = Some t.
Proof.
  intros Hok Hsz. unfold blob in *.
  set (st := (emit [] (flatten t)).1 ++ be_bytes 4 FDT_END) in *. set (strs := (emit [] (flatten t)).2) in *.
  fold (fdt_size st strs) in Hsz. destruct (fdt_fields st strs Hsz) as (E1 & E2 & E3 & E4 & E5 & E6 & E7).
  cbv zeta in *. unfold read_fdt. rewrite E1, E2, E3, E4, E5, E6, E7, !Nat2Z.id, !Z.eqb_refl. cbn [andb].
  change (Z.to_nat 40) with 40%nat. rewrite fdt_struct_part, fdt_strings_part.
  rewrite fdt_size_eq in Hsz. cbv zeta in Hsz. pose proof (emit_length [] (flatten t)) as Hl.
  assert (length st = (length (emit [] (flatten t)).1 + 4)%nat) as Hst by (unfold st; by rewrite length_app, length_be_bytes).
  unfold st at 2. rewrite <- (app_nil_r (be_bytes 4 FDT_END)).
  rewrite (lex_emit [] (flatten t) strs []); [apply build_flatten|apply wf_table_nil|done|by rewrite app_nil_r|lia|lia|lia].
Qed.
