(* ===== verification/FdtTree.v ===== *)
(** * The device tree of the machine

    [riscv_tree p] is the tree a kernel should find.  riscv_build_fdt writes the
    flattened form of exactly this tree. *)
From S2P Require Export FdtRun.
From stdpp Require Import strings.
#[local] Open Scope Z_scope.

Definition prop_cells (name : string) (l : list Z) : list Z * list Z := (str name, cells l).
Definition prop_cells64 (name : string) (l : list Z) : list Z * list Z := (str name, cells64 l).
Definition prop_string (name : string) (s : list Z) : list Z * list Z := (str name, c_string s).
Definition prop_strings (name : string) (l : list string) : list Z * list Z := (str name, table_of (map str l)).
Definition prop_flag (name : string) : list Z * list Z := (str name, []).
(** name@address *)
Definition unit_name (name : string) (addr : Z) : list Z := str name ++ str "@" ++ to_hex (u64 addr).

Definition cpus_node (p : FdtParams) (intc : Z) : dt :=
  Node (str "cpus")
    [prop_cells "#address-cells" [1]; prop_cells "#size-cells" [0]; prop_cells "timebase-frequency" [RTC_FREQ]]
    [Node (unit_name "cpu" 0)
       [prop_string "device_type" (str "cpu"); prop_cells "reg" [0]; prop_string "status" (str "okay");
        prop_string "compatible" (str "riscv");
        prop_string "riscv,isa" (isa_string (fdt_max_xlen p) (fdt_misa p));
        prop_string "mmu-type" (str (if fdt_max_xlen p <=? 32 then "riscv,sv32" else "riscv,sv48"));
        prop_cells "clock-frequency" [2000000000]]
       [Node (str "interrupt-controller")
          [prop_cells "#interrupt-cells" [1]; prop_flag "interrupt-controller";
           prop_string "compatible" (str "riscv,cpu-intc"); prop_cells "phandle" [intc]] []]].
Definition memory_node (p : FdtParams) : dt :=
  Node (unit_name "memory" RAM_BASE_ADDR)
    [prop_string "device_type" (str "memory"); prop_cells64 "reg" [RAM_BASE_ADDR; fdt_ram_size p]] [].
Definition clint_node (intc : Z) : dt :=
  Node (unit_name "clint" CLINT_BASE_ADDR)
    [prop_string "compatible" (str "riscv,clint0"); prop_cells "interrupts-extended" [intc; 3; intc; 7];
     prop_cells64 "reg" [CLINT_BASE_ADDR; CLINT_SIZE]] [].
Definition plic_node (intc plic : Z) : dt :=
  Node (unit_name "plic" PLIC_BASE_ADDR)
    [prop_cells "#interrupt-cells" [1]; prop_flag "interrupt-controller";
     prop_string "compatible" (str "riscv,plic0"); prop_cells "riscv,ndev" [31];
     prop_cells64 "reg" [PLIC_BASE_ADDR; PLIC_SIZE]; prop_cells "interrupts-extended" [intc; 9; intc; 11];
     prop_cells "phandle" [plic]] [].
Definition virtio_node (plic i : Z) : dt :=
  Node (unit_name "virtio" (VIRTIO_BASE_ADDR + i * VIRTIO_SIZE))
    [prop_string "compatible" (str "virtio,mmio");
     prop_cells64 "reg" [VIRTIO_BASE_ADDR + i * VIRTIO_SIZE; VIRTIO_SIZE];
     prop_cells "interrupts-extended" [plic; VIRTIO_IRQ + i]] [].
Fixpoint virtio_nodes (n : nat) (i plic : Z) : list dt :=
  match n with O => [] | S n' => virtio_node plic i :: virtio_nodes n' (i + 1) plic end.
Definition framebuffer_nodes (fb : option (Z * Z * Z * Z)) : list dt :=
  match fb with
  | None => []
  | Some (fb_size, width, height, stride) =>
      [Node (unit_name "framebuffer" FRAMEBUFFER_BASE_ADDR)
         [prop_string "compatible" (str "simple-framebuffer");
          prop_cells64 "reg" [FRAMEBUFFER_BASE_ADDR; fb_size]; prop_cells "width" [width];
          prop_cells "height" [height]; prop_cells "stride" [stride]; prop_string "format" (str "a8r8g8b8")] []]
  end.
Definition chosen_node (p : FdtParams) : dt :=
  Node (str "chosen")
    ([prop_string "bootargs" (cmd_line p)] ++
     (if 0 <? kernel_size p then
        [prop_cells64 "riscv,kernel-start" [kernel_start p];
         prop_cells64 "riscv,kernel-end" [u64 (kernel_start p + kernel_size p)]] else []) ++
     (if 0 <? initrd_size p then
        [prop_cells64 "linux,initrd-start" [initrd_start p];
         prop_cells64 "linux,initrd-end" [u64 (initrd_start p + initrd_size p)]] else [])) [].
Definition riscv_tree (p : FdtParams) : dt :=
  Node (str "")
    [prop_cells "#address-cells" [2]; prop_cells "#size-cells" [2];
     prop_string "compatible" (str "ucbbar,riscvemu-bar_dev"); prop_string "model" (str "ucbbar,riscvemu-bare")]
    [cpus_node p 1; memory_node p;
     Node (str "htif") [prop_string "compatible" (str "ucb,htif0")] [];
     Node (str "soc")
       [prop_cells "#address-cells" [2]; prop_cells "#size-cells" [2];
        prop_strings "compatible" ["ucbbar,riscvemu-bar-soc"; "simple-bus"]%string; prop_flag "ranges"]
       ([clint_node 1; plic_node 1 2] ++ virtio_nodes (fdt_virtio_count p) 0 2 ++ framebuffer_nodes (fdt_fb p));
     chosen_node p].

(** ** The builder writes it *)
Lemma length_hex_digits f n acc : (length (hex_digits f n acc) <= f + length acc)%nat.
Proof.
  revert n acc. induction f as [|f IH]; intros n acc; cbn [hex_digits]; [lia|].
  destruct (n ≫ 4 =? 0); cbn [length]; [lia|]. specialize (IH (n ≫ 4) (hex_digit (n .& 15) :: acc)).
  cbn [length] in IH. lia.
Qed.
Lemma runs_cons m1 m2 tok b : runs m1 [tok] -> runs m2 b -> runs (_ ← m1; m2) (tok :: b).
Proof. intros H1 H2. exact (runs_bind m1 m2 [tok] b H1 H2). Qed.
Lemma runs_unit name (addr : Z) : (length (str name) <= 200)%nat ->
  runs (fdt_begin_node_num (str name) addr) [TBegin (unit_name name addr)].
Proof.
  intros H. apply runs_begin_node_num. rewrite !length_app.
  pose proof (length_hex_digits 16 (u64 addr) []). unfold to_hex. cbn [length str] in *. lia.
Qed.
Lemma runs_reg name v w :
  runs (fdt_prop_tab_u32 name [u32 (v ≫ 32); v; u32 (w ≫ 32); u32 w]) [TProp name (cells64 [v; w])].
Proof.
  assert (cells64 [v; w] = cells [u32 (v ≫ 32); v; u32 (w ≫ 32); u32 w]) as ->; [|apply runs_prop_tab_u32].
  unfold cells, cells64. cbn [map concat]. rewrite <- !cells_hi_lo, <- !app_assoc.
  by rewrite (be_bytes_mod 4 32 v).
Qed.

(** One call, chosen by its head, and one call after the other. *)
Ltac runs_call :=
  lazymatch goal with
  | |- runs (mret _) _ => exact runs_ret
  | |- runs (fdt_begin_node_num _ _) _ => apply runs_unit; apply Nat.leb_le; reflexivity
  | |- runs (fdt_begin_node _) _ => apply runs_begin_node
  | |- runs fdt_end_node _ => apply runs_end_node
  | |- runs (fdt_prop _ _) _ => apply runs_prop
  | |- runs (fdt_prop_u32 _ _) _ => apply runs_prop_u32
  | |- runs (fdt_prop_tab_u32 _ [u32 (_ ≫ 32); _; _; _]) _ => apply runs_reg
  | |- runs (fdt_prop_tab_u32 _ _) _ => apply runs_prop_tab_u32
  | |- runs (fdt_prop_tab_u64 _ _) _ => apply runs_prop_tab_u64
  | |- runs (fdt_prop_tab_u64_2 _ _ _) _ => apply runs_prop_tab_u64_2
  | |- runs (fdt_prop_str _ _) _ => apply runs_prop_str
  | |- runs (fdt_prop_tab_str _ _) _ => apply runs_prop_tab_str
  end.
Ltac runs_steps := repeat (apply runs_cons; [solve [runs_call]|]); try solve [runs_call].
Ltac tokens node :=
  cbn [flatten node map app concat fst snd prop_cells prop_cells64 prop_string prop_strings prop_flag];
  unfold prop_cells, prop_cells64, prop_string, prop_strings, prop_flag; cbn [fst snd].

Lemma runs_cpus p intc : runs (fdt_cpus p intc) (flatten (cpus_node p intc)).
Proof. unfold fdt_cpus. tokens cpus_node. runs_steps. Qed.
Lemma runs_memory p : runs (fdt_memory p) (flatten (memory_node p)).
Proof. unfold fdt_memory. tokens memory_node. runs_steps. Qed.
Lemma runs_clint_plic intc plic :
  runs (fdt_clint_plic intc plic) (flatten (clint_node intc) ++ flatten (plic_node intc plic)).
Proof. unfold fdt_clint_plic. tokens clint_node. tokens plic_node. runs_steps. Qed.
Lemma runs_virtio n i plic : runs (fdt_virtio n i plic) (concat (map flatten (virtio_nodes n i plic))).
Proof.
  revert i. induction n as [|n IH]; intros i; cbn [fdt_virtio virtio_nodes map concat]; [exact runs_ret|].
  tokens virtio_node. runs_steps. apply IH.
Qed.
Lemma runs_framebuffer fb : runs (fdt_framebuffer fb) (concat (map flatten (framebuffer_nodes fb))).
Proof.
  destruct fb as [[[[sz w] h] st]|]; cbn [framebuffer_nodes fdt_framebuffer]; [|exact runs_ret].
  tokens framebuffer_nodes. runs_steps.
Qed.
Lemma runs_opt (b : bool) m toks : runs m toks -> runs (if b then m else mret tt) (if b then toks else []).
Proof. destruct b; [done|]. intros _. exact runs_ret. Qed.
Lemma runs_chosen p : runs (fdt_chosen p) (flatten (chosen_node p)).
Proof.
  unfold fdt_chosen, chosen_node. cbn [flatten]. rewrite !map_app, <- !app_assoc. cbn [map app concat].
  apply runs_cons; [runs_call|]. apply runs_cons; [runs_call|].
  apply runs_bind; [destruct (0 <? kernel_size p); cbn [map]; runs_steps; exact runs_ret|].
  apply runs_bind; [destruct (0 <? initrd_size p); cbn [map]; runs_steps; exact runs_ret|].
  runs_steps.
Qed.
Lemma runs_build_nodes p : runs (build_nodes p) (flatten (riscv_tree p)).
Proof.
  unfold build_nodes. cbv zeta. change (1 + 1) with 2. tokens riscv_tree.
  rewrite !app_nil_r, map_app, concat_app, <- !app_assoc. runs_steps.
  apply runs_bind; [apply runs_cpus|]. apply runs_bind; [apply runs_memory|]. cbn [app]. runs_steps.
  rewrite <- !app_assoc, (app_assoc (flatten (clint_node 1))). apply runs_bind; [apply runs_clint_plic|].
  apply runs_bind; [apply runs_virtio|]. apply runs_bind; [apply runs_framebuffer|]. runs_steps.
  apply runs_bind; [apply runs_chosen|]. runs_steps.
Qed.

(** ** Its names are C strings *)
Lemma nonul_hex f n acc : nonul acc -> nonul (hex_digits f n acc).
Proof.
  revert n acc. induction f as [|f IH]; intros n acc H; cbn [hex_digits]; [done|].
  assert (nonul (hex_digit (n .& 15) :: acc)) as H1.
  { constructor; [|done]. unfold hex_digit. pose proof (Z.land_nonneg n 15). zcases. }
  destruct (n ≫ 4 =? 0); [done|by apply IH].
Qed.
Lemma nonul_unit name addr : nonul (str name) -> nonul (unit_name name addr).
Proof.
  intros H. unfold unit_name. rewrite app_assoc. apply Forall_app; split; [|apply nonul_hex; constructor].
  apply Forall_app; split; [done|]. repeat constructor; discriminate.
Qed.
Lemma nonul_str s : forallb (fun c => negb (c =? 0)) (str s) = true -> nonul (str s).
Proof.
  induction (str s) as [|c l IH]; cbn [forallb]; [constructor|]. intros [H1 H2]%andb_prop.
  constructor; [|by apply IH]. by destruct (Z.eqb_spec c 0).
Qed.
Ltac names :=
  repeat lazymatch goal with
  | |- Forall tok_ok [] => apply List.Forall_nil
  | |- Forall tok_ok (_ :: _) => apply Forall_cons_2; cbn [tok_ok fst]
  | |- Forall tok_ok (_ ++ _) => apply Forall_app; split
  | |- nonul (unit_name _ _) => apply nonul_unit
  | |- nonul (str _) => apply nonul_str; reflexivity
  end; try done.
Lemma names_virtio n i plic : Forall tok_ok (concat (map flatten (virtio_nodes n i plic))).
Proof.
  revert i. induction n as [|n IH]; intros i; cbn [virtio_nodes map concat]; [constructor|].
  apply Forall_app; split; [|apply IH]. tokens virtio_node. names.
Qed.
Lemma names_framebuffer fb : Forall tok_ok (concat (map flatten (framebuffer_nodes fb))).
Proof.
  destruct fb as [[[[sz w] h] st]|]; cbn [framebuffer_nodes]; [|constructor]. tokens framebuffer_nodes. names.
Qed.
Lemma names_riscv_tree p : names_ok (riscv_tree p).
Proof.
  unfold names_ok. tokens riscv_tree. rewrite map_app, concat_app, !app_nil_r.
  names; try apply names_virtio; try apply names_framebuffer.
  - tokens cpus_node. names.
  - tokens memory_node. names.
  - tokens clint_node. names.
  - tokens plic_node. names.
  - tokens chosen_node. destruct (0 <? kernel_size p), (0 <? initrd_size p); cbn [app map]; names.
Qed.

(** ** The whole of riscv_build_fdt *)
Lemma net_flatten t : net (flatten t) = 0.
Proof.
  induction t as [n ps cs IH] using dt_ind'. cbn [flatten]. change (net (TBegin n :: ?l)) with (1 + net l).
  rewrite !net_app. change (net [TEnd]) with (-1).
  assert (net (map (fun p => TProp p.1 p.2) ps) = 0) as -> by (induction ps; cbn; [done|assumption]).
  enough (net (concat (map flatten cs)) = 0) by lia.
  clear ps. induction cs as [|c cs IHcs]; cbn [map concat]; [done|].
  apply Forall_cons_1 in IH as [Hc IH]. rewrite net_app, Hc, IHcs; done.
Qed.
Lemma fdt_output_spec s t dst : wf_fdt s -> open_node_count s = 0 -> tab s = (emit [] (flatten t)).1 ->
  string_table s = (emit [] (flatten t)).2 -> Z.of_nat (length (blob t)) <= FDT_ROOM ->
  if (length (blob t) <=? length dst)%nat
  then exists s', fdt_output dst s = Ok (Z.of_nat (length (blob t)), blob t ++ drop (length (blob t)) dst) s'
  else fdt_output dst s = Stop StopFault.
Proof.
  intros Hs Ho Ht Hst Hr. unfold blob in *. set (st := (emit [] (flatten t)).1 ++ be_bytes 4 FDT_END) in *.
  set (strs := (emit [] (flatten t)).2) in *. fold (fdt_size st strs) in Hr |- *.
  pose proof Hr as Hr'. rewrite fdt_size_eq in Hr'. cbv zeta in Hr'.
  assert (length st = length (tab s) + 4)%nat as Hst4 by (unfold st; by rewrite Ht, length_app, length_be_bytes).
  destruct (fdt_put32_grown FDT_END s Hs ltac:(lia)) as (s1 & E1 & G1). pose proof G1 as [W1 T1 S1 _].
  assert (tab s1 = st) as Et by (rewrite T1, Ht; done). assert (string_table s1 = strs) as Es by (rewrite S1; done).
  unfold fdt_output, mbind, M_bind, gets. rewrite Ho. cbn [Z.eqb assert]. cbv beta iota delta [mret M_ret]. rewrite E1.
  pose proof (fdt_output_dst_ok s1 dst) as Hok. pose proof (fdt_output_dst_short s1 dst) as Hshort. rewrite Et, Es in Hok, Hshort.
  destruct (Nat.leb_spec (fdt_size st strs) (length dst)) as [Hle|Hlt].
  - rewrite (Hok Hle). by eexists.
  - destruct (fdt_output_dst s1 dst) as [r|]; [|done]. specialize (Hshort r eq_refl). lia.
Qed.
(** A builder of the tokens of [t], and fdt_output. *)
Lemma build_output m t dst : runs m (flatten t) -> names_ok t -> Z.of_nat (length (blob t)) <= FDT_ROOM ->
  if (length (blob t) <=? length dst)%nat
  then (exists s, (_ ← m; fdt_output dst) fdt_init =
          Ok (Z.of_nat (length (blob t)), blob t ++ drop (length (blob t)) dst) s) /\
       read_fdt (take (length (blob t)) (blob t ++ drop (length (blob t)) dst)) = Some t
  else (_ ← m; fdt_output dst) fdt_init = Stop StopFault.
Proof.
  intros Hm Hn Hr.
  assert (fdt_room fdt_init (flatten t)) as Hroom.
  { unfold blob in Hr. fold (fdt_size ((emit [] (flatten t)).1 ++ be_bytes 4 FDT_END) (emit [] (flatten t)).2) in Hr.
    rewrite fdt_size_eq, length_app, length_be_bytes in Hr. cbv zeta in Hr. unfold fdt_room.
    cbn [tab fdt_init string_table length]. lia. }
  destruct (Hm Hn fdt_init wf_fdt_init Hroom) as (s & E & [W T S O]).
  rewrite net_flatten in O. pose proof (fdt_output_spec s t dst W O T S Hr) as H.
  unfold mbind, M_bind. rewrite E. destruct (_ <=? _)%nat; [|done]. split; [done|].
  rewrite take_app_length. apply read_blob_eq; [done|]. unfold FDT_ROOM in Hr. lia.
Qed.
(** C12: riscv_build_fdt writes the tree of the machine and nothing behind it, and a
    reader of the format finds this tree; a destination that is too short is
    overrun, for the size is not checked. *)
Theorem riscv_build_fdt_correct p dst : Z.of_nat (length (blob (riscv_tree p))) <= FDT_ROOM ->
  if (length (blob (riscv_tree p)) <=? length dst)%nat
  then (exists s, riscv_build_fdt p dst =
          Ok (Z.of_nat (length (blob (riscv_tree p))), blob (riscv_tree p) ++ drop (length (blob (riscv_tree p))) dst) s) /\
       read_fdt (take (length (blob (riscv_tree p)))
                   (blob (riscv_tree p) ++ drop (length (blob (riscv_tree p))) dst)) = Some (riscv_tree p)
  else riscv_build_fdt p dst = Stop StopFault.
Proof. exact (build_output (build_nodes p) _ dst (runs_build_nodes p) (names_riscv_tree p)). Qed.

(** A 64-bit machine with one device and a kernel, in the low RAM behind the boot
    code: the tree fits.  With a command line of 60 Kbytes it does not. *)
Definition example_params (cmd : list Z) : FdtParams := {|
  fdt_max_xlen := 64; fdt_misa := 0x14112d; fdt_ram_size := 0x8000000; fdt_virtio_count := 1%nat;
  fdt_fb := None; kernel_start := 0x80200000; kernel_size := 0x400000; initrd_start := 0x84000000;
  initrd_size := 0; cmd_line := cmd |}.
Definition low_ram_behind (o : nat) : list Z := replicate (Z.to_nat 0x10000 - o) 0.
Definition short_params : FdtParams := example_params (str "console=hvc0 root=/dev/vda rw").
Definition long_params : FdtParams := example_params (replicate (Z.to_nat 61440) 97).
Lemma short_room : Z.of_nat (length (blob (riscv_tree short_params))) <= FDT_ROOM.
Proof. apply Z.leb_le. vm_compute. reflexivity. Qed.
Lemma long_room : Z.of_nat (length (blob (riscv_tree long_params))) <= FDT_ROOM.
Proof. apply Z.leb_le. vm_compute. reflexivity. Qed.
Lemma short_fits : (length (blob (riscv_tree short_params)) <=? length (low_ram_behind 0x1040))%nat = true.
Proof. vm_compute. reflexivity. Qed.
Lemma long_overruns : (length (blob (riscv_tree long_params)) <=? length (low_ram_behind 0x1040))%nat = false.
Proof. vm_compute. reflexivity. Qed.
Lemma riscv_build_fdt_correct_witness :
  (exists n dst s, riscv_build_fdt short_params (low_ram_behind 0x1040) = Ok (n, dst) s) /\
  riscv_build_fdt long_params (low_ram_behind 0x1040) = Stop StopFault.
Proof.
  pose proof (riscv_build_fdt_correct short_params (low_ram_behind 0x1040) short_room) as H1.
  pose proof (riscv_build_fdt_correct long_params (low_ram_behind 0x1040) long_room) as H2.
  rewrite short_fits in H1. rewrite long_overruns in H2. destruct H1 as [[s E] _].
  split; [eauto|exact H2].
Defined.
