(* ===== verification/Bios.v ===== *)
(** * Loading the boot images (riscv_machine.c: copy_bios)

    The two RAM blocks are byte arrays: [bios_ram] is mapped at RAM_BASE_ADDR and
    [low_ram] at 0.  get_ram_ptr returns a pointer to the start of one of them. *)
From S2P Require Export FdtTree.
From stdpp Require Import strings.
#[local] Open Scope Z_scope.

Record BiosRam := mkBios { bios_ram : list Z; low_ram : list Z }.
Local Abbreviation MB := (M BiosRam).

(** What the machine tells the tree besides the images. *)
Record BoardParams := {
  board_max_xlen : Z;
  board_misa : Z;
  board_virtio_count : nat;
  board_fb : option (Z * Z * Z * Z);
}.

(** memcpy(ram_ptr + o, src, n): the RAM at RAM_BASE_ADDR, and the low RAM. *)
Definition ram_memcpy (o : Z) (src : list Z) : MB unit := fun s =>
  match dst_store (Z.to_nat o) src (bios_ram s) with
  | None => Stop StopFault
  | Some r => Ok tt (mkBios r (low_ram s))
  end.
(** A store of a uint32_t. *)
Definition low_put32 (o : nat) (v : Z) : MB unit := fun s =>
  match dst_store o (rev (be_bytes 4 v)) (low_ram s) with
  | None => Stop StopFault
  | Some r => Ok tt (mkBios (bios_ram s) r)
  end.
Definition low_build_fdt (p : FdtParams) (o : nat) : MB unit := fun s =>
  match riscv_build_fdt p (drop o (low_ram s)) with
  | Stop r => Stop r
  | Ok (_, dst) _ => Ok tt (mkBios (bios_ram s) (take o (low_ram s) ++ dst))
  end.

Definition kernel_align (max_xlen : Z) : Z := if max_xlen =? 32 then 4 ≪ 20 else 2 ≪ 20.
Definition kernel_base_of (max_xlen buf_len : Z) : Z :=
  u32 (u32 (buf_len + kernel_align max_xlen) - 1) .& u32 (Z.lnot (kernel_align max_xlen - 1)).
Definition initrd_base_of (ram_size : Z) : Z :=
  let initrd_base := u32 (ram_size / 2) in
  if 128 ≪ 20 <? initrd_base then 128 ≪ 20 else initrd_base.
Definition fdt_addr : Z := 0x1000 + 8 * 8.
(** The boot code at 0x1000. *)
Definition boot_words : list Z :=
  [ u32 (0x297 + 0x80000000 - 0x1000);          (* auipc t0, jump_addr *)
    0x597;                                      (* auipc a1, dtb *)
    u32 (0x58593 + u32 ((fdt_addr - 4) ≪ 20));  (* addi a1, a1, dtb *)
    0xf1402573;                                 (* csrr a0, mhartid *)
    0x00028067 ].                               (* jalr zero, t0, jump_addr *)
Fixpoint put_boot_words (o : nat) (l : list Z) : MB unit :=
  match l with
  | [] => mret tt
  | w :: l' => _ ← low_put32 o w; put_boot_words (o + 4) l'
  end.

Definition copy_bios (b : BoardParams) (buf kernel_buf initrd_buf cmd : list Z) : MB unit :=
  let len l := Z.of_nat (length l) in
  s ← gets (fun s => s);
  let size := len (bios_ram s) in
  if size <? len buf then stop_with (StopExit 1)
  else
    _ ← ram_memcpy 0 buf;
    kernel_base ←
      (if 0 <? len kernel_buf then
         let kernel_base := kernel_base_of (board_max_xlen b) (len buf) in
         _ ← ram_memcpy kernel_base kernel_buf;
         if size <? u32 (len kernel_buf + kernel_base) then stop_with (StopExit 1) else mret kernel_base
       else mret 0);
    initrd_base ←
      (if 0 <? len initrd_buf then
         let initrd_base := initrd_base_of size in
         _ ← ram_memcpy initrd_base initrd_buf;
         if size <? u32 (len initrd_buf + initrd_base) then stop_with (StopExit 1) else mret initrd_base
       else mret 0);
    _ ← low_build_fdt {|
          fdt_max_xlen := board_max_xlen b; fdt_misa := board_misa b; fdt_ram_size := size;
          fdt_virtio_count := board_virtio_count b; fdt_fb := board_fb b;
          kernel_start := u32 (RAM_BASE_ADDR + kernel_base); kernel_size := len kernel_buf;
          initrd_start := u32 (RAM_BASE_ADDR + initrd_base); initrd_size := len initrd_buf;
          cmd_line := cmd |} (Z.to_nat fdt_addr);
    put_boot_words 0x1000 boot_words.

(** ** Where everything goes *)
Definition kernel_base (b : BoardParams) (buf kernel : list Z) : Z :=
  if 0 <? Z.of_nat (length kernel) then kernel_base_of (board_max_xlen b) (Z.of_nat (length buf)) else 0.
Definition initrd_base (size : Z) (initrd : list Z) : Z :=
  if 0 <? Z.of_nat (length initrd) then initrd_base_of size else 0.
Definition boot_params (b : BoardParams) (size : Z) (buf kernel initrd cmd : list Z) : FdtParams := {|
  fdt_max_xlen := board_max_xlen b; fdt_misa := board_misa b; fdt_ram_size := size;
  fdt_virtio_count := board_virtio_count b; fdt_fb := board_fb b;
  kernel_start := RAM_BASE_ADDR + kernel_base b buf kernel; kernel_size := Z.of_nat (length kernel);
  initrd_start := RAM_BASE_ADDR + initrd_base size initrd; initrd_size := Z.of_nat (length initrd);
  cmd_line := cmd |}.
Definition boot_code : list Z := concat (map (fun w => rev (be_bytes 4 w)) boot_words).

(** The kernel is placed at the next multiple of the page size behind the BIOS. *)
Lemma kernel_base_of_spec xlen n : 0 <= n < 2 ^ 31 ->
  kernel_base_of xlen n mod kernel_align xlen = 0 /\ n <= kernel_base_of xlen n < n + kernel_align xlen.
Proof.
  intros Hn. unfold kernel_base_of.
  assert (exists k, 0 <= k < 32 /\ kernel_align xlen = 2 ^ k /\ 0 < 2 ^ k <= 2 ^ 22) as (k & Hk & -> & Hp).
  { unfold kernel_align. destruct (xlen =? 32); [exists 22|exists 21]; repeat split; vm_compute; congruence. }
  assert (u32 (u32 (n + 2 ^ k) - 1) = n + 2 ^ k - 1) as ->.
  { rewrite (wrap_fits 32 (n + 2 ^ k)) by (split; lia). apply wrap_fits. split; lia. }
  set (x := n + 2 ^ k - 1).
  assert (x .& u32 (Z.lnot (2 ^ k - 1)) = (x ≫ k) ≪ k) as ->.
  { replace (2 ^ k - 1) with (Z.ones k) by (rewrite Z.ones_equiv; lia). apply Z.bits_inj'. intros i Hi.
    rewrite Z.land_spec, wrap_testbit, Z.lnot_spec, Z.testbit_ones, Z.shiftl_spec by lia.
    destruct (Z.ltb_spec i 32).
    - destruct (Z.ltb_spec i k); cbn [andb negb]; rewrite ?andb_true_r.
      + rewrite (proj2 (Z.leb_le 0 i)) by lia. cbn. by rewrite andb_false_r, Z.testbit_neg_r by lia.
      + rewrite Z.shiftr_spec by lia. rewrite (proj2 (Z.leb_le 0 i)) by lia. cbn. rewrite andb_true_r. f_equal. lia.
    - cbn [andb]. rewrite andb_false_r, Z.shiftr_spec by lia. symmetry.
      apply (fits_testbit 32); [split; unfold x; lia|lia]. }
  rewrite Z.shiftl_mul_pow2, Z.shiftr_div_pow2 by lia. split; [apply Z.mod_mul; lia|].
  unfold x. pose proof (Z.div_mod (n + 2 ^ k - 1) (2 ^ k)). pose proof (Z.mod_pos_bound (n + 2 ^ k - 1) (2 ^ k)). nia.
Qed.

(** ** What copy_bios does *)
Lemma ram_memcpy_eq o src s : 0 <= o ->
  ram_memcpy o src s =
  if o + Z.of_nat (length src) <=? Z.of_nat (length (bios_ram s))
  then Ok tt (mkBios (splice (Z.to_nat o) src (bios_ram s)) (low_ram s)) else Stop StopFault.
Proof.
  intros Ho. unfold ram_memcpy, dst_store.
  destruct (Nat.leb_spec (Z.to_nat o + length src) (length (bios_ram s))), (Z.leb_spec (o + Z.of_nat (length src))
    (Z.of_nat (length (bios_ram s)))); done || lia.
Qed.
(** The steps of one image: the copy, then the test of its size, which comes too late to fail. *)
Lemma image_copy base img (size : Z) s : 0 <= base < 2 ^ 32 ->
  Z.of_nat (length (bios_ram s)) = size -> size < 2 ^ 32 ->
  (if 0 <? Z.of_nat (length img) then
     _ ← ram_memcpy base img;
     if size <? u32 (Z.of_nat (length img) + base) then stop_with (StopExit 1) else mret base
   else mret 0) s =
  let base := if 0 <? Z.of_nat (length img) then base else 0 in
  if base + Z.of_nat (length img) <=? size
  then Ok base (mkBios (splice (Z.to_nat base) img (bios_ram s)) (low_ram s)) else Stop StopFault.
Proof.
  intros Hb Hs Hsz. destruct (Z.ltb_spec 0 (Z.of_nat (length img))) as [Hp|Hp]; cbv zeta.
  - unfold mbind, M_bind. rewrite ram_memcpy_eq, Hs by lia.
    destruct (Z.leb_spec (base + Z.of_nat (length img)) size); [|done].
    rewrite wrap_fits by (split; lia). by rewrite (proj2 (Z.ltb_ge _ _)) by lia.
  - destruct img; [|simpl in Hp; lia]. cbn [length]. rewrite splice_nil.
    rewrite (proj2 (Z.leb_le _ _)) by lia. by destruct s.
Qed.
Lemma low_put32_eq o v s : (o + 4 <= length (low_ram s))%nat ->
  low_put32 o v s = Ok tt (mkBios (bios_ram s) (splice o (rev (be_bytes 4 v)) (low_ram s))).
Proof.
  intros H. unfold low_put32, dst_store. rewrite length_rev, length_be_bytes.
  by rewrite (proj2 (Nat.leb_le _ _)) by lia.
Qed.
Lemma put_boot_words_eq l o s : (o + 4 * length l <= length (low_ram s))%nat ->
  put_boot_words o l s =
  Ok tt (mkBios (bios_ram s) (splice o (concat (map (fun w => rev (be_bytes 4 w)) l)) (low_ram s))).
Proof.
  revert o s. induction l as [|w l IH]; intros o s H; cbn [put_boot_words map concat].
  { rewrite splice_nil. by destruct s. }
  cbn [length] in H. unfold mbind, M_bind. rewrite low_put32_eq by lia.
  assert (length (rev (be_bytes 4 w)) = 4%nat) as L by (by rewrite length_rev, length_be_bytes).
  rewrite IH by (cbn [low_ram]; rewrite length_splice; lia). cbn [low_ram bios_ram]. do 2 f_equal.
  rewrite <- L at 1. apply splice_splice. rewrite L.
  enough (length (concat (map (fun w => rev (be_bytes 4 w)) l)) = 4 * length l)%nat by lia.
  clear. induction l as [|w l IH]; [done|]. cbn [map concat length]. rewrite length_app, length_rev, length_be_bytes, IH. lia.
Qed.
Lemma low_build_fdt_eq p s (n := length (blob (riscv_tree p))) :
  Z.of_nat n <= FDT_ROOM -> (Z.to_nat fdt_addr + n <= length (low_ram s))%nat ->
  low_build_fdt p (Z.to_nat fdt_addr) s =
  Ok tt (mkBios (bios_ram s) (splice (Z.to_nat fdt_addr) (blob (riscv_tree p)) (low_ram s))).
Proof.
  intros Hr Hl. pose proof (build_output (build_nodes p) _ (drop (Z.to_nat fdt_addr) (low_ram s))
    (runs_build_nodes p) (names_riscv_tree p) Hr) as H. fold n in H.
  rewrite (proj2 (Nat.leb_le _ _)) in H by (rewrite length_drop; lia). destruct H as [[s' E] _].
  unfold low_build_fdt, riscv_build_fdt. rewrite E. cbv beta iota. unfold splice. by rewrite drop_drop.
Qed.

(** The memory behind a successful copy. *)
Definition loaded_ram (kb ib : Z) (buf kernel initrd ram : list Z) : list Z :=
  splice (Z.to_nat ib) initrd (splice (Z.to_nat kb) kernel (splice 0 buf ram)).
Definition loaded_low (t : dt) (low : list Z) : list Z :=
  splice 0x1000 boot_code (splice (Z.to_nat fdt_addr) (blob t) low).

Lemma kernel_base_of_range xlen n : 0 <= n < 2 ^ 30 -> 0 <= kernel_base_of xlen n < 2 ^ 31.
Proof.
  intros H. pose proof (kernel_base_of_spec xlen n ltac:(lia)) as [_ Hk].
  assert (kernel_align xlen <= 2 ^ 22) by (unfold kernel_align; destruct (_ =? 32); vm_compute; congruence).
  lia.
Qed.
Lemma kernel_base_range b buf kernel : Z.of_nat (length buf) < 2 ^ 30 -> 0 <= kernel_base b buf kernel < 2 ^ 31.
Proof. intros H. unfold kernel_base. destruct (0 <? _); [apply kernel_base_of_range|]; lia. Qed.
Lemma initrd_base_of_range size : 0 <= initrd_base_of size <= 2 ^ 27.
Proof.
  unfold initrd_base_of. change (128 ≪ 20) with (2 ^ 27). pose proof (fits_wrap 32 (size / 2) ltac:(lia)) as [? _].
  zcases.
Qed.
Lemma initrd_base_range size initrd : 0 <= initrd_base size initrd <= 2 ^ 27.
Proof. unfold initrd_base. destruct (0 <? _); [apply initrd_base_of_range|lia]. Qed.

Lemma copy_bios_eq b buf kernel initrd cmd s
    (size := Z.of_nat (length (bios_ram s)))
    (kb := kernel_base b buf kernel) (ib := initrd_base size initrd)
    (t := riscv_tree (boot_params b size buf kernel initrd cmd)) :
  size < 2 ^ 32 -> Z.of_nat (length buf) < 2 ^ 30 ->
  Z.of_nat (length (low_ram s)) = LOW_RAM_SIZE -> fdt_addr + Z.of_nat (length (blob t)) <= LOW_RAM_SIZE ->
  copy_bios b buf kernel initrd cmd s =
  if size <? Z.of_nat (length buf) then Stop (StopExit 1)
  else if (kb + Z.of_nat (length kernel) <=? size) && (ib + Z.of_nat (length initrd) <=? size)
  then Ok tt (mkBios (loaded_ram kb ib buf kernel initrd (bios_ram s)) (loaded_low t (low_ram s)))
  else Stop StopFault.
Proof.
  intros Hsize Hbuf Hlow Hfdt. pose proof (kernel_base_range b buf kernel Hbuf) as Hkb. fold kb in Hkb.
  pose proof (initrd_base_range size initrd) as Hib. fold ib in Hib.
  unfold copy_bios, mbind at 1, M_bind at 1, gets at 1. fold size. destruct (Z.ltb_spec size (Z.of_nat (length buf))) as [|Hb]; [done|].
  unfold mbind at 1, M_bind at 1. rewrite ram_memcpy_eq by lia. fold size. cbn [Z.add].
  rewrite (proj2 (Z.leb_le _ _)) by lia. cbv beta iota.
  set (s1 := mkBios _ _). assert (Z.of_nat (length (bios_ram s1)) = size) as L1 by
    (unfold s1, size; cbn [bios_ram]; rewrite length_splice; lia).
  unfold mbind at 1, M_bind at 1. rewrite (image_copy _ kernel size s1); [|
    pose proof (kernel_base_of_range (board_max_xlen b) (Z.of_nat (length buf))); lia|done|done].
  fold (kernel_base b buf kernel). fold kb. cbv zeta. destruct (Z.leb_spec (kb + Z.of_nat (length kernel)) size); [|done]. cbn [andb].
  set (s2 := mkBios _ _). assert (Z.of_nat (length (bios_ram s2)) = size) as L2 by
    (unfold s2; cbn [bios_ram]; rewrite length_splice; lia).
  unfold mbind at 1, M_bind at 1. rewrite (image_copy _ initrd size s2); [|pose proof (initrd_base_of_range size); lia|done|done].
  fold (initrd_base size initrd). fold ib. cbv zeta. destruct (Z.leb_spec (ib + Z.of_nat (length initrd)) size); [|done].
  unfold mbind, M_bind. rewrite !(wrap_fits 32 (RAM_BASE_ADDR + _)) by (split; change RAM_BASE_ADDR with (2 ^ 31); lia).
  change (Build_FdtParams _ _ _ _ _ _ _ _ _ _) with (boot_params b size buf kernel initrd cmd).
  assert (Z.of_nat (Z.to_nat fdt_addr) = 0x1040 /\ fdt_addr = 0x1040 /\ LOW_RAM_SIZE = 0x10000) as (Ef & Ef' & El) by done.
  rewrite low_build_fdt_eq; cbn [low_ram bios_ram]; fold t; [|unfold FDT_ROOM; lia|unfold s2, s1; cbn [low_ram]; lia].
  rewrite put_boot_words_eq; cbn [low_ram bios_ram]; [done|].
  rewrite length_splice by (unfold s2, s1; cbn [low_ram]; lia).
  change (length boot_words) with 5%nat. unfold s2, s1; cbn [low_ram]; lia.
Qed.

(** *** The layout, without the code's arithmetic *)
(** The first multiple of the largest page that is not below the end of the BIOS; half of the RAM, at most 128 MB *)
Definition kernel_place (b : BoardParams) (buf kernel : list Z) : Z :=
  let page := if board_max_xlen b =? 32 then 0x400000 else 0x200000 in
  match kernel with [] => 0 | _ => page * ((Z.of_nat (length buf) + (page - 1)) / page) end.
Definition initrd_place (size : Z) (initrd : list Z) : Z :=
  match initrd with [] => 0 | _ => Z.min (size / 2) 0x8000000 end.
(** The encodings of the instructions of the boot code *)
Definition i_format (imm rs1 f3 rd op : Z) : Z := imm * 2 ^ 20 + rs1 * 2 ^ 15 + f3 * 2 ^ 12 + rd * 2 ^ 7 + op.
Definition auipc (rd imm : Z) : Z := imm * 2 ^ 12 + rd * 2 ^ 7 + 0x17.
Definition addi (rd rs1 imm : Z) : Z := i_format imm rs1 0 rd 0x13.
Definition csrr (rd csr : Z) : Z := i_format csr 0 2 rd 0x73.
Definition jalr (rd rs1 imm : Z) : Z := i_format imm rs1 0 rd 0x67.
Definition t0 : Z := 5.
Definition a0 : Z := 10.
Definition a1 : Z := 11.
(** At 0x1000: a jump to the RAM with the address of the tree in a1 and the number of the hart in a0 *)
Definition boot_program (dtb : Z) : list Z :=
  [auipc t0 ((RAM_BASE_ADDR - 0x1000) / 0x1000); auipc a1 0; addi a1 a1 (dtb - 0x1004); csrr a0 0xf14; jalr 0 t0 0].
Definition little_endian (w : Z) : list Z := [w mod 256; w / 256 mod 256; w / 65536 mod 256; w / 16777216 mod 256].
Definition placed_params (b : BoardParams) (size : Z) (buf kernel initrd cmd : list Z) : FdtParams := {|
  fdt_max_xlen := board_max_xlen b; fdt_misa := board_misa b; fdt_ram_size := size;
  fdt_virtio_count := board_virtio_count b; fdt_fb := board_fb b;
  kernel_start := 0x80000000 + kernel_place b buf kernel; kernel_size := Z.of_nat (length kernel);
  initrd_start := 0x80000000 + initrd_place size initrd; initrd_size := Z.of_nat (length initrd);
  cmd_line := cmd |}.

Lemma kernel_base_place b buf kernel : Z.of_nat (length buf) < 2 ^ 30 -> kernel_base b buf kernel = kernel_place b buf kernel.
Proof.
  intros Hb. unfold kernel_base, kernel_place. destruct kernel as [|x kernel]; [done|]. cbn [length].
  rewrite (proj2 (Z.ltb_lt _ _)) by lia. pose proof (kernel_base_of_spec (board_max_xlen b) (Z.of_nat (length buf)) ltac:(lia)) as [Hm Hr].
  unfold kernel_align in Hm, Hr. revert Hm Hr. generalize (kernel_base_of (board_max_xlen b) (Z.of_nat (length buf))). intros k.
  change (4 ≪ 20) with 0x400000. change (2 ≪ 20) with 0x200000. destruct (board_max_xlen b =? 32); intros; Z.to_euclidean_division_equations; lia.
Qed.
Lemma initrd_base_place size initrd : 0 <= size < 2 ^ 32 -> initrd_base size initrd = initrd_place size initrd.
Proof.
  intros Hs. unfold initrd_base, initrd_place. destruct initrd as [|x initrd]; [done|]. cbn [length].
  rewrite (proj2 (Z.ltb_lt _ _)) by lia. unfold initrd_base_of.
  rewrite wrap_fits by (split; Z.to_euclidean_division_equations; lia). change (128 ≪ 20) with 0x8000000.
  destruct (Z.ltb_spec 0x8000000 (size / 2)); lia.
Qed.
Lemma boot_code_program : boot_code = concat (map little_endian (boot_program 0x1040)).
Proof. reflexivity. Qed.

(** C13: copy_bios puts the BIOS at the start of the RAM, the kernel at the first multiple of the
    largest page (4 MB with 32-bit registers, 2 MB otherwise) behind it, the initrd at half of the RAM or at
    128 MB, whichever is less, the boot code at 0x1000, which jumps to the RAM with the address of the tree in a1, and the device tree that names these addresses at 0x1040,
    and changes nothing else.  A BIOS that is too big ends in exit(1); a kernel or an
    initrd that does not fit is copied outside of the RAM before it is found to be too big. *)
Theorem copy_bios_spec b buf kernel initrd cmd s
    (size := Z.of_nat (length (bios_ram s)))
    (kb := kernel_place b buf kernel) (ib := initrd_place size initrd)
    (t := riscv_tree (placed_params b size buf kernel initrd cmd)) :
  size < 2 ^ 32 -> Z.of_nat (length buf) < 2 ^ 30 -> Z.of_nat (length kernel) < 2 ^ 31 -> Z.of_nat (length initrd) < 2 ^ 31 ->
  Z.of_nat (length (low_ram s)) = 0x10000 -> 0x1040 + Z.of_nat (length (blob t)) <= 0x10000 ->
  copy_bios b buf kernel initrd cmd s =
  if size <? Z.of_nat (length buf) then Stop (StopExit 1)
  else if (kb + Z.of_nat (length kernel) <=? size) && (ib + Z.of_nat (length initrd) <=? size)
  then Ok tt (mkBios (splice (Z.to_nat ib) initrd (splice (Z.to_nat kb) kernel (splice 0 buf (bios_ram s))))
    (splice (Z.to_nat 0x1000) (concat (map little_endian (boot_program 0x1040))) (splice (Z.to_nat 0x1040) (blob t) (low_ram s))))
  else Stop StopFault.
Proof.
  intros Hs Hb _ _ Hl Hf. assert (placed_params b size buf kernel initrd cmd = boot_params b size buf kernel initrd cmd) as Ep.
  { unfold placed_params, boot_params. rewrite kernel_base_place, initrd_base_place by (done || lia). done. }
  unfold t, kb, ib. rewrite <- boot_code_program, Ep, <- kernel_base_place, <- initrd_base_place by (done || lia).
  apply copy_bios_eq; [done..|]. unfold t in Hf. by rewrite Ep in Hf.
Qed.

(** When the kernel ends below the initrd, the three images of a successful
    copy_bios stand in the RAM unchanged, at the addresses that the device tree
    at 0x1040 names. *)
Theorem copy_bios_images b buf kernel initrd cmd s s'
    (size := Z.of_nat (length (bios_ram s)))
    (kb := kernel_base b buf kernel) (ib := initrd_base size initrd)
    (t := riscv_tree (boot_params b size buf kernel initrd cmd)) :
  size < 2 ^ 32 -> Z.of_nat (length buf) < 2 ^ 30 ->
  Z.of_nat (length (low_ram s)) = LOW_RAM_SIZE -> fdt_addr + Z.of_nat (length (blob t)) <= LOW_RAM_SIZE ->
  kernel <> [] -> initrd <> [] -> kb + Z.of_nat (length kernel) <= ib ->
  copy_bios b buf kernel initrd cmd s = Ok tt s' ->
  let at_ a n l := take n (drop (Z.to_nat a) l) in
  at_ 0 (length buf) (bios_ram s') = buf /\ at_ kb (length kernel) (bios_ram s') = kernel /\
  at_ ib (length initrd) (bios_ram s') = initrd /\ at_ 0x1000 20%nat (low_ram s') = boot_code /\
  read_fdt (at_ 0x1040 (length (blob t)) (low_ram s')) = Some t.
Proof.
  intros Hsize Hbuf Hlow Hfdt Hk Hi Hord Hrun. cbv zeta.
  rewrite (copy_bios_eq b buf kernel initrd cmd s Hsize Hbuf Hlow Hfdt) in Hrun. fold size kb ib t in Hrun.
  destruct (Z.ltb_spec size (Z.of_nat (length buf))) as [|Hb]; [done|].
  destruct (Z.leb_spec (kb + Z.of_nat (length kernel)) size), (Z.leb_spec (ib + Z.of_nat (length initrd)) size); try done.
  injection Hrun as <-. cbn [bios_ram low_ram].
  pose proof (kernel_base_range b buf kernel Hbuf) as Hkb. fold kb in Hkb.
  assert (Z.of_nat (length buf) <= kb) as Hbk.
  { unfold kb, kernel_base. destruct kernel as [|x kernel]; [done|]. cbn [length].
    rewrite (proj2 (Z.ltb_lt _ _)) by lia. apply kernel_base_of_spec. lia. }
  assert (LOW_RAM_SIZE = 0x10000 /\ fdt_addr = 0x1040 /\ Z.of_nat (length boot_code) = 20) as (El & Ef & Eb) by done.
  unfold loaded_ram, loaded_low. rewrite Ef. subst size.
  set (r1 := splice 0 buf (bios_ram s)). set (r2 := splice (Z.to_nat kb) kernel r1).
  set (l1 := splice (Z.to_nat 0x1040) (blob t) (low_ram s)).
  assert (length r1 = length (bios_ram s)) as L1 by (apply length_splice; lia).
  assert (length r2 = length (bios_ram s)) as L2 by (rewrite <- L1; apply length_splice; lia).
  assert (length l1 = length (low_ram s)) as L3 by (apply length_splice; lia).
  split; [rewrite sub_splice_other by lia; unfold r2; rewrite sub_splice_other by lia; apply sub_splice; lia|].
  split; [rewrite sub_splice_other by lia; apply sub_splice; lia|].
  split; [apply sub_splice; lia|]. split; [apply (sub_splice (Z.to_nat 0x1000) boot_code); lia|].
  rewrite sub_splice_other by lia. unfold l1. rewrite sub_splice by lia.
  apply read_blob_eq; [apply names_riscv_tree|lia].
Qed.

(** A board with 4 Kbytes of RAM. *)
Definition small_board : BoardParams :=
  {| board_max_xlen := 64; board_misa := 0x14112d; board_virtio_count := 1%nat; board_fb := None |}.
Definition small_ram : BiosRam := mkBios (replicate (Z.to_nat 4096) 0) (replicate (Z.to_nat LOW_RAM_SIZE) 0).
Definition image (n : Z) : list Z := map Z.of_nat (seq 1 (Z.to_nat n)).
Lemma small_sizes (buf : list Z) : Z.of_nat (length (bios_ram small_ram)) = 4096 /\
  Z.of_nat (length (low_ram small_ram)) = LOW_RAM_SIZE /\ Z.of_nat (length (image 16)) = 16 /\
  (Z.of_nat (length buf) <= 16 -> Z.of_nat (length buf) < 2 ^ 30).
Proof. split; [reflexivity|]. split; [vm_compute; reflexivity|]. split; [reflexivity|lia]. Qed.
Lemma small_params buf kernel initrd : Z.of_nat (length buf) < 2 ^ 30 ->
  placed_params small_board 4096 buf kernel initrd (str "quiet") = boot_params small_board 4096 buf kernel initrd (str "quiet").
Proof. intros H. unfold placed_params, boot_params. by rewrite kernel_base_place, initrd_base_place by (done || lia). Qed.
Definition small_tree (buf kernel initrd : list Z) : dt :=
  riscv_tree (boot_params small_board 4096 buf kernel initrd (str "quiet")).
Lemma small_tree_fits :
  fdt_addr + Z.of_nat (length (blob (small_tree (image 16) [] (image 16)))) <= LOW_RAM_SIZE /\
  fdt_addr + Z.of_nat (length (blob (small_tree (image 16) (image 16) []))) <= LOW_RAM_SIZE /\
  fdt_addr + Z.of_nat (length (blob (small_tree [] (image 16) (image 16)))) <= LOW_RAM_SIZE.
Proof. repeat split; apply Z.leb_le; vm_compute; reflexivity. Qed.

(** The initrd goes to the middle; a kernel at 2 MB is copied outside the RAM. *)
Lemma copy_bios_spec_witness :
  (exists s, copy_bios small_board (image 16) [] (image 16) (str "quiet") small_ram = Ok tt s) /\
  copy_bios small_board (image 16) (image 16) [] (str "quiet") small_ram = Stop StopFault.
Proof.
  destruct (small_sizes (image 16)) as (E1 & E2 & E3 & E4). destruct small_tree_fits as (F1 & F2 & _).
  pose proof (copy_bios_spec small_board (image 16) [] (image 16) (str "quiet") small_ram) as H1.
  pose proof (copy_bios_spec small_board (image 16) (image 16) [] (str "quiet") small_ram) as H2.
  cbv zeta in H1, H2. rewrite E1, E3, small_params in H1, H2 by (rewrite E3; lia).
  rewrite H1, H2 by (first [exact F1 | exact F2 | exact E2 | cbn; lia]).
  split; [eexists|]; reflexivity.
Defined.
Lemma copy_bios_images_witness : exists s,
  copy_bios small_board [] (image 16) (image 16) (str "quiet") small_ram = Ok tt s /\
  take 16 (drop (Z.to_nat 2048) (bios_ram s)) = image 16 /\
  read_fdt (take (length (blob (small_tree [] (image 16) (image 16)))) (drop (Z.to_nat 0x1040) (low_ram s))) =
    Some (small_tree [] (image 16) (image 16)).
Proof.
  destruct (small_sizes []) as (E1 & E2 & E3 & _). destruct small_tree_fits as (_ & _ & F).
  pose proof (copy_bios_eq small_board [] (image 16) (image 16) (str "quiet") small_ram) as H.
  cbv zeta in H. rewrite E1 in H.
  assert (exists s, copy_bios small_board [] (image 16) (image 16) (str "quiet") small_ram = Ok tt s) as [s E].
  { rewrite H by (first [exact F | exact E2 | cbn; lia]). eexists. reflexivity. }
  exists s. split; [exact E|].
  pose proof (copy_bios_images small_board [] (image 16) (image 16) (str "quiet") small_ram s) as H1.
  cbv zeta in H1. rewrite E1 in H1.
  specialize (H1 ltac:(lia) ltac:(cbn; lia) E2 F ltac:(discriminate) ltac:(discriminate)).
  specialize (H1 ltac:(vm_compute; congruence) E). destruct H1 as (_ & _ & Hi & _ & Hf).
  split; [exact Hi|exact Hf].
Defined.
