(* ===== verification/Virtio.v ===== *)
(** * VIRTIO: queues and transports (virtio.c: virtio_reset .. virtio_config_change_notify)

    A device and its driver share queues in guest RAM.  The device reads descriptor
    chains of the available ring, copies from and to their buffers, and puts them
    on the used ring. *)
From S2P Require Export Cutils Mmu.

Definition VIRTIO_PAGE_SIZE : Z := 4096.
Definition MAX_QUEUE : nat := 8.
Definition MAX_CONFIG_SPACE_SIZE : nat := 256.
Definition MAX_QUEUE_NUM : Z := 16.

(** VIRTIO_ADDR_BITS is 32 in the emscripten builds and 64 elsewhere. *)
Class VirtioConfig := {
  VIRTIO_ADDR_BITS : Z;
  VIRTIO_ADDR_BITS_ok : VIRTIO_ADDR_BITS = 32 \/ VIRTIO_ADDR_BITS = 64;
}.
Definition waddr `{VirtioConfig} (x : Z) : Z := wrap VIRTIO_ADDR_BITS x.

Record QueueState := mkQueue {
  ready : Z;
  qnum : Z;
  last_avail_idx : Z;
  desc_addr : Z;
  avail_addr : Z;
  used_addr : Z;
  manual_recv : bool;
}.
Definition VRING_DESC_F_NEXT : Z := 1.
Definition VRING_DESC_F_WRITE : Z := 2.

(** The fields that change or that the code of this file reads. *)
Record VIRTIODevice := mkDev {
  int_status : Z;
  status : Z;
  device_features_sel : Z;
  queue_sel : Z;
  queue : list QueueState;
  device_id : Z;
  vendor_id : Z;
  device_features : Z;
  config_space_size : Z;
  config_space : list Z;
}.
Definition with_int_status v s := mkDev v (status s) (device_features_sel s) (queue_sel s) (queue s)
  (device_id s) (vendor_id s) (device_features s) (config_space_size s) (config_space s).
Definition with_status v s := mkDev (int_status s) v (device_features_sel s) (queue_sel s) (queue s)
  (device_id s) (vendor_id s) (device_features s) (config_space_size s) (config_space s).
Definition with_features_sel v s := mkDev (int_status s) (status s) v (queue_sel s) (queue s)
  (device_id s) (vendor_id s) (device_features s) (config_space_size s) (config_space s).
Definition with_queue_sel v s := mkDev (int_status s) (status s) (device_features_sel s) v (queue s)
  (device_id s) (vendor_id s) (device_features s) (config_space_size s) (config_space s).
Definition with_queue v s := mkDev (int_status s) (status s) (device_features_sel s) (queue_sel s) v
  (device_id s) (vendor_id s) (device_features s) (config_space_size s) (config_space s).
Definition with_features v s := mkDev (int_status s) (status s) (device_features_sel s) (queue_sel s) (queue s)
  (device_id s) (vendor_id s) v (config_space_size s) (config_space s).
Definition with_config v s := mkDev (int_status s) (status s) (device_features_sel s) (queue_sel s) (queue s)
  (device_id s) (vendor_id s) (device_features s) (config_space_size s) v.
Definition q_ready v q := mkQueue v (qnum q) (last_avail_idx q) (desc_addr q) (avail_addr q) (used_addr q) (manual_recv q).
Definition q_num v q := mkQueue (ready q) v (last_avail_idx q) (desc_addr q) (avail_addr q) (used_addr q) (manual_recv q).
Definition q_last v q := mkQueue (ready q) (qnum q) v (desc_addr q) (avail_addr q) (used_addr q) (manual_recv q).
Definition q_desc v q := mkQueue (ready q) (qnum q) (last_avail_idx q) v (avail_addr q) (used_addr q) (manual_recv q).
Definition q_avail v q := mkQueue (ready q) (qnum q) (last_avail_idx q) (desc_addr q) v (used_addr q) (manual_recv q).
Definition q_used v q := mkQueue (ready q) (qnum q) (last_avail_idx q) (desc_addr q) (avail_addr q) v (manual_recv q).
Definition q_manual v q := mkQueue (ready q) (qnum q) (last_avail_idx q) (desc_addr q) (avail_addr q) (used_addr q) v.

Definition reset_queue (q : QueueState) : QueueState := mkQueue 0 MAX_QUEUE_NUM 0 0 0 0 (manual_recv q).
Definition virtio_reset (s : VIRTIODevice) : VIRTIODevice :=
  mkDev 0 0 0 0 (map reset_queue (queue s)) (device_id s) (vendor_id s) (device_features s)
    (config_space_size s) (config_space s).

(** A descriptor in memory: addr, len, flags, next. *)
Definition d_addr (d : list Z) : Z := get_le64 d 0.
Definition d_len (d : list Z) : Z := get_le32 d 8.
Definition d_flags (d : list Z) : Z := get_le16 d 12.
Definition d_next (d : list Z) : Z := get_le16 d 14.
Definition is_write (d : list Z) : bool := nz (d_flags d .& VRING_DESC_F_WRITE).
Definition has_next (d : list Z) : bool := nz (d_flags d .& VRING_DESC_F_NEXT).

(** memcpy to and from position [pos] of a local buffer. *)
Definition buf_store {S} (pos : Z) (bs buf : list Z) : M S (list Z) :=
  if (0 <=? pos) && (pos + Z.of_nat (length bs) <=? Z.of_nat (length buf))
  then mret (splice (Z.to_nat pos) bs buf) else stop_with StopFault.
Definition buf_load {S} (pos : Z) (n : nat) (buf : list Z) : M S (list Z) :=
  if (0 <=? pos) && (pos + Z.of_nat n <=? Z.of_nat (length buf))
  then mret (take n (drop (Z.to_nat pos) buf)) else stop_with StopFault.

(** What a device is connected to: where it is in the state of the board, and its
    interrupt line.  [uninit_bytes] are the contents of an object that was
    allocated and not yet written. *)
Class VirtioBoard (W : Type) := {
  vdev : W -> VIRTIODevice;
  vset : VIRTIODevice -> W -> W;
  set_irq : Z -> M (Sys W) unit;
  uninit_bytes : Sys W -> nat -> list Z;
  uninit_len : forall σ n, length (uninit_bytes σ n) = n;
}.

Section Virtio.
Context `{cfg : Config} `{vcfg : VirtioConfig} {W : Type} `{board : !VirtioBoard W}.
Local Abbreviation MS := (M (Sys W)).

Definition getv : MS VIRTIODevice := gets (fun σ => vdev (world σ)).
Definition updv (f : VIRTIODevice -> VIRTIODevice) : MS unit :=
  modify (upd_world (fun w => vset (f (vdev w)) w)).
Definition uninit_buf (n : Z) : MS (list Z) := gets (fun σ => uninit_bytes σ (Z.to_nat n)).
(** [s->queue[i]] *)
Definition get_queue (i : Z) : MS QueueState :=
  s ← getv;
  match queue s !! Z.to_nat i with
  | Some q => if i <? 0 then stop_with StopFault else mret q
  | None => stop_with StopFault
  end.
Definition upd_queue (i : Z) (f : QueueState -> QueueState) : MS unit :=
  _ ← get_queue i;
  updv (fun s => with_queue (alter f (Z.to_nat i) (queue s)) s).

(** ** Guest memory *)

(** virtio_mmio_get_ram_ptr and, through pci_device_get_dma_ptr, virtio_pci_get_ram_ptr *)
Definition get_ram_ptr (paddr : Z) (is_rw : bool) : MS (option Z) := fun σ =>
  match phys_mem_get_ram_ptr (mem_map σ) paddr is_rw with
  | None => Stop StopFault
  | Some (p, map) => Ok p (upd_map (fun _ => map) σ)
  end.
Fixpoint load_bytes (m : hmem) (p : Z) (n : nat) : list Z :=
  match n with O => [] | S n' => host_byte m p :: load_bytes m (p + 1) n' end.
Fixpoint store_bytes (m : hmem) (p : Z) (bs : list Z) : hmem :=
  match bs with [] => m | b :: bs' => store_bytes (<[p := u8 b]> m) (p + 1) bs' end.
Definition host_read_bytes (p : Z) (n : nat) : MS (list Z) := fun σ =>
  if host_ok (ram_objs (mem_map σ)) p (Z.of_nat n)
  then Ok (load_bytes (host σ) p n) σ else Stop StopFault.
Definition host_write_bytes (p : Z) (bs : list Z) : MS unit := fun σ =>
  if host_ok (ram_objs (mem_map σ)) p (Z.of_nat (length bs))
  then Ok tt (upd_host (fun m => store_bytes m p bs) σ) else Stop StopFault.

Definition virtio_read16 (addr : Z) : MS Z :=
  if nz (addr .& 1) then mret 0
  else
    ptr ← get_ram_ptr addr false;
    match ptr with None => mret 0 | Some p => host_read 2 p end.
Definition virtio_write16 (addr val : Z) : MS unit :=
  if nz (addr .& 1) then mret tt
  else
    ptr ← get_ram_ptr addr true;
    match ptr with None => mret tt | Some p => host_write 2 p val end.
Definition virtio_write32 (addr val : Z) : MS unit :=
  if nz (addr .& 3) then mret tt
  else
    ptr ← get_ram_ptr addr true;
    match ptr with None => mret tt | Some p => host_write 4 p val end.

Definition page_part (addr count : Z) : Z :=
  min_int count (VIRTIO_PAGE_SIZE - (addr .& (VIRTIO_PAGE_SIZE - 1))).
(** The loops: every iteration but the last copies a byte at least. *)
Fixpoint from_ram_loop (fuel : nat) (buf : list Z) (pos addr count : Z) : MS (Z * list Z) :=
  if 0 <? count then
    match fuel with
    | O => stop_with StopFuel
    | S f =>
        let l := page_part addr count in
        ptr ← get_ram_ptr addr false;
        match ptr with
        | None => mret (-1, buf)
        | Some p =>
            bs ← host_read_bytes p (Z.to_nat l);
            buf ← buf_store pos bs buf;
            from_ram_loop f buf (pos + l) (waddr (addr + l)) (count - l)
        end
    end
  else mret (0, buf).
(** The return value and the buffer. *)
Definition virtio_memcpy_from_ram (buf : list Z) (pos addr count : Z) : MS (Z * list Z) :=
  from_ram_loop (Z.to_nat count) buf pos addr count.
Fixpoint to_ram_loop (fuel : nat) (addr : Z) (buf : list Z) (pos count : Z) : MS Z :=
  if 0 <? count then
    match fuel with
    | O => stop_with StopFuel
    | S f =>
        let l := page_part addr count in
        ptr ← get_ram_ptr addr true;
        match ptr with
        | None => mret (-1)
        | Some p =>
            bs ← buf_load pos (Z.to_nat l) buf;
            _ ← host_write_bytes p bs;
            to_ram_loop f (waddr (addr + l)) buf (pos + l) (count - l)
        end
    end
  else mret 0.
Definition virtio_memcpy_to_ram (addr : Z) (buf : list Z) (pos count : Z) : MS Z :=
  to_ram_loop (Z.to_nat count) addr buf pos count.

(** ** Descriptor chains

    The return value of get_desc is never tested: [desc] keeps its old bytes where
    nothing is read.  No bound on the length of a chain is enough, since a driver can
    build a cyclic one: [fuel] is a parameter of the model. *)
Definition get_desc (desc : list Z) (queue_idx desc_idx : Z) : MS (list Z) :=
  qs ← get_queue queue_idx;
  r ← virtio_memcpy_from_ram desc 0 (waddr (desc_addr qs + desc_idx * 16)) 16;
  mret (snd r).

(** The three loops of memcpy_to_from_queue; [None] is [return -1]. *)
Fixpoint find_write_desc (fuel : nat) (queue_idx : Z) (desc : list Z) : MS (option (list Z)) :=
  match fuel with
  | O => stop_with StopFuel
  | S f =>
      if is_write desc then mret (Some desc)
      else if negb (has_next desc) then mret None
      else
        desc ← get_desc desc queue_idx (d_next desc);
        find_write_desc f queue_idx desc
  end.
Fixpoint find_offset (fuel : nat) (queue_idx : Z) (to_queue : bool) (desc : list Z) (offset : Z)
    : MS (option (list Z * Z)) :=
  match fuel with
  | O => stop_with StopFuel
  | S f =>
      if negb (Bool.eqb (is_write desc) to_queue) then mret None
      else if u32 offset <? d_len desc then mret (Some (desc, offset))
      else if negb (has_next desc) then mret None
      else
        let offset := i32 (offset - d_len desc) in
        desc ← get_desc desc queue_idx (d_next desc);
        find_offset f queue_idx to_queue desc offset
  end.
(** The return value and the buffer.  [pos] is the pointer [buf], relative to its
    first value. *)
Fixpoint copy_loop (fuel : nat) (queue_idx : Z) (to_queue : bool) (desc buf : list Z) (pos offset count : Z)
    : MS (Z * list Z) :=
  match fuel with
  | O => stop_with StopFuel
  | S f =>
      let l := min_int count (i32 (d_len desc - offset)) in
      let addr := waddr (d_addr desc + offset) in
      buf ← (if to_queue then _ ← virtio_memcpy_to_ram addr buf pos l; mret buf
             else r ← virtio_memcpy_from_ram buf pos addr l; mret (snd r));
      let count := i32 (count - l) in
      if count =? 0 then mret (0, buf)
      else
        let offset := i32 (offset + l) in
        let pos := pos + l in
        if u32 offset =? d_len desc then
          if negb (has_next desc) then mret (-1, buf)
          else
            desc ← get_desc desc queue_idx (d_next desc);
            if negb (Bool.eqb (is_write desc) to_queue) then mret (-1, buf)
            else copy_loop f queue_idx to_queue desc buf pos 0 count
        else copy_loop f queue_idx to_queue desc buf pos offset count
  end.
Definition memcpy_to_from_queue (fuel : nat) (buf : list Z) (queue_idx desc_idx offset count : Z) (to_queue : bool)
    : MS (Z * list Z) :=
  if count =? 0 then mret (0, buf)
  else
    desc ← uninit_buf 16;
    desc ← get_desc desc queue_idx desc_idx;
    d ← (if to_queue then find_write_desc fuel queue_idx desc else mret (Some desc));
    match d with
    | None => mret (-1, buf)
    | Some desc =>
        r ← find_offset fuel queue_idx to_queue desc offset;
        match r with
        | None => mret (-1, buf)
        | Some (desc, offset) => copy_loop fuel queue_idx to_queue desc buf 0 offset count
        end
    end.
Definition memcpy_from_queue (fuel : nat) (buf : list Z) (queue_idx desc_idx offset count : Z) : MS (Z * list Z) :=
  memcpy_to_from_queue fuel buf queue_idx desc_idx offset count false.
Definition memcpy_to_queue (fuel : nat) (queue_idx desc_idx offset : Z) (buf : list Z) (count : Z) : MS Z :=
  r ← memcpy_to_from_queue fuel buf queue_idx desc_idx offset count true;
  mret (fst r).

Definition virtio_consume_desc (queue_idx desc_idx desc_len : Z) : MS unit :=
  qs ← get_queue queue_idx;
  let addr := waddr (used_addr qs + 2) in
  index ← virtio_read16 addr;
  _ ← virtio_write16 addr (u16 (index + 1));
  let addr := waddr (used_addr qs + 4 + u32 ((index .& u32 (qnum qs - 1)) * 8)) in
  _ ← virtio_write32 addr (u32 desc_idx);
  _ ← virtio_write32 (waddr (addr + 4)) (u32 desc_len);
  _ ← updv (fun s => with_int_status (int_status s .| 1) s);
  set_irq 1.

(** The two loops of get_desc_rw_size. *)
Fixpoint rw_write_loop (fuel : nat) (queue_idx : Z) (desc : list Z) (read_size write_size : Z)
    : MS (option (Z * Z)) :=
  match fuel with
  | O => stop_with StopFuel
  | S f =>
      if negb (is_write desc) then mret None
      else
        let write_size := i32 (write_size + d_len desc) in
        if negb (has_next desc) then mret (Some (read_size, write_size))
        else
          desc ← get_desc desc queue_idx (d_next desc);
          rw_write_loop f queue_idx desc read_size write_size
  end.
Fixpoint rw_read_loop (fuel : nat) (queue_idx : Z) (desc : list Z) (read_size : Z)
    : MS ((list Z * Z) + Z * Z) :=
  match fuel with
  | O => stop_with StopFuel
  | S f =>
      if is_write desc then mret (inl (desc, read_size))
      else
        let read_size := i32 (read_size + d_len desc) in
        if negb (has_next desc) then mret (inr (read_size, 0))
        else
          desc ← get_desc desc queue_idx (d_next desc);
          rw_read_loop f queue_idx desc read_size
  end.
(** [None] for the return value -1. *)
Definition get_desc_rw_size (fuel : nat) (queue_idx desc_idx : Z) : MS (option (Z * Z)) :=
  desc ← uninit_buf 16;
  desc ← get_desc desc queue_idx desc_idx;
  r ← rw_read_loop fuel queue_idx desc 0;
  match r with
  | inr sizes => mret (Some sizes)
  | inl (desc, read_size) => rw_write_loop fuel queue_idx desc read_size 0
  end.

(** ** Notification

    [recv] is the device_recv callback of the device: a negative result stops the
    loop.  last_avail_idx is a uint16_t that grows to avail_idx. *)
Definition device_recv_func : Type := Z -> Z -> Z -> Z -> MS Z.
(** The index of the next descriptor chain of the available ring. *)
Definition avail_desc (qs : QueueState) : MS Z :=
  virtio_read16 (waddr (avail_addr qs + 4 + u32 ((last_avail_idx qs .& u32 (qnum qs - 1)) * 2))).
Fixpoint notify_loop (n fuel : nat) (recv : device_recv_func) (queue_idx avail_idx : Z) : MS unit :=
  qs ← get_queue queue_idx;
  if last_avail_idx qs =? avail_idx then mret tt
  else
    match n with
    | O => stop_with StopFuel
    | S n' =>
        desc_idx ← avail_desc qs;
        r ← get_desc_rw_size fuel queue_idx desc_idx;
        ret ← match r with
              | None => mret 0
              | Some (read_size, write_size) => recv queue_idx desc_idx read_size write_size
              end;
        if ret <? 0 then mret tt
        else
          _ ← upd_queue queue_idx (fun q => q_last (u16 (last_avail_idx q + 1)) q);
          notify_loop n' fuel recv queue_idx avail_idx
    end.
Definition queue_notify (fuel : nat) (recv : device_recv_func) (queue_idx : Z) : MS unit :=
  qs ← get_queue queue_idx;
  if manual_recv qs then mret tt
  else
    avail_idx ← virtio_read16 (waddr (avail_addr qs + 2));
    notify_loop (Z.to_nat 65536) fuel recv queue_idx avail_idx.

(** ** Configuration space *)
Definition cfg_byte (s : VIRTIODevice) (o : Z) : MS Z :=
  match config_space s !! Z.to_nat o with Some b => mret b | None => stop_with StopFault end.
(** The size is unsigned: sizes below 4 wrap around in the comparisons. *)
Definition virtio_config_read (offset size_log2 : Z) : MS Z :=
  s ← getv;
  match size_log2 with
  | 0 => if offset <? config_space_size s then cfg_byte s offset else mret 0
  | 1 =>
      if offset <? u32 (config_space_size s - 1) then
        _ ← cfg_byte s (offset + 1); mret (get_le16 (config_space s) (Z.to_nat offset))
      else mret 0
  | 2 =>
      if offset <? u32 (config_space_size s - 3) then
        _ ← cfg_byte s (offset + 3); mret (get_le32 (config_space s) (Z.to_nat offset))
      else mret 0
  | _ => stop_with StopAbort
  end.
Definition virtio_config_write (config_write : MS unit) (offset val size_log2 : Z) : MS unit :=
  s ← getv;
  match size_log2 with
  | 0 =>
      if offset <? config_space_size s then
        _ ← cfg_byte s offset;
        _ ← updv (fun s => with_config (splice (Z.to_nat offset) [u8 val] (config_space s)) s);
        config_write
      else mret tt
  | 1 =>
      if offset <? u32 (config_space_size s - 1) then
        _ ← cfg_byte s (offset + 1);
        _ ← updv (fun s => with_config (put_le16 (config_space s) (Z.to_nat offset) (u16 val)) s);
        config_write
      else mret tt
  | 2 =>
      if offset <? u32 (config_space_size s - 3) then
        _ ← cfg_byte s (offset + 3);
        _ ← updv (fun s => with_config (put_le32 (config_space s) (Z.to_nat offset) val) s);
        config_write
      else mret tt
  | _ => mret tt
  end.

(** ** Registers *)
Definition set_low32 (addr val : Z) : Z :=
  if VIRTIO_ADDR_BITS =? 64 then (addr .& Z.lnot 0xffffffff) .| val else val.
Definition set_high32 (addr val : Z) : Z := (addr .& 0xffffffff) .| (val ≪ 32).
Definition has_high : bool := VIRTIO_ADDR_BITS =? 64.
(** [s->queue[s->queue_sel]] *)
Definition sel_queue : MS QueueState := s ← getv; get_queue (queue_sel s).
Definition upd_sel (f : QueueState -> QueueState) : MS unit := s ← getv; upd_queue (queue_sel s) f.
Definition read_features (s : VIRTIODevice) : Z :=
  match device_features_sel s with 0 => device_features s | 1 => 1 | _ => 0 end.
(** What both transports do on a write of the device status. *)
Definition write_status (val : Z) : MS unit :=
  _ ← updv (with_status val);
  if val =? 0 then _ ← set_irq 0; updv virtio_reset else mret tt.
Definition write_queue_num (val : Z) : MS unit :=
  if (val .& u32 (val - 1) =? 0) && (0 <? val) then upd_sel (q_num val) else mret tt.

Definition virtio_mmio_read (offset size_log2 : Z) : MS Z :=
  if 0x100 <=? offset then virtio_config_read (offset - 0x100) size_log2
  else if size_log2 =? 2 then
    s ← getv;
    match offset with
    | 0x000 => mret 0x74726976
    | 0x004 => mret 2
    | 0x008 => mret (device_id s)
    | 0x00c => mret (vendor_id s)
    | 0x010 => mret (read_features s)
    | 0x014 => mret (device_features_sel s)
    | 0x030 => mret (queue_sel s)
    | 0x034 => mret MAX_QUEUE_NUM
    | 0x038 => q ← sel_queue; mret (qnum q)
    | 0x080 => q ← sel_queue; mret (u32 (desc_addr q))
    | 0x090 => q ← sel_queue; mret (u32 (avail_addr q))
    | 0x0a0 => q ← sel_queue; mret (u32 (used_addr q))
    | 0x084 => if has_high then q ← sel_queue; mret (u32 (desc_addr q ≫ 32)) else mret 0
    | 0x094 => if has_high then q ← sel_queue; mret (u32 (avail_addr q ≫ 32)) else mret 0
    | 0x0a4 => if has_high then q ← sel_queue; mret (u32 (used_addr q ≫ 32)) else mret 0
    | 0x044 => q ← sel_queue; mret (ready q)
    | 0x060 => mret (int_status s)
    | 0x070 => mret (status s)
    | _ => mret 0
    end
  else mret 0.

Definition virtio_mmio_write (fuel : nat) (recv : device_recv_func) (config_write : MS unit)
    (offset val size_log2 : Z) : MS unit :=
  if 0x100 <=? offset then virtio_config_write config_write (offset - 0x100) val size_log2
  else if size_log2 =? 2 then
    match offset with
    | 0x014 => updv (with_features_sel val)
    | 0x030 => if val <? Z.of_nat MAX_QUEUE then updv (with_queue_sel val) else mret tt
    | 0x038 => write_queue_num val
    | 0x080 => upd_sel (fun q => q_desc (set_low32 (desc_addr q) val) q)
    | 0x090 => upd_sel (fun q => q_avail (set_low32 (avail_addr q) val) q)
    | 0x0a0 => upd_sel (fun q => q_used (set_low32 (used_addr q) val) q)
    | 0x084 => if has_high then upd_sel (fun q => q_desc (set_high32 (desc_addr q) val) q) else mret tt
    | 0x094 => if has_high then upd_sel (fun q => q_avail (set_high32 (avail_addr q) val) q) else mret tt
    | 0x0a4 => if has_high then upd_sel (fun q => q_used (set_high32 (used_addr q) val) q) else mret tt
    | 0x070 => write_status val
    | 0x044 => upd_sel (q_ready (val .& 1))
    | 0x050 => if val <? Z.of_nat MAX_QUEUE then queue_notify fuel recv val else mret tt
    | 0x064 =>
        _ ← updv (fun s => with_int_status (int_status s .& u32 (Z.lnot val)) s);
        s ← getv;
        if int_status s =? 0 then set_irq 0 else mret tt
    | _ => mret tt
    end
  else mret tt.

Definition virtio_pci_read (offset1 size_log2 : Z) : MS Z :=
  let offset := offset1 .& 0xfff in
  s ← getv;
  match offset1 ≫ 12 with
  | 0 =>
      match size_log2, offset with
      | 2, 0x004 => mret (read_features s)
      | 2, 0x000 => mret (device_features_sel s)
      | 2, 0x020 => q ← sel_queue; mret (u32 (desc_addr q))
      | 2, 0x028 => q ← sel_queue; mret (u32 (avail_addr q))
      | 2, 0x030 => q ← sel_queue; mret (u32 (used_addr q))
      | 2, 0x024 => if has_high then q ← sel_queue; mret (u32 (desc_addr q ≫ 32)) else mret 0
      | 2, 0x02c => if has_high then q ← sel_queue; mret (u32 (avail_addr q ≫ 32)) else mret 0
      | 2, 0x034 => if has_high then q ← sel_queue; mret (u32 (used_addr q ≫ 32)) else mret 0
      | 1, 0x012 => mret MAX_QUEUE_NUM
      | 1, 0x016 => mret (queue_sel s)
      | 1, 0x018 => q ← sel_queue; mret (qnum q)
      | 1, 0x01c => q ← sel_queue; mret (ready q)
      | 0, 0x014 => mret (status s)
      | _, _ => mret 0
      end
  | 1 =>
      if (offset =? 0) && (size_log2 =? 0) then
        _ ← updv (with_int_status 0);
        _ ← set_irq 0;
        mret (int_status s)
      else mret 0
  | 2 => virtio_config_read offset size_log2
  | _ => mret 0
  end.

Definition virtio_pci_write (fuel : nat) (recv : device_recv_func) (config_write : MS unit)
    (offset1 val size_log2 : Z) : MS unit :=
  let offset := offset1 .& 0xfff in
  match offset1 ≫ 12 with
  | 0 =>
      match size_log2, offset with
      | 2, 0x000 => updv (with_features_sel val)
      | 2, 0x020 => upd_sel (fun q => q_desc (set_low32 (desc_addr q) val) q)
      | 2, 0x028 => upd_sel (fun q => q_avail (set_low32 (avail_addr q) val) q)
      | 2, 0x030 => upd_sel (fun q => q_used (set_low32 (used_addr q) val) q)
      | 2, 0x024 => if has_high then upd_sel (fun q => q_desc (set_high32 (desc_addr q) val) q) else mret tt
      | 2, 0x02c => if has_high then upd_sel (fun q => q_avail (set_high32 (avail_addr q) val) q) else mret tt
      | 2, 0x034 => if has_high then upd_sel (fun q => q_used (set_high32 (used_addr q) val) q) else mret tt
      | 1, 0x016 => if val <? Z.of_nat MAX_QUEUE then updv (with_queue_sel val) else mret tt
      | 1, 0x018 => write_queue_num val
      | 1, 0x01c => upd_sel (q_ready (val .& 1))
      | 0, 0x014 => write_status val
      | _, _ => mret tt
      end
  | 2 => virtio_config_write config_write offset val size_log2
  | 3 => if val <? Z.of_nat MAX_QUEUE then queue_notify fuel recv val else mret tt
  | _ => mret tt
  end.

Definition virtio_config_change_notify : MS unit :=
  _ ← updv (fun s => with_int_status (int_status s .| 2) s);
  set_irq 1.

(** virtio_init, the MMIO case: the device after memset and the assignments. *)
Definition virtio_init (dev_id cfg_size : Z) : VIRTIODevice :=
  virtio_reset (mkDev 0 0 0 0 (replicate MAX_QUEUE (mkQueue 0 0 0 0 0 0 false)) dev_id 0xffff 0 cfg_size
    (replicate MAX_CONFIG_SPACE_SIZE 0)).
End Virtio.
