(* ===== verification/VirtioDev.v ===== *)
(** * VIRTIO devices: block, network, console, input (virtio.c)

    The back ends (a disk, a network, a terminal) are classes: what they do to the
    board is theirs to say. *)
From S2P Require Export Virtio.
From stdpp Require Import strings.
From S2P Require Import Fdt.
#[local] Open Scope Z_scope.

Definition VIRTIO_BLK_T_IN : Z := 0.
Definition VIRTIO_BLK_T_OUT : Z := 1.
Definition VIRTIO_BLK_S_OK : Z := 0.
Definition VIRTIO_BLK_S_IOERR : Z := 1.
Definition SECTOR_SIZE : Z := 512.

(** ** Block device *)
Record BlockRequest := mkReq {
  req_type : Z;
  req_buf : list Z;
  req_write_size : Z;
  req_queue_idx : Z;
  req_desc_idx : Z;
}.
Record BlockState := mkBlk { req_in_progress : bool; req : BlockRequest }.
(** read_async gets the first sector, the buffer and the number of sectors, and
    returns its result and the buffer; a positive result says that the request is
    not finished. *)
Class BlockBoard (W : Type) := {
  blk : W -> BlockState;
  blk_set : BlockState -> W -> W;
  read_async : Z -> list Z -> Z -> M (Sys W) (Z * list Z);
  write_async : Z -> list Z -> Z -> M (Sys W) Z;
}.
Class NetBoard (W : Type) := { eth_write_packet : list Z -> M (Sys W) unit }.
Class ConsoleBoard (W : Type) := { cs_write_data : list Z -> M (Sys W) unit }.

Inductive VirtioInputTypeEnum := VIRTIO_INPUT_TYPE_KEYBOARD | VIRTIO_INPUT_TYPE_MOUSE | VIRTIO_INPUT_TYPE_TABLET.
#[export] Instance input_eq_dec : EqDecision VirtioInputTypeEnum.
Proof. solve_decision. Defined.
Class InputBoard (W : Type) := {
  input_type : W -> VirtioInputTypeEnum;
  buttons_state : W -> Z;
  set_buttons_state : Z -> W -> W;
}.

Section Block.
Context `{cfg : Config} `{vcfg : VirtioConfig} {W : Type} `{board : !VirtioBoard W} `{bb : !BlockBoard W}.
Local Abbreviation MS := (M (Sys W)).

Definition getb : MS BlockState := gets (fun σ => blk (world σ)).
Definition updb (f : BlockState -> BlockState) : MS unit := modify (upd_world (fun w => blk_set (f (blk w)) w)).
Definition upd_req (f : BlockRequest -> BlockRequest) : MS unit :=
  updb (fun b => mkBlk (req_in_progress b) (f (req b))).

Definition virtio_block_req_end (fuel : nat) (ret : Z) : MS unit :=
  b ← getb;
  let r := req b in
  let st := if ret <? 0 then VIRTIO_BLK_S_IOERR else VIRTIO_BLK_S_OK in
  if req_type r =? VIRTIO_BLK_T_IN then
    buf ← buf_store (req_write_size r - 1) [st] (req_buf r);
    _ ← memcpy_to_queue fuel (req_queue_idx r) (req_desc_idx r) 0 buf (req_write_size r);
    virtio_consume_desc (req_queue_idx r) (req_desc_idx r) (req_write_size r)
  else if req_type r =? VIRTIO_BLK_T_OUT then
    _ ← memcpy_to_queue fuel (req_queue_idx r) (req_desc_idx r) 0 [st] 1;
    virtio_consume_desc (req_queue_idx r) (req_desc_idx r) 1
  else stop_with StopAbort.

Definition virtio_block_recv_request (fuel : nat) (queue_idx desc_idx read_size write_size : Z) : MS Z :=
  b ← getb;
  if req_in_progress b then mret (-1)
  else
    h ← uninit_buf 16;
    r ← memcpy_from_queue fuel h queue_idx desc_idx 0 16;
    let '(ret, h) := r in
    if ret <? 0 then mret 0
    else
      let type := get_le32 h 0 in
      let sector_num := get_le64 h 8 in
      _ ← upd_req (fun r => mkReq type (req_buf r) (req_write_size r) queue_idx desc_idx);
      if type =? VIRTIO_BLK_T_IN then
        buf ← uninit_buf write_size;
        r ← read_async sector_num buf (Z.quot (write_size - 1) SECTOR_SIZE);
        let '(ret, buf) := r in
        _ ← upd_req (fun r => mkReq (req_type r) buf write_size (req_queue_idx r) (req_desc_idx r));
        _ ← (if 0 <? ret then updb (fun b => mkBlk true (req b)) else virtio_block_req_end fuel ret);
        mret 0
      else if type =? VIRTIO_BLK_T_OUT then
        _ ← assert (1 <=? write_size);
        let len := i32 (read_size - 16) in
        buf ← uninit_buf len;
        r ← memcpy_from_queue fuel buf queue_idx desc_idx 16 len;
        ret ← write_async sector_num (snd r) (Z.quot len SECTOR_SIZE);
        _ ← (if 0 <? ret then updb (fun b => mkBlk true (req b)) else virtio_block_req_end fuel ret);
        mret 0
      else mret 0.

(** The back end has finished a request with result [ret] and left [buf] in the
    buffer of the request. *)
Definition virtio_block_req_cb (fuel : nat) (buf : list Z) (ret : Z) : MS unit :=
  _ ← upd_req (fun r => mkReq (req_type r) buf (req_write_size r) (req_queue_idx r) (req_desc_idx r));
  _ ← virtio_block_req_end fuel ret;
  _ ← updb (fun b => mkBlk false (req b));
  b ← getb;
  queue_notify fuel (virtio_block_recv_request fuel) (req_queue_idx (req b)).

Definition virtio_block_init (nb_sectors : Z) : VIRTIODevice :=
  let s := virtio_init 2 8 in
  with_config (put_le32 (put_le32 (config_space s) 0 (u32 nb_sectors)) 4 (u32 (u64 nb_sectors ≫ 32))) s.
End Block.

Definition manual_queue0 (s : VIRTIODevice) : VIRTIODevice := with_queue (alter (q_manual true) 0%nat (queue s)) s.

(** The test of the receive queue that the network, console and input devices share:
    the next descriptor, if there is one. *)
Section Receive.
Context `{cfg : Config} `{vcfg : VirtioConfig} {W : Type} `{board : !VirtioBoard W}.
Local Abbreviation MS := (M (Sys W)).
Definition queue_has_desc : MS bool :=
  qs ← get_queue 0;
  if ready qs =? 0 then mret false
  else
    avail_idx ← virtio_read16 (waddr (avail_addr qs + 2));
    mret (negb (last_avail_idx qs =? avail_idx)).
Definition next_desc : MS Z := qs ← get_queue 0; avail_desc qs.
Definition next_last_avail : MS unit := upd_queue 0 (fun q => q_last (u16 (last_avail_idx q + 1)) q).
End Receive.

(** ** Network device *)
Definition NET_HEADER_SIZE : Z := 12.
Section Net.
Context `{cfg : Config} `{vcfg : VirtioConfig} {W : Type} `{board : !VirtioBoard W} `{nb : !NetBoard W}.
Local Abbreviation MS := (M (Sys W)).

Definition virtio_net_recv_request (fuel : nat) (queue_idx desc_idx read_size write_size : Z) : MS Z :=
  if queue_idx =? 1 then
    h ← uninit_buf NET_HEADER_SIZE;
    r ← memcpy_from_queue fuel h queue_idx desc_idx 0 NET_HEADER_SIZE;
    if fst r <? 0 then mret 0
    else
      let len := i32 (read_size - NET_HEADER_SIZE) in
      buf ← uninit_buf len;
      r ← memcpy_from_queue fuel buf queue_idx desc_idx NET_HEADER_SIZE len;
      _ ← eth_write_packet (snd r);
      _ ← virtio_consume_desc queue_idx desc_idx 0;
      mret 0
  else mret 0.
Definition virtio_net_can_write_packet : MS bool := queue_has_desc.
Definition virtio_net_write_packet (fuel : nat) (buf : list Z) : MS unit :=
  b ← queue_has_desc;
  if negb b then mret tt
  else
    desc_idx ← next_desc;
    r ← get_desc_rw_size fuel 0 desc_idx;
    match r with
    | None => mret tt
    | Some (read_size, write_size) =>
        let buf_len := Z.of_nat (length buf) in
        let len := i32 (NET_HEADER_SIZE + buf_len) in
        if write_size <? len then mret tt
        else
          _ ← memcpy_to_queue fuel 0 desc_idx 0 (replicate 12 0) NET_HEADER_SIZE;
          _ ← memcpy_to_queue fuel 0 desc_idx NET_HEADER_SIZE buf buf_len;
          _ ← virtio_consume_desc 0 desc_idx len;
          next_last_avail
    end.
Definition virtio_net_init (mac_addr : list Z) : VIRTIODevice :=
  let s := manual_queue0 (with_features (1 ≪ 5) (virtio_init 1 8)) in
  with_config (splice 6 [0; 0] (splice 0 (take 6 mac_addr) (config_space s))) s.
End Net.

(** ** Console device *)
Section Console.
Context `{cfg : Config} `{vcfg : VirtioConfig} {W : Type} `{board : !VirtioBoard W} `{cb : !ConsoleBoard W}.
Local Abbreviation MS := (M (Sys W)).

Definition virtio_console_recv_request (fuel : nat) (queue_idx desc_idx read_size write_size : Z) : MS Z :=
  if queue_idx =? 1 then
    buf ← uninit_buf read_size;
    r ← memcpy_from_queue fuel buf queue_idx desc_idx 0 read_size;
    _ ← cs_write_data (snd r);
    _ ← virtio_consume_desc queue_idx desc_idx 0;
    mret 0
  else mret 0.
Definition virtio_console_can_write_data : MS bool := queue_has_desc.
Definition virtio_console_get_write_len (fuel : nat) : MS Z :=
  b ← queue_has_desc;
  if negb b then mret 0
  else
    desc_idx ← next_desc;
    r ← get_desc_rw_size fuel 0 desc_idx;
    match r with None => mret 0 | Some (read_size, write_size) => mret write_size end.
Definition virtio_console_write_data (fuel : nat) (buf : list Z) : MS Z :=
  b ← queue_has_desc;
  if negb b then mret 0
  else
    let buf_len := Z.of_nat (length buf) in
    desc_idx ← next_desc;
    _ ← memcpy_to_queue fuel 0 desc_idx 0 buf buf_len;
    _ ← virtio_consume_desc 0 desc_idx buf_len;
    _ ← next_last_avail;
    mret buf_len.
Definition virtio_console_resize_event (width height : Z) : MS unit :=
  _ ← updv (fun s => with_config (put_le16 (put_le16 (config_space s) 0 (u16 width)) 2 (u16 height)) s);
  virtio_config_change_notify.
Definition virtio_console_init : VIRTIODevice := manual_queue0 (with_features (1 ≪ 0) (virtio_init 3 4)).
End Console.

(** ** Input device *)
Definition VIRTIO_INPUT_EV_SYN : Z := 0x00.
Definition VIRTIO_INPUT_EV_KEY : Z := 0x01.
Definition VIRTIO_INPUT_EV_REL : Z := 0x02.
Definition VIRTIO_INPUT_EV_ABS : Z := 0x03.
Definition VIRTIO_INPUT_ABS_SCALE : Z := 32768.
Definition REL_WHEEL : Z := 0x08.
Definition buttons_list : list Z := [0x110; 0x111; 0x112].
Section Input.
Context `{cfg : Config} `{vcfg : VirtioConfig} {W : Type} `{board : !VirtioBoard W} `{ib : !InputBoard W}.
Local Abbreviation MS := (M (Sys W)).

Definition virtio_input_recv_request (queue_idx desc_idx read_size write_size : Z) : MS Z :=
  if queue_idx =? 1 then _ ← virtio_consume_desc queue_idx desc_idx 0; mret 0 else mret 0.

(** type, code and value of an event *)
Definition input_event (type code value : Z) : list Z :=
  put_le32 (put_le16 (put_le16 (replicate 8 0) 0 type) 2 code) 4 value.
Definition virtio_input_queue_event (fuel : nat) (type code value : Z) : MS Z :=
  b ← queue_has_desc;
  if negb b then mret (-1)
  else
    desc_idx ← next_desc;
    _ ← memcpy_to_queue fuel 0 desc_idx 0 (input_event type (u16 code) (u32 value)) 8;
    _ ← virtio_consume_desc 0 desc_idx 8;
    _ ← next_last_avail;
    mret 0.
Definition get_type : MS VirtioInputTypeEnum := gets (fun σ => input_type (world σ)).
Definition virtio_input_send_key_event (fuel : nat) (is_down key_code : Z) : MS Z :=
  ty ← get_type;
  if decide (ty <> VIRTIO_INPUT_TYPE_KEYBOARD) then mret (-1)
  else
    ret ← virtio_input_queue_event fuel VIRTIO_INPUT_EV_KEY key_code is_down;
    if nz ret then mret ret else virtio_input_queue_event fuel VIRTIO_INPUT_EV_SYN 0 0.

(** A sequence of events that stops at the first one that is not sent. *)
Definition and_then (m k : MS Z) : MS Z := ret ← m; if nz ret then mret ret else k.
Fixpoint send_buttons (fuel : nat) (l : list Z) (i buttons last : Z) : MS Z :=
  match l with
  | [] => mret 0
  | code :: l' =>
      let b := (buttons ≫ i) .& 1 in
      let last_b := (last ≫ i) .& 1 in
      if negb (b =? last_b) then
        and_then (virtio_input_queue_event fuel VIRTIO_INPUT_EV_KEY code b)
          (send_buttons fuel l' (i + 1) buttons last)
      else send_buttons fuel l' (i + 1) buttons last
  end.
Definition virtio_input_send_mouse_event (fuel : nat) (dx dy dz buttons : Z) : MS Z :=
  ty ← get_type;
  if decide (ty = VIRTIO_INPUT_TYPE_KEYBOARD) then mret (-1)
  else
    let ev := if decide (ty = VIRTIO_INPUT_TYPE_MOUSE) then VIRTIO_INPUT_EV_REL else VIRTIO_INPUT_EV_ABS in
    and_then (virtio_input_queue_event fuel ev 0 dx) (
    and_then (virtio_input_queue_event fuel ev 1 dy) (
    and_then (if nz dz then virtio_input_queue_event fuel VIRTIO_INPUT_EV_REL REL_WHEEL dz else mret 0) (
    last ← gets (fun σ => buttons_state (world σ));
    and_then
      (if negb (buttons =? last) then
         and_then (send_buttons fuel buttons_list 0 buttons last)
           (_ ← modify (upd_world (set_buttons_state buttons)); mret 0)
       else mret 0)
      (virtio_input_queue_event fuel VIRTIO_INPUT_EV_SYN 0 0)))).

Definition set_bit (tab : list Z) (o : nat) (k : Z) : list Z :=
  splice (o + Z.to_nat (k ≫ 3)) [u8 (byte tab (o + Z.to_nat (k ≫ 3)) .| (1 ≪ (k .& 7)))] tab.
Definition put_byte (o : nat) (v : Z) (c : list Z) : list Z := splice o [v] c.
Definition button_bits (c : list Z) : list Z :=
  foldl (fun c b => set_bit c 8 b) (splice 8 (replicate 64 0) (put_byte 2 64 c)) buttons_list.
Definition input_name (t : VirtioInputTypeEnum) : list Z :=
  match t with
  | VIRTIO_INPUT_TYPE_KEYBOARD => str "virtio_keyboard"
  | VIRTIO_INPUT_TYPE_MOUSE => str "virtio_mouse"
  | VIRTIO_INPUT_TYPE_TABLET => str "virtio_tablet"
  end.
Definition input_config (t : VirtioInputTypeEnum) (c : list Z) : list Z :=
  match byte c 0 with
  | 0x00 => c
  | 0x01 =>
      let name := input_name t in
      splice 8 name (put_byte 2 (Z.of_nat (length name)) c)
  | 0x11 =>
      let c := put_byte 2 0 c in
      match t, byte c 1 with
      | VIRTIO_INPUT_TYPE_KEYBOARD, 0x01 => splice 8 (replicate 16 0xff) (put_byte 2 16 c)
      | VIRTIO_INPUT_TYPE_KEYBOARD, 0x14 => put_byte 2 1 c
      | VIRTIO_INPUT_TYPE_MOUSE, 0x01 => button_bits c
      | VIRTIO_INPUT_TYPE_MOUSE, 0x02 =>
          set_bit (set_bit (set_bit (put_byte 9 0 (put_byte 8 0 (put_byte 2 2 c))) 8 0) 8 1) 8 REL_WHEEL
      | VIRTIO_INPUT_TYPE_TABLET, 0x01 => button_bits c
      | VIRTIO_INPUT_TYPE_TABLET, 0x02 => set_bit (put_byte 9 0 (put_byte 8 0 (put_byte 2 2 c))) 8 REL_WHEEL
      | VIRTIO_INPUT_TYPE_TABLET, 0x03 => set_bit (set_bit (put_byte 8 0 (put_byte 2 1 c)) 8 0) 8 1
      | _, _ => c
      end
  | 0x12 =>
      if bool_decide (t = VIRTIO_INPUT_TYPE_TABLET) && (byte c 1 <=? 1) then
        let c := put_byte 2 20 c in
        let c := put_le32 c 8 0 in
        let c := put_le32 c 12 (VIRTIO_INPUT_ABS_SCALE - 1) in
        put_le32 (put_le32 (put_le32 c 16 0) 20 0) 24 0
      else c
  | _ => put_byte 2 0 c
  end.
Definition virtio_input_config_write : MS unit :=
  ty ← get_type;
  updv (fun s => with_config (input_config ty (config_space s)) s).
Definition virtio_input_init : VIRTIODevice := manual_queue0 (virtio_init 18 256).
End Input.
