(* ===== verification/VirtioFacts.v ===== *)
(** * VIRTIO: what the copies between queues and buffers do

    A region is an interval of guest addresses in RAM; a path is a finite sequence
    of linked descriptors.  On them the copy loops of virtio.c are slices of the
    concatenated buffers. *)
From S2P Require Export Virtio.

(** ** Bytes of host memory *)
Lemma length_load_bytes m p n : length (load_bytes m p n) = n.
Proof. revert p. induction n as [|n IH]; intros p; cbn; congruence. Qed.
Lemma load_bytes_app m p a b : load_bytes m p (a + b) = load_bytes m p a ++ load_bytes m (p + Z.of_nat a) b.
Proof.
  revert p. induction a as [|a IH]; intros p; cbn [load_bytes Nat.add app]; [by rewrite Z.add_0_r|].
  rewrite IH. do 3 f_equal. lia.
Qed.
Lemma load_bytes_ext m m' p n : (forall q, p <= q < p + Z.of_nat n -> host_byte m q = host_byte m' q) ->
  load_bytes m p n = load_bytes m' p n.
Proof.
  revert p. induction n as [|n IH]; intros p H; cbn [load_bytes]; [done|].
  rewrite (H p) by lia. rewrite (IH (p + 1)) by (intros; apply H; lia). done.
Qed.
Lemma load_bytes_bytes m p n : bytes (load_bytes m p n).
Proof. revert p. induction n as [|n IH]; intros p; constructor; [apply host_byte_fits|apply IH]. Qed.
Lemma host_byte_store_bytes m p bs q :
  host_byte (store_bytes m p bs) q =
  if decide (p <= q < p + Z.of_nat (length bs)) then u8 (byte bs (Z.to_nat (q - p))) else host_byte m q.
Proof.
  revert m p. induction bs as [|b bs IH]; intros m p; cbn [store_bytes length].
  { by rewrite decide_False by lia. }
  rewrite IH. destruct (decide (p = q)) as [->|Hne].
  - rewrite decide_False, decide_True, host_byte_insert_eq by lia. by rewrite Z.sub_diag.
  - rewrite host_byte_insert_ne by done. repeat case_decide; try lia.
    replace (Z.to_nat (q - p)) with (S (Z.to_nat (q - (p + 1)))) by lia. done.
Qed.
Lemma load_store_bytes m p bs : bytes bs -> load_bytes (store_bytes m p bs) p (length bs) = bs.
Proof.
  revert m p. induction bs as [|b bs IH]; intros m p Hb; cbn [store_bytes load_bytes length]; [done|].
  apply Forall_cons_1 in Hb as [H1 Hb]. rewrite IH, host_byte_store_bytes, decide_False by (done || lia).
  rewrite host_byte_insert_eq. f_equal. by apply wrap_fits.
Qed.
Definition disjoint_from (p : Z) (n : nat) (q : Z) (k : nat) : Prop := p + Z.of_nat n <= q \/ q + Z.of_nat k <= p.
Lemma load_store_disj m p bs q k : disjoint_from p (length bs) q k ->
  load_bytes (store_bytes m p bs) q k = load_bytes m q k.
Proof.
  intros Hd. apply load_bytes_ext. intros x Hx. rewrite host_byte_store_bytes, decide_False; [done|].
  unfold disjoint_from in Hd. lia.
Qed.
Lemma store_bytes_app m p a b : store_bytes m p (a ++ b) = store_bytes (store_bytes m p a) (p + Z.of_nat (length a)) b.
Proof.
  revert m p. induction a as [|x a IH]; intros m p; cbn [store_bytes app length]; [by rewrite Z.add_0_r|].
  rewrite IH. f_equal. lia.
Qed.

(** ** Regions of guest RAM *)
Section Facts.
Context `{cfg : Config} `{vcfg : VirtioConfig} {W : Type} `{board : !VirtioBoard W}.
Local Abbreviation MS := (M (Sys W)).
Implicit Types σ : Sys W.

(** The guest addresses [a, a + n) are RAM without dirty tracking and stand at [p, p + n) of the
    host. *)
Record region (map : PhysMemoryMap) (a n p : Z) : Prop := {
  rg_range : 0 <= a /\ 0 <= n /\ a + n <= 2 ^ VIRTIO_ADDR_BITS;
  rg_ptr : forall x, a <= x < a + n -> exists i pr, get_phys_mem_range map x = Some i /\
    phys_mem_range map !! i = Some pr /\ pr_is_ram pr = true /\ dirty_bits pr = None /\
    pr_phys_mem pr + uptr (x - pr_addr pr) = p + (x - a);
  rg_ok : host_ok (ram_objs map) p n = true;
}.
Lemma region_sub map a n p o k : region map a n p -> 0 <= o -> 0 <= k -> o + k <= n -> region map (a + o) k (p + o).
Proof.
  intros [Hr Hp Hok] Ho Hk Hle. split; [lia| |by eapply host_ok_sub; [exact Hok|lia..]].
  intros x Hx. destruct (Hp x ltac:(lia)) as (i & pr & E1 & E2 & E3 & E4 & E5). exists i, pr.
  do 4 (split; [done|]). rewrite E5. lia.
Qed.
Lemma waddr_small x : 0 <= x < 2 ^ VIRTIO_ADDR_BITS -> waddr x = x.
Proof. intros H. apply wrap_fits. exact H. Qed.
Lemma alter_same {A} (l : list A) i x : l !! i = Some x -> alter (fun _ => x) i l = l.
Proof. intros H. rewrite <- (list_insert_id l i x H) at 2. revert i H. induction l as [|y l IH]; intros [|i] H; try done. cbn in *. f_equal. by apply IH. Qed.
Lemma get_ram_ptr_region σ a n p x rw : region (mem_map σ) a n p -> a <= x < a + n ->
  get_ram_ptr x rw σ = Ok (Some (p + (x - a))) σ.
Proof.
  intros [_ Hp _] Hx. destruct (Hp x Hx) as (i & pr & E1 & E2 & E3 & E4 & E5).
  unfold get_ram_ptr, phys_mem_get_ram_ptr. rewrite E1, E2. cbn [mbind option_bind]. rewrite E3. cbn [negb].
  rewrite E5. destruct rw; [|by destruct σ].
  unfold phys_mem_set_dirty_bit. rewrite E4. cbn. unfold alter_range. rewrite (alter_same _ _ _ E2).
  by destruct σ as [? [?] ? ?].
Qed.

Lemma page_part_range a n : 0 < n -> 1 <= page_part a n <= n.
Proof.
  intros Hn. unfold page_part, min_int. assert (0 <= a .& (VIRTIO_PAGE_SIZE - 1) < 4096) as Hp.
  { change (VIRTIO_PAGE_SIZE - 1) with (Z.ones 12). rewrite Z.land_ones by lia. by apply Z.mod_pos_bound. }
  change VIRTIO_PAGE_SIZE with 4096 in *. zcases.
Qed.

(** ** The memory copies *)
Lemma from_ram_ok fuel : forall σ buf pos a n p, region (mem_map σ) a n p -> n <= Z.of_nat fuel ->
  0 <= pos -> pos + n <= Z.of_nat (length buf) ->
  from_ram_loop fuel buf pos a n σ = Ok (0, splice (Z.to_nat pos) (load_bytes (host σ) p (Z.to_nat n)) buf) σ.
Proof.
  induction fuel as [|fuel IH]; intros σ buf pos a n p Hr Hf Hpos Hlen; cbn [from_ram_loop];
    destruct (rg_range _ _ _ _ Hr) as (Ha & Hn & Hend); (destruct (Z.ltb_spec 0 n) as [H0|H0]; [|
      assert (n = 0) as -> by lia; change (Z.to_nat 0) with 0%nat; cbn [load_bytes]; by rewrite splice_nil]); [lia|].
  pose proof (page_part_range a n H0) as Hl. set (l := page_part a n) in *. clearbody l. cbv zeta.
  unfold mbind, M_bind. rewrite (get_ram_ptr_region σ a n p) by (done || lia). rewrite Z.sub_diag, Z.add_0_r.
  unfold host_read_bytes. rewrite (host_ok_sub _ p n) by (first [apply (rg_ok _ _ _ _ Hr) | lia]).
  unfold buf_store. rewrite length_load_bytes, Z2Nat.id, (proj2 (Z.leb_le 0 pos)), (proj2 (Z.leb_le _ _)) by lia.
  cbn [andb]. unfold mret, M_ret.
  set (b1 := load_bytes (host σ) p (Z.to_nat l)). assert (length b1 = Z.to_nat l) as L1 by apply length_load_bytes.
  assert (length (splice (Z.to_nat pos) b1 buf) = length buf) as L2 by (apply length_splice; lia).
  assert (load_bytes (host σ) p (Z.to_nat n) = b1 ++ load_bytes (host σ) (p + l) (Z.to_nat (n - l))) as ->.
  { replace (Z.to_nat n) with (Z.to_nat l + Z.to_nat (n - l))%nat by lia. rewrite load_bytes_app. by rewrite Z2Nat.id by lia. }
  rewrite <- splice_splice by (rewrite length_load_bytes; lia). rewrite L1.
  replace (Z.to_nat pos + Z.to_nat l)%nat with (Z.to_nat (pos + l)) by lia.
  destruct (Z.eq_dec n l) as [->|Hne].
  { rewrite Z.sub_diag. change (Z.to_nat 0) with 0%nat. cbn [load_bytes]. rewrite splice_nil. by destruct fuel. }
  rewrite waddr_small by lia. apply IH; try lia. apply (region_sub _ a n p l (n - l)); [done|lia..].
Qed.
(** Storing into a region leaves the map alone. *)
Lemma to_ram_ok fuel : forall σ buf pos a n p, region (mem_map σ) a n p -> n <= Z.of_nat fuel ->
  0 <= pos -> pos + n <= Z.of_nat (length buf) ->
  to_ram_loop fuel a buf pos n σ =
  Ok 0 (upd_host (fun m => store_bytes m p (take (Z.to_nat n) (drop (Z.to_nat pos) buf))) σ).
Proof.
  induction fuel as [|fuel IH]; intros σ buf pos a n p Hr Hf Hpos Hlen; cbn [to_ram_loop];
    destruct (rg_range _ _ _ _ Hr) as (Ha & Hn & Hend); (destruct (Z.ltb_spec 0 n) as [H0|H0]; [|
      assert (n = 0) as -> by lia; change (Z.to_nat 0) with 0%nat; rewrite take_0; cbn [store_bytes]; by destruct σ]); [lia|].
  pose proof (page_part_range a n H0) as Hl. set (l := page_part a n) in *. clearbody l. cbv zeta.
  unfold mbind, M_bind. rewrite (get_ram_ptr_region σ a n p) by (done || lia). rewrite Z.sub_diag, Z.add_0_r.
  unfold buf_load. rewrite Z2Nat.id, (proj2 (Z.leb_le 0 pos)), (proj2 (Z.leb_le _ _)) by lia. cbn [andb]. unfold mret, M_ret.
  set (b1 := take (Z.to_nat l) (drop (Z.to_nat pos) buf)).
  assert (length b1 = Z.to_nat l) as L1 by (unfold b1; rewrite length_take, length_drop; lia).
  unfold host_write_bytes. rewrite L1, Z2Nat.id, (host_ok_sub _ p n) by (first [apply (rg_ok _ _ _ _ Hr) | lia]).
  assert (take (Z.to_nat n) (drop (Z.to_nat pos) buf) = b1 ++ take (Z.to_nat (n - l)) (drop (Z.to_nat (pos + l)) buf)) as ->.
  { replace (Z.to_nat n) with (Z.to_nat l + Z.to_nat (n - l))%nat by lia.
    replace (Z.to_nat (pos + l)) with (Z.to_nat pos + Z.to_nat l)%nat by lia.
    rewrite <- drop_drop. unfold b1. by rewrite take_take_drop. }
  destruct (Z.eq_dec n l) as [->|Hne].
  { rewrite Z.sub_diag. change (Z.to_nat 0) with 0%nat. rewrite take_0, app_nil_r. by destruct fuel. }
  rewrite waddr_small by lia. rewrite (IH _ buf (pos + l) (a + l) (n - l) (p + l)); try lia.
  - f_equal. unfold upd_host. cbn. f_equal. rewrite store_bytes_app, L1. by rewrite Z2Nat.id by lia.
  - cbn. apply (region_sub _ a n p l (n - l)); [done|lia..].
Qed.

(** ** Descriptors *)

(** Queue [q] is [qs], and its table of [N] descriptors stands at [pt] of the host. *)
Record vq (σ : Sys W) (q : Z) (qs : QueueState) (N pt : Z) : Prop := {
  vq_nonneg : 0 <= q;
  vq_queue : queue (vdev (world σ)) !! Z.to_nat q = Some qs;
  vq_table : region (mem_map σ) (desc_addr qs) (N * 16) pt;
}.
Definition desc_of (m : hmem) (pt i : Z) : list Z := load_bytes m (pt + i * 16) 16.
(** The descriptors linked behind [d]. *)
Inductive path (m : hmem) (N pt : Z) : list Z -> list (list Z) -> Prop :=
| path_nil d : path m N pt d []
| path_cons d ds : has_next d = true -> d_next d < N -> path m N pt (desc_of m pt (d_next d)) ds ->
    path m N pt d (desc_of m pt (d_next d) :: ds).
(** A descriptor and the host address of its buffer. *)
Definition seg_ok (map : PhysMemoryMap) (s : list Z * Z) : Prop :=
  region map (d_addr s.1) (d_len s.1) s.2 /\ d_len s.1 < 2 ^ 31 /\ length s.1 = 16%nat.
Definition seg_bytes (m : hmem) (s : list Z * Z) : list Z := load_bytes m s.2 (Z.to_nat (d_len s.1)).
Definition content (m : hmem) (segs : list (list Z * Z)) : list Z := concat (map (seg_bytes m) segs).
Definition total_len (segs : list (list Z * Z)) : Z := foldr (fun s n => d_len s.1 + n) 0 segs.
Definition all_dir (w : bool) (segs : list (list Z * Z)) : Prop := Forall (fun s => is_write s.1 = w) segs.

Lemma vq_host σ q qs N pt f : vq σ q qs N pt -> vq (upd_host f σ) q qs N pt.
Proof. intros [H1 H2 H3]. by split. Qed.
Lemma get_queue_ok σ q qs N pt : vq σ q qs N pt -> get_queue q σ = Ok qs σ.
Proof.
  intros [H1 H2 _]. unfold get_queue, getv, mbind, M_bind, gets. rewrite H2.
  by rewrite (proj2 (Z.ltb_ge q 0)).
Qed.
Lemma get_desc_ok σ q qs N pt i old : vq σ q qs N pt -> 0 <= i < N -> length old = 16%nat ->
  get_desc old q i σ = Ok (desc_of (host σ) pt i) σ.
Proof.
  intros Hq Hi Hl. unfold get_desc, mbind, M_bind. rewrite (get_queue_ok _ _ _ _ _ Hq).
  pose proof (region_sub _ _ _ _ (i * 16) 16 (vq_table _ _ _ _ _ Hq) ltac:(lia) ltac:(lia) ltac:(lia)) as Hr.
  destruct (rg_range _ _ _ _ Hr) as (Ha & _ & Hb). rewrite waddr_small by lia.
  unfold virtio_memcpy_from_ram. rewrite (from_ram_ok _ σ old 0 _ 16 (pt + i * 16) Hr) by lia.
  unfold mret, M_ret. cbn [snd]. f_equal. apply splice_all. rewrite Hl. apply length_load_bytes.
Qed.
Lemma d_next_nonneg d : 0 <= d_next d.
Proof. unfold d_next, get_le16. by apply fits_wrap. Qed.
Lemma d_len_range d : fits 32 (d_len d).
Proof. unfold d_len, get_le32. by apply fits_wrap. Qed.
Lemma total_nonneg segs : 0 <= total_len segs.
Proof. induction segs as [|s segs IH]; cbn; [lia|]. pose proof (d_len_range s.1) as []. unfold total_len in IH. lia. Qed.
Lemma length_seg m s : length (seg_bytes m s) = Z.to_nat (d_len s.1).
Proof. apply length_load_bytes. Qed.
Lemma length_content m segs : Z.of_nat (length (content m segs)) = total_len segs.
Proof.
  induction segs as [|s segs IH]; [done|]. unfold content, total_len in *. cbn [map concat foldr].
  rewrite length_app, length_seg, Nat2Z.inj_add, IH. pose proof (d_len_range s.1) as []. lia.
Qed.
Lemma bytes_content m segs : bytes (content m segs).
Proof. apply List.Forall_concat, List.Forall_map, List.Forall_forall. intros s _. apply load_bytes_bytes. Qed.
Lemma length_desc m pt i : length (desc_of m pt i) = 16%nat.
Proof. apply length_load_bytes. Qed.

(** ** Reading a chain *)
Definition io_ok (map : PhysMemoryMap) (w : bool) (segs : list (list Z * Z)) : Prop :=
  Forall (fun s => seg_ok map s /\ is_write s.1 = w) segs.
Lemma path_head m N pt d d' ds : path m N pt d (d' :: ds) ->
  has_next d = true /\ d_next d < N /\ d' = desc_of m pt (d_next d) /\ path m N pt d' ds.
Proof. intros H. inversion H; subst. done. Qed.
Lemma content_cons m s segs : content m (s :: segs) = seg_bytes m s ++ content m segs.
Proof. done. Qed.
Lemma total_cons s segs : total_len (s :: segs) = d_len s.1 + total_len segs.
Proof. done. Qed.
(** The bytes at an offset, when it lies in the first buffer. *)
Lemma load_part m p (n o k : Z) : 0 <= o -> 0 <= k -> o + k <= n ->
  load_bytes m (p + o) (Z.to_nat k) = take (Z.to_nat k) (drop (Z.to_nat o) (load_bytes m p (Z.to_nat n))).
Proof.
  intros Ho Hk Hn. replace (Z.to_nat n) with (Z.to_nat o + (Z.to_nat k + Z.to_nat (n - o - k)))%nat by lia.
  rewrite !load_bytes_app, drop_app_length' by (symmetry; apply length_load_bytes).
  rewrite take_app_length' by (symmetry; apply length_load_bytes). by rewrite Z2Nat.id by lia.
Qed.
Lemma min_int_eq a b : min_int a b = Z.min a b.
Proof. unfold min_int. zcases. Qed.
Lemma i32_small x : - 2 ^ 31 <= x < 2 ^ 31 -> i32 x = x.
Proof. intros. apply swrap_id; [lia|]. exact H. Qed.

(** A part of one buffer. *)
Lemma from_part σ d p buf pos offset l : seg_ok (mem_map σ) (d, p) -> 0 <= offset -> 0 <= l -> offset + l <= d_len d ->
  0 <= pos -> pos + l <= Z.of_nat (length buf) ->
  virtio_memcpy_from_ram buf pos (waddr (d_addr d + offset)) l σ =
  Ok (0, splice (Z.to_nat pos) (take (Z.to_nat l) (drop (Z.to_nat offset) (seg_bytes (host σ) (d, p)))) buf) σ.
Proof.
  intros (Hreg & _ & _) Ho Hl Hle Hpos Hlen. cbn [fst snd] in Hreg. unfold virtio_memcpy_from_ram.
  destruct (Z.eq_dec l 0) as [->|Hne].
  { change (Z.to_nat 0) with 0%nat. rewrite take_0, splice_nil. done. }
  pose proof (region_sub _ _ _ _ offset l Hreg Ho Hl Hle) as Hsub. destruct (rg_range _ _ _ _ Hsub) as (? & ? & ?).
  rewrite waddr_small by lia. rewrite (from_ram_ok _ σ buf pos _ l _ Hsub) by lia.
  unfold seg_bytes. cbn [fst snd]. by rewrite (load_part _ _ (d_len d)) by lia.
Qed.
Lemma to_part σ d p buf pos offset l : seg_ok (mem_map σ) (d, p) -> 0 <= offset -> 0 <= l -> offset + l <= d_len d ->
  0 <= pos -> pos + l <= Z.of_nat (length buf) ->
  virtio_memcpy_to_ram (waddr (d_addr d + offset)) buf pos l σ =
  Ok 0 (upd_host (fun m => store_bytes m (p + offset) (take (Z.to_nat l) (drop (Z.to_nat pos) buf))) σ).
Proof.
  intros (Hreg & _ & _) Ho Hl Hle Hpos Hlen. cbn [fst snd] in Hreg. unfold virtio_memcpy_to_ram.
  destruct (Z.eq_dec l 0) as [->|Hne].
  { change (Z.to_nat 0) with 0%nat. rewrite take_0. cbn. by destruct σ. }
  pose proof (region_sub _ _ _ _ offset l Hreg Ho Hl Hle) as Hsub. destruct (rg_range _ _ _ _ Hsub) as (? & ? & ?).
  rewrite waddr_small by lia. by rewrite (to_ram_ok _ σ buf pos _ l _ Hsub) by lia.
Qed.
(** Taking across the end of the first of two lists. *)
Lemma take_drop_split {A} (n o k : nat) (a b : list A) : length a = (o + k)%nat -> (k <= n)%nat ->
  take n (drop o (a ++ b)) = take k (drop o a) ++ take (n - k) b.
Proof.
  intros Ha Hk. rewrite drop_app_le by lia. assert (length (drop o a) = k) as L by (rewrite length_drop; lia).
  rewrite take_app. rewrite L. f_equal. rewrite !take_ge by lia. done.
Qed.
Lemma take_drop_inside {A} (n o : nat) (a b : list A) : (o + n <= length a)%nat ->
  take n (drop o (a ++ b)) = take n (drop o a).
Proof. intros H. rewrite drop_app_le by lia. rewrite take_app_le; [done|rewrite length_drop; lia]. Qed.

Lemma copy_from_ok segs : forall fuel σ q qs N pt d p buf pos offset count,
  vq σ q qs N pt -> path (host σ) N pt d (map fst segs) -> io_ok (mem_map σ) false ((d, p) :: segs) ->
  0 <= offset <= d_len d -> 0 < count < 2 ^ 31 -> offset + count <= total_len ((d, p) :: segs) ->
  0 <= pos -> pos + count <= Z.of_nat (length buf) -> (length segs < fuel)%nat ->
  copy_loop fuel q false d buf pos offset count σ =
  Ok (0, splice (Z.to_nat pos)
           (take (Z.to_nat count) (drop (Z.to_nat offset) (content (host σ) ((d, p) :: segs)))) buf) σ.
Proof.
  induction segs as [|[d' p'] segs IH]; intros fuel σ q qs N pt d p buf pos offset count Hq Hpath Hio Hoff Hcnt Htot Hpos Hlen Hf;
    (destruct fuel as [|fuel]; [simpl in Hf; lia|]); cbn [copy_loop];
    pose proof Hio as Hio'; apply Forall_cons_1 in Hio' as [[Hseg Hw] Hrest];
    pose proof (proj1 (proj2 Hseg)) as Hl31; cbn [fst] in Hl31;
    rewrite total_cons in Htot; cbn [fst] in Htot;
    rewrite (i32_small (d_len d - offset)), min_int_eq by lia; cbv zeta; unfold mbind, M_bind;
    rewrite (from_part σ d p) by (done || lia); cbv beta iota; cbn [snd]; unfold mret, M_ret;
    pose proof (length_seg (host σ) (d, p)) as Ls; cbn [fst] in Ls; rewrite content_cons.
  - cbn [total_len foldr] in Htot. rewrite Z.min_l, (i32_small (count - count)), Z.sub_diag by lia. cbn [Z.eqb].
    by rewrite take_drop_inside by lia.
  - destruct (Z.eq_dec (i32 (count - Z.min count (d_len d - offset))) 0) as [Hz|Hz].
    { rewrite Hz. rewrite i32_small in Hz by lia. cbn [Z.eqb].
      rewrite Z.min_l by lia. by rewrite take_drop_inside by lia. }
    rewrite (proj2 (Z.eqb_neq _ _) Hz). rewrite i32_small in Hz by lia. rewrite Z.min_r by lia.
    rewrite !i32_small by lia. replace (offset + (d_len d - offset)) with (d_len d) by lia.
    rewrite (wrap_fits 32 (d_len d)) by apply d_len_range. rewrite Z.eqb_refl.
    cbn [map fst] in Hpath. apply path_head in Hpath as (Hn & HN & -> & Hpath). rewrite Hn. cbn [negb].
    pose proof (d_next_nonneg d).
    rewrite (get_desc_ok σ q qs N pt) by (done || apply (proj2 (proj2 Hseg)) || lia).
    apply Forall_cons_1 in Hrest as Hrest'. destruct Hrest' as [[Hseg' Hw'] _]. cbn [fst] in Hw'. rewrite Hw'. cbn [Bool.eqb negb].
    set (l := d_len d - offset) in *. set (b1 := take _ _).
    assert (length b1 = Z.to_nat l) as L1 by (unfold b1; rewrite length_take, length_drop; lia).
    pose proof (d_len_range (desc_of (host σ) pt (d_next d))) as [].
    rewrite (IH fuel σ q qs N pt _ p' _ (pos + l) 0 (count - l)); try done; try lia.
    + f_equal. f_equal. rewrite drop_0.
      rewrite (take_drop_split _ _ (Z.to_nat l)) by lia. fold b1.
      replace (Z.to_nat (pos + l)) with (Z.to_nat pos + length b1)%nat by lia.
      rewrite splice_splice; [by replace (Z.to_nat count - Z.to_nat l)%nat with (Z.to_nat (count - l)) by lia|].
      rewrite L1, length_take. lia.
    + rewrite length_splice; lia.
    + simpl in Hf. lia.
Qed.

(** The position of an offset in a chain. *)
Record position (m : hmem) (N pt : Z) (segs : list (list Z * Z)) (offset : Z) (pre : list (list Z * Z))
    (d : list Z) (p : Z) (post : list (list Z * Z)) (o : Z) : Prop := {
  ps_split : segs = pre ++ (d, p) :: post;
  ps_offset : offset = total_len pre + o;
  ps_in : 0 <= o < d_len d;
  ps_path : path m N pt d (map fst post);
}.
Lemma find_offset_ok segs : forall fuel w σ q qs N pt d p offset,
  vq σ q qs N pt -> path (host σ) N pt d (map fst segs) -> io_ok (mem_map σ) w ((d, p) :: segs) ->
  0 <= offset < total_len ((d, p) :: segs) -> total_len ((d, p) :: segs) < 2 ^ 31 -> (length segs < fuel)%nat ->
  exists pre d' p' post o, find_offset fuel q w d offset σ = Ok (Some (d', o)) σ /\
    position (host σ) N pt ((d, p) :: segs) offset pre d' p' post o.
Proof.
  induction segs as [|[d2 p2] segs IH]; intros fuel w σ q qs N pt d p offset Hq Hpath Hio Hoff Htot Hf;
    (destruct fuel as [|fuel]; [simpl in Hf; lia|]); cbn [find_offset];
    pose proof Hio as Hio'; apply Forall_cons_1 in Hio' as [[Hseg Hw] Hrest]; cbn [fst] in Hw; rewrite Hw, eqb_reflx;
    cbn [negb]; rewrite total_cons in Hoff, Htot; cbn [fst] in Hoff, Htot;
    rewrite (wrap_fits 32 offset) by (split; lia); destruct (Z.ltb_spec offset (d_len d)) as [Hlt|Hge];
    try (exists [], d, p; eexists _, offset; split; [done|]; split; cbn; [done|lia|lia|done]).
  - cbn [total_len foldr] in Hoff. lia.
  - cbn [map fst] in Hpath. apply path_head in Hpath as (Hn & HN & -> & Hpath). rewrite Hn. cbn [negb].
    cbv zeta. unfold mbind, M_bind. pose proof (d_next_nonneg d). pose proof (d_len_range d) as [].
    rewrite (get_desc_ok σ q qs N pt) by (done || apply (proj2 (proj2 Hseg)) || lia).
    rewrite (i32_small (offset - d_len d)) by lia. pose proof (d_len_range d) as [].
    destruct (IH fuel w σ q qs N pt _ p2 (offset - d_len d) Hq Hpath Hrest) as (pre & d' & p' & post & o & E & [P1 P2 P3 P4]);
      [lia|lia|simpl in Hf; lia|].
    exists ((d, p) :: pre), d', p', post, o. split; [done|]. split; [by rewrite P1|rewrite total_cons; cbn [fst]; lia|done|done].
Qed.
Lemma content_app m a b : content m (a ++ b) = content m a ++ content m b.
Proof. unfold content. by rewrite map_app, concat_app. Qed.
Lemma total_app a b : total_len (a ++ b) = total_len a + total_len b.
Proof. induction a as [|s a IH]; cbn [app]; [done|]. rewrite !total_cons, IH. lia. Qed.
Lemma position_drop m N pt segs offset pre d p post o : position m N pt segs offset pre d p post o ->
  drop (Z.to_nat offset) (content m segs) = drop (Z.to_nat o) (content m ((d, p) :: post)).
Proof.
  intros [-> -> Ho _]. rewrite content_app. pose proof (length_content m pre) as L. pose proof (total_nonneg pre).
  replace (Z.to_nat (total_len pre + o)) with (length (content m pre) + Z.to_nat o)%nat by lia.
  by rewrite <- drop_drop, drop_app_length.
Qed.

(** The first descriptor of a chain, and the buffers of one direction behind it. *)
Record reads (σ : Sys W) (q : Z) (N pt idx : Z) (segs : list (list Z * Z)) : Prop := {
  rd_idx : 0 <= idx < N;
  rd_path : exists p rest, segs = (desc_of (host σ) pt idx, p) :: rest /\
    path (host σ) N pt (desc_of (host σ) pt idx) (map fst rest);
  rd_io : io_ok (mem_map σ) false segs;
  rd_total : total_len segs < 2 ^ 31;
}.
Lemma memcpy_from_queue_splice fuel σ q qs N pt idx segs buf offset count :
  vq σ q qs N pt -> reads σ q N pt idx segs -> 0 <= offset -> 0 < count -> offset + count <= total_len segs ->
  count <= Z.of_nat (length buf) -> (length segs <= fuel)%nat ->
  memcpy_from_queue fuel buf q idx offset count σ =
  Ok (0, splice 0 (take (Z.to_nat count) (drop (Z.to_nat offset) (content (host σ) segs))) buf) σ.
Proof.
  intros Hq [Hidx (p & rest & -> & Hpath) Hio Htot] Hoff Hcnt Hle Hbuf Hf.
  unfold memcpy_from_queue, memcpy_to_from_queue. rewrite (proj2 (Z.eqb_neq count 0)) by lia.
  unfold mbind, M_bind, uninit_buf, gets.
  rewrite (get_desc_ok σ q qs N pt) by (done || apply uninit_len). unfold mret, M_ret.
  destruct (find_offset_ok rest fuel false σ q qs N pt _ p offset Hq Hpath Hio ltac:(lia) Htot ltac:(simpl in Hf; lia))
    as (pre & d' & p' & post & o & -> & Hpos).
  rewrite (position_drop _ _ _ _ _ _ _ _ _ _ Hpos). destruct Hpos as [P1 P2 P3 P4].
  pose proof (total_nonneg pre). rewrite P1 in Hio, Htot, Hle. rewrite total_app, total_cons in Htot, Hle. cbn [fst] in Htot, Hle.
  assert (length post <= length rest)%nat as Hpl.
  { apply (f_equal length) in P1. rewrite length_app in P1. simpl in P1. lia. }
  apply Forall_app in Hio as [_ Hio]. pose proof (total_nonneg post).
  rewrite (copy_from_ok post fuel σ q qs N pt d' p' buf 0 o count) by (done || rewrite ?total_cons; cbn [fst length] in *; lia).
  done.
Qed.
Lemma memcpy_from_queue_ok fuel σ q qs N pt idx segs buf offset count :
  vq σ q qs N pt -> reads σ q N pt idx segs -> 0 <= offset -> 0 < count -> offset + count <= total_len segs ->
  Z.of_nat (length buf) = count -> (length segs <= fuel)%nat ->
  memcpy_from_queue fuel buf q idx offset count σ =
  Ok (0, take (Z.to_nat count) (drop (Z.to_nat offset) (content (host σ) segs))) σ.
Proof.
  intros Hq Hr Ho Hn Hle Hb Hf. rewrite (memcpy_from_queue_splice fuel σ q qs N pt idx segs) by (done || lia).
  do 2 f_equal. apply splice_all. rewrite length_take, length_drop. pose proof (length_content (host σ) segs). lia.
Qed.

(** ** Writing a chain *)
Fixpoint scatter (m : hmem) (segs : list (list Z * Z)) (offset : Z) (bs : list Z) : hmem :=
  match segs with
  | [] => m
  | s :: segs' =>
      let l := Z.to_nat (Z.min (Z.of_nat (length bs)) (d_len s.1 - offset)) in
      scatter (store_bytes m (s.2 + offset) (take l bs)) segs' 0 (drop l bs)
  end.
Definition apart (s : list Z * Z) (r : Z) (n : nat) : Prop := disjoint_from s.2 (Z.to_nat (d_len s.1)) r n.
Fixpoint separate (segs : list (list Z * Z)) : Prop :=
  match segs with
  | [] => True
  | s :: segs' => Forall (fun s' => apart s s'.2 (Z.to_nat (d_len s'.1))) segs' /\ separate segs'
  end.
Lemma scatter_cons m s segs o bs (l := Z.to_nat (Z.min (Z.of_nat (length bs)) (d_len s.1 - o))) :
  scatter m (s :: segs) o bs = scatter (store_bytes m (s.2 + o) (take l bs)) segs 0 (drop l bs).
Proof. done. Qed.
Lemma scatter_nil m segs o : scatter m segs o [] = m.
Proof.
  revert m o. induction segs as [|s segs IH]; intros m o; cbn [scatter]; [done|].
  rewrite take_nil, drop_nil. cbn [store_bytes]. apply IH.
Qed.
Definition in_head (segs : list (list Z * Z)) (o : Z) : Prop :=
  0 <= o /\ match segs with [] => True | s :: _ => o <= d_len s.1 end.
Lemma in_head_0 segs : in_head segs 0.
Proof. split; [lia|]. destruct segs; [done|apply d_len_range]. Qed.
Lemma scatter_other segs : forall m o bs r n, Forall (fun s => apart s r n) segs -> in_head segs o ->
  load_bytes (scatter m segs o bs) r n = load_bytes m r n.
Proof.
  induction segs as [|s segs IH]; intros m o bs r n Hd Ho; cbn [scatter]; [done|].
  apply Forall_cons_1 in Hd as [Hs Hd]. destruct Ho as [Ho Hle].
  rewrite IH by (done || apply in_head_0). apply load_store_disj.
  pose proof (d_len_range s.1) as []. unfold apart, disjoint_from in *. rewrite length_take. lia.
Qed.
Lemma seg_bytes_store m s o bs : 0 <= o -> o + Z.of_nat (length bs) <= d_len s.1 -> bytes bs ->
  seg_bytes (store_bytes m (s.2 + o) bs) s = splice (Z.to_nat o) bs (seg_bytes m s).
Proof.
  intros Ho Hl Hb. unfold seg_bytes, splice.
  replace (Z.to_nat (d_len s.1)) with (Z.to_nat o + (length bs + Z.to_nat (d_len s.1 - o - Z.of_nat (length bs))))%nat by lia.
  rewrite !load_bytes_app, !Z2Nat.id by lia. rewrite take_app_length' by (symmetry; apply length_load_bytes).
  rewrite load_store_bytes by done. rewrite !load_store_disj by (unfold disjoint_from; lia). do 2 f_equal.
  rewrite app_assoc, drop_app_length'; [done|]. rewrite length_app, !length_load_bytes. lia.
Qed.
Lemma content_scatter segs : forall m o bs, separate segs -> in_head segs o ->
  o + Z.of_nat (length bs) <= total_len segs -> bytes bs ->
  content (scatter m segs o bs) segs = splice (Z.to_nat o) bs (content m segs).
Proof.
  induction segs as [|s segs IH]; intros m o bs Hsep [Ho Hhead] Htot Hb; cbn [scatter].
  { cbn in Htot. assert (bs = []) as -> by (destruct bs; simpl in Htot; [done|lia]). by rewrite splice_nil. }
  destruct Hsep as [Hs Hsep]. rewrite total_cons in Htot. pose proof (d_len_range s.1) as []. pose proof (total_nonneg segs).
  set (l := Z.min (Z.of_nat (length bs)) (d_len s.1 - o)). set (m1 := store_bytes m (s.2 + o) (take (Z.to_nat l) bs)).
  assert (length (take (Z.to_nat l) bs) = Z.to_nat l) as L1 by (rewrite length_take; lia).
  rewrite !content_cons, IH; [|done|apply in_head_0|rewrite length_drop; lia|by apply Forall_drop].
  assert (content m1 segs = content m segs) as ->.
  { unfold content. f_equal. apply map_ext_in. intros s' Hin%list_elem_of_In. unfold seg_bytes, m1.
    rewrite list.Forall_forall in Hs. specialize (Hs s' Hin). apply load_store_disj.
    unfold apart, disjoint_from in *. rewrite L1. lia. }
  assert (seg_bytes (scatter m1 segs 0 (drop (Z.to_nat l) bs)) s = splice (Z.to_nat o) (take (Z.to_nat l) bs) (seg_bytes m s)) as ->.
  { unfold seg_bytes at 1. rewrite scatter_other; [|eapply Forall_impl; [|exact Hs]; intros s'; unfold apart, disjoint_from; lia|apply in_head_0].
    fold (seg_bytes m1 s). apply seg_bytes_store; [lia|lia|by apply Forall_take]. }
  pose proof (length_seg m s) as Ls. unfold splice. change (Z.to_nat 0) with 0%nat. rewrite take_0, L1. cbn [app Nat.add].
  rewrite take_app_le by lia. rewrite <- !app_assoc. f_equal. rewrite length_drop.
  destruct (Z.le_gt_cases (Z.of_nat (length bs)) (d_len s.1 - o)) as [Hc|Hc].
  - assert (Z.to_nat l = length bs) as -> by lia. rewrite take_ge, (drop_ge bs) by lia.
    rewrite Nat.sub_diag, drop_0, drop_app_le by lia. done.
  - assert (Z.to_nat l = Z.to_nat (d_len s.1 - o)) as -> by lia. rewrite (drop_ge (seg_bytes m s)) by lia. cbn [app].
    rewrite (drop_app_ge (seg_bytes m s)) by lia. rewrite app_assoc, take_drop. do 2 f_equal. lia.
Qed.

(** The buffers do not overlap the descriptor table. *)
Definition off_table (N pt : Z) (segs : list (list Z * Z)) : Prop :=
  Forall (fun s => apart s pt (Z.to_nat (N * 16))) segs.
Lemma path_host m m' N pt d ds : (forall i, 0 <= i < N -> desc_of m' pt i = desc_of m pt i) ->
  path m N pt d ds -> path m' N pt d ds.
Proof.
  intros H Hp. induction Hp as [|d ds Hn HN _ IH]; [constructor|].
  pose proof (d_next_nonneg d). rewrite <- (H (d_next d)) in IH |- * by lia. by constructor.
Qed.
Lemma desc_store m N pt i s o bs : apart s pt (Z.to_nat (N * 16)) -> 0 <= i < N -> 0 <= o ->
  o + Z.of_nat (length bs) <= d_len s.1 -> desc_of (store_bytes m (s.2 + o) bs) pt i = desc_of m pt i.
Proof.
  intros Ha Hi Ho Hl. apply load_store_disj. unfold apart, disjoint_from in *. lia.
Qed.
Lemma upd_host_comp (σ : Sys W) f g : upd_host g (upd_host f σ) = upd_host (fun m => g (f m)) σ.
Proof. done. Qed.

Lemma copy_to_ok segs : forall fuel σ q qs N pt d p buf pos offset count,
  vq σ q qs N pt -> path (host σ) N pt d (map fst segs) -> io_ok (mem_map σ) true ((d, p) :: segs) ->
  off_table N pt ((d, p) :: segs) ->
  0 <= offset <= d_len d -> 0 < count < 2 ^ 31 -> offset + count <= total_len ((d, p) :: segs) ->
  0 <= pos -> pos + count = Z.of_nat (length buf) -> (length segs < fuel)%nat ->
  copy_loop fuel q true d buf pos offset count σ =
  Ok (0, buf) (upd_host (fun _ => scatter (host σ) ((d, p) :: segs) offset (drop (Z.to_nat pos) buf)) σ).
Proof.
  induction segs as [|[d' p'] segs IH]; intros fuel σ q qs N pt d p buf pos offset count Hq Hpath Hio Hoffs Hoff Hcnt Htot Hpos Hlen Hf;
    (destruct fuel as [|fuel]; [simpl in Hf; lia|]); cbn [copy_loop];
    pose proof Hio as Hio'; apply Forall_cons_1 in Hio' as [[Hseg Hw] Hrest];
    pose proof (proj1 (proj2 Hseg)) as Hl31; cbn [fst] in Hl31;
    rewrite total_cons in Htot; cbn [fst] in Htot;
    rewrite (i32_small (d_len d - offset)), min_int_eq by lia; cbv zeta; unfold mbind, M_bind;
    rewrite (to_part σ d p) by (done || lia); cbv beta iota; unfold mret, M_ret; rewrite scatter_cons; cbn [fst snd];
    rewrite length_drop; replace (Z.of_nat (length buf - Z.to_nat pos)) with count by lia.
  - cbn [total_len foldr] in Htot. rewrite Z.min_l, (i32_small (count - count)), Z.sub_diag by lia. done.
  - destruct (Z.eq_dec (i32 (count - Z.min count (d_len d - offset))) 0) as [Hz|Hz].
    { rewrite Hz. rewrite i32_small in Hz by lia. cbn [Z.eqb]. rewrite Z.min_l by lia.
      rewrite (drop_ge (drop _ _)) by (rewrite length_drop; lia). by rewrite scatter_nil. }
    rewrite (proj2 (Z.eqb_neq _ _) Hz). rewrite i32_small in Hz by lia. rewrite Z.min_r by lia.
    rewrite !i32_small by lia. replace (offset + (d_len d - offset)) with (d_len d) by lia.
    rewrite (wrap_fits 32 (d_len d)) by apply d_len_range. rewrite Z.eqb_refl.
    cbn [map fst] in Hpath. apply path_head in Hpath as (Hn & HN & -> & Hpath). rewrite Hn. cbn [negb].
    pose proof (d_next_nonneg d). set (l := d_len d - offset) in *.
    set (b1 := take (Z.to_nat l) (drop (Z.to_nat pos) buf)).
    assert (length b1 = Z.to_nat l) as L1 by (unfold b1; rewrite length_take, length_drop; lia).
    set (σ1 := upd_host _ σ). apply Forall_cons_1 in Hoffs as [Hoff1 Hoffs].
    assert (forall i, 0 <= i < N -> desc_of (host σ1) pt i = desc_of (host σ) pt i) as Hdesc.
    { intros i Hi. apply (desc_store _ N pt i (d, p)); cbn [fst]; [exact Hoff1|done|lia|rewrite L1; lia]. }
    assert (vq σ1 q qs N pt) as Hq1 by (by apply vq_host).
    rewrite (get_desc_ok σ1 q qs N pt) by (done || apply (proj2 (proj2 Hseg)) || lia). rewrite Hdesc by lia.
    apply Forall_cons_1 in Hrest as Hrest'. destruct Hrest' as [[Hseg' Hw'] _]. cbn [fst] in Hw'. rewrite Hw'. cbn [Bool.eqb negb].
    pose proof (d_len_range (desc_of (host σ) pt (d_next d))) as [].
    rewrite (IH fuel σ1 q qs N pt _ p' _ (pos + l) 0 (count - l)); try done; try lia.
    + f_equal. unfold σ1, upd_host. cbn [host mem_map cpu world]. f_equal.
      replace (Z.to_nat (pos + l)) with (Z.to_nat pos + Z.to_nat l)%nat by lia. by rewrite drop_drop.
    + eapply path_host; [|exact Hpath]. exact Hdesc.
    + simpl in Hf. lia.
Qed.

(** The chain of [idx]: readable descriptors, then the writable buffers [segs]. *)
Record writes (σ : Sys W) (q : Z) (N pt idx : Z) (rs : list (list Z)) (segs : list (list Z * Z)) : Prop := {
  wr_idx : 0 <= idx < N;
  wr_path : exists tl, desc_of (host σ) pt idx :: tl = rs ++ map fst segs /\ path (host σ) N pt (desc_of (host σ) pt idx) tl;
  wr_reads : Forall (fun d => is_write d = false) rs;
  wr_io : io_ok (mem_map σ) true segs;
  wr_separate : separate segs;
  wr_table : off_table N pt segs;
  wr_total : total_len segs < 2 ^ 31;
}.
Lemma find_write_ok rs : forall fuel σ q qs N pt d tl dw ds, vq σ q qs N pt ->
  d :: tl = rs ++ dw :: ds -> path (host σ) N pt d tl -> length d = 16%nat ->
  Forall (fun d => is_write d = false) rs -> is_write dw = true -> (length rs < fuel)%nat ->
  find_write_desc fuel q d σ = Ok (Some dw) σ /\ path (host σ) N pt dw ds.
Proof.
  induction rs as [|d0 rs IH]; intros fuel σ q qs N pt d tl dw ds Hq Heq Hp H16 Hrs Hw Hf;
    (destruct fuel as [|fuel]; [simpl in Hf; lia|]); cbn [find_write_desc app] in *.
  - injection Heq as -> ->. rewrite Hw. done.
  - injection Heq as -> ->. apply Forall_cons_1 in Hrs as [H0 Hrs]. rewrite H0.
    destruct (rs ++ dw :: ds) as [|d1 tl] eqn:E; [by destruct rs|].
    apply path_head in Hp as (Hn & HN & -> & Hp). rewrite Hn. cbn [negb]. unfold mbind, M_bind.
    pose proof (d_next_nonneg d0). rewrite (get_desc_ok σ q qs N pt) by (done || lia).
    apply (IH fuel σ q qs N pt _ tl dw ds); [done|by rewrite <- E|done|apply length_desc|done|done|simpl in Hf; lia].
Qed.
Lemma separate_app a b : separate (a ++ b) -> separate b /\
  Forall (fun s => Forall (fun s' => apart s s'.2 (Z.to_nat (d_len s'.1))) b) a.
Proof.
  induction a as [|s a IH]; cbn [app separate]; [done|]. intros [Hs Hsep]. destruct (IH Hsep) as [H1 H2].
  split; [done|]. apply Forall_app in Hs as [_ Hs]. by constructor.
Qed.
Lemma splice_app_r (a b : list Z) o src : splice (length a + o) src (a ++ b) = a ++ splice o src b.
Proof.
  unfold splice. rewrite take_app_ge, <- app_assoc by lia. replace (length a + o - length a)%nat with o by lia.
  rewrite <- Nat.add_assoc, <- drop_drop, drop_app_length. done.
Qed.
Lemma apart_sym s s' : apart s s'.2 (Z.to_nat (d_len s'.1)) -> apart s' s.2 (Z.to_nat (d_len s.1)).
Proof. unfold apart, disjoint_from. lia. Qed.
Lemma scatter_position σ segs offset buf N pt pre d p post o : separate segs ->
  position (host σ) N pt segs offset pre d p post o -> offset + Z.of_nat (length buf) <= total_len segs -> bytes buf ->
  content (scatter (host σ) ((d, p) :: post) o buf) segs = splice (Z.to_nat offset) buf (content (host σ) segs).
Proof.
  intros Hsep [-> -> Ho _] Htot Hb. rewrite total_app in Htot. pose proof (total_nonneg pre).
  apply separate_app in Hsep as [Hsep Hpre]. rewrite !content_app.
  assert (in_head ((d, p) :: post) o) as Hh by (split; cbn [fst]; lia).
  rewrite content_scatter by (done || lia). pose proof (length_content (host σ) pre) as L.
  replace (Z.to_nat (total_len pre + o)) with (length (content (host σ) pre) + Z.to_nat o)%nat by lia.
  rewrite splice_app_r. f_equal. unfold content. f_equal. apply map_ext_in. intros s Hin%list_elem_of_In.
  rewrite list.Forall_forall in Hpre. specialize (Hpre s Hin). unfold seg_bytes. apply scatter_other; [|done].
  eapply Forall_impl; [|exact Hpre]. intros s'. apply apart_sym.
Qed.
Lemma memcpy_to_queue_ok fuel σ q qs N pt idx rs segs offset buf :
  vq σ q qs N pt -> writes σ q N pt idx rs segs -> bytes buf -> 0 <= offset ->
  0 < Z.of_nat (length buf) -> offset + Z.of_nat (length buf) <= total_len segs -> (length rs + length segs < fuel)%nat ->
  exists m', memcpy_to_queue fuel q idx offset buf (Z.of_nat (length buf)) σ = Ok 0 (upd_host (fun _ => m') σ) /\
    content m' segs = splice (Z.to_nat offset) buf (content (host σ) segs) /\
    forall r n, Forall (fun s => apart s r n) segs -> load_bytes m' r n = load_bytes (host σ) r n.
Proof.
  intros Hq [Hidx (tl & Etl & Hp) Hrs Hio Hsep Htab Htot] Hb Hoff Hcnt Hle Hf.
  destruct segs as [|[dw pw] segs]; [cbn in Hle; lia|]. cbn [map fst] in Etl.
  pose proof Hio as Hio'. apply Forall_cons_1 in Hio' as [[_ Hw] _]. cbn [fst] in Hw.
  unfold memcpy_to_queue, memcpy_to_from_queue. rewrite (proj2 (Z.eqb_neq (Z.of_nat (length buf)) 0)) by lia.
  unfold mbind, M_bind, uninit_buf, gets. rewrite (get_desc_ok σ q qs N pt) by (done || apply uninit_len).
  destruct (find_write_ok rs fuel σ q qs N pt _ tl dw (map fst segs) Hq Etl Hp ltac:(apply length_desc) Hrs Hw ltac:(simpl in Hf; lia))
    as [-> Hpw].
  destruct (find_offset_ok segs fuel true σ q qs N pt dw pw offset Hq Hpw Hio ltac:(lia) Htot ltac:(simpl in Hf; lia))
    as (pre & d' & p' & post & o & -> & Hpos).
  pose proof Hpos as [P1 P2 P3 P4]. pose proof Hle as Hle2. pose proof (total_nonneg post). pose proof (total_nonneg pre).
  rewrite P1 in Hio, Htot, Hle2, Htab. rewrite total_app, total_cons in Htot, Hle2. cbn [fst] in Htot, Hle2.
  assert (length post <= length segs)%nat as Hpl by (apply (f_equal length) in P1; rewrite length_app in P1; simpl in P1; lia).
  apply Forall_app in Hio as [_ Hio]. apply Forall_app in Htab as [_ Htab].
  rewrite (copy_to_ok post fuel σ q qs N pt d' p' buf 0 o _) by (done || rewrite ?total_cons; cbn [fst length] in *; lia).
  unfold mret, M_ret. cbn [fst]. change (Z.to_nat 0) with 0%nat. rewrite drop_0.
  exists (scatter (host σ) ((d', p') :: post) o buf). split; [done|]. split; [by eapply scatter_position|].
  intros r n Hr. rewrite P1 in Hr. apply Forall_app in Hr as [_ Hr]. apply scatter_other; [done|]. split; cbn [fst]; lia.
Qed.
End Facts.
