(* ===== verification/VirtioReply.v ===== *)
(** * VIRTIO: a chain of the available ring, and the answer on the used ring

    What every device with a state of its own shares: words of guest memory, the sizes of a
    chain, the entry of the used ring, one notification. *)
From S2P Require Export VirtioFacts.
#[local] Open Scope Z_scope.

(** The state of the device and its other state [st] have their places on the board, and the
    interrupt line is set to the level it is given. *)
Class VirtioLaws (W : Type) `{!VirtioBoard W} {St : Type} (st : W -> St) (st_set : St -> W -> W) := {
  vdev_vset : forall d w, vdev (vset d w) = d;
  st_vset : forall d w, st (vset d w) = st w;
  vdev_st_set : forall b w, vdev (st_set b w) = vdev w;
  st_st_set : forall b w, st (st_set b w) = b;
  irq_line : W -> bool;
  irq_vset : forall d w, irq_line (vset d w) = irq_line w;
  irq_st_set : forall b w, irq_line (st_set b w) = irq_line w;
  set_irq_ok : forall v σ, exists σ', set_irq v σ = Ok tt σ' /\ mem_map σ' = mem_map σ /\ host σ' = host σ /\
    vdev (world σ') = vdev (world σ) /\ st (world σ') = st (world σ) /\ irq_line (world σ') = negb (v =? 0);
}.

Section Facts.
Context `{cfg : Config} `{vcfg : VirtioConfig} {W : Type} `{board : !VirtioBoard W}.
Local Abbreviation MS := (M (Sys W)).
Implicit Types σ : Sys W.

(** ** Words of guest memory *)
Lemma region_word σ a n p o (k : nat) : region (mem_map σ) a n p -> 0 <= o -> o + Z.of_nat k <= n ->
  host_ok (ram_objs (mem_map σ)) (p + o) (Z.of_nat k) = true.
Proof. intros Hr Ho Hk. apply (rg_ok _ _ _ _ (region_sub _ _ _ _ o (Z.of_nat k) Hr Ho ltac:(lia) Hk)). Qed.
Lemma waddr_region map a n p o : region map a n p -> 0 <= o < n -> waddr (a + o) = a + o.
Proof. intros Hr Ho. destruct (rg_range _ _ _ _ Hr) as (? & ? & ?). apply waddr_small. lia. Qed.
Lemma even_land a : a mod 2 = 0 -> nz (a .& 1) = false.
Proof. intros H. unfold nz. change 1 with (Z.ones 1). rewrite Z.land_ones by lia. change (2 ^ 1) with 2. by rewrite H. Qed.
Lemma mult4_land a : a mod 4 = 0 -> nz (a .& 3) = false.
Proof. intros H. unfold nz. change 3 with (Z.ones 2). rewrite Z.land_ones by lia. change (2 ^ 2) with 4. by rewrite H. Qed.
Lemma read16_ok σ a n p o : region (mem_map σ) a n p -> 0 <= o -> o + 2 <= n -> (a + o) mod 2 = 0 ->
  virtio_read16 (waddr (a + o)) σ = Ok (host_load (host σ) (p + o) 2) σ.
Proof.
  intros Hr Ho Hn Ha. rewrite (waddr_region _ _ _ _ _ Hr) by lia. unfold virtio_read16. rewrite even_land by done.
  unfold mbind, M_bind. rewrite (get_ram_ptr_region σ a n p) by (done || lia). unfold host_read.
  replace (p + (a + o - a)) with (p + o) by lia. by rewrite (region_word σ a n p o 2) by (done || lia).
Qed.
Lemma write16_ok σ a n p o v : region (mem_map σ) a n p -> 0 <= o -> o + 2 <= n -> (a + o) mod 2 = 0 ->
  virtio_write16 (waddr (a + o)) v σ = Ok tt (upd_host (fun m => host_store m (p + o) 2 v) σ).
Proof.
  intros Hr Ho Hn Ha. rewrite (waddr_region _ _ _ _ _ Hr) by lia. unfold virtio_write16. rewrite even_land by done.
  unfold mbind, M_bind. rewrite (get_ram_ptr_region σ a n p) by (done || lia). unfold host_write.
  replace (p + (a + o - a)) with (p + o) by lia. by rewrite (region_word σ a n p o 2) by (done || lia).
Qed.
Lemma write32_ok σ a n p o v : region (mem_map σ) a n p -> 0 <= o -> o + 4 <= n -> (a + o) mod 4 = 0 ->
  virtio_write32 (waddr (a + o)) v σ = Ok tt (upd_host (fun m => host_store m (p + o) 4 v) σ).
Proof.
  intros Hr Ho Hn Ha. rewrite (waddr_region _ _ _ _ _ Hr) by lia. unfold virtio_write32. rewrite mult4_land by done.
  unfold mbind, M_bind. rewrite (get_ram_ptr_region σ a n p) by (done || lia). unfold host_write.
  replace (p + (a + o - a)) with (p + o) by lia. by rewrite (region_word σ a n p o 4) by (done || lia).
Qed.

(** ** The sizes of a chain *)
Lemma last_cons_dflt {A} (x d : A) l : List.last (x :: l) d = List.last l x.
Proof. revert x d. induction l as [|y l IH]; intros x d; [done|]. change (List.last (y :: l) d = List.last (y :: l) x). by rewrite !IH. Qed.
Lemma rw_write_ok segs : forall fuel σ q qs N pt d p r w, vq σ q qs N pt ->
  path (host σ) N pt d (map fst segs) -> io_ok (mem_map σ) true ((d, p) :: segs) ->
  has_next (List.last (map fst segs) d) = false -> 0 <= w -> w + total_len ((d, p) :: segs) < 2 ^ 31 -> (length segs < fuel)%nat ->
  rw_write_loop fuel q d r w σ = Ok (Some (r, w + total_len ((d, p) :: segs))) σ.
Proof.
  induction segs as [|[d2 p2] segs IH]; intros fuel σ q qs N pt d p r w Hq Hpath Hio Hlast Hw Htot Hf;
    (destruct fuel as [|fuel]; [simpl in Hf; lia|]); cbn [rw_write_loop];
    pose proof Hio as Hio'; apply Forall_cons_1 in Hio' as [[Hseg Hdir] Hrest]; cbn [fst] in Hdir; rewrite Hdir;
    cbn [negb]; rewrite total_cons in *; cbn [fst] in *; pose proof (d_len_range d) as []; cbv zeta.
  - cbn [map last] in Hlast. rewrite Hlast. cbn [negb total_len foldr] in *. rewrite i32_small by lia. do 4 f_equal. lia.
  - cbn [map fst] in Hpath. apply path_head in Hpath as (Hn & HN & -> & Hpath). rewrite Hn. cbn [negb].
    unfold mbind, M_bind. pose proof (d_next_nonneg d). pose proof (total_nonneg ((desc_of (host σ) pt (d_next d), p2) :: segs)).
    rewrite (get_desc_ok σ q qs N pt) by (done || apply (proj2 (proj2 Hseg)) || lia).
    rewrite (i32_small (w + d_len d)) by lia.
    rewrite (IH fuel σ q qs N pt _ p2 r (w + d_len d) Hq Hpath Hrest); [by rewrite Z.add_assoc| |lia|lia|simpl in Hf; lia].
    cbn [map fst] in Hlast. by rewrite last_cons_dflt in Hlast.
Qed.

(** The chain of [idx]: the readable buffers [rs], then the writable ones [ws]; nothing
    follows them. *)
Record chain (σ : Sys W) (N pt idx : Z) (rs ws : list (list Z * Z)) : Prop := {
  ch_idx : 0 <= idx < N;
  ch_path : exists tl, desc_of (host σ) pt idx :: tl = map fst rs ++ map fst ws /\
    path (host σ) N pt (desc_of (host σ) pt idx) tl /\ has_next (List.last tl (desc_of (host σ) pt idx)) = false;
  ch_reads : io_ok (mem_map σ) false rs;
  ch_writes : io_ok (mem_map σ) true ws;
  ch_separate : separate ws;
  ch_table : off_table N pt ws;
  ch_total : total_len rs + total_len ws < 2 ^ 31;
}.
Lemma rw_read_ok rs : forall fuel σ q qs N pt d tl r ws, vq σ q qs N pt ->
  d :: tl = map fst rs ++ map fst ws -> path (host σ) N pt d tl -> has_next (List.last tl d) = false ->
  io_ok (mem_map σ) false rs -> io_ok (mem_map σ) true ws -> length d = 16%nat -> 0 <= r ->
  r + total_len rs < 2 ^ 31 -> (length rs < fuel)%nat ->
  rw_read_loop fuel q d r σ =
    Ok (match ws with [] => inr (r + total_len rs, 0) | w :: _ => inl (w.1, r + total_len rs) end) σ /\
  match ws with [] => True
  | w :: ws' => path (host σ) N pt w.1 (map fst ws') /\ has_next (List.last (map fst ws') w.1) = false end.
Proof.
  induction rs as [|[d0 p0] rs IH]; intros fuel σ q qs N pt d tl r ws Hq Heq Hp Hlast Hrs Hws H16 Hr Htot Hf;
    (destruct fuel as [|fuel]; [simpl in Hf; lia|]); cbn [rw_read_loop map app fst] in *.
  - destruct ws as [|w ws]; [done|]. cbn [map] in Heq. injection Heq as -> ->.
    apply Forall_cons_1 in Hws as [[_ Hw] _]. rewrite Hw. cbn. by rewrite Z.add_0_r.
  - injection Heq as -> ->. apply Forall_cons_1 in Hrs as [[_ H0] Hrs]. cbn [fst] in H0. rewrite H0.
    rewrite total_cons in *. cbn [fst] in *. pose proof (d_len_range d0) as []. pose proof (total_nonneg rs).
    rewrite (i32_small (r + d_len d0)) by lia. cbv zeta. destruct (map fst rs ++ map fst ws) as [|d1 tl] eqn:E.
    + apply app_eq_nil in E as [E1%map_eq_nil E2%map_eq_nil]. subst. cbn [List.last] in Hlast. rewrite Hlast. cbn. by rewrite Z.add_0_r.
    + apply path_head in Hp as (Hn & HN & -> & Hp). rewrite Hn. cbn [negb]. unfold mbind, M_bind.
      pose proof (d_next_nonneg d0). rewrite (get_desc_ok σ q qs N pt) by (done || lia).
      destruct (IH fuel σ q qs N pt _ tl (r + d_len d0) ws Hq (eq_sym E) Hp) as [-> Hw]; try done; try (simpl in Hf; lia).
      * by rewrite last_cons_dflt in Hlast.
      * by rewrite Z.add_assoc.
Qed.
Lemma rw_size_ok fuel σ q qs N pt idx rs ws : vq σ q qs N pt -> chain σ N pt idx rs ws ->
  (length rs + length ws < fuel)%nat -> get_desc_rw_size fuel q idx σ = Ok (Some (total_len rs, total_len ws)) σ.
Proof.
  intros Hq [Hi (tl & Heq & Hp & Hlast) Hrs Hws _ _ Htot] Hf. unfold get_desc_rw_size, mbind, M_bind, uninit_buf, gets.
  rewrite (get_desc_ok σ q qs N pt) by (done || apply uninit_len). pose proof (total_nonneg rs). pose proof (total_nonneg ws).
  destruct (rw_read_ok rs fuel σ q qs N pt _ tl 0 ws Hq Heq Hp Hlast Hrs Hws ltac:(apply length_desc)) as [-> Hw]; try lia.
  destruct ws as [|[dw pw] ws]; [done|]. cbn [fst length] in *. destruct Hw as [Hw Hl].
  rewrite (rw_write_ok ws fuel σ q qs N pt dw pw) by (done || lia). done.
Qed.
Lemma path_app m N pt d a b : path m N pt d (a ++ b) -> path m N pt d a.
Proof.
  revert d. induction a as [|x a IH]; intros d H; [constructor|]. cbn [app] in H.
  apply path_head in H as (Hn & HN & -> & H). constructor; auto.
Qed.
Lemma chain_reads σ q N pt idx r rs ws : chain σ N pt idx (r :: rs) ws -> reads σ q N pt idx (r :: rs).
Proof.
  intros [Hi (tl & Heq & Hp & _) Hrs _ _ _ Htot]. pose proof (total_nonneg ws).
  destruct r as [d p]. cbn [map app fst] in Heq. injection Heq as <- ->.
  split; [done|exists p, rs; split; [done|by eapply path_app]|done|lia].
Qed.
Lemma chain_writes σ q N pt idx rs ws : chain σ N pt idx rs ws -> writes σ q N pt idx (map fst rs) ws.
Proof.
  intros [Hi (tl & Heq & Hp & _) Hrs Hws Hs Ht Htot]. pose proof (total_nonneg rs).
  split; [done|by exists tl| |done|done|done|lia]. apply List.Forall_map. eapply Forall_impl; [|exact Hrs]. by intros s [].
Qed.

(** ** The used ring *)
Definition used_slot (m : hmem) (pu num : Z) : Z := host_load m (pu + 2) 2 .& (num - 1).
(** The head [idx] and the length [len] become the next entry. *)
Definition used_put (m : hmem) (pu num idx len : Z) : hmem :=
  let e := pu + 4 + used_slot m pu num * 8 in
  host_store (host_store (host_store m (pu + 2) 2 (u16 (host_load m (pu + 2) 2 + 1))) e 4 (u32 idx)) (e + 4) 4 (u32 len).
Lemma used_slot_range m pu num : 0 < num -> 0 <= used_slot m pu num < num.
Proof.
  intros H. pose proof (land_range (host_load m (pu + 2) 2) (num - 1)). unfold used_slot. lia.
Qed.
Lemma used_put_other m pu num idx len p n : 0 < num -> disjoint_from pu (Z.to_nat (4 + 8 * num)) p n ->
  load_bytes (used_put m pu num idx len) p n = load_bytes m p n.
Proof.
  intros Hn Hd. pose proof (used_slot_range m pu num Hn). apply load_bytes_ext. intros q Hq. unfold used_put. cbv zeta.
  unfold disjoint_from in Hd. rewrite !host_byte_store, !decide_False by lia. done.
Qed.
Lemma used_put_frame m pu num idx len p n : disjoint_from (pu + 2) 2 p n ->
  disjoint_from (pu + 4 + used_slot m pu num * 8) 8 p n -> load_bytes (used_put m pu num idx len) p n = load_bytes m p n.
Proof.
  intros H1 H2. apply load_bytes_ext. intros q Hq. unfold used_put. cbv zeta.
  unfold disjoint_from in *. rewrite !host_byte_store, !decide_False by lia. done.
Qed.
Lemma used_put_entry m pu num idx len (e := pu + 4 + used_slot m pu num * 8) (m' := used_put m pu num idx len) : 0 < num ->
  host_load m' (pu + 2) 2 = u16 (host_load m (pu + 2) 2 + 1) /\ host_load m' e 4 = u32 idx /\ host_load m' (e + 4) 4 = u32 len.
Proof.
  intros Hn. pose proof (used_slot_range m pu num Hn). unfold m', used_put. cbv zeta. fold e.
  rewrite host_load_store_eq. rewrite !(host_load_store_disj _ (e + 4)) by lia. rewrite host_load_store_eq.
  rewrite host_load_store_disj by lia. rewrite host_load_store_eq. by rewrite !wrap_wrap by lia.
Qed.

(** The used ring of a queue of [num] entries stands at [pu] of the host. *)
Record used_ring (σ : Sys W) (qs : QueueState) (pu : Z) : Prop := {
  ur_num : 0 < qnum qs <= 2 ^ 15;
  ur_align : used_addr qs mod 4 = 0;
  ur_region : region (mem_map σ) (used_addr qs) (4 + 8 * qnum qs) pu;
}.
Context {St : Type} {st : W -> St} {st_set : St -> W -> W} `{laws : !VirtioLaws W st st_set}.
(** The last steps: the device is stored, and the line raised. *)
Definition raised (σ σ' : Sys W) : Prop := exists σ0 d, set_irq 1 σ0 = Ok tt σ' /\ world σ0 = vset d (world σ).
Lemma consume_at σ q qs pu idx len : get_queue q σ = Ok qs σ -> used_ring σ qs pu ->
  exists σ', virtio_consume_desc q idx len σ = Ok tt σ' /\ mem_map σ' = mem_map σ /\
    host σ' = used_put (host σ) pu (qnum qs) idx len /\
    vdev (world σ') = with_int_status (int_status (vdev (world σ)) .| 1) (vdev (world σ)) /\
    st (world σ') = st (world σ) /\ irq_line (world σ') = true /\ raised σ σ'.
Proof.
  intros Hq [Hn Ha Hr]. unfold virtio_consume_desc, mbind, M_bind. rewrite Hq.
  rewrite (read16_ok σ _ _ pu 2 Hr) by (try lia; Z.div_mod_to_equations; lia).
  rewrite (write16_ok σ _ _ pu 2 _ Hr) by (try lia; Z.div_mod_to_equations; lia).
  set (i := host_load (host σ) (pu + 2) 2). cbv zeta.
  rewrite (wrap_fits 32 (qnum qs - 1)) by (split; lia).
  pose proof (land_range i (qnum qs - 1) ltac:(lia)) as Hs. set (s := i .& (qnum qs - 1)) in *.
  rewrite (wrap_fits 32 (s * 8)) by (split; lia). set (σ1 := upd_host _ σ).
  assert (region (mem_map σ1) (used_addr qs) (4 + 8 * qnum qs) pu) as Hr1 by exact Hr.
  replace (used_addr qs + 4 + s * 8) with (used_addr qs + (4 + s * 8)) by lia.
  rewrite (write32_ok σ1 _ _ pu (4 + s * 8) _ Hr1) by (try lia; Z.div_mod_to_equations; lia).
  rewrite (waddr_region _ _ _ _ (4 + s * 8) Hr) by lia. set (σ2 := upd_host _ σ1).
  assert (region (mem_map σ2) (used_addr qs) (4 + 8 * qnum qs) pu) as Hr2 by exact Hr.
  replace (used_addr qs + (4 + s * 8) + 4) with (used_addr qs + (8 + s * 8)) by lia.
  rewrite (write32_ok σ2 _ _ pu (8 + s * 8) _ Hr2) by (try lia; Z.div_mod_to_equations; lia).
  set (σ3 := upd_host _ σ2). unfold updv, modify.
  set (σ4 := upd_world _ σ3). destruct (set_irq_ok 1 σ4) as (σ' & E0 & E1 & E2 & E3 & E4 & E5). exists σ'. rewrite E0.
  split; [done|]. rewrite E1, E2, E3, E4, E5. split; [done|]. split.
  - unfold used_put, used_slot. cbv zeta. subst σ4 σ3 σ2 σ1. cbn [host upd_host upd_world]. fold i. fold s.
    replace (pu + 4 + s * 8) with (pu + (4 + s * 8)) by lia. by replace (pu + (4 + s * 8) + 4) with (pu + (8 + s * 8)) by lia.
  - subst σ4. cbn. rewrite vdev_vset, st_vset. repeat (split; [done|]). eexists _, _. split; [exact E0|done].
Qed.
Lemma consume_ok σ q qs N pt pu idx len : vq σ q qs N pt -> used_ring σ qs pu ->
  exists σ', virtio_consume_desc q idx len σ = Ok tt σ' /\ mem_map σ' = mem_map σ /\
    host σ' = used_put (host σ) pu (qnum qs) idx len /\
    vdev (world σ') = with_int_status (int_status (vdev (world σ)) .| 1) (vdev (world σ)) /\
    st (world σ') = st (world σ) /\ irq_line (world σ') = true /\ raised σ σ'.
Proof. intros Hq. apply consume_at. by eapply get_queue_ok. Qed.
(** The index of the next chain is read at its place of the available ring. *)
Lemma avail_desc_ok σ qs pa : 0 < qnum qs <= 2 ^ 15 -> avail_addr qs mod 2 = 0 ->
  region (mem_map σ) (avail_addr qs) (4 + 2 * qnum qs) pa ->
  avail_desc qs σ = Ok (host_load (host σ) (pa + 4 + (last_avail_idx qs .& (qnum qs - 1)) * 2) 2) σ.
Proof.
  intros Hn Ha Hr. unfold avail_desc. rewrite (wrap_fits 32 (qnum qs - 1)) by (split; lia).
  pose proof (land_range (last_avail_idx qs) (qnum qs - 1) ltac:(lia)) as Hs. set (s := last_avail_idx qs .& (qnum qs - 1)) in *.
  rewrite (wrap_fits 32 (s * 2)) by (split; lia). replace (avail_addr qs + 4 + s * 2) with (avail_addr qs + (4 + s * 2)) by lia.
  rewrite (read16_ok σ _ _ pa (4 + s * 2) Hr) by (try lia; Z.div_mod_to_equations; lia).
  by replace (pa + (4 + s * 2)) with (pa + 4 + s * 2) by lia.
Qed.

(** ** What a step of a device keeps *)
Definition same (σ σ' : Sys W) : Prop :=
  mem_map σ' = mem_map σ /\ host σ' = host σ /\ vdev (world σ') = vdev (world σ).
Lemma vq_same σ σ' q qs N pt : same σ σ' -> vq σ q qs N pt -> vq σ' q qs N pt.
Proof. intros (E1 & _ & E3) [H1 H2 H3]. split; [done|by rewrite E3|by rewrite E1]. Qed.
Lemma used_ring_same σ σ' qs pu : mem_map σ' = mem_map σ -> used_ring σ qs pu -> used_ring σ' qs pu.
Proof. intros E [H1 H2 H3]. split; [done|done|by rewrite E]. Qed.
Lemma chain_same σ σ' N pt idx rs ws : same σ σ' -> chain σ N pt idx rs ws -> chain σ' N pt idx rs ws.
Proof. intros (E1 & E2 & _) [H1 H2 H3 H4 H5 H6 H7]. by split; rewrite ?E1, ?E2. Qed.
Lemma same_trans σ1 σ2 σ3 : same σ1 σ2 -> same σ2 σ3 -> same σ1 σ3.
Proof. intros (A1 & A2 & A3) (B1 & B2 & B3). split; [by rewrite B1|]. split; [by rewrite B2|by rewrite B3]. Qed.
Lemma same_refl σ : same σ σ.
Proof. done. Qed.

(** ** One request *)

(** The available ring holds one chain that the device has not seen, with head [idx]. *)
Record one_avail (σ : Sys W) (qs : QueueState) (idx : Z) : Prop := {
  oa_recv : manual_recv qs = false;
  oa_num : 0 < qnum qs <= 2 ^ 15;
  oa_align : avail_addr qs mod 2 = 0;
  oa_ring : exists pa, region (mem_map σ) (avail_addr qs) (4 + 2 * qnum qs) pa /\
    host_load (host σ) (pa + 2) 2 = u16 (last_avail_idx qs + 1) /\
    host_load (host σ) (pa + 4 + (last_avail_idx qs .& (qnum qs - 1)) * 2) 2 = idx;
  oa_last : fits 16 (last_avail_idx qs);
}.
Definition advance (q : Z) (σ : Sys W) : Sys W :=
  upd_world (fun w => vset (with_queue (alter (fun x => q_last (u16 (last_avail_idx x + 1)) x) (Z.to_nat q) (queue (vdev w))) (vdev w)) w) σ.
Lemma u16_succ_ne x : fits 16 x -> x <> u16 (x + 1).
Proof.
  intros [H1 H2] H. destruct (Z.eq_dec x 65535) as [->|Hne]; [done|].
  rewrite wrap_fits in H by (split; lia). lia.
Qed.
Lemma notify_one_ok fuel (recv : Z -> Z -> Z -> Z -> MS Z) σ q qs N pt idx rs ws σ1 :
  vq σ q qs N pt -> one_avail σ qs idx -> chain σ N pt idx rs ws -> (length rs + length ws < fuel)%nat ->
  recv q idx (total_len rs) (total_len ws) σ = Ok 0 σ1 -> queue (vdev (world σ1)) = queue (vdev (world σ)) ->
  queue_notify fuel recv q σ = Ok tt (advance q σ1).
Proof.
  intros Hq [Hm Hn Ha (pa & Hr & Hidx & Hhead) Hlast] Hc Hf Hrecv Hkeep.
  assert (get_queue q σ1 = Ok qs σ1) as Hg1.
  { destruct Hq as [H1 H2 _]. unfold get_queue, getv, mbind, M_bind, gets. rewrite Hkeep, H2.
    by rewrite (proj2 (Z.ltb_ge q 0)). }
  unfold queue_notify, mbind, M_bind. rewrite (get_queue_ok _ _ _ _ _ Hq), Hm.
  rewrite (read16_ok σ _ _ pa 2 Hr), Hidx by (try lia; Z.div_mod_to_equations; lia).
  replace (Z.to_nat 65536) with (S (S (Z.to_nat 65534))) by lia. cbn [notify_loop]. unfold mbind, M_bind.
  rewrite (get_queue_ok _ _ _ _ _ Hq), (proj2 (Z.eqb_neq (last_avail_idx qs) _)) by by apply u16_succ_ne.
  rewrite (avail_desc_ok σ qs pa Hn Ha Hr), Hhead.
  rewrite (rw_size_ok fuel σ q qs N pt idx rs ws) by done. rewrite Hrecv. cbn [Z.ltb].
  unfold upd_queue, updv, modify, mbind, M_bind. change (0 <? 0) with false. cbv iota beta. rewrite Hg1.
  fold (advance q σ1). set (σ2 := advance q σ1).
  assert (get_queue q σ2 = Ok (q_last (u16 (last_avail_idx qs + 1)) qs) σ2) as ->.
  { destruct Hq as [H1 H2 _]. unfold get_queue, getv, mbind, M_bind, gets, σ2, advance. cbn [world upd_world].
    rewrite vdev_vset. cbn [queue with_queue]. rewrite Hkeep, list_lookup_alter_eq, H2. cbn.
    by rewrite (proj2 (Z.ltb_ge q 0)). }
  cbn [last_avail_idx q_last]. by rewrite Z.eqb_refl.
Qed.

(** ** The answer to a request *)
Record replied (σ σ' : Sys W) (qs : QueueState) (ws : list (list Z * Z)) (pu idx len : Z) : Prop := {
  rp_map : mem_map σ' = mem_map σ;
  rp_frame : forall p k, Forall (fun s => apart s p k) ws -> disjoint_from pu (Z.to_nat (4 + 8 * qnum qs)) p k ->
    load_bytes (host σ') p k = load_bytes (host σ) p k;
  rp_index : host_load (host σ') (pu + 2) 2 = u16 (host_load (host σ) (pu + 2) 2 + 1);
  rp_id : host_load (host σ') (pu + 4 + used_slot (host σ) pu (qnum qs) * 8) 4 = u32 idx;
  rp_len : host_load (host σ') (pu + 4 + used_slot (host σ) pu (qnum qs) * 8 + 4) 4 = u32 len;
  rp_status : int_status (vdev (world σ')) = int_status (vdev (world σ)) .| 1;
  rp_irq : irq_line (world σ') = true;
}.
Lemma host_load_bytes m p n : host_load m p n = foldr (fun b x => b .| (x ≪ 8)) 0 (load_bytes m p n).
Proof. revert p. induction n as [|n IH]; intros p; cbn [host_load load_bytes foldr]; [done|]. by rewrite IH. Qed.
Lemma host_load_same m m' p n : load_bytes m p n = load_bytes m' p n -> host_load m p n = host_load m' p n.
Proof. intros H. by rewrite !host_load_bytes, H. Qed.
Definition off_ring (ws : list (list Z * Z)) (qs : QueueState) (pu : Z) : Prop :=
  Forall (fun s => apart s pu (Z.to_nat (4 + 8 * qnum qs))) ws.
Lemma off_ring_sub ws qs pu o k : off_ring ws qs pu -> 0 <= o -> o + Z.of_nat k <= 4 + 8 * qnum qs ->
  Forall (fun s => apart s (pu + o) k) ws.
Proof. intros H Ho Hk. eapply Forall_impl; [|exact H]. intros s. unfold apart, disjoint_from. lia. Qed.
Lemma reply_ok fuel σ q qs N pt pu idx rs ws out : vq σ q qs N pt -> chain σ N pt idx rs ws -> used_ring σ qs pu ->
  off_ring ws qs pu -> bytes out -> 0 < Z.of_nat (length out) <= total_len ws -> (length rs + length ws < fuel)%nat ->
  exists σ', (_ ← memcpy_to_queue fuel q idx 0 out (Z.of_nat (length out));
              virtio_consume_desc q idx (Z.of_nat (length out))) σ = Ok tt σ' /\
    content (host σ') ws = splice 0 out (content (host σ) ws) /\
    replied σ σ' qs ws pu idx (Z.of_nat (length out)) /\
    queue (vdev (world σ')) = queue (vdev (world σ)) /\ st (world σ') = st (world σ) /\ raised σ σ'.
Proof.
  intros Hq Hc Hu Hoff Hb Hl Hf. pose proof (chain_writes σ q _ _ _ _ _ Hc) as Hw.
  destruct (memcpy_to_queue_ok fuel σ q qs N pt idx _ ws 0 out Hq Hw Hb) as (m' & Em & Ec & Ef); try lia.
  { by rewrite length_map. }
  change (Z.to_nat 0) with 0%nat in Ec. unfold mbind, M_bind. rewrite Em. set (σ1 := upd_host _ σ) in *.
  destruct (consume_ok σ1 q qs N pt pu idx (Z.of_nat (length out)) (vq_host _ _ _ _ _ _ Hq) (used_ring_same σ σ1 qs pu eq_refl Hu))
    as (σ' & -> & E1 & E2 & E3 & E4 & E5 & E6). exists σ'. split; [done|].
  pose proof (ur_num _ _ _ Hu) as Hn. change (host σ1) with m' in E2.
  assert (host_load m' (pu + 2) 2 = host_load (host σ) (pu + 2) 2) as Ei
    by (apply host_load_same, Ef; apply (off_ring_sub ws qs); [done|lia|lia]).
  assert (used_slot m' pu (qnum qs) = used_slot (host σ) pu (qnum qs)) as Es by (unfold used_slot; by rewrite Ei).
  destruct (used_put_entry m' pu (qnum qs) idx (Z.of_nat (length out))) as (U1 & U2 & U3); [lia|].
  rewrite Es in U2, U3. rewrite Ei in U1. split; [|split; [|by rewrite E3, E4]].
  - rewrite E2, <- Ec. unfold content. f_equal. apply map_ext_in. intros s Hin%list_elem_of_In.
    unfold off_ring in Hoff. rewrite list.Forall_forall in Hoff. specialize (Hoff s Hin). unfold seg_bytes.
    apply used_put_other; [lia|]. unfold apart, disjoint_from in *. lia.
  - split; rewrite ?E2; try done.
    + intros p k Hp Hd. rewrite used_put_other by (done || lia). by apply Ef.
    + by rewrite E3.
Qed.
Lemma replied_same σ1 σ2 σ' qs ws pu idx len : same σ1 σ2 -> replied σ2 σ' qs ws pu idx len -> replied σ1 σ' qs ws pu idx len.
Proof. intros (E1 & E2 & E3) [H1 H2 H3 H4 H5 H6 H7]. by split; rewrite <- ?E1, <- ?E2, <- ?E3. Qed.
Lemma replied_advance σ σ' q qs ws pu idx len : replied σ σ' qs ws pu idx len -> replied σ (advance q σ') qs ws pu idx len.
Proof. intros [H1 H2 H3 H4 H5 H6 H7]. split; try done; cbn; [by rewrite vdev_vset|by rewrite irq_vset]. Qed.

(** ** Reading behind the readable buffers *)
Definition chain_end (d : list Z) (segs ws : list (list Z * Z)) : Prop :=
  has_next (List.last (map fst segs ++ map fst ws) d) = false.
(** The descriptor behind the last readable one, if there is one, is writable. *)
Lemma next_not_readable σ q qs N pt d ws : vq σ q qs N pt -> path (host σ) N pt d (map fst ws) -> io_ok (mem_map σ) true ws ->
  chain_end d [] ws -> length d = 16%nat ->
  has_next d = false \/
  has_next d = true /\ exists d', get_desc d q (d_next d) σ = Ok d' σ /\ is_write d' = true.
Proof.
  intros Hq Hp Hws Hl H16. destruct ws as [|[dw pw] ws]; [by left|right]. cbn [map fst] in Hp.
  apply path_head in Hp as (Hn & HN & -> & _). split; [done|]. pose proof (d_next_nonneg d).
  eexists. split; [by rewrite (get_desc_ok σ q qs N pt) by (done || lia)|].
  by apply Forall_cons_1 in Hws as [[_ Hw] _].
Qed.
Lemma chain_end_cons d d' p' segs ws : chain_end d ((d', p') :: segs) ws -> chain_end d' segs ws.
Proof. unfold chain_end. cbn [map fst app]. by rewrite last_cons_dflt. Qed.
Lemma find_offset_short segs : forall fuel σ q qs N pt d p ws offset, vq σ q qs N pt ->
  path (host σ) N pt d (map fst segs ++ map fst ws) -> chain_end d segs ws -> io_ok (mem_map σ) false ((d, p) :: segs) ->
  io_ok (mem_map σ) true ws -> total_len ((d, p) :: segs) <= offset < 2 ^ 31 -> (S (length segs) < fuel)%nat ->
  find_offset fuel q false d offset σ = Ok None σ.
Proof.
  induction segs as [|[d2 p2] segs IH]; intros fuel σ q qs N pt d p ws offset Hq Hpath Hend Hio Hws Hoff Hf;
    (destruct fuel as [|fuel]; [simpl in Hf; lia|]); cbn [find_offset];
    pose proof Hio as Hio'; apply Forall_cons_1 in Hio' as [[Hseg Hw] Hrest]; cbn [fst] in Hw; rewrite Hw, eqb_reflx;
    cbn [negb]; rewrite total_cons in Hoff; cbn [fst] in Hoff; pose proof (d_len_range d) as [];
    pose proof (proj2 (proj2 Hseg)) as H16; cbn [fst] in H16.
  - cbn [total_len foldr] in Hoff. rewrite (wrap_fits 32 offset) by (split; lia). rewrite (proj2 (Z.ltb_ge _ _)) by lia.
    destruct (next_not_readable σ q qs N pt d ws) as [->|(-> & d' & Hd & Hw')]; try done. cbn [negb]. cbv zeta.
    unfold mbind, M_bind. rewrite Hd. destruct fuel as [|fuel]; [simpl in Hf; lia|]. cbn [find_offset]. by rewrite Hw'.
  - pose proof (total_nonneg ((d2, p2) :: segs)). rewrite (wrap_fits 32 offset) by (split; lia).
    rewrite (proj2 (Z.ltb_ge _ _)) by lia. cbn [map fst app] in Hpath.
    apply path_head in Hpath as (Hn & HN & -> & Hpath). rewrite Hn. cbn [negb]. cbv zeta. unfold mbind, M_bind.
    pose proof (d_next_nonneg d). rewrite (get_desc_ok σ q qs N pt) by (done || lia). rewrite i32_small by lia.
    eapply (IH fuel σ q qs N pt _ p2 ws); try done; [by eapply chain_end_cons|lia|simpl in Hf; lia].
Qed.
Lemma copy_from_short segs : forall fuel σ q qs N pt d p ws buf pos offset count, vq σ q qs N pt ->
  path (host σ) N pt d (map fst segs ++ map fst ws) -> chain_end d segs ws -> io_ok (mem_map σ) false ((d, p) :: segs) ->
  io_ok (mem_map σ) true ws -> 0 <= offset <= d_len d -> 0 < count < 2 ^ 31 -> total_len ((d, p) :: segs) < offset + count ->
  0 <= pos -> pos + count <= Z.of_nat (length buf) -> (length segs < fuel)%nat ->
  exists buf', copy_loop fuel q false d buf pos offset count σ = Ok (-1, buf') σ.
Proof.
  induction segs as [|[d2 p2] segs IH]; intros fuel σ q qs N pt d p ws buf pos offset count Hq Hpath Hend Hio Hws Hoff Hcnt Htot Hpos Hlen Hf;
    (destruct fuel as [|fuel]; [simpl in Hf; lia|]); cbn [copy_loop];
    pose proof Hio as Hio'; apply Forall_cons_1 in Hio' as [[Hseg Hw] Hrest];
    pose proof (proj1 (proj2 Hseg)) as Hl31; pose proof (proj2 (proj2 Hseg)) as H16; cbn [fst] in Hl31, H16;
    rewrite total_cons in Htot; cbn [fst] in Htot;
    rewrite (i32_small (d_len d - offset)), min_int_eq by lia; cbv zeta; unfold mbind, M_bind;
    rewrite (from_part σ d p) by (done || lia); cbv beta iota; cbn [snd]; unfold mret, M_ret;
    pose proof (length_seg (host σ) (d, p)) as Ls; cbn [fst] in Ls.
  - cbn [total_len foldr] in Htot. rewrite Z.min_r, !i32_small, (proj2 (Z.eqb_neq _ 0)) by lia.
    replace (offset + (d_len d - offset)) with (d_len d) by lia.
    rewrite (wrap_fits 32 (d_len d)) by apply d_len_range. rewrite Z.eqb_refl.
    destruct (next_not_readable σ q qs N pt d ws) as [->|(-> & d' & Hd & Hw')]; try done; cbn [negb]; [by eexists|].
    rewrite Hd, Hw'. by eexists.
  - pose proof (total_nonneg ((d2, p2) :: segs)). rewrite Z.min_r, !i32_small, (proj2 (Z.eqb_neq _ 0)) by lia.
    replace (offset + (d_len d - offset)) with (d_len d) by lia.
    rewrite (wrap_fits 32 (d_len d)) by apply d_len_range. rewrite Z.eqb_refl. cbn [map fst app] in Hpath.
    apply path_head in Hpath as (Hn & HN & -> & Hpath). rewrite Hn. cbn [negb].
    pose proof (d_next_nonneg d). rewrite (get_desc_ok σ q qs N pt) by (done || lia).
    apply Forall_cons_1 in Hrest as Hrest'. destruct Hrest' as [[Hseg' Hw'] _]. cbn [fst] in Hw'. rewrite Hw'. cbn [Bool.eqb negb].
    pose proof (d_len_range (desc_of (host σ) pt (d_next d))) as [].
    eapply (IH fuel σ q qs N pt _ p2 ws); try done; try lia.
    + by eapply chain_end_cons.
    + rewrite length_splice; [lia|]. rewrite length_take, length_drop. lia.
    + simpl in Hf. lia.
Qed.
Lemma path_suffix m N pt d a x b : path m N pt d (a ++ x :: b) -> path m N pt x b.
Proof.
  revert d. induction a as [|y a IH]; intros d H; cbn [app] in H; apply path_head in H as (_ & _ & _ & H); eauto.
Qed.
Lemma last_suffix {A} (d x : A) a b : List.last (a ++ x :: b) d = List.last b x.
Proof.
  revert d. induction a as [|y a IH]; intros d; cbn [app]; [apply last_cons_dflt|]. rewrite last_cons_dflt. apply IH.
Qed.
(** A read of the readable buffers [rs]: their bytes, or -1 when they are too few. *)
Lemma memcpy_from_queue_chain fuel σ q qs N pt idx rs ws buf offset count :
  vq σ q qs N pt -> chain σ N pt idx rs ws -> (length rs + length ws < fuel)%nat -> 0 <= offset -> 0 < count ->
  offset + count < 2 ^ 31 -> count <= Z.of_nat (length buf) ->
  exists buf', memcpy_from_queue fuel buf q idx offset count σ =
    (if offset + count <=? total_len rs then Ok (0, splice 0 (take (Z.to_nat count) (drop (Z.to_nat offset) (content (host σ) rs))) buf) σ
     else Ok (-1, buf') σ).
Proof.
  intros Hq Hc Hf Ho Hn H31 Hb. destruct (Z.leb_spec (offset + count) (total_len rs)) as [Hle|Hgt].
  { exists []. destruct rs as [|r rs]; [cbn in Hle; lia|].
    rewrite (memcpy_from_queue_splice fuel σ q qs N pt idx (r :: rs)) by (done || lia || by eapply chain_reads). done. }
  destruct Hc as [Hi (tl & Heq & Hp & Hlast) Hrs Hws _ _ Htot].
  unfold memcpy_from_queue, memcpy_to_from_queue. rewrite (proj2 (Z.eqb_neq count 0)) by lia.
  unfold mbind, M_bind, uninit_buf, gets. rewrite (get_desc_ok σ q qs N pt) by (done || apply uninit_len). unfold mret, M_ret.
  pose proof (total_nonneg ws). destruct rs as [|[d p] rs].
  { destruct ws as [|[dw pw] ws]; [done|]. injection Heq as Hd _. apply Forall_cons_1 in Hws as [[_ Hw] _]. cbn [fst] in Hw.
    destruct fuel as [|fuel]; [simpl in Hf; lia|]. cbn [find_offset]. rewrite Hd, Hw. by eexists. }
  cbn [map app fst] in Heq. injection Heq as Hd ->. rewrite Hd in *.
  destruct (Z.le_gt_cases (total_len ((d, p) :: rs)) offset) as [Hge|Hlt].
  - exists buf. by rewrite (find_offset_short rs fuel σ q qs N pt d p ws) by (done || (simpl in Hf; lia)).
  - assert (path (host σ) N pt d (map fst rs)) as Hp' by by eapply path_app.
    pose proof (total_nonneg ws). assert (length d = 16%nat) as H16 by (rewrite <- Hd; apply length_desc).
    destruct (find_offset_ok rs fuel false σ q qs N pt d p offset Hq Hp' Hrs ltac:(lia) ltac:(lia) ltac:(simpl in Hf; lia))
      as (pre & d' & p' & post & o & -> & [P1 P2 P3 P4]).
    assert (length post <= length rs)%nat as Hpl.
    { apply (f_equal length) in P1. rewrite length_app in P1. simpl in P1. lia. }
    rewrite P1 in Hrs, Hgt. rewrite total_app, total_cons in Hgt. cbn [fst] in Hgt. apply Forall_app in Hrs as [_ Hrs].
    assert (path (host σ) N pt d' (map fst post ++ map fst ws) /\ chain_end d' post ws) as [Hp2 Hend].
    { destruct pre as [|[d0 p0] pre]; cbn [app] in P1; injection P1 as -> -> ->; [done|].
      rewrite map_app in Hp, Hlast. cbn [map fst] in Hp, Hlast. rewrite <- app_assoc in Hp, Hlast. cbn [app] in Hp, Hlast.
      split; [by eapply path_suffix|]. unfold chain_end. revert Hlast. rewrite last_suffix. done. }
    eapply (copy_from_short post fuel σ q qs N pt d' p' ws); try done; try lia.
    + rewrite total_cons. cbn [fst]. lia.
    + simpl in Hf. lia.
Qed.
End Facts.
