(* ===== verification/VirtioBlkFacts.v ===== *)
(** * A read request of the block device, from the notification to the used ring *)
From S2P Require Export VirtioReply VirtioDev.
#[local] Open Scope Z_scope.

(** A back end that answers at once, and the image of the disk that it stands for. *)
Class SyncDisk (W : Type) `{!VirtioBoard W} `{!BlockBoard W} := {
  disk : W -> list Z;
  writable : W -> bool;
  disk_wf : W -> Prop;
  disk_bytes : forall w, disk_wf w -> bytes (disk w);
  disk_vset : forall d w, disk (vset d w) = disk w;
  disk_wf_vset : forall d w, disk_wf w -> disk_wf (vset d w);
  disk_wf_blk_set : forall b w, disk_wf w -> disk_wf (blk_set b w);
  disk_blk_set : forall b w, disk (blk_set b w) = disk w;
  writable_blk_set : forall b w, writable (blk_set b w) = writable w;
  disk_set_irq : forall v σ σ', set_irq v σ = Ok tt σ' ->
    disk (world σ') = disk (world σ) /\ (disk_wf (world σ) -> disk_wf (world σ'));
  read_ok : forall σ sector buf n, disk_wf (world σ) -> 0 <= sector -> 0 <= n -> 512 * n < 2 ^ 31 ->
    512 * (sector + n) <= Z.of_nat (length (disk (world σ))) -> 512 * n <= Z.of_nat (length buf) ->
    exists σ', read_async sector buf n σ =
      Ok (0, splice 0 (take (Z.to_nat (512 * n)) (drop (Z.to_nat (512 * sector)) (disk (world σ)))) buf) σ' /\
    mem_map σ' = mem_map σ /\ host σ' = host σ /\ vdev (world σ') = vdev (world σ) /\ blk (world σ') = blk (world σ) /\
    disk (world σ') = disk (world σ) /\ disk_wf (world σ');
  write_ok : forall σ sector buf n, disk_wf (world σ) -> 0 <= sector -> 0 <= n -> 512 * n < 2 ^ 31 -> bytes buf ->
    512 * (sector + n) <= Z.of_nat (length (disk (world σ))) -> 512 * n <= Z.of_nat (length buf) ->
    exists σ', write_async sector buf n σ = Ok (if writable (world σ) then 0 else -1) σ' /\
    mem_map σ' = mem_map σ /\ host σ' = host σ /\ vdev (world σ') = vdev (world σ) /\ blk (world σ') = blk (world σ) /\
    disk (world σ') = (if writable (world σ) then splice (Z.to_nat (512 * sector)) (take (Z.to_nat (512 * n)) buf) (disk (world σ))
                       else disk (world σ)) /\ disk_wf (world σ');
}.

Section Facts.
Context `{cfg : Config} `{vcfg : VirtioConfig} {W : Type} `{board : !VirtioBoard W}.
Local Abbreviation MS := (M (Sys W)).
Implicit Types σ : Sys W.
Context `{bb : !BlockBoard W} `{laws : !VirtioLaws W blk blk_set}.

(** ** Block requests *)
Context `{sd : !SyncDisk W}.
Definition sectors (w : W) (sector n : Z) : list Z := take (Z.to_nat (512 * n)) (drop (Z.to_nat (512 * sector)) (disk w)).
(** The queue holds one request: the readable buffers [rs] start with a header, and the answer goes
    to [ws]. *)
Record request (fuel : nat) (σ : Sys W) (q : Z) (qs : QueueState) (N pt pu idx : Z) (rs ws : list (list Z * Z)) : Prop := {
  rq_vq : vq σ q qs N pt;
  rq_avail : one_avail σ qs idx;
  rq_used : used_ring σ qs pu;
  rq_chain : chain σ N pt idx rs ws;
  rq_off : off_ring ws qs pu;
  rq_fuel : (length rs + length ws < fuel)%nat;
  rq_idle : req_in_progress (blk (world σ)) = false;
  rq_header : 16 <= total_len rs;
  rq_disk : disk_wf (world σ);
}.
Definition header (σ : Sys W) (rs : list (list Z * Z)) : list Z := take 16 (content (host σ) rs).
Definition h_type (h : list Z) : Z := get_le32 h 0.
Definition h_sector (h : list Z) : Z := get_le64 h 8.

Lemma header_read fuel σ q qs N pt idx rs ws buf : vq σ q qs N pt -> chain σ N pt idx rs ws -> 16 <= total_len rs ->
  (length rs + length ws < fuel)%nat -> length buf = 16%nat ->
  memcpy_from_queue fuel buf q idx 0 16 σ = Ok (0, header σ rs) σ.
Proof.
  intros Hq Hc H16 Hf Hb. destruct rs as [|r rs]; [cbn in H16; lia|].
  rewrite (memcpy_from_queue_ok fuel σ q qs N pt idx (r :: rs)) by (done || lia || by eapply chain_reads). done.
Qed.
Lemma payload_read fuel σ q qs N pt idx rs ws buf len : vq σ q qs N pt -> chain σ N pt idx rs ws -> total_len rs = 16 + len ->
  0 < len -> (length rs + length ws < fuel)%nat -> Z.of_nat (length buf) = len ->
  memcpy_from_queue fuel buf q idx 16 len σ = Ok (0, drop 16 (content (host σ) rs)) σ.
Proof.
  intros Hq Hc Ht Hl Hf Hb. destruct rs as [|r rs]; [cbn in Ht; lia|].
  rewrite (memcpy_from_queue_ok fuel σ q qs N pt idx (r :: rs)) by (done || lia || by eapply chain_reads).
  f_equal. f_equal. apply take_ge. rewrite length_drop. pose proof (length_content (host σ) (r :: rs)). lia.
Qed.

Lemma raised_disk σ σ' : raised σ σ' -> disk (world σ') = disk (world σ) /\ (disk_wf (world σ) -> disk_wf (world σ')).
Proof.
  intros (σ0 & d & E & Ew). destruct (disk_set_irq _ _ _ E) as [E1 E2]. rewrite E1, Ew, disk_vset in *.
  split; [done|]. intros H. by apply E2, disk_wf_vset.
Qed.
Lemma same_upd_blk (f : W -> BlockState) σ : same σ (upd_world (fun w => blk_set (f w) w) σ).
Proof. split; [done|]. split; [done|]. cbn. apply vdev_st_set. Qed.
Lemma sectors_length w sector n : 0 <= sector -> 0 <= n -> 512 * (sector + n) <= Z.of_nat (length (disk w)) ->
  length (sectors w sector n) = Z.to_nat (512 * n).
Proof. intros. unfold sectors. rewrite length_take, length_drop. lia. Qed.

(** What the handler of the device leaves behind when it has answered. *)
Definition answered (σ σ' : Sys W) (qs : QueueState) (ws : list (list Z * Z)) (pu idx len : Z) : Prop :=
  replied σ σ' qs ws pu idx len /\ queue (vdev (world σ')) = queue (vdev (world σ)) /\
  req_in_progress (blk (world σ')) = false /\ disk_wf (world σ').
(** The result of a request: the answer is [len] bytes long. *)
Record completed (σ σ' : Sys W) (q : Z) (qs : QueueState) (ws : list (list Z * Z)) (pu idx len : Z) : Prop := {
  cp_replied : replied σ σ' qs ws pu idx len;
  cp_queue : queue (vdev (world σ')) !! Z.to_nat q = Some (q_last (u16 (last_avail_idx qs + 1)) qs);
  cp_idle : req_in_progress (blk (world σ')) = false;
  cp_disk : disk_wf (world σ');
}.
Lemma completed_intro fuel σ σ1 q qs N pt pu idx rs ws len : request fuel σ q qs N pt pu idx rs ws ->
  virtio_block_recv_request fuel q idx (total_len rs) (total_len ws) σ = Ok 0 σ1 ->
  answered σ σ1 qs ws pu idx len ->
  queue_notify fuel (virtio_block_recv_request fuel) q σ = Ok tt (advance q σ1) /\ completed σ (advance q σ1) q qs ws pu idx len.
Proof.
  intros [Hq Ha Hu Hc Ho Hf Hi H16 Hwf] Hrun (Hr & Hqu & Hb & Hd). split; [by eapply notify_one_ok|].
  split; [by apply replied_advance| | |]; cbn.
  - rewrite vdev_vset. cbn. rewrite Hqu, list_lookup_alter_eq. by rewrite (vq_queue _ _ _ _ _ Hq).
  - by rewrite st_vset.
  - by apply disk_wf_vset.
Qed.

Lemma len_pos_total ws n : total_len ws = 512 * n + 1 -> 0 < n -> 512 * n + 1 < 2 ^ 31 -> Z.quot (total_len ws - 1) SECTOR_SIZE = n.
Proof. intros -> Hn _. unfold SECTOR_SIZE. replace (512 * n + 1 - 1) with (n * 512) by lia. by rewrite Z.quot_mul by lia. Qed.

Lemma h_sector_nonneg h : 0 <= h_sector h.
Proof. unfold h_sector, get_le64. apply Z.lor_nonneg. split; [|apply Z.shiftl_nonneg]; by apply fits_wrap. Qed.
Lemma splice_answer (data buf : list Z) n st : Z.of_nat (length data) = n -> Z.of_nat (length buf) = n + 1 ->
  splice (Z.to_nat (n + 1 - 1)) [st] (splice 0 data buf) = data ++ [st].
Proof.
  intros H1 H2. unfold splice. rewrite take_0. cbn [app]. rewrite Nat.add_0_l.
  replace (Z.to_nat (n + 1 - 1)) with (length data) by lia. rewrite take_app_length. do 2 f_equal.
  replace (length data + length [st])%nat with (length data + 1)%nat by done.
  rewrite <- drop_drop, drop_app_length, drop_drop. apply drop_ge. lia.
Qed.
(** The request in the state of the device when its data have been read. *)
Lemma req_end_in fuel σ q qs N pt pu idx rs ws data buf n : vq σ q qs N pt -> chain σ N pt idx rs ws -> used_ring σ qs pu ->
  off_ring ws qs pu -> (length rs + length ws < fuel)%nat -> bytes data -> Z.of_nat (length data) = n -> total_len ws = n + 1 ->
  Z.of_nat (length buf) = n + 1 ->
  blk (world σ) = mkBlk false (mkReq VIRTIO_BLK_T_IN (splice 0 data buf) (n + 1) q idx) ->
  exists σ', virtio_block_req_end fuel 0 σ = Ok tt σ' /\ content (host σ') ws = data ++ [VIRTIO_BLK_S_OK] /\
    replied σ σ' qs ws pu idx (n + 1) /\ queue (vdev (world σ')) = queue (vdev (world σ)) /\ blk (world σ') = blk (world σ) /\
    raised σ σ'.
Proof.
  intros Hq Hc Hu Ho Hf Hb Hn Hws Hbuf Hblk. unfold virtio_block_req_end, getb, gets, mbind, M_bind. rewrite Hblk.
  cbn [req req_type req_buf req_write_size req_queue_idx req_desc_idx]. change (VIRTIO_BLK_T_IN =? VIRTIO_BLK_T_IN) with true.
  change (0 <? 0) with false. cbv iota zeta.
  assert (length (splice 0 data buf) = length buf) as Ls by (apply length_splice; lia).
  unfold buf_store. rewrite Ls, (proj2 (Z.leb_le 0 _)), (proj2 (Z.leb_le _ _)) by (cbn [length]; lia). cbn [andb].
  unfold mret, M_ret. rewrite splice_answer by lia.
  assert (Z.of_nat (length (data ++ [VIRTIO_BLK_S_OK])) = n + 1) as Lo by (rewrite length_app; cbn [length]; lia).
  destruct (reply_ok fuel σ q qs N pt pu idx rs ws (data ++ [VIRTIO_BLK_S_OK])) as (σ' & E & E1 & E2 & E3 & E4 & E5); try done; try lia.
  { apply Forall_app. split; [done|]. by repeat constructor. }
  rewrite Lo in E, E2. unfold mbind, M_bind in E. rewrite E. exists σ'. rewrite E1. rewrite splice_all; [by rewrite E4, Hblk|].
  pose proof (length_content (host σ) ws). lia.
Qed.

Lemma bytes_sectors w sector n : disk_wf w -> bytes (sectors w sector n).
Proof. intros. by apply Forall_take, Forall_drop, disk_bytes. Qed.
Lemma disk_upd_blk (f : W -> BlockState) σ : disk (world (upd_world (fun w => blk_set (f w) w) σ)) = disk (world σ).
Proof. apply disk_blk_set. Qed.
Lemma recv_in_ok fuel σ q qs N pt pu idx rs ws n (h := header σ rs) :
  request fuel σ q qs N pt pu idx rs ws -> h_type h = VIRTIO_BLK_T_IN -> 0 < n -> total_len ws = 512 * n + 1 ->
  512 * (h_sector h + n) <= Z.of_nat (length (disk (world σ))) ->
  exists σ1, virtio_block_recv_request fuel q idx (total_len rs) (total_len ws) σ = Ok 0 σ1 /\
    content (host σ1) ws = sectors (world σ) (h_sector h) n ++ [VIRTIO_BLK_S_OK] /\ disk (world σ1) = disk (world σ) /\
    answered σ σ1 qs ws pu idx (512 * n + 1).
Proof.
  intros [Hq Ha Hu Hc Ho Hf Hi H16 Hwf] Hty Hn Hws Hd.
  assert (512 * n + 1 < 2 ^ 31) as Hn31 by (pose proof (ch_total _ _ _ _ _ _ Hc); pose proof (total_nonneg rs); lia).
  pose proof (h_sector_nonneg h) as Hs0.
  unfold virtio_block_recv_request, mbind, M_bind, getb, gets. rewrite Hi. unfold uninit_buf, gets.
  rewrite (header_read fuel σ q qs N pt idx rs ws) by (done || apply uninit_len). change (0 <? 0) with false. cbv iota beta.
  fold h. change (get_le32 h 0) with (h_type h). change (get_le64 h 8) with (h_sector h). rewrite Hty. cbv zeta.
  unfold upd_req, updb, modify. set (σ1 := upd_world _ σ). change (VIRTIO_BLK_T_IN =? VIRTIO_BLK_T_IN) with true. cbv iota.
  assert (same σ σ1) as S1 by apply same_upd_blk. assert (disk (world σ1) = disk (world σ)) as D1 by apply disk_blk_set.
  rewrite (len_pos_total ws n) by done. set (buf := uninit_bytes σ1 (Z.to_nat (total_len ws))).
  assert (Z.of_nat (length buf) = 512 * n + 1) as Lb by (unfold buf; rewrite uninit_len; lia).
  destruct (read_ok σ1 (h_sector h) buf n) as (σ2 & -> & A1 & A2 & A3 & A4 & A5 & A6); rewrite ?D1; try lia;
    [by apply disk_wf_blk_set|].
  fold (sectors (world σ) (h_sector h) n). cbv iota beta. set (σ3 := upd_world _ σ2).
  assert (Z.of_nat (length (sectors (world σ) (h_sector h) n)) = 512 * n) as Ls by (rewrite sectors_length; lia).
  assert (same σ σ3) as S3. { apply (same_trans σ σ2); [|apply same_upd_blk]. by apply (same_trans σ σ1). }
  assert (disk (world σ3) = disk (world σ)) as D3 by (unfold σ3; rewrite disk_upd_blk; congruence).
  change (0 <? 0) with false. cbv iota. destruct (req_end_in fuel σ3 q qs N pt pu idx rs ws (sectors (world σ) (h_sector h) n) buf (512 * n)) as
    (σ4 & -> & B1 & B2 & B3 & B4 & B5); try done.
  - by eapply vq_same.
  - by eapply chain_same.
  - eapply used_ring_same; [apply S3|done].
  - by apply bytes_sectors.
  - unfold σ3. cbn. rewrite st_st_set, A4. unfold σ1. cbn. rewrite st_st_set, Hi, Hws. done.
  - exists σ4. split; [done|]. split; [done|]. split; [by rewrite (proj1 (raised_disk _ _ B5))|].
    split; [by eapply replied_same|]. rewrite B3, B4. split; [by rewrite (proj2 (proj2 S3))|].
    split; [|by apply (raised_disk _ _ B5), disk_wf_blk_set].
    unfold σ3, σ1. cbn. by rewrite st_st_set, A4; cbn; rewrite st_st_set.
Qed.

Definition status_of (ok : bool) : Z := if ok then VIRTIO_BLK_S_OK else VIRTIO_BLK_S_IOERR.
Definition result_of (ok : bool) : Z := if ok then 0 else -1.
Lemma req_end_out fuel ok r σ q qs N pt pu idx rs ws : vq σ q qs N pt -> chain σ N pt idx rs ws -> used_ring σ qs pu ->
  off_ring ws qs pu -> (length rs + length ws < fuel)%nat -> 1 <= total_len ws ->
  blk (world σ) = mkBlk false r -> req_type r = VIRTIO_BLK_T_OUT -> req_queue_idx r = q -> req_desc_idx r = idx ->
  exists σ', virtio_block_req_end fuel (result_of ok) σ = Ok tt σ' /\
    content (host σ') ws = splice 0 [status_of ok] (content (host σ) ws) /\ raised σ σ' /\
    replied σ σ' qs ws pu idx 1 /\ queue (vdev (world σ')) = queue (vdev (world σ)) /\ blk (world σ') = blk (world σ).
Proof.
  intros Hq Hc Hu Ho Hf Hws Hblk Hty Hrq Hrd. unfold virtio_block_req_end, getb, gets, mbind, M_bind. rewrite Hblk. cbn [req].
  rewrite Hty, Hrq, Hrd. change (VIRTIO_BLK_T_OUT =? VIRTIO_BLK_T_IN) with false.
  change (VIRTIO_BLK_T_OUT =? VIRTIO_BLK_T_OUT) with true. cbv iota zeta.
  replace (if result_of ok <? 0 then VIRTIO_BLK_S_IOERR else VIRTIO_BLK_S_OK) with (status_of ok) by by destruct ok.
  destruct (reply_ok fuel σ q qs N pt pu idx rs ws [status_of ok]) as (σ' & E & E1 & E2 & E3 & E4 & E5); try done.
  { repeat constructor. by destruct ok. all: by destruct ok. }
  change (Z.of_nat (length [status_of ok])) with 1 in E. unfold mbind, M_bind in E.
  exists σ'. rewrite E, E4, Hblk. done.
Qed.
Lemma recv_out_ok fuel σ q qs N pt pu idx rs ws n (h := header σ rs) (ok := writable (world σ)) (data := drop 16 (content (host σ) rs)) :
  request fuel σ q qs N pt pu idx rs ws -> h_type h = VIRTIO_BLK_T_OUT -> 0 < n -> total_len rs = 16 + 512 * n ->
  1 <= total_len ws -> 512 * (h_sector h + n) <= Z.of_nat (length (disk (world σ))) ->
  exists σ1, virtio_block_recv_request fuel q idx (total_len rs) (total_len ws) σ = Ok 0 σ1 /\
    content (host σ1) ws = splice 0 [status_of ok] (content (host σ) ws) /\
    disk (world σ1) = (if ok then splice (Z.to_nat (512 * h_sector h)) data (disk (world σ)) else disk (world σ)) /\
    answered σ σ1 qs ws pu idx 1.
Proof.
  intros [Hq Ha Hu Hc Ho Hf Hi H16 Hwf] Hty Hn Hrs Hws Hd. pose proof (h_sector_nonneg h) as Hs0.
  assert (16 + 512 * n < 2 ^ 31) as Hn31 by (pose proof (ch_total _ _ _ _ _ _ Hc); lia).
  unfold virtio_block_recv_request, mbind, M_bind, getb, gets. rewrite Hi. unfold uninit_buf, gets.
  rewrite (header_read fuel σ q qs N pt idx rs ws) by (done || apply uninit_len). change (0 <? 0) with false. cbv iota beta.
  fold h. change (get_le32 h 0) with (h_type h). change (get_le64 h 8) with (h_sector h). rewrite Hty. cbv zeta.
  unfold upd_req, updb, modify. set (σ1 := upd_world _ σ). change (VIRTIO_BLK_T_OUT =? VIRTIO_BLK_T_IN) with false.
  change (VIRTIO_BLK_T_OUT =? VIRTIO_BLK_T_OUT) with true. cbv iota. unfold assert. rewrite (proj2 (Z.leb_le 1 _)) by done.
  assert (same σ σ1) as S1 by apply same_upd_blk. assert (disk (world σ1) = disk (world σ)) as D1 by apply disk_blk_set.
  assert (writable (world σ1) = ok) as W1 by apply writable_blk_set. unfold mret, M_ret.
  rewrite Hrs, (i32_small (16 + 512 * n - 16)) by lia. replace (16 + 512 * n - 16) with (512 * n) by lia.
  rewrite (payload_read fuel σ1 q qs N pt idx rs ws) by
    (try done; first [by eapply vq_same|by eapply chain_same|rewrite uninit_len; lia|lia]).
  replace (Z.quot (512 * n) SECTOR_SIZE) with n by (unfold SECTOR_SIZE; by rewrite Z.mul_comm, Z.quot_mul by lia).
  change (host σ1) with (host σ). cbn [snd]. fold data.
  assert (Z.of_nat (length data) = 512 * n) as Ld by (unfold data; rewrite length_drop; pose proof (length_content (host σ) rs); lia).
  assert (bytes data) as Hb by (apply Forall_drop, bytes_content).
  destruct (write_ok σ1 (h_sector h) data n) as (σ2 & -> & A1 & A2 & A3 & A4 & A5 & A6); rewrite ?D1, ?W1; try (done || lia);
    [by apply disk_wf_blk_set|].
  rewrite D1, W1, (take_ge data) in A5 by lia. fold (result_of ok). replace (0 <? result_of ok) with false by by destruct ok. cbv iota.
  assert (same σ σ2) as S2 by by apply (same_trans σ σ1).
  destruct (req_end_out fuel ok (req (blk (world σ1))) σ2 q qs N pt pu idx rs ws) as (σ4 & -> & B1 & B2 & B3 & B4 & B5);
    try (by rewrite ?A4; unfold σ1; cbn; rewrite ?st_st_set, ?Hi); try done.
  - by eapply vq_same.
  - by eapply chain_same.
  - eapply used_ring_same; [apply S2|done].
  - exists σ4. split; [done|]. split; [by rewrite B1; rewrite (proj1 (proj2 S2))|]. split; [by rewrite (proj1 (raised_disk _ _ B2))|].
    split; [by eapply replied_same|]. rewrite B4, B5. split; [by rewrite (proj2 (proj2 S2))|].
    split; [|by apply (raised_disk _ _ B2)]. rewrite A4. unfold σ1. cbn. by rewrite st_st_set.
Qed.

(** C16: a read request of the block device.  One notification of a queue with one request of
    type VIRTIO_BLK_T_IN fills the writable buffers with the sectors of the disk and a zero
    status, puts the request on the used ring with the length written, raises the interrupt,
    and changes no other byte of memory and no byte of the disk. *)
Theorem virtio_block_read fuel σ q qs N pt pu idx rs ws n (h := header σ rs) :
  request fuel σ q qs N pt pu idx rs ws -> h_type h = VIRTIO_BLK_T_IN -> 0 < n -> total_len ws = 512 * n + 1 ->
  512 * (h_sector h + n) <= Z.of_nat (length (disk (world σ))) ->
  exists σ', queue_notify fuel (virtio_block_recv_request fuel) q σ = Ok tt σ' /\
    content (host σ') ws = sectors (world σ) (h_sector h) n ++ [VIRTIO_BLK_S_OK] /\
    disk (world σ') = disk (world σ) /\ completed σ σ' q qs ws pu idx (512 * n + 1).
Proof.
  intros Hrq Hty Hn Hws Hd. destruct (recv_in_ok fuel σ q qs N pt pu idx rs ws n Hrq Hty Hn Hws Hd) as (σ1 & E & E1 & E2 & E3).
  destruct (completed_intro fuel σ σ1 q qs N pt pu idx rs ws _ Hrq E E3) as [R C].
  exists (advance q σ1). split; [done|]. split; [done|]. split; [|done]. cbn. by rewrite disk_vset.
Qed.

(** C17: a write request of the block device.  One notification of a queue with one request of type
    VIRTIO_BLK_T_OUT puts the bytes behind the header at the sector of the disk and answers status
    0; on a disk that cannot be written it changes nothing and answers VIRTIO_BLK_S_IOERR.  The
    answer is one byte; no other byte of memory changes. *)
Theorem virtio_block_write fuel σ q qs N pt pu idx rs ws n (h := header σ rs) (ok := writable (world σ)) :
  request fuel σ q qs N pt pu idx rs ws -> h_type h = VIRTIO_BLK_T_OUT -> 0 < n -> total_len rs = 16 + 512 * n ->
  1 <= total_len ws -> 512 * (h_sector h + n) <= Z.of_nat (length (disk (world σ))) ->
  exists σ', queue_notify fuel (virtio_block_recv_request fuel) q σ = Ok tt σ' /\
    content (host σ') ws = splice 0 [status_of ok] (content (host σ) ws) /\
    disk (world σ') =
      (if ok then splice (Z.to_nat (512 * h_sector h)) (drop 16 (content (host σ) rs)) (disk (world σ)) else disk (world σ)) /\
    completed σ σ' q qs ws pu idx 1.
Proof.
  intros Hrq Hty Hn Hrs Hws Hd. destruct (recv_out_ok fuel σ q qs N pt pu idx rs ws n Hrq Hty Hn Hrs Hws Hd) as (σ1 & E & E1 & E2 & E3).
  destruct (completed_intro fuel σ σ1 q qs N pt pu idx rs ws _ Hrq E E3) as [R C].
  exists (advance q σ1). split; [done|]. split; [done|]. split; [|done]. cbn. by rewrite disk_vset.
Qed.
End Facts.
