(* ===== verification/VirtioInv.v ===== *)
(** * VIRTIO: the registers stay well formed and the interrupt line follows the status

    [dev_ok] is the type invariant of a device; [line_ok] says that the interrupt line is up
    exactly when a bit of the interrupt status is set.  Both survive every access of the driver
    and every completion of the back end. *)
From S2P Require Export VirtioBlkFacts.
#[local] Open Scope Z_scope.

(** The number of entries is a power of two, since the write of the register tests it. *)
Definition pow2 (n : Z) : Prop := 0 < n /\ n .& (n - 1) = 0.
Section Ok.
Context `{vcfg : VirtioConfig}.
Record queue_ok (q : QueueState) : Prop := {
  qo_ready : fits 1 (ready q);
  qo_num : pow2 (qnum q) /\ qnum q < 2 ^ 32;
  qo_last : fits 16 (last_avail_idx q);
  qo_desc : fits VIRTIO_ADDR_BITS (desc_addr q);
  qo_avail : fits VIRTIO_ADDR_BITS (avail_addr q);
  qo_used : fits VIRTIO_ADDR_BITS (used_addr q);
}.
Record dev_ok (s : VIRTIODevice) : Prop := {
  do_int : fits 32 (int_status s);
  do_status : fits 32 (status s);
  do_fsel : fits 32 (device_features_sel s);
  do_qsel : 0 <= queue_sel s < Z.of_nat MAX_QUEUE;
  do_len : length (queue s) = MAX_QUEUE;
  do_queues : Forall queue_ok (queue s);
  do_ids : fits 32 (device_id s) /\ fits 32 (vendor_id s) /\ fits 32 (device_features s);
  do_cfg_size : 3 <= config_space_size s <= Z.of_nat MAX_CONFIG_SPACE_SIZE;
  do_cfg_len : length (config_space s) = MAX_CONFIG_SPACE_SIZE;
  do_cfg : bytes (config_space s);
}.
End Ok.

(** ** Rings *)
Lemma pow2_exp n : pow2 n -> exists k, 0 <= k /\ n = 2 ^ k.
Proof.
  intros [Hn Hl]. exists (Z.log2 n). pose proof (Z.log2_nonneg n). split; [done|].
  destruct (Z.log2_spec n Hn) as [H1 H2]. destruct (Z.eq_dec n (2 ^ Z.log2 n)) as [->|Hne]; [by rewrite Z.log2_pow2|].
  exfalso. assert (Z.testbit (n .& (n - 1)) (Z.log2 n) = true) as Hb; [|by rewrite Hl, Z.bits_0 in Hb].
  rewrite Z.land_spec, Z.bit_log2 by done.
  replace (Z.log2 n) with (Z.log2 (n - 1)); [by apply Z.bit_log2; lia|]. apply Z.log2_unique; lia.
Qed.
Lemma pow2_mask n i : pow2 n -> i .& (n - 1) = i mod n.
Proof. intros (k & Hk & ->)%pow2_exp. replace (2 ^ k - 1) with (Z.ones k) by (rewrite Z.ones_equiv; lia). by apply Z.land_ones. Qed.

Lemma fits_mod_pow2 a w : 0 <= w -> fits w (a mod 2 ^ w).
Proof. intros. apply Z.mod_pos_bound. lia. Qed.

Section Inv.
Context `{cfg : Config} `{vcfg : VirtioConfig} {W : Type} `{board : !VirtioBoard W} `{bb : !BlockBoard W} `{laws : !VirtioLaws W blk blk_set}.
Local Abbreviation MS := (M (Sys W)).
Definition line_ok (w : W) : Prop := irq_line w = negb (int_status (vdev w) =? 0).
Definition vinv (w : W) : Prop := dev_ok (vdev w) /\ line_ok w.
Definition kept {A} (m : MS A) : Prop :=
  forall σ, vinv (world σ) -> wp m (fun _ => True) (fun _ σ' => vinv (world σ')) σ.

Lemma kept_ret {A} (a : A) : kept (mret a).
Proof. by intros σ H. Qed.
Lemma kept_bind {A B} (m : MS A) (k : A -> MS B) : kept m -> (forall a, kept (k a)) -> kept (m ≫= k).
Proof. intros Hm Hk σ H. apply wp_bind. eapply wp_mono; [by apply Hm|]. intros a σ' ?. by apply Hk. Qed.
Lemma kept_stop {A} r : kept (A := A) (stop_with r).
Proof. by intros σ H. Qed.
Lemma kept_assert b : kept (assert b).
Proof. destruct b; [apply kept_ret|apply kept_stop]. Qed.
Lemma kept_gets {A} (f : Sys W -> A) : kept (gets f).
Proof. by intros σ H. Qed.
Lemma kept_if {A} (b : bool) (m1 m2 : MS A) : kept m1 -> kept m2 -> kept (if b then m1 else m2).
Proof. by destruct b. Qed.
Lemma kept_host_read n p : kept (host_read n p).
Proof. intros σ H. unfold wp, host_read. by case_if. Qed.
Lemma kept_host_write n p v : kept (host_write n p v).
Proof. intros σ H. unfold wp, host_write. by case_if. Qed.
Lemma kept_read_bytes p n : kept (host_read_bytes p n).
Proof. intros σ H. unfold wp, host_read_bytes. by case_if. Qed.
Lemma kept_write_bytes p bs : kept (host_write_bytes p bs).
Proof. intros σ H. unfold wp, host_write_bytes. by case_if. Qed.
Lemma kept_ram_ptr a rw : kept (get_ram_ptr a rw).
Proof. intros σ H. unfold wp, get_ram_ptr. by destruct (phys_mem_get_ram_ptr _ _ _) as [[]|]. Qed.
Lemma kept_buf_store pos bs buf : kept (buf_store pos bs buf).
Proof. unfold buf_store. apply kept_if; [apply kept_ret|apply kept_stop]. Qed.
Lemma kept_buf_load pos n buf : kept (buf_load pos n buf).
Proof. unfold buf_load. apply kept_if; [apply kept_ret|apply kept_stop]. Qed.
(** An assignment that leaves the interrupt status alone. *)
Lemma kept_updv (f : VIRTIODevice -> VIRTIODevice) :
  (forall s, dev_ok s -> dev_ok (f s) /\ int_status (f s) = int_status s) -> kept (updv f).
Proof.
  intros Hf σ [H1 H2]. destruct (Hf _ H1) as [H3 H4]. cbn. split; cbn; [by rewrite vdev_vset|].
  unfold line_ok in *. by rewrite irq_vset, vdev_vset, H4.
Qed.
(** An assignment of the interrupt status and of the line. *)
Lemma kept_irq (f : VIRTIODevice -> VIRTIODevice) v :
  (forall s, dev_ok s -> dev_ok (f s) /\ (int_status (f s) =? 0) = (v =? 0)) -> kept (_ ← updv f; set_irq v).
Proof.
  intros Hf σ [H1 H2]. destruct (Hf _ H1) as [H3 H4]. unfold wp, mbind, M_bind, updv, modify.
  set (σ1 := upd_world _ σ). destruct (set_irq_ok v σ1) as (σ' & -> & _ & _ & E3 & _ & E5). subst σ1. cbn in E3.
  rewrite vdev_vset in E3. split; [by rewrite E3|]. unfold line_ok. by rewrite E3, E5, H4.
Qed.
Lemma kept_blk (f : BlockState -> BlockState) : kept (updb f).
Proof.
  intros σ [H1 H2]. cbn. split; cbn; [by rewrite vdev_st_set|]. unfold line_ok in *. by rewrite irq_st_set, vdev_st_set.
Qed.

(** One step through the body of a function. *)
Ltac kept_step := cbv zeta; match goal with
  | |- forall _, _ => intros ?
  | |- kept (updv _ ≫= fun _ => set_irq _) => apply kept_irq
  | |- kept (_ ≫= _) => apply kept_bind
  | |- kept (mret _) => apply kept_ret
  | |- kept (stop_with _) => apply kept_stop
  | |- kept (assert _) => apply kept_assert
  | |- kept (gets _) => apply kept_gets
  | |- kept getv => apply kept_gets
  | |- kept getb => apply kept_gets
  | |- kept (uninit_buf _) => apply kept_gets
  | |- kept (if _ then _ else _) => apply kept_if
  | |- kept (match ?x with _ => _ end) => destruct x
  | |- kept (host_read _ _) => apply kept_host_read
  | |- kept (host_write _ _ _) => apply kept_host_write
  | |- kept (host_read_bytes _ _) => apply kept_read_bytes
  | |- kept (host_write_bytes _ _) => apply kept_write_bytes
  | |- kept (get_ram_ptr _ _) => apply kept_ram_ptr
  | |- kept (buf_store _ _ _) => apply kept_buf_store
  | |- kept (buf_load _ _ _) => apply kept_buf_load
  | |- kept (updb _) => apply kept_blk
  | |- kept (upd_req _) => apply kept_blk
  | H : forall _, _ |- _ => solve [apply H]
  | H : kept _ |- _ => exact H
  | _ => solve [eauto with kept]
  end.
Ltac kept_all := repeat kept_step.
Create HintDb kept discriminated.

Lemma kept_get_queue i : kept (get_queue i).
Proof. unfold get_queue. kept_all. Qed.
Lemma kept_read16 a : kept (virtio_read16 a).
Proof. unfold virtio_read16. kept_all. Qed.
Lemma kept_write16 a v : kept (virtio_write16 a v).
Proof. unfold virtio_write16. kept_all. Qed.
Lemma kept_write32 a v : kept (virtio_write32 a v).
Proof. unfold virtio_write32. kept_all. Qed.
Lemma kept_from_ram fuel : forall buf pos a n, kept (from_ram_loop fuel buf pos a n).
Proof. induction fuel as [|fuel IH]; intros; cbn [from_ram_loop]; kept_all. Qed.
Lemma kept_to_ram fuel : forall a buf pos n, kept (to_ram_loop fuel a buf pos n).
Proof. induction fuel as [|fuel IH]; intros; cbn [to_ram_loop]; kept_all. Qed.
#[local] Hint Resolve kept_get_queue kept_read16 kept_write16 kept_write32 kept_from_ram kept_to_ram : kept.
Lemma kept_get_desc d q i : kept (get_desc d q i).
Proof. unfold get_desc, virtio_memcpy_from_ram. kept_all. Qed.
#[local] Hint Resolve kept_get_desc : kept.
Lemma kept_find_write fuel : forall q d, kept (find_write_desc fuel q d).
Proof. induction fuel as [|fuel IH]; intros; cbn [find_write_desc]; kept_all. Qed.
Lemma kept_find_offset fuel : forall q w d o, kept (find_offset fuel q w d o).
Proof. induction fuel as [|fuel IH]; intros; cbn [find_offset]; kept_all. Qed.
Lemma kept_copy_loop fuel : forall q w d buf pos o n, kept (copy_loop fuel q w d buf pos o n).
Proof.
  induction fuel as [|fuel IH]; intros; cbn [copy_loop]; [kept_all|]. unfold virtio_memcpy_to_ram, virtio_memcpy_from_ram. kept_all.
Qed.
#[local] Hint Resolve kept_find_write kept_find_offset kept_copy_loop : kept.
Lemma kept_memcpy fuel buf q i o n w : kept (memcpy_to_from_queue fuel buf q i o n w).
Proof. unfold memcpy_to_from_queue. kept_all. Qed.
#[local] Hint Resolve kept_memcpy : kept.
Lemma kept_from_queue fuel buf q i o n : kept (memcpy_from_queue fuel buf q i o n).
Proof. unfold memcpy_from_queue. kept_all. Qed.
Lemma kept_to_queue fuel q i o buf n : kept (memcpy_to_queue fuel q i o buf n).
Proof. unfold memcpy_to_queue. kept_all. Qed.
Lemma kept_rw_write fuel : forall q d r w, kept (rw_write_loop fuel q d r w).
Proof. induction fuel as [|fuel IH]; intros; cbn [rw_write_loop]; kept_all. Qed.
Lemma kept_rw_read fuel : forall q d r, kept (rw_read_loop fuel q d r).
Proof. induction fuel as [|fuel IH]; intros; cbn [rw_read_loop]; kept_all. Qed.
#[local] Hint Resolve kept_from_queue kept_to_queue kept_rw_write kept_rw_read : kept.
Lemma kept_rw_size fuel q i : kept (get_desc_rw_size fuel q i).
Proof. unfold get_desc_rw_size. kept_all. Qed.
#[local] Hint Resolve kept_rw_size : kept.

(** ** Assignments of the device *)
Lemma dev_ok_set_int v s : fits 32 v -> dev_ok s -> dev_ok (with_int_status v s).
Proof. intros Hv [H1 H2 H3 H4 H5 H6 H7 H8 H9 H10]. by split. Qed.
Lemma dev_ok_queues f i s : (forall q, queue_ok q -> queue_ok (f q)) -> dev_ok s -> dev_ok (with_queue (alter f i (queue s)) s).
Proof.
  intros Hf [H1 H2 H3 H4 H5 H6 H7 H8 H9 H10]. split; try done; cbn [queue with_queue]; [by rewrite length_alter|].
  apply Forall_alter; [done|]. intros q _ Hq. by apply Hf.
Qed.
Lemma dev_ok_config c s : length c = length (config_space s) -> bytes c -> dev_ok s -> dev_ok (with_config c s).
Proof. intros Hl Hb [H1 H2 H3 H4 H5 H6 H7 H8 H9 H10]. split; try done. cbn. by rewrite Hl. Qed.
Lemma queue_ok_reset q : queue_ok (reset_queue q).
Proof.
  assert (0 <= VIRTIO_ADDR_BITS) by (destruct VIRTIO_ADDR_BITS_ok; lia).
  split; cbn; try (apply fits_0; lia). by split.
Qed.
Lemma reset_ok s : length (queue s) = MAX_QUEUE -> fits 32 (device_id s) -> fits 32 (vendor_id s) -> fits 32 (device_features s) ->
  3 <= config_space_size s <= Z.of_nat MAX_CONFIG_SPACE_SIZE -> length (config_space s) = MAX_CONFIG_SPACE_SIZE ->
  bytes (config_space s) -> dev_ok (virtio_reset s).
Proof.
  intros. split; try done; cbn; try (apply fits_0; lia).
  - by rewrite length_map.
  - apply List.Forall_map, List.Forall_forall. intros q _. apply queue_ok_reset.
Qed.
Lemma dev_ok_reset s : dev_ok s -> dev_ok (virtio_reset s) /\ int_status (virtio_reset s) = 0.
Proof. intros [H1 H2 H3 H4 H5 H6 (? & ? & ?) H8 H9 H10]. split; [|done]. by apply reset_ok. Qed.
Lemma kept_upd_queue i f : (forall q, queue_ok q -> queue_ok (f q)) -> kept (upd_queue i f).
Proof.
  intros Hf. unfold upd_queue. apply kept_bind; [apply kept_get_queue|]. intros _. apply kept_updv.
  intros s Hs. split; [by apply dev_ok_queues|done].
Qed.
Lemma kept_last i : kept (upd_queue i (fun q => q_last (u16 (last_avail_idx q + 1)) q)).
Proof. apply kept_upd_queue. intros q [H1 H2 H3 H4 H5 H6]. split; try done. by apply fits_wrap. Qed.
#[local] Hint Resolve kept_last : kept.
Lemma lor_nz a b : 0 <= a -> 0 < b -> (a .| b =? 0) = false.
Proof. intros Ha Hb. apply Z.eqb_neq. intros H. apply Z.lor_eq_0_iff in H. lia. Qed.
Lemma kept_raise b : 0 < b < 2 ^ 32 -> kept (_ ← updv (fun s => with_int_status (int_status s .| b) s); set_irq 1).
Proof.
  intros Hb. apply kept_irq. intros s Hs. split.
  - apply dev_ok_set_int; [|done]. apply fits_lor; [apply Hs|split; lia].
  - cbn. rewrite lor_nz; [done|apply Hs|lia].
Qed.
Lemma kept_consume q i l : kept (virtio_consume_desc q i l).
Proof. unfold virtio_consume_desc. repeat (first [apply kept_raise; lia|kept_step]). Qed.
#[local] Hint Resolve kept_consume : kept.
Lemma kept_change_notify : kept virtio_config_change_notify.
Proof. by apply kept_raise. Qed.
Lemma kept_avail_desc qs : kept (avail_desc qs).
Proof. apply kept_read16. Qed.
#[local] Hint Resolve kept_avail_desc : kept.
Lemma kept_notify (recv : Z -> Z -> Z -> Z -> MS Z) fuel q : (forall a b c d, kept (recv a b c d)) -> kept (queue_notify fuel recv q).
Proof.
  intros Hr. unfold queue_notify. apply kept_bind; [apply kept_get_queue|]. intros qs. apply kept_if; [apply kept_ret|].
  apply kept_bind; [apply kept_read16|]. intros idx. generalize (Z.to_nat 65536). intros n.
  induction n as [|n IH]; cbn [notify_loop]; kept_all.
Qed.

(** ** The registers *)
Lemma kept_getv {A} (k : VIRTIODevice -> MS A) : (forall s, dev_ok s -> kept (k s)) -> kept (getv ≫= k).
Proof. intros Hk σ H. apply wp_bind. unfold wp, getv, gets. apply Hk; [apply H|done]. Qed.
Lemma kept_cfg_byte s o : kept (cfg_byte s o).
Proof. unfold cfg_byte. kept_all. Qed.
Lemma kept_config_put o bs : (o + length bs <= MAX_CONFIG_SPACE_SIZE)%nat -> bytes bs ->
  kept (updv (fun s => with_config (splice o bs (config_space s)) s)).
Proof.
  intros Ho Hb. apply kept_updv. intros s Hs. split; [|done]. pose proof (do_cfg_len s Hs).
  apply dev_ok_config; [apply length_splice; lia|apply bytes_splice; [done|apply Hs]|done].
Qed.
Lemma bytes_u8 (l : list Z) : bytes (map (fun v => u8 v) l).
Proof. apply List.Forall_map, List.Forall_forall. intros. by apply fits_wrap. Qed.
Lemma kept_config_write (cw : MS unit) offset val sz : kept cw -> fits 32 offset -> kept (virtio_config_write cw offset val sz).
Proof.
  intros Hc [Ho _]. unfold virtio_config_write. apply kept_getv. intros s Hs. pose proof (do_cfg_size s Hs).
  pose proof (bytes_u8 [val]) as B1. pose proof (bytes_u8 [u16 val; u16 val ≫ 8]) as B2.
  pose proof (bytes_u8 [val; val ≫ 8; val ≫ 16; val ≫ 24]) as B4.
  assert (forall o bs, (o + length bs <= MAX_CONFIG_SPACE_SIZE)%nat -> bytes bs -> kept
    (_ ← cfg_byte s (Z.of_nat o + Z.of_nat (length bs) - 1); _ ← updv (fun s => with_config (splice o bs (config_space s)) s); cw)) as Hput.
  { intros o bs H1 H2. apply kept_bind; [apply kept_cfg_byte|]. intros _. apply kept_bind; [by apply kept_config_put|done]. }
  unfold MAX_CONFIG_SPACE_SIZE in *.
  destruct sz as [|[[]|[]|]|]; try apply kept_ret.
  - destruct (Z.ltb_spec offset (config_space_size s)); [|apply kept_ret].
    specialize (Hput (Z.to_nat offset) [u8 val]). cbn [length] in Hput.
    replace (Z.of_nat (Z.to_nat offset) + Z.of_nat 1 - 1) with offset in Hput by lia. apply Hput; [lia|exact B1].
  - rewrite wrap_fits by (split; lia). destruct (Z.ltb_spec offset (config_space_size s - 3)); [|apply kept_ret].
    specialize (Hput (Z.to_nat offset) [u8 val; u8 (val ≫ 8); u8 (val ≫ 16); u8 (val ≫ 24)]). cbn [length] in Hput.
    replace (Z.of_nat (Z.to_nat offset) + Z.of_nat 4 - 1) with (offset + 3) in Hput by lia. apply Hput; [lia|exact B4].
  - rewrite wrap_fits by (split; lia). destruct (Z.ltb_spec offset (config_space_size s - 1)); [|apply kept_ret].
    specialize (Hput (Z.to_nat offset) [u8 (u16 val); u8 (u16 val ≫ 8)]). cbn [length] in Hput.
    replace (Z.of_nat (Z.to_nat offset) + Z.of_nat 2 - 1) with (offset + 1) in Hput by lia. apply Hput; [lia|exact B2].
Qed.
Lemma fits_addr_low a v : fits VIRTIO_ADDR_BITS a -> fits 32 v -> fits VIRTIO_ADDR_BITS (set_low32 a v).
Proof.
  unfold set_low32. destruct VIRTIO_ADDR_BITS_ok as [->| ->]; intros Ha Hv; [done|]. change (64 =? 64) with true. cbv iota.
  apply fits_lor; [by apply fits_land_l|by eapply fits_mono; [exact Hv|lia]].
Qed.
Lemma fits_addr_high a v : has_high = true -> fits 32 v -> fits VIRTIO_ADDR_BITS (set_high32 a v).
Proof.
  unfold set_high32, has_high. intros ->%Z.eqb_eq [H1 H2]. apply fits_lor.
  - apply fits_land_r. by vm_compute.
  - rewrite Z.shiftl_mul_pow2 by lia. split; [lia|]. change (2 ^ 64) with (2 ^ 32 * 2 ^ 32). nia.
Qed.
Lemma kept_sel f : (forall q, queue_ok q -> queue_ok (f q)) -> kept (upd_sel f).
Proof. intros Hf. apply kept_getv. intros s _. by apply kept_upd_queue. Qed.
Section Val.
Context (v : Z) (Hv : fits 32 v).
Lemma kept_low (g : Z -> QueueState -> QueueState) (addr : QueueState -> Z) :
  (forall q, queue_ok q -> fits VIRTIO_ADDR_BITS (addr q)) -> (forall a q, fits VIRTIO_ADDR_BITS a -> queue_ok q -> queue_ok (g a q)) ->
  kept (upd_sel (fun q => g (set_low32 (addr q) v) q)).
Proof. intros Ha Hg. apply kept_sel. intros q Hq. apply Hg; [|done]. apply fits_addr_low; auto. Qed.
Lemma kept_high (g : Z -> QueueState -> QueueState) (addr : QueueState -> Z) :
  (forall q, queue_ok q -> fits VIRTIO_ADDR_BITS (addr q)) -> (forall a q, fits VIRTIO_ADDR_BITS a -> queue_ok q -> queue_ok (g a q)) ->
  kept (if has_high then upd_sel (fun q => g (set_high32 (addr q) v) q) else mret tt).
Proof.
  intros _ Hg. destruct has_high eqn:E; [|apply kept_ret]. apply kept_sel. intros q Hq. apply Hg; [|done]. by apply fits_addr_high.
Qed.
Lemma q_desc_ok a q : fits VIRTIO_ADDR_BITS a -> queue_ok q -> queue_ok (q_desc a q).
Proof. intros Ha [H1 H2 H3 H4 H5 H6]. by split. Qed.
Lemma q_avail_ok a q : fits VIRTIO_ADDR_BITS a -> queue_ok q -> queue_ok (q_avail a q).
Proof. intros Ha [H1 H2 H3 H4 H5 H6]. by split. Qed.
Lemma q_used_ok a q : fits VIRTIO_ADDR_BITS a -> queue_ok q -> queue_ok (q_used a q).
Proof. intros Ha [H1 H2 H3 H4 H5 H6]. by split. Qed.
Lemma kept_ready : kept (upd_sel (q_ready (v .& 1))).
Proof. apply kept_sel. intros q [H1 H2 H3 H4 H5 H6]. split; try done. by apply fits_land_r. Qed.
Lemma kept_num : kept (write_queue_num v).
Proof.
  unfold write_queue_num. destruct (_ =? 0) eqn:E1, (Z.ltb_spec 0 v); cbn [andb]; try apply kept_ret.
  apply Z.eqb_eq in E1. destruct Hv as [V1 V2]. rewrite wrap_fits in E1 by (split; lia). apply kept_sel.
  intros q [H1 H2 H3 H4 H5 H6]. by split.
Qed.
Lemma kept_fsel : kept (updv (with_features_sel v)).
Proof. apply kept_updv. intros s [H1 H2 H3 H4 H5 H6 H7 H8 H9 H10]. by split. Qed.
Lemma kept_qsel : kept (if v <? Z.of_nat MAX_QUEUE then updv (with_queue_sel v) else mret tt).
Proof.
  destruct (Z.ltb_spec v (Z.of_nat MAX_QUEUE)); [|apply kept_ret].
  apply kept_updv. intros s [H1 H2 H3 H4 H5 H6 H7 H8 H9 H10]. split; [split; try done|done]. cbn. split; [apply Hv|done].
Qed.
End Val.

(** The three registers of the addresses, low and high. *)
Lemma kept_addrs v : fits 32 v ->
  kept (upd_sel (fun q => q_desc (set_low32 (desc_addr q) v) q)) /\ kept (upd_sel (fun q => q_avail (set_low32 (avail_addr q) v) q)) /\
  kept (upd_sel (fun q => q_used (set_low32 (used_addr q) v) q)) /\
  kept (if has_high then upd_sel (fun q => q_desc (set_high32 (desc_addr q) v) q) else mret tt) /\
  kept (if has_high then upd_sel (fun q => q_avail (set_high32 (avail_addr q) v) q) else mret tt) /\
  kept (if has_high then upd_sel (fun q => q_used (set_high32 (used_addr q) v) q) else mret tt).
Proof.
  intros Hv. repeat split.
  - apply (kept_low v Hv q_desc desc_addr); [apply qo_desc|apply q_desc_ok].
  - apply (kept_low v Hv q_avail avail_addr); [apply qo_avail|apply q_avail_ok].
  - apply (kept_low v Hv q_used used_addr); [apply qo_used|apply q_used_ok].
  - apply (kept_high v Hv q_desc desc_addr); [apply qo_desc|apply q_desc_ok].
  - apply (kept_high v Hv q_avail avail_addr); [apply qo_avail|apply q_avail_ok].
  - apply (kept_high v Hv q_used used_addr); [apply qo_used|apply q_used_ok].
Qed.
(** set_irq keeps the devices, and sets the line. *)
Lemma wp_set_irq v σ (Q : unit -> Sys W -> Prop) :
  (forall σ', vdev (world σ') = vdev (world σ) -> irq_line (world σ') = negb (v =? 0) -> Q tt σ') ->
  wp (set_irq v) (fun _ => True) Q σ.
Proof. intros HQ. unfold wp. destruct (set_irq_ok v σ) as (σ' & -> & _ & _ & E3 & _ & E5). by apply HQ. Qed.
Lemma kept_status v : fits 32 v -> kept (write_status v).
Proof.
  intros Hv σ [H L]. unfold write_status. apply wp_bind. unfold wp at 1, updv, modify. cbn [upd_world].
  assert (dev_ok (with_status v (vdev (world σ)))) as H1 by (destruct H; by split).
  destruct (v =? 0) eqn:E.
  - apply wp_bind, wp_set_irq. intros σ' E1 E2. cbn in E1. rewrite vdev_vset in E1. unfold wp, updv, modify.
    destruct (dev_ok_reset (vdev (world σ'))) as [R1 R2]; [by rewrite E1|]. split; cbn; [by rewrite vdev_vset|].
    unfold line_ok. by rewrite irq_vset, vdev_vset, E2.
  - split; cbn; [by rewrite vdev_vset|]. unfold line_ok in *. by rewrite irq_vset, vdev_vset, L.
Qed.
Lemma kept_ack v : kept (_ ← updv (fun s => with_int_status (int_status s .& u32 (Z.lnot v)) s); s ← getv;
  if int_status s =? 0 then set_irq 0 else mret tt).
Proof.
  intros σ [H L]. apply wp_bind. unfold wp at 1, updv, modify. pose (s := with_int_status (int_status (vdev (world σ)) .& u32 (Z.lnot v)) (vdev (world σ))).
  assert (dev_ok s) as Hs by (apply dev_ok_set_int; [apply fits_land_l, H|done]).
  apply wp_bind. unfold wp at 1, getv, gets. cbn [world upd_world]. rewrite vdev_vset. fold s.
  destruct (int_status s =? 0) eqn:E.
  - apply wp_set_irq. intros σ' E1 E2. cbn in E1. rewrite vdev_vset in E1. split; [by rewrite E1|].
    unfold line_ok. rewrite E1, E2. fold s. by rewrite E.
  - split; cbn; [by rewrite vdev_vset|]. unfold line_ok in *. rewrite irq_vset, vdev_vset, L. fold s. rewrite E.
    destruct (int_status (vdev (world σ)) =? 0) eqn:E0; [|done]. apply Z.eqb_eq in E0. cbn in E. by rewrite E0 in E.
Qed.
Lemma kept_isr (r : Z) : kept (_ ← updv (with_int_status 0); _ ← set_irq 0; mret r).
Proof.
  intros σ [H L]. apply wp_bind. unfold wp at 1, updv, modify.
  apply wp_bind, wp_set_irq. intros σ' E1 E2. cbn in E1. rewrite vdev_vset in E1.
  split; [rewrite E1; by apply dev_ok_set_int; [apply fits_0|]|]. unfold line_ok. by rewrite E1, E2.
Qed.
Lemma kept_sel_queue : kept sel_queue.
Proof. unfold sel_queue. kept_all. Qed.
Lemma kept_pci_read o sz : kept (virtio_pci_read o sz).
Proof.
  unfold virtio_pci_read. cbv zeta. apply kept_bind; [apply kept_gets|]. intros s.
  assert (kept (virtio_config_read (o .& 0xfff) sz)) as Hc by (unfold virtio_config_read; pose proof kept_cfg_byte; kept_all).
  pose proof (kept_isr (int_status s)). assert (forall v : Z, kept (mret v)) as Hr by (intros; apply kept_ret).
  assert (forall g : QueueState -> Z, kept (q ← sel_queue; mret (g q))) as Hq
    by (intros; apply kept_bind; [apply kept_sel_queue|intros; apply kept_ret]).
  remember (o ≫ 12) as page eqn:E1. remember (o .& 4095) as off eqn:E2. clear E1 E2.
  repeat (match goal with |- kept (match ?x with _ => _ end) => destruct x end; try first [assumption|apply Hr|apply Hq]).
Qed.

Section Transport.
Context (recv : Z -> Z -> Z -> Z -> MS Z) (cw : MS unit) (fuel : nat).
Context (Hrecv : forall a b c d, kept (recv a b c d)) (Hcw : kept cw).
Lemma kept_kick q : kept (if q <? Z.of_nat MAX_QUEUE then queue_notify fuel recv q else mret tt).
Proof. apply kept_if; [by apply kept_notify|apply kept_ret]. Qed.
Lemma kept_mmio_write o v sz : fits 32 o -> fits 32 v -> kept (virtio_mmio_write fuel recv cw o v sz).
Proof.
  intros Ho Hv. destruct (kept_addrs v Hv) as (A1 & A2 & A3 & A4 & A5 & A6).
  unfold virtio_mmio_write. destruct (Z.leb_spec 0x100 o).
  { apply kept_config_write; [done|]. destruct Ho. split; lia. }
  apply kept_if; [|apply kept_ret]. clear H Ho.
  pose proof (kept_fsel v Hv). pose proof (kept_qsel v Hv). pose proof (kept_num v Hv). pose proof (kept_status v Hv).
  pose proof (kept_ready v). pose proof (kept_kick v). pose proof (kept_ack v). pose proof (kept_ret (A := unit) tt).
  repeat (match goal with |- kept (match ?x with _ => _ end) => destruct x end; try assumption).
Qed.
Lemma kept_pci_write o v sz : fits 32 v -> kept (virtio_pci_write fuel recv cw o v sz).
Proof.
  intros Hv. destruct (kept_addrs v Hv) as (A1 & A2 & A3 & A4 & A5 & A6). unfold virtio_pci_write. cbv zeta.
  assert (fits 32 (o .& 0xfff)) as Ho by (apply fits_land_r; by vm_compute).
  pose proof (kept_config_write cw _ v sz Hcw Ho).
  pose proof (kept_fsel v Hv). pose proof (kept_qsel v Hv). pose proof (kept_num v Hv). pose proof (kept_status v Hv).
  pose proof (kept_ready v). pose proof (kept_kick v). pose proof (kept_ret (A := unit) tt). clear Ho.
  remember (o ≫ 12) as page eqn:E1. remember (o .& 4095) as off eqn:E2. clear E1 E2.
  repeat (match goal with |- kept (match ?x with _ => _ end) => destruct x end; try assumption).
Qed.
End Transport.

(** ** Reads *)

(** A register of 32 bits, read without effect. *)
Definition reads_reg (m : MS Z) : Prop := forall σ, dev_ok (vdev (world σ)) -> exists v, m σ = Ok v σ /\ fits 32 v.
Lemma reg_ret v : fits 32 v -> reads_reg (mret v).
Proof. intros H σ _. by exists v. Qed.
Lemma reg_getv (k : VIRTIODevice -> MS Z) : (forall s, dev_ok s -> reads_reg (k s)) -> reads_reg (getv ≫= k).
Proof. intros Hk σ H. unfold mbind, M_bind, getv, gets. by apply Hk. Qed.
Lemma reg_sel (g : QueueState -> Z) : (forall q, queue_ok q -> fits 32 (g q)) -> reads_reg (q ← sel_queue; mret (g q)).
Proof.
  intros Hg σ [H1 H2 H3 H4 H5 H6 H7 H8 H9 H10]. unfold sel_queue, get_queue, getv, gets, mbind, M_bind.
  destruct (lookup_lt_is_Some_2 (queue (vdev (world σ))) (Z.to_nat (queue_sel (vdev (world σ))))) as [q Hq].
  { rewrite H5. lia. }
  rewrite Hq, (proj2 (Z.ltb_ge (queue_sel _) 0)) by lia. exists (g q). split; [done|]. apply Hg.
  by apply (proj1 (list.Forall_lookup _ _) H6 _ _ Hq).
Qed.
Lemma reg_high (g : QueueState -> Z) : (forall q, queue_ok q -> fits 32 (g q)) ->
  reads_reg (if has_high then q ← sel_queue; mret (g q) else mret 0).
Proof. intros Hg. destruct has_high; [by apply reg_sel|apply reg_ret; by apply fits_0]. Qed.
Lemma cfg_byte_ok s o (σ : Sys W) : dev_ok s -> o < config_space_size s -> exists b, cfg_byte s o σ = Ok b σ /\ fits 8 b.
Proof.
  intros H Ho. unfold cfg_byte. pose proof (do_cfg_size s H). pose proof (do_cfg_len s H).
  destruct (lookup_lt_is_Some_2 (config_space s) (Z.to_nat o)) as [b Hb]; [lia|]. rewrite Hb. exists b. split; [done|].
  by apply (proj1 (list.Forall_lookup _ _) (do_cfg s H) _ _ Hb).
Qed.
Lemma reg_config o sz : fits 32 o -> 0 <= sz <= 2 -> reads_reg (virtio_config_read o sz).
Proof.
  intros [Ho _] Hsz. unfold virtio_config_read. apply reg_getv. intros s Hs σ _. pose proof (do_cfg_size s Hs).
  unfold MAX_CONFIG_SPACE_SIZE in *. assert (sz = 0 \/ sz = 1 \/ sz = 2) as [->|[->| ->]] by lia.
  - destruct (Z.ltb_spec o (config_space_size s)); [|by exists 0].
    destruct (cfg_byte_ok s o σ Hs) as (b & -> & Hb); [done|]. exists b. split; [done|by eapply fits_mono; [exact Hb|lia]].
  - rewrite wrap_fits by (split; lia). destruct (Z.ltb_spec o (config_space_size s - 1)); [|by exists 0].
    unfold mbind, M_bind. destruct (cfg_byte_ok s (o + 1) σ Hs) as (b & -> & _); [lia|]. eexists. split; [done|].
    eapply fits_mono; [by apply fits_wrap|lia].
  - rewrite wrap_fits by (split; lia). destruct (Z.ltb_spec o (config_space_size s - 3)); [|by exists 0].
    unfold mbind, M_bind. destruct (cfg_byte_ok s (o + 3) σ Hs) as (b & -> & _); [lia|]. eexists. split; [done|]. by apply fits_wrap.
Qed.
Lemma features_fits s : dev_ok s -> fits 32 (read_features s).
Proof.
  intros H. destruct (do_ids s H) as (_ & _ & Hf). unfold read_features.
  destruct (device_features_sel s) as [|[]|]; try done; by vm_compute.
Qed.
Lemma reg_mmio o sz : fits 32 o -> 0 <= sz <= 2 -> reads_reg (virtio_mmio_read o sz).
Proof.
  intros Ho Hsz. unfold virtio_mmio_read. destruct (Z.leb_spec 0x100 o).
  { apply reg_config; [|done]. destruct Ho. split; lia. }
  destruct (sz =? 2); [|apply reg_ret; by apply fits_0]. clear H Ho Hsz. apply reg_getv. intros s Hs.
  pose proof (features_fits s Hs). destruct (do_ids s Hs) as (? & ? & ?). pose proof (do_fsel s Hs). pose proof (do_int s Hs).
  pose proof (do_status s Hs). assert (fits 32 (queue_sel s)) by (pose proof (do_qsel s Hs) as Hq; change (Z.of_nat MAX_QUEUE) with 8 in Hq; split; lia).
  assert (forall q, queue_ok q -> fits 32 (qnum q)) by (intros q Hq; destruct (qo_num q Hq) as [[? _] ?]; split; lia).
  assert (forall q, queue_ok q -> fits 32 (ready q)) by (intros q [Hq _ _ _ _ _]; by eapply fits_mono; [exact Hq|lia]).
  repeat (match goal with |- reads_reg (match ?x with _ => _ end) => destruct x end;
    try (apply reg_ret; first [assumption|by vm_compute]);
    try (apply reg_sel; first [assumption|intros; by apply fits_wrap]); try (apply reg_high; intros; by apply fits_wrap)).
Qed.

(** ** The block device *)
Section Blk.
Context (fuel : nat).
Context (Hread : forall s buf n, kept (read_async s buf n)) (Hwrite : forall s buf n, kept (write_async s buf n)).
Lemma kept_req_end r : kept (virtio_block_req_end fuel r).
Proof. unfold virtio_block_req_end. kept_all. Qed.
Lemma kept_recv a b c d : kept (virtio_block_recv_request fuel a b c d).
Proof. pose proof kept_req_end. unfold virtio_block_recv_request. kept_all. Qed.
Lemma kept_req_cb buf r : kept (virtio_block_req_cb fuel buf r).
Proof.
  pose proof kept_req_end. pose proof (kept_notify (virtio_block_recv_request fuel) fuel) as Hn.
  unfold virtio_block_req_cb. kept_all. apply Hn, kept_recv.
Qed.

(** What the driver and the back end can do to a block device. *)
Inductive event :=
| MmioRead (offset size_log2 : Z)
| MmioWrite (offset val size_log2 : Z)
| PciRead (offset size_log2 : Z)
| PciWrite (offset val size_log2 : Z)
| Complete (buf : list Z) (ret : Z)
| ConfigChange.
Definition event_ok (e : event) : Prop :=
  match e with
  | MmioRead o sz | PciRead o sz => fits 32 o /\ 0 <= sz <= 2
  | MmioWrite o v _ | PciWrite o v _ => fits 32 o /\ fits 32 v
  | _ => True
  end.
Definition step (e : event) : MS unit :=
  match e with
  | MmioRead o sz => _ ← virtio_mmio_read o sz; mret tt
  | MmioWrite o v sz => virtio_mmio_write fuel (virtio_block_recv_request fuel) (mret tt) o v sz
  | PciRead o sz => _ ← virtio_pci_read o sz; mret tt
  | PciWrite o v sz => virtio_pci_write fuel (virtio_block_recv_request fuel) (mret tt) o v sz
  | Complete buf ret => virtio_block_req_cb fuel buf ret
  | ConfigChange => virtio_config_change_notify
  end.
Fixpoint run (l : list event) : MS unit := match l with [] => mret tt | e :: l' => _ ← step e; run l' end.
Lemma kept_step_ok e : event_ok e -> kept (step e).
Proof.
  destruct e as [o sz|o v sz|o sz|o v sz|buf r|]; cbn [event_ok step].
  - intros [Ho Hsz] σ H. apply wp_bind. unfold wp at 1. destruct (reg_mmio o sz Ho Hsz σ) as (v & -> & _); apply H.
  - intros [Ho Hv]. apply kept_mmio_write; [apply kept_recv|apply kept_ret|done|done].
  - intros _. apply kept_bind; [apply kept_pci_read|intros; apply kept_ret].
  - intros [_ Hv]. apply kept_pci_write; [apply kept_recv|apply kept_ret|done].
  - intros _. apply kept_req_cb.
  - intros _. apply kept_change_notify.
Qed.
End Blk.

(** C25: the interrupt line of a block device is up exactly when its interrupt status is not
    zero, and its registers stay in their ranges, after any sequence of register accesses by
    the driver (on either transport) and of completions by the back end. *)
Theorem virtio_line_follows_status fuel l σ :
  (forall s buf n, kept (read_async s buf n)) -> (forall s buf n, kept (write_async s buf n)) ->
  Forall event_ok l -> dev_ok (vdev (world σ)) -> irq_line (world σ) = negb (int_status (vdev (world σ)) =? 0) ->
  match run fuel l σ with
  | Ok _ σ' => dev_ok (vdev (world σ')) /\ irq_line (world σ') = negb (int_status (vdev (world σ')) =? 0)
  | Stop _ => True
  end.
Proof.
  intros Hr Hw Hl H L. assert (kept (run fuel l)) as K; [|by apply (K σ)].
  induction Hl as [|e l He _ IH]; [apply kept_ret|]. apply kept_bind; [by apply kept_step_ok|done].
Qed.

(** ** New devices *)
Lemma dev_ok_init id size : fits 32 id -> 3 <= size <= 256 -> dev_ok (virtio_init id size).
Proof.
  intros Hid Hs. unfold virtio_init. apply reset_ok; cbn [queue device_id vendor_id device_features config_space_size config_space].
  1: apply length_replicate. 1: done. 1: by vm_compute. 1: by vm_compute. 1: done. 1: apply length_replicate.
  apply Forall_replicate. by vm_compute.
Qed.
Lemma dev_ok_put (o : nat) bs s : (o + length bs <= MAX_CONFIG_SPACE_SIZE)%nat -> bytes bs -> dev_ok s ->
  dev_ok (with_config (splice o bs (config_space s)) s).
Proof.
  intros Ho Hb Hs. pose proof (do_cfg_len s Hs).
  apply dev_ok_config; [apply length_splice; lia|apply bytes_splice; [done|apply Hs]|done].
Qed.
Lemma dev_ok_features v s : fits 32 v -> dev_ok s -> dev_ok (with_features v s).
Proof. intros Hv [H1 H2 H3 H4 H5 H6 (? & ? & ?) H8 H9 H10]. by split. Qed.
Lemma dev_ok_manual s : dev_ok s -> dev_ok (manual_queue0 s).
Proof. apply dev_ok_queues. intros q [H1 H2 H3 H4 H5 H6]. by split. Qed.
Lemma init_ok nb mac : length mac = 6%nat -> bytes mac ->
  dev_ok (virtio_block_init nb) /\ dev_ok (virtio_net_init mac) /\ dev_ok virtio_console_init /\ dev_ok virtio_input_init.
Proof.
  intros Hl Hm. assert (forall id, fits 32 id -> dev_ok (virtio_init id 8)) as H8 by (intros; by apply dev_ok_init).
  split; [|split; [|split]].
  - set (x := u32 (u64 nb ≫ 32)). set (y := u32 nb).
    apply (dev_ok_put 4 [u8 x; u8 (x ≫ 8); u8 (x ≫ 16); u8 (x ≫ 24)] (with_config (put_le32 (config_space (virtio_init 2 8)) 0 y) (virtio_init 2 8)));
      [unfold MAX_CONFIG_SPACE_SIZE; cbn [length]; lia|apply (bytes_u8 [x; x ≫ 8; x ≫ 16; x ≫ 24])|].
    apply (dev_ok_put 0 [u8 y; u8 (y ≫ 8); u8 (y ≫ 16); u8 (y ≫ 24)]);
      [unfold MAX_CONFIG_SPACE_SIZE; cbn [length]; lia|apply (bytes_u8 [y; y ≫ 8; y ≫ 16; y ≫ 24])|by apply H8].
  - set (s := manual_queue0 (with_features (1 ≪ 5) (virtio_init 1 8))).
    assert (dev_ok s) as Hs by (apply dev_ok_manual, dev_ok_features; [by vm_compute|by apply H8]).
    apply (dev_ok_put 6 [0; 0] (with_config (splice 0 (take 6 mac) (config_space s)) s)); [unfold MAX_CONFIG_SPACE_SIZE; cbn [length]; lia|by repeat constructor|].
    apply dev_ok_put; [rewrite length_take, Hl; unfold MAX_CONFIG_SPACE_SIZE; lia|by apply Forall_take|done].
  - by apply dev_ok_manual, dev_ok_features, dev_ok_init.
  - by apply dev_ok_manual, dev_ok_init.
Qed.

(** Reading a register is total and typed.  A device whose registers are in their ranges
    answers every read of one, two or four bytes with a 32-bit value and without any effect;
    every device is such when it is made, and after a reset. *)
Theorem virtio_registers_typed σ o sz nb mac : dev_ok (vdev (world σ)) -> fits 32 o -> 0 <= sz <= 2 ->
  length mac = 6%nat -> bytes mac ->
  (exists v, virtio_mmio_read o sz σ = Ok v σ /\ fits 32 v) /\ dev_ok (virtio_reset (vdev (world σ))) /\
  dev_ok (virtio_block_init nb) /\ dev_ok (virtio_net_init mac) /\ dev_ok virtio_console_init /\ dev_ok virtio_input_init.
Proof.
  intros H Ho Hsz Hl Hm. split; [by apply reg_mmio|]. split; [by apply dev_ok_reset|by apply init_ok].
Qed.

Lemma pow2_log2 n : 0 < n -> (n .& (n - 1) = 0 <-> n = 2 ^ Z.log2 n).
Proof.
  intros Hn. split; intros H.
  - destruct (pow2_exp n) as (k & Hk & ->); [by split|]. by rewrite Z.log2_pow2.
  - rewrite H. set (k := Z.log2 n). pose proof (Z.log2_nonneg n). fold k in H0. replace (2 ^ k - 1) with (Z.ones k) by (rewrite Z.ones_equiv; lia).
    rewrite Z.land_ones by done. by apply Z_mod_same_full.
Qed.
(** C26: the rings.  For a queue in a device that the transports can produce, of at most 2^15 entries (the largest size of
    the specification): virtio_consume_desc stores the head and the length of a chain in the entry of the used ring whose
    number is the remainder of its index by the number of entries, which lies inside the ring, advances the index modulo 2^16, and
    changes no other byte of the guest; the next chain is read from the entry of the available ring that is
    the remainder of the position of the device; the register of the number of entries takes powers of two, and only these. *)
Theorem virtio_ring_bounds σ q qs : dev_ok (vdev (world σ)) -> 0 <= q -> queue (vdev (world σ)) !! Z.to_nat q = Some qs -> qnum qs <= 2 ^ 15 ->
  (forall pu idx len, used_addr qs mod 4 = 0 -> region (mem_map σ) (used_addr qs) (4 + 8 * qnum qs) pu ->
   exists σ', virtio_consume_desc q idx len σ = Ok tt σ' /\
     let i := host_load (host σ) (pu + 2) 2 in let e := pu + 4 + 8 * (i mod qnum qs) in
     host_load (host σ') (pu + 2) 2 = (i + 1) mod 2 ^ 16 /\ host_load (host σ') e 4 = idx mod 2 ^ 32 /\
     host_load (host σ') (e + 4) 4 = len mod 2 ^ 32 /\ pu + 4 <= e /\ e + 8 <= pu + 4 + 8 * qnum qs /\
     forall p n, disjoint_from (pu + 2) 2 p n -> disjoint_from e 8 p n -> load_bytes (host σ') p n = load_bytes (host σ) p n) /\
  (forall pa, avail_addr qs mod 2 = 0 -> region (mem_map σ) (avail_addr qs) (4 + 2 * qnum qs) pa ->
   avail_desc qs σ = Ok (host_load (host σ) (pa + 4 + 2 * (last_avail_idx qs mod qnum qs)) 2) σ) /\
  (forall val, fits 32 val -> queue_sel (vdev (world σ)) = q -> exists σ', write_queue_num val σ = Ok tt σ' /\
     queue (vdev (world σ')) !! Z.to_nat q = Some (if (0 <? val) && (val =? 2 ^ Z.log2 val) then q_num val qs else qs)).
Proof.
  intros H Hq0 Hq Hmax. pose proof (proj1 (list.Forall_lookup _ _) (do_queues _ H) _ _ Hq) as Hqs.
  destruct (qo_num _ Hqs) as [Hp Hlt]. pose proof (proj1 Hp) as Hpos.
  assert (get_queue q σ = Ok qs σ) as Hg.
  { unfold get_queue, getv, mbind, M_bind, gets. by rewrite Hq, (proj2 (Z.ltb_ge _ _)) by lia. }
  split; [|split].
  - intros pu idx len Ha Hr. destruct (consume_at σ q qs pu idx len Hg) as (σ' & E & _ & Eh & _); [by split|].
    exists σ'. split; [exact E|]. cbv zeta. rewrite Eh.
    destruct (used_put_entry (host σ) pu (qnum qs) idx len Hpos) as (E1 & E2 & E3).
    pose proof (used_put_frame (host σ) pu (qnum qs) idx len) as Ef. unfold used_slot in E2, E3, Ef. rewrite pow2_mask in E2, E3, Ef by done.
    set (i := host_load (host σ) (pu + 2) 2) in *. pose proof (Z.mod_pos_bound i (qnum qs) Hpos).
    rewrite (Z.mul_comm 8 (i mod qnum qs)). split_and!; try done; lia.
  - intros pa Ha Hr. rewrite (avail_desc_ok σ qs pa), pow2_mask by (done || lia). by rewrite (Z.mul_comm 2).
  - intros val [V1 V2] Hsel. unfold write_queue_num.
    replace ((val .& u32 (val - 1) =? 0) && (0 <? val)) with ((0 <? val) && (val =? 2 ^ Z.log2 val)).
    2:{ destruct (Z.ltb_spec 0 val); [|by rewrite andb_false_r]. rewrite andb_true_r, wrap_fits by (split; lia).
      apply eq_true_iff_eq. cbn [andb]. rewrite !Z.eqb_eq. by rewrite pow2_log2. }
    destruct (_ && _); [|by exists σ]. unfold upd_sel, getv, upd_queue, updv, modify, mbind, M_bind, gets. rewrite Hsel, Hg.
    eexists. split; [reflexivity|]. cbn [world upd_world]. rewrite vdev_vset. cbn [queue with_queue]. by rewrite list_lookup_alter_eq, Hq.
Qed.
End Inv.
