(* ===== verification/Virtio9p.v ===== *)
(** * The 9P file system device (virtio.c: fid_find1 .. virtio_9p_init; fs.h)

    A request is a message in the readable buffers of a chain, the answer a message in
    its writable buffers.  The file system behind the device is a class: what its
    operations do to the board is theirs to say.  A file is the address of an FSFile, 0
    for a null pointer. *)
From S2P Require Export Virtio CStr.
From stdpp Require Import strings.
#[local] Open Scope Z_scope.

Definition P9_EPROTO : Z := 71.
Definition P9_ENOTSUP : Z := 524.

(** ** The types of fs.h *)
Record FSStatFS := mkStatFS {
  f_bsize : Z;
  f_blocks : Z;
  f_bfree : Z;
  f_bavail : Z;
  f_files : Z;
  f_ffree : Z;
}.
Record FSQID := mkQID { q_type : Z; q_version : Z; q_path : Z }.
Record FSStat := mkStat {
  st_qid : FSQID;
  st_mode : Z;
  st_uid : Z;
  st_gid : Z;
  st_nlink : Z;
  st_rdev : Z;
  st_size : Z;
  st_blksize : Z;
  st_blocks : Z;
  st_atime_sec : Z;
  st_atime_nsec : Z;
  st_mtime_sec : Z;
  st_mtime_nsec : Z;
  st_ctime_sec : Z;
  st_ctime_nsec : Z;
}.
Record FSLock := mkLock {
  lk_type : Z;
  lk_flags : Z;
  lk_start : Z;
  lk_length : Z;
  lk_proc_id : Z;
  lk_client_id : list Z;
}.

(** The fields that VIRTIO9PDevice adds to the device; [fid_list] is the list of its
    descriptors, a fid and its file. *)
Record P9State := mkP9 { msize : Z; fid_list : list (Z * Z); p9_busy : bool }.
Record P9OpenInfo := mkOpenInfo { oi_queue_idx : Z; oi_desc_idx : Z; oi_tag : Z }.

(** The operations of an FSDevice.  One that stores a result through a pointer returns it
    after its return value; one that fills a buffer gets its contents and returns the new
    ones.  [lock_address] and [client_id_bytes] are the address of the variable [lock] of
    the getlock request, and the bytes of its last field up to a null byte. *)
Class P9Board (W : Type) := {
  p9 : W -> P9State;
  p9_set : P9State -> W -> W;
  fs_delete : Z -> M (Sys W) unit;
  fs_statfs : M (Sys W) FSStatFS;
  fs_attach : Z -> list Z -> list Z -> M (Sys W) (Z * Z * FSQID);
  fs_walk : Z -> list (list Z) -> M (Sys W) (Z * Z * list FSQID);
  fs_mkdir : Z -> list Z -> Z -> Z -> M (Sys W) (Z * FSQID);
  fs_open : Z -> Z -> P9OpenInfo -> M (Sys W) (Z * FSQID);
  fs_create : Z -> list Z -> Z -> Z -> Z -> M (Sys W) (Z * FSQID);
  fs_stat : Z -> M (Sys W) (Z * FSStat);
  fs_setattr : Z -> Z -> Z -> Z -> Z -> Z -> Z -> Z -> Z -> Z -> M (Sys W) Z;
  fs_readdir : Z -> Z -> list Z -> Z -> M (Sys W) (Z * list Z);
  fs_read : Z -> Z -> list Z -> Z -> M (Sys W) (Z * list Z);
  fs_write : Z -> Z -> list Z -> Z -> M (Sys W) Z;
  fs_link : Z -> Z -> list Z -> M (Sys W) Z;
  fs_symlink : Z -> list Z -> list Z -> Z -> M (Sys W) (Z * FSQID);
  fs_mknod : Z -> list Z -> Z -> Z -> Z -> Z -> M (Sys W) (Z * FSQID);
  fs_readlink : list Z -> Z -> M (Sys W) (Z * list Z);
  fs_renameat : Z -> list Z -> Z -> list Z -> M (Sys W) Z;
  fs_unlinkat : Z -> list Z -> M (Sys W) Z;
  fs_lock : Z -> FSLock -> M (Sys W) Z;
  fs_getlock : Z -> FSLock -> M (Sys W) (Z * FSLock);
  lock_address : Sys W -> Z;
  client_id_bytes : Sys W -> list Z;
}.

(** ** The formats of messages, and the values that they describe *)
Inductive fmt :=
| F_end
| F_b (f : fmt)
| F_h (f : fmt)
| F_w (f : fmt)
| F_d (f : fmt)
| F_s (f : fmt)
| F_Q (f : fmt).
Fixpoint parse_fmt (l : list Byte.byte) : option fmt :=
  match l with
  | [] => Some F_end
  | c :: l' =>
      match parse_fmt l', c with
      | Some f, Byte.x62 => Some (F_b f)
      | Some f, Byte.x68 => Some (F_h f)
      | Some f, Byte.x77 => Some (F_w f)
      | Some f, Byte.x64 => Some (F_d f)
      | Some f, Byte.x73 => Some (F_s f)
      | Some f, Byte.x51 => Some (F_Q f)
      | _, _ => None
      end
  end.
Fixpoint print_fmt (f : fmt) : list Byte.byte :=
  match f with
  | F_end => []
  | F_b f => Byte.x62 :: print_fmt f
  | F_h f => Byte.x68 :: print_fmt f
  | F_w f => Byte.x77 :: print_fmt f
  | F_d f => Byte.x64 :: print_fmt f
  | F_s f => Byte.x73 :: print_fmt f
  | F_Q f => Byte.x51 :: print_fmt f
  end.
Declare Scope fmt_scope.
Delimit Scope fmt_scope with fmt.
Bind Scope fmt_scope with fmt.
String Notation fmt parse_fmt print_fmt : fmt_scope.
Fixpoint fields (f : fmt) : Type :=
  match f with
  | F_end => unit
  | F_b f | F_h f | F_w f | F_d f => Z * fields f
  | F_s f => list Z * fields f
  | F_Q f => FSQID * fields f
  end.

Definition le16 (v : Z) : list Z := put_le16 (replicate 2 0) 0 v.
Definition le32 (v : Z) : list Z := put_le32 (replicate 4 0) 0 v.
Definition le64 (v : Z) : list Z := put_le64 (replicate 8 0) 0 v.
(** The bytes that marshall stores; the result of the C function is their number. *)
Fixpoint marshall {S} (max_len : Z) (f : fmt) : fields f -> M S (list Z) :=
  match f with
  | F_end => fun _ => mret []
  | F_b f => fun '(val, r) =>
      _ ← assert (1 <=? max_len); rest ← marshall (max_len - 1) f r; mret ([u8 val] ++ rest)
  | F_h f => fun '(val, r) =>
      _ ← assert (2 <=? max_len); rest ← marshall (max_len - 2) f r; mret (le16 val ++ rest)
  | F_w f => fun '(val, r) =>
      _ ← assert (4 <=? max_len); rest ← marshall (max_len - 4) f r; mret (le32 val ++ rest)
  | F_d f => fun '(val, r) =>
      _ ← assert (8 <=? max_len); rest ← marshall (max_len - 8) f r; mret (le64 val ++ rest)
  | F_s f => fun '(str, r) =>
      let len := Z.of_nat (length str) in
      _ ← assert (len <=? 65535);
      _ ← assert (2 + len <=? max_len);
      rest ← marshall (max_len - (2 + len)) f r; mret (le16 len ++ str ++ rest)
  | F_Q f => fun '(qid, r) =>
      _ ← assert (13 <=? max_len);
      rest ← marshall (max_len - 13) f r;
      mret ([u8 (q_type qid)] ++ le32 (q_version qid) ++ le64 (q_path qid) ++ rest)
  end.

(** A char array as a C string: its bytes before the first null byte. *)
Definition as_string {S} (buf : list Z) : M S (list Z) :=
  match strlen buf with Some n => mret (take n buf) | None => stop_with StopFault end.

Section Device.
Context `{cfg : Config} `{vcfg : VirtioConfig} {W : Type} `{board : !VirtioBoard W} `{pb : !P9Board W}.
Local Abbreviation MS := (M (Sys W)).

Definition getp : MS P9State := gets (fun σ => p9 (world σ)).
Definition updp (f : P9State -> P9State) : MS unit := modify (upd_world (fun w => p9_set (f (p9 w)) w)).

(** ** Fids *)
Fixpoint fid_find1 (l : list (Z * Z)) (fid : Z) : option (Z * Z) :=
  match l with [] => None | f :: l' => if f.1 =? fid then Some f else fid_find1 l' fid end.
(** list_del of the first descriptor, and the assignment to its file *)
Fixpoint fid_del1 (l : list (Z * Z)) (fid : Z) : list (Z * Z) :=
  match l with [] => [] | f :: l' => if f.1 =? fid then l' else f :: fid_del1 l' fid end.
Fixpoint fid_assign (l : list (Z * Z)) (fid fd : Z) : list (Z * Z) :=
  match l with [] => [] | f :: l' => if f.1 =? fid then (fid, fd) :: l' else f :: fid_assign l' fid fd end.
Definition upd_fids (f : list (Z * Z) -> list (Z * Z)) : MS unit :=
  updp (fun s => mkP9 (msize s) (f (fid_list s)) (p9_busy s)).

Definition fid_find (fid : Z) : MS Z :=
  s ← getp; mret (match fid_find1 (fid_list s) fid with None => 0 | Some f => f.2 end).
Definition fid_delete (fid : Z) : MS unit :=
  s ← getp;
  match fid_find1 (fid_list s) fid with
  | None => mret tt
  | Some f => _ ← fs_delete f.2; upd_fids (fun l => fid_del1 l fid)
  end.
Definition fid_set (fid fd : Z) : MS unit :=
  s ← getp;
  match fid_find1 (fid_list s) fid with
  | Some f => _ ← fs_delete f.2; upd_fids (fun l => fid_assign l fid fd)
  | None => upd_fids (fun l => (fid, fd) :: l)
  end.

(** ** Messages *)

(** The loop of unmarshall: the values and the offset behind them; [None] is [return -1]. *)
Fixpoint unmarshall (fuel : nat) (queue_idx desc_idx offset : Z) (f : fmt) : MS (option (fields f * Z)) :=
  let scalar (n : Z) (f : fmt) (get : list Z -> Z) : MS (option (Z * fields f * Z)) :=
    buf ← uninit_buf n;
    r ← memcpy_from_queue fuel buf queue_idx desc_idx offset n;
    if nz (fst r) then mret None
    else
      rest ← unmarshall fuel queue_idx desc_idx (offset + n) f;
      mret (option_map (fun '(vs, o) => (get (snd r), vs, o)) rest) in
  match f return MS (option (fields f * Z)) with
  | F_end => mret (Some (tt, offset))
  | F_b f => scalar 1 f (fun buf => byte buf 0)
  | F_h f => scalar 2 f (fun buf => get_le16 buf 0)
  | F_w f => scalar 4 f (fun buf => get_le32 buf 0)
  | F_d f => scalar 8 f (fun buf => get_le64 buf 0)
  | F_s f =>
      buf ← uninit_buf 2;
      r ← memcpy_from_queue fuel buf queue_idx desc_idx offset 2;
      if nz (fst r) then mret None
      else
        let len := get_le16 (snd r) 0 in
        let offset := offset + 2 in
        str ← uninit_buf (len + 1);
        r ← memcpy_from_queue fuel str queue_idx desc_idx offset len;
        if nz (fst r) then mret None
        else
          str ← buf_store len [0] (snd r);
          str ← as_string str;
          rest ← unmarshall fuel queue_idx desc_idx (offset + len) f;
          mret (option_map (fun '(vs, o) => (str, vs, o)) rest)
  | F_Q f => stop_with StopAbort
  end.

Definition virtio_9p_send_reply (fuel : nat) (queue_idx desc_idx id tag : Z) (buf : list Z) (buf_len : Z) : MS unit :=
  let len := i32 (buf_len + 7) in
  buf1 ← uninit_buf len;
  buf1 ← buf_store 0 (le32 len) buf1;
  buf1 ← buf_store 4 [u8 (id + 1)] buf1;
  buf1 ← buf_store 5 (le16 tag) buf1;
  body ← buf_load 0 (Z.to_nat buf_len) buf;
  buf1 ← buf_store 7 body buf1;
  _ ← memcpy_to_queue fuel queue_idx desc_idx 0 buf1 len;
  virtio_consume_desc queue_idx desc_idx len.
(** The answer in the local buffer of 1024 bytes *)
Definition send_buf (fuel : nat) (queue_idx desc_idx id tag : Z) (buf : list Z) : MS unit :=
  virtio_9p_send_reply fuel queue_idx desc_idx id tag buf (Z.of_nat (length buf)).
Definition virtio_9p_send_error (fuel : nat) (queue_idx desc_idx tag error : Z) : MS unit :=
  buf ← marshall 4 "w" (- error, tt);
  send_buf fuel queue_idx desc_idx 6 tag buf.

Definition virtio_9p_open_reply (fuel : nat) (qid : FSQID) (err : Z) (oi : P9OpenInfo) : MS unit :=
  s ← getp;
  if err <? 0 then virtio_9p_send_error fuel (oi_queue_idx oi) (oi_desc_idx oi) (oi_tag oi) err
  else
    buf ← marshall 32 "Qw" (qid, (msize s - 24, tt));
    send_buf fuel (oi_queue_idx oi) (oi_desc_idx oi) 12 (oi_tag oi) buf.

(** ** The requests

    One definition per case of the switch, from its code behind the header.  [None] is
    [break], [Some err] is [goto error]. *)
Section Requests.
Variables (fuel : nat) (queue_idx desc_idx id tag : Z).
Local Abbreviation sizeof_buf := 1024.
Definition p9_header_len : Z := 7.
(** The end of most cases, and the label protocol_error *)
Definition p9_done (buf : list Z) : MS (option Z) :=
  _ ← send_buf fuel queue_idx desc_idx id tag buf; mret None.
Definition protocol_error {A} (m : A -> MS (option Z)) (x : option (A * Z)) : MS (option Z) :=
  match x with None => mret (Some (- P9_EPROTO)) | Some (a, _) => m a end.
Definition p9_args (f : fmt) (m : fields f -> MS (option Z)) : MS (option Z) :=
  x ← unmarshall fuel queue_idx desc_idx p9_header_len f; protocol_error m x.
(** [if (!f) goto fid_not_found] *)
Definition with_fid (fid : Z) (m : Z -> MS (option Z)) : MS (option Z) :=
  f ← fid_find fid;
  if f =? 0 then mret (Some (- P9_EPROTO)) else m f.

Definition p9_statfs : MS (option Z) :=
  st ← fs_statfs;
  buf ← marshall sizeof_buf "wwddddddw"
    (0, (f_bsize st, (f_blocks st, (f_bfree st, (f_bavail st, (f_files st, (f_ffree st, (0, (256, tt)))))))));
  p9_done buf.
Definition p9_lopen : MS (option Z) :=
  p9_args "ww" (fun '(fid, (flags, _)) =>
  with_fid fid (fun f =>
  let oi := mkOpenInfo queue_idx desc_idx tag in
  r ← fs_open f flags oi;
  let '(err, qid) := r in
  _ ← (if err <=? 0 then virtio_9p_open_reply fuel qid err oi
       else updp (fun s => mkP9 (msize s) (fid_list s) true));
  mret None)).
Definition p9_lcreate : MS (option Z) :=
  p9_args "wswww" (fun '(fid, (name, (flags, (mode, (gid, _))))) =>
  with_fid fid (fun f =>
  r ← fs_create f name flags mode gid;
  let '(err, qid) := r in
  if nz err then mret (Some err)
  else
    s ← getp;
    buf ← marshall sizeof_buf "Qw" (qid, (msize s - 24, tt));
    p9_done buf)).
(** The end of the cases that answer with a qid, or with nothing *)
Definition qid_reply (r : Z * FSQID) : MS (option Z) :=
  let '(err, qid) := r in
  if nz err then mret (Some err)
  else buf ← marshall sizeof_buf "Q" (qid, tt); p9_done buf.
Definition empty_reply (err : Z) : MS (option Z) :=
  if nz err then mret (Some err) else p9_done [].
Definition p9_symlink : MS (option Z) :=
  p9_args "wssw" (fun '(fid, (name, (symgt, (gid, _)))) =>
  with_fid fid (fun f => r ← fs_symlink f name symgt gid; qid_reply r)).
Definition p9_mknod : MS (option Z) :=
  p9_args "wswwww" (fun '(fid, (name, (mode, (major, (minor, (gid, _)))))) =>
  with_fid fid (fun f => r ← fs_mknod f name mode major minor gid; qid_reply r)).
Definition p9_readlink : MS (option Z) :=
  p9_args "w" (fun '(fid, _) =>
  with_fid fid (fun f =>
  buf1 ← uninit_buf 1024;
  r ← fs_readlink buf1 f;
  let '(err, buf1) := r in
  if nz err then mret (Some err)
  else
    target ← as_string buf1;
    buf ← marshall sizeof_buf "s" (target, tt);
    p9_done buf)).
Definition p9_getattr : MS (option Z) :=
  p9_args "wd" (fun '(fid, (mask, _)) =>
  with_fid fid (fun f =>
  r ← fs_stat f;
  let '(err, st) := r in
  if nz err then mret (Some err)
  else
    buf ← marshall sizeof_buf "dQwwwddddddddddddddd"
      (mask, (st_qid st, (st_mode st, (st_uid st, (st_gid st, (st_nlink st, (st_rdev st, (st_size st, (st_blksize st,
       (st_blocks st, (st_atime_sec st, (st_atime_nsec st, (st_mtime_sec st, (st_mtime_nsec st, (st_ctime_sec st,
       (st_ctime_nsec st, (0, (0, (0, (0, tt))))))))))))))))))));
    p9_done buf)).
Definition p9_setattr : MS (option Z) :=
  p9_args "wwwwwddddd"
    (fun '(fid, (mask, (mode, (uid, (gid, (size, (atime_sec, (atime_nsec, (mtime_sec, (mtime_nsec, _)))))))))) =>
  with_fid fid (fun f =>
  err ← fs_setattr f mask mode uid gid size atime_sec atime_nsec mtime_sec mtime_nsec;
  empty_reply err)).
(** The answer of read and readdir: the count, and the bytes behind it in the buffer of
    [count + 4] bytes, a sum of 32 bits. *)
Definition data_request (op : Z -> Z -> list Z -> Z -> MS (Z * list Z)) : MS (option Z) :=
  p9_args "wdw" (fun '(fid, (offs, (count, _))) =>
  with_fid fid (fun f =>
  buf ← uninit_buf (u32 (count + 4));
  r ← op f offs (drop 4 buf) (i32 count);
  let '(n, data) := r in
  if n <? 0 then mret (Some n)
  else
    buf ← buf_store 0 (le32 n) (take 4 buf ++ data);
    _ ← virtio_9p_send_reply fuel queue_idx desc_idx id tag buf (i32 (n + 4));
    mret None)).
Definition p9_readdir : MS (option Z) := data_request fs_readdir.
Definition p9_read : MS (option Z) := data_request fs_read.
Definition p9_fsync : MS (option Z) := p9_args "w" (fun _ => p9_done []).
Definition p9_lock : MS (option Z) :=
  p9_args "wbwddws" (fun '(fid, (type, (flags, (start, (length, (proc_id, (client_id, _))))))) =>
  with_fid fid (fun f =>
  err ← fs_lock f (mkLock type flags start length proc_id client_id);
  if err <? 0 then mret (Some err)
  else buf ← marshall sizeof_buf "b" (err, tt); p9_done buf)).
(** marshall gets the addresses of the fields of [lock]; [flags] was not assigned. *)
Definition p9_getlock : MS (option Z) :=
  p9_args "wbddws" (fun '(fid, (type, (start, (length, (proc_id, (client_id, _)))))) =>
  with_fid fid (fun f =>
  flags ← uninit_buf 4;
  r ← fs_getlock f (mkLock type (get_le32 flags 0) start length proc_id client_id);
  if fst r <? 0 then mret (Some (fst r))
  else
    lock ← gets lock_address;
    ptr ← gets client_id_bytes;
    buf ← marshall sizeof_buf "bddws" (lock, (lock + 8, (lock + 16, (lock + 24, (ptr, tt)))));
    p9_done buf)).
Definition p9_link : MS (option Z) :=
  p9_args "wws" (fun '(dfid, (fid, (name, _))) =>
  df ← fid_find dfid;
  f ← fid_find fid;
  if (df =? 0) || (f =? 0) then mret (Some (- P9_EPROTO))
  else err ← fs_link df f name; empty_reply err).
Definition p9_mkdir : MS (option Z) :=
  p9_args "wsww" (fun '(fid, (name, (mode, (gid, _)))) =>
  with_fid fid (fun f => r ← fs_mkdir f name mode gid; qid_reply r)).
Definition p9_renameat : MS (option Z) :=
  p9_args "wsws" (fun '(fid, (name, (new_fid, (new_name, _)))) =>
  f ← fid_find fid;
  new_f ← fid_find new_fid;
  if (f =? 0) || (new_f =? 0) then mret (Some (- P9_EPROTO))
  else err ← fs_renameat f name new_f new_name; empty_reply err).
Definition p9_unlinkat : MS (option Z) :=
  p9_args "wsw" (fun '(fid, (name, (flags, _))) =>
  with_fid fid (fun f => err ← fs_unlinkat f name; empty_reply err)).
Definition p9_version : MS (option Z) :=
  p9_args "ws" (fun '(size, (version, _)) =>
  _ ← updp (fun s => mkP9 (i32 size) (fid_list s) (p9_busy s));
  s ← getp;
  buf ← marshall sizeof_buf "ws" (msize s, (str "9P2000.L"%string, tt));
  p9_done buf).
Definition p9_attach : MS (option Z) :=
  p9_args "wwssw" (fun '(fid, (afid, (uname, (aname, (uid, _))))) =>
  r ← fs_attach uid uname aname;
  let '(err, f, qid) := r in
  if nz err then mret (Some err)
  else
    _ ← fid_set fid f;
    buf ← marshall sizeof_buf "Q" (qid, tt);
    p9_done buf).
Definition p9_flush : MS (option Z) := p9_args "h" (fun _ => p9_done []).
(** The loops of walk: the names, and the qids that follow the first [max_len] bytes *)
Fixpoint walk_names (offset : Z) (n : nat) : MS (option (list (list Z))) :=
  match n with
  | O => mret (Some [])
  | S n' =>
      x ← unmarshall fuel queue_idx desc_idx offset "s";
      match x with
      | None => mret None
      | Some ((name, _), offset) =>
          r ← walk_names offset n';
          mret (option_map (cons name) r)
      end
  end.
Fixpoint walk_qids (max_len : Z) (qids : list FSQID) (n : nat) : MS (list Z) :=
  match n with
  | O => mret []
  | S n' =>
      match qids with
      | [] => stop_with StopFault
      | qid :: qids' =>
          b ← marshall max_len "Q" (qid, tt);
          rest ← walk_qids (max_len - Z.of_nat (length b)) qids' n';
          mret (b ++ rest)
      end
  end.
Definition p9_walk : MS (option Z) :=
  x ← unmarshall fuel queue_idx desc_idx p9_header_len "wwh";
  match x with
  | None => mret (Some (- P9_EPROTO))
  | Some ((fid, (newfid, (nwname, _))), offset) =>
      with_fid fid (fun f =>
      ns ← walk_names offset (Z.to_nat nwname);
      r ← match ns with None => mret (- P9_EPROTO, f, []) | Some names => fs_walk f names end;
      let '(err, f, qids) := r in
      if err <? 0 then mret (Some err)
      else
        buf ← marshall sizeof_buf "h" (err, tt);
        rest ← walk_qids (sizeof_buf - 2) qids (Z.to_nat err);
        _ ← fid_set newfid f;
        p9_done (buf ++ rest))
  end.
Definition p9_write : MS (option Z) :=
  x ← unmarshall fuel queue_idx desc_idx p9_header_len "wdw";
  match x with
  | None => mret (Some (- P9_EPROTO))
  | Some ((fid, (offs, (count, _))), offset) =>
      with_fid fid (fun f =>
      buf1 ← uninit_buf count;
      r ← memcpy_from_queue fuel buf1 queue_idx desc_idx offset (i32 count);
      if nz (fst r) then mret (Some (- P9_EPROTO))
      else
        n ← fs_write f offs (snd r) (i32 count);
        if n <? 0 then mret (Some n)
        else buf ← marshall sizeof_buf "w" (n, tt); p9_done buf)
  end.
Definition p9_clunk : MS (option Z) :=
  p9_args "w" (fun '(fid, _) => _ ← fid_delete fid; p9_done []).
Definition p9_request : MS (option Z) :=
  match id with
  | 8 => p9_statfs
  | 12 => p9_lopen
  | 14 => p9_lcreate
  | 16 => p9_symlink
  | 18 => p9_mknod
  | 22 => p9_readlink
  | 24 => p9_getattr
  | 26 => p9_setattr
  | 30 => mret (Some (- P9_ENOTSUP))
  | 40 => p9_readdir
  | 50 => p9_fsync
  | 52 => p9_lock
  | 54 => p9_getlock
  | 70 => p9_link
  | 72 => p9_mkdir
  | 74 => p9_renameat
  | 76 => p9_unlinkat
  | 100 => p9_version
  | 104 => p9_attach
  | 108 => p9_flush
  | 110 => p9_walk
  | 116 => p9_read
  | 118 => p9_write
  | 120 => p9_clunk
  | _ => mret (Some (- P9_EPROTO))
  end.
End Requests.

Definition virtio_9p_recv_request (fuel : nat) (queue_idx desc_idx read_size write_size : Z) : MS Z :=
  if negb (queue_idx =? 0) then mret 0
  else
    s ← getp;
    if p9_busy s then mret (-1)
    else
      buf ← uninit_buf 1024;
      r ← memcpy_from_queue fuel buf queue_idx desc_idx 0 p9_header_len;
      if nz (fst r) then _ ← virtio_9p_send_error fuel queue_idx desc_idx 0 (- P9_EPROTO); mret 0
      else
        let id := byte (snd r) 4 in
        let tag := get_le16 (snd r) 5 in
        e ← p9_request fuel queue_idx desc_idx id tag;
        match e with
        | None => mret 0
        | Some err => _ ← virtio_9p_send_error fuel queue_idx desc_idx tag err; mret 0
        end.

(** The completion of an open that was pending *)
Definition virtio_9p_open_cb (fuel : nat) (qid : FSQID) (err : Z) (oi : P9OpenInfo) : MS unit :=
  _ ← virtio_9p_open_reply fuel qid err oi;
  _ ← updp (fun s => mkP9 (msize s) (fid_list s) false);
  queue_notify fuel (virtio_9p_recv_request fuel) (oi_queue_idx oi).

(** virtio_9p_init: the device, and its other fields.  A tag that does not fit the
    configuration space is a fault. *)
Definition virtio_9p_init (mount_tag : list Z) : option (VIRTIODevice * P9State) :=
  let len := Z.of_nat (length mount_tag) in
  let s := with_features (1 ≪ 0) (virtio_init 9 (2 + len)) in
  let cfg := splice 0 [u8 len; u8 (len ≫ 8)] (config_space s) in
  if 2 + len <=? Z.of_nat MAX_CONFIG_SPACE_SIZE
  then Some (with_config (splice 2 mount_tag cfg) s, mkP9 8192 [] false) else None.
End Device.
