(* ===== verification/Virtio9pMsg.v ===== *)
(** * 9P messages: marshall and unmarshall against an encoding and a decoding of values *)
From S2P Require Export Virtio9p VirtioReply.
#[local] Open Scope Z_scope.

(** The bytes of the values of a format. *)
Definition encode_qid (q : FSQID) : list Z := [u8 (q_type q)] ++ le32 (q_version q) ++ le64 (q_path q).
Fixpoint encode (f : fmt) : fields f -> list Z :=
  match f with
  | F_end => fun _ => []
  | F_b f => fun '(v, r) => [u8 v] ++ encode f r
  | F_h f => fun '(v, r) => le16 v ++ encode f r
  | F_w f => fun '(v, r) => le32 v ++ encode f r
  | F_d f => fun '(v, r) => le64 v ++ encode f r
  | F_s f => fun '(s, r) => le16 (Z.of_nat (length s)) ++ s ++ encode f r
  | F_Q f => fun '(q, r) => encode_qid q ++ encode f r
  end.
(** The values at the start of a message and the number of bytes that they take, when the
    message is long enough.  A string ends before its first null byte. *)
Definition up_to_nul (s : list Z) : list Z := match strlen s with Some n => take n s | None => s end.
Definition take_scalar {A} (n : nat) (get : list Z -> Z) (l : list Z) (rest : list Z -> option (A * Z)) : option (Z * A * Z) :=
  if (length l <? n)%nat then None
  else option_map (fun '(vs, k) => (get l, vs, Z.of_nat n + k)) (rest (drop n l)).
Fixpoint decode (f : fmt) (l : list Z) : option (fields f * Z) :=
  match f return option (fields f * Z) with
  | F_end => Some (tt, 0)
  | F_b f => take_scalar 1 (fun l => byte l 0) l (decode f)
  | F_h f => take_scalar 2 (fun l => get_le16 l 0) l (decode f)
  | F_w f => take_scalar 4 (fun l => get_le32 l 0) l (decode f)
  | F_d f => take_scalar 8 (fun l => get_le64 l 0) l (decode f)
  | F_s f =>
      let n := Z.to_nat (get_le16 l 0) in
      if (length l <? 2)%nat || (length l <? 2 + n)%nat then None
      else option_map (fun '(vs, k) => (up_to_nul (take n (drop 2 l)), vs, 2 + Z.of_nat n + k)) (decode f (drop (2 + n) l))
  | F_Q f => None
  end.
Fixpoint no_qid (f : fmt) : bool :=
  match f with
  | F_end => true
  | F_b f | F_h f | F_w f | F_d f | F_s f => no_qid f
  | F_Q _ => false
  end.
(** The values that their fields can hold. *)
Definition nul_free (s : list Z) : Prop := Forall (fun c => c <> 0) s.
Fixpoint in_range (f : fmt) : fields f -> Prop :=
  match f with
  | F_end => fun _ => True
  | F_b f => fun '(v, r) => fits 8 v /\ in_range f r
  | F_h f => fun '(v, r) => fits 16 v /\ in_range f r
  | F_w f => fun '(v, r) => fits 32 v /\ in_range f r
  | F_d f => fun '(v, r) => fits 64 v /\ in_range f r
  | F_s f => fun '(s, r) => (bytes s /\ nul_free s /\ Z.of_nat (length s) <= 65535) /\ in_range f r
  | F_Q f => fun '(_, r) => in_range f r
  end.

(** ** The bytes of scalars *)
Lemma le16_bytes v : le16 v = [u8 v; u8 (v ≫ 8)].
Proof. done. Qed.
Lemma le32_bytes v : le32 v = [u8 v; u8 (v ≫ 8); u8 (v ≫ 16); u8 (v ≫ 24)].
Proof. done. Qed.
Lemma le64_bytes v (w := u32 (v ≫ 32)) : le64 v = le32 (u32 v) ++ le32 w.
Proof. done. Qed.
Lemma u8_u32 v k : 0 <= k -> k + 8 <= 32 -> u8 (u32 v ≫ k) = u8 (v ≫ k).
Proof.
  intros H1 H2. apply Z.bits_inj'. intros i Hi. rewrite !wrap_testbit by lia. destruct (Z.ltb_spec i 8); [|done].
  rewrite !Z.shiftr_spec, wrap_testbit by lia. by rewrite (proj2 (Z.ltb_lt _ _)) by lia.
Qed.
Lemma le32_u32 v : le32 (u32 v) = le32 v.
Proof. rewrite !le32_bytes. rewrite !u8_u32 by lia. by rewrite <- (Z.shiftr_0_r (u32 v)), u8_u32, Z.shiftr_0_r by lia. Qed.
Lemma length_le16 v : length (le16 v) = 2%nat.
Proof. done. Qed.
Lemma length_le32 v : length (le32 v) = 4%nat.
Proof. done. Qed.
Lemma length_le64 v : length (le64 v) = 8%nat.
Proof. done. Qed.
Lemma length_qid q : length (encode_qid q) = 13%nat.
Proof. done. Qed.
Lemma bytes_app a b : bytes a -> bytes b -> bytes (a ++ b).
Proof. intros. by apply Forall_app. Qed.
Lemma bytes_le16 v : bytes (le16 v).
Proof. repeat constructor; by apply fits_wrap. Qed.
Lemma bytes_le32 v : bytes (le32 v).
Proof. repeat constructor; by apply fits_wrap. Qed.
Lemma bytes_le64 v : bytes (le64 v).
Proof. rewrite le64_bytes. apply Forall_app; split; apply bytes_le32. Qed.
Lemma get_le16_le16 v r : fits 16 v -> get_le16 (le16 v ++ r) 0 = v.
Proof. intros H. rewrite le16_bytes, get_le16_bytes. by apply wrap_fits. Qed.
Lemma get_le32_le32 v r : fits 32 v -> get_le32 (le32 v ++ r) 0 = v.
Proof. intros H. rewrite le32_bytes, get_le32_bytes. by apply wrap_fits. Qed.
Lemma get_le64_le64 v r : fits 64 v -> get_le64 (le64 v ++ r) 0 = v.
Proof.
  intros H. rewrite le64_bytes, !le32_u32, !le32_bytes, <- app_assoc, get_le64_words by done. by apply wrap_fits.
Qed.
Lemma bytes_qid q : bytes (encode_qid q).
Proof. constructor; [by apply fits_wrap|]. apply Forall_app. split; [apply bytes_le32|apply bytes_le64]. Qed.

(** ** marshall stores the encoding *)
Fixpoint str_bytes (f : fmt) : fields f -> Prop :=
  match f with
  | F_end => fun _ => True
  | F_b f | F_h f | F_w f | F_d f => fun '(_, r) => str_bytes f r
  | F_s f => fun '(s, r) => bytes s /\ str_bytes f r
  | F_Q f => fun '(_, r) => str_bytes f r
  end.
Lemma encode_bytes f vs : str_bytes f vs -> bytes (encode f vs).
Proof.
  induction f; cbn [fields str_bytes encode] in *; [by constructor|..]; destruct vs as [v r]; intros H;
    try (apply bytes_app; [|by apply IHf]).
  - repeat constructor; by apply fits_wrap.
  - apply bytes_le16.
  - apply bytes_le32.
  - apply bytes_le64.
  - destruct H as [H1 H2]. apply bytes_app; [apply bytes_le16|]. apply bytes_app; [done|by apply IHf].
  - apply bytes_qid.
Qed.
Lemma marshall_ok {S} f : forall max_len (vs : fields f) (s : S), Z.of_nat (length (encode f vs)) <= max_len -> max_len <= 65537 ->
  marshall max_len f vs s = Ok (encode f vs) s.
Proof.
  induction f; intros max_len vs s Hl Hm; cbn [fields marshall encode] in *; [done|..]; destruct vs as [v r];
    rewrite ?length_app, ?length_le16, ?length_le32, ?length_le64, ?length_qid in Hl; cbn [length Nat.add] in Hl;
    unfold mbind, M_bind, assert; cbv zeta; rewrite ?(proj2 (Z.leb_le _ _)) by lia; unfold mret at 1, M_ret at 1;
    rewrite ?(proj2 (Z.leb_le (2 + _) _)) by lia; unfold mret at 1, M_ret at 1; rewrite ?IHf by lia; try done.
Qed.
(** The asserts of marshall: more bytes than the buffer holds stop the emulator. *)
Lemma marshall_overflow {S} f : forall max_len (vs : fields f) (s : S), max_len < Z.of_nat (length (encode f vs)) ->
  0 <= max_len -> marshall max_len f vs s = Stop StopAssert.
Proof.
  induction f; intros max_len vs s Hl Hm; cbn [fields marshall encode] in *; [cbn in Hl; lia|..]; destruct vs as [v r];
    rewrite ?length_app, ?length_le16, ?length_le32, ?length_le64, ?length_qid in Hl; cbn [length Nat.add] in Hl;
    unfold mbind, M_bind, assert; cbv zeta;
    repeat match goal with |- context [if ?b then _ else _] => destruct b eqn:? end; unfold stop_with, mret, M_ret; try done;
    rewrite IHf by lia; done.
Qed.

(** ** unmarshall decodes the readable buffers *)
Lemma strlen_up s : exists k, strlen (s ++ [0]) = Some k /\ take k (s ++ [0]) = up_to_nul s /\ (k <= length s)%nat.
Proof.
  induction s as [|c s (k & E1 & E2 & E3)]; [by exists 0%nat|]. cbn [app strlen length]. unfold up_to_nul. cbn [strlen].
  destruct (c =? 0); [exists 0%nat; repeat split; lia|]. exists (S k). rewrite E1. cbn [option_map]. split; [done|].
  split; [|lia]. cbn [take]. rewrite E2. unfold up_to_nul. by destruct (strlen s).
Qed.
Lemma as_string_ok {S} s (σ : S) : as_string (s ++ [0]) σ = Ok (up_to_nul s) σ.
Proof. unfold as_string. destruct (strlen_up s) as (k & -> & -> & _). done. Qed.
Lemma up_to_nul_id s : nul_free s -> up_to_nul s = s.
Proof.
  intros H. unfold up_to_nul. enough (strlen s = None) as -> by done.
  induction s as [|c s IH]; [done|]. apply Forall_cons_1 in H as [Hc H]. cbn [strlen].
  rewrite (proj2 (Z.eqb_neq c 0)) by done. by rewrite IH.
Qed.
Lemma get_le16_fits l o : fits 16 (get_le16 l o).
Proof. by apply fits_wrap. Qed.
Lemma get_le64_fits l o : fits 64 (get_le64 l o).
Proof.
  unfold get_le64. pose proof (le32_fits l o). pose proof (le32_fits l (o + 4)) as [].
  rewrite Z.lor_comm, lor_shift_add by (done || lia). unfold fits in *. lia.
Qed.
Lemma byte_app_head a r i : (i < length a)%nat -> byte (a ++ r) i = byte a i.
Proof. apply byte_app_l. Qed.
(** Getters read their own bytes only. *)
Lemma get_le16_take l : (2 <= length l)%nat -> get_le16 (take 2 l) 0 = get_le16 l 0.
Proof. intros H. destruct l as [|a [|b l]]; cbn in H; try lia. done. Qed.
Lemma get_le32_take l : (4 <= length l)%nat -> get_le32 (take 4 l) 0 = get_le32 l 0.
Proof. intros H. do 4 (destruct l as [|? l]; cbn in H; [lia|]). done. Qed.
Lemma get_le64_take l : (8 <= length l)%nat -> get_le64 (take 8 l) 0 = get_le64 l 0.
Proof. intros H. do 8 (destruct l as [|? l]; cbn in H; [lia|]). done. Qed.
Lemma byte_take l : (1 <= length l)%nat -> byte (take 1 l) 0 = byte l 0.
Proof. destruct l; cbn; [lia|done]. Qed.

Lemma buf_store_end {S} n s u (σ : S) : 0 <= n -> length s = Z.to_nat n -> length u = Z.to_nat (n + 1) ->
  buf_store n [0] (splice 0 s u) σ = Ok (s ++ [0]) σ.
Proof.
  intros Hn Hs Hu. unfold buf_store. rewrite length_splice by lia. cbn [length].
  rewrite (proj2 (Z.leb_le 0 n)), (proj2 (Z.leb_le _ _)) by lia. cbn [andb]. unfold mret, M_ret. f_equal.
  unfold splice at 2. rewrite take_0. cbn [app Nat.add]. unfold splice. rewrite take_app_length' by lia.
  rewrite drop_ge; [done|]. rewrite length_app, length_drop. cbn [length]. lia.
Qed.
(** ** Decoding is the inverse of encoding *)
Lemma decode_fields f : forall (vs : fields f) r, no_qid f = true -> in_range f vs ->
  decode f (encode f vs ++ r) = Some (vs, Z.of_nat (length (encode f vs))).
Proof.
  induction f as [|f IH|f IH|f IH|f IH|f IH|f IH]; intros vs r Hno Hr; cbn [no_qid fields encode decode in_range] in *; try discriminate;
    [by destruct vs|..]; destruct vs as [v vs]; destruct Hr as [Hv Hr]; unfold take_scalar; rewrite <- ?app_assoc.
  - cbn [app length Nat.ltb Nat.leb drop]. rewrite drop_0, IH by done. unfold byte. cbn [nth option_map].
    rewrite (wrap_fits 8 v) by done. do 2 f_equal. lia.
  - rewrite (proj2 (Nat.ltb_ge _ _)) by (rewrite length_app, length_le16; lia). rewrite drop_app_length' by done.
    rewrite IH, get_le16_le16 by done. cbn [option_map]. rewrite length_app, length_le16. do 2 f_equal. lia.
  - rewrite (proj2 (Nat.ltb_ge _ _)) by (rewrite length_app, length_le32; lia). rewrite drop_app_length' by done.
    rewrite IH, get_le32_le32 by done. cbn [option_map]. rewrite length_app, length_le32. do 2 f_equal. lia.
  - rewrite (proj2 (Nat.ltb_ge _ _)) by (rewrite length_app, length_le64; lia). rewrite drop_app_length' by done.
    rewrite IH, get_le64_le64 by done. cbn [option_map]. rewrite length_app, length_le64. do 2 f_equal. lia.
  - destruct Hv as (Hb & Hn & Hl). rewrite get_le16_le16 by (split; lia). rewrite Nat2Z.id, !length_app, length_le16.
    rewrite !(proj2 (Nat.ltb_ge _ _)) by lia. cbn [orb]. rewrite <- drop_drop, (drop_app_length' (le16 _)) by done.
    rewrite take_app_length, drop_app_length, IH, up_to_nul_id by done. cbn [option_map]. do 2 f_equal. lia.
Qed.

Section Unmarshall.
Context `{cfg : Config} `{vcfg : VirtioConfig} {W : Type} `{board : !VirtioBoard W} `{pb : !P9Board W}.
Variables (fuel : nat) (σ : Sys W) (q : Z) (qs : QueueState) (N pt idx : Z) (rs ws : list (list Z * Z)).
Hypotheses (Hq : vq σ q qs N pt) (Hc : chain σ N pt idx rs ws) (Hf : (length rs + length ws < fuel)%nat)
  (Hsize : total_len rs + 2 ^ 16 < 2 ^ 31).
Local Abbreviation msg := (content (host σ) rs).

Lemma message_length : Z.of_nat (length msg) = total_len rs.
Proof. apply length_content. Qed.
(** A part of the message, or -1 when the message is too short. *)
Lemma read_part buf offset count : 0 <= offset <= total_len rs -> 0 <= count /\ offset + count < 2 ^ 31 -> count <= Z.of_nat (length buf) ->
  exists buf', memcpy_from_queue fuel buf q idx offset count σ =
    if (length (drop (Z.to_nat offset) msg) <? Z.to_nat count)%nat then Ok (-1, buf') σ
    else Ok (0, splice 0 (take (Z.to_nat count) (drop (Z.to_nat offset) msg)) buf) σ.
Proof.
  intros Ho Hn Hb. pose proof message_length as Hm. destruct (Z.eq_dec count 0) as [->|Hne].
  { exists []. change (Z.to_nat 0) with 0%nat. rewrite take_0, splice_nil. done. }
  destruct (memcpy_from_queue_chain fuel σ q qs N pt idx rs ws buf offset count) as (buf' & ->); try (done || lia).
  exists buf'. rewrite length_drop. destruct (Nat.ltb_spec (length msg - Z.to_nat offset) (Z.to_nat count)) as [H|H];
    destruct (Z.leb_spec (offset + count) (total_len rs)); try lia; done.
Qed.
(** The same in a buffer of its own. *)
Lemma read_scalar buf offset count : 0 <= offset <= total_len rs -> 0 <= count /\ offset + count < 2 ^ 31 -> Z.of_nat (length buf) = count ->
  exists buf', memcpy_from_queue fuel buf q idx offset count σ =
    if (length (drop (Z.to_nat offset) msg) <? Z.to_nat count)%nat then Ok (-1, buf') σ
    else Ok (0, take (Z.to_nat count) (drop (Z.to_nat offset) msg)) σ.
Proof.
  intros Ho Hn Hb. destruct (read_part buf offset count) as (buf' & ->); [done|done|lia|]. exists buf'.
  destruct (Nat.ltb_spec (length (drop (Z.to_nat offset) msg)) (Z.to_nat count)); [done|].
  rewrite splice_all; [done|]. rewrite length_take. lia.
Qed.
Definition found {A} (offset : Z) (x : option (A * Z)) : option (A * Z) := option_map (fun '(vs, k) => (vs, offset + k)) x.
Lemma found_shift {A} offset n (x : option (A * Z)) :
  found (offset + n) x = option_map (fun '(vs, k) => (vs, offset + (n + k))) x.
Proof. destruct x as [[vs k]|]; cbn; [do 2 f_equal; lia|done]. Qed.
Lemma length_rest offset : 0 <= offset -> length (drop (Z.to_nat offset) msg) = Z.to_nat (total_len rs - offset).
Proof. intros. pose proof message_length. rewrite length_drop. lia. Qed.
Lemma scalar_ok {A} (n offset : Z) get (k : M (Sys W) (option (A * Z))) rest : 0 < n <= 8 -> 0 <= offset <= total_len rs ->
  (forall l, (Z.to_nat n <= length l)%nat -> get (take (Z.to_nat n) l) = get l) ->
  (offset + n <= total_len rs -> k σ = Ok (found (offset + n) (rest (drop (Z.to_nat (offset + n)) msg))) σ) ->
  (buf ← uninit_buf n;
   r ← memcpy_from_queue fuel buf q idx offset n;
   if nz (fst r) then mret None
   else x ← k; mret (option_map (fun '(vs, o) => (get (snd r), vs, o)) x)) σ =
  Ok (found offset (take_scalar (Z.to_nat n) get (drop (Z.to_nat offset) msg) rest)) σ.
Proof.
  intros Hn Ho Hget Hk. unfold mbind at 1 2, M_bind at 1 2, uninit_buf, gets.
  destruct (read_scalar (uninit_bytes σ (Z.to_nat n)) offset n) as (buf' & ->); [done|lia|rewrite uninit_len; lia|].
  unfold take_scalar. destruct (Nat.ltb_spec (length (drop (Z.to_nat offset) msg)) (Z.to_nat n)) as [H|H]; [done|].
  cbn [fst snd nz]. change (nz 0) with false. cbv iota. unfold mbind, M_bind. rewrite length_rest in H by lia.
  rewrite Hk by lia. unfold mret, M_ret. f_equal. rewrite drop_drop.
  replace (Z.to_nat offset + Z.to_nat n)%nat with (Z.to_nat (offset + n)) by lia.
  rewrite Hget by (rewrite length_rest; lia). destruct (rest _) as [[vs k']|]; cbn; [|done]. do 2 f_equal. lia.
Qed.
Lemma unmarshall_ok f : forall offset, no_qid f = true -> 0 <= offset <= total_len rs ->
  unmarshall fuel q idx offset f σ = Ok (found offset (decode f (drop (Z.to_nat offset) msg))) σ.
Proof.
  pose proof message_length as Hm.
  induction f as [|f IH|f IH|f IH|f IH|f IH|f IH]; intros offset Hno Ho; cbn [no_qid unmarshall decode] in *; try discriminate.
  - unfold mret, M_ret. cbn. by rewrite Z.add_0_r.
  - apply (scalar_ok 1 offset (fun l => byte l 0) (unmarshall fuel q idx (offset + 1) f) (decode f)); [lia|done|intros; by apply byte_take|intros; apply IH; [done|lia]].
  - apply (scalar_ok 2 offset (fun l => get_le16 l 0) (unmarshall fuel q idx (offset + 2) f) (decode f)); [lia|done|intros; by apply get_le16_take|intros; apply IH; [done|lia]].
  - apply (scalar_ok 4 offset (fun l => get_le32 l 0) (unmarshall fuel q idx (offset + 4) f) (decode f)); [lia|done|intros; by apply get_le32_take|intros; apply IH; [done|lia]].
  - apply (scalar_ok 8 offset (fun l => get_le64 l 0) (unmarshall fuel q idx (offset + 8) f) (decode f)); [lia|done|intros; by apply get_le64_take|intros; apply IH; [done|lia]].
  - unfold mbind at 1 2, M_bind at 1 2, uninit_buf at 1, gets at 1.
    destruct (read_scalar (uninit_bytes σ (Z.to_nat 2)) offset 2) as (buf' & ->); [done|lia|by rewrite uninit_len|].
    set (l := drop (Z.to_nat offset) msg). pose proof (length_rest offset ltac:(lia)) as Hl. fold l in Hl.
    change (Z.to_nat 2) with 2%nat. destruct (Nat.ltb_spec (length l) 2) as [H|H]; [done|]. cbn [fst snd orb].
    change (nz 0) with false. cbv iota zeta. rewrite get_le16_take by done. pose proof (get_le16_fits l 0) as [Hn0 Hn1].
    set (n := get_le16 l 0) in *. unfold mbind at 1 2, M_bind at 1 2, uninit_buf, gets.
    assert (offset + 2 <= total_len rs) as Ho2 by lia.
    destruct (read_part (uninit_bytes σ (Z.to_nat (n + 1))) (offset + 2) n) as (buf2 & E); [lia|lia|rewrite uninit_len; lia|].
    replace (Z.to_nat (offset + 2)) with (Z.to_nat offset + 2)%nat in E by lia.
    rewrite <- drop_drop in E. fold l in E. rewrite E. rewrite length_drop.
    destruct (Nat.ltb_spec (length l - 2) (Z.to_nat n)) as [Hs|Hs];
      destruct (Nat.ltb_spec (length l) (2 + Z.to_nat n)); try lia; [done|]. cbn [fst snd].
    change (nz 0) with false. cbv iota. unfold mbind at 1 2, M_bind at 1 2.
    set (s := take (Z.to_nat n) (drop 2 l)).
    assert (length s = Z.to_nat n) as Ls by (unfold s; rewrite length_take, length_drop; lia).
    rewrite (buf_store_end n s) by (rewrite ?uninit_len; lia). rewrite as_string_ok. unfold mbind, M_bind.
    rewrite IH by (done || lia). unfold mret, M_ret. f_equal. unfold l. rewrite drop_drop.
    replace (Z.to_nat (offset + 2 + n)) with (Z.to_nat offset + (2 + Z.to_nat n))%nat by lia.
    destruct (decode f _) as [[vs k]|]; cbn; [|done]. do 2 f_equal. lia.
Qed.

(** C19: messages round trip.  The bytes that marshall stores for the values of a format, found at an
    offset of the readable buffers of a chain, whatever the buffers and however they are cut, are read back
    by unmarshall as the same values, with the offset behind them. *)
Theorem unmarshall_marshall f (vs : fields f) max_len bs rest offset : no_qid f = true -> in_range f vs -> 0 <= max_len <= 65537 ->
  marshall max_len f vs σ = Ok bs σ -> 0 <= offset <= total_len rs -> drop (Z.to_nat offset) msg = bs ++ rest ->
  unmarshall fuel q idx offset f σ = Ok (Some (vs, offset + Z.of_nat (length bs))) σ.
Proof.
  intros Hno Hr Hm Hmar Ho Hmsg. rewrite unmarshall_ok, Hmsg by done.
  assert (bs = encode f vs) as ->; [|by rewrite decode_fields].
  destruct (Z.le_gt_cases (Z.of_nat (length (encode f vs))) max_len).
  - rewrite marshall_ok in Hmar by (done || lia). by injection Hmar.
  - rewrite marshall_overflow in Hmar by (done || lia). done.
Qed.
End Unmarshall.
