(* ===== verification/Virtio9pServe.v ===== *)
(** * The 9P server: what a request does, on messages

    A request is its type and the bytes behind its header, decoded at once; an answer is
    the bytes behind the header of the reply, an error, or nothing yet.  There are no
    queues, no offsets and no bounds of buffers here. *)
From S2P Require Export Virtio9pMsg.
From stdpp Require Import strings.
#[local] Open Scope Z_scope.

Inductive answer :=
| A_reply (body : list Z)
| A_error (err : Z)
| A_pending.
#[export] Instance answer_eq_dec : EqDecision answer.
Proof. solve_decision. Defined.
(** A message: its length, its type, its tag and its body. *)
Definition message (type tag : Z) (body : list Z) : list Z :=
  le32 (Z.of_nat (length body) + 7) ++ [u8 type] ++ le16 tag ++ body.
Fixpoint decode_names (l : list Z) (n : nat) : option (list (list Z)) :=
  match n with
  | O => Some []
  | S n' =>
      match decode "s" l with
      | None => None
      | Some ((name, _), k) => option_map (cons name) (decode_names (drop (Z.to_nat k) l) n')
      end
  end.

Section Serve.
Context `{cfg : Config} `{vcfg : VirtioConfig} {W : Type} `{board : !VirtioBoard W} `{pb : !P9Board W}.
Local Abbreviation MS := (M (Sys W)).
Variable body : list Z.

Definition refuse : MS answer := mret (A_error (- P9_EPROTO)).
Definition with_args (f : fmt) (m : fields f -> MS answer) : MS answer :=
  match decode f body with None => refuse | Some (vs, _) => m vs end.
Definition with_file (fid : Z) (m : Z -> MS answer) : MS answer :=
  f ← fid_find fid; if f =? 0 then refuse else m f.
Definition answer_with {A} (f : A -> MS answer) (r : Z * A) : MS answer :=
  let '(err, v) := r in if nz err then mret (A_error err) else f v.
Definition answer_qid : Z * FSQID -> MS answer := answer_with (fun qid => mret (A_reply (encode_qid qid))).
Definition answer_empty (err : Z) : MS answer := mret (if nz err then A_error err else A_reply []).

Definition serve_statfs : MS answer :=
  st ← fs_statfs;
  mret (A_reply (encode "wwddddddw"
    (0, (f_bsize st, (f_blocks st, (f_bfree st, (f_bavail st, (f_files st, (f_ffree st, (0, (256, tt))))))))))).
(** A positive result of fs_open says that the answer comes later. *)
Definition serve_lopen (oi : P9OpenInfo) : MS answer :=
  with_args "ww" (fun '(fid, (flags, _)) => with_file fid (fun f =>
  r ← fs_open f flags oi;
  let '(err, qid) := r in
  if 0 <? err then _ ← updp (fun s => mkP9 (msize s) (fid_list s) true); mret A_pending
  else if err <? 0 then mret (A_error err)
  else s ← getp; mret (A_reply (encode "Qw" (qid, (msize s - 24, tt)))))).
Definition serve_lcreate : MS answer :=
  with_args "wswww" (fun '(fid, (name, (flags, (mode, (gid, _))))) => with_file fid (fun f =>
  r ← fs_create f name flags mode gid;
  answer_with (fun qid => s ← getp; mret (A_reply (encode "Qw" (qid, (msize s - 24, tt))))) r)).
Definition serve_symlink : MS answer :=
  with_args "wssw" (fun '(fid, (name, (symgt, (gid, _)))) => with_file fid (fun f =>
  r ← fs_symlink f name symgt gid; answer_qid r)).
Definition serve_mknod : MS answer :=
  with_args "wswwww" (fun '(fid, (name, (mode, (major, (minor, (gid, _)))))) => with_file fid (fun f =>
  r ← fs_mknod f name mode major minor gid; answer_qid r)).
Definition serve_readlink : MS answer :=
  with_args "w" (fun '(fid, _) => with_file fid (fun f =>
  buf ← uninit_buf 1024;
  r ← fs_readlink buf f;
  answer_with (fun target => mret (A_reply (encode "s" (up_to_nul target, tt)))) r)).
Definition serve_getattr : MS answer :=
  with_args "wd" (fun '(fid, (mask, _)) => with_file fid (fun f =>
  r ← fs_stat f;
  answer_with (fun st => mret (A_reply (encode "dQwwwddddddddddddddd"
      (mask, (st_qid st, (st_mode st, (st_uid st, (st_gid st, (st_nlink st, (st_rdev st, (st_size st, (st_blksize st,
       (st_blocks st, (st_atime_sec st, (st_atime_nsec st, (st_mtime_sec st, (st_mtime_nsec st, (st_ctime_sec st,
       (st_ctime_nsec st, (0, (0, (0, (0, tt))))))))))))))))))))))) r)).
Definition serve_setattr : MS answer :=
  with_args "wwwwwddddd"
    (fun '(fid, (mask, (mode, (uid, (gid, (size, (atime_sec, (atime_nsec, (mtime_sec, (mtime_nsec, _)))))))))) =>
  with_file fid (fun f =>
  err ← fs_setattr f mask mode uid gid size atime_sec atime_nsec mtime_sec mtime_nsec; answer_empty err)).
Definition serve_data (op : Z -> Z -> list Z -> Z -> MS (Z * list Z)) : MS answer :=
  with_args "wdw" (fun '(fid, (offs, (count, _))) => with_file fid (fun f =>
  buf ← uninit_buf (count + 4);
  r ← op f offs (drop 4 buf) count;
  let '(n, data) := r in
  mret (if n <? 0 then A_error n else A_reply (le32 n ++ take (Z.to_nat n) data)))).
Definition serve_nothing (f : fmt) : MS answer := with_args f (fun _ => mret (A_reply [])).
Definition serve_lock : MS answer :=
  with_args "wbwddws" (fun '(fid, (type, (flags, (start, (length, (proc_id, (client_id, _))))))) => with_file fid (fun f =>
  err ← fs_lock f (mkLock type flags start length proc_id client_id);
  mret (if err <? 0 then A_error err else A_reply [u8 err]))).
(** The addresses of the lock and the bytes of a pointer: see the findings. *)
Definition serve_getlock : MS answer :=
  with_args "wbddws" (fun '(fid, (type, (start, (length, (proc_id, (client_id, _)))))) => with_file fid (fun f =>
  flags ← uninit_buf 4;
  r ← fs_getlock f (mkLock type (get_le32 flags 0) start length proc_id client_id);
  if fst r <? 0 then mret (A_error (fst r))
  else
    lock ← gets lock_address;
    ptr ← gets client_id_bytes;
    mret (A_reply (encode "bddws" (lock, (lock + 8, (lock + 16, (lock + 24, (ptr, tt))))))))).
Definition serve_link : MS answer :=
  with_args "wws" (fun '(dfid, (fid, (name, _))) =>
  df ← fid_find dfid; f ← fid_find fid;
  if (df =? 0) || (f =? 0) then refuse else err ← fs_link df f name; answer_empty err).
Definition serve_mkdir : MS answer :=
  with_args "wsww" (fun '(fid, (name, (mode, (gid, _)))) => with_file fid (fun f =>
  r ← fs_mkdir f name mode gid; answer_qid r)).
Definition serve_renameat : MS answer :=
  with_args "wsws" (fun '(fid, (name, (new_fid, (new_name, _)))) =>
  f ← fid_find fid; new_f ← fid_find new_fid;
  if (f =? 0) || (new_f =? 0) then refuse else err ← fs_renameat f name new_f new_name; answer_empty err).
Definition serve_unlinkat : MS answer :=
  with_args "wsw" (fun '(fid, (name, (flags, _))) => with_file fid (fun f =>
  err ← fs_unlinkat f name; answer_empty err)).
Definition serve_version : MS answer :=
  with_args "ws" (fun '(size, (version, _)) =>
  _ ← updp (fun s => mkP9 (i32 size) (fid_list s) (p9_busy s));
  mret (A_reply (encode "ws" (i32 size, (str "9P2000.L"%string, tt))))).
Definition serve_attach : MS answer :=
  with_args "wwssw" (fun '(fid, (afid, (uname, (aname, (uid, _))))) =>
  r ← fs_attach uid uname aname;
  let '(err, f, qid) := r in
  if nz err then mret (A_error err) else _ ← fid_set fid f; mret (A_reply (encode_qid qid))).
Definition serve_walk : MS answer :=
  match decode "wwh" body with
  | None => refuse
  | Some ((fid, (newfid, (nwname, _))), k) => with_file fid (fun f =>
      r ← match decode_names (drop (Z.to_nat k) body) (Z.to_nat nwname) with
          | None => mret (- P9_EPROTO, f, [])
          | Some names => fs_walk f names
          end;
      let '(err, f, qids) := r in
      if err <? 0 then mret (A_error err)
      else
        _ ← fid_set newfid f;
        mret (A_reply (le16 err ++ concat (map encode_qid (take (Z.to_nat err) qids)))))
  end.
Definition serve_write : MS answer :=
  match decode "wdw" body with
  | None => refuse
  | Some ((fid, (offs, (count, _))), k) => with_file fid (fun f =>
      let data := drop (Z.to_nat k) body in
      if Z.of_nat (length data) <? count then refuse
      else
        n ← fs_write f offs (take (Z.to_nat count) data) count;
        mret (if n <? 0 then A_error n else A_reply (le32 n)))
  end.
Definition serve_clunk : MS answer :=
  with_args "w" (fun '(fid, _) => _ ← fid_delete fid; mret (A_reply [])).

(** A request of type [id]. *)
Definition serve (id : Z) (oi : P9OpenInfo) : MS answer :=
  match id with
  | 8 => serve_statfs
  | 12 => serve_lopen oi
  | 14 => serve_lcreate
  | 16 => serve_symlink
  | 18 => serve_mknod
  | 22 => serve_readlink
  | 24 => serve_getattr
  | 26 => serve_setattr
  | 30 => mret (A_error (- P9_ENOTSUP))
  | 40 => serve_data fs_readdir
  | 50 => serve_nothing "w"
  | 52 => serve_lock
  | 54 => serve_getlock
  | 70 => serve_link
  | 72 => serve_mkdir
  | 74 => serve_renameat
  | 76 => serve_unlinkat
  | 100 => serve_version
  | 104 => serve_attach
  | 108 => serve_nothing "h"
  | 110 => serve_walk
  | 116 => serve_data fs_read
  | 118 => serve_write
  | 120 => serve_clunk
  | _ => refuse
  end.
End Serve.

(** A message from the queue: its type and its tag; one without a header has none. *)
Definition m_type (msg : list Z) : Z := byte msg 4.
Definition m_tag (msg : list Z) : Z := if (length msg <? 7)%nat then 0 else get_le16 msg 5.
Definition serve_message `{cfg : Config} `{vcfg : VirtioConfig} {W : Type} `{board : !VirtioBoard W} `{pb : !P9Board W}
    (msg : list Z) (queue_idx desc_idx : Z) : M (Sys W) answer :=
  if (length msg <? 7)%nat then refuse
  else serve (drop 7 msg) (m_type msg) (mkOpenInfo queue_idx desc_idx (m_tag msg)).
