(* ===== verification/Virtio9pFacts.v ===== *)
(** * The 9P device answers every request as the server does *)
From S2P Require Export Virtio9pServe.
From stdpp Require Import strings.
#[local] Open Scope Z_scope.

(** An operation that may stop, and when it returns, gives a result in [P] and leaves the guest and
    the device alone. *)
Definition quiet `{!VirtioBoard W} `{!P9Board W} {A} (P : A -> Prop) (m : M (Sys W) A) : Prop :=
  forall σ, match m σ with Ok a σ' => P a /\ same σ σ' /\ p9 (world σ') = p9 (world σ) | Stop _ => True end.
Definition any {A} (_ : A) : Prop := True.
(** What the operations of a file system promise when they return: a read gives at most the bytes
    asked for, in the buffer, a walk as many qids as it says, a link a string.  They need not return:
    fs_net.c has requests that it does not survive. *)
Class FileSystemLaws (W : Type) `{!VirtioBoard W} `{!P9Board W} := {
  fs_board :: VirtioLaws W p9 p9_set;
  delete_ok : forall f, quiet any (fs_delete f);
  statfs_ok : quiet any fs_statfs;
  attach_ok : forall uid uname aname, quiet any (fs_attach uid uname aname);
  walk_ok : forall f names, quiet (fun r => r.1.1 <= Z.of_nat (length r.2)) (fs_walk f names);
  mkdir_ok : forall f name mode gid, quiet any (fs_mkdir f name mode gid);
  open_ok : forall f flags oi, quiet any (fs_open f flags oi);
  create_ok : forall f name flags mode gid, quiet any (fs_create f name flags mode gid);
  stat_ok : forall f, quiet any (fs_stat f);
  setattr_ok : forall f a1 a2 a3 a4 a5 a6 a7 a8 a9, quiet any (fs_setattr f a1 a2 a3 a4 a5 a6 a7 a8 a9);
  readdir_ok : forall f offs buf count, Z.of_nat (length buf) = count ->
    quiet (fun r => r.1 <= count /\ length r.2 = length buf /\ bytes (take (Z.to_nat r.1) r.2)) (fs_readdir f offs buf count);
  read_ok : forall f offs buf count, Z.of_nat (length buf) = count ->
    quiet (fun r => r.1 <= count /\ length r.2 = length buf /\ bytes (take (Z.to_nat r.1) r.2)) (fs_read f offs buf count);
  write_ok : forall f offs buf count, quiet any (fs_write f offs buf count);
  link_ok : forall df f name, quiet any (fs_link df f name);
  symlink_ok : forall f name target gid, quiet any (fs_symlink f name target gid);
  mknod_ok : forall f name mode major minor gid, quiet any (fs_mknod f name mode major minor gid);
  readlink_ok : forall buf f, quiet (fun r => r.1 = 0 -> exists s r', r.2 = s ++ 0 :: r' /\ nul_free s /\ bytes s) (fs_readlink buf f);
  renameat_ok : forall f name f' name', quiet any (fs_renameat f name f' name');
  unlinkat_ok : forall f name, quiet any (fs_unlinkat f name);
  lock_ok : forall f l, quiet any (fs_lock f l);
  getlock_ok : forall f l, quiet any (fs_getlock f l);
  client_id_ok : forall σ, bytes (client_id_bytes σ);
}.

Section Facts.
Context `{cfg : Config} `{vcfg : VirtioConfig} {W : Type} `{board : !VirtioBoard W} `{pb : !P9Board W} `{laws : !FileSystemLaws W}.
Local Abbreviation MS := (M (Sys W)).
Implicit Types σ : Sys W.

(** ** The table of fids *)
Definition fids σ : list (Z * Z) := fid_list (p9 (world σ)).
Definition fid_map σ : gmap Z Z := list_to_map (fids σ).
Definition one_per_fid σ : Prop := NoDup (fids σ).*1.
Lemma find1_map l fid : fid_find1 l fid = pair fid <$> (list_to_map l : gmap Z Z) !! fid.
Proof.
  induction l as [|[x fd] l IH]; [done|]. cbn [fid_find1 fst list_to_map foldr uncurry].
  destruct (Z.eqb_spec x fid) as [->|Hne]; [by rewrite lookup_insert_eq|]. by rewrite lookup_insert_ne.
Qed.
Lemma find1_In l fid f : fid_find1 l fid = Some f -> In fid l.*1.
Proof. induction l as [|[x fd] l IH]; [done|]. cbn. destruct (Z.eqb_spec x fid); auto. Qed.
Lemma assign_map l fid fd : fid_find1 l fid <> None ->
  (list_to_map (fid_assign l fid fd) : gmap Z Z) = <[fid := fd]> (list_to_map l) /\ (fid_assign l fid fd).*1 = l.*1.
Proof.
  induction l as [|[x y] l IH]; [done|]. cbn [fid_find1 fid_assign fst]. intros H. destruct (Z.eqb_spec x fid) as [->|Hne].
  - cbn. by rewrite insert_insert_eq.
  - destruct (IH H) as [E1 E2]. cbn. rewrite E1, E2, insert_insert_ne by done. done.
Qed.
Lemma del1_sub l fid x : In x (fid_del1 l fid).*1 -> In x l.*1.
Proof. induction l as [|[y z] l IH]; [done|]. cbn. destruct (y =? fid); cbn; intuition auto. Qed.
Lemma del1_map l fid : NoDup l.*1 ->
  (list_to_map (fid_del1 l fid) : gmap Z Z) = delete fid (list_to_map l) /\ NoDup (fid_del1 l fid).*1.
Proof.
  induction l as [|[x y] l IH]; [by split; [rewrite delete_id|constructor]|]. cbn [fid_del1 fst fmap list_fmap]. intros [Hx Hl]%NoDup_cons.
  destruct (Z.eqb_spec x fid) as [->|Hne].
  - cbn. rewrite delete_insert_id; [done|]. by apply not_elem_of_list_to_map_1.
  - destruct (IH Hl) as [E1 E2]. cbn. rewrite E1, delete_insert_ne by done. split; [done|]. apply NoDup_cons. split; [|done].
    intros Hin. apply Hx. apply list_elem_of_In. eapply del1_sub. by apply list_elem_of_In.
Qed.

(** Steps of the server. *)
Record kept σ σ' : Prop := {
  kp_same : same σ σ';
  kp_busy : p9_busy (p9 (world σ')) = p9_busy (p9 (world σ));
  kp_fids : one_per_fid σ -> one_per_fid σ';
}.
Definition runs {A} (P : A -> Prop) (m : MS A) : Prop := forall σ, match m σ with Ok a σ' => P a /\ kept σ σ' | Stop _ => True end.
Lemma kept_refl σ : kept σ σ.
Proof. by split. Qed.
Lemma kept_trans σ1 σ2 σ3 : kept σ1 σ2 -> kept σ2 σ3 -> kept σ1 σ3.
Proof. intros [A1 A2 A3] [B1 B2 B3]. split; [by eapply same_trans|by rewrite B2|auto]. Qed.
Lemma quiet_kept {A} P (m : MS A) σ : quiet P m ->
  match m σ with Ok a σ' => P a /\ kept σ σ' /\ p9 (world σ') = p9 (world σ) | Stop _ => True end.
Proof.
  intros H. specialize (H σ). destruct (m σ) as [a σ'|]; [|done]. destruct H as (Ha & Hs & Hp). split; [done|]. split; [|done].
  split; [done|by rewrite Hp|]. unfold one_per_fid, fids. by rewrite Hp.
Qed.
Lemma quiet_runs {A} P (m : MS A) : quiet P m -> runs P m.
Proof. intros H σ. pose proof (quiet_kept P m σ H) as Hk. destruct (m σ); [|done]. by destruct Hk as (? & ? & _). Qed.
Lemma runs_gets {A} (f : Sys W -> A) (P : A -> Prop) : (forall σ, P (f σ)) -> runs P (gets f).
Proof. intros H σ. split; [apply H|apply kept_refl]. Qed.
Lemma runs_find fid : runs any (fid_find fid).
Proof. intros σ. split; [done|apply kept_refl]. Qed.
Lemma updp_ok f σ : exists σ', updp f σ = Ok tt σ' /\ same σ σ' /\ p9 (world σ') = f (p9 (world σ)).
Proof. eexists. split; [done|]. split; [split; [done|]; split; [done|]; cbn; apply vdev_st_set|]. cbn. apply st_st_set. Qed.
Lemma upd_fids_ok f σ : (one_per_fid σ -> NoDup (f (fids σ)).*1) ->
  exists σ', upd_fids f σ = Ok tt σ' /\ kept σ σ' /\ fids σ' = f (fids σ).
Proof.
  intros Hf. destruct (updp_ok (fun s => mkP9 (msize s) (f (fid_list s)) (p9_busy s)) σ) as (σ' & E & Hs & Hp).
  exists σ'. split; [done|]. assert (fids σ' = f (fids σ)) as Ef by (unfold fids; by rewrite Hp). split; [|done].
  split; [done|by rewrite Hp|]. unfold one_per_fid. by rewrite Ef.
Qed.
(** fid_set and fid_delete update the map of fids; the file that goes is passed to fs_delete. *)
Lemma fid_set_ok fid fd σ : match fid_set fid fd σ with Ok _ σ' => kept σ σ' /\ fid_map σ' = <[fid := fd]> (fid_map σ) | Stop _ => True end.
Proof.
  unfold fid_set, getp, mbind, M_bind, gets. fold (fids σ). destruct (fid_find1 (fids σ) fid) as [f|] eqn:Ef.
  - pose proof (quiet_kept any (fs_delete f.2) σ (delete_ok _)) as Hk. destruct (fs_delete f.2 σ) as [u σ1|]; [|done]. destruct Hk as (_ & K1 & Hp).
    assert (fids σ1 = fids σ) as E1 by (unfold fids; by rewrite Hp).
    destruct (assign_map (fids σ) fid fd) as [Em En]; [by rewrite Ef|].
    destruct (upd_fids_ok (fun l => fid_assign l fid fd) σ1) as (σ2 & -> & K2 & E2); [unfold one_per_fid; by rewrite E1, En|].
    split; [by eapply kept_trans|]. unfold fid_map. by rewrite E2, E1, Em.
  - destruct (upd_fids_ok (fun l => (fid, fd) :: l) σ) as (σ2 & -> & K2 & E2).
    { intros Hnd. cbn. apply NoDup_cons. split; [|done]. change (fid ∉ (fids σ).*1). eapply (@not_elem_of_list_to_map_2 Z (gmap Z)); [apply _|].
      rewrite find1_map in Ef. by destruct ((list_to_map (fids σ) : gmap Z Z) !! fid). }
    split; [done|]. unfold fid_map. by rewrite E2.
Qed.
Lemma del1_absent l fid : fid_find1 l fid = None -> fid_del1 l fid = l.
Proof. induction l as [|[x y] l IH]; [done|]. cbn. destruct (x =? fid); [done|]. intros H. f_equal. auto. Qed.
Lemma fid_delete_ok fid σ : match fid_delete fid σ with
  | Ok _ σ' => kept σ σ' /\ (one_per_fid σ -> fid_map σ' = delete fid (fid_map σ)) | Stop _ => True end.
Proof.
  unfold fid_delete, getp, mbind, M_bind, gets. fold (fids σ). destruct (fid_find1 (fids σ) fid) as [f|] eqn:Ef.
  - pose proof (quiet_kept any (fs_delete f.2) σ (delete_ok _)) as Hk. destruct (fs_delete f.2 σ) as [u σ1|]; [|done]. destruct Hk as (_ & K1 & Hp).
    assert (fids σ1 = fids σ) as E1 by (unfold fids; by rewrite Hp).
    destruct (upd_fids_ok (fun l => fid_del1 l fid) σ1) as (σ2 & -> & K2 & E2).
    { intros Hnd. apply del1_map. unfold one_per_fid in Hnd. exact Hnd. }
    split; [by eapply kept_trans|]. intros Hnd. unfold fid_map. rewrite E2, E1. by apply del1_map.
  - split; [apply kept_refl|]. intros Hnd. unfold fid_map.
    rewrite <- (proj1 (del1_map (fids σ) fid Hnd)). by rewrite del1_absent.
Qed.
Lemma fid_find_ok fid σ : fid_find fid σ = Ok (default 0 (fid_map σ !! fid)) σ.
Proof.
  unfold fid_find, getp, mbind, M_bind, gets, mret, M_ret. f_equal. rewrite find1_map. unfold fid_map, fids.
  by destruct ((list_to_map _ : gmap Z Z) !! fid).
Qed.
Lemma runs_set fid fd : runs any (fid_set fid fd).
Proof. intros σ. pose proof (fid_set_ok fid fd σ) as H. destruct (fid_set _ _ σ); [|done]. by destruct H. Qed.
Lemma runs_delete fid : runs any (fid_delete fid).
Proof. intros σ. pose proof (fid_delete_ok fid σ) as H. destruct (fid_delete _ σ); [|done]. by destruct H. Qed.

(** ** Answers on the queue *)
Variables (fuel : nat) (qs : QueueState) (N pt pu idx : Z) (rs ws : list (list Z * Z)) (msg : list Z).
Hypotheses (Hfuel : (length rs + length ws < fuel)%nat) (Hsize : total_len rs + 2 ^ 16 < 2 ^ 31)
  (Hoff : off_ring ws qs pu) (Herr : 11 <= total_len ws).
(** The state in which a request is in the queue. *)
Record pending σ : Prop := {
  pd_vq : vq σ 0 qs N pt;
  pd_used : used_ring σ qs pu;
  pd_chain : chain σ N pt idx rs ws;
  pd_msg : content (host σ) rs = msg;
}.
Lemma pending_same σ σ' : same σ σ' -> pending σ -> pending σ'.
Proof.
  intros Hs [H1 H2 H3 H4]. split; [by eapply vq_same|eapply used_ring_same; [apply Hs|done]|by eapply chain_same|].
  destruct Hs as (_ & -> & _). done.
Qed.
(** What the reply leaves behind: the message in the writable buffers, an entry of the used ring. *)
Record sent σ σ' (type tag : Z) (b : list Z) : Prop := {
  sn_content : content (host σ') ws = splice 0 (message type tag b) (content (host σ) ws);
  sn_replied : replied σ σ' qs ws pu idx (Z.of_nat (length b) + 7);
  sn_queue : queue (vdev (world σ')) = queue (vdev (world σ));
  sn_p9 : p9 (world σ') = p9 (world σ);
}.
Lemma length_message type tag b : length (message type tag b) = (length b + 7)%nat.
Proof. unfold message. rewrite !length_app, length_le32, length_le16. cbn [length]. lia. Qed.
Lemma bytes_message type tag b : bytes b -> bytes (message type tag b).
Proof.
  intros Hb. apply bytes_app; [apply bytes_le32|]. apply (bytes_app [u8 type]); [by apply Forall_singleton, fits_wrap|]. apply bytes_app; [apply bytes_le16|done].
Qed.
Lemma store_at {S} pos a b u (s : S) : pos = Z.of_nat (length a) -> (length b <= length u)%nat ->
  buf_store pos b (a ++ u) s = Ok ((a ++ b) ++ drop (length b) u) s.
Proof.
  intros -> Hl. unfold buf_store. rewrite length_app, (proj2 (Z.leb_le 0 _)), (proj2 (Z.leb_le _ _)) by lia. cbn [andb].
  unfold mret, M_ret. f_equal. unfold splice. by rewrite Nat2Z.id, take_app_length, <- drop_drop, drop_app_length, app_assoc.
Qed.
Local Ltac store_tac := rewrite ?length_app, ?length_drop, ?length_le16, ?length_le32; cbn [length]; lia.
Lemma send_reply_ok σ id tag b buf : pending σ -> bytes b -> Z.of_nat (length b) + 7 <= total_len ws ->
  take (length b) buf = b -> exists σ', virtio_9p_send_reply fuel 0 idx id tag buf (Z.of_nat (length b)) σ = Ok tt σ' /\
    sent σ σ' (id + 1) tag b.
Proof.
  intros [Hq Hu Hc _] Hb Hl Htake. pose proof (ch_total _ _ _ _ _ _ Hc) as H31. pose proof (total_nonneg rs) as Hr0.
  set (n := Z.of_nat (length b)) in *. unfold virtio_9p_send_reply. cbv zeta. rewrite (i32_small (n + 7)) by lia.
  destruct (reply_ok fuel σ 0 qs N pt pu idx rs ws (message (id + 1) tag b)) as (σ' & E & E1 & E2 & E3 & E4 & E5); try done.
  { by apply bytes_message. }
  { rewrite length_message. lia. }
  exists σ'. rewrite length_message in E, E2. replace (Z.of_nat (length b + 7)) with (n + 7) in E, E2 by lia.
  split; [|by split].
  unfold mbind at 1, M_bind at 1, uninit_buf, gets. set (u := uninit_bytes σ _).
  assert (length u = (length b + 7)%nat) as Lu by (unfold u; rewrite uninit_len; lia).
  change u with ([] ++ u). unfold mbind at 1, M_bind at 1. rewrite store_at by store_tac.
  unfold mbind at 1, M_bind at 1. rewrite store_at by store_tac.
  unfold mbind at 1, M_bind at 1. rewrite store_at by store_tac.
  replace (Z.to_nat n) with (length b) by lia. unfold mbind at 1, M_bind at 1, buf_load at 1.
  pose proof (f_equal length Htake) as Lb. rewrite length_take in Lb.
  change (Z.to_nat 0) with 0%nat. rewrite drop_0, Htake, (proj2 (Z.leb_le 0 0)), (proj2 (Z.leb_le _ _)) by lia. cbn [andb].
  unfold mret at 1, M_ret at 1. unfold mbind at 1, M_bind at 1.
  rewrite store_at by store_tac.
  rewrite !drop_drop, drop_ge, app_nil_r by store_tac.
  rewrite app_nil_l, <- !app_assoc. exact E.
Qed.

(** ** The handler refines the server *)
Variables (id tag : Z).
Definition is_data : bool := (id =? 40) || (id =? 116).
(** The answer fits the writable buffers and, but for read and readdir, the buffer of the
    handler. *)
Definition room (a : answer) : Prop :=
  match a with
  | A_reply b => Z.of_nat (length b) + 7 <= total_len ws /\ (is_data = true \/ Z.of_nat (length b) <= 1024)
  | _ => True
  end.
Definition answer_bytes (a : answer) : Prop := match a with A_reply b => bytes b | _ => True end.
(** The reply has been sent, or the error is left to the caller, from the state [σ1] of the
    server. *)
Definition replied_as (a : answer) σ1 (r : option Z) σ' : Prop :=
  match a with
  | A_reply b => r = None /\ sent σ1 σ' (id + 1) tag b
  | A_error e => r = Some e /\ σ' = σ1 \/ r = None /\ sent σ1 σ' 7 tag (le32 (- e))
  | A_pending => r = None /\ σ' = σ1
  end.
Definition busy_after (a : answer) σ : bool := match a with A_pending => true | _ => p9_busy (p9 (world σ)) end.
Record served (a : answer) σ σ1 : Prop := {
  sv_same : same σ σ1;
  sv_busy : p9_busy (p9 (world σ1)) = busy_after a σ;
  sv_fids : one_per_fid σ -> one_per_fid σ1;
  sv_bytes : answer_bytes a;
}.
Definition refines (h : MS (option Z)) (s : MS answer) : Prop := forall σ, pending σ ->
  match s σ with
  | Ok a σ1 => served a σ σ1 /\ (room a -> exists r σ', h σ = Ok r σ' /\ replied_as a σ1 r σ')
  | Stop _ => exists r, h σ = Stop r
  end.
Lemma refines_ok h s : (forall σ, pending σ -> exists a σ1, s σ = Ok a σ1 /\ served a σ σ1 /\
  (room a -> exists r σ', h σ = Ok r σ' /\ replied_as a σ1 r σ')) -> refines h s.
Proof. intros H σ Hp. by destruct (H σ Hp) as (a & σ1 & -> & ?). Qed.

Lemma refines_bind {A} (P : A -> Prop) (m : MS A) h s : runs P m -> (forall a, P a -> refines (h a) (s a)) ->
  refines (m ≫= h) (m ≫= s).
Proof.
  intros Hm Hk σ Hp. specialize (Hm σ). unfold mbind, M_bind. destruct (m σ) as [x σ1|r]; [|by exists r].
  destruct Hm as (Hx & [K1 K2 K3]). specialize (Hk x Hx σ1 ltac:(by eapply pending_same)).
  destruct (s x σ1) as [a σ2|]; [|done]. destruct Hk as ([S1 S2 S3 S4] & Hr). split; [|done].
  split; [by eapply same_trans| |auto|done]. rewrite S2. destruct a; cbn; auto.
Qed.
Lemma refines_error e : refines (mret (Some e)) (mret (A_error e)).
Proof. apply refines_ok. intros σ Hp. exists (A_error e), σ. split; [done|]. split; [by split|]. intros _. exists (Some e), σ. by split; [|left]. Qed.
Lemma send_buf_ok σ b : pending σ -> bytes b -> room (A_reply b) -> forall k t,
  exists σ', send_buf fuel 0 idx k t b σ = Ok tt σ' /\ sent σ σ' (k + 1) t b.
Proof. intros Hp Hb [Hl _] k t. apply send_reply_ok; [done|done|done|]. by apply take_ge. Qed.
Lemma send_error_ok σ e t : pending σ -> exists σ', virtio_9p_send_error fuel 0 idx t e σ = Ok tt σ' /\ sent σ σ' 7 t (le32 (- e)).
Proof.
  intros Hp. unfold virtio_9p_send_error, mbind at 1, M_bind at 1. rewrite (marshall_ok "w" 4 (- e, tt)) by done.
  change (encode "w" (- e, tt)) with (le32 (- e)). apply (send_reply_ok σ 6); [done|apply bytes_le32|rewrite length_le32; lia|done].
Qed.
Lemma refines_done b : bytes b -> refines (p9_done fuel 0 idx id tag b) (mret (A_reply b)).
Proof.
  intros Hb. apply refines_ok. intros σ Hp. exists (A_reply b), σ. split; [done|]. split; [by split|]. intros Hr.
  destruct (send_buf_ok σ b Hp Hb Hr id tag) as (σ' & E & Hs). exists None, σ'. unfold p9_done, mbind, M_bind. by rewrite E.
Qed.
(** Marshalling in the buffer of the handler *)
Lemma refines_marshall f vs k b : is_data = false -> str_bytes f vs ->
  refines (k (encode f vs)) (mret (A_reply b)) -> b = encode f vs -> refines (buf ← marshall 1024 f vs; k buf) (mret (A_reply b)).
Proof.
  intros Hd Hb Hk -> σ Hp. destruct (Hk σ Hp) as (Hs & Hr). split; [done|]. intros Hroom. destruct (Hr Hroom) as (r & σ' & E & Hr'). exists r, σ'. split; [|done].
  unfold mbind, M_bind. destruct Hroom as [_ [H|H]]; [by rewrite Hd in H|]. by rewrite marshall_ok by (done || lia).
Qed.
Lemma refines_encoded f vs : is_data = false -> str_bytes f vs ->
  refines (buf ← marshall 1024 f vs; p9_done fuel 0 idx id tag buf) (mret (A_reply (encode f vs))).
Proof. intros Hd Hb. apply refines_marshall; [done|done| |done]. by apply refines_done, encode_bytes. Qed.

(** The message in the queue starts with a header. *)
Hypothesis Hheader : (7 <= length msg)%nat.
Local Abbreviation body := (drop 7 msg).
Lemma unmarshall_body f σ : pending σ -> no_qid f = true ->
  unmarshall fuel 0 idx p9_header_len f σ = Ok (found 7 (decode f body)) σ.
Proof.
  intros [Hq _ Hc Hm] Hno. pose proof (length_content (host σ) rs) as Hl. rewrite Hm in Hl.
  rewrite (unmarshall_ok fuel σ 0 qs N pt idx rs ws) by (done || (unfold p9_header_len; lia)). by rewrite Hm.
Qed.
Lemma refines_args f h s : no_qid f = true -> (forall vs k, decode f body = Some (vs, k) -> refines (h vs) (s vs)) ->
  refines (p9_args fuel 0 idx f h) (with_args body f s).
Proof.
  intros Hno Hk σ Hp. unfold p9_args, mbind, M_bind, with_args. rewrite unmarshall_body by done.
  destruct (decode f body) as [[vs k]|] eqn:E; cbn; [by eapply Hk|by apply (refines_error)].
Qed.
Lemma refines_fid fid h s : (forall f, refines (h f) (s f)) -> refines (with_fid fid h) (with_file fid s).
Proof.
  intros Hk. unfold with_fid, with_file. apply (refines_bind any); [apply runs_find|]. intros f _.
  destruct (f =? 0); [apply refines_error|done].
Qed.
Lemma refines_one_qid qid : is_data = false ->
  refines (buf ← marshall 1024 "Q" (qid, tt); p9_done fuel 0 idx id tag buf) (mret (A_reply (encode_qid qid))).
Proof. intros Hd. by apply (refines_encoded "Q" (qid, tt)). Qed.
Lemma refines_qid r : is_data = false -> refines (qid_reply fuel 0 idx id tag r) (answer_qid r).
Proof.
  intros Hd. destruct r as [err qid]. unfold qid_reply, answer_qid, answer_with.
  destruct (nz err); [apply refines_error|by apply refines_one_qid].
Qed.
Lemma refines_ext h h' s : (forall σ, pending σ -> h σ = h' σ) -> refines h' s -> refines h s.
Proof.
  intros He Hr σ Hp. rewrite He by done. by apply Hr.
Qed.
Lemma refines_empty err : refines (empty_reply fuel 0 idx id tag err) (answer_empty err).
Proof. unfold empty_reply, answer_empty. destruct (nz err); [apply refines_error|apply refines_done; constructor]. Qed.

(** *** One lemma per case of the switch *)
Hypothesis Hcount : forall fid offs count n,
  is_data = true \/ id = 118 -> decode "wdw" body = Some ((fid, (offs, (count, tt))), n) -> count < 2 ^ 31 - 64.
Ltac split_fields := repeat match goal with x : fields _ |- _ => cbn [fields] in x | x : (_ * _)%type |- _ => destruct x end.
Ltac args := apply refines_args; [done|]; intros ? ? _; split_fields.
Ltac file := apply refines_fid; intros ?.
Ltac run L := apply (refines_bind any); [apply quiet_runs, L|]; intros ? _.
Lemma refines_statfs : is_data = false -> refines (p9_statfs fuel 0 idx id tag) serve_statfs.
Proof. intros Hd. unfold p9_statfs, serve_statfs. run statfs_ok. by apply refines_encoded. Qed.
Lemma refines_symlink : is_data = false -> refines (p9_symlink fuel 0 idx id tag) (serve_symlink body).
Proof. intros Hd. unfold p9_symlink, serve_symlink. args. file. run symlink_ok. by apply refines_qid. Qed.
Lemma refines_mknod : is_data = false -> refines (p9_mknod fuel 0 idx id tag) (serve_mknod body).
Proof. intros Hd. unfold p9_mknod, serve_mknod. args. file. run mknod_ok. by apply refines_qid. Qed.
Lemma refines_mkdir : is_data = false -> refines (p9_mkdir fuel 0 idx id tag) (serve_mkdir body).
Proof. intros Hd. unfold p9_mkdir, serve_mkdir. args. file. run mkdir_ok. by apply refines_qid. Qed.
Lemma refines_getattr : is_data = false -> refines (p9_getattr fuel 0 idx id tag) (serve_getattr body).
Proof.
  intros Hd. unfold p9_getattr, serve_getattr. args. file. run stat_ok. split_fields. unfold answer_with.
  case_match; [apply refines_error|]. by apply refines_encoded.
Qed.
Lemma refines_setattr : refines (p9_setattr fuel 0 idx id tag) (serve_setattr body).
Proof. unfold p9_setattr, serve_setattr. args. file. run setattr_ok. apply refines_empty. Qed.
Lemma refines_unlinkat : refines (p9_unlinkat fuel 0 idx id tag) (serve_unlinkat body).
Proof. unfold p9_unlinkat, serve_unlinkat. args. file. run unlinkat_ok. apply refines_empty. Qed.
Lemma refines_nothing f : no_qid f = true -> refines (p9_args fuel 0 idx f (fun _ => p9_done fuel 0 idx id tag [])) (serve_nothing body f).
Proof. intros Hno. apply refines_args; [done|]. intros _ _ _. apply refines_done. constructor. Qed.
Lemma refines_link : refines (p9_link fuel 0 idx id tag) (serve_link body).
Proof.
  unfold p9_link, serve_link. args. do 2 (apply (refines_bind any); [apply runs_find|]; intros ? _).
  destruct (_ || _); [apply refines_error|]. run link_ok. apply refines_empty.
Qed.
Lemma refines_renameat : refines (p9_renameat fuel 0 idx id tag) (serve_renameat body).
Proof.
  unfold p9_renameat, serve_renameat. args. do 2 (apply (refines_bind any); [apply runs_find|]; intros ? _).
  destruct (_ || _); [apply refines_error|]. run renameat_ok. apply refines_empty.
Qed.
Lemma runs_getp : runs any getp.
Proof. by apply runs_gets. Qed.
Lemma refines_lcreate : is_data = false -> refines (p9_lcreate fuel 0 idx id tag) (serve_lcreate body).
Proof.
  intros Hd. unfold p9_lcreate, serve_lcreate. args. file. run create_ok. split_fields. unfold answer_with.
  case_match; [apply refines_error|]. apply (refines_bind any); [apply runs_getp|]. intros ? _. by apply refines_encoded.
Qed.
Lemma refines_lock : is_data = false -> refines (p9_lock fuel 0 idx id tag) (serve_lock body).
Proof.
  intros Hd. unfold p9_lock, serve_lock. args. file. run lock_ok. case_match; [apply refines_error|].
  by apply (refines_encoded "b" (a, tt)).
Qed.
Lemma refines_getlock : is_data = false -> refines (p9_getlock fuel 0 idx id tag) (serve_getlock body).
Proof.
  intros Hd. unfold p9_getlock, serve_getlock. args. file. apply (refines_bind any); [by apply runs_gets|]. intros ? _.
  run getlock_ok. case_match; [apply refines_error|]. apply (refines_bind any); [by apply runs_gets|]. intros ? _.
  apply (refines_bind bytes); [apply runs_gets, client_id_ok|]. intros ? ?. by apply refines_encoded.
Qed.
Lemma string_stops s r : nul_free s -> (forall σ, as_string (s ++ 0 :: r) σ = Ok s σ) /\ up_to_nul (s ++ 0 :: r) = s.
Proof.
  intros H. assert (strlen (s ++ 0 :: r) = Some (length s)) as E.
  { induction s as [|c s IH]; [done|]. apply Forall_cons_1 in H as [Hc H]. cbn [app strlen length].
    rewrite (proj2 (Z.eqb_neq c 0)) by done. by rewrite IH. }
  unfold as_string, up_to_nul. rewrite E, take_app_length. done.
Qed.
Lemma refines_readlink : is_data = false -> refines (p9_readlink fuel 0 idx id tag) (serve_readlink body).
Proof.
  intros Hd. unfold p9_readlink, serve_readlink. args. file. apply (refines_bind any); [by apply runs_gets|]. intros ? _.
  eapply refines_bind; [apply quiet_runs, readlink_ok|]. intros [err buf] Hbuf. unfold answer_with. cbn [fst snd] in Hbuf.
  destruct (nz err) eqn:E; [apply refines_error|]. unfold nz in E. apply negb_false_iff, Z.eqb_eq in E.
  destruct (Hbuf E) as (s & r & -> & Hs & Hb). destruct (string_stops s r Hs) as [E1 E2]. rewrite E2.
  apply (refines_ext _ (buf ← marshall 1024 "s" (s, tt); p9_done fuel 0 idx id tag buf)).
  { intros σ _. unfold mbind at 1, M_bind at 1. by rewrite E1. }
  by apply (refines_encoded "s" (s, tt)).
Qed.
Lemma refines_version : is_data = false -> refines (p9_version fuel 0 idx id tag) (serve_version body).
Proof.
  intros Hd. unfold p9_version, serve_version. apply refines_args; [done|]. intros [size [version []]] k _. apply refines_ok. intros σ Hp.
  destruct (updp_ok (fun s => mkP9 (i32 size) (fid_list s) (p9_busy s)) σ) as (σ1 & E & Hs & Hp9).
  assert (pending σ1) as Hp1 by by eapply pending_same.
  destruct (refines_encoded "ws" (i32 size, (str "9P2000.L"%string, tt)) Hd ltac:(split; [by repeat constructor|done]) σ1 Hp1) as ([S1 S2 S3 S4] & Hr).
  eexists _, σ1. split; [unfold mbind at 1, M_bind at 1; by rewrite E|].
  split; [split; [done|by rewrite Hp9|unfold one_per_fid, fids; by rewrite Hp9|done]|].
  intros Hroom. destruct (Hr Hroom) as (r & σ' & E' & Hr'). exists r, σ'. split; [|done].
  unfold mbind at 1, M_bind at 1. rewrite E. unfold mbind at 1, M_bind at 1, getp, gets. rewrite Hp9. exact E'.
Qed.
Lemma refines_attach : is_data = false -> refines (p9_attach fuel 0 idx id tag) (serve_attach body).
Proof.
  intros Hd. unfold p9_attach, serve_attach. args. run attach_ok. split_fields. case_match; [apply refines_error|].
  apply (refines_bind any); [apply runs_set|]. intros ? _. by apply refines_one_qid.
Qed.
Lemma refines_clunk : refines (p9_clunk fuel 0 idx id tag) (serve_clunk body).
Proof.
  unfold p9_clunk, serve_clunk. args. apply (refines_bind any); [apply runs_delete|]. intros ? _. apply refines_done. constructor.
Qed.

Lemma refines_lopen : id = 12 -> refines (p9_lopen fuel 0 idx tag) (serve_lopen body (mkOpenInfo 0 idx tag)).
Proof.
  intros Hid. unfold p9_lopen, serve_lopen. args. file. cbv zeta. eapply refines_bind; [apply quiet_runs, open_ok|]. intros [err qid] _.
  apply refines_ok. intros σ Hp. unfold virtio_9p_open_reply. cbn [oi_queue_idx oi_desc_idx oi_tag].
  destruct (Z.ltb_spec 0 err), (Z.leb_spec err 0); try lia.
  - destruct (updp_ok (fun s => mkP9 (msize s) (fid_list s) true) σ) as (σ1 & E & Hs & E1).
    exists A_pending, σ1. unfold mbind, M_bind. rewrite E. split; [done|]. split; [|by eexists _, _].
    split; [done|by rewrite E1| |done]. unfold one_per_fid, fids. by rewrite E1.
  - destruct (Z.ltb_spec err 0).
    + exists (A_error err), σ. split; [done|]. split; [by split|]. intros _. destruct (send_error_ok σ err tag Hp) as (σ' & E & Hs).
      exists None, σ'. unfold mbind, M_bind, getp, gets. rewrite E. by split; [|right].
    + set (b := encode "Qw" (qid, (msize (p9 (world σ)) - 24, tt))). exists (A_reply b), σ. split; [done|].
      assert (bytes b) as Hb by by apply (encode_bytes "Qw"). split; [by split|]. intros Hr.
      destruct (send_buf_ok σ b Hp Hb Hr 12 tag) as (σ' & E & Hs). exists None, σ'. unfold mbind, M_bind, getp, gets.
      rewrite (marshall_ok "Qw") by done. fold b. rewrite E. split; [done|]. split; [done|by rewrite Hid].
Qed.

(** Counts in messages are not negative. *)
Lemma wdw_count fid offs count n : decode "wdw" body = Some ((fid, (offs, (count, tt))), n) -> 0 <= count /\ n = 16 /\ (16 <= length body)%nat.
Proof.
  cbn [decode]. unfold take_scalar. repeat (case_match; try done). cbn [option_map]. intros [= <- <- <- <-].
  pose proof (le32_fits (drop 8 (drop 4 body)) 0) as [].
  repeat match goal with E : (_ <? _)%nat = false |- _ => apply Nat.ltb_ge in E end. rewrite !length_drop in *. lia.
Qed.
Lemma refines_data op : is_data = true ->
  (forall f offs buf count, Z.of_nat (length buf) = count ->
    quiet (fun r => r.1 <= count /\ length r.2 = length buf /\ bytes (take (Z.to_nat r.1) r.2)) (op f offs buf count)) ->
  refines (data_request fuel 0 idx id tag op) (serve_data body op).
Proof.
  intros Hd Hop. unfold data_request, serve_data. apply refines_args; [done|]. intros [fid [offs [count []]]] k Hk. file.
  pose proof (Hcount fid offs count k (or_introl Hd) Hk). destruct (wdw_count _ _ _ _ Hk) as (? & _).
  rewrite (wrap_fits 32 (count + 4)), i32_small by (unfold fits; lia).
  apply (refines_bind (fun b => length b = Z.to_nat (count + 4))); [apply runs_gets; intros; apply uninit_len|]. intros buf Hbuf.
  eapply refines_bind; [apply quiet_runs, Hop; rewrite length_drop; lia|]. intros [n data] (Hn & Hl & Hb). cbn [fst snd] in *.
  rewrite length_drop in Hl. destruct (Z.ltb_spec n 0); [apply refines_error|].
  set (b := le32 n ++ take (Z.to_nat n) data). assert (bytes b) as Hbb by (apply bytes_app; [apply bytes_le32|done]).
  assert (Z.of_nat (length b) = n + 4) as Lb by (unfold b; rewrite length_app, length_take, length_le32; lia).
  apply refines_ok. intros σ Hp. exists (A_reply b), σ. split; [done|]. split; [by split|]. intros [Hr _].
  unfold mbind at 1, M_bind at 1. change (take 4 buf ++ data) with ([] ++ (take 4 buf ++ data)).
  rewrite store_at by (rewrite ?length_app, ?length_take, ?length_le32; cbn [length]; lia). cbn [app]. rewrite length_le32.
  rewrite drop_app_length' by (rewrite length_take; lia). rewrite i32_small, <- Lb by lia.
  destruct (send_reply_ok σ id tag b (le32 n ++ data)) as (σ' & E & Hs); try done.
  { replace (length b) with (4 + Z.to_nat n)%nat by lia. rewrite take_app_ge by (rewrite length_le32; lia). by rewrite length_le32, Nat.add_comm, Nat.add_sub. }
  exists None, σ'. unfold mbind, M_bind. by rewrite E.
Qed.
Lemma body_length σ : pending σ -> Z.of_nat (length body) = total_len rs - 7.
Proof. intros [_ _ _ Hm]. pose proof (length_content (host σ) rs) as Hl. rewrite Hm in Hl. rewrite length_drop. lia. Qed.
Lemma refines_args_at f (h : fields f -> Z -> MS (option Z)) (s : fields f -> Z -> MS answer) : no_qid f = true ->
  (forall vs k, decode f body = Some (vs, k) -> refines (h vs (7 + k)) (s vs k)) ->
  refines (x ← unmarshall fuel 0 idx p9_header_len f; match x with None => mret (Some (- P9_EPROTO)) | Some (vs, o) => h vs o end)
    (match decode f body with None => refuse | Some (vs, k) => s vs k end).
Proof.
  intros Hno Hk σ Hp. unfold mbind, M_bind. rewrite unmarshall_body by done.
  destruct (decode f body) as [[vs k]|] eqn:E; cbn; [by eapply Hk|by apply (refines_error)].
Qed.
Lemma refines_write : id = 118 -> refines (p9_write fuel 0 idx id tag) (serve_write body).
Proof.
  intros Hid. assert (is_data = false) as Hd by (unfold is_data; by rewrite Hid).
  apply (refines_args_at "wdw"); [done|]. intros [fid [offs [count []]]] k Hk.
  pose proof (Hcount fid offs count k (or_intror Hid) Hk). destruct (wdw_count _ _ _ _ Hk) as (? & -> & ?).
  apply refines_fid. intros f. cbv zeta. rewrite i32_small by lia. set (data := drop (Z.to_nat 16) body). change (7 + 16) with 23.
  apply (refines_ext _ ((if Z.of_nat (length data) <? count then mret (Some (- P9_EPROTO))
    else n ← fs_write f offs (take (Z.to_nat count) data) count;
         if n <? 0 then mret (Some n) else buf ← marshall 1024 "w" (n, tt); p9_done fuel 0 idx id tag buf) : MS (option Z))).
  - intros σ Hp. pose proof (body_length σ Hp) as Hb. unfold mbind at 1 2, M_bind at 1 2, uninit_buf, gets.
    destruct (read_part fuel σ 0 qs N pt idx rs ws (pd_vq _ Hp) (pd_chain _ Hp) Hfuel) with
      (buf := uninit_bytes σ (Z.to_nat count)) (offset := 23) (count := count) as (buf' & E); [lia|lia|rewrite uninit_len; lia|].
    rewrite (pd_msg _ Hp) in E. replace (drop (Z.to_nat 23) msg) with data in E by (unfold data; by rewrite drop_drop).
    rewrite E. destruct (Nat.ltb_spec (length data) (Z.to_nat count)); destruct (Z.ltb_spec (Z.of_nat (length data)) count); try lia; [done|].
    cbn [fst snd]. change (nz 0) with false. cbv iota. by rewrite splice_all by (rewrite length_take, uninit_len; lia).
  - case_match; [apply refines_error|]. run write_ok. case_match; [apply refines_error|]. by apply (refines_encoded "w" (a, tt)).
Qed.
(** *** walk *)
Lemma take_scalar_bound {A} n get l rest (v : Z * A) k : take_scalar n get l rest = Some (v, k) ->
  (forall l (w : A) j, rest l = Some (w, j) -> 0 <= j <= Z.of_nat (length l)) -> 0 <= k <= Z.of_nat (length l).
Proof.
  unfold take_scalar. destruct (Nat.ltb_spec (length l) n); [done|]. destruct (rest (drop n l)) as [[w j]|] eqn:E; [|done].
  intros [= _ <-] Hr. specialize (Hr _ _ _ E). rewrite length_drop in Hr. lia.
Qed.
Lemma decode_bound f : forall l vs k, decode f l = Some (vs, k) -> 0 <= k <= Z.of_nat (length l).
Proof.
  induction f; intros l vs k; cbn [decode]; intros H; try (eapply take_scalar_bound; [exact H|exact IHf]); [injection H as _ <-; lia| |done].
  destruct (Nat.ltb_spec (length l) 2); [done|]. cbn [orb] in H. destruct (Nat.ltb_spec (length l) (2 + Z.to_nat (get_le16 l 0))); [done|].
  destruct (decode f (drop _ l)) as [[w j]|] eqn:E; [|done]. injection H as _ <-. apply IHf in E. rewrite length_drop in E. lia.
Qed.
Lemma walk_names_ok n : forall σ offset, pending σ -> 0 <= offset <= total_len rs ->
  walk_names fuel 0 idx offset n σ = Ok (decode_names (drop (Z.to_nat offset) msg) n) σ.
Proof.
  induction n as [|n IH]; intros σ offset Hp Ho; cbn [walk_names decode_names]; [done|]. unfold mbind at 1, M_bind at 1.
  rewrite (unmarshall_ok fuel σ 0 qs N pt idx rs ws (pd_vq _ Hp) (pd_chain _ Hp) Hfuel Hsize) by done. rewrite (pd_msg _ Hp).
  destruct (decode "s" (drop (Z.to_nat offset) msg)) as [[[name []] k]|] eqn:E; cbn [found option_map]; [|done].
  apply decode_bound in E. pose proof (length_content (host σ) rs) as Hl. rewrite (pd_msg _ Hp) in Hl. rewrite length_drop in E.
  unfold mbind, M_bind. rewrite IH by (done || lia). unfold mret, M_ret. rewrite drop_drop.
  by replace (Z.to_nat offset + Z.to_nat k)%nat with (Z.to_nat (offset + k)) by lia.
Qed.
Lemma walk_qids_ok n : forall max qids σ, (n <= length qids)%nat -> 13 * Z.of_nat n <= max <= 65537 ->
  walk_qids max qids n σ = Ok (concat (map encode_qid (take n qids))) σ.
Proof.
  induction n as [|n IH]; intros max qids σ Hn Hm; [by destruct qids|]. destruct qids as [|qid qids]; [cbn in Hn; lia|].
  cbn [walk_qids take map concat length] in *. unfold mbind, M_bind. assert (length (encode "Q" (qid, tt)) = 13%nat) as L13 by done.
  rewrite (marshall_ok "Q" max (qid, tt)) by lia. change (encode "Q" (qid, tt)) with (encode_qid qid). rewrite length_qid, IH by lia. done.
Qed.
Lemma walk_qids_pure n : forall max qids σ, match walk_qids max qids n σ with Ok _ σ' => σ' = σ | Stop _ => True end.
Proof using Type.
  induction n as [|n IH]; intros max qids σ; [by destruct qids|]. destruct qids as [|qid qids]; [exact I|]. cbn [walk_qids marshall].
  unfold mbind, M_bind, assert. destruct (13 <=? max); [|done]. unfold mret, M_ret.
  match goal with |- context [walk_qids ?m qids n ?t] => specialize (IH m qids t); by destruct (walk_qids m qids n t) end.
Qed.
Lemma length_qids qids : length (concat (map encode_qid qids)) = (13 * length qids)%nat.
Proof. induction qids as [|q qids IH]; [done|]. cbn [map concat length]. rewrite length_app, length_qid, IH. lia. Qed.
Lemma bytes_qids qids : bytes (concat (map encode_qid qids)).
Proof. induction qids as [|q qids IH]; [constructor|]. apply bytes_app; [apply bytes_qid|done]. Qed.
Lemma refines_walk : is_data = false -> refines (p9_walk fuel 0 idx id tag) (serve_walk body).
Proof.
  intros Hd. apply (refines_args_at "wwh"); [done|]. intros [fid [newfid [nwname []]]] k Hk. apply decode_bound in Hk.
  apply refines_fid. intros f. set (names := decode_names (drop (Z.to_nat k) body) (Z.to_nat nwname)).
  set (walk := match names with None => mret (- P9_EPROTO, f, []) | Some names => fs_walk f names end : MS (Z * Z * list FSQID)).
  apply (refines_ext _ ((r ← walk; let '(err, f, qids) := r in
      if err <? 0 then mret (Some err)
      else
        buf ← marshall 1024 "h" (err, tt);
        rest ← walk_qids (1024 - 2) qids (Z.to_nat err);
        _ ← fid_set newfid f;
        p9_done fuel 0 idx id tag (buf ++ rest)) : MS (option Z))).
  { intros σ Hp. pose proof (body_length σ Hp). unfold mbind at 1, M_bind at 1. rewrite walk_names_ok by (done || lia).
    replace (drop (Z.to_nat (7 + k)) msg) with (drop (Z.to_nat k) body) by (rewrite drop_drop; f_equal; lia). done. }
  apply (refines_bind (fun r => r.1.1 <= Z.of_nat (length r.2))).
  { unfold walk. destruct names as [ns|]; [apply quiet_runs, walk_ok|]. intros σ. split; [done|apply kept_refl]. }
  intros [[err f'] qids] Hq. cbn [fst snd] in Hq. destruct (Z.ltb_spec err 0); [apply refines_error|].
  set (b := le16 err ++ concat (map encode_qid (take (Z.to_nat err) qids))).
  assert (bytes b) as Hb by (apply bytes_app; [apply bytes_le16|apply bytes_qids]).
  assert (Z.of_nat (length b) = 2 + 13 * err) as Lb by (unfold b; rewrite length_app, length_le16, length_qids, length_take; lia).
  intros σ Hp. pose proof (fid_set_ok newfid f' σ) as Hset. unfold mbind at 1, M_bind at 1. destruct (fid_set newfid f' σ) as [u σ1|r] eqn:E.
  2: { unfold mbind at 1, M_bind at 1. rewrite (marshall_ok "h") by done. unfold mbind at 1, M_bind at 1.
       pose proof (walk_qids_pure (Z.to_nat err) (1024 - 2) qids σ) as Hpure. destruct (walk_qids _ _ _ σ) as [rest σ2|r']; [subst σ2|by exists r'].
       unfold mbind, M_bind. rewrite E. by exists r. }
  destruct Hset as ([K1 K2 K3] & _). assert (pending σ1) as Hp1 by by eapply pending_same.
  split; [by split|]. intros Hr.
  destruct (send_buf_ok σ1 b Hp1 Hb Hr id tag) as (σ' & E' & Hs). exists None, σ'. destruct Hr as [_ [Hr|Hr]]; [by rewrite Hd in Hr|].
  unfold mbind, M_bind. rewrite (marshall_ok "h") by done. rewrite walk_qids_ok by lia. rewrite E. unfold p9_done, mbind, M_bind.
  change (encode "h" (err, tt)) with (le16 err). fold b. by rewrite E'.
Qed.
End Facts.

(** ** Every request is answered *)
Section Device.
Context `{cfg : Config} `{vcfg : VirtioConfig} {W : Type} `{board : !VirtioBoard W} `{pb : !P9Board W} `{laws : !FileSystemLaws W}.
Local Abbreviation MS := (M (Sys W)).
Implicit Types σ : Sys W.

Lemma refines_request fuel qs N pt pu idx rs ws msg id tag : (length rs + length ws < fuel)%nat ->
  total_len rs + 2 ^ 16 < 2 ^ 31 -> off_ring ws qs pu -> 11 <= total_len ws -> (7 <= length msg)%nat ->
  (forall fid offs count n, is_data id = true \/ id = 118 ->
     decode "wdw" (drop 7 msg) = Some ((fid, (offs, (count, tt))), n) -> count < 2 ^ 31 - 64) ->
  refines qs N pt pu idx rs ws msg id tag (p9_request fuel 0 idx id tag) (serve (drop 7 msg) id (mkOpenInfo 0 idx tag)).
Proof.
  intros Hf Hs Ho H11 H7 Hc. unfold p9_request, serve.
  repeat match goal with |- context [match ?x with _ => _ end] => is_var x; destruct x end; try apply refines_error.
  all: lazymatch goal with
  | |- refines _ _ _ _ _ _ _ _ _ _ (p9_statfs _ _ _ _ _) _ => by apply refines_statfs
  | |- refines _ _ _ _ _ _ _ _ _ _ (p9_lopen _ _ _ _) _ => by apply refines_lopen
  | |- refines _ _ _ _ _ _ _ _ _ _ (p9_lcreate _ _ _ _ _) _ => by apply refines_lcreate
  | |- refines _ _ _ _ _ _ _ _ _ _ (p9_symlink _ _ _ _ _) _ => by apply refines_symlink
  | |- refines _ _ _ _ _ _ _ _ _ _ (p9_mknod _ _ _ _ _) _ => by apply refines_mknod
  | |- refines _ _ _ _ _ _ _ _ _ _ (p9_readlink _ _ _ _ _) _ => by apply refines_readlink
  | |- refines _ _ _ _ _ _ _ _ _ _ (p9_getattr _ _ _ _ _) _ => by apply refines_getattr
  | |- refines _ _ _ _ _ _ _ _ _ _ (p9_setattr _ _ _ _ _) _ => by apply refines_setattr
  | |- refines _ _ _ _ _ _ _ _ _ _ (p9_readdir _ _ _ _ _) _ => apply refines_data; [done..|apply readdir_ok]
  | |- refines _ _ _ _ _ _ _ _ _ _ (p9_read _ _ _ _ _) _ => apply refines_data; [done..|apply read_ok]
  | |- refines _ _ _ _ _ _ _ _ _ _ (p9_fsync _ _ _ _ _) _ => by apply (refines_nothing fuel qs N pt pu idx rs ws msg)
  | |- refines _ _ _ _ _ _ _ _ _ _ (p9_flush _ _ _ _ _) _ => by apply (refines_nothing fuel qs N pt pu idx rs ws msg)
  | |- refines _ _ _ _ _ _ _ _ _ _ (p9_lock _ _ _ _ _) _ => by apply refines_lock
  | |- refines _ _ _ _ _ _ _ _ _ _ (p9_getlock _ _ _ _ _) _ => by apply refines_getlock
  | |- refines _ _ _ _ _ _ _ _ _ _ (p9_link _ _ _ _ _) _ => by apply refines_link
  | |- refines _ _ _ _ _ _ _ _ _ _ (p9_mkdir _ _ _ _ _) _ => by apply refines_mkdir
  | |- refines _ _ _ _ _ _ _ _ _ _ (p9_renameat _ _ _ _ _) _ => by apply refines_renameat
  | |- refines _ _ _ _ _ _ _ _ _ _ (p9_unlinkat _ _ _ _ _) _ => by apply refines_unlinkat
  | |- refines _ _ _ _ _ _ _ _ _ _ (p9_version _ _ _ _ _) _ => by apply refines_version
  | |- refines _ _ _ _ _ _ _ _ _ _ (p9_attach _ _ _ _ _) _ => by apply refines_attach
  | |- refines _ _ _ _ _ _ _ _ _ _ (p9_walk _ _ _ _ _) _ => by apply refines_walk
  | |- refines _ _ _ _ _ _ _ _ _ _ (p9_write _ _ _ _ _) _ => by apply refines_write
  | |- refines _ _ _ _ _ _ _ _ _ _ (p9_clunk _ _ _ _ _) _ => by apply refines_clunk
  end.
Qed.

(** One request in the queue of a device that is not busy: [msg] is in the readable buffers, and
    the writable ones hold an error reply at least. *)
Record p9_request_in (fuel : nat) (σ : Sys W) (qs : QueueState) (N pt pu idx : Z) (rs ws : list (list Z * Z)) (msg : list Z) : Prop := {
  pq_pending : pending qs N pt pu idx rs ws msg σ;
  pq_avail : one_avail σ qs idx;
  pq_off : off_ring ws qs pu;
  pq_fuel : (length rs + length ws < fuel)%nat;
  pq_idle : p9_busy (p9 (world σ)) = false;
  pq_error : 11 <= total_len ws;
  pq_size : total_len rs + 2 ^ 16 < 2 ^ 31;
}.
(** The counts of read, readdir and write are well below 2 GB. *)
Definition sane_count (msg : list Z) : Prop := forall fid offs count n,
  is_data (m_type msg) = true \/ m_type msg = 118 -> decode "wdw" (drop 7 msg) = Some ((fid, (offs, (count, tt))), n) ->
  count < 2 ^ 31 - 64.
(** What the driver finds for an answer. *)
Definition found_answer (qs : QueueState) (pu idx : Z) (ws : list (list Z * Z)) (msg : list Z) (a : answer) σ1 σ' : Prop :=
  match a with
  | A_reply b =>
      content (host σ') ws = splice 0 (message (m_type msg + 1) (m_tag msg) b) (content (host σ1) ws) /\
      replied σ1 σ' qs ws pu idx (Z.of_nat (length b) + 7)
  | A_error e =>
      content (host σ') ws = splice 0 (message 7 (m_tag msg) (le32 (- e))) (content (host σ1) ws) /\
      replied σ1 σ' qs ws pu idx 11
  | A_pending => host σ' = host σ1
  end.
Lemma header_part fuel σ qs N pt pu idx rs ws msg : p9_request_in fuel σ qs N pt pu idx rs ws msg ->
  exists buf', memcpy_from_queue fuel (uninit_bytes σ (Z.to_nat 1024)) 0 idx 0 p9_header_len σ =
    if (length msg <? 7)%nat then Ok (-1, buf') σ else Ok (0, splice 0 (take 7 msg) (uninit_bytes σ (Z.to_nat 1024))) σ.
Proof.
  intros [Hp _ _ Hf _ _ Hs]. pose proof (total_nonneg rs). destruct (read_part fuel σ 0 qs N pt idx rs ws (pd_vq _ _ _ _ _ _ _ _ _ Hp)
    (pd_chain _ _ _ _ _ _ _ _ _ Hp) Hf (uninit_bytes σ (Z.to_nat 1024)) 0 p9_header_len) as (buf' & E);
    [lia|unfold p9_header_len; lia|rewrite uninit_len; unfold p9_header_len; lia|].
  exists buf'. rewrite (pd_msg _ _ _ _ _ _ _ _ _ Hp) in E. exact E.
Qed.
Lemma header_bytes msg u i : (7 <= length msg)%nat -> (i < 7)%nat -> byte (splice 0 (take 7 msg) u) i = byte msg i.
Proof.
  intros Hl Hi. unfold byte, splice. rewrite take_0, !nth_lookup. cbn [app]. rewrite lookup_app_l by (rewrite length_take; lia).
  by rewrite lookup_take_lt by lia.
Qed.
Lemma header_tag msg u : (7 <= length msg)%nat -> get_le16 (splice 0 (take 7 msg) u) 5 = get_le16 msg 5.
Proof. intros Hl. unfold get_le16. by rewrite !header_bytes by lia. Qed.
Lemma recv_eq fuel σ qs N pt pu idx rs ws msg n m : p9_request_in fuel σ qs N pt pu idx rs ws msg ->
  virtio_9p_recv_request fuel 0 idx n m σ =
    if (length msg <? 7)%nat then (_ ← virtio_9p_send_error fuel 0 idx 0 (- P9_EPROTO); mret 0) σ
    else (e ← p9_request fuel 0 idx (m_type msg) (m_tag msg);
          match e with None => mret 0 | Some err => _ ← virtio_9p_send_error fuel 0 idx (m_tag msg) err; mret 0 end) σ.
Proof.
  intros Hq. destruct (header_part _ _ _ _ _ _ _ _ _ _ Hq) as (buf' & Eh). unfold virtio_9p_recv_request.
  change (negb (0 =? 0)) with false. cbv iota. unfold mbind at 1 2 3, M_bind at 1 2 3, getp, gets. rewrite (pq_idle _ _ _ _ _ _ _ _ _ _ Hq).
  unfold uninit_buf, gets. rewrite Eh. destruct (Nat.ltb_spec (length msg) 7) as [Hl|Hl]; [done|].
  cbn [fst snd]. change (nz 0) with false. cbv iota zeta. rewrite header_bytes, header_tag by lia. fold (m_type msg).
  assert (get_le16 msg 5 = m_tag msg) as -> by (unfold m_tag; by rewrite (proj2 (Nat.ltb_ge _ _))). done.
Qed.
(** The handler, on one request. *)
Lemma notify_one_stop fuel (recv : Z -> Z -> Z -> Z -> MS Z) σ q qs N pt idx rs ws r :
  vq σ q qs N pt -> one_avail σ qs idx -> chain σ N pt idx rs ws -> (length rs + length ws < fuel)%nat ->
  recv q idx (total_len rs) (total_len ws) σ = Stop r -> queue_notify fuel recv q σ = Stop r.
Proof.
  intros Hq [Hm Hn Ha (pa & Hr & Hidx & Hhead) Hlast] Hc Hf Hrecv.
  unfold queue_notify, mbind, M_bind. rewrite (get_queue_ok _ _ _ _ _ Hq), Hm.
  rewrite (read16_ok σ _ _ pa 2 Hr), Hidx by (try lia; Z.div_mod_to_equations; lia).
  replace (Z.to_nat 65536) with (S (Z.to_nat 65535)) by lia. cbn [notify_loop]. unfold mbind, M_bind.
  rewrite (get_queue_ok _ _ _ _ _ Hq), (proj2 (Z.eqb_neq (last_avail_idx qs) _)) by by apply u16_succ_ne.
  rewrite (avail_desc_ok σ qs pa Hn Ha Hr), Hhead. rewrite (rw_size_ok fuel σ q qs N pt idx rs ws) by done. by rewrite Hrecv.
Qed.
Lemma recv_answers fuel σ qs N pt pu idx rs ws msg : p9_request_in fuel σ qs N pt pu idx rs ws msg -> sane_count msg ->
  match serve_message msg 0 idx σ with
  | Ok a σ1 => served a σ σ1 /\
      (room ws (m_type msg) a -> exists σ', virtio_9p_recv_request fuel 0 idx (total_len rs) (total_len ws) σ = Ok 0 σ' /\
         found_answer qs pu idx ws msg a σ1 σ' /\ queue (vdev (world σ')) = queue (vdev (world σ1)) /\ p9 (world σ') = p9 (world σ1))
  | Stop _ => exists r, virtio_9p_recv_request fuel 0 idx (total_len rs) (total_len ws) σ = Stop r
  end.
Proof.
  intros Hq Hc. pose proof Hq as [Hp _ Ho Hf Hi H11 Hs]. rewrite (recv_eq _ _ _ _ _ _ _ _ _ _ _ _ Hq). unfold serve_message.
  assert (forall e t σ1, pending qs N pt pu idx rs ws msg σ1 -> t = m_tag msg -> exists σ',
      (_ ← virtio_9p_send_error fuel 0 idx t e; mret 0) σ1 = Ok 0 σ' /\ found_answer qs pu idx ws msg (A_error e) σ1 σ' /\
      queue (vdev (world σ')) = queue (vdev (world σ1)) /\ p9 (world σ') = p9 (world σ1)) as Herr.
  { intros e t σ1 Hp1 ->. 
    assert (exists σ', virtio_9p_send_error fuel 0 idx (m_tag msg) e σ1 = Ok tt σ' /\ sent qs pu idx ws σ1 σ' 7 (m_tag msg) (le32 (- e)))
      as (σ' & E & [S1 S2 S3 S4]) by by eapply send_error_ok.
    exists σ'. unfold mbind, M_bind. rewrite E. split; [done|]. split; [done|by rewrite S3, S4]. }
  destruct (Nat.ltb_spec (length msg) 7) as [Hl|Hl].
  { split; [by split|]. intros _. apply Herr; [done|]. unfold m_tag. by rewrite (proj2 (Nat.ltb_lt _ _)). }
  pose proof (refines_request fuel qs N pt pu idx rs ws msg (m_type msg) (m_tag msg) Hf Hs Ho H11 Hl Hc σ Hp) as Href.
  destruct (serve _ _ _ σ) as [a σ1|r0]; [|destruct Href as [r E]; exists r; unfold mbind, M_bind; by rewrite E].
  destruct Href as (Hsv & Hr). split; [done|]. intros Hroom.
  destruct (Hr Hroom) as (r & σ' & Eh' & Hra). unfold mbind at 1, M_bind at 1. rewrite Eh'. clear Eh'.
  destruct a as [b|e|]; cbn [replied_as] in Hra.
  - destruct Hra as [-> [S1 S2 S3 S4]]. by exists σ'.
  - destruct Hra as [[-> ->]|[-> [S1 S2 S3 S4]]]; [|by exists σ'].
    apply Herr; [|done]. eapply pending_same; [apply Hsv|done].
  - destruct Hra as [-> ->]. by exists σ1.
Qed.


(** C20: the completion of an open that was pending.  The callback of the file system puts the answer to the
    request that waits, with its tag, on the used ring, makes the device ready and goes on with the queue. *)
Theorem virtio_9p_open_completes fuel σ qs N pt pu idx rs ws msg qid err tag : pending qs N pt pu idx rs ws msg σ ->
  off_ring ws qs pu -> (length rs + length ws < fuel)%nat -> 24 <= total_len ws ->
  exists σ', sent qs pu idx ws σ σ' (if err <? 0 then 7 else 13) tag
      (if err <? 0 then le32 (- err) else encode_qid qid ++ le32 (msize (p9 (world σ)) - 24)) /\
    exists σ2, same σ' σ2 /\ p9 (world σ2) = mkP9 (msize (p9 (world σ))) (fid_list (p9 (world σ))) false /\
      virtio_9p_open_cb fuel qid err (mkOpenInfo 0 idx tag) σ = queue_notify fuel (virtio_9p_recv_request fuel) 0 σ2.
Proof.
  intros Hp Ho Hf H24. assert (11 <= total_len ws) as H11 by lia.
  assert (exists σ', virtio_9p_open_reply fuel qid err (mkOpenInfo 0 idx tag) σ = Ok tt σ' /\
    sent qs pu idx ws σ σ' (if err <? 0 then 7 else 13) tag
      (if err <? 0 then le32 (- err) else encode_qid qid ++ le32 (msize (p9 (world σ)) - 24))) as (σ' & E & Hs).
  { unfold virtio_9p_open_reply, mbind at 1, M_bind at 1, getp, gets. cbn [oi_queue_idx oi_desc_idx oi_tag].
    destruct (err <? 0); [by eapply send_error_ok|]. unfold mbind at 1, M_bind at 1. rewrite (marshall_ok "Qw") by done.
    set (b := encode_qid qid ++ _). change (encode "Qw" _) with b. assert (bytes b) as Hb by (apply bytes_app; [apply bytes_qid|apply bytes_le32]).
    unfold send_buf. eapply send_reply_ok; [done..|exact Hp|exact Hb|change (Z.of_nat (length b) + 7) with 24; done|done]. }
  exists σ'. split; [done|]. destruct (updp_ok (fun s => mkP9 (msize s) (fid_list s) false) σ') as (σ2 & E2 & Hs2 & Hp2).
  exists σ2. split; [done|]. split; [by rewrite Hp2, (sn_p9 _ _ _ _ _ _ _ _ _ Hs)|].
  unfold virtio_9p_open_cb, mbind, M_bind. cbn [oi_queue_idx]. by rewrite E, E2.
Qed.

(** The table of fids is a map.  fid_find gives the file of a fid or a null pointer, fid_set enters or
    replaces one, fid_delete removes it; the table keeps one entry per fid, and no other state changes. *)
Theorem fid_table_map fid fd σ : one_per_fid σ ->
  fid_find fid σ = Ok (default 0 (fid_map σ !! fid)) σ /\
  (forall u σ', fid_set fid fd σ = Ok u σ' -> fid_map σ' = <[fid := fd]> (fid_map σ) /\ one_per_fid σ' /\ same σ σ') /\
  (forall u σ', fid_delete fid σ = Ok u σ' -> fid_map σ' = delete fid (fid_map σ) /\ one_per_fid σ' /\ same σ σ').
Proof.
  intros Hone. split; [apply fid_find_ok|]. split; intros u σ' E.
  - pose proof (fid_set_ok fid fd σ) as H. rewrite E in H. destruct H as ([K1 K2 K3] & Em). auto.
  - pose proof (fid_delete_ok fid σ) as H. rewrite E in H. destruct H as ([K1 K2 K3] & Em). auto.
Qed.
End Device.
