(* ===== verification/BlockFile.v ===== *)
(** * Disk images in files (temu.c: BlockDeviceFile .. block_device_init)

    The file is an object of the C library: a sequence of bytes and a position.  Input and
    output do not fail.  [long] has 64 bits. *)
From S2P Require Export VirtioDev.
#[local] Open Scope Z_scope.

Inductive BlockDeviceModeEnum := BF_MODE_RO | BF_MODE_RW | BF_MODE_SNAPSHOT.
#[export] Instance bf_mode_eq_dec : EqDecision BlockDeviceModeEnum.
Proof. solve_decision. Defined.

Record FILE := mkFile { f_data : list Z; f_pos : Z }.
(** [sector_table] holds the entries that are not NULL; it has [nb_sectors] entries. *)
Record BlockDeviceFile := mkBf {
  bf_f : option FILE;
  bf_nb_sectors : Z;
  bf_mode : BlockDeviceModeEnum;
  bf_sector_table : gmap Z (list Z);
}.
Definition set_file (f : FILE) (s : BlockDeviceFile) : BlockDeviceFile :=
  mkBf (Some f) (bf_nb_sectors s) (bf_mode s) (bf_sector_table s).
Definition set_sector (i : Z) (d : list Z) (s : BlockDeviceFile) : BlockDeviceFile :=
  mkBf (bf_f s) (bf_nb_sectors s) (bf_mode s) (<[i := d]> (bf_sector_table s)).

Local Abbreviation MB := (M BlockDeviceFile).

(** ** stdio *)
Definition get_file : MB FILE :=
  s ← gets (fun s => s);
  match bf_f s with Some f => mret f | None => stop_with StopFault end.
(** SEEK_SET; a negative offset is an error that leaves the position alone. *)
Definition fseek (offset : Z) : MB unit :=
  f ← get_file;
  if offset <? 0 then mret tt else modify (set_file (mkFile (f_data f) offset)).
(** At most [count] bytes, up to the end of the file, to [pos] of the buffer. *)
Definition fread (buf : list Z) (pos count : Z) : MB (list Z) :=
  f ← get_file;
  let avail := Z.max 0 (Z.of_nat (length (f_data f)) - f_pos f) in
  let d := take (Z.to_nat (Z.min count avail)) (drop (Z.to_nat (f_pos f)) (f_data f)) in
  buf ← buf_store pos d buf;
  _ ← modify (set_file (mkFile (f_data f) (f_pos f + Z.of_nat (length d))));
  mret buf.
(** Writing behind the end fills the gap with zeros. *)
Definition write_at (p : nat) (d file : list Z) : list Z :=
  take p (file ++ replicate (p - length file) 0) ++ d ++ drop (p + length d) file.
Definition fwrite (d : list Z) : MB unit :=
  f ← get_file;
  modify (set_file (mkFile (write_at (Z.to_nat (f_pos f)) d (f_data f)) (f_pos f + Z.of_nat (length d)))).

(** ** Operations *)
Definition bf_get_sector_count (s : BlockDeviceFile) : Z := bf_nb_sectors s.

(** [bf->sector_table[sector_num]] *)
Definition table_entry (sector_num : Z) : MB (option (list Z)) :=
  s ← gets (fun s => s);
  if (0 <=? sector_num) && (sector_num <? bf_nb_sectors s)
  then mret (bf_sector_table s !! sector_num) else stop_with StopFault.
(** The offset of a sector, converted to long. *)
Definition sector_offset (sector_num : Z) : Z := i64 (sector_num * SECTOR_SIZE).
Fixpoint bf_read_loop (k : nat) (sector_num : Z) (buf : list Z) (pos : Z) : MB (list Z) :=
  match k with
  | O => mret buf
  | S k' =>
      e ← table_entry sector_num;
      buf ← match e with
            | None => _ ← fseek (sector_offset sector_num); fread buf pos SECTOR_SIZE
            | Some d => buf_store pos d buf
            end;
      bf_read_loop k' (u64 (sector_num + 1)) buf (pos + SECTOR_SIZE)
  end.
(** The result and the buffer. *)
Definition bf_read_async (sector_num : Z) (buf : list Z) (n : Z) : MB (Z * list Z) :=
  s ← gets (fun s => s);
  match bf_f s with
  | None => mret (-1, buf)
  | Some _ =>
      buf ← (if decide (bf_mode s = BF_MODE_SNAPSHOT)
             then bf_read_loop (Z.to_nat n) sector_num buf 0
             else _ ← fseek (sector_offset sector_num); fread buf 0 (u64 (n * SECTOR_SIZE)));
      mret (0, buf)
  end.

Fixpoint bf_write_loop (k : nat) (sector_num : Z) (buf : list Z) (pos : Z) : MB unit :=
  match k with
  | O => mret tt
  | S k' =>
      _ ← table_entry sector_num;
      d ← buf_load pos (Z.to_nat SECTOR_SIZE) buf;
      _ ← modify (set_sector sector_num d);
      bf_write_loop k' (u64 (sector_num + 1)) buf (pos + SECTOR_SIZE)
  end.
(** The sum and the number of sectors are compared as 64-bit unsigned numbers. *)
Definition bf_write_async (sector_num : Z) (buf : list Z) (n : Z) : MB Z :=
  s ← gets (fun s => s);
  match bf_mode s with
  | BF_MODE_RO => mret (-1)
  | BF_MODE_RW =>
      _ ← fseek (sector_offset sector_num);
      d ← buf_load 0 (Z.to_nat (u64 (n * SECTOR_SIZE))) buf;
      _ ← fwrite d;
      mret 0
  | BF_MODE_SNAPSHOT =>
      if u64 (bf_nb_sectors s) <? u64 (sector_num + n) then mret (-1)
      else _ ← bf_write_loop (Z.to_nat n) sector_num buf 0; mret 0
  end.

(** block_device_init, when fopen succeeds on a file of contents [data]. *)
Definition block_device_init (data : list Z) (mode : BlockDeviceModeEnum) : BlockDeviceFile :=
  mkBf (Some (mkFile data (Z.of_nat (length data)))) (Z.quot (Z.of_nat (length data)) 512) mode ∅.
