(* ===== verification/BlockFileFacts.v ===== *)
(** * A file with a table of sectors is a disk

    Whatever its mode, the block device of temu.c stands for an image of [bf_nb_sectors]
    sectors; the VIRTIO block device on top of it reads and writes that image. *)
From S2P Require Export BlockFile VirtioBlkFacts.
#[local] Open Scope Z_scope.

(** ** Lists of chunks *)
Section Chunks.
Context (c : nat).
Implicit Types (g : nat -> list Z) (n i : nat).
Lemma chunk_split g n i : (i < n)%nat ->
  concat (map g (seq 0 n)) = concat (map g (seq 0 i)) ++ g i ++ concat (map g (seq (S i) (n - i - 1))).
Proof.
  intros H. replace n with (i + S (n - i - 1))%nat at 1 by lia. rewrite seq_app, map_app, concat_app.
  by rewrite Nat.add_0_l; cbn [seq map concat].
Qed.
Lemma chunk_length g i n : (forall j, (i <= j < i + n)%nat -> length (g j) = c) -> length (concat (map g (seq i n))) = (c * n)%nat.
Proof.
  revert i. induction n as [|n IH]; intros i H; cbn [seq map concat length]; [lia|].
  rewrite length_app, H, IH by (intros; try apply H; lia). lia.
Qed.
Lemma chunk_read g n i : (forall j, (j < n)%nat -> length (g j) = c) -> (i < n)%nat ->
  take c (drop (c * i) (concat (map g (seq 0 n)))) = g i.
Proof.
  intros H Hi. rewrite (chunk_split g n i Hi).
  rewrite drop_app_length' by (symmetry; apply chunk_length; intros; apply H; lia).
  by rewrite take_app_length' by (symmetry; apply H; lia).
Qed.
Lemma chunk_write g g' n i : (forall j, (j < n)%nat -> length (g j) = c) -> (forall j, j <> i -> g' j = g j) -> (i < n)%nat ->
  length (g' i) = c -> concat (map g' (seq 0 n)) = splice (c * i) (g' i) (concat (map g (seq 0 n))).
Proof.
  intros H Hg Hi Hl. rewrite (chunk_split g n i Hi), (chunk_split g' n i Hi).
  rewrite !(map_ext_in g' g) by (intros j Hj%in_seq; apply Hg; lia).
  assert (length (concat (map g (seq 0 i))) = (c * i)%nat) as L by (apply chunk_length; intros; apply H; lia).
  rewrite <- L, <- (Nat.add_0_r (length _)) at 1. rewrite splice_app_r. f_equal. unfold splice. rewrite take_0. cbn [app].
  rewrite Nat.add_0_l, Hl, drop_app_length' by (symmetry; apply H; lia). done.
Qed.
Lemma chunk_slices (l : list Z) n : (c * n <= length l)%nat ->
  concat (map (fun i => take c (drop (c * i) l)) (seq 0 n)) = take (c * n) l.
Proof.
  induction n as [|n IH]; intros H; [by rewrite Nat.mul_0_r, take_0|].
  rewrite seq_S, map_app, concat_app, IH by lia. cbn. rewrite app_nil_r, take_take_drop. f_equal. lia.
Qed.
End Chunks.

(** ** The image *)
Implicit Types st : BlockDeviceFile.
Definition file_data st : list Z := from_option f_data [] (bf_f st).
Definition sector_of st (i : nat) : list Z :=
  default (take 512 (drop (512 * i) (file_data st))) (bf_sector_table st !! Z.of_nat i).
Definition image st : list Z := concat (map (sector_of st) (seq 0 (Z.to_nat (bf_nb_sectors st)))).
Definition entry_ok (n : Z) (i : Z) (d : list Z) : Prop := 0 <= i < n /\ length d = 512%nat /\ bytes d.
(** The file is open and long enough; only a snapshot has its own sectors. *)
Record bf_ok st : Prop := {
  ok_open : exists f, bf_f st = Some f;
  ok_size : 0 <= bf_nb_sectors st /\ 512 * bf_nb_sectors st <= Z.of_nat (length (file_data st)) < 2 ^ 63;
  ok_bytes : bytes (file_data st);
  ok_table : map_Forall (entry_ok (bf_nb_sectors st)) (bf_sector_table st);
  ok_mode : bf_mode st <> BF_MODE_SNAPSHOT -> bf_sector_table st = ∅;
}.
Lemma sector_length st i : bf_ok st -> (i < Z.to_nat (bf_nb_sectors st))%nat -> length (sector_of st i) = 512%nat.
Proof.
  intros [_ Hs _ Ht _] Hi. unfold sector_of. destruct (_ !! _) as [d|] eqn:E; cbn [default from_option].
  - by apply (Ht _ _ E).
  - rewrite length_take, length_drop. lia.
Qed.
Lemma sector_bytes st i : bf_ok st -> bytes (sector_of st i).
Proof.
  intros [_ Hs Hb Ht _]. unfold sector_of. destruct (_ !! _) as [d|] eqn:E; cbn [default from_option].
  - by apply (Ht _ _ E).
  - by apply Forall_take, Forall_drop.
Qed.
Lemma image_length st : bf_ok st -> Z.of_nat (length (image st)) = 512 * bf_nb_sectors st.
Proof.
  intros H. unfold image. rewrite (chunk_length 512) by (intros; apply sector_length; [done|lia]).
  pose proof (ok_size st H). lia.
Qed.
Lemma image_bytes st : bf_ok st -> bytes (image st).
Proof. intros H. apply List.Forall_concat, List.Forall_map, List.Forall_forall. intros i _. by apply sector_bytes. Qed.
Lemma image_sector st (i : Z) : bf_ok st -> 0 <= i < bf_nb_sectors st ->
  take 512 (drop (Z.to_nat (512 * i)) (image st)) = sector_of st (Z.to_nat i).
Proof.
  intros H Hi. replace (Z.to_nat (512 * i)) with (512 * Z.to_nat i)%nat by lia.
  apply chunk_read; [|lia]. intros j Hj. by apply sector_length.
Qed.
Lemma image_file st : bf_ok st -> bf_sector_table st = ∅ ->
  image st = take (Z.to_nat (512 * bf_nb_sectors st)) (file_data st).
Proof.
  intros H Ht. pose proof (ok_size st H). unfold image.
  rewrite (map_ext _ (fun i => take 512 (drop (512 * i) (file_data st)))) by (intros i; unfold sector_of; by rewrite Ht).
  rewrite chunk_slices by lia. f_equal. lia.
Qed.

(** Only the position of the file moves. *)
Definition moved st st' : Prop := exists f p, bf_f st = Some f /\ st' = set_file (mkFile (f_data f) p) st.
Lemma moved_refl st f : bf_f st = Some f -> moved st st.
Proof. intros H. exists f, (f_pos f). destruct st as [o ? ? ?], f. cbn in *. by subst. Qed.
Lemma moved_trans s1 s2 s3 : moved s1 s2 -> moved s2 s3 -> moved s1 s3.
Proof. intros (f & p & H & ->) (f' & p' & [= <-] & ->). by exists f, p'. Qed.
Lemma moved_data st st' : moved st st' -> file_data st' = file_data st.
Proof. intros (f & p & H & ->). unfold file_data. cbn. by rewrite H. Qed.
Lemma moved_image st st' : moved st st' -> image st' = image st.
Proof.
  intros H. pose proof (moved_data _ _ H) as Hd. destruct H as (f & p & H & ->). unfold image.
  apply f_equal, map_ext. intros i. unfold sector_of. by rewrite Hd.
Qed.
Lemma moved_ok st st' : moved st st' -> bf_ok st -> bf_ok st'.
Proof.
  intros H [H1 H2 H3 H4 H5]. pose proof (moved_data _ _ H) as Hd. destruct H as (f & p & Hf & ->).
  split; rewrite ?Hd; try done. by eexists.
Qed.
Lemma moved_same st st' : moved st st' -> bf_nb_sectors st' = bf_nb_sectors st /\ bf_mode st' = bf_mode st /\
  bf_sector_table st' = bf_sector_table st.
Proof. by intros (f & p & H & ->). Qed.

(** ** Reading *)
Lemma seek_read st f (p : Z) buf pos count : bf_f st = Some f -> 0 <= p -> 0 <= count ->
  p + count <= Z.of_nat (length (f_data f)) -> 0 <= pos -> pos + count <= Z.of_nat (length buf) ->
  exists st', (_ ← fseek p; fread buf pos count) st =
    Ok (splice (Z.to_nat pos) (take (Z.to_nat count) (drop (Z.to_nat p) (f_data f))) buf) st' /\ moved st st'.
Proof.
  intros Hf Hp Hc Hl Hpos Hb. unfold fseek, fread, get_file, gets, modify, mbind, M_bind. rewrite Hf.
  cbn [mret M_ret]. unfold mret, M_ret. rewrite (proj2 (Z.ltb_ge p 0)) by lia. cbn [bf_f set_file f_data f_pos].
  replace (Z.min count (Z.max 0 (Z.of_nat (length (f_data f)) - p))) with count by lia.
  set (d := take _ _). assert (Z.of_nat (length d) = count) as Ld by (unfold d; rewrite length_take, length_drop; lia).
  unfold buf_store. rewrite Ld, (proj2 (Z.leb_le 0 pos)), (proj2 (Z.leb_le _ _)) by lia. cbn.
  eexists. split; [done|]. by exists f, (p + count).
Qed.
Lemma sector_offset_ok st i : bf_ok st -> 0 <= i <= bf_nb_sectors st -> sector_offset i = 512 * i.
Proof.
  intros H Hi. pose proof (ok_size st H). unfold sector_offset, SECTOR_SIZE. rewrite swrap_id by lia. lia.
Qed.
Lemma table_entry_ok st i : 0 <= i < bf_nb_sectors st -> table_entry i st = Ok (bf_sector_table st !! i) st.
Proof. intros H. unfold table_entry, mbind, M_bind, gets. by rewrite (proj2 (Z.leb_le 0 i)), (proj2 (Z.ltb_lt i _)) by lia. Qed.
(** The bytes of [n] sectors from [s]. *)
Definition image_part st (s n : Z) : list Z := take (Z.to_nat (512 * n)) (drop (Z.to_nat (512 * s)) (image st)).
Lemma image_part_S st s (k : nat) : bf_ok st -> 0 <= s < bf_nb_sectors st ->
  image_part st s (Z.of_nat (S k)) = sector_of st (Z.to_nat s) ++ image_part st (s + 1) (Z.of_nat k).
Proof.
  intros H Hs. unfold image_part. replace (Z.to_nat (512 * Z.of_nat (S k))) with (512 + Z.to_nat (512 * Z.of_nat k))%nat by lia.
  rewrite <- take_take_drop, drop_drop. replace (Z.to_nat (512 * s) + 512)%nat with (Z.to_nat (512 * (s + 1))) by lia.
  by rewrite image_sector.
Qed.
Lemma image_part_length st s n : bf_ok st -> 0 <= s -> 0 <= n -> s + n <= bf_nb_sectors st ->
  Z.of_nat (length (image_part st s n)) = 512 * n.
Proof. intros H Hs Hn Hl. unfold image_part. rewrite length_take, length_drop. pose proof (image_length st H). lia. Qed.
(** One step of the loop: the sector goes to the buffer. *)
Lemma read_sector_ok st s buf pos : bf_ok st -> 0 <= s < bf_nb_sectors st -> 0 <= pos -> pos + 512 <= Z.of_nat (length buf) ->
  exists st', (match bf_sector_table st !! s with
               | None => _ ← fseek (sector_offset s); fread buf pos SECTOR_SIZE
               | Some d => buf_store pos d buf end) st =
    Ok (splice (Z.to_nat pos) (sector_of st (Z.to_nat s)) buf) st' /\ moved st st'.
Proof.
  intros H Hs Hp Hb. pose proof (ok_size st H). destruct (ok_open st H) as [f Hf]. unfold sector_of, file_data in *.
  rewrite Z2Nat.id by lia. destruct (_ !! s) as [d|] eqn:E; cbn [default from_option].
  - unfold buf_store. destruct (ok_table st H _ _ E) as (_ & -> & _).
    rewrite (proj2 (Z.leb_le 0 pos)), (proj2 (Z.leb_le _ _)) by lia. eexists. split; [done|by eapply moved_refl].
  - rewrite (sector_offset_ok st s H) by lia. change SECTOR_SIZE with 512. rewrite Hf in *. cbn [from_option] in *.
    destruct (seek_read st f (512 * s) buf pos 512 Hf) as (st' & E' & Hm); try lia.
    rewrite E'. exists st'. split; [|done]. do 3 f_equal. do 2 f_equal. lia.
Qed.
Lemma read_loop_ok k : forall st s buf pos, bf_ok st -> 0 <= s -> s + Z.of_nat k <= bf_nb_sectors st -> 0 <= pos ->
  pos + 512 * Z.of_nat k <= Z.of_nat (length buf) ->
  exists st', bf_read_loop k s buf pos st = Ok (splice (Z.to_nat pos) (image_part st s (Z.of_nat k)) buf) st' /\ moved st st'.
Proof.
  induction k as [|k IH]; intros st s buf pos H Hs Hk Hpos Hb; cbn [bf_read_loop].
  { unfold image_part. rewrite take_0, splice_nil. destruct (ok_open st H) as [f Hf]. eexists. split; [done|by eapply moved_refl]. }
  pose proof (ok_size st H). unfold mbind, M_bind. rewrite table_entry_ok by lia.
  destruct (read_sector_ok st s buf pos H) as (st1 & E & Hm); try lia.
  unfold mbind, M_bind in E. rewrite E. change SECTOR_SIZE with 512. rewrite (wrap_fits 64 (s + 1)) by (split; lia).
  destruct (moved_same _ _ Hm) as (Hn & _). set (d := sector_of st (Z.to_nat s)).
  assert (length d = 512%nat) as Ld by (apply sector_length; [done|lia]).
  assert (length (splice (Z.to_nat pos) d buf) = length buf) as Lb by (apply length_splice; lia).
  destruct (IH st1 (s + 1) (splice (Z.to_nat pos) d buf) (pos + 512)) as (st2 & E2 & Hm2); rewrite ?Hn, ?Lb; try lia.
  { by eapply moved_ok. }
  rewrite E2. exists st2. split; [|by eapply moved_trans]. f_equal.
  rewrite image_part_S by (done || lia). fold d. unfold image_part at 1. rewrite (moved_image _ _ Hm).
  fold (image_part st (s + 1) (Z.of_nat k)). replace (Z.to_nat (pos + 512)) with (Z.to_nat pos + length d)%nat by lia.
  apply splice_splice. pose proof (image_part_length st (s + 1) (Z.of_nat k) H). lia.
Qed.
Lemma bf_read_ok st s buf n : bf_ok st -> 0 <= s -> 0 <= n -> 512 * n < 2 ^ 31 -> s + n <= bf_nb_sectors st ->
  512 * n <= Z.of_nat (length buf) ->
  exists st', bf_read_async s buf n st = Ok (0, splice 0 (image_part st s n) buf) st' /\ moved st st'.
Proof.
  intros H Hs Hn H31 Hk Hb. pose proof (ok_size st H). destruct (ok_open st H) as [f Hf].
  unfold bf_read_async, mbind at 1, M_bind, gets. rewrite Hf. case_decide as Hm.
  - unfold mbind, M_bind. destruct (read_loop_ok (Z.to_nat n) st s buf 0 H) as (st' & -> & Hmv); try lia.
    rewrite Z2Nat.id by lia. by exists st'.
  - unfold file_data in *. rewrite Hf in *. cbn [from_option] in *.
    rewrite (sector_offset_ok st s H) by lia. change SECTOR_SIZE with 512. rewrite (wrap_fits 64 (n * 512)) by (split; lia).
    destruct (seek_read st f (512 * s) buf 0 (n * 512) Hf) as (st' & E & Hmv); try lia.
    unfold mbind, M_bind in *. rewrite E. exists st'. split; [|done]. do 3 f_equal. unfold image_part.
    rewrite image_file by (done || by apply ok_mode). unfold file_data. rewrite Hf. cbn [from_option].
    rewrite skipn_firstn_comm, take_take, Nat.min_l by lia. do 2 f_equal. lia.
Qed.

(** ** Writing *)
Lemma image_write st s d : bf_ok st -> bf_mode st = BF_MODE_SNAPSHOT -> 0 <= s < bf_nb_sectors st -> length d = 512%nat -> bytes d ->
  bf_ok (set_sector s d st) /\ image (set_sector s d st) = splice (Z.to_nat (512 * s)) d (image st).
Proof.
  intros H Hm Hs Hd Hb. split.
  - destruct H as [[f H1] H2 H3 H4 H5].
    split; cbn; [by eexists|done|done|by apply map_Forall_insert_2|congruence].
  - unfold image. replace (Z.to_nat (512 * s)) with (512 * Z.to_nat s)%nat by lia. cbn [bf_nb_sectors set_sector].
    assert (sector_of (set_sector s d st) (Z.to_nat s) = d) as Ed.
    { unfold sector_of. cbn. by rewrite Z2Nat.id, lookup_insert_eq by lia. }
    rewrite <- Ed at 2. apply chunk_write; [intros; by apply sector_length| |lia|by rewrite Ed].
    intros j Hj. unfold sector_of. cbn. rewrite lookup_insert_ne by lia. done.
Qed.
Lemma write_loop_ok k : forall st s buf pos, bf_ok st -> bf_mode st = BF_MODE_SNAPSHOT -> 0 <= s -> s + Z.of_nat k <= bf_nb_sectors st ->
  0 <= pos -> pos + 512 * Z.of_nat k <= Z.of_nat (length buf) -> bytes buf ->
  exists st', bf_write_loop k s buf pos st = Ok tt st' /\ bf_ok st' /\ file_data st' = file_data st /\ bf_mode st' = bf_mode st /\
    bf_nb_sectors st' = bf_nb_sectors st /\
    image st' = splice (Z.to_nat (512 * s)) (take (512 * k) (drop (Z.to_nat pos) buf)) (image st).
Proof.
  induction k as [|k IH]; intros st s buf pos H Hm Hs Hk Hpos Hb Hbb; cbn [bf_write_loop].
  { eexists. rewrite Nat.mul_0_r, take_0, splice_nil. done. }
  pose proof (ok_size st H). unfold mbind, M_bind. rewrite table_entry_ok by lia.
  unfold buf_load. change SECTOR_SIZE with 512. rewrite (proj2 (Z.leb_le 0 pos)), (proj2 (Z.leb_le _ _)) by lia. cbn [andb].
  unfold mret, M_ret, modify. set (d := take (Z.to_nat 512) _).
  assert (length d = 512%nat) as Ld by (unfold d; rewrite length_take, length_drop; lia).
  rewrite (wrap_fits 64 (s + 1)) by (split; lia).
  destruct (image_write st s d H Hm) as [H1 Ei]; [lia|done|by apply Forall_take, Forall_drop|].
  destruct (IH (set_sector s d st) (s + 1) buf (pos + 512)) as (st' & -> & R1 & R2 & R3 & R4 & R5); try done; try (cbn; lia).
  exists st'. do 5 (split; [done|]). rewrite R5, Ei. clear R5.
  replace (Z.to_nat (512 * (s + 1))) with (Z.to_nat (512 * s) + length d)%nat by lia.
  pose proof (image_length st H). rewrite splice_splice by (rewrite length_take, length_drop; lia). f_equal.
  replace (512 * S k)%nat with (512 + 512 * k)%nat by lia. rewrite <- take_take_drop. unfold d. do 2 f_equal.
  rewrite drop_drop. f_equal. lia.
Qed.
Lemma write_at_splice p d l : (p + length d <= length l)%nat -> write_at p d l = splice p d l.
Proof. intros H. unfold write_at, splice. by rewrite take_app_le by lia. Qed.
Lemma set_file_ok st f p o d : bf_ok st -> bf_f st = Some f -> bf_sector_table st = ∅ -> bytes d ->
  (o + length d <= Z.to_nat (512 * bf_nb_sectors st))%nat ->
  bf_ok (set_file (mkFile (splice o d (f_data f)) p) st) /\
  image (set_file (mkFile (splice o d (f_data f)) p) st) = splice o d (image st).
Proof.
  intros H Hf Ht Hd Ho. pose proof (ok_size st H) as Hs. unfold file_data in Hs. rewrite Hf in Hs. cbn [from_option] in Hs.
  assert (length (splice o d (f_data f)) = length (f_data f)) as L by (apply length_splice; lia).
  assert (bf_ok (set_file (mkFile (splice o d (f_data f)) p) st)) as H'.
  { pose proof (ok_bytes st H) as Hb. unfold file_data in Hb. rewrite Hf in Hb.
    destruct H as [_ _ _ H4 H5]. split; try done; [by eexists|unfold file_data; cbn; lia|by apply bytes_splice]. }
  split; [done|]. rewrite !image_file by done. unfold file_data. rewrite Hf. cbn. by rewrite take_splice_in by lia.
Qed.
Definition bf_writable st : bool := negb (bool_decide (bf_mode st = BF_MODE_RO)).
Lemma bf_write_ok st s buf n : bf_ok st -> 0 <= s -> 0 <= n -> 512 * n < 2 ^ 31 -> s + n <= bf_nb_sectors st -> bytes buf ->
  512 * n <= Z.of_nat (length buf) ->
  exists st', bf_write_async s buf n st = Ok (if bf_writable st then 0 else -1) st' /\ bf_ok st' /\
    bf_nb_sectors st' = bf_nb_sectors st /\ bf_mode st' = bf_mode st /\
    (bf_mode st <> BF_MODE_RW -> file_data st' = file_data st) /\
    image st' = if bf_writable st then splice (Z.to_nat (512 * s)) (take (Z.to_nat (512 * n)) buf) (image st) else image st.
Proof.
  intros H Hs Hn H31 Hk Hbb Hb. pose proof (ok_size st H) as Hsz. destruct (ok_open st H) as [f Hf].
  unfold bf_write_async, mbind, M_bind, gets, bf_writable. destruct (bf_mode st) eqn:Em; cbn [bool_decide].
  - eexists. done.
  - rewrite (sector_offset_ok st s H) by lia. change SECTOR_SIZE with 512. rewrite (wrap_fits 64 (n * 512)) by (split; lia).
    unfold fseek, fwrite, get_file, gets, modify, mbind, M_bind. rewrite Hf. unfold mret, M_ret.
    rewrite (proj2 (Z.ltb_ge (512 * s) 0)) by lia. unfold buf_load. rewrite (proj2 (Z.leb_le 0 0)), (proj2 (Z.leb_le _ _)) by lia.
    cbn [andb]. unfold mret, M_ret. cbn [bf_f set_file f_data f_pos]. change (Z.to_nat 0) with 0%nat. rewrite drop_0.
    set (d := take _ buf). assert (length d = Z.to_nat (n * 512)) as Ld by (unfold d; rewrite length_take; lia).
    unfold file_data in Hsz. rewrite Hf in Hsz. cbn [from_option] in Hsz.
    rewrite write_at_splice by lia.
    destruct (set_file_ok st f (512 * s + Z.of_nat (length d)) (Z.to_nat (512 * s)) d) as [Hok Hi]; try done; try lia.
    { apply ok_mode; congruence. } { by apply Forall_take. }
    eexists. split; [reflexivity|]. split; [exact Hok|]. do 2 (split; [done|]). split; [done|].
    etransitivity; [exact Hi|]. unfold d. do 2 f_equal. lia.
  - rewrite (wrap_fits 64 (bf_nb_sectors st)), (wrap_fits 64 (s + n)), (proj2 (Z.ltb_ge (bf_nb_sectors st) _)) by (try split; lia).
    destruct (write_loop_ok (Z.to_nat n) st s buf 0 H Em) as (st' & -> & R1 & R2 & R3 & R4 & R5); try done; try lia.
    exists st'. rewrite R3, R5, drop_0. do 5 (split; [done|]). do 2 f_equal. lia.
Qed.
Lemma block_device_init_ok data mode : bytes data -> Z.of_nat (length data) < 2 ^ 63 ->
  bf_ok (block_device_init data mode) /\
  image (block_device_init data mode) = take (512 * (length data / 512)) data.
Proof.
  intros Hb Hl. assert (bf_nb_sectors (block_device_init data mode) = Z.of_nat (length data / 512)) as En.
  { cbn [block_device_init bf_nb_sectors]. rewrite Z.quot_div_nonneg by lia. by rewrite Nat2Z.inj_div. }
  pose proof (Nat.div_mod_eq (length data) 512) as Ed.
  assert (bf_ok (block_device_init data mode)) as H.
  { split; [by eexists| |done|apply map_Forall_empty|done]. rewrite En. unfold file_data. cbn -[Nat.div Nat.mul]. lia. }
  split; [done|]. rewrite image_file, En by done. unfold file_data. cbn [block_device_init bf_f from_option f_data]. f_equal. lia.
Qed.

(** C27: a disk image in a file, in any mode, is an array of sectors.  block_device_init makes
    the array of the whole sectors of the file; a read in its bounds returns the bytes of the
    array and keeps it; a write in its bounds stores the bytes, or is refused in the read-only
    mode; and the file itself only changes in the read-write mode. *)
Theorem bf_refines_image st s n buf : bf_ok st -> 0 <= s -> 0 <= n -> 512 * n < 2 ^ 31 -> s + n <= bf_nb_sectors st ->
  512 * n <= Z.of_nat (length buf) -> bytes buf ->
  (forall data mode, bytes data -> Z.of_nat (length data) < 2 ^ 63 ->
     bf_ok (block_device_init data mode) /\ image (block_device_init data mode) = take (512 * (length data / 512)) data) /\
  (exists st', bf_read_async s buf n st = Ok (0, splice 0 (image_part st s n) buf) st' /\ bf_ok st' /\
     image st' = image st /\ file_data st' = file_data st) /\
  (exists st', bf_write_async s buf n st = Ok (if bf_writable st then 0 else -1) st' /\ bf_ok st' /\
     (bf_mode st <> BF_MODE_RW -> file_data st' = file_data st) /\
     image st' = if bf_writable st then splice (Z.to_nat (512 * s)) (take (Z.to_nat (512 * n)) buf) (image st) else image st).
Proof.
  intros H Hs Hn H31 Hk Hb Hbb. split; [apply block_device_init_ok|]. split.
  - destruct (bf_read_ok st s buf n) as (st' & E & Hm); try done. exists st'.
    split; [done|]. split; [by eapply moved_ok|]. by rewrite (moved_image _ _ Hm), (moved_data _ _ Hm).
  - destruct (bf_write_ok st s buf n) as (st' & E & H1 & H2 & H3 & H4 & H5); try done. by exists st'.
Qed.

(** A snapshot does not check the sectors it reads.  The first sector behind the end makes
    bf_read_async use an element outside [sector_table]; and bf_write_async's own check is passed by
    a sector number so large that the sum with the count wraps around, with the same effect. *)
Theorem bf_snapshot_unchecked st buf f : bf_mode st = BF_MODE_SNAPSHOT -> bf_f st = Some f -> 1 <= bf_nb_sectors st < 2 ^ 63 ->
  bf_read_async (bf_nb_sectors st) buf 1 st = Stop StopFault /\
  bf_write_async (2 ^ 64 - 1) buf 2 st = Stop StopFault.
Proof.
  intros Hm Hf Hn. assert (forall s, ~ (0 <= s < bf_nb_sectors st) -> table_entry s st = Stop StopFault) as He.
  { intros s Hs. unfold table_entry, mbind, M_bind, gets. destruct (Z.leb_spec 0 s), (Z.ltb_spec s (bf_nb_sectors st)); done || lia. }
  split.
  - unfold bf_read_async, mbind, M_bind, gets. rewrite Hf, decide_True by done. change (Z.to_nat 1) with 1%nat. cbn [bf_read_loop].
    unfold mbind, M_bind. by rewrite He by lia.
  - unfold bf_write_async, mbind, M_bind, gets. rewrite Hm, (wrap_fits 64 (bf_nb_sectors st)) by (split; lia).
    change (u64 (2 ^ 64 - 1 + 2)) with 1. rewrite (proj2 (Z.ltb_ge (bf_nb_sectors st) 1)) by lia.
    change (Z.to_nat 2) with 2%nat. cbn [bf_write_loop]. unfold mbind, M_bind. by rewrite He by lia.
Qed.

Definition example_disk : list Z := replicate 512 7 ++ replicate 512 9.
Lemma example_disk_bytes : bytes example_disk.
Proof. apply Forall_app. split; apply Forall_replicate; by vm_compute. Qed.
Lemma bf_refines_image_witness : let st := block_device_init example_disk BF_MODE_SNAPSHOT in
  (exists st', bf_write_async 1 (replicate 512 5) 1 st = Ok 0 st' /\ image st' = replicate 512 7 ++ replicate 512 5 /\
     file_data st' = example_disk).
Proof.
  cbv zeta. assert (bf_ok (block_device_init example_disk BF_MODE_SNAPSHOT)) as H by (apply block_device_init_ok; [apply example_disk_bytes|by vm_compute]).
  destruct (bf_refines_image (block_device_init example_disk BF_MODE_SNAPSHOT) 1 1 (replicate 512 5) H) as (_ & _ & st' & E & _ & Ef & Ei);
    [by vm_compute..|apply Forall_replicate; by vm_compute|].
  exists st'. split; [exact E|]. rewrite Ei, Ef by done. split; [by vm_compute|done].
Defined.
Lemma bf_snapshot_unchecked_witness :
  bf_read_async 2 (replicate 512 0) 1 (block_device_init example_disk BF_MODE_SNAPSHOT) = Stop StopFault.
Proof. apply (bf_snapshot_unchecked (block_device_init example_disk BF_MODE_SNAPSHOT) (replicate 512 0) (mkFile example_disk 1024)); by vm_compute. Defined.
