(* ===== verification/DiskBoardFacts.v ===== *)
(** * A VIRTIO disk in a file: the two halves composed

    A board whose only device is a block device on the file of BlockFile.v keeps the laws that
    the theorems of VirtioBlkFacts.v ask of a back end, so they hold of it. *)
From S2P Require Export BlockFileFacts VirtioInv.
#[local] Open Scope Z_scope.

Record DiskBoard := mkBoard {
  db_dev : VIRTIODevice;
  db_blk : BlockState;
  db_disk : BlockDeviceFile;
  db_irq : Z;
}.
Definition db_set_disk (d : BlockDeviceFile) (w : DiskBoard) : DiskBoard := mkBoard (db_dev w) (db_blk w) d (db_irq w).
(** An operation of the file in the state of the board. *)
Definition on_disk {A} (m : M BlockDeviceFile A) : M (Sys DiskBoard) A := fun σ =>
  match m (db_disk (world σ)) with
  | Ok a d => Ok a (upd_world (db_set_disk d) σ)
  | Stop r => Stop r
  end.

Section Board.
Context `{cfg : Config} `{vcfg : VirtioConfig}.
#[export, refine] Instance disk_virtio : VirtioBoard DiskBoard := {
  vdev := db_dev;
  vset := fun d w => mkBoard d (db_blk w) (db_disk w) (db_irq w);
  set_irq := fun v => modify (upd_world (fun w => mkBoard (db_dev w) (db_blk w) (db_disk w) v));
  uninit_bytes := fun _ n => replicate n 0xaa;
}.
Proof. intros. apply length_replicate. Defined.
#[export] Instance disk_backend : BlockBoard DiskBoard := {
  blk := db_blk;
  blk_set := fun b w => mkBoard (db_dev w) b (db_disk w) (db_irq w);
  read_async := fun s buf n => on_disk (bf_read_async s buf n);
  write_async := fun s buf n => on_disk (bf_write_async s buf n);
}.
#[export, refine] Instance disk_laws : VirtioLaws DiskBoard blk blk_set := { irq_line := fun w => negb (db_irq w =? 0) }.
Proof. all: try by intros; destruct w. intros v σ. by eexists. Defined.
#[export, refine] Instance file_disk : SyncDisk DiskBoard := {
  disk := fun w => image (db_disk w);
  writable := fun w => bf_writable (db_disk w);
  disk_wf := fun w => bf_ok (db_disk w);
}.
Proof.
  all: try done.
  - intros w. apply image_bytes.
  - by intros v σ σ' [= <-].
  - intros σ s buf n H Hs Hn H31 Hk Hb. unfold read_async, disk_backend, on_disk. rewrite image_length in Hk by done.
    destruct (bf_read_ok (db_disk (world σ)) s buf n) as (st & -> & Hm); try (done || lia).
    eexists. split; [done|]. cbn. do 4 (split; [done|]). split; [by apply moved_image|by eapply moved_ok].
  - intros σ s buf n H Hs Hn H31 Hb Hk Hl. unfold write_async, disk_backend, on_disk. rewrite image_length in Hk by done.
    destruct (bf_write_ok (db_disk (world σ)) s buf n) as (st & -> & H1 & H2 & H3 & H4 & H5); try (done || lia).
    eexists. split; [done|]. cbn. by do 4 (split; [done|]).
Defined.
End Board.

(** ** A request *)
#[local] Existing Instance cfg_rv64.
#[local] Instance virtio_64 : VirtioConfig := {| VIRTIO_ADDR_BITS := 64; VIRTIO_ADDR_BITS_ok := or_intror eq_refl |}.

(** 64 KB of RAM at guest address 0. *)
Definition demo_range : PhysMemoryRange :=
  {| pr_addr := 0; pr_org_size := 0x10000; pr_size := 0x10000; pr_is_ram := true; devram_flags := 0;
     pr_phys_mem := 0x100000; dirty_bits_size := 0; dirty_bits := None; dirty_bits_tab := [[]; []];
     dirty_bits_index := 0; pr_opaque := 0; devio_flags := 0 |}.
Definition demo_map : PhysMemoryMap := {| phys_mem_range := [demo_range] |}.
Lemma demo_region a n : 0 <= a -> 0 <= n -> a + n <= 0x10000 -> region demo_map a n (0x100000 + a).
Proof.
  intros Ha Hn Hl. split.
  - change (2 ^ VIRTIO_ADDR_BITS) with (2 ^ 64). lia.
  - intros x Hx. exists 0%nat, demo_range. unfold get_phys_mem_range. cbn [phys_mem_range demo_map get_phys_mem_range_from].
    unfold in_range. cbn [demo_range pr_addr pr_size]. change (u64 (0 + 0x10000)) with 0x10000.
    rewrite (proj2 (Z.leb_le 0 x)), (proj2 (Z.ltb_lt x _)) by lia. do 4 (split; [done|]). cbn.
    unfold uptr. rewrite wrap_fits by (cbn; split; lia). lia.
  - apply existsb_exists. exists (0x100000, 0x10000). split; [by left|]. cbn [fst snd].
    by rewrite (proj2 (Z.leb_le _ _)), (proj2 (Z.leb_le _ _)) by lia.
Qed.

(** A table of descriptors at 0x1000, the available ring at 0x2000, the used ring at 0x3000.  The
    header at 0x4000 has type [t] and sector 1; the other buffer is at 0x5000. *)
Definition demo_queue : QueueState := mkQueue 1 16 0 0x1000 0x2000 0x3000 false.
Definition demo_dev : VIRTIODevice :=
  with_queue (<[0%nat := demo_queue]> (queue (virtio_block_init 2))) (virtio_block_init 2).
Definition demo_desc (i addr len flags next : Z) (m : hmem) : hmem :=
  let p := 0x101000 + 16 * i in
  host_store (host_store (host_store (host_store m p 8 addr) (p + 8) 4 len) (p + 12) 2 flags) (p + 14) 2 next.
Definition demo_rings (t : Z) : hmem :=
  host_store (host_store (host_store ∅ 0x102002 2 1) 0x104000 4 t) 0x104008 8 1.
Definition demo_read_mem : hmem := demo_desc 0 0x4000 16 1 1 (demo_desc 1 0x5000 513 2 0 (demo_rings 0)).
Definition demo_write_mem : hmem :=
  store_bytes (demo_desc 0 0x4000 16 1 1 (demo_desc 1 0x5000 512 1 2 (demo_desc 2 0x6000 1 2 0 (demo_rings 1)))) 0x105000
    (replicate 512 5).
Definition demo_board : DiskBoard :=
  mkBoard demo_dev (mkBlk false (mkReq 0 [] 0 0 0)) (block_device_init example_disk BF_MODE_SNAPSHOT) 0.
Definition demo_sys (m : hmem) : Sys DiskBoard := mkSys riscv_cpu_init demo_map m demo_board.
Lemma demo_disk_ok : bf_ok (block_device_init example_disk BF_MODE_SNAPSHOT).
Proof. apply block_device_init_ok; [apply example_disk_bytes|by vm_compute]. Qed.

Definition demo_d (m : hmem) (i : Z) : list Z := desc_of m 0x101000 i.
Lemma demo_seg m (i a : Z) : d_addr (demo_d m i) = a -> 0 <= a -> a + d_len (demo_d m i) <= 0x10000 ->
  seg_ok demo_map (demo_d m i, 0x100000 + a).
Proof.
  intros <- Ha Hl. pose proof (d_len_range (demo_d m i)) as []. split; [by apply demo_region|]. cbn [fst].
  split; [lia|apply length_desc].
Qed.
Lemma demo_path m i j ds : has_next (demo_d m i) = true -> d_next (demo_d m i) = j -> j < 16 ->
  path m 16 0x101000 (demo_d m j) ds -> path m 16 0x101000 (demo_d m i) (demo_d m j :: ds).
Proof. intros Hn <- Hj Hp. by constructor. Qed.
Lemma demo_request m rs ws : chain (demo_sys m) 16 0x101000 0 rs ws -> off_ring ws demo_queue 0x103000 -> 16 <= total_len rs ->
  host_load m 0x102002 2 = 1 -> host_load m 0x102004 2 = 0 -> (length rs + length ws < 8)%nat ->
  request 8 (demo_sys m) 0 demo_queue 16 0x101000 0x103000 0 rs ws.
Proof.
  intros Hc Ho Ht H1 H0 Hf. split; try done.
  - split; [done|done|]. by apply (demo_region 0x1000 256).
  - split; [done|done|done| |done]. exists 0x102000. split; [by apply (demo_region 0x2000 36)|]. done.
  - split; [done|done|]. by apply (demo_region 0x3000 132).
  - apply demo_disk_ok.
Qed.
(** Goals that a computation decides. *)
Ltac calc := match goal with
  | |- ?x = ?y => vm_compute; reflexivity
  | |- _ <= _ => vm_compute; congruence
  | |- _ < _ => vm_compute; reflexivity
  | |- (_ <= _)%nat => apply Nat.leb_le; vm_compute; reflexivity
  | |- (_ < _)%nat => apply Nat.ltb_lt; vm_compute; reflexivity
  | |- _ /\ _ => split; calc
  end.
Definition seg_of (m : hmem) (i a : Z) : list Z * Z := (demo_d m i, 0x100000 + a).
Lemma virtio_block_read_witness : let m := demo_read_mem in exists σ',
  queue_notify 8 (virtio_block_recv_request 8) 0 (demo_sys m) = Ok tt σ' /\
  content (host σ') [seg_of m 1 0x5000] = replicate 512 9 ++ [0] /\ (db_irq (world σ') =? 0) = false.
Proof.
  set (m := demo_read_mem). cbv zeta.
  assert (request 8 (demo_sys m) 0 demo_queue 16 0x101000 0x103000 0 [seg_of m 0 0x4000] [seg_of m 1 0x5000]) as Hr.
  { apply demo_request; try calc.
    - split; try calc.
      + exists [demo_d m 1]. split; [calc|]. split; [|calc].
        apply (demo_path m 0 1); [calc|calc|calc|constructor].
      + constructor; [|constructor]. split; [|calc]. apply demo_seg; calc.
      + constructor; [|constructor]. split; [|calc]. apply demo_seg; calc.
      + split; [constructor|done].
      + constructor; [|constructor]. right; calc.
    - constructor; [|constructor]. right; calc. }
  destruct (virtio_block_read 8 (demo_sys m) 0 demo_queue 16 0x101000 0x103000 0 _ _ 1 Hr) as (σ' & E & Ec & _ & Hcp);
    [calc..|].
  exists σ'. split; [done|]. split.
  - rewrite Ec. by vm_compute.
  - pose proof (rp_irq _ _ _ _ _ _ _ (cp_replied _ _ _ _ _ _ _ _ Hcp)) as Hi. cbn in Hi. by destruct (db_irq (world σ') =? 0).
Defined.
Lemma virtio_block_write_witness : let m := demo_write_mem in exists σ',
  queue_notify 8 (virtio_block_recv_request 8) 0 (demo_sys m) = Ok tt σ' /\
  image (db_disk (world σ')) = replicate 512 7 ++ replicate 512 5 /\ content (host σ') [seg_of m 2 0x6000] = [0].
Proof.
  set (m := demo_write_mem). cbv zeta.
  assert (request 8 (demo_sys m) 0 demo_queue 16 0x101000 0x103000 0 [seg_of m 0 0x4000; seg_of m 1 0x5000] [seg_of m 2 0x6000]) as Hr.
  { apply demo_request; try calc.
    - split; try calc.
      + exists [demo_d m 1; demo_d m 2]. split; [calc|]. split; [|calc].
        apply (demo_path m 0 1); [calc|calc|calc|]. apply (demo_path m 1 2); [calc|calc|calc|constructor].
      + constructor; [split; [apply demo_seg; calc|calc]|]. constructor; [|constructor]. split; [apply demo_seg; calc|calc].
      + constructor; [|constructor]. split; [apply demo_seg; calc|calc].
      + split; [constructor|done].
      + constructor; [|constructor]. right; calc.
    - constructor; [|constructor]. right; calc. }
  destruct (virtio_block_write 8 (demo_sys m) 0 demo_queue 16 0x101000 0x103000 0 _ _ 1 Hr) as (σ' & E & Ec & Ed & _);
    [calc..|].
  exists σ'. split; [done|]. split.
  - change (image (db_disk (world σ'))) with (disk (world σ')). rewrite Ed. by vm_compute.
  - rewrite Ec. by vm_compute.
Defined.

(** ** Registers and the interrupt line *)
Lemma on_disk_kept {A} (m : M BlockDeviceFile A) : kept (on_disk m).
Proof. intros σ H. unfold wp, on_disk. by destruct (m _). Qed.
Lemma demo_dev_ok m : dev_ok (vdev (world (demo_sys m))).
Proof.
  assert (dev_ok (virtio_block_init 2)) as H by by apply (init_ok 2 (replicate 6 0)); [|repeat constructor].
  replace (vdev (world (demo_sys m))) with (with_queue (alter (fun _ => demo_queue) 0%nat (queue (virtio_block_init 2))) (virtio_block_init 2))
    by (vm_compute; reflexivity).
  apply dev_ok_queues; [|done]. intros _ _. split; try (by vm_compute); vm_compute; repeat split; congruence.
Qed.
Lemma virtio_line_follows_status_witness :
  match run 8 [ConfigChange; MmioRead 0x60 2; MmioWrite 0x50 0 2; MmioWrite 0x64 2 2; PciRead 0x1000 0] (demo_sys demo_read_mem) with
  | Ok _ σ' => dev_ok (vdev (world σ')) /\ irq_line (world σ') = negb (int_status (vdev (world σ')) =? 0)
  | Stop _ => True
  end.
Proof.
  apply virtio_line_follows_status.
  - intros. apply on_disk_kept.
  - intros. apply on_disk_kept.
  - repeat constructor; by vm_compute.
  - apply demo_dev_ok.
  - by vm_compute.
Defined.
Lemma virtio_registers_typed_witness : exists v, virtio_mmio_read 0x104 2 (demo_sys ∅) = Ok v (demo_sys ∅) /\ fits 32 v.
Proof.
  apply (virtio_registers_typed (demo_sys ∅) 0x104 2 2 (replicate 6 0)); [apply demo_dev_ok|by vm_compute|by vm_compute|done|].
  apply Forall_replicate. by vm_compute.
Defined.
(** The used index is 17, in a ring of 16 entries: the entry is that of number 1. *)
Lemma virtio_ring_bounds_witness : let m := host_store ∅ 0x103002 2 17 in exists σ',
  virtio_consume_desc 0 7 513 (demo_sys m) = Ok tt σ' /\ host_load (host σ') 0x103002 2 = 18 /\
  host_load (host σ') 0x10300c 4 = 7 /\ host_load (host σ') 0x103010 4 = 513.
Proof.
  set (m := host_store ∅ 0x103002 2 17). cbv zeta.
  destruct (virtio_ring_bounds (demo_sys m) 0 demo_queue (demo_dev_ok m)) as (H & _); [calc|by vm_compute|calc|].
  destruct (H 0x103000 7 513) as (σ' & E & E1 & E2 & E3 & _); [calc|by apply (demo_region 0x3000 132)|].
  exists σ'. split; [exact E|]. revert E1 E2 E3. cbv zeta.
  replace (host_load (host (demo_sys m)) (0x103000 + 2) 2) with 17 by (vm_compute; reflexivity).
  intros E1 E2 E3. split; [exact E1|]. split; [exact E2|exact E3].
Defined.
