(* ===== verification/FsMem.v ===== *)
(** * The file system in memory behind the 9P device (fs_net.c: file_buffer_init .. fs_mem_init)

    Inodes, open files and directory entries are linked by pointers.  An FSINode and an
    FSFile are entries of two heaps, removed by free: a use after free is a missing key and
    a fault.  A directory is the list of its entries, a name and an inode.  The counts of an
    inode (int32_t) and the size of a directory (int) keep their widths: where they would pass
    them, which C leaves undefined, the run stops.  Sizes and offsets that a request gives keep
    their widths too.  The int64_t counts of inodes and blocks are unbounded: an address space
    does not hold the objects that 2^63 takes.  A string is the list of its bytes. *)
From S2P Require Export Virtio9p.
From stdpp Require Import strings.
#[local] Open Scope Z_scope.

Definition P9_QTDIR : Z := 0x80.
Definition P9_QTSYMLINK : Z := 0x02.
Definition P9_QTFILE : Z := 0x00.
Definition P9_S_IFMT : Z := 0xF000.
Definition P9_O_RDONLY : Z := 0x00000000.
Definition P9_O_WRONLY : Z := 0x00000001.
Definition P9_O_NOACCESS : Z := 0x00000003.
Definition P9_O_TRUNC : Z := 0x00000200.
Definition P9_O_DIRECTORY : Z := 0x00010000.
Definition P9_SETATTR_MODE : Z := 0x00000001.
Definition P9_SETATTR_UID : Z := 0x00000002.
Definition P9_SETATTR_GID : Z := 0x00000004.
Definition P9_SETATTR_SIZE : Z := 0x00000008.
Definition P9_SETATTR_MTIME : Z := 0x00000020.
Definition P9_SETATTR_CTIME : Z := 0x00000040.
Definition P9_SETATTR_MTIME_SET : Z := 0x00000100.
Definition P9_EPERM : Z := 1.
Definition P9_ENOENT : Z := 2.
Definition P9_EIO : Z := 5.
Definition P9_EEXIST : Z := 17.
Definition P9_ENOTDIR : Z := 20.
Definition P9_EINVAL : Z := 22.
Definition P9_ENOSPC : Z := 28.
Definition P9_ENOTEMPTY : Z := 39.
Definition P9_LOCK_SUCCESS : Z := 0.
Definition FS_BLOCK_SIZE_LOG2 : Z := 12.

(** ** Data *)
Inductive FSINodeRegStateEnum := REG_STATE_LOCAL | REG_STATE_UNLOADED | REG_STATE_LOADING | REG_STATE_LOADED.
#[export] Instance reg_state_eq_dec : EqDecision FSINodeRegStateEnum.
Proof. solve_decision. Defined.
(** [fbuf] is the buffer, allocated_size bytes of data.  The fields that tell where the
    content of a network file comes from are left out. *)
Record FSReg := mkReg { reg_state : FSINodeRegStateEnum; reg_size : Z; fbuf : list Z; is_fscmd : bool }.
(** The type and the union [u] *)
Inductive FSINodeData :=
| FT_REG (r : FSReg)
| FT_DIR (de_list : list (list Z * Z)) (size : Z)
| FT_CHR (major minor : Z)
| FT_BLK (major minor : Z)
| FT_LNK (name : list Z)
| FT_FIFO
| FT_SOCK.
Definition i_type (d : FSINodeData) : Z :=
  match d with FT_FIFO => 1 | FT_CHR _ _ => 2 | FT_DIR _ _ => 4 | FT_BLK _ _ => 6 | FT_REG _ => 8 | FT_LNK _ => 10 | FT_SOCK => 12 end.
Record FSINode := mkINode {
  inode_num : Z;
  refcount : Z;
  open_count : Z;
  i_data : FSINodeData;
  i_mode : Z;
  i_uid : Z;
  i_gid : Z;
  mtime : Z * Z;
  ctime : Z * Z;
}.
Record FSFile := mkFile { f_uid : Z; f_inode : Z; is_opened : bool; open_flags : Z; f_req : bool }.
Record FSDeviceMem := mkFs {
  inodes : gmap Z FSINode;
  files : gmap Z FSFile;
  next_ptr : Z;
  inode_list : list Z;
  inode_count : Z;
  inode_limit : Z;
  fs_blocks : Z;
  fs_max_blocks : Z;
  inode_num_alloc : Z;
  block_size_log2 : Z;
  block_size : Z;
  root_inode : Z;
  inode_cache_list : list Z;
  inode_cache_size : Z;
}.

Definition set_inodes v s := mkFs v (files s) (next_ptr s) (inode_list s) (inode_count s) (inode_limit s) (fs_blocks s) (fs_max_blocks s)
  (inode_num_alloc s) (block_size_log2 s) (block_size s) (root_inode s) (inode_cache_list s) (inode_cache_size s).
Definition set_files v s := mkFs (inodes s) v (next_ptr s) (inode_list s) (inode_count s) (inode_limit s) (fs_blocks s) (fs_max_blocks s)
  (inode_num_alloc s) (block_size_log2 s) (block_size s) (root_inode s) (inode_cache_list s) (inode_cache_size s).
Definition set_next_ptr v s := mkFs (inodes s) (files s) v (inode_list s) (inode_count s) (inode_limit s) (fs_blocks s) (fs_max_blocks s)
  (inode_num_alloc s) (block_size_log2 s) (block_size s) (root_inode s) (inode_cache_list s) (inode_cache_size s).
Definition set_inode_list v k s := mkFs (inodes s) (files s) (next_ptr s) v k (inode_limit s) (fs_blocks s) (fs_max_blocks s)
  (inode_num_alloc s) (block_size_log2 s) (block_size s) (root_inode s) (inode_cache_list s) (inode_cache_size s).
Definition set_blocks v s := mkFs (inodes s) (files s) (next_ptr s) (inode_list s) (inode_count s) (inode_limit s) v (fs_max_blocks s)
  (inode_num_alloc s) (block_size_log2 s) (block_size s) (root_inode s) (inode_cache_list s) (inode_cache_size s).
Definition set_num_alloc v s := mkFs (inodes s) (files s) (next_ptr s) (inode_list s) (inode_count s) (inode_limit s) (fs_blocks s) (fs_max_blocks s)
  v (block_size_log2 s) (block_size s) (root_inode s) (inode_cache_list s) (inode_cache_size s).
Definition set_root v s := mkFs (inodes s) (files s) (next_ptr s) (inode_list s) (inode_count s) (inode_limit s) (fs_blocks s) (fs_max_blocks s)
  (inode_num_alloc s) (block_size_log2 s) (block_size s) v (inode_cache_list s) (inode_cache_size s).
Definition set_cache l k s := mkFs (inodes s) (files s) (next_ptr s) (inode_list s) (inode_count s) (inode_limit s) (fs_blocks s) (fs_max_blocks s)
  (inode_num_alloc s) (block_size_log2 s) (block_size s) (root_inode s) l k.
Definition n_refcount v n := mkINode (inode_num n) v (open_count n) (i_data n) (i_mode n) (i_uid n) (i_gid n) (mtime n) (ctime n).
Definition n_open v n := mkINode (inode_num n) (refcount n) v (i_data n) (i_mode n) (i_uid n) (i_gid n) (mtime n) (ctime n).
Definition n_data v n := mkINode (inode_num n) (refcount n) (open_count n) v (i_mode n) (i_uid n) (i_gid n) (mtime n) (ctime n).
Definition n_mode v n := mkINode (inode_num n) (refcount n) (open_count n) (i_data n) v (i_uid n) (i_gid n) (mtime n) (ctime n).
Definition n_uid v n := mkINode (inode_num n) (refcount n) (open_count n) (i_data n) (i_mode n) v (i_gid n) (mtime n) (ctime n).
Definition n_gid v n := mkINode (inode_num n) (refcount n) (open_count n) (i_data n) (i_mode n) (i_uid n) v (mtime n) (ctime n).
Definition n_mtime v n := mkINode (inode_num n) (refcount n) (open_count n) (i_data n) (i_mode n) (i_uid n) (i_gid n) v (ctime n).
Definition n_ctime v n := mkINode (inode_num n) (refcount n) (open_count n) (i_data n) (i_mode n) (i_uid n) (i_gid n) (mtime n) v.
Definition fl_opened v f := mkFile (f_uid f) (f_inode f) v (open_flags f) (f_req f).
Definition fl_flags v f := mkFile (f_uid f) (f_inode f) (is_opened f) v (f_req f).
Definition fl_inode v f := mkFile (f_uid f) v (is_opened f) (open_flags f) (f_req f).

(** What the operations use and this file does not model: the clock (seconds and
    nanoseconds), the allocator (what realloc grants and the bytes it gives), the loading of
    network files, the command file. *)
Class FsHost := {
  time_now : FSDeviceMem -> Z * Z;
  realloc_ok : FSDeviceMem -> Z -> bool;
  fresh_bytes : FSDeviceMem -> nat -> list Z;
  fresh_length : forall s n, length (fresh_bytes s n) = n;
  open_network : Z -> P9OpenInfo -> M FSDeviceMem Z;
  release_network : Z -> M FSDeviceMem unit;
  fs_cmd_read : Z -> Z -> list Z -> Z -> M FSDeviceMem (Z * list Z);
  fs_cmd_write : Z -> Z -> list Z -> Z -> M FSDeviceMem Z;
  fs_cmd_close : Z -> M FSDeviceMem unit;
}.

Section FsMem.
Context `{cfg : Config} `{fh : !FsHost}.
Local Abbreviation MF := (M FSDeviceMem).

(** Dereferencing a pointer *)
Definition get_inode (p : Z) : MF FSINode :=
  s ← gets inodes; match s !! p with Some n => mret n | None => stop_with StopFault end.
Definition set_inode (p : Z) (n : FSINode) : MF unit := modify (fun s => set_inodes (<[p := n]> (inodes s)) s).
Definition upd_inode (p : Z) (f : FSINode -> FSINode) : MF unit := n ← get_inode p; set_inode p (f n).
Definition get_file (p : Z) : MF FSFile :=
  s ← gets files; match s !! p with Some f => mret f | None => stop_with StopFault end.
Definition upd_file (p : Z) (g : FSFile -> FSFile) : MF unit :=
  f ← get_file p; modify (fun s => set_files (<[p := g f]> (files s)) s).
Definition fresh_ptr : MF Z :=
  p ← gets next_ptr; _ ← modify (set_next_ptr (p + 1)); mret p.

(** ** File buffers *)
Definition file_buffer_resize (buf : list Z) (new_size : Z) : MF (option (list Z)) :=
  s ← gets id;
  if negb (realloc_ok s new_size) && negb (new_size =? 0) then mret None
  else
    let n := Z.to_nat new_size in
    mret (Some (take n buf ++ fresh_bytes s (n - length buf))).
Definition file_buffer_write (data : list Z) (offset : Z) (buf : list Z) (size : Z) : MF (list Z) :=
  bs ← buf_load 0 (Z.to_nat (uptr size)) buf;
  buf_store (uptr offset) bs data.
Definition file_buffer_set (data : list Z) (offset val size : Z) : MF (list Z) :=
  buf_store (uptr offset) (replicate (Z.to_nat (uptr size)) val) data.
Definition file_buffer_read (data : list Z) (offset : Z) (buf : list Z) (size : Z) : MF (list Z) :=
  bs ← buf_load (uptr offset) (Z.to_nat (uptr size)) data;
  buf_store 0 bs buf.

(** ** Inodes *)
Definition to_blocks (s : FSDeviceMem) (size : Z) : Z := u64 (u64 size + block_size s - 1) ≫ block_size_log2 s.
Definition add_blocks (diff : FSDeviceMem -> Z) : MF unit := modify (fun s => set_blocks (fs_blocks s + diff s) s).
Definition assert_blocks : MF unit := s ← gets fs_blocks; assert (0 <=? s).

(** A result of type int, or int32_t *)
Definition as_int (x : Z) : MF Z := if (- 2 ^ 31 <=? x) && (x <? 2 ^ 31) then mret x else stop_with StopOverflow.
Definition inode_incref (p : Z) : MF Z :=
  n ← get_inode p; k ← as_int (refcount n + 1); _ ← set_inode p (n_refcount k n); mret p.
Definition inode_inc_open (p : Z) : MF Z :=
  n ← get_inode p; k ← as_int (open_count n + 1); _ ← set_inode p (n_open k n); mret p.
(** A loaded file that leaves the cache *)
Definition uncache (p size : Z) : MF unit :=
  _ ← modify (fun s => set_cache (filter (fun x => x <> p) (inode_cache_list s)) (inode_cache_size s - size) s);
  k ← gets inode_cache_size;
  assert (0 <=? k).
Definition inode_free (p : Z) : MF unit :=
  n ← get_inode p;
  _ ← assert (refcount n =? 0);
  _ ← assert (open_count n =? 0);
  _ ← match i_data n with
      | FT_REG r =>
          _ ← add_blocks (fun s => - to_blocks s (reg_size r));
          _ ← assert_blocks;
          match reg_state r with
          | REG_STATE_LOADED => _ ← uncache p (reg_size r); release_network p
          | REG_STATE_LOADING | REG_STATE_UNLOADED => release_network p
          | REG_STATE_LOCAL => mret tt
          end
      | FT_DIR de_list _ => assert (bool_decide (de_list = []))
      | _ => mret tt
      end;
  _ ← modify (fun s => set_inodes (delete p (inodes s)) (set_inode_list (filter (fun x => x <> p) (inode_list s)) (inode_count s - 1) s));
  k ← gets inode_count;
  assert (0 <=? k).
Definition inode_decref (p : Z) : MF unit :=
  n ← get_inode p;
  _ ← assert (1 <=? refcount n);
  _ ← set_inode p (n_refcount (refcount n - 1) n);
  if (refcount n - 1 <=? 0) && (open_count n <=? 0) then inode_free p else mret tt.
Definition inode_dec_open (p : Z) : MF unit :=
  n ← get_inode p;
  _ ← assert (1 <=? open_count n);
  _ ← set_inode p (n_open (open_count n - 1) n);
  if (open_count n - 1 <=? 0) && (refcount n <=? 0) then inode_free p else mret tt.
Definition inode_update_mtime (p : Z) : MF unit := s ← gets time_now; upd_inode p (n_mtime s).
(** [data] is the union after mallocz and the initialisation of its lists. *)
Definition inode_new (data : FSINodeData) (mode uid gid : Z) : MF Z :=
  p ← fresh_ptr;
  num ← gets inode_num_alloc;
  _ ← modify (set_num_alloc (u64 (num + 1)));
  t ← gets time_now;
  _ ← set_inode p (mkINode num 1 0 data (mode .& 0xfff) uid gid t t);
  _ ← modify (fun s => set_inode_list (p :: inode_list s) (inode_count s + 1) s);
  mret p.

(** ** Directories *)
Definition sizeof_dirent : Z := UINTPTR_W / 2.
(** strlen and the size of the object are converted to int. *)
Definition dirent_size (name : list Z) : Z := i32 (sizeof_dirent + i32 (Z.of_nat (length name)) + 1).
Definition inode_dir_add (p : Z) (name : list Z) (p1 : Z) : MF unit :=
  n ← get_inode p;
  match i_data n with
  | FT_DIR de_list size =>
      new_size ← as_int (size + dirent_size name);
      _ ← add_blocks (fun s => to_blocks s new_size - to_blocks s size);
      set_inode p (n_data (FT_DIR (de_list ++ [(name, p1)]) new_size) n)
  | _ => stop_with StopAssert
  end.
Fixpoint find_entry (l : list (list Z * Z)) (name : list Z) : option Z :=
  match l with [] => None | (x, p) :: l' => if decide (x = name) then Some p else find_entry l' name end.
Fixpoint remove_entry (l : list (list Z * Z)) (name : list Z) : list (list Z * Z) :=
  match l with [] => [] | (x, p) :: l' => if decide (x = name) then l' else (x, p) :: remove_entry l' name end.
(** The inode of the entry *)
Definition inode_search (p : Z) (name : list Z) : MF (option Z) :=
  n ← get_inode p;
  mret (match i_data n with FT_DIR de_list _ => find_entry de_list name | _ => None end).
Definition is_empty_dir (de_list : list (list Z * Z)) : bool :=
  forallb (fun de => bool_decide (de.1 = str "."%string) || bool_decide (de.1 = str ".."%string)) de_list.
Definition inode_dirent_delete_no_decref (p : Z) (name : list Z) : MF unit :=
  n ← get_inode p;
  match i_data n with
  | FT_DIR de_list size =>
      new_size ← as_int (size - dirent_size name);
      _ ← add_blocks (fun s => to_blocks s new_size - to_blocks s size);
      _ ← assert (0 <=? new_size);
      _ ← assert_blocks;
      set_inode p (n_data (FT_DIR (remove_entry de_list name) new_size) n)
  | _ => stop_with StopFault
  end.
(** The entry [name] of the directory [p], whose inode is [p1] *)
Definition inode_dirent_delete (p : Z) (name : list Z) (p1 : Z) : MF unit :=
  _ ← inode_dirent_delete_no_decref p name; inode_decref p1.
Fixpoint delete_entries (p : Z) (l : list (list Z * Z)) : MF unit :=
  match l with [] => mret tt | (name, p1) :: l' => _ ← inode_dirent_delete p name p1; delete_entries p l' end.
Definition flush_dir (p : Z) : MF unit :=
  n ← get_inode p;
  match i_data n with
  | FT_DIR de_list _ =>
      _ ← delete_entries p de_list;
      n ← get_inode p;
      match i_data n with FT_DIR _ size => assert (size =? 0) | _ => stop_with StopFault end
  | _ => stop_with StopFault
  end.

(** inode_search_path1: the loop over the components of a path *)
Fixpoint split_slash (l : list Z) : list Z * option (list Z) :=
  match l with
  | [] => ([], None)
  | c :: l' => if c =? 47 then ([], Some l') else let '(a, b) := split_slash l' in (c :: a, b)
  end.
Fixpoint path_loop (fuel : nat) (p : Z) (path : list Z) : MF (option Z) :=
  match fuel with
  | O => stop_with StopFuel
  | S fuel =>
      let '(name, rest) := split_slash path in
      if 1023 <? Z.of_nat (length name) then mret None
      else
        de ← inode_search p name;
        match de, rest with
        | None, _ => mret None
        | Some p, None => mret (Some p)
        | Some p, Some rest => path_loop fuel p rest
        end
  end.
Definition inode_search_path1 (p : Z) (path : list Z) : MF (option Z) :=
  let path := match path with c :: l => if c =? 47 then l else path | [] => path end in
  match path with
  | [] => mret (Some p)
  | _ => path_loop (S (length path)) p path
  end.
Definition inode_search_path (path : list Z) : MF (option Z) := root ← gets root_inode; inode_search_path1 root path.

(** ** The operations of the file system

    Where the C function leaves a result behind a pointer untouched, the definition gives
    [no_qid_yet] or the pointer that it got. *)
Definition no_qid_yet : FSQID := mkQID 0 0 0.
Definition fs_close (f : Z) : MF unit :=
  x ← get_file f;
  _ ← upd_file f (fl_opened false);
  if f_req x then fs_cmd_close f else mret tt.
Definition fs_delete (f : Z) : MF unit :=
  _ ← fs_close f;
  x ← get_file f;
  _ ← inode_dec_open (f_inode x);
  modify (fun s => set_files (delete f (files s)) s).
Definition fid_create (p uid : Z) : MF Z :=
  f ← fresh_ptr;
  p ← inode_inc_open p;
  _ ← modify (fun s => set_files (<[f := mkFile uid p false 0 false]> (files s)) s);
  mret f.
Definition qid_type (d : FSINodeData) : Z :=
  match d with FT_DIR _ _ => P9_QTDIR | FT_LNK _ => P9_QTSYMLINK | _ => P9_QTFILE end.
Definition inode_to_qid (p : Z) : MF FSQID :=
  n ← get_inode p; mret (mkQID (qid_type (i_data n)) 0 (inode_num n)).
Definition fs_statfs : MF FSStatFS :=
  s ← gets id;
  let k := block_size_log2 s - 10 in
  let free := u64 ((fs_max_blocks s - fs_blocks s) ≪ k) in
  mret (mkStatFS 1024 (u64 (fs_max_blocks s ≪ k)) free free (inode_limit s) (u64 (inode_limit s - inode_count s))).
Definition fs_attach (uid : Z) (uname aname : list Z) : MF (Z * Z * FSQID) :=
  root ← gets root_inode;
  f ← fid_create root uid;
  qid ← inode_to_qid root;
  mret (0, f, qid).
Fixpoint walk_loop (p : Z) (names : list (list Z)) : MF (Z * list FSQID) :=
  match names with
  | [] => mret (p, [])
  | name :: names' =>
      de ← inode_search p name;
      match de with
      | None => mret (p, [])
      | Some p =>
          qid ← inode_to_qid p;
          r ← walk_loop p names';
          mret (r.1, qid :: r.2)
      end
  end.
Definition fs_walk (f : Z) (names : list (list Z)) : MF (Z * Z * list FSQID) :=
  x ← get_file f;
  r ← walk_loop (f_inode x) names;
  f' ← fid_create r.1 (f_uid x);
  mret (Z.of_nat (length r.2), f', r.2).
Definition fs_mkdir (f : Z) (name : list Z) (mode gid : Z) : MF (Z * FSQID) :=
  x ← get_file f;
  let p := f_inode x in
  n ← get_inode p;
  if negb (i_type (i_data n) =? 4) then mret (- P9_ENOTDIR, no_qid_yet)
  else
    de ← inode_search p name;
    if de is Some _ then mret (- P9_EEXIST, no_qid_yet)
    else
      p1 ← inode_new (FT_DIR [] 0) mode (f_uid x) gid;
      p1 ← inode_incref p1;
      _ ← inode_dir_add p1 (str "."%string) p1;
      p ← inode_incref p;
      _ ← inode_dir_add p1 (str ".."%string) p;
      _ ← inode_dir_add p name p1;
      qid ← inode_to_qid p1;
      mret (0, qid).
Definition fs_truncate (p size : Z) : MF Z :=
  n ← get_inode p;
  match i_data n with
  | FT_REG r =>
      if 2 ^ UINTPTR_W - 1 <? size then mret (- P9_ENOSPC)
      else
        let diff := swrap UINTPTR_W (size - reg_size r) in
        if diff =? 0 then mret 0
        else
          s ← gets id;
          let diff_blocks := swrap UINTPTR_W (to_blocks s size - to_blocks s (reg_size r)) in
          let finish (r : FSReg) : MF Z :=
            _ ← add_blocks (fun _ => diff_blocks);
            _ ← assert_blocks;
            _ ← upd_inode p (n_data (FT_REG (mkReg (reg_state r) size (fbuf r) (is_fscmd r))));
            mret 0 in
          let resized (buf : list Z) : MF Z :=
            _ ← (if decide (reg_state r = REG_STATE_LOADED) then uncache p (reg_size r) else mret tt);
            finish (mkReg REG_STATE_LOCAL (reg_size r) buf (is_fscmd r)) in
          let alloc := Z.of_nat (length (fbuf r)) in
          match reg_state r with
          | REG_STATE_LOADING => mret (- P9_EIO)
          | REG_STATE_UNLOADED =>
              finish (mkReg (if size =? 0 then REG_STATE_LOCAL else REG_STATE_UNLOADED) (reg_size r) (fbuf r) (is_fscmd r))
          | REG_STATE_LOADED | REG_STATE_LOCAL =>
              if 0 <? diff then
                if fs_max_blocks s <? u64 (fs_blocks s + diff_blocks) then mret (- P9_ENOSPC)
                else
                  let new_alloc := uptr (alloc * 5) / 4 in
                  let new_alloc := if new_alloc <? size then size else new_alloc in
                  b ← (if alloc <? size then file_buffer_resize (fbuf r) new_alloc else mret (Some (fbuf r)));
                  match b with
                  | None => mret (- P9_ENOSPC)
                  | Some buf => buf ← file_buffer_set buf (reg_size r) 0 diff; resized buf
                  end
              else
                let new_alloc := uptr (alloc * 4) / 5 in
                b ← (if size <=? new_alloc then file_buffer_resize (fbuf r) new_alloc else mret (Some (fbuf r)));
                match b with None => mret (- P9_ENOSPC) | Some buf => resized buf end
          end
  | _ => mret (- P9_EINVAL)
  end.
(** The cases UNLOADED and LOADING are [open_network].  A loaded file moves to the front of
    the cache. *)
Definition fs_open (f flags : Z) (oi : P9OpenInfo) : MF (Z * FSQID) :=
  x ← get_file f;
  let p := f_inode x in
  n ← get_inode p;
  _ ← fs_close f;
  let ty := i_type (i_data n) in
  if nz (flags .& P9_O_DIRECTORY) && negb (ty =? 4) then mret (- P9_ENOTDIR, no_qid_yet)
  else if negb (nz (flags .& P9_O_DIRECTORY)) && negb (ty =? 8) && negb (ty =? 4) then mret (- P9_EINVAL, no_qid_yet)
  else
    _ ← upd_file f (fl_flags flags);
    let do_open : MF (Z * FSQID) :=
      _ ← upd_file f (fl_opened true); qid ← inode_to_qid p; mret (0, qid) in
    if ty =? 8 then
      _ ← (if nz (flags .& P9_O_TRUNC) && negb (flags .& P9_O_NOACCESS =? P9_O_RDONLY)
           then _ ← fs_truncate p 0; mret tt else mret tt);
      n ← get_inode p;
      match i_data n with
      | FT_REG r =>
          match reg_state r with
          | REG_STATE_UNLOADED | REG_STATE_LOADING => ret ← open_network f oi; mret (ret, no_qid_yet)
          | REG_STATE_LOCAL => do_open
          | REG_STATE_LOADED =>
              _ ← modify (fun s => set_cache (p :: filter (fun y => y <> p) (inode_cache_list s)) (inode_cache_size s) s);
              do_open
          end
      | _ => stop_with StopFault
      end
    else do_open.
Definition new_reg : FSReg := mkReg REG_STATE_LOCAL 0 [] false.
Definition fs_create (f : Z) (name : list Z) (flags mode gid : Z) : MF (Z * FSQID) :=
  x ← get_file f;
  let p := f_inode x in
  n ← get_inode p;
  if negb (i_type (i_data n) =? 4) then mret (- P9_ENOTDIR, no_qid_yet)
  else
    de ← inode_search p name;
    if de is Some _ then mret (- P9_EEXIST, no_qid_yet)
    else
      _ ← fs_close f;
      p1 ← inode_new (FT_REG new_reg) mode (f_uid x) gid;
      _ ← inode_dir_add p name p1;
      _ ← inode_dec_open p;
      p1 ← inode_inc_open p1;
      _ ← upd_file f (fl_inode p1);
      _ ← upd_file f (fl_opened true);
      _ ← upd_file f (fl_flags flags);
      qid ← inode_to_qid p1;
      mret (0, qid).
(** The two loops of readdir *)
Fixpoint skip_entries (l : list (list Z * Z)) (n : Z) {struct l} : option (list (list Z * Z)) :=
  if 0 <? n then match l with [] => None | _ :: l' => skip_entries l' (n - 1) end else Some l.
Fixpoint put_entries (l : list (list Z * Z)) (pos offset count : Z) : MF (list Z) :=
  match l with
  | [] => mret []
  | (name, p1) :: l' =>
      let name_len := Z.of_nat (length name) in
      let len := 13 + 8 + 1 + 2 + name_len in
      if count <? pos + len then mret []
      else
        n1 ← get_inode p1;
        rest ← put_entries l' (pos + len) (offset + 1) count;
        mret ([qid_type (i_data n1)] ++ le32 0 ++ le64 (inode_num n1) ++ le64 (offset + 1) ++ [i_type (i_data n1)] ++
              le16 name_len ++ name ++ rest)
  end.
Definition fs_readdir (f offset1 : Z) (buf : list Z) (count : Z) : MF (Z * list Z) :=
  x ← get_file f;
  n ← get_inode (f_inode x);
  if negb (is_opened x) then mret (- P9_EPROTO, buf)
  else
    match i_data n with
    | FT_DIR de_list _ =>
        match skip_entries de_list offset1 with
        | None => mret (0, buf)
        | Some l =>
            out ← put_entries l 0 offset1 count;
            buf ← buf_store 0 out buf;
            mret (Z.of_nat (length out), buf)
        end
    | _ => mret (- P9_EPROTO, buf)
    end.
Definition fs_read (f offset : Z) (buf : list Z) (count : Z) : MF (Z * list Z) :=
  x ← get_file f;
  n ← get_inode (f_inode x);
  if negb (is_opened x) then mret (- P9_EPROTO, buf)
  else
    match i_data n with
    | FT_REG r =>
        if open_flags x .& P9_O_NOACCESS =? P9_O_WRONLY then mret (- P9_EIO, buf)
        else if is_fscmd r then fs_cmd_read f offset buf count
        else if reg_size r <=? offset then mret (0, buf)
        else
          let count1 := reg_size r - offset in
          let count := if count1 <? u64 count then i32 count1 else count in
          buf ← file_buffer_read (fbuf r) offset buf count;
          mret (count, buf)
    | _ => mret (- P9_EIO, buf)
    end.
Definition fs_write (f offset : Z) (buf : list Z) (count : Z) : MF Z :=
  x ← get_file f;
  let p := f_inode x in
  n ← get_inode p;
  if negb (is_opened x) then mret (- P9_EPROTO)
  else
    match i_data n with
    | FT_REG r =>
        if open_flags x .& P9_O_NOACCESS =? P9_O_RDONLY then mret (- P9_EIO)
        else if count =? 0 then mret 0
        else if is_fscmd r then fs_cmd_write f offset buf count
        else
          let end_ := u64 (offset + count) in
          err ← (if reg_size r <? end_ then fs_truncate p end_ else mret 0);
          if nz err then mret err
          else
            _ ← inode_update_mtime p;
            n ← get_inode p;
            match i_data n with
            | FT_REG r =>
                _ ← (if decide (reg_state r = REG_STATE_LOADED) then uncache p (reg_size r) else mret tt);
                data ← file_buffer_write (fbuf r) offset buf count;
                let st := if decide (reg_state r = REG_STATE_LOADED) then REG_STATE_LOCAL else reg_state r in
                _ ← upd_inode p (n_data (FT_REG (mkReg st (reg_size r) data (is_fscmd r))));
                mret count
            | _ => stop_with StopFault
            end
    | _ => mret (- P9_EIO)
    end.
Definition fs_stat (f : Z) : MF (Z * FSStat) :=
  x ← get_file f;
  let p := f_inode x in
  n ← get_inode p;
  qid ← inode_to_qid p;
  s ← gets id;
  let rdev := match i_data n with
              | FT_CHR major minor | FT_BLK major minor => u32 (major ≪ 8) .| minor
              | _ => 0
              end in
  let size := match i_data n with
              | FT_REG r => reg_size r
              | FT_LNK name => Z.of_nat (length name)
              | FT_DIR _ size => size
              | _ => 0
              end in
  mret (0, mkStat qid (u32 (i_mode n .| (i_type (i_data n) ≪ 12))) (i_uid n) (i_gid n) (refcount n) rdev size (block_size s)
             (u64 (to_blocks s size ≪ (block_size_log2 s - 9)))
             (mtime n).1 (mtime n).2 (mtime n).1 (mtime n).2 (ctime n).1 (ctime n).2).
Definition fs_setattr (f mask mode uid gid size atime_sec atime_nsec mtime_sec mtime_nsec : Z) : MF Z :=
  x ← get_file f;
  let p := f_inode x in
  let on (flag : Z) (m : MF unit) : MF unit := if nz (mask .& flag) then m else mret tt in
  _ ← on P9_SETATTR_MODE (upd_inode p (n_mode mode));
  _ ← on P9_SETATTR_UID (upd_inode p (n_uid uid));
  _ ← on P9_SETATTR_GID (upd_inode p (n_gid gid));
  ret ← (if nz (mask .& P9_SETATTR_SIZE) then fs_truncate p size else mret 0);
  if nz ret then mret ret
  else
    _ ← on P9_SETATTR_MTIME
          (if nz (mask .& P9_SETATTR_MTIME_SET) then upd_inode p (n_mtime (u32 mtime_sec, u32 mtime_nsec)) else inode_update_mtime p);
    _ ← on P9_SETATTR_CTIME (t ← gets time_now; upd_inode p (n_ctime t));
    mret 0.
Definition fs_link (df f : Z) (name : list Z) : MF Z :=
  dx ← get_file df;
  x ← get_file f;
  n ← get_inode (f_inode x);
  if i_type (i_data n) =? 4 then mret (- P9_EPERM)
  else
    de ← inode_search (f_inode dx) name;
    if de is Some _ then mret (- P9_EEXIST)
    else
      p1 ← inode_incref (f_inode x);
      _ ← inode_dir_add (f_inode dx) name p1;
      mret 0.
(** The end of symlink and mknod *)
Definition add_new (p : Z) (name : list Z) (data : FSINodeData) (mode uid gid : Z) : MF (Z * FSQID) :=
  p1 ← inode_new data mode uid gid;
  _ ← inode_dir_add p name p1;
  qid ← inode_to_qid p1;
  mret (0, qid).
Definition fs_symlink (f : Z) (name symgt : list Z) (gid : Z) : MF (Z * FSQID) :=
  x ← get_file f;
  de ← inode_search (f_inode x) name;
  if de is Some _ then mret (- P9_EEXIST, no_qid_yet)
  else add_new (f_inode x) name (FT_LNK symgt) 0x1ff (f_uid x) gid.
(** The union of a new node of the type in [mode], if mknod makes it *)
Definition node_data (type major minor : Z) : option FSINodeData :=
  match type with
  | 1 => Some FT_FIFO
  | 2 => Some (FT_CHR major minor)
  | 6 => Some (FT_BLK major minor)
  | 8 => Some (FT_REG new_reg)
  | 12 => Some FT_SOCK
  | _ => None
  end.
Definition fs_mknod (f : Z) (name : list Z) (mode major minor gid : Z) : MF (Z * FSQID) :=
  x ← get_file f;
  match node_data ((mode .& P9_S_IFMT) ≫ 12) major minor with
  | None => mret (- P9_EINVAL, no_qid_yet)
  | Some data =>
      de ← inode_search (f_inode x) name;
      if de is Some _ then mret (- P9_EEXIST, no_qid_yet)
      else add_new (f_inode x) name data mode (f_uid x) gid
  end.
Definition fs_readlink (buf : list Z) (f : Z) : MF (Z * list Z) :=
  x ← get_file f;
  n ← get_inode (f_inode x);
  match i_data n with
  | FT_LNK name =>
      let len := min_int (Z.of_nat (length name)) (Z.of_nat (length buf) - 1) in
      buf ← buf_store 0 (take (Z.to_nat len) name) buf;
      buf ← buf_store len [0] buf;
      mret (0, buf)
  | _ => mret (- P9_EIO, buf)
  end.
(** When the new name is the old one, inode_dirent_delete_no_decref frees the entry whose
    inode is read next. *)
Definition fs_renameat (f : Z) (name : list Z) (new_f : Z) (new_name : list Z) : MF Z :=
  x ← get_file f;
  y ← get_file new_f;
  let p := f_inode x in
  let q := f_inode y in
  de ← inode_search p name;
  match de with
  | None => mret (- P9_ENOENT)
  | Some p0 =>
      de1 ← inode_search q new_name;
      let move (n1 : option Z) : MF Z :=
        _ ← inode_incref p0;
        _ ← inode_dir_add q new_name p0;
        _ ← inode_dirent_delete p name p0;
        _ ← match n1 with Some p1 => inode_decref p1 | None => mret tt end;
        mret 0 in
      match de1 with
      | None => move None
      | Some p1 =>
          n1 ← get_inode p1;
          if i_type (i_data n1) =? 4 then mret (- P9_EEXIST)
          else
            _ ← inode_dirent_delete_no_decref q new_name;
            if (p =? q) && bool_decide (name = new_name) then stop_with StopFault else move (Some p1)
      end
  end.
Definition fs_unlinkat (f : Z) (name : list Z) : MF Z :=
  x ← get_file f;
  let p := f_inode x in
  if decide (name = str "."%string \/ name = str ".."%string) then mret (- P9_ENOENT)
  else
    de ← inode_search p name;
    match de with
    | None => mret (- P9_ENOENT)
    | Some p1 =>
        n ← get_inode p1;
        match i_data n with
        | FT_DIR de_list _ =>
            if negb (is_empty_dir de_list) then mret (- P9_ENOTEMPTY)
            else _ ← flush_dir p1; _ ← inode_dirent_delete p name p1; mret 0
        | _ => _ ← inode_dirent_delete p name p1; mret 0
        end
    end.
(** fs_lock and fs_getlock *)
Definition check_lock (f : Z) : MF Z :=
  x ← get_file f;
  n ← get_inode (f_inode x);
  mret (if negb (is_opened x) then - P9_EPROTO else if negb (i_type (i_data n) =? 8) then - P9_EIO else P9_LOCK_SUCCESS).
Definition fs_lock (f : Z) (lock : FSLock) : MF Z := check_lock f.
Definition fs_getlock (f : Z) (lock : FSLock) : MF (Z * FSLock) := ret ← check_lock f; mret (ret, lock).

(** ** The whole file system *)
Fixpoint end_loop (l : list Z) : MF unit :=
  match l with
  | [] => mret tt
  | p :: l' =>
      n ← get_inode p;
      let data := match i_data n with FT_DIR _ size => FT_DIR [] size | d => d end in
      _ ← set_inode p (n_refcount 0 (n_data data n));
      _ ← inode_free p;
      end_loop l'
  end.
Definition fs_mem_end : MF unit :=
  l ← gets inode_list;
  _ ← end_loop l;
  cache ← gets inode_cache_list;
  assert (bool_decide (cache = [])).
(** The structure after mallocz and the assignments, and the root directory *)
Definition fs_mem_empty : FSDeviceMem :=
  mkFs ∅ ∅ 1 [] 0 (1 ≪ 20) 0 (1 ≪ (30 - FS_BLOCK_SIZE_LOG2)) 1 FS_BLOCK_SIZE_LOG2 (1 ≪ FS_BLOCK_SIZE_LOG2) 0 [] 0.
Definition fs_mem_init : MF unit :=
  _ ← (fun _ => Ok tt fs_mem_empty);
  p ← inode_new (FT_DIR [] 0) 0x1ff 0 0;
  p ← inode_incref p;
  _ ← inode_dir_add p (str "."%string) p;
  p ← inode_incref p;
  _ ← inode_dir_add p (str ".."%string) p;
  modify (set_root p).
End FsMem.
