(* ===== verification/FsMemInv.v ===== *)
(** * The file system in memory: the invariant of the heap, and what each step does to it *)
From S2P Require Export FsMem.
From stdpp Require Import strings.
#[local] Open Scope Z_scope.

(** ** Sums over a heap *)
Definition msum {A} (f : Z -> A -> Z) (m : gmap Z A) : Z := foldr (fun x n => f x.1 x.2 + n) 0 (map_to_list m).
Lemma foldr_perm {A} (f : Z * A -> Z) l l' : l ≡ₚ l' -> foldr (fun x n => f x + n) 0 l = foldr (fun x n => f x + n) 0 l'.
Proof. induction 1; cbn; lia. Qed.
Section Msum.
Context {A : Type} (f : Z -> A -> Z).
Implicit Types m : gmap Z A.
Lemma msum_empty : msum f ∅ = 0.
Proof. unfold msum. by rewrite map_to_list_empty. Qed.
Lemma msum_insert m k x : m !! k = None -> msum f (<[k := x]> m) = f k x + msum f m.
Proof. intros H. unfold msum. by rewrite (foldr_perm (fun x => f x.1 x.2) _ _ (map_to_list_insert m k x H)). Qed.
Lemma msum_delete m k x : m !! k = Some x -> msum f (delete k m) = msum f m - f k x.
Proof.
  intros H. rewrite <- (insert_delete_id m k x H) at 2. rewrite msum_insert by apply lookup_delete_eq. lia.
Qed.
Lemma msum_update m k x y : m !! k = Some x -> msum f (<[k := y]> m) = msum f m - f k x + f k y.
Proof.
  intros H. rewrite <- insert_delete_eq, msum_insert by apply lookup_delete_eq. rewrite (msum_delete m k x H). lia.
Qed.
Lemma msum_nonneg m : (forall k x, m !! k = Some x -> 0 <= f k x) -> 0 <= msum f m.
Proof.
  induction m as [|k x m Hm IH] using map_ind; intros H; [by rewrite msum_empty|]. rewrite msum_insert by done.
  pose proof (H k x (lookup_insert_eq _ _ _)). assert (0 <= msum f m); [|lia]. apply IH. intros j y Hj. apply H.
  rewrite lookup_insert_ne; [done|]. intros ->. by rewrite Hm in Hj.
Qed.
Lemma msum_ge m k x : (forall j y, m !! j = Some y -> 0 <= f j y) -> m !! k = Some x -> f k x <= msum f m.
Proof.
  intros H Hk. pose proof (msum_delete m k x Hk). assert (0 <= msum f (delete k m)); [|lia]. apply msum_nonneg.
  intros j y Hj. apply lookup_delete_Some in Hj as [_ Hj]. by eapply H.
Qed.
End Msum.
Fixpoint occ (p : Z) (l : list Z) : Z := match l with [] => 0 | x :: l' => (if decide (x = p) then 1 else 0) + occ p l' end.
Lemma occ_nonneg p l : 0 <= occ p l.
Proof. induction l as [|x l IH]; cbn; [lia|]. case_decide; lia. Qed.
Lemma occ_app p a b : occ p (a ++ b) = occ p a + occ p b.
Proof. induction a as [|x a IHa]; cbn; [done|]. rewrite IHa. lia. Qed.
Lemma In_occ p l : In p l -> 1 <= occ p l.
Proof.
  induction l as [|x l IHl]; [done|]. cbn. pose proof (occ_nonneg p l). intros [->|Hin]; case_decide; try done; try lia;
    specialize (IHl Hin); lia.
Qed.

Lemma filter_ne_id (p : Z) (l : list Z) : p ∉ l -> filter (fun x => x <> p) l = l.
Proof.
  induction l as [|x l IHl]; [done|]. intros [Hx Hl]%not_elem_of_cons. rewrite filter_cons, decide_True by congruence. by rewrite IHl.
Qed.

(** ** The invariant *)
Definition node_entries (d : FSINodeData) : list (list Z * Z) := match d with FT_DIR l _ => l | _ => [] end.
Definition node_size (d : FSINodeData) : Z := match d with FT_REG r => reg_size r | FT_DIR _ size => size | _ => 0 end.
Definition occ_ent (p : Z) (d : FSINodeData) : Z := occ p (node_entries d).*2.
Lemma occ_ent_nonneg p d : 0 <= occ_ent p d.
Proof. apply occ_nonneg. Qed.
Section Inv.
Context `{cfg : Config} `{fh : !FsHost}.
Local Abbreviation MF := (M FSDeviceMem).
Implicit Types s : FSDeviceMem.

(** The entries with the inode [p], the files on it ([D] is a file that is about to change its
    inode), and all that counts as a use of it: [R] are the references, and [O] the uses, that
    a running operation holds. *)
Definition links s (p : Z) : Z := msum (fun _ n => occ_ent p (i_data n)) (inodes s).
Definition opens (D : option Z) s (p : Z) : Z :=
  msum (fun f x => if decide (f_inode x = p) then (if decide (D = Some f) then 0 else 1) else 0) (files s).
Definition is_root s (p : Z) : Z := if decide (p = root_inode s) then 1 else 0.
Definition uses D (R O : list Z) s p : Z := links s p + is_root s p + occ p R + opens D s p + occ p O.
Definition dir_bytes (l : list (list Z * Z)) : Z := foldr (fun de n => dirent_size de.1 + n) 0 l.
(** The strings of the 9P protocol *)
Definition short_name (name : list Z) : Prop := Z.of_nat (length name) < 65536.
(** A directory has one entry per name and knows its size, an int.  A file has local content,
    in a buffer that is large enough. *)
Definition data_ok (d : FSINodeData) : Prop :=
  match d with
  | FT_DIR l size => NoDup l.*1 /\ Forall short_name l.*1 /\ size = dir_bytes l /\ size < 2 ^ 31
  | FT_REG r => reg_state r = REG_STATE_LOCAL /\ is_fscmd r = false /\ 0 <= reg_size r < 2 ^ (UINTPTR_W - 1) /\
      reg_size r <= Z.of_nat (length (fbuf r))
  | _ => True
  end.
Record fs_inv_at (D : option Z) (R O : list Z) s : Prop := {
  fi_refs : forall p n, inodes s !! p = Some n -> refcount n = links s p + is_root s p + occ p R;
  fi_opens : forall p n, inodes s !! p = Some n -> open_count n = opens D s p + occ p O;
  fi_live : forall p, is_Some (inodes s !! p) <-> 0 < uses D R O s p;
  fi_files : forall f x, files s !! f = Some x -> f_req x = false;
  fi_data : forall p n, inodes s !! p = Some n -> data_ok (i_data n);
  fi_blocks : fs_blocks s = msum (fun _ n => to_blocks s (node_size (i_data n))) (inodes s);
  fi_list : NoDup (inode_list s) /\ (forall p, p ∈ inode_list s <-> is_Some (inodes s !! p)) /\
    inode_count s = Z.of_nat (length (inode_list s));
  fi_fresh : (forall p, is_Some (inodes s !! p) -> p < next_ptr s) /\ (forall f, is_Some (files s !! f) -> f < next_ptr s);
  fi_const : block_size_log2 s = 12 /\ block_size s = 4096 /\ inode_cache_list s = [];
  fi_int : forall p n, inodes s !! p = Some n -> refcount n < 2 ^ 31 /\ open_count n < 2 ^ 31;
}.
Definition fs_inv := fs_inv_at None [] [].
(** Outside [X], the live inodes keep their data; no address comes back. *)
Record frame (X : list Z) s s' : Prop := {
  fr_data : forall q n', q ∉ X -> q < next_ptr s -> inodes s' !! q = Some n' -> exists n, inodes s !! q = Some n /\ i_data n' = i_data n;
  fr_ptr : next_ptr s <= next_ptr s';
  fr_files : files s' = files s;
  fr_root : root_inode s' = root_inode s;
}.
Lemma frame_refl X s : frame X s s.
Proof. split; [|lia|done|done]. intros q n' _ _ H. by exists n'. Qed.
Lemma frame_trans X s1 s2 s3 : frame X s1 s2 -> frame X s2 s3 -> frame X s1 s3.
Proof.
  intros [A1 A2 A3 A4] [B1 B2 B3 B4]. split; [|lia|congruence|congruence]. intros q n' Hq Hlt H.
  destruct (B1 q n' Hq ltac:(lia) H) as (n & Hn & ->). by apply A1.
Qed.
Lemma frame_mono X Y s s' : X ⊆ Y -> frame X s s' -> frame Y s s'.
Proof. intros H [A1 A2 A3 A4]. split; [|done|done|done]. intros q n' Hq. apply A1. set_solver. Qed.

Lemma links_nonneg s p : 0 <= links s p.
Proof. apply msum_nonneg. intros. apply occ_ent_nonneg. Qed.
Lemma opens_nonneg D s p : 0 <= opens D s p.
Proof. apply msum_nonneg. intros k x _. by repeat case_decide. Qed.
Lemma is_root_nonneg s p : 0 <= is_root s p.
Proof. unfold is_root. by case_decide. Qed.
Lemma links_update s p n n' q : inodes s !! p = Some n ->
  msum (fun _ m => occ_ent q (i_data m)) (<[p := n']> (inodes s)) = links s q - occ_ent q (i_data n) + occ_ent q (i_data n').
Proof. apply (msum_update (fun _ m => occ_ent q (i_data m))). Qed.
Lemma to_blocks_const s s' x : block_size_log2 s' = block_size_log2 s -> block_size s' = block_size s -> to_blocks s' x = to_blocks s x.
Proof. intros E1 E2. unfold to_blocks. by rewrite E1, E2. Qed.

(** ** What the primitive steps do to the counts *)
Definition delta (p q v : Z) : Z := if decide (q = p) then v else 0.
(** A node gets new data and counts, and the references and uses that are held make up for it. *)
Lemma inv_update D R O R' O' s p n n' b : fs_inv_at D R O s -> inodes s !! p = Some n ->
  (forall q, occ q R' = occ q R + delta p q (refcount n' - refcount n) + occ_ent q (i_data n) - occ_ent q (i_data n')) ->
  (forall q, occ q O' = occ q O + delta p q (open_count n' - open_count n)) ->
  0 < refcount n' + open_count n' /\ refcount n' < 2 ^ 31 /\ open_count n' < 2 ^ 31 -> data_ok (i_data n') ->
  b = fs_blocks s + to_blocks s (node_size (i_data n')) - to_blocks s (node_size (i_data n)) ->
  fs_inv_at D R' O' (set_inodes (<[p := n']> (inodes s)) (set_blocks b s)).
Proof.
  intros [I1 I2 I3 I4 I5 I6 I7 [I8 I9] I10 I11] Hn HR HO Hpos Hd Hb. pose proof (I1 _ _ Hn) as Hr. pose proof (I2 _ _ Hn) as Ho.
  set (s' := set_inodes _ _).
  assert (forall q, links s' q = links s q - occ_ent q (i_data n) + occ_ent q (i_data n')) as Hl by (intros; by apply links_update).
  assert (forall q, is_root s' q = is_root s q) as Hroot by done.
  assert (forall q, opens D s' q = opens D s q) as Hop by done.
  assert (forall q m, inodes s' !! q = Some m -> (q = p /\ m = n') \/ (q <> p /\ inodes s !! q = Some m)) as Hlk.
  { intros q m. cbn. destruct (decide (q = p)) as [->|Hne]; [rewrite lookup_insert_eq; intros [= <-]; by left|].
    rewrite lookup_insert_ne by done. by right. }
  assert (forall q, is_Some (inodes s' !! q) <-> is_Some (inodes s !! q)) as Hlive.
  { intros q. cbn. destruct (decide (q = p)) as [->|Hne]; [rewrite lookup_insert_eq, Hn; split; by eexists|by rewrite lookup_insert_ne]. }
  split; try done.
  - intros q m Hm. rewrite Hl, Hroot, HR. unfold delta. destruct (Hlk _ _ Hm) as [[-> ->]|[Hne Hq]]; case_decide; try done; [lia|].
    rewrite (I1 _ _ Hq). lia.
  - intros q m Hm. rewrite Hop, HO. unfold delta. destruct (Hlk _ _ Hm) as [[-> ->]|[Hne Hq]]; case_decide; try done; [lia|].
    rewrite (I2 _ _ Hq). lia.
  - intros q. rewrite Hlive. unfold uses. rewrite Hl, Hroot, HR, Hop, HO. unfold delta. case_decide.
    + subst q. split; [lia|]. intros _. by eexists.
    + rewrite (I3 q). unfold uses. by replace (links s q - occ_ent q (i_data n) + occ_ent q (i_data n') + is_root s q +
        (occ q R + 0 + occ_ent q (i_data n) - occ_ent q (i_data n')) + opens D s q + (occ q O + 0))
        with (links s q + is_root s q + occ q R + opens D s q + occ q O) by lia.
  - intros q m Hm. destruct (Hlk _ _ Hm) as [[-> ->]|[_ Hq]]; [done|by eapply I5].
  - cbn. rewrite (msum_update _ _ _ _ n' Hn). cbn in *. rewrite Hb, I6. unfold to_blocks. cbn. lia.
  - cbn. destruct I7 as (A1 & A2 & A3). split; [done|]. split; [|done]. intros q. rewrite A2. symmetry. apply Hlive.
  - split; [|done]. intros q Hq. apply I8. by apply Hlive.
  - intros q m Hm. destruct (Hlk _ _ Hm) as [[-> ->]|[_ Hq]]; [lia|by eapply I11].
Qed.
Lemma set_blocks_same s v : set_inodes v (set_blocks (fs_blocks s) s) = set_inodes v s.
Proof. done. Qed.
(** The usual case: the data, and so the blocks, stay. *)
Lemma inv_counts D R O R' O' s p n n' : fs_inv_at D R O s -> inodes s !! p = Some n -> i_data n' = i_data n ->
  (forall q, occ q R' = occ q R + delta p q (refcount n' - refcount n)) ->
  (forall q, occ q O' = occ q O + delta p q (open_count n' - open_count n)) ->
  0 < refcount n' + open_count n' /\ refcount n' < 2 ^ 31 /\ open_count n' < 2 ^ 31 ->
  fs_inv_at D R' O' (set_inodes (<[p := n']> (inodes s)) s).
Proof.
  intros I Hn E HR HO Hpos. rewrite <- set_blocks_same. eapply inv_update; try done; rewrite ?E.
  - intros q. rewrite HR. lia.
  - by eapply fi_data.
  - lia.
Qed.
(** The last use goes, and the node with it. *)
Lemma inv_delete D R O R' O' s p n : fs_inv_at D R O s -> inodes s !! p = Some n -> node_entries (i_data n) = [] ->
  (forall q, occ q R' = occ q R - delta p q (refcount n)) -> (forall q, occ q O' = occ q O - delta p q (open_count n)) ->
  fs_inv_at D R' O' (set_inodes (delete p (inodes s)) (set_inode_list (filter (fun x => x <> p) (inode_list s)) (inode_count s - 1)
    (set_blocks (fs_blocks s - to_blocks s (node_size (i_data n))) s))).
Proof.
  intros [I1 I2 I3 I4 I5 I6 I7 [I8 I9] I10 I11] Hn He HR HO. pose proof (I1 _ _ Hn) as Hr. pose proof (I2 _ _ Hn) as Ho.
  set (s' := set_inodes _ _).
  assert (forall q, links s' q = links s q) as Hl.
  { intros q. unfold links. cbn. rewrite (msum_delete _ _ _ _ Hn). unfold occ_ent at 2. rewrite He. cbn. lia. }
  assert (forall q, is_root s' q = is_root s q) as Hroot by done.
  assert (forall q, opens D s' q = opens D s q) as Hop by done.
  assert (forall q m, inodes s' !! q = Some m -> q <> p /\ inodes s !! q = Some m) as Hlk.
  { intros q m. cbn. intros [H1 H2]%lookup_delete_Some. split; [congruence|done]. }
  assert (forall q, is_Some (inodes s' !! q) <-> q <> p /\ is_Some (inodes s !! q)) as Hlive.
  { intros q. cbn. destruct (decide (q = p)) as [->|Hne].
    - rewrite lookup_delete_eq. split; [by intros [??]|tauto].
    - rewrite lookup_delete_ne by done. tauto. }
  split; try done.
  - intros q m [Hne Hq]%Hlk. rewrite Hl, Hroot, HR, (I1 _ _ Hq). unfold delta. rewrite decide_False by done. lia.
  - intros q m [Hne Hq]%Hlk. rewrite Hop, HO, (I2 _ _ Hq). unfold delta. rewrite decide_False by done. lia.
  - intros q. rewrite Hlive. unfold uses. rewrite Hl, Hroot, HR, Hop, HO. unfold delta. case_decide as Hq.
    + rewrite Hq. split; [tauto|lia].
    + rewrite (I3 q). unfold uses. rewrite !Z.sub_0_r. tauto.
  - intros q m [_ Hq]%Hlk. by eapply I5.
  - cbn. rewrite (msum_delete _ _ _ _ Hn), I6. unfold to_blocks. cbn. lia.
  - cbn. destruct I7 as (A1 & A2 & A3). split; [by apply NoDup_filter|]. split.
    + intros q. rewrite list_elem_of_filter, A2. symmetry. apply Hlive.
    + assert (p ∈ inode_list s) as Hp by (apply A2; by eexists). rewrite A3. clear -A1 Hp.
      induction (inode_list s) as [|x l IHl]; [by apply not_elem_of_nil in Hp|]. apply NoDup_cons in A1 as [Hx Hnd].
      rewrite filter_cons. destruct (decide (x = p)) as [->|Hne].
      * rewrite decide_False by (by intros ?). rewrite filter_ne_id by done. cbn. lia.
      * rewrite decide_True by done. cbn. apply elem_of_cons in Hp as [?|Hp]; [congruence|]. specialize (IHl Hnd Hp). lia.
  - split; [|done]. intros q Hq. apply I8. by apply Hlive.
  - intros q m [_ Hq]%Hlk. by eapply I11.
Qed.
(** A new node *)
Lemma inv_new D R O s n : fs_inv_at D R O s -> refcount n = 1 -> open_count n = 0 -> node_entries (i_data n) = [] ->
  data_ok (i_data n) -> to_blocks s (node_size (i_data n)) = 0 -> forall k,
  fs_inv_at D (next_ptr s :: R) O (set_inode_list (next_ptr s :: inode_list s) (inode_count s + 1)
    (set_inodes (<[next_ptr s := n]> (inodes s)) (set_num_alloc k (set_next_ptr (next_ptr s + 1) s)))).
Proof.
  intros [I1 I2 I3 I4 I5 I6 I7 [I8 I9] I10 I11] Hr Ho He Hd Hb k. set (p := next_ptr s). set (s' := set_inode_list _ _ _).
  assert (inodes s !! p = None) as Hp.
  { destruct (inodes s !! p) eqn:E; [|done]. assert (p < next_ptr s); [|unfold p in *; lia]. apply I8. by eexists. }
  assert (uses D R O s p = 0) as Hu.
  { destruct (Z.lt_ge_cases 0 (uses D R O s p)) as [Hlt|Hge]; [apply I3 in Hlt; rewrite Hp in Hlt; by destruct Hlt|].
    unfold uses in *. pose proof (links_nonneg s p). pose proof (opens_nonneg D s p). pose proof (is_root_nonneg s p).
    pose proof (occ_nonneg p R). pose proof (occ_nonneg p O). lia. }
  assert (links s p = 0 /\ is_root s p = 0 /\ occ p R = 0 /\ opens D s p = 0 /\ occ p O = 0) as (U1 & U2 & U3 & U4 & U5).
  { unfold uses in *. pose proof (links_nonneg s p). pose proof (opens_nonneg D s p). pose proof (is_root_nonneg s p).
    pose proof (occ_nonneg p R). pose proof (occ_nonneg p O). lia. }
  assert (forall q, links s' q = links s q) as Hl.
  { intros q. unfold links. cbn. rewrite (msum_insert _ _ _ _ Hp). unfold occ_ent at 1. rewrite He. done. }
  assert (forall q, is_root s' q = is_root s q) as Hroot by done.
  assert (forall q, opens D s' q = opens D s q) as Hop by done.
  assert (forall q m, inodes s' !! q = Some m -> (q = p /\ m = n) \/ (q <> p /\ inodes s !! q = Some m)) as Hlk.
  { intros q m. cbn. fold p. destruct (decide (q = p)) as [->|Hne]; [rewrite lookup_insert_eq; intros [= <-]; by left|].
    rewrite lookup_insert_ne by done. by right. }
  assert (forall q, is_Some (inodes s' !! q) <-> q = p \/ is_Some (inodes s !! q)) as Hlive.
  { intros q. cbn. fold p. destruct (decide (q = p)) as [->|Hne]; [rewrite lookup_insert_eq; split; [tauto|by eexists]|].
    rewrite lookup_insert_ne by done. tauto. }
  split; try done.
  - intros q m Hm. rewrite Hl, Hroot. cbn [occ]. destruct (Hlk _ _ Hm) as [[-> ->]|[Hne Hq]]; case_decide; try done; [lia|].
    rewrite (I1 _ _ Hq). lia.
  - intros q m Hm. rewrite Hop. destruct (Hlk _ _ Hm) as [[-> ->]|[Hne Hq]]; [lia|]. by rewrite (I2 _ _ Hq).
  - intros q. rewrite Hlive. unfold uses. rewrite Hl, Hroot, Hop. cbn [occ]. case_decide as Hq.
    + rewrite <- Hq. split; [lia|tauto].
    + rewrite (I3 q). unfold uses. rewrite Z.add_0_l. split; [intros [->|?]; [congruence|done]|tauto].
  - intros q m Hm. destruct (Hlk _ _ Hm) as [[-> ->]|[_ Hq]]; [done|by eapply I5].
  - cbn. rewrite (msum_insert _ _ _ _ Hp), I6. unfold to_blocks in *. cbn. lia.
  - cbn. destruct I7 as (A1 & A2 & A3). split; [apply NoDup_cons; split; [|done]|split].
    + intros Hin%A2. fold p in Hin. rewrite Hp in Hin. by destruct Hin.
    + intros q. rewrite elem_of_cons, A2. symmetry. apply Hlive.
    + cbn. lia.
  - split; cbn; [|intros f Hf; apply I9 in Hf; lia]. intros q [->|Hq]%Hlive; [unfold p; lia|]. apply I8 in Hq. lia.
  - intros q m Hm. destruct (Hlk _ _ Hm) as [[-> ->]|[_ Hq]]; [rewrite Hr, Ho; lia|by eapply I11].
Qed.
(** The table of files changes and the uses that are held make up for it. *)
Lemma inv_files D D' R O O' s m k : fs_inv_at D R O s ->
  (forall q, opens D' (set_files m s) q + occ q O' = opens D s q + occ q O) ->
  (forall f x, m !! f = Some x -> f_req x = false /\ f < k) -> next_ptr s <= k ->
  fs_inv_at D' R O' (set_files m (set_next_ptr k s)).
Proof.
  intros [I1 I2 I3 I4 I5 I6 I7 [I8 I9] I10 I11] Ho Hm Hk. split; try done.
  - intros p n Hn. rewrite (I2 _ _ Hn). symmetry. apply Ho.
  - intros p. cbn. rewrite (I3 p). unfold uses. specialize (Ho p). change (links (set_files m (set_next_ptr k s)) p) with (links s p).
    change (is_root (set_files m (set_next_ptr k s)) p) with (is_root s p).
    change (opens D' (set_files m (set_next_ptr k s)) p) with (opens D' (set_files m s) p). lia.
  - intros f x Hf. by apply (Hm f x).
  - split; cbn; [intros p Hp; apply I8 in Hp; lia|]. intros f [x Hx]. by apply (Hm f x).
Qed.
End Inv.

(** * What each step does to the invariant *)
(** The ways to stop are a failed assertion and a count or a size at its limit. *)
Definition may_stop (r : stop) : Prop := r = StopAssert \/ r = StopOverflow.
Lemma may_assert : may_stop StopAssert.
Proof. by left. Qed.
Lemma may_overflow : may_stop StopOverflow.
Proof. by right. Qed.
Section Ops.
Context `{cfg : Config} `{fh : !FsHost}.
Local Abbreviation MF := (M FSDeviceMem).
Implicit Types s : FSDeviceMem.
Local Abbreviation wpa m := (wp m may_stop).

Lemma wp_assert {E : stop -> Prop} b (Q : unit -> FSDeviceMem -> Prop) s : (b = true -> Q tt s) -> (b = false -> E StopAssert) -> wp (assert b) E Q s.
Proof. destruct b; intros H1 H2; [by apply H1|by apply H2]. Qed.
Lemma wp_assert_true {E : stop -> Prop} b (Q : unit -> FSDeviceMem -> Prop) s : b = true -> Q tt s -> wp (assert b) E Q s.
Proof. by intros ->. Qed.
Lemma wp_as_int {E : stop -> Prop} x (Q : Z -> FSDeviceMem -> Prop) s : (- 2 ^ 31 <= x < 2 ^ 31 -> Q x s) ->
  (~ - 2 ^ 31 <= x < 2 ^ 31 -> E StopOverflow) -> wp (as_int x) E Q s.
Proof.
  intros H1 H2. unfold as_int. destruct (andb _ _) eqn:Eb; [apply wp_ret, H1; lia|apply wp_stop, H2; lia].
Qed.
Lemma wp_get_inode {X} p n (Q : FSINode -> FSDeviceMem -> Prop) s : inodes s !! p = Some n -> Q n s -> wp (get_inode p) X Q s.
Proof. intros H HQ. unfold get_inode, wp, mbind, M_bind, gets. by rewrite H. Qed.
Lemma wp_set_inode {X} p n (Q : unit -> FSDeviceMem -> Prop) s : Q tt (set_inodes (<[p := n]> (inodes s)) s) -> wp (set_inode p n) X Q s.
Proof. done. Qed.
Lemma wp_upd_inode {X} p g n (Q : unit -> FSDeviceMem -> Prop) s : inodes s !! p = Some n ->
  Q tt (set_inodes (<[p := g n]> (inodes s)) s) -> wp (upd_inode p g) X Q s.
Proof. intros H HQ. apply wp_bind. eapply wp_get_inode; [done|]. by apply wp_set_inode. Qed.
Lemma wp_get_file {X} f x (Q : FSFile -> FSDeviceMem -> Prop) s : files s !! f = Some x -> Q x s -> wp (get_file f) X Q s.
Proof. intros H HQ. unfold get_file, wp, mbind, M_bind, gets. by rewrite H. Qed.
Lemma wp_upd_file {X} f g x (Q : unit -> FSDeviceMem -> Prop) s : files s !! f = Some x ->
  Q tt (set_files (<[f := g x]> (files s)) s) -> wp (upd_file f g) X Q s.
Proof. intros H HQ. apply wp_bind. by eapply wp_get_file. Qed.

(** Facts of a state with the invariant *)
Section State.
Context D R O s (I : fs_inv_at D R O s).
Lemma use_live p : 0 < uses D R O s p -> exists n, inodes s !! p = Some n.
Proof using I. intros H. apply (fi_live _ _ _ _ I) in H. exact H. Qed.
Lemma ref_live p : In p R -> exists n, inodes s !! p = Some n.
Proof using I.
  intros H%In_occ. apply use_live. unfold uses. pose proof (links_nonneg s p). pose proof (opens_nonneg D s p).
  pose proof (is_root_nonneg s p). pose proof (occ_nonneg p O). lia.
Qed.
Lemma open_live p : In p O -> exists n, inodes s !! p = Some n.
Proof using I.
  intros H%In_occ. apply use_live. unfold uses. pose proof (links_nonneg s p). pose proof (opens_nonneg D s p).
  pose proof (is_root_nonneg s p). pose proof (occ_nonneg p R). lia.
Qed.
Lemma opens_file f x : files s !! f = Some x -> D <> Some f -> 1 <= opens D s (f_inode x).
Proof using.
  intros H HD. pose proof (msum_ge (fun f y => if decide (f_inode y = f_inode x) then (if decide (D = Some f) then 0 else 1) else 0)
    (files s) f x) as Hge. cbv beta in Hge. rewrite decide_True, decide_False in Hge by done. apply Hge; [|done].
  intros j y _. by repeat case_decide.
Qed.
Lemma file_live f x : files s !! f = Some x -> D <> Some f -> exists n, inodes s !! f_inode x = Some n.
Proof using I.
  intros H HD. apply use_live. pose proof (opens_file f x H HD). unfold uses. pose proof (links_nonneg s (f_inode x)).
  pose proof (is_root_nonneg s (f_inode x)). pose proof (occ_nonneg (f_inode x) R). pose proof (occ_nonneg (f_inode x) O). lia.
Qed.
Lemma entry_links q n p : inodes s !! q = Some n -> p ∈ (node_entries (i_data n)).*2 -> 1 <= links s p.
Proof using.
  intros H Hp%list_elem_of_In%In_occ. pose proof (msum_ge (fun _ m => occ_ent p (i_data m)) (inodes s) q n) as Hge.
  transitivity (occ_ent p (i_data n)); [done|]. apply Hge; [intros; apply occ_ent_nonneg|done].
Qed.
Lemma entry_live q n p : inodes s !! q = Some n -> p ∈ (node_entries (i_data n)).*2 -> exists n', inodes s !! p = Some n'.
Proof using I.
  intros H Hp. apply use_live. pose proof (entry_links q n p H Hp). unfold uses. pose proof (opens_nonneg D s p).
  pose proof (is_root_nonneg s p). pose proof (occ_nonneg p R). pose proof (occ_nonneg p O). lia.
Qed.
Lemma root_live : exists n, inodes s !! root_inode s = Some n.
Proof using I.
  apply use_live. unfold uses. pose proof (links_nonneg s (root_inode s)). pose proof (opens_nonneg D s (root_inode s)).
  pose proof (occ_nonneg (root_inode s) R). pose proof (occ_nonneg (root_inode s) O). unfold is_root. rewrite decide_True by done. lia.
Qed.
Lemma node_nonneg p n : inodes s !! p = Some n ->
  0 <= refcount n /\ 0 <= open_count n /\ 0 < refcount n + open_count n /\ refcount n < 2 ^ 31 /\ open_count n < 2 ^ 31.
Proof using I.
  intros H. pose proof (fi_int _ _ _ _ I _ _ H) as Hint. revert Hint. rewrite (fi_refs _ _ _ _ I _ _ H), (fi_opens _ _ _ _ I _ _ H). pose proof (links_nonneg s p). pose proof (opens_nonneg D s p).
  pose proof (is_root_nonneg s p). pose proof (occ_nonneg p R). pose proof (occ_nonneg p O).
  assert (0 < uses D R O s p) by (apply (fi_live _ _ _ _ I); by eexists). unfold uses in *. lia.
Qed.
Lemma node_blocks p n : inodes s !! p = Some n -> to_blocks s (node_size (i_data n)) <= fs_blocks s.
Proof using I.
  intros H. rewrite (fi_blocks _ _ _ _ I). apply (msum_ge (fun _ m => to_blocks s (node_size (i_data m))) (inodes s) p n); [|done].
  intros j y _. unfold to_blocks. apply Z.shiftr_nonneg, fits_wrap. lia.
Qed.
Lemma node_counted p n : inodes s !! p = Some n -> 1 <= inode_count s.
Proof using I.
  intros H. destruct (fi_list _ _ _ _ I) as (_ & L & ->). assert (p ∈ inode_list s) as Hp by (apply L; by eexists).
  destruct (inode_list s); [by apply not_elem_of_nil in Hp|cbn; lia].
Qed.
(** Entries of two nodes *)
Lemma entry_links2 q n q' n' p : q <> q' -> inodes s !! q = Some n -> inodes s !! q' = Some n' ->
  p ∈ (node_entries (i_data n)).*2 -> p ∈ (node_entries (i_data n')).*2 -> 2 <= links s p.
Proof using.
  intros Hne H H' Hp%list_elem_of_In%In_occ Hp'%list_elem_of_In%In_occ. unfold links.
  pose proof (msum_delete (fun _ m => occ_ent p (i_data m)) (inodes s) q n H).
  pose proof (msum_ge (fun _ m => occ_ent p (i_data m)) (delete q (inodes s)) q' n') as Hge. cbv beta in Hge.
  specialize (Hge ltac:(intros; apply occ_ent_nonneg)). rewrite lookup_delete_ne in Hge by done. specialize (Hge H').
  unfold occ_ent in *. lia.
Qed.
End State.
Lemma find_entry_In l name p : find_entry l name = Some p -> (name, p) ∈ l.
Proof.
  induction l as [|[x q] l IHl]; [done|]. cbn. case_decide as Hx; [intros [= ->]; rewrite Hx; apply list_elem_of_here|].
  intros Hf. apply list_elem_of_further. by apply IHl.
Qed.
Lemma find_entry_snd l name p : find_entry l name = Some p -> p ∈ l.*2.
Proof. intros H%find_entry_In. by apply (list_elem_of_fmap_2 snd) in H. Qed.
Lemma find_entry_None l name : find_entry l name = None -> name ∉ l.*1.
Proof.
  induction l as [|[x q] l IHl]; [intros _; apply not_elem_of_nil|]. cbn. case_decide; [done|]. intros Hf. apply not_elem_of_cons. auto.
Qed.

(** ** References and uses *)
Lemma node_frame p n n' s : inodes s !! p = Some n -> i_data n' = i_data n -> frame [] s (set_inodes (<[p := n']> (inodes s)) s).
Proof.
  intros Hn E. split; [|cbn; lia|done|done]. intros q m _ _. cbn. destruct (decide (q = p)) as [->|Hne].
  - rewrite lookup_insert_eq. intros [= <-]. by exists n.
  - rewrite lookup_insert_ne by done. intros H. by exists m.
Qed.
Lemma incref_wp {E : stop -> Prop} D R O s p n : fs_inv_at D R O s -> inodes s !! p = Some n -> (refcount n = 2 ^ 31 - 1 -> E StopOverflow) ->
  wp (inode_incref p) E (fun a s' => a = p /\ fs_inv_at D (p :: R) O s' /\ frame [] s s' /\
    inodes s' = <[p := n_refcount (refcount n + 1) n]> (inodes s)) s.
Proof.
  intros I Hn HE. pose proof (node_nonneg _ _ _ _ I _ _ Hn). apply wp_bind. eapply wp_get_inode; [done|].
  apply wp_bind, wp_as_int; [|intros; apply HE; lia]. intros Hint. apply wp_bind, wp_set_inode, wp_ret. split; [done|].
  split; [|split; [by eapply node_frame|done]]. eapply inv_counts; [done|done|done| | |cbn; lia].
  - intros q. cbn. unfold delta. repeat case_decide; lia || congruence.
  - intros q. cbn. unfold delta. repeat case_decide; lia || congruence.
Qed.
Lemma incref_ok D R O s p n : fs_inv_at D R O s -> inodes s !! p = Some n ->
  wpa (inode_incref p) (fun a s' => a = p /\ fs_inv_at D (p :: R) O s' /\ frame [] s s') s.
Proof. intros I Hn. eapply wp_mono; [eapply incref_wp; [done|done|by right]|]. by intros a s' (? & ? & ? & _). Qed.
Lemma inc_open_wp {E : stop -> Prop} D R O s p n : fs_inv_at D R O s -> inodes s !! p = Some n -> (open_count n = 2 ^ 31 - 1 -> E StopOverflow) ->
  wp (inode_inc_open p) E (fun a s' => a = p /\ fs_inv_at D R (p :: O) s' /\ frame [] s s') s.
Proof.
  intros I Hn HE. pose proof (node_nonneg _ _ _ _ I _ _ Hn). apply wp_bind. eapply wp_get_inode; [done|].
  apply wp_bind, wp_as_int; [|intros; apply HE; lia]. intros Hint. apply wp_bind, wp_set_inode, wp_ret. split; [done|].
  split; [|by eapply node_frame]. eapply inv_counts; [done|done|done| | |cbn; lia].
  - intros q. cbn. unfold delta. repeat case_decide; lia || congruence.
  - intros q. cbn. unfold delta. repeat case_decide; lia || congruence.
Qed.
Lemma inc_open_ok D R O s p n : fs_inv_at D R O s -> inodes s !! p = Some n ->
  wpa (inode_inc_open p) (fun a s' => a = p /\ fs_inv_at D R (p :: O) s' /\ frame [] s s') s.
Proof. intros I Hn. eapply inc_open_wp; [done|done|by right]. Qed.
(** Free of a node whose counts are zero; it is a file with local content, or an empty directory. *)
Lemma free_ok {E : stop -> Prop} s p n (Q : unit -> FSDeviceMem -> Prop) : inodes s !! p = Some n -> refcount n = 0 -> open_count n = 0 -> data_ok (i_data n) ->
  match i_data n with FT_REG r => to_blocks s (reg_size r) | _ => 0 end <= fs_blocks s -> 1 <= inode_count s ->
  (node_entries (i_data n) <> [] -> E StopAssert) ->
  (node_entries (i_data n) = [] ->
   Q tt (set_inodes (delete p (inodes s)) (set_inode_list (filter (fun x => x <> p) (inode_list s)) (inode_count s - 1)
     (set_blocks (fs_blocks s - match i_data n with FT_REG r => to_blocks s (reg_size r) | _ => 0 end) s)))) ->
  wp (inode_free p) E Q s.
Proof.
  intros Hn Hr Ho Hd Hb Hk HE HQ. apply wp_bind. eapply wp_get_inode; [done|]. rewrite Hr, Ho. apply wp_bind, wp_assert_true; [done|].
  apply wp_bind, wp_assert_true; [done|].
  destruct (i_data n) as [r|l size| | | | |] eqn:Ed.
  2: { apply wp_bind, wp_assert; [|intros Hne%bool_decide_eq_false; by apply HE]. intros ->%bool_decide_eq_true.
       apply wp_bind, wp_modify. apply wp_bind, wp_gets, wp_assert_true; [cbn; lia|].
       specialize (HQ eq_refl). rewrite Z.sub_0_r in HQ. exact HQ. }
  all: try (specialize (HQ eq_refl); rewrite Z.sub_0_r in HQ; apply wp_bind, wp_ret, wp_bind, wp_modify, wp_bind, wp_gets, wp_assert_true;
    [cbn; lia|exact HQ]).
  destruct Hd as (Hst & _). specialize (HQ eq_refl). apply wp_bind. apply wp_bind, wp_modify. apply wp_bind. apply wp_bind, wp_gets.
  apply wp_assert_true; [cbn; lia|]. rewrite Hst. apply wp_ret, wp_bind, wp_modify, wp_bind, wp_gets, wp_assert_true; [cbn; lia|]. by rewrite Z.add_opp_r.
Qed.
Lemma to_blocks_0 D R O s : fs_inv_at D R O s -> to_blocks s 0 = 0.
Proof. intros I. destruct (fi_const _ _ _ _ I) as (E1 & E2 & _). unfold to_blocks. by rewrite E1, E2. Qed.
Lemma free_blocks D R O s p n : fs_inv_at D R O s -> inodes s !! p = Some n -> node_entries (i_data n) = [] ->
  match i_data n with FT_REG r => to_blocks s (reg_size r) | _ => 0 end = to_blocks s (node_size (i_data n)).
Proof.
  intros I Hn He. pose proof (to_blocks_0 _ _ _ _ I) as H0. pose proof (fi_data _ _ _ _ I _ _ Hn) as Hd.
  destruct (i_data n) as [r|l size| | | | |]; try done. cbn in *. subst l. destruct Hd as (_ & _ & -> & _). done.
Qed.
Lemma delete_frame s p l k b : frame [] s (set_inodes (delete p (inodes s)) (set_inode_list l k (set_blocks b s))).
Proof. split; [|cbn; lia|done|done]. intros q m _ _. cbn. intros [_ H]%lookup_delete_Some. by exists m. Qed.
(** A count of [p] goes down by one, and the node is freed with the last one. *)
Lemma drop_ok {E : stop -> Prop} D R O R' O' s p n n' (b : bool) : fs_inv_at D R O s -> inodes s !! p = Some n -> i_data n' = i_data n ->
  (forall q, occ q R' = occ q R + delta p q (refcount n' - refcount n)) ->
  (forall q, occ q O' = occ q O + delta p q (open_count n' - open_count n)) ->
  0 <= refcount n' < 2 ^ 31 -> 0 <= open_count n' < 2 ^ 31 -> b = (refcount n' <=? 0) && (open_count n' <=? 0) ->
  (refcount n' = 0 -> open_count n' = 0 -> node_entries (i_data n) <> [] -> E StopAssert) ->
  wp (if b then inode_free p else mret tt) E (fun _ s' => fs_inv_at D R' O' s' /\ frame [] s s' /\ forall q, q <> p -> inodes s' !! q = inodes s !! q)
    (set_inodes (<[p := n']> (inodes s)) s).
Proof.
  intros I Hn Ed HR HO Hr Ho -> HE. apply wp_if; intros Hb.
  - pose proof (node_counted _ _ _ _ I _ _ Hn). pose proof (node_blocks _ _ _ _ I _ _ Hn) as Hbl.
    assert (0 <= to_blocks s (node_size (i_data n))) by (unfold to_blocks; apply Z.shiftr_nonneg, fits_wrap; lia).
    eapply (free_ok _ p n'); [apply lookup_insert_eq|lia|lia|rewrite Ed; by eapply fi_data| |done|rewrite Ed; apply HE; lia|].
    { rewrite Ed. destruct (i_data n); cbn in *; (exact Hbl || lia). }
    intros He. cbn [inodes set_inodes].
    rewrite delete_insert_eq, Ed. rewrite Ed in He.
    assert (fs_inv_at D R' O' (set_inodes (delete p (inodes s)) (set_inode_list (filter (fun x => x <> p) (inode_list s)) (inode_count s - 1)
      (set_blocks (fs_blocks s - to_blocks s (node_size (i_data n))) s)))) as I'.
    { eapply inv_delete; [done|done|done| |]; intros q; [rewrite HR|rewrite HO]; unfold delta; case_decide; lia. }
    rewrite <- (free_blocks _ _ _ _ _ _ I Hn He) in I'. split; [exact I'|]. split; [exact (delete_frame s p _ _ _)|]. intros q Hq. cbn. by rewrite lookup_delete_ne.
  - apply wp_ret. split; [|split; [by eapply node_frame|intros q Hq; cbn; by rewrite lookup_insert_ne]]. eapply inv_counts; try done. lia.
Qed.
Lemma decref_wp {E : stop -> Prop} D R O s p : fs_inv_at D (p :: R) O s ->
  (forall n, inodes s !! p = Some n -> refcount n = 1 -> open_count n = 0 -> node_entries (i_data n) <> [] -> E StopAssert) ->
  wp (inode_decref p) E (fun _ s' => fs_inv_at D R O s' /\ frame [] s s' /\ forall q, q <> p -> inodes s' !! q = inodes s !! q) s.
Proof.
  intros I HE. destruct (ref_live _ _ _ _ I p) as [n Hn]; [by left|]. pose proof (node_nonneg _ _ _ _ I _ _ Hn).
  assert (1 <= refcount n) as Hr.
  { rewrite (fi_refs _ _ _ _ I _ _ Hn). pose proof (links_nonneg s p). pose proof (is_root_nonneg s p). pose proof (occ_nonneg p R).
    cbn. rewrite decide_True by done. lia. }
  apply wp_bind. eapply wp_get_inode; [done|]. apply wp_bind, wp_assert_true; [lia|]. apply wp_bind, wp_set_inode. cbv beta.
  eapply drop_ok; [exact I|done|done| | |cbn; lia|cbn; lia|done|cbn; intros; eapply HE; [done|lia|done|done]];
    intros q; cbn; unfold delta; repeat case_decide; lia || congruence.
Qed.
Lemma decref_ok D R O s p : fs_inv_at D (p :: R) O s ->
  wpa (inode_decref p) (fun _ s' => fs_inv_at D R O s' /\ frame [] s s' /\ forall q, q <> p -> inodes s' !! q = inodes s !! q) s.
Proof. intros I. apply decref_wp; [done|by left]. Qed.
Lemma dec_open_wp {E : stop -> Prop} D R O s p : fs_inv_at D R (p :: O) s ->
  (forall n, inodes s !! p = Some n -> refcount n = 0 -> open_count n = 1 -> node_entries (i_data n) <> [] -> E StopAssert) ->
  wp (inode_dec_open p) E (fun _ s' => fs_inv_at D R O s' /\ frame [] s s' /\ forall q, q <> p -> inodes s' !! q = inodes s !! q) s.
Proof.
  intros I HE. destruct (open_live _ _ _ _ I p) as [n Hn]; [by left|]. pose proof (node_nonneg _ _ _ _ I _ _ Hn).
  assert (1 <= open_count n) as Hr.
  { rewrite (fi_opens _ _ _ _ I _ _ Hn). pose proof (opens_nonneg D s p). pose proof (occ_nonneg p O). cbn. rewrite decide_True by done. lia. }
  apply wp_bind. eapply wp_get_inode; [done|]. apply wp_bind, wp_assert_true; [lia|]. apply wp_bind, wp_set_inode. cbv beta.
  eapply drop_ok; [exact I|done|done| | |cbn; lia|cbn; lia|cbn; apply andb_comm|cbn; intros; eapply HE; [done|done|lia|done]];
    intros q; cbn; unfold delta; repeat case_decide; lia || congruence.
Qed.
Lemma dec_open_ok D R O s p : fs_inv_at D R (p :: O) s ->
  wpa (inode_dec_open p) (fun _ s' => fs_inv_at D R O s' /\ frame [] s s' /\ forall q, q <> p -> inodes s' !! q = inodes s !! q) s.
Proof. intros I. apply dec_open_wp; [done|by left]. Qed.
(** ** New nodes and entries *)
Definition new_data (d : FSINodeData) : Prop :=
  match d with FT_REG r => r = new_reg | FT_DIR l size => l = [] /\ size = 0 | _ => True end.
Lemma new_data_ok d : new_data d -> node_entries d = [] /\ data_ok d /\ node_size d = 0.
Proof.
  destruct d; cbn; try done.
  - intros ->. split; [done|]. split; [|done]. cbn. split; [done|]. split; [done|]. pose proof UINTPTR_W_pos. split; [|done].
    split; [done|]. by apply Z.pow_pos_nonneg; lia.
  - intros [-> ->]. split; [done|]. split; [|done]. split; [constructor|]. split; [constructor|done].
Qed.
Lemma inode_new_eq {X} d mode uid gid (Q : Z -> FSDeviceMem -> Prop) s : wp (inode_new d mode uid gid) X Q s = Q (next_ptr s)
  (set_inode_list (next_ptr s :: inode_list s) (inode_count s + 1) (set_inodes (<[next_ptr s :=
     let t := time_now (set_num_alloc (u64 (inode_num_alloc s + 1)) (set_next_ptr (next_ptr s + 1) s)) in
     mkINode (inode_num_alloc s) 1 0 d (mode .& 0xfff) uid gid t t]> (inodes s))
     (set_num_alloc (u64 (inode_num_alloc s + 1)) (set_next_ptr (next_ptr s + 1) s)))).
Proof. done. Qed.
Lemma new_wp {E : stop -> Prop} D R O s d mode uid gid : fs_inv_at D R O s -> new_data d ->
  wp (inode_new d mode uid gid) E (fun p s' => fs_inv_at D (p :: R) O s' /\ frame [] s s' /\ next_ptr s <= p /\
    (exists n, inodes s' !! p = Some n /\ i_data n = d /\ refcount n = 1 /\ open_count n = 0) /\
    forall q, q <> p -> inodes s' !! q = inodes s !! q) s.
Proof.
  intros I Hd. apply new_data_ok in Hd as (He & Hok & Hsz). rewrite inode_new_eq. split; [|split; [|split; [|split]]].
  - eapply inv_new; try done. cbn [i_data]. rewrite Hsz. by eapply to_blocks_0.
  - split; [|cbn; lia|done|done]. intros q m _ Hq. cbn. rewrite lookup_insert_ne by lia. intros H. by exists m.
  - done.
  - eexists. split; [apply lookup_insert_eq|done].
  - intros q Hq. cbn. by rewrite lookup_insert_ne.
Qed.
Lemma new_ok D R O s d mode uid gid : fs_inv_at D R O s -> new_data d ->
  wpa (inode_new d mode uid gid) (fun p s' => fs_inv_at D (p :: R) O s' /\ frame [] s s' /\ next_ptr s <= p /\
    exists n, inodes s' !! p = Some n /\ i_data n = d) s.
Proof.
  intros I Hd. eapply wp_mono; [by apply (new_wp D R O)|]. cbv beta. intros p s' (? & ? & ? & (n & ? & ? & _) & _).
  split; [done|]. split; [done|]. split; [done|]. by exists n.
Qed.
Lemma data_frame X p n n' b s : p ∈ X -> inodes s !! p = Some n -> frame X s (set_inodes (<[p := n']> (inodes s)) (set_blocks b s)).
Proof.
  intros Hp Hn. split; [|cbn; lia|done|done]. intros q m Hq _. cbn. rewrite lookup_insert_ne by (intros ->; done). intros H. by exists m.
Qed.
Lemma dir_bytes_app l l' : dir_bytes (l ++ l') = dir_bytes l + dir_bytes l'.
Proof. unfold dir_bytes. induction l as [|x l IHl]; cbn; [done|]. rewrite IHl. lia. Qed.
Lemma dirent_size_bounds name : short_name name -> 16 < dirent_size name <= 65600.
Proof.
  unfold short_name, dirent_size, sizeof_dirent. intros Hl. pose proof UINTPTR_W_ok as HW.
  rewrite (swrap_id 32 (Z.of_nat (length name))) by lia. rewrite swrap_id; [|lia|change (2 ^ (32 - 1)) with (2 ^ 31)]; destruct HW as [HW|HW]; rewrite HW;
    [change (32 / 2) with 16|change (64 / 2) with 32|change (32 / 2) with 16|change (64 / 2) with 32]; lia.
Qed.
Lemma dir_bytes_nonneg l : Forall short_name l.*1 -> 0 <= dir_bytes l.
Proof.
  unfold dir_bytes. induction l as [|x l IHl]; cbn; [done|]. intros [Hx Hl]%Forall_cons_1. pose proof (dirent_size_bounds _ Hx). specialize (IHl Hl). lia.
Qed.
(** The reference goes into the entry. *)
Lemma dir_add_wp {E : stop -> Prop} D R O s p name p1 n : fs_inv_at D (p1 :: R) O s -> inodes s !! p = Some n ->
  find_entry (node_entries (i_data n)) name = None -> short_name name ->
  (i_type (i_data n) <> 4 -> E StopAssert) -> (2 ^ 31 <= node_size (i_data n) + dirent_size name -> E StopOverflow) ->
  wp (inode_dir_add p name p1) E (fun _ s' => fs_inv_at D R O s' /\ frame [p] s s' /\
    exists l size, i_data n = FT_DIR l size /\
      inodes s' = <[p := n_data (FT_DIR (l ++ [(name, p1)]) (size + dirent_size name)) n]> (inodes s)) s.
Proof.
  intros I Hn Hf Hs HA HO. pose proof (dirent_size_bounds _ Hs). apply wp_bind. eapply wp_get_inode; [done|].
  destruct (i_data n) as [|l size| | | | |] eqn:Ed; try by (apply wp_stop, HA). cbn [node_size] in HO.
  pose proof (fi_data _ _ _ _ I _ _ Hn) as Hd. rewrite Ed in Hd. destruct Hd as (Hnd & Hsh & -> & Hsz). pose proof (dir_bytes_nonneg _ Hsh).
  apply wp_bind, wp_as_int; [|intros; apply HO; lia]. intros Hint.
  apply wp_bind, wp_modify, wp_set_inode. cbv beta. pose proof (node_nonneg _ _ _ _ I _ _ Hn). split; [|split].
  - refine (inv_update _ _ _ _ _ s p n _ _ I Hn _ _ _ _ _); [| |cbn; lia| |].
    + intros q. rewrite Ed. cbn. unfold occ_ent, delta. cbn. rewrite fmap_app, occ_app. cbn. repeat case_decide; lia || congruence.
    + intros q. cbn. unfold delta. case_decide; lia.
    + cbn. split; [|split; [|split; [rewrite dir_bytes_app; cbn; lia|lia]]]; rewrite fmap_app.
      * apply NoDup_app. split; [done|]. split; [|apply NoDup_singleton].
        intros x Hx Hx'%list_elem_of_singleton. cbn in Hx'. subst x. by apply find_entry_None in Hf.
      * apply Forall_app. split; [done|]. by repeat constructor.
    + rewrite Ed. cbn. lia.
  - refine (data_frame [p] p n _ _ s _ Hn). apply list_elem_of_here.
  - exists l, (dir_bytes l). by split.
Qed.
Lemma dir_add_ok D R O s p name p1 : fs_inv_at D (p1 :: R) O s -> (exists n, inodes s !! p = Some n /\ find_entry (node_entries (i_data n)) name = None) ->
  short_name name ->
  wpa (inode_dir_add p name p1) (fun _ s' => fs_inv_at D R O s' /\ frame [p] s s' /\
    exists n l size, inodes s !! p = Some n /\ i_data n = FT_DIR l size /\
      exists n', inodes s' !! p = Some n' /\ i_data n' = FT_DIR (l ++ [(name, p1)]) (size + dirent_size name)) s.
Proof.
  intros I (n & Hn & Hf) Hs. eapply wp_mono; [eapply dir_add_wp; [done|done|done|done|by left|by right]|]. cbv beta.
  intros _ s' (I' & F & l & size & Ed & E'). split; [done|]. split; [done|]. exists n, l, size. split; [done|]. split; [done|].
  eexists. rewrite E'. split; [apply lookup_insert_eq|done].
Qed.
Lemma remove_entry_facts l name p1 : find_entry l name = Some p1 ->
  (forall q, occ q l.*2 = occ q (remove_entry l name).*2 + (if decide (p1 = q) then 1 else 0)) /\
  dir_bytes l = dir_bytes (remove_entry l name) + dirent_size name /\ (remove_entry l name).*1 `sublist_of` l.*1.
Proof.
  unfold dir_bytes. induction l as [|[x p] l IHl]; [done|]. cbn. case_decide as Hx; [intros [= ->]; rewrite Hx; split; [intros; lia|split; [lia|]]|].
  { apply sublist_cons. done. }
  intros Hf. destruct (IHl Hf) as (A1 & A2 & A3). split; [intros q; cbn; rewrite (A1 q); lia|]. split; [cbn; lia|]. by apply sublist_skip.
Qed.
(** The entry gives its reference back. *)
Lemma dirent_delete_no_decref_ok {E : stop -> Prop} D R O s p name p1 n : fs_inv_at D R O s -> inodes s !! p = Some n ->
  find_entry (node_entries (i_data n)) name = Some p1 ->
  wp (inode_dirent_delete_no_decref p name) E (fun _ s' => fs_inv_at D (p1 :: R) O s' /\ frame [p] s s' /\
    (exists n', inodes s' !! p = Some n' /\ node_entries (i_data n') = remove_entry (node_entries (i_data n)) name /\
      i_type (i_data n') = i_type (i_data n) /\ refcount n' = refcount n /\ open_count n' = open_count n /\
      node_size (i_data n') = node_size (i_data n) - dirent_size name) /\
    forall q, q <> p -> inodes s' !! q = inodes s !! q) s.
Proof.
  intros I Hn Hf. apply wp_bind. eapply wp_get_inode; [done|]. destruct (i_data n) as [|l size| | | | |] eqn:Ed; try done.
  cbn in Hf. pose proof (fi_data _ _ _ _ I _ _ Hn) as Hd. rewrite Ed in Hd. destruct Hd as (Hnd & Hsh & -> & Hsz).
  destruct (remove_entry_facts _ _ _ Hf) as (F1 & F2 & F3).
  assert (Forall short_name (remove_entry l name).*1) as Hsh' by (rewrite Forall_forall in Hsh |- *; intros v Hv; apply Hsh; eapply elem_of_submseteq; [exact Hv|by apply sublist_submseteq]).
  pose proof (dir_bytes_nonneg _ Hsh'). assert (16 < dirent_size name <= 65600) as Hds.
  { apply dirent_size_bounds. apply find_entry_In in Hf. rewrite Forall_forall in Hsh. apply Hsh. by apply (list_elem_of_fmap_2 fst) in Hf. }
  apply wp_bind, wp_as_int; [|lia]. intros _. apply wp_bind, wp_modify, wp_bind, wp_assert_true; [lia|].
  assert (0 <= fs_blocks s + (to_blocks s (dir_bytes l - dirent_size name) - to_blocks s (dir_bytes l))) as Hb0.
  { pose proof (node_blocks _ _ _ _ I _ _ Hn) as Hb. rewrite Ed in Hb. cbn in Hb.
    assert (0 <= to_blocks s (dir_bytes l - dirent_size name)) by (unfold to_blocks; apply Z.shiftr_nonneg, fits_wrap; lia). lia. }
  apply wp_bind, wp_bind, wp_gets, wp_assert_true; [by apply Z.leb_le|]. apply wp_set_inode.
  pose proof (node_nonneg _ _ _ _ I _ _ Hn). split; [|split; [|split]].
  - refine (inv_update _ _ _ _ _ s p n _ _ I Hn _ _ _ _ _); [| |cbn; lia| |].
    + intros q. rewrite Ed. cbn. unfold occ_ent, delta. cbn. rewrite (F1 q). repeat case_decide; lia || congruence.
    + intros q. cbn. unfold delta. case_decide; lia.
    + cbn. split; [by eapply sublist_NoDup|]. split; [done|]. lia.
    + rewrite Ed. cbn. lia.
  - refine (data_frame [p] p n _ _ s _ Hn). apply list_elem_of_here.
  - eexists. split; [apply lookup_insert_eq|]. by split_and!.
  - intros q Hq. cbn. by rewrite lookup_insert_ne.
Qed.
Lemma node_old D R O s p n : fs_inv_at D R O s -> inodes s !! p = Some n -> p < next_ptr s.
Proof. intros I Hn. destruct (fi_fresh _ _ _ _ I) as [Hp _]. apply Hp. by eexists. Qed.
(** No assertion fails when the inode of the entry is used elsewhere, or is another node without entries. *)
Lemma dirent_delete_wp {E : stop -> Prop} D R O s p name p1 n : fs_inv_at D R O s -> inodes s !! p = Some n ->
  find_entry (node_entries (i_data n)) name = Some p1 ->
  (forall n1, inodes s !! p1 = Some n1 -> refcount n1 = 1 -> open_count n1 = 0 -> p1 = p \/ node_entries (i_data n1) <> [] -> E StopAssert) ->
  wp (inode_dirent_delete p name p1) E (fun _ s' => fs_inv_at D R O s' /\ frame [p] s s' /\
    forall n', inodes s' !! p = Some n' -> node_entries (i_data n') = remove_entry (node_entries (i_data n)) name /\
      i_type (i_data n') = i_type (i_data n)) s.
Proof.
  intros I Hn Hf HE. apply wp_bind. eapply wp_mono; [by apply (dirent_delete_no_decref_ok D R O s p name p1 n)|]. cbv beta.
  intros _ s1 (I1 & F1 & (n1 & Hn1 & E1 & T1 & R1 & O1 & _) & K1). eapply wp_mono; [apply (decref_wp D R O); [done|]|].
  { intros m Hm Hr Ho Hne. destruct (decide (p1 = p)) as [->|Hp]; [simplify_eq; eapply HE; [done|congruence|congruence|by left]|].
    rewrite K1 in Hm by done. eapply HE; try done. by right. }
  cbv beta. intros _ s2 (I2 & F2 & _). split; [done|]. split.
  - eapply frame_trans; [done|]. eapply frame_mono; [|done]. set_solver.
  - intros n2 Hn2. destruct (fr_data _ _ _ F2 p n2) as (n1' & Hn1' & ->); [set_solver|by eapply node_old|done|]. simplify_eq. done.
Qed.
Lemma dirent_delete_ok D R O s p name p1 n : fs_inv_at D R O s -> inodes s !! p = Some n ->
  find_entry (node_entries (i_data n)) name = Some p1 ->
  wpa (inode_dirent_delete p name p1) (fun _ s' => fs_inv_at D R O s' /\ frame [p] s s' /\
    forall n', inodes s' !! p = Some n' -> node_entries (i_data n') = remove_entry (node_entries (i_data n)) name /\
      i_type (i_data n') = i_type (i_data n)) s.
Proof. intros I Hn Hf. eapply dirent_delete_wp; [done|done|done|by left]. Qed.
(** A node that an entry of another, opened, node keeps alive *)
Definition anchored (D : option Z) s (p : Z) : Prop :=
  exists f x n, files s !! f = Some x /\ D <> Some f /\ f_inode x <> p /\ inodes s !! f_inode x = Some n /\ p ∈ (node_entries (i_data n)).*2.
Lemma anchored_frame D R O s s' p : fs_inv_at D R O s -> fs_inv_at D R O s' -> frame [p] s s' -> anchored D s p -> anchored D s' p.
Proof.
  intros I I' F (f & x & n & Hf & HD & Hne & Hn & Hp). rewrite <- (fr_files _ _ _ F) in Hf.
  destruct (file_live _ _ _ _ I' f x Hf HD) as [n' Hn']. exists f, x, n'. split; [done|]. split; [done|]. split; [done|]. split; [done|].
  destruct (fr_data _ _ _ F (f_inode x) n') as (m & Hm & E); [by intros Heq%list_elem_of_singleton|by eapply node_old|done|].
  simplify_eq. by rewrite E.
Qed.
Lemma anchored_live D R O s p : fs_inv_at D R O s -> anchored D s p -> exists n, inodes s !! p = Some n.
Proof. intros I (f & x & n & Hf & HD & Hne & Hn & Hp). by eapply entry_live. Qed.
(** A node other than [p] with entries, and without the entry "." to itself: only a directory that was removed, or
    that lost its "." by a renameat, is like this. *)
Definition adrift s (p q : Z) (m : FSINode) : Prop :=
  q <> p /\ inodes s !! q = Some m /\ node_entries (i_data m) <> [] /\ find_entry (node_entries (i_data m)) (str "."%string) <> Some q.
Lemma adrift_frame D R O s s' p q m n' : fs_inv_at D R O s -> frame [p] s s' -> inodes s !! q = Some n' -> adrift s' p q m ->
  exists m', adrift s p q m'.
Proof.
  intros I F Hn' (Hq & Hm & He & Hd). destruct (fr_data _ _ _ F q m) as (m' & Hm' & Ed); [by intros ?%list_elem_of_singleton|by eapply node_old|done|].
  exists m'. split; [done|]. split; [done|]. by rewrite <- Ed.
Qed.
(** A reference from an entry of [p] to a node that is neither drifting nor [p] alone is not the last one. *)
Lemma entry_not_last D R O s p n q m : fs_inv_at D R O s -> anchored D s p -> inodes s !! p = Some n -> q ∈ (node_entries (i_data n)).*2 ->
  inodes s !! q = Some m -> refcount m = 1 -> q = p \/ node_entries (i_data m) <> [] -> adrift s p q m.
Proof.
  intros I Ha Hn Hq Hm Hr Hc. assert (links s q <= 1) as Hl.
  { rewrite (fi_refs _ _ _ _ I _ _ Hm) in Hr. pose proof (is_root_nonneg s q). pose proof (occ_nonneg q R). lia. }
  destruct (decide (q = p)) as [->|Hne].
  { destruct Ha as (f & x & n2 & Hf & HD & Hd & Hn2 & Hp). pose proof (entry_links2 s p n (f_inode x) n2 p ltac:(congruence) Hn Hn2 Hq Hp). lia. }
  destruct Hc as [?|Hc]; [done|]. split; [done|]. split; [done|]. split; [done|]. intros Hdot%find_entry_snd.
  pose proof (entry_links2 s p n q m q ltac:(congruence) Hn Hm Hq Hdot). lia.
Qed.
Lemma delete_entries_ok {E : stop -> Prop} D R O p l : forall s n, fs_inv_at D R O s -> anchored D s p -> inodes s !! p = Some n -> node_entries (i_data n) = l ->
  (forall q m, q ∈ l.*2 -> adrift s p q m -> E StopAssert) ->
  wp (delete_entries p l) E (fun _ s' => fs_inv_at D R O s' /\ frame [p] s s' /\ anchored D s' p /\
    exists n', inodes s' !! p = Some n' /\ node_entries (i_data n') = [] /\ i_type (i_data n') = i_type (i_data n)) s.
Proof.
  induction l as [|[name p1] l IHl]; intros s n I Ha Hn Ed HE.
  { apply wp_ret. split; [done|]. split; [apply frame_refl|]. split; [done|]. by exists n. }
  assert (find_entry (node_entries (i_data n)) name = Some p1) as Hf by (rewrite Ed; cbn; by rewrite decide_True).
  apply wp_bind. eapply wp_mono; [apply (dirent_delete_wp D R O s p name p1 n); try done|].
  { intros n1 Hn1 Hr _ Hc. eapply HE, (entry_not_last D R O s p n p1 n1); try done; [apply list_elem_of_here|]. by eapply find_entry_snd. }
  cbv beta. intros _ s1 (I1 & F1 & H1). assert (anchored D s1 p) as Ha1 by by apply (anchored_frame D R O s s1 p).
  destruct (anchored_live _ _ _ _ _ I1 Ha1) as [n1 Hn1]. destruct (H1 _ Hn1) as [E1 T1]. rewrite Ed in E1. cbn in E1. rewrite decide_True in E1 by done.
  eapply wp_mono; [apply (IHl s1 n1); try done|].
  { intros q m Hin Hq. assert (q ∈ (node_entries (i_data n)).*2) as Hin' by (rewrite Ed; by apply list_elem_of_further).
    destruct (entry_live _ _ _ _ I _ _ _ Hn Hin') as [nq Hnq]. destruct (adrift_frame D R O s s1 p q m nq) as [m' Hm']; try done.
    eapply HE; [|done]. by apply list_elem_of_further. }
  intros _ s2 (I2 & F2 & Ha2 & n2 & Hn2 & E2 & T2). split; [done|].
  split; [by eapply frame_trans|]. split; [done|]. exists n2. by rewrite T2, T1.
Qed.
Lemma flush_dir_ok {E : stop -> Prop} D R O s p n : fs_inv_at D R O s -> anchored D s p -> inodes s !! p = Some n -> i_type (i_data n) = 4 ->
  (forall q m, q ∈ (node_entries (i_data n)).*2 -> adrift s p q m -> E StopAssert) ->
  wp (flush_dir p) E (fun _ s' => fs_inv_at D R O s' /\ frame [p] s s' /\
    exists n', inodes s' !! p = Some n' /\ node_entries (i_data n') = [] /\ i_type (i_data n') = 4) s.
Proof.
  intros I Ha Hn T HE. apply wp_bind. eapply wp_get_inode; [done|]. destruct (i_data n) as [|l size| | | | |] eqn:Ed; try done.
  apply wp_bind. eapply wp_mono; [apply (delete_entries_ok D R O p l s n); try done; by rewrite Ed|]. cbv beta.
  intros _ s1 (I1 & F1 & Ha1 & n1 & Hn1 & E1 & T1). rewrite Ed in T1. apply wp_bind. eapply wp_get_inode; [done|].
  pose proof (fi_data _ _ _ _ I1 _ _ Hn1) as Hd1.
  destruct (i_data n1) as [|l1 size1| | | | |] eqn:E'; try done. cbn in E1. subst l1. destruct Hd1 as (_ & _ & -> & _).
  apply wp_assert_true; [done|]. split; [done|]. split; [done|]. exists n1. by rewrite E'.
Qed.

(** ** The content of a file *)
Definition content (r : FSReg) : list Z := take (Z.to_nat (reg_size r)) (fbuf r).
(** Cut, or filled up with zeros *)
Definition resized (size : Z) (l : list Z) : list Z := take (Z.to_nat size) l ++ replicate (Z.to_nat size - length l) 0.
Definition SIZE_LIMIT : Z := 2 ^ (UINTPTR_W - 1).
Lemma length_file_content r : data_ok (FT_REG r) -> Z.of_nat (length (content r)) = reg_size r.
Proof. intros (_ & _ & Hs & Hl). unfold content. rewrite length_take. lia. Qed.
Lemma to_blocks_small D R O s x : fs_inv_at D R O s -> 0 <= x < SIZE_LIMIT -> 0 <= to_blocks s x < SIZE_LIMIT.
Proof.
  intros I Hx. destruct (fi_const _ _ _ _ I) as (E1 & E2 & _). unfold to_blocks. rewrite E1, E2. unfold SIZE_LIMIT in *.
  assert (UINTPTR_W - 1 <= 63) as HW by (destruct UINTPTR_W_ok as [HW|HW]; rewrite HW; lia).
  pose proof (Z.pow_le_mono_r 2 (UINTPTR_W - 1) 63 ltac:(lia) HW) as H63. change (2 ^ 63) with 9223372036854775808 in H63.
  rewrite (wrap_fits 64 x) by (unfold fits; lia). rewrite wrap_fits by (unfold fits; lia).
  rewrite Z.shiftr_div_pow2 by lia. change (2 ^ 12) with 4096. split; [apply Z.div_pos; lia|]. apply Z.div_lt_upper_bound; lia.
Qed.
Lemma resize_ok {X} data n (Q : option (list Z) -> FSDeviceMem -> Prop) s : (n <> 0 -> realloc_ok s n = false -> Q None s) ->
  (forall b, length b = Z.to_nat n -> (forall k, (k <= length data)%nat -> (k <= Z.to_nat n)%nat -> take k b = take k data) -> Q (Some b) s) ->
  wp (file_buffer_resize data n) X Q s.
Proof.
  intros H0 H1. apply wp_bind, wp_gets. cbv beta zeta. unfold id.
  destruct (realloc_ok s n) eqn:Er; cbn [negb andb]; [|destruct (Z.eqb_spec n 0); cbn [negb]; [|by apply H0]]; apply wp_ret; apply H1;
    try (rewrite length_app, length_take, fresh_length; lia);
    (intros k Hk Hn; rewrite take_app_le by (rewrite length_take; lia); rewrite take_take; f_equal; lia).
Qed.
Lemma wp_buf_store {X} pos bs buf (Q : list Z -> FSDeviceMem -> Prop) s : 0 <= pos -> pos + Z.of_nat (length bs) <= Z.of_nat (length buf) ->
  Q (splice (Z.to_nat pos) bs buf) s -> wp (buf_store pos bs buf) X Q s.
Proof. intros H1 H2 HQ. unfold buf_store. rewrite (proj2 (andb_true_iff _ _)) by lia. by apply wp_ret. Qed.
Lemma wp_buf_load {X} pos n buf (Q : list Z -> FSDeviceMem -> Prop) s : 0 <= pos -> pos + Z.of_nat n <= Z.of_nat (length buf) ->
  Q (take n (drop (Z.to_nat pos) buf)) s -> wp (buf_load pos n buf) X Q s.
Proof. intros H1 H2 HQ. unfold buf_load. rewrite (proj2 (andb_true_iff _ _)) by lia. by apply wp_ret. Qed.
Lemma uptr_small x : 0 <= x < SIZE_LIMIT -> uptr x = x.
Proof.
  intros Hx. apply wrap_fits. unfold fits, SIZE_LIMIT in *. pose proof UINTPTR_W_pos. split; [lia|].
  assert (2 ^ (UINTPTR_W - 1) <= 2 ^ UINTPTR_W) by (apply Z.pow_le_mono_r; lia). lia.
Qed.
Lemma diff_small a b : 0 <= a < SIZE_LIMIT -> 0 <= b < SIZE_LIMIT -> swrap UINTPTR_W (a - b) = a - b.
Proof. intros Ha Hb. pose proof UINTPTR_W_pos. apply swrap_id; [lia|]. unfold SIZE_LIMIT in *. lia. Qed.
(** Growth from [old] to [size] bytes is over the limit of the device, or the host has no memory. *)
Definition no_space s (old size : Z) : Prop :=
  fs_max_blocks s < u64 (fs_blocks s + (to_blocks s size - to_blocks s old)) \/ exists k, k <> 0 /\ realloc_ok s k = false.
(** What fs_truncate leaves *)
Definition truncated D R O s p (n : FSINode) size (ret : Z) s' : Prop :=
  fs_inv_at D R O s' /\ frame [p] s s' /\
  match i_data n with
  | FT_REG r => (ret = - P9_ENOSPC /\ s' = s /\ no_space s (reg_size r) size) \/
      (ret = 0 /\ exists n' r', inodes s' !! p = Some n' /\ i_data n' = FT_REG r' /\ reg_size r' = size /\ content r' = resized size (content r))
  | _ => ret = - P9_EINVAL /\ s' = s
  end.
Lemma blocks_nonneg D R O s p n x : fs_inv_at D R O s -> inodes s !! p = Some n ->
  0 <= fs_blocks s + (to_blocks s x - to_blocks s (node_size (i_data n))).
Proof.
  intros I Hn. rewrite (fi_blocks _ _ _ _ I). assert (forall x, 0 <= to_blocks s x) as H0.
  { intros y. unfold to_blocks. apply Z.shiftr_nonneg. apply fits_wrap. lia. }
  pose proof (msum_ge (fun _ m => to_blocks s (node_size (i_data m))) (inodes s) p n (fun _ _ _ => H0 _) Hn) as Hge. cbv beta in Hge. specialize (H0 x). lia.
Qed.
Lemma put_reg_ok {X} D R O s p n r buf size d : fs_inv_at D R O s -> inodes s !! p = Some n -> i_data n = FT_REG r ->
  0 <= size < SIZE_LIMIT -> size <= Z.of_nat (length buf) -> take (Z.to_nat size) buf = resized size (content r) ->
  d = to_blocks s size - to_blocks s (reg_size r) ->
  wp (_ ← add_blocks (fun _ => d); _ ← assert_blocks; _ ← upd_inode p (n_data (FT_REG (mkReg REG_STATE_LOCAL size buf (is_fscmd r)))); mret 0)
    X (truncated D R O s p n size) s.
Proof.
  intros I Hn E Hs Hl Hc ->. apply wp_bind, wp_modify, wp_bind. apply wp_bind, wp_gets. cbv beta.
  pose proof (blocks_nonneg D R O s p n size I Hn) as Hb. rewrite E in Hb. cbn [fs_blocks set_blocks node_size] in *.
  rewrite (proj2 (Z.leb_le _ _) Hb). apply wp_ret. apply wp_bind. eapply wp_upd_inode; [exact Hn|]. apply wp_ret. pose proof (node_nonneg _ _ _ _ I _ _ Hn).
  pose proof (fi_data _ _ _ _ I _ _ Hn) as Hd. rewrite E in Hd. destruct Hd as (_ & Hcmd & _). split; [|split].
  - refine (inv_update _ _ _ _ _ s p n _ _ I Hn _ _ _ _ _); [| |cbn; lia| |].
    + intros q. rewrite E. unfold delta, occ_ent. cbn. case_decide; lia.
    + intros q. unfold delta. cbn. case_decide; lia.
    + cbn. split; [done|]. split; [done|]. by split.
    + rewrite E. cbn. lia.
  - refine (data_frame [p] p n _ _ s _ Hn). apply list_elem_of_here.
  - rewrite E. right. split; [done|]. eexists _, _. split; [apply lookup_insert_eq|]. split; [done|]. by split.
Qed.
Lemma resized_self l : resized (Z.of_nat (length l)) l = l.
Proof. unfold resized. by rewrite Nat2Z.id, Nat.sub_diag, app_nil_r, firstn_all. Qed.
Lemma truncate_ok {X} D R O s p n size : fs_inv_at D R O s -> inodes s !! p = Some n -> 0 <= size < SIZE_LIMIT ->
  wp (fs_truncate p size) X (truncated D R O s p n size) s.
Proof.
  intros I Hn Hs. apply wp_bind. eapply wp_get_inode; [exact Hn|].
  pose proof (fi_data _ _ _ _ I _ _ Hn) as Hd. destruct (i_data n) as [r| | | | | |] eqn:E;
    try (apply wp_ret; split; [done|]; split; [apply frame_refl|]; by rewrite E).
  destruct (Hd) as (Hst & Hcmd & Hr & Hlen). fold SIZE_LIMIT in Hr. pose proof (length_file_content _ Hd) as Hlc.
  assert (no_space s (reg_size r) size -> truncated D R O s p n size (- P9_ENOSPC) s) as Herr
    by (intros Hns; split; [done|]; split; [apply frame_refl|]; rewrite E; by left).
  pose proof (to_blocks_small _ _ _ _ size I Hs). pose proof (to_blocks_small _ _ _ _ (reg_size r) I Hr).
  pose proof UINTPTR_W_pos. assert (0 < 2 ^ (UINTPTR_W - 1)) by (apply Z.pow_pos_nonneg; lia).
  assert (2 ^ UINTPTR_W = 2 * SIZE_LIMIT) as Hpow by (unfold SIZE_LIMIT; rewrite <- Z.pow_succ_r by lia; f_equal; lia).
  rewrite (proj2 (Z.ltb_ge _ _)) by (unfold SIZE_LIMIT in *; lia). cbv zeta.
  rewrite (diff_small size (reg_size r)) by done. destruct (Z.eqb_spec (size - reg_size r) 0) as [Hz|Hz].
  { apply wp_ret. split; [done|]. split; [apply frame_refl|]. rewrite E. right. split; [done|]. exists n, r. split; [done|]. split; [done|].
    split; [lia|]. replace size with (Z.of_nat (length (content r))) by lia. by rewrite resized_self. }
  apply wp_bind, wp_gets. cbv beta. unfold id. rewrite diff_small by done. rewrite Hst.
  destruct (Z.ltb_spec 0 (size - reg_size r)) as [Hgrow|Hshrink].
  - apply wp_if; intros Hfull; [apply wp_ret, Herr; left; by apply Z.ltb_lt|]. rewrite decide_False by done. cbn [reg_size reg_state is_fscmd fbuf].
    apply wp_bind. set (alloc := Z.of_nat (length (fbuf r))).
    assert (forall b, size <= Z.of_nat (length b) -> (forall k, (k <= length (fbuf r))%nat -> (k <= Z.to_nat size)%nat -> take k b = take k (fbuf r)) ->
      wp (buf ← file_buffer_set b (reg_size r) 0 (size - reg_size r); _ ← mret tt;
           _ ← add_blocks (fun _ => to_blocks s size - to_blocks s (reg_size r)); _ ← assert_blocks;
           _ ← upd_inode p (n_data (FT_REG (mkReg REG_STATE_LOCAL size buf (is_fscmd r)))); mret 0)
        X (truncated D R O s p n size) s) as Hset.
    { intros b Hb Hk. apply wp_bind. unfold file_buffer_set. rewrite !uptr_small by lia.
      apply wp_buf_store; [lia|rewrite length_replicate; lia|]. apply wp_bind, wp_ret. eapply put_reg_ok; try done.
      - rewrite length_splice; [done|]. rewrite length_replicate. lia.
      - replace (Z.to_nat size) with (Z.to_nat (reg_size r) + length (replicate (Z.to_nat (size - reg_size r)) 0%Z))%nat
          by (rewrite length_replicate; lia).
        rewrite take_splice by lia. unfold resized. rewrite (take_ge (content r)) by lia. rewrite Hk by lia. replace (Z.to_nat size - length (content r))%nat with (Z.to_nat (size - reg_size r)) by lia. done. }
    destruct (Z.ltb_spec alloc size) as [Hal|Hal].
    + apply resize_ok; [intros Hk Hr'; apply wp_ret, Herr; right; by eexists|]. intros b Hb Hk. apply Hset; [rewrite Hb|intros k H3 H4; apply Hk; [done|]];
        (destruct (Z.ltb_spec (uptr (alloc * 5) / 4) size); lia).
    + apply wp_ret. apply Hset; [done|done].
  - rewrite decide_False by done. cbn [reg_size reg_state is_fscmd fbuf]. apply wp_bind. set (alloc := Z.of_nat (length (fbuf r))).
    assert (forall b, size <= Z.of_nat (length b) -> take (Z.to_nat size) b = take (Z.to_nat size) (fbuf r) ->
      wp (_ ← mret tt; _ ← add_blocks (fun _ => to_blocks s size - to_blocks s (reg_size r)); _ ← assert_blocks;
           _ ← upd_inode p (n_data (FT_REG (mkReg REG_STATE_LOCAL size b (is_fscmd r)))); mret 0)
        X (truncated D R O s p n size) s) as Hcut.
    { intros b Hb Hk. apply wp_bind, wp_ret. eapply put_reg_ok; try done. rewrite Hk. unfold resized, content.
      rewrite take_take, length_take, Nat.min_l by lia. replace (_ - _)%nat with 0%nat by lia. by rewrite app_nil_r. }
    destruct (Z.leb_spec size (uptr (alloc * 4) / 5)) as [Hal|Hal].
    + apply resize_ok; [intros Hk Hr'; apply wp_ret, Herr; right; by eexists|]. intros b Hb Hk. apply Hcut; [lia|]. apply Hk; lia.
    + apply wp_ret. apply Hcut; [lia|done].
Qed.
End Ops.
