(* ===== verification/FsMemFacts.v ===== *)
(** * The file system in memory: no operation uses freed memory, and files are byte lists *)
From S2P Require Export FsMemInv.
From stdpp Require Import strings.
#[local] Open Scope Z_scope.

Section Facts.
Context `{cfg : Config} `{fh : !FsHost}.
Local Abbreviation MF := (M FSDeviceMem).
Implicit Types s : FSDeviceMem.
Local Abbreviation wpa m := (wp m may_stop).

(** ** Files *)
Lemma set_files_frame s m k : files s = m -> next_ptr s <= k -> frame [] s (set_files m (set_next_ptr k s)).
Proof. intros Hm Hk. split; [|done|by rewrite <- Hm|done]. intros q n' _ _ H. by exists n'. Qed.
(** A file is changed and keeps its inode. *)
Lemma upd_file_ok D R O s f x x' : fs_inv_at D R O s -> files s !! f = Some x -> f_inode x' = f_inode x -> f_req x' = false ->
  fs_inv_at D R O (set_files (<[f := x']> (files s)) s).
Proof.
  intros I Hf Ei Er. refine (inv_files D D R O O s _ (next_ptr s) I _ _ _); [| |lia].
  - intros q. unfold opens. cbn. rewrite (msum_update _ _ _ _ x' Hf). rewrite Ei. lia.
  - intros g y. destruct (decide (g = f)) as [->|Hne].
    + rewrite lookup_insert_eq. intros [= <-]. split; [done|]. destruct (fi_fresh _ _ _ _ I) as [_ H]. apply H. by eexists.
    + rewrite lookup_insert_ne by done. intros Hy. split; [by eapply (fi_files _ _ _ _ I)|].
      destruct (fi_fresh _ _ _ _ I) as [_ H]. apply H. by eexists.
Qed.
Lemma file_old D R O s f x : fs_inv_at D R O s -> files s !! f = Some x -> f < next_ptr s /\ f_req x = false.
Proof. intros I Hf. destruct (fi_fresh _ _ _ _ I) as [_ H]. split; [apply H; by eexists|by eapply (fi_files _ _ _ _ I)]. Qed.
Lemma opens_split D s f x q : files s !! f = Some x ->
  opens D s q = (if decide (f_inode x = q) then (if decide (D = Some f) then 0 else 1) else 0) + opens D (set_files (delete f (files s)) s) q.
Proof. intros Hf. unfold opens. cbn. rewrite (msum_delete _ _ _ _ Hf). lia. Qed.
Lemma opens_detached s f m q : m !! f = None -> opens (Some f) (set_files m s) q = opens None (set_files m s) q.
Proof.
  unfold opens. cbn. induction m as [|g y m Hg IHm] using map_ind; [by rewrite !msum_empty|]. intros Hn.
  rewrite !msum_insert by done. destruct (decide (g = f)) as [->|Hne]; [by rewrite lookup_insert_eq in Hn|].
  rewrite lookup_insert_ne in Hn by done. rewrite (IHm Hn). f_equal. repeat case_decide; congruence.
Qed.
(** The use of its inode by a file is held by the operation, and back. *)
Lemma detach_ok R O s f x : fs_inv_at None R O s -> files s !! f = Some x -> fs_inv_at (Some f) R (f_inode x :: O) s.
Proof.
  intros I Hf. assert (fs_inv_at (Some f) R (f_inode x :: O) (set_files (files s) (set_next_ptr (next_ptr s) s))) as I'; [|by destruct s].
  refine (inv_files None (Some f) R O _ s _ (next_ptr s) I _ _ _); [| |lia].
  - intros q. change (opens (Some f) (set_files (files s) s) q) with (opens (Some f) s q).
    rewrite !(opens_split _ s f x q Hf), opens_detached by apply lookup_delete_eq. cbn. repeat case_decide; lia || congruence.
  - intros g y Hy. destruct (file_old _ _ _ _ _ _ I Hy). by split.
Qed.
Lemma attach_file_ok R O s f x x' : fs_inv_at (Some f) R (f_inode x' :: O) s -> files s !! f = Some x -> f_req x' = false ->
  fs_inv_at None R O (set_files (<[f := x']> (files s)) s).
Proof.
  intros I Hf Hr. refine (inv_files (Some f) None R _ O s _ (next_ptr s) I _ _ _); [| |lia].
  - intros q. rewrite (opens_split _ s f x q Hf), opens_detached by apply lookup_delete_eq.
    rewrite (opens_split _ (set_files _ s) f x' q) by apply lookup_insert_eq. cbn [files set_files]. rewrite delete_insert_eq.
    change (opens None (set_files (delete f (files s)) (set_files _ s)) q) with (opens None (set_files (delete f (files s)) s) q).
    cbn. repeat case_decide; lia || congruence.
  - intros g y. destruct (decide (g = f)) as [->|Hne].
    + rewrite lookup_insert_eq. intros [= <-]. split; [done|]. by destruct (file_old _ _ _ _ _ _ I Hf).
    + rewrite lookup_insert_ne by done. intros Hy. destruct (file_old _ _ _ _ _ _ I Hy). by split.
Qed.
Lemma delete_file_ok R O s f x : fs_inv_at (Some f) R O s -> files s !! f = Some x ->
  fs_inv_at None R O (set_files (delete f (files s)) s).
Proof.
  intros I Hf. refine (inv_files (Some f) None R O O s _ (next_ptr s) I _ _ _); [| |lia].
  - intros q. rewrite (opens_split (Some f) s f x q Hf), opens_detached by apply lookup_delete_eq. repeat case_decide; lia || congruence.
  - intros g y [_ Hy]%lookup_delete_Some. destruct (file_old _ _ _ _ _ _ I Hy). by split.
Qed.
Lemma inode_search_ok {E : stop -> Prop} p name n (Q : option Z -> FSDeviceMem -> Prop) s : inodes s !! p = Some n ->
  Q (find_entry (node_entries (i_data n)) name) s -> wp (inode_search p name) E Q s.
Proof. intros Hn HQ. apply wp_bind. eapply wp_get_inode; [done|]. apply wp_ret. by destruct (i_data n). Qed.
Lemma inode_to_qid_ok {E : stop -> Prop} p n (Q : FSQID -> FSDeviceMem -> Prop) s : inodes s !! p = Some n ->
  Q (mkQID (qid_type (i_data n)) 0 (inode_num n)) s -> wp (inode_to_qid p) E Q s.
Proof. intros Hn HQ. apply wp_bind. eapply wp_get_inode; [done|]. by apply wp_ret. Qed.
Lemma fid_create_ok s p n uid : fs_inv s -> inodes s !! p = Some n ->
  wpa (fid_create p uid) (fun f s' => fs_inv s' /\ f = next_ptr s /\ files s' = <[f := mkFile uid p false 0 false]> (files s) /\
    exists n', inodes s' !! p = Some n') s.
Proof.
  intros I Hn. apply wp_bind, wp_bind, wp_gets, wp_bind, wp_modify, wp_ret. set (f := next_ptr s).
  assert (fs_inv (set_next_ptr (f + 1) s)) as I1.
  { refine (inv_files None None [] [] [] s (files s) (f + 1) I _ _ _); [done| |unfold f; lia].
    intros g y Hy. destruct (file_old _ _ _ _ _ _ I Hy). split; [done|]. unfold f. lia. }
  apply wp_bind. eapply wp_mono; [by apply (inc_open_ok None [] [] _ p n)|].
  intros a s1 (-> & I2 & F2). apply wp_bind, wp_modify, wp_ret. split; [|split; [done|split]].
  - refine (inv_files None None [] [p] [] s1 _ (next_ptr s1) I2 _ _ _); [| |lia].
    + intros q. unfold opens. cbn. rewrite msum_insert; [cbn; repeat case_decide; lia || congruence|].
      destruct (files s1 !! f) as [y|] eqn:E; [|done]. rewrite (fr_files _ _ _ F2) in E. destruct (file_old _ _ _ _ _ _ I E). unfold f in *. lia.
    + intros g y. destruct (decide (g = f)) as [->|Hne].
      * rewrite lookup_insert_eq. intros [= <-]. split; [done|]. pose proof (fr_ptr _ _ _ F2) as Hp. cbn in Hp. lia.
      * rewrite lookup_insert_ne by done. intros Hy. destruct (file_old _ _ _ _ _ _ I2 Hy). by split.
  - cbn. by rewrite (fr_files _ _ _ F2).
  - cbn. apply (open_live _ _ _ _ I2). by left.
Qed.
(** fs_close *)
Lemma fs_close_ok {E : stop -> Prop} s f x (Q : unit -> FSDeviceMem -> Prop) : files s !! f = Some x -> f_req x = false ->
  Q tt (set_files (<[f := fl_opened false x]> (files s)) s) -> wp (fs_close f) E Q s.
Proof. intros Hf Hr HQ. apply wp_bind. eapply wp_get_file; [done|]. apply wp_bind. eapply wp_upd_file; [done|]. by rewrite Hr. Qed.

(** ** Each operation keeps the invariant *)
Lemma file_node D R O s f x : fs_inv_at D R O s -> files s !! f = Some x -> D <> Some f -> exists n, inodes s !! f_inode x = Some n.
Proof. intros I. by apply (file_live _ _ _ _ I). Qed.
Lemma file_node_inv s f x : fs_inv s -> files s !! f = Some x -> exists n, inodes s !! f_inode x = Some n.
Proof. intros I Hf. by eapply (file_node None). Qed.
Lemma attach_safe s uid uname aname : fs_inv s ->
  wpa (fs_attach uid uname aname) (fun r s' => fs_inv s' /\ files s' = <[r.1.2 := mkFile uid (root_inode s) false 0 false]> (files s)) s.
Proof.
  intros I. apply wp_bind, wp_gets. destruct (root_live _ _ _ _ I) as [n Hn]. apply wp_bind.
  eapply wp_mono; [by eapply fid_create_ok|]. cbv beta. intros f s1 (I1 & -> & Hf & n1 & Hn1). apply wp_bind. eapply inode_to_qid_ok; [done|].
  apply wp_ret. by split.
Qed.
(** The inode that a walk comes to *)
Fixpoint walk_end s (p : Z) (names : list (list Z)) : Z :=
  match names with
  | [] => p
  | name :: names' =>
      match inodes s !! p ≫= fun n => find_entry (node_entries (i_data n)) name with
      | Some q => walk_end s q names'
      | None => p
      end
  end.
Lemma walk_loop_ok s names : fs_inv s -> forall p n, inodes s !! p = Some n ->
  wpa (walk_loop p names) (fun r s' => s' = s /\ r.1 = walk_end s p names /\ exists n', inodes s !! r.1 = Some n') s.
Proof.
  intros I. induction names as [|name names IHn]; intros p n Hn; [apply wp_ret; split; [done|]; split; [done|by exists n]|].
  apply wp_bind. eapply inode_search_ok; [done|]. cbn [walk_end]. rewrite Hn. cbn [option_bind mbind].
  destruct (find_entry (node_entries (i_data n)) name) as [q|] eqn:E; [|apply wp_ret; split; [done|]; split; [done|by exists n]].
  destruct (entry_live _ _ _ _ I p n q Hn) as [m Hm]; [by eapply find_entry_snd|].
  apply wp_bind. eapply inode_to_qid_ok; [done|]. apply wp_bind. eapply wp_mono; [by apply (IHn q m)|].
  intros r s' (-> & Hr & Hl). by apply wp_ret.
Qed.
Lemma walk_safe s f x names : fs_inv s -> files s !! f = Some x ->
  wpa (fs_walk f names) (fun r s' => fs_inv s' /\ files s' = <[r.1.2 := mkFile (f_uid x) (walk_end s (f_inode x) names) false 0 false]> (files s)) s.
Proof.
  intros I Hf. destruct (file_node_inv _ _ _ I Hf) as [n Hn]. apply wp_bind. eapply wp_get_file; [done|]. apply wp_bind.
  eapply wp_mono; [by eapply walk_loop_ok|]. cbv beta. intros r s1 (-> & Hr & m & Hm). apply wp_bind.
  eapply wp_mono; [by eapply fid_create_ok|]. cbv beta. intros f1 s2 (I2 & -> & H2 & _). apply wp_ret. split; [done|]. by rewrite H2, Hr.
Qed.
(** A node that is held by a file, or by a reference, through some steps *)
Lemma file_track D R O D' R' O' X s s' f x n : fs_inv_at D R O s -> files s !! f = Some x -> inodes s !! f_inode x = Some n ->
  fs_inv_at D' R' O' s' -> frame X s s' -> D' <> Some f -> f_inode x ∉ X ->
  files s' !! f = Some x /\ exists n', inodes s' !! f_inode x = Some n' /\ i_data n' = i_data n.
Proof.
  intros I Hf Hn I' F HD HX. rewrite <- (fr_files _ _ _ F) in Hf. split; [done|]. destruct (file_live _ _ _ _ I' f x Hf HD) as [n' Hn'].
  exists n'. split; [done|]. destruct (fr_data _ _ _ F (f_inode x) n' HX) as (m & Hm & E); [by eapply node_old|done|]. by simplify_eq.
Qed.
Lemma ref_track D R O D' R' O' X s s' p n : fs_inv_at D R O s -> inodes s !! p = Some n ->
  fs_inv_at D' R' O' s' -> frame X s s' -> p ∈ R' -> p ∉ X -> exists n', inodes s' !! p = Some n' /\ i_data n' = i_data n.
Proof.
  intros I Hn I' F HR HX. destruct (ref_live _ _ _ _ I' p) as [n' Hn']; [by apply list_elem_of_In|].
  exists n'. split; [done|]. destruct (fr_data _ _ _ F p n' HX) as (m & Hm & E); [by eapply node_old|done|]. by simplify_eq.
Qed.
Lemma mkdir_safe s f x name mode gid : fs_inv s -> files s !! f = Some x -> short_name name ->
  wpa (fs_mkdir f name mode gid) (fun _ s' => fs_inv s') s.
Proof.
  intros I Hf Hs. destruct (file_node_inv _ _ _ I Hf) as [n Hn]. apply wp_bind. eapply wp_get_file; [done|].
  apply wp_bind. eapply wp_get_inode; [done|]. apply wp_if; intros HT; [by apply wp_ret|]. apply wp_bind. eapply inode_search_ok; [done|].
  destruct (find_entry _ name) eqn:Efe; [by apply wp_ret|]. apply wp_bind.
  eapply wp_mono; [by eapply (new_ok None [] [])|]. cbv beta. intros p1 s1 (I1 & F1 & Hp1 & n1 & Hn1 & E1). pose proof (node_old _ _ _ _ _ _ I Hn).
  assert (f_inode x ∉ [p1]) as HX by (intros HX%list_elem_of_singleton; lia).
  destruct (file_track _ _ _ _ _ _ _ _ _ _ _ _ I Hf Hn I1 F1) as (Hf1 & m1 & Hm1 & D1); [done|set_solver|].
  apply wp_bind. eapply wp_mono; [by eapply incref_ok|]. cbv beta. intros a s2 (-> & I2 & F2).
  destruct (file_track _ _ _ _ _ _ _ _ _ _ _ _ I1 Hf1 Hm1 I2 F2) as (Hf2 & m2 & Hm2 & D2); [done|set_solver|].
  destruct (ref_track _ _ _ _ _ _ _ _ _ _ _ I1 Hn1 I2 F2) as (n2 & Hn2 & E2); [set_solver|set_solver|]. rewrite E1 in E2.
  apply wp_bind. eapply wp_mono; [apply (dir_add_ok None [p1] []); [done|exists n2; by rewrite E2|done]|].
  cbv beta. intros _ s3 (I3 & F3 & n2' & l & sz & ? & E & n3 & Hn3 & E3). simplify_eq. rewrite E2 in E. injection E as <- <-. cbn [app] in E3.
  destruct (file_track _ _ _ _ _ _ _ _ _ _ _ _ I2 Hf2 Hm2 I3 F3) as (Hf3 & m3 & Hm3 & D3); [done|done|].
  apply wp_bind. eapply wp_mono; [by eapply incref_ok|]. cbv beta. intros a s4 (-> & I4 & F4).
  destruct (file_track _ _ _ _ _ _ _ _ _ _ _ _ I3 Hf3 Hm3 I4 F4) as (Hf4 & m4 & Hm4 & D4); [done|set_solver|].
  destruct (ref_track _ _ _ _ _ _ _ _ _ _ _ I3 Hn3 I4 F4) as (n4 & Hn4 & E4); [set_solver|set_solver|]. rewrite E3 in E4.
  apply wp_bind. eapply wp_mono; [apply (dir_add_ok None [p1] []); [done|exists n4; by rewrite E4|done]|].
  cbv beta. intros _ s5 (I5 & F5 & _). destruct (file_track _ _ _ _ _ _ _ _ _ _ _ _ I4 Hf4 Hm4 I5 F5) as (Hf5 & m5 & Hm5 & D5); [done|done|].
  apply wp_bind. eapply wp_mono; [apply (dir_add_ok None [] []); [done|exists m5; by rewrite D5, D4, D3, D2, D1|done]|].
  cbv beta. intros _ s6 (I6 & F6 & m5' & l6 & sz6 & ? & ? & m6 & Hm6 & E6). apply wp_bind.
  destruct (entry_live _ _ _ _ I6 _ _ p1 Hm6) as [n6 Hn6]. { rewrite E6. cbn. rewrite fmap_app. set_solver. }
  eapply inode_to_qid_ok; [done|]. by apply wp_ret.
Qed.
Lemma keep_file_open s f x o fl : fs_inv s -> files s !! f = Some x ->
  fs_inv (set_files (<[f := fl_flags fl (fl_opened o x)]> (files s)) s).
Proof. intros I Hf. eapply upd_file_ok; [done|done|done|]. by destruct (file_old _ _ _ _ _ _ I Hf). Qed.
Lemma close_safe {E : stop -> Prop} s f x : fs_inv s -> files s !! f = Some x ->
  wp (fs_close f) E (fun _ s' => fs_inv s' /\ s' = set_files (<[f := fl_opened false x]> (files s)) s) s.
Proof.
  intros I Hf. destruct (file_old _ _ _ _ _ _ I Hf) as [_ Hr]. eapply fs_close_ok; [done|done|]. split; [|done]. by eapply upd_file_ok.
Qed.
Lemma delete_safe s f x : fs_inv s -> files s !! f = Some x ->
  wpa (fs_delete f) (fun _ s' => fs_inv s' /\ files s' = delete f (files s)) s.
Proof.
  intros I Hf. apply wp_bind. eapply wp_mono; [by eapply close_safe|]. cbv beta. intros _ s1 (I1 & ->). set (s1 := set_files _ s) in *.
  assert (files s1 !! f = Some (fl_opened false x)) as Hf1 by apply lookup_insert_eq.
  apply wp_bind. eapply wp_get_file; [done|]. apply wp_bind. eapply wp_mono; [eapply dec_open_ok; by eapply detach_ok|].
  cbv beta. intros _ s2 (I2 & F2 & _). apply wp_modify. rewrite <- (fr_files _ _ _ F2) in Hf1. split; [by eapply delete_file_ok|].
  cbn. rewrite (fr_files _ _ _ F2). cbn. apply delete_insert_eq.
Qed.
(** ** Names *)
Lemma find_entry_app l l' name : find_entry (l ++ l') name = match find_entry l name with Some p => Some p | None => find_entry l' name end.
Proof. induction l as [|[x p] l IHl]; [done|]. cbn. by case_decide. Qed.
Lemma find_remove_ne l name name' : name <> name' -> find_entry (remove_entry l name') name = find_entry l name.
Proof. intros Hne. induction l as [|[x p] l IHl]; [done|]. cbn. destruct (decide (x = name')) as [->|H1]; [by rewrite decide_False|]. cbn. by case_decide. Qed.
Lemma find_remove_eq l name : NoDup l.*1 -> find_entry (remove_entry l name) name = None.
Proof.
  induction l as [|[x p] l IHl]; [done|]. cbn. intros [Hx Hl]%NoDup_cons. case_decide as Hd; [|cbn; rewrite decide_False by done; auto].
  subst x. clear IHl Hl. induction l as [|[y q] l IHl]; [done|]. cbn in *. apply not_elem_of_cons in Hx as [??]. by rewrite decide_False; auto.
Qed.
Lemma entries_nodup D R O s p n : fs_inv_at D R O s -> inodes s !! p = Some n -> NoDup (node_entries (i_data n)).*1.
Proof. intros I Hn. pose proof (fi_data _ _ _ _ I _ _ Hn) as Hd. destruct (i_data n); cbn in *; try constructor. apply Hd. Qed.
Definition lookup_name s (p : Z) (name : list Z) : option Z := inodes s !! p ≫= fun n => find_entry (node_entries (i_data n)) name.
Lemma lookup_name_at s p n name : inodes s !! p = Some n -> lookup_name s p name = find_entry (node_entries (i_data n)) name.
Proof. unfold lookup_name. by intros ->. Qed.
(** Whether an inode is a directory, and one with more than "." and ".." *)
Definition is_dir s (p : Z) : bool := match inodes s !! p with Some n => i_type (i_data n) =? 4 | None => false end.
Definition full_dir s (p : Z) : bool :=
  match inodes s !! p with Some n => match i_data n with FT_DIR l _ => negb (is_empty_dir l) | _ => false end | None => false end.
(** In the directories of [s] that are still there, and that are not in [X], every name keeps its meaning. *)
Definition names_kept (X : list Z) s s' : Prop :=
  forall q m, q ∉ X -> is_Some (inodes s !! q) -> is_Some (inodes s' !! q) -> lookup_name s' q m = lookup_name s q m.
Lemma frame_names D R O X s s' : fs_inv_at D R O s -> frame X s s' -> names_kept X s s'.
Proof.
  intros I F q m Hq [n Hn] [n' Hn']. destruct (fr_data _ _ _ F q n' Hq) as (n1 & Hn1 & E); [by eapply node_old|done|].
  rewrite (lookup_name_at _ _ _ _ Hn'), (lookup_name_at _ _ _ _ Hn1). by rewrite E.
Qed.
(** A change of a node that is neither of its data nor of its counts *)
Lemma meta_ok D R O s p n n' : fs_inv_at D R O s -> inodes s !! p = Some n -> i_data n' = i_data n -> refcount n' = refcount n ->
  open_count n' = open_count n ->
  fs_inv_at D R O (set_inodes (<[p := n']> (inodes s)) s) /\ frame [] s (set_inodes (<[p := n']> (inodes s)) s).
Proof.
  intros I Hn E Hr Ho. pose proof (node_nonneg _ _ _ _ I _ _ Hn). split; [|by eapply node_frame].
  eapply inv_counts; [done|done|done| | |lia]; intros q; unfold delta; case_decide; lia.
Qed.
(** Symlink, mknod *)
Lemma add_new_ok s f x name d mode uid gid n : fs_inv s -> files s !! f = Some x -> inodes s !! f_inode x = Some n ->
  find_entry (node_entries (i_data n)) name = None -> new_data d -> short_name name ->
  wpa (add_new (f_inode x) name d mode uid gid) (fun _ s' => fs_inv s') s.
Proof.
  intros I Hf Hn Hfe Hd Hs. apply wp_bind. eapply wp_mono; [by eapply (new_ok None [] [])|]. cbv beta. intros p1 s1 (I1 & F1 & Hp1 & n1 & Hn1 & E1).
  destruct (file_track _ _ _ _ _ _ _ _ _ _ _ _ I Hf Hn I1 F1) as (Hf1 & m1 & Hm1 & D1); [done|set_solver|].
  apply wp_bind. eapply wp_mono; [apply (dir_add_ok None [] []); [done|exists m1; by rewrite D1|done]|].
  cbv beta. intros _ s2 (I2 & F2 & m & l & sz & ? & ? & m2 & Hm2 & E2). apply wp_bind.
  destruct (entry_live _ _ _ _ I2 _ _ p1 Hm2) as [n2 Hn2]. { rewrite E2. cbn. rewrite fmap_app. set_solver. }
  eapply inode_to_qid_ok; [done|]. by apply wp_ret.
Qed.
Lemma symlink_safe s f x name target gid : fs_inv s -> files s !! f = Some x -> short_name name ->
  wpa (fs_symlink f name target gid) (fun _ s' => fs_inv s') s.
Proof.
  intros I Hf Hs. destruct (file_node_inv _ _ _ I Hf) as [n Hn]. apply wp_bind. eapply wp_get_file; [done|]. apply wp_bind.
  eapply inode_search_ok; [done|]. destruct (find_entry _ name) eqn:E; [by apply wp_ret|]. by eapply add_new_ok.
Qed.
Lemma node_data_new type major minor d : node_data type major minor = Some d -> new_data d.
Proof. unfold node_data. intros Hd. repeat case_match; simplify_eq; done. Qed.
Lemma mknod_safe s f x name mode major minor gid : fs_inv s -> files s !! f = Some x -> short_name name ->
  wpa (fs_mknod f name mode major minor gid) (fun _ s' => fs_inv s') s.
Proof.
  intros I Hf Hs. destruct (file_node_inv _ _ _ I Hf) as [n Hn]. apply wp_bind. eapply wp_get_file; [done|].
  destruct (node_data _ _ _) as [d|] eqn:Ed; [|by apply wp_ret]. apply wp_bind.
  eapply inode_search_ok; [done|]. destruct (find_entry _ name) eqn:E; [by apply wp_ret|]. eapply add_new_ok; try done. by eapply node_data_new.
Qed.
Lemma link_safe s df f dx x name : fs_inv s -> files s !! df = Some dx -> files s !! f = Some x -> short_name name ->
  wpa (fs_link df f name) (fun _ s' => fs_inv s') s.
Proof.
  intros I Hdf Hf Hs. destruct (file_node_inv _ _ _ I Hf) as [n Hn]. destruct (file_node_inv _ _ _ I Hdf) as [dn Hdn].
  apply wp_bind. eapply wp_get_file; [done|]. apply wp_bind. eapply wp_get_file; [done|]. apply wp_bind. eapply wp_get_inode; [done|].
  apply wp_if; intros _; [by apply wp_ret|]. apply wp_bind. eapply inode_search_ok; [done|].
  destruct (find_entry _ name) eqn:E; [by apply wp_ret|]. apply wp_bind. eapply wp_mono; [by eapply incref_ok|]. cbv beta.
  intros a s1 (-> & I1 & F1). destruct (file_track _ _ _ _ _ _ _ _ _ _ _ _ I Hdf Hdn I1 F1) as (Hf1 & m1 & Hm1 & D1); [done|set_solver|].
  apply wp_bind. eapply wp_mono; [apply (dir_add_ok None [] []); [done|exists m1; by rewrite D1|done]|]. cbv beta. intros _ s2 (I2 & _). by apply wp_ret.
Qed.
(** A new file gets its name in the directory of the fid, which moves on to the file.  An assertion fails if the file
    was the last user of a directory that was removed. *)
Lemma create_names {E : stop -> Prop} s f x n name flags mode gid : fs_inv s -> files s !! f = Some x -> inodes s !! f_inode x = Some n -> short_name name ->
  (lookup_name s (f_inode x) name = None -> 2 ^ 31 <= node_size (i_data n) + dirent_size name -> E StopOverflow) ->
  (lookup_name s (f_inode x) name = None -> refcount n = 0 -> open_count n = 1 -> E StopAssert) ->
  wp (fs_create f name flags mode gid) E (fun r s' => fs_inv s' /\
    if negb (i_type (i_data n) =? 4) then r.1 = - P9_ENOTDIR /\ s' = s
    else match lookup_name s (f_inode x) name with
         | Some _ => r.1 = - P9_EEXIST /\ s' = s
         | None => r.1 = 0 /\ names_kept [f_inode x] s s' /\ exists p1 n1, inodes s !! p1 = None /\
             inodes s' !! p1 = Some n1 /\ i_data n1 = FT_REG new_reg /\
             files s' !! f = Some (mkFile (f_uid x) p1 true flags false) /\
             (is_Some (inodes s' !! f_inode x) -> forall m, lookup_name s' (f_inode x) m = if decide (m = name) then Some p1 else lookup_name s (f_inode x) m)
         end) s.
Proof.
  intros I Hf Hn Hs HO HA. rewrite (lookup_name_at _ _ _ _ Hn) in *. apply wp_bind. eapply wp_get_file; [done|].
  apply wp_bind. eapply wp_get_inode; [done|]. destruct (negb _) eqn:HT; [by apply wp_ret|]. apply wp_bind. eapply inode_search_ok; [done|].
  destruct (find_entry _ name) eqn:Efe; [by apply wp_ret|]. specialize (HO eq_refl). specialize (HA eq_refl).
  apply wp_bind. eapply wp_mono; [by eapply close_safe|]. cbv beta. intros _ s0 (I0 & ->). set (s0 := set_files _ s) in *. set (x0 := fl_opened false x) in *.
  assert (files s0 !! f = Some x0) as Hf0 by apply lookup_insert_eq. assert (inodes s0 !! f_inode x0 = Some n) as Hn0 by done.
  pose proof (node_old _ _ _ _ _ _ I0 Hn0). change (f_inode x) with (f_inode x0).
  apply wp_bind. eapply wp_mono; [by eapply (new_wp None [] [])|]. cbv beta. intros p1 s1 (I1 & F1 & Hp1 & (n1 & Hn1 & E1 & R1 & O1) & K1).
  assert (f_inode x0 <> p1) as HX by lia. assert (inodes s1 !! f_inode x0 = Some n) as Hm1 by (by rewrite K1).
  assert (files s1 !! f = Some x0) as Hf1 by (by rewrite (fr_files _ _ _ F1)).
  apply wp_bind. eapply wp_mono; [apply (dir_add_wp None [] [] s1 _ _ _ n); try done; intros; exfalso; lia|].
  cbv beta. intros _ s2 (I2 & F2 & l & sz & E0 & K2). set (m2 := n_data _ n) in K2. rewrite <- (fr_files _ _ _ F2) in Hf1.
  assert (inodes s2 !! f_inode x0 = Some m2) as Hm2 by (rewrite K2; apply lookup_insert_eq).
  assert (inodes s2 !! p1 = Some n1) as Hn2 by (rewrite K2; by rewrite lookup_insert_ne).
  apply wp_bind. eapply wp_mono; [eapply dec_open_wp; [by eapply (detach_ok [] [] s2)|]|].
  { intros m Hm Hr Ho _. simplify_eq. by apply HA. }
  cbv beta. intros _ s3 (I3 & F3 & K3). rewrite <- K3 in Hn2 by done. rewrite <- (fr_files _ _ _ F3) in Hf1.
  apply wp_bind. eapply wp_mono; [eapply inc_open_wp; [done|done|rewrite O1; lia]|]. cbv beta. intros a s4 (-> & I4 & F4). rewrite <- (fr_files _ _ _ F4) in Hf1.
  destruct (open_live _ _ _ _ I4 p1) as [n4 Hn4]; [by left|].
  destruct (fr_data _ _ _ F4 p1 n4) as (? & ? & E4); [set_solver|by eapply node_old|done|]. simplify_eq. rewrite E1 in E4.
  apply wp_bind. eapply wp_upd_file; [exact Hf1|]. pose proof (attach_file_ok [] [] s4 f x0 (fl_inode p1 x0) I4 Hf1) as I5.
  apply wp_bind. eapply wp_upd_file; [apply lookup_insert_eq|]. apply wp_bind. eapply wp_upd_file; [apply lookup_insert_eq|]. cbn [files set_files].
  rewrite !insert_insert_eq. assert (f_req x0 = false) as Hr by (by destruct (file_old _ _ _ _ _ _ I0 Hf0)). specialize (I5 Hr).
  set (x5 := fl_inode p1 x0) in *. set (s5 := set_files _ s4) in I5.
  apply wp_bind. eapply inode_to_qid_ok; [exact Hn4|]. apply wp_ret.
  pose proof (upd_file_ok None [] [] s5 f x5 (fl_flags flags (fl_opened true x5)) I5 (lookup_insert_eq _ _ _)) as I6.
  unfold s5 in I6. cbn [files set_files] in I6. rewrite insert_insert_eq in I6. split; [exact (I6 eq_refl Hr)|].
  assert (frame [f_inode x0] s0 s4) as F04.
  { eapply frame_trans; [eapply frame_mono; [|exact F1]; set_solver|]. eapply frame_trans; [exact F2|].
    eapply frame_trans; (eapply frame_mono; [|eassumption]; set_solver). }
  split; [done|]. split; [exact (frame_names _ _ _ _ _ _ I0 F04)|]. exists p1, n4. split.
  { destruct (inodes s !! p1) eqn:Ep; [|done]. pose proof (node_old None [] [] s0 p1 _ I0 Ep). lia. }
  split; [exact Hn4|]. split; [done|]. split.
  { cbn [files set_files]. rewrite lookup_insert_eq. unfold x5, fl_flags, fl_opened, fl_inode, x0. cbn. do 2 f_equal. exact Hr. }
  intros [q4 Hq4] m. change (inodes s4 !! f_inode x0 = Some q4) in Hq4. pose proof (frame_trans _ _ _ _ F3 F4) as F24.
  destruct (fr_data _ _ _ F24 (f_inode x0) q4) as (q2 & Hq2 & D4); [set_solver|by eapply node_old|done|]. simplify_eq.
  transitivity (lookup_name s4 (f_inode x0) m); [done|]. rewrite (lookup_name_at s4 _ q4 m Hq4), (lookup_name_at s (f_inode x0) n m Hn), D4. unfold m2. cbn [node_entries i_data n_data].
  rewrite E0 in *. cbn [node_entries] in *. rewrite find_entry_app. cbn [find_entry].
  destruct (decide (m = name)) as [->|Hne]; [by rewrite Efe, decide_True|]. rewrite decide_False by done. by destruct (find_entry l m).
Qed.
Lemma create_safe s f x name flags mode gid : fs_inv s -> files s !! f = Some x -> short_name name ->
  wpa (fs_create f name flags mode gid) (fun _ s' => fs_inv s') s.
Proof.
  intros I Hf Hs. destruct (file_node_inv _ _ _ I Hf) as [n Hn]. eapply wp_mono; [eapply create_names; [done|done|done|done|by right|by left]|].
  by intros r s' [? _].
Qed.
(** The entry [name] of [p], with the inode [p0], becomes the entry [new_name] of [q]. *)
Definition moved (p q : Z) (name new_name : list Z) (p0 : Z) s s' : Prop :=
  frame [p; q] s s' /\
  forall d m, d = p \/ d = q -> is_Some (inodes s' !! d) ->
    lookup_name s' d m = if decide (d = q /\ m = new_name) then Some p0 else if decide (d = p /\ m = name) then None else lookup_name s d m.
(** The part of renameat behind the deletion of the entry that is replaced: [R] holds the inode of that entry. *)
Lemma rename_move {E : stop -> Prop} R s f x new_f y name new_name p0 n m Q : fs_inv_at None R [] s -> files s !! f = Some x -> files s !! new_f = Some y ->
  inodes s !! f_inode x = Some n -> find_entry (node_entries (i_data n)) name = Some p0 ->
  inodes s !! f_inode y = Some m -> find_entry (node_entries (i_data m)) new_name = None -> short_name new_name ->
  (forall n0, inodes s !! p0 = Some n0 -> refcount n0 = 2 ^ 31 - 1 -> E StopOverflow) -> (i_type (i_data m) <> 4 -> E StopAssert) ->
  (2 ^ 31 <= node_size (i_data m) + dirent_size new_name -> E StopOverflow) -> forall k : MF Z,
  (forall s', fs_inv_at None R [] s' -> moved (f_inode x) (f_inode y) name new_name p0 s s' -> wp k E Q s') ->
  wp (_ ← inode_incref p0; _ ← inode_dir_add (f_inode y) new_name p0; _ ← inode_dirent_delete (f_inode x) name p0; k) E Q s.
Proof.
  intros I Hf Hg Hn Hfe Hm Hnew Hs HO1 HA HO2 k Hk.
  destruct (entry_live _ _ _ _ I _ _ p0 Hn) as [n0 Hn0]; [by eapply find_entry_snd|].
  apply wp_bind. eapply wp_mono; [eapply incref_wp; [done|done|by apply HO1]|]. cbv beta. intros a s1 (-> & I1 & F1 & _).
  destruct (file_track _ _ _ _ _ _ _ _ _ _ _ _ I Hf Hn I1 F1) as (Hf1 & n1 & Hn1 & Dn1); [done|set_solver|].
  destruct (file_track _ _ _ _ _ _ _ _ _ _ _ _ I Hg Hm I1 F1) as (Hg1 & m1 & Hm1 & Dm1); [done|set_solver|].
  apply wp_bind. eapply wp_mono; [apply (dir_add_wp None R [] s1 _ _ _ m1); rewrite ?Dm1; done|].
  cbv beta. intros _ s2 (I2 & F2 & l & sz & Ed & K2). set (m2 := n_data _ m1) in K2.
  assert (inodes s2 !! f_inode y = Some m2) as Hm2 by (rewrite K2; apply lookup_insert_eq).
  assert (i_data m2 = FT_DIR (l ++ [(new_name, p0)]) (sz + dirent_size new_name)) as Dm2 by done. clearbody m2.
  (* the entries of the old directory before the deletion *)
  assert (exists n2, inodes s2 !! (f_inode x) = Some n2 /\ (if decide (f_inode x = f_inode y) then node_entries (i_data n2) = l ++ [(new_name, p0)]
    else node_entries (i_data n2) = node_entries (i_data n)) /\ find_entry (node_entries (i_data n2)) name = Some p0) as (n2 & Hn2 & En2 & Hfe2).
  { destruct (decide (f_inode x = f_inode y)) as [Heq|Hne].
    - exists m2. rewrite Heq in *. split; [done|]. rewrite Dm2. cbn [node_entries]. split; [done|].  simplify_eq. rewrite find_entry_app.
      rewrite <- Dn1, Ed in Hfe. cbn in Hfe. by rewrite Hfe.
    - destruct (file_track _ _ _ _ _ _ _ _ _ _ _ _ I1 Hf1 Hn1 I2 F2) as (_ & n2 & Hn2 & Dn2); [done|set_solver|].
      exists n2. split; [done|]. by rewrite Dn2, Dn1. }
  assert (2 <= links s2 p0) as Hl2.
  { assert (p0 ∈ (node_entries (i_data m2)).*2) as Hin by (rewrite Dm2; cbn; rewrite fmap_app; set_solver).
    destruct (decide (f_inode x = f_inode y)) as [Heq|Hne].
    - pose proof (msum_ge (fun _ m => occ_ent p0 (i_data m)) (inodes s2) _ _ ltac:(intros; apply occ_ent_nonneg) Hn2) as Hge. cbv beta in Hge.
      transitivity (occ_ent p0 (i_data n2)); [|exact Hge]. unfold occ_ent. rewrite Heq in Hn, Hn1. simplify_eq. rewrite En2, fmap_app, occ_app. cbn.
      rewrite decide_True by done. rewrite <- Dn1, Ed in Hfe. pose proof (In_occ p0 l.*2 ltac:(apply list_elem_of_In; by eapply find_entry_snd)). lia.
    - eapply (entry_links2 s2 (f_inode x) n2 (f_inode y) m2); try done. by eapply find_entry_snd. }
  apply wp_bind. eapply wp_mono; [eapply (dirent_delete_wp None R [] s2); [done|done|done|]|].
  { intros n3 Hn3 Hr. rewrite (fi_refs _ _ _ _ I2 _ _ Hn3) in Hr. pose proof (is_root_nonneg s2 p0). pose proof (occ_nonneg p0 R). lia. }
  cbv beta. intros _ s3 (I3 & F3 & H3). apply Hk; [done|].
  assert (frame [(f_inode x); (f_inode y)] s s3) as F03.
  { eapply frame_trans; [eapply frame_mono; [|exact F1]; set_solver|]. eapply frame_trans; (eapply frame_mono; [|eassumption]; set_solver). }
  split; [done|]. intros d v Hd [n3 Hn3].
  assert (find_entry l = find_entry (node_entries (i_data m))) as Hl by (by rewrite <- Dm1, Ed).
  pose proof (entries_nodup _ _ _ _ _ _ I2 Hn2) as Hnd.
  destruct (decide (d = (f_inode x))) as [->|Hdp].
  - destruct (H3 _ Hn3) as [E3 _]. rewrite (lookup_name_at _ _ _ _ Hn3), (lookup_name_at _ _ _ _ Hn), E3.
    destruct (decide (v = name)) as [->|Hv].
    + rewrite find_remove_eq by done. rewrite (decide_True (P := f_inode x = f_inode x /\ name = name)) by done. destruct (decide (f_inode x = f_inode y /\ name = new_name)) as [[Hpq Hnn]|]; [|done].
      exfalso. rewrite Hpq in Hn. simplify_eq; congruence.
    + rewrite (decide_False (P := f_inode x = f_inode x /\ v = name)) by tauto. rewrite find_remove_ne by done. destruct (decide (f_inode x = f_inode y)) as [Hpq|Hpq].
      * rewrite En2, find_entry_app. cbn [find_entry]. rewrite Hpq in Hn.  simplify_eq. rewrite Hl.
        destruct (decide (v = new_name)) as [->|Hvn]; [by rewrite decide_True, Hnew, decide_True|]. rewrite (decide_False (P := new_name = v)) by done.
        rewrite decide_False by tauto. by destruct (find_entry _ v).
      * rewrite En2, decide_False by tauto. done.
  - destruct Hd as [->| ->]; [done|]. rewrite (decide_False (P := f_inode y = f_inode x /\ v = name)) by tauto.
    destruct (fr_data _ _ _ F3 (f_inode y) n3) as (m3 & Hm3 & E3); [set_solver|by eapply node_old|done|]. simplify_eq.
    rewrite (lookup_name_at _ _ _ _ Hn3), (lookup_name_at _ _ _ _ Hm), E3, Dm2. cbn [node_entries]. rewrite find_entry_app, Hl. cbn [find_entry].
    destruct (decide (v = new_name)) as [->|Hvn]; [by rewrite Hnew, !decide_True|].
    rewrite (decide_False (P := new_name = v)) by congruence. rewrite (decide_False (P := f_inode y = f_inode y /\ v = new_name)) by tauto. by destruct (find_entry _ v).
Qed.
(** Not to the same name in the same directory *)
Lemma rename_names {E : stop -> Prop} s f x new_f y name new_name : fs_inv s -> files s !! f = Some x -> files s !! new_f = Some y ->
  f_inode x <> f_inode y \/ name <> new_name -> short_name new_name ->
  (forall p0 n0, lookup_name s (f_inode x) name = Some p0 -> inodes s !! p0 = Some n0 -> refcount n0 = 2 ^ 31 - 1 -> E StopOverflow) ->
  (forall p0, lookup_name s (f_inode x) name = Some p0 -> is_dir s (f_inode y) = false -> E StopAssert) ->
  (forall p0 m, lookup_name s (f_inode x) name = Some p0 -> lookup_name s (f_inode y) new_name = None -> inodes s !! f_inode y = Some m ->
     2 ^ 31 <= node_size (i_data m) + dirent_size new_name -> E StopOverflow) ->
  wp (fs_renameat f name new_f new_name) E (fun ret s' => fs_inv s' /\
    match lookup_name s (f_inode x) name with
    | None => ret = - P9_ENOENT /\ s' = s
    | Some p0 =>
        if from_option (is_dir s) false (lookup_name s (f_inode y) new_name) then ret = - P9_EEXIST /\ s' = s
        else ret = 0 /\ moved (f_inode x) (f_inode y) name new_name p0 s s'
    end) s.
Proof.
  intros I Hf Hg Hne Hs HO1 HA HO2. destruct (file_node_inv _ _ _ I Hf) as [n Hn]. destruct (file_node_inv _ _ _ I Hg) as [m Hm].
  rewrite (lookup_name_at _ _ _ _ Hn) in *. rewrite (lookup_name_at _ _ _ _ Hm) in *.
  assert (is_dir s (f_inode y) = (i_type (i_data m) =? 4)) as Hdir by (unfold is_dir; by rewrite Hm). rewrite Hdir in HA.
  apply wp_bind. eapply wp_get_file; [done|]. apply wp_bind. eapply wp_get_file; [done|]. apply wp_bind. eapply inode_search_ok; [done|].
  destruct (find_entry _ name) as [p0|] eqn:E0; [|by apply wp_ret]. apply wp_bind. eapply inode_search_ok; [done|]. cbv zeta.
  destruct (find_entry _ new_name) as [p1|] eqn:E1.
  2: { eapply (rename_move [] s f x new_f y name new_name p0 n m); try done.
       - intros n0. by apply HO1.
       - intros HT. apply (HA p0); [done|lia].
       - by eapply HO2. }
  destruct (entry_live _ _ _ _ I _ _ p1 Hm) as [n1 Hn1]; [by eapply find_entry_snd|].
  cbn [from_option]. unfold is_dir at 1. rewrite Hn1.
  apply wp_bind. eapply wp_get_inode; [done|]. destruct (i_type (i_data n1) =? 4) eqn:HT; [by apply wp_ret|].
  apply wp_bind. eapply wp_mono; [by eapply (dirent_delete_no_decref_ok None [] [])|]. cbv beta.
  intros _ s1 (I1 & F1 & (m1 & Hm1 & Em & Tm & Rm & _ & Sm) & K1).
  assert (node_entries (i_data n1) = []) as En1 by (by destruct (i_data n1)).
  assert (p1 <> f_inode y) as Hpy by (intros ->; simplify_eq; by rewrite En1 in E1).
  assert (p1 <> f_inode x) as Hpx by (intros ->; simplify_eq; by rewrite En1 in E0).
  rewrite (proj2 (andb_false_iff _ _)).
  2: { destruct Hne as [H|H]; [left; by apply Z.eqb_neq|right; by apply bool_decide_eq_false]. }
  pose proof (entries_nodup None [] [] s (f_inode y) m I Hm) as Hnd.
  assert (forall v, v <> new_name -> lookup_name s1 (f_inode y) v = lookup_name s (f_inode y) v) as Hy.
  { intros v Hv. rewrite (lookup_name_at _ _ _ _ Hm1), (lookup_name_at _ _ _ _ Hm), Em. by apply find_remove_ne. }
  assert (exists n1, inodes s1 !! f_inode x = Some n1 /\ find_entry (node_entries (i_data n1)) name = Some p0) as (n2 & Hn2 & Hfe2).
  { destruct (decide (f_inode x = f_inode y)) as [Heq|Hd].
    - exists m1. rewrite Heq. split; [done|]. rewrite Heq in Hn. simplify_eq. rewrite Em, find_remove_ne; [done|]. by destruct Hne.
    - destruct (file_track _ _ _ _ _ _ _ _ _ _ _ _ I Hf Hn I1 F1) as (_ & n2 & Hn2 & Dn2); [done|set_solver|].
      exists n2. split; [done|]. by rewrite Dn2. }
  pose proof Hf as Hf0. pose proof Hg as Hg0. rewrite <- (fr_files _ _ _ F1) in Hf, Hg. eapply (rename_move [p1]); try done.
  - rewrite Em. by apply find_remove_eq.
  - intros n0 Hn0 Hr. destruct (decide (p0 = f_inode y)) as [->|H0]; [apply (HO1 _ m eq_refl Hm); congruence|]. rewrite K1 in Hn0 by done. by apply (HO1 _ n0 eq_refl Hn0).
  - intros HT'. apply (HA p0); [done|]. rewrite Tm in HT'. lia.
  - pose proof (fi_data _ _ _ _ I _ _ Hm) as Hdm. destruct (i_data m) as [|lm szm| | | | |]; try done. destruct Hdm as (_ & _ & _ & Hsz).
    rewrite Sm. cbn [node_size]. lia.
  - intros s' I' [M1 M2]. apply wp_bind. eapply wp_mono; [apply (decref_wp None [] []); [done|]|].
    { intros nx Hnx _ _ Hex. exfalso. apply Hex. pose proof (node_old _ _ _ _ _ _ I Hn1). pose proof (fr_ptr _ _ _ F1).
      destruct (fr_data _ _ _ M1 p1 nx) as (ny & Hny & ->); [set_solver|lia|done|].
      destruct (fr_data _ _ _ F1 p1 ny) as (nz' & Hnz & ->); [set_solver|lia|done|]. by simplify_eq. }
    cbv beta. intros _ s'' (I'' & F'' & K'').
    apply wp_ret. split; [done|]. split; [done|]. split.
    { eapply frame_trans; [eapply frame_mono; [|exact F1]; set_solver|]. eapply frame_trans; [exact M1|]. eapply frame_mono; [|exact F'']; set_solver. }
    intros d v Hd [n3 Hn3]. assert (is_Some (inodes s' !! d)) as Hd'.
    { destruct (fr_data _ _ _ F'' d n3) as (n4 & Hn4 & _); [set_solver| |done|by exists n4].
      pose proof (node_old _ _ _ _ _ _ I Hn). pose proof (node_old _ _ _ _ _ _ I Hm). pose proof (fr_ptr _ _ _ F1). pose proof (fr_ptr _ _ _ M1).
      destruct Hd as [-> | ->]; lia. }
    rewrite (frame_names _ _ _ _ _ _ I' F'' d v) by (set_solver || done || by exists n3). rewrite M2 by done.
    destruct (decide (d = f_inode y /\ v = new_name)); [done|]. destruct (decide (d = f_inode x /\ v = name)); [done|].
    destruct (decide (d = f_inode y)) as [->|Hdy]; [apply Hy; naive_solver|]. destruct Hd as [-> | ->]; [|done].
    apply (frame_names _ _ _ _ _ _ I F1); [set_solver|by exists n|by exists n2].
Qed.
Lemma rename_safe s f x new_f y name new_name : fs_inv s -> files s !! f = Some x -> files s !! new_f = Some y ->
  f_inode x <> f_inode y \/ name <> new_name -> short_name new_name -> wpa (fs_renameat f name new_f new_name) (fun _ s' => fs_inv s') s.
Proof.
  intros I Hf Hg Hne Hs. eapply wp_mono; [eapply rename_names; try done; intros; (by left) || (by right)|]. by intros r s' [? _].
Qed.
Lemma is_empty_dir_In l name p : is_empty_dir l = true -> (name, p) ∈ l -> name = str "."%string \/ name = str ".."%string.
Proof.
  intros H Hin%list_elem_of_In. unfold is_empty_dir in H. rewrite forallb_forall in H. specialize (H _ Hin). cbn [fst] in H.
  apply orb_true_iff in H as [H%bool_decide_eq_true|H%bool_decide_eq_true]; auto.
Qed.
(** The name goes; a directory that is removed loses its entries "." and "..". *)
Definition removed (p p1 : Z) (name : list Z) s s' : Prop :=
  frame [p; p1] s s' /\ forall m, lookup_name s' p m = if decide (m = name) then None else lookup_name s p m.
Lemma unlink_names {E : stop -> Prop} s f x name : fs_inv s -> files s !! f = Some x ->
  (forall p1 n1 q m, lookup_name s (f_inode x) name = Some p1 -> inodes s !! p1 = Some n1 -> q ∈ (node_entries (i_data n1)).*2 ->
     adrift s p1 q m -> E StopAssert) ->
  wp (fs_unlinkat f name) E (fun ret s' => fs_inv s' /\
    if decide (name = str "."%string \/ name = str ".."%string) then ret = - P9_ENOENT /\ s' = s
    else match lookup_name s (f_inode x) name with
         | None => ret = - P9_ENOENT /\ s' = s
         | Some p1 => if full_dir s p1 then ret = - P9_ENOTEMPTY /\ s' = s else ret = 0 /\ removed (f_inode x) p1 name s s'
         end) s.
Proof.
  intros I Hf HA. destruct (file_node_inv _ _ _ I Hf) as [n Hn]. rewrite (lookup_name_at _ _ _ _ Hn) in *. apply wp_bind. eapply wp_get_file; [done|].
  destruct (decide _) as [|Hdot]; [by apply wp_ret|]. apply wp_bind. eapply inode_search_ok; [done|].
  destruct (find_entry _ name) as [p1|] eqn:Ef; [|by apply wp_ret].
  destruct (entry_live _ _ _ _ I _ _ p1 Hn) as [n1 Hn1]; [by eapply find_entry_snd|].
  assert (forall s', fs_inv s' -> frame [p1] s s' -> (exists n', inodes s' !! f_inode x = Some n' /\ i_data n' = i_data n) -> p1 <> f_inode x ->
    (forall m, inodes s' !! p1 = Some m -> node_entries (i_data m) = []) ->
    wp (_ ← inode_dirent_delete (f_inode x) name p1; mret 0) E (fun ret s'' => fs_inv s'' /\ ret = 0 /\ removed (f_inode x) p1 name s s'') s') as Hdel.
  { intros s' I' F' (n' & Hn' & E') Hpx He'. apply wp_bind. eapply wp_mono; [eapply (dirent_delete_wp None [] [] s'); [done|done|by rewrite E'|]|].
    { intros m Hm _ _ [?|Hc]; [done|]. by rewrite (He' _ Hm) in Hc. }
    cbv beta.
    intros _ s2 (I2 & F2 & H2). apply wp_ret. split; [done|]. split; [done|]. split.
    - eapply frame_trans; (eapply frame_mono; [|eassumption]; set_solver).
    - rewrite <- (fr_files _ _ _ F'), <- (fr_files _ _ _ F2) in Hf. destruct (file_node_inv _ _ _ I2 Hf) as [n2 Hn2]. destruct (H2 _ Hn2) as [E2 _].
      intros m. rewrite (lookup_name_at _ _ _ _ Hn2), (lookup_name_at _ _ _ _ Hn), E2, E'. case_decide as Hm.
      + subst m. apply find_remove_eq. by eapply (entries_nodup None [] [] s).
      + by apply find_remove_ne. }
  assert (frame [p1] s s) as Fs by apply frame_refl.
  unfold full_dir. rewrite Hn1.
  apply wp_bind. eapply wp_get_inode; [done|]. assert (node_entries (i_data n1) = [] -> p1 <> f_inode x) as Hpx by (intros He ->; simplify_eq; by rewrite He in Ef).
  destruct (i_data n1) as [|de_list size| | | | |] eqn:E1;
    try (apply Hdel; [done|done|by exists n|by apply Hpx|intros m Hm; simplify_eq; by rewrite E1]).
  destruct (negb _) eqn:He; [by apply wp_ret|]. apply negb_false_iff in He.
  assert (f_inode x <> p1) as Hne.
  { intros Heq. rewrite Heq in Hn. simplify_eq. rewrite E1 in Ef. apply find_entry_In in Ef. apply Hdot. by eapply is_empty_dir_In. }
  apply wp_bind. eapply wp_mono; [eapply (flush_dir_ok None [] [] s p1 n1); try done|].
  - exists f, x, n. split; [done|]. split; [done|]. split; [done|]. split; [done|]. by eapply find_entry_snd.
  - by rewrite E1.
  - intros q m Hq Ha. by eapply (HA p1 n1 q m).
  - cbv beta. intros _ s1 (I1 & F1 & n2' & Hn2' & En2 & _). apply Hdel; [done|done| |done|intros m Hm; by simplify_eq].
    destruct (file_track _ _ _ _ _ _ _ _ _ _ _ _ I Hf Hn I1 F1) as (_ & n2 & Hn2 & Dn2); [done|set_solver|]. by exists n2.
Qed.
Lemma unlink_safe s f x name : fs_inv s -> files s !! f = Some x -> wpa (fs_unlinkat f name) (fun _ s' => fs_inv s') s.
Proof. intros I Hf. eapply wp_mono; [eapply unlink_names; [done|done|by left]|]. by intros r s' [? _]. Qed.
(** ** Content of files *)
Lemma local_file s p n r : fs_inv s -> inodes s !! p = Some n -> i_data n = FT_REG r ->
  reg_state r = REG_STATE_LOCAL /\ is_fscmd r = false /\ 0 <= reg_size r < SIZE_LIMIT /\ reg_size r <= Z.of_nat (length (fbuf r)).
Proof. intros I Hn E. pose proof (fi_data _ _ _ _ I _ _ Hn) as Hd. by rewrite E in Hd. Qed.
Definition O_ACC (x : FSFile) : Z := open_flags x .& P9_O_NOACCESS.
(** What read gives and write leaves *)
Definition read_at (off count : Z) (c : list Z) : list Z := take (Z.to_nat count) (drop (Z.to_nat off) c).
Definition written (off : Z) (data c : list Z) : list Z :=
  splice (Z.to_nat off) data (resized (Z.max (Z.of_nat (length c)) (off + Z.of_nat (length data))) c).
Lemma read_ok {X} s f x n off buf count : fs_inv s -> files s !! f = Some x -> inodes s !! f_inode x = Some n -> 0 <= off ->
  Z.of_nat (length buf) = count -> count < 2 ^ 31 ->
  wp (fs_read f off buf count) X (fun r s' => s' = s /\
    r = match i_data n with
        | FT_REG g =>
            if negb (is_opened x) then (- P9_EPROTO, buf)
            else if O_ACC x =? P9_O_WRONLY then (- P9_EIO, buf)
            else let d := read_at off count (content g) in (Z.of_nat (length d), d ++ drop (length d) buf)
        | _ => (if is_opened x then - P9_EIO else - P9_EPROTO, buf)
        end) s.
Proof.
  intros I Hf Hn Ho Hb Hc. apply wp_bind. eapply wp_get_file; [done|]. apply wp_bind. eapply wp_get_inode; [done|].
  destruct (is_opened x); cbn [negb]; [|apply wp_ret; split; [done|]; by destruct (i_data n)].
  destruct (i_data n) as [g| | | | | |] eqn:E; try by apply wp_ret. destruct (local_file _ _ _ _ I Hn E) as (_ & -> & Hs & Hl).
  unfold O_ACC. apply wp_if; intros ->; [by apply wp_ret|]. unfold read_at, content. pose proof UINTPTR_W_pos.
  destruct (Z.leb_spec (reg_size g) off) as [Hle|Hgt].
  { apply wp_ret. split; [done|]. rewrite drop_ge by (rewrite length_take; lia). by rewrite take_nil. }
  cbv zeta. assert (u64 count = count) as Hu by (apply wrap_fits; unfold fits; lia). rewrite Hu.
  set (k := if reg_size g - off <? count then i32 (reg_size g - off) else count).
  assert (k = Z.min (reg_size g - off) count) as Hk.
  { unfold k. destruct (Z.ltb_spec (reg_size g - off) count); [rewrite swrap_id by lia|]; lia. }
  clearbody k. apply wp_bind. unfold file_buffer_read. rewrite !uptr_small by lia. apply wp_bind, wp_buf_load; [lia|lia|].
  set (d := take (Z.to_nat k) (drop (Z.to_nat off) (fbuf g))).
  assert (length d = Z.to_nat k) as Hd by (unfold d; rewrite length_take, length_drop; lia).
  assert (take (Z.to_nat count) (drop (Z.to_nat off) (take (Z.to_nat (reg_size g)) (fbuf g))) = d) as ->.
  { unfold d. rewrite skipn_firstn_comm, take_take. f_equal. lia. }
  apply wp_buf_store; [lia|lia|]. apply wp_ret. split; [done|]. f_equal; lia.
Qed.
Lemma write_ok {X} s f x n off buf : fs_inv s -> files s !! f = Some x -> inodes s !! f_inode x = Some n -> 0 <= off ->
  off + Z.of_nat (length buf) < SIZE_LIMIT ->
  wp (fs_write f off buf (Z.of_nat (length buf))) X (fun ret s' => fs_inv s' /\ frame [f_inode x] s s' /\
    match i_data n with
    | FT_REG g =>
        if is_opened x && negb (O_ACC x =? P9_O_RDONLY) && negb (bool_decide (buf = [])) then
          (ret = - P9_ENOSPC /\ s' = s /\ no_space s (reg_size g) (off + Z.of_nat (length buf))) \/
          (ret = Z.of_nat (length buf) /\ exists n' g', inodes s' !! f_inode x = Some n' /\ i_data n' = FT_REG g' /\
             content g' = written off buf (content g))
        else s' = s /\ ret = if negb (is_opened x) then - P9_EPROTO else if O_ACC x =? P9_O_RDONLY then - P9_EIO else 0
    | _ => s' = s /\ ret = if is_opened x then - P9_EIO else - P9_EPROTO
    end) s.
Proof.
  intros I Hf Hn Ho Hb. apply wp_bind. eapply wp_get_file; [done|]. apply wp_bind. eapply wp_get_inode; [done|].
  assert (forall P : Prop, P -> fs_inv s /\ frame [f_inode x] s s /\ P) as Hsame by (intros P HP; split; [done|]; split; [apply frame_refl|done]).
  destruct (is_opened x); cbn [negb andb]; [|apply wp_ret, Hsame; by destruct (i_data n)].
  destruct (i_data n) as [g| | | | | |] eqn:E; try by apply wp_ret, Hsame. destruct (local_file _ _ _ _ I Hn E) as (_ & -> & Hs & Hl).
  unfold O_ACC. destruct (_ =? P9_O_RDONLY); cbn [negb andb]; [by apply wp_ret, Hsame|].
  case_bool_decide as Hnil; cbn [negb]; [subst buf; by apply wp_ret, Hsame|].
  assert (0 < Z.of_nat (length buf)) as Hpos by (destruct buf; [done|cbn; lia]). rewrite (proj2 (Z.eqb_neq _ _)) by lia.
  pose proof (fi_data _ _ _ _ I _ _ Hn) as Hd. rewrite E in Hd. pose proof (length_file_content _ Hd) as Hlc.
  assert (UINTPTR_W - 1 <= 63) as HW by (destruct UINTPTR_W_ok as [HW|HW]; rewrite HW; lia).
  pose proof (Z.pow_le_mono_r 2 (UINTPTR_W - 1) 63 ltac:(lia) HW) as H63. fold SIZE_LIMIT in H63.
  assert (u64 (off + Z.of_nat (length buf)) = off + Z.of_nat (length buf)) as Hu.
  { apply wrap_fits. unfold fits. change (2 ^ 64) with (2 * 2 ^ 63). lia. }
  cbv zeta. rewrite Hu. set (end_ := off + Z.of_nat (length buf)) in *.
  apply wp_bind. eapply (wp_mono _ _ (fun err s1 => fs_inv s1 /\ frame [f_inode x] s s1 /\
    ((err = - P9_ENOSPC /\ s1 = s /\ no_space s (reg_size g) end_) \/ (err = 0 /\ exists n1 g1, inodes s1 !! f_inode x = Some n1 /\ i_data n1 = FT_REG g1 /\
       reg_size g1 = Z.max (reg_size g) end_ /\ content g1 = resized (Z.max (reg_size g) end_) (content g))))).
  { destruct (Z.ltb_spec (reg_size g) end_).
    - eapply wp_mono; [eapply truncate_ok; [done|done|lia]|]. intros err s1 (I1 & F1 & H1). split; [done|]. split; [done|]. rewrite E in H1.
      by rewrite Z.max_r by lia.
    - apply wp_ret. split; [done|]. split; [apply frame_refl|]. right. split; [done|]. exists n, g. split; [done|]. split; [done|].
      rewrite Z.max_l by lia. split; [done|]. rewrite <- Hlc. by rewrite resized_self. }
  cbv beta. intros err s1 (I1 & F1 & [(-> & -> & Hns)|(-> & n1 & g1 & Hn1 & E1 & Hg1 & Hc1)]).
  { cbn [nz]. apply wp_ret. split; [done|]. split; [done|]. by left. }
  change (nz 0) with false. cbv iota. destruct (local_file _ _ _ _ I1 Hn1 E1) as (Hst1 & Hcmd1 & Hs1 & Hl1).
  apply wp_bind. apply wp_bind, wp_gets. cbv beta. eapply wp_upd_inode; [exact Hn1|]. set (n2 := n_mtime _ n1). set (s2 := set_inodes _ s1).
  assert (fs_inv s2 /\ frame [] s1 s2) as [I2 F2] by by eapply meta_ok. assert (inodes s2 !! f_inode x = Some n2) as Hn2 by apply lookup_insert_eq.
  apply wp_bind. eapply wp_get_inode; [exact Hn2|]. change (i_data n2) with (i_data n1). rewrite E1.
  rewrite Hst1, !decide_False by done. apply wp_bind, wp_ret. apply wp_bind. unfold file_buffer_write.
  assert (SIZE_LIMIT <= 2 ^ 63) as HS by done. rewrite !uptr_small by lia. rewrite Nat2Z.id.
  apply wp_bind, wp_buf_load; [lia|lia|]. rewrite drop_0, firstn_all. apply wp_buf_store; [lia|lia|].
  apply wp_bind. eapply wp_upd_inode; [exact Hn2|]. apply wp_ret. set (data := splice _ _ _).
  set (n3 := n_data _ n2). set (s3 := set_inodes _ s2).
  assert (length data = length (fbuf g1)) as Hld by (apply length_splice; lia).
  assert (fs_inv s3) as I3.
  { pose proof (node_nonneg _ _ _ _ I2 _ _ Hn2). refine (inv_update None [] [] [] [] s2 _ n2 n3 (fs_blocks s2) I2 Hn2 _ _ _ _ _).
    - intros q. unfold delta, occ_ent, n3. cbn. rewrite E1. cbn. case_decide; lia.
    - intros q. unfold delta. cbn. case_decide; lia.
    - cbn in *. lia.
    - cbn. rewrite Hld. done.
    - unfold n3. cbn. rewrite E1. cbn. lia. }
  split; [exact I3|]. split.
  { eapply frame_trans; [exact F1|]. eapply frame_trans; [eapply frame_mono; [|exact F2]; set_solver|].
    refine (data_frame [_] _ n2 n3 (fs_blocks s2) s2 _ Hn2). apply list_elem_of_here. }
  right. split; [done|]. exists n3. eexists. split; [apply lookup_insert_eq|]. split; [done|].
  unfold written. rewrite Hlc. fold end_. rewrite <- Hc1. unfold content. cbn [reg_size fbuf]. unfold data.
  apply take_splice_in; lia.
Qed.
Lemma SIZE_LIMIT_pos : 0 < SIZE_LIMIT.
Proof. unfold SIZE_LIMIT. pose proof UINTPTR_W_pos. apply Z.pow_pos_nonneg; lia. Qed.
Lemma open_safe {X : stop -> Prop} s f x flags oi : fs_inv s -> files s !! f = Some x -> wp (fs_open f flags oi) X (fun _ s' => fs_inv s') s.
Proof.
  intros I Hf. destruct (file_node_inv _ _ _ I Hf) as [n Hn]. apply wp_bind. eapply wp_get_file; [done|]. apply wp_bind. eapply wp_get_inode; [done|].
  apply wp_bind. eapply wp_mono; [by eapply close_safe|]. cbv beta. intros _ s0 (I0 & ->). set (s0 := set_files _ s) in *. set (x0 := fl_opened false x) in *.
  assert (files s0 !! f = Some x0) as Hf0 by apply lookup_insert_eq. cbv zeta.
  destruct (file_old _ _ _ _ _ _ I0 Hf0) as [_ Hr].
  apply wp_if; intros _; [by apply wp_ret|]. apply wp_if; intros _; [by apply wp_ret|].
  apply wp_bind. eapply wp_upd_file; [done|]. set (x1 := fl_flags flags x0). set (s1 := set_files _ s0).
  assert (fs_inv s1) as I1 by by eapply upd_file_ok. assert (files s1 !! f = Some x1) as Hf1 by apply lookup_insert_eq.
  assert (inodes s1 !! f_inode x = Some n) as Hn1 by done.
  assert (forall s', fs_inv s' -> files s' !! f = Some x1 ->
    wp (_ ← upd_file f (fl_opened true); qid ← inode_to_qid (f_inode x); mret (0, qid)) X (fun _ s'' => fs_inv s'') s') as Hdo.
  { intros s' I' Hf'. apply wp_bind. eapply wp_upd_file; [done|]. destruct (file_node_inv _ _ _ I' Hf') as [n' Hn'].
    apply wp_bind. eapply inode_to_qid_ok; [exact Hn'|]. apply wp_ret. by eapply upd_file_ok. }
  apply wp_if; intros HT; [|by apply Hdo].
  apply wp_bind. eapply (wp_mono _ _ (fun _ s2 => fs_inv s2 /\ files s2 !! f = Some x1 /\ exists n2, inodes s2 !! f_inode x = Some n2 /\
    i_type (i_data n2) = 8)).
  - apply wp_if; intros _; [|apply wp_ret; split; [done|]; split; [done|]; exists n; split; [done|lia]]. apply wp_bind.
    eapply wp_mono; [eapply (truncate_ok None [] [] s1); [done|done|pose proof SIZE_LIMIT_pos; lia]|].
    cbv beta. intros ret s2 (I2 & F2 & H2). apply wp_ret. split; [done|]. split; [by rewrite (fr_files _ _ _ F2)|].
    destruct (i_data n) as [r| | | | | |] eqn:E; try done. destruct H2 as [(_ & -> & _)|(_ & n' & r' & Hn' & E' & _)].
    + exists n. split; [done|]. by rewrite E.
    + exists n'. split; [done|]. by rewrite E'.
  - cbv beta. intros _ s2 (I2 & Hf2 & n2 & Hn2 & T2). apply wp_bind. eapply wp_get_inode; [done|].
    destruct (i_data n2) as [r| | | | | |] eqn:E; try done. destruct (local_file _ _ _ _ I2 Hn2 E) as [-> _]. by apply Hdo.
Qed.
Lemma setattr_safe {X : stop -> Prop} s f x mask mode uid gid size t1 t2 t3 t4 : fs_inv s -> files s !! f = Some x ->
  (nz (mask .& P9_SETATTR_SIZE) = true -> 0 <= size < SIZE_LIMIT) ->
  wp (fs_setattr f mask mode uid gid size t1 t2 t3 t4) X (fun _ s' => fs_inv s') s.
Proof.
  intros I Hf Hsz. destruct (file_node_inv _ _ _ I Hf) as [n Hn]. apply wp_bind. eapply wp_get_file; [done|]. cbv zeta.
  assert (forall (b : bool) g (k : unit -> MF Z) s1, (forall n, i_data (g n) = i_data n /\ refcount (g n) = refcount n /\ open_count (g n) = open_count n) ->
    fs_inv s1 -> files s1 !! f = Some x -> (forall s2, fs_inv s2 -> files s2 !! f = Some x -> wp (k tt) X (fun _ s' => fs_inv s') s2) ->
    wp (a ← (if b then upd_inode (f_inode x) g else mret tt); k a) X (fun _ s' => fs_inv s') s1) as Hstep.
  { intros b g k s1 Hg I1 Hf1 Hk. apply wp_bind. destruct b; [|by apply wp_ret, Hk]. destruct (file_node_inv _ _ _ I1 Hf1) as [n1 Hn1].
    eapply wp_upd_inode; [done|]. apply Hk; [|done]. destruct (Hg n1) as (?&?&?). by eapply meta_ok. }
  apply Hstep; [done|done|done|]. intros s1 I1 Hf1. apply Hstep; [done|done|done|]. intros s2 I2 Hf2. apply Hstep; [done|done|done|]. intros s3 I3 Hf3.
  apply wp_bind. eapply (wp_mono _ _ (fun _ s4 => fs_inv s4 /\ files s4 !! f = Some x)).
  { destruct (nz _) eqn:Em; [|by apply wp_ret]. destruct (file_node_inv _ _ _ I3 Hf3) as [n3 Hn3].
    eapply wp_mono; [eapply (truncate_ok None [] [] s3); [done|done|by apply Hsz]|]. intros ret s4 (I4 & F4 & _). split; [done|]. by rewrite (fr_files _ _ _ F4). }
  cbv beta. intros ret s4 [I4 Hf4]. apply wp_if; intros _; [by apply wp_ret|]. destruct (file_node_inv _ _ _ I4 Hf4) as [n4 Hn4].
  apply wp_bind. eapply (wp_mono _ _ (fun _ s5 => fs_inv s5 /\ files s5 !! f = Some x)).
  { destruct (nz (mask .& P9_SETATTR_MTIME)); [|by apply wp_ret]. apply wp_if; intros _; [|apply wp_bind, wp_gets];
      (eapply wp_upd_inode; [done|]; split; [by eapply meta_ok|done]). }
  cbv beta. intros _ s5 [I5 Hf5]. destruct (file_node_inv _ _ _ I5 Hf5) as [n5 Hn5]. apply wp_bind.
  destruct (nz (mask .& P9_SETATTR_CTIME)); [|by apply wp_ret, wp_ret]. apply wp_bind, wp_gets. eapply wp_upd_inode; [done|]. apply wp_ret. by eapply meta_ok.
Qed.

End Facts.
