(* ===== verification/FsMemRun.v ===== *)
(** * The file system in memory: every run of its operations, and the listing of directories *)
From S2P Require Export Virtio9pMsg FsMemFacts.
From stdpp Require Import strings.
#[local] Open Scope Z_scope.

(** ** The operations as requests *)
Inductive fs_op :=
| OpStatfs
| OpAttach (uid : Z) (uname aname : list Z)
| OpWalk (f : Z) (names : list (list Z))
| OpMkdir (f : Z) (name : list Z) (mode gid : Z)
| OpOpen (f flags : Z) (oi : P9OpenInfo)
| OpCreate (f : Z) (name : list Z) (flags mode gid : Z)
| OpStat (f : Z)
| OpSetattr (f mask mode uid gid size atime_sec atime_nsec mtime_sec mtime_nsec : Z)
| OpClose (f : Z)
| OpDelete (f : Z)
| OpReaddir (f offset : Z) (buf : list Z)
| OpRead (f offset : Z) (buf : list Z)
| OpWrite (f offset : Z) (buf : list Z)
| OpLink (df f : Z) (name : list Z)
| OpSymlink (f : Z) (name symgt : list Z) (gid : Z)
| OpMknod (f : Z) (name : list Z) (mode major minor gid : Z)
| OpReadlink (buf : list Z) (f : Z)
| OpRenameat (f : Z) (name : list Z) (new_f : Z) (new_name : list Z)
| OpUnlinkat (f : Z) (name : list Z)
| OpLock (f : Z) (lock : FSLock)
| OpGetlock (f : Z) (lock : FSLock).

Section Run.
Context `{cfg : Config} `{fh : !FsHost}.
Local Abbreviation MF := (M FSDeviceMem).
Implicit Types s : FSDeviceMem.
Local Abbreviation wpa m := (wp m may_stop).

Definition ignore {A} (m : MF A) : MF unit := _ ← m; mret tt.
Definition run_op (o : fs_op) : MF unit :=
  match o with
  | OpStatfs => ignore fs_statfs
  | OpAttach uid uname aname => ignore (fs_attach uid uname aname)
  | OpWalk f names => ignore (fs_walk f names)
  | OpMkdir f name mode gid => ignore (fs_mkdir f name mode gid)
  | OpOpen f flags oi => ignore (fs_open f flags oi)
  | OpCreate f name flags mode gid => ignore (fs_create f name flags mode gid)
  | OpStat f => ignore (fs_stat f)
  | OpSetattr f mask mode uid gid size t1 t2 t3 t4 => ignore (fs_setattr f mask mode uid gid size t1 t2 t3 t4)
  | OpClose f => fs_close f
  | OpDelete f => fs_delete f
  | OpReaddir f offset buf => ignore (fs_readdir f offset buf (Z.of_nat (length buf)))
  | OpRead f offset buf => ignore (fs_read f offset buf (Z.of_nat (length buf)))
  | OpWrite f offset buf => ignore (fs_write f offset buf (Z.of_nat (length buf)))
  | OpLink df f name => ignore (fs_link df f name)
  | OpSymlink f name symgt gid => ignore (fs_symlink f name symgt gid)
  | OpMknod f name mode major minor gid => ignore (fs_mknod f name mode major minor gid)
  | OpReadlink buf f => ignore (fs_readlink buf f)
  | OpRenameat f name new_f new_name => ignore (fs_renameat f name new_f new_name)
  | OpUnlinkat f name => ignore (fs_unlinkat f name)
  | OpLock f lock => ignore (fs_lock f lock)
  | OpGetlock f lock => ignore (fs_getlock f lock)
  end.
Definition op_files (o : fs_op) : list Z :=
  match o with
  | OpStatfs | OpAttach _ _ _ => []
  | OpLink df f _ => [df; f]
  | OpRenameat f _ new_f _ => [f; new_f]
  | OpWalk f _ | OpMkdir f _ _ _ | OpOpen f _ _ | OpCreate f _ _ _ _ | OpStat f | OpSetattr f _ _ _ _ _ _ _ _ _ | OpClose f | OpDelete f
  | OpReaddir f _ _ | OpRead f _ _ | OpWrite f _ _ | OpSymlink f _ _ _ | OpMknod f _ _ _ _ _ | OpReadlink _ f | OpUnlinkat f _
  | OpLock f _ | OpGetlock f _ => [f]
  end.
(** The new names that a request brings *)
Definition op_names (o : fs_op) : list (list Z) :=
  match o with
  | OpMkdir _ name _ _ | OpCreate _ name _ _ _ | OpLink _ _ name | OpSymlink _ name _ _ | OpMknod _ name _ _ _ _
  | OpRenameat _ _ _ name => [name]
  | _ => []
  end.
(** The files are those of the device, and the names are strings of the protocol.  Sizes and the ends of writes are below the half of the
    range of size_t, a buffer is smaller than 2^31, and a name is not moved onto itself. *)
Definition op_ok s (o : fs_op) : Prop :=
  Forall (fun f => is_Some (files s !! f)) (op_files o) /\ Forall short_name (op_names o) /\
  match o with
  | OpSetattr _ mask _ _ _ size _ _ _ _ => nz (mask .& P9_SETATTR_SIZE) = true -> 0 <= size < SIZE_LIMIT
  | OpReaddir _ offset buf | OpRead _ offset buf => 0 <= offset /\ Z.of_nat (length buf) < 2 ^ 31
  | OpWrite _ offset buf => 0 <= offset /\ offset + Z.of_nat (length buf) < SIZE_LIMIT
  | OpReadlink buf _ => buf <> [] /\ Z.of_nat (length buf) < 2 ^ 31
  | OpRenameat f name new_f new_name => f_inode <$> files s !! f <> f_inode <$> files s !! new_f \/ name <> new_name
  | _ => True
  end.

(** ** Listing *)
Definition dirent_bytes s (offset : Z) (de : list Z * Z) : list Z :=
  match inodes s !! de.2 with
  | Some n => [qid_type (i_data n)] ++ le32 0 ++ le64 (inode_num n) ++ le64 (offset + 1) ++ [i_type (i_data n)] ++
              le16 (Z.of_nat (length de.1)) ++ de.1
  | None => []
  end.
Definition rec_len (de : list Z * Z) : Z := 24 + Z.of_nat (length de.1).
(** The entries that have room *)
Fixpoint fitting (room : Z) (l : list (list Z * Z)) : list (list Z * Z) :=
  match l with [] => [] | de :: l' => if room <? rec_len de then [] else de :: fitting (room - rec_len de) l' end.
Fixpoint dirents s (offset : Z) (l : list (list Z * Z)) : list Z :=
  match l with [] => [] | de :: l' => dirent_bytes s offset de ++ dirents s (offset + 1) l' end.
Definition live_entries s (l : list (list Z * Z)) : Prop := forall de, In de l -> is_Some (inodes s !! de.2).
Lemma length_dirent s offset de : is_Some (inodes s !! de.2) -> Z.of_nat (length (dirent_bytes s offset de)) = rec_len de.
Proof.
  intros [n Hn]. unfold dirent_bytes, rec_len. rewrite Hn, !length_app, length_le16, length_le32, !length_le64. cbn [length]. lia.
Qed.
Lemma fitting_room l : forall room, 0 <= room -> foldr (fun de n => rec_len de + n) 0 (fitting room l) <= room.
Proof.
  induction l as [|de l IHl]; intros room Hr; cbn [fitting foldr]; [lia|].
  destruct (Z.ltb_spec room (rec_len de)); cbn [foldr]; [lia|].
  specialize (IHl (room - rec_len de) ltac:(lia)). lia.
Qed.
Lemma fitting_In room l de : In de (fitting room l) -> In de l.
Proof. revert room. induction l as [|x l IHl]; intros room; [done|]. cbn. destruct (_ <? _); [done|]. cbn. intros [->|H]; eauto. Qed.
Lemma length_dirents s l : live_entries s l -> forall offset, Z.of_nat (length (dirents s offset l)) = foldr (fun de n => rec_len de + n) 0 l.
Proof.
  induction l as [|de l IHl]; intros Hl offset; [done|]. cbn. rewrite length_app, Nat2Z.inj_add, length_dirent by (apply Hl; by left).
  rewrite IHl; [done|]. intros x Hx. apply Hl. by right.
Qed.
Lemma put_entries_ok {X} s l : live_entries s l -> forall pos offset count,
  wp (put_entries l pos offset count) X (fun out s' => s' = s /\ out = dirents s offset (fitting (count - pos) l)) s.
Proof.
  induction l as [|[name p] l IHl]; intros Hl pos offset count; [by apply wp_ret|]. cbn [put_entries fitting]. cbv zeta.
  destruct (Hl (name, p) (or_introl eq_refl)) as [n Hn]. cbn [snd] in Hn. unfold rec_len at 1. cbn [fst].
  replace (count - pos <? 24 + Z.of_nat (length name)) with (count <? pos + (13 + 8 + 1 + 2 + Z.of_nat (length name)))
    by (destruct (Z.ltb_spec count (pos + (13 + 8 + 1 + 2 + Z.of_nat (length name)))); destruct (Z.ltb_spec (count - pos) (24 + Z.of_nat (length name))); lia).
  apply wp_if; intros ->; [by apply wp_ret|]. apply wp_bind. eapply wp_get_inode; [done|]. apply wp_bind.
  eapply wp_mono; [apply IHl; intros x Hx; apply Hl; by right|]. cbv beta. intros rest s' (-> & ->). apply wp_ret. split; [done|].
  cbn [dirents]. unfold dirent_bytes. cbn [fst snd]. rewrite Hn, <- !app_assoc.
  by replace (count - pos - rec_len (name, p)) with (count - (pos + (13 + 8 + 1 + 2 + Z.of_nat (length name)))) by (unfold rec_len; cbn [fst]; lia).
Qed.
Lemma skip_entries_ok l : forall n, 0 <= n -> skip_entries l n = if Z.of_nat (length l) <? n then None else Some (drop (Z.to_nat n) l).
Proof.
  induction l as [|de l IHl]; intros n Hn; cbn [skip_entries length].
  - destruct (Z.ltb_spec 0 n); [by rewrite (proj2 (Z.ltb_lt _ _)) by lia|]. replace n with 0 by lia. done.
  - destruct (Z.ltb_spec 0 n).
    + rewrite IHl by lia. replace (Z.to_nat n) with (S (Z.to_nat (n - 1))) by lia. cbn [drop].
      destruct (Z.ltb_spec (Z.of_nat (length l)) (n - 1)); destruct (Z.ltb_spec (Z.of_nat (S (length l))) n); lia || done.
    + replace n with 0 by lia. by rewrite (proj2 (Z.ltb_ge _ _)) by lia.
Qed.
Lemma entries_live D R O s p n : fs_inv_at D R O s -> inodes s !! p = Some n -> live_entries s (node_entries (i_data n)).
Proof. intros I Hn de Hde. eapply entry_live; [done|done|]. apply list_elem_of_In. by apply in_map. Qed.
Lemma readdir_ok {X} s f x n offset buf : fs_inv s -> files s !! f = Some x -> inodes s !! f_inode x = Some n -> 0 <= offset ->
  wp (fs_readdir f offset buf (Z.of_nat (length buf))) X (fun r s' => s' = s /\
    if is_opened x && (i_type (i_data n) =? 4) then
      let out := dirents s offset (fitting (Z.of_nat (length buf)) (drop (Z.to_nat offset) (node_entries (i_data n)))) in
      r = (Z.of_nat (length out), out ++ drop (length out) buf)
    else r = (- P9_EPROTO, buf)) s.
Proof.
  intros I Hf Hn Ho. apply wp_bind. eapply wp_get_file; [done|]. apply wp_bind. eapply wp_get_inode; [done|].
  destruct (is_opened x); [|by apply wp_ret]. cbn [negb andb]. pose proof (entries_live _ _ _ _ _ _ I Hn) as Hl.
  destruct (i_data n) as [|l size| | | | |] eqn:E; try by apply wp_ret. cbn [i_type node_entries] in *. change (4 =? 4) with true. cbv iota zeta.
  rewrite skip_entries_ok by done. destruct (Z.ltb_spec (Z.of_nat (length l)) offset).
  { apply wp_ret. split; [done|]. by rewrite drop_ge by lia. }
  assert (live_entries s (drop (Z.to_nat offset) l)) as Hd.
  { intros de Hde. apply Hl. rewrite <- (take_drop (Z.to_nat offset) l). apply in_or_app. by right. }
  apply wp_bind. eapply wp_mono; [by apply put_entries_ok|]. cbv beta. intros out s' (-> & Hout). rewrite Z.sub_0_r in Hout. rewrite <- Hout.
  assert (Z.of_nat (length out) <= Z.of_nat (length buf)) as Hlen.
  { rewrite Hout, length_dirents; [apply fitting_room; lia|]. intros de Hde. apply Hd. by eapply fitting_In. }
  apply wp_bind, wp_buf_store; [lia|lia|]. apply wp_ret. split; [done|]. by unfold splice.
Qed.

(** ** Every run *)
Lemma ignore_safe {A X} (m : MF A) s : wp m X (fun _ s' => fs_inv s') s -> wp (ignore m) X (fun _ s' => fs_inv s') s.
Proof. intros H. apply wp_bind. eapply wp_mono; [done|]. intros a s' I. by apply wp_ret. Qed.
Lemma mono_inv {A X} (m : MF A) (Q : A -> FSDeviceMem -> Prop) s : wp m X Q s -> (forall a s', Q a s' -> fs_inv s') -> wp m X (fun _ s' => fs_inv s') s.
Proof. intros H HQ. eapply wp_mono; [done|]. done. Qed.
Lemma same_inv {A X} (m : MF A) (Q : A -> Prop) s : fs_inv s -> wp m X (fun a s' => s' = s /\ Q a) s -> wp m X (fun _ s' => fs_inv s') s.
Proof. intros I H. eapply mono_inv; [done|]. by intros a s' [-> _]. Qed.
Lemma check_lock_ok {X} s f x n : fs_inv s -> files s !! f = Some x -> inodes s !! f_inode x = Some n ->
  wp (check_lock f) X (fun _ s' => fs_inv s') s.
Proof. intros I Hf Hn. apply wp_bind. eapply wp_get_file; [done|]. apply wp_bind. eapply wp_get_inode; [done|]. by apply wp_ret. Qed.
Lemma readlink_ok {X} s f x n buf : fs_inv s -> files s !! f = Some x -> inodes s !! f_inode x = Some n -> buf <> [] -> Z.of_nat (length buf) < 2 ^ 31 ->
  wp (fs_readlink buf f) X (fun r s' => s' = s /\
    match i_data n with
    | FT_LNK name => let k := (Nat.min (length name) (length buf - 1)) in r = (0, take k name ++ 0 :: drop (k + 1) buf)
    | _ => r = (- P9_EIO, buf)
    end) s.
Proof.
  intros I Hf Hn Hb Hlen. apply wp_bind. eapply wp_get_file; [done|]. apply wp_bind. eapply wp_get_inode; [done|].
  assert (1 <= length buf)%nat as Hb1 by (destruct buf; [done|cbn; lia]).
  destruct (i_data n) as [| | | |name| |] eqn:E; try by apply wp_ret. cbv zeta. set (k := Nat.min (length name) (length buf - 1)).
  assert (min_int (Z.of_nat (length name)) (Z.of_nat (length buf) - 1) = Z.of_nat k) as ->.
  { unfold min_int, k. destruct (Z.ltb_spec (Z.of_nat (length name)) (Z.of_nat (length buf) - 1)); lia. }
  rewrite Nat2Z.id. assert (length (take k name) = k) as Hk by (rewrite length_take; lia).
  apply wp_bind, wp_buf_store; [lia|lia|]. apply wp_bind. apply wp_buf_store; [lia| |].
  { rewrite length_splice; [cbn; lia|lia]. }
  apply wp_ret. split; [done|]. f_equal. rewrite Nat2Z.id. unfold splice. cbn [Z.to_nat length]. rewrite Hk. rewrite take_0, app_nil_l.
  rewrite take_app_length' by done. f_equal. cbn [app]. f_equal. rewrite drop_app_ge by lia. rewrite drop_drop, Hk. f_equal. lia.
Qed.
(** The requests that make no name and take or release no inode *)
Definition op_plain (o : fs_op) : bool :=
  match o with
  | OpStatfs | OpOpen _ _ _ | OpStat _ | OpSetattr _ _ _ _ _ _ _ _ _ _ | OpClose _ | OpReaddir _ _ _ | OpRead _ _ _ | OpWrite _ _ _
  | OpReadlink _ _ | OpLock _ _ | OpGetlock _ _ => true
  | _ => false
  end.
(** These return. *)
Lemma run_plain {X} s o : fs_inv s -> op_ok s o -> op_plain o = true -> wp (run_op o) X (fun _ s' => fs_inv s') s.
Proof.
  intros I (Hf & _ & Ho) Hp. destruct o; try discriminate Hp; clear Hp; cbn [run_op op_files] in *; try (apply Forall_cons in Hf as [[x Hx] _]);
    try (destruct (file_node_inv _ _ _ I Hx) as [n Hn]); try apply ignore_safe.
  - apply wp_bind, wp_gets. by apply wp_ret.
  - by eapply open_safe.
  - apply wp_bind. eapply wp_get_file; [done|]. apply wp_bind. eapply wp_get_inode; [done|]. apply wp_bind. eapply inode_to_qid_ok; [done|].
    apply wp_bind, wp_gets. by apply wp_ret.
  - by eapply setattr_safe.
  - eapply mono_inv; [by eapply close_safe|]. by intros a s' [? _].
  - eapply same_inv; [done|]. eapply readdir_ok; try done; by destruct Ho.
  - eapply same_inv; [done|]. eapply read_ok; try done; by destruct Ho.
  - eapply mono_inv; [eapply write_ok; try done; by destruct Ho|]. by intros a s' [? _].
  - eapply same_inv; [done|]. eapply readlink_ok; try done; by destruct Ho.
  - by eapply check_lock_ok.
  - apply wp_bind. eapply wp_mono; [by eapply check_lock_ok|]. intros ret s' I'. by apply wp_ret.
Qed.
Lemma run_op_safe s o : fs_inv s -> op_ok s o -> wpa (run_op o) (fun _ s' => fs_inv s') s.
Proof.
  intros I Hok. destruct (op_plain o) eqn:Hp; [by apply run_plain|]. destruct Hok as (Hf & Hs & Ho).
  destruct o; try discriminate Hp; clear Hp; cbn [run_op op_files op_names] in *; try (apply Forall_cons in Hs as [Hs _]);
    try (apply Forall_cons in Hf as [[x Hx] Hf]); try apply ignore_safe.
  - eapply mono_inv; [by apply attach_safe|]. by intros a s' [? _].
  - eapply mono_inv; [by eapply walk_safe|]. by intros a s' [? _].
  - by eapply mkdir_safe.
  - by eapply create_safe.
  - eapply mono_inv; [by eapply delete_safe|]. by intros a s' [? _].
  - apply Forall_cons in Hf as [[y Hy] _]. by eapply link_safe.
  - by eapply symlink_safe.
  - by eapply mknod_safe.
  - apply Forall_cons in Hf as [[y Hy] _]. eapply rename_safe; try done. rewrite Hx, Hy in Ho. destruct Ho as [Ho|Ho]; [left|by right].
    intros Heq. apply Ho. cbn. by rewrite Heq.
  - by eapply unlink_safe.
Qed.

(** The state after fs_mem_init: the root directory, with the entries "." and "..". *)
Definition root_entries : list (list Z * Z) := [(str "."%string, 1); (str ".."%string, 1)].
Definition root_state (t : Z * Z) : FSDeviceMem :=
  let s := fs_mem_empty in
  mkFs {[1 := mkINode 1 3 0 (FT_DIR root_entries (dir_bytes root_entries)) (0x1ff .& 0xfff) 0 0 t t]} ∅ 2 [1] 1 (1 ≪ 20)
    (to_blocks s (dir_bytes root_entries)) (fs_max_blocks s) 2 (block_size_log2 s) (block_size s) 1 [] 0.
Lemma incref_eq {X} s p n (Q : Z -> FSDeviceMem -> Prop) : inodes s !! p = Some n -> 0 <= refcount n < 2 ^ 31 - 1 ->
  Q p (set_inodes (<[p := n_refcount (refcount n + 1) n]> (inodes s)) s) -> wp (inode_incref p) X Q s.
Proof. intros Hn Hr HQ. apply wp_bind. eapply wp_get_inode; [done|]. apply wp_bind, wp_as_int; [|lia]. intros _. by apply wp_bind, wp_set_inode, wp_ret. Qed.
Lemma dir_add_eq {X} s p n l size name p1 (Q : unit -> FSDeviceMem -> Prop) : inodes s !! p = Some n -> i_data n = FT_DIR l size ->
  0 <= size < 2 ^ 30 -> short_name name ->
  Q tt (set_inodes (<[p := n_data (FT_DIR (l ++ [(name, p1)]) (size + dirent_size name)) n]> (inodes s))
    (set_blocks (fs_blocks s + (to_blocks s (size + dirent_size name) - to_blocks s size)) s)) ->
  wp (inode_dir_add p name p1) X Q s.
Proof.
  intros Hn E Hz Hs HQ. pose proof (dirent_size_bounds _ Hs). apply wp_bind. eapply wp_get_inode; [done|]. rewrite E.
  apply wp_bind, wp_as_int; [|lia]. intros _. by apply wp_bind, wp_modify, wp_set_inode.
Qed.
Lemma fs_mem_init_ok s : exists t, fs_mem_init s = Ok tt (root_state t).
Proof.
  set (s0 := fs_mem_empty). set (t := time_now (set_num_alloc 2 (set_next_ptr 2 s0))). exists t.
  assert (wp fs_mem_init (fun _ => False) (fun _ s' => s' = root_state t) s) as H; [|unfold wp in H; destruct (fs_mem_init s) as [[] s'|]; [by subst|done]].
  apply wp_bind. change (wp (p ← inode_new (FT_DIR [] 0) 0x1ff 0 0; p ← inode_incref p; _ ← inode_dir_add p (str "."%string) p;
    p ← inode_incref p; _ ← inode_dir_add p (str ".."%string) p; modify (set_root p)) (fun _ => False) (fun _ s' => s' = root_state t) s0).
  apply wp_bind. rewrite inode_new_eq. change (next_ptr s0) with 1. change (inode_num_alloc s0) with 1. change (u64 (1 + 1)) with 2. change (1 + 1) with 2.
  fold t. set (n0 := mkINode 1 1 0 _ _ _ _ _ _). set (s1 := set_inode_list _ _ _).
  pose proof (dirent_size_bounds (str "."%string) ltac:(done)). pose proof (dirent_size_bounds (str ".."%string) ltac:(done)).
  apply wp_bind. eapply incref_eq; [apply lookup_insert_eq|done|].
  apply wp_bind. eapply dir_add_eq; [apply lookup_insert_eq|done|done|done|].
  apply wp_bind. eapply incref_eq; [apply lookup_insert_eq|done|].
  apply wp_bind. eapply dir_add_eq; [apply lookup_insert_eq|done|lia|done|]. apply wp_modify.
  unfold root_state, set_root. cbn [inodes set_inodes set_blocks]. rewrite !insert_insert_eq.
  assert (forall s, block_size_log2 s = 12 -> block_size s = 4096 -> forall x, to_blocks s x = u64 (u64 x + 4096 - 1) ≫ 12) as Hb.
  { intros s' E1 E2 x. unfold to_blocks. by rewrite E1, E2. }
  cbn [fs_blocks files next_ptr inode_list inode_count inode_limit fs_max_blocks inode_num_alloc block_size_log2 block_size root_inode
    inode_cache_list inode_cache_size]. rewrite !Hb by done.
  assert (0 + dirent_size (str "."%string) + dirent_size (str ".."%string) = dir_bytes root_entries) as <- by (unfold root_entries, dir_bytes; cbn [foldr fst]; lia).
  unfold s1. cbn [inodes set_inode_list set_inodes set_num_alloc set_next_ptr].
  assert (u64 (u64 0 + 4096 - 1) ≫ 12 = 0) as -> by done. cbn [set_inode_list fs_blocks]. change (fs_blocks s0) with 0.
  f_equal. set (a := u64 (u64 (0 + dirent_size (str "."%string)) + 4096 - 1) ≫ 12).
  set (b := u64 (u64 (0 + dirent_size (str "."%string) + dirent_size (str ".."%string)) + 4096 - 1) ≫ 12). change (0 + (a - 0) + (b - a) = b). lia.
Qed.
Lemma root_inv t : fs_inv (root_state t).
Proof.
  set (s := root_state t). assert (forall p n, inodes s !! p = Some n -> p = 1 /\ refcount n = 3 /\ open_count n = 0 /\
    i_data n = FT_DIR root_entries (dir_bytes root_entries)) as Hn.
  { intros p n. cbn. intros [<- <-]%lookup_singleton_Some. done. }
  assert (forall p, links s p = if decide (p = 1) then 2 else 0) as Hl.
  { intros p. unfold links. cbn [inodes s root_state]. unfold singletonM, map_singleton. rewrite msum_insert, msum_empty by done.
    cbn. repeat case_decide; lia || congruence. }
  assert (forall p, opens None s p = 0) as Ho by (intros; apply msum_empty).
  assert (forall p, is_root s p = if decide (p = 1) then 1 else 0) as Hr by done.
  split; try done.
  - intros p n (-> & -> & _)%Hn. by rewrite Hl, Hr.
  - intros p n (-> & _ & -> & _)%Hn. by rewrite Ho.
  - intros p. unfold uses. rewrite Hl, Hr, Ho. cbn [inodes s root_state]. cbn [occ]. case_decide as Hp.
    + subst p. split; [lia|]. intros _. rewrite lookup_singleton_eq. by eexists.
    + rewrite lookup_singleton_ne by done. split; [by intros [??]|lia].
  - intros p n (_ & _ & _ & ->)%Hn. cbn [data_ok].
    pose proof (dirent_size_bounds (str "."%string) ltac:(done)). pose proof (dirent_size_bounds (str ".."%string) ltac:(done)).
    split; [apply (bool_decide_unpack _); by vm_compute|]. split; [by repeat constructor|]. split; [done|].
    unfold root_entries, dir_bytes. cbn [foldr fst]. lia.
  - cbn [fs_blocks inodes s root_state]. unfold singletonM, map_singleton. rewrite msum_insert, msum_empty by done. cbn [i_data node_size]. rewrite Z.add_0_r. done.
  - cbn. split; [apply NoDup_singleton|]. split; [|done]. intros p. rewrite list_elem_of_singleton. split.
    + intros ->. rewrite lookup_singleton_eq. by eexists.
    + intros [n [<- _]%lookup_singleton_Some]. done.
  - split; [|by intros f [??]]. intros p [n (-> & _)%Hn]. done.
  - intros p n (_ & -> & -> & _)%Hn. done.
Qed.
(** The states that the device comes to *)
Inductive fs_reach : FSDeviceMem -> Prop :=
| reach_init s s' : fs_mem_init s = Ok tt s' -> fs_reach s'
| reach_step s o s' : fs_reach s -> op_ok s o -> run_op o s = Ok tt s' -> fs_reach s'.
Lemma reach_inv s : fs_reach s -> fs_inv s.
Proof.
  induction 1 as [s s' H|s o s' _ IH Ho H].
  - destruct (fs_mem_init_ok s) as [t E]. rewrite E in H. injection H as <-. apply root_inv.
  - pose proof (run_op_safe s o IH Ho) as Hw. unfold wp in Hw. by rewrite H in Hw.
Qed.
(** C21: the device comes up with its root directory; in every state it comes to, each count of
    references and uses is exact and fits its int32_t, the size of a directory is that of its entries and fits its int,
    the blocks and the list of inodes are accounted for.  Every request that [op_ok] admits and that makes no name and
    takes or releases no inode returns; of the others each returns, or stops at an assertion, or where a count or a
    directory size passes 2^31: none reads or writes an object that was freed, or outside of a buffer.  [op_ok] leaves out the requests that do (FsMemDemo has them): a name that is moved onto
    itself, counts of 2^31 and more (negative as int), and sizes and ends of writes from the half of the range of
    size_t on.  Its names are shorter than 2^16, as the strings of the protocol are. *)
Theorem fs_mem_safe s : (exists s', fs_mem_init s = Ok tt s') /\
  (fs_reach s -> fs_inv s /\ forall o, op_ok s o -> (exists s', run_op o s = Ok tt s' /\ fs_inv s') \/
     op_plain o = false /\ (run_op o s = Stop StopAssert \/ run_op o s = Stop StopOverflow)).
Proof.
  split; [destruct (fs_mem_init_ok s) as [t E]; by eexists|]. intros H%reach_inv. split; [done|]. intros o Ho.
  assert (wp (run_op o) (fun r => op_plain o = false /\ may_stop r) (fun _ s' => fs_inv s') s) as Hw.
  { destruct (op_plain o) eqn:Hp; [by apply run_plain|]. pose proof (run_op_safe s o H Ho) as Hw. unfold wp in *. by destruct (run_op o s). }
  unfold wp in Hw. destruct (run_op o s) as [[] s'|r] eqn:E; [left; by exists s'|right].
  destruct Hw as (? & [-> | ->]); (split; [done|]); [by left|by right].
Qed.

(** ** A client that lists a directory: it reads pages until one is empty *)
Definition parse_dirent (l : list Z) : (list Z * Z * Z) * Z * list Z :=
  let k := Z.to_nat (get_le16 (drop 22 l) 0) in
  ((take k (drop 24 l), get_le64 (drop 5 l) 0, hd 0 (drop 21 l)), get_le64 (drop 13 l) 0, drop (24 + k) l).
(** The entries of a page, and the offset behind the last one *)
Fixpoint parse_page (fuel : nat) (l : list Z) (offset : Z) : list (list Z * Z * Z) * Z :=
  match fuel, l with
  | O, _ | _, [] => ([], offset)
  | S fuel, _ => let '(e, offset, l') := parse_dirent l in let r := parse_page fuel l' offset in (e :: r.1, r.2)
  end.
Fixpoint list_dir (fuel : nat) (f offset count : Z) : MF (list (list Z * Z * Z)) :=
  match fuel with
  | O => stop_with StopFuel
  | S fuel =>
      r ← fs_readdir f offset (replicate (Z.to_nat count) 0) count;
      if r.1 <=? 0 then mret []
      else
        let page := parse_page (length r.2) (take (Z.to_nat r.1) r.2) offset in
        rest ← list_dir fuel f page.2 count;
        mret (page.1 ++ rest)
  end.
Definition listed s (de : list Z * Z) : list Z * Z * Z :=
  match inodes s !! de.2 with Some n => (de.1, u64 (inode_num n), i_type (i_data n)) | None => (de.1, 0, 0) end.
Lemma get_le64_wrap v r : get_le64 (le64 v ++ r) 0 = u64 v.
Proof. by rewrite le64_bytes, !le32_u32, !le32_bytes, <- app_assoc, get_le64_words. Qed.
Lemma parse_dirent_bytes s offset de rest : is_Some (inodes s !! de.2) -> Z.of_nat (length de.1) < 65536 ->
  parse_dirent (dirent_bytes s offset de ++ rest) = (listed s de, u64 (offset + 1), rest).
Proof.
  intros [n Hn] Hlen. unfold dirent_bytes, listed. rewrite Hn. destruct de as [name p]. cbn [fst snd] in *.
  pose proof (get_le64_wrap (inode_num n)) as G1. pose proof (get_le64_wrap (offset + 1)) as G2.
  pose proof (fun r => get_le16_le16 (Z.of_nat (length name)) r ltac:(unfold fits; lia)) as G3.
  pose proof (length_le64 (inode_num n)) as L1. pose proof (length_le64 (offset + 1)) as L2. pose proof (length_le16 (Z.of_nat (length name))) as L3.
  revert G1 G2 G3 L1 L2 L3. generalize (le64 (inode_num n)) (le64 (offset + 1)) (le16 (Z.of_nat (length name))). intros A B C G1 G2 G3 L1 L2 L3.
  do 8 (destruct A as [|? A]; [done|]). do 8 (destruct B as [|? B]; [done|]). do 2 (destruct C as [|? C]; [done|]).
  destruct A; [|done]. destruct B; [|done]. destruct C; [|done]. cbn [app] in *.
  unfold parse_dirent. cbn [app drop hd]. rewrite le32_bytes. cbn [app drop hd]. rewrite G1, G2, G3, Nat2Z.id. cbn [Nat.add drop].
  rewrite drop_0. by rewrite take_app_length, drop_app_length.
Qed.
Lemma dirent_cons s offset de : is_Some (inodes s !! de.2) -> exists b l, dirent_bytes s offset de = b :: l.
Proof. intros [n Hn]. unfold dirent_bytes. rewrite Hn. by eexists _, _. Qed.
Lemma parse_page_dirents s l : live_entries s l -> (forall de, In de l -> Z.of_nat (length de.1) < 65536) ->
  forall fuel offset, (length l <= fuel)%nat -> 0 <= offset -> offset + Z.of_nat (length l) < 2 ^ 64 ->
  parse_page fuel (dirents s offset l) offset = (map (listed s) l, offset + Z.of_nat (length l)).
Proof.
  induction l as [|de l IHl]; intros Hl Hn fuel offset Hf Ho Hb.
  { destruct fuel; cbn; f_equal; lia. }
  destruct fuel as [|fuel]; [cbn in Hf; lia|]. cbn [dirents]. assert (is_Some (inodes s !! de.2)) as Hde by (apply Hl; by left).
  cbn [parse_page]. pose proof (dirent_cons s offset de Hde) as (b & tl & Eb).
  pose proof (parse_dirent_bytes s offset de (dirents s (offset + 1) l) Hde ltac:(apply Hn; by left)) as Hp.
  rewrite Eb in *. cbn [app] in *. rewrite Hp. cbn [length] in *. assert (u64 (offset + 1) = offset + 1) as -> by (apply wrap_fits; unfold fits; lia).
  rewrite IHl; [|intros x Hx; apply Hl; by right|intros x Hx; apply Hn; by right|lia|lia|lia]. cbn [fst snd map]. f_equal. lia.
Qed.
Lemma fitting_prefix room l : exists l', l = fitting room l ++ l'.
Proof.
  revert room. induction l as [|de l IHl]; intros room; [by exists []|]. cbn. destruct (_ <? _); [by exists (de :: l)|].
  destruct (IHl (room - rec_len de)) as [l' E]. exists l'. cbn. by f_equal.
Qed.
(** C23: a client that reads a directory page by page, with room for every single entry, ends and gets each
    entry once, in order, with its name, the number and the type of its inode; nothing changes. *)
Theorem readdir_lists s f x n count : fs_inv s -> files s !! f = Some x -> is_opened x = true ->
  inodes s !! f_inode x = Some n -> i_type (i_data n) = 4 -> 0 <= count < 2 ^ 31 ->
  (forall de, In de (node_entries (i_data n)) -> Z.of_nat (length de.1) < 65536 /\ rec_len de <= count) ->
  Z.of_nat (length (node_entries (i_data n))) < 2 ^ 63 ->
  list_dir (S (length (node_entries (i_data n)))) f 0 count s = Ok (map (listed s) (node_entries (i_data n))) s.
Proof.
  intros I Hf Hx Hn HT Hc Hl Hb. pose proof (entries_live _ _ _ _ _ _ I Hn) as Hlive. set (l := node_entries (i_data n)) in *.
  assert (forall fuel offset, 0 <= offset -> (length (drop (Z.to_nat offset) l) < fuel)%nat -> offset <= Z.of_nat (length l) ->
    wp (list_dir fuel f offset count) (fun _ => False) (fun r s' => s' = s /\ r = map (listed s) (drop (Z.to_nat offset) l)) s) as H.
  2: { specialize (H (S (length l)) 0 ltac:(lia) ltac:(change (Z.to_nat 0) with 0%nat; rewrite drop_0; lia) ltac:(lia)). unfold wp in H. destruct (list_dir _ _ _ _ s); [|done].
       by destruct H as [-> ->]. }
  induction fuel as [|fuel IHf]; intros offset Ho Hfuel Hle; [lia|]. cbn [list_dir]. set (rest := drop (Z.to_nat offset) l) in *.
  assert (rest = drop (Z.to_nat offset) l) as Hrest by done. clearbody rest.
  set (buf := replicate (Z.to_nat count) 0). assert (Z.of_nat (length buf) = count) as Hbuf by (unfold buf; rewrite length_replicate; lia).
  apply wp_bind. pose proof (@readdir_ok (fun _ => False) s f x n offset buf I Hf Hn Ho) as Hrd. rewrite Hbuf in Hrd. eapply wp_mono; [exact Hrd|].
  cbv beta. rewrite Hx, HT. cbn [andb]. change (4 =? 4) with true. cbv iota zeta. fold l. rewrite <- Hrest.
  remember (fitting count rest) as fit eqn:Efit. remember (dirents s offset fit) as out eqn:Eout. intros r s' (-> & ->). cbn [fst snd].
  destruct (fitting_prefix count rest) as [rest' Erest]. rewrite <- Efit in Erest.
  assert (forall de, In de rest -> In de l) as Hin by (intros de Hde; rewrite <- (take_drop (Z.to_nat offset) l), <- Hrest; apply in_or_app; by right).
  assert (forall de, In de fit -> In de rest) as Hin' by (intros de Hde; rewrite Efit in Hde; by eapply fitting_In).
  assert (live_entries s rest) as Hlr by (intros de Hde; by apply Hlive, Hin).
  assert (live_entries s fit) as Hlf by (intros de Hde; by apply Hlr, Hin').
  pose proof (length_dirents s fit Hlf offset) as Hlen. rewrite <- Eout in Hlen.
  destruct (decide (rest = [])) as [Er|Hne].
  { rewrite Er in *. cbn [fitting] in Efit. rewrite Efit in Hlen. cbn [foldr] in Hlen. rewrite (proj2 (Z.leb_le _ _)) by lia. by apply wp_ret. }
  assert (0 < Z.of_nat (length fit)) as Hk.
  { destruct rest as [|de rest1]; [done|]. destruct (Hl de ltac:(apply Hin; by left)) as [_ Hde]. rewrite Efit. cbn [fitting].
    rewrite (proj2 (Z.ltb_ge _ _)) by lia. cbn [length]. lia. }
  assert (Z.of_nat (length fit) <= Z.of_nat (length out)) as Hpos.
  { rewrite Hlen. clear. induction fit as [|y q IHq]; cbn [foldr length]; [lia|]. unfold rec_len at 1. lia. }
  rewrite (proj2 (Z.leb_gt _ _)) by lia. rewrite Nat2Z.id, take_app_length.
  assert (length rest = length l - Z.to_nat offset)%nat as Hrl by (rewrite Hrest; apply length_drop).
  assert (length rest = length fit + length rest')%nat as Hfr by (by rewrite <- length_app, <- Erest).
  assert (parse_page (length (out ++ drop (length out) buf)) out offset = (map (listed s) fit, offset + Z.of_nat (length fit))) as ->.
  { rewrite length_app. assert (length fit <= length out + length (drop (length out) buf))%nat as Hfuel' by lia. revert Hfuel'.
    generalize (length out + length (drop (length out) buf))%nat. intros k Hfuel'. rewrite Eout.
    apply parse_page_dirents; [done|intros y Hy; by apply Hl, Hin, Hin'|done|done|change (2 ^ 64) with (2 * 2 ^ 63); lia]. }
  cbn [fst snd]. apply wp_bind.
  assert (drop (Z.to_nat (offset + Z.of_nat (length fit))) l = rest') as Edrop.
  { by rewrite Z2Nat.inj_add, Nat2Z.id, <- drop_drop, <- Hrest, Erest, drop_app_length by lia. }
  eapply wp_mono; [apply IHf; rewrite ?Edrop; lia|].
  cbv beta. intros r s' (-> & ->). apply wp_ret. split; [done|]. rewrite Edrop, Erest. by rewrite map_app.
Qed.

(** ** Directories are maps from names to inodes *)
(** The operation returns and the invariant holds, or it stops for a reason in [E]. *)
Definition returns {A} (m : MF A) s (E : stop -> Prop) (Q : A -> FSDeviceMem -> Prop) : Prop :=
  (exists r s', m s = Ok r s' /\ fs_inv s' /\ Q r s') \/ exists r, m s = Stop r /\ E r.
Lemma wp_returns {A} (m : MF A) s E (Q : A -> FSDeviceMem -> Prop) : wp m E (fun r s' => fs_inv s' /\ Q r s') s -> returns m s E Q.
Proof. unfold wp, returns. destruct (m s) as [r s'|x]; [intros [? ?]; left; by exists r, s'|intros ?; right; by exists x]. Qed.
(** A directory that was removed, and that one file is still on *)
Definition abandoned s (p : Z) : Prop := exists n, inodes s !! p = Some n /\ refcount n = 0 /\ open_count n = 1.
(** One more entry passes the int of the size; one more reference passes the int32_t. *)
Definition dir_full s (p : Z) (name : list Z) : Prop := exists n, inodes s !! p = Some n /\ 2 ^ 31 <= node_size (i_data n) + dirent_size name.
Definition refs_full s (p : Z) : Prop := exists n, inodes s !! p = Some n /\ refcount n = 2 ^ 31 - 1.

(** ** Files are byte lists *)
Lemma wp_total {A} (m : MF A) (Q : A -> FSDeviceMem -> Prop) s : wp m (fun _ => False) Q s -> exists a s', m s = Ok a s' /\ Q a s'.
Proof. unfold wp. destruct (m s) as [a s'|]; [|done]. intros H. by exists a, s'. Qed.
Lemma read_written off buf c : 0 <= off -> read_at off (Z.of_nat (length buf)) (written off buf c) = buf.
Proof.
  intros Ho. unfold read_at, written, splice. rewrite Nat2Z.id. set (l := resized _ c).
  assert (Z.to_nat off <= length l)%nat by (unfold l, resized; rewrite length_app, length_take, length_replicate; lia).
  rewrite drop_app_length' by (rewrite length_take; lia). apply take_app_length.
Qed.
(** C22: on an open file with the bytes [c], read gives the bytes at its offset and changes nothing; write puts
    its bytes there, filling a gap with zeros, and a read gives them back; a change of the size cuts the file or
    fills it up with zeros.  They fail only for want of space, and then nothing changes. *)
Theorem files_are_bytes s f x n g off buf size (c := content g) (len := Z.of_nat (length buf)) (p := f_inode x) :
  fs_inv s -> files s !! f = Some x -> is_opened x = true -> inodes s !! p = Some n -> i_data n = FT_REG g ->
  0 <= off -> buf <> [] -> len < 2 ^ 31 -> off + len < SIZE_LIMIT -> 0 <= size < SIZE_LIMIT ->
  (O_ACC x <> P9_O_WRONLY -> let d := read_at off len c in fs_read f off buf len s = Ok (Z.of_nat (length d), d ++ drop (length d) buf) s) /\
  (O_ACC x <> P9_O_RDONLY -> exists ret s', fs_write f off buf len s = Ok ret s' /\ fs_inv s' /\ frame [p] s s' /\
     ((ret = - P9_ENOSPC /\ s' = s /\ no_space s (reg_size g) (off + len)) \/
      (ret = len /\ (exists n' g', inodes s' !! p = Some n' /\ i_data n' = FT_REG g' /\ content g' = written off buf c) /\
       (O_ACC x <> P9_O_WRONLY -> forall buf', length buf' = length buf -> fs_read f off buf' len s' = Ok (len, buf) s')))) /\
  exists ret s', fs_truncate p size s = Ok ret s' /\ fs_inv s' /\ frame [p] s s' /\
    ((ret = - P9_ENOSPC /\ s' = s /\ no_space s (reg_size g) size) \/
     (ret = 0 /\ exists n' g', inodes s' !! p = Some n' /\ i_data n' = FT_REG g' /\ content g' = resized size c)).
Proof.
  intros I Hf Hx Hn E Ho Hb Hlen Hol Hsz.
  assert (forall s' n' g' buf', fs_inv s' -> files s' !! f = Some x -> inodes s' !! p = Some n' -> i_data n' = FT_REG g' -> length buf' = length buf ->
    O_ACC x <> P9_O_WRONLY -> let d := read_at off len (content g') in fs_read f off buf' len s' = Ok (Z.of_nat (length d), d ++ drop (length d) buf') s') as Hread.
  { intros s' n' g' buf' I' Hf' Hn' E' Hl Ha.
    pose proof (@read_ok _ _ (fun _ => False) s' f x n' off buf' len I' Hf' Hn' Ho ltac:(unfold len; lia) Hlen) as (r & s1 & Er & -> & Hr)%wp_total.
    rewrite E', Hx in Hr. cbn [negb] in Hr. rewrite (proj2 (Z.eqb_neq _ _) Ha) in Hr. cbv zeta in *. by rewrite Er, Hr. }
  split; [intros Ha; by eapply Hread|]. split.
  - intros Ha. pose proof (@write_ok _ _ (fun _ => False) s f x n off buf I Hf Hn Ho Hol) as (ret & s' & Er & I' & F' & Hr)%wp_total.
    rewrite E, Hx, (proj2 (Z.eqb_neq _ _) Ha), bool_decide_eq_false_2 in Hr by done. cbn [negb andb] in Hr.
    exists ret, s'. split; [done|]. split; [done|]. split; [done|]. destruct Hr as [Hr|(-> & n' & g' & Hn' & E' & Hc)]; [by left|right].
    split; [done|]. split; [by exists n', g'|]. intros Hw buf' Hl. rewrite <- (fr_files _ _ _ F') in Hf.
    rewrite (Hread s' n' g' buf') by done. cbv zeta. rewrite Hc. unfold len. rewrite read_written, <- Hl, drop_ge, app_nil_r by done. done.
  - pose proof (@truncate_ok _ _ (fun _ => False) None [] [] s p n size I Hn Hsz) as (ret & s' & Er & I' & F' & Hr)%wp_total.
    rewrite E in Hr. exists ret, s'. split; [done|]. split; [done|]. split; [done|]. destruct Hr as [Hr|(-> & n' & g' & Hn' & E' & _ & Hc)]; [by left|right].
    split; [done|]. by exists n', g'.
Qed.

(** ** The end of the device *)
Lemma end_loop_ok l : forall s, NoDup l -> inode_list s = l -> inode_count s = Z.of_nat (length l) ->
  (forall p, is_Some (inodes s !! p) <-> p ∈ l) -> (forall p n, inodes s !! p = Some n -> open_count n = 0 /\ data_ok (i_data n)) ->
  block_size_log2 s = 12 -> block_size s = 4096 -> inode_cache_list s = [] ->
  msum (fun _ n => match i_data n with FT_REG r => to_blocks s (reg_size r) | _ => 0 end) (inodes s) <= fs_blocks s ->
  wp (end_loop l) (fun _ => False) (fun _ s' => inodes s' = ∅ /\ inode_list s' = [] /\ inode_count s' = 0 /\ inode_cache_list s' = [] /\ files s' = files s) s.
Proof.
  induction l as [|p l IHl]; intros s Hnd El Ec Hl Hd H12 H4096 Hcache Hb.
  { apply wp_ret. split; [|done]. apply map_empty. intros p. apply eq_None_not_Some. intros H%Hl. by apply not_elem_of_nil in H. }
  apply NoDup_cons in Hnd as [Hp Hnd]. destruct (proj2 (Hl p) (list_elem_of_here _ _)) as [n Hn]. destruct (Hd _ _ Hn) as [Ho Hdn].
  cbn [end_loop]. apply wp_bind. eapply wp_get_inode; [done|]. cbv zeta. apply wp_bind, wp_set_inode. set (n' := n_refcount 0 _). set (s1 := set_inodes _ s).
  assert (inodes s1 !! p = Some n') as Hn1 by apply lookup_insert_eq.
  set (b := match i_data n with FT_REG r => to_blocks s (reg_size r) | _ => 0 end).
  assert (forall r, 0 <= to_blocks s r) as Hnn by (intros; unfold to_blocks; apply Z.shiftr_nonneg, fits_wrap; lia).
  assert (0 <= fs_blocks s - b) as Hb0.
  { pose proof (msum_ge (fun _ n => match i_data n with FT_REG r => to_blocks s (reg_size r) | _ => 0 end) (inodes s) p n) as Hge. cbv beta in Hge.
    fold b in Hge. specialize (Hge ltac:(intros j y _; destruct (i_data y); try done; apply Hnn) Hn). lia. }
  set (s2 := set_inodes (delete p (inodes s)) (set_inode_list l (inode_count s - 1) (set_blocks (fs_blocks s - b) s))).
  apply wp_bind. eapply (wp_mono _ _ (fun _ s' => s' = s2)).
  - apply wp_bind. eapply wp_get_inode; [exact Hn1|]. change (refcount n') with 0. change (open_count n') with (open_count n). rewrite Ho.
    apply wp_bind, wp_ret, wp_bind, wp_ret.
    assert (forall d, d = b -> wp (_ ← modify (fun s => set_inodes (delete p (inodes s)) (set_inode_list (filter (fun x => x <> p) (inode_list s)) (inode_count s - 1) s));
      k ← gets inode_count; assert (0 <=? k)) (fun _ => False) (fun _ s' => s' = s2) (set_blocks (fs_blocks s - d) s1)) as Hrm.
    { intros d ->. apply wp_bind, wp_modify, wp_bind, wp_gets. cbv beta. cbn [inode_count set_inodes set_inode_list set_blocks s1]. rewrite Ec.
      rewrite (proj2 (Z.leb_le _ _)) by (cbn [length]; lia). apply wp_ret. unfold s2, s1. cbn [inodes set_inodes set_blocks inode_list].
      rewrite delete_insert_eq, El, filter_cons, decide_False by (by intros ?). rewrite filter_ne_id by done. by rewrite Ec. }
    unfold n', b. cbn [i_data n_refcount n_data]. destruct (i_data n) as [r|dl sz| | | | |] eqn:E.
    + destruct Hdn as (Hst & _). unfold b in *. apply wp_bind, wp_bind, wp_modify, wp_bind. apply wp_bind, wp_gets. cbv beta.
      change (fs_blocks (set_blocks (fs_blocks s1 + - to_blocks s1 (reg_size r)) s1)) with (fs_blocks s + - to_blocks s (reg_size r)).
      rewrite (proj2 (Z.leb_le _ _)) by lia. apply wp_ret. rewrite Hst. apply wp_ret. rewrite Z.add_opp_r. exact (Hrm _ eq_refl).
    + apply wp_bind, wp_ret. specialize (Hrm 0 eq_refl). rewrite Z.sub_0_r in Hrm. exact Hrm.
    + apply wp_bind, wp_ret. specialize (Hrm 0 eq_refl). rewrite Z.sub_0_r in Hrm. exact Hrm.
    + apply wp_bind, wp_ret. specialize (Hrm 0 eq_refl). rewrite Z.sub_0_r in Hrm. exact Hrm.
    + apply wp_bind, wp_ret. specialize (Hrm 0 eq_refl). rewrite Z.sub_0_r in Hrm. exact Hrm.
    + apply wp_bind, wp_ret. specialize (Hrm 0 eq_refl). rewrite Z.sub_0_r in Hrm. exact Hrm.
    + apply wp_bind, wp_ret. specialize (Hrm 0 eq_refl). rewrite Z.sub_0_r in Hrm. exact Hrm.
  - cbv beta. intros _ s' ->. eapply wp_mono; [apply IHl; try done|done].
    + cbn. rewrite Ec. cbn [length]. lia.
    + intros q. cbn. destruct (decide (q = p)) as [->|Hne].
      * rewrite lookup_delete_eq. split; [by intros [??]|done].
      * rewrite lookup_delete_ne, Hl, elem_of_cons by done. tauto.
    + intros q m. cbn. intros [_ Hq]%lookup_delete_Some. by eapply Hd.
    + cbn [inodes fs_blocks s2 set_inodes set_inode_list set_blocks].
      rewrite (msum_delete _ _ _ _ Hn). change (to_blocks s2) with (to_blocks s). fold b. lia.
Qed.
(** When no file is left, the end of the device frees every inode, and no assertion fails. *)
Theorem fs_mem_end_frees s : fs_reach s -> files s = ∅ ->
  exists s', fs_mem_end s = Ok tt s' /\ inodes s' = ∅ /\ inode_list s' = [] /\ inode_count s' = 0.
Proof.
  intros I%reach_inv Hf. enough (wp fs_mem_end (fun _ => False) (fun _ s' => inodes s' = ∅ /\ inode_list s' = [] /\ inode_count s' = 0) s) as H.
  { destruct (wp_total _ _ _ H) as ([] & s' & E & HQ). by exists s'. }
  destruct (fi_list _ _ _ _ I) as (L1 & L2 & L3). destruct (fi_const _ _ _ _ I) as (C1 & C2 & C3).
  apply wp_bind, wp_gets, wp_bind. eapply wp_mono; [apply end_loop_ok; try done|].
  - intros p n Hn. split; [|by eapply fi_data]. rewrite (fi_opens _ _ _ _ I _ _ Hn). unfold opens. by rewrite Hf, msum_empty.
  - rewrite (fi_blocks _ _ _ _ I). clear. induction (inodes s) as [|p n m Hp IHm] using map_ind; [by rewrite !msum_empty|].
    rewrite !msum_insert by done. assert (forall x, 0 <= to_blocks s x) as Hnn by (intros; unfold to_blocks; apply Z.shiftr_nonneg, fits_wrap; lia).
    pose proof (Hnn (node_size (i_data n))). destruct (i_data n); cbn [node_size] in *; lia.
  - cbv beta. intros _ s' (E1 & E2 & E3 & E4 & _). apply wp_bind, wp_gets. rewrite E4. by apply wp_ret.
Qed.
End Run.
