(* ===== verification/FsMemDemo.v ===== *)
(** * The file system in memory on a host with a fixed clock: the theorems at concrete states *)
From S2P Require Export FsMemRun.
From stdpp Require Import strings.
#[local] Open Scope Z_scope.
#[local] Existing Instance cfg_rv64.
(** realloc gives at most 1 MB, filled with 0xaa.  There is no network and no command file. *)
#[export, refine] Instance demo_fs_host : FsHost := {
  time_now := fun _ => (1600000000, 0);
  realloc_ok := fun _ n => n <=? 0x100000;
  fresh_bytes := fun _ n => replicate n 0xaa;
  open_network := fun _ _ => mret (- P9_EIO);
  release_network := fun _ => mret tt;
  fs_cmd_read := fun _ _ buf _ => mret (- P9_EIO, buf);
  fs_cmd_write := fun _ _ _ _ => mret (- P9_EIO);
  fs_cmd_close := fun _ => mret tt;
}.
Proof. intros. apply length_replicate. Defined.

#[local] Instance short_name_dec name : Decision (short_name name).
Proof. unfold short_name. apply _. Defined.
#[local] Instance op_ok_dec s o : Decision (op_ok s o).
Proof. unfold op_ok. destruct o; apply _. Defined.
(** The state after some operations *)
Fixpoint demo_run (l : list fs_op) (s : FSDeviceMem) : option FSDeviceMem :=
  match l with
  | [] => Some s
  | o :: l' => if decide (op_ok s o) then match run_op o s with Ok _ s' => demo_run l' s' | Stop _ => None end else None
  end.
Lemma demo_reach l : forall s s', fs_reach s -> demo_run l s = Some s' -> fs_reach s'.
Proof.
  induction l as [|o l IHl]; intros s s' H; cbn; [by intros [= <-]|]. case_decide as Ho; [|done].
  destruct (run_op o s) as [[] s1|] eqn:E; [|done]. apply IHl. by eapply reach_step.
Qed.
(** Files 2 and 5 are the root directory, file 3 is "a", opened for reading and writing, and holds two
    zeros and "hi". *)
Definition demo_ops : list fs_op :=
  [OpAttach 0 [] []; OpWalk 2 []; OpCreate 3 (str "a"%string) 2 0x1a4 0; OpWrite 3 2 (str "hi"%string); OpWalk 2 [];
   OpOpen 5 P9_O_DIRECTORY (mkOpenInfo 0 0 0); OpMkdir 2 (str "sub"%string) 0x1ed 0].
Definition demo_init : FSDeviceMem := match fs_mem_init fs_mem_empty with Ok _ s => s | Stop _ => fs_mem_empty end.
Definition demo_state : FSDeviceMem := default demo_init (demo_run demo_ops demo_init).
Lemma demo_init_reach : fs_reach demo_init.
Proof. apply (reach_init fs_mem_empty). by vm_compute. Qed.
Lemma demo_state_reach : fs_reach demo_state.
Proof. apply (demo_reach demo_ops demo_init); [apply demo_init_reach|]. by vm_compute. Qed.
(** The entry "a" is moved to "b" while file 3 is on it. *)
Definition demo_rename : fs_op := OpRenameat 2 (str "a"%string) 2 (str "b"%string).
Lemma fs_mem_safe_witness : fs_reach demo_state /\ op_ok demo_state demo_rename /\
  exists s', run_op demo_rename demo_state = Ok tt s' /\ fs_inv s'.
Proof.
  assert (op_ok demo_state demo_rename) as Hok by (apply (bool_decide_unpack _); vm_compute; exact I).
  split; [apply demo_state_reach|]. split; [exact Hok|].
  assert (match run_op demo_rename demo_state with Ok _ _ => True | Stop _ => False end) as H by (vm_compute; exact I).
  destruct (proj2 (proj2 (fs_mem_safe demo_state) demo_state_reach) demo_rename Hok) as [Hr|[_ [E|E]]]; [exact Hr|rewrite E in H; destruct H..].
Defined.
Definition demo_file : FSFile := mkFile 0 4 true 2 false.
Definition demo_reg : FSReg := mkReg REG_STATE_LOCAL 4 [0; 0; 104; 105] false.
Definition demo_node : FSINode := mkINode 2 1 1 (FT_REG demo_reg) 0x1a4 0 0 (1600000000, 0) (1600000000, 0).
Lemma demo_lookups : files demo_state !! 3 = Some demo_file /\ inodes demo_state !! f_inode demo_file = Some demo_node.
Proof. by vm_compute. Qed.
Lemma files_are_bytes_witness :
  fs_read 3 1 [1; 1] 2 demo_state = Ok (2, [0; 104]) demo_state /\
  (exists ret s', fs_write 3 1 [7; 8] 2 demo_state = Ok ret s' /\ fs_inv s').
Proof.
  destruct demo_lookups as [H1 H2]. pose proof (reach_inv _ demo_state_reach) as I.
  pose proof (files_are_bytes demo_state 3 demo_file demo_node demo_reg 1 [1; 1] 0 I H1 eq_refl H2 eq_refl) as Hr.
  pose proof (files_are_bytes demo_state 3 demo_file demo_node demo_reg 1 [7; 8] 0 I H1 eq_refl H2 eq_refl) as Hw.
  revert Hr Hw. generalize demo_state. intros s Hr Hw.
  destruct Hr as (Hr & _); [lia|discriminate|by vm_compute|by vm_compute|split; [lia|by vm_compute]|].
  destruct Hw as (_ & Hw & _); [lia|discriminate|by vm_compute|by vm_compute|split; [lia|by vm_compute]|].
  split; [specialize (Hr ltac:(discriminate)); exact Hr|].
  destruct (Hw ltac:(discriminate)) as (ret & s' & E & I' & _). exists ret, s'. split; [exact E|exact I'].
Defined.
Definition demo_dir : FSFile := mkFile 0 1 true P9_O_DIRECTORY false.
Definition demo_root : FSINode := default demo_node (inodes demo_state !! 1).
(** Pages of 30 bytes: an entry each *)
Lemma readdir_lists_witness :
  list_dir 5 5 0 30 demo_state =
  Ok [(str "."%string, 1, 4); (str ".."%string, 1, 4); (str "a"%string, 2, 8); (str "sub"%string, 3, 4)] demo_state.
Proof.
  assert (length (node_entries (i_data demo_root)) = 4%nat) as El by (vm_compute; reflexivity).
  assert (files demo_state !! 5 = Some demo_dir /\ inodes demo_state !! f_inode demo_dir = Some demo_root) as [H1 H2] by (split; vm_compute; reflexivity).
  assert (i_type (i_data demo_root) = 4) as H3 by (vm_compute; reflexivity).
  assert (map (listed demo_state) (node_entries (i_data demo_root)) =
    [(str "."%string, 1, 4); (str ".."%string, 1, 4); (str "a"%string, 2, 8); (str "sub"%string, 3, 4)]) as H4 by (vm_compute; reflexivity).
  assert (Forall (fun de => Z.of_nat (length de.1) < 65536 /\ rec_len de <= 30) (node_entries (i_data demo_root))) as H5
    by (apply (bool_decide_unpack _); vm_compute; exact I).
  pose proof (readdir_lists demo_state 5 demo_dir demo_root 30 (reach_inv _ demo_state_reach) H1 eq_refl H2 H3) as H.
  rewrite El, H4 in H. revert H H5. generalize (node_entries (i_data demo_root)). clear. generalize demo_state. intros s l H H5.
  apply H; [lia| |lia]. intros de Hde. rewrite List.Forall_forall in H5. by apply H5.
Defined.
(** "a" becomes "b". *)
Definition demo_rootfile : FSFile := mkFile 0 1 false 0 false.
Definition demo_end_ops : list fs_op := [OpUnlinkat 2 (str "a"%string); OpDelete 3; OpDelete 5; OpDelete 2].
Definition demo_end : FSDeviceMem := default demo_init (demo_run demo_end_ops demo_state).
Lemma demo_end_reach : fs_reach demo_end.
Proof. apply (demo_reach demo_end_ops demo_state); [apply demo_state_reach|]. vm_compute. reflexivity. Qed.
Lemma fs_mem_end_frees_witness : files demo_end = ∅ /\ inode_count demo_end = 2 /\
  exists s', fs_mem_end demo_end = Ok tt s' /\ inodes s' = ∅ /\ inode_list s' = [] /\ inode_count s' = 0.
Proof.
  split; [vm_compute; reflexivity|]. split; [vm_compute; reflexivity|]. apply (fs_mem_end_frees demo_end); [apply demo_end_reach|vm_compute; reflexivity].
Defined.

(** ** Requests that the code does not survive *)
(** A name that is moved onto itself: the entry is freed before it is read. *)
Example rename_onto_itself : run_op (OpRenameat 2 (str "a"%string) 2 (str "a"%string)) demo_state = Stop StopFault.
Proof. vm_compute. reflexivity. Qed.
(** A new entry in a file that is not a directory *)
Example symlink_in_a_file : run_op (OpSymlink 3 (str "x"%string) (str "a"%string) 0) demo_state = Stop StopAssert.
Proof. vm_compute. reflexivity. Qed.
(** A read with a negative count copies the rest of the file. *)
Example read_negative : ignore (fs_read 3 0 [0; 0; 0] (-1)) demo_state = Stop StopFault.
Proof. vm_compute. reflexivity. Qed.
(** A write whose end wraps around: the position is outside the buffer. *)
Example write_wraps : run_op (OpWrite 3 (2 ^ 64 - 1) (str "xyz"%string)) demo_state = Stop StopFault.
Proof. vm_compute. reflexivity. Qed.
(** A new file in a directory that was removed while it was open: the directory is freed with an entry. *)
Example create_in_removed : fmap (fun s => run_op (OpCreate 7 (str "x"%string) 2 0 0) s)
    (demo_run [OpWalk 2 [str "sub"%string]; OpUnlinkat 2 (str "sub"%string)] demo_state) = Some (Stop StopAssert).
Proof. vm_compute. reflexivity. Qed.
(** A size that is larger by 2^63: the file is said to be larger, and its buffer stays. *)
Example truncate_too_big : ignore (_ ← fs_setattr 3 P9_SETATTR_SIZE 0 0 0 (2 ^ 63 + 4) 0 0 0 0; fs_read 3 100 [0; 0; 0] 3) demo_state = Stop StopFault.
Proof. vm_compute. reflexivity. Qed.
