(* ===== verification/Virtio9pDemo.v ===== *)
(** * The 9P device on the file system in memory: the laws, and the theorems at concrete requests

    A board whose only device is the 9P device on the file system of FsMem.v.  The file system keeps
    [FileSystemLaws] in every state, on every host whose command files give no more than the bytes asked
    for, so the theorems of Virtio9pFacts.v hold of the pair. *)
From S2P Require Export DiskBoardFacts Virtio9pFacts FsMemDemo.
From stdpp Require Import strings.
#[local] Open Scope Z_scope.

Record MemBoard := mkMemBoard { mb_dev : VIRTIODevice; mb_p9 : P9State; mb_fs : FSDeviceMem; mb_irq : Z }.
Definition mb_set_fs (s : FSDeviceMem) (w : MemBoard) : MemBoard := mkMemBoard (mb_dev w) (mb_p9 w) s (mb_irq w).
(** An operation of the file system in the state of the board *)
Definition on_fs {A} (m : M FSDeviceMem A) : M (Sys MemBoard) A := fun σ =>
  match m (mb_fs (world σ)) with
  | Ok a s => Ok a (upd_world (mb_set_fs s) σ)
  | Stop r => Stop r
  end.
(** The elements of a buffer are of type uint8_t. *)
Definition with_bytes (m : M FSDeviceMem (Z * list Z)) : M FSDeviceMem (Z * list Z) := r ← m; mret (r.1, map (wrap 8) r.2).
(** What is asked of the command files, the part of the host that fills a buffer *)
Class CommandFiles `{!FsHost} : Prop := fs_cmd_read_ok : forall f offs buf count, Z.of_nat (length buf) = count -> forall s,
  match fs_cmd_read f offs buf count s with Ok r _ => r.1 <= count /\ length r.2 = length buf | Stop _ => True end.

Section Board.
Context `{cfg : Config} `{vcfg : VirtioConfig} `{fh : !FsHost}.
#[export, refine] Instance mem_virtio : VirtioBoard MemBoard := {
  vdev := mb_dev;
  vset := fun d w => mkMemBoard d (mb_p9 w) (mb_fs w) (mb_irq w);
  set_irq := fun v => modify (upd_world (fun w => mkMemBoard (mb_dev w) (mb_p9 w) (mb_fs w) v));
  uninit_bytes := fun _ n => replicate n 0xaa;
}.
Proof. intros. apply length_replicate. Defined.
#[export] Instance mem_p9 : P9Board MemBoard := {
  p9 := mb_p9;
  p9_set := fun s w => mkMemBoard (mb_dev w) s (mb_fs w) (mb_irq w);
  Virtio9p.fs_delete := fun f => on_fs (fs_delete f);
  Virtio9p.fs_statfs := on_fs fs_statfs;
  Virtio9p.fs_attach := fun uid uname aname => on_fs (fs_attach uid uname aname);
  Virtio9p.fs_walk := fun f names => on_fs (fs_walk f names);
  Virtio9p.fs_mkdir := fun f name mode gid => on_fs (fs_mkdir f name mode gid);
  Virtio9p.fs_open := fun f flags oi => on_fs (fs_open f flags oi);
  Virtio9p.fs_create := fun f name flags mode gid => on_fs (fs_create f name flags mode gid);
  Virtio9p.fs_stat := fun f => on_fs (fs_stat f);
  Virtio9p.fs_setattr := fun f mask mode uid gid size t1 t2 t3 t4 => on_fs (fs_setattr f mask mode uid gid size t1 t2 t3 t4);
  Virtio9p.fs_readdir := fun f offs buf count => on_fs (with_bytes (fs_readdir f offs buf count));
  Virtio9p.fs_read := fun f offs buf count => on_fs (with_bytes (fs_read f offs buf count));
  Virtio9p.fs_write := fun f offs buf count => on_fs (fs_write f offs buf count);
  Virtio9p.fs_link := fun df f name => on_fs (fs_link df f name);
  Virtio9p.fs_symlink := fun f name target gid => on_fs (fs_symlink f name target gid);
  Virtio9p.fs_mknod := fun f name mode major minor gid => on_fs (fs_mknod f name mode major minor gid);
  Virtio9p.fs_readlink := fun buf f => on_fs (with_bytes (fs_readlink buf f));
  Virtio9p.fs_renameat := fun f name f' name' => on_fs (fs_renameat f name f' name');
  Virtio9p.fs_unlinkat := fun f name => on_fs (fs_unlinkat f name);
  Virtio9p.fs_lock := fun f l => on_fs (fs_lock f l);
  Virtio9p.fs_getlock := fun f l => on_fs (fs_getlock f l);
  lock_address := fun _ => 0x7ffc0000;
  client_id_bytes := fun _ => [0x10; 0x20; 0x30];
}.
#[export, refine] Instance mem_board : VirtioLaws MemBoard p9 p9_set := { irq_line := fun w => negb (mb_irq w =? 0) }.
Proof. all: try by intros; destruct w. intros v σ. by eexists. Defined.

(** A result that an operation has whenever it returns *)
Local Abbreviation gives P m := (forall s, match m s with Ok a _ => P a | Stop _ => True end).
Lemma gives_bind {A B} (P : B -> Prop) (m : M FSDeviceMem A) (k : A -> M FSDeviceMem B) : (forall a, gives P (k a)) -> gives P (m ≫= k).
Proof. intros H s. unfold mbind, M_bind. destruct (m s) as [a s'|]; [apply H|done]. Qed.
Lemma gives_bind' {A B} (R : A -> Prop) (P : B -> Prop) (m : M FSDeviceMem A) (k : A -> M FSDeviceMem B) :
  gives R m -> (forall a, R a -> gives P (k a)) -> gives P (m ≫= k).
Proof. intros Hm H s. specialize (Hm s). unfold mbind, M_bind. destruct (m s) as [a s'|]; [by apply H|done]. Qed.
Lemma gives_ret {A} (P : A -> Prop) a : P a -> gives P (mret (M := M FSDeviceMem) a).
Proof. by intros H s. Qed.
Lemma on_fs_quiet {A} (P : A -> Prop) (m : M FSDeviceMem A) : gives P m -> quiet P (on_fs m).
Proof. intros H σ. specialize (H (mb_fs (world σ))). unfold on_fs. by destruct (m _). Qed.
Lemma on_fs_any {A} (m : M FSDeviceMem A) : quiet any (on_fs m).
Proof. apply on_fs_quiet. intros s. by destruct (m s). Qed.
Lemma bytes_map_u8 l : bytes (map (wrap 8) l).
Proof. apply List.Forall_map, List.Forall_forall. intros x _. by apply fits_wrap. Qed.
Lemma with_bytes_ok count (buf : list Z) m : gives (fun r : Z * list Z => r.1 <= count /\ length r.2 = length buf) m ->
  gives (fun r => r.1 <= count /\ length r.2 = length buf /\ bytes (take (Z.to_nat r.1) r.2)) (with_bytes m).
Proof.
  intros H. eapply gives_bind'; [exact H|]. intros [n l] [Hn Hl]. apply gives_ret. cbn [fst snd] in *. rewrite length_map.
  split; [done|]. split; [done|]. apply Forall_take, bytes_map_u8.
Qed.
Lemma buf_store_length off bs buf : gives (fun b => length b = length buf) (buf_store (S := FSDeviceMem) off bs buf).
Proof.
  intros s. unfold buf_store. destruct (andb _ _) eqn:E; [|done]. apply length_splice. lia.
Qed.
Lemma walk_gives f names : gives (fun r => r.1.1 <= Z.of_nat (length r.2)) (fs_walk f names).
Proof. apply gives_bind. intros x. apply gives_bind. intros r. apply gives_bind. intros f'. by apply gives_ret. Qed.
Lemma put_entries_room l : forall pos offset count, gives (fun out => out = [] \/ pos + Z.of_nat (length out) <= count) (put_entries l pos offset count).
Proof.
  induction l as [|[name p] l IHl]; intros pos offset count; [apply gives_ret; by left|]. cbn [put_entries].
  destruct (Z.ltb_spec count (pos + (13 + 8 + 1 + 2 + Z.of_nat (length name)))); [apply gives_ret; by left|].
  apply gives_bind. intros n1. eapply gives_bind'; [apply IHl|]. intros rest Hr. apply gives_ret. right. cbv beta.
  rewrite !length_app, !length_le64, length_le32, length_le16. cbn [length]. destruct Hr as [->|Hr]; cbn [length]; lia.
Qed.
Lemma readdir_gives f offs buf count : Z.of_nat (length buf) = count ->
  gives (fun r => r.1 <= count /\ length r.2 = length buf) (fs_readdir f offs buf count).
Proof.
  intros Hc. apply gives_bind. intros x. apply gives_bind. intros n. destruct (is_opened x); [|apply gives_ret; unfold P9_EPROTO; cbn; lia].
  cbn [negb]. destruct (i_data n); try (apply gives_ret; unfold P9_EPROTO; cbn; lia).
  destruct (skip_entries _ _); [|apply gives_ret; cbn; lia].
  eapply gives_bind'; [apply put_entries_room|]. intros out Ho. eapply gives_bind'; [apply buf_store_length|]. intros b Hb. apply gives_ret. cbn [fst snd].
  split; [destruct Ho as [->|Ho]; cbn; lia|done].
Qed.
Lemma read_gives `{!CommandFiles} f offs buf count : Z.of_nat (length buf) = count ->
  gives (fun r => r.1 <= count /\ length r.2 = length buf) (fs_read f offs buf count).
Proof.
  intros Hc. apply gives_bind. intros x. apply gives_bind. intros n.
  assert (forall e, 0 <= e -> gives (fun r : Z * list Z => r.1 <= count /\ length r.2 = length buf) (mret (M := M FSDeviceMem) (- e, buf))) as Herr
    by (intros e He; apply gives_ret; cbn; lia).
  destruct (is_opened x); [|by apply Herr]. cbn [negb]. destruct (i_data n) as [r| | | | | |]; try by apply Herr.
  destruct (_ =? P9_O_WRONLY); [by apply Herr|]. destruct (is_fscmd r); [by apply fs_cmd_read_ok|].
  destruct (Z.leb_spec (reg_size r) offs); [by apply (Herr 0)|]. cbv zeta. unfold file_buffer_read.
  eapply gives_bind'; [apply gives_bind; intros bs; apply buf_store_length|]. intros b Hb. apply gives_ret. cbn [fst snd]. split; [|done].
  destruct (Z.ltb_spec (reg_size r - offs) (u64 count)) as [Hlt|]; [|lia].
  assert (u64 count <= count) by (apply Z.mod_le; lia). pose proof (swrap_range 32 (reg_size r - offs)).
  destruct (Z.lt_ge_cases (reg_size r - offs) (2 ^ 31)); [rewrite swrap_id|]; lia.
Qed.
Lemma first_zero l : 0 ∈ l -> exists s r, l = s ++ 0 :: r /\ nul_free s.
Proof.
  induction l as [|c l IHl]; [by intros ?%elem_of_nil|]. destruct (decide (c = 0)) as [->|Hc]; [intros _; exists [], l; split; [done|constructor]|].
  intros [?|Hl]%elem_of_cons; [congruence|]. destruct (IHl Hl) as (s & r & -> & Hs). exists (c :: s), r. split; [done|]. by constructor.
Qed.
Lemma readlink_gives buf f : gives (fun r => r.1 = 0 -> exists s r', r.2 = s ++ 0 :: r' /\ nul_free s /\ bytes s) (with_bytes (fs_readlink buf f)).
Proof.
  eapply (gives_bind' (fun r : Z * list Z => r.1 = 0 -> 0 ∈ r.2)).
  - apply gives_bind. intros x. apply gives_bind. intros n. destruct (i_data n) as [| | | |name| |]; try (apply gives_ret; intros H; discriminate H).
    cbv zeta. apply gives_bind. intros b. eapply (gives_bind' (fun l => 0 ∈ l)).
    { intros s. unfold buf_store. destruct (andb _ _); [|done]. unfold splice. set_solver. }
    intros l Hl. by apply gives_ret.
  - intros [e l] Hl. apply gives_ret. cbn [fst snd] in *. intros He. destruct (first_zero (map (wrap 8) l)) as (s & r & E & Hs).
    { apply (list_elem_of_fmap_2 (wrap 8) l 0), Hl, He. }
    exists s, r. split; [done|]. split; [done|]. pose proof (bytes_map_u8 l) as Hb. rewrite E in Hb. by apply Forall_app in Hb as [? _].
Qed.
#[export, refine] Instance mem_laws `{!CommandFiles} : FileSystemLaws MemBoard := {}.
Proof.
  all: try by intros; apply on_fs_any.
  - intros f names. apply on_fs_quiet, walk_gives.
  - intros f offs buf count Hc. by apply on_fs_quiet, with_bytes_ok, readdir_gives.
  - intros f offs buf count Hc. by apply on_fs_quiet, with_bytes_ok, read_gives.
  - intros buf f. apply on_fs_quiet, readlink_gives.
  - intros σ. repeat constructor; done.
Defined.
End Board.

#[local] Existing Instance cfg_rv64.
#[local] Existing Instance virtio_64.
#[local] Instance demo_commands : CommandFiles.
Proof. intros f offs buf count Hc s. cbn. unfold P9_EIO. lia. Qed.

(** ** Requests: at 0x4000, in one descriptor; the answer goes to 0x5000 *)
Definition p9_dev : VIRTIODevice := with_queue (<[0%nat := demo_queue]> (queue (virtio_init 9 8))) (virtio_init 9 8).
Definition p9_mem (msg : list Z) : hmem :=
  store_bytes (host_store (demo_desc 0 0x4000 (Z.of_nat (length msg)) 1 1 (demo_desc 1 0x5000 64 2 0 ∅)) 0x102002 2 1) 0x104000 msg.
(** Fid 7 is the file "a" of [demo_state], open, with its four bytes, fid 5 the root directory. *)
Definition p9_board : MemBoard := mkMemBoard p9_dev (mkP9 8192 [(7, 3); (5, 2)] false) demo_state 0.
Definition p9_sys (msg : list Z) : Sys MemBoard := mkSys riscv_cpu_init demo_map (p9_mem msg) p9_board.
Definition request_of (type tag : Z) (f : fmt) (vs : fields f) : list Z := message type tag (Virtio9pMsg.encode f vs).
(** Three bytes of the file from offset 1, a clunk of fid 7, an open of fid 7, a move of "a" onto itself *)
Definition read_msg : list Z := request_of 116 3 "wdw" (7, (1, (3, tt))).
Definition clunk_msg : list Z := request_of 120 4 "w" (7, tt).
Definition open_msg : list Z := request_of 12 5 "ww" (7, (0, tt)).
Definition rename_msg : list Z := request_of 74 6 "wsws" (5, (str "a"%string, (5, (str "a"%string, tt)))).

Lemma p9_chain msg : is_write (demo_d (p9_mem msg) 0) = false -> is_write (demo_d (p9_mem msg) 1) = true ->
  has_next (demo_d (p9_mem msg) 0) = true -> has_next (demo_d (p9_mem msg) 1) = false -> d_next (demo_d (p9_mem msg) 0) = 1 ->
  d_addr (demo_d (p9_mem msg) 0) = 0x4000 -> d_addr (demo_d (p9_mem msg) 1) = 0x5000 ->
  d_len (demo_d (p9_mem msg) 0) <= 0x1000 -> d_len (demo_d (p9_mem msg) 1) = 64 ->
  chain (p9_sys msg) 16 0x101000 0 [seg_of (p9_mem msg) 0 0x4000] [seg_of (p9_mem msg) 1 0x5000].
Proof.
  set (m := p9_mem msg). intros W0 W1 N0 N1 X A0 A1 L0 L1. split; [done| | | |by split|..].
  - exists [demo_d m 1]. split; [done|]. split; [|done]. by apply (demo_path m 0 1); [..|constructor].
  - constructor; [|constructor]. split; [|done]. apply demo_seg; [done..|lia].
  - constructor; [|constructor]. split; [|done]. apply demo_seg; [done..|lia].
  - constructor; [|constructor]. unfold apart, disjoint_from. cbn [seg_of fst snd]. lia.
  - cbn [seg_of total_len foldr fst]. lia.
Qed.
Lemma p9_in msg : chain (p9_sys msg) 16 0x101000 0 [seg_of (p9_mem msg) 0 0x4000] [seg_of (p9_mem msg) 1 0x5000] ->
  VirtioFacts.content (p9_mem msg) [seg_of (p9_mem msg) 0 0x4000] = msg -> host_load (p9_mem msg) 0x102002 2 = 1 -> host_load (p9_mem msg) 0x102004 2 = 0 ->
  d_len (demo_d (p9_mem msg) 0) <= 0x1000 -> d_len (demo_d (p9_mem msg) 1) = 64 ->
  p9_request_in 8 (p9_sys msg) demo_queue 16 0x101000 0x103000 0 [seg_of (p9_mem msg) 0 0x4000] [seg_of (p9_mem msg) 1 0x5000] msg.
Proof.
  intros Hc Hm H1 H0 L0 L1. split; [split|split|..]; try done.
  - split; [done|done|]. by apply (demo_region 0x1000 256).
  - split; [done|done|]. by apply (demo_region 0x3000 132).
  - exists 0x102000. split; [by apply (demo_region 0x2000 36)|done].
  - constructor; [|constructor]. unfold apart, disjoint_from. cbn [seg_of fst snd]. change (qnum demo_queue) with 16. lia.
  - cbn [length]. lia.
  - cbn [seg_of total_len foldr fst]. lia.
  - cbn [seg_of total_len foldr fst]. lia.
Qed.

Ltac p9_request := apply p9_in; [apply p9_chain; calc|calc..].
Lemma sane_other msg : is_data (m_type msg) = false -> (m_type msg =? 118) = false -> sane_count msg.
Proof. intros H1 H2 fid offs count n [H|H]; [by rewrite H1 in H|]. by rewrite H in H2. Qed.
Lemma p9_read_sane : sane_count read_msg.
Proof. intros fid offs count n _ E. assert (Virtio9pMsg.decode "wdw" (drop 7 read_msg) = Some ((7, (1, (3, tt))), 16)) as E' by calc. rewrite E' in E. injection E as <- <- <- <-. lia. Qed.
Definition hello : fields "ws" := (5, (str "hello"%string, tt)).
Lemma unmarshall_marshall_witness : let msg := Virtio9pMsg.encode "ws" hello in
  marshall 64 "ws" hello (p9_sys msg) = Ok msg (p9_sys msg) /\
  unmarshall 8 0 0 0 "ws" (p9_sys msg) = Ok (Some (hello, 11)) (p9_sys msg).
Proof.
  cbv zeta. set (msg := Virtio9pMsg.encode "ws" hello).
  assert (marshall 64 "ws" hello (p9_sys msg) = Ok msg (p9_sys msg)) as Hm by calc. split; [exact Hm|].
  assert (p9_request_in 8 (p9_sys msg) demo_queue 16 0x101000 0x103000 0 [seg_of (p9_mem msg) 0 0x4000] [seg_of (p9_mem msg) 1 0x5000] msg) as Hin
    by p9_request.
  apply (unmarshall_marshall 8 (p9_sys msg) 0 demo_queue 16 0x101000 0 [seg_of (p9_mem msg) 0 0x4000] [seg_of (p9_mem msg) 1 0x5000])
    with (f := "ws"%fmt) (vs := hello) (max_len := 64) (bs := msg) (rest := []) (offset := 0).
  1: exact (pd_vq _ _ _ _ _ _ _ _ _ (pq_pending _ _ _ _ _ _ _ _ _ _ Hin)).
  all: try calc.
  - apply p9_chain; calc.
  - vm_compute. repeat split; try congruence. all: repeat constructor; congruence.
Defined.
Lemma virtio_9p_open_completes_witness : exists σ' σ2, sent demo_queue 0x103000 0 [seg_of (p9_mem open_msg) 1 0x5000] (p9_sys open_msg) σ' 13 5
    (encode_qid (mkQID 0 0 2) ++ le32 8168) /\
  p9_busy (p9 (world σ2)) = false /\
  virtio_9p_open_cb 8 (mkQID 0 0 2) 0 (mkOpenInfo 0 0 5) (p9_sys open_msg) = queue_notify 8 (virtio_9p_recv_request 8) 0 σ2.
Proof.
  assert (p9_request_in 8 (p9_sys open_msg) demo_queue 16 0x101000 0x103000 0 [seg_of (p9_mem open_msg) 0 0x4000]
    [seg_of (p9_mem open_msg) 1 0x5000] open_msg) as Hin by p9_request.
  destruct (virtio_9p_open_completes 8 (p9_sys open_msg) demo_queue 16 0x101000 0x103000 0 _ _ open_msg (mkQID 0 0 2) 0 5
    (pq_pending _ _ _ _ _ _ _ _ _ _ Hin) (pq_off _ _ _ _ _ _ _ _ _ _ Hin) (pq_fuel _ _ _ _ _ _ _ _ _ _ Hin) ltac:(calc))
    as (σ' & Hs & σ2 & _ & Hp & E).
  exists σ', σ2. split; [exact Hs|]. split; [by rewrite Hp|exact E].
Defined.
Lemma fid_table_map_witness : let σ := p9_sys [] in
  fid_find 7 σ = Ok 3 σ /\ exists σ', fid_delete 7 σ = Ok tt σ' /\ fid_map σ' !! 7 = None /\ fid_map σ' !! 5 = Some 2.
Proof.
  assert (one_per_fid (p9_sys [])) as Hone by (vm_compute; repeat constructor; set_solver).
  destruct (fid_table_map 7 3 (p9_sys []) Hone) as (Hf & _ & Hd). split; [exact Hf|].
  assert (exists σ', fid_delete 7 (p9_sys []) = Ok tt σ') as [σ' E] by (eexists; vm_compute; reflexivity).
  exists σ'. split; [exact E|]. destruct (Hd _ _ E) as (Em & _). rewrite Em. by split.
Defined.
