(* ===== verification/Ps2.v ===== *)
(** * PS/2 keyboard and mouse (ps2.c)

    A device holds a ring of bytes for its host.  The callback update_irq of a device never
    reads the device, so an operation returns the new state and the levels that it passed to
    the callback, in order. *)
From S2P Require Export Cutils Monad.

(** An operation on [S]. *)
Definition act (S : Type) : Type := S -> S * list Z.
Section Act.
Context {S : Type}.
Definition skip : act S := fun s => (s, []).
Definition assign (f : S -> S) : act S := fun s => (f s, []).
Definition and_act (f g : act S) : act S := fun s =>
  let '(s1, l1) := f s in let '(s2, l2) := g s1 in (s2, l1 ++ l2).
Definition with_state (k : S -> act S) : act S := fun s => k s s.
End Act.
Declare Scope act_scope.
Delimit Scope act_scope with act.
Notation "f ;; g" := (and_act f%act g%act) (at level 100, right associativity) : act_scope.
#[local] Open Scope act_scope.

(** Keyboard commands and replies *)
Definition KBD_CMD_SET_LEDS : Z := 0xED.
Definition KBD_CMD_ECHO : Z := 0xEE.
Definition KBD_CMD_SET_RATE : Z := 0xF3.
Definition KBD_REPLY_POR : Z := 0xAA.
Definition KBD_REPLY_ACK : Z := 0xFA.
Definition KBD_REPLY_RESEND : Z := 0xFE.
(** Mouse commands *)
Definition AUX_SET_RES : Z := 0xE8.
Definition AUX_RESET_WRAP : Z := 0xEC.
Definition AUX_SET_SAMPLE : Z := 0xF3.
Definition AUX_RESET : Z := 0xFF.
Definition AUX_ACK : Z := 0xFA.
Definition MOUSE_STATUS_REMOTE : Z := 0x40.
Definition MOUSE_STATUS_ENABLED : Z := 0x20.
Definition MOUSE_STATUS_SCALE21 : Z := 0x10.

Definition PS2_QUEUE_SIZE : Z := 256.
Record PS2Queue := mkQ { data : list Z; rptr : Z; wptr : Z; count : Z }.
Record PS2State := mkPs2 { queue : PS2Queue; write_cmd : Z }.
Record PS2KbdState := mkKbd { kbd_common : PS2State; scan_enabled : Z; translate : Z }.
Record PS2MouseState := mkMouse {
  mouse_common : PS2State;
  mouse_status : Z;
  mouse_resolution : Z;
  mouse_sample_rate : Z;
  mouse_wrap : Z;
  mouse_type : Z;
  mouse_detect_state : Z;
  mouse_dx : Z;
  mouse_dy : Z;
  mouse_dz : Z;
  mouse_buttons : Z;
}.
Definition set_write_cmd (v : Z) (s : PS2State) : PS2State := mkPs2 (queue s) v.
Definition on_kbd (f : act PS2State) : act PS2KbdState := fun s =>
  let '(c, l) := f (kbd_common s) in (mkKbd c (scan_enabled s) (translate s), l).
Definition set_scan (v : Z) (s : PS2KbdState) : PS2KbdState := mkKbd (kbd_common s) v (translate s).
Definition on_mouse (f : act PS2State) : act PS2MouseState := fun s =>
  let '(c, l) := f (mouse_common s) in
  (mkMouse c (mouse_status s) (mouse_resolution s) (mouse_sample_rate s) (mouse_wrap s) (mouse_type s)
     (mouse_detect_state s) (mouse_dx s) (mouse_dy s) (mouse_dz s) (mouse_buttons s), l).
Definition set_status v s := mkMouse (mouse_common s) v (mouse_resolution s) (mouse_sample_rate s) (mouse_wrap s)
  (mouse_type s) (mouse_detect_state s) (mouse_dx s) (mouse_dy s) (mouse_dz s) (mouse_buttons s).
Definition set_resolution v s := mkMouse (mouse_common s) (mouse_status s) v (mouse_sample_rate s) (mouse_wrap s)
  (mouse_type s) (mouse_detect_state s) (mouse_dx s) (mouse_dy s) (mouse_dz s) (mouse_buttons s).
Definition set_sample_rate v s := mkMouse (mouse_common s) (mouse_status s) (mouse_resolution s) v (mouse_wrap s)
  (mouse_type s) (mouse_detect_state s) (mouse_dx s) (mouse_dy s) (mouse_dz s) (mouse_buttons s).
Definition set_wrap v s := mkMouse (mouse_common s) (mouse_status s) (mouse_resolution s) (mouse_sample_rate s) v
  (mouse_type s) (mouse_detect_state s) (mouse_dx s) (mouse_dy s) (mouse_dz s) (mouse_buttons s).
Definition set_type v s := mkMouse (mouse_common s) (mouse_status s) (mouse_resolution s) (mouse_sample_rate s) (mouse_wrap s)
  v (mouse_detect_state s) (mouse_dx s) (mouse_dy s) (mouse_dz s) (mouse_buttons s).
Definition set_detect v s := mkMouse (mouse_common s) (mouse_status s) (mouse_resolution s) (mouse_sample_rate s) (mouse_wrap s)
  (mouse_type s) v (mouse_dx s) (mouse_dy s) (mouse_dz s) (mouse_buttons s).
Definition set_deltas x y z s := mkMouse (mouse_common s) (mouse_status s) (mouse_resolution s) (mouse_sample_rate s) (mouse_wrap s)
  (mouse_type s) (mouse_detect_state s) x y z (mouse_buttons s).
Definition set_buttons v s := mkMouse (mouse_common s) (mouse_status s) (mouse_resolution s) (mouse_sample_rate s) (mouse_wrap s)
  (mouse_type s) (mouse_detect_state s) (mouse_dx s) (mouse_dy s) (mouse_dz s) v.

(** ** The ring *)
Definition ps2_queue (b : Z) : act PS2State := fun s =>
  let q := queue s in
  if PS2_QUEUE_SIZE <=? count q then (s, [])
  else
    let w := wptr q + 1 in
    (mkPs2 (mkQ (<[Z.to_nat (wptr q) := u8 b]> (data q)) (rptr q) (if w =? PS2_QUEUE_SIZE then 0 else w) (count q + 1))
       (write_cmd s), [1]).
(** The value read comes first. *)
Definition ps2_read_data (s : PS2State) : Z * (PS2State * list Z) :=
  let q := queue s in
  if count q =? 0 then
    let index := rptr q - 1 in
    let index := if index <? 0 then PS2_QUEUE_SIZE - 1 else index in
    (byte (data q) (Z.to_nat index), (s, []))
  else
    let r := rptr q + 1 in
    let c := count q - 1 in
    (byte (data q) (Z.to_nat (rptr q)),
     (mkPs2 (mkQ (data q) (if r =? PS2_QUEUE_SIZE then 0 else r) (wptr q) c) (write_cmd s),
      [0; if c =? 0 then 0 else 1])).

(** ** Keyboard *)
Definition INPUT_MAKE_KEY_MIN : Z := 96.
Definition INPUT_MAKE_KEY_MAX : Z := 127.
Definition linux_input_to_keycode_set1 : list Z :=
  [0x1c; 0x1d; 0x35; 0x00; 0x38; 0x00; 0x47; 0x48;
   0x49; 0x4b; 0x4d; 0x4f; 0x50; 0x51; 0x52; 0x53;
   0x00; 0x00; 0x00; 0x00; 0x00; 0x00; 0x00; 0x00;
   0x00; 0x00; 0x00; 0x00; 0x00; 0x5b; 0x5c; 0x5d].
Definition ps2_put_keycode (is_down : bool) (keycode : Z) : act PS2KbdState :=
  let last k := on_kbd (ps2_queue (k .| (if is_down then 0 else 1 ≪ 7))) in
  if INPUT_MAKE_KEY_MIN <=? keycode then
    if INPUT_MAKE_KEY_MAX <? keycode then skip
    else
      let k := byte linux_input_to_keycode_set1 (Z.to_nat (keycode - INPUT_MAKE_KEY_MIN)) in
      if k =? 0 then skip else on_kbd (ps2_queue 0xe0) ;; last k
  else last keycode.
Definition ps2_reset_keyboard : act PS2KbdState := assign (set_scan 1).
Definition kq (b : Z) : act PS2KbdState := on_kbd (ps2_queue b).
Definition set_kbd_cmd (v : Z) : act PS2KbdState := on_kbd (assign (set_write_cmd v)).
(** A command byte, when none is waiting for its argument. *)
Definition keyboard_command (val : Z) : act PS2KbdState :=
  match val with
  | 0x00 => kq KBD_REPLY_ACK
  | 0x05 => kq KBD_REPLY_RESEND
  | 0xF2 => kq KBD_REPLY_ACK ;; kq 0xab ;; kq 0x83
  | 0xEE => kq KBD_CMD_ECHO
  | 0xF4 => assign (set_scan 1) ;; kq KBD_REPLY_ACK
  | 0xED | 0xF3 => set_kbd_cmd val ;; kq KBD_REPLY_ACK
  | 0xF5 => ps2_reset_keyboard ;; assign (set_scan 0) ;; kq KBD_REPLY_ACK
  | 0xF6 => ps2_reset_keyboard ;; assign (set_scan 1) ;; kq KBD_REPLY_ACK
  | 0xFF => ps2_reset_keyboard ;; kq KBD_REPLY_ACK ;; kq KBD_REPLY_POR
  | _ => kq KBD_REPLY_ACK
  end.
Definition ps2_write_keyboard (val : Z) : act PS2KbdState := with_state (fun s =>
  let cmd := write_cmd (kbd_common s) in
  if (cmd =? KBD_CMD_SET_LEDS) || (cmd =? KBD_CMD_SET_RATE) then kq KBD_REPLY_ACK ;; set_kbd_cmd (-1)
  else keyboard_command val).
Definition ps2_keyboard_set_translation (mode : Z) : act PS2KbdState :=
  assign (fun s => mkKbd (kbd_common s) (scan_enabled s) mode).

(** ** Mouse *)
Definition mq (b : Z) : act PS2MouseState := on_mouse (ps2_queue b).
Definition clamp (m v : Z) : Z := if m <? v then m else if v <? - m then - m else v.
Definition b2z' (b : bool) : Z := if b then 1 else 0.
(** The deltas of one packet. *)
Definition packet_dz (s : PS2MouseState) : Z :=
  match mouse_type s with 3 => clamp 127 (mouse_dz s) | 4 => clamp 7 (mouse_dz s) | _ => mouse_dz s end.
Definition packet (s : PS2MouseState) : list Z :=
  let dx1 := clamp 127 (mouse_dx s) in
  let dy1 := clamp 127 (mouse_dy s) in
  let b := 0x08 .| (b2z' (dx1 <? 0) ≪ 4) .| (b2z' (dy1 <? 0) ≪ 5) .| (mouse_buttons s .& 0x07) in
  [b; dx1 .& 0xff; dy1 .& 0xff] ++
  match mouse_type s with
  | 3 => [packet_dz s .& 0xff]
  | 4 => [(packet_dz s .& 0x0f) .| ((mouse_buttons s .& 0x18) ≪ 1)]
  | _ => []
  end.
Fixpoint mqs (l : list Z) : act PS2MouseState := match l with [] => skip | b :: l' => mq b ;; mqs l' end.
Definition ps2_mouse_send_packet : act PS2MouseState := with_state (fun s =>
  mqs (packet s) ;;
  assign (fun s' => set_deltas (mouse_dx s' - clamp 127 (mouse_dx s)) (mouse_dy s' - clamp 127 (mouse_dy s))
                      (mouse_dz s' - packet_dz s) s')).
Definition deltas_zero (s : PS2MouseState) : bool :=
  (mouse_dx s =? 0) && (mouse_dy s =? 0) && (mouse_dz s =? 0).
(** Packets until the deltas are zero; every packet brings one nearer. *)
Fixpoint send_packets (fuel : nat) (s : PS2MouseState) : option (PS2MouseState * list Z) :=
  match fuel with
  | O => None
  | S f =>
      let '(s1, l1) := ps2_mouse_send_packet s in
      if deltas_zero s1 then Some (s1, l1)
      else '(s2, l2) ← send_packets f s1; Some (s2, l1 ++ l2)
  end.
Definition event_fuel (s : PS2MouseState) : nat :=
  S (Z.to_nat (Z.abs (mouse_dx s) + Z.abs (mouse_dy s) + Z.abs (mouse_dz s))).
Definition ps2_mouse_event (dx dy dz buttons_state : Z) (s : PS2MouseState) : option (PS2MouseState * list Z) :=
  if mouse_status s .& MOUSE_STATUS_ENABLED =? 0 then Some (s, [])
  else
    let s := set_deltas (i32 (mouse_dx s + dx)) (i32 (mouse_dy s - dy)) (i32 (mouse_dz s + dz)) s in
    if deltas_zero s && (mouse_buttons s =? buttons_state) then Some (s, [])
    else
      let s := set_buttons (u8 buttons_state) s in
      if (mouse_status s .& MOUSE_STATUS_REMOTE =? 0) && (count (queue (mouse_common s)) <? PS2_QUEUE_SIZE - 16)
      then send_packets (event_fuel s) s
      else Some (s, []).

Definition set_mouse_cmd (v : Z) : act PS2MouseState := on_mouse (assign (set_write_cmd v)).
Definition mouse_defaults : act PS2MouseState := assign (set_sample_rate 100) ;; assign (set_resolution 2) ;; assign (set_status 0).
Definition mouse_command (val : Z) : act PS2MouseState := with_state (fun s =>
  match val with
  | 0xE6 => assign (set_status (u8 (mouse_status s .& Z.lnot MOUSE_STATUS_SCALE21))) ;; mq AUX_ACK
  | 0xE7 => assign (set_status (mouse_status s .| MOUSE_STATUS_SCALE21)) ;; mq AUX_ACK
  | 0xEA => assign (set_status (u8 (mouse_status s .& Z.lnot MOUSE_STATUS_REMOTE))) ;; mq AUX_ACK
  | 0xEE => assign (set_wrap 1) ;; mq AUX_ACK
  | 0xF0 => assign (set_status (mouse_status s .| MOUSE_STATUS_REMOTE)) ;; mq AUX_ACK
  | 0xF2 => mq AUX_ACK ;; mq (mouse_type s)
  | 0xE8 | 0xF3 => set_mouse_cmd val ;; mq AUX_ACK
  | 0xE9 => mq AUX_ACK ;; mq (mouse_status s) ;; mq (mouse_resolution s) ;; mq (mouse_sample_rate s)
  | 0xEB => mq AUX_ACK ;; ps2_mouse_send_packet
  | 0xF4 => assign (set_status (mouse_status s .| MOUSE_STATUS_ENABLED)) ;; mq AUX_ACK
  | 0xF5 => assign (set_status (u8 (mouse_status s .& Z.lnot MOUSE_STATUS_ENABLED))) ;; mq AUX_ACK
  | 0xF6 => mouse_defaults ;; mq AUX_ACK
  | 0xFF => mouse_defaults ;; assign (set_type 0) ;; mq AUX_ACK ;; mq 0xaa ;; mq 0
  | _ => skip
  end).
(** The sequences of sample rates that switch the wheel protocols on. *)
Definition mouse_detect (val : Z) (s : PS2MouseState) : PS2MouseState :=
  match mouse_detect_state s with
  | 1 => set_detect (if val =? 100 then 2 else if val =? 200 then 3 else 0) s
  | 2 => set_detect 0 (if val =? 80 then set_type 3 s else s)
  | 3 => set_detect 0 (if val =? 80 then set_type 4 s else s)
  | _ => if val =? 200 then set_detect 1 s else s
  end.
Definition ps2_write_mouse (val : Z) : act PS2MouseState := with_state (fun s =>
  match write_cmd (mouse_common s) with
  | 0xF3 => assign (set_sample_rate (u8 val)) ;; assign (mouse_detect val) ;; mq AUX_ACK ;; set_mouse_cmd (-1)
  | 0xE8 => assign (set_resolution (u8 val)) ;; mq AUX_ACK ;; set_mouse_cmd (-1)
  | _ =>
      if negb (mouse_wrap s =? 0) then
        if val =? AUX_RESET_WRAP then assign (set_wrap 0) ;; mq AUX_ACK
        else if negb (val =? AUX_RESET) then mq val
        else mouse_command val
      else mouse_command val
  end).

(** ** Creation *)
Definition ps2_reset (s : PS2State) : PS2State := mkPs2 (mkQ (data (queue s)) 0 0 0) (-1).
Definition zero_common : PS2State := mkPs2 (mkQ (replicate 256 0) 0 0 0) 0.
Definition ps2_kbd_init : PS2KbdState := mkKbd (ps2_reset zero_common) 0 0.
Definition ps2_mouse_init : PS2MouseState := mkMouse (ps2_reset zero_common) 0 0 0 0 0 0 0 0 0 0.

(** * The keyboard controller (pckbd.c)

    The two lines to the interrupt controller are part of the state: the last level each was
    set to. *)
#[local] Open Scope Z_scope.

Definition KBD_CCMD_READ_MODE : Z := 0x20.
Definition KBD_CCMD_WRITE_MODE : Z := 0x60.
Definition KBD_CCMD_WRITE_OUTPORT : Z := 0xD1.
Definition KBD_CCMD_WRITE_OBUF : Z := 0xD2.
Definition KBD_CCMD_WRITE_AUX_OBUF : Z := 0xD3.
Definition KBD_CCMD_WRITE_MOUSE : Z := 0xD4.
Definition KBD_STAT_OBF : Z := 0x01.
Definition KBD_STAT_SELFTEST : Z := 0x04.
Definition KBD_STAT_CMD : Z := 0x08.
Definition KBD_STAT_UNLOCKED : Z := 0x10.
Definition KBD_STAT_MOUSE_OBF : Z := 0x20.
Definition KBD_MODE_KBD_INT : Z := 0x01.
Definition KBD_MODE_MOUSE_INT : Z := 0x02.
Definition KBD_MODE_DISABLE_KBD : Z := 0x10.
Definition KBD_MODE_DISABLE_MOUSE : Z := 0x20.
Definition KBD_MODE_KCC : Z := 0x40.
Definition KBD_PENDING_KBD : Z := 1.
Definition KBD_PENDING_AUX : Z := 2.

Record KBDState := mkKBD {
  kb_write_cmd : Z;
  kb_status : Z;
  kb_mode : Z;
  kb_pending : Z;
  kbd : PS2KbdState;
  mouse : PS2MouseState;
  irq_kbd : Z;
  irq_mouse : Z;
}.
Definition set_kb_write_cmd v s := mkKBD v (kb_status s) (kb_mode s) (kb_pending s) (kbd s) (mouse s) (irq_kbd s) (irq_mouse s).
Definition set_kb_status v s := mkKBD (kb_write_cmd s) v (kb_mode s) (kb_pending s) (kbd s) (mouse s) (irq_kbd s) (irq_mouse s).
Definition set_kb_mode v s := mkKBD (kb_write_cmd s) (kb_status s) v (kb_pending s) (kbd s) (mouse s) (irq_kbd s) (irq_mouse s).
Definition set_kb_pending v s := mkKBD (kb_write_cmd s) (kb_status s) (kb_mode s) v (kbd s) (mouse s) (irq_kbd s) (irq_mouse s).
Definition set_kbd v s := mkKBD (kb_write_cmd s) (kb_status s) (kb_mode s) (kb_pending s) v (mouse s) (irq_kbd s) (irq_mouse s).
Definition set_mouse v s := mkKBD (kb_write_cmd s) (kb_status s) (kb_mode s) (kb_pending s) (kbd s) v (irq_kbd s) (irq_mouse s).
Definition set_lines k m s := mkKBD (kb_write_cmd s) (kb_status s) (kb_mode s) (kb_pending s) (kbd s) (mouse s) k m.

Definition has (v flag : Z) : bool := negb (v .& flag =? 0).
(** [v &= ~flag] on a byte *)
Definition clear (v flag : Z) : Z := u8 (v .& Z.lnot flag).

(** ** Interrupts *)
Definition kbd_update_irq (s : KBDState) : KBDState :=
  let st := clear (kb_status s) (KBD_STAT_OBF .| KBD_STAT_MOUSE_OBF) in
  if kb_pending s =? 0 then set_lines 0 0 (set_kb_status st s)
  else
    let st := st .| KBD_STAT_OBF in
    if kb_pending s =? KBD_PENDING_AUX then
      set_lines 0 (if has (kb_mode s) KBD_MODE_MOUSE_INT then 1 else 0) (set_kb_status (st .| KBD_STAT_MOUSE_OBF) s)
    else
      set_lines (if has (kb_mode s) KBD_MODE_KBD_INT && negb (has (kb_mode s) KBD_MODE_DISABLE_KBD) then 1 else 0) 0
        (set_kb_status st s).
(** kbd_update_kbd_irq and kbd_update_aux_irq *)
Definition kbd_update_dev_irq (bit level : Z) (s : KBDState) : KBDState :=
  kbd_update_irq (set_kb_pending (if level =? 0 then clear (kb_pending s) bit else kb_pending s .| bit) s).

(** An operation of a device, with its calls of the callback. *)
Definition on_keyboard (f : act PS2KbdState) (s : KBDState) : KBDState :=
  let '(k, l) := f (kbd s) in foldl (fun s v => kbd_update_dev_irq KBD_PENDING_KBD v s) (set_kbd k s) l.
Definition on_aux (f : act PS2MouseState) (s : KBDState) : KBDState :=
  let '(m, l) := f (mouse s) in foldl (fun s v => kbd_update_dev_irq KBD_PENDING_AUX v s) (set_mouse m s) l.

(** ** Ports *)
Local Abbreviation MK := (M KBDState).
Definition kbd_read_status : MK Z := gets kb_status.
Definition kbd_queue (b : Z) (aux : bool) (s : KBDState) : KBDState :=
  if aux then on_aux (mq b) s else on_keyboard (kq b) s.
(** The A20 gate is always open; a request of a reset ends the emulator. *)
Definition ioport_get_a20 : Z := 1.
Definition qemu_system_reset_request {A} : MK A := stop_with (StopExit 1).

Definition outport (s : KBDState) : Z :=
  0x01 .| (ioport_get_a20 ≪ 1) .| (if has (kb_status s) KBD_STAT_OBF then 0x10 else 0)
    .| (if has (kb_status s) KBD_STAT_MOUSE_OBF then 0x20 else 0).
Definition kbd_write_command (val : Z) : MK unit :=
  match val with
  | 0x20 => modify (fun s => kbd_queue (kb_mode s) true s)
  | 0x60 | 0xD1 | 0xD2 | 0xD3 | 0xD4 => modify (set_kb_write_cmd val)
  | 0xA7 => modify (fun s => set_kb_mode (kb_mode s .| KBD_MODE_DISABLE_MOUSE) s)
  | 0xA8 => modify (fun s => set_kb_mode (clear (kb_mode s) KBD_MODE_DISABLE_MOUSE) s)
  | 0xA9 | 0xAB | 0xC0 => modify (kbd_queue 0x00 false)
  | 0xAA => modify (fun s => kbd_queue 0x55 false (set_kb_status (kb_status s .| KBD_STAT_SELFTEST) s))
  | 0xAD => modify (fun s => kbd_update_irq (set_kb_mode (kb_mode s .| KBD_MODE_DISABLE_KBD) s))
  | 0xAE => modify (fun s => kbd_update_irq (set_kb_mode (clear (kb_mode s) KBD_MODE_DISABLE_KBD) s))
  | 0xD0 => modify (fun s => kbd_queue (outport s) false s)
  | 0xFE => qemu_system_reset_request
  | _ => mret tt
  end.
Definition kbd_read_data : MK Z := fun s =>
  if kb_pending s =? KBD_PENDING_AUX then
    Ok (fst (ps2_read_data (mouse_common (mouse s)))) (on_aux (on_mouse (fun c => snd (ps2_read_data c))) s)
  else
    Ok (fst (ps2_read_data (kbd_common (kbd s)))) (on_keyboard (on_kbd (fun c => snd (ps2_read_data c))) s).
Definition kbd_write_data (val : Z) : MK unit :=
  s ← gets (fun s => s);
  _ ← match kb_write_cmd s with
      | 0 => modify (on_keyboard (ps2_write_keyboard val))
      | 0x60 => modify (fun s =>
          let s := set_kb_mode (u8 val) s in
          kbd_update_irq (on_keyboard (ps2_keyboard_set_translation (if has (kb_mode s) KBD_MODE_KCC then 1 else 0)) s))
      | 0xD2 => modify (kbd_queue val false)
      | 0xD3 => modify (kbd_queue val true)
      | 0xD1 => if val .& 1 =? 0 then qemu_system_reset_request else mret tt
      | 0xD4 => modify (on_aux (ps2_write_mouse val))
      | _ => mret tt
      end;
  modify (set_kb_write_cmd 0).

(** ** Input from the host (ps2_put_keycode, ps2_mouse_event) *)
Definition kbd_put_keycode (is_down : bool) (keycode : Z) : MK unit := modify (on_keyboard (ps2_put_keycode is_down keycode)).
Definition kbd_mouse_event (dx dy dz buttons : Z) : MK unit := fun s =>
  match ps2_mouse_event dx dy dz buttons (mouse s) with
  | None => Stop StopFuel
  | Some r => Ok tt (on_aux (fun _ => r) s)
  end.

(** kbd_reset and i8042_init *)
Definition kbd_reset (s : KBDState) : KBDState :=
  set_kb_status (KBD_STAT_CMD .| KBD_STAT_UNLOCKED) (set_kb_mode (KBD_MODE_KBD_INT .| KBD_MODE_MOUSE_INT) s).
Definition i8042_init : KBDState := kbd_reset (mkKBD 0 0 0 0 ps2_kbd_init ps2_mouse_init 0 0).
