(* ===== verification/Ps2Facts.v ===== *)
(** * PS/2: the ring is a bounded queue, and mouse packets carry the movement *)
From S2P Require Export Ps2.
#[local] Open Scope Z_scope.
#[local] Open Scope act_scope.

(** ** The ring *)
Record ring_ok (q : PS2Queue) : Prop := {
  ro_length : length (data q) = 256%nat;
  ro_bytes : bytes (data q);
  ro_rptr : 0 <= rptr q < 256;
  ro_count : 0 <= count q <= 256;
  ro_wptr : wptr q = (rptr q + count q) mod 256;
}.
Definition slot (q : PS2Queue) (i : nat) : nat := Z.to_nat ((rptr q + Z.of_nat i) mod 256).
(** The bytes in the ring, oldest first. *)
Definition contents (q : PS2Queue) : list Z := map (fun i => byte (data q) (slot q i)) (seq 0 (Z.to_nat (count q))).
Lemma length_contents q : length (contents q) = Z.to_nat (count q).
Proof. unfold contents. by rewrite length_map, length_seq. Qed.
Lemma mod256 a : 0 <= a mod 256 < 256.
Proof. by apply Z.mod_pos_bound. Qed.
Lemma wrap_succ a : 0 <= a < 256 -> (if a + 1 =? PS2_QUEUE_SIZE then 0 else a + 1) = (a + 1) mod 256.
Proof. intros H. unfold PS2_QUEUE_SIZE. destruct (Z.eqb_spec (a + 1) 256) as [->|]; [done|]. by rewrite Z.mod_small by lia. Qed.

Lemma queue_push b s s' l : ring_ok (queue s) -> ps2_queue b s = (s', l) ->
  ring_ok (queue s') /\ write_cmd s' = write_cmd s /\
  if count (queue s) <? 256 then contents (queue s') = contents (queue s) ++ [u8 b] /\ l = [1] else s' = s /\ l = [].
Proof.
  intros [H1 H2 H3 H4 H5] E. unfold ps2_queue in E. change PS2_QUEUE_SIZE with 256 in E at 1.
  destruct (Z.leb_spec 256 (count (queue s))).
  { injection E as <- <-. rewrite (proj2 (Z.ltb_ge _ _)) by lia. by split; [split|]. }
  rewrite (proj2 (Z.ltb_lt _ _)) by lia. injection E as <- <-. cbn [queue write_cmd].
  pose proof (mod256 (rptr (queue s) + count (queue s))) as Hw. rewrite <- H5 in Hw.
  split; [split; cbn; try lia|].
  - by rewrite length_insert.
  - apply Forall_insert; [done|by apply fits_wrap].
  - rewrite wrap_succ by lia. rewrite H5. rewrite Z.add_mod_idemp_l by lia. f_equal. lia.
  - split; [done|]. split; [|done]. unfold contents. cbn [count data].
    replace (Z.to_nat (count (queue s) + 1)) with (S (Z.to_nat (count (queue s)))) by lia. rewrite seq_S, map_app. f_equal.
    + apply map_ext_in. intros i Hi%in_seq. rewrite byte_insert by lia. unfold slot. cbn [rptr]. rewrite decide_False; [done|].
      rewrite H5. pose proof (mod256 (rptr (queue s) + Z.of_nat i)). Z.div_mod_to_equations. lia.
    + cbn. rewrite byte_insert by lia. unfold slot. cbn [rptr]. rewrite decide_True; [done|]. rewrite H5. do 2 f_equal. lia.
Qed.
Lemma contents_level q : 0 <= count q -> match contents q with [] => 0 | _ => 1 end = if count q =? 0 then 0 else 1.
Proof.
  intros H. pose proof (length_contents q) as L. destruct (contents q); cbn in L.
  - by rewrite (proj2 (Z.eqb_eq _ _)) by lia.
  - by rewrite (proj2 (Z.eqb_neq _ _)) by lia.
Qed.
Lemma queue_pop s : ring_ok (queue s) ->
  let '(v, (s', l)) := ps2_read_data s in
  match contents (queue s) with
  | [] => s' = s /\ l = []
  | x :: rest => v = x /\ contents (queue s') = rest /\ ring_ok (queue s') /\ write_cmd s' = write_cmd s /\
      l = [0; match rest with [] => 0 | _ => 1 end] /\ byte (data (queue s')) (Z.to_nat ((rptr (queue s') - 1) mod 256)) = x
  end.
Proof.
  intros [H1 H2 H3 H4 H5]. unfold ps2_read_data. pose proof (length_contents (queue s)) as HL.
  destruct (Z.eqb_spec (count (queue s)) 0) as [E|E].
  { rewrite E in HL. by destruct (contents (queue s)). }
  cbv zeta. cbn [queue write_cmd data rptr].
  assert (contents (queue s) = byte (data (queue s)) (Z.to_nat (rptr (queue s))) ::
    contents (mkQ (data (queue s)) ((rptr (queue s) + 1) mod 256) (wptr (queue s)) (count (queue s) - 1))) as Ec.
  { unfold contents at 1. replace (Z.to_nat (count (queue s))) with (S (Z.to_nat (count (queue s) - 1))) by lia.
    cbn [seq map]. f_equal; [unfold slot; f_equal; rewrite Z.add_0_r, Z.mod_small by lia; done|].
    unfold contents. cbn [count data]. rewrite <- seq_shift, map_map. apply map_ext. intros i. unfold slot. cbn [rptr]. do 2 f_equal.
    rewrite Z.add_mod_idemp_l by lia. f_equal. lia. }
  rewrite Ec. rewrite wrap_succ by lia. split; [done|]. split; [done|]. split; [split; cbn; try done; try lia|].
  - apply mod256.
  - rewrite H5, Z.add_mod_idemp_l by lia. f_equal. lia.
  - split; [done|]. split.
    + by rewrite contents_level by (cbn; lia).
    + f_equal. f_equal. rewrite Zminus_mod_idemp_l. rewrite Z.mod_small by lia. lia.
Qed.

(** ** The specification: a bounded queue that remembers the last byte it gave out *)
Record fifo := mkFifo { fq : list Z; flast : Z }.
Inductive ring_op := Push (b : Z) | Pop.
(** The state, the value read, and the levels of the interrupt. *)
Definition spec_step (o : ring_op) (f : fifo) : fifo * option Z * list Z :=
  match o with
  | Push b => if (length (fq f) <? 256)%nat then (mkFifo (fq f ++ [u8 b]) (flast f), None, [1]) else (f, None, [])
  | Pop =>
      match fq f with
      | [] => (f, Some (flast f), [])
      | x :: r => (mkFifo r x, Some x, [0; match r with [] => 0 | _ => 1 end])
      end
  end.
Definition ring_step (o : ring_op) (s : PS2State) : PS2State * option Z * list Z :=
  match o with
  | Push b => let '(s', l) := ps2_queue b s in (s', None, l)
  | Pop => let '(v, (s', l)) := ps2_read_data s in (s', Some v, l)
  end.
Fixpoint outputs {S} (step : ring_op -> S -> S * option Z * list Z) (s : S) (ops : list ring_op) : list (option Z * list Z) :=
  match ops with
  | [] => []
  | o :: ops' => let '(s', v, l) := step o s in (v, l) :: outputs step s' ops'
  end.
Record implements (s : PS2State) (f : fifo) : Prop := {
  im_ring : ring_ok (queue s);
  im_contents : contents (queue s) = fq f;
  im_last : fq f = [] -> byte (data (queue s)) (Z.to_nat ((rptr (queue s) - 1) mod 256)) = flast f;
}.
Lemma pop_empty s : ring_ok (queue s) -> contents (queue s) = [] ->
  fst (ps2_read_data s) = byte (data (queue s)) (Z.to_nat ((rptr (queue s) - 1) mod 256)).
Proof.
  intros [H1 H2 H3 H4 H5] Hc. pose proof (length_contents (queue s)) as L. rewrite Hc in L. cbn in L.
  unfold ps2_read_data. rewrite (proj2 (Z.eqb_eq _ _)) by lia. cbn [fst]. do 2 f_equal.
  destruct (Z.ltb_spec (rptr (queue s) - 1) 0) as [H|H]; [|by rewrite Z.mod_small by lia].
  replace (rptr (queue s)) with 0 by lia. done.
Qed.
Lemma step_refines o s f : implements s f ->
  let '(s', v, l) := ring_step o s in let '(f', v', l') := spec_step o f in implements s' f' /\ v = v' /\ l = l'.
Proof.
  intros [Hr Hc Hl]. pose proof (length_contents (queue s)) as L. destruct o as [b|]; cbn [ring_step spec_step].
  - destruct (ps2_queue b s) as [s' l] eqn:E. destruct (queue_push b s s' l Hr E) as (Hr' & _ & H).
    pose proof (ro_count _ Hr). rewrite <- Hc, L.
    destruct (Z.ltb_spec (count (queue s)) 256), (Nat.ltb_spec (Z.to_nat (count (queue s))) 256); try lia.
    + destruct H as [H ->]. split; [|done]. split; [done|by rewrite H|]. cbn [fq]. by destruct (contents (queue s)).
    + destruct H as [-> ->]. split; [|done]. by split.
  - pose proof (queue_pop s Hr) as Hp. pose proof (pop_empty s Hr) as He. destruct (ps2_read_data s) as [v [s' l]]. rewrite <- Hc.
    destruct (contents (queue s)) as [|x r] eqn:Ec.
    + destruct Hp as [-> ->]. split; [by split; rewrite ?Ec|]. split; [|done]. rewrite <- Hl by done. f_equal. by apply He.
    + destruct Hp as (-> & H1 & H2 & H3 & H4 & H5). split; [by split|done].
Qed.

(** C28: the ring of a PS/2 device is a queue of at most 256 bytes.  From a reset, any
    sequence of writes by the device and reads by the host gives the values and the
    interrupts of the specification: bytes come out in order, a byte that does not fit is
    dropped, reading an empty ring repeats the last byte, and the interrupt follows whether
    bytes are left. *)
Theorem ps2_ring_refines ops :
  outputs ring_step (ps2_reset zero_common) ops = outputs spec_step (mkFifo [] 0) ops.
Proof.
  assert (implements (ps2_reset zero_common) (mkFifo [] 0)) as H.
  { split; [split; cbn; try done; try lia|done|by vm_compute]. repeat constructor; by vm_compute. }
  revert H. generalize (ps2_reset zero_common) (mkFifo [] 0). induction ops as [|o ops IH]; intros s f H; [done|].
  cbn [outputs]. pose proof (step_refines o s f H) as Hs. destruct (ring_step o s) as [[s' v] l], (spec_step o f) as [[f' v'] l'].
  destruct Hs as (H' & -> & ->). f_equal. by apply IH.
Qed.

(** ** Mouse packets *)
Definition set_common (c : PS2State) (s : PS2MouseState) : PS2MouseState :=
  mkMouse c (mouse_status s) (mouse_resolution s) (mouse_sample_rate s) (mouse_wrap s) (mouse_type s)
    (mouse_detect_state s) (mouse_dx s) (mouse_dy s) (mouse_dz s) (mouse_buttons s).
Definition ring_of (s : PS2MouseState) : PS2Queue := queue (mouse_common s).
Definition u8s (l : list Z) : list Z := map (fun v => u8 v) l.
Lemma length_u8s l : length (u8s l) = length l.
Proof. apply length_map. Qed.
(** Bytes are queued behind the others; those that do not fit are lost. *)
Definition queued (old new : list Z) : list Z := take 256 (old ++ new).
Lemma queued_app a b c : queued (queued a b) c = queued a (b ++ c).
Proof.
  unfold queued. rewrite app_assoc. generalize (a ++ b). intros l. rewrite !take_app, take_take, length_take.
  replace (256 `min` 256)%nat with 256%nat by done. do 2 f_equal. lia.
Qed.
Lemma contents_bound q : ring_ok q -> (length (contents q) <= 256)%nat.
Proof. intros H. rewrite length_contents. pose proof (ro_count _ H). lia. Qed.
Lemma queue_queued b s s' l : ring_ok (queue s) -> ps2_queue b s = (s', l) -> contents (queue s') = queued (contents (queue s)) [u8 b].
Proof.
  intros Hr E. pose proof (contents_bound _ Hr) as Hb. destruct (queue_push b s s' l Hr E) as (_ & _ & H).
  unfold queued. pose proof (ro_count _ Hr) as Hc. rewrite length_contents in Hb. destruct (Z.ltb_spec (count (queue s)) 256).
  - destruct H as [-> _]. rewrite take_ge; [done|]. rewrite length_app, length_contents. cbn. lia.
  - destruct H as [-> _]. by rewrite take_app_le, take_ge by (rewrite length_contents; lia).
Qed.
Lemma mqs_ok l : forall s, ring_ok (ring_of s) -> exists c lv, mqs l s = (set_common c s, lv) /\ ring_ok (queue c) /\
  contents (queue c) = queued (contents (ring_of s)) (u8s l).
Proof.
  induction l as [|b l IH]; intros s Hr; cbn [mqs].
  { exists (mouse_common s), []. split; [by destruct s|]. split; [done|]. unfold queued. cbn. rewrite app_nil_r.
    by rewrite take_ge by by apply contents_bound. }
  unfold and_act, mq, on_mouse. destruct (ps2_queue b (mouse_common s)) as [c1 l1] eqn:E.
  destruct (queue_push b _ _ _ Hr E) as (Hr1 & _). pose proof (queue_queued b _ _ _ Hr E) as H1.
  destruct (IH (set_common c1 s) Hr1) as (c & lv & E2 & Hr2 & H2).
  unfold set_common in E2 at 1. rewrite E2. exists c, (l1 ++ lv). split; [done|]. split; [done|]. rewrite H2.
  unfold ring_of in *. cbn [mouse_common set_common]. by rewrite H1, queued_app.
Qed.
Definition after_packet (s : PS2MouseState) : PS2MouseState :=
  set_deltas (mouse_dx s - clamp 127 (mouse_dx s)) (mouse_dy s - clamp 127 (mouse_dy s)) (mouse_dz s - packet_dz s) s.
Lemma send_packet_ok s : ring_ok (ring_of s) -> exists c lv,
  ps2_mouse_send_packet s = (set_common c (after_packet s), lv) /\ ring_ok (queue c) /\
  contents (queue c) = queued (contents (ring_of s)) (u8s (packet s)).
Proof.
  intros Hr. destruct (mqs_ok (packet s) s Hr) as (c & lv & E & H1 & H2). exists c, lv.
  unfold ps2_mouse_send_packet, with_state, and_act. rewrite E. cbn [assign]. unfold assign. rewrite app_nil_r. done.
Qed.

(** What a driver reads from a packet: the movement and the buttons. *)
Record movement := mkMove { mv_x : Z; mv_y : Z; mv_z : Z; mv_buttons : Z }.
Definition decode_packet (ty : Z) (p : list Z) : movement :=
  let b := byte p 0 in
  let x := byte p 1 - (if Z.testbit b 4 then 256 else 0) in
  let y := byte p 2 - (if Z.testbit b 5 then 256 else 0) in
  match ty with
  | 3 => mkMove x y (swrap 8 (byte p 3)) (b .& 7)
  | 4 => mkMove x y (swrap 4 (byte p 3)) ((b .& 7) .| ((byte p 3 ≫ 1) .& 0x18))
  | _ => mkMove x y 0 (b .& 7)
  end.
Definition buttons_of (ty v : Z) : Z := match ty with 4 => v .& 0x1f | _ => v .& 7 end.
Definition wheel_of (ty v : Z) : Z := match ty with 3 | 4 => v | _ => 0 end.
Lemma clamp_range m v : 0 <= m -> - m <= clamp m v <= m.
Proof. intros. unfold clamp. zcases. Qed.
Lemma clamp_progress m v : 0 < m -> v <> 0 -> Z.abs (v - clamp m v) < Z.abs v.
Proof. intros. unfold clamp. zcases. Qed.
Lemma sign_byte v : -127 <= v <= 127 -> u8 (v .& 0xff) - (if v <? 0 then 256 else 0) = v.
Proof.
  intros H. change 0xff with (Z.ones 8). rewrite Z.land_ones by lia. unfold wrap. rewrite Z.mod_mod by lia.
  change (2 ^ 8) with 256. destruct (Z.ltb_spec v 0); Z.div_mod_to_equations; lia.
Qed.
Lemma head_bits (sx sy : bool) v (b := u8 (0x08 .| (b2z' sx ≪ 4) .| (b2z' sy ≪ 5) .| (v .& 0x07))) :
  Z.testbit b 4 = sx /\ Z.testbit b 5 = sy /\ b .& 7 = v .& 7.
Proof.
  assert (forall i, 3 <= i < 8 -> Z.testbit (v .& 7) i = false) as H7.
  { intros i Hi. change 7 with (Z.ones 3). rewrite Z.land_spec, Z.ones_spec_high by lia. apply andb_false_r. }
  unfold b. split; [|split].
  - rewrite wrap_testbit, !Z.lor_spec, H7 by lia. by destruct sx, sy.
  - rewrite wrap_testbit, !Z.lor_spec, H7 by lia. by destruct sx, sy.
  - apply Z.bits_inj'. intros i Hi. rewrite !Z.land_spec, wrap_testbit, !Z.lor_spec, !Z.land_spec by lia.
    destruct (Z_lt_le_dec i 3); [|change 7 with (Z.ones 3); rewrite Z.ones_spec_high by lia; by rewrite !andb_false_r].
    generalize (Z.testbit v i). intros t. assert (i = 0 \/ i = 1 \/ i = 2) as [->|[->| ->]] by lia; by destruct sx, sy, t.
Qed.
Lemma wheel_bits dz v (z := u8 ((dz .& 0x0f) .| ((v .& 0x18) ≪ 1))) : -7 <= dz <= 7 ->
  swrap 4 z = dz /\ (z ≫ 1) .& 0x18 = v .& 0x18.
Proof.
  intros Hdz. assert (forall i, 0 <= i -> Z.testbit z i = (i <? 8) && (Z.testbit dz i && Z.testbit 0x0f i || Z.testbit v (i - 1) && Z.testbit 0x18 (i - 1))) as Hz.
  { intros i Hi. unfold z. rewrite wrap_testbit, Z.lor_spec, Z.shiftl_spec, !Z.land_spec by lia. done. }
  split.
  - rewrite <- (swrap_id 4 dz) by lia. apply swrap_wrap_eq; [lia|]. apply Z.bits_inj'. intros i Hi. rewrite !wrap_testbit, Hz by lia.
    destruct (Z_lt_le_dec i 4); [|by rewrite (proj2 (Z.ltb_ge i 4)) by lia].
    generalize (Z.testbit dz i) (Z.testbit v (i - 1)). intros t u.
    assert (i = 0 \/ i = 1 \/ i = 2 \/ i = 3) as [->|[->|[->| ->]]] by lia; by destruct t, u.
  - apply Z.bits_inj'. intros i Hi. rewrite !Z.land_spec, Z.shiftr_spec, Hz by lia. replace (i + 1 - 1) with i by lia.
    assert (Z.testbit 0x0f (i + 1) && Z.testbit 0x18 i = false /\ (i + 1 <? 8) || negb (Z.testbit 0x18 i) = true) as [Ha Hb].
    { destruct (Z_lt_le_dec i 5) as [H|H].
      - assert (i = 0 \/ i = 1 \/ i = 2 \/ i = 3 \/ i = 4) as [->|[->|[->|[->| ->]]]] by lia; done.
      - rewrite (fits_testbit 5 0x18 i) by (lia || by vm_compute). rewrite andb_false_r, orb_true_r. done. }
    revert Ha Hb. generalize (Z.testbit dz (i + 1)) (Z.testbit v i) (Z.testbit 0x0f (i + 1)) (Z.testbit 0x18 i) (i + 1 <? 8).
    by intros [] [] [] [] [].
Qed.
Lemma decode_u8s s : 
  decode_packet (mouse_type s) (u8s (packet s)) =
  mkMove (clamp 127 (mouse_dx s)) (clamp 127 (mouse_dy s)) (wheel_of (mouse_type s) (packet_dz s))
    (buttons_of (mouse_type s) (mouse_buttons s)).
Proof.
  pose proof (sign_byte (clamp 127 (mouse_dx s)) (clamp_range 127 _ ltac:(lia))) as Sx.
  pose proof (sign_byte (clamp 127 (mouse_dy s)) (clamp_range 127 _ ltac:(lia))) as Sy.
  destruct (head_bits (clamp 127 (mouse_dx s) <? 0) (clamp 127 (mouse_dy s) <? 0) (mouse_buttons s)) as (B4 & B5 & B7).
  unfold packet, decode_packet, u8s. rewrite !map_app. cbn [map app]. unfold byte. cbn [nth].
  rewrite B4, B5, B7, Sx, Sy. unfold packet_dz, wheel_of, buttons_of.
  assert (Hty : mouse_type s = 3 \/ mouse_type s = 4 \/ mouse_type s <> 3 /\ mouse_type s <> 4) by lia.
  destruct Hty as [E|[E|[E3 E4]]].
  - rewrite E. cbn [map nth]. f_equal. pose proof (clamp_range 127 (mouse_dz s) ltac:(lia)). change 0xff with (Z.ones 8).
    rewrite Z.land_ones by lia. rewrite <- (swrap_id 8 (clamp 127 (mouse_dz s))) at 2 by lia. apply swrap_wrap_eq; [lia|].
    unfold wrap. by rewrite !Z.mod_mod by lia.
  - rewrite E. cbn [map nth]. destruct (wheel_bits (clamp 7 (mouse_dz s)) (mouse_buttons s) (clamp_range 7 _ ltac:(lia))) as [W1 W2].
    rewrite W1, W2. f_equal. by rewrite <- Z.land_lor_distr_r.
  - by destruct (mouse_type s) as [|[[p|p|]|[p|[p|p|]|]|]|p].
Qed.

(** The movement that is left, as far as the protocol of the mouse carries it. *)
Definition distance (s : PS2MouseState) : Z := Z.abs (mouse_dx s) + Z.abs (mouse_dy s) + Z.abs (mouse_dz s).
Definition total_move (ty : Z) (ps : list (list Z)) : Z * Z * Z :=
  foldr (fun p t => let m := decode_packet ty p in (mv_x m + t.1.1, mv_y m + t.1.2, mv_z m + t.2)) (0, 0, 0) ps.
Definition dz_step (s : PS2MouseState) : Prop := packet_dz s = mouse_dz s \/ Z.abs (mouse_dz s - packet_dz s) < Z.abs (mouse_dz s).
Lemma packet_dz_step s : dz_step s.
Proof.
  unfold dz_step, packet_dz. destruct (Z.eq_dec (mouse_dz s) 0) as [->|Hne]; [left; by destruct (mouse_type s) as [|[[p|p|]|[p|[p|p|]|]|]|p]|].
  pose proof (clamp_progress 127 (mouse_dz s) ltac:(lia) Hne). pose proof (clamp_progress 7 (mouse_dz s) ltac:(lia) Hne).
  destruct (mouse_type s) as [|[[p|p|]|[p|[p|p|]|]|]|p]; auto.
Qed.
Lemma abs_sub_clamp m v : 0 < m -> Z.abs (v - clamp m v) <= Z.abs v /\ (v <> 0 -> Z.abs (v - clamp m v) < Z.abs v).
Proof. intros. unfold clamp. split; intros; zcases. Qed.
Lemma distance_packet s : distance (after_packet s) < distance s \/ deltas_zero (after_packet s) = true.
Proof.
  unfold distance, deltas_zero. cbn [after_packet set_deltas mouse_dx mouse_dy mouse_dz].
  destruct (abs_sub_clamp 127 (mouse_dx s)) as [X1 X2]; [lia|]. destruct (abs_sub_clamp 127 (mouse_dy s)) as [Y1 Y2]; [lia|].
  destruct (packet_dz_step s) as [E|E].
  - rewrite E, Z.sub_diag. destruct (Z.eq_dec (mouse_dx s) 0) as [Ex|]; [|left; lia]. destruct (Z.eq_dec (mouse_dy s) 0) as [Ey|]; [|left; lia].
    right. rewrite Ex, Ey. done.
  - left. lia.
Qed.
(** ** The packets of a movement, without the loop: the shares of [v] in steps of at most [m] *)
Definition clip (m v : Z) : Z := Z.max (- m) (Z.min m v).
Definition share (m v k : Z) : Z := clip (m * (k + 1)) v - clip (m * k) v.
Definition steps (m v : Z) : Z := (Z.abs v + (m - 1)) / m.
Definition packets_needed (ty x y z : Z) : Z :=
  Z.max 1 (Z.max (steps 127 x) (Z.max (steps 127 y) (match ty with 3 => steps 127 z | 4 => steps 7 z | _ => 0 end))).
(** The k-th packet: the signs and the buttons, the two movements, and in the protocols with a wheel its movement *)
Definition spec_packet (ty buttons x y z k : Z) : list Z :=
  let dx := share 127 x k in let dy := share 127 y k in
  [8 + (if dx <? 0 then 16 else 0) + (if dy <? 0 then 32 else 0) + buttons mod 8; dx mod 256; dy mod 256] ++
  match ty with 3 => [share 127 z k mod 256] | 4 => [share 7 z k mod 16 + 16 * (buttons / 8 mod 4)] | _ => [] end.
Definition spec_packets (ty buttons x y z : Z) : list (list Z) :=
  map (fun k => spec_packet ty buttons x y z (Z.of_nat k)) (seq 0 (Z.to_nat (packets_needed ty x y z))).

Lemma share_127_rest v k : 0 <= k -> share 127 (v - clamp 127 v) k = share 127 v (k + 1).
Proof. intros. unfold share, clip, clamp. zcases. Qed.
Lemma share_7_rest v k : 0 <= k -> share 7 (v - clamp 7 v) k = share 7 v (k + 1).
Proof. intros. unfold share, clip, clamp. zcases. Qed.
Lemma share_127_first v : share 127 v 0 = clamp 127 v.
Proof. unfold share, clip, clamp. zcases. Qed.
Lemma share_7_first v : share 7 v 0 = clamp 7 v.
Proof. unfold share, clip, clamp. zcases. Qed.
Lemma steps_rest_127 v : Z.max 1 (steps 127 v) = if v - clamp 127 v =? 0 then 1 else 1 + steps 127 (v - clamp 127 v).
Proof. unfold steps, clamp. zcases; Z.to_euclidean_division_equations; lia. Qed.
Lemma steps_rest_7 v : Z.max 1 (steps 7 v) = if v - clamp 7 v =? 0 then 1 else 1 + steps 7 (v - clamp 7 v).
Proof. unfold steps, clamp. zcases; Z.to_euclidean_division_equations; lia. Qed.
Lemma steps_pos m v : 0 < m -> v <> 0 -> 1 <= steps m v.
Proof. intros. unfold steps. apply Z.div_le_lower_bound; lia. Qed.
Lemma steps_zero m : 0 < m -> steps m 0 = 0.
Proof. intros. apply Z.div_small. cbn. lia. Qed.
Lemma byte_of v : u8 (v .& 0xff) = v mod 256.
Proof. change 0xff with (Z.ones 8). rewrite Z.land_ones by lia. unfold wrap. by rewrite Z.mod_mod by lia. Qed.
Lemma head_byte (sx sy : bool) v : u8 (0x08 .| (b2z' sx ≪ 4) .| (b2z' sy ≪ 5) .| (v .& 0x07)) =
  8 + (if sx then 16 else 0) + (if sy then 32 else 0) + v mod 8.
Proof.
  change 0x07 with (Z.ones 3). rewrite Z.land_ones by lia. change (2 ^ 3) with 8. pose proof (Z.mod_pos_bound v 8 ltac:(lia)) as H.
  revert H. generalize (v mod 8). intros m Hm.
  assert (m = 0 \/ m = 1 \/ m = 2 \/ m = 3 \/ m = 4 \/ m = 5 \/ m = 6 \/ m = 7) as Hc by lia.
  destruct Hc as [->|[->|[->|[->|[->|[->|[->| ->]]]]]]]; by destruct sx, sy.
Qed.
Lemma wheel_byte dz v : u8 ((dz .& 0x0f) .| ((v .& 0x18) ≪ 1)) = dz mod 16 + 16 * (v / 8 mod 4).
Proof.
  assert (v .& 0x18 = 8 * (v / 8 mod 4)) as ->.
  { change 0x18 with (Z.ones 2 ≪ 3). rewrite (Z.mul_comm 8). change 8 with (2 ^ 3). change 4 with (2 ^ 2).
    rewrite <- Z.shiftr_div_pow2, <- Z.land_ones, <- Z.shiftl_mul_pow2 by lia. apply Z.bits_inj'. intros i Hi.
    rewrite Z.land_spec, !Z.shiftl_spec by lia. destruct (Z_lt_le_dec i 3).
    - rewrite !(Z.testbit_neg_r _ (i - 3)) by lia. apply andb_false_r.
    - rewrite Z.land_spec, Z.shiftr_spec by lia. by replace (i - 3 + 3) with i by lia. }
  change 0x0f with (Z.ones 4). rewrite Z.land_ones by lia. change (2 ^ 4) with 16.
  pose proof (Z.mod_pos_bound dz 16 ltac:(lia)) as H1. pose proof (Z.mod_pos_bound (v / 8) 4 ltac:(lia)) as H2.
  revert H1 H2. generalize (dz mod 16) (v / 8 mod 4). intros a b Ha Hb.
  rewrite Z.shiftl_mul_pow2 by lia. replace (8 * b * 2 ^ 1) with (b * 2 ^ 4) by lia. rewrite <- Z.shiftl_mul_pow2, Z.lor_comm by lia.
  assert (forall c, 0 <= c < 4 -> forall d, 0 <= d < 16 -> u8 ((c ≪ 4) .| d) = d + 16 * c) as Hgen; [|by apply Hgen].
  intros c Hc d Hd. assert (c = 0 \/ c = 1 \/ c = 2 \/ c = 3) as Hcc by lia.
  assert (Forall (fun d => u8 ((c ≪ 4) .| d) = d + 16 * c) (map Z.of_nat (seq 0 16))) as HF.
  { destruct Hcc as [->|[->|[->| ->]]]; repeat constructor. }
  rewrite List.Forall_forall in HF. apply HF. apply in_map_iff. exists (Z.to_nat d). split; [lia|]. apply in_seq. lia.
Qed.
Lemma wheel_case ty : ty = 3 \/ ty = 4 \/ forall A (a b c : A), match ty with 3 => a | 4 => b | _ => c end = c.
Proof.
  assert (ty = 3 \/ ty = 4 \/ ty <> 3 /\ ty <> 4) as [->|[->|[H3 H4]]] by lia; [by left|by right; left|right; right].
  intros. by destruct ty as [|[[p|p|]|[p|[p|p|]|]|]|p].
Qed.
(** The packet of the code is the first one. *)
Lemma packet_spec s : u8s (packet s) = spec_packet (mouse_type s) (mouse_buttons s) (mouse_dx s) (mouse_dy s) (mouse_dz s) 0.
Proof.
  unfold u8s, packet, spec_packet. cbv zeta. rewrite !map_app, !share_127_first, share_7_first. cbn [map app].
  rewrite head_byte, !byte_of. do 3 f_equal. unfold packet_dz.
  destruct (wheel_case (mouse_type s)) as [E|[E|E]].
  - rewrite E. cbn [map]. by rewrite byte_of.
  - rewrite E. cbn [map]. by rewrite wheel_byte.
  - by rewrite !E.
Qed.
Lemma spec_packet_rest s k : 0 <= k -> let s' := after_packet s in
  spec_packet (mouse_type s') (mouse_buttons s') (mouse_dx s') (mouse_dy s') (mouse_dz s') k =
  spec_packet (mouse_type s) (mouse_buttons s) (mouse_dx s) (mouse_dy s) (mouse_dz s) (k + 1).
Proof.
  intros Hk. cbv zeta. unfold spec_packet. cbn [after_packet set_deltas mouse_type mouse_buttons mouse_dx mouse_dy mouse_dz].
  rewrite !(share_127_rest _ k) by done. do 2 f_equal. unfold packet_dz.
  destruct (wheel_case (mouse_type s)) as [E|[E|E]].
  - rewrite E. by rewrite share_127_rest.
  - rewrite E. by rewrite share_7_rest.
  - by rewrite !E.
Qed.
Definition needed_by (s : PS2MouseState) : Z := packets_needed (mouse_type s) (mouse_dx s) (mouse_dy s) (mouse_dz s).
Lemma needed_last s : deltas_zero (after_packet s) = true -> needed_by s = 1.
Proof.
  unfold deltas_zero, needed_by, packets_needed. cbn [after_packet set_deltas mouse_dx mouse_dy mouse_dz]. rewrite !andb_true_iff.
  intros [[Hx Hy] Hz]. pose proof (steps_rest_127 (mouse_dx s)) as X. pose proof (steps_rest_127 (mouse_dy s)) as Y. rewrite Hx in X. rewrite Hy in Y.
  unfold packet_dz in Hz. pose proof (steps_rest_127 (mouse_dz s)) as Z1. pose proof (steps_rest_7 (mouse_dz s)) as Z2.
  destruct (wheel_case (mouse_type s)) as [E|[E|E]].
  - rewrite E in *. rewrite Hz in Z1. lia.
  - rewrite E in *. rewrite Hz in Z2. lia.
  - rewrite !E in *. lia.
Qed.
Lemma needed_step m v r : 0 < m -> Z.max 1 (steps m v) = (if r =? 0 then 1 else 1 + steps m r) -> Z.max 1 (steps m v) = 1 + steps m r.
Proof. intros Hm ->. destruct (Z.eqb_spec r 0) as [->|]; [|done]. by rewrite steps_zero. Qed.
Lemma max_step a a' b b' c c' : Z.max 1 a = 1 + a' -> Z.max 1 b = 1 + b' -> Z.max 1 c = 1 + c' -> 1 <= a' \/ 1 <= b' \/ 1 <= c' ->
  Z.max 1 (Z.max a (Z.max b c)) = 1 + Z.max 1 (Z.max a' (Z.max b' c')).
Proof. lia. Qed.
Lemma needed_rest s : deltas_zero (after_packet s) = false -> needed_by s = 1 + needed_by (after_packet s).
Proof.
  unfold deltas_zero, needed_by, packets_needed. cbn [after_packet set_deltas mouse_type mouse_dx mouse_dy mouse_dz]. intros H.
  rewrite !andb_false_iff, !Z.eqb_neq in H.
  apply max_step; [apply needed_step, steps_rest_127; lia|apply needed_step, steps_rest_127; lia| |].
  - unfold packet_dz. destruct (wheel_case (mouse_type s)) as [E|[E|E]]; [rewrite E..|by rewrite !E].
    + apply needed_step, steps_rest_127. lia.
    + apply needed_step, steps_rest_7. lia.
  - destruct H as [[H|H]|H]; [left; by apply steps_pos|right; left; by apply steps_pos|right; right].
    unfold packet_dz in *. destruct (wheel_case (mouse_type s)) as [E|[E|E]]; [rewrite E in *; by apply steps_pos..|].
    rewrite E in H. lia.
Qed.
Definition packets_of (s : PS2MouseState) : list (list Z) :=
  spec_packets (mouse_type s) (mouse_buttons s) (mouse_dx s) (mouse_dy s) (mouse_dz s).
Lemma packets_last s : deltas_zero (after_packet s) = true -> packets_of s = [u8s (packet s)].
Proof. intros H. unfold packets_of, spec_packets. fold (needed_by s). rewrite needed_last, packet_spec by done. reflexivity. Qed.
Lemma packets_rest s : deltas_zero (after_packet s) = false -> packets_of s = u8s (packet s) :: packets_of (after_packet s).
Proof.
  intros H. unfold packets_of, spec_packets. fold (needed_by s) (needed_by (after_packet s)). rewrite needed_rest by done.
  assert (0 <= needed_by (after_packet s)) by (unfold needed_by, packets_needed; lia).
  replace (Z.to_nat (1 + needed_by (after_packet s))) with (S (Z.to_nat (needed_by (after_packet s)))) by lia. cbn [seq map]. rewrite packet_spec. f_equal.
  rewrite <- seq_shift, map_map. apply map_ext. intros k. rewrite spec_packet_rest by lia. f_equal. lia.
Qed.

Record sent (s : PS2MouseState) (ps : list (list Z)) (s' : PS2MouseState) : Prop := {
  st_zero : deltas_zero s' = true;
  st_move : total_move (mouse_type s) ps = (mouse_dx s, mouse_dy s, wheel_of (mouse_type s) (mouse_dz s));
  st_buttons : Forall (fun p => mv_buttons (decode_packet (mouse_type s) p) = buttons_of (mouse_type s) (mouse_buttons s)) ps;
  st_ring : ring_ok (ring_of s');
  st_bytes : contents (ring_of s') = queued (contents (ring_of s)) (concat ps);
  st_packets : ps = packets_of s;
}.
Lemma wheel_split ty a b : wheel_of ty a + wheel_of ty (b - a) = wheel_of ty b.
Proof. unfold wheel_of. destruct ty as [|[[p|p|]|[p|[p|p|]|]|]|p]; lia. Qed.
Lemma sent_cons s c ps s' : deltas_zero (after_packet s) = false ->
  contents (queue c) = queued (contents (ring_of s)) (u8s (packet s)) ->
  sent (set_common c (after_packet s)) ps s' -> sent s (u8s (packet s) :: ps) s'.
Proof.
  intros Hz Hq [H1 H2 H3 H4 H5 H6]. pose proof (decode_u8s s) as Hdec. split; try done.
  - cbn [total_move foldr]. fold (total_move (mouse_type s) ps). change (mouse_type (set_common c (after_packet s))) with (mouse_type s) in H2.
    rewrite H2. cbn [fst snd mouse_dx mouse_dy mouse_dz set_common after_packet set_deltas]. rewrite Hdec. cbn [mv_x mv_y mv_z].
    rewrite wheel_split. f_equal. f_equal; lia.
  - constructor; [by rewrite Hdec|done].
  - cbn [concat]. change (ring_of (set_common c (after_packet s))) with (queue c) in H5. by rewrite H5, Hq, queued_app.
  - by rewrite packets_rest, H6.
Qed.
Lemma sent_one s c : deltas_zero (after_packet s) = true ->
  contents (queue c) = queued (contents (ring_of s)) (u8s (packet s)) ->
  ring_ok (queue c) -> sent s [u8s (packet s)] (set_common c (after_packet s)).
Proof.
  intros Hz Hq Hc. pose proof (decode_u8s s) as Hdec. split; try done.
  - cbn [total_move foldr]. rewrite Hdec. cbn [mv_x mv_y mv_z fst snd]. unfold deltas_zero in Hz.
    cbn [mouse_dx mouse_dy mouse_dz after_packet set_deltas] in Hz. apply andb_prop in Hz as [[Hx Hy]%andb_prop Hz].
    apply Z.eqb_eq in Hx, Hy, Hz. rewrite !Z.add_0_r. f_equal; [f_equal; lia|]. f_equal. lia.
  - constructor; [by rewrite Hdec|done].
  - cbn [concat]. by rewrite app_nil_r.
  - by rewrite packets_last.
Qed.
Lemma send_packets_ok fuel : forall s, ring_ok (ring_of s) -> distance s < Z.of_nat fuel ->
  exists ps s' l, send_packets fuel s = Some (s', l) /\ sent s ps s'.
Proof.
  induction fuel as [|fuel IH]; intros s Hr Hd; [unfold distance in Hd; lia|]. cbn [send_packets].
  destruct (send_packet_ok s Hr) as (c & lv & -> & Hc & Hq).
  change (deltas_zero (set_common c (after_packet s))) with (deltas_zero (after_packet s)).
  destruct (deltas_zero (after_packet s)) eqn:Ez; [eexists _, _, _; split; [done|by apply sent_one]|].
  destruct (distance_packet s) as [Hlt|Hz]; [|congruence].
  destruct (IH (set_common c (after_packet s)) Hc) as (ps & s' & l & -> & Hs).
  { change (distance (set_common c (after_packet s))) with (distance (after_packet s)). lia. }
  eexists _, _, _. split; [done|by eapply sent_cons].
Qed.

Lemma mouse_event_total dx dy dz buttons s : ring_ok (ring_of s) -> exists r, ps2_mouse_event dx dy dz buttons s = Some r.
Proof.
  intros Hr. unfold ps2_mouse_event. set (s1 := set_deltas _ _ _ s). set (s2 := set_buttons (u8 buttons) s1).
  destruct (send_packets_ok (event_fuel s2) s2 Hr) as (ps & s' & l & E & _).
  { unfold event_fuel. change (distance s2) with (Z.abs (mouse_dx s2) + Z.abs (mouse_dy s2) + Z.abs (mouse_dz s2)). lia. }
  repeat (case_match; [by eexists|]). by eexists.
Qed.
(** C29: a movement of the mouse reaches the host.  ps2_mouse_event always ends; on an enabled
    mouse in stream mode with room in the ring it leaves no movement behind, and puts into the ring, behind the bytes that
    are there and as far as they fit, exactly the packets of the movement that was pending plus the new one: as few as the steps of 127 (of 7 for the wheel of the
    second protocol) allow, each with the largest step in every direction, and with
    the state of the buttons.  Read as the protocol of the mouse says, they add up to the movement. *)
Theorem ps2_mouse_event_sends dx dy dz buttons s : ring_ok (ring_of s) ->
  (exists r, ps2_mouse_event dx dy dz buttons s = Some r) /\
  let x := i32 (mouse_dx s + dx) in let y := i32 (mouse_dy s - dy) in let z := i32 (mouse_dz s + dz) in
  let ps := spec_packets (mouse_type s) (buttons mod 256) x y z in
  (mouse_status s .& MOUSE_STATUS_ENABLED <> 0 -> mouse_status s .& MOUSE_STATUS_REMOTE = 0 ->
   count (ring_of s) < 240 -> deltas_zero (set_deltas x y z s) = false \/ mouse_buttons s <> buttons ->
   exists s' l, ps2_mouse_event dx dy dz buttons s = Some (s', l) /\ deltas_zero s' = true /\ ring_ok (ring_of s') /\
     contents (ring_of s') = take 256 (contents (ring_of s) ++ concat ps) /\
     total_move (mouse_type s) ps = (x, y, wheel_of (mouse_type s) z) /\
     Forall (fun p => mv_buttons (decode_packet (mouse_type s) p) = buttons_of (mouse_type s) (buttons mod 256)) ps).
Proof.
  intros Hr. cbv zeta. unfold ps2_mouse_event. set (s1 := set_deltas _ _ _ s). set (s2 := set_buttons (u8 buttons) s1).
  destruct (send_packets_ok (event_fuel s2) s2 Hr) as (ps & s' & l & E & [H1 H2 H3 H4 H5 H6]).
  { unfold event_fuel. change (distance s2) with (Z.abs (mouse_dx s2) + Z.abs (mouse_dy s2) + Z.abs (mouse_dz s2)). lia. }
  split.
  - by apply (mouse_event_total dx dy dz buttons).
  - intros He Hm Hc Hn. rewrite (proj2 (Z.eqb_neq _ _)) by done.
    assert (deltas_zero s1 && (mouse_buttons s1 =? buttons) = false) as ->.
    { apply andb_false_iff. destruct Hn as [Hn|Hn]; [by left|right]. by apply Z.eqb_neq. }
    change (mouse_status s2) with (mouse_status s). rewrite (proj2 (Z.eqb_eq _ _)) by done.
    change (count (queue (mouse_common s2))) with (count (ring_of s)). unfold PS2_QUEUE_SIZE. rewrite (proj2 (Z.ltb_lt _ _)) by lia.
    cbn [andb]. subst ps. exists s', l. split; [exact E|]. split; [done|]. split; [done|]. split; [exact H5|]. split; [exact H2|exact H3].
Qed.
Lemma ps2_mouse_event_sends_witness : let s := set_type 4 (set_status 0x20 ps2_mouse_init) in
  exists s' l, ps2_mouse_event 200 (-5) 3 0x11 s = Some (s', l) /\ deltas_zero s' = true /\
    contents (ring_of s') = [0x09; 127; 5; 0x23; 0x09; 73; 0; 0x20].
Proof.
  cbv zeta. destruct (ps2_mouse_event_sends 200 (-5) 3 0x11 (set_type 4 (set_status 0x20 ps2_mouse_init))) as [_ H].
  - split; cbn; try done; try lia. repeat constructor; by vm_compute.
  - destruct H as (s' & l & E & Hz & _ & Hc & _).
    + vm_compute. congruence.
    + by vm_compute.
    + by vm_compute.
    + left. by vm_compute.
    + exists s', l. split; [exact E|]. split; [exact Hz|]. rewrite Hc. vm_compute. reflexivity.
Defined.
