(* ===== verification/PckbdFacts.v ===== *)
(** * The keyboard controller: status and interrupt lines follow the queues *)
From S2P Require Export Ps2 Ps2Facts.
#[local] Open Scope Z_scope.
#[local] Open Scope act_scope.

(** ** Operations of a device keep its callback informed *)
Definition level (q : PS2Queue) : Z := match contents q with [] => 0 | _ => 1 end.
Section Acts.
Context {S : Type} (ring : S -> PS2Queue).
(** The ring stays well formed, and the last level signalled is the one of the ring. *)
Definition act_ok (f : act S) : Prop := forall s, ring_ok (ring s) ->
  let '(s', l) := f s in ring_ok (ring s') /\ foldl (fun _ v => v) (level (ring s)) l = level (ring s') /\ Forall (fun v => v = 0 \/ v = 1) l.
Lemma act_ok_and f g : act_ok f -> act_ok g -> act_ok (f ;; g).
Proof.
  intros Hf Hg s Hs. unfold and_act. specialize (Hf s Hs). destruct (f s) as [s1 l1]. destruct Hf as (H1 & H2 & H3).
  specialize (Hg s1 H1). destruct (g s1) as [s2 l2]. destruct Hg as (H4 & H5 & H6).
  split; [done|]. rewrite foldl_app, H2. split; [done|]. by apply Forall_app.
Qed.
Lemma act_ok_skip : act_ok skip.
Proof. intros s Hs. by split. Qed.
Lemma act_ok_assign f : (forall s, ring (f s) = ring s) -> act_ok (assign f).
Proof. intros Hf s Hs. unfold assign. rewrite Hf. by split. Qed.
Lemma act_ok_state k : (forall s, act_ok (k s)) -> act_ok (with_state k).
Proof. intros Hk s Hs. by apply Hk. Qed.
Lemma act_ok_if (b : bool) f g : act_ok f -> act_ok g -> act_ok (if b then f else g).
Proof. by destruct b. Qed.
End Acts.
Definition kring (s : PS2KbdState) : PS2Queue := queue (kbd_common s).
Lemma queue_act b : act_ok queue (ps2_queue b).
Proof.
  intros s Hs. destruct (ps2_queue b s) as [s' l] eqn:E. destruct (queue_push b s s' l Hs E) as (H1 & _ & H). split; [done|].
  destruct (count (queue s) <? 256); destruct H as [H ->]; [|subst; by split].
  unfold level. rewrite H. cbn. split; [by destruct (contents (queue s))|]. constructor; [by right|constructor].
Qed.
Lemma read_act : act_ok queue (fun c => snd (ps2_read_data c)).
Proof.
  intros s Hs. pose proof (queue_pop s Hs) as Hp. destruct (ps2_read_data s) as [v [s' l]]. cbn [snd]. unfold level.
  destruct (contents (queue s)) as [|x r] eqn:E.
  - destruct Hp as [-> ->]. rewrite E. by split.
  - destruct Hp as (-> & -> & H2 & _ & -> & _). split; [done|]. split; [done|].
    constructor; [by left|]. constructor; [destruct r; auto|constructor].
Qed.
Lemma on_kbd_ok f : act_ok queue f -> act_ok kring (on_kbd f).
Proof. intros Hf s Hs. specialize (Hf (kbd_common s) Hs). unfold on_kbd. by destruct (f (kbd_common s)). Qed.
Lemma on_mouse_ok f : act_ok queue f -> act_ok ring_of (on_mouse f).
Proof. intros Hf s Hs. specialize (Hf (mouse_common s) Hs). unfold on_mouse. by destruct (f (mouse_common s)). Qed.
Create HintDb act discriminated.
Lemma kq_ok b : act_ok kring (kq b).
Proof. apply on_kbd_ok, queue_act. Qed.
Lemma mq_ok b : act_ok ring_of (mq b).
Proof. apply on_mouse_ok, queue_act. Qed.
Lemma set_cmd_ok v : act_ok queue (assign (set_write_cmd v)).
Proof. by apply act_ok_assign. Qed.
#[local] Hint Resolve act_ok_and act_ok_skip act_ok_state act_ok_if kq_ok mq_ok on_kbd_ok on_mouse_ok set_cmd_ok queue_act : act.
Ltac act_step := match goal with
  | |- act_ok _ (_ ;; _) => apply act_ok_and
  | |- act_ok _ skip => apply act_ok_skip
  | |- act_ok _ (assign _) => apply act_ok_assign; intros ?
  | |- act_ok _ (with_state _) => apply act_ok_state; intros ?
  | |- act_ok _ (if _ then _ else _) => apply act_ok_if
  | |- act_ok _ (match ?x with _ => _ end) => destruct x
  | |- act_ok _ (kq _) => apply kq_ok
  | |- act_ok _ (mq _) => apply mq_ok
  | |- act_ok _ (set_kbd_cmd _) => apply on_kbd_ok, set_cmd_ok
  | |- act_ok _ (set_mouse_cmd _) => apply on_mouse_ok, set_cmd_ok
  | |- act_ok _ (on_kbd (ps2_queue _)) => apply kq_ok
  end.
Ltac acts := cbv zeta; repeat (act_step; cbv zeta).
Lemma put_keycode_ok d k : act_ok kring (ps2_put_keycode d k).
Proof. unfold ps2_put_keycode. acts. Qed.
Lemma write_keyboard_ok v : act_ok kring (ps2_write_keyboard v).
Proof. unfold ps2_write_keyboard, keyboard_command, ps2_reset_keyboard. acts; done. Qed.
Lemma translation_ok v : act_ok kring (ps2_keyboard_set_translation v).
Proof. unfold ps2_keyboard_set_translation. acts. done. Qed.
Lemma mqs_act l : act_ok ring_of (mqs l).
Proof. induction l as [|b l IH]; cbn [mqs]; [apply act_ok_skip|]. apply act_ok_and; [apply mq_ok|done]. Qed.
Lemma send_packet_act : act_ok ring_of ps2_mouse_send_packet.
Proof. unfold ps2_mouse_send_packet. apply act_ok_state. intros s. apply act_ok_and; [apply mqs_act|by apply act_ok_assign]. Qed.
Lemma detect_ring v s : ring_of (mouse_detect v s) = ring_of s.
Proof.
  unfold mouse_detect. destruct (mouse_detect_state s) as [|[[]|[]|]|]; try done; by repeat case_if.
Qed.
Lemma mouse_command_ok v : act_ok ring_of (mouse_command v).
Proof.
  unfold mouse_command, mouse_defaults. apply act_ok_state. intros s. pose proof send_packet_act. acts; done.
Qed.
Lemma write_mouse_ok v : act_ok ring_of (ps2_write_mouse v).
Proof.
  unfold ps2_write_mouse. apply act_ok_state. intros s. pose proof (mouse_command_ok v).
  acts; try assumption; try done. apply detect_ring.
Qed.
Lemma send_packets_act fuel : forall s s' l, ring_ok (ring_of s) -> send_packets fuel s = Some (s', l) ->
  ring_ok (ring_of s') /\ foldl (fun _ v => v) (level (ring_of s)) l = level (ring_of s') /\ Forall (fun v => v = 0 \/ v = 1) l.
Proof.
  induction fuel as [|fuel IH]; intros s s' l Hs E; [done|]. cbn [send_packets] in E.
  pose proof (send_packet_act s Hs) as H. destruct (ps2_mouse_send_packet s) as [s1 l1]. destruct H as (H1 & H2 & H3).
  destruct (deltas_zero s1); [by injection E as <- <-|].
  destruct (send_packets fuel s1) as [[s2 l2]|] eqn:E2; [|done]. injection E as <- <-.
  destruct (IH s1 s2 l2 H1 E2) as (H4 & H5 & H6). split; [done|]. rewrite foldl_app, H2. split; [done|]. by apply Forall_app.
Qed.

(** ** The controller *)
Definition is_01 (v : Z) : Prop := v = 0 \/ v = 1.
Lemma level_01 q : is_01 (level q).
Proof. unfold level, is_01. destruct (contents q); auto. Qed.
(** The status and the lines, as functions of what is pending and of the mode. *)
Record lines_ok (s : KBDState) : Prop := {
  lo_obf : has (kb_status s) KBD_STAT_OBF = negb (kb_pending s =? 0);
  lo_mouse_obf : has (kb_status s) KBD_STAT_MOUSE_OBF = (kb_pending s =? KBD_PENDING_AUX);
  lo_kbd : irq_kbd s = if negb (kb_pending s =? 0) && negb (kb_pending s =? KBD_PENDING_AUX) &&
      has (kb_mode s) KBD_MODE_KBD_INT && negb (has (kb_mode s) KBD_MODE_DISABLE_KBD) then 1 else 0;
  lo_mouse : irq_mouse s = if (kb_pending s =? KBD_PENDING_AUX) && has (kb_mode s) KBD_MODE_MOUSE_INT then 1 else 0;
}.
Record queues_ok (s : KBDState) : Prop := {
  qk_kbd : ring_ok (kring (kbd s));
  qk_mouse : ring_ok (ring_of (mouse s));
  qk_pending : kb_pending s = level (kring (kbd s)) + 2 * level (ring_of (mouse s));
}.
Definition kinv (s : KBDState) : Prop := queues_ok s /\ lines_ok s.
Lemma has_testbit v k : 0 <= k -> has v (2 ^ k) = Z.testbit v k.
Proof. apply land_pow2_test. Qed.
(** The two status bits that kbd_update_irq computes. *)
Lemma status_bits st (a b : bool) (v := clear st (KBD_STAT_OBF .| KBD_STAT_MOUSE_OBF))
    (w := if a then if b then v .| KBD_STAT_OBF .| KBD_STAT_MOUSE_OBF else v .| KBD_STAT_OBF else v) :
  has w KBD_STAT_OBF = a /\ has w KBD_STAT_MOUSE_OBF = a && b.
Proof.
  assert (Z.testbit v 0 = false /\ Z.testbit v 5 = false) as [H0 H5].
  { unfold v, clear. rewrite !wrap_testbit, !Z.land_spec by lia. split; apply andb_false_r. }
  change KBD_STAT_OBF with (2 ^ 0). change KBD_STAT_MOUSE_OBF with (2 ^ 5). rewrite !has_testbit by lia. unfold w.
  destruct a, b; rewrite ?Z.lor_spec, ?H0, ?H5; by split.
Qed.
Lemma update_lines s : lines_ok (kbd_update_irq s).
Proof.
  unfold kbd_update_irq. set (v := clear _ _). destruct (kb_pending s =? 0) eqn:E0.
  - destruct (status_bits (kb_status s) false false) as [B1 B2]. apply Z.eqb_eq in E0.
    split; cbn; rewrite ?E0; done.
  - destruct (kb_pending s =? KBD_PENDING_AUX) eqn:E2.
    + destruct (status_bits (kb_status s) true true) as [B1 B2]. split; cbn; rewrite ?E0, ?E2; done.
    + destruct (status_bits (kb_status s) true false) as [B1 B2]. split; cbn; rewrite ?E0, ?E2; done.
Qed.
Lemma update_same s : kbd (kbd_update_irq s) = kbd s /\ mouse (kbd_update_irq s) = mouse s /\ kb_pending (kbd_update_irq s) = kb_pending s.
Proof. unfold kbd_update_irq. by repeat case_if. Qed.
Lemma update_kinv s : queues_ok s -> kinv (kbd_update_irq s).
Proof.
  intros [H1 H2 H3]. split; [|apply update_lines]. destruct (update_same s) as (E1 & E2 & E3). by split; rewrite ?E1, ?E2, ?E3.
Qed.
(** The calls of a callback: the bit of the device ends as the last level. *)
Lemma fold_kbd l : forall s a b, Forall is_01 l -> is_01 a -> is_01 b -> kb_pending s = a + 2 * b -> lines_ok s ->
  let s' := foldl (fun s v => kbd_update_dev_irq KBD_PENDING_KBD v s) s l in
  kb_pending s' = foldl (fun _ v => v) a l + 2 * b /\ lines_ok s' /\ kbd s' = kbd s /\ mouse s' = mouse s.
Proof.
  induction l as [|v l IH]; intros s a b Hl Ha Hb Hp Ho; cbn [foldl]; [done|]. apply Forall_cons_1 in Hl as [Hv Hl].
  destruct (update_same (set_kb_pending (if v =? 0 then clear (kb_pending s) KBD_PENDING_KBD else kb_pending s .| KBD_PENDING_KBD) s)) as (E1 & E2 & E3).
  fold (kbd_update_dev_irq KBD_PENDING_KBD v s) in E1, E2, E3. cbn [kbd mouse kb_pending set_kb_pending] in E1, E2, E3.
  destruct (IH (kbd_update_dev_irq KBD_PENDING_KBD v s) v b Hl Hv Hb) as (R1 & R2 & R3 & R4).
  - rewrite E3, Hp.
    by destruct Hv as [->| ->], Ha as [->| ->], Hb as [->| ->].
  - apply update_lines.
  - by rewrite R1, R3, R4, E1, E2.
Qed.
Lemma fold_aux l : forall s a b, Forall is_01 l -> is_01 a -> is_01 b -> kb_pending s = a + 2 * b -> lines_ok s ->
  let s' := foldl (fun s v => kbd_update_dev_irq KBD_PENDING_AUX v s) s l in
  kb_pending s' = a + 2 * foldl (fun _ v => v) b l /\ lines_ok s' /\ kbd s' = kbd s /\ mouse s' = mouse s.
Proof.
  induction l as [|v l IH]; intros s a b Hl Ha Hb Hp Ho; cbn [foldl]; [done|]. apply Forall_cons_1 in Hl as [Hv Hl].
  destruct (update_same (set_kb_pending (if v =? 0 then clear (kb_pending s) KBD_PENDING_AUX else kb_pending s .| KBD_PENDING_AUX) s)) as (E1 & E2 & E3).
  fold (kbd_update_dev_irq KBD_PENDING_AUX v s) in E1, E2, E3. cbn [kbd mouse kb_pending set_kb_pending] in E1, E2, E3.
  destruct (IH (kbd_update_dev_irq KBD_PENDING_AUX v s) a v Hl Ha Hv) as (R1 & R2 & R3 & R4).
  - rewrite E3, Hp.
    by destruct Hv as [->| ->], Ha as [->| ->], Hb as [->| ->].
  - apply update_lines.
  - by rewrite R1, R3, R4, E1, E2.
Qed.
Lemma on_keyboard_inv f s : act_ok kring f -> kinv s -> kinv (on_keyboard f s).
Proof.
  intros Hf [[H1 H2 H3] Ho]. unfold on_keyboard. specialize (Hf (kbd s) H1). destruct (f (kbd s)) as [k l]. destruct Hf as (F1 & F2 & F3).
  destruct (fold_kbd l (set_kbd k s) (level (kring (kbd s))) (level (ring_of (mouse s))) F3 (level_01 _) (level_01 _) H3) as (R1 & R2 & R3 & R4).
  { by destruct Ho. }
  split; [|done]. split; rewrite ?R1, ?R3, ?R4; try done. by rewrite F2.
Qed.
Lemma on_aux_inv f s : (let '(m, l) := f (mouse s) in ring_ok (ring_of m) /\ foldl (fun _ v => v) (level (ring_of (mouse s))) l = level (ring_of m) /\
  Forall is_01 l) -> kinv s -> kinv (on_aux f s).
Proof.
  intros Hf [[H1 H2 H3] Ho]. unfold on_aux. destruct (f (mouse s)) as [m l]. destruct Hf as (F1 & F2 & F3).
  destruct (fold_aux l (set_mouse m s) (level (kring (kbd s))) (level (ring_of (mouse s))) F3 (level_01 _) (level_01 _) H3) as (R1 & R2 & R3 & R4).
  { by destruct Ho. }
  split; [|done]. split; rewrite ?R1, ?R3, ?R4; try done. by rewrite F2.
Qed.
Lemma kbd_queue_inv b aux s : kinv s -> kinv (kbd_queue b aux s).
Proof.
  intros H. unfold kbd_queue. destruct aux; [|apply on_keyboard_inv; [apply kq_ok|done]].
  apply on_aux_inv; [|done]. apply mq_ok, H.
Qed.

(** ** Everything that happens to the controller *)
Inductive kbd_event :=
| ReadStatus
| WriteCommand (v : Z)
| ReadData
| WriteData (v : Z)
| KeyCode (is_down : bool) (keycode : Z)
| MouseEvent (dx dy dz buttons : Z).
Definition kbd_step (e : kbd_event) : M KBDState unit :=
  match e with
  | ReadStatus => _ ← kbd_read_status; mret tt
  | WriteCommand v => kbd_write_command v
  | ReadData => _ ← kbd_read_data; mret tt
  | WriteData v => kbd_write_data v
  | KeyCode d k => kbd_put_keycode d k
  | MouseEvent dx dy dz b => kbd_mouse_event dx dy dz b
  end.
Fixpoint kbd_run (l : list kbd_event) : M KBDState unit :=
  match l with [] => mret tt | e :: l' => _ ← kbd_step e; kbd_run l' end.
(** A run keeps the invariant or is the reset of the machine. *)
Definition kept_k {A} (m : M KBDState A) : Prop := forall s, kinv s -> wp m (fun r => r = StopExit 1) (fun _ s' => kinv s') s.
Lemma kept_modify f : (forall s, kinv s -> kinv (f s)) -> kept_k (modify f).
Proof. intros Hf s Hs. by apply Hf. Qed.
Lemma kept_k_bind {A B} (m : M KBDState A) (k : A -> M KBDState B) : kept_k m -> (forall a, kept_k (k a)) -> kept_k (m ≫= k).
Proof. intros Hm Hk s H. apply wp_bind. eapply wp_mono; [by apply Hm|]. intros a s' ?. by apply Hk. Qed.
Lemma kept_k_ret {A} (a : A) : kept_k (mret a).
Proof. by intros s H. Qed.
Lemma kept_k_reset {A} : kept_k (A := A) qemu_system_reset_request.
Proof. by intros s H. Qed.
Lemma set_mode_queues v s : kinv s -> queues_ok (set_kb_mode v s).
Proof. intros [[H1 H2 H3] _]. by split. Qed.
Lemma kept_mode (f : KBDState -> Z) : kept_k (modify (fun s => kbd_update_irq (set_kb_mode (f s) s))).
Proof. apply kept_modify. intros s Hs. by apply update_kinv, set_mode_queues. Qed.
(** The bit of the mouse port has no part in the lines. *)
Lemma kept_mouse_bit (f : KBDState -> Z) : (forall s, has (f s) KBD_MODE_KBD_INT = has (kb_mode s) KBD_MODE_KBD_INT /\
  has (f s) KBD_MODE_DISABLE_KBD = has (kb_mode s) KBD_MODE_DISABLE_KBD /\ has (f s) KBD_MODE_MOUSE_INT = has (kb_mode s) KBD_MODE_MOUSE_INT) ->
  kept_k (modify (fun s => set_kb_mode (f s) s)).
Proof.
  intros Hf. apply kept_modify. intros s [H [L1 L2 L3 L4]]. destruct (Hf s) as (F1 & F2 & F3).
  split; [by apply set_mode_queues|]. split; try done; cbn [irq_kbd irq_mouse kb_pending kb_mode set_kb_mode]; by rewrite ?F1, ?F2, ?F3.
Qed.
Lemma mouse_bit_set v : has (v .| KBD_MODE_DISABLE_MOUSE) KBD_MODE_KBD_INT = has v KBD_MODE_KBD_INT /\
  has (v .| KBD_MODE_DISABLE_MOUSE) KBD_MODE_DISABLE_KBD = has v KBD_MODE_DISABLE_KBD /\
  has (v .| KBD_MODE_DISABLE_MOUSE) KBD_MODE_MOUSE_INT = has v KBD_MODE_MOUSE_INT.
Proof.
  change KBD_MODE_KBD_INT with (2 ^ 0). change KBD_MODE_DISABLE_KBD with (2 ^ 4). change KBD_MODE_MOUSE_INT with (2 ^ 1).
  change KBD_MODE_DISABLE_MOUSE with (2 ^ 5). rewrite !has_testbit, !Z.lor_spec, !Z.pow2_bits_eqb by lia. cbn.
  by rewrite !orb_false_r.
Qed.
Lemma mouse_bit_clear v : has (clear v KBD_MODE_DISABLE_MOUSE) KBD_MODE_KBD_INT = has v KBD_MODE_KBD_INT /\
  has (clear v KBD_MODE_DISABLE_MOUSE) KBD_MODE_DISABLE_KBD = has v KBD_MODE_DISABLE_KBD /\
  has (clear v KBD_MODE_DISABLE_MOUSE) KBD_MODE_MOUSE_INT = has v KBD_MODE_MOUSE_INT.
Proof.
  change KBD_MODE_KBD_INT with (2 ^ 0). change KBD_MODE_DISABLE_KBD with (2 ^ 4). change KBD_MODE_MOUSE_INT with (2 ^ 1).
  change KBD_MODE_DISABLE_MOUSE with (2 ^ 5). unfold clear.
  rewrite !has_testbit, !wrap_testbit, !Z.land_spec, !Z.lnot_spec, !Z.pow2_bits_eqb by lia. cbn [Z.ltb Z.compare Pos.compare Pos.compare_cont Z.eqb Pos.eqb andb negb].
  by rewrite !andb_true_r.
Qed.
Lemma set_status_kinv v s : has v KBD_STAT_OBF = has (kb_status s) KBD_STAT_OBF ->
  has v KBD_STAT_MOUSE_OBF = has (kb_status s) KBD_STAT_MOUSE_OBF -> kinv s -> kinv (set_kb_status v s).
Proof. intros E1 E2 [[H1 H2 H3] [L1 L2 L3 L4]]. split; split; try done; cbn; congruence. Qed.
Lemma set_cmd_kinv v s : kinv s -> kinv (set_kb_write_cmd v s).
Proof. intros [[H1 H2 H3] [L1 L2 L3 L4]]. by split; split. Qed.
Lemma kept_command v : kept_k (kbd_write_command v).
Proof.
  assert (kept_k (modify (set_kb_write_cmd v))) as K1 by (apply kept_modify; apply set_cmd_kinv).
  assert (kept_k (modify (fun s => kbd_queue (kb_mode s) true s))) as K2 by (apply kept_modify; intros; by apply kbd_queue_inv).
  assert (kept_k (modify (kbd_queue 0 false))) as K3 by (apply kept_modify; intros; by apply kbd_queue_inv).
  assert (kept_k (modify (fun s => kbd_queue 0x55 false (set_kb_status (kb_status s .| KBD_STAT_SELFTEST) s)))) as K4.
  { apply kept_modify. intros s Hs. apply kbd_queue_inv, set_status_kinv; [..|done].
    - change KBD_STAT_OBF with (2 ^ 0). rewrite !has_testbit, Z.lor_spec by lia. apply orb_false_r.
    - change KBD_STAT_MOUSE_OBF with (2 ^ 5). rewrite !has_testbit, Z.lor_spec by lia. apply orb_false_r. }
  assert (kept_k (modify (fun s => kbd_queue (outport s) false s))) as K5 by (apply kept_modify; intros; by apply kbd_queue_inv).
  pose proof (kept_mode (fun s => kb_mode s .| KBD_MODE_DISABLE_KBD)) as K6.
  pose proof (kept_mode (fun s => clear (kb_mode s) KBD_MODE_DISABLE_KBD)) as K7.
  pose proof (kept_mouse_bit (fun s => kb_mode s .| KBD_MODE_DISABLE_MOUSE) (fun s => mouse_bit_set _)) as K8.
  pose proof (kept_mouse_bit (fun s => clear (kb_mode s) KBD_MODE_DISABLE_MOUSE) (fun s => mouse_bit_clear _)) as K9.
  pose proof (kept_k_reset (A := unit)) as K10. pose proof (kept_k_ret (A := unit) tt) as K11. unfold kbd_write_command.
  remember v as w eqn:Ew in |- * at 1. clear Ew.
  repeat (match goal with |- kept_k (match ?x with _ => _ end) => destruct x end; try assumption).
Qed.
Lemma kept_read : kept_k kbd_read_data.
Proof.
  intros s Hs. unfold wp, kbd_read_data. case_if.
  - apply on_aux_inv; [|done]. apply (on_mouse_ok _ read_act), Hs.
  - apply on_keyboard_inv; [|done]. apply on_kbd_ok, read_act.
Qed.
Lemma kept_mouse_event dx dy dz b : kept_k (kbd_mouse_event dx dy dz b).
Proof.
  intros s Hs. unfold wp, kbd_mouse_event. destruct (mouse_event_total dx dy dz b (mouse s)) as [[m l] E]; [apply Hs|].
  rewrite E. apply on_aux_inv; [|done]. unfold ps2_mouse_event in E. destruct Hs as [[_ H2 _] _].
  revert E. repeat case_match; intros E; try (injection E as <- <-; by split). exact (send_packets_act _ (set_buttons _ (set_deltas _ _ _ (mouse s))) _ _ H2 E).
Qed.
Lemma kept_write v : kept_k (kbd_write_data v).
Proof.
  unfold kbd_write_data. apply kept_k_bind; [by intros s H|]. intros s0. apply kept_k_bind; [|intros; apply kept_modify, set_cmd_kinv].
  assert (kept_k (modify (on_keyboard (ps2_write_keyboard v)))) as K1 by (apply kept_modify; intros; apply on_keyboard_inv; [apply write_keyboard_ok|done]).
  assert (kept_k (modify (on_aux (ps2_write_mouse v)))) as K2 by (apply kept_modify; intros s Hs; apply on_aux_inv; [apply write_mouse_ok, Hs|done]).
  assert (forall b, kept_k (modify (kbd_queue v b))) as K3 by (intros; apply kept_modify; intros; by apply kbd_queue_inv).
  assert (kept_k (modify (fun s => kbd_update_irq (on_keyboard (ps2_keyboard_set_translation
    (if has (kb_mode (set_kb_mode (u8 v) s)) KBD_MODE_KCC then 1 else 0)) (set_kb_mode (u8 v) s))))) as K4.
  { apply kept_modify. intros s Hs. apply update_kinv. destruct (set_mode_queues (u8 v) s Hs) as [H1 H2 H3]. by split. }
  assert (kept_k (if v .& 1 =? 0 then qemu_system_reset_request else mret tt)) as K5 by (case_if; [apply kept_k_reset|apply kept_k_ret]).
  pose proof (kept_k_ret (A := unit) tt) as K6. destruct s0 as [w ? ? ? ? ? ? ?]. cbn [kb_write_cmd].
  repeat (match goal with |- kept_k (match ?x with _ => _ end) => destruct x end; try first [assumption|apply K3]).
Qed.

(** C30: the keyboard controller reports its queues.  After any sequence of port accesses, keys
    and mouse movements the two rings are well formed; the controller has data pending exactly
    for the rings that are not empty; the status bits say so; and each interrupt line is up exactly
    when its device is the one to be read and the mode enables it.  The only way out of the
    emulator is the reset that the driver asks for. *)
Theorem i8042_reports_queues l :
  match kbd_run l i8042_init with
  | Ok _ s => queues_ok s /\ lines_ok s
  | Stop r => r = StopExit 1
  end.
Proof.
  assert (kept_k (kbd_run l)) as K.
  { induction l as [|e l IH]; [apply kept_k_ret|]. apply kept_k_bind; [|done]. destruct e; cbn [kbd_step].
    - apply kept_k_bind; [by intros s H|intros; apply kept_k_ret].
    - apply kept_command.
    - apply kept_k_bind; [apply kept_read|intros; apply kept_k_ret].
    - apply kept_write.
    - apply kept_modify. intros s Hs. apply on_keyboard_inv; [apply put_keycode_ok|done].
    - apply kept_mouse_event. }
  assert (ring_ok (queue (ps2_reset zero_common))) as Hr by (split; cbn; try done; try lia; repeat constructor; by vm_compute).
  apply (K i8042_init). split; [by split|by split].
Qed.
