(* ===== verification/FsUtils.v ===== *)
(** * Text utilities of the file systems (fs_utils.c, fs_utils.h)

    Paths, quoted names, numbers, times, hexadecimal strings and the headers of file lists.
    [long] is the width of the C type long; the functions that return -1 on an error return
    [None], and what they have written by then is not read by any caller. *)
From S2P Require Export CStr.
From stdpp Require Import strings.
#[local] Open Scope Z_scope.

Definition isspace_nolf (c : Z) : bool := (c =? 32) || (c =? 9).
Definition from_hex (c : Z) : Z :=
  if (48 <=? c) && (c <=? 57) then c - 48
  else if (65 <=? c) && (c <=? 70) then c - 65 + 10
  else if (97 <=? c) && (c <=? 102) then c - 97 + 10
  else -1.

(** ** Paths *)
Definition compose_path (path name : list Z) : list Z :=
  match path with
  | [] => name
  | _ => path ++ (if List.last path 0 =? 47 then [] else [47]) ++ name
  end.
Definition compose_url (base_url name : list Z) : list Z :=
  match strchr 58 name with Some _ => name | None => compose_path base_url name end.
Definition is_url (path : list Z) : bool :=
  bool_decide (is_Some (strstart path (str "http:"))) || bool_decide (is_Some (strstart path (str "https:"))) ||
  bool_decide (is_Some (strstart path (str "file:"))).

Definition skip_line : MP unit :=
  _ ← on_text (skip_while (c ← peek; mret (negb (c =? 10) && negb (c =? 0))));
  c ← peek;
  if c =? 10 then skip_chars 1 else mret tt.

(** ** Quoted names *)

(** printf's %02x of a byte *)
Definition hex2 (c : Z) : list Z := [hex_digit (c ≫ 4); hex_digit (c .& 15)].
(** The comparisons are on a signed char. *)
Definition plain_char (c : Z) : bool := (32 <? i8 c) && (i8 c <=? 126).
Definition quoted_char (c : Z) : list Z :=
  if (c <? 32) || (c =? 127) then str "\x" ++ hex2 c
  else if (c =? 92) || (c =? 34) then [92; c]
  else [c].
Definition quoted_str (s : list Z) : list Z :=
  if (0 <? Z.of_nat (length s)) && forallb plain_char s then s
  else [34] ++ concat (map quoted_char s) ++ [34].

(** The characters behind a backslash. *)
Inductive escape := EscChar (c : Z) | EscHexError | EscUnknown.
Definition parse_escape : MP escape :=
  c ← next_char;
  match c with
  | 39 | 34 | 92 => mret (EscChar c)
  | 110 => mret (EscChar 10)
  | 114 => mret (EscChar 13)
  | 116 => mret (EscChar 9)
  | 120 =>
      h ← next_char;
      if from_hex h <? 0 then mret EscHexError
      else
        l ← next_char;
        if from_hex l <? 0 then mret EscHexError
        else mret (EscChar (u8 ((from_hex h ≪ 4) .| from_hex l)))
  | _ => mret EscUnknown
  end.
(** The loop behind the opening quote; [q] is what the buffer holds. *)
Fixpoint quoted_loop (buf_size : Z) (q : list Z) (fuel : nat) : MP (option (list Z)) :=
  match fuel with
  | O => stop_with StopFuel
  | S f =>
      let add_char c :=
        if buf_size - 1 <=? Z.of_nat (length q) then mret None else quoted_loop buf_size (q ++ [c]) f in
      c ← next_char;
      if (c =? 0) || (c =? 10) then mret None
      else if c =? 34 then mret (Some q)
      else if c =? 92 then
        e ← parse_escape;
        match e with EscChar c => add_char c | _ => mret None end
      else add_char c
  end.
Fixpoint word_loop (buf_size : Z) (q : list Z) (fuel : nat) : MP (option (list Z)) :=
  match fuel with
  | O => stop_with StopFuel
  | S f =>
      c ← peek;
      if negb (isspace_nolf c) && negb (c =? 0) && negb (c =? 10) then
        if buf_size - 1 <=? Z.of_nat (length q) then mret None
        else _ ← next_char; word_loop buf_size (q ++ [c]) f
      else mret (Some q)
  end.
Definition skip_blanks : MP unit := on_text (skip_while (c ← peek; mret (isspace_nolf c))).
(** What is in the buffer before the 0 that the code adds. *)
Definition parse_fname (buf_size : Z) : MP (option (list Z)) := commit (
  _ ← skip_blanks;
  c ← peek;
  if c =? 0 then mret None
  else if c =? 34 then _ ← next_char; on_text (quoted_loop buf_size [])
  else on_text (word_loop buf_size [])).

(** ** Numbers *)
Section Long.
Context (long : Z).
(** strtoul and strtoull move the pointer; [None] when they have read no number. *)
Definition read_number (W base : Z) : MP (option Z) := fun s =>
  match strtoul W base s with None => Ok None s | Some (v, s') => Ok (Some v) s' end.
Definition parse_uint32_base (base : Z) : MP (option Z) := commit (
  _ ← skip_blanks;
  r ← read_number long base;
  mret (option_map (fun v => u32 v) r)).
Definition parse_uint64_base (base : Z) : MP (option Z) := commit (_ ← skip_blanks; read_number 64 base).
Definition parse_uint64 : MP (option Z) := parse_uint64_base 0.
Definition parse_uint32 : MP (option Z) := parse_uint32_base 0.
Definition parse_file_id : MP (option Z) := parse_uint64_base 16.

(** The digits of the nanoseconds: [m] is the weight of the one before. *)
Fixpoint nsec_loop (v m : Z) (fuel : nat) : MP Z :=
  match fuel with
  | O => stop_with StopFuel
  | S f =>
      c ← peek;
      if (48 <=? c) && (c <=? 57) then
        _ ← next_char;
        let m := m / 10 in nsec_loop (u32 (v + u32 ((c - 48) * m))) m f
      else mret v
  end.
Definition parse_time : MP (option (Z * Z)) := commit (
  r ← parse_uint32;
  match r with
  | None => mret None
  | Some sec =>
      c ← peek;
      nsec ← (if c =? 46 then _ ← next_char; on_text (nsec_loop 0 1000000000) else mret 0);
      mret (Some (sec, nsec))
  end).
End Long.

(** printf's %016x *)
Definition file_id_to_filename (file_id : Z) : list Z :=
  map (fun i => hex_digit ((file_id ≫ (60 - 4 * Z.of_nat i)) .& 15)) (seq 0 16).
Definition encode_hex (buf : list Z) : list Z := concat (map hex2 buf).
(** [len] bytes from the text at [str]. *)
Fixpoint decode_hex (len : nat) : MP (option (list Z)) :=
  match len with
  | O => mret (Some [])
  | S n =>
      h0 ← next_char;
      if from_hex h0 <? 0 then mret None
      else
        h1 ← next_char;
        if from_hex h1 <? 0 then mret None
        else
          r ← decode_hex n;
          mret (option_map (cons ((from_hex h0 ≪ 4) .| from_hex h1)) r)
  end.

(** ** Headers: lines "tag: value" up to an empty line *)
Fixpoint skip_header (p : list Z) : option (list Z) :=
  match p with
  | 10 :: 10 :: p' => Some p'
  | _ :: p' => skip_header p'
  | [] => None
  end.
(** The name before the colon, cut to the buffer of 128 bytes, and the rest. *)
Fixpoint tag_name (s q : list Z) : list Z * list Z :=
  match s with
  | [] => (q, [])
  | c :: s' =>
      if (c =? 58) || (c =? 10) then (q, s)
      else tag_name s' (if Z.of_nat (length q) <? 127 then q ++ [c] else q)
  end.
Fixpoint skip_blanks_str (s : list Z) : list Z :=
  match s with c :: s' => if isspace_nolf c then skip_blanks_str s' else s | [] => [] end.
Fixpoint parse_tag_loop (fuel : nat) (buf_size : Z) (s tag : list Z) : option (list Z) :=
  match fuel with
  | O => None
  | S f =>
      match s with
      | [] | 10 :: _ => None
      | _ =>
          let '(name, rest) := tag_name s [] in
          match rest with
          | 58 :: p =>
              let p1 := skip_blanks_str p in
              let line := match strchr 10 p1 with None => p1 | Some r => take (length p1 - length r) p1 end in
              if bool_decide (name = tag) then Some (take (Z.to_nat (buf_size - 1)) line)
              else match strchr 10 p1 with None => None | Some r => parse_tag_loop f buf_size (drop 1 r) tag end
          | _ => None
          end
      end
  end.
(** Each line has a character, so the length of the string bounds the lines. *)
Definition parse_tag (buf_size : Z) (s tag : list Z) : option (list Z) :=
  parse_tag_loop (S (length s)) buf_size s tag.
(** A parser on a string of its own. *)
Definition on_string {S A} (b : list Z) (m : MP A) : M S A := fun s =>
  match m (c_string b) with Ok a _ => Ok a s | Stop r => Stop r end.
Section Tags.
Context {S : Type}.
Definition parse_tag_uint64 (s tag : list Z) : M S (option Z) :=
  match parse_tag 64 s tag with None => mret None | Some b => on_string b parse_uint64 end.
Definition parse_tag_file_id (s tag : list Z) : M S (option Z) :=
  match parse_tag 64 s tag with None => mret None | Some b => on_string b (parse_uint64_base 16) end.
Definition parse_tag_version (s : list Z) : M S Z :=
  v ← parse_tag_uint64 s (str "Version");
  mret (match v with None => -1 | Some v => i32 v end).
End Tags.

(** ** Sizes *)
Definition block_align (val align : Z) : Z := u64 (u64 (val + align - 1) .& u64 (Z.lnot (u64 (align - 1)))).
