(* ===== verification/FsUtilsFacts.v ===== *)
(** * Names, hexadecimal strings and file ids are read back as they were written *)
From S2P Require Export FsUtils.
From stdpp Require Import strings.
#[local] Open Scope Z_scope.

(** ** Running a text monad on a text whose first characters are known *)
Lemma bind_ok {S A B} (m : M S A) (k : A -> M S B) s a s' : m s = Ok a s' -> (m ≫= k) s = k a s'.
Proof. intros H. unfold mbind, M_bind. by rewrite H. Qed.
Lemma next_cons c s : next_char (c :: s) = Ok c s.
Proof. done. Qed.
Lemma peek_cons c s : peek (c :: s) = Ok c (c :: s).
Proof. done. Qed.
Ltac text_step := first
  [ rewrite (bind_ok next_char _ _ _ _ (next_cons _ _))
  | rewrite (bind_ok peek _ _ _ _ (peek_cons _ _)) ]; cbv beta.

(** ** Hexadecimal digits *)
Lemma from_hex_digit d : 0 <= d < 16 -> from_hex (hex_digit d) = d.
Proof. intros H. unfold hex_digit. destruct (Z.ltb_spec d 10); unfold from_hex; zcases; cbn; lia. Qed.
Lemma nibbles c : is_byte c -> 0 <= c ≫ 4 < 16 /\ 0 <= c .& 15 < 16 /\ ((c ≫ 4) ≪ 4) .| (c .& 15) = c.
Proof.
  intros [H1 H2]. pose proof (land_range c 15 ltac:(lia)). split.
  - rewrite Z.shiftr_div_pow2 by lia. change (2 ^ 4) with 16. Z.div_mod_to_equations. lia.
  - split; [lia|]. apply Z.bits_inj'. intros i Hi. rewrite Z.lor_spec, Z.shiftl_spec, Z.land_spec by lia.
    change 15 with (Z.ones 4). destruct (Z_lt_le_dec i 4).
    + rewrite Z.testbit_neg_r by lia. rewrite Z.ones_spec_low by lia. cbn. apply andb_true_r.
    + rewrite Z.shiftr_spec, Z.ones_spec_high by lia. rewrite andb_false_r, orb_false_r. f_equal. lia.
Qed.
Lemma decode_encode b rest : bytes b -> decode_hex (length b) (encode_hex b ++ rest) = Ok (Some b) rest.
Proof.
  intros H. revert rest. induction b as [|c b IH]; intros rest; [done|]. apply Forall_cons_1 in H as [Hc H].
  destruct (nibbles c Hc) as (H1 & H2 & H3). unfold encode_hex in *. cbn [map concat length decode_hex hex2 app].
  text_step. rewrite from_hex_digit by done. rewrite (proj2 (Z.ltb_ge _ _)) by lia.
  text_step. rewrite from_hex_digit by done. rewrite (proj2 (Z.ltb_ge _ _)) by lia.
  rewrite (bind_ok _ _ _ _ _ (IH H rest)). cbn [option_map]. by rewrite H3.
Qed.

(** ** Quoted names *)
Lemma quoted_loop_step size q f c rest : 0 <= c -> (c =? 0) || (c =? 10) = false -> c <> 34 -> c <> 92 ->
  Z.of_nat (length q) < size - 1 -> quoted_loop size q (S f) (c :: rest) = quoted_loop size (q ++ [c]) f rest.
Proof.
  intros H0 H1 H2 H3 Hq. cbn [quoted_loop]. text_step. rewrite H1, !(proj2 (Z.eqb_neq c _)) by done.
  by rewrite (proj2 (Z.leb_gt _ _)) by lia.
Qed.
Lemma quoted_loop_escape size q f c text rest : parse_escape text = Ok (EscChar c) rest ->
  Z.of_nat (length q) < size - 1 -> quoted_loop size q (S f) (92 :: text) = quoted_loop size (q ++ [c]) f rest.
Proof.
  intros H Hq. cbn [quoted_loop]. text_step. cbn [Z.eqb Pos.eqb orb]. rewrite (bind_ok _ _ _ _ _ H).
  by rewrite (proj2 (Z.leb_gt _ _)) by lia.
Qed.
Lemma parse_hex_escape c rest : is_byte c -> parse_escape (120 :: hex2 c ++ rest) = Ok (EscChar c) rest.
Proof.
  intros Hc. destruct (nibbles c Hc) as (H1 & H2 & H3). unfold parse_escape. text_step. cbn [hex2 app].
  text_step. rewrite from_hex_digit by done. rewrite (proj2 (Z.ltb_ge _ _)) by lia.
  text_step. rewrite from_hex_digit by done. rewrite (proj2 (Z.ltb_ge _ _)) by lia.
  rewrite H3. by rewrite wrap_fits.
Qed.
Lemma quoted_loop_char size q f c rest : is_byte c -> c <> 0 -> Z.of_nat (length q) < size - 1 ->
  quoted_loop size q (S f) (quoted_char c ++ rest) = quoted_loop size (q ++ [c]) f rest.
Proof.
  intros Hc H0 Hq. unfold quoted_char. destruct ((c <? 32) || (c =? 127)) eqn:E1.
  - rewrite <- app_assoc. cbn [str app]. apply (quoted_loop_escape _ _ _ c (120 :: hex2 c ++ rest)); [|done].
    by apply parse_hex_escape.
  - apply orb_false_iff in E1 as [E1 _]. apply Z.ltb_ge in E1. destruct ((c =? 92) || (c =? 34)) eqn:E2.
    + apply orb_true_iff in E2. apply (quoted_loop_escape _ _ _ c (c :: rest)); [|done].
      by destruct E2 as [->%Z.eqb_eq| ->%Z.eqb_eq].
    + apply orb_false_iff in E2 as [? ?]. apply quoted_loop_step; [lia| |by apply Z.eqb_neq..|done].
      rewrite !(proj2 (Z.eqb_neq _ _)) by lia. done.
Qed.
Lemma quoted_char_length c : (1 <= length (quoted_char c))%nat.
Proof. unfold quoted_char, str, hex2. repeat case_if; rewrite ?length_app; cbn [length app]; lia. Qed.
Lemma quoted_loop_string size s rest : bytes s -> nonul s -> forall q f, (length s < f)%nat ->
  Z.of_nat (length q + length s) < size ->
  quoted_loop size q f (concat (map quoted_char s) ++ 34 :: rest) = Ok (Some (q ++ s)) rest.
Proof.
  intros Hb Hn. induction s as [|c s IH]; intros q f Hf Hs; (destruct f as [|f]; [cbn in Hf; lia|]).
  { cbn [map concat app quoted_loop]. text_step. cbn [Z.eqb Pos.eqb orb]. by rewrite app_nil_r. }
  apply Forall_cons_1 in Hb as [Hc Hb], Hn as [H0 Hn]. cbn [map concat length] in *. rewrite <- app_assoc.
  rewrite quoted_loop_char by (done || lia). rewrite IH by (rewrite ?length_app; cbn [length]; done || lia).
  by rewrite <- app_assoc.
Qed.

(** ** Words *)
Definition ends_word (rest : list Z) : Prop := match rest with c :: _ => isspace_nolf c = true \/ c = 0 \/ c = 10 | [] => False end.
Lemma plain_char_range c : is_byte c -> plain_char c = true -> 32 < c <= 126.
Proof.
  intros [H1 H2]. unfold plain_char. rewrite swrap_of_wrap by lia. rewrite (wrap_fits 8 c) by done.
  change (2 ^ (8 - 1)) with 128. change (2 ^ 8) with 256 in *. zcases; intros; lia.
Qed.
Lemma word_loop_ends size q f rest : ends_word rest -> word_loop size q (S f) rest = Ok (Some q) rest.
Proof.
  intros H. destruct rest as [|c rest]; [done|]. cbn [word_loop]. text_step.
  assert (negb (isspace_nolf c) && negb (c =? 0) && negb (c =? 10) = false) as ->; [|done].
  destruct H as [->|[->| ->]]; [done|by rewrite andb_false_r|by rewrite andb_false_r].
Qed.
Lemma word_loop_string size s rest : bytes s -> forallb plain_char s = true -> ends_word rest -> forall q f,
  (length s < f)%nat -> Z.of_nat (length q + length s) < size -> word_loop size q f (s ++ rest) = Ok (Some (q ++ s)) rest.
Proof.
  intros Hb Hp Hr. induction s as [|c s IH]; intros q f Hf Hs; (destruct f as [|f]; [cbn in Hf; lia|]).
  { cbn [app]. rewrite word_loop_ends by done. by rewrite app_nil_r. }
  apply Forall_cons_1 in Hb as [Hc Hb]. cbn [forallb] in Hp. apply andb_true_iff in Hp as [Hp Hps].
  pose proof (plain_char_range c Hc Hp) as Hrc. cbn [app word_loop length] in *. text_step.
  assert (negb (isspace_nolf c) && negb (c =? 0) && negb (c =? 10) = true) as ->.
  { unfold isspace_nolf. by rewrite !(proj2 (Z.eqb_neq _ _)) by lia. }
  rewrite (proj2 (Z.leb_gt _ _)) by lia. text_step.
  rewrite IH by (rewrite ?length_app; cbn [length]; done || lia). by rewrite <- app_assoc.
Qed.
Lemma skip_blanks_step b s : Forall (fun c => isspace_nolf c = true) b ->
  match s with c :: _ => isspace_nolf c = false | [] => False end -> skip_blanks (b ++ s) = Ok tt s.
Proof.
  intros Hb Hs. unfold skip_blanks, on_text. assert (length b < S (length (b ++ s)))%nat as Hf by (rewrite length_app; lia).
  revert Hf. generalize (S (length (b ++ s))) as f. induction b as [|c b IH]; intros f Hf; (destruct f as [|f]; [lia|]).
  - destruct s as [|c s]; [done|]. cbn [app skip_while]. unfold mbind at 1, M_bind at 1. text_step. cbn. by rewrite Hs.
  - apply Forall_cons_1 in Hb as [Hc Hb]. cbn [app skip_while length] in *. unfold mbind at 1, M_bind at 1. text_step.
    cbn [mret M_ret]. unfold mret, M_ret. rewrite Hc. unfold skip_chars, mbind, M_bind. cbn [length Nat.leb]. by apply IH; [|lia].
Qed.

Lemma skip_blanks_none c s : isspace_nolf c = false -> skip_blanks (c :: s) = Ok tt (c :: s).
Proof. intros H. by apply (skip_blanks_step []). Qed.
Lemma hex_digit_nolf d : 0 <= d < 16 -> isspace_nolf (hex_digit d) = false.
Proof. intros H. unfold hex_digit, isspace_nolf. zcases. Qed.

(** ** File ids *)
Lemma digit_val_hex d : 0 <= d < 16 -> digit_val (hex_digit d) = d.
Proof. intros H. unfold hex_digit. destruct (Z.ltb_spec d 10); unfold digit_val, isdigit; zcases; cbn; lia. Qed.
Definition ends_number (rest : list Z) : Prop := match rest with c :: _ => 16 <= digit_val c | [] => True end.
Lemma digits_hex l rest : Forall (fun d => 0 <= d < 16) l -> ends_number rest -> forall acc,
  digits 16 (map hex_digit l ++ rest) acc = (foldl (fun a d => a * 16 + d) acc l, rest).
Proof.
  intros H Hr. induction l as [|d l IH]; intros acc; cbn [map app foldl].
  - destruct rest as [|c rest]; cbn [digits]; [done|]. by rewrite (proj2 (Z.ltb_ge _ _)) by done.
  - apply Forall_cons_1 in H as [Hd H]. cbn [digits]. rewrite digit_val_hex by done.
    rewrite (proj2 (Z.ltb_lt _ _)) by lia. by apply IH.
Qed.
(** The [n] hexadecimal digits of [v], most significant first. *)
Definition hex_value (n : nat) (v : Z) : list Z := map (fun i => (v ≫ (4 * (Z.of_nat n - 1 - Z.of_nat i))) .& 15) (seq 0 n).
Lemma hex_value_S n v : hex_value (S n) v = ((v ≫ (4 * Z.of_nat n)) .& 15) :: hex_value n v.
Proof.
  unfold hex_value. cbn [seq map]. f_equal; [do 2 f_equal; lia|]. rewrite <- seq_shift, map_map. apply map_ext.
  intros i. do 2 f_equal. lia.
Qed.
Lemma hex_value_range n v : Forall (fun d => 0 <= d < 16) (hex_value n v).
Proof. induction n as [|n IH]; [constructor|]. rewrite hex_value_S. constructor; [|done]. pose proof (land_range (v ≫ (4 * Z.of_nat n)) 15). lia. Qed.
Lemma hex_value_sum n v : forall acc, foldl (fun a d => a * 16 + d) acc (hex_value n v) = acc * 2 ^ (4 * Z.of_nat n) + wrap (4 * Z.of_nat n) v.
Proof.
  induction n as [|n IH]; intros acc; [unfold wrap; cbn; rewrite Z.mod_1_r; lia|].
  rewrite hex_value_S. cbn [foldl]. rewrite IH. change 15 with (Z.ones 4). rewrite Z.land_ones, Z.shiftr_div_pow2 by lia.
  unfold wrap. replace (4 * Z.of_nat (S n)) with (4 * Z.of_nat n + 4) by lia. rewrite Z.pow_add_r by lia.
  rewrite Z.rem_mul_r by (try apply pow2_nz; try apply pow2_pos; lia). lia.
Qed.
Lemma file_id_digits v : file_id_to_filename v = map hex_digit (hex_value 16 v).
Proof. unfold file_id_to_filename, hex_value. rewrite map_map. apply map_ext. intros i. do 3 f_equal. lia. Qed.
Lemma int_base_16 c d s : d <> 120 -> d <> 88 -> int_base 16 (c :: d :: s) = (16, c :: d :: s).
Proof.
  intros H1%Z.eqb_neq H2%Z.eqb_neq. unfold int_base. rewrite H1, H2. cbn [Z.eqb Pos.eqb orb andb].
  destruct s; repeat match goal with |- (match ?x with _ => _ end) = _ => destruct x end; done.
Qed.
Lemma unsigned (c : Z) s : c <> 45 -> c <> 43 ->
  match c :: s with 45 :: s' => (true, s') | 43 :: s' => (false, s') | _ => (false, c :: s) end = (false, c :: s).
Proof. intros. cbn beta iota. repeat (match goal with |- (match ?x with _ => _ end) = _ => is_var x; destruct x end; try done; try congruence). Qed.
Lemma hex_digit_class d : 0 <= d < 16 ->
  isspace (hex_digit d) = false /\ hex_digit d <> 45 /\ hex_digit d <> 43 /\ hex_digit d <> 120 /\ hex_digit d <> 88.
Proof. intros H. unfold hex_digit, isspace. zcases; cbn; lia. Qed.
Lemma read_hex d0 d1 l rest : Forall (fun d => 0 <= d < 16) (d0 :: d1 :: l) -> ends_number rest ->
  int_prefix 16 (map hex_digit (d0 :: d1 :: l) ++ rest) = Some (false, foldl (fun a d => a * 16 + d) 0 (d0 :: d1 :: l), rest).
Proof.
  intros Hd Hr. pose proof (Forall_cons_1 _ _ _ Hd) as [H0 [H1 _]%Forall_cons_1].
  destruct (hex_digit_class d0 H0) as (X1 & X2 & X3 & _). destruct (hex_digit_class d1 H1) as (_ & _ & _ & X4 & X5).
  pose proof (digits_hex _ rest Hd Hr 0) as E. unfold int_prefix. cbn [map app skip_ws] in *. rewrite X1.
  rewrite unsigned, int_base_16 by done. rewrite digit_val_hex by done. rewrite (proj2 (Z.ltb_lt _ _)) by lia.
  by rewrite E.
Qed.
Lemma read_file_id v rest : fits 64 v -> ends_number rest ->
  strtoul 64 16 (file_id_to_filename v ++ rest) = Some (v, rest).
Proof.
  intros Hv Hr. unfold strtoul. rewrite file_id_digits.
  pose proof (hex_value_range 16 v) as Hd. pose proof (hex_value_sum 16 v 0) as Hs.
  rewrite (hex_value_S 15), (hex_value_S 14) in *. rewrite read_hex by done. rewrite Hs. cbn [mbind option_bind].
  change (4 * Z.of_nat 16) with 64. rewrite wrap_fits by done. rewrite Z.mul_0_l, Z.add_0_l.
  destruct Hv. by rewrite (proj2 (Z.leb_gt _ _)) by lia.
Qed.

Definition returned_name {S} (r : res S (option (list Z))) : option (list Z) := match r with Ok a _ => a | Stop _ => None end.

(** C31: what fs_utils writes it reads back.  A file name written by quoted_str and followed by a
    delimiter is the name that parse_fname finds, provided it fits the buffer and is not one of
    the names that start with a quotation mark and are printed without quoting; the bytes that
    encode_hex writes are those that decode_hex reads; the name of a file of the network file
    system gives its id. *)
Theorem fs_text_roundtrips :
  (forall size s blanks rest, bytes s -> nonul s -> Z.of_nat (length s) < size -> ends_word rest ->
     Forall (fun c => isspace_nolf c = true) blanks -> head s <> Some 34 \/ forallb plain_char s = false ->
     parse_fname size (blanks ++ quoted_str s ++ rest) = Ok (Some s) rest) /\
  (forall b rest, bytes b -> decode_hex (length b) (encode_hex b ++ rest) = Ok (Some b) rest) /\
  (forall v rest, fits 64 v -> ends_number rest -> parse_file_id (file_id_to_filename v ++ rest) = Ok (Some v) rest).
Proof.
  split; [|split].
  - intros size s blanks rest Hb Hn Hs Hr Hbl Hq. unfold parse_fname, commit.
    assert (forall c t, quoted_str s ++ rest = c :: t -> c <> 0 -> isspace_nolf c = false ->
      skip_blanks (blanks ++ quoted_str s ++ rest) = Ok tt (c :: t)) as Hskip.
    { intros c t E _ Hc. rewrite E. apply skip_blanks_step; done. }
    unfold quoted_str in *. destruct ((0 <? Z.of_nat (length s)) && forallb plain_char s) eqn:E.
    + apply andb_true_iff in E as [E1%Z.ltb_lt E2]. destruct s as [|c s]; [done|].
      pose proof (Forall_cons_1 _ _ _ Hb) as [Hc _]. pose proof E2 as E3. cbn [forallb] in E3. apply andb_true_iff in E3 as [E3 _].
      pose proof (plain_char_range c Hc E3). rewrite (bind_ok _ _ _ _ _ (Hskip c (s ++ rest) eq_refl ltac:(lia) ltac:(unfold isspace_nolf; zcases))).
      text_step. rewrite (proj2 (Z.eqb_neq c 0)) by lia.
      rewrite (proj2 (Z.eqb_neq c 34)) by (intros ->; destruct Hq as [Hq|Hq]; [by apply Hq|congruence]).
      unfold on_text. rewrite app_comm_cons. by rewrite word_loop_string by (done || (rewrite length_app; lia)).
    + assert (([34] ++ concat (map quoted_char s) ++ [34]) ++ rest = 34 :: concat (map quoted_char s) ++ 34 :: rest) as Eq.
      { by rewrite <- !app_assoc. }
      rewrite (bind_ok _ _ _ _ _ (Hskip 34 _ Eq ltac:(lia) eq_refl)). text_step. cbn [Z.eqb Pos.eqb]. text_step.
      unfold on_text. rewrite quoted_loop_string; try done.
      rewrite length_app. cbn [length].
      assert (forall l, (length l <= length (concat (map quoted_char l)))%nat) as Hl.
      { induction l as [|c l IH]; cbn [map concat length]; [lia|]. rewrite length_app. pose proof (quoted_char_length c). lia. }
      specialize (Hl s). lia.
  - apply decode_encode.
  - intros v rest Hv Hr. unfold parse_file_id, parse_uint64_base, commit.
    pose proof (read_file_id v rest Hv Hr) as E. rewrite file_id_digits in *. rewrite (hex_value_S 15) in *. cbn [map app] in *.
    pose proof (hex_value_range 16 v) as Hd. rewrite hex_value_S in Hd. apply Forall_cons_1 in Hd as [Hd _].
    rewrite (bind_ok _ _ _ _ _ (skip_blanks_none _ _ (hex_digit_nolf _ Hd))).
    unfold read_number. by rewrite E.
Qed.
Lemma fs_text_roundtrips_witness :
  parse_fname 256 (str " " ++ quoted_str (str "a b") ++ [0]) = Ok (Some (str "a b")) [0] /\
  decode_hex 2 (encode_hex [1; 255] ++ [0]) = Ok (Some [1; 255]) [0] /\
  parse_file_id (file_id_to_filename 0x1ab ++ [0]) = Ok (Some 0x1ab) [0].
Proof.
  destruct fs_text_roundtrips as (H1 & H2 & H3). split; [|split].
  - apply H1; try (by vm_compute); [by repeat constructor..|by right; left|by repeat constructor|by right].
  - apply (H2 [1; 255]). by repeat constructor.
  - apply H3; by vm_compute.
Defined.
(** A name that starts with a quotation mark is printed bare and read as a quoted one. *)
Lemma quoted_str_bare_quote : returned_name (parse_fname 256 (quoted_str (34 :: str "a") ++ [0])) = None.
Proof. reflexivity. Qed.
