(* ===== verification/Json.v ===== *)
(** * The JSON parser of the configuration files (json.c, json.h)

    A value is a tree: the parser never makes two of them share an object.  Strings are the
    bytes before the terminator.  [LONG] is the width of the C type long. *)
From S2P Require Export FsUtils.
From stdpp Require Import strings.
#[local] Open Scope Z_scope.

Inductive JSONValue :=
| JSON_STR (s : list Z)
| JSON_INT (v : Z)
| JSON_OBJ (props : list (list Z * JSONValue))
| JSON_ARRAY (tab : list JSONValue)
| JSON_BOOL (b : bool)
| JSON_NULL
| JSON_UNDEFINED
| JSON_EXCEPTION (msg : list Z).

(** ** Constructors and accessors *)

(** The object of the argument ends at its first 0. *)
Definition json_string_new (s : list Z) : JSONValue := JSON_STR (until_nul s).
(** vsnprintf cuts the message to 255 bytes. *)
Definition json_error_new (msg : list Z) : JSONValue := JSON_EXCEPTION (until_nul (snprintf 256 msg)).
Definition json_int32_new (v : Z) : JSONValue := JSON_INT v.
Definition json_bool_new (v : bool) : JSONValue := JSON_BOOL v.
Definition json_null_new : JSONValue := JSON_NULL.
Definition json_undefined_new : JSONValue := JSON_UNDEFINED.
Definition json_object_new : JSONValue := JSON_OBJ [].
Definition json_array_new : JSONValue := JSON_ARRAY [].
Definition json_is_error (v : JSONValue) : bool := match v with JSON_EXCEPTION _ => true | _ => false end.
Definition json_is_undefined (v : JSONValue) : bool := match v with JSON_UNDEFINED => true | _ => false end.
Definition json_get_str (v : JSONValue) : option (list Z) := match v with JSON_STR s => Some s | _ => None end.
Definition json_get_error (v : JSONValue) : option (list Z) := match v with JSON_EXCEPTION s => Some s | _ => None end.

(** The first property of the name. *)
Fixpoint json_object_get2 (props : list (list Z * JSONValue)) (name : list Z) : option JSONValue :=
  match props with
  | [] => None
  | (n, v) :: props' => if decide (n = name) then Some v else json_object_get2 props' name
  end.
Definition json_object_get (val : JSONValue) (name : list Z) : JSONValue :=
  match val with
  | JSON_OBJ props => default json_undefined_new (json_object_get2 props name)
  | _ => json_undefined_new
  end.
Fixpoint set_prop (props : list (list Z * JSONValue)) (name : list Z) (v : JSONValue) : list (list Z * JSONValue) :=
  match props with
  | [] => [(name, v)]
  | (n, w) :: props' => if decide (n = name) then (n, v) :: props' else (n, w) :: set_prop props' name v
  end.
(** The returned int and the object afterwards. *)
Definition json_object_set (val : JSONValue) (name : list Z) (prop_val : JSONValue) : Z * JSONValue :=
  match val with
  | JSON_OBJ props => (0, JSON_OBJ (set_prop props (until_nul name) prop_val))
  | _ => (-1, val)
  end.
Definition json_array_get (val : JSONValue) (idx : Z) : JSONValue :=
  match val with
  | JSON_ARRAY tab => if idx <? Z.of_nat (length tab) then nth (Z.to_nat idx) tab json_undefined_new else json_undefined_new
  | _ => json_undefined_new
  end.
Definition json_array_set (val : JSONValue) (idx : Z) (prop_val : JSONValue) : Z * JSONValue :=
  match val with
  | JSON_ARRAY tab =>
      let len := Z.of_nat (length tab) in
      if idx <? len then (0, JSON_ARRAY (<[Z.to_nat idx := prop_val]> tab))
      else if idx =? len then (0, JSON_ARRAY (tab ++ [prop_val]))
      else (-1, val)
  | _ => (-1, val)
  end.

(** ** Lexical elements *)

(** The comment that starts at [p] is skipped by these two loops. *)
Definition line_comment_char : MP bool := c ← peek; mret (negb (c =? 0) && negb (c =? 10)).
Definition block_comment_char : MP bool :=
  c ← peek;
  if c =? 0 then mret false
  else if negb (c =? 42) then mret true
  else d ← peek1; mret (negb (d =? 47)).
Fixpoint skip_spaces_loop (fuel : nat) : MP unit :=
  match fuel with
  | O => stop_with StopFuel
  | S f =>
      c ← peek;
      if isspace c then _ ← skip_chars 1; skip_spaces_loop f
      else if c =? 47 then
        d ← peek1;
        if d =? 47 then
          _ ← skip_chars 2;
          _ ← on_text (skip_while line_comment_char);
          skip_spaces_loop f
        else if d =? 42 then
          _ ← skip_chars 2;
          _ ← on_text (skip_while block_comment_char);
          c ← peek;
          _ ← (if c =? 0 then mret tt else skip_chars 2);
          skip_spaces_loop f
        else mret tt
      else mret tt
  end.
Definition skip_spaces : MP unit := on_text skip_spaces_loop.

(** parse_string behind the opening quote: the value, or what is in [buf]. *)
Fixpoint string_loop (q : list Z) (fuel : nat) : MP (JSONValue + list Z) :=
  match fuel with
  | O => stop_with StopFuel
  | S f =>
      let add_char c :=
        if 4095 <=? Z.of_nat (length q) then mret (inl (json_error_new (str "string too long")))
        else string_loop (q ++ [c]) f in
      c ← next_char;
      if (c =? 0) || (c =? 10) then mret (inl (json_error_new (str "unterminated string")))
      else if c =? 34 then mret (inr q)
      else if c =? 92 then
        e ← parse_escape;
        match e with
        | EscChar c => add_char c
        | EscHexError => mret (inl (json_error_new (str "invalig hex digit")))
        | EscUnknown => mret (inl (json_error_new (str "unknown escape code")))
        end
      else add_char c
  end.
(** An error leaves the pointer at the opening quote. *)
Definition parse_string : MP JSONValue := fun s =>
  match (_ ← skip_chars 1; on_text (string_loop [])) s with
  | Ok (inl e) _ => Ok e s
  | Ok (inr q) s' => Ok (json_string_new q) s'
  | Stop r => Stop r
  end.

Definition is_ident_first (c : Z) : bool :=
  ((97 <=? c) && (c <=? 122)) || ((65 <=? c) && (c <=? 90)) || (c =? 95) || (c =? 36).
Fixpoint ident_loop (buf_size : Z) (q : list Z) (fuel : nat) : MP (option (list Z)) :=
  match fuel with
  | O => stop_with StopFuel
  | S f =>
      c ← peek;
      if is_ident_first c || isdigit c then
        if buf_size - 1 <=? Z.of_nat (length q) then mret None
        else _ ← next_char; ident_loop buf_size (q ++ [c]) f
      else mret (Some q)
  end.
Definition parse_ident (buf_size : Z) : MP (option (list Z)) := commit (
  c ← next_char; on_text (ident_loop buf_size [c])).

(** ** Values *)
Definition unexpected_character : JSONValue := json_error_new (str "unexpected character").
Section Parser.
Context (LONG : Z).

(** strtol(p, &p, 0) at a digit *)
Definition parse_number : MP JSONValue := fun s =>
  match strtol LONG 0 s with
  | None => Ok (json_int32_new 0) s
  | Some (v, s') => Ok (json_int32_new (i32 v)) s'
  end.
(** The name of a property; [inl] is an early return. *)
Definition parse_tag_name : MP (JSONValue + list Z) :=
  c ← peek;
  let invalid_prop := inl (json_error_new (str "Invalid property name")) in
  let named tag := match tag with [] => invalid_prop | _ => inr tag end in
  if c =? 34 then
    tag ← parse_string;
    mret (match tag with JSON_STR s => named s | _ => inl tag end)
  else if is_ident_first c then
    r ← parse_ident 128;
    mret (match r with None => invalid_prop | Some buf => named (until_nul buf) end)
  else mret invalid_prop.

(** The loops over the elements.  [parse] is the parser of the values inside; [inl] is an early
    return and [inr] the finished value. *)
Section Elements.
Context (parse : MP JSONValue).
Fixpoint object_loop (val : JSONValue) (fuel : nat) : MP (JSONValue + JSONValue) :=
  match fuel with
  | O => stop_with StopFuel
  | S f =>
      _ ← skip_spaces;
      c ← peek;
      if c =? 125 then _ ← skip_chars 1; mret (inr val)
      else
        tag ← parse_tag_name;
        match tag with
        | inl e => mret (inl e)
        | inr name =>
            _ ← skip_spaces;
            c ← peek;
            if negb (c =? 58) then mret (inl (json_error_new (str "':' expected")))
            else
              _ ← skip_chars 1;
              val1 ← parse;
              let val := snd (json_object_set val name val1) in
              _ ← skip_spaces;
              c ← peek;
              if c =? 44 then _ ← skip_chars 1; object_loop val f
              else if negb (c =? 125) then mret (inl (json_error_new (str "expecting ',' or '}'")))
              else object_loop val f
        end
  end.
Fixpoint array_loop (val : JSONValue) (idx : Z) (fuel : nat) : MP (JSONValue + JSONValue) :=
  match fuel with
  | O => stop_with StopFuel
  | S f =>
      _ ← skip_spaces;
      c ← peek;
      if c =? 93 then _ ← skip_chars 1; mret (inr val)
      else
        val1 ← parse;
        let val := snd (json_array_set val idx val1) in
        _ ← skip_spaces;
        c ← peek;
        if c =? 44 then _ ← skip_chars 1; array_loop val (idx + 1) f
        else if negb (c =? 93) then mret (inl (json_error_new (str "expecting ',' or ']'")))
        else array_loop val (idx + 1) f
  end.
End Elements.

(** A name of more than 127 characters is printed from a buffer that has no terminator. *)
Definition parse_word : MP (JSONValue + JSONValue) :=
  r ← parse_ident 128;
  match r with
  | None => stop_with StopFault
  | Some buf =>
      mret (if decide (buf = str "null") then inr json_null_new
            else if decide (buf = str "true") then inr (json_bool_new true)
            else if decide (buf = str "false") then inr (json_bool_new false)
            else inl (json_error_new (str "unknown identifier: '" ++ buf ++ str "'")))
  end.
(** An early return leaves the caller's pointer alone. *)
Definition early (m : MP (JSONValue + JSONValue)) : MP JSONValue := fun s =>
  match m s with
  | Ok (inl e) _ => Ok e s
  | Ok (inr v) s' => Ok v s'
  | Stop r => Stop r
  end.
(** The body behind the spaces; [parse] is the parser of the values inside. *)
Definition parse_body (parse : MP JSONValue) : MP (JSONValue + JSONValue) :=
  c ← peek;
  if c =? 0 then mret (inl (json_error_new (str "unexpected end of file")))
  else if isdigit c then v ← parse_number; mret (inr v)
  else if c =? 34 then v ← parse_string; mret (inr v)
  else if c =? 123 then _ ← skip_chars 1; on_text (object_loop parse json_object_new)
  else if c =? 91 then _ ← skip_chars 1; on_text (array_loop parse json_array_new 0)
  else if is_ident_first c then parse_word
  else mret (inl unexpected_character).
Fixpoint json_parse_value2 (fuel : nat) : MP JSONValue :=
  match fuel with
  | O => stop_with StopFuel
  | S f => early (_ ← skip_spaces; parse_body (json_parse_value2 f))
  end.
(** Every level of nesting reads a character. *)
Definition json_parse_value : MP JSONValue :=
  val ← on_text json_parse_value2;
  if json_is_error val then mret val
  else
    _ ← skip_spaces;
    c ← peek;
    if negb (c =? 0) then mret (json_error_new (str "unexpected characters at the end")) else mret val.
Definition json_parse_value_len {S} (p : list Z) : M S JSONValue := on_string p json_parse_value.
End Parser.
