(* ===== verification/JsonFacts.v ===== *)
(** * JSON: what is printed is parsed, and what is parsed is well typed *)
From S2P Require Export Json FsUtilsFacts.
From stdpp Require Import strings.
#[local] Open Scope Z_scope.

(** Induction over the elements of arrays and objects. *)
Lemma json_ind (P : JSONValue -> Prop) :
  (forall s, P (JSON_STR s)) -> (forall v, P (JSON_INT v)) ->
  (forall props, Forall (fun p => P (snd p)) props -> P (JSON_OBJ props)) ->
  (forall tab, Forall P tab -> P (JSON_ARRAY tab)) ->
  (forall b, P (JSON_BOOL b)) -> P JSON_NULL -> P JSON_UNDEFINED -> (forall m, P (JSON_EXCEPTION m)) -> forall v, P v.
Proof.
  intros Hs Hi Ho Ha Hb Hn Hu He. fix IH 1. intros [s|v|props|tab|b| | |m]; [apply Hs|apply Hi| | |apply Hb|exact Hn|exact Hu|apply He].
  - apply Ho. induction props as [|[n v] props IHp]; constructor; [apply IH|exact IHp].
  - apply Ha. induction tab as [|v tab IHt]; constructor; [apply IH|exact IHt].
Qed.

(** ** Blanks: spaces and comments *)
(** "*/" is not in the text. *)
Fixpoint no_close (w : list Z) : Prop :=
  match w with
  | c :: w' => match w' with d :: _ => ~ (c = 42 /\ d = 47) | [] => True end /\ no_close w'
  | [] => True
  end.
Inductive blank : list Z -> Prop :=
| blank_nil : blank []
| blank_space c b : isspace c = true -> blank b -> blank (c :: b)
| blank_line w b : Forall (fun c => c <> 0 /\ c <> 10) w -> blank b -> blank (47 :: 47 :: w ++ 10 :: b)
| blank_block w b : Forall (fun c => c <> 0) w -> no_close w -> blank b -> blank (47 :: 42 :: w ++ 42 :: 47 :: b).
(** The first character of something else. *)
Definition solid (c : Z) : Prop := isspace c = false /\ c <> 47.
Lemma skip_while_ok f w s : (forall c t, In c w -> f (c :: t) = Ok true (c :: t)) -> f s = Ok false s ->
  forall n, (length w < n)%nat -> skip_while f n (w ++ s) = Ok tt s.
Proof.
  intros Hw Hs. induction w as [|c w IH]; intros n Hn; (destruct n as [|n]; [lia|]); cbn [app skip_while].
  - by rewrite (bind_ok _ _ _ _ _ Hs).
  - rewrite (bind_ok _ _ _ _ _ (Hw c (w ++ s) (or_introl eq_refl))). cbn [length] in Hn.
    apply IH; [intros; apply Hw; by right|lia].
Qed.
Lemma skip_char c s : skip_chars 1 (c :: s) = Ok tt s.
Proof. done. Qed.
Lemma skip_two c d s : skip_chars 2 (c :: d :: s) = Ok tt s.
Proof. done. Qed.
Lemma peek1_cons c d s : peek1 (c :: d :: s) = Ok d (c :: d :: s).
Proof. done. Qed.
(** Tests of known characters *)
Ltac char_tests := cbn [Z.eqb Pos.eqb isspace Z.leb Z.compare Pos.compare Pos.compare_cont andb orb negb].
Ltac text_skip := first
  [ text_step
  | rewrite (bind_ok (skip_chars 1) _ _ _ _ (skip_char _ _))
  | rewrite (bind_ok (skip_chars 2) _ _ _ _ (skip_two _ _ _))
  | rewrite (bind_ok peek1 _ _ _ _ (peek1_cons _ _ _)) ]; cbv beta.
Lemma skip_line_comment w s : Forall (fun c => c <> 0 /\ c <> 10) w ->
  on_text (skip_while line_comment_char) (w ++ 10 :: s) = Ok tt (10 :: s).
Proof.
  intros Hw. unfold on_text. apply skip_while_ok; [|done|rewrite length_app; lia].
  intros c t Hc. pose proof (proj1 (List.Forall_forall _ _) Hw c Hc) as [H1 H2]. unfold line_comment_char. text_skip.
  by rewrite !(proj2 (Z.eqb_neq c _)) by done.
Qed.
Lemma skip_block_comment_loop w s : Forall (fun c => c <> 0) w -> no_close w -> forall n, (length w < n)%nat ->
  skip_while block_comment_char n (w ++ 42 :: 47 :: s) = Ok tt (42 :: 47 :: s).
Proof.
  intros Hw. induction Hw as [|c w Hc Hw IH]; intros Hn n Hl; (destruct n as [|n]; [cbn in Hl; lia|]); cbn [app skip_while]; [done|].
  destruct Hn as [Hcd Hn]. cbn [length] in Hl.
  assert (block_comment_char (c :: w ++ 42 :: 47 :: s) = Ok true (c :: w ++ 42 :: 47 :: s)) as Hb.
  { unfold block_comment_char. text_skip. rewrite (proj2 (Z.eqb_neq c 0)) by done.
    destruct (Z.eqb_spec c 42) as [->|]; [|done]. cbn [negb]. destruct w as [|d w]; cbn [app]; text_skip; [done|].
    by rewrite (proj2 (Z.eqb_neq d 47)) by (intros ->; by apply Hcd). }
  rewrite (bind_ok _ _ _ _ _ Hb). apply IH; [done|lia].
Qed.
Lemma skip_block_comment w s : Forall (fun c => c <> 0) w -> no_close w ->
  on_text (skip_while block_comment_char) (w ++ 42 :: 47 :: s) = Ok tt (42 :: 47 :: s).
Proof. intros Hw Hn. unfold on_text. apply skip_block_comment_loop; [done|done|]. rewrite length_app. cbn. lia. Qed.
Lemma skip_solid c s n : solid c -> skip_spaces_loop (S n) (c :: s) = Ok tt (c :: s).
Proof. intros [H1 H2]. cbn [skip_spaces_loop]. text_skip. rewrite H1. by rewrite (proj2 (Z.eqb_neq c 47)). Qed.
Lemma skip_blank_loop b c s : blank b -> solid c -> forall n, (length b < n)%nat ->
  skip_spaces_loop n (b ++ c :: s) = Ok tt (c :: s).
Proof.
  intros Hb Hc. induction Hb as [|d b Hd Hb IH|w b Hw Hb IH|w b Hw Hnc Hb IH]; intros n Hn;
    (destruct n as [|n]; [lia|]); cbn [app length] in *.
  - by apply skip_solid.
  - cbn [skip_spaces_loop]. text_skip. rewrite Hd. text_skip. apply IH. lia.
  - cbn [skip_spaces_loop]. text_skip. char_tests. text_skip. char_tests. text_skip. rewrite <- app_assoc. cbn [app]. rewrite (bind_ok _ _ _ _ _ (skip_line_comment w _ Hw)).
    rewrite length_app in Hn. cbn [length] in Hn. destruct n as [|n]; [lia|]. cbn [skip_spaces_loop]. text_skip.
    char_tests. text_skip. apply IH. lia.
  - cbn [skip_spaces_loop]. text_skip. char_tests. text_skip. char_tests. text_skip. rewrite <- app_assoc. cbn [app]. rewrite (bind_ok _ _ _ _ _ (skip_block_comment w _ Hw Hnc)).
    text_skip. cbn [Z.eqb Pos.eqb]. text_skip. apply IH. rewrite length_app in Hn. cbn [length] in Hn. lia.
Qed.
Lemma skip_blank b c s : blank b -> solid c -> skip_spaces (b ++ c :: s) = Ok tt (c :: s).
Proof. intros. unfold skip_spaces, on_text. apply skip_blank_loop; try done. rewrite length_app. lia. Qed.

(** ** A printer *)
Definition lit_char (c : Z) : list Z := if (c =? 34) || (c =? 92) then [92; c] else if c =? 10 then str "\n" else [c].
Definition lit (s : list Z) : list Z := [34] ++ concat (map lit_char s) ++ [34].
Fixpoint join (sep : list Z) (l : list (list Z)) : list Z :=
  match l with
  | [] => []
  | [x] => x
  | x :: l' => x ++ sep ++ join sep l'
  end.
(** [sp] is written between the elements. *)
Fixpoint print (sp : list Z) (v : JSONValue) : list Z :=
  match v with
  | JSON_STR s => lit s
  | JSON_INT n => dec_digits 10 n []
  | JSON_OBJ props =>
      [123] ++ sp ++ join (sp ++ [44] ++ sp) (map (fun '(n, w) => lit n ++ sp ++ [58] ++ sp ++ print sp w) props) ++ sp ++ [125]
  | JSON_ARRAY tab => [91] ++ sp ++ join (sp ++ [44] ++ sp) (map (print sp) tab) ++ sp ++ [93]
  | JSON_BOOL b => if b then str "true" else str "false"
  | _ => str "null"
  end.
Definition plain_string (s : list Z) : Prop := nonul s /\ (length s <= 4095)%nat.
(** The values that have a text. *)
Inductive plain : JSONValue -> Prop :=
| plain_str s : plain_string s -> plain (JSON_STR s)
| plain_int n : 0 <= n < 2 ^ 31 -> plain (JSON_INT n)
| plain_obj props : Forall (fun p => plain_string (fst p) /\ fst p <> [] /\ plain (snd p)) props ->
    NoDup (map fst props) -> plain (JSON_OBJ props)
| plain_array tab : Forall plain tab -> plain (JSON_ARRAY tab)
| plain_bool b : plain (JSON_BOOL b)
| plain_null : plain JSON_NULL.

(** ** Strings *)
Lemma until_nul_id s : nonul s -> until_nul s = s.
Proof. induction 1 as [|c s H _ IH]; cbn [until_nul]; [done|]. rewrite (proj2 (Z.eqb_neq c 0)) by done. by rewrite IH. Qed.
Lemma string_loop_lit_char q f c rest : c <> 0 -> (length q < 4095)%nat ->
  string_loop q (S f) (lit_char c ++ rest) = string_loop (q ++ [c]) f rest.
Proof.
  intros H0 Hq. unfold lit_char. destruct ((c =? 34) || (c =? 92)) eqn:E1.
  - cbn [app string_loop]. text_skip. char_tests.
    assert (parse_escape (c :: rest) = Ok (EscChar c) rest) as E.
    { apply orb_true_iff in E1 as [->%Z.eqb_eq| ->%Z.eqb_eq]; done. }
    rewrite (bind_ok _ _ _ _ _ E). by rewrite (proj2 (Z.leb_gt _ _)) by lia.
  - apply orb_false_iff in E1 as [E1 E2]. destruct (Z.eqb_spec c 10) as [->|E3].
    + change (str "\n") with [92; 110]. cbn [app string_loop]. text_skip. char_tests.
      assert (parse_escape (110 :: rest) = Ok (EscChar 10) rest) as E by done.
      rewrite (bind_ok _ _ _ _ _ E). by rewrite (proj2 (Z.leb_gt _ _)) by lia.
    + cbn [app string_loop]. text_skip. rewrite !(proj2 (Z.eqb_neq c 0)), (proj2 (Z.eqb_neq c 10)) by done. cbn [orb].
      rewrite E1, E2. by rewrite (proj2 (Z.leb_gt _ _)) by lia.
Qed.
Lemma lit_char_length c : (1 <= length (lit_char c))%nat.
Proof. unfold lit_char. repeat case_if; cbn; lia. Qed.
Lemma string_loop_lit s rest : nonul s -> forall q f, (length s < f)%nat -> (length q + length s <= 4095)%nat ->
  string_loop q f (concat (map lit_char s) ++ 34 :: rest) = Ok (inr (q ++ s)) rest.
Proof.
  intros Hn. induction s as [|c s IH]; intros q f Hf Hs; (destruct f as [|f]; [cbn in Hf; lia|]).
  { cbn [map concat app string_loop]. text_skip. char_tests. by rewrite app_nil_r. }
  apply Forall_cons_1 in Hn as [H0 Hn]. cbn [map concat length] in *. rewrite <- app_assoc.
  rewrite string_loop_lit_char by (done || lia). rewrite IH by (rewrite ?length_app; cbn [length]; done || lia).
  by rewrite <- app_assoc.
Qed.
Lemma concat_length {A} (f : Z -> list A) s : (forall c, (1 <= length (f c))%nat) -> (length s <= length (concat (map f s)))%nat.
Proof. intros H. induction s as [|c s IH]; cbn [map concat length]; [lia|]. rewrite length_app. pose proof (H c). lia. Qed.
Lemma parse_lit s rest : plain_string s -> parse_string (lit s ++ rest) = Ok (JSON_STR s) rest.
Proof.
  intros [Hn Hl]. unfold parse_string, lit. rewrite <- !app_assoc. cbn [app]. text_skip. unfold on_text.
  rewrite string_loop_lit; [unfold json_string_new; cbn [app]; by rewrite until_nul_id|done| |cbn; lia].
  rewrite length_app. pose proof (concat_length lit_char s lit_char_length). lia.
Qed.
Lemma lit_head s rest : exists t, lit s ++ rest = 34 :: t.
Proof. by eexists. Qed.

(** ** Numbers and words *)
Definition ends_value (rest : list Z) : Prop :=
  match rest with c :: _ => is_ident_first c = false /\ isdigit c = false | [] => False end.
Lemma ends_digits rest base acc : base <= 36 -> ends_value rest -> digits base rest acc = (acc, rest).
Proof.
  intros Hb. destruct rest as [|c rest]; [done|]. intros [H1 H2]. cbn [digits]. unfold digit_val. rewrite H2.
  unfold is_ident_first in H1. apply orb_false_iff in H1 as [[[-> ->]%orb_false_iff _]%orb_false_iff _].
  by rewrite (proj2 (Z.ltb_ge _ _)) by lia.
Qed.
Lemma digit_char d : 0 <= d < 10 -> isdigit (48 + d) = true /\ digit_val (48 + d) = d.
Proof. intros H. unfold digit_val, isdigit. rewrite !(proj2 (Z.leb_le _ _)) by lia. cbn [andb]. split; [done|lia]. Qed.
Lemma dec_digits_spec f n acc rest : 0 <= n < 10 ^ Z.of_nat f -> (0 < f)%nat ->
  exists k, forall a, 0 <= k /\ digits 10 (dec_digits f n acc ++ rest) a = digits 10 (acc ++ rest) (a * 10 ^ k + n).
Proof.
  revert n acc. induction f as [|f IH]; intros n acc Hn Hf; [lia|]. cbn [dec_digits].
  pose proof (Z.mod_pos_bound n 10 ltac:(lia)) as Hm. destruct (digit_char (n mod 10) Hm) as [_ Hd].
  assert (forall l a, digits 10 ((48 + n mod 10) :: l) a = digits 10 l (a * 10 + n mod 10)) as Hs.
  { intros l a. cbn [digits]. rewrite Hd. by rewrite (proj2 (Z.ltb_lt _ _)) by lia. }
  destruct (Z.eqb_spec (n / 10) 0) as [E|E].
  - exists 1. intros a. split; [lia|]. cbn [app]. rewrite Hs. f_equal. Z.div_mod_to_equations. lia.
  - assert (0 <= n / 10 < 10 ^ Z.of_nat f) as Hn'.
    { rewrite Nat2Z.inj_succ, Z.pow_succ_r in Hn by lia. Z.div_mod_to_equations. lia. }
    destruct f as [|f']; [cbn in Hn'; Z.div_mod_to_equations; lia|].
    destruct (IH (n / 10) ((48 + n mod 10) :: acc) Hn' ltac:(lia)) as [k Hk]. exists (k + 1). intros a. destruct (Hk a) as [H1 H2].
    split; [lia|]. rewrite H2. cbn [app]. rewrite Hs. f_equal. rewrite Z.pow_add_r by lia. Z.div_mod_to_equations. lia.
Qed.
Lemma dec_digits_head f n acc : 0 <= n -> (0 < f)%nat -> n < 10 ^ Z.of_nat f ->
  exists d l, dec_digits f n acc = (48 + d) :: l /\ 0 <= d < 10 /\ (n <> 0 -> d <> 0) /\ (n = 0 -> l = acc).
Proof.
  revert n acc. induction f as [|f IH]; intros n acc H0 Hf Hn; [lia|]. cbn [dec_digits].
  pose proof (Z.mod_pos_bound n 10 ltac:(lia)) as Hm.
  destruct (Z.eqb_spec (n / 10) 0) as [E|E].
  - exists (n mod 10), acc. split; [done|]. split; [done|]. split; [|done]. Z.div_mod_to_equations. lia.
  - rewrite Nat2Z.inj_succ, Z.pow_succ_r in Hn by lia.
    destruct f as [|f']; [cbn in Hn; Z.div_mod_to_equations; lia|].
    destruct (IH (n / 10) ((48 + n mod 10) :: acc)) as (d & l & E1 & H1 & H2 & H3); [Z.div_mod_to_equations; lia|lia|Z.div_mod_to_equations; lia|].
    exists d, l. split; [done|]. split; [done|]. split; [auto|]. intros ->. done.
Qed.
Lemma decimal_base d l rest : 0 <= d < 10 -> (d = 0 -> l = []) -> ends_value rest ->
  exists b, int_base 0 ((48 + d) :: l ++ rest) = (b, (48 + d) :: l ++ rest) /\ (d <> 0 -> b = 10) /\ d < b /\ b <= 36.
Proof.
  intros Hd Hl Hr. destruct (Z.eq_dec d 0) as [->|Hz].
  - rewrite Hl by done. cbn [app Z.add]. destruct rest as [|c rest]; [done|]. destruct Hr as [Hr _]. exists 8.
    assert ((c =? 120) || (c =? 88) = false) as Hx.
    { unfold is_ident_first in Hr. revert Hr. zcases. }
    destruct rest as [|e rest]; cbn [int_base]; [done|]. rewrite Hx, andb_false_r. done.
  - exists 10. split; [|lia].
    assert (d = 1 \/ d = 2 \/ d = 3 \/ d = 4 \/ d = 5 \/ d = 6 \/ d = 7 \/ d = 8 \/ d = 9) as H by lia.
    by destruct H as [->|[->|[->|[->|[->|[->|[->|[->| ->]]]]]]]].
Qed.

Section RoundTrip.
Context (LONG : Z) (LONG_ok : 32 <= LONG) (sp : list Z) (Hsp : blank sp).

Lemma strtol_decimal n rest : 0 <= n < 2 ^ 31 -> ends_value rest -> strtol LONG 0 (dec_digits 10 n [] ++ rest) = Some (n, rest).
Proof.
  intros Hn Hr. destruct (dec_digits_head 10 n []) as (d & l & E & Hd & Hz & Hl); [lia|lia|cbn; lia|].
  assert (d = 0 -> l = []) as Hl' by (intros ->; apply Hl; lia).
  destruct (decimal_base d l rest Hd Hl' Hr) as (b & Eb & Hb & Hdb & Hb36). destruct (digit_char d Hd) as [Dd Dv].
  assert (digits b ((48 + d) :: l ++ rest) 0 = (n, rest)) as Ed.
  { destruct (Z.eq_dec d 0) as [E0|E0].
    - rewrite Hl' by done. assert (n = 0) as -> by lia. cbn [app digits]. rewrite Dv, E0, (proj2 (Z.ltb_lt 0 b)) by lia. by apply ends_digits.
    - rewrite Hb by done. rewrite app_comm_cons, <- E. destruct (dec_digits_spec 10 n [] rest) as [k Hk]; [cbn; lia|lia|].
      destruct (Hk 0) as [_ ->]. cbn [app]. rewrite Z.mul_0_l, Z.add_0_l. by apply ends_digits. }
  unfold strtol, int_prefix. rewrite E. cbn [app skip_ws].
  assert (isspace (48 + d) = false) as -> by (unfold isspace; zcases; cbn; lia).
  rewrite unsigned by lia. rewrite Eb, Dv, (proj2 (Z.ltb_lt d b)), Ed by lia. cbn [mbind option_bind].
  assert (2 ^ 31 <= 2 ^ (LONG - 1)) by (apply Z.pow_le_mono_r; lia). by rewrite Z.min_l by lia.
Qed.
Lemma parse_decimal n rest : 0 <= n < 2 ^ 31 -> ends_value rest ->
  parse_number LONG (dec_digits 10 n [] ++ rest) = Ok (JSON_INT n) rest.
Proof.
  intros. unfold parse_number. rewrite strtol_decimal by done. unfold json_int32_new. rewrite swrap_id; [done|lia|].
  change (2 ^ (32 - 1)) with (2 ^ 31). lia.
Qed.
Definition ident_char (c : Z) : bool := is_ident_first c || isdigit c.
Lemma ident_loop_word w rest : forallb ident_char w = true -> ends_value rest -> forall q f, (length w < f)%nat ->
  Z.of_nat (length q + length w) <= 127 -> ident_loop 128 q f (w ++ rest) = Ok (Some (q ++ w)) rest.
Proof.
  intros Hw Hr. induction w as [|c w IH]; intros q f Hf Hl; (destruct f as [|f]; [lia|]); cbn [app ident_loop length] in *.
  - destruct rest as [|c rest]; [done|]. destruct Hr as [H1 H2]. text_skip. rewrite H1, H2. by rewrite app_nil_r.
  - cbn [forallb] in Hw. apply andb_true_iff in Hw as [Hc Hw]. text_skip. unfold ident_char in Hc. rewrite Hc.
    rewrite (proj2 (Z.leb_gt _ _)) by lia. text_skip. rewrite IH by (rewrite ?length_app; cbn [length]; done || lia).
    by rewrite <- app_assoc.
Qed.
Lemma parse_ident_word c w rest : forallb ident_char w = true -> ends_value rest -> Z.of_nat (length w) <= 126 ->
  parse_ident 128 ((c :: w) ++ rest) = Ok (Some (c :: w)) rest.
Proof.
  intros Hw Hr Hl. unfold parse_ident, commit. cbn [app]. text_skip. unfold on_text.
  by rewrite ident_loop_word by (done || (rewrite ?length_app; cbn [length]; lia)).
Qed.
Lemma parse_true rest : ends_value rest -> parse_word (str "true" ++ rest) = Ok (inr (JSON_BOOL true)) rest.
Proof. intros. unfold parse_word. by rewrite (bind_ok _ _ _ _ _ (parse_ident_word 116 [114; 117; 101] rest eq_refl H ltac:(by vm_compute))). Qed.
Lemma parse_false rest : ends_value rest -> parse_word (str "false" ++ rest) = Ok (inr (JSON_BOOL false)) rest.
Proof. intros. unfold parse_word. by rewrite (bind_ok _ _ _ _ _ (parse_ident_word 102 [97; 108; 115; 101] rest eq_refl H ltac:(by vm_compute))). Qed.
Lemma parse_null rest : ends_value rest -> parse_word (str "null" ++ rest) = Ok (inr JSON_NULL) rest.
Proof. intros. unfold parse_word. by rewrite (bind_ok _ _ _ _ _ (parse_ident_word 110 [117; 108; 108] rest eq_refl H ltac:(by vm_compute))). Qed.

(** ** Sequences of elements *)
Lemma ends_blank b c rest : blank b -> ends_value (c :: rest) -> ends_value (b ++ c :: rest).
Proof.
  intros Hb Hc. destruct Hb as [|d b Hd _|w b _ _|w b _ _ _]; [done| |done|done]. cbn [app ends_value].
  unfold isspace, is_ident_first, isdigit in *. revert Hd. zcases.
Qed.
Lemma blank_app a b : blank a -> blank b -> blank (a ++ b).
Proof.
  intros Ha Hb. induction Ha as [|c a Hc Ha IH|w a Hw Ha IH|w a Hw Hnc Ha IH]; cbn [app]; [done|by constructor|..];
    rewrite <- app_assoc; cbn [app]; by constructor.
Qed.
(** The first character of a value. *)
Definition value_start (c : Z) : Prop := solid c /\ c <> 93 /\ c <> 125 /\ c <> 44.
Lemma print_head v : plain v -> exists c t, print sp v = c :: t /\ value_start c.
Proof.
  intros []; cbn [print]; try (by eexists _, _; split; [reflexivity|]).
  - destruct (dec_digits_head 10 n []) as (d & l & E & Hd & _); [lia|lia|cbn; lia|]. rewrite E. eexists _, _. split; [done|].
    unfold value_start, solid, isspace. split; [|lia]. split; [zcases; cbn; lia|lia].
  - destruct b; by eexists _, _; split.
Qed.
Lemma join_cons s (x : list Z) l : join s (x :: l) = x ++ match l with [] => [] | _ => s ++ join s l end.
Proof. destruct l; cbn [join]; [by rewrite app_nil_r|done]. Qed.
Lemma join_length s (l : list (list Z)) x : In x l -> (length x <= length (join s l))%nat.
Proof.
  induction l as [|y l IH]; [done|]. intros [->|H]; rewrite join_cons, length_app; [lia|]. specialize (IH H).
  destruct l; [done|]. rewrite length_app. lia.
Qed.
Lemma join_count s (l : list (list Z)) : Forall (fun x => x <> []) l -> (length l <= length (join s l))%nat.
Proof.
  induction 1 as [|x l Hx _ IH]; [cbn; lia|]. rewrite join_cons, length_app. destruct x; [done|]. cbn [length].
  destruct l; [cbn; lia|]. rewrite length_app. lia.
Qed.

Definition sep : list Z := sp ++ [44] ++ sp.
(** [parse] reads the text of [v]. *)
Definition reads (parse : MP JSONValue) (v : JSONValue) : Prop :=
  forall b rest, blank b -> ends_value rest -> parse (b ++ print sp v ++ rest) = Ok v rest.
Lemma reads_here parse v rest : reads parse v -> ends_value rest -> parse (print sp v ++ rest) = Ok v rest.
Proof. intros H. by apply (H []), blank_nil. Qed.
(** What stands behind an element: a separator and more elements, or the closing bracket [e]. *)
Definition tail (e : Z) (l : list (list Z)) (rest : list Z) : list Z :=
  match l with [] => [] | _ => sep ++ join sep l end ++ sp ++ e :: rest.
Lemma ends_close e rest : e = 93 \/ e = 125 -> ends_value (e :: rest).
Proof. by intros [->| ->]. Qed.
Lemma ends_tail e l rest : e = 93 \/ e = 125 -> ends_value (tail e l rest).
Proof.
  intros He. unfold tail. destruct l as [|x l]; cbn [app]; [by apply ends_blank, ends_close|].
  unfold sep at 1. rewrite <- !app_assoc. by apply ends_blank.
Qed.
Lemma skip_tail e l rest : e = 93 \/ e = 125 -> skip_spaces (tail e l rest) =
  Ok tt (match l with [] => e :: rest | _ => 44 :: sp ++ join sep l ++ sp ++ e :: rest end).
Proof.
  intros He. unfold tail. destruct l as [|x l]; cbn [app].
  - apply skip_blank; [done|]. by destruct He as [->| ->].
  - unfold sep at 1. rewrite <- !app_assoc. cbn [app]. by rewrite skip_blank.
Qed.
Lemma join_tail e x l rest : join sep (x :: l) ++ sp ++ e :: rest = x ++ tail e l rest.
Proof. rewrite join_cons, <- app_assoc. done. Qed.
Lemma skip_self c s : solid c -> skip_spaces (c :: s) = Ok tt (c :: s).
Proof. by apply (skip_blank []), blank_nil. Qed.

Lemma array_loop_end parse val idx f rest : array_loop parse val idx (S f) (93 :: rest) = Ok (inr val) rest.
Proof. cbn [array_loop]. rewrite (bind_ok _ _ _ _ _ (skip_self 93 rest ltac:(by split))). text_skip. char_tests. by text_skip. Qed.
Lemma array_loop_ok parse tab rest : Forall plain tab -> Forall (reads parse) tab -> forall acc f b, blank b -> (S (length tab) < f)%nat ->
  array_loop parse (JSON_ARRAY acc) (Z.of_nat (length acc)) f (b ++ join sep (map (print sp) tab) ++ sp ++ 93 :: rest) =
  Ok (inr (JSON_ARRAY (acc ++ tab))) rest.
Proof.
  intros Hp Hr. induction tab as [|v tab IH]; intros acc f b Hb Hf; (destruct f as [|f]; [lia|]).
  - cbn [map join app array_loop]. rewrite app_assoc.
    rewrite (bind_ok _ _ _ _ _ (skip_blank (b ++ sp) 93 rest ltac:(by apply blank_app) ltac:(by split))).
    text_skip. char_tests. text_skip. by rewrite app_nil_r.
  - apply Forall_cons_1 in Hp as [Hpv Hp], Hr as [Hrv Hr]. cbn [map]. rewrite join_tail.
    destruct (print_head v Hpv) as (c & t & E & (Hc & H93 & _)). cbn [array_loop].
    rewrite E at 1. cbn [app]. rewrite (bind_ok _ _ _ _ _ (skip_blank b c _ Hb Hc)). text_skip.
    rewrite (proj2 (Z.eqb_neq c 93)) by done. rewrite app_comm_cons, <- E.
    rewrite (bind_ok _ _ _ _ _ (reads_here _ _ _ Hrv (ends_tail 93 _ rest (or_introl eq_refl)))).
    rewrite (bind_ok _ _ _ _ _ (skip_tail 93 _ rest (or_introl eq_refl))).
    assert (snd (json_array_set (JSON_ARRAY acc) (Z.of_nat (length acc)) v) = JSON_ARRAY (acc ++ [v])) as ->.
    { cbn [json_array_set]. by rewrite Z.ltb_irrefl, Z.eqb_refl. }
    replace (acc ++ v :: tab) with ((acc ++ [v]) ++ tab) by (by rewrite <- app_assoc).
    replace (Z.of_nat (length acc) + 1) with (Z.of_nat (length (acc ++ [v]))) by (rewrite length_app; cbn [length]; lia).
    cbn [length] in Hf. destruct tab as [|v' tab]; cbn [map].
    + text_skip. char_tests. destruct f as [|f]; [lia|]. rewrite array_loop_end. by rewrite app_nil_r.
    + text_skip. char_tests. text_skip. apply IH; [done..|]. lia.
Qed.

(** ** Objects *)
Definition print_prop (p : list Z * JSONValue) : list Z := lit (fst p) ++ sp ++ [58] ++ sp ++ print sp (snd p).
Lemma print_obj props : print sp (JSON_OBJ props) = [123] ++ sp ++ join sep (map print_prop props) ++ sp ++ [125].
Proof. cbn [print]. do 3 f_equal. f_equal. apply map_ext. by intros []. Qed.
Lemma set_prop_new props n v : ~ In n (map fst props) -> set_prop props n v = props ++ [(n, v)].
Proof.
  induction props as [|[m w] props IH]; cbn [map set_prop In app fst]; [done|]. intros H.
  rewrite decide_False by (intros ->; apply H; by left). rewrite IH; [done|]. intros ?. apply H. by right.
Qed.
Lemma object_loop_end parse val f rest : object_loop parse val (S f) (125 :: rest) = Ok (inr val) rest.
Proof. cbn [object_loop]. rewrite (bind_ok _ _ _ _ _ (skip_self 125 rest ltac:(by split))). text_skip. char_tests. by text_skip. Qed.
Lemma parse_tag_lit n rest : plain_string n -> n <> [] -> parse_tag_name (lit n ++ rest) = Ok (inr n) rest.
Proof.
  intros Hn Hz. unfold parse_tag_name. destruct (lit_head n rest) as [t E]. rewrite E at 1. text_skip. char_tests. rewrite <- E.
  rewrite (bind_ok _ _ _ _ _ (parse_lit n rest Hn)). by destruct n.
Qed.
Definition plain_prop (p : list Z * JSONValue) : Prop := plain_string (fst p) /\ fst p <> [] /\ plain (snd p).
Lemma object_loop_ok parse props rest : Forall plain_prop props -> Forall (fun p => reads parse (snd p)) props ->
  forall acc f b, blank b -> (S (length props) < f)%nat -> NoDup (map fst (acc ++ props)) ->
  object_loop parse (JSON_OBJ acc) f (b ++ join sep (map print_prop props) ++ sp ++ 125 :: rest) =
  Ok (inr (JSON_OBJ (acc ++ props))) rest.
Proof.
  intros Hp Hr. induction props as [|[n v] props IH]; intros acc f b Hb Hf Hnd; (destruct f as [|f]; [lia|]).
  - cbn [map join app object_loop]. rewrite app_assoc.
    rewrite (bind_ok _ _ _ _ _ (skip_blank (b ++ sp) 125 rest ltac:(by apply blank_app) ltac:(by split))).
    text_skip. char_tests. text_skip. by rewrite app_nil_r.
  - apply Forall_cons_1 in Hp as [(Hn & Hz & Hpv) Hp], Hr as [Hrv Hr]. cbn [fst snd] in *. cbn [map]. rewrite join_tail.
    unfold print_prop at 1. cbn [fst snd]. rewrite <- !app_assoc. destruct (lit_head n (sp ++ [58] ++ sp ++ print sp v ++ tail 125 (map print_prop props) rest)) as [t E].
    cbn [object_loop]. rewrite E. rewrite (bind_ok _ _ _ _ _ (skip_blank b 34 _ Hb ltac:(by split))). text_skip. char_tests. rewrite <- E.
    rewrite (bind_ok _ _ _ _ _ (parse_tag_lit n _ Hn Hz)). cbn [app].
    rewrite (bind_ok _ _ _ _ _ (skip_blank sp 58 _ Hsp ltac:(by split))). text_skip. char_tests. cbn [negb]. text_skip.
    rewrite (bind_ok _ _ _ _ _ (Hrv sp _ Hsp (ends_tail 125 _ rest (or_intror eq_refl)))).
    rewrite (bind_ok _ _ _ _ _ (skip_tail 125 _ rest (or_intror eq_refl))).
    rewrite map_app in Hnd. cbn [map fst] in Hnd. pose proof (NoDup_app (map fst acc) (n :: map fst props)) as Hna.
    pose proof Hnd as Hnd0. apply Hna in Hnd as (_ & Hdis & Hnd). cbn [json_object_set snd]. rewrite until_nul_id by apply Hn.
    rewrite set_prop_new by (intros Hi; apply (Hdis n); [by apply list_elem_of_In|by left]).
    replace (acc ++ (n, v) :: props) with ((acc ++ [(n, v)]) ++ props) by (by rewrite <- app_assoc).
    assert (NoDup (map fst ((acc ++ [(n, v)]) ++ props))) as Hnd'.
    { rewrite <- app_assoc, map_app. exact Hnd0. }
    cbn [length] in Hf. destruct props as [|p' props]; cbn [map].
    + text_skip. char_tests. destruct f as [|f]; [lia|]. rewrite object_loop_end. by rewrite app_nil_r.
    + text_skip. char_tests. text_skip. apply IH; [done..| |done]. lia.
Qed.

(** ** Values *)
Lemma early_ok (m : MP (JSONValue + JSONValue)) s v s' : m s = Ok (inr v) s' -> early m s = Ok v s'.
Proof. intros H. unfold early. by rewrite H. Qed.
Lemma reads_value v f : plain v ->
  (forall rest, ends_value rest -> parse_body LONG (json_parse_value2 LONG f) (print sp v ++ rest) = Ok (inr v) rest) ->
  reads (json_parse_value2 LONG (S f)) v.
Proof.
  intros Hp H b rest Hb Hr. specialize (H rest Hr). destruct (print_head v Hp) as (c & t & E & (Hc & _)).
  cbn [json_parse_value2]. apply early_ok. rewrite E in *. cbn [app] in *. by rewrite (bind_ok _ _ _ _ _ (skip_blank b c _ Hb Hc)).
Qed.
Lemma body_word w v rest : hd_error w <> None -> forallb is_ident_first (take 1 w) = true ->
  parse_word (w ++ rest) = Ok (inr v) rest -> forall parse, parse_body LONG parse (w ++ rest) = Ok (inr v) rest.
Proof.
  intros Hw Hi H parse. destruct w as [|c w]; [done|]. cbn [take forallb] in Hi. rewrite andb_true_r in Hi.
  unfold parse_body. cbn [app] in *. text_skip. rewrite Hi.
  assert (isdigit c = false /\ c <> 0 /\ c <> 34 /\ c <> 123 /\ c <> 91) as (-> & H1 & H2 & H3 & H4).
  { unfold is_ident_first, isdigit in *. revert Hi. zcases. }
  rewrite (proj2 (Z.eqb_neq c 0)), (proj2 (Z.eqb_neq c 34)), (proj2 (Z.eqb_neq c 123)), (proj2 (Z.eqb_neq c 91)) by done. exact H.
Qed.
Lemma print_nonempty v : plain v -> print sp v <> [].
Proof. intros H. destruct (print_head v H) as (c & t & -> & _). done. Qed.
Lemma reads_props props f : Forall (fun p => plain (snd p) -> forall f, (length (print sp (snd p)) < f)%nat -> reads (json_parse_value2 LONG f) (snd p)) props ->
  Forall plain_prop props -> (length (join sep (map print_prop props)) < f)%nat -> Forall (fun p => reads (json_parse_value2 LONG f) (snd p)) props.
Proof.
  intros IH Hp Hf. apply List.Forall_forall. intros p Hi. rewrite List.Forall_forall in IH, Hp. apply IH; [done|by apply Hp|].
  pose proof (join_length sep _ _ (in_map print_prop _ _ Hi)) as L. unfold print_prop in L at 1. rewrite !length_app in L. lia.
Qed.
Lemma reads_elements tab f : Forall (fun v => plain v -> forall f, (length (print sp v) < f)%nat -> reads (json_parse_value2 LONG f) v) tab ->
  Forall plain tab -> (length (join sep (map (print sp) tab)) < f)%nat -> Forall (reads (json_parse_value2 LONG f)) tab.
Proof.
  intros IH Hp Hf. apply List.Forall_forall. intros v Hi. rewrite List.Forall_forall in IH, Hp. apply IH; [done|by apply Hp|].
  pose proof (join_length sep _ _ (in_map (print sp) _ _ Hi)). lia.
Qed.
Lemma count_props props : Forall plain_prop props -> (length props <= length (join sep (map print_prop props)))%nat.
Proof. intros H. rewrite <- (length_map print_prop props). apply join_count. apply List.Forall_map, List.Forall_forall. by intros p _. Qed.
Lemma count_elements tab : Forall plain tab -> (length tab <= length (join sep (map (print sp) tab)))%nat.
Proof.
  intros H. rewrite <- (length_map (print sp) tab). apply join_count, List.Forall_map. eapply List.Forall_impl; [|exact H]. apply print_nonempty.
Qed.
Lemma parse_print v : plain v -> forall f, (length (print sp v) < f)%nat -> reads (json_parse_value2 LONG f) v.
Proof.
  induction v as [s|n|props IH|tab IH|bo| | |m] using json_ind; intros Hp f Hf; (destruct f as [|f]; [lia|]);
    apply (reads_value _ _ Hp); intros rest Hr; inversion Hp as [? Hs|? Hn|? Hps Hnd|? Hts| |]; subst.
  - cbn [print]. destruct (lit_head s rest) as [t E]. unfold parse_body. rewrite E at 1. text_skip. char_tests.
    change (isdigit 34) with false. cbv iota. rewrite <- E. by rewrite (bind_ok _ _ _ _ _ (parse_lit s rest Hs)).
  - cbn [print] in *. destruct (dec_digits_head 10 n []) as (d & l & E & Hd & _); [lia|lia|cbn; lia|].
    unfold parse_body. rewrite E at 1. cbn [app]. text_skip. destruct (digit_char d Hd) as [-> _].
    rewrite (proj2 (Z.eqb_neq (48 + d) 0)) by lia. rewrite app_comm_cons, <- E. by rewrite (bind_ok _ _ _ _ _ (parse_decimal n rest Hn Hr)).
  - rewrite print_obj in *. unfold parse_body. rewrite <- !app_assoc. cbn [app]. text_skip. change (isdigit 123) with false. char_tests. text_skip.
    unfold on_text. apply (object_loop_ok (json_parse_value2 LONG f) props rest); try done.
    + apply reads_props; [done..|]. rewrite !length_app in Hf. cbn [length] in Hf. lia.
    + pose proof (count_props props Hps). rewrite !length_app. cbn [length]. lia.
  - cbn [print] in *. unfold parse_body. rewrite <- !app_assoc. cbn [app]. text_skip. change (isdigit 91) with false. char_tests. text_skip.
    unfold on_text. apply (array_loop_ok (json_parse_value2 LONG f) tab rest); try done.
    + apply reads_elements; [done..|]. fold sep in Hf. rewrite !length_app in Hf. cbn [length] in Hf. lia.
    + pose proof (count_elements tab Hts). change (sp ++ 44 :: sp) with sep. rewrite !length_app. cbn [length]. lia.
  - cbn [print]. destruct bo; apply body_word; try done; [by apply parse_true|by apply parse_false].
  - cbn [print]. apply body_word; try done. by apply parse_null.
Qed.
End RoundTrip.

Lemma json_print_parse {S} LONG sp before after v (s : S) :
  32 <= LONG -> blank sp -> blank before -> blank after -> plain v ->
  json_parse_value_len LONG (before ++ print sp v ++ after) s = Ok v s.
Proof.
  intros HL Hsp Hb Ha Hv. unfold json_parse_value_len, on_string, json_parse_value.
  assert (ends_value (after ++ [0])) as Hr by (by apply ends_blank).
  assert (on_text (json_parse_value2 LONG) (c_string (before ++ print sp v ++ after)) = Ok v (after ++ [0])) as E.
  { unfold on_text, c_string. rewrite <- !app_assoc. apply (parse_print LONG HL sp Hsp v Hv); try done. rewrite !length_app. lia. }
  rewrite (bind_ok _ _ _ _ _ E). assert (json_is_error v = false) as -> by (by destruct Hv).
  rewrite (bind_ok _ _ _ _ _ (skip_blank after 0 [] Ha ltac:(by split))). by text_skip.
Qed.
(** C32: the parser reads what the printer writes.  Every value made of objects with distinct,
    nonempty names of at most 4095 bytes, arrays, strings of at most 4095 bytes, integers from 0 to 2^31-1, booleans and
    null, printed with a text of spaces, line comments and block comments (of any bytes without "*/") between its elements, and with
    two more such texts before and behind it, is parsed back to itself.  (The parser refuses negative numbers and empty names.) *)
Theorem json_roundtrip {S} LONG sp before after v (s : S) :
  32 <= LONG -> blank sp -> blank before -> blank after -> plain v ->
  json_parse_value_len LONG (before ++ print sp v ++ after) s = Ok v s.
Proof. apply json_print_parse. Qed.
Definition example_json : JSONValue := JSON_OBJ [(str "a", JSON_INT 12); (str "b", JSON_ARRAY [JSON_BOOL true; JSON_STR [34]])].
Lemma example_json_plain : plain example_json.
Proof.
  assert (plain_string [34] /\ plain_string (str "a") /\ plain_string (str "b")) as (Hq & Ha & Hb).
  { split_and!; (split; [by repeat constructor|cbn; lia]). }
  apply plain_obj.
  - constructor; [split; [exact Ha|split; [done|by constructor]]|]. constructor; [|constructor]. split; [exact Hb|]. split; [done|].
    constructor. constructor; [constructor|]. constructor; [by constructor|constructor].
  - apply (bool_decide_unpack _). by vm_compute.
Qed.
Lemma json_roundtrip_witness :
  json_parse_value_len 32 (str "/** c*d **/" ++ print [32] example_json ++ [10]) tt = Ok example_json tt.
Proof.
  apply json_roundtrip; [done|by repeat constructor| |by repeat constructor|exact example_json_plain].
  apply (blank_block (str "* c*d *") []); [by repeat constructor| |constructor]. repeat (split; [by intros []|]). done.
Defined.
