(* ===== verification/JsonInv.v ===== *)
(** * JSON: the parser ends, stays inside the text, and gives well-typed values *)
From S2P Require Export JsonFacts.
From stdpp Require Import strings.
#[local] Open Scope Z_scope.

(** A run of characters that does not fit the buffer of a name. *)
Definition long_word (t : list Z) : Prop :=
  exists a w b, t = a ++ w ++ b /\ (128 <= length w)%nat /\ Forall (fun c => ident_char c = true) w.
Definition name_string (s : list Z) : Prop := plain_string s /\ bytes s.
(** What the parser can return: an element that is missing in front of a comma is kept as the
    error value of an unexpected character. *)
Inductive typed : JSONValue -> Prop :=
| typed_str s : name_string s -> typed (JSON_STR s)
| typed_int n : - 2 ^ 31 <= n < 2 ^ 31 -> typed (JSON_INT n)
| typed_obj props : Forall (fun p => (name_string (fst p) /\ fst p <> []) /\ (typed (snd p) \/ snd p = unexpected_character)) props ->
    NoDup (map fst props) -> typed (JSON_OBJ props)
| typed_array tab : Forall (fun v => typed v \/ v = unexpected_character) tab -> typed (JSON_ARRAY tab)
| typed_bool b : typed (JSON_BOOL b)
| typed_null : typed JSON_NULL.

Section Text.
(** The text, with its terminator. *)
Context (T : list Z).
Record inside (s : list Z) : Prop := {
  in_suffix : exists a, T = a ++ s;
  in_end : exists w, s = w ++ [0];
  in_bytes : bytes s;
}.
Definition allowed (r : stop) : Prop := r = StopFault /\ long_word T.
(** [m], run inside the text, stays there. *)
Definition in_text {A} (m : MP A) (Q : A -> list Z -> Prop) (s : list Z) : Prop :=
  wp m allowed (fun a s' => inside s' /\ (length s' <= length s)%nat /\ Q a s') s.

Lemma inside_cons s : inside s -> exists c t, s = c :: t /\ is_byte c.
Proof.
  intros [_ [w ->] Hb]. destruct w as [|c w]; cbn [app] in *; [exists 0, []; by split|]. apply Forall_cons_1 in Hb as [Hc _]. by eexists _, _.
Qed.
Lemma inside_tail c s : inside (c :: s) -> c <> 0 -> inside s.
Proof.
  intros [[a Ha] [w Hw] Hb] Hc. apply Forall_cons_1 in Hb as [_ Hb]. split; [|  |done].
  - exists (a ++ [c]). by rewrite <- app_assoc.
  - destruct w as [|d w]; cbn [app] in Hw; injection Hw as -> ->; [done|by exists w].
Qed.
Lemma text_ret {A} (a : A) (Q : A -> list Z -> Prop) s : inside s -> Q a s -> in_text (mret a) Q s.
Proof. intros. by split. Qed.
Lemma text_bind {A B} (m : MP A) (k : A -> MP B) R Q s : in_text m R s ->
  (forall a s', inside s' -> (length s' <= length s)%nat -> R a s' -> in_text (k a) Q s') -> in_text (m ≫= k) Q s.
Proof.
  intros Hm Hk. apply wp_bind. eapply wp_mono; [exact Hm|]. intros a s' (H1 & H2 & H3). eapply wp_mono; [by apply Hk|].
  intros b s'' (? & ? & ?). split; [done|]. split; [lia|done].
Qed.
Lemma text_mono {A} (m : MP A) (Q Q' : A -> list Z -> Prop) s : in_text m Q s -> (forall a s', Q a s' -> Q' a s') -> in_text m Q' s.
Proof. intros H HQ. eapply wp_mono; [exact H|]. intros a s' (? & ? & ?). auto. Qed.
Lemma wp_same {A} (m m' : MP A) (E : stop -> Prop) Q s s' : m s = m' s' -> wp m' E Q s' -> wp m E Q s.
Proof. unfold wp. by intros ->. Qed.
(** A character that is not the terminator. *)
Lemma text_skip_char {B} (k : unit -> MP B) Q c s : inside (c :: s) -> c <> 0 -> (inside s -> in_text (k tt) Q s) ->
  in_text (skip_chars 1 ≫= k) Q (c :: s).
Proof.
  intros Hs Hc Hk. eapply wp_same; [exact (bind_ok (skip_chars 1) _ _ _ _ (skip_char c s))|].
  eapply wp_mono; [by apply Hk, (inside_tail c)|]. intros a s' (? & ? & ?). cbn [length]. split; [done|]. split; [lia|done].
Qed.

(** ** Spaces *)
Definition test_ok (f : MP bool) : Prop := forall s, inside s -> exists b, f s = Ok b s /\ (b = true -> exists c t, s = c :: t /\ c <> 0).
Lemma skip_while_inside f : test_ok f -> forall n s, inside s -> (length s < n)%nat ->
  exists s', skip_while f n s = Ok tt s' /\ inside s' /\ (length s' <= length s)%nat /\ f s' = Ok false s'.
Proof.
  intros Hf. induction n as [|n IH]; intros s Hs Hn; [lia|]. destruct (Hf s Hs) as ([] & E & Hb).
  - destruct Hb as (c & t & -> & Hc); [done|]. cbn [skip_while]. rewrite (bind_ok _ _ _ _ _ E). cbn [length] in Hn.
    rewrite (bind_ok (skip_chars 1) _ _ _ _ (skip_char c t)).
    destruct (IH t (inside_tail c t Hs Hc)) as (s' & ? & ? & ? & ?); [lia|]. exists s'. cbn [length]. split; [done|]. split; [done|]. split; [lia|done].
  - exists s. cbn [skip_while]. rewrite (bind_ok _ _ _ _ _ E). done.
Qed.
Lemma line_comment_test : test_ok line_comment_char.
Proof.
  intros s Hs. destruct (inside_cons s Hs) as (c & t & -> & _). unfold line_comment_char. text_step. eexists. split; [done|].
  intros [H _]%andb_true_iff. apply negb_true_iff, Z.eqb_neq in H. by eexists _, _.
Qed.
Lemma block_comment_test : test_ok block_comment_char.
Proof.
  intros s Hs. destruct (inside_cons s Hs) as (c & t & -> & _). unfold block_comment_char. text_step.
  destruct (Z.eqb_spec c 0) as [->|H0]; [by exists false|]. destruct (Z.eqb_spec c 42) as [->|H1]; cbn [negb].
  - destruct (inside_cons t (inside_tail _ _ Hs H0)) as (d & t' & -> & _). text_skip. eexists. split; [done|]. intros _. by eexists _, _.
  - exists true. split; [done|]. intros _. by eexists _, _.
Qed.
Lemma skip_spaces_loop_inside n : forall s, inside s -> (length s < n)%nat ->
  exists s', skip_spaces_loop n s = Ok tt s' /\ inside s' /\ (length s' <= length s)%nat.
Proof.
  induction n as [|n IH]; intros s Hs Hn; [lia|]. destruct (inside_cons s Hs) as (c & t & -> & _). cbn [skip_spaces_loop length] in *. text_step.
  assert (forall u, inside u -> (length u < n)%nat -> (length u <= length t)%nat ->
    exists s', skip_spaces_loop n u = Ok tt s' /\ inside s' /\ (length s' <= S (length t))%nat) as K.
  { intros u Hu Hl Hle. destruct (IH u Hu Hl) as (s' & ? & ? & ?). exists s'. split; [done|]. split; [done|lia]. }
  destruct (isspace c) eqn:Esp.
  { assert (c <> 0) as Hc by (by intros ->). text_skip. apply K; [by apply (inside_tail c)|lia|lia]. }
  destruct (Z.eqb_spec c 47) as [->|H47]; [|by eexists].
  pose proof (inside_tail _ _ Hs ltac:(lia)) as Ht. destruct (inside_cons t Ht) as (d & u & -> & _). text_skip. cbn [length] in *.
  destruct (Z.eqb_spec d 47) as [->|D47].
  - pose proof (inside_tail _ _ Ht ltac:(lia)) as Hu. text_skip.
    destruct (skip_while_inside _ line_comment_test (S (length u)) u Hu ltac:(lia)) as (s' & E & H1 & H2 & _).
    unfold on_text at 1. unfold mbind at 1, M_bind at 1. rewrite E. apply K; [done|lia|lia].
  - destruct (Z.eqb_spec d 42) as [->|D42]; [|by eexists].
    pose proof (inside_tail _ _ Ht ltac:(lia)) as Hu. text_skip.
    destruct (skip_while_inside _ block_comment_test (S (length u)) u Hu ltac:(lia)) as (s' & E & H1 & H2 & H3).
    unfold on_text at 1. unfold mbind at 1, M_bind at 1. rewrite E.
    destruct (inside_cons s' H1) as (e & v & -> & _). text_skip. destruct (Z.eqb_spec e 0) as [->|E0].
    + apply K; [done|lia|lia].
    + revert H3. unfold block_comment_char. text_step. rewrite (proj2 (Z.eqb_neq e 0)) by done.
      destruct (Z.eqb_spec e 42) as [->|E42]; [|done]. cbn [negb]. pose proof (inside_tail _ _ H1 ltac:(lia)) as Hv.
      destruct (inside_cons v Hv) as (g & v' & -> & _). text_skip. intros Hg. injection Hg as Hg%negb_false_iff%Z.eqb_eq. subst g.
      cbn [length] in *. apply K; [by apply (inside_tail 47)|lia|lia].
Qed.
Lemma skip_spaces_inside s : inside s -> exists c t, skip_spaces s = Ok tt (c :: t) /\ inside (c :: t) /\ (length (c :: t) <= length s)%nat.
Proof.
  intros Hs. destruct (skip_spaces_loop_inside (S (length s)) s Hs) as (s' & E & H1 & H2); [lia|].
  destruct (inside_cons s' H1) as (c & t & -> & _). by exists c, t.
Qed.
(** The character that stands next, in a continuation. *)
Lemma text_spaces {B} (k : Z -> MP B) Q s : inside s ->
  (forall c t, skip_spaces s = Ok tt (c :: t) -> inside (c :: t) -> (length (c :: t) <= length s)%nat -> in_text (k c) Q (c :: t)) ->
  in_text (_ ← skip_spaces; c ← peek; k c) Q s.
Proof.
  intros Hs Hk. destruct (skip_spaces_inside s Hs) as (c & t & E & H1 & H2).
  eapply wp_same; [rewrite (bind_ok _ _ _ _ _ E); exact (bind_ok peek _ _ _ _ (peek_cons c t))|].
  eapply wp_mono; [by apply (Hk c t)|]. intros a s' (? & ? & ?). split; [done|]. split; [lia|done].
Qed.

(** ** Strings.  After an error the pointer is not used. *)
Lemma from_hex_range h : from_hex h < 0 \/ 0 <= from_hex h < 16 /\ h <> 0.
Proof. unfold from_hex. zcases; cbn; lia. Qed.
Lemma parse_escape_inside s : inside s -> exists e u, parse_escape s = Ok e u /\
  match e with EscChar c => is_byte c /\ inside u /\ (length u <= length s)%nat | _ => True end.
Proof.
  intros Hs. destruct (inside_cons s Hs) as (c & t & -> & Hc). unfold parse_escape. text_step.
  assert (forall v u, c <> 0 -> is_byte v -> u = t -> exists e u', Ok (EscChar v) u = Ok e u' /\
    match e with EscChar c0 => is_byte c0 /\ inside u' /\ (length u' <= length (c :: t))%nat | _ => True end) as K.
  { intros v u H0 Hv ->. exists (EscChar v), t. split; [done|]. split; [done|]. split; [by apply (inside_tail c)|cbn; lia]. }
  assert (exists e u, (mret EscUnknown : MP escape) t = Ok e u /\
    match e with EscChar c0 => is_byte c0 /\ inside u /\ (length u <= length (c :: t))%nat | _ => True end) as D by (by exists EscUnknown, t).
  assert (forall d, {c = d} + {c <> d}) as Hd by (intros; apply Z.eq_dec).
  destruct (Hd 39) as [->|N1]; [by apply K|]. destruct (Hd 34) as [->|N2]; [by apply K|]. destruct (Hd 92) as [->|N3]; [by apply K|].
  destruct (Hd 110) as [->|N4]; [by apply K|]. destruct (Hd 114) as [->|N5]; [by apply K|]. destruct (Hd 116) as [->|N6]; [by apply K|].
  destruct (Hd 120) as [->|N7].
  - pose proof (inside_tail _ _ Hs ltac:(lia)) as Ht. destruct (inside_cons t Ht) as (h & u & -> & _). text_step.
    destruct (from_hex_range h) as [H1|[H1 Hz]]; [rewrite (proj2 (Z.ltb_lt _ _)) by lia; by exists EscHexError, u|].
    rewrite (proj2 (Z.ltb_ge _ _)) by lia. pose proof (inside_tail _ _ Ht Hz) as Hu. destruct (inside_cons u Hu) as (l & v & -> & _). text_step.
    destruct (from_hex_range l) as [H2|[H2 Lz]]; [rewrite (proj2 (Z.ltb_lt _ _)) by lia; by exists EscHexError, v|].
    rewrite (proj2 (Z.ltb_ge _ _)) by lia. eexists _, v. split; [done|]. split; [by apply fits_wrap|]. split; [by apply (inside_tail l)|cbn; lia].
  - clear K. repeat match goal with |- context [match ?x with _ => _ end _] => is_var x; destruct x end; try exact D; congruence.
Qed.
Definition string_result (s : list Z) (r : JSONValue + list Z) (s' : list Z) : Prop :=
  match r with
  | inl e => exists m, e = JSON_EXCEPTION m
  | inr q => inside s' /\ (length s' <= length s)%nat /\ bytes q /\ (length q <= 4095)%nat
  end.
Lemma string_loop_inside n : forall q s, inside s -> (length s < n)%nat -> bytes q -> (length q <= 4095)%nat ->
  exists r s', string_loop q n s = Ok r s' /\ string_result s r s'.
Proof.
  induction n as [|n IH]; intros q s Hs Hn Hq Hl; [lia|]. destruct (inside_cons s Hs) as (c & t & -> & Hc). cbn [string_loop length] in *. text_step.
  assert (forall d u, is_byte d -> inside u -> (length u <= length t)%nat -> exists r s',
    (if 4095 <=? Z.of_nat (length q) then mret (inl (json_error_new (str "string too long"))) else string_loop (q ++ [d]) n) u = Ok r s' /\
    string_result (c :: t) r s') as K.
  { intros d u Hd Hu Hle. destruct (Z.leb_spec 4095 (Z.of_nat (length q))); [eexists _, _; split; [done|by eexists]|].
    destruct (IH (q ++ [d]) u) as (r & s' & -> & Hr); [done|lia| |rewrite length_app; cbn [length]; lia|].
    - apply Forall_app. split; [done|]. by constructor.
    - exists r, s'. split; [done|]. destruct r as [e|q']; [done|]. destruct Hr as (? & ? & ?). split; [done|]. cbn [length]. split; [lia|done]. }
  destruct ((c =? 0) || (c =? 10)) eqn:E; [eexists _, _; split; [done|by eexists]|]. apply orb_false_iff in E as [E0%Z.eqb_neq _].
  pose proof (inside_tail _ _ Hs E0) as Ht. destruct (Z.eqb_spec c 34) as [->|_].
  { exists (inr q), t. split; [done|]. split; [done|]. cbn [length]. split; [lia|done]. }
  destruct (Z.eqb_spec c 92) as [->|_]; [|by apply K].
  destruct (parse_escape_inside t Ht) as (e & u & E & He). rewrite (bind_ok _ _ _ _ _ E). destruct e as [d| |].
  - destruct He as (Hd & Hu & Hlu). by apply K.
  - eexists _, _; split; [done|by eexists].
  - eexists _, _; split; [done|by eexists].
Qed.
Lemma until_nul_props q : bytes q -> bytes (until_nul q) /\ nonul (until_nul q) /\ (length (until_nul q) <= length q)%nat.
Proof.
  induction 1 as [|c q Hc Hq IH]; [by repeat constructor|]. cbn [until_nul]. destruct (Z.eqb_spec c 0); [split; [constructor|split; [constructor|cbn; lia]]|].
  destruct IH as (? & ? & ?). split; [by constructor|]. split; [by constructor|]. cbn [length]. lia.
Qed.
Lemma parse_string_inside t : inside (34 :: t) -> exists v s', parse_string (34 :: t) = Ok v s' /\ inside s' /\
  (length s' <= S (length t))%nat /\ match v with JSON_STR s => name_string s | _ => s' = 34 :: t /\ exists m, v = JSON_EXCEPTION m end.
Proof.
  intros Hs. pose proof (inside_tail _ _ Hs ltac:(lia)) as Ht. unfold parse_string. text_skip.
  destruct (string_loop_inside (S (length t)) [] t) as (r & s' & E & Hr); [done|lia|constructor|cbn; lia|].
  unfold on_text. rewrite E. destruct r as [e|q].
  - destruct Hr as [m ->]. exists (JSON_EXCEPTION m), (34 :: t). split; [done|]. split; [done|]. cbn [length]. split; [lia|]. split; [done|by exists m].
  - destruct Hr as (H1 & H2 & H3 & H4). exists (json_string_new q), s'. split; [done|]. split; [done|]. cbn [length]. split; [lia|].
    destruct (until_nul_props q H3) as (? & ? & ?). unfold json_string_new. split; [|done]. split; [done|lia].
Qed.

(** ** Names *)
Lemma ident_char_nz c : ident_char c = true -> c <> 0.
Proof. by intros H ->. Qed.
Definition ident_read (q s : list Z) : Prop :=
  (exists a, T = a ++ q ++ s) /\ Forall (fun c => ident_char c = true) q /\ bytes q.
Lemma ident_loop_inside n : forall q s, inside s -> (length s < n)%nat -> ident_read q s -> (length q <= 127)%nat ->
  exists r s', ident_loop 128 q n s = Ok r s' /\
    match r with
    | None => long_word T
    | Some q' => inside s' /\ (length s' <= length s)%nat /\ ident_read q' s' /\ (length q' <= 127)%nat /\ (length q <= length q')%nat
    end.
Proof.
  induction n as [|n IH]; intros q s Hs Hn ([a Ha] & Hq & Hqb) Hl; [lia|]. destruct (inside_cons s Hs) as (c & t & -> & Hc).
  cbn [ident_loop length] in *. text_step. change (is_ident_first c || isdigit c) with (ident_char c). destruct (ident_char c) eqn:E.
  - assert (Forall (fun c => ident_char c = true) (q ++ [c])) as Hq' by (apply Forall_app; split; [done|by constructor]).
    destruct (Z.leb_spec (128 - 1) (Z.of_nat (length q))).
    + exists None, (c :: t). split; [done|]. exists a, (q ++ [c]), t. split; [by rewrite <- app_assoc|]. split; [|done]. rewrite length_app. cbn [length]. lia.
    + text_step. destruct (IH (q ++ [c]) t) as (r & s' & -> & Hr); [by apply (inside_tail c), ident_char_nz|lia| |rewrite length_app; cbn [length]; lia|].
      { split; [exists a; by rewrite <- app_assoc|]. split; [done|]. apply Forall_app. split; [done|by constructor]. }
      exists r, s'. split; [done|]. destruct r as [q'|]; [|done]. destruct Hr as (? & ? & ? & ? & Hlen). rewrite length_app in Hlen. cbn [length] in *.
      split; [done|]. split; [lia|]. split; [done|]. split; [done|lia].
  - exists (Some q), (c :: t). split; [done|]. split; [done|]. split; [done|]. split; [|done]. split; [by exists a|done].
Qed.
Lemma parse_ident_inside c t : inside (c :: t) -> is_ident_first c = true -> exists r s', parse_ident 128 (c :: t) = Ok r s' /\
  match r with
  | None => long_word T /\ s' = c :: t
  | Some q => inside s' /\ (length s' <= length (c :: t))%nat /\ name_string q /\ q <> []
  end.
Proof.
  intros Hs Hc. assert (ident_char c = true) as Hi by (unfold ident_char; by rewrite Hc). pose proof (inside_tail c t Hs (ident_char_nz c Hi)) as Ht.
  unfold parse_ident, commit. text_step. unfold on_text.
  destruct (ident_loop_inside (S (length t)) [c] t) as (r & s' & -> & Hr); [done|lia| |cbn; lia|].
  - destruct (in_suffix _ Hs) as [a Ha]. split; [by exists a|]. destruct (Forall_cons_1 _ _ _ (in_bytes _ Hs)) as [Hb _]. split; by constructor.
  - destruct r as [q|].
    + destruct Hr as (H1 & H2 & (_ & H3 & H3') & H4 & H5). exists (Some q), s'. split; [done|]. split; [done|]. cbn [length] in *. split; [lia|].
      split; [|intros ->; cbn [length] in *; lia]. split; [|done]. split; [|lia]. eapply List.Forall_impl; [|exact H3]. apply ident_char_nz.
    + by exists None, (c :: t).
Qed.

(** ** Numbers *)
Lemma digits_inside b s : b <= 36 -> inside s -> forall acc, exists v s', digits b s acc = (v, s') /\ inside s' /\ (length s' <= length s)%nat.
Proof.
  intros Hb. induction s as [|c s IH]; intros Hs acc; [by destruct (inside_cons _ Hs) as (? & ? & ? & _)|].
  cbn [digits]. destruct (Z.ltb_spec (digit_val c) b) as [H|H]; [|by eauto].
  assert (c <> 0) as Hc by (intros ->; change (digit_val 0) with 36 in H; lia).
  destruct (IH (inside_tail _ _ Hs Hc) (acc * b + digit_val c)) as (v & s' & -> & ? & ?). exists v, s'. cbn [length]. split; [done|]. split; [done|lia].
Qed.
Lemma int_base_inside c t : inside (c :: t) -> exists b s', int_base 0 (c :: t) = (b, s') /\ b <= 36 /\ inside s' /\ (length s' <= length (c :: t))%nat.
Proof.
  intros Hs. assert (forall b, b <= 36 -> exists b' s', (b, c :: t) = (b', s') /\ b' <= 36 /\ inside s' /\ (length s' <= length (c :: t))%nat) as K by eauto 6.
  unfold int_base. cbn [Z.eqb orb]. destruct (Z.eq_dec c 48) as [->|Hc].
  - destruct t as [|d [|e t]]; try (apply K; lia). case_if; [|apply K; lia]. eexists _, _. split; [done|]. split; [lia|].
    assert (d <> 0) as Hd by (intros ->; cbn in E; discriminate).
    split; [|cbn; lia]. apply (inside_tail d); [|done]. by apply (inside_tail 48).
  - destruct c as [|p|p]; try (apply K; lia). repeat (match goal with |- context [match ?x with _ => _ end] => is_var x; destruct x end; try (apply K; lia)); congruence.
Qed.
Lemma parse_number_inside LONG c t : inside (c :: t) -> isdigit c = true -> exists n s', parse_number LONG (c :: t) = Ok (JSON_INT n) s' /\
  inside s' /\ (length s' <= length (c :: t))%nat /\ - 2 ^ 31 <= n < 2 ^ 31.
Proof.
  intros Hs Hc. unfold parse_number, strtol, int_prefix. cbn [skip_ws].
  assert (isspace c = false /\ c <> 45 /\ c <> 43) as (-> & H1 & H2) by (unfold isdigit, isspace in *; revert Hc; zcases; cbn; lia).
  rewrite unsigned by done. destruct (int_base_inside c t Hs) as (b & s' & -> & Hb & Hs' & Hl).
  destruct (inside_cons s' Hs') as (d & u & -> & _). destruct (digit_val d <? b).
  - destruct (digits_inside b (d :: u) Hb Hs' 0) as (v & s'' & -> & ? & ?). cbn [mbind option_bind]. eexists _, s''. split; [done|]. split; [done|].
    split; [lia|]. apply (swrap_range 32). lia.
  - cbn [mbind option_bind]. exists 0, (c :: t). split; [done|]. split; [done|]. split; [lia|]. lia.
Qed.

(** ** Values *)
Definition element (v : JSONValue) : Prop := typed v \/ v = unexpected_character.
(** An error stands in front of the character that caused it. *)
Definition at_fault (v : JSONValue) (c : Z) : Prop := v = unexpected_character \/ (c <> 44 /\ c <> 93 /\ c <> 125).
Definition value_post (v : JSONValue) (s' : list Z) : Prop :=
  typed v \/ (json_is_error v = true /\ exists c t, skip_spaces s' = Ok tt (c :: t) /\ at_fault v c).
Definition parser_ok (m : nat) (parse : MP JSONValue) : Prop :=
  forall s, inside s -> (length s < m)%nat -> in_text parse value_post s.
Lemma after_element v s c t : value_post v s -> skip_spaces s = Ok tt (c :: t) -> c = 44 \/ c = 93 \/ c = 125 -> element v.
Proof.
  intros [Hv|(_ & c' & t' & E & Hf)] E' Hc; [by left|]. rewrite E in E'. injection E' as -> ->. destruct Hf as [->|Hf]; [by right|lia].
Qed.
(** The loops give a typed value, or an error with the pointer wherever it is. *)
Definition finished (r : JSONValue + JSONValue) : Prop :=
  match r with inl e => json_is_error e = true | inr v => typed v end.
Definition loop_result (r : JSONValue + JSONValue) (s : list Z) : Prop := finished r.
Lemma set_prop_names props n v : map fst (set_prop props n v) = if decide (n ∈ map fst props) then map fst props else map fst props ++ [n].
Proof.
  induction props as [|[m w] props IH]; cbn [set_prop map fst]; [by rewrite decide_False by apply not_elem_of_nil|].
  destruct (decide (m = n)) as [->|Hm]; cbn [map fst]; [by rewrite decide_True by apply list_elem_of_here|]. rewrite IH.
  destruct (decide (n ∈ map fst props)); [by rewrite decide_True by (by apply list_elem_of_further)|].
  by rewrite decide_False by (by intros [->|?]%elem_of_cons).
Qed.
Lemma set_prop_typed props n v : name_string n -> n <> [] -> element v -> typed (JSON_OBJ props) -> typed (JSON_OBJ (set_prop props (until_nul n) v)).
Proof.
  intros Hn Hz Hv Ht. inversion Ht as [| |? Hp Hnd| | |]; subst. rewrite until_nul_id by apply Hn. constructor.
  - clear Hnd Ht. assert ((name_string (fst (n, v)) /\ fst (n, v) <> []) /\ (typed (snd (n, v)) \/ snd (n, v) = unexpected_character)) as Hnv by done.
    induction Hp as [|[m w] props Hmw Hps IH]; cbn [set_prop]; [by constructor|]. case_decide as E; [subst m|]; by constructor.
  - rewrite set_prop_names. case_decide as E; [done|]. apply NoDup_app. split; [done|]. split.
    + by intros x Hx ->%list_elem_of_singleton.
    + apply NoDup_singleton.
Qed.
Lemma array_set_typed tab v idx : element v -> typed (JSON_ARRAY tab) -> typed (snd (json_array_set (JSON_ARRAY tab) idx v)) /\
  exists tab', snd (json_array_set (JSON_ARRAY tab) idx v) = JSON_ARRAY tab'.
Proof.
  intros Hv Ht. inversion Ht as [| | |? Hp| |]; subst. cbn [json_array_set]. repeat case_if; (split; [|by eexists]); constructor; try done.
  - by apply Forall_insert.
  - apply Forall_app. split; [done|by constructor].
Qed.
Lemma parse_tag_inside c t : inside (c :: t) -> c <> 125 -> in_text parse_tag_name
  (fun r s' => match r with inl e => json_is_error e = true | inr n => name_string n /\ n <> [] end) (c :: t).
Proof.
  intros Hs Hc. unfold parse_tag_name. eapply wp_same; [exact (bind_ok peek _ _ _ _ (peek_cons c t))|].
  destruct (Z.eqb_spec c 34) as [->|_].
  - destruct (parse_string_inside t Hs) as (v & s' & E & H1 & H2 & H3). eapply wp_same; [exact (bind_ok _ _ _ _ _ E)|].
    destruct v; (split; [done|]); cbn [length]; (split; [lia|]); try (destruct H3 as [_ [m H3]]; first [discriminate|done]).
    destruct s; [done|by split].
  - destruct (is_ident_first c) eqn:Ei; [|by split].
    destruct (parse_ident_inside c t Hs Ei) as (r & s' & E & Hr). eapply wp_same; [exact (bind_ok _ _ _ _ _ E)|]. destruct r as [q|].
    + destruct Hr as (H1 & H2 & H3 & H4). split; [done|]. split; [done|]. rewrite until_nul_id by apply H3. by destruct q.
    + destruct Hr as [_ ->]. by split.
Qed.
Lemma parse_word_inside c t : inside (c :: t) -> is_ident_first c = true -> in_text parse_word loop_result (c :: t).
Proof.
  intros Hs Hc. unfold parse_word. destruct (parse_ident_inside c t Hs Hc) as (r & s' & E & Hr). eapply wp_same; [exact (bind_ok _ _ _ _ _ E)|].
  destruct r as [q|]; [|by destruct Hr]. destruct Hr as (H1 & H2 & _). split; [done|]. split; [done|].
  unfold loop_result. repeat case_decide; by try constructor.
Qed.

Section Loops.
Context (m : nat) (parse : MP JSONValue) (Hparse : parser_ok m parse).
Lemma array_loop_inside n : forall tab idx s, typed (JSON_ARRAY tab) -> inside s -> (length s < m)%nat -> (length s < n)%nat ->
  in_text (array_loop parse (JSON_ARRAY tab) idx n) loop_result s.
Proof.
  induction n as [|n IH]; intros tab idx s Ht Hs Hm Hn; [lia|]. cbn [array_loop]. apply text_spaces; [done|]. intros c t _ Hct Hlen.
  destruct (Z.eqb_spec c 93) as [->|N93]; [apply text_skip_char; [done|lia|]; intros; by apply text_ret|].
  eapply text_bind; [apply Hparse; [done|lia]|]. intros v s1 Hs1 Hl1 Hv. apply text_spaces; [done|]. intros d u E Hdu Hlen2.
  assert (d = 44 \/ d = 93 -> exists tab', snd (json_array_set (JSON_ARRAY tab) idx v) = JSON_ARRAY tab' /\ typed (JSON_ARRAY tab')) as Hset.
  { intros Hd. destruct (array_set_typed tab v idx) as [H1 [tab' H2]]; [apply (after_element v s1 d u Hv E); lia|done|]. exists tab'. by rewrite <- H2. }
  destruct (Z.eqb_spec d 44) as [->|N44].
  - destruct Hset as (tab' & -> & Ht'); [by left|]. apply text_skip_char; [done|lia|]. intros Hu. cbn [length] in *. apply IH; [done..|lia|lia].
  - destruct (Z.eqb_spec d 93) as [->|_]; cbn [negb]; [|by apply text_ret].
    destruct Hset as (tab' & -> & Ht'); [by right|]. destruct n as [|n].
    + destruct (inside_cons u (inside_tail 93 u Hdu ltac:(lia))) as (? & ? & -> & _). cbn [length] in *. lia.
    + eapply wp_same; [instantiate (2 := mret (inr _)); apply array_loop_end|]. split; [by apply (inside_tail 93)|]. cbn [length]. split; [lia|done].
Qed.
Lemma object_loop_inside n : forall props s, typed (JSON_OBJ props) -> inside s -> (length s < m)%nat -> (length s < n)%nat ->
  in_text (object_loop parse (JSON_OBJ props) n) loop_result s.
Proof.
  induction n as [|n IH]; intros props s Ht Hs Hm Hn; [lia|]. cbn [object_loop]. apply text_spaces; [done|]. intros c t _ Hct Hlen.
  destruct (Z.eqb_spec c 125) as [->|N125]; [apply text_skip_char; [done|lia|]; intros; by apply text_ret|].
  eapply text_bind; [by apply parse_tag_inside|]. intros [e|name] s0 Hs0 Hl0; cbv beta; [intros He; by apply text_ret|]. intros [Hname Hnz].
  apply text_spaces; [done|]. intros c0 t0 _ Hct0 Hlen0. destruct (Z.eqb_spec c0 58) as [->|_]; cbn [negb]; [|by apply text_ret].
  apply text_skip_char; [done|lia|]. intros Ht0. cbn [length] in *.
  eapply text_bind; [apply Hparse; [done|lia]|]. intros v s1 Hs1 Hl1 Hv. apply text_spaces; [done|]. intros d u E Hdu Hlen2.
  cbn [json_object_set snd].
  assert (d = 44 \/ d = 125 -> typed (JSON_OBJ (set_prop props (until_nul name) v))) as Hset.
  { intros Hd. apply set_prop_typed; [done..| |done]. apply (after_element v s1 d u Hv E). lia. }
  destruct (Z.eqb_spec d 44) as [->|N44].
  - apply text_skip_char; [done|lia|]. intros Hu. cbn [length] in *. apply IH; [by apply Hset; left|done|lia|lia].
  - destruct (Z.eqb_spec d 125) as [->|_]; cbn [negb]; [|by apply text_ret].
    destruct n as [|n]; [cbn [length] in *; lia|].
    eapply wp_same; [instantiate (2 := mret (inr _)); apply object_loop_end|]. split; [by apply (inside_tail 125)|]. cbn [length].
    split; [lia|]. apply Hset. by right.
Qed.
End Loops.

Lemma parse_body_inside LONG m parse c t : parser_ok m parse -> inside (c :: t) -> (length t < m)%nat ->
  in_text (parse_body LONG parse)
    (fun r s' => match r with
      | inl e => json_is_error e = true /\ at_fault e c
      | inr v => typed v \/ (json_is_error v = true /\ s' = c :: t /\ c = 34)
      end) (c :: t).
Proof.
  intros Hp Hs Hm. unfold parse_body. eapply wp_same; [exact (bind_ok peek _ _ _ _ (peek_cons c t))|].
  assert (forall e, c <> 44 -> c <> 93 -> c <> 125 -> at_fault e c) as Hf by (intros; by right).
  destruct (Z.eqb_spec c 0) as [->|N0]; [apply text_ret; [done|]; split; [done|by apply Hf]|].
  destruct (isdigit c) eqn:Ed.
  { destruct (parse_number_inside LONG c t Hs Ed) as (n & s' & E & H1 & H2 & H3). eapply wp_same; [exact (bind_ok _ _ _ _ _ E)|].
    split; [done|]. split; [done|]. left. by constructor. }
  destruct (Z.eqb_spec c 34) as [->|N34].
  { destruct (parse_string_inside t Hs) as (v & s' & E & H1 & H2 & H3). eapply wp_same; [exact (bind_ok _ _ _ _ _ E)|].
    split; [done|]. split; [done|]. destruct v; try (destruct H3 as [_ [? H3]]; discriminate); [left; by constructor|].
    right. split; [done|]. split; [apply H3|done]. }
  destruct (Z.eqb_spec c 123) as [->|N123].
  { apply text_skip_char; [done|lia|]. intros Ht. unfold on_text.
    eapply text_mono; [apply (object_loop_inside m parse Hp); [by repeat constructor|done|done|lia]|].
    intros [e|v] s' Hr; [split; [done|by apply Hf]|by left]. }
  destruct (Z.eqb_spec c 91) as [->|N91].
  { apply text_skip_char; [done|lia|]. intros Ht. unfold on_text.
    eapply text_mono; [apply (array_loop_inside m parse Hp); [by repeat constructor|done|done|lia]|].
    intros [e|v] s' Hr; [split; [done|by apply Hf]|by left]. }
  destruct (is_ident_first c) eqn:Ei.
  { eapply text_mono; [by apply parse_word_inside|]. intros [e|v] s' Hr; [split; [done|]|by left].
    apply Hf; intros ->; discriminate. }
  apply text_ret; [done|]. split; [done|by left].
Qed.
Lemma parse_value2_inside LONG f : parser_ok f (json_parse_value2 LONG f).
Proof.
  induction f as [|f IH]; intros s Hs Hf; [lia|]. cbn [json_parse_value2].
  destruct (skip_spaces_inside s Hs) as (c & t & E & Hct & Hl). unfold early, in_text. unfold wp. rewrite (bind_ok _ _ _ _ _ E).
  pose proof (parse_body_inside LONG f (json_parse_value2 LONG f) c t IH Hct) as H. cbn [length] in Hl. specialize (H ltac:(lia)).
  unfold in_text, wp in H. destruct (parse_body LONG (json_parse_value2 LONG f) (c :: t)) as [[e|v] s'|r]; [| |done].
  - destruct H as (_ & _ & He & Hfa). split; [done|]. split; [lia|]. right. split; [done|]. by exists c, t.
  - destruct H as (H1 & H2 & Hv). cbn [length] in H2. split; [done|]. split; [lia|]. destruct Hv as [Hv|(He & -> & ->)]; [by left|].
    right. split; [done|]. exists 34, t. split; [|right; lia]. by apply skip_self.
Qed.
End Text.

Lemma json_parse_ok {S} LONG p (s : S) : bytes p ->
  match json_parse_value_len LONG p s with
  | Ok v s' => s' = s /\ (typed v \/ exists m, v = JSON_EXCEPTION m)
  | Stop r => r = StopFault /\ long_word (c_string p)
  end.
Proof.
  intros Hp. set (T := c_string p). assert (inside T T) as HT.
  { split; [by exists []|by exists p|]. apply Forall_app. split; [done|]. by repeat constructor. }
  pose proof (parse_value2_inside T LONG _ T HT (Nat.lt_succ_diag_r (length T))) as H.
  unfold json_parse_value_len, on_string, json_parse_value. fold T.
  change (json_parse_value2 LONG (Datatypes.S (length T)) T) with (on_text (json_parse_value2 LONG) T) in H. unfold in_text, wp in H.
  change (json_parse_value2 LONG (Datatypes.S (length T)) T) with (on_text (json_parse_value2 LONG) T) in H.
  unfold mbind, M_bind. destruct (on_text (json_parse_value2 LONG) T) as [v s'|r]; [|done]. destruct H as (H1 & _ & Hv).
  destruct (json_is_error v) eqn:Ev.
  - split; [done|]. right. destruct v; try discriminate. by eexists.
  - destruct (skip_spaces_inside T s' H1) as (c & t & -> & _). cbn [peek]. destruct (negb (c =? 0)); (split; [done|]); [right; by eexists|].
    left. destruct Hv as [Hv|[Hv _]]; congruence.
Qed.

(** C33: the JSON parser is total and its values are well typed.  Every text, of any bytes, gives
    a well-typed value - strings within the buffer and without a terminator, integers of 32
    bits, objects with distinct, nonempty names, and no error inside but the one of a missing
    element - or an error value; the parser never reads behind the text.  The exception is a
    text with a word of 128 characters or more, whose error message can be printed from a buffer
    without a terminator. *)
Theorem json_parse_typed {S} LONG p (s : S) : bytes p ->
  match json_parse_value_len LONG p s with
  | Ok v s' => s' = s /\ (typed v \/ exists m, v = JSON_EXCEPTION m)
  | Stop r => r = StopFault /\ long_word (c_string p)
  end.
Proof. apply json_parse_ok. Qed.
Lemma json_parse_typed_witness :
  typed (JSON_ARRAY [unexpected_character; JSON_INT 1]) /\
  match json_parse_value_len 64 (str "[ , 0x1 ]") tt with
  | Ok v s' => s' = tt /\ (typed v \/ exists m, v = JSON_EXCEPTION m)
  | Stop r => r = StopFault /\ long_word (c_string (str "[ , 0x1 ]"))
  end.
Proof.
  split.
  - constructor. constructor; [by right|]. constructor; [left; by constructor|constructor].
  - apply (json_parse_typed 64 (str "[ , 0x1 ]") tt). by repeat constructor.
Defined.
(** The missing element is in the array. *)
Lemma json_missing_element : json_parse_value_len 64 (str "[ , 0x1 ]") tt = Ok (JSON_ARRAY [unexpected_character; JSON_INT 1]) tt.
Proof. reflexivity. Qed.
