(* ===== verification/MachineCfg.v ===== *)
(** * The description of a virtual machine (machine.c, machine.h)

    The configuration file is a JSON object; its loading fills VirtMachineParams and then reads
    the files it names.  A string member of the struct is [None] for NULL.  The build has the
    RISC-V machine only (no CONFIG_X86EMU) and no network file system (no CONFIG_FS_NET). *)
From S2P Require Export Json.
From stdpp Require Import strings.
#[local] Open Scope Z_scope.

Definition MAX_DRIVE_DEVICE : Z := 4.
Definition MAX_FS_DEVICE : Z := 4.
Definition MAX_ETH_DEVICE : Z := 1.
Definition VM_CONFIG_VERSION : Z := 1.
Inductive VMFileTypeEnum := VM_FILE_BIOS | VM_FILE_VGA_BIOS | VM_FILE_KERNEL | VM_FILE_INITRD.
#[export] Instance VMFileTypeEnum_eq_dec : EqDecision VMFileTypeEnum.
Proof. solve_decision. Defined.
Definition file_index (f : VMFileTypeEnum) : nat :=
  match f with VM_FILE_BIOS => 0 | VM_FILE_VGA_BIOS => 1 | VM_FILE_KERNEL => 2 | VM_FILE_INITRD => 3 end.
Definition VM_FILE_COUNT : nat := 4.
(** [file_len] is the int that says how many bytes [file_buf] has. *)
Record VMFileEntry := mkFileEntry { filename : option (list Z); file_buf : option (list Z); file_len : Z }.
Record VMDriveEntry := mkDrive { drive_device : option (list Z); drive_filename : list Z }.
Record VMFSEntry := mkFS { fs_tag : list Z; fs_filename : list Z }.
Record VMEthEntry := mkEth { eth_driver : list Z; eth_ifname : option (list Z) }.
(** A machine class is known by its names; the tables hold the entries in use. *)
Record VirtMachineParams := mkParams {
  cfg_filename : option (list Z);
  vmc : option (list Z);
  machine_name : option (list Z);
  ram_size : Z;
  rtc_local_time : bool;
  display_device : option (list Z);
  width : Z;
  height : Z;
  tab_drive : list VMDriveEntry;
  tab_fs : list VMFSEntry;
  tab_eth : list VMEthEntry;
  cmdline : option (list Z);
  accel_enable : bool;
  input_device : option (list Z);
  files : list VMFileEntry;
}.
Definition virt_machine_set_defaults : VirtMachineParams :=
  mkParams None None None 0 false None 0 0 [] [] [] None false None (replicate VM_FILE_COUNT (mkFileEntry None None 0)).
Section Setters.
Context (p : VirtMachineParams).
Definition set_cfg_filename v := mkParams v (vmc p) (machine_name p) (ram_size p) (rtc_local_time p) (display_device p) (width p) (height p)
  (tab_drive p) (tab_fs p) (tab_eth p) (cmdline p) (accel_enable p) (input_device p) (files p).
Definition set_machine c n := mkParams (cfg_filename p) c n (ram_size p) (rtc_local_time p) (display_device p) (width p) (height p)
  (tab_drive p) (tab_fs p) (tab_eth p) (cmdline p) (accel_enable p) (input_device p) (files p).
Definition set_ram_size v := mkParams (cfg_filename p) (vmc p) (machine_name p) v (rtc_local_time p) (display_device p) (width p) (height p)
  (tab_drive p) (tab_fs p) (tab_eth p) (cmdline p) (accel_enable p) (input_device p) (files p).
Definition set_rtc_local_time v := mkParams (cfg_filename p) (vmc p) (machine_name p) (ram_size p) v (display_device p) (width p) (height p)
  (tab_drive p) (tab_fs p) (tab_eth p) (cmdline p) (accel_enable p) (input_device p) (files p).
Definition set_display d w h := mkParams (cfg_filename p) (vmc p) (machine_name p) (ram_size p) (rtc_local_time p) d w h
  (tab_drive p) (tab_fs p) (tab_eth p) (cmdline p) (accel_enable p) (input_device p) (files p).
Definition set_tab_drive v := mkParams (cfg_filename p) (vmc p) (machine_name p) (ram_size p) (rtc_local_time p) (display_device p) (width p) (height p)
  v (tab_fs p) (tab_eth p) (cmdline p) (accel_enable p) (input_device p) (files p).
Definition set_tab_fs v := mkParams (cfg_filename p) (vmc p) (machine_name p) (ram_size p) (rtc_local_time p) (display_device p) (width p) (height p)
  (tab_drive p) v (tab_eth p) (cmdline p) (accel_enable p) (input_device p) (files p).
Definition set_tab_eth v := mkParams (cfg_filename p) (vmc p) (machine_name p) (ram_size p) (rtc_local_time p) (display_device p) (width p) (height p)
  (tab_drive p) (tab_fs p) v (cmdline p) (accel_enable p) (input_device p) (files p).
Definition set_cmdline v := mkParams (cfg_filename p) (vmc p) (machine_name p) (ram_size p) (rtc_local_time p) (display_device p) (width p) (height p)
  (tab_drive p) (tab_fs p) (tab_eth p) v (accel_enable p) (input_device p) (files p).
Definition set_accel_enable v := mkParams (cfg_filename p) (vmc p) (machine_name p) (ram_size p) (rtc_local_time p) (display_device p) (width p) (height p)
  (tab_drive p) (tab_fs p) (tab_eth p) (cmdline p) v (input_device p) (files p).
Definition set_input_device v := mkParams (cfg_filename p) (vmc p) (machine_name p) (ram_size p) (rtc_local_time p) (display_device p) (width p) (height p)
  (tab_drive p) (tab_fs p) (tab_eth p) (cmdline p) (accel_enable p) v (files p).
Definition set_files v := mkParams (cfg_filename p) (vmc p) (machine_name p) (ram_size p) (rtc_local_time p) (display_device p) (width p) (height p)
  (tab_drive p) (tab_fs p) (tab_eth p) (cmdline p) (accel_enable p) (input_device p) v.
End Setters.

(** ** Properties of a JSON object; [None] after a message *)
Definition vm_get_int (obj : JSONValue) (name : list Z) : option Z :=
  match json_object_get obj name with JSON_INT v => Some v | _ => None end.
Definition vm_get_int_opt (obj : JSONValue) (name : list Z) (def_val : Z) : option Z :=
  match json_object_get obj name with JSON_UNDEFINED => Some def_val | JSON_INT v => Some v | _ => None end.
Definition vm_get_str2 (obj : JSONValue) (name : list Z) (is_opt : bool) : option (option (list Z)) :=
  match json_object_get obj name with
  | JSON_UNDEFINED => if is_opt then Some None else None
  | JSON_STR s => Some (Some s)
  | _ => None
  end.
Definition vm_get_str (obj : JSONValue) (name : list Z) : option (list Z) := vm_get_str2 obj name false ≫= id.
Definition vm_get_str_opt (obj : JSONValue) (name : list Z) : option (option (list Z)) := vm_get_str2 obj name true.

(** ** The command line: ${TZ} is the offset of the local time *)

(** printf's %02d of a non-negative number *)
Definition dec2 (n : Z) : list Z := (if n <? 10 then [48] else []) ++ dec_digits 10 n [].
Definition tz_string (gmtoff : Z) : list Z :=
  let n := Z.quot gmtoff 60 in
  let '(sg, n) := if n <? 0 then (43, - n) else (45, n) in
  snprintf 32 (str "UTC" ++ [sg] ++ dec2 (Z.quot n 60) ++ [58] ++ dec2 (Z.rem n 60)).
(** The name behind "${", cut to the buffer of 32 bytes, and the rest behind the brace. *)
Fixpoint var_name (s q : list Z) : list Z * list Z :=
  match s with
  | [] => (q, [])
  | c :: s' => if c =? 125 then (q, s') else var_name s' (if Z.of_nat (length q) <? 31 then q ++ [c] else q)
  end.
Fixpoint subst_loop (gmtoff : Z) (fuel : nat) (p : list Z) : M DynBuf unit :=
  match fuel with
  | O => stop_with StopFuel
  | S f =>
      match p with
      | [] => mret tt
      | 36 :: 123 :: p' =>
          let '(name, rest) := var_name p' [] in
          _ ← (if decide (name = str "TZ") then dbuf_putstr (tz_string gmtoff) else mret tt);
          subst_loop gmtoff f rest
      | c :: p' => _ ← dbuf_putc c; subst_loop gmtoff f p'
      end
  end.
(** The string that the buffer holds, or the stop of its growth. *)
Definition cmdline_subst {S} (gmtoff : Z) (s : list Z) : M S (list Z) := fun st =>
  match (_ ← subst_loop gmtoff (Datatypes.S (length s)) s; dbuf_putc 0) dbuf_init with
  | Ok _ d => Ok (until_nul (dbuf_data d)) st
  | Stop r => Stop r
  end.

(** ** Machine classes *)
Fixpoint find_name_loop (fuel : nat) (name p : list Z) : bool :=
  match fuel with
  | O => false
  | S f =>
      match strchr 44 p with
      | None => bool_decide (name = p)
      | Some r => bool_decide (name = take (length p - length r) p) || find_name_loop f name (drop 1 r)
      end
  end.
(** There are fewer commas than characters. *)
Definition find_name (name name_list : list Z) : bool := find_name_loop (S (length name_list)) name name_list.
Definition riscv_machine_class : list Z := str "riscv32,riscv64,riscv128".
Definition virt_machine_list : list (list Z) := [riscv_machine_class].
Definition virt_machine_find_class (name : list Z) : option (list Z) := List.find (find_name name) virt_machine_list.

(** ** virt_machine_parse_config: 0, or -1 after a message *)
Abbreviation MV := (M VirtMachineParams).
Definition try {A} (r : option A) (k : A -> MV Z) : MV Z := match r with Some a => k a | None => mret (-1) end.
Definition upd (f : VirtMachineParams -> VirtMachineParams) : MV unit := modify f.
Definition set_filename (f : VMFileTypeEnum) (s : option (list Z)) : MV unit :=
  match s with
  | None => mret tt
  | Some _ => upd (fun p => set_files p (alter (fun e => mkFileEntry s (file_buf e) (file_len e)) (file_index f) (files p)))
  end.
(** A store behind the end of a table is a fault. *)
Definition add_entry {A} (max : Z) (get : VirtMachineParams -> list A) (set : VirtMachineParams -> list A -> VirtMachineParams) (a : A) : MV unit := fun p =>
  if Z.of_nat (length (get p)) <? max then Ok tt (set p (get p ++ [a])) else Stop StopFault.
(** The properties name0, name1, ... up to the first that is missing. *)
Section Entries.
Context {A : Type} (name : list Z) (limit max : Z) (get : VirtMachineParams -> list A) (set : VirtMachineParams -> list A -> VirtMachineParams).
Context (entry : Z -> JSONValue -> option A).
Fixpoint entries (fuel : nat) (cfg : JSONValue) (k : MV Z) : MV Z :=
  match fuel with
  | O => stop_with StopFuel
  | S f =>
      count ← gets (fun p => Z.of_nat (length (get p)));
      let obj := json_object_get cfg (snprintf 256 (name ++ dec_digits 10 count [])) in
      if json_is_undefined obj then k
      else if limit <=? count then mret (-1)
      else try (entry count obj) (fun a => _ ← add_entry max get set a; entries f cfg k)
  end.
End Entries.
Definition drive_entry (count : Z) (obj : JSONValue) : option VMDriveEntry :=
  file ← vm_get_str obj (str "file");
  device ← vm_get_str_opt obj (str "device");
  Some (mkDrive device file).
Definition fs_entry (count : Z) (obj : JSONValue) : option VMFSEntry :=
  file ← vm_get_str obj (str "file");
  tag ← vm_get_str_opt obj (str "tag");
  Some (mkFS (match tag with
              | Some t => t
              | None => if count =? 0 then str "/dev/root" else snprintf 256 (str "/dev/root" ++ dec_digits 10 count [])
              end) file).
Definition eth_entry (count : Z) (obj : JSONValue) : option VMEthEntry :=
  driver ← vm_get_str obj (str "driver");
  if decide (driver = str "tap") then
    ifname ← vm_get_str obj (str "ifname"); Some (mkEth driver (Some ifname))
  else Some (mkEth driver None).
Definition parse_display (cfg : JSONValue) (k : MV Z) : MV Z :=
  _ ← upd (fun p => set_display p None (width p) (height p));
  let obj := json_object_get cfg (str "display0") in
  if json_is_undefined obj then k
  else
    try (vm_get_str obj (str "device")) (fun device =>
    _ ← upd (fun p => set_display p (Some device) (width p) (height p));
    try (vm_get_int obj (str "width")) (fun w =>
    _ ← upd (fun p => set_display p (display_device p) w (height p));
    try (vm_get_int obj (str "height")) (fun h =>
    _ ← upd (fun p => set_display p (display_device p) (width p) h);
    try (vm_get_str_opt obj (str "vga_bios")) (fun bios =>
    _ ← set_filename VM_FILE_VGA_BIOS bios;
    k)))).
Definition parse_rest (cfg : JSONValue) : MV Z :=
  try (vm_get_str_opt cfg (str "input_device")) (fun input =>
  _ ← upd (fun p => set_input_device p input);
  try (vm_get_str_opt cfg (str "accel")) (fun accel =>
  try (match accel with
       | None => Some (fun p => p)
       | Some s =>
           if decide (s = str "none") then Some (fun p => set_accel_enable p false)
           else if decide (s = str "auto") then Some (fun p => set_accel_enable p true)
           else None
       end) (fun set_accel =>
  _ ← upd set_accel;
  match json_object_get cfg (str "rtc_local_time") with
  | JSON_UNDEFINED => mret 0
  | JSON_BOOL b => _ ← upd (fun p => set_rtc_local_time p b); mret 0
  | _ => mret (-1)
  end))).
Definition parse_tables (cfg : JSONValue) : MV Z :=
  entries (str "drive") MAX_DRIVE_DEVICE MAX_DRIVE_DEVICE tab_drive set_tab_drive drive_entry 6 cfg (
  entries (str "fs") MAX_DRIVE_DEVICE MAX_FS_DEVICE tab_fs set_tab_fs fs_entry 6 cfg (
  entries (str "eth") MAX_ETH_DEVICE MAX_ETH_DEVICE tab_eth set_tab_eth eth_entry 6 cfg (
  parse_display cfg (parse_rest cfg)))).
Section Parse.
Context (LONG gmtoff : Z).
Definition parse_object (cfg : JSONValue) : MV Z :=
  try (vm_get_int cfg (str "version")) (fun version =>
  if negb (version =? VM_CONFIG_VERSION) then mret (-1)
  else
    try (vm_get_str cfg (str "machine")) (fun name =>
    let c := virt_machine_find_class name in
    _ ← upd (fun p => set_machine p c (Some name));
    try c (fun _ =>
    try (vm_get_int cfg (str "memory_size")) (fun val =>
    _ ← upd (fun p => set_ram_size p (u64 (u64 val ≪ 20)));
    try (vm_get_str_opt cfg (str "bios")) (fun bios =>
    _ ← set_filename VM_FILE_BIOS bios;
    try (vm_get_str_opt cfg (str "kernel")) (fun kernel =>
    _ ← set_filename VM_FILE_KERNEL kernel;
    try (vm_get_str_opt cfg (str "initrd")) (fun initrd =>
    _ ← set_filename VM_FILE_INITRD initrd;
    try (vm_get_str_opt cfg (str "cmdline")) (fun cmd =>
    _ ← match cmd with
        | None => mret tt
        | Some s => c ← cmdline_subst gmtoff s; upd (fun p => set_cmdline p (Some c))
        end;
    parse_tables cfg)))))))).
(** json_parse_value_len allocates len + 1 bytes: of the largest int that is a negative size, which malloc cannot serve. *)
Definition virt_machine_parse_config (config_file_str : list Z) : MV Z :=
  _ ← (if Z.of_nat (length config_file_str) =? 2 ^ 31 - 1 then stop_with StopFault else mret tt);
  cfg ← json_parse_value_len LONG config_file_str;
  if json_is_error cfg then mret (-1) else parse_object cfg.

(** ** Files *)
Definition get_file_path (base_filename : option (list Z)) (name : list Z) : list Z :=
  match base_filename with
  | None => name
  | Some base =>
      match strchr 58 name with
      | Some _ => name
      | None =>
          if bool_decide (List.head name = Some 47) then name
          else match strchr 47 (rev base) with
               | None => name
               | Some r => rev r ++ name
               end
      end
  end.
(** The files of the host; one that cannot be opened ends the emulator. *)
Context (host_file : list Z -> option (list Z)).
(** ftell at the end of a file of [n] bytes: -1 when the position is not a long *)
Definition ftell_end (n : Z) : Z := if n <? 2 ^ (LONG - 1) then n else -1.
(** The size is an int.  Of a negative one malloc makes a size_t that it cannot serve, and fread stores through NULL;
    otherwise that many bytes are read, which the file has. *)
Definition load_file (name : list Z) : MV (list Z) :=
  match host_file name with
  | None => stop_with (StopExit 1)
  | Some content =>
      let size := i32 (ftell_end (Z.of_nat (length content))) in
      if size <? 0 then stop_with StopFault else mret (take (Z.to_nat size) content)
  end.
Definition file_at (i : nat) (p : VirtMachineParams) : option VMFileEntry := files p !! i.
(** config_additional_file_load and its callback, from file [i]. *)
Fixpoint config_additional_file_load (n i : nat) : MV unit :=
  match n with
  | O => mret tt
  | S n' =>
      e ← gets (file_at i);
      base ← gets cfg_filename;
      _ ← match e ≫= filename with
          | None => mret tt
          | Some name =>
              buf ← load_file (get_file_path base name);
              upd (fun p => set_files p (alter (fun e => mkFileEntry (filename e) (Some buf) (Z.of_nat (length buf))) i (files p)))
          end;
      config_additional_file_load n' (S i)
  end.
Definition config_file_loaded (buf : list Z) : MV unit :=
  r ← virt_machine_parse_config buf;
  if r <? 0 then stop_with (StopExit 1) else config_additional_file_load VM_FILE_COUNT 0.
Definition virt_machine_load_config_file (name : list Z) : MV unit :=
  _ ← upd (fun p => set_cfg_filename p (Some name));
  buf ← load_file name;
  config_file_loaded buf.
End Parse.

(** ** The command line of the emulator *)
Definition vm_add_cmdline (p : VirtMachineParams) (s : list Z) : VirtMachineParams :=
  set_cmdline p (Some (match s with
                       | 33 :: s' => s'
                       | _ => default [] (cmdline p) ++ [32] ++ s
                       end)).
