(* ===== verification/MachineCfgFacts.v ===== *)
(** * The configuration file: loading ends in a well-formed description, and a described machine
    is the one that is loaded *)
From S2P Require Export MachineCfg JsonInv.
From stdpp Require Import strings.
#[local] Open Scope Z_scope.

(** ** The command line *)

(** The allocation stays within twice the bytes, so that the sizes are ints. *)
Record buf_ok (d : DynBuf) (n : Z) : Prop := {
  bo_alloc : 0 <= allocated_size d <= 2 ^ 21;
  bo_length : Z.of_nat (length (dbuf_data d)) <= n;
}.
Lemma dbuf_write_ok data d n : buf_ok d n -> n + Z.of_nat (length data) <= 2 ^ 20 ->
  exists a, dbuf_write data d = Ok tt (mkDynBuf (dbuf_data d ++ data) a) /\ buf_ok (mkDynBuf (dbuf_data d ++ data) a) (n + Z.of_nat (length data)).
Proof.
  intros [Ha Hl] Hn. unfold dbuf_write. rewrite length_app, Nat2Z.inj_add. set (new := Z.of_nat (length (dbuf_data d)) + Z.of_nat (length data)).
  assert (0 <= allocated_size d * 3 / 2 /\ (allocated_size d < new -> allocated_size d * 3 / 2 <= 2 ^ 21)) as [H1 H2].
  { split; [apply Z.div_pos; lia|]. intros. Z.div_mod_to_equations. lia. }
  exists (if allocated_size d <? new then max_int new (allocated_size d * 3 / 2) else allocated_size d). split.
  - destruct (Z.ltb_spec (allocated_size d) new) as [H|H].
    + rewrite !swrap_id by lia. assert (new <= max_int new (allocated_size d * 3 / 2)) as Hm by (unfold max_int; zcases).
      by rewrite (proj2 (Z.ltb_ge _ _) Hm).
    + rewrite (proj2 (Z.ltb_ge (allocated_size d) new)) by lia. reflexivity.
  - split; cbn [allocated_size dbuf_data]; [|rewrite length_app; lia].
    destruct (Z.ltb_spec (allocated_size d) new) as [H|H]; [|done]. specialize (H2 H). unfold max_int. zcases.
Qed.
Lemma tz_length gmtoff : Z.of_nat (length (tz_string gmtoff)) <= 31.
Proof. unfold tz_string. destruct (if Z.quot gmtoff 60 <? 0 then (43, - Z.quot gmtoff 60) else (45, Z.quot gmtoff 60)) as [sg n]. unfold snprintf. rewrite length_take. lia. Qed.
Lemma var_name_length s : forall q, (length (snd (var_name s q)) <= length s)%nat.
Proof. induction s as [|c s IH]; intros q; cbn [var_name length]; [done|]. case_if; [cbn; lia|]. specialize (IH (if Z.of_nat (length q) <? 31 then q ++ [c] else q)). lia. Qed.
Definition no_dollar (p : list Z) : Prop := Forall (fun c => c <> 36) p.
Lemma subst_loop_ok gmtoff f : forall p d n, (length p < f)%nat -> buf_ok d n -> n + 31 * Z.of_nat (length p) < 2 ^ 20 ->
  exists d', subst_loop gmtoff f p d = Ok tt d' /\ buf_ok d' (n + 31 * Z.of_nat (length p)) /\
    (no_dollar p -> bytes p -> dbuf_data d' = dbuf_data d ++ p).
Proof.
  induction f as [|f IH]; intros p d n Hf Hd Hn; [lia|]. destruct p as [|c p].
  { exists d. split; [done|]. cbn [length Z.of_nat]. rewrite Z.add_0_r. split; [done|]. by rewrite app_nil_r. }
  assert (forall w rest, (length rest <= length p)%nat -> Z.of_nat (length w) <= 31 -> exists d',
    (_ ← dbuf_write w; subst_loop gmtoff f rest) d = Ok tt d' /\ buf_ok d' (n + 31 * Z.of_nat (length (c :: p))) /\
    (no_dollar rest -> bytes rest -> dbuf_data d' = dbuf_data d ++ w ++ rest)) as K.
  { intros w rest Hr Hw. cbn [length] in *. destruct (dbuf_write_ok w d n Hd) as (a & E & Ho); [lia|]. rewrite (bind_ok _ _ _ _ _ E).
    destruct (IH rest _ _ ltac:(lia) Ho) as (d' & -> & Ho' & Hx); [lia|]. exists d'. split; [done|]. split.
    - destruct Ho' as [? ?]. split; [done|lia].
    - intros H1 H2. rewrite Hx by done. cbn [dbuf_data]. by rewrite <- app_assoc. }
  destruct (K [u8 c] p) as (d' & E & Ho & Hx); [lia|cbn; lia|].
  assert (no_dollar (c :: p) -> bytes (c :: p) -> dbuf_data d' = dbuf_data d ++ c :: p) as Hx'.
  { intros [_ H1]%Forall_cons_1 [H2 H3]%Forall_cons_1. rewrite Hx by done. by rewrite wrap_fits. }
  destruct (Z.eq_dec c 36) as [->|Hc].
  - destruct p as [|e p]; [by exists d'|]. destruct (Z.eq_dec e 123) as [->|He].
    + cbn [subst_loop]. pose proof (var_name_length p []) as Hv. destruct (var_name p []) as [name rest]. cbn [snd] in Hv. case_decide.
      * destruct (K (tz_string gmtoff) rest) as (d2 & E2 & Ho2 & _); [cbn [length]; lia|apply tz_length|]. exists d2. split; [exact E2|]. split; [done|].
        intros [H0 _]%Forall_cons_1. done.
      * destruct (K [] rest) as (d2 & E2 & Ho2 & _); [cbn [length]; lia|cbn; lia|]. cbn [length] in *.
        destruct (IH rest d n ltac:(lia) Hd ltac:(lia)) as (d3 & E3 & Ho3 & _). exists d3. split; [exact E3|]. split; [destruct Ho3; split; [done|lia]|].
        intros [H0 _]%Forall_cons_1. done.
    + exists d'. split; [|by split]. rewrite <- E. cbn [subst_loop].
      repeat (match goal with |- context [match ?x with _ => _ end] => is_var x; destruct x end; try done).
  - exists d'. split; [|by split]. rewrite <- E. cbn [subst_loop].
    repeat (match goal with |- (match ?x with _ => _ end) _ = _ => is_var x; destruct x end; try done).
Qed.
Lemma cmdline_subst_ok {S} gmtoff s (st : S) : name_string s -> exists r, cmdline_subst gmtoff s st = Ok r st /\ (no_dollar s -> r = s).
Proof.
  intros [[Hn Hl] Hb]. unfold cmdline_subst.
  destruct (subst_loop_ok gmtoff (Datatypes.S (length s)) s dbuf_init 0) as (d & E & Ho & Hx); [lia|by split|lia|].
  rewrite (bind_ok _ _ _ _ _ E). destruct (dbuf_write_ok [u8 0] d _ Ho) as (a & E2 & _); [cbn [length]; lia|].
  unfold dbuf_putc. rewrite E2. eexists. split; [done|]. intros Hd. rewrite (Hx Hd Hb). cbn [dbuf_data dbuf_init app].
  clear -Hn. induction Hn as [|c s Hc _ IH]; [done|]. cbn [app until_nul]. rewrite (proj2 (Z.eqb_neq c 0)) by done. by rewrite IH.
Qed.

(** ** Loading any file *)
Section Load.
Context (LONG gmtoff : Z) (host_file : list Z -> option (list Z)) (cfg_name : list Z).

(** The description while it is parsed: tables within their arrays, no file loaded. *)
Record tables_ok (p : VirtMachineParams) : Prop := {
  tb_drives : Z.of_nat (length (tab_drive p)) <= MAX_DRIVE_DEVICE;
  tb_fs : Z.of_nat (length (tab_fs p)) <= MAX_FS_DEVICE;
  tb_eth : Z.of_nat (length (tab_eth p)) <= MAX_ETH_DEVICE;
  tb_files : length (files p) = VM_FILE_COUNT;
  tb_name : cfg_filename p = Some cfg_name;
}.
Definition unloaded (p : VirtMachineParams) : Prop := Forall (fun e => file_buf e = None) (files p).
Definition class_ok (p : VirtMachineParams) : Prop :=
  exists name, machine_name p = Some name /\ vmc p = Some riscv_machine_class /\ find_name name riscv_machine_class = true.
Definition whole_megabytes (p : VirtMachineParams) : Prop := fits 64 (ram_size p) /\ ram_size p mod 2 ^ 20 = 0.
Record described (p : VirtMachineParams) : Prop := {
  de_tables : tables_ok p;
  de_unloaded : unloaded p;
  de_class : class_ok p;
  de_ram : whole_megabytes p;
}.
Definition parsed (r : Z) (p : VirtMachineParams) : Prop := r = -1 \/ (r = 0 /\ described p).
Definition never (r : stop) : Prop := False.
Definition parses (m : MV Z) : Prop := forall p, described p -> wp m never parsed p.
Lemma parses_fail : parses (mret (-1)).
Proof. intros p H. by left. Qed.
Lemma parses_try {A} (r : option A) (k : A -> MV Z) : (forall a, r = Some a -> parses (k a)) -> parses (try r k).
Proof. intros H. destruct r as [a|]; cbn [try]; [by apply H|apply parses_fail]. Qed.
Lemma parses_upd f (k : MV Z) : (forall p, described p -> described (f p)) -> parses k -> parses (_ ← upd f; k).
Proof. intros Hf Hk p H. by apply Hk, Hf. Qed.
Lemma described_display d w h p : described p -> described (set_display p d w h).
Proof. by intros [[] ? ? ?]. Qed.
Lemma described_files p l : described p -> length l = VM_FILE_COUNT -> Forall (fun e => file_buf e = None) l -> described (set_files p l).
Proof. intros [[] ? ? ?] ? ?. by split; [split| | |]. Qed.
Lemma parses_filename f s (k : MV Z) : parses k -> parses (_ ← set_filename f s; k).
Proof.
  intros Hk. destruct s as [s|]; cbn [set_filename]; [|exact Hk]. apply parses_upd; [|done]. intros p Hp. apply described_files; [done| |].
  - rewrite length_alter. apply Hp.
  - apply Forall_alter; [apply Hp|]. intros e _ He. exact He.
Qed.
Lemma parses_entries {A} name limit max (get : VirtMachineParams -> list A) set entry fuel cfg k :
  (forall p l, get (set p l) = l) -> (forall p, described p -> Z.of_nat (length (get p)) <= max) ->
  (forall p l, described p -> Z.of_nat (length l) <= max -> described (set p l)) -> limit <= max -> 0 <= limit ->
  parses k -> forall p, described p -> Z.of_nat (length (get p)) <= limit < Z.of_nat (length (get p)) + Z.of_nat fuel ->
  wp (entries name limit max get set entry fuel cfg k) never parsed p.
Proof.
  intros Hget Hmax Hset Hl H0 Hk. induction fuel as [|fuel IH]; intros p Hp Hf.
  - lia.
  - cbn [entries]. apply wp_bind, wp_gets. case_if; [by apply Hk|]. case_if; [by left|].
    destruct (entry _ _) as [a|]; cbn [try]; [|by left]. apply wp_bind. unfold wp at 1, add_entry.
    rewrite (proj2 (Z.ltb_lt _ _)) by lia. apply IH.
    + apply Hset; [done|]. rewrite length_app. cbn [length]. lia.
    + rewrite Hget, length_app. cbn [length]. lia.
Qed.
Lemma parses_tables cfg : parses (parse_tables cfg).
Proof.
  assert (parses (parse_rest cfg)) as Hrest.
  { apply parses_try. intros input _. apply parses_upd; [by intros p [[] ? ? ?]|]. apply parses_try. intros accel _. apply parses_try.
    intros f Hf. apply parses_upd.
    - intros p Hp. destruct accel as [s|]; [|by injection Hf as <-]. repeat case_decide; simplify_eq; by destruct Hp as [[] ? ? ?].
    - intros p Hp. destruct (json_object_get cfg _); try (by left); right; (split; [done|]); by destruct Hp as [[] ? ? ?]. }
  assert (parses (parse_display cfg (parse_rest cfg))) as Hdisp.
  { apply parses_upd; [intros; by apply described_display|]. cbv zeta. case_if; [done|]. do 3 (apply parses_try; intros ? _; apply parses_upd; [intros; by apply described_display|]).
    apply parses_try. intros ? _. by apply parses_filename. }
  intros p Hp. pose proof Hp as [[Hd Hf He _ _] _ _ _]. unfold parse_tables, MAX_DRIVE_DEVICE, MAX_FS_DEVICE, MAX_ETH_DEVICE in *.
  apply parses_entries; try done; [by intros q [[]]|by intros q l [[] ? ? ?] ?| |lia]. clear p Hp Hd Hf He.
  intros p Hp. pose proof Hp as [[Hd Hf He _ _] _ _ _]. unfold MAX_DRIVE_DEVICE, MAX_FS_DEVICE, MAX_ETH_DEVICE in *.
  apply parses_entries; try done; [by intros q [[]]|by intros q l [[] ? ? ?] ?| |lia]. clear p Hp Hd Hf He.
  intros p Hp. pose proof Hp as [[Hd Hf He _ _] _ _ _]. unfold MAX_DRIVE_DEVICE, MAX_FS_DEVICE, MAX_ETH_DEVICE in *.
  apply parses_entries; try done; [by intros q [[]]|by intros q l [[] ? ? ?] ?|lia].
Qed.
Lemma typed_get cfg name s : typed cfg -> json_object_get cfg name = JSON_STR s -> name_string s.
Proof.
  intros Ht. destruct Ht as [|?|props Hp _| | |]; try discriminate. cbn [json_object_get]. induction Hp as [|[n v] props [_ Hv] _ IH]; [discriminate|].
  cbn [json_object_get2 snd] in *. case_decide; [|done]. intros Hx. cbn in Hx. subst v. destruct Hv as [Hv|Hv]; [by inversion Hv|discriminate].
Qed.
Lemma typed_str_opt cfg name s : typed cfg -> vm_get_str_opt cfg name = Some (Some s) -> name_string s.
Proof.
  intros Ht. unfold vm_get_str_opt, vm_get_str2. destruct (json_object_get cfg name) eqn:E; try discriminate. intros [= ->].
  by apply (typed_get cfg name).
Qed.
Lemma find_class_some name c : virt_machine_find_class name = Some c -> c = riscv_machine_class /\ find_name name riscv_machine_class = true.
Proof. unfold virt_machine_find_class, virt_machine_list. cbn [List.find]. destruct (find_name name riscv_machine_class); [|done]. by intros [= <-]. Qed.
Lemma ram_size_ok val : fits 64 (u64 (u64 val ≪ 20)) /\ u64 (u64 val ≪ 20) mod 2 ^ 20 = 0.
Proof.
  split; [by apply fits_wrap|]. unfold wrap. rewrite Z.shiftl_mul_pow2 by lia.
  replace (2 ^ 64) with (2 ^ 44 * 2 ^ 20) at 2 by done. rewrite Z.mul_mod_distr_r by done. by apply Z.mod_mul.
Qed.
Lemma parse_object_described cfg p : typed cfg -> tables_ok p -> unloaded p -> wp (parse_object gmtoff cfg) never parsed p.
Proof.
  intros Ht Hp Hu. unfold parse_object. destruct (vm_get_int cfg _) as [version|]; cbn [try]; [|by left]. case_if; [by left|].
  destruct (vm_get_str cfg _) as [name|]; cbn [try]; [|by left]. apply wp_bind, wp_modify.
  destruct (virt_machine_find_class name) as [c|] eqn:Ec; cbn [try]; [|by left]. apply find_class_some in Ec as [-> Hc].
  destruct (vm_get_int cfg _) as [val|]; cbn [try]; [|by left]. apply wp_bind, wp_modify.
  match goal with |- wp _ _ _ ?q => assert (described q) as Hd end.
  { destruct Hp. split; [by split|done|by exists name|apply ram_size_ok]. }
  revert Hd. generalize (set_ram_size (set_machine p (Some riscv_machine_class) (Some name)) (u64 (u64 val ≪ 20))).
  change (parses (try (vm_get_str_opt cfg (str "bios")) (fun bios =>
    _ ← set_filename VM_FILE_BIOS bios;
    try (vm_get_str_opt cfg (str "kernel")) (fun kernel =>
    _ ← set_filename VM_FILE_KERNEL kernel;
    try (vm_get_str_opt cfg (str "initrd")) (fun initrd =>
    _ ← set_filename VM_FILE_INITRD initrd;
    try (vm_get_str_opt cfg (str "cmdline")) (fun cmd =>
    _ ← match cmd with
        | None => mret tt
        | Some s => c ← cmdline_subst gmtoff s; upd (fun p => set_cmdline p (Some c))
        end;
    parse_tables cfg)))))).
  do 3 (apply parses_try; intros ? _; apply parses_filename). apply parses_try. intros cmd Hcmd q Hq. destruct cmd as [s|].
  - destruct (cmdline_subst_ok gmtoff s q) as (r & Er & _); [by eapply typed_str_opt|]. apply wp_bind, wp_bind. unfold wp at 1. rewrite Er.
    apply wp_modify, (parses_tables cfg (set_cmdline q (Some r))). by destruct Hq as [[] ? ? ?].
  - by apply (parses_tables cfg).
Qed.

(** ** The files *)
(** The bytes of the file as far as the low 32 bits of its size say, which are a nonnegative int: all bytes of a
    file that is smaller than 2^31. *)
Definition entry_loaded (e : VMFileEntry) : Prop :=
  match filename e with
  | None => file_buf e = None
  | Some name => exists content, host_file (get_file_path (Some cfg_name) name) = Some content /\
      let n := Z.of_nat (length content) mod 2 ^ 32 in
      n < 2 ^ 31 /\ file_len e = n /\ file_buf e = Some (take (Z.to_nat n) content)
  end.
(** The description that a machine is started from. *)
Record loaded (p : VirtMachineParams) : Prop := {
  lo_tables : tables_ok p;
  lo_class : class_ok p;
  lo_ram : whole_megabytes p;
  lo_files : Forall entry_loaded (files p);
}.
Definition too_big (least : Z) : Prop := exists name content, host_file name = Some content /\ least <= Z.of_nat (length content).
Definition exits (r : stop) : Prop := r = StopExit 1 \/ (r = StopFault /\ too_big (2 ^ 31)).
Lemma load_file_ok name X (Q : list Z -> VirtMachineParams -> Prop) p : 32 <= LONG ->
  X (StopExit 1) -> (too_big (2 ^ 31) -> X StopFault) ->
  (forall content, host_file name = Some content -> let n := Z.of_nat (length content) mod 2 ^ 32 in n < 2 ^ 31 ->
    Q (take (Z.to_nat n) content) p) -> wp (load_file LONG host_file name) X Q p.
Proof.
  intros HL H1 H2 HQ. unfold load_file. destruct (host_file name) as [content|] eqn:E; [|done]. cbv zeta.
  set (len := Z.of_nat (length content)). assert (2 ^ 31 <= 2 ^ (LONG - 1)) by (apply Z.pow_le_mono_r; lia).
  assert (i32 (ftell_end LONG len) < 0 -> 2 ^ 31 <= len) as Hneg.
  { intros Hn. destruct (Z_lt_le_dec len (2 ^ 31)); [|done]. unfold ftell_end in Hn. rewrite (proj2 (Z.ltb_lt _ _)) in Hn by lia.
    rewrite swrap_id in Hn by (change (2 ^ (32 - 1)) with (2 ^ 31); lia). lia. }
  apply wp_if; intros Hs.
  { apply Z.ltb_lt in Hs. apply H2. exists name, content. split; [done|]. by apply Hneg. }
  apply Z.ltb_ge in Hs. apply wp_ret. assert (i32 (ftell_end LONG len) = len mod 2 ^ 32 /\ len mod 2 ^ 32 < 2 ^ 31) as [-> Hlt]; [|by apply HQ].
  unfold ftell_end in *. destruct (len <? 2 ^ (LONG - 1)); [|done]. revert Hs. unfold swrap.
  change (2 ^ (32 - 1)) with (2 ^ 31). Z.div_mod_to_equations. lia.
Qed.
Lemma load_files n : 32 <= LONG -> forall i p, (i + n = VM_FILE_COUNT)%nat -> tables_ok p -> class_ok p -> whole_megabytes p ->
  Forall entry_loaded (take i (files p)) -> Forall (fun e => file_buf e = None) (drop i (files p)) ->
  wp (config_additional_file_load LONG host_file n i) exits (fun _ p' => loaded p') p.
Proof.
  intros HL. induction n as [|n IH]; intros i p Hi Ht Hc Hr Hl Hu.
  - split; try done. rewrite take_ge in Hl; [done|]. rewrite (tb_files _ Ht). lia.
  - cbn [config_additional_file_load]. apply wp_bind, wp_gets. apply wp_bind, wp_gets. unfold file_at.
    destruct (files p !! i) as [e|] eqn:Ee; [|apply lookup_ge_None in Ee; rewrite (tb_files _ Ht) in Ee; lia]. cbn [mbind option_bind].
    rewrite (drop_S _ _ _ Ee) in Hu. apply Forall_cons_1 in Hu as [He Hu].
    rewrite (tb_name _ Ht). destruct (filename e) as [name|] eqn:En.
    + apply wp_bind, wp_bind. apply load_file_ok; [done|by left|by right|]. intros content Eb m Hm. set (buf := take (Z.to_nat m) content). apply wp_modify.
      set (loaded_entry := fun e => mkFileEntry (filename e) (Some buf) (Z.of_nat (length buf))).
      assert (length (alter loaded_entry i (files p)) = VM_FILE_COUNT) as Hlen by (rewrite length_alter; apply Ht).
      apply IH; try done; [lia|by destruct Ht|..]; cbn [files set_files].
      * rewrite (take_S_r _ _ (loaded_entry e)) by (by rewrite list_lookup_alter_eq, Ee).
        rewrite take_alter_ge by lia. apply Forall_app. split; [done|]. constructor; [|constructor]. unfold entry_loaded. cbn [loaded_entry filename file_buf file_len].
        rewrite En. exists content. split; [done|]. cbv zeta. split; [done|]. split; [|done]. unfold buf. rewrite length_take.
        pose proof (Z.mod_le (Z.of_nat (length content)) (2 ^ 32)). pose proof (Z.mod_pos_bound (Z.of_nat (length content)) (2 ^ 32)). unfold m. lia.
      * rewrite drop_alter_lt by lia. done.
    + apply wp_bind, wp_ret. apply IH; try done; [lia|]. rewrite (take_S_r _ _ _ Ee). apply Forall_app. split; [done|]. constructor; [|constructor].
      unfold entry_loaded. by rewrite En.
Qed.
End Load.

(** Behind the parser: the object is read, then the files are loaded. *)
Lemma config_body_ok LONG gmtoff host_file cfg_name (E : stop -> Prop) v p0 : 32 <= LONG -> E (StopExit 1) -> (too_big host_file (2 ^ 31) -> E StopFault) ->
  tables_ok cfg_name p0 -> unloaded p0 -> (typed v \/ exists m, v = JSON_EXCEPTION m) ->
  wp (if json_is_error v then mret (-1) else parse_object gmtoff v) E
    (fun r p => wp (if r <? 0 then stop_with (StopExit 1) else config_additional_file_load LONG host_file VM_FILE_COUNT 0) E
      (fun _ p' => loaded host_file cfg_name p') p) p0.
Proof.
  intros HL HE HF Ht Hu [Hv|[m ->]]; [|done]. assert (json_is_error v = false) as -> by (by destruct Hv).
  pose proof (parse_object_described gmtoff cfg_name v p0 Hv Ht Hu) as Hp. unfold wp in Hp. unfold wp at 1.
  destruct (parse_object gmtoff v p0) as [z p|]; [|done]. destruct Hp as [->|[-> [H1 H2 H3 H4]]]; [done|]. cbn [Z.ltb Z.compare].
  pose proof (load_files LONG host_file cfg_name VM_FILE_COUNT HL 0 p eq_refl H1 H3 H4) as Hl. rewrite take_0, drop_0 in Hl.
  specialize (Hl ltac:(constructor) H2). unfold wp in *. destruct (config_additional_file_load LONG host_file VM_FILE_COUNT 0 p) as [|r]; [done|].
  destruct Hl as [->|[-> ?]]; auto.
Qed.
(** C34: loading a configuration file either ends the emulator with exit(1) or gives a
    description that a machine can be started from: the class of the named machine, a whole
    number of megabytes, tables of drives, file systems and network interfaces within their
    arrays, and every named file loaded from its path relative to the configuration file (of a file of 2^32 bytes or more, the
    bytes that the low 32 bits of its size count).  This holds for files of any bytes, but for two kinds that the emulator does not
    survive: a configuration file with an overlong word, and a file of 2^31-1 bytes or more. *)
Theorem config_load_safe LONG gmtoff host_file cfg_name : 32 <= LONG ->
  (forall text, host_file cfg_name = Some text -> bytes text) ->
  match virt_machine_load_config_file LONG gmtoff host_file cfg_name virt_machine_set_defaults with
  | Ok _ p => loaded host_file cfg_name p
  | Stop r => r = StopExit 1 \/ (r = StopFault /\
      ((exists text, host_file cfg_name = Some text /\ long_word (c_string text)) \/ too_big host_file (2 ^ 31 - 1)))
  end.
Proof.
  intros HL Hb. set (p0 := set_cfg_filename virt_machine_set_defaults (Some cfg_name)).
  assert (tables_ok cfg_name p0 /\ unloaded p0) as [Ht Hu] by (split; [by split|by repeat constructor]).
  set (E := fun r => r = StopExit 1 \/ (r = StopFault /\
    ((exists text, host_file cfg_name = Some text /\ long_word (c_string text)) \/ too_big host_file (2 ^ 31 - 1)))).
  assert (too_big host_file (2 ^ 31) -> E StopFault) as HbE.
  { intros (name & content & H1 & H2). right. split; [done|]. right. exists name, content. split; [done|lia]. }
  change (wp (virt_machine_load_config_file LONG gmtoff host_file cfg_name) E (fun _ p => loaded host_file cfg_name p) virt_machine_set_defaults).
  unfold virt_machine_load_config_file. apply wp_bind, wp_modify. fold p0. apply wp_bind. apply load_file_ok; [done|by left|done|].
  intros content Etext m Hm. set (text := take (Z.to_nat m) content). unfold config_file_loaded. apply wp_bind.
  unfold virt_machine_parse_config. apply wp_bind.
  destruct (Z_lt_le_dec (Z.of_nat (length content)) (2 ^ 31 - 1)) as [Hsmall|Hbig]; cycle 1.
  { assert (E StopFault) as HE by (right; split; [done|right; by exists cfg_name, content]).
    assert (bytes text) as Hbt by (apply Forall_take, (Hb _ Etext)).
    apply wp_if; intros _; [by apply wp_stop|]. apply wp_ret. apply wp_bind. pose proof (json_parse_ok LONG text p0 Hbt) as Hj.
    unfold wp at 1. destruct (json_parse_value_len LONG text p0) as [v s'|r]; [|by destruct Hj as [-> _]]. destruct Hj as [-> Hv].
    apply config_body_ok; try done; by left. }
  assert (text = content) as Et by (apply take_ge; unfold m; rewrite Z.mod_small by lia; lia). rewrite Et in *. clear Et text.
  rewrite (proj2 (Z.eqb_neq _ _)) by lia. apply wp_ret, wp_bind. pose proof (json_parse_ok LONG content p0 (Hb _ Etext)) as Hj.
  unfold wp at 1. destruct (json_parse_value_len LONG content p0) as [v s'|r]; [|destruct Hj; right; split; [done|left]; by eauto]. destruct Hj as [-> Hv].
  apply config_body_ok; try done; by left.
Qed.
