(* ===== verification/ConfigFacts.v ===== *)
(** * The configuration file of a described machine *)
From S2P Require Export MachineCfgFacts.
From stdpp Require Import strings.
#[local] Open Scope Z_scope.

(** ** What a configuration says *)
Record VmDesc := {
  d_machine : list Z;
  d_megabytes : Z;
  d_bios : option (list Z);
  d_kernel : option (list Z);
  d_initrd : option (list Z);
  d_cmdline : option (list Z);
  d_drives : list (list Z * option (list Z));            (* file, device *)
  d_fs : list (list Z * option (list Z));                (* file, tag *)
  d_eth : option (list Z * option (list Z));             (* driver, interface of a tap *)
  d_display : option (list Z * Z * Z * option (list Z)); (* device, width, height, BIOS *)
  d_input : option (list Z);
  d_accel : option bool;
  d_local_time : option bool;
}.
Definition opt_prop (f : string * option JSONValue) : list (list Z * JSONValue) :=
  match snd f with Some v => [(str (fst f), v)] | None => [] end.
Definition object (fields : list (string * option JSONValue)) : JSONValue := JSON_OBJ (concat (map opt_prop fields)).
Definition drive_json (e : list Z * option (list Z)) : JSONValue :=
  object [("file", Some (JSON_STR (fst e))); ("device", JSON_STR <$> snd e)].
Definition fs_json (e : list Z * option (list Z)) : JSONValue :=
  object [("file", Some (JSON_STR (fst e))); ("tag", JSON_STR <$> snd e)].
Definition eth_json (e : list Z * option (list Z)) : JSONValue :=
  object [("driver", Some (JSON_STR (fst e))); ("ifname", JSON_STR <$> snd e)].
Definition display_json (e : list Z * Z * Z * option (list Z)) : JSONValue :=
  let '(device, w, h, bios) := e in
  object [("device", Some (JSON_STR device)); ("width", Some (JSON_INT w)); ("height", Some (JSON_INT h));
          ("vga_bios", JSON_STR <$> bios)].
Definition fields (d : VmDesc) : list (string * option JSONValue) :=
  [("version", Some (JSON_INT 1)); ("machine", Some (JSON_STR (d_machine d)));
   ("memory_size", Some (JSON_INT (d_megabytes d))); ("bios", JSON_STR <$> d_bios d);
   ("kernel", JSON_STR <$> d_kernel d); ("initrd", JSON_STR <$> d_initrd d); ("cmdline", JSON_STR <$> d_cmdline d);
   ("drive0", drive_json <$> d_drives d !! 0%nat); ("drive1", drive_json <$> d_drives d !! 1%nat);
   ("drive2", drive_json <$> d_drives d !! 2%nat); ("drive3", drive_json <$> d_drives d !! 3%nat);
   ("fs0", fs_json <$> d_fs d !! 0%nat); ("fs1", fs_json <$> d_fs d !! 1%nat);
   ("fs2", fs_json <$> d_fs d !! 2%nat); ("fs3", fs_json <$> d_fs d !! 3%nat);
   ("eth0", eth_json <$> d_eth d); ("display0", display_json <$> d_display d);
   ("input_device", JSON_STR <$> d_input d);
   ("accel", (fun b : bool => JSON_STR (if b then str "auto" else str "none")) <$> d_accel d);
   ("rtc_local_time", JSON_BOOL <$> d_local_time d)].
Definition desc_json (d : VmDesc) : JSONValue := object (fields d).

(** ** Looking up the fields *)
Lemma str_inj s t : str s = str t -> s = t.
Proof.
  revert t. induction s as [|c s IH]; intros [|e t] H; try discriminate; [done|]. cbn [str] in H. injection H as H1 H2.
  apply Nat2Z.inj in H1. f_equal; [|by apply IH]. by rewrite <- (Ascii.ascii_nat_embedding c), H1, Ascii.ascii_nat_embedding.
Qed.
Fixpoint assoc (l : list (string * option JSONValue)) (n : string) : option JSONValue :=
  match l with
  | [] => None
  | (m, o) :: l' => if String.eqb m n then match o with Some v => Some v | None => assoc l' n end else assoc l' n
  end.
Lemma get_object l n : json_object_get (object l) (str n) = default JSON_UNDEFINED (assoc l n).
Proof.
  unfold object. cbn [json_object_get]. f_equal. induction l as [|[m o] l IH]; [done|]. cbn [map concat assoc]. unfold opt_prop at 1. cbn [fst snd].
  destruct o as [v|]; cbn [app json_object_get2]; rewrite IH; destruct (String.eqb_spec m n) as [->|Hne]; [by rewrite decide_True| |done..].
  rewrite decide_False; [done|]. by intros ?%str_inj.
Qed.
Ltac lookup_field := cbn [assoc fields String.eqb Ascii.eqb Bool.eqb].
Definition entry_name (name : list Z) (i : nat) : list Z := snprintf 256 (name ++ dec_digits 10 (Z.of_nat i) []).
Lemma get_drive d i : (length (d_drives d) <= 4)%nat -> (i <= 4)%nat ->
  json_object_get (desc_json d) (entry_name (str "drive") i) = default JSON_UNDEFINED (drive_json <$> d_drives d !! i).
Proof.
  intros Hl Hi. unfold desc_json.
  assert (i = 0 \/ i = 1 \/ i = 2 \/ i = 3 \/ i = 4)%nat as [->|[->|[->|[->| ->]]]] by lia.
  - change (entry_name (str "drive") 0) with (str "drive0"). rewrite get_object. lookup_field. by destruct (d_drives d !! _).
  - change (entry_name (str "drive") 1) with (str "drive1"). rewrite get_object. lookup_field. by destruct (d_drives d !! _).
  - change (entry_name (str "drive") 2) with (str "drive2"). rewrite get_object. lookup_field. by destruct (d_drives d !! _).
  - change (entry_name (str "drive") 3) with (str "drive3"). rewrite get_object. lookup_field. by destruct (d_drives d !! _).
  - change (entry_name (str "drive") 4) with (str "drive4"). rewrite get_object, (lookup_ge_None_2 _ 4) by lia. by lookup_field.
Qed.
Lemma get_fs d i : (length (d_fs d) <= 4)%nat -> (i <= 4)%nat ->
  json_object_get (desc_json d) (entry_name (str "fs") i) = default JSON_UNDEFINED (fs_json <$> d_fs d !! i).
Proof.
  intros Hl Hi. unfold desc_json.
  assert (i = 0 \/ i = 1 \/ i = 2 \/ i = 3 \/ i = 4)%nat as [->|[->|[->|[->| ->]]]] by lia.
  - change (entry_name (str "fs") 0) with (str "fs0"). rewrite get_object. lookup_field. by destruct (d_fs d !! _).
  - change (entry_name (str "fs") 1) with (str "fs1"). rewrite get_object. lookup_field. by destruct (d_fs d !! _).
  - change (entry_name (str "fs") 2) with (str "fs2"). rewrite get_object. lookup_field. by destruct (d_fs d !! _).
  - change (entry_name (str "fs") 3) with (str "fs3"). rewrite get_object. lookup_field. by destruct (d_fs d !! _).
  - change (entry_name (str "fs") 4) with (str "fs4"). rewrite get_object, (lookup_ge_None_2 _ 4) by lia. by lookup_field.
Qed.
Lemma get_eth d i : (i <= 1)%nat ->
  json_object_get (desc_json d) (entry_name (str "eth") i) = default JSON_UNDEFINED (eth_json <$> option_list (d_eth d) !! i).
Proof.
  intros Hi. unfold desc_json. assert (i = 0 \/ i = 1)%nat as [->| ->] by lia.
  - change (entry_name (str "eth") 0) with (str "eth0"). rewrite get_object. lookup_field. by destruct (d_eth d).
  - change (entry_name (str "eth") 1) with (str "eth1"). rewrite get_object. lookup_field. by destruct (d_eth d).
Qed.
(** Strings of an object *)
Lemma opt_string l n o : assoc l n = JSON_STR <$> o -> vm_get_str_opt (object l) (str n) = Some o.
Proof. intros H. unfold vm_get_str_opt, vm_get_str2. rewrite get_object, H. by destruct o. Qed.
Lemma req_string l n s : assoc l n = Some (JSON_STR s) -> vm_get_str (object l) (str n) = Some s.
Proof. intros H. unfold vm_get_str, vm_get_str2. rewrite get_object, H. done. Qed.
Lemma req_int l n v : assoc l n = Some (JSON_INT v) -> vm_get_int (object l) (str n) = Some v.
Proof. intros H. unfold vm_get_int. rewrite get_object, H. done. Qed.

(** ** The description that is expected *)
Definition drive_of (e : list Z * option (list Z)) : VMDriveEntry := mkDrive (snd e) (fst e).
Definition default_tag (i : nat) : list Z := if (i =? 0)%nat then str "/dev/root" else str "/dev/root" ++ dec_digits 10 (Z.of_nat i) [].
Definition fs_of (i : nat) (e : list Z * option (list Z)) : VMFSEntry := mkFS (default (default_tag i) (snd e)) (fst e).
Definition eth_of (e : list Z * option (list Z)) : VMEthEntry := mkEth (fst e) (snd e).
Definition vga_bios (d : VmDesc) : option (list Z) := d_display d ≫= snd.
Definition parsed_params (cfg_name : list Z) (d : VmDesc) : VirtMachineParams :=
  mkParams (Some cfg_name) (Some riscv_machine_class) (Some (d_machine d)) (d_megabytes d * 2 ^ 20)
    (default false (d_local_time d)) ((fun '(device, _, _, _) => device) <$> d_display d)
    (default 0 ((fun '(_, w, _, _) => w) <$> d_display d)) (default 0 ((fun '(_, _, h, _) => h) <$> d_display d))
    (map drive_of (d_drives d)) (imap fs_of (d_fs d)) (map eth_of (option_list (d_eth d))) (d_cmdline d)
    (default false (d_accel d)) (d_input d)
    (map (fun f => mkFileEntry f None 0) [d_bios d; vga_bios d; d_kernel d; d_initrd d]).
Definition string_ok (s : list Z) : Prop := name_string s.
Definition opt_ok (o : option (list Z)) : Prop := match o with Some s => name_string s | None => True end.
Definition pair_ok (e : list Z * option (list Z)) : Prop := name_string (fst e) /\ opt_ok (snd e).
(** A description that the file can hold. *)
Record desc_ok (d : VmDesc) : Prop := {
  dk_machine : name_string (d_machine d) /\ find_name (d_machine d) riscv_machine_class = true;
  dk_megabytes : 0 <= d_megabytes d < 2 ^ 31;
  dk_files : opt_ok (d_bios d) /\ opt_ok (d_kernel d) /\ opt_ok (d_initrd d);
  dk_cmdline : opt_ok (d_cmdline d) /\ match d_cmdline d with Some s => no_dollar s | None => True end;
  dk_drives : Forall pair_ok (d_drives d) /\ (length (d_drives d) <= 4)%nat;
  dk_fs : Forall pair_ok (d_fs d) /\ (length (d_fs d) <= 4)%nat;
  dk_eth : match d_eth d with Some e => pair_ok e /\ (is_Some (snd e) <-> fst e = str "tap") | None => True end;
  dk_display : match d_display d with
    | Some (device, w, h, bios) => name_string device /\ 0 <= w < 2 ^ 31 /\ 0 <= h < 2 ^ 31 /\ opt_ok bios
    | None => True
    end;
  dk_input : opt_ok (d_input d);
}.

(** ** The tables *)
Lemma entries_all {A B} name limit max (get : VirtMachineParams -> list A) set (entry : Z -> JSONValue -> option A) cfg k (json : B -> JSONValue) (mk : nat -> B -> A) :
  (forall p l, get (set p l) = l) -> (forall p l1 l2, set (set p l1) l2 = set p l2) -> (forall p, set p (get p) = p) -> limit <= max ->
  forall (l : list B) fuel p, (length l < fuel)%nat -> Z.of_nat (length (get p) + length l) <= limit ->
  (forall j, (j <= length l)%nat -> json_object_get cfg (entry_name name (length (get p) + j)) = default JSON_UNDEFINED (json <$> l !! j)) ->
  (forall j e, l !! j = Some e -> json_is_undefined (json e) = false /\ entry (Z.of_nat (length (get p) + j)) (json e) = Some (mk (length (get p) + j)%nat e)) ->
  entries name limit max get set entry fuel cfg k p = k (set p (get p ++ imap (fun j => mk (length (get p) + j)%nat) l)).
Proof.
  intros Hget Hset Hself Hmax. induction l as [|e l IH]; intros fuel p Hf Hl Hj He; (destruct fuel as [|fuel]; [cbn in Hf; lia|]); cbn [entries].
  - unfold gets, mbind, M_bind. pose proof (Hj 0%nat ltac:(cbn; lia)) as H0. rewrite Nat.add_0_r in H0. unfold entry_name in H0. rewrite H0. cbn.
    by rewrite app_nil_r, Hself.
  - unfold gets, mbind, M_bind. pose proof (Hj 0%nat ltac:(cbn; lia)) as H0. rewrite Nat.add_0_r in H0. unfold entry_name in H0. rewrite H0. cbn [lookup list_lookup fmap option_fmap option_map default from_option].
    destruct (He 0%nat e eq_refl) as [Hu Hent]. rewrite Nat.add_0_r in Hent. unfold id. rewrite Hu. cbn [length] in *.
    rewrite (proj2 (Z.leb_gt _ _)) by lia. rewrite Hent. cbn [try]. unfold add_entry. rewrite (proj2 (Z.ltb_lt _ _)) by lia.
    rewrite IH; rewrite ?Hget, ?length_app; cbn [length]; try lia.
    + rewrite Hset, <- app_assoc. cbn [app imap]. rewrite Nat.add_0_r. do 4 f_equal. apply imap_ext. intros j x _. cbn. f_equal. lia.
    + intros j Hlj. replace (length (get p) + 1 + j)%nat with (length (get p) + S j)%nat by lia. rewrite Hj by lia. done.
    + intros j e' Hje. replace (length (get p) + 1 + j)%nat with (length (get p) + S j)%nat by lia. by apply He.
Qed.

Lemma drive_parses e i : json_is_undefined (drive_json e) = false /\ drive_entry (Z.of_nat i) (drive_json e) = Some (drive_of e).
Proof.
  split; [done|]. destruct e as [file device]. unfold drive_entry, drive_json. cbn [fst snd].
  rewrite (req_string _ "file" file) by (by lookup_field). cbn [mbind option_bind].
  rewrite (opt_string _ "device" device) by (lookup_field; by destruct device). done.
Qed.
Lemma fs_parses e i : (i < 4)%nat -> json_is_undefined (fs_json e) = false /\ fs_entry (Z.of_nat i) (fs_json e) = Some (fs_of i e).
Proof.
  intros Hi. split; [done|]. destruct e as [file tag]. unfold fs_entry, fs_json, fs_of, default_tag. cbn [fst snd].
  rewrite (req_string _ "file" file) by (by lookup_field). cbn [mbind option_bind].
  rewrite (opt_string _ "tag" tag) by (lookup_field; by destruct tag). cbn [mbind option_bind].
  destruct tag as [t|]; [done|]. assert (i = 0 \/ i = 1 \/ i = 2 \/ i = 3)%nat as [->|[->|[->| ->]]] by lia; reflexivity.
Qed.
Lemma eth_parses e i : (is_Some (snd e) <-> fst e = str "tap") ->
  json_is_undefined (eth_json e) = false /\ eth_entry i (eth_json e) = Some (eth_of e).
Proof.
  intros Ht. split; [done|]. destruct e as [driver ifname]. unfold eth_entry, eth_json, eth_of. cbn [fst snd] in *.
  rewrite (req_string _ "driver" driver) by (by lookup_field). cbn [mbind option_bind]. case_decide as Hd.
  - destruct (proj2 Ht Hd) as [s ->]. rewrite (req_string _ "ifname" s) by (by lookup_field). done.
  - destruct ifname as [s|]; [destruct Hd; by apply Ht|done].
Qed.

(** ** The whole object *)
Definition set_file (f : VMFileTypeEnum) (s : option (list Z)) (p : VirtMachineParams) : VirtMachineParams :=
  match s with None => p | Some _ => set_files p (alter (fun e => mkFileEntry s (file_buf e) (file_len e)) (file_index f) (files p)) end.
Lemma set_filename_eq {A} f s (k : MV A) p : (_ ← set_filename f s; k) p = k (set_file f s p).
Proof. by destruct s. Qed.
Lemma upd_eq {A} f (k : MV A) p : (_ ← upd f; k) p = k (f p).
Proof. done. Qed.
Definition after_display (d : VmDesc) (p : VirtMachineParams) : VirtMachineParams :=
  match d_display d with
  | None => set_display p None (width p) (height p)
  | Some (device, w, h, bios) => set_file VM_FILE_VGA_BIOS bios (set_display p (Some device) w h)
  end.
Lemma display_parses d k p : parse_display (desc_json d) k p = k (after_display d p).
Proof.
  unfold parse_display, after_display. rewrite upd_eq. cbv zeta. unfold desc_json at 1. rewrite (get_object _ "display0").
  assert (assoc (fields d) "display0" = display_json <$> d_display d) as E by (lookup_field; by destruct (d_display d)).
  assert (json_object_get (desc_json d) (str "display0") = default JSON_UNDEFINED (display_json <$> d_display d)) as E2 by (unfold desc_json; by rewrite get_object, E).
  rewrite E. rewrite E2. destruct (d_display d) as [[[[device w] h] bios]|]; cbn [fmap option_fmap option_map default from_option]; [|done]. unfold id.
  unfold display_json. cbn [json_is_undefined object]. rewrite (req_string _ "device" device) by (by lookup_field). cbn [try]. rewrite upd_eq.
  rewrite (req_int _ "width" w) by (by lookup_field). cbn [try]. rewrite upd_eq.
  rewrite (req_int _ "height" h) by (by lookup_field). cbn [try]. rewrite upd_eq.
  rewrite (opt_string _ "vga_bios" bios) by (lookup_field; by destruct bios). cbn [try]. by rewrite set_filename_eq.
Qed.
Lemma rest_parses d p : parse_rest (desc_json d) p = Ok 0
  (let p := set_input_device p (d_input d) in
   let p := match d_accel d with Some b => set_accel_enable p b | None => p end in
   match d_local_time d with Some b => set_rtc_local_time p b | None => p end).
Proof.
  unfold parse_rest, desc_json. rewrite (opt_string _ "input_device" (d_input d)) by (lookup_field; by destruct (d_input d)). cbn [try]. rewrite upd_eq.
  rewrite (opt_string _ "accel" ((fun b : bool => if b then str "auto" else str "none") <$> d_accel d)) by (lookup_field; by destruct (d_accel d)).
  cbn [try]. rewrite (get_object _ "rtc_local_time"). lookup_field. destruct (d_accel d) as [[]|], (d_local_time d); reflexivity.
Qed.

Lemma imap_map {A B} (f : A -> B) l : imap (fun _ => f) l = map f l.
Proof. induction l as [|a l IH]; [done|]. cbn [imap map]. f_equal. exact IH. Qed.
Lemma ram_of d : desc_ok d -> u64 (u64 (d_megabytes d) ≪ 20) = d_megabytes d * 2 ^ 20.
Proof. intros H. pose proof (dk_megabytes d H). rewrite Z.shiftl_mul_pow2, (wrap_fits 64 (d_megabytes d)), wrap_fits by (unfold fits; lia). done. Qed.
Lemma tables_parse d p : desc_ok d -> tab_drive p = [] -> tab_fs p = [] -> tab_eth p = [] ->
  parse_tables (desc_json d) p = parse_rest (desc_json d) (after_display d
    (set_tab_eth (set_tab_fs (set_tab_drive p (map drive_of (d_drives d))) (imap fs_of (d_fs d))) (map eth_of (option_list (d_eth d))))).
Proof.
  intros Hd H1 H2 H3. pose proof (dk_drives d Hd) as [Hp1 Hl1]. pose proof (dk_fs d Hd) as [Hp2 Hl2]. unfold parse_tables.
  assert (forall q, set_tab_drive q (tab_drive q) = q) as Sd by (by intros []).
  assert (forall q, set_tab_fs q (tab_fs q) = q) as Sf by (by intros []).
  assert (forall q, set_tab_eth q (tab_eth q) = q) as Se by (by intros []).
  rewrite (entries_all _ _ _ tab_drive set_tab_drive _ _ _ drive_json (fun _ => drive_of) (fun _ _ => eq_refl) (fun _ _ _ => eq_refl) Sd (Z.le_refl _) (d_drives d)); rewrite ?H1; try done.
  2: { cbn [length]. lia. }
  2: { unfold MAX_DRIVE_DEVICE. cbn [length]. lia. }
  2: { intros j Hj. apply get_drive; lia. }
  2: { intros j e Hj. apply drive_parses. }
  rewrite (entries_all _ _ _ tab_fs set_tab_fs _ _ _ fs_json fs_of (fun _ _ => eq_refl) (fun _ _ _ => eq_refl) Sf (Z.le_refl _) (d_fs d)); cbn [tab_fs set_tab_drive]; rewrite ?H2; try done.
  2: { cbn [length]. lia. }
  2: { unfold MAX_DRIVE_DEVICE. cbn [length]. lia. }
  2: { intros j Hj. apply get_fs; lia. }
  2: { intros j e Hj. apply fs_parses. apply lookup_lt_Some in Hj. cbn [length]. lia. }
  assert (length (option_list (d_eth d)) <= 1)%nat as Hl3 by (destruct (d_eth d); cbn; lia).
  rewrite (entries_all _ _ _ tab_eth set_tab_eth _ _ _ eth_json (fun _ => eth_of) (fun _ _ => eq_refl) (fun _ _ _ => eq_refl) Se (Z.le_refl _) (option_list (d_eth d))); cbn [tab_eth set_tab_drive set_tab_fs]; rewrite ?H3; try done.
  2: { cbn [length]. lia. }
  2: { unfold MAX_ETH_DEVICE. cbn [length]. lia. }
  2: { intros j Hj. apply get_eth. cbn [length]. lia. }
  2: { intros j e Hj. apply eth_parses. pose proof (dk_eth d Hd) as He. destruct (d_eth d) as [e'|]; [|done].
       destruct j; [|done]. injection Hj as <-. apply He. }
  rewrite display_parses. cbn [app length]. by rewrite !imap_map.
Qed.
Lemma object_parses gmtoff cfg_name d : desc_ok d ->
  parse_object gmtoff (desc_json d) (set_cfg_filename virt_machine_set_defaults (Some cfg_name)) = Ok 0 (parsed_params cfg_name d).
Proof.
  intros Hd. destruct (dk_machine d Hd) as [_ Hm]. unfold parse_object, desc_json.
  rewrite (req_int _ "version" 1) by (by lookup_field). cbn [try Z.eqb Pos.eqb negb VM_CONFIG_VERSION].
  rewrite (req_string _ "machine" (d_machine d)) by (by lookup_field). cbn [try]. rewrite upd_eq.
  assert (virt_machine_find_class (d_machine d) = Some riscv_machine_class) as -> by (unfold virt_machine_find_class, virt_machine_list; cbn [List.find]; by rewrite Hm).
  cbn [try]. rewrite (req_int _ "memory_size" (d_megabytes d)) by (by lookup_field). cbn [try]. rewrite upd_eq, ram_of by done.
  rewrite (opt_string _ "bios" (d_bios d)) by (lookup_field; by destruct (d_bios d)). cbn [try]. rewrite set_filename_eq.
  rewrite (opt_string _ "kernel" (d_kernel d)) by (lookup_field; by destruct (d_kernel d)). cbn [try]. rewrite set_filename_eq.
  rewrite (opt_string _ "initrd" (d_initrd d)) by (lookup_field; by destruct (d_initrd d)). cbn [try]. rewrite set_filename_eq.
  rewrite (opt_string _ "cmdline" (d_cmdline d)) by (lookup_field; by destruct (d_cmdline d)). cbn [try].
  set (p := set_file VM_FILE_INITRD _ _).
  assert ((_ ← match d_cmdline d with
               | None => mret tt
               | Some s => c ← cmdline_subst gmtoff s; upd (fun p => set_cmdline p (Some c))
               end; parse_tables (desc_json d)) p = parse_tables (desc_json d) (match d_cmdline d with Some s => set_cmdline p (Some s) | None => p end)) as E.
  { destruct (dk_cmdline d Hd) as [H1 H2]. destruct (d_cmdline d) as [s|]; [|done]. destruct (cmdline_subst_ok gmtoff s p H1) as (r & Er & Hr).
    rewrite (Hr H2) in Er. unfold mbind at 1 2, M_bind at 1 2. by rewrite Er. }
  unfold desc_json in E. rewrite E. fold (desc_json d). rewrite tables_parse; [|done|..].
  - rewrite rest_parses. f_equal. unfold p, after_display, parsed_params, set_file, vga_bios.
    destruct (d_bios d), (d_kernel d), (d_initrd d), (d_cmdline d), (d_display d) as [[[[? ?] ?] []]|], (d_accel d) as [[]|], (d_local_time d); reflexivity.
  - unfold p, set_file. by destruct (d_bios d), (d_kernel d), (d_initrd d), (d_cmdline d).
  - unfold p, set_file. by destruct (d_bios d), (d_kernel d), (d_initrd d), (d_cmdline d).
  - unfold p, set_file. by destruct (d_bios d), (d_kernel d), (d_initrd d), (d_cmdline d).
Qed.

(** ** The text of a description *)
Lemma plain_object l : NoDup (map fst l) -> Forall (fun f => plain_string (str (fst f)) /\ str (fst f) <> [] /\ match snd f with Some v => plain v | None => True end) l ->
  plain (object l).
Proof.
  intros Hn Hl. constructor.
  - clear Hn. induction Hl as [|[n o] l (H1 & H2 & H3) _ IH]; [constructor|]. cbn [map concat]. apply Forall_app. split; [|done].
    unfold opt_prop. cbn [fst snd] in *. destruct o; [|constructor]. constructor; [by split_and!|constructor].
  - clear Hl. induction l as [|[n o] l IH]; [constructor|]. cbn [map fst] in Hn. apply NoDup_cons in Hn as [Hi Hn]. specialize (IH Hn).
    cbn [map concat]. rewrite map_app. unfold opt_prop at 1. cbn [fst snd]. destruct o as [v|]; cbn [map app fst]; [|done]. constructor; [|done].
    intros Hin. apply Hi. clear -Hin. induction l as [|[m o] l IH]; [by apply elem_of_nil in Hin|]. cbn [map concat] in *. rewrite map_app in Hin.
    apply elem_of_app in Hin as [Hin|Hin]; [|apply list_elem_of_further; by apply IH]. unfold opt_prop in Hin. cbn [fst snd] in Hin.
    destruct o; cbn [map fst] in Hin; [|by apply elem_of_nil in Hin]. apply list_elem_of_singleton, str_inj in Hin as ->. apply list_elem_of_here.
Qed.
Definition name_check (n : string) : bool :=
  match str n with [] => false | s => forallb (fun c => negb (c =? 0)) s && (length s <=? 4095)%nat end.
Lemma plain_field n (o : option JSONValue) : name_check n = true -> match o with Some v => plain v | None => True end ->
  plain_string (str (fst (n, o))) /\ str (fst (n, o)) <> [] /\ match snd (n, o) with Some v => plain v | None => True end.
Proof.
  unfold name_check. cbn [fst snd]. intros Hn Ho. destruct (str n) as [|c s] eqn:E; [done|]. apply andb_true_iff in Hn as [Hf Hl%Nat.leb_le].
  split; [|by split]. split; [|done]. apply List.Forall_forall. intros x Hx. rewrite forallb_forall in Hf. specialize (Hf x Hx). by intros ->.
Qed.
Lemma plain_opt o : opt_ok o -> match JSON_STR <$> o with Some v => plain v | None => True end.
Proof. destruct o as [s|]; [|done]. intros [H _]. by constructor. Qed.
Ltac plain_fields := repeat (constructor; [apply plain_field; [by vm_compute|]|]); [..|constructor].
Ltac distinct_names := apply (bool_decide_unpack _); by vm_compute.
Lemma plain_drive e : pair_ok e -> plain (drive_json e) /\ plain (fs_json e) /\ plain (eth_json e).
Proof.
  destruct e as [f o]. intros [[Hf _] Ho]. cbn [fst snd] in *.
  split; [|split]; (apply plain_object; [distinct_names|]); plain_fields; try (by constructor); by apply plain_opt.
Qed.
Lemma plain_entry (json : list Z * option (list Z) -> JSONValue) l i : Forall pair_ok l -> (forall e, pair_ok e -> plain (json e)) ->
  match json <$> l !! i with Some v => plain v | None => True end.
Proof. intros Hl Hj. destruct (l !! i) as [e|] eqn:E; [|done]. apply Hj. by eapply Forall_lookup_1. Qed.
Lemma plain_display e : (let '(device, w, h, bios) := e in name_string device /\ 0 <= w < 2 ^ 31 /\ 0 <= h < 2 ^ 31 /\ opt_ok bios) -> plain (display_json e).
Proof.
  destruct e as [[[device w] h] bios]. intros ([Hd _] & Hw & Hh & Hb). apply plain_object; [distinct_names|].
  plain_fields; try (constructor; lia); try (by constructor). by apply plain_opt.
Qed.
Lemma plain_desc d : desc_ok d -> plain (desc_json d).
Proof.
  intros [[[Hm _] _] Hmb (Hb & Hk & Hi) [Hc _] [Hd _] [Hf _] He Hdi Hin]. apply plain_object; [distinct_names|].
  plain_fields; try (by apply plain_opt); try (apply plain_entry; [done|]; intros; by apply plain_drive); try (constructor; lia); try (by constructor).
  - destruct (d_eth d) as [e|]; [|done]. destruct He as [He _]. apply (plain_drive e He).
  - destruct (d_display d); [|done]. by apply plain_display.
  - destruct (d_accel d) as [[]|]; [..|done]; constructor; (split; [repeat constructor; done|cbn; lia]).
  - destruct (d_local_time d); [|done]. constructor.
Qed.

(** ** Loading *)
Section Loading.
Context (LONG : Z) (HL : 32 <= LONG) (host_file : list Z -> option (list Z)) (cfg_name : list Z).
Definition content (f : option (list Z)) : option (list Z) := n ← f; host_file (get_file_path (Some cfg_name) n).
Definition loaded_entry (f : option (list Z)) : VMFileEntry :=
  mkFileEntry f (content f) (Z.of_nat (length (default [] (content f)))).
Definition named (d : VmDesc) : list (option (list Z)) := [d_bios d; vga_bios d; d_kernel d; d_initrd d].
Definition loaded_params (d : VmDesc) : VirtMachineParams :=
  set_files (parsed_params cfg_name d) (map (fun f => loaded_entry f) (named d)).
(** The files that are named exist, with less than 2^31 bytes. *)
Definition file_small (f : option (list Z)) : Prop := is_Some f -> exists buf, content f = Some buf /\ Z.of_nat (length buf) < 2 ^ 31.
Definition files_exist (d : VmDesc) : Prop := Forall file_small (named d).
Lemma load_file_small {X} name buf (k : list Z -> MV X) p : host_file name = Some buf -> Z.of_nat (length buf) < 2 ^ 31 ->
  (load_file LONG host_file name ≫= k) p = k buf p.
Proof.
  intros E Hl. unfold load_file. rewrite E. cbv zeta. unfold ftell_end. assert (2 ^ 31 <= 2 ^ (LONG - 1)) by (apply Z.pow_le_mono_r; lia).
  rewrite (proj2 (Z.ltb_lt (Z.of_nat (length buf)) _)) by lia. rewrite swrap_id by (change (2 ^ (32 - 1)) with (2 ^ 31); lia).
  rewrite (proj2 (Z.ltb_ge _ _)) by lia. by rewrite Nat2Z.id, firstn_all.
Qed.
Lemma load_one p i f n : cfg_filename p = Some cfg_name -> files p !! i = Some (mkFileEntry f None 0) -> file_small f ->
  config_additional_file_load LONG host_file (S n) i p = config_additional_file_load LONG host_file n (S i) (set_files p (<[i := loaded_entry f]> (files p))).
Proof.
  intros Hc Hi Hf. cbn [config_additional_file_load]. unfold gets, file_at. unfold mbind at 1 2, M_bind at 1 2. rewrite Hi, Hc. cbn [mbind option_bind filename].
  destruct f as [name|].
  - destruct (Hf (ex_intro _ name eq_refl)) as (buf & Hb & Hl). unfold loaded_entry. rewrite Hb. cbn [default]. unfold content in Hb. cbn [mbind option_bind] in Hb.
    unfold mbind at 1, M_bind at 1. rewrite (load_file_small _ buf) by done. unfold upd, modify. do 2 f_equal. apply list_eq. intros j. rewrite list_lookup_alter, list_lookup_insert. case_decide as Hj.
    + subst j. rewrite Hi. cbn. rewrite decide_True; [done|]. split; [done|]. by eapply lookup_lt_Some.
    + rewrite decide_False; [done|]. by intros [? _].
  - change (loaded_entry None) with (mkFileEntry None None 0). unfold mbind, M_bind, mret, M_ret. f_equal. rewrite list_insert_id by done. by destruct p.
Qed.
End Loading.

(** C35: a described machine is the machine that is loaded.  When the configuration file is the
    text of a description, printed with any spaces and comments, in less than 2^31-1 bytes, and the files it names exist with less than
    2^31 bytes, loading it gives the parameters of the description: class and memory, every drive, file
    system and network interface in its place with its default tag, the display, the command
    line, the options, and the contents and sizes of the named files. *)
Theorem config_roundtrip LONG gmtoff host_file cfg_name d sp before after (text := before ++ print sp (desc_json d) ++ after) :
  32 <= LONG -> blank sp -> blank before -> blank after -> desc_ok d ->
  host_file cfg_name = Some text -> Z.of_nat (length text) < 2 ^ 31 - 1 -> files_exist host_file cfg_name d ->
  virt_machine_load_config_file LONG gmtoff host_file cfg_name virt_machine_set_defaults = Ok tt (loaded_params host_file cfg_name d).
Proof.
  intros HL H1 H2 H3 Hd Hcfg Hlen Hf. unfold virt_machine_load_config_file. rewrite upd_eq. rewrite (load_file_small LONG HL _ _ text) by (done || lia).
  unfold config_file_loaded, virt_machine_parse_config. rewrite (proj2 (Z.eqb_neq _ _)) by lia.
  rewrite (bind_ok _ _ _ 0 (parsed_params cfg_name d)).
  2: { rewrite (bind_ok (mret tt) _ _ _ _ eq_refl). rewrite (bind_ok _ _ _ _ _ (json_print_parse LONG sp before after _ _ HL H1 H2 H3 (plain_desc d Hd))). by apply object_parses. }
  cbn [Z.ltb Z.compare]. change VM_FILE_COUNT with 4%nat. unfold files_exist, named in Hf. rewrite !Forall_cons in Hf. destruct Hf as (F0 & F1 & F2 & F3 & _).
  rewrite (load_one LONG HL host_file cfg_name _ 0 (d_bios d)) by done. rewrite (load_one LONG HL host_file cfg_name _ 1 (vga_bios d)) by done.
  rewrite (load_one LONG HL host_file cfg_name _ 2 (d_kernel d)) by done. rewrite (load_one LONG HL host_file cfg_name _ 3 (d_initrd d)) by done. reflexivity.
Qed.
(** A machine with a BIOS, a drive, two file systems and a tap. *)
Definition example_desc : VmDesc := {|
  d_machine := str "riscv64"; d_megabytes := 256; d_bios := Some (str "bbl64.bin"); d_kernel := None; d_initrd := None;
  d_cmdline := Some (str "console=hvc0 root=/dev/vda rw"); d_drives := [(str "root.bin", None)];
  d_fs := [(str "/tmp", None); (str "/srv", Some (str "srv"))]; d_eth := Some (str "tap", Some (str "tap0"));
  d_display := Some (str "simplefb", 1024, 640, None); d_input := Some (str "virtio"); d_accel := None; d_local_time := Some true |}.
Definition example_host (n : list Z) : option (list Z) :=
  if decide (n = str "vm/vm.cfg") then Some ([10] ++ print [32] (desc_json example_desc) ++ [10])
  else if decide (n = str "vm/bbl64.bin") then Some [19; 5; 0; 0]
  else None.
Lemma example_desc_ok : desc_ok example_desc.
Proof.
  assert (forall s, forallb (fun c => (0 <? c) && (c <? 256)) s && (length s <=? 4095)%nat = true -> name_string s) as H.
  { intros s [Hf Hl%Nat.leb_le]%andb_true_iff. rewrite forallb_forall in Hf.
    split; [split; [|done]|]; apply List.Forall_forall; intros c Hc; specialize (Hf c Hc); apply andb_true_iff in Hf as [?%Z.ltb_lt ?%Z.ltb_lt];
      [lia|unfold is_byte, fits; change (2 ^ 8) with 256; lia]. }
  split.
  - split; [by apply H|by vm_compute].
  - cbn. lia.
  - split; [by apply H|done].
  - split; [by apply H|]. cbn [d_cmdline example_desc]. apply List.Forall_forall. intros c Hc ->.
    assert (existsb (Z.eqb 36) (str "console=hvc0 root=/dev/vda rw") = true) as E by (apply existsb_exists; by exists 36). by vm_compute in E.
  - split; [|cbn; lia]. constructor; [|constructor]. split; [by apply H|done].
  - split; [|cbn; lia]. constructor; [split; [by apply H|done]|]. constructor; [split; by apply H|constructor].
  - split; [split; by apply H|]. split; [done|]. intros _. by eexists.
  - split; [by apply H|]. split; [lia|]. split; [lia|done].
  - by apply H.
Qed.
Lemma example_bios : content example_host (str "vm/vm.cfg") (Some (str "bbl64.bin")) = Some [19; 5; 0; 0].
Proof. by vm_compute. Qed.
Lemma config_roundtrip_witness :
  virt_machine_load_config_file 32 3600 example_host (str "vm/vm.cfg") virt_machine_set_defaults =
  Ok tt (loaded_params example_host (str "vm/vm.cfg") example_desc).
Proof.
  apply (config_roundtrip 32 3600 example_host (str "vm/vm.cfg") example_desc [32] [10] [10]); [lia|by repeat constructor..| | | |].
  - exact example_desc_ok.
  - unfold example_host. by rewrite decide_True.
  - apply Z.ltb_lt. vm_compute. reflexivity.
  - unfold files_exist, named. cbn [d_bios d_kernel d_initrd vga_bios d_display example_desc mbind option_bind snd].
    constructor; [intros _; exists [19; 5; 0; 0]; split; [exact example_bios|done]|].
    repeat (constructor; [by intros [? [=]]|]). constructor.
Defined.
Lemma config_load_safe_witness :
  match virt_machine_load_config_file 32 0 (fun _ => Some (str "{}")) (str "c") virt_machine_set_defaults with
  | Ok _ p => loaded (fun _ => Some (str "{}")) (str "c") p
  | Stop r => r = StopExit 1 \/ (r = StopFault /\
      ((exists text, (fun _ => Some (str "{}")) (str "c") = Some text /\ long_word (c_string text)) \/
       too_big (fun _ => Some (str "{}")) (2 ^ 31 - 1)))
  end.
Proof. apply (config_load_safe 32 0 (fun _ => Some (str "{}")) (str "c")); [lia|]. intros text [= <-]. by repeat constructor. Defined.
