(* ===== verification/SimpleFb.v ===== *)
(** * The simple frame buffer (simplefb.c)

    A range of RAM with dirty bits whose pixels the front end draws.  A refresh fetches the dirty
    bits of the range and calls redraw_func for bands of rows; the calls are the result here. *)
From S2P Require Export Cutils Iomem IomemFacts.
From Stdlib Require Import Sorted.
#[local] Open Scope Z_scope.

Definition FB_ALLOC_ALIGN : Z := 65536.
Definition MAX_MERGE_DISTANCE : Z := 3.
(** The part of FBDevice that the display and the front end share. *)
Record FBDevice := mkFB { fb_width : Z; fb_height : Z; stride : Z; fb_size : Z }.
(** A call redraw_func(fb_dev, opaque, x, y, w, h) *)
Record Redraw := mkRedraw { rd_x : Z; rd_y : Z; rd_w : Z; rd_h : Z }.
(** The locals y0 and y1 of the refresh, and the calls so far. *)
Record Bands := mkBands { y0 : Z; y1 : Z; drawn : list Redraw }.
Abbreviation MB := (M Bands).

Section Refresh.
Context (fb : FBDevice).
Definition redraw (s : Bands) : list Redraw := drawn s ++ [mkRedraw 0 (y0 s) (fb_width fb) (y1 s - y0 s)].
(** The band of a dirty page joins the current one or replaces it. *)
Definition page_y0 (page : Z) : Z := Z.quot (i32 (page * DEVRAM_PAGE_SIZE)) (stride fb).
Definition page_y1 (page : Z) : Z :=
  min_int (Z.quot (i32 (i32 (page * DEVRAM_PAGE_SIZE) + DEVRAM_PAGE_SIZE - 1)) (stride fb) + 1) (fb_height fb).
Definition refresh_page (page : Z) (s : Bands) : Bands :=
  if y0 s =? y1 s then mkBands (page_y0 page) (page_y1 page) (drawn s)
  else if page_y0 page <=? y1 s + MAX_MERGE_DISTANCE then mkBands (y0 s) (page_y1 page) (drawn s)
  else mkBands (page_y0 page) (page_y1 page) (redraw s).
(** The set bits of a word, from [bit_pos]; a division by a zero stride is a fault. *)
Fixpoint dirty_loop (fuel : nat) (page_index bit_pos dirty_val : Z) : MB unit :=
  match fuel with
  | O => stop_with StopFuel
  | S f =>
      if dirty_val =? 0 then mret tt
      else if (dirty_val ≫ bit_pos) .& 1 =? 0 then dirty_loop f page_index (bit_pos + 1) dirty_val
      else
        _ ← (if stride fb =? 0 then stop_with StopFault else modify (refresh_page (page_index + bit_pos)));
        dirty_loop f page_index bit_pos (dirty_val .& u32 (Z.lnot (1 ≪ bit_pos)))
  end.
Fixpoint pages_loop (fuel : nat) (dirty_bits : list Z) (fb_page_count page_index : Z) : MB unit :=
  match fuel with
  | O => stop_with StopFuel
  | S f =>
      if fb_page_count <=? page_index then mret tt
      else
        match dirty_bits !! Z.to_nat (page_index ≫ 5) with
        | None => stop_with StopFault
        | Some dirty_val =>
            _ ← dirty_loop 65 page_index 0 dirty_val;
            pages_loop f dirty_bits fb_page_count (page_index + 32)
        end
  end.
Definition refresh_bands (dirty_bits : list Z) (fb_page_count : Z) : res Bands unit :=
  (_ ← pages_loop (S (Z.to_nat fb_page_count)) dirty_bits fb_page_count 0;
   modify (fun s => if y0 s =? y1 s then s else mkBands (y0 s) (y1 s) (redraw s))) (mkBands 0 0 []).
End Refresh.

(** [mem_range] is range [i] of the map; a range without dirty bits is a null pointer. *)
Section Device.
Context {C : Type} (flush : Z -> Z -> C -> C).
Definition simplefb_refresh (fb : FBDevice) (fb_page_count : Z) (i : nat) (map : PhysMemoryMap) (c : C)
    : res (PhysMemoryMap * C) (list Redraw) :=
  match default_get_dirty_bits flush map i c with
  | None => Stop StopFault
  | Some (ptr, map', c') =>
      match (t ← ptr; pr ← phys_mem_range map' !! i; dirty_bits_tab pr !! t) with
      | None => Stop StopFault
      | Some bits =>
          match refresh_bands fb bits fb_page_count with
          | Ok _ s => Ok (drawn s) (map', c')
          | Stop r => Stop r
          end
      end
  end.
End Device.

Record SimpleFBState := mkSimpleFB { fb_dev : FBDevice; fb_page_count : Z; mem_range : nat }.
(** [mem] is the host block of the RAM, if the allocation succeeds. *)
Definition simplefb_init (mem : option Z) (map : PhysMemoryMap) (phys_addr width height : Z) : res PhysMemoryMap SimpleFBState :=
  let stride := i32 (width * 4) in
  let fb_size := i32 (i32 (i32 (height * stride) + FB_ALLOC_ALIGN - 1) .& Z.lnot (FB_ALLOC_ALIGN - 1)) in
  match default_register_ram mem map phys_addr (u64 fb_size) DEVRAM_FLAG_DIRTY_BITS with
  | Ok i map' => Ok (mkSimpleFB (mkFB width height stride fb_size) (fb_size ≫ DEVRAM_PAGE_SIZE_LOG2) i) map'
  | Stop r => Stop r
  end.

(** * The simple frame buffer: a refresh draws every row that was written *)
#[local] Open Scope Z_scope.

(** ** The pages of the bitmap *)
Fixpoint bits_from (w bit : Z) (n : nat) : list Z :=
  match n with
  | O => []
  | S n' => (if Z.testbit w bit then [bit] else []) ++ bits_from w (bit + 1) n'
  end.
Definition word_pages (base w : Z) : list Z := map (Z.add base) (bits_from w 0 32).
Fixpoint pages_of (base : Z) (bits : list Z) : list Z :=
  match bits with [] => [] | w :: bits' => word_pages base w ++ pages_of (base + 32) bits' end.
Lemma bits_from_spec w n : forall bit i, i ∈ bits_from w bit n <-> bit <= i < bit + Z.of_nat n /\ Z.testbit w i = true.
Proof.
  induction n as [|n IH]; intros bit i; cbn [bits_from]; [rewrite elem_of_nil; lia|]. rewrite elem_of_app, IH.
  destruct (Z.testbit w bit) eqn:E; [rewrite list_elem_of_singleton|rewrite elem_of_nil]; (split; [|intros [H1 H2]; destruct (Z.eq_dec i bit); [|right; split; [lia|done]]]).
  - intros [->|[? ?]]; split; (done || lia).
  - by left.
  - intros [[]|[? ?]]. split; (done || lia).
  - subst. congruence.
Qed.
Lemma bits_from_ext w w' n : forall bit, (forall i, bit <= i -> Z.testbit w i = Z.testbit w' i) -> bits_from w bit n = bits_from w' bit n.
Proof. induction n as [|n IH]; intros bit H; cbn [bits_from]; [done|]. rewrite H by lia. f_equal. apply IH. intros. apply H. lia. Qed.
Lemma bits_from_zero n : forall bit, bits_from 0 bit n = [].
Proof. induction n as [|n IH]; intros bit; cbn [bits_from]; [done|]. by rewrite Z.testbit_0_l, IH. Qed.

Section Fb.
Context (fb : FBDevice) (stride_pos : 0 < stride fb).
Definition pages_run (s : Bands) (pages : list Z) : Bands := foldl (fun s p => refresh_page fb p s) s pages.
Lemma low_bit w bit : 0 <= bit -> ((w ≫ bit) .& 1 =? 0) = negb (Z.testbit w bit).
Proof.
  intros H. pose proof (land_1_testbit (w ≫ bit)) as E. rewrite Z.shiftr_spec, Z.add_0_l in E by lia. rewrite <- E. by rewrite negb_involutive.
Qed.
Lemma dirty_loop_pages base n : forall f w bit s, 0 <= bit -> bit + Z.of_nat n = 32 -> (2 * n < f)%nat -> fits 32 w ->
  (forall i, 0 <= i < bit -> Z.testbit w i = false) ->
  dirty_loop fb f base bit w s = Ok tt (pages_run s (map (Z.add base) (bits_from w bit n))).
Proof.
  induction n as [|n IH]; intros f w bit s Hb Hn Hf Hw Hlow; (destruct f as [|f]; [lia|]); cbn [dirty_loop].
  - assert (w = 0) as -> by (apply Z.bits_inj'; intros i Hi; rewrite Z.bits_0; destruct (Z_lt_le_dec i bit); [by apply Hlow|by apply (fits_testbit 32); [|lia]]).
    done.
  - destruct (Z.eqb_spec w 0) as [->|Hz]; [by rewrite bits_from_zero|]. rewrite low_bit by lia. cbn [bits_from].
    destruct (Z.testbit w bit) eqn:E; cbn [negb].
    + rewrite (proj2 (Z.eqb_neq (stride fb) 0)) by lia. unfold mbind, M_bind, modify. cbn [app map pages_run foldl].
      set (w' := w .& u32 (Z.lnot (1 ≪ bit))).
      assert (forall i, 0 <= i -> Z.testbit w' i = Z.testbit w i && negb (i =? bit)) as Hw'.
      { intros i Hi. unfold w'. rewrite Z.land_spec, wrap_testbit, Z.lnot_spec, Z.shiftl_spec by lia.
        destruct (Z.ltb_spec i 32); [|by rewrite (fits_testbit 32 w i)]. cbn [andb]. f_equal. f_equal.
        change 1 with (2 ^ 0). rewrite Z.pow2_bits_eqb by lia. destruct (Z.eqb_spec i bit), (Z.eqb_spec 0 (i - bit)); (done || lia). }
      assert (fits 32 w') as Hf32 by (by apply fits_land_l).
      assert (bits_from w (bit + 1) n = bits_from w' (bit + 1) n) as ->.
      { apply bits_from_ext. intros i Hi. rewrite Hw' by lia. rewrite (proj2 (Z.eqb_neq i bit)) by lia. by rewrite andb_true_r. }
      destruct f as [|f]; [lia|]. cbn [dirty_loop]. destruct (Z.eqb_spec w' 0) as [->|Hz']; [by rewrite bits_from_zero|].
      rewrite low_bit, Hw', Z.eqb_refl, andb_false_r by lia. cbn [negb]. apply IH; [lia|lia|lia|done|].
      intros i Hi. rewrite Hw' by lia. destruct (Z.eqb_spec i bit); [apply andb_false_r|]. rewrite Hlow by lia. done.
    + apply IH; [lia|lia|lia|done|]. intros i Hi. destruct (Z.eq_dec i bit) as [->|]; [done|]. apply Hlow. lia.
Qed.
Lemma pages_loop_pages bits count : Forall (fits 32) bits -> forall f k s, (Z.to_nat (count - 32 * Z.of_nat k) < f)%nat -> count <= 32 * Z.of_nat (length bits) ->
  exists n, pages_loop fb f bits count (32 * Z.of_nat k) s = Ok tt (pages_run s (pages_of (32 * Z.of_nat k) (take n (drop k bits)))) /\
    count <= 32 * Z.of_nat (k + n).
Proof.
  intros Hb. induction f as [|f IH]; intros k s Hf Hc; [lia|]. cbn [pages_loop].
  destruct (Z.leb_spec count (32 * Z.of_nat k)); [exists 0%nat; rewrite take_0; split; [done|lia]|].
  assert (Z.to_nat ((32 * Z.of_nat k) ≫ 5) = k) as ->.
  { rewrite Z.shiftr_div_pow2 by lia. change (2 ^ 5) with 32. rewrite Z.mul_comm, Z.div_mul by lia. lia. }
  destruct (lookup_lt_is_Some_2 bits k ltac:(lia)) as [w Hw]. rewrite Hw.
  pose proof (Forall_lookup_1 _ _ _ _ Hb Hw) as Hfw.
  assert (dirty_loop fb 65 (32 * Z.of_nat k) 0 w s = Ok tt (pages_run s (word_pages (32 * Z.of_nat k) w))) as E.
  { apply dirty_loop_pages; [lia|lia|lia|done|]. intros. lia. }
  unfold mbind, M_bind. rewrite E. replace (32 * Z.of_nat k + 32) with (32 * Z.of_nat (S k)) by lia.
  destruct (IH (S k) (pages_run s (word_pages (32 * Z.of_nat k) w)) ltac:(lia) Hc) as (n & -> & Hn).
  exists (S n). split; [|lia]. rewrite (drop_S _ _ _ Hw). cbn [take pages_of]. unfold pages_run.
  rewrite foldl_app. replace (32 * Z.of_nat (S k)) with (32 * Z.of_nat k + 32) by lia. done.
Qed.

(** ** The bands *)

(** Pages whose bytes have int offsets. *)
Definition page_ok (p : Z) : Prop := 0 <= p < 2 ^ 19.
Lemma page_rows p : page_ok p ->
  page_y0 fb p = p * 4096 / stride fb /\ page_y1 fb p = Z.min ((p * 4096 + 4095) / stride fb + 1) (fb_height fb).
Proof.
  intros H. unfold page_ok in H. unfold page_y0, page_y1, DEVRAM_PAGE_SIZE, DEVRAM_PAGE_SIZE_LOG2. change (1 ≪ 12) with 4096.
  rewrite (swrap_id 32 (p * 4096)) by (change (2 ^ (32 - 1)) with (2 ^ 19 * 4096); lia).
  rewrite swrap_id by (change (2 ^ (32 - 1)) with (2 ^ 19 * 4096); lia). rewrite !Z.quot_div_nonneg by lia.
  replace (p * 4096 + 4096 - 1) with (p * 4096 + 4095) by lia. split; [done|]. unfold min_int. zcases.
Qed.
Lemma rows_mono p p' : page_ok p -> page_ok p' -> p <= p' -> page_y0 fb p <= page_y0 fb p' /\ page_y1 fb p <= page_y1 fb p'.
Proof.
  intros H H' Hle. destruct (page_rows p H) as [-> ->], (page_rows p' H') as [-> ->].
  assert (p * 4096 / stride fb <= p' * 4096 / stride fb) by (apply Z.div_le_mono; lia).
  assert ((p * 4096 + 4095) / stride fb <= (p' * 4096 + 4095) / stride fb) by (apply Z.div_le_mono; lia). lia.
Qed.
Definition in_band (r : Z) (d : Redraw) : Prop := rd_x d = 0 /\ rd_w d = fb_width fb /\ rd_y d <= r < rd_y d + rd_h d.
(** Rows that are drawn, or will be at the end. *)
Definition covered (s : Bands) (r : Z) : Prop := Exists (in_band r) (drawn s) \/ y0 s <= r < y1 s.
(** The band in progress is that of pages before [p]. *)
Definition behind (p : Z) (s : Bands) : Prop :=
  y0 s = y1 s \/ (forall q, p <= q -> page_ok q -> y0 s <= page_y0 fb q /\ y1 s <= page_y1 fb q).
Definition good_band (d : Redraw) : Prop :=
  rd_x d = 0 /\ rd_w d = fb_width fb /\ 0 <= rd_y d /\ 0 < rd_h d /\ rd_y d + rd_h d <= fb_height fb.
Definition inside_image (s : Bands) : Prop :=
  Forall good_band (drawn s) /\ (y0 s = y1 s \/ (0 <= y0 s < y1 s /\ y1 s <= fb_height fb)).
Lemma redraw_covered s r : covered s r -> Exists (in_band r) (redraw fb s).
Proof.
  unfold redraw. intros [H|H]; apply Exists_app; [by left|right]. constructor. unfold in_band. cbn. lia.
Qed.
Lemma refresh_page_covers p s : page_ok p -> behind p s ->
  behind (p + 1) (refresh_page fb p s) /\ (forall r, covered s r -> covered (refresh_page fb p s) r) /\
  (forall r, page_y0 fb p <= r < page_y1 fb p -> covered (refresh_page fb p s) r).
Proof.
  intros Hp Hb. assert (forall s', y0 s' = page_y0 fb p \/ y0 s' <= page_y0 fb p -> y1 s' = page_y1 fb p -> behind (p + 1) s') as K.
  { intros s' H1 H2. right. intros q Hq Hqo. destruct (rows_mono p q Hp Hqo ltac:(lia)). lia. }
  unfold refresh_page. destruct (Z.eqb_spec (y0 s) (y1 s)) as [E|E]; [|destruct Hb as [|Hb]; [done|]; destruct (Hb p ltac:(lia) Hp) as [B0 B1]; case_if];
    (split; [apply K; cbn; lia|split; [intros r Hr|intros r Hr; right; cbn; lia]]).
  - destruct Hr as [Hr|Hr]; [by left|lia].
  - destruct Hr as [Hr|Hr]; [by left|right; cbn; lia].
  - left. by apply redraw_covered.
Qed.
Lemma refresh_page_inside p s : page_ok p -> behind p s -> inside_image s -> page_y0 fb p < fb_height fb -> inside_image (refresh_page fb p s).
Proof.
  intros Hp Hb [Hd Hy] Hin. destruct (page_rows p Hp) as [E0 E1].
  assert (0 <= page_y0 fb p < page_y1 fb p /\ page_y1 fb p <= fb_height fb) as Hrows.
  { rewrite E0, E1 in *. assert (0 <= p * 4096 / stride fb) by (apply Z.div_pos; unfold page_ok in Hp; lia).
    assert (p * 4096 / stride fb <= (p * 4096 + 4095) / stride fb) by (apply Z.div_le_mono; lia). lia. }
  unfold refresh_page. destruct (Z.eqb_spec (y0 s) (y1 s)) as [E|E]; [|destruct Hb as [|Hb]; [done|]; destruct (Hb p ltac:(lia) Hp) as [B0 B1]; case_if].
  - split; [done|]. cbn. lia.
  - split; [done|]. cbn. lia.
  - split; [|cbn; lia]. cbn [drawn]. unfold redraw. apply Forall_app. split; [done|]. constructor; [|constructor]. unfold good_band. cbn. lia.
Qed.
(** Pages in ascending order *)
Lemma pages_run_covers pages : Sorted.StronglySorted Z.lt pages -> Forall page_ok pages -> forall p s, Forall (fun q => p <= q) pages -> behind p s ->
  (forall r, covered s r -> covered (pages_run s pages) r) /\
  (forall q r, q ∈ pages -> page_y0 fb q <= r < page_y1 fb q -> covered (pages_run s pages) r) /\
  (inside_image s -> Forall (fun q => page_y0 fb q < fb_height fb) pages -> inside_image (pages_run s pages)).
Proof.
  induction 1 as [|q pages Hs IH Hq]; intros Hok p s Hp Hb; cbn [pages_run foldl]; [split; [done|]; split; [by intros ? ? ?%elem_of_nil|done]|].
  apply Forall_cons_1 in Hok as [Hqo Hok], Hp as [Hpq Hp].
  assert (behind q s) as Hbq by (destruct Hb as [Hb|Hb]; [by left|right; intros x Hx; apply Hb; lia]).
  destruct (refresh_page_covers q s Hqo Hbq) as (R1 & R2 & R3).
  destruct (IH Hok (q + 1) (refresh_page fb q s)) as (I1 & I2 & I3); [eapply List.Forall_impl; [|exact Hq]; cbn; lia|done|].
  split; [auto|]. split.
  - intros x r [->|Hx]%elem_of_cons Hr; [by apply I1, R3|by eapply I2].
  - intros Hi [Hqh Hph]%Forall_cons_1. apply I3; [|done]. by apply refresh_page_inside.
Qed.
Lemma bits_from_sorted base w n : forall bit, Sorted.StronglySorted Z.lt (map (Z.add base) (bits_from w bit n)).
Proof.
  induction n as [|n IH]; intros bit; cbn [bits_from]; [constructor|]. destruct (Z.testbit w bit); cbn [app map]; [|apply IH].
  constructor; [apply IH|]. apply List.Forall_map, Forall_forall. intros i Hi%list_elem_of_In%bits_from_spec. lia.
Qed.
Lemma word_pages_spec base w p : p ∈ word_pages base w <-> base <= p < base + 32 /\ Z.testbit w (p - base) = true.
Proof.
  unfold word_pages. rewrite list_elem_of_fmap. split.
  - intros (i & -> & [H1 H2]%bits_from_spec). replace (base + i - base) with i by lia. split; [lia|done].
  - intros [H1 H2]. exists (p - base). split; [lia|]. apply bits_from_spec. split; [lia|done].
Qed.
Lemma pages_of_spec bits : forall base p, p ∈ pages_of base bits <->
  exists j w, bits !! j = Some w /\ base + 32 * Z.of_nat j <= p < base + 32 * Z.of_nat j + 32 /\ Z.testbit w (p - base - 32 * Z.of_nat j) = true.
Proof.
  induction bits as [|w bits IH]; intros base p; cbn [pages_of]; [rewrite elem_of_nil; split; [done|by intros (? & ? & ? & _)]|].
  rewrite elem_of_app, word_pages_spec, IH. split.
  - intros [[H1 H2]|(j & v & H1 & H2 & H3)].
    + exists 0%nat, w. split; [done|]. split; [lia|]. by replace (p - base - 32 * Z.of_nat 0) with (p - base) by lia.
    + exists (S j), v. split; [done|]. split; [lia|]. by replace (p - base - 32 * Z.of_nat (S j)) with (p - (base + 32) - 32 * Z.of_nat j) by lia.
  - intros ([|j] & v & H1 & H2 & H3).
    + left. injection H1 as ->. split; [lia|]. by replace (p - base) with (p - base - 32 * Z.of_nat 0) by lia.
    + right. exists j, v. split; [done|]. split; [lia|]. by replace (p - (base + 32) - 32 * Z.of_nat j) with (p - base - 32 * Z.of_nat (S j)) by lia.
Qed.
Lemma pages_of_sorted bits : forall base, Sorted.StronglySorted Z.lt (pages_of base bits).
Proof.
  induction bits as [|w bits IH]; intros base; cbn [pages_of]; [constructor|].
  assert (forall l l', Sorted.StronglySorted Z.lt l -> Sorted.StronglySorted Z.lt l' -> (forall x y, x ∈ l -> y ∈ l' -> x < y) -> Sorted.StronglySorted Z.lt (l ++ l')) as Happ.
  { induction 1 as [|x l Hl IHl Hx]; intros Hl' Hlt; [done|]. cbn [app]. constructor.
    - apply IHl; [done|]. intros y z Hy. apply Hlt. by right.
    - apply Forall_app. split; [done|]. apply Forall_forall. intros y Hy%list_elem_of_In. apply Hlt; [by left|done]. }
  apply Happ; [apply bits_from_sorted|apply IH|]. intros x y [Hx _]%word_pages_spec (j & v & _ & Hy & _)%pages_of_spec. lia.
Qed.
Lemma pages_of_take base n bits p : p ∈ pages_of base (take n bits) -> p ∈ pages_of base bits.
Proof.
  rewrite !pages_of_spec. intros (j & w & [Hj _]%lookup_take_Some & H). by exists j, w.
Qed.
Lemma refresh_bands_covers bits count : Forall (fits 32) bits -> 32 * Z.of_nat (length bits) <= 2 ^ 19 -> count <= 32 * Z.of_nat (length bits) ->
  exists s, refresh_bands fb bits count = Ok tt s /\
    (forall p r, p ∈ pages_of 0 bits -> p < count -> page_y0 fb p <= r < page_y1 fb p -> Exists (in_band r) (drawn s)) /\
    (Forall (fun p => page_y0 fb p < fb_height fb) (pages_of 0 bits) -> Forall good_band (drawn s)).
Proof.
  intros Hb Hlen Hc. destruct (pages_loop_pages bits count Hb (S (Z.to_nat count)) 0 (mkBands 0 0 [])) as (n & E & Hn); [lia|done|].
  change (32 * Z.of_nat 0) with 0 in E. rewrite drop_0 in E. set (pages := pages_of 0 (take n bits)) in E.
  assert (Forall page_ok pages) as Hok.
  { apply Forall_forall. intros p (j & w & Hj%lookup_lt_Some & Hp & _)%list_elem_of_In%pages_of_take%pages_of_spec. unfold page_ok. lia. }
  destruct (pages_run_covers pages (pages_of_sorted _ 0) Hok 0 (mkBands 0 0 [])) as (_ & R2 & R3);
    [eapply List.Forall_impl; [|exact Hok]; unfold page_ok; cbn; lia|by left|].
  set (s := pages_run (mkBands 0 0 []) pages) in *. unfold refresh_bands, mbind, M_bind, modify. rewrite E.
  eexists. split; [reflexivity|]. split.
  - intros p r Hp Hpc Hr. assert (p ∈ pages) as Hp'.
    { apply pages_of_spec in Hp as (j & w & Hj & Hp & Hbit). apply pages_of_spec. exists j, w. split; [|done]. apply lookup_take_Some. split; [done|lia]. }
    pose proof (R2 p r Hp' Hr) as Hcov. destruct (Z.eqb_spec (y0 s) (y1 s)) as [Ey|]; [destruct Hcov as [|]; [done|lia]|].
    cbn [drawn]. by apply redraw_covered.
  - intros Hin. destruct R3 as [Hd Hy].
    + split; [constructor|by left].
    + apply Forall_forall. intros p Hp%list_elem_of_In%pages_of_take%list_elem_of_In. revert p Hp. by apply Forall_forall.
    + destruct (Z.eqb_spec (y0 s) (y1 s)) as [Ey|]; [done|]. cbn [drawn]. unfold redraw. apply Forall_app. split; [done|].
      constructor; [|constructor]. unfold good_band. cbn. lia.
Qed.
End Fb.

(** ** Fetching the dirty bits *)
Section Fetch.
Context `{cfg : Config} {C : Type} (flush : Z -> Z -> C -> C).
Lemma page_bit pr t l o : dirty_wf pr -> dirty_bits pr = Some t -> dirty_bits_tab pr !! t = Some l -> in_bitmap pr o ->
  exists w, l !! Z.to_nat (page_index o ≫ 5) = Some w /\ phys_mem_is_dirty_bit pr o = Some (Z.testbit w (page_index o .& 0x1f)).
Proof.
  intros Hd Ht Hl Ho. destruct (page_word pr o t Hd Ht Ho) as (l' & Hl' & Hlt). assert (l' = l) as -> by congruence.
  destruct (lookup_lt_is_Some_2 _ _ Hlt) as [w Hw]. exists w. split; [done|].
  unfold phys_mem_is_dirty_bit, dirty_word. rewrite Ht, Hl. range_simpl. rewrite Hw. range_simpl. f_equal.
  rewrite land_1_testbit, Z.shiftr_spec by lia. by rewrite Z.add_0_l.
Qed.
Lemma get_dirty_bits_spec map i c pr t : phys_mem_range map !! i = Some pr -> dirty_wf pr -> dirty_bits pr = Some t ->
  exists l map' c' pr', dirty_bits_tab pr !! t = Some l /\
    default_get_dirty_bits flush map i c = Some (Some t, map', c') /\ phys_mem_range map' !! i = Some pr' /\
    dirty_bits_tab pr' !! t = Some l /\ pr_org_size pr' = pr_org_size pr /\
    (forall o, in_bitmap pr o -> phys_mem_is_dirty_bit pr' o = Some false) /\
    (forall j w, l !! j = Some w -> w <> 0 -> pr_size pr <> 0 -> c' = flush (pr_phys_mem pr) (pr_org_size pr) c).
Proof.
  intros Hi Hd Ht. destruct (dw_tabs _ Hd t Ht) as (l0 & l1 & Htab & H0 & H1 & Hn). pose proof (dw_ptr _ Hd t Ht) as Hti. pose proof (dw_idx _ Hd) as Hidx.
  assert (forall l : list Z, Z.of_nat (length l) * 4 = dirty_bits_size pr -> Z.to_nat (dirty_bits_size pr / 4) = length l) as Hlen.
  { intros l <-. rewrite Z.div_mul by lia. lia. }
  assert (exists l, dirty_bits_tab pr !! t = Some l /\ length l = Z.to_nat (dirty_bits_size pr / 4)) as (l & Hl & Hll).
  { rewrite Htab. subst t. destruct (dirty_bits_index pr) as [|[|]]; [exists l0|exists l1|lia]; (split; [done|]); symmetry; by apply Hlen. }
  exists l. unfold default_get_dirty_bits. rewrite Hi. range_simpl. rewrite Ht, Hl. cbn [default].
  eexists _, _, _. split; [done|]. split; [reflexivity|]. unfold alter_range. cbn [phys_mem_range].
  split; [by rewrite list_lookup_alter_eq, Hi|]. split; [|split; [done|split]].
  - cbn [dirty_bits_tab set_dirty]. rewrite list_lookup_alter_ne by lia. done.
  - intros o Ho. destruct (page_word pr o t Hd Ht Ho) as (l' & Hl' & Hlt). assert (l' = l) as -> by congruence.
    unfold phys_mem_is_dirty_bit, dirty_word. range_simpl. cbn [dirty_bits_tab set_dirty].
    assert (exists l'', dirty_bits_tab pr !! (1 - dirty_bits_index pr)%nat = Some l'') as [l'' Hl''].
    { rewrite Htab. destruct (dirty_bits_index pr) as [|[|]]; [by exists l1|by exists l0|lia]. }
    rewrite list_lookup_alter_eq, Hl''. range_simpl. rewrite lookup_app_l by (rewrite length_replicate; lia).
    rewrite lookup_replicate_2 by lia. range_simpl. by rewrite Z.shiftr_0_l.
  - intros j w Hj Hw Hsz. rewrite (proj2 (Z.eqb_neq (pr_size pr) 0) Hsz). cbn [id]. rewrite take_ge by lia.
    rewrite (proj2 (existsb_exists _ _)); [done|]. exists w. split; [apply list_elem_of_In; by eapply list_elem_of_lookup_2|].
    by apply negb_true_iff, Z.eqb_neq.
Qed.

(** A dirty page of the range is one of the pages of its bitmap. *)
Lemma dirty_page pr t l o : dirty_wf pr -> dirty_bits pr = Some t -> dirty_bits_tab pr !! t = Some l -> in_bitmap pr o ->
  phys_mem_is_dirty_bit pr o = Some true ->
  page_index o ∈ pages_of 0 l /\ exists j w, l !! j = Some w /\ w <> 0.
Proof.
  intros Hd Ht Hl Ho Hdirty. destruct (page_bit pr t l o Hd Ht Hl Ho) as (w & Hw & E). rewrite E in Hdirty. injection Hdirty as Hbit.
  assert (0 <= page_index o) by (unfold page_index; rewrite Z.shiftr_nonneg; destruct Ho; lia).
  split; [|exists (Z.to_nat (page_index o ≫ 5)), w; split; [done|]; intros ->; by rewrite Z.testbit_0_l in Hbit].
  apply pages_of_spec. eexists _, w. split; [exact Hw|]. rewrite Z2Nat.id by (rewrite Z.shiftr_nonneg; lia).
  change 0x1f with (Z.ones 5) in Hbit. rewrite Z.land_ones in Hbit by lia. rewrite Z.shiftr_div_pow2 by lia. change (2 ^ 5) with 32 in *.
  pose proof (Z.div_mod (page_index o) 32 ltac:(lia)). pose proof (Z.mod_pos_bound (page_index o) 32 ltac:(lia)).
  split; [lia|]. by replace (page_index o - 0 - 32 * (page_index o / 32)) with (page_index o mod 32) by lia.
Qed.

(** C36: a refresh of a display whose image is in its range of RAM returns, and every byte of
    the image that is on a dirty page has its row in one of the rectangles that are drawn;
    afterwards no page is dirty, and if some was, the write TLB entries of the range are
    flushed, so that the next write is seen.  If no dirty page starts behind the last row,
    the rectangles are not empty and are inside the image. *)
Theorem simplefb_refresh_covers fb i map c pr t :
  0 < stride fb -> 0 <= fb_height fb -> fb_height fb * stride fb <= pr_org_size pr -> pr_org_size pr < 2 ^ 31 ->
  phys_mem_range map !! i = Some pr -> range_wf pr -> pr_is_ram pr = true -> dirty_bits pr = Some t ->
  dirty_bits_size pr = ((pr_org_size pr ≫ DEVRAM_PAGE_SIZE_LOG2) + 31) / 32 * 4 ->
  (forall l, l ∈ dirty_bits_tab pr -> Forall (fits 32) l) ->
  exists ds map' c' pr',
    simplefb_refresh flush fb (pr_org_size pr ≫ DEVRAM_PAGE_SIZE_LOG2) i map c = Ok ds (map', c') /\
    phys_mem_range map' !! i = Some pr' /\
    (forall o, 0 <= o < fb_height fb * stride fb -> phys_mem_is_dirty_bit pr o = Some true ->
       Exists (fun d => rd_x d = 0 /\ rd_w d = fb_width fb /\ rd_y d <= o / stride fb < rd_y d + rd_h d) ds /\
       (pr_size pr <> 0 -> c' = flush (pr_phys_mem pr) (pr_org_size pr) c)) /\
    (forall o, 0 <= o < pr_org_size pr -> phys_mem_is_dirty_bit pr' o = Some false) /\
    ((forall l p, dirty_bits_tab pr !! t = Some l -> p ∈ pages_of 0 l -> page_y0 fb p < fb_height fb) ->
     Forall (good_band fb) ds).
Proof.
  intros Hs Hh Himg Hsz Hi Hwf Hram Ht Hdsz Hfits.
  destruct (rw_ram _ Hwf Hram) as (_ & Hal & _ & _ & Hd). pose proof (rw_org _ Hwf) as Horg.
  destruct (get_dirty_bits_spec map i c pr t Hi Hd Ht) as (l & map' & c' & pr' & Hl & E & Hi' & Hl' & _ & Hclean & Hflush).
  destruct (dw_tabs _ Hd t Ht) as (l0 & l1 & Htab & H0 & H1 & Hn). pose proof (dw_ptr _ Hd t Ht) as Hti. pose proof (dw_idx _ Hd) as Hidx.
  set (count := pr_org_size pr ≫ DEVRAM_PAGE_SIZE_LOG2) in *.
  assert (count = pr_org_size pr / 4096) as Hcount by (unfold count, DEVRAM_PAGE_SIZE_LOG2; by rewrite Z.shiftr_div_pow2 by lia).
  assert (0 <= count < 2 ^ 19 /\ pr_org_size pr = 4096 * count) as [Hc Hmul].
  { unfold page_aligned in Hal. rewrite land_page in Hal. rewrite Hcount. Z.to_euclidean_division_equations. lia. }
  assert (Z.of_nat (length l) = (count + 31) / 32) as Hlen.
  { assert (Z.of_nat (length l) * 4 = dirty_bits_size pr) by (rewrite Htab in Hl; subst t; destruct (dirty_bits_index pr) as [|[|]]; simplify_eq/=; lia). lia. }
  destruct (refresh_bands_covers fb Hs l count) as (s & Er & Rc & Rin).
  - apply Hfits. by eapply list_elem_of_lookup_2.
  - rewrite Hlen. Z.to_euclidean_division_equations. lia.
  - rewrite Hlen. Z.to_euclidean_division_equations. lia.
  - exists (drawn s), map', c', pr'. split; [|split; [done|split; [|split]]].
    + unfold simplefb_refresh. rewrite E. range_simpl. rewrite Hi'. range_simpl. by rewrite Hl', Er.
    + intros o Ho Hdirty. assert (in_bitmap pr o) as Hob by (split; [lia|done]).
      destruct (dirty_page pr t l o Hd Ht Hl Hob Hdirty) as [Hpage (j & w & Hj & Hw)]. split; [|by apply (Hflush j w)].
      change (Exists (in_band fb (o / stride fb)) (drawn s)).
      assert (page_ok (page_index o) /\ page_index o * 4096 <= o <= page_index o * 4096 + 4095 /\ page_index o < count) as (Hpo & Hoff & Hlt).
      { unfold page_ok, page_index, DEVRAM_PAGE_SIZE_LOG2. rewrite Z.shiftr_div_pow2 by lia. change (2 ^ 12) with 4096. Z.to_euclidean_division_equations. lia. }
      apply (Rc (page_index o)); [done|lia|]. destruct (page_rows fb Hs (page_index o) Hpo) as [-> ->].
      assert (o / stride fb < fb_height fb) by (apply Z.div_lt_upper_bound; lia).
      assert (page_index o * 4096 / stride fb <= o / stride fb) by (apply Z.div_le_mono; lia).
      assert (o / stride fb <= (page_index o * 4096 + 4095) / stride fb) by (apply Z.div_le_mono; lia). lia.
    + intros o Ho. apply Hclean. by split.
    + intros Hp. apply Rin, Forall_forall. intros p Hin%list_elem_of_In. by apply (Hp l p).
Qed.
End Fetch.

(** The pages behind the image are not excluded: an image of 10 rows of 640 pixels is on the
    first 7 of the 16 pages that are allocated for it. *)
Lemma behind_the_image : exists s, refresh_bands (mkFB 640 10 2560 65536) [2 ^ 15] 16 = Ok tt s /\ drawn s = [mkRedraw 0 24 640 (-14)].
Proof. vm_compute. eauto. Qed.
(** A display of 128 rows of 16 pixels, with its second page written. *)
Definition example_vram : PhysMemoryRange :=
  {| pr_addr := 0; pr_org_size := 0x2000; pr_size := 0x2000; pr_is_ram := true; devram_flags := 1;
     pr_phys_mem := 0x10000; dirty_bits_size := 4; dirty_bits := Some 1%nat;
     dirty_bits_tab := [[0]; [2]]; dirty_bits_index := 1; pr_opaque := 0; devio_flags := 0 |}.
Lemma example_vram_wf : @range_wf cfg_rv32_js example_vram.
Proof.
  split; cbn; try lia. intros _.
  split; [done|]. split; [done|]. split; [done|]. split; [vm_compute; congruence|].
  split; cbn; [by intros t [= <-]|lia|]. intros t _. exists [0], [2]. split; [done|]. vm_compute. repeat split; congruence.
Qed.
Lemma simplefb_refresh_covers_witness :
  exists map', simplefb_refresh (fun a n l => (a, n) :: l) (mkFB 16 128 64 0x2000) 2 0 {| phys_mem_range := [example_vram] |} [] =
    Ok [mkRedraw 0 64 16 64] (map', [(0x10000, 0x2000)]).
Proof.
  destruct (@simplefb_refresh_covers cfg_rv32_js _ (fun a n l => (a, n) :: l) (mkFB 16 128 64 0x2000) 0 {| phys_mem_range := [example_vram] |} [] example_vram 1)
    as (ds & map' & c' & pr' & E & _).
  - reflexivity.
  - cbn. lia.
  - cbn. lia.
  - cbn. lia.
  - reflexivity.
  - apply example_vram_wf.
  - reflexivity.
  - reflexivity.
  - reflexivity.
  - intros l [->|[->|[]%elem_of_nil]%elem_of_cons]%elem_of_cons; (apply List.Forall_cons; [unfold fits; lia|apply List.Forall_nil]).
  - change (pr_org_size example_vram ≫ DEVRAM_PAGE_SIZE_LOG2) with 2 in E. exists map'. rewrite E.
    vm_compute in E. injection E as <- <- <-. reflexivity.
Defined.
