(* ===== verification/Boot.v ===== *)
(** * From reset: the memory map of the machine and the calls of the main loop

    riscv_machine_init registers the RAM, the CLINT, the PLIC and HTIF, then, as the
    configuration says, the virtio devices and the frame buffer.  The main loop calls
    riscv_machine_get_sleep_duration, riscv_machine_interp and the refresh of the frame
    buffer, and the virtio devices act on the guest memory and on the interrupt lines:
    when the guest accesses their registers, and when their back ends have something to
    say.  What they do is not computed here (Virtio.v and the files behind it do): it is
    an arbitrary sequence of reactions. *)
From S2P Require Export MachineInv SimpleFb.

(** ** The memory map of riscv_machine_init *)
Definition VIRTIO_PAGE_SIZE : Z := 4096.
(** The parameters that decide which ranges exist; [display] is the width and the height. *)
Record BoardConfig := mkBoard {
  has_console : bool;
  eth_count : nat;
  drive_count : nat;
  fs_count : nat;
  display : option (Z * Z);
  virtio_input : bool;
}.
Definition OP_VIRTIO : nat := 3.

Section Map.
Context `{cfg : Config}.
Definition map_bind {A B} (r : res PhysMemoryMap A)
    (k : A -> PhysMemoryMap -> res PhysMemoryMap B) : res PhysMemoryMap B :=
  match r with Ok a s => k a s | Stop e => Stop e end.
(** [n] more virtio devices when there are [virtio_count] of them: virtio_init on the MMIO
    bus, whose address moves by VIRTIO_SIZE.  The handle is the number of the device. *)
Fixpoint virtio_inits (n virtio_count : nat) (s : PhysMemoryMap) : res PhysMemoryMap unit :=
  match n with
  | O => Ok tt s
  | S n' =>
      map_bind (cpu_register_device s (VIRTIO_BASE_ADDR + Z.of_nat virtio_count * VIRTIO_SIZE) VIRTIO_PAGE_SIZE
                  (OP_VIRTIO + virtio_count) (DEVIO_SIZE8 .| DEVIO_SIZE16 .| DEVIO_SIZE32))
        (fun _ s => virtio_inits n' (S virtio_count) s)
  end.
(** The console, the network devices, the disks and the file systems come before the display. *)
Definition first_virtio (p : BoardConfig) : nat :=
  (if has_console p then 1 else 0) + eth_count p + drive_count p + fs_count p.
Definition input_devices (p : BoardConfig) : nat := if virtio_input p then 2 else 0.
(** [ram], [low] and [fb] are what the allocations of the RAM blocks returned. *)
Definition riscv_machine_map (p : BoardConfig) (ram_size : Z) (ram low fb : option Z)
    : res PhysMemoryMap (option SimpleFBState) :=
  map_bind (default_register_ram ram phys_mem_map_init RAM_BASE_ADDR ram_size 0) (fun _ s =>
  map_bind (default_register_ram low s 0x00000000 LOW_RAM_SIZE 0) (fun _ s =>
  map_bind (cpu_register_device s CLINT_BASE_ADDR CLINT_SIZE OP_CLINT DEVIO_SIZE32) (fun _ s =>
  map_bind (cpu_register_device s PLIC_BASE_ADDR PLIC_SIZE OP_PLIC DEVIO_SIZE32) (fun _ s =>
  map_bind (cpu_register_device s HTIF_BASE_ADDR 16 OP_HTIF DEVIO_SIZE32) (fun _ s =>
  map_bind (virtio_inits (first_virtio p) 0 s) (fun _ s =>
  map_bind (match display p with
            | Some (w, h) => map_bind (simplefb_init fb s FRAMEBUFFER_BASE_ADDR w h) (fun d s => Ok (Some d) s)
            | None => Ok None s
            end) (fun d s =>
  map_bind (virtio_inits (input_devices p) (first_virtio p) s) (fun _ s => Ok d s)))))))).

(** ** The ranges it registers *)
(** A block of host memory for a RAM range of [sz] bytes. *)
Definition block_ok (p sz : Z) : Prop := 0 < p /\ p + sz <= 2 ^ UINTPTR_W - DEVRAM_PAGE_SIZE.
Definition ram_size_ok (sz : Z) : Prop :=
  page_aligned sz /\ 0 < sz /\ RAM_BASE_ADDR + sz < 2 ^ 64.
(** The tables of VirtMachineParams hold this many devices. *)
Definition counts_ok (p : BoardConfig) : Prop := (eth_count p <= 1 /\ drive_count p <= 4 /\ fs_count p <= 4)%nat.
(** The bytes of the frame buffer, in whole 64 KB. *)
Definition fb_bytes (w h : Z) : Z := (w * 4 * h + 65535) / 65536 * 65536.
Definition display_ok (fb : Z) (d : option (Z * Z)) : Prop :=
  match d with
  | Some (w, h) => 0 < w /\ 0 < h /\ w * 4 * h <= 2 ^ 31 - 65536 /\ block_ok fb (fb_bytes w h)
  | None => True
  end.

Definition ram_range (a sz p : Z) : PhysMemoryRange :=
  {| pr_addr := a; pr_org_size := sz; pr_size := sz; pr_is_ram := true; devram_flags := 0;
     pr_phys_mem := p; dirty_bits_size := 0; dirty_bits := None; dirty_bits_tab := [[]; []];
     dirty_bits_index := 0; pr_opaque := 0; devio_flags := 0 |}.
Definition dev_range (a sz : Z) (op : nat) (flags : Z) : PhysMemoryRange :=
  {| pr_addr := a; pr_org_size := sz; pr_size := sz; pr_is_ram := false; devram_flags := 0;
     pr_phys_mem := 0; dirty_bits_size := 0; dirty_bits := None; dirty_bits_tab := [[]; []];
     dirty_bits_index := 0; pr_opaque := op; devio_flags := flags |}.
(** RAM with one dirty bit per page, in words of 32. *)
Definition fb_range (p w h : Z) : PhysMemoryRange :=
  let words := replicate (Z.to_nat ((fb_bytes w h / 4096 + 31) / 32)) 0 in
  {| pr_addr := 0x41000000; pr_org_size := fb_bytes w h; pr_size := fb_bytes w h; pr_is_ram := true; devram_flags := 2;
     pr_phys_mem := p; dirty_bits_size := 4 * Z.of_nat (length words); dirty_bits := Some 0%nat;
     dirty_bits_tab := [words; words]; dirty_bits_index := 0; pr_opaque := 0; devio_flags := 0 |}.
Definition virtio_range (i : nat) : PhysMemoryRange := dev_range (0x40010000 + 0x1000 * Z.of_nat i) 0x1000 (3 + i) 7.
(** The ranges in the order of their registration. *)
Definition machine_ranges (p : BoardConfig) (ram_size ram low fb : Z) : list PhysMemoryRange :=
  [ram_range 0x80000000 ram_size ram; ram_range 0 0x10000 low; dev_range 0x02000000 0xc0000 OP_CLINT 4;
   dev_range 0x40100000 0x400000 OP_PLIC 4; dev_range 0x40008000 16 OP_HTIF 4] ++
  (virtio_range <$> seq 0 (first_virtio p)) ++
  match display p with Some (w, h) => [fb_range fb w h] | None => [] end ++
  (virtio_range <$> seq (first_virtio p) (input_devices p)).
(** The host memory of the RAM blocks. *)
Definition boot_objs (p : BoardConfig) (ram_size ram low fb : Z) : list (Z * Z) :=
  [(ram, ram_size); (low, 0x10000)] ++
  match display p with Some (w, h) => [(fb, fb_bytes w h)] | None => [] end.

Lemma room (l : list PhysMemoryRange) : (length l < 32)%nat -> (length l <? PHYS_MEM_RANGE_MAX)%nat = true.
Proof. apply Nat.ltb_lt. Qed.
Lemma register_ram_eq l a sz p : (length l < 32)%nat -> page_aligned sz -> 0 < sz ->
  default_register_ram (Some p) {| phys_mem_range := l |} a sz 0 = Ok (length l) {| phys_mem_range := l ++ [ram_range a sz p] |}.
Proof.
  intros Hl Ha Hp. unfold default_register_ram, register_ram_entry. cbn [phys_mem_range]. rewrite room by done.
  rewrite Ha, (proj2 (Z.eqb_neq sz 0)) by lia. cbn [negb andb Z.eqb Z.land]. f_equal. unfold alter_range. cbn [phys_mem_range].
  f_equal. rewrite <- (Nat.add_0_r (length l)), alter_app_r. done.
Qed.
Lemma register_device_eq l a sz op flags : (length l < 32)%nat -> sz <= 0xffffffff -> flags .& DEVIO_DISABLED = 0 ->
  cpu_register_device {| phys_mem_range := l |} a sz op flags = Ok (length l) {| phys_mem_range := l ++ [dev_range a sz op flags] |}.
Proof.
  intros Hl Hs Hf. unfold cpu_register_device. cbn [phys_mem_range]. rewrite room by done.
  rewrite (proj2 (Z.leb_le sz 0xffffffff)), Hf by done. done.
Qed.
Lemma virtio_inits_eq n : forall vc l, (length l + n <= 32)%nat ->
  virtio_inits n vc {| phys_mem_range := l |} = Ok tt {| phys_mem_range := l ++ (virtio_range <$> seq vc n) |}.
Proof.
  induction n as [|n IH]; intros vc l Hl; cbn [virtio_inits seq fmap list_fmap]; [by rewrite app_nil_r|].
  unfold cpu_register_device, map_bind. cbn [phys_mem_range].
  rewrite (proj2 (Nat.ltb_lt (length l) PHYS_MEM_RANGE_MAX)) by (unfold PHYS_MEM_RANGE_MAX; lia).
  change (VIRTIO_PAGE_SIZE <=? 0xffffffff) with true. cbn [negb]. rewrite IH by (rewrite length_app; cbn [length]; lia).
  rewrite <- app_assoc. do 2 f_equal. cbn [app]. do 2 f_equal.
  unfold virtio_range, dev_range. f_equal; unfold VIRTIO_BASE_ADDR, VIRTIO_SIZE; lia.
Qed.
Lemma fb_bytes_bounds w h : 0 < w -> 0 < h -> w * 4 * h <= 2 ^ 31 - 65536 ->
  w * 4 * h <= fb_bytes w h < 2 ^ 31 /\ 0 < fb_bytes w h /\ fb_bytes w h mod 65536 = 0.
Proof.
  intros Hw Hh Hm. assert (0 < w * 4 * h) by nia. unfold fb_bytes. rewrite Z.mod_mul by lia.
  pose proof (Z.div_mod (w * 4 * h + 65535) 65536 ltac:(lia)). pose proof (Z.mod_pos_bound (w * 4 * h + 65535) 65536 ltac:(lia)).
  split; [|split; [|done]]; [|lia]. split; [lia|]. 
  assert ((w * 4 * h + 65535) / 65536 <= (2 ^ 31 - 1) / 65536) by (apply Z.div_le_mono; lia).
  change ((2 ^ 31 - 1) / 65536) with 32767 in *. lia.
Qed.
Lemma fb_size_eq w h : 0 < w -> 0 < h -> w * 4 * h <= 2 ^ 31 - 65536 ->
  i32 (i32 (i32 (h * i32 (w * 4)) + FB_ALLOC_ALIGN - 1) .& Z.lnot (FB_ALLOC_ALIGN - 1)) = fb_bytes w h.
Proof.
  intros Hw Hh Hm. pose proof (fb_bytes_bounds w h Hw Hh Hm) as (Hb & Hp & _).
  assert (w * 4 <= w * 4 * h) by nia.
  rewrite (swrap_id 32 (w * 4)), (swrap_id 32 (h * _)) by (change (2 ^ (32 - 1)) with (2 ^ 31); nia).
  rewrite (Z.mul_comm h). change (FB_ALLOC_ALIGN) with 65536.
  rewrite (swrap_id 32 (w * 4 * h + 65536 - 1)) by (change (2 ^ (32 - 1)) with (2 ^ 31); lia).
  assert ((w * 4 * h + 65536 - 1) .& Z.lnot (65536 - 1) = fb_bytes w h) as ->.
  { change (65536 - 1) with (Z.ones 16). rewrite <- Z.ldiff_land, Z.ldiff_ones_r by lia.
    rewrite Z.shiftl_mul_pow2, Z.shiftr_div_pow2 by lia. unfold fb_bytes. do 2 f_equal. change (2 ^ 16) with 65536. f_equal. lia. }
  apply swrap_id; [lia|]. change (2 ^ (32 - 1)) with (2 ^ 31). lia.
Qed.
Lemma page_aligned_mod x : x mod 65536 = 0 -> page_aligned x.
Proof. intros H. unfold page_aligned. rewrite land_page. Z.to_euclidean_division_equations. lia. Qed.
Lemma simplefb_init_eq l fb w h : (length l < 32)%nat -> display_ok fb (Some (w, h)) ->
  exists d, simplefb_init (Some fb) {| phys_mem_range := l |} FRAMEBUFFER_BASE_ADDR w h =
    Ok d {| phys_mem_range := l ++ [fb_range fb w h] |} /\ mem_range d = length l.
Proof.
  intros Hl (Hw & Hh & Hm & _). pose proof (fb_bytes_bounds w h Hw Hh Hm) as (Hb & Hp & Hmod).
  unfold simplefb_init. cbv zeta. rewrite fb_size_eq by done.
  assert (u64 (fb_bytes w h) = fb_bytes w h) as -> by (apply wrap_fits; split; [lia|]; etransitivity; [apply Hb|done]).
  unfold default_register_ram, register_ram_entry. cbn [phys_mem_range].
  rewrite (proj2 (Nat.ltb_lt (length l) PHYS_MEM_RANGE_MAX)) by done. rewrite (page_aligned_mod _ Hmod).
  rewrite (proj2 (Z.eqb_neq (fb_bytes w h) 0)) by lia. cbn [negb andb Z.eqb].
  change (negb (DEVRAM_FLAG_DIRTY_BITS .& DEVRAM_FLAG_DIRTY_BITS =? 0)) with true. cbv iota.
  match goal with |- exists d, Ok ?x _ = _ /\ _ => exists x end. split; [|done]. f_equal.
  unfold alter_range. cbn [phys_mem_range]. f_equal.
  rewrite <- (Nat.add_0_r (length l)), !alter_app_r. f_equal. cbn. f_equal. unfold set_dirty, set_phys_mem, fb_range. cbn.
  rewrite Z.shiftr_div_pow2 by done. change (2 ^ DEVRAM_PAGE_SIZE_LOG2) with 4096. rewrite Z.div_mul by done.
  rewrite length_replicate, Z2Nat.id by (Z.to_euclidean_division_equations; lia). f_equal; lia.
Qed.
Lemma machine_map_eq p ram_size ram low fb : ram_size_ok ram_size -> counts_ok p -> display_ok fb (display p) ->
  exists d, riscv_machine_map p ram_size (Some ram) (Some low) (Some fb) =
    Ok d {| phys_mem_range := machine_ranges p ram_size ram low fb |}.
Proof.
  intros (Ha & Hpos & _) (He & Hd & Hf) Hdisp.
  assert (first_virtio p <= 10)%nat by (unfold first_virtio; case_match; lia).
  assert (input_devices p <= 2)%nat by (unfold input_devices; case_match; lia).
  unfold riscv_machine_map, phys_mem_map_init. rewrite register_ram_eq by (done || (cbn; lia)). cbn [map_bind app].
  rewrite register_ram_eq by (done || (cbn; lia)). cbn [map_bind app].
  do 3 (rewrite register_device_eq by (done || (cbn; lia)); cbn [map_bind app]).
  rewrite virtio_inits_eq by (cbn; lia). cbn [map_bind].
  unfold machine_ranges. destruct (display p) as [[w h]|].
  - match goal with |- context [simplefb_init _ {| phys_mem_range := ?l |}] => destruct (simplefb_init_eq l fb w h) as (d & E & _) end;
      [|done|].
    + rewrite length_app, length_fmap, length_seq. cbn. lia.
    + rewrite E. cbn [map_bind]. exists (Some d). rewrite virtio_inits_eq.
      * cbn [map_bind]. by rewrite <- !app_assoc.
      * rewrite !length_app, length_fmap, length_seq. cbn. lia.
  - cbn [map_bind]. exists None. rewrite virtio_inits_eq.
    + cbn [map_bind]. by rewrite <- !app_assoc.
    + rewrite !length_app, length_fmap, length_seq. cbn. lia.
Qed.

(** ** They are well formed *)
Lemma no_dirty pr : dirty_bits pr = None -> dirty_bits_index pr = 0%nat -> dirty_wf pr.
Proof. intros Hd Hi. split; rewrite ?Hd, ?Hi; try done. lia. Qed.
Lemma ram_range_wf a sz p : 0 <= a -> 0 <= sz -> a + sz < 2 ^ 64 -> page_aligned a ->
  page_aligned sz -> block_ok p sz -> range_wf (ram_range a sz p).
Proof.
  intros ? ? ? ? ? [? ?]. split; cbn; try lia. intros _.
  repeat (split; [done|]). by apply no_dirty.
Qed.
Lemma dev_range_wf a sz op flags : 0 <= a -> 0 <= sz <= 0xffffffff -> a + sz < 2 ^ 64 ->
  range_wf (dev_range a sz op flags).
Proof. intros. split; cbn; lia. Qed.
Lemma fb_range_wf fb w h : display_ok fb (Some (w, h)) -> range_wf (fb_range fb w h).
Proof.
  intros (Hw & Hh & Hm & Hp & Hb). pose proof (fb_bytes_bounds w h Hw Hh Hm) as (Hb1 & Hp1 & Hmod).
  split; cbn [fb_range pr_addr pr_org_size pr_size pr_is_ram pr_phys_mem]; try lia.
  intros _. split; [done|]. split; [by apply page_aligned_mod|]. split; [done|]. split; [done|].
  split; cbn [fb_range dirty_bits dirty_bits_index dirty_bits_tab dirty_bits_size pr_org_size]; [congruence|lia|].
  intros t _. eexists _, _. split; [done|]. split; [lia|]. split; [lia|].
  rewrite length_replicate, Z.shiftr_div_pow2 by done. change (2 ^ 12) with 4096.
  rewrite Z2Nat.id; Z.to_euclidean_division_equations; lia.
Qed.
Lemma virtio_ranges_wf vc n : (vc + n <= 12)%nat -> Forall range_wf (virtio_range <$> seq vc n).
Proof.
  intros Hn. apply Forall_fmap, Forall_forall. intros i Hi%in_seq. cbn. apply dev_range_wf; lia.
Qed.
Lemma machine_ranges_wf p ram_size ram low fb : ram_size_ok ram_size -> block_ok ram ram_size ->
  block_ok low LOW_RAM_SIZE -> counts_ok p -> display_ok fb (display p) ->
  Iomem.map_wf {| phys_mem_range := machine_ranges p ram_size ram low fb |}.
Proof.
  intros (? & ? & ?) ? ? (He & Hd & Hf) Hdisp.
  assert (first_virtio p <= 10)%nat by (unfold first_virtio; case_match; lia).
  assert (input_devices p <= 2)%nat by (unfold input_devices; case_match; lia).
  split; cbn [phys_mem_range]; unfold machine_ranges.
  - rewrite !length_app, !length_fmap, !length_seq. unfold PHYS_MEM_RANGE_MAX.
    destruct (display p) as [[]|]; cbn [length]; lia.
  - apply Forall_app. split; [|apply Forall_app; split; [apply virtio_ranges_wf; lia|apply Forall_app; split]].
    + repeat apply List.Forall_cons; try apply List.Forall_nil.
      all: first [apply ram_range_wf|apply dev_range_wf]; try done; try (vm_compute; congruence).
      all: first [lia | vm_compute; split; congruence].
    + destruct (display p) as [[w h]|]; [|constructor]. constructor; [by apply fb_range_wf|constructor].
    + apply virtio_ranges_wf. lia.
Qed.
Lemma virtio_no_ram vc n : ram_objs {| phys_mem_range := virtio_range <$> seq vc n |} = [].
Proof. revert vc. induction n as [|n IH]; intros vc; [done|]. apply (IH (S vc)). Qed.
Lemma ram_objs_app l l' : ram_objs {| phys_mem_range := l ++ l' |} =
  ram_objs {| phys_mem_range := l |} ++ ram_objs {| phys_mem_range := l' |}.
Proof. unfold ram_objs. cbn [phys_mem_range]. by rewrite list.filter_app, fmap_app. Qed.
Lemma machine_ranges_objs p ram_size ram low fb :
  ram_objs {| phys_mem_range := machine_ranges p ram_size ram low fb |} = boot_objs p ram_size ram low fb.
Proof.
  unfold machine_ranges, boot_objs. rewrite !ram_objs_app, !virtio_no_ram, app_nil_r.
  by destruct (display p) as [[]|].
Qed.
End Map.

(** ** The reactions of the devices *)

(** What a device does when the guest accesses a register of it, or when the main loop calls
    it: the value the guest reads, the contents of the host memory afterwards (a device copies
    to the guest memory by pointers that phys_mem_get_ram_ptr gave it), the guest addresses
    that it asked a pointer for, with is_rw, and the interrupt lines that it set. *)
Record reaction := mkReaction {
  rx_value : Z;
  rx_memory : hmem;
  rx_pointers : list (Z * bool);
  rx_lines : list (Z * Z);
}.
(** All reactions of a run, and how many happened. *)
Record Reactions := mkReactions { reactions : nat -> reaction; reacted : nat }.

Section React.
Context `{cfg : Config}.
Local Abbreviation MM := (M (Sys (RISCVMachine Reactions))).

Definition set_devices (d : Reactions) (m : RISCVMachine Reactions) : RISCVMachine Reactions :=
  mkMachine (rtc_real_time m) (rtc_start_time m) (timecmp m) (plic_pending_irq m)
    (plic_served_irq m) (htif_tohost m) (htif_fromhost m) (console_out m) (monotonic m) (clock_reads m) d.
Definition ask_pointer (x : Z * bool) : MM unit := fun σ =>
  match phys_mem_get_ram_ptr (mem_map σ) x.1 x.2 with
  | None => Stop StopFault
  | Some (_, map) => Ok tt (mkSys (cpu σ) map (host σ) (world σ))
  end.
Definition set_memory (h : hmem) : MM unit := fun σ => Ok tt (mkSys (cpu σ) (mem_map σ) h (world σ)).
Fixpoint each {A} (f : A -> MM unit) (l : list A) : MM unit :=
  match l with [] => mret tt | x :: l' => _ ← f x; each f l' end.
(** The next reaction. *)
Definition device_reacts : MM Z :=
  m ← getm;
  let d := devices m in
  let r := reactions d (reacted d) in
  _ ← updm (set_devices (mkReactions (reactions d) (S (reacted d))));
  _ ← each ask_pointer (rx_pointers r);
  _ ← set_memory (rx_memory r);
  _ ← each (fun '(irq, level) => plic_set_irq irq level) (rx_lines r);
  mret (u32 (rx_value r)).

(** [garbage] is what a read of an uninitialised variable of the CPU gives. *)
Context (garbage : Sys (RISCVMachine Reactions) -> Z).
#[export] Instance reacting_devices : OtherDevices Reactions := {
  other_read := fun _ _ _ => device_reacts;
  other_write := fun _ _ _ _ => _ ← device_reacts; mret tt;
  stack_garbage := garbage;
}.

(** ** The calls *)
Inductive machine_call :=
| CallInterp (n : Z)          (* riscv_machine_interp *)
| CallSleep (delay : Z)       (* riscv_machine_get_sleep_duration *)
| CallDevice.                 (* input for a device: the console, the keyboard, the network, a disk *)

(** The argument of riscv_machine_interp is an int. *)
Definition call_ok (c : machine_call) : Prop :=
  match c with CallInterp n => - 2 ^ 31 <= n < 2 ^ 31 | _ => True end.

Definition machine_call_step (c : machine_call) : MM unit :=
  match c with
  | CallInterp n => riscv_machine_interp n
  | CallSleep d => _ ← riscv_machine_get_sleep_duration d; mret tt
  | CallDevice => _ ← device_reacts; mret tt
  end.
Definition machine_run (l : list machine_call) : MM unit := each machine_call_step l.

Context (objs : list (Z * Z)).
Local Abbreviation inv := (machine_inv (fun _ : Reactions => True)).
Local Abbreviation sys_inv := (sys_inv inv objs).
Local Abbreviation good := (good inv objs).

(** ** They keep the invariant *)
Lemma good_ask_pointer x : good (ask_pointer x) (fun _ => True).
Proof.
  intros nc σ Hs. unfold wp, ask_pointer, phys_mem_get_ram_ptr.
  assert (forall map, map = mem_map σ -> True /\ sys_inv nc (mkSys (cpu σ) map (host σ) (world σ))) as Hsame.
  { intros map ->. split; [done|]. by destruct Hs. }
  pose proof (get_phys_mem_range_spec (mem_map σ) x.1 (si_map _ _ _ _ Hs)) as H.
  destruct (get_phys_mem_range _ _) as [i|]; [|by apply Hsame].
  destruct H as (pr & Hi & Hin & _). rewrite Hi. cbn [mbind option_bind].
  destruct (pr_is_ram pr) eqn:Hram; cbn [negb]; [|by apply Hsame].
  destruct x.2; [|by apply Hsame].
  pose proof (si_map _ _ _ _ Hs) as [_ Hwf]. pose proof (Forall_lookup_1 _ _ _ _ Hwf Hi) as Hpr.
  assert (pr_size pr <= pr_org_size pr) by (pose proof (rw_org _ Hpr); destruct (rw_size _ Hpr); lia).
  destruct (rw_ram _ Hpr Hram) as (_ & _ & Hp & Hend & _). assert (0 < DEVRAM_PAGE_SIZE) by done.
  assert (uptr (x.1 - pr_addr pr) = x.1 - pr_addr pr) as -> by (apply wrap_fits; split; lia).
  destruct (set_dirty_bit_ok pr (x.1 - pr_addr pr) Hpr Hram ltac:(lia)) as (pr' & -> & ? & ? & ? & ?).
  cbn. split; [done|]. by apply (alter_range_inv inv objs nc σ i pr pr').
Qed.
Lemma good_set_memory h : good (set_memory h) (fun _ => True).
Proof. intros nc σ []. unfold wp, set_memory. by split. Qed.
Lemma good_each {A} (f : A -> MM unit) l : (forall x, good (f x) (fun _ => True)) -> good (each f l) (fun _ => True).
Proof.
  intros Hf. induction l as [|x l IH]; cbn [each]; [by apply good_ret|]. by eapply good_bind; [apply Hf|].
Qed.
Lemma good_device_reacts : good device_reacts (fits 32).
Proof.
  unfold device_reacts. eapply good_bind; [apply good_getm|]. intros m Hm. cbv zeta.
  eapply good_bind; [apply good_updm; by intros ? []|]. intros _ _.
  eapply good_bind; [apply good_each, good_ask_pointer|]. intros _ _.
  eapply good_bind; [apply good_set_memory|]. intros _ _.
  eapply good_bind; [apply good_each; intros []; apply good_plic_set_irq|]. intros _ _.
  apply good_ret, fits_wrap. lia.
Qed.
#[export] Instance reacting_safe : OtherSafe (fun _ => True) objs.
Proof.
  split; [intros; apply good_device_reacts|]. intros. cbn.
  eapply good_bind; [apply good_device_reacts|]. intros. by apply good_ret.
Qed.
Lemma good_any {A} (m : MM A) R σ : good m R ->
  (exists nc, sys_inv nc σ) -> wp m safe_stop (fun _ σ' => exists nc, sys_inv nc σ') σ.
Proof.
  intros Hm [nc Hs]. eapply wp_mono; [by apply Hm|]. intros a σ' [_ ?]. by exists nc.
Qed.
Lemma machine_call_wp c σ : call_ok c -> (exists nc, sys_inv nc σ) ->
  wp (machine_call_step c) safe_stop (fun _ σ' => exists nc, sys_inv nc σ') σ.
Proof.
  intros Hc Hs. destruct c as [n|d|]; cbn [machine_call_step].
  - destruct Hs as [nc Hs]. eapply wp_mono; [by apply (riscv_cpu_interp_wp inv objs n nc)|].
    intros ? σ' (nc' & left & Hs' & _). by exists nc'.
  - apply wp_bind. eapply wp_mono; [eapply good_any; [apply good_sleep|done]|].
    intros ? σ' Hs'. by apply wp_ret.
  - apply wp_bind. eapply wp_mono; [eapply good_any; [apply good_device_reacts|done]|].
    intros ? σ' Hs'. by apply wp_ret.
Qed.
Lemma machine_run_wp l σ : Forall call_ok l -> (exists nc, sys_inv nc σ) ->
  wp (machine_run l) safe_stop (fun _ σ' => exists nc, sys_inv nc σ') σ.
Proof.
  intros Hl. revert σ. induction Hl as [|c l Hc Hl IH]; intros σ Hs; unfold machine_run; cbn [each].
  - by apply wp_ret.
  - apply wp_bind. eapply wp_mono; [by apply machine_call_wp|]. intros [] σ' Hs'. by apply IH.
Qed.
End React.


(** A board with a console, a display of 320x200 and input devices, and a program at the reset
    vector: lui x1, 0x40010; lw x2, 0(x1); jal x0, 0.  The load reads the first register of
    the console, which answers "virt", changes the guest memory and raises line 1. *)
Definition example_board : BoardConfig := mkBoard true 0 0 0 (Some (320, 200)) true.
Definition example_mem : hmem :=
  host_store (host_store (host_store ∅ 0x21000 4 0x400100b7) 0x21004 4 0x0000a103) 0x21008 4 0x0000006f.
Definition example_reaction : reaction := mkReaction 0x74726976 (host_store example_mem 0x1000000 4 7) [(0x80000000, true)] [(1, 1)].
Definition example_machine : RISCVMachine Reactions :=
  {| rtc_real_time := false; rtc_start_time := 0; timecmp := 0; plic_pending_irq := 0;
     plic_served_irq := 0; htif_tohost := 0; htif_fromhost := 0; console_out := [];
     monotonic := fun _ => (0, 0); clock_reads := 0; devices := mkReactions (fun _ => example_reaction) 0 |}.

