(* ===== verification/Pci.v ===== *)
(** * The PCI bus and its host bridge (pci.c, pci.h)

    Devices are named by the slot and function [devfn] under which the bus keeps them.  The
    functions bar_set that map the regions of the devices are a parameter: they act on a state
    [C] of their own.  The lines to the interrupt controller are the levels they were last set
    to. *)
From S2P Require Export Cutils Iomem Monad.
#[local] Open Scope Z_scope.

Definition PCI_ADDRESS_SPACE_MEM : Z := 0x00.
Definition PCI_ADDRESS_SPACE_IO : Z := 0x01.
Definition PCI_ROM_SLOT : Z := 6.
Definition PCI_NUM_REGIONS : Z := 7.
Definition PCI_COMMAND : Z := 0x04.
Definition PCI_COMMAND_IO : Z := 1.
Definition PCI_COMMAND_MEMORY : Z := 2.
Definition PCI_STATUS : Z := 0x06.
Definition PCI_STATUS_CAP_LIST : Z := 16.
Definition PCI_SUBSYSTEM_VENDOR_ID : Z := 0x2c.
Definition PCI_SUBSYSTEM_ID : Z := 0x2e.
Definition PCI_CAPABILITY_LIST : Z := 0x34.
Definition PCI_INTERRUPT_LINE : Z := 0x3c.
Definition PCI_INTERRUPT_PIN : Z := 0x3d.

Record PCIIORegion := mkRegion { rg_size : Z; rg_type : Z; rg_enabled : bool; rg_opaque : Z }.
Record PCIDevice := mkPCI { devfn : Z; config : list Z; next_cap_offset : Z; io_regions : list PCIIORegion }.
Definition set_config c d := mkPCI (devfn d) c (next_cap_offset d) (io_regions d).
Definition set_next_cap n d := mkPCI (devfn d) (config d) n (io_regions d).
Definition set_regions r d := mkPCI (devfn d) (config d) (next_cap_offset d) r.
Definition conf_byte (d : PCIDevice) (addr : Z) : Z := byte (config d) (Z.to_nat addr).
Definition conf_le16 (d : PCIDevice) (addr : Z) : Z := get_le16 (config d) (Z.to_nat addr).
Definition conf_le32 (d : PCIDevice) (addr : Z) : Z := get_le32 (config d) (Z.to_nat addr).
Definition set_cfg_byte (addr val : Z) (d : PCIDevice) : PCIDevice := set_config (<[Z.to_nat addr := u8 val]> (config d)) d.
Definition pci_device_set_config8 (addr val : Z) (d : PCIDevice) : PCIDevice :=
  set_cfg_byte (u8 addr) val d.
Definition pci_device_set_config16 (addr val : Z) (d : PCIDevice) : PCIDevice :=
  set_config (put_le16 (config d) (Z.to_nat (u8 addr)) (u16 val)) d.
Definition pci_device_get_devfn (d : PCIDevice) : Z := devfn d.

(** ** Regions *)
Definition region_addr (i : Z) : Z := if i =? PCI_ROM_SLOT then 0x30 else 0x10 + i * 4.
Definition pci_register_bar (bar_num size type opaque : Z) : M PCIDevice unit :=
  _ ← assert (bar_num <? PCI_NUM_REGIONS);
  _ ← assert (size .& u32 (size - 1) =? 0);
  _ ← assert (4 <=? size);
  d ← gets (fun d => d);
  match io_regions d !! Z.to_nat bar_num with
  | None => stop_with StopFault
  | Some r =>
      _ ← assert (rg_size r =? 0);
      let val := if bar_num =? PCI_ROM_SLOT then 0 else u8 type in
      modify (fun d => set_config (put_le32 (config d) (Z.to_nat (region_addr bar_num)) val)
        (set_regions (<[Z.to_nat bar_num := mkRegion size (u8 type) false opaque]> (io_regions d)) d))
  end.

Section Bars.
Context {C : Type} (bar_set : Z -> Z -> Z -> bool -> C -> C).
Definition flag (v bit : Z) : bool := negb (v .& bit =? 0).
Definition new_enabled (d : PCIDevice) (i : Z) (r : PCIIORegion) : bool :=
  let cmd := conf_le16 d PCI_COMMAND in
  if rg_size r =? 0 then false
  else if flag (rg_type r) PCI_ADDRESS_SPACE_IO && flag cmd PCI_COMMAND_IO then true
  else if flag cmd PCI_COMMAND_MEMORY then
    if i =? PCI_ROM_SLOT then flag (conf_le32 d (region_addr i)) 1 else true
  else false.
Definition new_addr (d : PCIDevice) (i : Z) (r : PCIIORegion) : Z :=
  conf_le32 d (region_addr i) .& u32 (Z.lnot (rg_size r - 1)).
Definition set_enabled (b : bool) (r : PCIIORegion) : PCIIORegion := mkRegion (rg_size r) (rg_type r) b (rg_opaque r).
Definition update_region (d : PCIDevice) (i : Z) (r : PCIIORegion) (c : C) : PCIIORegion * C :=
  if new_enabled d i r then (set_enabled true r, bar_set (rg_opaque r) i (new_addr d i r) true c)
  else if rg_enabled r then (set_enabled false r, bar_set (rg_opaque r) i 0 false c)
  else (r, c).
Fixpoint update_regions (d : PCIDevice) (i : Z) (rs : list PCIIORegion) (c : C) : list PCIIORegion * C :=
  match rs with
  | [] => ([], c)
  | r :: rs =>
      let '(r, c) := update_region d i r c in
      let '(rs, c) := update_regions d (i + 1) rs c in (r :: rs, c)
  end.
Definition pci_update_mappings (s : PCIDevice * C) : PCIDevice * C :=
  let '(d, c) := s in let '(rs, c) := update_regions d 0 (io_regions d) c in (set_regions rs d, c).

(** The result is true when the write is not handled. *)
Definition pci_write_bar (addr val : Z) (s : PCIDevice * C) : res (PCIDevice * C) bool :=
  let '(d, c) := s in
  let reg := if addr =? 0x30 then PCI_ROM_SLOT else (addr - 0x10) ≫ 2 in
  match io_regions d !! Z.to_nat reg with
  | None => Stop StopFault
  | Some r =>
      if rg_size r =? 0 then Ok true s
      else
        let mask := u32 (Z.lnot (rg_size r - 1)) in
        let val := if reg =? PCI_ROM_SLOT then val .& (mask .| 1) else (val .& mask) .| rg_type r in
        Ok false (pci_update_mappings (set_config (put_le32 (config d) (Z.to_nat addr) val) d, c))
  end.

(** ** The configuration space *)
Definition between (a lo hi : Z) : bool := (lo <=? a) && (a <=? hi).
Definition read_only (header addr : Z) : bool :=
  between addr 0x00 0x03 || between addr 0x08 0x0b || (addr =? 0x0e) || (addr =? 0x3d) ||
  (if (header =? 0x00) || (header =? 0x80) then between addr 0x10 0x27 || between addr 0x30 0x33
   else between addr 0x38 0x3b).
Definition pci_device_config_write8 (addr data : Z) (d : PCIDevice) : PCIDevice :=
  if (addr =? PCI_STATUS) || (addr =? PCI_STATUS + 1) then
    set_cfg_byte addr (conf_byte d addr .& Z.lnot data) d
  else if read_only (conf_byte d 0x0e) addr then d
  else set_cfg_byte addr data d.
Fixpoint config_write_bytes (n : nat) (addr data i : Z) (d : PCIDevice) : PCIDevice :=
  match n with
  | O => d
  | S n =>
      let addr1 := u32 (addr + i) in
      config_write_bytes n addr data (i + 1)
        (if addr1 <=? 0xff then pci_device_config_write8 addr1 ((data ≫ (i * 8)) .& 0xff) d else d)
  end.
Definition write_config (addr data size_log2 : Z) (s : PCIDevice * C) : PCIDevice * C :=
  let size := 1 ≪ size_log2 in
  let '(d, c) := s in
  let s := (config_write_bytes (Z.to_nat size) addr data 0 d, c) in
  if (addr <=? PCI_COMMAND) && (PCI_COMMAND <? u32 (addr + size)) then pci_update_mappings s else s.
Definition pci_device_config_write (addr data size_log2 : Z) : M (PCIDevice * C) unit := fun s =>
  if (size_log2 =? 2) && (between addr 0x10 0x27 || (addr =? 0x30)) then
    match pci_write_bar addr data s with
    | Stop r => Stop r
    | Ok true s => Ok tt (write_config addr data size_log2 s)
    | Ok false s => Ok tt s
    end
  else Ok tt (write_config addr data size_log2 s).
(** An access of four bytes is aligned. *)
Definition pci_device_config_read (d : PCIDevice) (addr size_log2 : Z) : res unit Z :=
  match size_log2 with
  | 0 => Ok (conf_byte d addr) tt
  | 1 => Ok (if addr <=? 0xfe then conf_le16 d addr else conf_byte d addr) tt
  | 2 => if addr <=? 0xfc then Ok (conf_le32 d addr) tt else Stop StopFault
  | _ => Stop StopAbort
  end.

(** The offset of the capability in [buf], -1 if there is no room. *)
Definition pci_add_capability (buf : list Z) : M PCIDevice Z :=
  d ← gets (fun d => d);
  let offset := next_cap_offset d in
  let size := Z.of_nat (length buf) in
  if 256 <? offset + size then mret (-1)
  else if 255 <? offset + 1 then stop_with StopFault
  else
    _ ← modify (set_next_cap (u8 (offset + size)));
    _ ← modify (fun d => set_cfg_byte PCI_STATUS (conf_byte d PCI_STATUS .| PCI_STATUS_CAP_LIST) d);
    _ ← modify (fun d => set_config (splice (Z.to_nat offset) buf (config d)) d);
    _ ← modify (fun d => set_cfg_byte (offset + 1) (conf_byte d PCI_CAPABILITY_LIST) d);
    _ ← modify (set_cfg_byte PCI_CAPABILITY_LIST offset);
    mret offset.
End Bars.

(** ** The bus *)
Record PCIBus := mkBus { bus_num : Z; device : list (option PCIDevice); irq_state : list (list Z) }.
Definition set_device (n : Z) (d : PCIDevice) (b : PCIBus) : PCIBus :=
  mkBus (bus_num b) (<[Z.to_nat n := Some d]> (device b)) (irq_state b).
(** A null pointer, or an access outside the table, is a fault. *)
Definition get_device (b : PCIBus) (n : Z) : res unit PCIDevice :=
  match device b !! Z.to_nat n with Some (Some d) => Ok d tt | _ => Stop StopFault end.

Fixpoint free_slot (n : nat) (fn : Z) (b : PCIBus) : Z :=
  match n with
  | O => -1
  | S n => match device b !! Z.to_nat fn with Some None => fn | _ => free_slot n (fn + 8) b end
  end.
Definition devfn_alloc (b : PCIBus) : Z := free_slot 32 0 b.
Definition new_device (fn vendor_id device_id revision class_id : Z) : PCIDevice :=
  let c := put_le16 (replicate 256 0) 0x00 vendor_id in
  let c := put_le16 c 0x02 device_id in
  let c := <[8%nat := u8 revision]> c in
  let c := put_le16 c 0x0a class_id in
  mkPCI (u8 fn) (<[0x0e%nat := 0]> c) 0x40 (replicate (Z.to_nat PCI_NUM_REGIONS) (mkRegion 0 0 false 0)).
(** [None] is the result NULL. *)
Definition pci_register_device (fn vendor_id device_id revision class_id : Z) : M PCIBus (option Z) :=
  b ← gets (fun b => b);
  let fn := if fn <? 0 then devfn_alloc b else fn in
  if fn <? 0 then mret None
  else
    match device b !! Z.to_nat fn with
    | None => stop_with StopFault
    | Some (Some _) => mret None
    | Some None => _ ← modify (set_device fn (new_device fn vendor_id device_id revision class_id)); mret (Some fn)
    end.

(** Interrupt [irq_num] of the device [d] on the lines of the bus *)
Definition bus_map_irq (d : PCIDevice) (irq_num : Z) : Z := (irq_num + ((devfn d ≫ 3) - 1)) .& 3.
Definition put_irq (irq n mask level : Z) (b : PCIBus) : PCIBus :=
  mkBus (bus_num b) (device b)
    (alter (alter (fun w => if level =? 0 then w .& u32 (Z.lnot mask) else w .| mask) (Z.to_nat n)) (Z.to_nat irq) (irq_state b)).
Definition bus_level (b : PCIBus) (irq : Z) : Z :=
  if foldl Z.lor 0 (default [] (irq_state b !! Z.to_nat irq)) =? 0 then 0 else 1.

(** ** The host bridge *)
Record I440FXState (C : Type) := mkI440FX {
  pci_bus : PCIBus;
  pci_dev : Z;
  piix3_dev : Z;
  config_reg : Z;
  pic_irq_state : list Z;
  pic_irqs : list Z;
  mappings : C;
}.
Arguments mkI440FX {C}.
Arguments pci_bus {C}.
Arguments pci_dev {C}.
Arguments piix3_dev {C}.
Arguments config_reg {C}.
Arguments pic_irq_state {C}.
Arguments pic_irqs {C}.
Arguments mappings {C}.

Section Bridge.
Context {C : Type} (bar_set : Z -> Z -> Z -> bool -> C -> C).
Local Abbreviation MI := (M (I440FXState C)).
Definition set_pci_bus b (s : I440FXState C) := mkI440FX b (pci_dev s) (piix3_dev s) (config_reg s) (pic_irq_state s) (pic_irqs s) (mappings s).
Definition set_config_reg r (s : I440FXState C) := mkI440FX (pci_bus s) (pci_dev s) (piix3_dev s) r (pic_irq_state s) (pic_irqs s) (mappings s).
Definition set_pic p l (s : I440FXState C) := mkI440FX (pci_bus s) (pci_dev s) (piix3_dev s) (config_reg s) p l (mappings s).
Definition set_mappings (c : C) (s : I440FXState C) := mkI440FX (pci_bus s) (pci_dev s) (piix3_dev s) (config_reg s) (pic_irq_state s) (pic_irqs s) c.

(** A line of the bus is routed by the registers 0x60 .. 0x63 of the second device. *)
Definition i440fx_set_irq (irq_num irq_level : Z) : MI unit :=
  s ← gets (fun s => s);
  match get_device (pci_bus s) (piix3_dev s) with
  | Stop r => stop_with r
  | Ok hd _ =>
      let pic_irq := conf_byte hd (0x60 + irq_num) .& Z.lnot 0x80 in
      _ ← modify (set_pci_bus (set_device (piix3_dev s) (set_cfg_byte (0x60 + irq_num) pic_irq hd) (pci_bus s)));
      if pic_irq <? 16 then
        let old := nth (Z.to_nat pic_irq) (pic_irq_state s) 0 in
        let new := u8 (if irq_level =? 0 then old .& Z.lnot (1 ≪ irq_num) else old .| (1 ≪ irq_num)) in
        modify (set_pic (<[Z.to_nat pic_irq := new]> (pic_irq_state s))
          (<[Z.to_nat pic_irq := if new =? 0 then 0 else 1]> (pic_irqs s)))
      else mret tt
  end.
Definition pci_device_set_irq (fn irq_num level : Z) : MI unit :=
  s ← gets (fun s => s);
  match get_device (pci_bus s) fn with
  | Stop r => stop_with r
  | Ok d _ =>
      let irq := bus_map_irq d irq_num in
      let b := put_irq irq (devfn d ≫ 5) (u32 (1 ≪ (devfn d .& 0x1f))) level (pci_bus s) in
      _ ← modify (set_pci_bus b);
      i440fx_set_irq irq (bus_level b irq)
  end.

(** ** The data and address ports *)
Definition pci_data_write (addr data size_log2 : Z) : MI unit := fun s =>
  if negb ((addr ≫ 16) .& 0xff =? bus_num (pci_bus s)) then Ok tt s
  else
    let fn := (addr ≫ 8) .& 0xff in
    match device (pci_bus s) !! Z.to_nat fn with
    | None => Stop StopFault
    | Some None => Ok tt s
    | Some (Some d) =>
        match pci_device_config_write bar_set (addr .& 0xff) data size_log2 (d, mappings s) with
        | Ok _ (d, c) => Ok tt (set_mappings c (set_pci_bus (set_device fn d (pci_bus s)) s))
        | Stop r => Stop r
        end
    end.
Definition val_ones : list Z := [0xff; 0xffff; 0xffffffff].
Definition ones (size_log2 : Z) : MI Z :=
  match val_ones !! Z.to_nat size_log2 with Some v => mret v | None => stop_with StopFault end.
Definition pci_data_read (addr size_log2 : Z) : MI Z := fun s =>
  if negb ((addr ≫ 16) .& 0xff =? bus_num (pci_bus s)) then ones size_log2 s
  else
    match device (pci_bus s) !! Z.to_nat ((addr ≫ 8) .& 0xff) with
    | None => Stop StopFault
    | Some None => ones size_log2 s
    | Some (Some d) =>
        match pci_device_config_read d (addr .& 0xff) size_log2 with Ok v _ => Ok v s | Stop r => Stop r end
    end.
Definition i440fx_write_addr (offset data size_log2 : Z) : MI unit := modify (set_config_reg data).
Definition i440fx_read_addr (offset size_log2 : Z) : MI Z := gets config_reg.
Definition config_addr (reg offset size_log2 : Z) : Z := if size_log2 =? 2 then reg .& u32 (Z.lnot 3) else reg .| offset.
Definition i440fx_write_data (offset data size_log2 : Z) : MI unit := fun s =>
  if flag (config_reg s) 0x80000000 then pci_data_write (config_addr (config_reg s) offset size_log2) data size_log2 s
  else Ok tt s.
Definition i440fx_read_data (offset size_log2 : Z) : MI Z := fun s =>
  if negb (flag (config_reg s) 0x80000000) then ones size_log2 s
  else pci_data_read (config_addr (config_reg s) offset size_log2) size_log2 s.

(** ** Initialisation *)
Definition on_bus {A} (m : M PCIBus A) : MI A := fun s =>
  match m (pci_bus s) with Ok a b => Ok a (set_pci_bus b s) | Stop r => Stop r end.
Definition on_device {A} (fn : Z) (m : M PCIDevice A) : MI A := fun s =>
  match get_device (pci_bus s) fn with
  | Stop r => Stop r
  | Ok d _ => match m d with Ok a d => Ok a (set_pci_bus (set_device fn d (pci_bus s)) s) | Stop r => Stop r end
  end.
(** The ports of the bridge in the map of ports *)
Definition i440fx_ports (port_map : PhysMemoryMap) : res PhysMemoryMap nat :=
  match cpu_register_device port_map 0xcf8 1 0 DEVIO_SIZE32 with
  | Stop r => Stop r
  | Ok _ port_map => cpu_register_device port_map 0xcfc 4 1 (DEVIO_SIZE8 .| DEVIO_SIZE16 .| DEVIO_SIZE32)
  end.
Definition null_pointer {A} (o : option A) : MI A := match o with Some a => mret a | None => stop_with StopFault end.
Definition i440fx_devices : MI unit :=
  d ← on_bus (pci_register_device 0 0x8086 0x1237 0x02 0x0600);
  d ← null_pointer d;
  _ ← on_device d (modify (fun d => set_config (put_le16 (config d) (Z.to_nat PCI_SUBSYSTEM_VENDOR_ID) 0x1af4) d));
  _ ← on_device d (modify (fun d => set_config (put_le16 (config d) (Z.to_nat PCI_SUBSYSTEM_ID) 0x1100) d));
  p ← on_bus (pci_register_device 8 0x8086 0x7000 0x00 0x0601);
  p ← null_pointer p;
  _ ← modify (fun s => mkI440FX (pci_bus s) d p (config_reg s) (pic_irq_state s) (pic_irqs s) (mappings s));
  on_device p (modify (pci_device_set_config8 0x0e 0x80)).
Definition i440fx_init (port_map : PhysMemoryMap) (c : C) : res PhysMemoryMap (I440FXState C) :=
  match i440fx_ports port_map with
  | Stop r => Stop r
  | Ok _ port_map =>
      match i440fx_devices (mkI440FX (mkBus 0 (replicate 256 None) (replicate 4 (replicate 8 0))) 0 0 0
          (replicate 16 0) (replicate 16 0) c) with
      | Ok _ s => Ok s port_map
      | Stop r => Stop r
      end
  end.

(** Without a BIOS: [elcr] are the two edge/level registers of the interrupt controllers. *)
Fixpoint map_lines (n : nat) (i : Z) (pci_irqs elcr : list Z) : MI (list Z) :=
  match n with
  | O => mret elcr
  | S n =>
      match pci_irqs !! Z.to_nat i with
      | None => stop_with StopFault
      | Some irq_num =>
          p ← gets piix3_dev;
          _ ← on_device p (modify (set_cfg_byte (0x60 + i) irq_num));
          match elcr !! Z.to_nat (irq_num ≫ 3) with
          | None => stop_with StopFault
          | Some e => map_lines n (i + 1) pci_irqs (<[Z.to_nat (irq_num ≫ 3) := u8 (e .| (1 ≪ (irq_num .& 7)))]> elcr)
          end
      end
  end.
Fixpoint map_devices (n : nat) (fn : Z) : MI unit :=
  match n with
  | O => mret tt
  | S n =>
      s ← gets (fun s => s);
      _ ← match device (pci_bus s) !! Z.to_nat fn with
          | Some (Some d) =>
              if conf_byte d PCI_INTERRUPT_PIN =? 0 then mret tt
              else
                hd ← on_device (piix3_dev s) (gets (fun d => d));
                let pic_irq := conf_byte hd (0x60 + bus_map_irq d 0) in
                if pic_irq <? 16 then on_device fn (modify (set_cfg_byte PCI_INTERRUPT_LINE pic_irq)) else mret tt
          | _ => mret tt
          end;
      map_devices n (fn + 1)
  end.
Definition i440fx_map_interrupts (elcr pci_irqs : list Z) : MI (list Z) :=
  elcr ← map_lines 4 0 pci_irqs (<[1%nat := 0]> (<[0%nat := 0]> elcr));
  _ ← map_devices 256 0;
  mret elcr.
End Bridge.
