(* ===== verification/PciFacts.v ===== *)
(** * The PCI bus: mappings follow the configuration, interrupts are wired or, capabilities are
    a list *)
From S2P Require Export Pci.
#[local] Open Scope Z_scope.
#[local] Arguments byte : simpl never.
#[local] Arguments Z.to_nat : simpl never.

(** ** Bytes of the configuration space *)
Lemma flag_testbit v k : 0 <= k -> flag v (2 ^ k) = Z.testbit v k.
Proof. apply land_pow2_test. Qed.
Lemma land_mask v k : 0 <= k -> 0 <= v -> v .& Z.lnot (2 ^ k - 1) = v - v mod 2 ^ k.
Proof.
  intros Hk Hv. change (2 ^ k - 1) with (Z.pred (2 ^ k)). rewrite <- Z.ones_equiv, <- Z.ldiff_land, Z.ldiff_ones_r by lia.
  rewrite Z.shiftl_mul_pow2, Z.shiftr_div_pow2 by lia. pose proof (Z.div_mod v (2 ^ k) ltac:(lia)). lia.
Qed.
Lemma land_u32 v m : fits 32 v -> v .& u32 m = v .& m.
Proof.
  intros Hv. apply Z.bits_inj'. intros i Hi. rewrite !Z.land_spec, wrap_testbit by lia.
  destruct (Z.ltb_spec i 32); [done|]. by rewrite (fits_testbit 32 v i).
Qed.

(** ** What the mappings of a device should be *)

(** The interface to the functions bar_set: they keep an address for every region. *)
Class BarClient {C : Type} (bar_set : Z -> Z -> Z -> bool -> C -> C) := {
  mapped : C -> Z -> Z -> option Z;
  mapped_set o i a en c o' i' : mapped (bar_set o i a en c) o' i' =
    if decide (o = o' /\ i = i') then if en then Some a else None else mapped c o' i';
}.
(** The regions that the command register and the base address register enable, at the
    address of the register without its low bits.  An I/O region is also enabled by the bit
    for memory. *)
Definition decodes (d : PCIDevice) (i : Z) (r : PCIIORegion) : option Z :=
  let cmd := conf_byte d PCI_COMMAND in
  let bar := conf_le32 d (region_addr i) in
  if rg_size r =? 0 then None
  else if (Z.testbit (rg_type r) 0 && Z.testbit cmd 0) || (Z.testbit cmd 1 && (negb (i =? PCI_ROM_SLOT) || Z.testbit bar 0))
  then Some (bar - bar mod rg_size r) else None.

Record region_wf (r : PCIIORegion) : Prop := {
  rw_size : rg_size r = 0 \/ exists k, 2 <= k < 32 /\ rg_size r = 2 ^ k;
  rw_type : fits 8 (rg_type r);
}.
Record dev_wf (d : PCIDevice) : Prop := {
  dv_len : length (config d) = 256%nat;
  dv_bytes : bytes (config d);
  dv_devfn : fits 8 (devfn d);
  dv_header : conf_byte d 0x0e = 0 \/ conf_byte d 0x0e = 0x80;
  dv_regions : length (io_regions d) = 7%nat;
  dv_wf : Forall region_wf (io_regions d);
}.
Lemma le16_low l o k : 0 <= k < 8 -> Z.testbit (get_le16 l o) k = Z.testbit (byte l o) k.
Proof.
  intros Hk. unfold get_le16. rewrite wrap_testbit, Z.lor_spec, Z.shiftl_spec, (Z.testbit_neg_r _ (k - 8)), orb_false_r by lia.
  destruct (Z.ltb_spec k 16); [done|lia].
Qed.
Lemma decodes_spec d i r : region_wf r ->
  decodes d i r = if new_enabled d i r then Some (new_addr d i r) else None.
Proof.
  intros [Hsz _]. unfold decodes, new_enabled, new_addr.
  change PCI_ADDRESS_SPACE_IO with (2 ^ 0). change PCI_COMMAND_IO with (2 ^ 0). change PCI_COMMAND_MEMORY with (2 ^ 1).
  assert (forall v, flag v 1 = Z.testbit v 0) as Hf by (intros v; by apply (flag_testbit v 0)).
  rewrite !flag_testbit, Hf by lia. unfold conf_le16. rewrite !le16_low by lia. fold (conf_byte d PCI_COMMAND).
  destruct (Z.eqb_spec (rg_size r) 0) as [|Hz]; [done|]. destruct Hsz as [|(k & Hk & ->)]; [done|].
  rewrite land_u32, land_mask by (try apply le32_fits; try lia; apply le32_fits).
  destruct (Z.testbit (rg_type r) 0), (Z.testbit (conf_byte d PCI_COMMAND) 0), (Z.testbit (conf_byte d PCI_COMMAND) 1); cbn [andb orb]; try done;
    by destruct (i =? PCI_ROM_SLOT).
Qed.

Section Bars.
Context {C : Type} (bar_set : Z -> Z -> Z -> bool -> C -> C) `{!BarClient bar_set}.
(** Every region is where it should be, and knows it. *)
Definition bars_ok (d : PCIDevice) (c : C) : Prop := forall i r, io_regions d !! i = Some r ->
  rg_enabled r = bool_decide (is_Some (decodes d (Z.of_nat i) r)) /\
  (rg_size r <> 0 -> mapped c (rg_opaque r) (Z.of_nat i) = decodes d (Z.of_nat i) r).
(** What an update needs: a region that is not enabled is not mapped. *)
Definition bars_known (d : PCIDevice) (c : C) : Prop := forall i r, io_regions d !! i = Some r ->
  (rg_size r = 0 -> rg_enabled r = false) /\ (rg_size r <> 0 -> rg_enabled r = false -> mapped c (rg_opaque r) (Z.of_nat i) = None).
Lemma bars_ok_known d c : bars_ok d c -> bars_known d c.
Proof.
  intros H i r Hr. destruct (H i r Hr) as [He Hm]. rewrite He. split.
  - intros Hz. unfold decodes. rewrite Hz. done.
  - intros Hz Hn%bool_decide_eq_false. rewrite Hm by done. by destruct (decodes d (Z.of_nat i) r) as [a|]; [destruct Hn|].
Qed.

(** ** An update of the mappings *)
Lemma update_region_spec d i r c r' c' : update_region bar_set d i r c = (r', c') ->
  r' = set_enabled (new_enabled d i r) r /\
  (forall o j, mapped c' o j = if decide (rg_opaque r = o /\ i = j) then
     if new_enabled d i r then Some (new_addr d i r) else if rg_enabled r then None else mapped c o j
     else mapped c o j).
Proof.
  unfold update_region. destruct (new_enabled d i r), (rg_enabled r) eqn:E; intros [= <- <-]; (split; [try done|intros o j; rewrite ?mapped_set; by case_decide]).
  destruct r. cbn in E. by subst.
Qed.
(** Updates of the region do not touch the mappings of [o]. *)
Definition foreign (o : Z) (r : PCIIORegion) : Prop := rg_size r = 0 /\ rg_enabled r = false \/ rg_opaque r <> o.
Lemma update_region_foreign d i r c r' c' o j : update_region bar_set d i r c = (r', c') -> i <> j \/ foreign o r -> mapped c' o j = mapped c o j.
Proof.
  intros E H. destruct (update_region_spec _ _ _ _ _ _ E) as [_ Hm]. rewrite Hm. case_decide as D; [|done]. destruct D as [<- ->].
  destruct H as [|[[Hz He]|]]; [done| |done]. unfold new_enabled. by rewrite Hz, He.
Qed.
Lemma update_regions_spec d rs : forall i c rs' c', update_regions bar_set d i rs c = (rs', c') ->
  length rs' = length rs /\
  (forall k r, rs !! k = Some r -> rs' !! k = Some (set_enabled (new_enabled d (i + Z.of_nat k) r) r) /\
     mapped c' (rg_opaque r) (i + Z.of_nat k) = if new_enabled d (i + Z.of_nat k) r then Some (new_addr d (i + Z.of_nat k) r)
       else if rg_enabled r then None else mapped c (rg_opaque r) (i + Z.of_nat k)) /\
  (forall o j, j < i \/ Forall (foreign o) rs -> mapped c' o j = mapped c o j).
Proof.
  induction rs as [|r rs IH]; intros i c rs' c' E; cbn [update_regions] in E; [injection E as <- <-; by split; [|split]|].
  destruct (update_region bar_set d i r c) as [r1 c1] eqn:E1. destruct (update_regions bar_set d (i + 1) rs c1) as [rs2 c2] eqn:E2.
  injection E as <- <-. destruct (IH _ _ _ _ E2) as (Hlen & Hk & Hf). destruct (update_region_spec _ _ _ _ _ _ E1) as [-> Hm].
  split; [cbn; lia|]. split.
  - intros [|k] r0 Hr0; cbn in Hr0.
    + injection Hr0 as ->. rewrite Z.add_0_r. split; [done|]. rewrite Hf by lia. rewrite Hm. by rewrite decide_True.
    + replace (i + Z.of_nat (S k)) with (i + 1 + Z.of_nat k) by lia. destruct (Hk k r0 Hr0) as [H1 H2]. split; [done|]. rewrite H2.
      rewrite Hm. rewrite decide_False by lia. done.
  - intros o j H. rewrite Hf by (destruct H as [|[_ H]%Forall_cons_1]; [left; lia|by right]).
    eapply update_region_foreign; [exact E1|]. destruct H as [|[H _]%Forall_cons_1]; [left; lia|by right].
Qed.
Lemma decodes_config d d' i r : config d' = config d -> decodes d' i r = decodes d i r.
Proof. intros H. unfold decodes, conf_byte, conf_le32. by rewrite H. Qed.
Lemma set_enabled_decodes d i b r : decodes d i (set_enabled b r) = decodes d i r.
Proof. done. Qed.
Lemma pci_update_mappings_ok d c d' c' : pci_update_mappings bar_set (d, c) = (d', c') -> dev_wf d -> bars_known d c ->
  dev_wf d' /\ bars_ok d' c' /\ config d' = config d /\ devfn d' = devfn d /\
  (forall i r, io_regions d' !! i = Some r -> exists r0 b, io_regions d !! i = Some r0 /\ r = set_enabled b r0) /\
  (forall o j, Forall (foreign o) (io_regions d) -> mapped c' o j = mapped c o j).
Proof.
  unfold pci_update_mappings. destruct (update_regions bar_set d 0 (io_regions d) c) as [rs c1] eqn:E. intros [= <- <-] Hd Hk.
  destruct (update_regions_spec _ _ _ _ _ _ E) as (Hlen & Hup & Hfor).
  assert (forall i r, rs !! i = Some r -> exists r0, io_regions d !! i = Some r0 /\ r = set_enabled (new_enabled d (Z.of_nat i) r0) r0) as Hold.
  { intros i r Hi. destruct (lookup_lt_is_Some_2 (io_regions d) i) as [r0 Hr0]; [rewrite <- Hlen; by eapply lookup_lt_Some|].
    exists r0. split; [done|]. destruct (Hup i r0 Hr0) as [H _]. rewrite Z.add_0_l in H. congruence. }
  destruct Hd. split; [|split; [|split; [done|split; [done|split; [|intros; apply Hfor; by right]]]]].
  - split; try done; [cbn; lia|]. apply Forall_lookup. intros i r Hi. cbn [io_regions set_regions] in Hi.
    destruct (Hold i r Hi) as (r0 & Hr0 & ->). destruct (Forall_lookup_1 _ _ _ _ dv_wf0 Hr0). by split.
  - intros i r Hi. cbn [io_regions set_regions] in Hi. destruct (Hold i r Hi) as (r0 & Hr0 & ->).
    pose proof (decodes_spec d (Z.of_nat i) r0 (Forall_lookup_1 _ _ _ _ dv_wf0 Hr0)) as Hd.
    rewrite !(decodes_config d) by done. rewrite set_enabled_decodes. destruct (Hup i r0 Hr0) as [_ Hm]. rewrite Z.add_0_l in Hm. rewrite Hd.
    cbn [rg_enabled rg_size rg_opaque set_enabled]. destruct (Hk i r0 Hr0) as [Hz Hn]. split; [|intros Hs; rewrite Hm].
    + destruct (new_enabled d (Z.of_nat i) r0); symmetry; [by apply bool_decide_eq_true|apply bool_decide_eq_false; by intros []].
    + destruct (new_enabled d (Z.of_nat i) r0); [done|]. destruct (rg_enabled r0) eqn:Er; [done|]. by apply Hn.
  - intros i r Hi. destruct (Hold i r Hi) as (r0 & Hr0 & ->). by eexists _, _.
Qed.

(** ** Writes to the configuration space *)
(** The bytes that the mappings and the rules for writes depend on, the command apart. *)
Definition bar_byte (j : nat) : Prop := (j = 14 \/ 16 <= j < 40 \/ 48 <= j < 52)%nat.
Record same_bars (d d' : PCIDevice) : Prop := {
  sb_regions : io_regions d' = io_regions d;
  sb_devfn : devfn d' = devfn d;
  sb_bytes : forall j, bar_byte j -> byte (config d') j = byte (config d) j;
}.
Lemma same_bars_trans d d' d'' : same_bars d d' -> same_bars d' d'' -> same_bars d d''.
Proof. intros [] []. split; [congruence|congruence|]. intros j Hj. by rewrite sb_bytes1, sb_bytes0. Qed.
Lemma decodes_same d d' i r : same_bars d d' -> byte (config d') 4 = byte (config d) 4 -> 0 <= i < 7 -> decodes d' i r = decodes d i r.
Proof.
  intros [_ _ Hb] H4 Hi. unfold decodes, conf_byte, conf_le32. change (Z.to_nat PCI_COMMAND) with 4%nat. rewrite H4.
  rewrite (le32_frame (config d') (config d)); [done|]. intros j Hj. apply Hb. unfold bar_byte, region_addr, PCI_ROM_SLOT in *.
  destruct (Z.eqb_spec i 6); lia.
Qed.
Lemma bars_ok_same d d' c : same_bars d d' -> byte (config d') 4 = byte (config d) 4 -> dev_wf d -> bars_ok d c -> bars_ok d' c.
Proof.
  intros Hs H4 Hd H i r Hi. pose proof (sb_regions _ _ Hs) as E. rewrite E in Hi. pose proof (lookup_lt_Some _ _ _ Hi). pose proof (dv_regions _ Hd).
  rewrite (decodes_same d d') by (done || lia). by apply H.
Qed.
Lemma set_cfg_byte_wf a v d : dev_wf d -> 0 <= a < 256 -> a <> 14 -> dev_wf (set_cfg_byte a v d).
Proof.
  intros [] Ha Hne. split; try done.
  - cbn. by rewrite length_insert.
  - cbn. apply Forall_insert; [done|by apply fits_wrap].
  - unfold conf_byte. cbn. by rewrite byte_insert, decide_False by lia.
Qed.
Lemma write8_spec a v d : dev_wf d -> 0 <= a < 256 ->
  dev_wf (pci_device_config_write8 a v d) /\ same_bars d (pci_device_config_write8 a v d) /\
  (forall j, j <> Z.to_nat a -> byte (config (pci_device_config_write8 a v d)) j = byte (config d) j).
Proof.
  intros Hd Ha. assert (forall w, ~ bar_byte (Z.to_nat a) -> dev_wf (set_cfg_byte a w d) /\ same_bars d (set_cfg_byte a w d) /\
    (forall j, j <> Z.to_nat a -> byte (config (set_cfg_byte a w d)) j = byte (config d) j)) as Hput.
  { intros w Hn. pose proof (dv_len _ Hd). assert (forall j, j <> Z.to_nat a -> byte (config (set_cfg_byte a w d)) j = byte (config d) j) as Hf
      by (intros j Hj; cbn; by rewrite byte_insert, decide_False by lia).
    split; [apply set_cfg_byte_wf; [done..|unfold bar_byte in Hn; lia]|]. split; [|done]. split; [done..|]. intros j Hj. apply Hf. by intros ->. }
  unfold pci_device_config_write8. change (PCI_STATUS + 1) with 7. change PCI_STATUS with 6. case_if.
  { apply Hput. unfold bar_byte. lia. }
  destruct (read_only (conf_byte d 0x0e) a) eqn:Ero; [by split|]. apply Hput. unfold read_only, between in Ero.
  destruct (dv_header _ Hd) as [Eh|Eh]; rewrite Eh in Ero; cbn [Z.eqb Pos.eqb orb] in Ero; unfold bar_byte; lia.
Qed.
Lemma write_bytes_spec a v n : forall i d, dev_wf d -> 0 <= a < 256 -> 0 <= i -> i + Z.of_nat n <= 4 ->
  dev_wf (config_write_bytes n a v i d) /\ same_bars d (config_write_bytes n a v i d) /\
  (4 < a + i \/ a + i + Z.of_nat n <= 4 -> byte (config (config_write_bytes n a v i d)) 4 = byte (config d) 4).
Proof.
  induction n as [|n IH]; intros i d Hd Ha Hi Hn; cbn [config_write_bytes]; [by split|].
  rewrite wrap_fits by (unfold fits; lia). set (d1 := if a + i <=? 0xff then _ else d).
  assert (dev_wf d1 /\ same_bars d d1 /\ (a + i <> 4 -> byte (config d1) 4 = byte (config d) 4)) as (H1 & H2 & H3).
  { unfold d1. destruct (Z.leb_spec (a + i) 255); [|by split].
    destruct (write8_spec (a + i) ((v ≫ (i * 8)) .& 255) d) as (W1 & W2 & W3); [done|lia|]. split; [done|split; [done|]]. intros. apply W3. lia. }
  destruct (IH (i + 1) d1 H1 Ha ltac:(lia) ltac:(lia)) as (I1 & I2 & I3). split; [done|]. split; [by eapply same_bars_trans|].
  intros H. rewrite I3, H3 by lia. done.
Qed.
(** After a write: the same device, mapped as its registers say; the mappings of others are
    as they were. *)
Record write_ok (d : PCIDevice) (c : C) (d' : PCIDevice) (c' : C) : Prop := {
  wo_wf : dev_wf d';
  wo_bars : bars_ok d' c';
  wo_devfn : devfn d' = devfn d;
  wo_regions : forall i r, io_regions d' !! i = Some r -> exists r0 b, io_regions d !! i = Some r0 /\ r = set_enabled b r0;
  wo_frame : forall o j, Forall (foreign o) (io_regions d) -> mapped c' o j = mapped c o j;
}.
Lemma update_write_ok d0 d c : io_regions d = io_regions d0 -> devfn d = devfn d0 -> dev_wf d -> bars_ok d0 c ->
  let '(d', c') := pci_update_mappings bar_set (d, c) in write_ok d0 c d' c'.
Proof.
  intros Hr Hf Hd Hb. destruct (pci_update_mappings bar_set (d, c)) as [d' c'] eqn:E.
  destruct (pci_update_mappings_ok d c d' c' E Hd) as (H1 & H2 & H3 & H4 & H5 & H6).
  { apply bars_ok_known in Hb. unfold bars_known in *. by rewrite Hr. }
  rewrite Hr in *. split; [done|done|congruence|done|done].
Qed.
Lemma write_bar_ok a v d c : dev_wf d -> bars_ok d c -> fits 32 v -> a mod 4 = 0 -> 16 <= a < 40 \/ a = 48 ->
  match pci_write_bar bar_set a v (d, c) with
  | Stop _ => False
  | Ok true s => s = (d, c)
  | Ok false (d', c') => write_ok d c d' c'
  end.
Proof.
  intros Hd Hb Hv Ha Hr. unfold pci_write_bar. set (reg := if a =? 0x30 then _ else _).
  assert (0 <= reg < 7 /\ region_addr reg = a) as [Hreg Hra].
  { unfold reg, region_addr, PCI_ROM_SLOT. rewrite Z.shiftr_div_pow2 by lia. change (2 ^ 2) with 4. case_if; [split; [lia|]; cbn; lia|].
    assert (0 <= (a - 16) / 4 < 6) by (Z.to_euclidean_division_equations; lia). split; [lia|]. destruct (Z.eqb_spec ((a - 16) / 4) 6); [lia|].
    Z.to_euclidean_division_equations; lia. }
  destruct (lookup_lt_is_Some_2 (io_regions d) (Z.to_nat reg)) as [r Hlr]; [rewrite (dv_regions _ Hd); lia|]. rewrite Hlr.
  destruct (rg_size r =? 0); [done|]. pose proof (rw_type _ (Forall_lookup_1 _ _ _ _ (dv_wf _ Hd) Hlr)) as Hty.
  set (v' := if reg =? PCI_ROM_SLOT then _ else _).
  pose proof (update_write_ok d (set_config (put_le32 (config d) (Z.to_nat a) v') d) c eq_refl eq_refl) as Hu.
  destruct (pci_update_mappings bar_set _) as [d' c']. apply Hu; [|done]. destruct Hd. split; try done.
  - cbn. unfold put_le32. rewrite length_splice; [done|cbn; lia].
  - cbn. apply bytes_splice; [|done]. repeat constructor; apply fits_wrap; lia.
  - unfold conf_byte. cbn. unfold put_le32. rewrite byte_splice, decide_False by (cbn; lia). done.
Qed.
Lemma config_write_ok a v sz d c : dev_wf d -> bars_ok d c -> fits 32 v -> 0 <= a < 256 -> 0 <= sz <= 2 -> (sz = 2 -> a mod 4 = 0) ->
  exists d' c', pci_device_config_write bar_set a v sz (d, c) = Ok tt (d', c') /\ write_ok d c d' c'.
Proof.
  intros Hd Hb Hv Ha Hsz Hal. unfold pci_device_config_write.
  assert (exists d' c', write_config bar_set a v sz (d, c) = (d', c') /\ write_ok d c d' c') as (d1 & c1 & Hbytes & Hok).
  { unfold write_config. assert (1 ≪ sz = 1 \/ 1 ≪ sz = 2 \/ 1 ≪ sz = 4) as Hs.
    { assert (sz = 0 \/ sz = 1 \/ sz = 2) as [-> | [-> | ->]] by lia; auto. }
    destruct (write_bytes_spec a v (Z.to_nat (1 ≪ sz)) 0 d Hd Ha) as (W1 & W2 & W3); [lia|lia|].
    set (d1 := config_write_bytes _ _ _ _ _) in *. rewrite wrap_fits by (unfold fits; lia). change PCI_COMMAND with 4.
    destruct ((a <=? 4) && (4 <? a + (1 ≪ sz))) eqn:E.
    - pose proof (update_write_ok d d1 c (sb_regions _ _ W2) (sb_devfn _ _ W2) W1 Hb) as Hu.
      destruct (pci_update_mappings bar_set (d1, c)) as [d' c']. by eexists _, _.
    - eexists _, _. split; [done|]. split; [done| |by apply W2| |done].
      + eapply bars_ok_same; [exact W2|apply W3; lia|done|done].
      + intros i r Hi. rewrite (sb_regions _ _ W2) in Hi. exists r, (rg_enabled r). split; [done|by destruct r]. }
  rewrite Hbytes. case_if; [|by exists d1, c1]. unfold between in *. pose proof (write_bar_ok a v d c Hd Hb Hv) as Hw.
  destruct (pci_write_bar bar_set a v (d, c)) as [[] [d' c']|r].
  - destruct Hw; [apply Hal; lia|lia|]. rewrite Hbytes. by exists d1, c1.
  - eexists _, _. split; [done|]. apply Hw; [apply Hal; lia|lia].
  - destruct Hw; [apply Hal; lia|lia].
Qed.
End Bars.

(** ** Capabilities *)
(** The capability [buf] is at [o], but for its pointer. *)
Definition cap_at (c : list Z) (o : Z) (buf : list Z) : Prop :=
  forall j, (j < length buf)%nat -> j <> 1%nat -> byte c (Z.to_nat o + j) = byte buf j.

(** A new capability *)
Record cap_added (d : PCIDevice) (buf : list Z) (d' : PCIDevice) (o := next_cap_offset d) : Prop := {
  ca_len : length (config d') = 256%nat;
  ca_bytes : bytes (config d');
  ca_next : next_cap_offset d' = u8 (o + Z.of_nat (length buf));
  ca_head : conf_byte d' PCI_CAPABILITY_LIST = o;
  ca_link : byte (config d') (Z.to_nat o + 1) = conf_byte d PCI_CAPABILITY_LIST;
  ca_body : cap_at (config d') o buf;
  ca_status : Z.testbit (conf_byte d' PCI_STATUS) 4 = true;
  ca_frame : forall j, (j <> 6 /\ j <> 52 /\ ~ (Z.to_nat o <= j < Z.to_nat o + length buf))%nat ->
    byte (config d') j = byte (config d) j;
}.
Lemma add_capability_spec d buf : length (config d) = 256%nat -> bytes (config d) -> 64 <= next_cap_offset d -> (2 <= length buf)%nat -> bytes buf ->
  if 256 <? next_cap_offset d + Z.of_nat (length buf) then pci_add_capability buf d = Ok (-1) d
  else exists d', pci_add_capability buf d = Ok (next_cap_offset d) d' /\ cap_added d buf d'.
Proof.
  intros Hl Hby Ho Hb Hbb. unfold pci_add_capability, gets, mbind, M_bind, modify. destruct (Z.ltb_spec 256 (next_cap_offset d + Z.of_nat (length buf))) as [|H]; [done|].
  destruct (Z.ltb_spec 255 (next_cap_offset d + 1)); [lia|]. eexists. split; [reflexivity|]. set (o := next_cap_offset d) in *.
  assert (fits 8 o) as Hof by (unfold fits; lia).
  set (st := conf_byte (set_next_cap _ d) PCI_STATUS .| PCI_STATUS_CAP_LIST). set (c1 := <[6%nat := u8 st]> (config d)).
  set (c2 := splice (Z.to_nat o) buf c1). assert (length c1 = 256%nat) as Hl1 by (unfold c1; by rewrite length_insert).
  assert (length c2 = 256%nat) as Hl2 by (unfold c2; rewrite length_splice; lia).
  assert (forall j, byte c2 j = if decide (Z.to_nat o <= j < Z.to_nat o + length buf)%nat then byte buf (j - Z.to_nat o) else
    if decide (6 = j)%nat then u8 st else byte (config d) j) as B2.
  { intros j. unfold c2, c1. rewrite byte_splice by (rewrite length_insert; lia). by rewrite byte_insert by lia. }
  set (d' := set_cfg_byte PCI_CAPABILITY_LIST o _).
  assert (config d' = <[52%nat := u8 o]> (<[Z.to_nat (o + 1) := u8 (byte c2 52)]> c2)) as Hc by done.
  assert (byte c2 52 = conf_byte d PCI_CAPABILITY_LIST) as H52 by (rewrite B2, !decide_False by lia; done).
  assert (fits 8 (conf_byte d PCI_CAPABILITY_LIST)) as Hhf by (by apply byte_fits).
  assert (forall j, byte (config d') j = if decide (52 = j)%nat then o else if decide (Z.to_nat o + 1 = j)%nat then conf_byte d PCI_CAPABILITY_LIST else byte c2 j) as B.
  { intros j. rewrite Hc, byte_insert by (rewrite length_insert; lia). rewrite wrap_fits by done. rewrite byte_insert, H52, wrap_fits by (done || lia).
    by replace (Z.to_nat (o + 1)) with (Z.to_nat o + 1)%nat by lia. }
  split.
  - rewrite Hc. by rewrite !length_insert.
  - rewrite Hc. repeat (apply Forall_insert; [|by apply fits_wrap]). apply bytes_splice; [done|]. apply Forall_insert; [done|by apply fits_wrap].
  - done.
  - unfold conf_byte. rewrite B. by rewrite decide_True.
  - rewrite B. by rewrite decide_False, decide_True by lia.
  - intros j Hj Hj1. rewrite B, !decide_False, B2, decide_True by lia. f_equal. lia.
  - unfold conf_byte. change (Z.to_nat PCI_STATUS) with 6%nat. rewrite B, !decide_False, B2, decide_False, decide_True by lia.
    rewrite wrap_testbit by lia. unfold st. rewrite Z.lor_spec. apply orb_true_r.
  - intros j Hj. rewrite B, !decide_False, B2, !decide_False by lia. done.
Qed.

(** ** The whole bus *)
Lemma power_of_two x : 0 < x -> x .& (x - 1) = 0 -> x = 2 ^ Z.log2 x.
Proof.
  intros Hx H. destruct (Z.log2_spec x Hx) as [H1 H2]. destruct (Z.eq_dec x (2 ^ Z.log2 x)) as [|Hne]; [done|].
  pose proof (Z.log2_nonneg x). assert (Z.log2 (x - 1) = Z.log2 x) as E by (apply Z.log2_unique; lia).
  assert (Z.testbit (x .& (x - 1)) (Z.log2 x) = true) as Ht; [|by rewrite H, Z.bits_0 in Ht].
  rewrite Z.land_spec, Z.bit_log2 by lia. rewrite <- E, Z.bit_log2; [done|].
  destruct (Z.eq_dec x 1) as [->|]; [done|lia].
Qed.

Section Bus.
Context {C : Type} (bar_set : Z -> Z -> Z -> bool -> C -> C) `{!BarClient bar_set} (owner : Z -> Z).
Abbreviation State := (I440FXState C).
(** The regions of a device are known to the client under pointers of its own. *)
Definition owned (n : Z) (r : PCIIORegion) : Prop := rg_size r = 0 /\ rg_enabled r = false \/ owner (rg_opaque r) = n.
Record slot_ok (n : nat) (d : PCIDevice) (c : C) : Prop := {
  sl_devfn : devfn d = Z.of_nat n;
  sl_wf : dev_wf d;
  sl_owned : Forall (owned (Z.of_nat n)) (io_regions d);
  sl_bars : bars_ok bar_set d c;
}.
Record slots_ok (s : State) : Prop := {
  bo_len : length (device (pci_bus s)) = 256%nat;
  bo_slots : forall n d, device (pci_bus s) !! n = Some (Some d) -> slot_ok n d (mappings s);
}.
Lemma owned_foreign n m o rs : Forall (owned n) rs -> owner o = m -> n <> m -> Forall (foreign o) rs.
Proof. intros H Ho Hne. eapply List.Forall_impl; [|exact H]. intros r [Hr|Hr]; [by left|right; congruence]. Qed.
(** Slot [n] changes; the mappings of the others stay. *)
Lemma slots_ok_slot s s' n d' : slots_ok s -> device (pci_bus s') = <[n := Some d']> (device (pci_bus s)) ->
  slot_ok n d' (mappings s') ->
  (forall o j, owner o <> Z.of_nat n -> mapped (mappings s') o j = mapped (mappings s) o j) -> slots_ok s'.
Proof.
  intros [Hl Hs] E Hd Hm. split; [by rewrite E, length_insert|]. intros k d Hk. rewrite E in Hk.
  destruct (decide (n = k)) as [<-|Hne].
  - rewrite list_lookup_insert_eq in Hk by (rewrite Hl; apply lookup_lt_Some in Hk; rewrite length_insert in Hk; lia). by injection Hk as <-.
  - rewrite list_lookup_insert_ne in Hk by done. destruct (Hs k d Hk) as [H1 H2 H3 H4]. split; [done..|].
    intros i r Hi. destruct (H4 i r Hi) as [B1 B2]. split; [done|]. intros Hz. rewrite Hm; [by apply B2|].
    destruct (Forall_lookup_1 _ _ _ _ H3 Hi) as [[]| ->]; [done|lia].
Qed.
Lemma slot_ok_same n d d' c : slot_ok n d c -> same_bars d d' -> byte (config d') 4 = byte (config d) 4 -> dev_wf d' -> slot_ok n d' c.
Proof.
  intros [H1 H2 H3 H4] Hs H4b Hd. split; [by rewrite (sb_devfn _ _ Hs)|done|by rewrite (sb_regions _ _ Hs)|by eapply bars_ok_same].
Qed.
Lemma get_device_slot b n d u : get_device b n = Ok d u -> device b !! Z.to_nat n = Some (Some d).
Proof. unfold get_device. destruct (device b !! Z.to_nat n) as [[?|]|]; (done || by intros [= ->]). Qed.

(** ** The operations *)
Inductive port_op :=
| OpReadAddr (offset size_log2 : Z)
| OpWriteAddr (offset data size_log2 : Z)
| OpRead (offset size_log2 : Z)
| OpWrite (offset data size_log2 : Z)
| OpIrq (fn irq_num level : Z).
Definition run_op (op : port_op) : M State unit :=
  match op with
  | OpReadAddr offset sz => _ ← i440fx_read_addr offset sz; mret tt
  | OpWriteAddr offset data sz => i440fx_write_addr offset data sz
  | OpRead offset sz => _ ← i440fx_read_data offset sz; mret tt
  | OpWrite offset data sz => i440fx_write_data bar_set offset data sz
  | OpIrq fn irq_num level => pci_device_set_irq fn irq_num level
  end.
(** What the map of ports and the devices guarantee. *)
Definition registered (b : PCIBus) (fn : Z) : Prop := exists d, get_device b fn = Ok d tt.
Definition op_ok (op : port_op) (s : State) : Prop :=
  match op with
  | OpReadAddr _ _ => True
  | OpWriteAddr _ data _ => fits 32 data
  | OpRead offset sz => fits 2 offset /\ 0 <= sz <= 2
  | OpWrite offset data sz => fits 2 offset /\ fits 32 data /\ 0 <= sz <= 2
  | OpIrq fn irq_num _ => registered (pci_bus s) fn /\ fits 2 irq_num
  end.
(** The states that the initialisation of the machine and the guest can bring about.  A
    region is registered before the guest enables the device, under a fresh pointer; the
    devices set bytes of their configuration outside the header, the command and the base
    addresses. *)
Definition free_byte (a : Z) : Prop := 0 <= a < 256 /\ a <> 4 /\ ~ bar_byte (Z.to_nat a).
Inductive reach : State -> Prop :=
| reach_init port_map c s port_map' : i440fx_init port_map c = Ok s port_map' -> reach s
| reach_device s fn vendor_id device_id revision class_id r s' : reach s -> fn < 256 ->
    on_bus (pci_register_device fn vendor_id device_id revision class_id) s = Ok r s' -> reach s'
| reach_bar s fn d bar_num size type opaque u s' : reach s ->
    get_device (pci_bus s) fn = Ok d tt -> conf_byte d PCI_COMMAND = 0 -> owner opaque = fn -> 0 <= fn ->
    mapped (mappings s) opaque bar_num = None -> 0 <= bar_num -> fits 32 size ->
    on_device fn (pci_register_bar bar_num size type opaque) s = Ok u s' -> reach s'
| reach_config8 s fn addr val u s' : reach s -> free_byte addr ->
    on_device fn (modify (pci_device_set_config8 addr val)) s = Ok u s' -> reach s'
| reach_config16 s fn addr val u s' : reach s -> free_byte addr -> free_byte (addr + 1) ->
    on_device fn (modify (pci_device_set_config16 addr val)) s = Ok u s' -> reach s'
| reach_capability s fn d buf o s' : reach s -> get_device (pci_bus s) fn = Ok d tt ->
    64 <= next_cap_offset d -> (2 <= length buf)%nat -> bytes buf -> next_cap_offset d + Z.of_nat (length buf) < 256 ->
    on_device fn (pci_add_capability buf) s = Ok o s' -> reach s'
| reach_port s op u s' : reach s -> op_ok op s -> run_op op s = Ok u s' -> reach s'.

(** *** Devices *)
Lemma slots_ok_set s n d : slots_ok s -> slot_ok (Z.to_nat n) d (mappings s) -> slots_ok (set_pci_bus (set_device n d (pci_bus s)) s).
Proof. intros Hs Hd. by eapply (slots_ok_slot s _ (Z.to_nat n) d). Qed.
Lemma set_cfg_byte_slot n d c a v : slot_ok n d c -> free_byte a -> slot_ok n (set_cfg_byte a v d) c.
Proof.
  intros Hs (Ha & H4 & Hb). pose proof (sl_wf _ _ _ Hs) as Hd. pose proof (dv_len _ Hd) as Hlen.
  assert (forall j, j <> Z.to_nat a -> byte (config (set_cfg_byte a v d)) j = byte (config d) j) as Hf.
  { intros j Hj. cbn. by rewrite byte_insert, decide_False by lia. }
  eapply slot_ok_same; [exact Hs| |apply Hf; lia|apply set_cfg_byte_wf; [done..|unfold bar_byte in Hb; lia]].
  split; [done..|]. intros j Hj. apply Hf. by intros ->.
Qed.
Lemma put_le16_bytes d a v : (a + 2 <= length (config d))%nat ->
  set_config (put_le16 (config d) a v) d = set_cfg_byte (Z.of_nat a + 1) (v ≫ 8) (set_cfg_byte (Z.of_nat a) v d).
Proof.
  intros Hl. unfold set_cfg_byte, put_le16, set_config. cbn. f_equal. rewrite Nat2Z.id. replace (Z.to_nat (Z.of_nat a + 1)) with (a + 1)%nat by lia.
  apply list_eq. intros i. unfold splice. cbn [length].
  destruct (decide (i = a + 1)%nat) as [->|H1]; [|rewrite list_lookup_insert_ne by lia; destruct (decide (i = a)) as [->|H2]; [|rewrite list_lookup_insert_ne by lia]].
  - rewrite list_lookup_insert_eq by (rewrite length_insert; lia). rewrite lookup_app_r, length_take by (rewrite length_take; lia).
    by replace (a + 1 - a `min` length (config d))%nat with 1%nat by lia.
  - rewrite list_lookup_insert_eq by lia. rewrite lookup_app_r, length_take by (rewrite length_take; lia).
    by replace (a - a `min` length (config d))%nat with 0%nat by lia.
  - destruct (Nat.lt_ge_cases i a); [by rewrite lookup_app_l, lookup_take_lt by (rewrite ?length_take; lia)|].
    rewrite app_assoc, lookup_app_r by (rewrite length_app, length_take; cbn; lia). rewrite lookup_drop, length_app, length_take. cbn [length].
    f_equal. lia.
Qed.
Lemma put_le16_slot n d c a v : slot_ok n d c -> free_byte a -> free_byte (a + 1) -> slot_ok n (set_config (put_le16 (config d) (Z.to_nat a) v) d) c.
Proof.
  intros Hs Ha Ha1. pose proof (dv_len _ (sl_wf _ _ _ Hs)). rewrite put_le16_bytes, Z2Nat.id by (destruct Ha, Ha1; lia).
  by apply set_cfg_byte_slot; [apply set_cfg_byte_slot|].
Qed.
Lemma new_device_slot fn vendor_id device_id revision class_id c : fits 8 fn -> slot_ok (Z.to_nat fn) (new_device fn vendor_id device_id revision class_id) c.
Proof.
  intros Hf. unfold new_device. cbv zeta. set (cfg := <[0x0e%nat := 0]> _). set (rs := replicate _ _). unfold fits in Hf.
  assert (Forall (fun r => r = mkRegion 0 0 false 0) rs) as Hrs by (by apply Forall_replicate).
  assert (length cfg = 256%nat) as Hl.
  { unfold cfg, put_le16. rewrite !length_insert, !length_splice; rewrite ?length_insert, ?length_splice, ?length_replicate; cbn; try lia. }
  rewrite wrap_fits by (unfold fits; lia). split; [cbn; lia| | |].
  - split; cbn [config io_regions devfn]; [done| |unfold fits; lia|left|done|].
    + assert (bytes (replicate 256 0)) by (by apply Forall_replicate, fits_0).
      unfold cfg, put_le16. apply Forall_insert; [|by apply fits_0]. apply bytes_splice; [repeat constructor; by apply fits_wrap|].
      apply Forall_insert; [|by apply fits_wrap]. apply bytes_splice; [repeat constructor; by apply fits_wrap|].
      apply bytes_splice; [repeat constructor; by apply fits_wrap|done].
    + unfold conf_byte. cbn [config]. unfold cfg. rewrite byte_insert; [done|]. unfold cfg in Hl. rewrite length_insert in Hl. cbn. lia.
    + eapply List.Forall_impl; [|exact Hrs]. intros r ->. split; [by left|by apply fits_0].
  - cbn. eapply List.Forall_impl; [|exact Hrs]. intros r ->. by left.
  - intros i r Hi. cbn in Hi. rewrite (Forall_lookup_1 _ _ _ _ Hrs Hi). by split.
Qed.

(** The invariant of the running bus *)
Record bus_ok (s : State) : Prop := {
  bk_slots : slots_ok s;
  bk_hd : registered (pci_bus s) (piix3_dev s);
  bk_reg : fits 32 (config_reg s);
}.
Lemma registered_set b m d n : registered b n -> (Z.to_nat m < length (device b))%nat -> registered (set_device m d b) n.
Proof.
  intros (d0 & H%get_device_slot) Hm. unfold registered, get_device, set_device. cbn [device].
  destruct (decide (Z.to_nat m = Z.to_nat n)) as [E|E]; [rewrite E, list_lookup_insert_eq by lia; eauto|rewrite list_lookup_insert_ne, H by done; eauto].
Qed.
Lemma bus_ok_set s n d d0 : bus_ok s -> get_device (pci_bus s) n = Ok d0 tt ->
  slot_ok (Z.to_nat n) d (mappings s) -> bus_ok (set_pci_bus (set_device n d (pci_bus s)) s).
Proof.
  intros [H1 H2 H3] Hn%get_device_slot Hd. split; [by apply slots_ok_set| |done]. apply registered_set; [done|]. by eapply lookup_lt_Some.
Qed.
Lemma on_device_ok {A} fn (m : M PCIDevice A) s a s' : bus_ok s -> on_device fn m s = Ok a s' ->
  (forall d d', slot_ok (Z.to_nat fn) d (mappings s) -> get_device (pci_bus s) fn = Ok d tt -> m d = Ok a d' -> slot_ok (Z.to_nat fn) d' (mappings s)) -> bus_ok s'.
Proof.
  intros Hs E Hm. unfold on_device in E. destruct (get_device (pci_bus s) fn) as [d []|] eqn:Ed; [|done].
  destruct (m d) as [a' d'|] eqn:Em; [|done]. injection E as <- <-. eapply bus_ok_set; [done..|].
  eapply Hm; [|done..]. apply get_device_slot in Ed. by apply (bo_slots _ (bk_slots _ Hs)).
Qed.
Lemma register_device_ok fn v dv rev cl s r s' : bus_ok s -> fn < 256 -> on_bus (pci_register_device fn v dv rev cl) s = Ok r s' -> bus_ok s'.
Proof.
  intros Hs Hfn E.
  assert (forall k n, n + 8 * Z.of_nat k <= 256 -> free_slot k n (pci_bus s) < 256) as Halloc.
  { induction k as [|k IH]; intros n Hn; cbn [free_slot]; [lia|]. destruct (device (pci_bus s) !! Z.to_nat n) as [[]|]; try (apply IH; lia). lia. }
  unfold on_bus, pci_register_device, gets, mbind, M_bind in E. set (n := if fn <? 0 then _ else fn) in E.
  assert (n < 256) as Hn by (unfold n; case_if; [apply Halloc; lia|done]). destruct (Z.ltb_spec n 0); [injection E as <- <-; by destruct s|].
  destruct (device (pci_bus s) !! Z.to_nat n) as [[d|]|] eqn:Ed; cbn in E; [injection E as <- <-; by destruct s| |done].
  injection E as <- <-. destruct Hs as [H1 H2 H3]. split; [apply slots_ok_set; [done|apply new_device_slot; unfold fits; lia]| |done].
  apply registered_set; [done|]. by eapply lookup_lt_Some.
Qed.
Lemma capability_slot n d c buf : slot_ok n d c -> 64 <= next_cap_offset d -> (2 <= length buf)%nat -> bytes buf ->
  next_cap_offset d + Z.of_nat (length buf) < 256 -> exists d', pci_add_capability buf d = Ok (next_cap_offset d) d' /\ slot_ok n d' c.
Proof.
  intros Hs Ho Hb Hbb Hroom. pose proof (sl_wf _ _ _ Hs) as Hd. pose proof (add_capability_spec d buf (dv_len _ Hd) (dv_bytes _ Hd) Ho Hb Hbb) as H.
  destruct (Z.ltb_spec 256 (next_cap_offset d + Z.of_nat (length buf))); [lia|]. destruct H as (d' & E & A). exists d'. split; [done|].
  assert (io_regions d' = io_regions d /\ devfn d' = devfn d) as [Hr Hf].
  { unfold pci_add_capability, gets, mbind, M_bind, modify in E. repeat case_if_in E; cbv [mret M_ret stop_with] in E; try discriminate E; injection E; intros; by subst d'. }
  assert (same_bars d d') as Hsame by (split; [done..|]; intros j Hj; apply (ca_frame _ _ _ A); unfold bar_byte in Hj; lia).
  eapply slot_ok_same; [exact Hs|done|apply (ca_frame _ _ _ A); lia|]. destruct Hd. split; rewrite ?Hr, ?Hf; try done; [apply A|apply A|].
  unfold conf_byte. by rewrite (sb_bytes _ _ Hsame) by (unfold bar_byte; change (Z.to_nat 14) with 14%nat; lia).
Qed.
Lemma register_bar_slot fn n d c bar_num size type opaque u d' : slot_ok n d c -> conf_byte d PCI_COMMAND = 0 -> owner opaque = fn -> fn = Z.of_nat n ->
  mapped c opaque bar_num = None -> 0 <= bar_num -> fits 32 size -> pci_register_bar bar_num size type opaque d = Ok u d' -> slot_ok n d' c.
Proof.
  intros [Hdf Hd Ho Hb] Hcmd Hown -> Hfree Hb0 Hsz. unfold pci_register_bar.
  destruct (Z.ltb_spec bar_num PCI_NUM_REGIONS) as [Hb7|]; [|done]. unfold PCI_NUM_REGIONS in Hb7.
  destruct (Z.eqb_spec (size .& u32 (size - 1)) 0) as [Hp|]; [|done]. destruct (Z.leb_spec 4 size) as [H4|]; [|done].
  rewrite (wrap_fits 32 (size - 1)) in Hp by (unfold fits in *; lia). apply power_of_two in Hp; [|lia].
  unfold assert, mbind, M_bind, mret, M_ret, gets. destruct (lookup_lt_is_Some_2 (io_regions d) (Z.to_nat bar_num)) as [r Hr]; [rewrite (dv_regions _ Hd); lia|].
  rewrite Hr. destruct (rg_size r =? 0); [|done]. unfold modify. set (val := if bar_num =? PCI_ROM_SLOT then 0 else u8 type). intros [= _ <-].
  set (r' := mkRegion _ _ _ _). set (d' := set_config _ _).
  assert (16 <= region_addr bar_num <= 48) as Hra by (unfold region_addr, PCI_ROM_SLOT; case_if; lia). pose proof (dv_len _ Hd) as Hlen.
  assert (forall j, ~ (Z.to_nat (region_addr bar_num) <= j < Z.to_nat (region_addr bar_num) + 4)%nat -> byte (config d') j = byte (config d) j) as Hf.
  { intros j Hj. cbn. unfold put_le32. rewrite byte_splice, decide_False by (cbn; lia). done. }
  assert (forall i r0, decodes d' i r0 = None) as Hnone.
  { intros i r0. unfold decodes, conf_byte in *. change (Z.to_nat PCI_COMMAND) with 4%nat in *. rewrite Hf, Hcmd, !Z.testbit_0_l by lia. rewrite andb_false_r. by case_if. }
  assert (forall i r0, decodes d i r0 = None) as Hnone0.
  { intros i r0. unfold decodes. rewrite Hcmd, !Z.testbit_0_l, andb_false_r. by case_if. }
  destruct Hd. split; [done| | |].
  - split; try done.
    + cbn. unfold put_le32. rewrite length_splice; [done|cbn; lia].
    + cbn. apply bytes_splice; [|done]. repeat constructor; by apply fits_wrap.
    + unfold conf_byte in *. rewrite Hf by (change (Z.to_nat 14) with 14%nat; lia). done.
    + cbn. by rewrite length_insert.
    + cbn. apply Forall_insert; [done|]. split; [right|by apply fits_wrap]. exists (Z.log2 size). split; [|done].
      split; [apply Z.log2_le_pow2; lia|]. apply Z.log2_lt_pow2; [lia|]. unfold fits in Hsz. lia.
  - cbn. apply Forall_insert; [done|]. by right.
  - intros i r0 Hi. rewrite Hnone, bool_decide_false by (by intros []). cbn in Hi.
    destruct (decide (Z.to_nat bar_num = i)) as [<-|Hne].
    + rewrite list_lookup_insert_eq in Hi by lia. injection Hi as <-. split; [done|]. intros _. cbn. by rewrite Z2Nat.id.
    + rewrite list_lookup_insert_ne in Hi by done. destruct (Hb i r0 Hi) as [B1 B2]. rewrite Hnone0 in B1, B2. by rewrite bool_decide_false in B1 by (by intros []).
Qed.

(** *** Interrupts and ports *)
Lemma set_irq_ok s irq level : bus_ok s -> 0 <= irq < 4 -> exists s', i440fx_set_irq irq level s = Ok tt s' /\ bus_ok s'.
Proof.
  intros Hs Hi. destruct (bk_hd _ Hs) as [hd Hhd]. unfold i440fx_set_irq, gets, mbind, M_bind, modify. rewrite Hhd.
  assert (bus_ok (set_pci_bus (set_device (piix3_dev s) (set_cfg_byte (0x60 + irq) (conf_byte hd (0x60 + irq) .& Z.lnot 0x80) hd) (pci_bus s)) s)) as Hs'.
  { eapply bus_ok_set; [done..|]. apply set_cfg_byte_slot; [apply get_device_slot in Hhd; by apply (bo_slots _ (bk_slots _ Hs))|]. unfold free_byte, bar_byte. lia. }
  case_if; (eexists; split; [reflexivity|]); [|done]. destruct Hs' as [[] ? ?]. by split; [split|..].
Qed.
Lemma bus_irq_range d irq : 0 <= bus_map_irq d irq < 4.
Proof. unfold bus_map_irq. pose proof (land_range (irq + ((devfn d ≫ 3) - 1)) 3). lia. Qed.
Lemma put_irq_ok s irq n mask level : bus_ok s -> bus_ok (set_pci_bus (put_irq irq n mask level (pci_bus s)) s).
Proof. intros [[] ? ?]. by split; [split|..]. Qed.
Lemma device_set_irq_ok s fn irq level : bus_ok s -> registered (pci_bus s) fn -> exists s', pci_device_set_irq fn irq level s = Ok tt s' /\ bus_ok s'.
Proof.
  intros Hs [d Hd]. unfold pci_device_set_irq, gets, mbind, M_bind, modify. rewrite Hd. apply set_irq_ok; [by apply put_irq_ok|apply bus_irq_range].
Qed.
Lemma config_addr_ok reg offset sz : fits 32 reg -> fits 2 offset -> sz = 2 -> (config_addr reg offset sz .& 0xff) mod 4 = 0.
Proof.
  intros Hr Ho ->. unfold config_addr. cbn [Z.eqb Pos.eqb]. rewrite land_u32 by done. change 3 with (2 ^ 2 - 1) at 1.
  change 4 with (2 ^ 2). rewrite <- Z.land_ones by lia. apply Z.bits_inj'. intros i Hi. rewrite !Z.land_spec, Z.lnot_spec, Z.bits_0 by lia.
  change (2 ^ 2 - 1) with (Z.ones 2). destruct (Z.testbit (Z.ones 2) i); by rewrite ?andb_false_r.
Qed.
Lemma low_byte_range x : 0 <= x .& 0xff < 256.
Proof. pose proof (land_range x 0xff). lia. Qed.
Lemma data_write_ok s offset data sz : bus_ok s -> fits 2 offset -> fits 32 data -> 0 <= sz <= 2 ->
  exists s', i440fx_write_data bar_set offset data sz s = Ok tt s' /\ bus_ok s'.
Proof.
  intros Hs Ho Hd Hsz. unfold i440fx_write_data. case_if; [|by exists s]. set (a := config_addr (config_reg s) offset sz).
  unfold pci_data_write. case_if; [by exists s|]. pose proof (low_byte_range (a ≫ 8)) as Hfn. set (fn := (a ≫ 8) .& 0xff) in *.
  destruct (lookup_lt_is_Some_2 (device (pci_bus s)) (Z.to_nat fn)) as [[d|] Hfd]; [rewrite (bo_len _ (bk_slots _ Hs)); lia| |rewrite Hfd; by exists s].
  rewrite Hfd. destruct (bo_slots _ (bk_slots _ Hs) _ _ Hfd) as [H1 H2 H3 H4].
  destruct (config_write_ok bar_set (a .& 0xff) data sz d (mappings s) H2 H4 Hd (low_byte_range a) Hsz) as (d' & c' & -> & [W1 W2 W3 W4 W5]).
  { intros ?. by apply config_addr_ok; [apply bk_reg| |]. }
  eexists. split; [reflexivity|]. destruct (bk_hd _ Hs) as [hd Hhd]. split; [|apply registered_set; [by exists hd|by eapply lookup_lt_Some]|apply Hs].
  eapply (slots_ok_slot s _ (Z.to_nat fn) d'); [apply Hs|done| |].
  - cbn [mappings set_mappings]. split; [by rewrite W3|done| |done]. apply Forall_lookup. intros i r Hi.
    destruct (W4 i r Hi) as (r0 & b & Hr0 & ->). destruct (W2 i _ Hi) as [He _].
    destruct (Forall_lookup_1 _ _ _ _ H3 Hr0) as [[Hz _]|Hown]; [left|by right]. split; [done|]. rewrite He. unfold decodes. cbn [rg_size set_enabled]. by rewrite Hz.
  - intros o j Hne. cbn. apply W5. eapply owned_foreign; [exact H3|done|done].
Qed.
Lemma ones_ok sz s : 0 <= sz <= 2 -> exists v, ones sz s = Ok v (s : State).
Proof. intros H. assert (sz = 0 \/ sz = 1 \/ sz = 2) as [-> | [-> | ->]] by lia; by eexists. Qed.
Lemma data_read_ok s offset sz : bus_ok s -> fits 2 offset -> 0 <= sz <= 2 -> exists v, i440fx_read_data offset sz s = Ok v s.
Proof.
  intros Hs Ho Hsz. unfold i440fx_read_data. case_if; [by apply ones_ok|]. set (a := config_addr (config_reg s) offset sz).
  unfold pci_data_read. case_if; [by apply ones_ok|]. pose proof (low_byte_range (a ≫ 8)) as Hfn.
  destruct (lookup_lt_is_Some_2 (device (pci_bus s)) (Z.to_nat ((a ≫ 8) .& 0xff))) as [[d|] Hfd]; [rewrite (bo_len _ (bk_slots _ Hs)); lia| |rewrite Hfd; by apply ones_ok].
  rewrite Hfd. assert (sz = 2 -> (a .& 0xff) mod 4 = 0) as Hal by (intros ?; by apply config_addr_ok; [apply bk_reg| |]).
  pose proof (low_byte_range a). unfold pci_device_config_read.
  assert (sz = 0 \/ sz = 1 \/ sz = 2) as [-> | [-> | ->]] by lia; [by eexists..|].
  destruct (Z.leb_spec (a .& 255) 252); [by eexists|]. specialize (Hal eq_refl). Z.to_euclidean_division_equations; lia.
Qed.
Lemma run_op_ok s op : bus_ok s -> op_ok op s -> exists s', run_op op s = Ok tt s' /\ bus_ok s'.
Proof.
  intros Hs Hop. destruct op as [o sz|o v sz|o sz|o v sz|fn irq level]; cbn in Hop; unfold run_op, mbind, M_bind.
  - by eexists.
  - eexists. split; [reflexivity|]. destruct Hs as [[] ? ?]. by split; [split|..].
  - destruct Hop. destruct (data_read_ok s o sz) as [v ->]; [done..|]. by eexists.
  - destruct Hop as (? & ? & ?). by apply data_write_ok.
  - destruct Hop. by apply device_set_irq_ok.
Qed.

(** *** The bridge itself *)
Definition bridge_start (c : C) : State :=
  mkI440FX (mkBus 0 (replicate 256 None) (replicate 4 (replicate 8 0))) 0 0 0 (replicate 16 0) (replicate 16 0) c.
Definition host_bridge : PCIDevice :=
  let d := new_device 0 0x8086 0x1237 0x02 0x0600 in
  let d := set_config (put_le16 (config d) 0x2c 0x1af4) d in
  set_config (put_le16 (config d) 0x2e 0x1100) d.
Definition isa_bridge : PCIDevice := set_cfg_byte 0x0e 0x80 (new_device 8 0x8086 0x7000 0x00 0x0601).
Definition bridge_devices : list (option PCIDevice) := <[8%nat := Some isa_bridge]> (<[0%nat := Some host_bridge]> (replicate 256 None)).
Lemma i440fx_devices_eq c : i440fx_devices (bridge_start c) = Ok tt
  (mkI440FX (mkBus 0 bridge_devices (replicate 4 (replicate 8 0)))
    0 8 0 (replicate 16 0) (replicate 16 0) c).
Proof. vm_compute. reflexivity. Qed.
Lemma host_bridge_slot c : slot_ok 0 host_bridge c.
Proof.
  assert (free_byte 0x2c /\ free_byte 0x2d /\ free_byte 0x2e /\ free_byte 0x2f) as (H1 & H2 & H3 & H4) by (unfold free_byte, bar_byte; lia).
  unfold host_bridge. cbv zeta. apply (put_le16_slot 0 _ c 0x2e); [|done|done]. apply (put_le16_slot 0 _ c 0x2c); [|done|done].
  by apply (new_device_slot 0).
Qed.
Lemma isa_bridge_slot c : slot_ok 8 isa_bridge c.
Proof.
  destruct (new_device_slot 8 0x8086 0x7000 0x00 0x0601 c) as [H1 H2 H3 H4]; [by unfold fits|]. split; [done| |done|].
  - destruct H2. split; try done; [apply Forall_insert; [done|by apply fits_wrap]|].
    right. unfold conf_byte. unfold isa_bridge, set_cfg_byte. cbn [config set_config]. by rewrite byte_insert, decide_True by (done || (rewrite dv_len0; lia)).
  - intros i r Hi. assert (Forall (fun r => r = mkRegion 0 0 false 0) (io_regions isa_bridge)) as Hrs by (by apply Forall_replicate).
    rewrite (Forall_lookup_1 _ _ _ _ Hrs Hi). by split.
Qed.
Lemma i440fx_init_ok pm c s pm' : i440fx_init pm c = Ok s pm' -> bus_ok s.
Proof.
  unfold i440fx_init. destruct (i440fx_ports pm) as [u pm1|]; [|done]. fold (bridge_start c). rewrite i440fx_devices_eq. intros [= <- <-].
  split; [|by eexists|by apply fits_0]. split; [done|]. cbn [pci_bus device mappings]. intros n d Hn. unfold bridge_devices in Hn.
  apply list_lookup_insert_Some in Hn as [(<- & [= <-] & _)|[_ Hn]]; [apply isa_bridge_slot|].
  apply list_lookup_insert_Some in Hn as [(<- & [= <-] & _)|[_ Hn]]; [apply host_bridge_slot|].
  by apply lookup_replicate in Hn as [? _].
Qed.
Lemma reach_ok s : reach s -> bus_ok s.
Proof.
  induction 1 as [pm c s pm' E|s fn v dv rev cl r s' _ IH Hfn E|s fn d bar size ty o u s' _ IH Hd Hcmd Ho Hfn Hm Hb Hsz E
    |s fn a v u s' _ IH Ha E|s fn a v u s' _ IH Ha Ha1 E|s fn d buf o s' _ IH Hd Ho Hb Hbb Hroom E|s op u s' _ IH Hop E].
  - by eapply i440fx_init_ok.
  - by eapply register_device_ok.
  - eapply on_device_ok; [exact IH|exact E|]. intros d0 d' Hs Hd0 E'. rewrite Hd in Hd0. injection Hd0 as <-.
    eapply register_bar_slot; [exact Hs|exact Hcmd|exact Ho|lia|exact Hm|exact Hb|exact Hsz|exact E'].
  - eapply on_device_ok; [exact IH|exact E|]. intros d d' Hs _ E'. injection E' as _ <-. unfold pci_device_set_config8. rewrite wrap_fits by (unfold fits; destruct Ha; lia).
    by apply set_cfg_byte_slot.
  - eapply on_device_ok; [exact IH|exact E|]. intros d d' Hs _ E'. injection E' as _ <-. unfold pci_device_set_config16. rewrite wrap_fits by (unfold fits; destruct Ha; lia).
    by apply put_le16_slot.
  - eapply on_device_ok; [exact IH|exact E|]. intros d0 d' Hs Hd0 E'. rewrite Hd in Hd0. injection Hd0 as <-.
    destruct (capability_slot _ d (mappings s) buf Hs Ho Hb Hbb Hroom) as (d1 & E1 & H1). rewrite E1 in E'. by injection E' as _ <-.
  - destruct (run_op_ok s op IH Hop) as (s1 & E1 & H1). rewrite E in E1. by injection E1 as _ ->.
Qed.

(** C37: in every state of the bus that its initialisation, the registration of devices and
    the guest can bring about, each region of each device is mapped exactly where its base
    address register and the command register say; and every access of the guest to the two
    ports, and every change of an interrupt line, succeeds. *)
Theorem pci_bars_follow_config s : reach s ->
  (forall fn d i r, device (pci_bus s) !! fn = Some (Some d) -> io_regions d !! i = Some r -> rg_size r <> 0 ->
     mapped (mappings s) (rg_opaque r) (Z.of_nat i) = decodes d (Z.of_nat i) r) /\
  (forall op, op_ok op s -> exists s', run_op op s = Ok tt s' /\ reach s').
Proof.
  intros Hr. pose proof (reach_ok s Hr) as Hs. split.
  - intros fn d i r Hfn Hi Hz. by apply (sl_bars _ _ _ (bo_slots _ (bk_slots _ Hs) fn d Hfn)).
  - intros op Hop. destruct (run_op_ok s op Hs Hop) as (s' & E & _). exists s'. split; [done|]. by eapply reach_port.
Qed.
End Bus.

(** An I/O region is decoded although only memory is enabled. *)
Lemma io_region_by_memory_bit d i r : rg_size r <> 0 -> Z.testbit (rg_type r) 0 = true -> i <> PCI_ROM_SLOT ->
  Z.testbit (conf_byte d PCI_COMMAND) 0 = false -> Z.testbit (conf_byte d PCI_COMMAND) 1 = true -> is_Some (decodes d i r).
Proof.
  intros Hz Ht Hi H0 H1. unfold decodes. rewrite (proj2 (Z.eqb_neq (rg_size r) 0) Hz), (proj2 (Z.eqb_neq i _) Hi), Ht, H0, H1. by eexists.
Qed.

(** ** A client that keeps a table, and a bus with one device *)
Definition table_set (o i a : Z) (en : bool) (t : Z -> Z -> option Z) (o' i' : Z) : option Z :=
  if decide (o = o' /\ i = i') then if en then Some a else None else t o' i'.
#[export] Instance table_client : BarClient table_set := {| mapped := fun t => t; mapped_set := fun o i a en c o' i' => eq_refl |}.
(** The bus with a device in slot 16 that has a region of 16 kB and an I/O region.  The guest
    sets the base address of the first one and enables memory. *)
Abbreviation Example := (I440FXState (Z -> Z -> option Z)).
Definition example_owner (o : Z) : Z := 16.
Definition final {A} (r : res Example A) : Example := match r with Ok _ s => s | Stop _ => bridge_start (fun _ _ => None) end.
Definition final_map (r : res PhysMemoryMap nat) : PhysMemoryMap := match r with Ok _ m => m | Stop _ => {| phys_mem_range := [] |} end.
Definition example_s0 : Example := Eval vm_compute in
  match i440fx_init {| phys_mem_range := [] |} (fun _ _ => None) with Ok s _ => s | Stop _ => bridge_start (fun _ _ => None) end.
Definition example_s1 : Example := Eval vm_compute in final (on_bus (pci_register_device (-1) 0x1af4 0x1001 0 0x0180) example_s0).
Definition example_s2 : Example := Eval vm_compute in final (on_device 16 (pci_register_bar 4 0x4000 PCI_ADDRESS_SPACE_MEM 7) example_s1).
Definition example_s3 : Example := Eval vm_compute in final (on_device 16 (pci_register_bar 0 0x10 PCI_ADDRESS_SPACE_IO 7) example_s2).
Definition example_run (ops : list port_op) (s : Example) : Example := foldl (fun s op => final (run_op table_set op s)) s ops.
Definition example_ops : list port_op :=
  [OpWriteAddr 0 0x80001020 2; OpWrite 0 0xe0001234 2; OpWriteAddr 0 0x80001004 2; OpWrite 0 PCI_COMMAND_MEMORY 1].
Lemma example_reach_s1 : reach table_set example_owner example_s1.
Proof.
  apply (reach_device _ _ example_s0 (-1) 0x1af4 0x1001 0 0x0180 (Some 16)); [|lia|vm_compute; reflexivity].
  apply (reach_init _ _ {| phys_mem_range := [] |} (fun _ _ => None) _ (final_map (i440fx_ports {| phys_mem_range := [] |}))). vm_compute. reflexivity.
Qed.
Lemma example_reach_s3 : reach table_set example_owner example_s3.
Proof.
  eapply (reach_bar _ _ example_s2 16 _ 0 0x10 PCI_ADDRESS_SPACE_IO 7 tt); [|vm_compute; reflexivity|vm_compute; reflexivity|reflexivity|lia|reflexivity|lia|unfold fits; lia|vm_compute; reflexivity].
  eapply (reach_bar _ _ example_s1 16 _ 4 0x4000 PCI_ADDRESS_SPACE_MEM 7 tt); [|vm_compute; reflexivity|vm_compute; reflexivity|reflexivity|lia|reflexivity|lia|unfold fits; lia|vm_compute; reflexivity].
  apply example_reach_s1.
Qed.
Lemma pci_bars_follow_config_witness : exists s, reach table_set example_owner s /\
  mapped (mappings s) 7 4 = Some 0xe0000000 /\ mapped (mappings s) 7 0 = Some 0.
Proof.
  assert (forall ops s, reach table_set example_owner s -> Forall (fun op => forall s : Example, op_ok op s) ops -> reach table_set example_owner (example_run ops s)) as Hrun.
  { induction ops as [|op ops IH]; intros s Hs Hops; [done|]. apply Forall_cons_1 in Hops as [Hop Hops]. apply IH; [|done].
    destruct (pci_bars_follow_config table_set example_owner s Hs) as [_ H]. destruct (H op (Hop s)) as (s' & E & Hs'). unfold final. by rewrite E. }
  exists (example_run example_ops example_s3). split.
  - apply Hrun; [apply example_reach_s3|]. repeat (apply List.Forall_cons || apply List.Forall_nil); intros s; cbn; unfold fits, PCI_COMMAND_MEMORY; lia.
  - vm_compute. done.
Defined.

(** * The list of the capabilities of a PCI device *)
#[local] Open Scope Z_scope.
#[local] Arguments byte : simpl never.
#[local] Arguments Z.to_nat : simpl never.

(** A driver follows the pointers, which are at offset 1 of each capability. *)
Fixpoint cap_walk (fuel : nat) (c : list Z) (ptr : Z) : list Z :=
  match fuel with
  | O => []
  | S fuel => if ptr =? 0 then [] else ptr :: cap_walk fuel c (byte c (Z.to_nat ptr + 1))
  end.
Definition cap_list (fuel : nat) (d : PCIDevice) : list Z := cap_walk fuel (config d) (conf_byte d PCI_CAPABILITY_LIST).
(** ** A sequence of capabilities *)
Fixpoint add_all (bufs : list (list Z)) : M PCIDevice (list Z) :=
  match bufs with
  | [] => mret []
  | buf :: bufs => o ← pci_add_capability buf; os ← add_all bufs; mret (o :: os)
  end.
(** Where they are put, from [o] on *)
Fixpoint offsets (o : Z) (bufs : list (list Z)) : list Z :=
  match bufs with [] => [] | buf :: bufs => o :: offsets (o + Z.of_nat (length buf)) bufs end.
Lemma length_offsets bufs : forall o, length (offsets o bufs) = length bufs.
Proof. induction bufs as [|buf bufs IH]; intros o; cbn; [done|]. by rewrite IH. Qed.
(** [os] are the capabilities behind the pointer [head], all below [lim]. *)
Fixpoint chain_of (c : list Z) (lim head : Z) (os : list Z) : Prop :=
  match os with
  | [] => head = 0
  | o :: os => head = o /\ 64 <= o /\ o + 2 <= lim /\ chain_of c lim (byte c (Z.to_nat o + 1)) os
  end.
Lemma chain_walk c lim os : forall fuel head, (length os < fuel)%nat -> chain_of c lim head os -> cap_walk fuel c head = os.
Proof.
  induction os as [|o os IH]; intros [|fuel] head Hf Hc; cbn [length] in Hf; try lia; cbn [cap_walk chain_of] in *.
  - by subst.
  - destruct Hc as (-> & H1 & H2 & H3). rewrite (proj2 (Z.eqb_neq o 0)) by lia. f_equal. apply IH; [lia|done].
Qed.
Lemma chain_frame c c' lim lim' os : forall head, (forall j, (64 <= j < Z.to_nat lim)%nat -> byte c' j = byte c j) -> lim <= lim' ->
  chain_of c lim head os -> chain_of c' lim' head os.
Proof.
  induction os as [|o os IH]; intros head Hf Hl Hc; cbn [chain_of] in *; [done|]. destruct Hc as (-> & H1 & H2 & H3).
  split; [done|]. split; [done|]. split; [lia|]. rewrite Hf by lia. by apply IH.
Qed.
Definition room (o : Z) (bufs : list (list Z)) : Z := o + Z.of_nat (length (concat bufs)).
Lemma add_all_spec bufs : forall d os, length (config d) = 256%nat -> bytes (config d) -> 64 <= next_cap_offset d ->
  Forall (fun b => (2 <= length b)%nat /\ bytes b) bufs -> room (next_cap_offset d) bufs < 256 ->
  chain_of (config d) (next_cap_offset d) (conf_byte d PCI_CAPABILITY_LIST) os ->
  exists d', add_all bufs d = Ok (offsets (next_cap_offset d) bufs) d' /\ bytes (config d') /\ next_cap_offset d' = room (next_cap_offset d) bufs /\
    chain_of (config d') (next_cap_offset d') (conf_byte d' PCI_CAPABILITY_LIST) (rev (offsets (next_cap_offset d) bufs) ++ os) /\
    (forall i o buf, offsets (next_cap_offset d) bufs !! i = Some o -> bufs !! i = Some buf -> cap_at (config d') o buf) /\
    (forall j, (64 <= j < Z.to_nat (next_cap_offset d))%nat -> byte (config d') j = byte (config d) j) /\
    (bufs <> [] -> Z.testbit (conf_byte d' PCI_STATUS) 4 = true).
Proof.
  induction bufs as [|buf bufs IH]; intros d os Hl Hby Ho Hb Hroom Hc.
  - exists d. unfold room. cbn. rewrite Z.add_0_r. by repeat (split; [done|]).
  - apply Forall_cons_1 in Hb as [[Hb2 Hbb] Hb]. set (o := next_cap_offset d) in *.
    assert (room o (buf :: bufs) = room (o + Z.of_nat (length buf)) bufs) as Er by (unfold room; cbn [concat]; rewrite length_app; lia).
    assert (o + Z.of_nat (length buf) < 256) as Ho' by (rewrite Er in Hroom; unfold room in Hroom; lia).
    pose proof (add_capability_spec d buf Hl Hby Ho Hb2 Hbb) as Hadd. fold o in Hadd. destruct (Z.ltb_spec 256 (o + Z.of_nat (length buf))); [lia|].
    destruct Hadd as (d1 & E1 & [A1 A2 A3 A4 A5 A6 A7 A8]). fold o in A3, A4, A5, A6, A8. rewrite wrap_fits in A3 by (unfold fits; lia).
    destruct (IH d1 (o :: os) A1 A2) as (d' & E & I1 & I2 & I3 & I4 & I5 & I6); [lia|done|rewrite A3, <- Er; done| |].
    { cbn [chain_of]. split; [done|]. split; [done|]. split; [lia|]. rewrite A5. apply (chain_frame _ _ o _ _ _) with (3 := Hc); [|lia]. intros j Hj. apply A8. lia. }
    rewrite A3 in *. exists d'. split; [cbn [add_all offsets]; unfold mbind, M_bind; rewrite E1, E; done|]. split; [done|]. split; [by rewrite Er|].
    cbn [offsets rev]. rewrite <- app_assoc. split; [done|]. split; [|split; [|intros _]].
    + intros [|i] o' buf' Ho1 Hb1; cbn in Ho1, Hb1; [|by eapply I4]. injection Ho1 as <-. injection Hb1 as <-.
      intros j Hj Hj1. rewrite I5 by lia. by apply A6.
    + intros j Hj. rewrite I5 by lia. apply A8. lia.
    + destruct bufs as [|b bufs]; [|by apply I6]. cbn in E. injection E as <-. done.
Qed.

(** Capabilities that leave a byte of the configuration space free are put behind each
    other; a driver that follows the pointers finds each of them once, the last one first,
    with its contents, and the status says that there is a list.  A capability that does not
    fit changes nothing. *)
Theorem pci_capabilities_listed fn vendor_id device_id revision class_id bufs
    (d := new_device fn vendor_id device_id revision class_id) :
  fits 8 fn -> Forall (fun b => (2 <= length b)%nat /\ bytes b) bufs -> bufs <> [] -> Z.of_nat (length (concat bufs)) < 192 ->
  exists d', add_all bufs d = Ok (offsets 64 bufs) d' /\
    (forall fuel, (length bufs < fuel)%nat -> cap_list fuel d' = rev (offsets 64 bufs)) /\
    (forall i o buf, offsets 64 bufs !! i = Some o -> bufs !! i = Some buf -> cap_at (config d') o buf) /\
    Z.testbit (conf_byte d' PCI_STATUS) 4 = true /\
    (forall buf, (2 <= length buf)%nat -> bytes buf -> 256 < 64 + Z.of_nat (length (concat bufs)) + Z.of_nat (length buf) ->
       pci_add_capability buf d' = Ok (-1) d').
Proof.
  intros Hf Hb Hne Hroom. assert (length (config d) = 256%nat /\ bytes (config d)) as [Hl Hby].
  { destruct (sl_wf _ _ _ _ _ (new_device_slot table_set (fun _ => 0) fn vendor_id device_id revision class_id (fun _ _ => None) Hf)). by split. }
  assert (conf_byte d PCI_CAPABILITY_LIST = 0) as H0.
  { unfold d, new_device, conf_byte, put_le16. cbn [config]. change (Z.to_nat PCI_CAPABILITY_LIST) with 52%nat.
    repeat first [rewrite byte_insert, decide_False by (rewrite ?length_insert, ?length_splice, ?length_replicate; cbn; lia)
                 |rewrite byte_splice, decide_False by (rewrite ?length_insert, ?length_splice, ?length_replicate; cbn; lia)]. done. }
  destruct (add_all_spec bufs d [] Hl Hby) as (d' & E & I1 & I2 & I3 & I4 & _ & I6); [done|done|unfold room; cbn; lia|by rewrite H0|].
  change (next_cap_offset d) with 64 in *. rewrite app_nil_r in I3. exists d'. split; [done|]. split; [|split; [done|split; [by apply I6|]]].
  - intros fuel Hfuel. eapply chain_walk; [|exact I3]. rewrite length_rev. by rewrite length_offsets.
  - intros buf Hb2 Hbb Hfull. unfold pci_add_capability, gets, mbind, M_bind. rewrite I2. unfold room.
    destruct (Z.ltb_spec 256 (64 + Z.of_nat (length (concat bufs)) + Z.of_nat (length buf))); [done|lia].
Qed.

(** A capability that fills the space exactly: the next one is put over the vendor id. *)
Lemma capability_wraps :
  match add_all [replicate 192 9; [9; 0]] (new_device 16 0x1af4 0x1001 0 0) with
  | Ok os d => os = [64; 0] /\ get_le16 (config d) 0 = 0x4009
  | Stop _ => False
  end.
Proof. vm_compute. by split. Qed.
Lemma pci_capabilities_listed_witness : exists d',
  add_all [[9; 0; 16; 1]; [5; 0]] (new_device 16 0x1af4 0x1001 0 0) = Ok [64; 68] d' /\ cap_list 10 d' = [68; 64].
Proof.
  destruct (pci_capabilities_listed 16 0x1af4 0x1001 0 0 [[9; 0; 16; 1]; [5; 0]]) as (d' & E & W & _);
    [unfold fits; lia| |done|cbn; lia|exists d'; split; [exact E|apply W; cbn; lia]].
  repeat (apply List.Forall_cons || apply List.Forall_nil || (split; [cbn; lia|]) || (unfold is_byte, fits; lia)).
Defined.
