(* ===== verification/PciIrqFacts.v ===== *)
(** * The interrupt lines of the PCI bus are a wired or of the lines of its devices *)
From S2P Require Export PciFacts IomemFacts.
#[local] Open Scope Z_scope.
#[local] Arguments byte : simpl never.
#[local] Arguments Z.to_nat : simpl never.

(** ** Bits of a table of words *)
Lemma set_bit w m i (on : bool) : 0 <= m < 32 -> 0 <= i -> fits 32 w ->
  Z.testbit (if on then w .| u32 (1 ≪ m) else w .& u32 (Z.lnot (u32 (1 ≪ m)))) i = if decide (i = m) then on else Z.testbit w i.
Proof.
  intros Hm Hi Hw. assert (Z.testbit (u32 (1 ≪ m)) i = bool_decide (i = m)) as E.
  { rewrite wrap_testbit, Z.shiftl_spec by lia. destruct (Z.ltb_spec i 32); [|rewrite bool_decide_false; [done|lia]]. cbn [andb].
    destruct (Z_lt_le_dec i m); [rewrite Z.testbit_neg_r, bool_decide_false by lia; done|]. change 1 with (2 ^ 0). rewrite Z.pow2_bits_eqb by lia.
    case_bool_decide; lia. }
  set (M := u32 (1 ≪ m)) in *. clearbody M. destruct on.
  - rewrite Z.lor_spec, E. case_decide; [rewrite bool_decide_true by done; apply orb_true_r|rewrite bool_decide_false by done; apply orb_false_r].
  - rewrite Z.land_spec, wrap_testbit, Z.lnot_spec, E by lia. destruct (Z.ltb_spec i 32) as [|Hge]; cbn [andb].
    + case_decide; [rewrite bool_decide_true by done; apply andb_false_r|rewrite bool_decide_false by done; apply andb_true_r].
    + rewrite (fits_testbit 32 w i) by (done || lia). by rewrite decide_False by lia.
Qed.
Lemma lor_all_testbit l : forall a i, Z.testbit (foldl Z.lor a l) i = Z.testbit a i || existsb (fun w => Z.testbit w i) l.
Proof. induction l as [|w l IH]; intros a i; cbn; [by rewrite orb_false_r|]. by rewrite IH, Z.lor_spec, orb_assoc. Qed.
Lemma lor_all_zero l : foldl Z.lor 0 l = 0 <-> Forall (fun w => w = 0) l.
Proof.
  split.
  - intros H. apply Forall_forall. intros w Hw. apply Z.bits_inj'. intros i Hi. rewrite Z.bits_0.
    pose proof (lor_all_testbit l 0 i) as E. rewrite H, Z.bits_0 in E. cbn in E. symmetry in E. rewrite <- not_true_iff_false. intros Hb.
    rewrite (proj2 (existsb_exists _ _)) in E; [done|]. by exists w.
  - induction 1 as [|w l -> _ IH]; [done|]. exact IH.
Qed.

Section Irq.
Context {C : Type} (bar_set : Z -> Z -> Z -> bool -> C -> C) `{!BarClient bar_set} (owner : Z -> Z).
Abbreviation State := (I440FXState C).
(** Where line [n] of the bus is routed to *)
Definition route (s : State) (n : Z) : Z :=
  match get_device (pci_bus s) (piix3_dev s) with Ok hd _ => conf_byte hd (0x60 + n) .& Z.lnot 0x80 | Stop _ => 0 end.
(** The line of device [fn] that is line [n] of the bus *)
Definition line_of (n fn : Z) : Z := (n - fn / 8 + 1) mod 4.
Definition word (s : State) (n j : Z) : Z := nth (Z.to_nat j) (nth (Z.to_nat n) (irq_state (pci_bus s)) []) 0.
(** The table of the bus, from the levels of the lines of the devices *)
Record table_ok (lines : Z -> Z -> bool) (s : State) : Prop := {
  iq_rows : length (irq_state (pci_bus s)) = 4%nat;
  iq_row : Forall (fun r => length r = 8%nat /\ Forall (fits 32) r) (irq_state (pci_bus s));
  iq_bits : forall n fn, 0 <= n < 4 -> 0 <= fn < 256 -> Z.testbit (word s n (fn ≫ 5)) (fn .& 0x1f) = lines fn (line_of n fn);
}.
(** The lines to the interrupt controllers follow those of the bus, but for those of [except]. *)
Record pics_ok (except : Z -> Prop) (s : State) : Prop := {
  iq_pics : length (pic_irq_state s) = 16%nat /\ length (pic_irqs s) = 16%nat;
  iq_pic : forall p n, 0 <= p < 16 -> 0 <= n -> ~ except n -> Z.testbit (nth (Z.to_nat p) (pic_irq_state s) 0) n =
    (n <? 4) && (route s n =? p) && negb (bus_level (pci_bus s) n =? 0);
  iq_other : forall p n, 0 <= p < 16 -> except n -> 0 <= n -> route s n <> p -> Z.testbit (nth (Z.to_nat p) (pic_irq_state s) 0) n = false;
  iq_lines : forall p, 0 <= p < 16 -> nth (Z.to_nat p) (pic_irqs s) 0 = if nth (Z.to_nat p) (pic_irq_state s) 0 =? 0 then 0 else 1;
}.
Lemma bus_level_spec lines s n : table_ok lines s -> 0 <= n < 4 ->
  negb (bus_level (pci_bus s) n =? 0) = true <-> exists fn, 0 <= fn < 256 /\ lines fn (line_of n fn) = true.
Proof.
  intros Hq Hn. destruct (lookup_lt_is_Some_2 (irq_state (pci_bus s)) (Z.to_nat n)) as [row Hrow]; [rewrite (iq_rows _ _ Hq); lia|].
  destruct (Forall_lookup_1 _ _ _ _ (iq_row _ _ Hq) Hrow) as [Hlen Hf]. unfold bus_level. rewrite Hrow. cbn [default].
  assert (forall j, word s n (Z.of_nat j) = nth j row 0) as Hw.
  { intros j. unfold word. rewrite Nat2Z.id. erewrite (nth_lookup_Some (irq_state (pci_bus s))); [done|exact Hrow]. }
  transitivity (~ Forall (fun w => w = 0) row).
  { rewrite <- lor_all_zero. unfold id. destruct (Z.eqb_spec (foldl Z.lor 0 row) 0) as [->|]; cbn; split; (done || intros H; by destruct H). }
  split.
  - intros H. apply not_Forall_Exists in H; [|intros x; destruct (Z.eq_dec x 0); [by left|by right]].
    apply Exists_exists in H as (w & Hin & Hw0). apply list_elem_of_In, list_elem_of_lookup_1 in Hin as [j Hj].
    pose proof (lookup_lt_Some _ _ _ Hj) as Hjl. pose proof (Forall_lookup_1 _ _ _ _ Hf Hj) as Hwf.
    assert (exists i, 0 <= i < 32 /\ Z.testbit w i = true) as (i & Hi & Hb).
    { exists (Z.log2 w). unfold fits in Hwf. cbn in Hw0. assert (0 < w) by lia. split; [|apply Z.bit_log2; lia]. split; [apply Z.log2_nonneg|apply Z.log2_lt_pow2; lia]. }
    exists (Z.of_nat j * 32 + i). assert (0 <= Z.of_nat j * 32 + i < 256) as Hfn by lia. split; [done|]. rewrite <- (iq_bits _ _ Hq) by done.
    change 0x1f with (Z.ones 5). rewrite Z.land_ones, Z.shiftr_div_pow2 by lia. change (2 ^ 5) with 32.
    rewrite Z.div_add_l, Z.div_small, Z.add_0_r, Z.add_comm, Z.mod_add, Z.mod_small by lia. rewrite Hw. by erewrite nth_lookup_Some.
  - intros (fn & Hfn & Hb) Hall. rewrite <- (iq_bits _ _ Hq) in Hb by done. assert (0 <= fn ≫ 5) by (apply Z.shiftr_nonneg; lia).
    rewrite <- (Z2Nat.id (fn ≫ 5)), Hw in Hb by done. destruct (nth_in_or_default (Z.to_nat (fn ≫ 5)) row 0) as [Hin|E]; [|by rewrite E, Z.bits_0 in Hb].
    rewrite (proj1 (Forall_forall _ _) Hall _ Hin), Z.bits_0 in Hb. done.
Qed.

Definition set_line (lines : Z -> Z -> bool) (fn k : Z) (on : bool) (fn' k' : Z) : bool :=
  if decide (fn' = fn /\ k' = k) then on else lines fn' k'.
(** The new word of the table *)
Lemma put_irq_word s irq fn level n fn' : length (irq_state (pci_bus s)) = 4%nat -> Forall (fun r => length r = 8%nat /\ Forall (fits 32) r) (irq_state (pci_bus s)) ->
  0 <= irq < 4 -> 0 <= n < 4 -> 0 <= fn < 256 -> 0 <= fn' < 256 ->
  Z.testbit (word (set_pci_bus (put_irq irq (fn ≫ 5) (u32 (1 ≪ (fn .& 0x1f))) level (pci_bus s)) s) n (fn' ≫ 5)) (fn' .& 0x1f) =
  if decide (n = irq /\ fn' = fn) then negb (level =? 0) else Z.testbit (word s n (fn' ≫ 5)) (fn' .& 0x1f).
Proof.
  intros Hlen Hrows Hirq Hn Hfn Hfn'. unfold word, put_irq. cbn [pci_bus irq_state set_pci_bus].
  assert (forall x, 0 <= x < 256 -> 0 <= x ≫ 5 < 8 /\ 0 <= x .& 0x1f < 32) as Hr.
  { intros x Hx. change 0x1f with (Z.ones 5). rewrite Z.land_ones, Z.shiftr_div_pow2 by lia. change (2 ^ 5) with 32. Z.to_euclidean_division_equations; lia. }
  destruct (Hr fn Hfn) as [H1 H2], (Hr fn' Hfn') as [H3 H4].
  rewrite !nth_lookup. destruct (decide (n = irq)) as [->|Hne]; [|by rewrite list_lookup_alter_ne, decide_False by lia].
  rewrite list_lookup_alter_eq. destruct (lookup_lt_is_Some_2 (irq_state (pci_bus s)) (Z.to_nat irq)) as [row Hrow]; [lia|]. rewrite Hrow.
  destruct (Forall_lookup_1 _ _ _ _ Hrows Hrow) as [Hl Hf]. cbn [fmap option_fmap option_map default]. unfold id.
  destruct (decide (fn ≫ 5 = fn' ≫ 5)) as [E|E].
  2:{ rewrite list_lookup_alter_ne by lia. rewrite decide_False; [done|]. intros [_ ->]. done. }
  rewrite <- E, list_lookup_alter_eq. destruct (lookup_lt_is_Some_2 row (Z.to_nat (fn ≫ 5))) as [w Hw]; [lia|]. rewrite Hw.
  cbn [fmap option_fmap option_map default]. pose proof (set_bit w (fn .& 0x1f) (fn' .& 0x1f) (negb (level =? 0)) H2 ltac:(lia) (Forall_lookup_1 _ _ _ _ Hf Hw)) as Hb.
  pose proof (page_split fn fn' ltac:(lia) ltac:(lia)) as [_ Hsp].
  unfold id. destruct (level =? 0); cbn [negb] in *; rewrite Hb; apply decide_ext; (split; [by intros D; rewrite <- Hsp|by intros [_ ->]]).
Qed.
Lemma put_irq_table lines s fn k level (irq := (k + (fn / 8 - 1)) mod 4) : table_ok lines s -> 0 <= fn < 256 -> 0 <= k < 4 ->
  table_ok (set_line lines fn k (negb (level =? 0))) (set_pci_bus (put_irq irq (fn ≫ 5) (u32 (1 ≪ (fn .& 0x1f))) level (pci_bus s)) s).
Proof.
  intros [Hlen Hrows Hbits] Hfn Hk. assert (0 <= irq < 4) as Hirq by (unfold irq; apply Z.mod_pos_bound; lia). split.
  - cbn. by rewrite length_alter.
  - cbn. apply Forall_alter; [done|]. intros row Hrow [Hl Hf]. rewrite length_alter. split; [done|]. apply Forall_alter; [done|].
    intros w _ Hw. case_if; [by apply fits_land_l|]. apply fits_lor; [done|by apply fits_wrap].
  - intros n fn' Hn Hfn'. rewrite put_irq_word by done. rewrite Hbits by done. unfold set_line, line_of.
    assert (fn' = fn -> (n = irq <-> (n - fn / 8 + 1) mod 4 = k)) as Hline.
    { intros ->. unfold irq. Z.to_euclidean_division_equations; lia. }
    apply decide_ext. split; [intros [? ->]; split; [done|by apply Hline]|intros [-> ?]; split; [by apply Hline|done]].
Qed.

(** ** The routing of a line *)
Lemma low_bits x : fits 8 x -> 0 <= x .& Z.lnot 0x80 < 128 /\ (x .& Z.lnot 0x80) .& Z.lnot 0x80 = x .& Z.lnot 0x80.
Proof.
  intros Hx. split; [|by rewrite <- Z.land_assoc, Z.land_diag]. replace (x .& Z.lnot 0x80) with (x .& Z.ones 7).
  - rewrite Z.land_ones by lia. by apply Z.mod_pos_bound.
  - apply Z.bits_inj'. intros i Hi. change 0x80 with (2 ^ 7). rewrite !Z.land_spec, Z.lnot_spec, Z.testbit_ones_nonneg, Z.pow2_bits_eqb by lia.
    destruct (Z_lt_le_dec i 8); [|by rewrite (fits_testbit 8 x i)]. f_equal. destruct (Z.ltb_spec i 7), (Z.eqb_spec 7 i); (done || lia).
Qed.
Lemma route_byte (d : PCIDevice) n : dev_wf d -> fits 8 (conf_byte d n).
Proof. intros Hd. by apply byte_fits, dv_bytes. Qed.
Lemma new_pic_bit old irq level n : 0 <= irq < 4 -> 0 <= n -> (8 <= n -> Z.testbit old n = false) ->
  Z.testbit (u8 (if level =? 0 then old .& Z.lnot (1 ≪ irq) else old .| (1 ≪ irq))) n =
  if decide (n = irq) then negb (level =? 0) else Z.testbit old n.
Proof.
  intros Hi Hn Hold. assert (Z.testbit (1 ≪ irq) n = bool_decide (n = irq)) as Eb.
  { rewrite Z.shiftl_spec by lia. destruct (Z_lt_le_dec n irq); [rewrite Z.testbit_neg_r, bool_decide_false by lia; done|].
    change 1 with (2 ^ 0). rewrite Z.pow2_bits_eqb by lia. case_bool_decide; lia. }
  rewrite wrap_testbit by lia. destruct (Z.ltb_spec n 8) as [|Hge]; [|rewrite decide_False, Hold by lia; done]. cbn [andb].
  destruct (level =? 0); cbn [negb]; rewrite ?Z.land_spec, ?Z.lor_spec, ?Z.lnot_spec, Eb by lia;
    (case_decide; [rewrite bool_decide_true by done|rewrite bool_decide_false by done]); cbn; rewrite ?andb_true_r, ?andb_false_r, ?orb_true_r, ?orb_false_r; done.
Qed.
Abbreviation bus_ok := (bus_ok bar_set owner).
Record set_irq_result (s s' : State) : Prop := {
  sr_bus : bus_ok s';
  sr_table : irq_state (pci_bus s') = irq_state (pci_bus s);
  sr_route : forall n, 0 <= n < 4 -> route s' n = route s n;
  sr_devices : forall fn, registered (pci_bus s) fn -> registered (pci_bus s') fn;
}.
Lemma set_irq_pics s irq : bus_ok s -> 0 <= irq < 4 -> pics_ok (eq irq) s ->
  exists s', i440fx_set_irq irq (bus_level (pci_bus s) irq) s = Ok tt s' /\ set_irq_result s s' /\ pics_ok (fun _ => False) s'.
Proof.
  intros Hs Hirq Hp. destruct (set_irq_ok bar_set owner s irq (bus_level (pci_bus s) irq) Hs Hirq) as (s' & E & Hs').
  exists s'. split; [done|]. destruct (bk_hd _ _ _ Hs) as [hd Hhd]. pose proof (get_device_slot _ _ _ _ Hhd) as Hslot.
  pose proof (sl_wf _ _ _ _ _ (bo_slots _ _ _ (bk_slots _ _ _ Hs) _ _ Hslot)) as Hwf.
  unfold i440fx_set_irq, gets, mbind, M_bind, modify in E. rewrite Hhd in E.
  set (r := conf_byte hd (0x60 + irq) .& Z.lnot 0x80) in E. set (hd' := set_cfg_byte (0x60 + irq) r hd) in E.
  set (b' := set_device (piix3_dev s) hd' (pci_bus s)) in E.
  destruct (low_bits _ (route_byte hd (0x60 + irq) Hwf)) as [Hr Hidem]. fold r in Hr, Hidem.
  assert (get_device b' (piix3_dev s) = Ok hd' tt) as Hhd'.
  { unfold get_device, b', set_device. cbn. rewrite list_lookup_insert_eq; [done|by eapply lookup_lt_Some]. }
  assert (forall t n, pci_bus t = b' -> piix3_dev t = piix3_dev s -> 0 <= n < 4 -> route t n = route s n) as Hroute.
  { intros t n Ht Hpt Hn. unfold route. rewrite Ht, Hpt, Hhd, Hhd'. unfold conf_byte at 1, hd', set_cfg_byte. cbn [config set_config].
    rewrite byte_insert by (rewrite (dv_len _ Hwf); lia). destruct (decide (Z.to_nat (0x60 + irq) = Z.to_nat (0x60 + n))) as [En|]; [|done].
    assert (n = irq) as -> by lia. fold r. rewrite wrap_fits by (unfold fits; lia). exact Hidem. }
  assert (route s irq = r) as Hrs by (unfold route; by rewrite Hhd).
  assert (pci_bus s' = b' /\ piix3_dev s' = piix3_dev s) as [Hb' Hpx] by (destruct (r <? 16); by injection E as <-).
  assert (irq_state b' = irq_state (pci_bus s)) as Htab by done.
  assert (forall n, bus_level (pci_bus s') n = bus_level (pci_bus s) n) as Hlevel by (intros n; by rewrite Hb').
  split; [split; [done|by rewrite Hb'|intros n Hn; by apply Hroute|]|].
  { intros fn Hreg. rewrite Hb'. apply registered_set; [done|]. by eapply lookup_lt_Some. }
  destruct Hp as [[L1 L2] Hpic Hother Hlines]. destruct (Z.ltb_spec r 16) as [H16|H16]; injection E as <-; cbn [set_pic pic_irq_state pic_irqs set_pci_bus] in *.
  - set (old := nth (Z.to_nat r) (pic_irq_state s) 0). set (new := u8 _).
    assert (forall n, 0 <= n -> Z.testbit new n = if decide (n = irq) then negb (bus_level (pci_bus s) irq =? 0) else Z.testbit old n) as Hnew.
    { intros n Hn. apply new_pic_bit; [done..|]. intros H8. unfold old. rewrite Hpic by lia. destruct (Z.ltb_spec n 4); [lia|done]. }
    split; cbn [set_pic pic_irq_state pic_irqs set_pci_bus].
    + by rewrite !length_insert.
    + intros p n Hp Hn _. change (nth ?i (<[?j := new]> ?l) 0) with (byte (<[j := new]> l) i). rewrite byte_insert by lia. rewrite Hlevel.
      change (byte (pic_irq_state s) ?i) with (nth i (pic_irq_state s) 0).
      destruct (Z.ltb_spec n 4) as [H4|H4].
      * cbn [andb]. rewrite Hroute by done. destruct (decide (Z.to_nat r = Z.to_nat p)) as [Erp|Erp].
        -- assert (p = r) as -> by lia. rewrite Hnew by done. destruct (decide (n = irq)) as [->|Hni]; [by rewrite Hrs, Z.eqb_refl|].
           unfold old. rewrite Hpic by lia. destruct (Z.ltb_spec n 4); [done|lia].
        -- destruct (decide (n = irq)) as [->|Hni].
           ++ rewrite Hother by (done || lia). rewrite Hrs, (proj2 (Z.eqb_neq r p)) by lia. done.
           ++ rewrite Hpic by lia. destruct (Z.ltb_spec n 4); [done|lia].
      * cbn [andb]. destruct (decide (Z.to_nat r = Z.to_nat p)); [rewrite Hnew, decide_False by lia; unfold old|]; rewrite Hpic by lia;
          destruct (Z.ltb_spec n 4); (done || lia).
    + done.
    + intros p Hp. change (nth ?i (<[?j := ?v]> ?l) 0) with (byte (<[j := v]> l) i). rewrite !byte_insert by lia.
      destruct (decide (Z.to_nat r = Z.to_nat p)); [done|]. by apply Hlines.
  - split; cbn [set_pic pic_irq_state pic_irqs set_pci_bus]; [done| |done|done]. intros p n Hp Hn _. rewrite Hlevel.
    destruct (decide (n = irq)) as [->|Hni].
    + rewrite Hother by (done || lia). rewrite Hroute, Hrs, (proj2 (Z.eqb_neq r p)) by (done || lia). by rewrite andb_false_r.
    + rewrite Hpic by lia. destruct (Z.ltb_spec n 4); [|done]. by rewrite (Hroute (set_pci_bus b' s) n).
Qed.

Lemma bus_level_other (s : State) irq n m mask level : n <> irq -> 0 <= n -> 0 <= irq -> bus_level (put_irq irq m mask level (pci_bus s)) n = bus_level (pci_bus s) n.
Proof. intros. unfold bus_level, put_irq. cbn [irq_state]. by rewrite list_lookup_alter_ne by lia. Qed.
Lemma device_set_irq_step lines s fn k level : bus_ok s -> table_ok lines s -> pics_ok (fun _ => False) s ->
  registered (pci_bus s) fn -> 0 <= fn < 256 -> 0 <= k < 4 ->
  exists s', pci_device_set_irq fn k level s = Ok tt s' /\ bus_ok s' /\
    table_ok (set_line lines fn k (negb (level =? 0))) s' /\ pics_ok (fun _ => False) s' /\
    (forall n, 0 <= n < 4 -> route s' n = route s n) /\ (forall m, registered (pci_bus s) m -> registered (pci_bus s') m).
Proof.
  intros Hs Ht Hp [d Hd] Hfn Hk. pose proof (sl_devfn _ _ _ _ _ (bo_slots _ _ _ (bk_slots _ _ _ Hs) _ _ (get_device_slot _ _ _ _ Hd))) as Hdf.
  rewrite Z2Nat.id in Hdf by lia. unfold pci_device_set_irq, gets, mbind, M_bind, modify. rewrite Hd, Hdf.
  assert (bus_map_irq d k = (k + (fn / 8 - 1)) mod 4) as ->.
  { unfold bus_map_irq. rewrite Hdf, Z.shiftr_div_pow2 by lia. change 3 with (Z.ones 2). by rewrite Z.land_ones by lia. }
  pose proof (put_irq_table lines s fn k level Ht Hfn Hk) as Ht1. cbv zeta in Ht1. set (irq := (k + (fn / 8 - 1)) mod 4) in *.
  assert (0 <= irq < 4) as Hirq by (unfold irq; apply Z.mod_pos_bound; lia).
  set (s1 := set_pci_bus _ s) in *. pose proof (put_irq_ok bar_set owner s irq (fn ≫ 5) (u32 (1 ≪ (fn .& 31))) level Hs) as Hs1. fold s1 in Hs1.
  destruct Hp as [Hl Hpic _ Hlines].
  destruct (set_irq_pics s1 irq Hs1 Hirq) as (s' & E & [R1 R2 R3 R4] & Hp').
  { split; [done| | |done].
    - intros p n Hp0 Hn Hne. change (pic_irq_state s1) with (pic_irq_state s). rewrite Hpic by (try done; tauto).
      unfold s1. cbn [pci_bus set_pci_bus]. rewrite bus_level_other; [done|congruence|done|lia].
    - intros p n Hp0 <- Hn Hr. change (pic_irq_state s1) with (pic_irq_state s). rewrite Hpic by (try done; tauto). rewrite (proj2 (Z.eqb_neq _ _)) by exact Hr. by rewrite andb_false_r. }
  exists s'. split; [exact E|]. split; [done|]. split; [|split; [done|split; [exact R3|intros m Hm; by apply R4]]].
  destruct Ht1 as [T1 T2 T3]. split; [by rewrite R2|by rewrite R2|]. intros n fn' Hn Hfn'. unfold word. rewrite R2. by apply T3.
Qed.

(** ** Sequences of changes of the lines *)
Definition irq_call : Type := Z * Z * Z.
Definition levels_from (lines : Z -> Z -> bool) (calls : list irq_call) : Z -> Z -> bool :=
  foldl (fun l '(fn, k, level) => set_line l fn k (negb (level =? 0))) lines calls.
(** The level that each line was last set to; the lines start low. *)
Definition last_levels (calls : list irq_call) : Z -> Z -> bool := levels_from (fun _ _ => false) calls.
Definition run_irqs (calls : list irq_call) : M State unit :=
  foldr (fun '(fn, k, level) m => _ ← pci_device_set_irq fn k level; m) (mret tt) calls.
Definition call_ok (s : State) (c : irq_call) : Prop :=
  let '(fn, k, _) := c in registered (pci_bus s) fn /\ 0 <= fn < 256 /\ 0 <= k < 4.
Lemma run_irqs_step calls : forall lines s, bus_ok s -> table_ok lines s -> pics_ok (fun _ => False) s -> Forall (call_ok s) calls ->
  exists s', run_irqs calls s = Ok tt s' /\ table_ok (levels_from lines calls) s' /\ pics_ok (fun _ => False) s' /\
    (forall n, 0 <= n < 4 -> route s' n = route s n).
Proof.
  induction calls as [|[[fn k] level] calls IH]; intros lines s Hs Ht Hp Hc; [by exists s|].
  apply Forall_cons_1 in Hc as [(Hr & Hfn & Hk) Hc]. destruct (device_set_irq_step lines s fn k level Hs Ht Hp Hr Hfn Hk) as (s1 & E & H1 & H2 & H3 & H4 & H5).
  destruct (IH _ s1 H1 H2 H3) as (s' & E' & T & P & R).
  { eapply List.Forall_impl; [|exact Hc]. intros [[fn' k'] l'] (? & ? & ?). split; [by apply H5|done]. }
  exists s'. split; [cbn [run_irqs foldr]; unfold mbind, M_bind; by rewrite E|]. split; [done|]. split; [done|].
  intros n Hn. by rewrite R, H4.
Qed.
(** No interrupt has been raised since the initialisation. *)
Definition quiet (s : State) : Prop :=
  irq_state (pci_bus s) = replicate 4 (replicate 8 0) /\ pic_irq_state s = replicate 16 0 /\ pic_irqs s = replicate 16 0.
Lemma nth_zeros n i : nth i (replicate n 0) 0 = 0.
Proof. revert i. induction n as [|n IH]; intros [|i]; (done || apply IH). Qed.
Lemma quiet_ok s : quiet s -> table_ok (fun _ _ => false) s /\ pics_ok (fun _ => False) s.
Proof.
  intros (H1 & H2 & H3). assert (forall n j, word s n j = 0) as Hw.
  { intros n j. unfold word. rewrite H1. destruct (nth_in_or_default (Z.to_nat n) (replicate 4 (replicate 8 0)) []) as [Hin| ->].
    - apply list_elem_of_In, elem_of_replicate_inv in Hin. rewrite Hin. apply nth_zeros.
    - by destruct (Z.to_nat j). }
  split.
  - split; [by rewrite H1|rewrite H1; by apply Forall_replicate; split; [|apply Forall_replicate, fits_0]|]. intros. by rewrite Hw, Z.bits_0.
  - split; rewrite ?H2, ?H3; [done| |done|intros; by rewrite !nth_zeros]. intros p n Hp Hn _. rewrite nth_zeros, Z.bits_0.
    assert (bus_level (pci_bus s) n = 0) as ->; [|by rewrite andb_false_r]. unfold bus_level. rewrite H1.
    destruct (replicate 4 (replicate 8 0) !! Z.to_nat n) as [r|] eqn:E; [|done]. apply lookup_replicate in E as [-> _]. done.
Qed.

(** C38: after any sequence of changes of the interrupt lines of the devices, each line of
    the interrupt controllers is high exactly if some line of a device, that was last set
    high, is wired to a line of the bus that is routed to it. *)
Theorem pci_irqs_wired_or s calls p : reach bar_set owner s -> quiet s -> Forall (call_ok s) calls -> 0 <= p < 16 ->
  exists s', run_irqs calls s = Ok tt s' /\
    ((pic_irqs s' !! Z.to_nat p = Some 1 /\
        exists fn k, 0 <= fn < 256 /\ 0 <= k < 4 /\ last_levels calls fn k = true /\ route s ((k + (fn / 8 - 1)) mod 4) = p) \/
     (pic_irqs s' !! Z.to_nat p = Some 0 /\
        forall fn k, 0 <= fn < 256 -> 0 <= k < 4 -> last_levels calls fn k = true -> route s ((k + (fn / 8 - 1)) mod 4) <> p)).
Proof.
  intros Hr Hq Hc Hp. destruct (quiet_ok s Hq) as [Ht Hpi]. destruct (run_irqs_step calls _ s (reach_ok _ _ _ Hr) Ht Hpi Hc) as (s' & E & T & P & R).
  exists s'. split; [done|]. destruct P as [[L1 L2] Hpic _ Hlines].
  destruct (lookup_lt_is_Some_2 (pic_irqs s') (Z.to_nat p)) as [v Hv]; [lia|]. pose proof (Hlines p Hp) as Hvw.
  rewrite (nth_lookup_Some _ _ _ _ Hv) in Hvw. rewrite Hv, Hvw. set (w := nth (Z.to_nat p) (pic_irq_state s') 0) in *.
  assert (forall n, 0 <= n < 4 -> Z.testbit w n = (route s n =? p) && negb (bus_level (pci_bus s') n =? 0)) as Hbit.
  { intros n Hn. unfold w. rewrite Hpic, R by (tauto || lia). destruct (Z.ltb_spec n 4); [done|lia]. }
  destruct (Z.eqb_spec w 0) as [Hw|Hw]; [right|left]; (split; [done|]).
  - intros fn k Hfn Hk Hl Hrt. set (n := (k + (fn / 8 - 1)) mod 4) in *. assert (0 <= n < 4) as Hn by (by apply Z.mod_pos_bound).
    pose proof (Hbit n Hn) as Hb. rewrite Hw, Z.bits_0, Hrt, Z.eqb_refl in Hb. cbn [andb] in Hb.
    rewrite (proj2 (bus_level_spec _ s' n T Hn)) in Hb; [done|]. exists fn. split; [done|]. change (last_levels calls fn (line_of n fn) = true).
    replace (line_of n fn) with k; [done|]. unfold line_of, n. Z.to_euclidean_division_equations; lia.
  - assert (exists n, 0 <= n < 4 /\ Z.testbit w n = true) as (n & Hn & Hb).
    { destruct (Z.testbit w 0) eqn:E0; [by exists 0|]. destruct (Z.testbit w 1) eqn:E1; [by exists 1|].
      destruct (Z.testbit w 2) eqn:E2; [by exists 2|]. destruct (Z.testbit w 3) eqn:E3; [by exists 3|]. destruct Hw.
      apply Z.bits_inj'. intros i Hi. rewrite Z.bits_0. assert (i = 0 \/ i = 1 \/ i = 2 \/ i = 3 \/ 4 <= i) as [-> | [-> | [-> | [-> | H4]]]] by lia; try done.
      unfold w. rewrite Hpic by (tauto || lia). destruct (Z.ltb_spec i 4); [lia|done]. }
    rewrite Hbit in Hb by done. apply andb_true_iff in Hb as [Hrt%Z.eqb_eq Hlev].
    apply (bus_level_spec _ s' n T Hn) in Hlev as (fn & Hfn & Hl). exists fn, (line_of n fn).
    assert (0 <= line_of n fn < 4) as Hk by (by apply Z.mod_pos_bound). split; [done|]. split; [done|]. split; [done|].
    replace ((line_of n fn + (fn / 8 - 1)) mod 4) with n; [done|]. unfold line_of. Z.to_euclidean_division_equations; lia.
Qed.
End Irq.

(** The device of slot 16 is wired to line 1, which is routed to input 11. *)
Definition example_routed : Example := Eval vm_compute in final (on_device 8 (modify (pci_device_set_config8 0x61 11)) example_s1).
Lemma pci_irqs_wired_or_witness : exists s', run_irqs [(16, 0, 1); (16, 0, 0); (16, 0, 1)] example_routed = Ok tt s' /\ pic_irqs s' !! 11%nat = Some 1.
Proof.
  destruct (pci_irqs_wired_or table_set example_owner example_routed [(16, 0, 1); (16, 0, 0); (16, 0, 1)] 11) as (s' & E & H).
  - eapply (reach_config8 _ _ example_s1 8 0x61 11 tt); [apply example_reach_s1|unfold free_byte, bar_byte; lia|vm_compute; reflexivity].
  - by vm_compute.
  - assert (registered (pci_bus example_routed) 16) as Hr by (eexists; vm_compute; reflexivity).
    repeat (apply List.Forall_cons || apply List.Forall_nil); (split; [exact Hr|lia]).
  - lia.
  - exists s'. split; [exact E|]. destruct H as [[H _]|[_ H]]; [exact H|]. exfalso. apply (H 16 0); [lia|lia|reflexivity|vm_compute; reflexivity].
Defined.
