(* ===== verification/VirtioPci.v ===== *)
(** * The VIRTIO devices on the PCI bus (virtio.c: virtio_init) *)
From S2P Require Export Pci Virtio PciFacts.
#[local] Open Scope Z_scope.

Definition VIRTIO_PCI_CFG_OFFSET : Z := 0x0000.
Definition VIRTIO_PCI_ISR_OFFSET : Z := 0x1000.
Definition VIRTIO_PCI_CONFIG_OFFSET : Z := 0x2000.
Definition VIRTIO_PCI_NOTIFY_OFFSET : Z := 0x3000.

(** The PCI device id and the class *)
Definition pci_ids (device_id : Z) : option (Z * Z) :=
  match device_id with
  | 1 => Some (0x1000, 0x0200)
  | 2 => Some (0x1001, 0x0100)
  | 3 => Some (0x1003, 0x0780)
  | 9 => Some (0x1040 + device_id, 0x2)
  | 18 => Some (0x1040 + device_id, 0x0980)
  | _ => None
  end.
Definition virtio_add_pci_capability (cfg_type bar offset len mult : Z) : M PCIDevice unit :=
  let cap_len := if cfg_type =? 2 then 20 else 16 in
  let cap := replicate (Z.to_nat cap_len) 0 in
  let cap := <[0%nat := 0x09]> cap in
  let cap := <[2%nat := u8 cap_len]> cap in
  let cap := <[3%nat := u8 cfg_type]> cap in
  let cap := <[4%nat := u8 bar]> cap in
  let cap := put_le32 cap 8 offset in
  let cap := put_le32 cap 12 len in
  let cap := if cfg_type =? 2 then put_le32 cap 16 mult else cap in
  _ ← pci_add_capability cap; mret tt.
Definition virtio_pci_config (device_id : Z) : M PCIDevice unit :=
  _ ← modify (pci_device_set_config16 0x2c 0x1af4);
  _ ← modify (pci_device_set_config16 0x2e device_id);
  _ ← modify (pci_device_set_config8 PCI_INTERRUPT_PIN 1);
  _ ← virtio_add_pci_capability 1 4 VIRTIO_PCI_CFG_OFFSET 0x1000 0;
  _ ← virtio_add_pci_capability 3 4 VIRTIO_PCI_ISR_OFFSET 0x1000 0;
  _ ← virtio_add_pci_capability 4 4 VIRTIO_PCI_CONFIG_OFFSET 0x1000 0;
  virtio_add_pci_capability 2 4 VIRTIO_PCI_NOTIFY_OFFSET 0x1000 0.
(** The PCI case of virtio_init: the slot, the range of the registers in the memory map, and
    the map. *)
Definition virtio_pci_init {C : Type} (device_id opaque : Z) (mem_map : PhysMemoryMap) : M (I440FXState C) (Z * nat * PhysMemoryMap) :=
  match pci_ids device_id with
  | None => stop_with StopAbort
  | Some (pci_device_id, class_id) =>
      fn ← on_bus (pci_register_device (-1) 0x1af4 pci_device_id 0x00 class_id);
      fn ← null_pointer fn;
      _ ← on_device fn (virtio_pci_config device_id);
      match cpu_register_device mem_map 0 0x4000 (Z.to_nat opaque) (DEVIO_SIZE8 .| DEVIO_SIZE16 .| DEVIO_SIZE32 .| DEVIO_DISABLED) with
      | Stop r => stop_with r
      | Ok range mem_map =>
          _ ← on_device fn (pci_register_bar 4 0x4000 PCI_ADDRESS_SPACE_MEM opaque);
          mret (fn, range, mem_map)
      end
  end.

(** * A VIRTIO device on the PCI bus: what its driver finds *)
#[local] Open Scope Z_scope.

(** The fields of a VIRTIO capability: what it names, the region, the offset and the length. *)
Definition cap_fields (d : PCIDevice) (o : Z) : Z * Z * Z * Z :=
  (conf_byte d (o + 3), conf_byte d (o + 4), conf_le32 d (o + 8), conf_le32 d (o + 12)).
Definition virtio_caps (d : PCIDevice) : list (Z * Z * Z * Z) := map (cap_fields d) (cap_list 5 d).
Section Found.
Context {C : Type}.
Implicit Types (s : I440FXState C).
Lemma free_slot_spec n : forall fn b, 0 <= fn -> 0 <= free_slot n fn b -> fn <= free_slot n fn b < fn + 8 * Z.of_nat n /\
  device b !! Z.to_nat (free_slot n fn b) = Some None.
Proof.
  induction n as [|n IH]; intros fn b Hfn H; cbn [free_slot] in *; [lia|].
  destruct (device b !! Z.to_nat fn) as [[d|]|] eqn:E; [|split; [lia|done]|]; (destruct (IH (fn + 8) b) as [H1 H2]; [lia|done|]; split; [lia|done]).
Qed.
Lemma devfn_alloc_spec b : 0 <= devfn_alloc b -> device b !! Z.to_nat (devfn_alloc b) = Some None.
Proof.
  unfold devfn_alloc. generalize 32%nat. intros n H. apply (free_slot_spec n 0 b); [done|exact H].
Qed.
Lemma on_device_run {A} fn (m : M PCIDevice A) s d a d' : get_device (pci_bus s) fn = Ok d tt -> m d = Ok a d' ->
  exists s', on_device fn m s = Ok a s' /\ get_device (pci_bus s') fn = Ok d' tt /\
    (forall n, Z.to_nat n <> Z.to_nat fn -> get_device (pci_bus s') n = get_device (pci_bus s) n).
Proof.
  intros Hd Hm. unfold on_device. rewrite Hd, Hm. eexists. split; [reflexivity|]. cbn [pci_bus set_pci_bus]. unfold get_device, set_device. cbn [device].
  split.
  - rewrite list_lookup_insert_eq; [done|]. apply get_device_slot in Hd. by eapply lookup_lt_Some.
  - intros n Hn. by rewrite list_lookup_insert_ne by done.
Qed.
Lemma register_run s v dv rev cl (fn := devfn_alloc (pci_bus s)) : 0 <= fn ->
  exists s', on_bus (pci_register_device (-1) v dv rev cl) s = Ok (Some fn) s' /\ get_device (pci_bus s') fn = Ok (new_device fn v dv rev cl) tt /\
    (forall n, Z.to_nat n <> Z.to_nat fn -> get_device (pci_bus s') n = get_device (pci_bus s) n).
Proof.
  intros Hfn. assert (device (pci_bus s) !! Z.to_nat fn = Some None) as H2 by (exact (devfn_alloc_spec (pci_bus s) Hfn)).
  unfold on_bus, pci_register_device, gets, mbind, M_bind, modify. change (-1 <? 0) with true. cbv iota. change (devfn_alloc (pci_bus s)) with fn. clearbody fn.
  destruct (Z.ltb_spec fn 0); [lia|]. rewrite H2. eexists. split; [reflexivity|]. cbn [pci_bus set_pci_bus]. unfold get_device, set_device. cbn [device].
  split.
  - rewrite list_lookup_insert_eq; [done|]. by eapply lookup_lt_Some.
  - intros n Hn. by rewrite list_lookup_insert_ne by done.
Qed.
(** The device after its configuration, for each of the five kinds *)
Definition kinds : list Z := [1; 2; 3; 9; 18].
Record found (device_id opaque : Z) (d : PCIDevice) : Prop := {
  fd_vendor : conf_le16 d 0 = 0x1af4;
  fd_ids : pci_ids device_id = Some (conf_le16 d 2, conf_le16 d 0x0a);
  fd_subsystem : conf_le16 d PCI_SUBSYSTEM_ID = device_id;
  fd_pin : conf_byte d PCI_INTERRUPT_PIN = 1;
  fd_status : Z.testbit (conf_byte d PCI_STATUS) 4 = true;
  fd_caps : virtio_caps d = [(2, 4, 0x3000, 0x1000); (4, 4, 0x2000, 0x1000); (3, 4, 0x1000, 0x1000); (1, 4, 0x0000, 0x1000)];
  fd_region : io_regions d !! 4%nat = Some (mkRegion 0x4000 PCI_ADDRESS_SPACE_MEM false opaque);
}.
Lemma config_found device_id pid cid opaque fn : pci_ids device_id = Some (pid, cid) ->
  exists d1 d2, virtio_pci_config device_id (new_device fn 0x1af4 pid 0 cid) = Ok tt d1 /\
    pci_register_bar 4 0x4000 PCI_ADDRESS_SPACE_MEM opaque d1 = Ok tt d2 /\ found device_id opaque d2.
Proof.
  intros H. assert (device_id ∈ kinds) as Hk.
  { unfold pci_ids in H. repeat (case_match; try discriminate H; try (subst; unfold kinds; set_solver)). }
  unfold kinds in Hk. repeat (apply elem_of_cons in Hk as [-> |Hk]; [injection H as <- <-; eexists _, _; split; [vm_compute; reflexivity|]; split; [vm_compute; reflexivity|];
    split; vm_compute; reflexivity|]). by apply elem_of_nil in Hk.
Qed.

(** Initialising a VIRTIO device on a PCI bus that has a free slot puts a device of the
    right identity there whose capabilities lead a driver to the common, notification,
    interrupt and device configuration registers in the 16 kB of region 4; the other slots
    are as they were.  An unknown kind of device aborts. *)
Theorem virtio_pci_found s device_id opaque mem_map (fn := devfn_alloc (pci_bus s)) :
  (pci_ids device_id = None -> virtio_pci_init device_id opaque mem_map s = Stop StopAbort) /\
  (device_id ∈ kinds -> 0 <= fn ->
    forall range mem_map', cpu_register_device mem_map 0 0x4000 (Z.to_nat opaque) (DEVIO_SIZE8 .| DEVIO_SIZE16 .| DEVIO_SIZE32 .| DEVIO_DISABLED) = Ok range mem_map' ->
    exists s' d, virtio_pci_init device_id opaque mem_map s = Ok (fn, range, mem_map') s' /\
      get_device (pci_bus s') fn = Ok d tt /\ found device_id opaque d /\
      (forall n, Z.to_nat n <> Z.to_nat fn -> get_device (pci_bus s') n = get_device (pci_bus s) n)).
Proof.
  split; [intros H; unfold virtio_pci_init; by rewrite H|]. intros Hk Hfn range mem_map' Hreg.
  assert (exists pid cid, pci_ids device_id = Some (pid, cid)) as (pid & cid & Hids).
  { unfold kinds in Hk. repeat (apply elem_of_cons in Hk as [-> |Hk]; [by eexists _, _|]). by apply elem_of_nil in Hk. }
  destruct (config_found device_id pid cid opaque fn Hids) as (d1 & d2 & Hc & Hb & Hf).
  destruct (register_run s 0x1af4 pid 0 cid Hfn) as (s1 & E1 & G1 & O1). fold fn in E1, G1, O1.
  destruct (on_device_run fn _ s1 _ _ _ G1 Hc) as (s2 & E2 & G2 & O2). destruct (on_device_run fn _ s2 _ _ _ G2 Hb) as (s3 & E3 & G3 & O3).
  exists s3, d2. split; [|split; [done|split; [done|]]].
  - unfold virtio_pci_init. rewrite Hids. unfold mbind, M_bind. rewrite E1. cbn [null_pointer mret M_ret]. rewrite E2, Hreg, E3. done.
  - intros n Hn. by rewrite O3, O2, O1.
Qed.
End Found.
Definition virtio_flags : Z := DEVIO_SIZE8 .| DEVIO_SIZE16 .| DEVIO_SIZE32 .| DEVIO_DISABLED.
Definition example_mem : PhysMemoryMap := Eval vm_compute in final_map (cpu_register_device {| phys_mem_range := [] |} 0 0x4000 5 virtio_flags).
Lemma virtio_pci_found_witness : exists s' d,
  virtio_pci_init 2 5 {| phys_mem_range := [] |} example_s0 = Ok (16, 0%nat, example_mem) s' /\
  get_device (pci_bus s') 16 = Ok d tt /\ conf_le16 d 2 = 0x1001.
Proof.
  destruct (proj2 (virtio_pci_found example_s0 2 5 {| phys_mem_range := [] |})) with (range := 0%nat) (mem_map' := example_mem) as (s' & d & E & G & F & _).
  - unfold kinds. set_solver.
  - vm_compute. discriminate.
  - vm_compute. reflexivity.
  - exists s', d. split; [exact E|]. split; [exact G|]. pose proof (fd_ids _ _ _ F) as H. by injection H.
Defined.
