(* ===== verification/Pic.v ===== *)
(** * The two interrupt controllers of the PC (x86_machine.c, the 8259 part)

    The line to the CPU is the level it was last set to. *)
From S2P Require Export Iomem Monad.
#[local] Open Scope Z_scope.

Record PICState := mkPIC {
  last_irr : Z; irr : Z; imr : Z; isr : Z; priority_add : Z; irq_base : Z; read_reg_select : Z; special_mask : Z;
  init_state : Z; auto_eoi : Z; rotate_on_autoeoi : Z; init4 : Z; elcr : Z; elcr_mask : Z;
}.
Record PIC2State := mkPIC2 { pic0 : PICState; pic1 : PICState; cpu_irq : Z }.
Definition set_requests l r s := mkPIC l r (imr s) (isr s) (priority_add s) (irq_base s) (read_reg_select s) (special_mask s) (init_state s) (auto_eoi s) (rotate_on_autoeoi s) (init4 s) (elcr s) (elcr_mask s).
Definition set_imr v s := mkPIC (last_irr s) (irr s) v (isr s) (priority_add s) (irq_base s) (read_reg_select s) (special_mask s) (init_state s) (auto_eoi s) (rotate_on_autoeoi s) (init4 s) (elcr s) (elcr_mask s).
Definition set_isr v s := mkPIC (last_irr s) (irr s) (imr s) v (priority_add s) (irq_base s) (read_reg_select s) (special_mask s) (init_state s) (auto_eoi s) (rotate_on_autoeoi s) (init4 s) (elcr s) (elcr_mask s).
Definition set_priority_add v s := mkPIC (last_irr s) (irr s) (imr s) (isr s) v (irq_base s) (read_reg_select s) (special_mask s) (init_state s) (auto_eoi s) (rotate_on_autoeoi s) (init4 s) (elcr s) (elcr_mask s).
Definition set_irq_base v s := mkPIC (last_irr s) (irr s) (imr s) (isr s) (priority_add s) v (read_reg_select s) (special_mask s) (init_state s) (auto_eoi s) (rotate_on_autoeoi s) (init4 s) (elcr s) (elcr_mask s).
Definition set_read_reg v s := mkPIC (last_irr s) (irr s) (imr s) (isr s) (priority_add s) (irq_base s) v (special_mask s) (init_state s) (auto_eoi s) (rotate_on_autoeoi s) (init4 s) (elcr s) (elcr_mask s).
Definition set_special_mask v s := mkPIC (last_irr s) (irr s) (imr s) (isr s) (priority_add s) (irq_base s) (read_reg_select s) v (init_state s) (auto_eoi s) (rotate_on_autoeoi s) (init4 s) (elcr s) (elcr_mask s).
Definition set_init_state v s := mkPIC (last_irr s) (irr s) (imr s) (isr s) (priority_add s) (irq_base s) (read_reg_select s) (special_mask s) v (auto_eoi s) (rotate_on_autoeoi s) (init4 s) (elcr s) (elcr_mask s).
Definition set_auto_eoi v s := mkPIC (last_irr s) (irr s) (imr s) (isr s) (priority_add s) (irq_base s) (read_reg_select s) (special_mask s) (init_state s) v (rotate_on_autoeoi s) (init4 s) (elcr s) (elcr_mask s).
Definition set_rotate v s := mkPIC (last_irr s) (irr s) (imr s) (isr s) (priority_add s) (irq_base s) (read_reg_select s) (special_mask s) (init_state s) (auto_eoi s) v (init4 s) (elcr s) (elcr_mask s).
Definition set_init4 v s := mkPIC (last_irr s) (irr s) (imr s) (isr s) (priority_add s) (irq_base s) (read_reg_select s) (special_mask s) (init_state s) (auto_eoi s) (rotate_on_autoeoi s) v (elcr s) (elcr_mask s).
Definition set_elcr v s := mkPIC (last_irr s) (irr s) (imr s) (isr s) (priority_add s) (irq_base s) (read_reg_select s) (special_mask s) (init_state s) (auto_eoi s) (rotate_on_autoeoi s) (init4 s) v (elcr_mask s).

(** ** One controller *)
Definition pic_reset (s : PICState) : PICState := mkPIC 0 0 0 0 0 0 0 0 0 0 0 0 (elcr s) (elcr_mask s).
Definition bit_of (irq : Z) : Z := 1 ≪ irq.
Definition without (v m : Z) : Z := u8 (v .& Z.lnot m).
Definition tst (v m : Z) : bool := negb (v .& m =? 0).
Definition pic_set_irq1 (irq level : Z) (s : PICState) : PICState :=
  let mask := bit_of irq in
  if tst (elcr s) mask then
    if negb (level =? 0) then set_requests (last_irr s .| mask) (irr s .| mask) s
    else set_requests (without (last_irr s) mask) (without (irr s) mask) s
  else if negb (level =? 0) then
    set_requests (last_irr s .| mask) (if tst (last_irr s) mask then irr s else irr s .| mask) s
  else set_requests (without (last_irr s) mask) (irr s) s.
(** The loop of pic_get_priority; it would not end without a bit to find. *)
Fixpoint find_priority (fuel : nat) (s : PICState) (mask priority : Z) : option Z :=
  match fuel with
  | O => None
  | S fuel =>
      if mask .& (1 ≪ ((priority + priority_add s) .& 7)) =? 0 then find_priority fuel s mask (priority - 1) else Some priority
  end.
Definition pic_get_priority (s : PICState) (mask : Z) : option Z :=
  if mask =? 0 then Some (-1) else find_priority 8 s mask 7.
Definition pic_get_irq (s : PICState) : option Z :=
  priority ← pic_get_priority s (irr s .& Z.lnot (imr s));
  if priority <? 0 then Some (-1)
  else
    cur_priority ← pic_get_priority s (isr s);
    Some (if cur_priority <? priority then priority else -1).
Definition pic_intack (irq : Z) (s : PICState) : PICState :=
  let s := if negb (auto_eoi s =? 0) then if negb (rotate_on_autoeoi s =? 0) then set_priority_add ((irq + 1) .& 7) s else s
           else set_isr (u8 (isr s .| (1 ≪ irq))) s in
  if tst (elcr s) (1 ≪ irq) then s else set_requests (last_irr s) (without (irr s) (1 ≪ irq)) s.

(** The specific commands of the first port *)
Definition pic_command (val : Z) (s : PICState) : option PICState :=
  match val with
  | 0x00 | 0x80 => Some (set_rotate (val ≫ 7) s)
  | 0x20 | 0xa0 =>
      priority ← pic_get_priority s (isr s);
      let s := if 0 <=? priority then set_isr (without (isr s) (1 ≪ ((priority + priority_add s) .& 7))) s else s in
      Some (if val =? 0xa0 then set_priority_add ((priority_add s + 1) .& 7) s else s)
  | _ =>
      if (0x60 <=? val) && (val <=? 0x67) then Some (set_isr (without (isr s) (1 ≪ (val .& 7))) s)
      else if (0xc0 <=? val) && (val <=? 0xc7) then Some (set_priority_add ((val + 1) .& 7) s)
      else if (0xe0 <=? val) && (val <=? 0xe7) then
        Some (set_priority_add (((val .& 7) + 1) .& 7) (set_isr (without (isr s) (1 ≪ (val .& 7))) s))
      else Some s
  end.

(** ** The pair *)
Local Abbreviation MP := (M PIC2State).
Definition pic (n : Z) (s : PIC2State) : PICState := if n =? 0 then pic0 s else pic1 s.
Definition on_pic (n : Z) (f : PICState -> PICState) (s : PIC2State) : PIC2State :=
  if n =? 0 then mkPIC2 (f (pic0 s)) (pic1 s) (cpu_irq s) else mkPIC2 (pic0 s) (f (pic1 s)) (cpu_irq s).
Definition set_cpu_irq (level : Z) (s : PIC2State) : PIC2State := mkPIC2 (pic0 s) (pic1 s) level.
Definition in_time {A} (o : option A) : MP A := match o with Some a => mret a | None => stop_with StopFuel end.
Definition get_irq (n : Z) : MP Z := s ← gets (fun s => s); in_time (pic_get_irq (pic n s)).
Definition pic2_update_irq : MP unit :=
  irq2 ← get_irq 1;
  _ ← (if 0 <=? irq2 then modify (fun s => on_pic 0 (pic_set_irq1 2 0) (on_pic 0 (pic_set_irq1 2 1) s)) else mret tt);
  irq ← get_irq 0;
  modify (set_cpu_irq (if 0 <=? irq then 1 else 0)).
Definition pic2_set_irq (irq level : Z) : MP unit :=
  _ ← modify (on_pic (irq ≫ 3) (pic_set_irq1 (irq .& 7) level));
  pic2_update_irq.
Definition pic2_get_hard_intno : MP Z :=
  irq ← get_irq 0;
  s ← gets (fun s => s);
  intno ← (if 0 <=? irq then
             _ ← modify (on_pic 0 (pic_intack irq));
             if irq =? 2 then
               irq2 ← get_irq 1;
               _ ← (if 0 <=? irq2 then modify (on_pic 1 (pic_intack irq2)) else mret tt);
               mret (irq_base (pic1 s) + (if 0 <=? irq2 then irq2 else 7))
             else mret (irq_base (pic0 s) + irq)
           else mret (irq_base (pic0 s) + 7));
  _ ← pic2_update_irq;
  mret intno.

(** ** Ports *)
Definition pic_write (n offset val : Z) : MP unit :=
  s ← gets (pic n);
  if offset .& 1 =? 0 then
    if tst val 0x10 then
      _ ← modify (on_pic n (fun s => set_init4 (val .& 1) (set_init_state 1 (pic_reset s))));
      if tst val 0x02 then stop_with StopAbort else if tst val 0x08 then stop_with StopAbort else mret tt
    else if tst val 0x08 then
      _ ← (if tst val 0x02 then modify (on_pic n (set_read_reg (val .& 1))) else mret tt);
      if tst val 0x40 then modify (on_pic n (set_special_mask ((val ≫ 5) .& 1))) else mret tt
    else
      s' ← in_time (pic_command val s);
      modify (on_pic n (fun _ => s'))
  else
    match init_state s with
    | 0 => _ ← modify (on_pic n (set_imr (u8 val))); pic2_update_irq
    | 1 => modify (on_pic n (fun s => set_init_state 2 (set_irq_base (val .& 0xf8) s)))
    | 2 => modify (on_pic n (fun s => set_init_state (if negb (init4 s =? 0) then 3 else 0) s))
    | 3 => modify (on_pic n (fun s => set_init_state 0 (set_auto_eoi ((val ≫ 1) .& 1) s)))
    | _ => mret tt
    end.
Definition pic_read (n offset : Z) : MP Z :=
  gets (fun s => let s := pic n s in
    if offset .& 1 =? 0 then if negb (read_reg_select s =? 0) then isr s else irr s else imr s).
Definition pic_elcr_write (n val : Z) : MP unit := modify (on_pic n (fun s => set_elcr (val .& elcr_mask s) s)).
Definition pic_elcr_read (n : Z) : MP Z := gets (fun s => elcr (pic n s)).
Definition pic2_set_elcr (elcr0 elcr1 : Z) (s : PIC2State) : PIC2State :=
  on_pic 1 (fun p => set_elcr (elcr1 .& elcr_mask p) p) (on_pic 0 (fun p => set_elcr (elcr0 .& elcr_mask p) p) s).

(** ** Initialisation.  Controller [n] has the numbers [2 n] and [2 n + 1] in the map of ports. *)
Definition pic_init (n : nat) (port elcr_port mask : Z) : M PhysMemoryMap PICState := fun map =>
  match cpu_register_device map port 2 (2 * n) DEVIO_SIZE8 with
  | Stop r => Stop r
  | Ok _ map =>
      match cpu_register_device map elcr_port 1 (2 * n + 1) DEVIO_SIZE8 with
      | Stop r => Stop r
      | Ok _ map => Ok (pic_reset (mkPIC 0 0 0 0 0 0 0 0 0 0 0 0 0 (u8 mask))) map
      end
  end.
Definition pic2_init (addr0 addr1 elcr_addr0 elcr_addr1 : Z) : M PhysMemoryMap PIC2State :=
  p0 ← pic_init 0 addr0 elcr_addr0 0xf8;
  p1 ← pic_init 1 addr1 elcr_addr1 0xde;
  mret (mkPIC2 p0 p1 0).

(** * The interrupt controllers of the PC: an edge is delivered once *)
#[local] Open Scope Z_scope.

(** ** Bits of a register *)
Lemma bit_eqb irq n : 0 <= irq -> 0 <= n -> Z.testbit (1 ≪ irq) n = (n =? irq).
Proof.
  intros Hi Hn. rewrite Z.shiftl_spec by lia. destruct (Z_lt_le_dec n irq); [rewrite Z.testbit_neg_r by lia; lia|].
  change 1 with (2 ^ 0). rewrite Z.pow2_bits_eqb by lia. lia.
Qed.
Lemma tst_bit v irq : 0 <= irq -> tst v (1 ≪ irq) = Z.testbit v irq.
Proof. rewrite Z.shiftl_1_l. apply land_pow2_test. Qed.
Lemma without_bit v irq : 0 <= irq -> fits 8 v -> Z.testbit v irq = false -> without (v .| (1 ≪ irq)) (1 ≪ irq) = v.
Proof.
  intros Hi Hv Hb. apply Z.bits_inj'. intros n Hn. unfold without. rewrite wrap_testbit, Z.land_spec, Z.lor_spec, Z.lnot_spec, bit_eqb by lia.
  destruct (Z.ltb_spec n 8); [|by rewrite (fits_testbit 8 v n)]. destruct (Z.eqb_spec n irq) as [->|]; [by rewrite Hb, andb_false_r|by rewrite orb_false_r, !andb_true_r].
Qed.
Lemma unmasked_bit r m irq : 0 <= irq -> r .& Z.lnot m = 0 -> Z.testbit m irq = false -> Z.testbit r irq = false /\ (r .| (1 ≪ irq)) .& Z.lnot m = 2 ^ irq.
Proof.
  intros Hi H Hm. assert (forall n, 0 <= n -> Z.testbit r n && negb (Z.testbit m n) = false) as Hb.
  { intros n Hn. apply (f_equal (fun x => Z.testbit x n)) in H. by rewrite Z.land_spec, Z.lnot_spec, Z.bits_0 in H. }
  split; [specialize (Hb irq Hi); rewrite Hm in Hb; by rewrite andb_true_r in Hb|].
  apply Z.bits_inj'. intros n Hn. rewrite Z.land_spec, Z.lor_spec, Z.lnot_spec, bit_eqb, Z.pow2_bits_eqb by lia. specialize (Hb n Hn).
  destruct (Z.eqb_spec n irq) as [->|Hne]; [by rewrite Hm, Z.eqb_refl, orb_true_r|]. rewrite orb_false_r, Hb. destruct (Z.eqb_spec irq n); [lia|done].
Qed.

(** ** The interrupt that a controller wants *)
Lemma get_irq_none s : irr s .& Z.lnot (imr s) = 0 -> pic_get_irq s = Some (-1).
Proof. intros H. unfold pic_get_irq, pic_get_priority. by rewrite H. Qed.
Lemma get_irq_single s k : 0 <= k < 8 -> irr s .& Z.lnot (imr s) = 2 ^ k -> isr s = 0 -> priority_add s = 0 -> pic_get_irq s = Some k.
Proof.
  intros Hk Hm Hi Hp. unfold pic_get_irq, pic_get_priority. rewrite Hm, Hi.
  assert (find_priority 8 s (2 ^ k) 7 = Some k) as E.
  { assert (k = 0 \/ k = 1 \/ k = 2 \/ k = 3 \/ k = 4 \/ k = 5 \/ k = 6 \/ k = 7) as [-> | [-> | [-> | [-> | [-> | [-> | [-> | ->]]]]]]] by lia;
      cbn [find_priority]; rewrite Hp; reflexivity. }
  rewrite (proj2 (Z.eqb_neq (2 ^ k) 0)), E by (apply Z.pow_nonzero; lia). cbn. destruct (Z.ltb_spec k 0); [lia|]. cbn. by destruct (Z.ltb_spec (-1) k); [|lia].
Qed.
(** The search ends: every register has a bit to find. *)
Lemma find_priority_total s mask p : 0 < mask < 256 -> 0 <= p < 8 -> exists r, find_priority 8 s mask p = Some r /\ p - 7 <= r <= p /\
  Z.testbit mask ((r + priority_add s) .& 7) = true /\ forall q, r < q <= p -> Z.testbit mask ((q + priority_add s) .& 7) = false.
Proof.
  intros Hm Hp. assert (forall n p, (forall q, p - Z.of_nat n < q <= p -> Z.testbit mask ((q + priority_add s) .& 7) = false) \/
    exists r, find_priority n s mask p = Some r /\ p - Z.of_nat n < r <= p /\ Z.testbit mask ((r + priority_add s) .& 7) = true /\
      forall q, r < q <= p -> Z.testbit mask ((q + priority_add s) .& 7) = false) as H.
  { induction n as [|n IH]; intros p'; [left; intros; lia|]. cbn [find_priority].
    pose proof (tst_bit mask ((p' + priority_add s) .& 7)) as Ht. unfold tst in Ht. pose proof (land_range (p' + priority_add s) 7).
    rewrite <- (negb_involutive (_ =? 0)), Ht by lia. destruct (Z.testbit mask ((p' + priority_add s) .& 7)) eqn:E; cbn [negb].
    - right. exists p'. split; [done|]. split; [lia|]. split; [done|]. intros. lia.
    - destruct (IH (p' - 1)) as [Hn|(r & Er & Hr & Hb & Hq)]; [left|right].
      + intros q Hq. destruct (Z.eq_dec q p') as [->|]; [done|]. apply Hn. lia.
      + exists r. split; [done|]. split; [lia|]. split; [done|]. intros q Hq'. destruct (Z.eq_dec q p') as [->|]; [done|]. apply Hq. lia. }
  destruct (H 8%nat p) as [Hn|(r & E & Hr & Hb & Hq)]; [|exists r; split; [done|]; split; [lia|done]]. exfalso.
  assert (0 <= Z.log2 mask < 8) as Hl by (split; [apply Z.log2_nonneg|apply Z.log2_lt_pow2; lia]).
  assert (Z.testbit mask (Z.log2 mask) = true) as Ht by (apply Z.bit_log2; lia).
  set (q := p - (p + priority_add s - Z.log2 mask) mod 8). assert ((q + priority_add s) .& 7 = Z.log2 mask) as Eq.
  { change 7 with (Z.ones 3). rewrite Z.land_ones by lia. change (2 ^ 3) with 8. unfold q. Z.to_euclidean_division_equations; lia. }
  rewrite <- Eq, Hn in Ht; [done|]. unfold q. pose proof (Z.mod_pos_bound (p + priority_add s - Z.log2 mask) 8). lia.
Qed.

(** ** One controller *)
(** Nothing is requested or in service, and the priorities were not rotated. *)
Record pic_idle (s : PICState) : Prop := {
  id_requests : irr s .& Z.lnot (imr s) = 0;
  id_service : isr s = 0;
  id_priority : priority_add s = 0;
  id_auto : auto_eoi s = 0;
  id_irr : fits 8 (irr s);
  id_last : fits 8 (last_irr s);
}.
(** Input [k] is low, edge-triggered and not masked. *)
Record line_ready (k : Z) (s : PICState) : Prop := {
  lr_edge : Z.testbit (elcr s) k = false;
  lr_low : Z.testbit (last_irr s) k = false;
  lr_mask : Z.testbit (imr s) k = false;
}.
Definition raised (k : Z) (s : PICState) : PICState := set_requests (last_irr s .| (1 ≪ k)) (irr s .| (1 ≪ k)) s.
Definition ended (k : Z) (s : PICState) : PICState := set_requests (last_irr s .| (1 ≪ k)) (irr s) s.
Section One.
Context (k : Z) (s : PICState) (Hk : 0 <= k < 8) (Hs : pic_idle s) (Hl : line_ready k s).
Lemma set_irq_raises : pic_set_irq1 k 1 s = raised k s.
Proof. destruct Hl. unfold pic_set_irq1, bit_of. rewrite !tst_bit, lr_edge0, lr_low0 by lia. done. Qed.
Lemma raised_wanted : pic_get_irq (raised k s) = Some k.
Proof.
  destruct Hs, Hl. apply get_irq_single; [done|..|done|done]. cbn. apply unmasked_bit; (done || lia).
Qed.
Lemma raised_irr_bit : Z.testbit (irr s) k = false.
Proof. destruct Hs, Hl. destruct (unmasked_bit (irr s) (imr s) k); [lia|done..]. Qed.
Lemma raised_served : pic_intack k (raised k s) = set_isr (2 ^ k) (ended k s).
Proof.
  destruct Hs, Hl. unfold pic_intack. cbn [auto_eoi raised set_requests]. rewrite id_auto0. cbn [negb Z.eqb]. cbn [elcr raised set_requests set_isr].
  rewrite tst_bit, lr_edge0 by lia. cbn [last_irr irr isr imr raised set_requests set_isr]. rewrite without_bit by (done || lia || apply raised_irr_bit).
  rewrite id_service0, Z.lor_0_l, wrap_fits; [unfold ended, set_isr, set_requests; cbn; by rewrite Z.shiftl_1_l|].
  rewrite Z.shiftl_1_l. split; [apply Z.pow_nonneg; lia|apply Z.pow_lt_mono_r; lia].
Qed.
Lemma served_quiet : pic_get_irq (set_isr (2 ^ k) (ended k s)) = Some (-1).
Proof. destruct Hs. by apply get_irq_none. Qed.
Lemma ended_quiet : pic_get_irq (ended k s) = Some (-1).
Proof. destruct Hs. by apply get_irq_none. Qed.
Lemma service_ends l r : pic_command 0x20 (set_isr (2 ^ k) (set_requests l r s)) = Some (set_requests l r s).
Proof.
  destruct Hs. unfold pic_command, pic_get_priority. cbn [isr set_isr].
  rewrite (proj2 (Z.eqb_neq (2 ^ k) 0)) by (apply Z.pow_nonzero; lia).
  assert (find_priority 8 (set_isr (2 ^ k) (set_requests l r s)) (2 ^ k) 7 = Some k /\ without (2 ^ k) (1 ≪ ((k + 0) .& 7)) = 0) as [-> E].
  { assert (k = 0 \/ k = 1 \/ k = 2 \/ k = 3 \/ k = 4 \/ k = 5 \/ k = 6 \/ k = 7) as [-> | [-> | [-> | [-> | [-> | [-> | [-> | ->]]]]]]] by lia;
      (split; [cbn [find_priority priority_add set_isr set_requests]; rewrite id_priority0; reflexivity|reflexivity]). }
  cbn [mbind option_bind]. destruct (Z.leb_spec 0 k); [|lia]. cbn [priority_add set_isr set_requests]. rewrite id_priority0, E.
  unfold set_isr, set_requests. cbn. by rewrite id_service0, id_priority0.
Qed.
Lemma ended_lowers : pic_set_irq1 k 0 (ended k s) = s.
Proof.
  destruct Hs, Hl. unfold pic_set_irq1, bit_of. cbn [elcr ended set_requests]. rewrite tst_bit, lr_edge0 by lia. cbn.
  rewrite without_bit by (done || lia). by destruct s.
Qed.
(** A pulse, as the second controller gives it to the first. *)
Lemma pulse : pic_set_irq1 k 0 (pic_set_irq1 k 1 s) = set_requests (last_irr s) (irr s .| (1 ≪ k)) s.
Proof.
  rewrite set_irq_raises. destruct Hs, Hl. unfold pic_set_irq1, bit_of. cbn [elcr raised set_requests]. rewrite tst_bit, lr_edge0 by lia. cbn.
  by rewrite without_bit by (done || lia).
Qed.
Lemma pulse_wanted : pic_get_irq (set_requests (last_irr s) (irr s .| (1 ≪ k)) s) = Some k.
Proof. destruct Hs, Hl. apply get_irq_single; [done|..|done|done]. cbn. apply unmasked_bit; (done || lia). Qed.
Lemma pulse_served : pic_intack k (set_requests (last_irr s) (irr s .| (1 ≪ k)) s) = set_isr (2 ^ k) s.
Proof.
  pose proof raised_served as H. revert H. destruct Hs, Hl. unfold pic_intack. cbn [auto_eoi raised set_requests]. rewrite id_auto0. cbn [negb Z.eqb].
  cbn [elcr raised ended set_requests set_isr]. rewrite tst_bit, lr_edge0 by lia. cbn. rewrite without_bit by (done || lia || apply raised_irr_bit).
  intros [= ->]. by destruct s.
Qed.
End One.

(** ** The pair *)
Definition end_of_interrupt (irq : Z) : M PIC2State unit :=
  _ ← (if 8 <=? irq then pic_write 1 0 0x20 else mret tt); pic_write 0 0 0x20.
Lemma eoi_write n s p : pic_command 0x20 (pic n s) = Some p -> pic_write n 0 0x20 s = Ok tt (on_pic n (fun _ => p) s).
Proof. intros H. unfold pic_write, gets, mbind, M_bind. cbn -[pic_command pic]. by rewrite H. Qed.
Lemma update_quiet a b c : pic_get_irq b = Some (-1) -> pic_get_irq a = Some (-1) -> pic2_update_irq (mkPIC2 a b c) = Ok tt (mkPIC2 a b 0).
Proof. intros Hb Ha. unfold pic2_update_irq, get_irq, gets, mbind, M_bind. cbn -[pic_get_irq]. rewrite Hb. cbn -[pic_get_irq]. by rewrite Ha. Qed.
Lemma update_first a b c k : 0 <= k -> pic_get_irq b = Some (-1) -> pic_get_irq a = Some k -> pic2_update_irq (mkPIC2 a b c) = Ok tt (mkPIC2 a b 1).
Proof.
  intros Hk Hb Ha. unfold pic2_update_irq, get_irq, gets, mbind, M_bind. cbn -[pic_get_irq]. rewrite Hb. cbn -[pic_get_irq]. rewrite Ha. cbn.
  by destruct (Z.leb_spec 0 k); [|lia].
Qed.
Lemma update_second a b c k k' : 0 <= k -> 0 <= k' -> pic_get_irq b = Some k ->
  pic_get_irq (pic_set_irq1 2 0 (pic_set_irq1 2 1 a)) = Some k' ->
  pic2_update_irq (mkPIC2 a b c) = Ok tt (mkPIC2 (pic_set_irq1 2 0 (pic_set_irq1 2 1 a)) b 1).
Proof.
  intros Hk Hk' Hb Ha. unfold pic2_update_irq, get_irq, gets, mbind, M_bind. cbn -[pic_get_irq pic_set_irq1]. rewrite Hb. cbn -[pic_get_irq pic_set_irq1].
  destruct (Z.leb_spec 0 k); [|lia]. cbn -[pic_get_irq pic_set_irq1]. rewrite Ha. cbn -[pic_set_irq1]. by destruct (Z.leb_spec 0 k'); [|lia].
Qed.

(** C39: with both controllers idle and not rotated, raising an unmasked edge-triggered input
    raises the line to the CPU; the CPU is given the vector of the input, once: the line is
    low again until the end of the interrupt, and also after it although the input is still
    high; lowering the input leads back to the initial state. *)
Theorem pic_delivers_edge irq s (n := irq ≫ 3) (k := irq .& 7) :
  0 <= irq < 16 -> irq <> 2 -> pic_idle (pic0 s) -> pic_idle (pic1 s) -> line_ready k (pic n s) -> (8 <= irq -> line_ready 2 (pic0 s)) ->
  exists s1 s2 s3, pic2_set_irq irq 1 s = Ok tt s1 /\ cpu_irq s1 = 1 /\
    pic2_get_hard_intno s1 = Ok (irq_base (pic n s) + k) s2 /\ cpu_irq s2 = 0 /\ isr (pic n s2) = 2 ^ k /\
    end_of_interrupt irq s2 = Ok tt s3 /\ pic2_update_irq s3 = Ok tt s3 /\ cpu_irq s3 = 0 /\
    pic2_set_irq irq 0 s3 = Ok tt (set_cpu_irq 0 s).
Proof.
  intros Hirq H2 H0 H1 Hl Hc. assert (0 <= k < 8 /\ irq = 8 * n + k) as [Hk Hnk].
  { unfold n, k. change 7 with (Z.ones 3). rewrite Z.land_ones, Z.shiftr_div_pow2 by lia. change (2 ^ 3) with 8. Z.to_euclidean_division_equations; lia. }
  assert (irq ≫ 3 = n /\ irq .& 7 = k) as [En Ek] by done. clearbody n k. destruct s as [a b c]. cbn [pic0 pic1] in *.
  unfold pic2_set_irq, modify, mbind, M_bind. rewrite En, Ek.
  assert (n = 0 \/ n = 1) as [-> | ->] by lia; cbn [pic on_pic Z.eqb Pos.eqb pic0 pic1 cpu_irq] in *.
  - rewrite (set_irq_raises k a Hk Hl). rewrite (update_first _ _ _ k); [|lia|apply get_irq_none, H1|by apply raised_wanted].
    eexists _, (mkPIC2 (set_isr (2 ^ k) (ended k a)) b 0), (mkPIC2 (ended k a) b 0). split; [reflexivity|]. split; [done|]. split; [|split; [done|split; [done|]]].
    + unfold pic2_get_hard_intno, get_irq, gets, mbind, M_bind, modify. cbn -[pic_get_irq pic_intack pic2_update_irq]. rewrite (raised_wanted k a Hk H0 Hl).
      cbn -[pic_get_irq pic_intack pic2_update_irq]. destruct (Z.leb_spec 0 k); [|lia]. rewrite (proj2 (Z.eqb_neq k 2)) by lia.
      cbn -[pic_intack pic2_update_irq]. rewrite (raised_served k a Hk H0 Hl), update_quiet; [done|apply get_irq_none, H1|by apply served_quiet].
    + split; [|split; [apply update_quiet; [apply get_irq_none, H1|by apply ended_quiet]|split; [done|]]].
      * unfold end_of_interrupt. destruct (Z.leb_spec 8 irq); [lia|]. cbn [mbind M_bind mret M_ret]. unfold mbind, M_bind, mret, M_ret.
        rewrite (eoi_write 0 _ (ended k a)); [done|]. by apply service_ends.
      * cbn [on_pic Z.eqb Pos.eqb pic0 pic1 cpu_irq]. rewrite (ended_lowers k a Hk H0 Hl). rewrite update_quiet; [done|apply get_irq_none, H1|apply get_irq_none, H0].
  - assert (line_ready 2 a) as H3 by (apply Hc; lia). assert (0 <= 2 < 8) as Hk2 by lia.
    rewrite (set_irq_raises k b Hk Hl). set (a' := set_requests (last_irr a) (irr a .| (1 ≪ 2)) a).
    assert (pic_set_irq1 2 0 (pic_set_irq1 2 1 a) = a') as Ea by (by apply pulse).
    rewrite (update_second a _ _ k 2); [|lia|lia|by apply raised_wanted|rewrite Ea; by apply pulse_wanted]. rewrite Ea.
    eexists _, (mkPIC2 (set_isr 4 a) (set_isr (2 ^ k) (ended k b)) 0), (mkPIC2 a (ended k b) 0). split; [reflexivity|]. split; [done|]. split; [|split; [done|split; [done|]]].
    + unfold pic2_get_hard_intno, get_irq, gets, mbind, M_bind, modify. cbn -[pic_get_irq pic_intack pic2_update_irq a']. rewrite (pulse_wanted 2 a Hk2 H0 H3 : pic_get_irq a' = Some 2).
      cbn -[pic_get_irq pic_intack pic2_update_irq a']. rewrite (raised_wanted k b Hk H1 Hl). cbn -[pic_get_irq pic_intack pic2_update_irq a'].
      destruct (Z.leb_spec 0 k); [|lia]. cbn -[pic_get_irq pic_intack pic2_update_irq a'].
      rewrite (raised_served k b Hk H1 Hl). rewrite (pulse_served 2 a Hk2 H0 H3 : pic_intack 2 a' = set_isr (2 ^ 2) a), update_quiet; [done|by apply served_quiet|].
      destruct H0. by apply get_irq_none.
    + split; [|split; [apply update_quiet; [by apply ended_quiet|apply get_irq_none, H0]|split; [done|]]].
      * unfold end_of_interrupt. destruct (Z.leb_spec 8 irq); [|lia]. unfold mbind, M_bind, mret, M_ret.
        rewrite (eoi_write 1 _ (ended k b)) by (by apply service_ends). cbn [on_pic Z.eqb pic0 pic1 cpu_irq].
        rewrite (eoi_write 0 _ a); [done|]. cbn [pic Z.eqb pic0]. pose proof (service_ends 2 a Hk2 H0 H3 (last_irr a) (irr a)) as E.
        replace (set_requests (last_irr a) (irr a) a) with a in E by (by destruct a). exact E.
      * cbn [on_pic Z.eqb Pos.eqb pic0 pic1 cpu_irq]. rewrite (ended_lowers k b Hk H1 Hl). rewrite update_quiet; [done|apply get_irq_none, H1|apply get_irq_none, H0].
Qed.

(** ** The order of the inputs *)
Definition pic_bytes (s : PICState) : Prop := fits 8 (irr s) /\ fits 8 (imr s) /\ fits 8 (isr s).
(** The search for an interrupt ends; it finds the input of the highest rank, where the rank of
    input [(r + priority_add) mod 8] is [r], unless one of the same or a higher rank is in
    service.  The result is the rank, not the input. *)
Lemma pic_get_irq_spec s : pic_bytes s -> exists r, pic_get_irq s = Some r /\ -1 <= r < 8 /\
  (0 <= r -> let line q := (q + priority_add s) .& 7 in
     Z.testbit (irr s) (line r) = true /\ Z.testbit (imr s) (line r) = false /\
     (forall q, r < q < 8 -> Z.testbit (irr s) (line q) && negb (Z.testbit (imr s) (line q)) = false) /\
     (forall q, r <= q < 8 -> Z.testbit (isr s) (line q) = false)).
Proof.
  intros (Hr & Hm & Hi). unfold pic_get_irq, pic_get_priority. set (mask := irr s .& Z.lnot (imr s)).
  assert (0 <= mask < 256) as Hmask.
  { split; [apply Z.land_nonneg; left; apply Hr|]. assert (fits 8 mask) by (by apply fits_land_l). unfold fits in *; lia. }
  destruct (Z.eqb_spec mask 0) as [Hz|Hz]; [exists (-1); split; [done|lia]|].
  destruct (find_priority_total s mask 7) as (r & -> & Hrr & Hb & Hq); [lia|lia|]. cbn [mbind option_bind]. destruct (Z.ltb_spec r 0); [lia|].
  assert (forall q, let i := (q + priority_add s) .& 7 in Z.testbit mask i = Z.testbit (irr s) i && negb (Z.testbit (imr s) i)) as Hbit.
  { intros q i. unfold mask. pose proof (land_range (q + priority_add s) 7). by rewrite Z.land_spec, Z.lnot_spec by lia. }
  assert (exists c, (if isr s =? 0 then Some (-1) else find_priority 8 s (isr s) 7) = Some c /\ -1 <= c < 8 /\
    forall q, c < q < 8 -> Z.testbit (isr s) ((q + priority_add s) .& 7) = false) as (c & -> & Hc & Hcq).
  { destruct (Z.eqb_spec (isr s) 0) as [E|]; [exists (-1); split; [done|]; split; [lia|]; intros; by rewrite E, Z.bits_0|].
    destruct (find_priority_total s (isr s) 7) as (c & Ec & Hc & _ & Hcq); [unfold fits in Hi; lia|lia|]. exists c. split; [done|]. split; [lia|]. intros. apply Hcq. lia. }
  cbn [mbind option_bind]. destruct (Z.ltb_spec c r); [|exists (-1); split; [done|lia]].
  exists r. split; [done|]. split; [lia|]. intros _. pose proof (Hbit r) as Hbr. cbv zeta in Hbr. rewrite Hb in Hbr. symmetry in Hbr.
  apply andb_true_iff in Hbr as [Hb1 Hb2%negb_true_iff]. split; [done|]. split; [done|]. split; [|intros; apply Hcq; lia].
  intros q Hq'. rewrite <- (Hbit q). apply Hq. lia.
Qed.
Definition example_pic (requests add : Z) : PICState := mkPIC 0 requests 0 0 add 0x70 0 0 0 0 0 1 0 0xde.
(** Input 1 goes before input 0; after a rotation the interrupt of input 3 is served as 2. *)
Lemma order_of_inputs : pic_get_irq (example_pic 3 0) = Some 1 /\ pic_get_irq (example_pic 8 1) = Some 2.
Proof. by vm_compute. Qed.
(** An interrupt that waited for the end of another one is not signalled by the command. *)
Lemma end_of_interrupt_silent :
  match pic_write 1 0 0x20 (mkPIC2 (example_pic 0 0) (set_isr 16 (example_pic 2 0)) 0) with
  | Ok _ s => cpu_irq s = 0 /\ pic_get_irq (pic1 s) = Some 1
  | Stop _ => False
  end.
Proof. by vm_compute. Qed.
Lemma pic_delivers_edge_witness : exists s1 s2, pic2_set_irq 12 1 (mkPIC2 (example_pic 0 0) (example_pic 0 0) 0) = Ok tt s1 /\
  pic2_get_hard_intno s1 = Ok 0x74 s2 /\ cpu_irq s2 = 0.
Proof.
  destruct (pic_delivers_edge 12 (mkPIC2 (example_pic 0 0) (example_pic 0 0) 0)) as (s1 & s2 & s3 & E1 & _ & E2 & H2 & _);
    [lia|lia|..|exists s1, s2; split; [exact E1|]; split; [exact E2|exact H2]]; intros; split; reflexivity || (cbn; unfold fits; lia).
Defined.
