(* ===== verification/PcDevices.v ===== *)
(** * The serial port, the interval timer and the clock of the PC (x86_machine.c)

    What the host gives at a call, the ticks of the timer or the time of day, is an
    argument.  A call of set_irq or of the output function is an event of the result. *)
From S2P Require Export Pic.
#[local] Open Scope Z_scope.

Inductive pc_event := SetIrq (level : Z) | Output (ch : Z).
(** The level of the line after some events *)
Definition line_after (level : Z) (es : list pc_event) : Z :=
  fold_left (fun l e => match e with SetIrq l' => l' | Output _ => l end) es level.
Definition outputs (es : list pc_event) : list Z := omap (fun e => match e with Output c => Some c | SetIrq _ => None end) es.

(** ** The serial port *)
Definition UART_LCR_DLAB : Z := 0x80.
Definition UART_IER_THRI : Z := 0x02.
Definition UART_IER_RDI : Z := 0x01.
Definition UART_IIR_NO_INT : Z := 0x01.
Definition UART_IIR_THRI : Z := 0x02.
Definition UART_IIR_RDI : Z := 0x04.
Definition UART_IIR_FE : Z := 0xC0.
Definition UART_LSR_TEMT : Z := 0x40.
Definition UART_LSR_THRE : Z := 0x20.
Definition UART_LSR_BI : Z := 0x10.
Definition UART_LSR_DR : Z := 0x01.
Definition UART_FCR_FE : Z := 0x01.
Record SerialState := mkSerial { divider : Z; rbr : Z; ier : Z; iir : Z; lcr : Z; mcr : Z; lsr : Z; msr : Z; scr : Z; fcr : Z }.
Definition set_divider v s := mkSerial v (rbr s) (ier s) (iir s) (lcr s) (mcr s) (lsr s) (msr s) (scr s) (fcr s).
Definition set_rbr v s := mkSerial (divider s) v (ier s) (iir s) (lcr s) (mcr s) (lsr s) (msr s) (scr s) (fcr s).
Definition set_ier v s := mkSerial (divider s) (rbr s) v (iir s) (lcr s) (mcr s) (lsr s) (msr s) (scr s) (fcr s).
Definition set_iir v s := mkSerial (divider s) (rbr s) (ier s) v (lcr s) (mcr s) (lsr s) (msr s) (scr s) (fcr s).
Definition set_lcr v s := mkSerial (divider s) (rbr s) (ier s) (iir s) v (mcr s) (lsr s) (msr s) (scr s) (fcr s).
Definition set_mcr v s := mkSerial (divider s) (rbr s) (ier s) (iir s) (lcr s) v (lsr s) (msr s) (scr s) (fcr s).
Definition set_lsr v s := mkSerial (divider s) (rbr s) (ier s) (iir s) (lcr s) (mcr s) v (msr s) (scr s) (fcr s).
Definition set_msr v s := mkSerial (divider s) (rbr s) (ier s) (iir s) (lcr s) (mcr s) (lsr s) v (scr s) (fcr s).
Definition set_scr v s := mkSerial (divider s) (rbr s) (ier s) (iir s) (lcr s) (mcr s) (lsr s) (msr s) v (fcr s).

Definition serial_init : SerialState := mkSerial 0 0 0 UART_IIR_NO_INT 0 0 (UART_LSR_TEMT .| UART_LSR_THRE) 0 0 0.
Definition serial_update_irq (s : SerialState) : list pc_event * SerialState :=
  let v := if tst (lsr s) UART_LSR_DR && tst (ier s) UART_IER_RDI then UART_IIR_RDI
           else if tst (lsr s) UART_LSR_THRE && tst (ier s) UART_IER_THRI then UART_IIR_THRI
           else UART_IIR_NO_INT in
  ([SetIrq (if negb (v =? UART_IIR_NO_INT) then 1 else 0)], set_iir v s).
Definition serial_send (ch : Z) (s : SerialState) : list pc_event * SerialState :=
  let s := set_lsr (u8 (lsr s .& Z.lnot UART_LSR_THRE)) s in
  let '(e1, s) := serial_update_irq s in
  let s := set_lsr (u8 (lsr s .| UART_LSR_THRE)) s in
  let s := set_lsr (u8 (lsr s .| UART_LSR_TEMT)) s in
  let '(e2, s) := serial_update_irq s in
  (e1 ++ [Output (u8 ch)] ++ e2, s).
Definition serial_write (offset val : Z) (s : SerialState) : list pc_event * SerialState :=
  match offset .& 7 with
  | 1 => if tst (lcr s) UART_LCR_DLAB then ([], set_divider (u8 ((divider s .& 0x00ff) .| u32 (val ≪ 8))) s)
         else serial_update_irq (set_ier (u8 val) s)
  | 2 => ([], s)
  | 3 => ([], set_lcr (u8 val) s)
  | 4 => ([], set_mcr (u8 val) s)
  | 5 => ([], s)
  | 6 => ([], set_msr (u8 val) s)
  | 7 => ([], set_scr (u8 val) s)
  | _ => if tst (lcr s) UART_LCR_DLAB then ([], set_divider (u8 ((divider s .& 0xff00) .| val)) s) else serial_send val s
  end.
Definition serial_read (offset : Z) (s : SerialState) : Z * (list pc_event * SerialState) :=
  match offset .& 7 with
  | 1 => (if tst (lcr s) UART_LCR_DLAB then (divider s ≫ 8) .& 0xff else ier s, ([], s))
  | 2 => (if tst (fcr s) UART_FCR_FE then iir s .| UART_IIR_FE else iir s, ([], s))
  | 3 => (lcr s, ([], s))
  | 4 => (mcr s, ([], s))
  | 5 => (lsr s, ([], s))
  | 6 => (msr s, ([], s))
  | 7 => (scr s, ([], s))
  | _ => if tst (lcr s) UART_LCR_DLAB then (divider s .& 0xff, ([], s))
         else (rbr s, serial_update_irq (set_lsr (u8 (lsr s .& Z.lnot (UART_LSR_DR .| UART_LSR_BI))) s))
  end.
Definition serial_send_break (s : SerialState) : list pc_event * SerialState :=
  let s := set_rbr 0 s in
  let s := set_lsr (u8 (lsr s .| (UART_LSR_BI .| UART_LSR_DR))) s in
  serial_update_irq s.

(** ** The interval timer

    [now] is what get_ticks returns.  A division by a count of zero is [None]. *)
Definition PIT_FREQ : Z := 1193182.
Definition RW_STATE_LSB : Z := 0.
Definition RW_STATE_MSB : Z := 1.
Definition RW_STATE_WORD0 : Z := 2.
Definition RW_STATE_WORD1 : Z := 3.
Definition RW_STATE_LATCHED_WORD0 : Z := 4.
Record PITChannel := mkChannel {
  pc_count : Z; latched_count : Z; rw_state : Z; pit_mode : Z; bcd : Z; gate : Z; count_load_time : Z; last_irq_time : Z;
}.
Record PITState := mkPIT { pit_channels : list PITChannel; speaker_data_on : Z }.
Definition ch_load count t c := mkChannel count (latched_count c) (rw_state c) (pit_mode c) (bcd c) (gate c) t 0.
Definition ch_latched v c := mkChannel (pc_count c) v (rw_state c) (pit_mode c) (bcd c) (gate c) (count_load_time c) (last_irq_time c).
Definition ch_rw v c := mkChannel (pc_count c) (latched_count c) v (pit_mode c) (bcd c) (gate c) (count_load_time c) (last_irq_time c).
Definition ch_mode m b c := mkChannel (pc_count c) (latched_count c) (rw_state c) m b (gate c) (count_load_time c) (last_irq_time c).
Definition ch_gate v c := mkChannel (pc_count c) (latched_count c) (rw_state c) (pit_mode c) (bcd c) v (count_load_time c) (last_irq_time c).
Definition ch_irq_time v c := mkChannel (pc_count c) (latched_count c) (rw_state c) (pit_mode c) (bcd c) (gate c) (count_load_time c) v.
Definition set_channel (i : nat) (c : PITChannel) (s : PITState) : PITState := mkPIT (<[i := c]> (pit_channels s)) (speaker_data_on s).

Definition pit_load_count (val now : Z) (c : PITChannel) : PITChannel := ch_load (if val =? 0 then 0x10000 else u32 val) now c.
Definition pit_init (now : Z) : PITState :=
  let channel gate := pit_load_count 0 now (mkChannel 0 0 0 3 0 gate 0 0) in
  mkPIT [channel 1; channel 1; channel 0] 0.
Definition pit_get_count (now : Z) (c : PITChannel) : option Z :=
  let d := u64 (now - count_load_time c) in
  match pit_mode c with
  | 0 | 1 | 4 | 5 => Some (u32 (u64 (pc_count c - d) .& 0xffff))
  | _ => if pc_count c =? 0 then None else Some (u32 (pc_count c - d mod pc_count c))
  end.
Definition pit_get_out (now : Z) (c : PITChannel) : option Z :=
  let d := now - count_load_time c in
  match pit_mode c with
  | 1 => Some (Z.b2z (d <? pc_count c))
  | 2 => if pc_count c =? 0 then None else Some (Z.b2z ((Z.rem d (pc_count c) =? 0) && negb (d =? 0)))
  | 3 => if pc_count c =? 0 then None else Some (Z.b2z (Z.rem d (pc_count c) <? pc_count c ≫ 1))
  | 4 | 5 => Some (Z.b2z (d =? pc_count c))
  | _ => Some (Z.b2z (pc_count c <=? d))
  end.
(** The accesses to the port of a channel, and to the control port *)
Definition pit_write_count (now val : Z) (c : PITChannel) : PITChannel :=
  match rw_state c with
  | 0 => pit_load_count val now c
  | 1 => pit_load_count (val ≪ 8) now c
  | 2 | 3 =>
      let c1 := if tst (rw_state c) 1 then pit_load_count ((latched_count c .& 0xff) .| (val ≪ 8)) now c else ch_latched val c in
      ch_rw (Z.lxor (rw_state c) 1) c1
  | _ => c
  end.
Definition pit_control (now val : Z) (c : PITChannel) : option PITChannel :=
  match (val ≫ 4) .& 3 with
  | 0 => v ← pit_get_count now c; Some (ch_rw RW_STATE_LATCHED_WORD0 (ch_latched v c))
  | access => Some (ch_rw (access - 1 + RW_STATE_LSB) (ch_mode ((val ≫ 1) .& 7) (val .& 1) c))
  end.
Definition pit_write (now offset val : Z) (s : PITState) : option PITState :=
  let addr := offset .& 3 in
  if addr =? 3 then
    let channel := val ≫ 6 in
    if channel =? 3 then Some s
    else
      c ← pit_channels s !! Z.to_nat channel;
      c' ← pit_control now val c;
      Some (set_channel (Z.to_nat channel) c' s)
  else
    c ← pit_channels s !! Z.to_nat addr;
    Some (set_channel (Z.to_nat addr) (pit_write_count now val c) s).
Definition pit_read_count (now : Z) (c : PITChannel) : option (Z * PITChannel) :=
  match rw_state c with
  | 0 | 1 | 2 | 3 =>
      count ← pit_get_count now c;
      Some (if tst (rw_state c) 1 then (count ≫ 8) .& 0xff else count .& 0xff, if tst (rw_state c) 2 then ch_rw (Z.lxor (rw_state c) 1) c else c)
  | _ => Some (if tst (rw_state c) 1 then latched_count c ≫ 8 else latched_count c .& 0xff, ch_rw (Z.lxor (rw_state c) 1) c)
  end.
Definition pit_read (now offset : Z) (s : PITState) : option (Z * PITState) :=
  let addr := offset .& 3 in
  if addr =? 3 then Some (0xff, s)
  else
    c ← pit_channels s !! Z.to_nat addr;
    r ← pit_read_count now c;
    Some (r.1, set_channel (Z.to_nat addr) r.2 s).
Definition speaker_write (val : Z) (s : PITState) : option PITState :=
  c ← pit_channels s !! 2%nat;
  Some (set_channel 2 (ch_gate (val .& 1) c) (mkPIT (pit_channels s) ((val ≫ 1) .& 1))).
Definition speaker_read (now : Z) (s : PITState) : option Z :=
  c ← pit_channels s !! 2%nat;
  out ← pit_get_out now c;
  Some ((speaker_data_on s ≪ 1) .| gate c .| (out ≪ 5)).
Definition pit_pulse : list pc_event := [SetIrq 1; SetIrq 0].
(** The delay in milliseconds to the next interrupt *)
Definition pit_delay (delay : Z) : Z := if delay <=? 0 then 0 else i32 (Z.quot delay (PIT_FREQ / 1000)).
Definition pit_update_irq (now : Z) (s : PITState) : option (Z * (list pc_event * PITState)) :=
  c ← pit_channels s !! 0%nat;
  let d := now - count_load_time c in
  match pit_mode c with
  | 2 | 3 =>
      let delay := last_irq_time c + pc_count c - d in
      Some (pit_delay delay,
            if delay <=? 0 then (pit_pulse, set_channel 0 (ch_irq_time (last_irq_time c + pc_count c) c) s) else ([], s))
  | _ =>
      if last_irq_time c =? 0 then
        let delay := pc_count c - d in
        Some (pit_delay delay, if delay <=? 0 then (pit_pulse, set_channel 0 (ch_irq_time d c) s) else ([], s))
      else Some (pit_delay PIT_FREQ, ([], s))
  end.

(** ** The clock *)
Definition RTC_SECONDS : nat := 0.
Definition RTC_MINUTES : nat := 2.
Definition RTC_HOURS : nat := 4.
Definition RTC_DAY_OF_WEEK : nat := 6.
Definition RTC_DAY_OF_MONTH : nat := 7.
Definition RTC_MONTH : nat := 8.
Definition RTC_YEAR : nat := 9.
Definition RTC_REG_A : nat := 10.
Definition RTC_REG_B : nat := 11.
Definition RTC_REG_C : nat := 12.
Definition RTC_REG_D : nat := 13.
Definition REG_A_UIP : Z := 0x80.
Definition REG_B_PIE : Z := 0x40.
Definition CMOS_FREQ : Z := 32768.
(** struct tm, and what the host gives: both times of day, the microseconds, the monotonic clock *)
Record tm := mkTm { tm_sec : Z; tm_min : Z; tm_hour : Z; tm_wday : Z; tm_mday : Z; tm_mon : Z; tm_year : Z }.
Record cmos_now := mkNow { local_tm : tm; gm_tm : tm; tv_usec : Z; mono_sec : Z; mono_nsec : Z }.
Record CMOSState := mkCMOS { cmos_index : Z; cmos_data : list Z; use_local_time : bool; irq_timeout : Z; irq_period : Z }.
Definition cmos_get (i : nat) (s : CMOSState) : Z := nth i (cmos_data s) 0.
Definition cmos_set (i : nat) (v : Z) (s : CMOSState) : CMOSState :=
  mkCMOS (cmos_index s) (<[i := u8 v]> (cmos_data s)) (use_local_time s) (irq_timeout s) (irq_period s).
Definition set_index v s := mkCMOS v (cmos_data s) (use_local_time s) (irq_timeout s) (irq_period s).
Definition set_timer t p s := mkCMOS (cmos_index s) (cmos_data s) (use_local_time s) t p.

Definition to_bcd (s : CMOSState) (a : Z) : Z :=
  if tst (cmos_get RTC_REG_B s) 0x04 then i32 a else i32 (((u32 a / 10) ≪ 4) .| (u32 a mod 10)).
Definition cmos_update_time (now : cmos_now) (set_century : bool) (s : CMOSState) : CMOSState :=
  let t := if use_local_time s then local_tm now else gm_tm now in
  let s := cmos_set RTC_SECONDS (to_bcd s (tm_sec t)) s in
  let s := cmos_set RTC_MINUTES (to_bcd s (tm_min t)) s in
  let s := if tst (cmos_get RTC_REG_B s) 0x02 then cmos_set RTC_HOURS (to_bcd s (tm_hour t)) s
           else
             let s := cmos_set RTC_HOURS (to_bcd s (Z.rem (tm_hour t) 12)) s in
             if 12 <=? tm_hour t then cmos_set RTC_HOURS (cmos_get RTC_HOURS s .| 0x80) s else s in
  let s := cmos_set RTC_DAY_OF_WEEK (to_bcd s (tm_wday t)) s in
  let s := cmos_set RTC_DAY_OF_MONTH (to_bcd s (tm_mday t)) s in
  let s := cmos_set RTC_MONTH (to_bcd s (tm_mon t + 1)) s in
  let s := cmos_set RTC_YEAR (to_bcd s (Z.rem (tm_year t) 100)) s in
  let s := if set_century then
             let val := to_bcd s (Z.quot (tm_year t) 100 + 19) in cmos_set 0x37 val (cmos_set 0x32 val s)
           else s in
  cmos_set RTC_REG_A (if tv_usec now <? 244 then cmos_get RTC_REG_A s .| REG_A_UIP else cmos_get RTC_REG_A s .& Z.lnot REG_A_UIP) s.
Definition cmos_init (now : cmos_now) (use_local_time : bool) : CMOSState :=
  let s := mkCMOS 0 (replicate 128 0) use_local_time 0 0 in
  let s := cmos_set RTC_REG_A 0x26 s in
  let s := cmos_set RTC_REG_B 0x02 s in
  let s := cmos_set RTC_REG_C 0x00 s in
  let s := cmos_set RTC_REG_D 0x80 s in
  cmos_update_time now true s.
Definition cmos_get_timer (now : cmos_now) : Z :=
  u32 (u32 (u32 (mono_sec now) * CMOS_FREQ) + u64 (u64 (mono_nsec now) * CMOS_FREQ) / 1000000000).
Definition cmos_update_timer (now : cmos_now) (s : CMOSState) : CMOSState :=
  let period_code := cmos_get RTC_REG_A s .& 0x0f in
  if tst (cmos_get RTC_REG_B s) REG_B_PIE && negb (period_code =? 0) then
    let period_code := if period_code <=? 2 then period_code + 7 else period_code in
    let period := 1 ≪ (period_code - 1) in
    set_timer (u32 (cmos_get_timer now + period) .& u32 (Z.lnot (period - 1))) period s
  else s.
Definition cmos_update_irq (now : cmos_now) (s : CMOSState) : list pc_event * CMOSState :=
  if tst (cmos_get RTC_REG_B s) REG_B_PIE then
    let d := u32 (cmos_get_timer now - irq_timeout s) in
    if 0 <=? i32 d then
      let s := cmos_set RTC_REG_C (cmos_get RTC_REG_C s .| 0xc0) s in
      ([SetIrq 1], set_timer (u32 (irq_timeout s + irq_period s)) (irq_period s) s)
    else ([], s)
  else ([], s).
Definition cmos_write (now : cmos_now) (offset data : Z) (s : CMOSState) : CMOSState :=
  if offset =? 0 then set_index (data .& 0x7f) s
  else
    let i := Z.to_nat (cmos_index s) in
    if decide (i = RTC_REG_A) then
      cmos_update_timer now (cmos_set RTC_REG_A ((data .& Z.lnot REG_A_UIP) .| (cmos_get RTC_REG_A s .& REG_A_UIP)) s)
    else if decide (i = RTC_REG_B) then cmos_update_timer now (cmos_set i data s)
    else cmos_set i data s.
Definition cmos_read (now : cmos_now) (offset : Z) (s : CMOSState) : Z * (list pc_event * CMOSState) :=
  if offset =? 0 then (0xff, ([], s))
  else
    let i := Z.to_nat (cmos_index s) in
    if decide (In i [RTC_SECONDS; RTC_MINUTES; RTC_HOURS; RTC_DAY_OF_WEEK; RTC_DAY_OF_MONTH; RTC_MONTH; RTC_YEAR; RTC_REG_A]) then
      let s := cmos_update_time now false s in (cmos_get i s, ([], s))
    else if decide (i = RTC_REG_C) then
      let ret := cmos_get i s in (ret, ([SetIrq 0], cmos_set RTC_REG_C 0x00 s))
    else (cmos_get i s, ([], s)).

(** ** The serial port is honest *)
Inductive serial_op := SerWrite (offset val : Z) | SerRead (offset : Z) | SerBreak.
Definition serial_step (o : serial_op) (s : SerialState) : list pc_event * SerialState :=
  match o with SerWrite offset val => serial_write offset val s | SerRead offset => (serial_read offset s).2 | SerBreak => serial_send_break s end.
Fixpoint serial_run (l : list serial_op) (s : SerialState) : list pc_event * SerialState :=
  match l with [] => ([], s) | o :: l' => let r := serial_step o s in let r' := serial_run l' r.2 in (r.1 ++ r'.1, r'.2) end.
(** The bytes written to the data register while it is not the divisor latch *)
Fixpoint sent (dlab : bool) (l : list serial_op) : list Z :=
  match l with
  | [] => []
  | SerWrite offset val :: l' =>
      if (offset .& 7) =? 3 then sent (tst (u8 val) UART_LCR_DLAB) l'
      else if ((offset .& 7) =? 0) && negb dlab then u8 val :: sent dlab l'
      else sent dlab l'
  | _ :: l' => sent dlab l'
  end.
Definition iir_of (s : SerialState) : Z :=
  if tst (lsr s) UART_LSR_DR && tst (ier s) UART_IER_RDI then UART_IIR_RDI
  else if tst (lsr s) UART_LSR_THRE && tst (ier s) UART_IER_THRI then UART_IIR_THRI else UART_IIR_NO_INT.
Record serial_ok (level : Z) (s : SerialState) : Prop := {
  so_iir : iir s = iir_of s;
  so_line : level = if iir s =? UART_IIR_NO_INT then 0 else 1;
  so_thre : tst (lsr s) UART_LSR_THRE = true;
}.
Lemma line_after_app level e1 e2 : line_after level (e1 ++ e2) = line_after (line_after level e1) e2.
Proof. apply fold_left_app. Qed.
Lemma outputs_app e1 e2 : outputs (e1 ++ e2) = outputs e1 ++ outputs e2.
Proof. unfold outputs. apply omap_app. Qed.
Lemma update_irq_ok level s : tst (lsr s) UART_LSR_THRE = true ->
  serial_ok (line_after level (serial_update_irq s).1) (serial_update_irq s).2 /\ outputs (serial_update_irq s).1 = [] /\
  lcr (serial_update_irq s).2 = lcr s.
Proof.
  intros H. split; [|done]. split; [done| |done]. cbn. fold (iir_of s). by destruct (iir_of s =? UART_IIR_NO_INT).
Qed.
Lemma tst_pow2 v k : 0 <= k -> tst v (2 ^ k) = Z.testbit v k.
Proof.
  intros Hk. unfold tst. destruct (Z.testbit v k) eqn:E.
  - apply negb_true_iff, Z.eqb_neq. intros H0. apply (f_equal (fun x => Z.testbit x k)) in H0.
    by rewrite Z.land_spec, E, Z.pow2_bits_true, Z.bits_0 in H0.
  - apply negb_false_iff, Z.eqb_eq, Z.bits_inj'. intros i Hi. rewrite Z.land_spec, Z.bits_0, Z.pow2_bits_eqb by done.
    destruct (Z.eqb_spec k i) as [->|]; [by rewrite E|apply andb_false_r].
Qed.
Lemma thre_lor v m : 0 <= m -> tst v UART_LSR_THRE || tst m UART_LSR_THRE = true -> tst (u8 (v .| m)) UART_LSR_THRE = true.
Proof.
  change UART_LSR_THRE with (2 ^ 5). rewrite !tst_pow2 by lia. intros Hm H. rewrite wrap_testbit, Z.lor_spec by lia. rewrite H. done.
Qed.
Lemma thre_clear v m : tst v UART_LSR_THRE = true -> Z.testbit m 5 = false -> tst (u8 (v .& Z.lnot m)) UART_LSR_THRE = true.
Proof.
  change UART_LSR_THRE with (2 ^ 5). rewrite !tst_pow2 by lia. intros H Hm. rewrite wrap_testbit, Z.land_spec, Z.lnot_spec, H, Hm by lia. done.
Qed.
Lemma serial_send_ok level v s : serial_ok (line_after level (serial_send v s).1) (serial_send v s).2 /\
  outputs (serial_send v s).1 = [u8 v] /\ lcr (serial_send v s).2 = lcr s.
Proof.
  unfold serial_send. destruct (serial_update_irq (set_lsr (u8 (_ .& _)) _)) as [e1 s1] eqn:E1.
  destruct (serial_update_irq (set_lsr (u8 (_ .| UART_LSR_TEMT)) _)) as [e2 s2] eqn:E2.
  cbn [fst snd]. set (s2' := set_lsr _ _) in E2. assert (tst (lsr s2') UART_LSR_THRE = true) as Ht.
  { unfold s2'. cbn [lsr set_lsr]. apply thre_lor; [done|]. by rewrite thre_lor by (done || apply orb_true_r). }
  destruct (update_irq_ok (line_after level (e1 ++ [Output (u8 v)])) s2' Ht) as (H1 & H2 & H3). rewrite E2 in H1, H2, H3. cbn [fst snd] in *.
  rewrite app_assoc, line_after_app, !outputs_app, H2, app_nil_r. split; [done|]. split.
  - unfold serial_update_irq in E1. injection E1 as <- _. done.
  - rewrite H3. unfold s2'. cbn. unfold serial_update_irq in E1. by injection E1 as _ <-.
Qed.
Lemma serial_step_ok level o s : serial_ok level s ->
  serial_ok (line_after level (serial_step o s).1) (serial_step o s).2 /\
  (forall l, outputs (serial_step o s).1 ++ sent (tst (lcr (serial_step o s).2) UART_LCR_DLAB) l = sent (tst (lcr s) UART_LCR_DLAB) (o :: l)).
Proof.
  intros Ok. destruct o as [offset val|offset|]; cbn [serial_step sent].
  - unfold serial_write. assert (0 <= offset .& 7 < 8) as Ha.
    { change 7 with (Z.ones 3). rewrite Z.land_ones by lia. by apply Z.mod_pos_bound. }
    assert (forall s', iir s' = iir s -> lsr s' = lsr s -> ier s' = ier s -> serial_ok level s') as Hkeep.
    { intros s' E1 E2 E3. destruct Ok as [A1 A2 A3]. split; [|by rewrite E1|by rewrite E2]. unfold iir_of. by rewrite E1, E2, E3. }
    assert (offset .& 7 = 0 \/ offset .& 7 = 1 \/ offset .& 7 = 2 \/ offset .& 7 = 3 \/ offset .& 7 = 4 \/ offset .& 7 = 5 \/
      offset .& 7 = 6 \/ offset .& 7 = 7) as Hc by lia.
    destruct Hc as [-> | [-> | [-> | [-> | [-> | [-> | [-> | ->]]]]]]]; cbn [Z.eqb andb Pos.eqb];
      try (split; [by apply Hkeep|done]).
    + destruct (tst (lcr s) UART_LCR_DLAB) eqn:Ed; cbn [negb].
      * split; [by apply Hkeep|]. intros l. cbn. by rewrite Ed.
      * destruct (serial_send_ok level val s) as (H1 & H2 & H3). split; [done|]. intros l. by rewrite H2, H3, Ed.
    + destruct (tst (lcr s) UART_LCR_DLAB) eqn:Ed.
      * split; [by apply Hkeep|]. intros l. cbn. by rewrite Ed.
      * destruct (update_irq_ok level (set_ier (u8 val) s)) as (H1 & H2 & H3); [apply Ok|]. split; [done|]. intros l. rewrite H2, H3. cbn. by rewrite Ed.
  - unfold serial_read. assert (forall l, [] ++ sent (tst (lcr s) UART_LCR_DLAB) l = sent (tst (lcr s) UART_LCR_DLAB) l) as Hnil by done.
    destruct (offset .& 7) as [|p|p]; [| |].
    2: do 3 (destruct p as [p|p|]; cbn [snd]; try (by split)).
    all: destruct (tst (lcr s) UART_LCR_DLAB) eqn:Ed; cbn [snd]; [by split; [|intros; cbn; rewrite Ed]|].
    all: destruct (update_irq_ok level (set_lsr (u8 (lsr s .& Z.lnot (UART_LSR_DR .| UART_LSR_BI))) s)) as (H1 & H2 & H3);
      [apply thre_clear; [apply Ok|done]|]; (split; [done|]; intros l; rewrite H2, H3; cbn; by rewrite Ed).
  - destruct (update_irq_ok level (set_lsr (u8 (lsr (set_rbr 0 s) .| (UART_LSR_BI .| UART_LSR_DR))) (set_rbr 0 s))) as (H1 & H2 & H3).
    + apply thre_lor; [done|]. cbn. by rewrite (so_thre _ _ Ok).
    + split; [done|]. intros l. unfold serial_send_break. by rewrite H2, H3.
Qed.
(** After any accesses to the port and breaks, the bytes that went out are those written to the
    data register, in order; the interrupt identification is the one of the pending and enabled conditions,
    and the line is up exactly when there is one; the transmitter is ready. *)
Theorem serial_port_follows l : let r := serial_run l serial_init in
  outputs r.1 = sent false l /\ serial_ok (line_after 0 r.1) r.2.
Proof.
  enough (forall l level s, serial_ok level s -> outputs (serial_run l s).1 = sent (tst (lcr s) UART_LCR_DLAB) l /\
    serial_ok (line_after level (serial_run l s).1) (serial_run l s).2) as H by (apply H; by split).
  clear l. induction l as [|o l IHl]; intros level s Hok; [done|]. cbn [serial_run fst snd].
  destruct (serial_step_ok level o s Hok) as [H1 H2]. destruct (IHl _ _ H1) as [H3 H4].
  rewrite outputs_app, line_after_app, H3, H2. by split.
Qed.

(** ** The timer keeps its counts *)
Record channel_ok (c : PITChannel) : Prop := {
  co_count : 0 < pc_count c <= 0x10000;
  co_latched : 0 <= latched_count c <= 0x10000;
  co_rw : 0 <= rw_state c <= 5;
  co_mode : 0 <= pit_mode c <= 7;
}.
Definition pit_ok (s : PITState) : Prop := length (pit_channels s) = 3%nat /\ Forall channel_ok (pit_channels s).
Lemma load_ok v now c : 0 <= v <= 0xffff -> channel_ok c -> channel_ok (pit_load_count v now c).
Proof.
  intros Hv [A1 A2 A3 A4]. split; try done. cbn. destruct (Z.eqb_spec v 0); [lia|]. rewrite wrap_fits by (unfold fits; lia). lia.
Qed.
Lemma set_channel_ok i c s : pit_ok s -> channel_ok c -> pit_ok (set_channel i c s).
Proof. intros [H1 H2] Hc. split; cbn; [by rewrite length_insert|]. by apply Forall_insert. Qed.
Lemma channel_at s i : pit_ok s -> (i < 3)%nat -> exists c, pit_channels s !! i = Some c /\ channel_ok c.
Proof.
  intros [H1 H2] Hi. destruct (lookup_lt_is_Some_2 (pit_channels s) i) as [c Hc]; [lia|]. exists c. split; [done|]. by eapply Forall_lookup_1.
Qed.
Lemma land3 x : 0 <= x .& 3 < 4.
Proof. change 3 with (Z.ones 2). rewrite Z.land_ones by lia. by apply Z.mod_pos_bound. Qed.
Lemma get_count_ok now c : channel_ok c -> exists v, pit_get_count now c = Some v /\ 0 <= v <= 0x10000.
Proof.
  intros [H _ _ _]. unfold pit_get_count. assert (forall x, exists v, Some (u32 (u64 x .& 0xffff)) = Some v /\ 0 <= v <= 0x10000) as H1.
  { intros x. eexists. split; [done|]. change 0xffff with (Z.ones 16). rewrite Z.land_ones by lia.
    pose proof (Z.mod_pos_bound (u64 x) (2 ^ 16) ltac:(lia)). rewrite wrap_fits by (unfold fits; lia). lia. }
  assert (exists v, (if pc_count c =? 0 then None else Some (u32 (pc_count c - u64 (now - count_load_time c) mod pc_count c))) = Some v /\ 0 <= v <= 0x10000) as H2.
  { rewrite (proj2 (Z.eqb_neq _ _)) by lia. eexists. split; [done|]. pose proof (Z.mod_pos_bound (u64 (now - count_load_time c)) (pc_count c) ltac:(lia)).
    rewrite wrap_fits by (unfold fits; lia). lia. }
  repeat case_match; done || apply H1.
Qed.
Lemma lxor_1 x : 0 <= x <= 5 -> 0 <= Z.lxor x 1 <= 5.
Proof. intros H. assert (x = 0 \/ x = 1 \/ x = 2 \/ x = 3 \/ x = 4 \/ x = 5) as Hc by lia. destruct Hc as [-> | [-> | [-> | [-> | [-> | ->]]]]]; done. Qed.
Lemma byte_and x : 0 <= x .& 0xff <= 0xff.
Proof. replace (x .& 0xff) with (x mod 2 ^ 8) by (symmetry; apply (Z.land_ones x 8); lia). pose proof (Z.mod_pos_bound x (2 ^ 8) ltac:(lia)). lia. Qed.
Lemma rw_cases (P : Z -> Prop) x : 0 <= x <= 5 -> P 0 -> P 1 -> P 2 -> P 3 -> P 4 -> P 5 -> P x.
Proof. intros H. assert (x = 0 \/ x = 1 \/ x = 2 \/ x = 3 \/ x = 4 \/ x = 5) as Hc by lia. by destruct Hc as [-> | [-> | [-> | [-> | [-> | ->]]]]]. Qed.
Lemma ch_rw_ok v c : channel_ok c -> 0 <= v <= 5 -> channel_ok (ch_rw v c).
Proof. intros [A1 A2 A3 A4] H. by split. Qed.
Lemma write_count_ok now val c : channel_ok c -> 0 <= val <= 0xff -> channel_ok (pit_write_count now val c).
Proof.
  intros Hc Hv. assert (0 <= val ≪ 8 <= 0xff00) as H8 by (rewrite Z.shiftl_mul_pow2 by lia; lia).
  assert (0 <= (latched_count c .& 0xff) .| (val ≪ 8) <= 0xffff) as Hw.
  { assert (fits 16 ((latched_count c .& 0xff) .| (val ≪ 8))) as [??]; [|lia]. pose proof (byte_and (latched_count c)).
    apply fits_lor; unfold fits; lia. }
  pose proof (load_ok val now c ltac:(lia) Hc) as L0. pose proof (load_ok (val ≪ 8) now c ltac:(lia) Hc) as L1. pose proof (load_ok _ now c Hw Hc) as L2.
  assert (channel_ok (ch_latched val c)) as L3 by (destruct Hc; split; try done; cbn; lia).
  unfold pit_write_count. generalize (co_rw _ Hc). generalize (rw_state c). intros x Hx. pattern x. apply (rw_cases _ x Hx); try done; by apply ch_rw_ok.
Qed.
Lemma control_ok now val c : channel_ok c -> exists c', pit_control now val c = Some c' /\ channel_ok c'.
Proof.
  intros Hc. unfold pit_control. destruct (get_count_ok now c Hc) as (v & -> & Hv). pose proof (land3 (val ≫ 4)) as H4.
  assert (0 <= (val ≫ 1) .& 7 <= 7) as Hm.
  { replace ((val ≫ 1) .& 7) with ((val ≫ 1) mod 2 ^ 3) by (symmetry; apply (Z.land_ones _ 3); lia). pose proof (Z.mod_pos_bound (val ≫ 1) (2 ^ 3) ltac:(lia)). lia. }
  destruct Hc as [B1 B2 B3 B4].
  destruct ((val ≫ 4) .& 3) as [|p|p] eqn:E4; [| |lia]; (eexists; split; [reflexivity|]; split; cbn; try done). unfold RW_STATE_LSB. lia.
Qed.
Lemma read_count_ok now c : channel_ok c -> exists v c', pit_read_count now c = Some (v, c') /\ channel_ok c' /\ 0 <= v <= 0x100.
Proof.
  intros Hc. unfold pit_read_count. destruct (get_count_ok now c Hc) as (v & -> & Hv). pose proof (ch_rw_ok) as Hrw.
  pose proof (byte_and v). pose proof (byte_and (v ≫ 8)). pose proof (byte_and (latched_count c)).
  assert (0 <= latched_count c ≫ 8 <= 0x100) as Hl.
  { destruct Hc as [_ A _ _]. rewrite Z.shiftr_div_pow2 by lia. change (2 ^ 8) with 256. split; [apply Z.div_pos; lia|]. apply Z.div_le_upper_bound; lia. }
  generalize (co_rw _ Hc). generalize (rw_state c). intros x Hx.
  pattern x. apply (rw_cases _ x Hx); (eexists _, _; split; [reflexivity|]; split; [try case_match; first [done|by apply ch_rw_ok]|case_match; lia]).
Qed.
(** Every access to the ports, with a byte to write, succeeds (no count is zero) and keeps the channels in their
    ranges; what is read is a byte, or the upper part of a latched count of 65536. *)
Theorem pit_total now offset val s : pit_ok s -> 0 <= val <= 0xff ->
  (exists s', pit_write now offset val s = Some s' /\ pit_ok s') /\
  (exists v s', pit_read now offset s = Some (v, s') /\ pit_ok s' /\ 0 <= v <= 0x100) /\
  (exists s', speaker_write val s = Some s' /\ pit_ok s') /\
  (exists r, pit_update_irq now s = Some r /\ pit_ok r.2.2).
Proof.
  intros Hok Hv. pose proof (land3 offset) as Ha. split; [|split; [|split]].
  - unfold pit_write. destruct (Z.eqb_spec (offset .& 3) 3) as [E|E].
    + assert (0 <= val ≫ 6 < 4) as Hc.
      { rewrite Z.shiftr_div_pow2 by lia. change (2 ^ 6) with 64. split; [apply Z.div_pos; lia|apply Z.div_lt_upper_bound; lia]. }
      destruct (Z.eqb_spec (val ≫ 6) 3); [by exists s|]. destruct (channel_at s (Z.to_nat (val ≫ 6)) Hok) as (c & -> & Hc'); [lia|].
      destruct (control_ok now val c Hc') as (c' & E' & H'). cbn [mbind option_bind]. rewrite E'. eexists. split; [reflexivity|]. by apply set_channel_ok.
    + destruct (channel_at s (Z.to_nat (offset .& 3)) Hok) as (c & -> & Hc'); [lia|]. eexists. split; [reflexivity|].
      apply set_channel_ok; [done|]. by apply write_count_ok.
  - unfold pit_read. destruct (Z.eqb_spec (offset .& 3) 3) as [E|E]; [exists 0xff, s; by split|].
    destruct (channel_at s (Z.to_nat (offset .& 3)) Hok) as (c & -> & Hc'); [lia|]. destruct (read_count_ok now c Hc') as (v & c' & E' & H' & Hv').
    cbn [mbind option_bind]. rewrite E'. eexists _, _. split; [reflexivity|]. split; [by apply set_channel_ok|done].
  - unfold speaker_write. destruct (channel_at s 2 Hok) as (c & -> & Hc'); [lia|]. eexists. split; [reflexivity|].
    apply set_channel_ok; [by destruct Hok|]. by destruct Hc'.
  - unfold pit_update_irq. destruct (channel_at s 0 Hok) as (c & -> & Hc'); [lia|]. cbn [mbind option_bind].
    assert (forall t, pit_ok (set_channel 0 (ch_irq_time t c) s)) as Hs by (intros t; apply set_channel_ok; [done|]; by destruct Hc').
    repeat case_match; (eexists; split; [reflexivity|]; cbn [snd]; try case_match; first [done|apply Hs]).
Qed.
(** The latch command keeps the count of its moment: the next two reads give its two bytes. *)
Theorem pit_latch_reads now t1 t2 i c s v : pit_channels s !! Z.to_nat i = Some c -> channel_ok c -> 0 <= i < 3 -> pit_get_count now c = Some v ->
  exists s1 s2 s3, pit_write now 3 (i ≪ 6) s = Some s1 /\ pit_read t1 i s1 = Some (v .& 0xff, s2) /\ pit_read t2 i s2 = Some (v ≫ 8, s3).
Proof.
  intros Hc Hok Hi Hv. assert ((i ≪ 6) ≫ 6 = i) as E1 by (rewrite Z.shiftr_shiftl_l by lia; apply Z.shiftl_0_r).
  assert (((i ≪ 6) ≫ 4) .& 3 = 0) as E2 by (assert (i = 0 \/ i = 1 \/ i = 2) as [-> | [-> | ->]] by lia; done).
  assert (i .& 3 = i) as E3 by (assert (i = 0 \/ i = 1 \/ i = 2) as [-> | [-> | ->]] by lia; done).
  assert (Z.to_nat i < length (pit_channels s))%nat as Hlt by (by eapply lookup_lt_Some).
  set (c1 := ch_rw RW_STATE_LATCHED_WORD0 (ch_latched v c)). set (c2 := ch_rw 5 c1). set (c3 := ch_rw 4 c2).
  exists (set_channel (Z.to_nat i) c1 s), (set_channel (Z.to_nat i) c2 s), (set_channel (Z.to_nat i) c3 s). split; [|split].
  - unfold pit_write. change (3 .& 3 =? 3) with true. cbv iota zeta. rewrite E1, (proj2 (Z.eqb_neq _ _)) by lia. rewrite Hc. cbn [mbind option_bind].
    unfold pit_control. rewrite E2, Hv. done.
  - unfold pit_read. rewrite E3, (proj2 (Z.eqb_neq _ _)) by lia. cbn [pit_channels set_channel]. rewrite list_lookup_insert_eq by done.
    cbn. do 2 f_equal. unfold set_channel. cbn. by rewrite list_insert_insert_eq.
  - unfold pit_read. rewrite E3, (proj2 (Z.eqb_neq _ _)) by lia. cbn [pit_channels set_channel]. rewrite list_lookup_insert_eq by done.
    cbn. do 2 f_equal. unfold set_channel. cbn. by rewrite list_insert_insert_eq.
Qed.
(** Reads leave the latched state only for its other half, and writes do not count in it, until a control word sets the
    mode again. *)
Lemma pit_stays_latched now val c : rw_state c = 4 \/ rw_state c = 5 ->
  pit_write_count now val c = c /\ exists v c', pit_read_count now c = Some (v, c') /\ (rw_state c' = 4 \/ rw_state c' = 5) /\ latched_count c' = latched_count c.
Proof. unfold pit_write_count, pit_read_count. intros [-> | ->]; (split; [done|]; eexists _, _; split; [reflexivity|]; cbn; auto). Qed.

(** ** The periodic interrupt *)
Fixpoint pit_calls (l : list Z) (s : PITState) : option (list pc_event * PITState) :=
  match l with
  | [] => Some ([], s)
  | now :: l' => r ← pit_update_irq now s; r' ← pit_calls l' r.2.2; Some (r.2.1 ++ r'.1, r'.2)
  end.
Definition pulses (n : Z) : list pc_event := concat (replicate (Z.to_nat n) pit_pulse).
(** Channel 0 counts periods of [c] ticks from [t0] on and has raised [n] interrupts. *)
Definition periodic (t0 c n : Z) (s : PITState) : Prop :=
  exists ch, pit_channels s !! 0%nat = Some ch /\ (pit_mode ch = 2 \/ pit_mode ch = 3) /\ 0 < c /\ pc_count ch = c /\ count_load_time ch = t0 /\
    last_irq_time ch = n * c.
Lemma pit_update_irq_step t0 c n now s : periodic t0 c n s -> 0 <= n <= (now - t0) / c ->
  let n' := Z.min (n + 1) ((now - t0) / c) in
  exists delay s', pit_update_irq now s = Some (delay, (pulses (n' - n), s')) /\ periodic t0 c n' s'.
Proof.
  intros (ch & Hch & Hm & Hc & E1 & E2 & E3) Hn. cbv zeta. unfold pit_update_irq. rewrite Hch. cbn [mbind option_bind]. rewrite E1, E2, E3.
  set (delay := n * c + c - (now - t0)). set (q := (now - t0) / c) in *.
  pose proof (Z.mul_div_le (now - t0) c Hc) as Hq1. pose proof (Z.mul_succ_div_gt (now - t0) c Hc) as Hq2. fold q in Hq1, Hq2.
  assert (Some (pit_delay delay, if delay <=? 0 then (pit_pulse, set_channel 0 (ch_irq_time (n * c + c) ch) s) else ([], s)) =
    match pit_mode ch with
    | 2 | 3 => Some (pit_delay delay, if delay <=? 0 then (pit_pulse, set_channel 0 (ch_irq_time (n * c + c) ch) s) else ([], s))
    | _ => if n * c =? 0 then Some (pit_delay (c - (now - t0)), if c - (now - t0) <=? 0 then (pit_pulse, set_channel 0 (ch_irq_time (now - t0) ch) s) else ([], s))
           else Some (pit_delay PIT_FREQ, ([], s))
    end) as <- by (by destruct Hm as [-> | ->]).
  assert (delay <= 0 <-> n + 1 <= q) as Hiff by (unfold delay; nia).
  destruct (Z.leb_spec delay 0) as [Hd|Hd].
  - rewrite Z.min_l by lia. replace (n + 1 - n) with 1 by lia. eexists _, _. split; [reflexivity|].
    exists (ch_irq_time (n * c + c) ch). cbn [pit_channels set_channel]. rewrite list_lookup_insert_eq by (by eapply lookup_lt_Some).
    split; [done|]. cbn. repeat (split; [done|]). lia.
  - rewrite Z.min_r by lia. assert (q = n) as -> by lia. rewrite Z.sub_diag. eexists _, _. split; [reflexivity|]. exists ch. repeat (split; [done|]). done.
Qed.
(** Calls at the times of a list, each at most [c] ticks behind the one before *)
Fixpoint every (c t : Z) (l : list Z) : Prop := match l with [] => True | a :: l' => t <= a <= t + c /\ every c a l' end.
Definition last_call (t : Z) (l : list Z) : Z := fold_left (fun _ a => a) l t.
Lemma every_last c l : forall t, every c t l -> t <= last_call t l.
Proof. induction l as [|a l IHl]; intros t H; [done|]. destruct H as [H1 H2]. specialize (IHl a H2). cbn. unfold last_call in IHl. lia. Qed.
Lemma pulses_app a b : 0 <= a -> 0 <= b -> pulses a ++ pulses b = pulses (a + b).
Proof. intros Ha Hb. unfold pulses. by rewrite <- concat_app, <- replicate_add, Z2Nat.inj_add. Qed.
(** C40: in the modes 2 and 3, when pit_update_irq is called at least once in every period, the calls up to any moment raise
    exactly as many interrupts as periods have ended: none is lost and none is early. *)
Theorem pit_periodic_irqs t0 c l : forall now0 s, let n := (now0 - t0) / c in periodic t0 c n s -> t0 <= now0 -> every c now0 l ->
  let m := (last_call now0 l - t0) / c in exists s', pit_calls l s = Some (pulses (m - n), s') /\ periodic t0 c m s'.
Proof.
  induction l as [|now l IHl]; intros now0 s n Hs Ht Hl.
  { cbv zeta. exists s. unfold last_call. cbn [fold_left]. fold n. rewrite Z.sub_diag. by split. }
  destruct Hl as [Hnow Hl]. assert (0 < c) as Hc by (destruct Hs as (?&?&?&?&_); lia).
  assert (n <= (now - t0) / c <= n + 1) as Hq.
  { split; [apply Z.div_le_mono; lia|]. unfold n.
    transitivity ((now0 - t0 + 1 * c) / c); [apply Z.div_le_mono; lia|]. rewrite Z.div_add by lia. lia. }
  assert (0 <= n) as Hn by (apply Z.div_pos; lia).
  destruct (pit_update_irq_step t0 c n now s Hs ltac:(lia)) as (delay & s1 & E & H1). rewrite Z.min_r in E, H1 by lia.
  destruct (IHl now s1 H1 ltac:(lia) Hl) as (s2 & E2 & H2). change (last_call now0 (now :: l)) with (last_call now l). exists s2. split; [|done].
  cbn [pit_calls]. rewrite E. cbn [mbind option_bind fst snd]. rewrite E2. cbn [mbind option_bind fst snd].
  pose proof (every_last c l now Hl). rewrite pulses_app by (try apply Z.le_0_sub; try apply Z.div_le_mono; lia). do 3 f_equal. lia.
Qed.
(** A programmed timer: the two bytes of a count and a mode are what channel 0 runs with. *)
Lemma pit_program t1 t2 t3 mode lo hi s c : pit_channels s !! 0%nat = Some c -> mode = 2 \/ mode = 3 -> 0 <= lo <= 0xff -> 0 <= hi <= 0xff ->
  let count := lo .| (hi ≪ 8) in
  exists s1 s2 s3, pit_write t1 3 (0x30 .| (mode ≪ 1)) s = Some s1 /\ pit_write t2 0 lo s1 = Some s2 /\ pit_write t3 0 hi s2 = Some s3 /\
    periodic t3 (if count =? 0 then 0x10000 else count) 0 s3.
Proof.
  intros Hc Hm Hlo Hhi. cbv zeta. assert (0 < length (pit_channels s))%nat as Hlt by (by eapply lookup_lt_Some).
  set (c1 := ch_rw 2 (ch_mode mode 0 c)). set (c2 := ch_rw 3 (ch_latched lo c1)).
  set (c3 := ch_rw 2 (pit_load_count ((lo .& 0xff) .| (hi ≪ 8)) t3 c2)).
  exists (set_channel 0 c1 s), (set_channel 0 c2 s), (set_channel 0 c3 s).
  assert (lo .& 0xff = lo) as El by (change 0xff with (Z.ones 8); rewrite Z.land_ones by lia; apply Z.mod_small; lia).
  split; [|split; [|split]].
  - assert (let v := 0x30 .| (mode ≪ 1) in v ≫ 6 = 0 /\ (v ≫ 4) .& 3 = 3 /\ (v ≫ 1) .& 7 = mode /\ v .& 1 = 0) as (E1 & E2 & E3 & E4)
      by (by destruct Hm as [-> | ->]).
    unfold pit_write. change (3 .& 3 =? 3) with true. cbv iota zeta. rewrite E1. change (0 =? 3) with false. change (Z.to_nat 0) with 0%nat.
    cbv iota. rewrite Hc. cbn [mbind option_bind]. unfold pit_control. rewrite E2, E3, E4. done.
  - unfold pit_write. change (0 .& 3) with 0. change (0 =? 3) with false. change (Z.to_nat 0) with 0%nat. cbn [pit_channels set_channel]. rewrite list_lookup_insert_eq by done.
    cbn. unfold set_channel. cbn. by rewrite list_insert_insert_eq.
  - unfold pit_write. change (0 .& 3) with 0. change (0 =? 3) with false. change (Z.to_nat 0) with 0%nat. cbn [pit_channels set_channel]. rewrite list_lookup_insert_eq by done.
    cbn. unfold set_channel. cbn. by rewrite list_insert_insert_eq.
  - exists c3. cbn [pit_channels set_channel]. rewrite list_lookup_insert_eq by done.
    assert (fits 16 (lo .| (hi ≪ 8))) as Hf by (apply fits_lor; unfold fits; rewrite ?Z.shiftl_mul_pow2 by lia; lia).
    split; [done|]. split; [done|]. unfold fits in Hf. cbn. rewrite El. destruct (Z.eqb_spec (lo .| (hi ≪ 8)) 0); [done|].
    rewrite wrap_fits by (unfold fits; lia). split; [lia|]. done.
Qed.

(** ** The time of day *)
Definition bcd_value (v : Z) : Z := (v ≫ 4) * 10 + (v .& 15).
(** The value of a register, in the format that the bit DM of register B selects *)
Definition decode_reg (s : CMOSState) (v : Z) : Z := if tst (cmos_get RTC_REG_B s) 0x04 then v else bcd_value v.
Definition tm_field (t : tm) (i : nat) : option Z :=
  match i with
  | 0%nat => Some (tm_sec t) | 2%nat => Some (tm_min t) | 4%nat => Some (tm_hour t) | 6%nat => Some (tm_wday t) | 7%nat => Some (tm_mday t)
  | 8%nat => Some (tm_mon t + 1) | 9%nat => Some (tm_year t mod 100) | _ => None
  end.
Record tm_ok (t : tm) : Prop := {
  t_sec : 0 <= tm_sec t <= 61; t_min : 0 <= tm_min t <= 59; t_hour : 0 <= tm_hour t <= 23; t_wday : 0 <= tm_wday t <= 6;
  t_mday : 1 <= tm_mday t <= 31; t_mon : 0 <= tm_mon t <= 11; t_year : 0 <= tm_year t;
}.
Lemma bcd_roundtrip a : 0 <= a <= 99 -> bcd_value (u8 (i32 (((u32 a / 10) ≪ 4) .| (u32 a mod 10)))) = a /\ u8 (i32 a) = a.
Proof.
  intros Ha. assert (Forall (fun a => bcd_value (u8 (i32 (((u32 a / 10) ≪ 4) .| (u32 a mod 10)))) = a /\ u8 (i32 a) = a) (seqZ 0 100)) as H
    by (apply (bool_decide_unpack _); vm_compute; exact I).
  rewrite list.Forall_forall in H. apply H. apply elem_of_seqZ. lia.
Qed.
Lemma cmos_get_set_eq i v s : (i < length (cmos_data s))%nat -> cmos_get i (cmos_set i v s) = u8 v.
Proof. intros Hi. unfold cmos_get. cbn. rewrite nth_lookup, list_lookup_insert_eq by done. done. Qed.
Lemma cmos_get_set_ne i j v s : i <> j -> cmos_get i (cmos_set j v s) = cmos_get i s.
Proof. intros Hi. unfold cmos_get. cbn. by rewrite !nth_lookup, list_lookup_insert_ne. Qed.
Lemma length_cmos_set i v s : length (cmos_data (cmos_set i v s)) = length (cmos_data s).
Proof. apply length_insert. Qed.
Lemma to_bcd_set i v s a : i <> RTC_REG_B -> to_bcd (cmos_set i v s) a = to_bcd s a.
Proof. intros Hi. unfold to_bcd. by rewrite cmos_get_set_ne. Qed.
Lemma decode_to_bcd s a : 0 <= a <= 99 -> decode_reg s (u8 (to_bcd s a)) = a.
Proof. intros Ha. unfold decode_reg, to_bcd. destruct (bcd_roundtrip a Ha). by destruct (tst _ _). Qed.
Definition time_of (now : cmos_now) (s : CMOSState) : tm := if use_local_time s then local_tm now else gm_tm now.
(** In the 24-hour mode, reading a register of the time gives its field of the time of day, in the binary or the BCD
    format that register B selects; there is no effect on the interrupt. *)
Theorem cmos_time_of_day now s i v (t := time_of now s) : length (cmos_data s) = 128%nat -> tst (cmos_get RTC_REG_B s) 0x02 = true -> tm_ok t ->
  cmos_index s = Z.of_nat i -> tm_field t i = Some v ->
  decode_reg s (cmos_read now 1 s).1 = v /\ (cmos_read now 1 s).2.1 = [].
Proof.
  intros Hl H24 [T1 T2 T3 T4 T5 T6 T7] Hi Hv. unfold cmos_read. change (1 =? 0) with false. cbv iota zeta. rewrite Hi, Nat2Z.id.
  assert (In i [RTC_SECONDS; RTC_MINUTES; RTC_HOURS; RTC_DAY_OF_WEEK; RTC_DAY_OF_MONTH; RTC_MONTH; RTC_YEAR; RTC_REG_A]) as Hin.
  { cbn. do 10 (destruct i as [|i]; [try done; tauto|]). done. }
  rewrite decide_True by done. cbn [fst snd]. split; [|done]. unfold cmos_update_time. fold (time_of now s). fold t. cbv zeta.
  rewrite !to_bcd_set by done. rewrite !(cmos_get_set_ne RTC_REG_B) by done. rewrite H24. cbv iota.
  rewrite Z.rem_mod_nonneg by lia. pose proof (Z.mod_pos_bound (tm_year t) 100).
  cbn [In] in Hin. destruct Hin as [<-|[<-|[<-|[<-|[<-|[<-|[<-|[<-|[]]]]]]]]]; cbn in Hv; try done; injection Hv as <-;
    (rewrite cmos_get_set_ne by done; repeat (first [rewrite cmos_get_set_eq by (rewrite ?length_cmos_set, Hl; unfold RTC_SECONDS, RTC_MINUTES, RTC_HOURS,
      RTC_DAY_OF_WEEK, RTC_DAY_OF_MONTH, RTC_MONTH, RTC_YEAR; lia)|rewrite cmos_get_set_ne by done]));
    rewrite ?to_bcd_set by done; apply decode_to_bcd; lia.
Qed.
(** The clock reads 0 for twelve in the 12-hour mode, and 80 (hexadecimal) at noon; the clock of the PC gives 12 and 92. *)
Example twelve_o_clock :
  let now h := let t := mkTm 0 0 h 0 1 0 126 in mkNow t t 500 0 0 in
  let s := cmos_write (now 0) 1 0 (cmos_write (now 0) 0 11 (cmos_init (now 0) false)) in
  let s := cmos_write (now 0) 0 4 s in
  (cmos_read (now 0) 1 s).1 = 0 /\ (cmos_read (now 12) 1 s).1 = 0x80.
Proof. split; vm_compute; reflexivity. Qed.
(** The upper byte of the divisor of the serial port is lost. *)
Example divisor_high_byte :
  let s := (serial_write 1 0x01 (serial_write 3 0x80 serial_init).2).2 in (serial_read 1 s).1 = 0.
Proof. vm_compute. reflexivity. Qed.

Definition demo_pit : PITState := pit_init 1000.
Lemma demo_pit_ok : pit_ok demo_pit.
Proof. split; [done|]. repeat (apply List.Forall_cons; [by split|]). apply List.Forall_nil. Qed.
Lemma pit_total_witness : exists s', pit_write 1500 3 0x34 demo_pit = Some s' /\ pit_ok s'.
Proof. destruct (pit_total 1500 3 0x34 demo_pit demo_pit_ok) as (H & _); [lia|exact H]. Defined.
Lemma pit_periodic_irqs_witness :
  exists s', pit_calls [50000; 110000; 150000; 150000] demo_pit = Some (pulses 2, s') /\ periodic 1000 0x10000 2 s'.
Proof.
  apply (pit_periodic_irqs 1000 0x10000 [50000; 110000; 150000; 150000] 1000 demo_pit); [|lia|cbn; lia].
  eexists. split; [vm_compute; reflexivity|]. cbn. repeat split; auto; lia.
Defined.
